(* ===== verification/_CoqProject ===== *)
-Q . S2P
Prelude.v
GoStd.v
Paths.v
Timestamps.v
Metrics.v
Monitors.v
MonitorRound.v
MonitorCases.v
Watch.v
Webhooks.v
Sans.v
Manifest.v
ManifestCases.v
Keyrings.v
KeyringCases.v
Volumes.v
Mirror.v
MirrorCases.v
Certs.v
Rotation.v
CertDeliveries.v
CertCases.v
VolSources.v
DeliveryCases.v
SourceCases.v
Cleanup.v
CleanupCases.v
BackupStore.v
Backups.v
BackupFlow.v
BackupCases.v
BackupRuns.v
BackupDemo.v
Caps.v
CapCache.v
Roles.v
Outbox.v
RoleGuards.v
AuthStore.v
Passwords.v
Auth.v
SignIn.v
AuthRuns.v
AuthCases.v
SignInCases.v
AuthLife.v
AuthDemo.v
Engines.v
Routes.v
BodyScope.v
RouteCases.v
RouteDemo.v
Deployments.v
Hooks.v
DeployFlow.v
ProvStore.v
Provision.v
Reconcile.v
ProvisionFacts.v
ProvisionKeeps.v
ProvisionPlans.v
ProvisionHonest.v
ProvisionCases.v
ProvisionDemo.v
CommandLine.v
