(* ===== verification/Prelude.v ===== *)
(** * Daffa, verified: authorisation, sign-in, deployments, monitoring, certificates, backups and provisioning

    Daffa is a console for Docker hosts and swarms written in Go. A server
    process keeps everything it knows in one SQL database (SQLite or Postgres),
    talks to the Docker daemons of the environments it manages, and deploys
    stacks: compose files taken from an editor or a git repository, applied by a
    detached runner container. This library models the parts of [src/internal/]
    that decide something, and proves what they promise.

    ** The program's parts and how they interact

    - A request is matched to a route of the table in [api/server.go], signed in by
      [auth/], and let through a guard that asks for the capability of the route
      where the request acts; a refusal is recorded. Ten routes name the host in the
      body, and their handlers ask first thing.
    - Who a request comes from is a session, an API token or a break-glass token
      ([auth/], [api/auth_handlers.go], [api/token_handlers.go]); sessions come from a
      password, an identity provider or break-glass.
    - What a user may do is the effective mask: the store computes it from
      memberships ([store/roles.go]), a process-wide cache keeps it ([caps/cache.go]),
      and the handlers ask it for one capability on one host ([caps/scoped.go]).
      Every write that can change a mask invalidates the cache.
    - A deployment is a row of the table [deployments] ([store/stacks.go]). The row
      whose status is "running" is the stack's lock; whoever inserted it must
      write its verdict. [api/deploy.go] claims the row, prepares the bundle,
      starts the runner, watches it and records how it ended; [api/deploy_hooks.go]
      is the pipeline a stack with hooks goes through instead.
    - The planner ([stacks/hooks.go]) decides from the compose file which services
      are hooks, checks them, and splits the file in the one the engine applies and
      the one the hooks run from.
    - The engine ([stacks/engine.go], compose or swarm) says which command does an
      action, and [stacks/status.go] what is running.
    - A push is delivered to [api/webhook_handlers.go]: the signature decides whether
      it is heard, then every linked stack and volume source gets a verdict; a stack
      is touched when a changed file matches a path it watches ([stacks/watch.go]).
    - Rules are evaluated over stored samples ([store/metrics.go],
      [monitor/evaluate.go], [store/monitors.go]): an alert is opened, kept or resolved
      per target, and its actions run under a cooldown.
    - What is worth telling goes through the outbox ([store/notify.go], [notify/]): a
      message per recipient and channel, tried by a worker until it is sent or dead.
    - Files reach volumes by one loop, [mirrorToVolume], over the nodes that hold the
      volume: keyrings ([store/keyrings.go], [api/keyring_*.go]), certificates
      ([api/cert_delivery.go], [api/fleet_delivery.go]) and volume sources
      ([api/volsource_*.go]) say what and keep a hash of what was written.
    - Authorities sign certificates and are rotated in two phases with an overlap
      ([api/cert_handlers.go], [store/certs.go]); a sweep renews what is due.
    - A backup is a pipe from a dump or a volume through compression and encryption
      into a bucket, started by a schedule or a person, one per job at a time
      ([backups/], [api/backup_*.go]).
    - A sweep removes unused images by policy ([dockerx/imagesweep.go],
      [api/cleanup_worker.go]).
    - A provisioning document ([manifest/]) declares resources by name. It is validated
      as a whole, authorised as a whole, and then planned or applied resource by
      resource ([api/manifest.go]) over the tables of all of the above; [cli/apply.go]
      is the command that sends it and deploys what it names.

    ** Files

    - [Prelude]: results and the [let*] of early returns, the tactics [inv_res],
      [bd] and [split_ifs], sorting and the order of texts, 64-bit wrap-around.
    - [GoStd]: the functions of Go's [strings], [path] and [strconv] that are used.
    - [Paths]: cleaning of slash-separated paths and the test "is or lies under".
    - [Timestamps] ([store/store.go], [ts]): the text a stored time is, and the
      order SQL compares it by.
    - [Metrics] ([store/metrics.go]): samples in a table per day, expiry, the read over
      the tables a range touches, charts.
    - [Monitors] ([store/monitors.go]): settings, rules and their stored form, alerts.
    - [MonitorRound] ([monitor/]): the evaluation query and a round of the evaluator,
      whose calls may fail; [MonitorCases]: retention, actions ([api/monitor_actions.go]),
      the hard cases, concrete databases.
    - [Watch] ([stacks/watch.go]): the patterns, as items matched over runes.
    - [Webhooks] ([api/webhook_handlers.go]): a delivery from signature to record.
    - [Sans] ([certs/certs.go]): what a certificate name is, and its stored form.
    - [Manifest] ([manifest/]): the document, [Validate] as a state transformer over the
      closures it shares, and what it accepts; [ManifestCases]: references, files.
    - [Keyrings] ([store/keyrings.go], [api/keyring_*.go]): the tables, the handlers, the
      delivered document, the reconciler, the worker and its alarms; [KeyringCases]: the
      document, convergence, the schedule, a concrete database.
    - [Volumes] ([volumes/]): a volume as a map from cleaned names, its manifest, the
      snapshot and the restore; [Mirror]: the loop over the nodes, whose calls may fail
      or stop half way, and [MirrorCases]: what any history of them leaves.
    - [Certs] ([store/certs.go], [api/cert_handlers.go]): authorities, leaves, issuing,
      uploading, both phases of a rotation with writes that fail; [Rotation]: the state
      machine of a rotation and its invariant; [CertCases]: trust through rotations.
    - [CertDeliveries] ([api/cert_delivery.go], [api/fleet_delivery.go]): which deliveries
      may share a volume, what each writes, the hashes, the reconcilers;
      [DeliveryCases]: convergence and where deliveries take files of each other.
    - [VolSources] ([store/volsources.go], [api/volsource_*.go]): sources, their files from
      a tree of a commit or from the table, the sync; [SourceCases]: what it spares.
    - [Cleanup] ([dockerx/imagesweep.go], [api/cleanup_worker.go]): policies, the choice of
      images, the schedule; [CleanupCases]: what a sweep spares, when it runs.
    - [BackupStore], [Backups], [BackupFlow] ([store/backups.go], [backups/],
      [api/backup_*.go]): the tables; the pipe and its way back; jobs, the scheduler, the
      snapshot and restore of a volume. [BackupCases], [BackupRuns], [BackupDemo]: round
      trips, invariants over any sequence of events, concrete jobs.
    - [AuthStore], [Passwords], [Auth], [SignIn] ([store/], [auth/], [api/auth_handlers.go],
      [api/user_handlers.go], [api/token_handlers.go]): accounts and credentials; hashes
      and their text; the throttle and [Resolve]; the handlers, as events of one step
      function. [AuthRuns], [AuthCases], [SignInCases], [AuthLife], [AuthDemo]: invariants
      over any sequence of events, the life of sessions and tokens, concrete runs.
    - [Caps] ([caps/caps.go], [caps/scoped.go]): the registry of capabilities, sets
      of them as masks per namespace, implied views, what can be held on one host.
    - [CapCache] ([caps/cache.go]): the cache over the class [Loader], which is all
      it needs of the store; a step relation for requests and writers that overlap.
    - [Roles] ([store/roles.go], parts of [store/models.go]): the tables as maps,
      each store operation as a function to the new database or the error it
      returns, and the effective mask, which is the [Loader] of [CapCache].
    - [RoleGuards]: what the last-administrator guards keep, over any sequence of
      operations, and where they do not reach.
    - [Outbox] ([store/notify.go], [notify/]): channels, rules, recipients, the outbox and
      the worker that drains it; what servers answer and which writes fail is input.
    - [Routes] ([api/server.go], [auth/middleware.go]): every route with its capability and
      scope, the matching of [net/http], the guards, CSRF; [BodyScope]: what the ten
      handlers of body-scoped routes check before they act ([mayUseEnv], [mayMonitor],
      [mayAct] and the beginning of each); [RouteCases], [RouteDemo].
    - [Deployments] ([store/stacks.go], from the type [Deployment] on): claim, bundle,
      container, verdict, cancel, listings and retention; every operation at once
      (SQLite serializes writers) and as the database statements it consists of,
      which on Postgres may interleave ([world], [event], [step], [run]).
    - [Engines] ([stacks/engine.go], [stacks/status.go], [tailBytes] of
      [stacks/runner.go]): the Go interface [Engine] as a record of operations.
    - [Hooks] ([stacks/hooks.go]): decoding, validation, the split, the plan.
    - [DeployFlow] ([api/deploy.go], [api/deploy_hooks.go]): the server state [Srv] holds
      the table, the live versions, notifications, audit rows, what was started and
      the goroutines left to run; every handler is a function on it.
    - [ProvStore] ([store/sshkeys.go], [gitcreds.go], [webhooks.go], [secretvalues.go],
      [manifests.go], [stacks.go], the audit log of [models.go]): the tables a document
      is applied to that have no file of their own.
    - [Provision] ([api/manifest.go]): the monad of a run - the tables, the memo, the
      report, which calls fail - and the ensure of each of the thirteen kinds;
      [Reconcile]: the preflight, the walk in [manifest.Order], [runManifest], the history.
    - [ProvisionFacts], [ProvisionKeeps], [ProvisionPlans], [ProvisionHonest]: four small
      logics over that monad - pieces that write nothing, tables that only grow, a plan
      beside an apply, verdicts that tell of writes; [ProvisionCases]: the properties;
      [ProvisionDemo]: concrete documents.
    - [CommandLine] ([cli/apply.go]): [daffa plan] and [daffa apply].

    ** What the theorems show

    - Authorisation: a user holds a capability on a host exactly when a membership
      says so; a scoped membership never yields a global-only capability, whatever
      the tables hold; the re-sync from the identity provider replaces exactly its
      own grants; every operation keeps the foreign keys; no sequence of guarded
      operations leaves nobody able to administer. The cache is exact after an
      invalidation no load straddles.
    - Routes: no two routes share a request, no handler acts past its guard or, where
      the host is in the body, its own check; a missing object and a hidden one are
      refused alike.
    - Sign-in: whoever is let in earned a session or holds a token of an enabled
      account, over any sequence of events; tokens cannot set passwords; guessing one
      at a time is throttled; a hash verifies the password it was made of.
    - Deployments: at most one running row per stack under every interleaving; the
      claim, retention and feed queries by their specification; an acknowledged
      cancellation decides the verdict; every accepted deploy ends.
    - Pipeline: the engine runs only after the blocking pre hooks succeeded, post
      hooks only after the engine did, a rollback never triggers another one; the
      split of the compose file loses and shares nothing; what validation accepts
      can be carried out.
    - Status: when a stack reads running, stopped, partial or not deployed.
    - Monitoring: a round takes each target through the alert machine, once per row
      that names it; while look-ups do not fail, at most one firing alert per rule
      and target; silence is not recovery; actions keep their
      cooldown; reading only the tables a range touches loses nothing.
    - Deliveries of pushes: nothing happens without the signature; a target acts exactly
      when its rules say so, at most once; a pattern matches segment by segment.
    - Outbox: whatever happens no message is lost or, with working writes, sent
      twice, and while a worker drains every message ends as sent or dead.
    - Keyrings: one active version whatever is done, a version never changes its key;
      one sweep makes every reachable volume hold what its keyring asks for.
    - Volumes: writers of a volume do not touch each other's files; whatever failed
      before, an attempt that succeeds leaves what was asked for; sources of clean
      names spare the files of deliveries.
    - Certificates: the tables stay well formed, whatever is interrupted; through a
      rotation that is not interrupted within its promotion every certificate stays
      trusted wherever it was; a delivery that is not refused converges.
    - Backups: a dump and a volume come back; what is encrypted stays readable by its
      keys only; the containers stopped for a snapshot are asked to start again; a job
      never has two runs, and a run that ends in its four hours is told once.
    - Cleanup: a sweep spares what is in use, pinned or young; the schedule is that of
      the policies.
    - Documents: [Validate] accepts exactly the well-formed ones; in those every
      reference expands and no file leaves its volume; stored certificate names
      normalize to themselves. A document is refused exactly when its sender lacks a
      capability it asks for; an apply removes nothing but the inline files a document
      replaces, a plan changes nothing and
      foretells the apply up to blocked resources; a report is complete, its
      summary counts it, and what it says was left alone was left alone; the
      command's exit code reads it.
    - Where the code departs from what it says, a theorem states what it does: a
      cache entry that stays stale, guards that overlap, a lost cancellation, a
      teardown whose verdict cannot be written, a rollback lost at the deadline, an
      authorisation that a failing lookup grants, slots no exit code shows, a backup
      too late to be told, an activation interrupted in its promotion, a file name
      that is not clean.

    ** Modelling choices

    Time is an integer number of nanoseconds; a context is its deadline, and a
    database call under an expired one fails without writing. A runner is the
    record [Run] of what starting it and waiting for it return and how long that
    takes; the daemon is a snapshot of its answers. Calls that may fail take their
    fate from a list the theorems quantify over ([rn_faults] of [Provision], [Writes]
    of [Certs], the attempts of [Mirror]). Integers that Go wraps are wrapped ([wrap64])
    where the wrap can be observed. Loops over lists are structural folds and need no
    fuel; the polling loop of [CommandLine] runs until its context is done, which is
    its argument [patience]. Map iteration is a list in some order, and theorems
    quantify over the order where it could matter.

    What is not in the repository is a parameter: classes [Crypto] (x509 and the
    sealer), [Argon] and [Digest] (argon2id, SHA-256), [JSON], [Codec] and [TarFormat]
    (compression, age, tar), [Draws] (key pairs, random bytes, ids, the clock, address
    parsing and case folding); the compose loader, the YAML and JSON libraries,
    [net/url], [time.ParseDuration] and the cron parser are arguments of the
    definitions that use them. A theorem that relies on one of them states what it
    relies on, and its witness instantiates it.

    ** Not modelled

    Handlers that only decode a request, call one store operation and encode the
    answer (lists, views, most edits of stacks, credentials and settings); the web
    console and the OpenAPI document; migrations and the SQL drivers, whose keys,
    indexes and cascades are part of the modelled tables; process start and flags;
    agents, tunnels and SSH provisioning, which are network transport; the clone of a
    git source and the containers that carry files, whose results are inputs; the
    restarting of consumers after a delivery; rendering and sending of messages; the
    collection of samples; building the bundle (source checkout, secrets, registry
    credentials), whose result is an input of [deploy]; the other commands of the
    command line (upgrade, restore). They decide little by themselves, or decide
    from answers of Docker that this library takes as inputs. *)

From stdpp Require Export base list strings gmap sorting.
From Stdlib Require Export ZArith Lia Ascii OrdersEx.
(* Stdlib's String shadows nothing stdpp.strings exports: it is loaded there already. *)

#[export] Set Default Goal Selector "!".

Declare Scope daffa_scope.
Delimit Scope daffa_scope with daffa.
Open Scope daffa_scope.

(** ** Fallible code

    A Go function returning [(T, error)] becomes a [res E T]: [Ok] when the
    error is nil, [Err e] otherwise. [let*] is the early return the Go code
    writes as [if err != nil { return err }]. *)
Inductive res (E A : Type) : Type :=
| Ok (a : A)
| Err (e : E).
Arguments Ok {E A} a.
Arguments Err {E A} e.

Definition rbind {E A B} (m : res E A) (k : A -> res E B) : res E B :=
  match m with Ok a => k a | Err e => Err e end.

Notation "'let*' x ':=' m 'in' k" := (rbind m (fun x => k))
  (at level 10, x pattern, k at level 200) : daffa_scope.

(** [guard b e]: the Go idiom [if !b { return e }]. *)
Definition rguard {E} (b : bool) (e : E) : res E unit := if b then Ok tt else Err e.

Definition is_ok {E A} (m : res E A) : bool := match m with Ok _ => true | Err _ => false end.

Lemma rbind_ok_inv {E A B} (m : res E A) (k : A -> res E B) b :
  rbind m k = Ok b -> exists a, m = Ok a /\ k a = Ok b.
Proof. destruct m; simpl; [eauto | discriminate]. Qed.

Lemma rguard_ok_inv {E} b (e : E) u : rguard b e = Ok u -> b = true.
Proof. by destruct b. Qed.

(** ** Tactics

    [inv_res] undoes one step of a successful [let*] chain; [bd] turns the
    boolean tests the code performs into propositions. *)
Ltac inv_res :=
  repeat match goal with
  | H : rbind _ _ = Ok _ |- _ => apply rbind_ok_inv in H as (? & ? & ?)
  | H : rguard _ _ = Ok _ |- _ => apply rguard_ok_inv in H
  | H : Ok _ = Ok _ |- _ => injection H as H; subst
  | H : Err _ = Ok _ |- _ => discriminate H
  | H : Ok _ = Err _ |- _ => discriminate H
  end.

Ltac bd :=
  repeat match goal with
  | H : _ && _ = true |- _ => apply andb_prop in H as [? ?]
  | H : _ || _ = false |- _ => apply orb_false_elim in H as [? ?]
  | H : negb _ = true |- _ => apply negb_true_iff in H
  | H : negb _ = false |- _ => apply negb_false_iff in H
  | H : bool_decide _ = true |- _ => apply bool_decide_eq_true_1 in H
  | H : bool_decide _ = false |- _ => apply bool_decide_eq_false_1 in H
  | H : (_ <=? _)%Z = true |- _ => apply Z.leb_le in H
  | H : (_ <=? _)%Z = false |- _ => apply Z.leb_gt in H
  | H : (_ <? _)%Z = true |- _ => apply Z.ltb_lt in H
  | H : (_ <? _)%Z = false |- _ => apply Z.ltb_ge in H
  | H : (_ <=? _)%nat = true |- _ => apply Nat.leb_le in H
  | H : (_ <=? _)%nat = false |- _ => apply Nat.leb_gt in H
  end.

(** [split_ifs]: case analysis on every [if] and [match] of the goal. *)
Ltac split_ifs := repeat (case_match; simplify_eq/=; try done).

Create HintDb daffa discriminated.
#[export] Hint Constructors NoDup Forall : daffa.

(** ** Lists *)

Lemma existsb_elem {A} (f : A -> bool) l :
  existsb f l = true <-> exists x, x ∈ l /\ f x = true.
Proof.
  rewrite existsb_exists. setoid_rewrite <- list_elem_of_In. done.
Qed.

Lemma existsb_false {A} (f : A -> bool) l :
  existsb f l = false <-> forall x, x ∈ l -> f x = false.
Proof.
  rewrite <- not_true_iff_false, existsb_elem. split.
  - intros Hne x Hx. apply not_true_iff_false. eauto.
  - intros Hall (x & Hx & Hf). rewrite (Hall x Hx) in Hf. done.
Qed.

Lemma forallb_elem {A} (f : A -> bool) l :
  forallb f l = true <-> forall x, x ∈ l -> f x = true.
Proof.
  rewrite forallb_forall. setoid_rewrite <- list_elem_of_In. done.
Qed.

(** The checks the code makes over a whole registry are booleans the kernel
    evaluates: [by_registry H] proves a [forall x, x ∈ l -> P x] from the
    evaluation of the boolean version. *)
Lemma forallb_Forall {A} (f : A -> bool) l : forallb f l = true -> Forall (fun x => f x = true) l.
Proof. rewrite forallb_elem, Forall_forall. done. Qed.

Lemma flat_map_elem {A B} (f : A -> list B) l y :
  y ∈ flat_map f l <-> exists x, x ∈ l /\ y ∈ f x.
Proof.
  rewrite list_elem_of_In, in_flat_map. setoid_rewrite list_elem_of_In. done.
Qed.

(** A stable insertion sort by a decidable strict order. [sort.SliceStable]
    and the SQL [ORDER BY]s of the store are modelled with it. *)
Section stable_sort.
Context {A : Type} (ltb : A -> A -> bool).

Fixpoint sinsert (x : A) (l : list A) : list A :=
  match l with
  | [] => [x]
  | y :: l' => if ltb y x then y :: sinsert x l' else x :: y :: l'
  end.

Fixpoint ssort (l : list A) : list A :=
  match l with [] => [] | x :: l' => sinsert x (ssort l') end.

Lemma sinsert_perm x l : sinsert x l ≡ₚ x :: l.
Proof.
  induction l as [|y l IH]; simpl; [done|].
  destruct (ltb y x); [|done]. rewrite IH. apply perm_swap.
Qed.

Lemma ssort_perm l : ssort l ≡ₚ l.
Proof. induction l as [|x l IH]; simpl; [done|]. by rewrite sinsert_perm, IH. Qed.

Lemma elem_of_ssort x l : x ∈ ssort l <-> x ∈ l.
Proof. by rewrite ssort_perm. Qed.

Context (ltb_trans : forall x y z, ltb x y = true -> ltb y z = true -> ltb x z = true).
Context (ltb_asym : forall x y, ltb x y = true -> ltb y x = false).
Context (ltb_neg_trans : forall x y z, ltb x y = false -> ltb y z = false -> ltb x z = false).

(** [x] may come before [y]: nothing puts [y] strictly before [x]. *)
Definition sle x y := ltb y x = false.

Lemma sinsert_sorted x l : StronglySorted sle l -> StronglySorted sle (sinsert x l).
Proof using ltb_asym ltb_neg_trans.
  induction 1 as [|y l Hl IH Hy]; simpl; [repeat constructor|].
  destruct (ltb y x) eqn:E.
  - constructor; [done|]. rewrite Forall_forall in Hy |- *. intros z Hz.
    rewrite sinsert_perm in Hz. apply elem_of_cons in Hz as [->|Hz]; [|by apply Hy].
    by apply ltb_asym.
  - constructor; [by constructor|]. constructor; [done|].
    rewrite Forall_forall in Hy |- *. intros z Hz. specialize (Hy z Hz).
    unfold sle in *. eauto.
Qed.

Lemma ssort_sorted l : StronglySorted sle (ssort l).
Proof using ltb_asym ltb_neg_trans.
  induction l; simpl; [constructor|]. by apply sinsert_sorted.
Qed.

(** Stability: the sub-list of elements equivalent to [x] (neither before nor
    after it) keeps its order. *)
Definition seqv x y := negb (ltb x y) && negb (ltb y x).

Lemma sinsert_filter_eqv p x l :
  List.filter (seqv p) (sinsert x l) = List.filter (seqv p) (x :: l).
Proof using ltb_trans ltb_asym ltb_neg_trans.
  induction l as [|y l IH]; simpl; [done|].
  destruct (ltb y x) eqn:E; [|done]. simpl. rewrite IH. simpl.
  destruct (seqv p x) eqn:Hx, (seqv p y) eqn:Hy; try done.
  apply andb_prop in Hx as [Hpx _], Hy as [_ Hyp].
  apply negb_true_iff in Hpx, Hyp.
  by rewrite (ltb_neg_trans y p x Hyp Hpx) in E.
Qed.

Lemma ssort_stable p l : List.filter (seqv p) (ssort l) = List.filter (seqv p) l.
Proof using ltb_trans ltb_asym ltb_neg_trans.
  induction l as [|x l IH]; simpl; [done|].
  rewrite sinsert_filter_eqv. simpl. by rewrite IH.
Qed.
End stable_sort.

(** ** Options and booleans *)

Definition opt_default {A} (d : A) (o : option A) : A := match o with Some a => a | None => d end.

Lemma bool_iff (b c : bool) : (b = true <-> c = true) -> b = c.
Proof. destruct b, c; intros [H1 H2]; [done | symmetry; auto | auto | done]. Qed.

(** Go's [int] is 64 bits wide on every platform Daffa builds for: arithmetic
    wraps around. *)
Definition wrap64 (z : Z) : Z := (z + 2^63) `mod` 2^64 - 2^63.

Lemma wrap64_range z : (- 2^63 <= wrap64 z < 2^63)%Z.
Proof. unfold wrap64. pose proof (Z.mod_pos_bound (z + 2^63) (2^64)). lia. Qed.

Lemma wrap64_id z : (- 2^63 <= z < 2^63)%Z -> wrap64 z = z.
Proof. intros H. unfold wrap64. rewrite Z.mod_small; lia. Qed.

(** ** The order of strings

    [String.ltb] is the byte-wise order of [sort.Strings] and of a text column
    compared bytewise: a strict total order. *)
Lemma str_ltb_lt a b : String.ltb a b = true <-> String_as_OT.lt a b.
Proof.
  unfold String.ltb, String_as_OT.lt. change String_as_OT.compare with String.compare.
  by destruct (String.compare a b).
Qed.

Lemma str_ltb_irrefl a : String.ltb a a = false.
Proof. apply not_true_iff_false. rewrite str_ltb_lt. apply StrictOrder_Irreflexive. Qed.

Lemma str_ltb_trans a b c : String.ltb a b = true -> String.ltb b c = true -> String.ltb a c = true.
Proof. rewrite !str_ltb_lt. apply StrictOrder_Transitive. Qed.

Lemma str_ltb_asym a b : String.ltb a b = true -> String.ltb b a = false.
Proof.
  intros H. apply not_true_iff_false. intros H'. pose proof (str_ltb_trans _ _ _ H H') as Hi.
  by rewrite str_ltb_irrefl in Hi.
Qed.

Lemma str_ltb_total a b : String.ltb a b = false -> String.ltb b a = false -> a = b.
Proof.
  rewrite <- !not_true_iff_false, !str_ltb_lt.
  destruct (String_as_OT.compare_spec a b) as [->| |]; [done | by intros [] | by intros _ []].
Qed.

Lemma str_ltb_neg_trans a b c : String.ltb a b = false -> String.ltb b c = false -> String.ltb a c = false.
Proof.
  intros Hab Hbc. apply not_true_iff_false. intros Hac.
  destruct (String.ltb b a) eqn:Hba.
  - by rewrite (str_ltb_trans _ _ _ Hba Hac) in Hbc.
  - rewrite (str_ltb_total a b) in Hac by done. by rewrite Hbc in Hac.
Qed.

(** Sorting by a string key, newest (greatest) first: [ORDER BY key DESC]. *)
Definition by_key_desc {A} (key : A -> string) (x y : A) : bool := String.ltb (key y) (key x).

Lemma desc_sorted {A} (key : A -> string) l : StronglySorted (sle (by_key_desc key)) (ssort (by_key_desc key) l).
Proof.
  apply ssort_sorted; unfold by_key_desc; [intros x y; apply str_ltb_asym | intros x y z H1 H2].
  by apply (str_ltb_neg_trans _ (key y)).
Qed.

Lemma sorted_take_drop {A} (R : A -> A -> Prop) n l x y :
  StronglySorted R l -> x ∈ take n l -> y ∈ drop n l -> R x y.
Proof.
  revert n. induction l as [|a l IH]; intros [|n] Hs Hx Hy; simpl in *; try (by apply elem_of_nil in Hx).
  inversion Hs as [|? ? Hl Ha]; subst. apply elem_of_cons in Hx as [->|Hx]; [|by eapply IH].
  rewrite Forall_forall in Ha. apply Ha. rewrite <- (take_drop n l). apply elem_of_app. by right.
Qed.

(** The SQL [ORDER BY key DESC LIMIT n]: at most [n] rows, and no row left out
    has a greater key than one taken. *)
Definition top {A} (key : A -> string) (n : nat) (l : list A) : list A := take n (ssort (by_key_desc key) l).

Lemma top_elem {A} (key : A -> string) n l x : x ∈ top key n l -> x ∈ l.
Proof.
  unfold top. intros H. apply (elem_of_ssort (by_key_desc key)). rewrite <- (take_drop n (ssort _ _)).
  apply elem_of_app. by left.
Qed.

Lemma top_best {A} (key : A -> string) n l x y :
  x ∈ top key n l -> y ∈ l -> y ∉ top key n l -> String.ltb (key x) (key y) = false.
Proof.
  unfold top. intros Hx Hy Hn. apply (elem_of_ssort (by_key_desc key)) in Hy.
  rewrite <- (take_drop n (ssort _ _)) in Hy. apply elem_of_app in Hy as [Hy|Hy]; [done|].
  apply (sorted_take_drop _ _ _ _ _ (desc_sorted key l) Hx Hy).
Qed.

Lemma top_length {A} (key : A -> string) n l : length (top key n l) = Nat.min n (length l).
Proof. unfold top. by rewrite length_take, ssort_perm. Qed.

(** Filters and maps of lists of rows. *)
Lemma filter_perm {A} (f : A -> bool) l l' : l ≡ₚ l' -> List.filter f l ≡ₚ List.filter f l'.
Proof.
  induction 1 as [|x l l' _ IH|x y l|l l' l'' _ IH1 _ IH2]; simpl; [done| | |by etrans].
  - destruct (f x); by rewrite ?IH.
  - destruct (f x), (f y); [apply perm_swap|done..].
Qed.

Lemma elem_of_filter_b {A} (f : A -> bool) l x : x ∈ List.filter f l <-> x ∈ l /\ f x = true.
Proof. by rewrite !list_elem_of_In, filter_In. Qed.

Lemma NoDup_map_filter {A B} (f : A -> B) p l : NoDup (map f l) -> NoDup (map f (List.filter p l)).
Proof.
  induction l as [|x l IH]; simpl; [done|]. inversion 1 as [|? ? Hx Hl]; subst.
  destruct (p x); [|by apply IH]. simpl. constructor; [|by apply IH].
  intros Hin. apply Hx. apply list_elem_of_fmap in Hin as (y & -> & Hy). apply elem_of_filter_b in Hy as [Hy _].
  apply list_elem_of_fmap. eauto.
Qed.

Lemma NoDup_map_inj {A B} (f : A -> B) l x y : NoDup (map f l) -> x ∈ l -> y ∈ l -> f x = f y -> x = y.
Proof.
  induction l as [|z l IH]; simpl; [by intros _ ?%elem_of_nil|].
  intros [Hni Hnd]%NoDup_cons [->|Hx]%elem_of_cons [->|Hy]%elem_of_cons E; [done| | |auto]; destruct Hni.
  - rewrite E. by apply list_elem_of_fmap_2.
  - rewrite <- E. by apply list_elem_of_fmap_2.
Qed.
