(* ===== verification/GoStd.v ===== *)
(** * The parts of Go's standard library the modelled code uses

    [strings], [path], [strconv] and [unicode/utf8], as functions on byte
    strings (a Go string is a sequence of bytes, and so is a Rocq [string]).
    Nothing here is Daffa's own code: these definitions state what the library
    functions compute, so that the components can call them by name. *)
From S2P Require Import Prelude.
Local Open Scope string_scope.

(** ** strings *)
Module strings.

Fixpoint HasPrefix (s p : string) {struct p} : bool :=
  match p, s with
  | EmptyString, _ => true
  | String _ _, EmptyString => false
  | String c p', String d s' => bool_decide (c = d) && HasPrefix s' p'
  end.

Fixpoint drop (n : nat) (s : string) : string :=
  match n, s with
  | S n', String _ s' => drop n' s'
  | _, _ => s
  end.

Definition TrimPrefix (s p : string) : string :=
  if HasPrefix s p then drop (String.length p) s else s.

Definition HasSuffix (s suf : string) : bool :=
  (String.length suf <=? String.length s)%nat &&
  bool_decide (drop (String.length s - String.length suf) s = suf).

(** [strings.Contains(s, sub)] and [strings.ContainsAny(s, chars)], the latter
    for a set of ASCII characters. *)
Fixpoint Contains (s sub : string) : bool :=
  HasPrefix s sub || match s with EmptyString => false | String _ s' => Contains s' sub end.

Fixpoint has_char (f : ascii -> bool) (s : string) : bool :=
  match s with EmptyString => false | String c s' => f c || has_char f s' end.

Definition all_chars (f : ascii -> bool) (s : string) : bool := negb (has_char (fun c => negb (f c)) s).

(** [strings.Split(s, c)] for a one-byte separator: always at least one piece. *)
Fixpoint Split (s : string) (c : ascii) : list string :=
  match s with
  | EmptyString => [EmptyString]
  | String a s' =>
      if bool_decide (a = c) then EmptyString :: Split s' c
      else match Split s' c with
           | [] => [String a EmptyString]
           | h :: t => String a h :: t
           end
  end.

Fixpoint Join (l : list string) (sep : string) : string :=
  match l with
  | [] => EmptyString
  | [x] => x
  | x :: l' => x +:+ sep +:+ Join l' sep
  end.

(** [strings.FieldsFunc]: the maximal non-empty runs of characters not in [f]. *)
Fixpoint fields_go (f : ascii -> bool) (acc : string) (s : string) : list string :=
  match s with
  | EmptyString => if bool_decide (acc = EmptyString) then [] else [acc]
  | String c s' =>
      if f c then (if bool_decide (acc = EmptyString) then [] else [acc]) ++ fields_go f EmptyString s'
      else fields_go f (acc +:+ String c EmptyString) s'
  end.
Definition FieldsFunc (s : string) (f : ascii -> bool) : list string := fields_go f EmptyString s.

(** [strings.IndexByte(s, c)], as the split it is used for: what precedes and
    what follows the first [c], [None] when there is none. *)
Fixpoint cut_byte (s : string) (c : ascii) : option (string * string) :=
  match s with
  | EmptyString => None
  | String a s' =>
      if bool_decide (a = c) then Some (EmptyString, s')
      else match cut_byte s' c with
           | Some (x, y) => Some (String a x, y)
           | None => None
           end
  end.

(** [strings.TrimSpace] removes the code points with Unicode's White_Space
    property from both ends: these are their UTF-8 encodings. A lead byte
    starts every multi-byte one, so a byte suffix is a whole code point. *)
Definition of_codes (l : list nat) : string := foldr (fun n s => String (ascii_of_nat n) s) EmptyString l.

Definition spaces : list string := map of_codes
  [[9]; [10]; [11]; [12]; [13]; [32]; [194;133]; [194;160]; [225;154;128];
   [226;128;128]; [226;128;129]; [226;128;130]; [226;128;131]; [226;128;132];
   [226;128;133]; [226;128;134]; [226;128;135]; [226;128;136]; [226;128;137];
   [226;128;138]; [226;128;168]; [226;128;169]; [226;128;175]; [226;129;159];
   [227;128;128]]%nat.

Definition strip_one (pats : list string) (s : string) : option string :=
  match List.find (HasPrefix s) pats with
  | Some p => Some (drop (String.length p) s)
  | None => None
  end.

Fixpoint strip_n (fuel : nat) (pats : list string) (s : string) : string :=
  match fuel with
  | O => s
  | S n => match strip_one pats s with Some s' => strip_n n pats s' | None => s end
  end.

Definition strip (pats : list string) (s : string) : string := strip_n (String.length s) pats s.

Fixpoint srev_app (s acc : string) : string :=
  match s with EmptyString => acc | String c s' => srev_app s' (String c acc) end.
Definition srev (s : string) : string := srev_app s EmptyString.

Definition TrimSpace (s : string) : string :=
  srev (strip (map srev spaces) (srev (strip spaces s))).

(** [strings.LastIndexByte(s, c)], as what follows the last [c]. *)
Fixpoint after_last (s : string) (c : ascii) : option string :=
  match s with
  | EmptyString => None
  | String a s' => match after_last s' c with Some r => Some r | None => if bool_decide (a = c) then Some s' else None end
  end.

(** [strings.Trim(s, c)] for one ASCII character. *)
Fixpoint trim_left (s : string) (c : ascii) : string :=
  match s with String a s' => if bool_decide (a = c) then trim_left s' c else s | EmptyString => EmptyString end.
Definition Trim (s : string) (c : ascii) : string := srev (trim_left (srev (trim_left s c)) c).

Fixpoint take_chars (n : nat) (s : string) : string :=
  match n, s with S n', String c s' => String c (take_chars n' s') | _, _ => EmptyString end.
Definition TrimSuffix (s suf : string) : string :=
  if HasSuffix s suf then take_chars (String.length s - String.length suf) s else s.

(** [strings.ToLower] of an ASCII string. *)
Definition lower_ascii (c : ascii) : ascii :=
  let n := nat_of_ascii c in if (65 <=? n)%nat && (n <=? 90)%nat then ascii_of_nat (n + 32) else c.
Fixpoint ToLowerASCII (s : string) : string :=
  match s with EmptyString => EmptyString | String c s' => String (lower_ascii c) (ToLowerASCII s') end.

(** [strings.Fields]: the runs between white space. [skip] counts the bytes of a
    white-space character still to pass. *)
Definition emit (acc : string) : list string := if bool_decide (acc = EmptyString) then [] else [acc].
Fixpoint fields_from (skip : nat) (acc : string) (s : string) : list string :=
  match s with
  | EmptyString => emit acc
  | String c s' =>
      match skip with
      | S k => fields_from k acc s'
      | O => match List.find (HasPrefix s) spaces with
             | Some p => emit acc ++ fields_from (String.length p - 1) EmptyString s'
             | None => fields_from 0 (acc +:+ String c EmptyString) s'
             end
      end
  end.
Definition Fields (s : string) : list string := fields_from 0 EmptyString s.

End strings.

(** ** path *)
Module path.

(** [path.Clean], segment by segment. The stack holds the cleaned segments,
    last one first: an empty segment and [.] are dropped, [..] removes the
    segment before it, is dropped at the root of a rooted path and is kept at
    the start of a relative one. *)
Definition clean_step (rooted : bool) (st : list string) (seg : string) : list string :=
  if bool_decide (seg = "") || bool_decide (seg = ".") then st
  else if bool_decide (seg = "..") then
    match st with
    | [] => if rooted then [] else [".."]
    | top :: r => if bool_decide (top = "..") then ".." :: st else r
    end
  else seg :: st.

Definition clean_segs (rooted : bool) (segs : list string) : list string :=
  rev (fold_left (clean_step rooted) segs []).

Definition IsAbs (s : string) : bool := strings.HasPrefix s "/".

Definition Clean (s : string) : string :=
  if bool_decide (s = "") then "."
  else
    let rooted := IsAbs s in
    let segs := clean_segs rooted (strings.Split s "/") in
    if rooted then "/" +:+ strings.Join segs "/"
    else match segs with [] => "." | _ => strings.Join segs "/" end.

End path.

(** ** strconv *)
Module strconv.

Definition digit (c : ascii) : option Z :=
  let n := Z.of_nat (nat_of_ascii c) in
  if (48 <=? n)%Z && (n <=? 57)%Z then Some (n - 48)%Z else None.

Fixpoint digits (acc : Z) (s : string) : option Z :=
  match s with
  | EmptyString => Some acc
  | String c s' => match digit c with Some d => digits (10 * acc + d)%Z s' | None => None end
  end.

(** [strconv.Atoi]: an optional sign, at least one decimal digit, nothing
    else, and a value that fits in 64 bits; [None] is an error. *)
Definition Atoi (s : string) : option Z :=
  let '(neg, d) := match s with
    | String "+"%char s' => (false, s')
    | String "-"%char s' => (true, s')
    | _ => (false, s)
    end in
  if bool_decide (d = "") then None
  else match digits 0 d with
       | None => None
       | Some n => let v := if neg : bool then (- n)%Z else n in
                   if (- 2^63 <=? v)%Z && (v <? 2^63)%Z then Some v else None
       end.

End strconv.

(** ** unicode/utf8 *)
Module utf8.

Definition byte_val (c : ascii) : Z := Z.of_nat (nat_of_ascii c).
Definition RuneError : Z := 65533.
Definition cont (z : Z) : bool := (128 <=? z)%Z && (z <=? 191)%Z.

(** The second byte a lead byte of a 3- or 4-byte sequence accepts. *)
Definition accept3 (x y : Z) : bool :=
  (if (x =? 224)%Z then 160 <=? y else 128 <=? y)%Z &&
  (if (x =? 237)%Z then y <=? 159 else y <=? 191)%Z.
Definition accept4 (x y : Z) : bool :=
  (if (x =? 240)%Z then 144 <=? y else 128 <=? y)%Z &&
  (if (x =? 244)%Z then y <=? 143 else y <=? 191)%Z.

(** What [for _, r := range s] yields: the decoded code points, [RuneError]
    for each byte that does not start a valid sequence. *)
Fixpoint runes (s : string) : list Z :=
  match s with
  | EmptyString => []
  | String c0 s1 =>
    let x := byte_val c0 in
    if (x <? 128)%Z then x :: runes s1
    else match s1 with
    | EmptyString => [RuneError]
    | String c1 s2 =>
      let y := byte_val c1 in
      if (194 <=? x)%Z && (x <=? 223)%Z && cont y then
        ((x - 192) * 64 + (y - 128))%Z :: runes s2
      else match s2 with
      | EmptyString => RuneError :: runes s1
      | String c2 s3 =>
        let z := byte_val c2 in
        if (224 <=? x)%Z && (x <=? 239)%Z && accept3 x y && cont z then
          ((x - 224) * 4096 + (y - 128) * 64 + (z - 128))%Z :: runes s3
        else match s3 with
        | EmptyString => RuneError :: runes s1
        | String c3 s4 =>
          let w := byte_val c3 in
          if (240 <=? x)%Z && (x <=? 244)%Z && accept4 x y && cont z && cont w then
            ((x - 240) * 262144 + (y - 128) * 4096 + (z - 128) * 64 + (w - 128))%Z :: runes s4
          else RuneError :: runes s1
        end
      end
    end
  end.

End utf8.

(** ** What the components use of these functions *)
Section string_facts.

Lemma length_app_s (a b : string) : String.length (a +:+ b) = (String.length a + String.length b)%nat.
Proof. induction a; simpl; [done|]. by rewrite IHa. Qed.

Lemma app_cons_s c (a b : string) : String c a +:+ b = String c (a +:+ b).
Proof. done. Qed.

Lemma app_empty_s (a : string) : "" +:+ a = a.
Proof. done. Qed.

Lemma app_nil_s (a : string) : a +:+ "" = a.
Proof. induction a as [|c a IH]; [done|]. by rewrite app_cons_s, IH. Qed.

Lemma app_assoc_s (a b c : string) : (a +:+ b) +:+ c = a +:+ (b +:+ c).
Proof. induction a as [|d a IH]; [done|]. by rewrite !app_cons_s, IH. Qed.

Lemma HasPrefix_spec s p : strings.HasPrefix s p = true <-> exists t, s = p +:+ t.
Proof.
  revert s. induction p as [|c p IH]; intros s; simpl.
  - split; intros _; [by exists s | by destruct s].
  - destruct s as [|d s].
    + split; [done|]. by intros [t Ht].
    + rewrite andb_true_iff, bool_decide_eq_true, IH. setoid_rewrite app_cons_s. split.
      * intros [-> [t ->]]. by exists t.
      * intros [t [= -> ->]]. split; [done|]. by exists t.
Qed.

Lemma drop_app p t : strings.drop (String.length p) (p +:+ t) = t.
Proof. induction p; simpl; [by destruct t | done]. Qed.

Lemma TrimPrefix_app p t : strings.TrimPrefix (p +:+ t) p = t.
Proof.
  unfold strings.TrimPrefix.
  rewrite (proj2 (HasPrefix_spec _ _)) by eauto. apply drop_app.
Qed.

Lemma Split_not_nil s c : strings.Split s c <> [].
Proof. destruct s; simpl; [done|]. case_match; [done|]. by case_match. Qed.

Lemma Join_cons x y l sep : strings.Join (x :: y :: l) sep = x +:+ sep +:+ strings.Join (y :: l) sep.
Proof. done. Qed.

Lemma Join_Split s c : strings.Join (strings.Split s c) (String c "") = s.
Proof.
  induction s as [|a s IH]; simpl; [done|].
  case_bool_decide as E; (destruct (strings.Split s c) as [|h [|h' t]] eqn:Es;
    [by apply Split_not_nil in Es | simpl in * | rewrite ?Join_cons in *]); by subst.
Qed.

(** [no_char c s]: [c] does not occur in [s]. *)
Definition no_char (c : ascii) (s : string) : Prop := strings.has_char (fun a => bool_decide (a = c)) s = false.

Lemma Split_no_char s c : Forall (no_char c) (strings.Split s c).
Proof.
  induction s as [|a s IH]; simpl; [repeat constructor|].
  case_bool_decide as E; [by constructor|].
  destruct (strings.Split s c) eqn:Es.
  - by apply Split_not_nil in Es.
  - apply Forall_cons in IH as [H1 H2]. constructor; [|done].
    unfold no_char in *. simpl. rewrite H1. by case_bool_decide.
Qed.

Lemma Split_one x c : no_char c x -> strings.Split x c = [x].
Proof.
  unfold no_char. induction x as [|a x IH]; simpl; [done|]. intros H. bd.
  case_bool_decide; [done|]. by rewrite IH.
Qed.

Lemma Split_app x c s : no_char c x -> strings.Split (x +:+ String c s) c = x :: strings.Split s c.
Proof.
  unfold no_char. induction x as [|a x IH]; simpl; intros H.
  - by rewrite bool_decide_eq_true_2.
  - bd. case_bool_decide; [done|]. by rewrite IH.
Qed.

Lemma Split_Join l c : l <> [] -> Forall (no_char c) l -> strings.Split (strings.Join l (String c "")) c = l.
Proof.
  intros Hne Hl. induction Hl as [|x l Hx Hl IH]; [done|].
  destruct l as [|y l].
  - by apply Split_one.
  - change (strings.Join (x :: y :: l) (String c ""))
      with (x +:+ String c (strings.Join (y :: l) (String c ""))).
    rewrite Split_app by done. by rewrite IH.
Qed.

End string_facts.
