(* ===== verification/Paths.v ===== *)
(** * Slash-separated paths

    Facts on [path.Clean] and on the test [f == d || HasPrefix(f, d+"/")] that
    the watch rules, the volume filter and the volume sources share: on split
    paths it is the prefix order, and cleaning is idempotent. *)
From S2P Require Import Prelude GoStd.
Local Open Scope string_scope.
Local Open Scope list_scope.
Local Open Scope daffa_scope.

(** ** Splitting *)

Definition slash : ascii := "/".

Lemma Split_app_any a s c : strings.Split (a +:+ String c s) c = strings.Split a c ++ strings.Split s c.
Proof.
  induction a as [|x a IH]; simpl; [by rewrite bool_decide_eq_true_2|]. rewrite IH. case_bool_decide; [done|].
  destruct (strings.Split a c) eqn:E; [by apply Split_not_nil in E|done].
Qed.

Lemma Split_inj a b c : strings.Split a c = strings.Split b c -> a = b.
Proof. intros H. by rewrite <- (Join_Split a c), H, Join_Split. Qed.

Lemma Join_app l1 l2 sep : l1 <> [] -> l2 <> [] -> strings.Join (l1 ++ l2) sep = strings.Join l1 sep +:+ sep +:+ strings.Join l2 sep.
Proof.
  intros H1 H2. induction l1 as [|x l1 IH]; [done|]. destruct l1 as [|y l1]; simpl app.
  - destruct l2; [done|]. by rewrite Join_cons.
  - rewrite !Join_cons. simpl app in IH. rewrite IH by done. by rewrite !app_assoc_s.
Qed.

(** [f] is [d] or lies under it. *)
Definition under (f d : string) : bool := bool_decide (f = d) || strings.HasPrefix f (d +:+ "/").

Lemma under_segments f d : under f d = true <-> strings.Split d slash `prefix_of` strings.Split f slash.
Proof.
  unfold under. rewrite orb_true_iff, bool_decide_eq_true, HasPrefix_spec. split.
  - intros [->|(t & ->)]; [done|]. rewrite app_assoc_s. change ("/" +:+ t) with (String slash t). rewrite Split_app_any. by apply prefix_app_r.
  - intros [k Hk]. destruct k as [|x k]; [left; rewrite app_nil_r in Hk; by eapply Split_inj|]. right.
    exists (strings.Join (x :: k) "/"). rewrite <- (Join_Split f slash), Hk. change (String slash "") with "/".
    rewrite Join_app; [|apply Split_not_nil|done]. change "/" with (String slash "") at 1. by rewrite Join_Split, !app_assoc_s.
Qed.

Lemma under_refl d : under d d = true.
Proof. by apply under_segments. Qed.
Lemma under_trans a b c : under a b = true -> under b c = true -> under a c = true.
Proof. rewrite !under_segments. intros H1 H2. by etrans. Qed.

(** ** Cleaning *)

(** A segment that [Clean] keeps as it is. *)
Definition plain_seg (s : string) : Prop := s <> "" /\ s <> "." /\ s <> ".." /\ no_char slash s.

(** What [Clean] leaves: plain segments, after some [..] when the path is
    relative. *)
Definition cleaned (rooted : bool) (l : list string) : Prop :=
  exists k r, l = replicate k ".." ++ r /\ Forall plain_seg r /\ (rooted = true -> k = 0%nat).

Lemma no_char_dots : no_char slash ".." /\ no_char slash ".".
Proof. by split. Qed.

Lemma clean_step_ok rooted st seg : cleaned rooted (rev st) -> no_char slash seg -> cleaned rooted (rev (path.clean_step rooted st seg)).
Proof.
  intros (k & r & E & Hr & Hk) Hseg. unfold path.clean_step.
  destruct (bool_decide (seg = "")) eqn:E1; [by exists k, r|]. destruct (bool_decide (seg = ".")) eqn:E2; [by exists k, r|]. simpl.
  destruct (bool_decide (seg = "..")) eqn:E3.
  - destruct st as [|top st].
    + destruct rooted; [exists 0%nat, []; by repeat split|]. exists 1%nat, []. by repeat split.
    + simpl in E. destruct (bool_decide (top = "..")) eqn:E4.
      * bd. subst top. destruct r as [|x r _] using rev_ind.
        -- exists (S k), []. rewrite app_nil_r in E. split; [|split; [done|]].
           ++ simpl rev. rewrite E, app_nil_r. change [".."] with (replicate 1 ".."). rewrite <- replicate_add. f_equal. lia.
           ++ intros Ht. specialize (Hk Ht). subst k. simpl in E. by apply app_nil in E as [_ ?].
        -- rewrite app_assoc in E. apply app_inj_tail in E as [_ <-]. apply Forall_app in Hr as [_ Hx]. apply Forall_inv in Hx as (_ & _ & ? & _). done.
      * bd. destruct r as [|x r _] using rev_ind.
        -- exfalso. rewrite app_nil_r in E. assert (top ∈ replicate k "..") as Hin by (rewrite <- E; apply elem_of_app; right; by apply list_elem_of_singleton).
           apply elem_of_replicate in Hin as [? _]. done.
        -- rewrite app_assoc in E. apply app_inj_tail in E as [E _]. apply Forall_app in Hr as [Hr _]. by exists k, r.
  - bd. exists k, (r ++ [seg]). simpl. rewrite E, app_assoc. split; [done|]. split; [|done].
    apply Forall_app. split; [done|]. apply Forall_singleton. done.
Qed.

Lemma clean_segs_ok rooted segs : Forall (no_char slash) segs -> cleaned rooted (path.clean_segs rooted segs).
Proof.
  intros H. unfold path.clean_segs. assert (cleaned rooted (rev [])) as H0 by (exists 0%nat, []; by repeat split).
  revert H0. generalize (@nil string) as st. induction H as [|s segs Hs _ IH]; intros st Hst; simpl; [done|].
  apply IH. by apply clean_step_ok.
Qed.

Lemma clean_segs_id rooted l : cleaned rooted l -> path.clean_segs rooted l = l.
Proof.
  intros (k & r & -> & Hr & Hk). unfold path.clean_segs. rewrite fold_left_app.
  assert (fold_left (path.clean_step rooted) (replicate k "..") [] = replicate k "..") as ->.
  { destruct rooted; [by rewrite Hk|]. clear. assert (forall j, fold_left (path.clean_step false) (replicate k "..") (replicate j "..") = replicate (k + j) "..") as H.
    { induction k as [|k IH]; intros j; [done|]. simpl. assert (path.clean_step false (replicate j "..") ".." = replicate (S j) "..") as -> by (by destruct j).
      rewrite IH. by rewrite Nat.add_succ_r. }
    specialize (H 0%nat). by rewrite Nat.add_0_r in H. }
  assert (forall st, fold_left (path.clean_step rooted) r st = rev r ++ st) as ->.
  { induction Hr as [|x r (H1 & H2 & H3 & _) _ IH]; intros st; [done|]. simpl. rewrite IH. unfold path.clean_step.
    rewrite !bool_decide_eq_false_2 by done. simpl. by rewrite <- app_assoc. }
  rewrite rev_app_distr, rev_involutive. f_equal. clear. induction k as [|k IH]; [done|]. simpl. rewrite IH.
  change [".."] with (replicate 1 ".."). rewrite <- replicate_add. by rewrite Nat.add_comm.
Qed.

Lemma cleaned_no_char rooted l : cleaned rooted l -> Forall (no_char slash) l.
Proof.
  intros (k & r & -> & Hr & _). apply Forall_app. split; [by apply Forall_replicate|]. eapply Forall_impl; [done|]. by intros x (_ & _ & _ & ?).
Qed.
Lemma cleaned_seg rooted l s : cleaned rooted l -> s ∈ l -> s <> "" /\ s <> ".".
Proof.
  intros (k & r & -> & Hr & _) [H|H]%elem_of_app; [apply elem_of_replicate in H as [-> _]; done|].
  rewrite Forall_forall in Hr. by destruct (Hr s H) as (? & ? & _).
Qed.

Definition segs_of (s : string) : list string := path.clean_segs (path.IsAbs s) (strings.Split s slash).

Lemma segs_of_ok s : cleaned (path.IsAbs s) (segs_of s).
Proof. apply clean_segs_ok, Split_no_char. Qed.

Lemma Clean_form s : path.Clean s =
  if path.IsAbs s then "/" +:+ strings.Join (segs_of s) "/" else match segs_of s with [] => "." | _ => strings.Join (segs_of s) "/" end.
Proof. unfold path.Clean, segs_of, slash. case_bool_decide as E; [by subst|done]. Qed.

Lemma Join_not_abs rooted l : cleaned rooted l -> l <> [] -> path.IsAbs (strings.Join l "/") = false.
Proof.
  intros Hl Hne. destruct (path.IsAbs _) eqn:E; [|done]. apply HasPrefix_spec in E as [t Ht].
  pose proof (Split_Join l slash Hne (cleaned_no_char _ _ Hl)) as Hs. change (String slash "") with "/" in Hs. rewrite Ht in Hs.
  change ("/" +:+ t) with (String slash t) in Hs. simpl in Hs. destruct l as [|x l]; [done|]. injection Hs as <- _.
  destruct (cleaned_seg _ _ "" Hl ltac:(by left)) as [? _]. done.
Qed.

Lemma Clean_abs s : path.IsAbs (path.Clean s) = path.IsAbs s.
Proof.
  rewrite Clean_form. destruct (path.IsAbs s) eqn:E; [done|]. pose proof (segs_of_ok s) as Hok. rewrite E in Hok.
  destruct (segs_of s) as [|x l] eqn:El; [done|]. by apply (Join_not_abs false).
Qed.

Lemma segs_of_Clean s : segs_of (path.Clean s) = segs_of s.
Proof.
  unfold segs_of at 1. rewrite Clean_abs. pose proof (segs_of_ok s) as Hok. rewrite Clean_form.
  destruct (path.IsAbs s) eqn:E.
  - change ("/" +:+ strings.Join (segs_of s) "/") with (String slash (strings.Join (segs_of s) "/")). simpl strings.Split.
    assert (path.clean_segs true ("" :: strings.Split (strings.Join (segs_of s) "/") slash) = path.clean_segs true (strings.Split (strings.Join (segs_of s) "/") slash)) as -> by done.
    destruct (segs_of s) as [|x l] eqn:El; [done|]. change "/" with (String slash ""). rewrite Split_Join by (done || by eapply cleaned_no_char).
    by apply clean_segs_id.
  - destruct (segs_of s) as [|x l] eqn:El; [done|]. change "/" with (String slash ""). rewrite Split_Join by (done || by eapply cleaned_no_char).
    by apply clean_segs_id.
Qed.

Lemma Clean_idem s : path.Clean (path.Clean s) = path.Clean s.
Proof. rewrite (Clean_form (path.Clean s)), Clean_abs, segs_of_Clean. by rewrite <- Clean_form. Qed.

Lemma Clean_nonempty s : path.Clean s <> "".
Proof.
  rewrite Clean_form. destruct (path.IsAbs s); [done|]. pose proof (segs_of_ok s) as Hok. destruct (segs_of s) as [|x [|y l]]; [done| |].
  - simpl. by destruct (cleaned_seg _ _ x Hok ltac:(by left)).
  - rewrite Join_cons. destruct x; [|done]. by destruct (cleaned_seg _ _ "" Hok ltac:(by left)).
Qed.

(** The segments of a cleaned relative path. *)
Lemma Split_Clean s : path.IsAbs s = false -> strings.Split (path.Clean s) slash = match segs_of s with [] => ["."] | l => l end.
Proof.
  intros E. rewrite Clean_form, E. pose proof (segs_of_ok s) as Hok. destruct (segs_of s) as [|x l] eqn:El; [done|].
  change "/" with (String slash ""). rewrite Split_Join; [done|done|by eapply cleaned_no_char].
Qed.
Lemma Split_Clean_abs s : path.IsAbs s = true -> strings.Split (strings.TrimPrefix (path.Clean s) "/") slash = match segs_of s with [] => [""] | l => l end.
Proof.
  intros E. rewrite Clean_form, E, TrimPrefix_app. pose proof (segs_of_ok s) as Hok. destruct (segs_of s) as [|x l] eqn:El; [done|].
  change "/" with (String slash ""). rewrite Split_Join; [done|done|by eapply cleaned_no_char].
Qed.

(** A relative path that does not clean to a parent never names one. *)
Lemma inside_segments p : path.IsAbs p = false -> path.Clean p <> ".." -> strings.HasPrefix (path.Clean p) "../" = false -> ".." ∉ strings.Split (path.Clean p) slash.
Proof.
  intros Ha Hp Hx Hin. rewrite Split_Clean in Hin by done. pose proof (segs_of_ok p) as (k & r & E & Hr & _).
  destruct (segs_of p) as [|s l] eqn:El; [by apply list_elem_of_singleton in Hin|]. destruct k as [|k].
  - simpl in E. subst r. rewrite Forall_forall in Hr. by destruct (Hr ".." Hin) as (_ & _ & ? & _).
  - simpl in E. injection E as -> E. rewrite Clean_form, El, Ha in Hp, Hx. destruct l as [|x l]; [done|].
    rewrite Join_cons in Hx. apply not_true_iff_false in Hx. apply Hx. apply HasPrefix_spec. by exists (strings.Join (x :: l) "/").
Qed.
