(* ===== verification/Timestamps.v ===== *)
(** * Timestamps as text

    Models [ts] of [internal/store/store.go]: every time the store writes is
    RFC3339 text with the fraction's trailing zeros trimmed, and every
    [ORDER BY], every [<] of a query compares those texts. A [Time] is the UTC
    reading of a [time.Time], field by field. *)
From S2P Require Import Prelude GoStd.
Local Open Scope string_scope.
Local Open Scope list_scope.
Local Open Scope daffa_scope.
Local Open Scope Z_scope.

Record Time := mkTime { t_year : Z; t_month : Z; t_day : Z; t_hour : Z; t_min : Z; t_sec : Z; t_nano : Z }.

(** What [time.Time.UTC] can produce, up to the year 9999. *)
Definition time_ok (t : Time) : Prop :=
  0 <= t_year t <= 9999 /\ 1 <= t_month t <= 12 /\ 1 <= t_day t <= 31 /\
  0 <= t_hour t <= 23 /\ 0 <= t_min t <= 59 /\ 0 <= t_sec t <= 59 /\ 0 <= t_nano t <= 999999999.

Definition digit_char (d : Z) : ascii := ascii_of_nat (48 + Z.to_nat d).

(** [n] decimal digits, zero padded. *)
Fixpoint pad (n : nat) (z : Z) : string :=
  match n with
  | O => EmptyString
  | S n' => String.append (pad n' (z / 10)) (String (digit_char (z mod 10)) EmptyString)
  end.

(** The digits of a fraction with the trailing zeros removed. *)
Fixpoint trim_zeros (s : string) : string :=
  match s with
  | EmptyString => EmptyString
  | String c s' =>
      match trim_zeros s' with
      | EmptyString => if Ascii.eqb c "0"%char then EmptyString else String c EmptyString
      | r => String c r
      end
  end.

Definition fraction (nano : Z) : string :=
  match trim_zeros (pad 9 nano) with EmptyString => EmptyString | f => String "."%char f end.

(** [t.UTC().Format(time.RFC3339Nano)]. *)
Definition ts (t : Time) : string :=
  String.append (pad 4 (t_year t)) (String "-"%char
  (String.append (pad 2 (t_month t)) (String "-"%char
  (String.append (pad 2 (t_day t)) (String "T"%char
  (String.append (pad 2 (t_hour t)) (String ":"%char
  (String.append (pad 2 (t_min t)) (String ":"%char
  (String.append (pad 2 (t_sec t)) (String.append (fraction (t_nano t)) "Z"))))))))))).

(** The second a time falls in, and its instant, as numbers that order the way
    time does. *)
Definition second_of (t : Time) : Z :=
  ((((t_year t * 100 + t_month t) * 100 + t_day t) * 100 + t_hour t) * 100 + t_min t) * 100 + t_sec t.

Definition instant (t : Time) : Z := second_of t * 1000000000 + t_nano t.

Example ts_example : ts (mkTime 2024 7 5 9 3 5 500000000) = "2024-07-05T09:03:05.5Z".
Proof. reflexivity. Qed.

(** ** Comparing texts of equal-length fields *)

Lemma ascii_compare_refl a : Ascii.compare a a = Eq.
Proof. unfold Ascii.compare. apply N.compare_refl. Qed.

Lemma ltb_cons a b x y :
  String.ltb (String a x) (String b y) = true <->
  Ascii.compare a b = Lt \/ (a = b /\ String.ltb x y = true).
Proof.
  unfold String.ltb. simpl. destruct (Ascii.compare a b) eqn:E.
  - apply Ascii.compare_eq_iff in E as ->. split; [by right | intros [|[_ ?]]; done].
  - tauto.
  - split; [done|]. intros [|[-> _]]; [done|]. by rewrite ascii_compare_refl in E.
Qed.

Lemma ltb_cons_same a x y : String.ltb (String a x) (String a y) = String.ltb x y.
Proof. unfold String.ltb. simpl. by rewrite ascii_compare_refl. Qed.

Lemma ltb_app_length a b x y :
  String.length a = String.length b ->
  String.ltb (String.append a x) (String.append b y) = true <->
  String.ltb a b = true \/ (a = b /\ String.ltb x y = true).
Proof.
  revert b. induction a as [|c a IH]; intros [|d b] Hl; simpl in *; try done.
  - rewrite str_ltb_irrefl. split; [by right | by intros [|[_ ?]]].
  - injection Hl as Hl. rewrite !app_cons_s, !ltb_cons, IH by done. split.
    + intros [?|(-> & [?|(-> & ?)])]; auto.
    + intros [[?|(-> & ?)]|([= -> ->] & ?)]; auto.
Qed.

Lemma pad_length n z : String.length (pad n z) = n.
Proof. revert z. induction n as [|n IH]; intros z; simpl; [done|]. rewrite length_app_s, IH. simpl. lia. Qed.

Lemma digit_compare a b : 0 <= a <= 9 -> 0 <= b <= 9 -> Ascii.compare (digit_char a) (digit_char b) = (a ?= b).
Proof.
  intros Ha Hb.
  assert (forallb (fun x => forallb (fun y => bool_decide (Ascii.compare (digit_char x) (digit_char y) = (x ?= y)))
    [0;1;2;3;4;5;6;7;8;9]) [0;1;2;3;4;5;6;7;8;9] = true) as H by reflexivity.
  rewrite forallb_elem in H. specialize (H a). cbv beta in H. rewrite forallb_elem in H.
  eapply bool_decide_eq_true_1, H; apply list_elem_of_In; simpl; lia.
Qed.

Lemma pad_ltb n a b x y :
  0 <= a < 10 ^ Z.of_nat n -> 0 <= b < 10 ^ Z.of_nat n ->
  String.ltb (String.append (pad n a) x) (String.append (pad n b) y) = true <->
  a < b \/ (a = b /\ String.ltb x y = true).
Proof.
  revert a b x y. induction n as [|n IH]; intros a b x y Ha Hb; simpl pad.
  - simpl in *. split; [right; split; [lia|done] | intros [|[_ ?]]; [lia|done]].
  - rewrite Nat2Z.inj_succ, Z.pow_succ_r in Ha, Hb by lia. rewrite !app_assoc_s. simpl.
    pose proof (Z.div_mod a 10 ltac:(lia)). pose proof (Z.div_mod b 10 ltac:(lia)).
    pose proof (Z.mod_pos_bound a 10 ltac:(lia)). pose proof (Z.mod_pos_bound b 10 ltac:(lia)).
    rewrite IH by (split; [apply Z.div_pos; lia | apply Z.div_lt_upper_bound; lia]).
    rewrite !app_cons_s, !app_empty_s, ltb_cons, digit_compare by lia. rewrite Z.compare_lt_iff. split.
    + intros [?|(? & [?|(E & ?)])]; [left; lia | left; lia |].
      assert (a mod 10 = b mod 10).
      { pose proof (digit_compare (a mod 10) (b mod 10) ltac:(lia) ltac:(lia)) as Hc. rewrite E in Hc.
        rewrite ascii_compare_refl in Hc. symmetry in Hc. by apply Z.compare_eq in Hc. }
      right. split; [lia|done].
    + intros [?|(-> & ?)]; [|right; split; [lia|]; right; done].
      assert (a / 10 <= b / 10) by (apply Z.div_le_mono; lia).
      destruct (Z.eq_dec (a / 10) (b / 10)); [right; split; [done|left; lia] | left; lia].
Qed.

Lemma ts_ltb s t :
  time_ok s -> time_ok t ->
  String.ltb (ts s) (ts t) = true <->
  second_of s < second_of t \/
  (second_of s = second_of t /\
   String.ltb (String.append (fraction (t_nano s)) "Z") (String.append (fraction (t_nano t)) "Z") = true).
Proof.
  intros Hs Ht. unfold time_ok in *. unfold ts. rewrite !pad_ltb by (simpl; lia).
  rewrite !ltb_cons_same, !pad_ltb, !ltb_cons_same, !pad_ltb, !ltb_cons_same, !pad_ltb, !ltb_cons_same, !pad_ltb,
    !ltb_cons_same, !pad_ltb by (simpl; lia).
  unfold second_of. split.
  - intros H. repeat (destruct H as [H|[? H]]; [left; lia|]). right. split; [lia|done].
  - intros [H|[E H]].
    + destruct (Z.lt_trichotomy (t_year s) (t_year t)) as [?|[?|?]]; [by left | | lia]. right. split; [done|].
      destruct (Z.lt_trichotomy (t_month s) (t_month t)) as [?|[?|?]]; [by left | | lia]. right. split; [done|].
      destruct (Z.lt_trichotomy (t_day s) (t_day t)) as [?|[?|?]]; [by left | | lia]. right. split; [done|].
      destruct (Z.lt_trichotomy (t_hour s) (t_hour t)) as [?|[?|?]]; [by left | | lia]. right. split; [done|].
      destruct (Z.lt_trichotomy (t_min s) (t_min t)) as [?|[?|?]]; [by left | | lia]. right. split; [done|].
      left. lia.
    + repeat (right; split; [lia|]). done.
Qed.

(** ** From an instant to its UTC fields

    What [time.Time.UTC] reads off an instant in nanoseconds since 1970: the
    proleptic Gregorian calendar, by eras of four hundred years. *)

Definition era_days : Z := 146097.

(** The year of the [doe]-th day of an era that starts on 1 March, the day its
    year [y] starts, and the month and day of the [doy]-th day of a year. *)
Definition year_of_era (doe : Z) : Z := (doe - doe / 1460 + doe / 36524 - doe / 146096) / 365.
Definition year_start (y : Z) : Z := 365 * y + y / 4 - y / 100.
Definition month_day (doy : Z) : Z * Z :=
  let mp := (5 * doy + 2) / 153 in
  (if mp <? 10 then mp + 3 else mp - 9, doy - (153 * mp + 2) / 5 + 1).

Definition civil_of_era_day (doe : Z) : Z * Z * Z :=
  let y := year_of_era doe in
  let '(m, d) := month_day (doe - year_start y) in
  (if m <=? 2 then y + 1 else y, m, d).

(** The date of day [n], days being numbered from 1 January 1970. *)
Definition civil (n : Z) : Z * Z * Z :=
  let n := n + 719468 in
  let '(y, m, d) := civil_of_era_day (n mod era_days) in (y + n / era_days * 400, m, d).

Definition UTC (t : Z) : Time :=
  let s := t / 1000000000 in
  let '(y, m, d) := civil (s / 86400) in
  let r := s mod 86400 in
  mkTime y m d (r / 3600) (r mod 3600 / 60) (r mod 60) (t mod 1000000000).

(** The text of an instant. *)
Definition stamp (t : Z) : string := ts (UTC t).

Example stamp_example : stamp 1783987080500000000 = "2026-07-13T23:58:00.5Z".
Proof. reflexivity. Qed.

Definition date_key (c : Z * Z * Z) : Z := let '(y, m, d) := c in y * 10000 + m * 100 + d.

(** The place of a day in its March year, as a number that orders dates. *)
Definition month_key (doy : Z) : Z := let '(m, d) := month_day doy in (if m <=? 2 then 10000 else 0) + m * 100 + d.

Lemma date_key_era doe : date_key (civil_of_era_day doe) = year_of_era doe * 10000 + month_key (doe - year_start (year_of_era doe)).
Proof. unfold date_key, civil_of_era_day, month_key. destruct (month_day _) as [m d]. destruct (m <=? 2); lia. Qed.

Fixpoint all_from (f : Z -> bool) (fuel : nat) (z : Z) : bool :=
  match fuel with O => true | S fuel => f z && all_from f fuel (z + 1) end.

Lemma all_from_spec f fuel : forall z x, all_from f fuel z = true -> z <= x < z + Z.of_nat fuel -> f x = true.
Proof.
  induction fuel as [|fuel IH]; intros z x H Hx; [lia|]. simpl in H. apply andb_prop in H as [H1 H2].
  destruct (Z.eq_dec x z) as [->|]; [done|]. apply (IH (z + 1)); [done|lia].
Qed.

(** The days of one year are dates of the calendar, each before the next and
    before 1 March of the next year. *)
Definition doy_ok (doy : Z) : bool :=
  let '(m, d) := month_day doy in
  (1 <=? m) && (m <=? 12) && (1 <=? d) && (d <=? 31) && (month_key doy <? 10301) &&
  ((doy =? 365) || (month_key doy <? month_key (doy + 1))).
Lemma doy_checked : all_from doy_ok 366 0 = true.
Proof. vm_compute. reflexivity. Qed.

(** The formula for the year is right on the first and the last day of each
    year of the era, and between them because it is monotone. *)
Definition year_ok (y : Z) : bool :=
  (year_of_era (year_start y) =? y) && (year_of_era (year_start (y + 1) - 1) =? y) &&
  (365 <=? year_start (y + 1) - year_start y) && (year_start (y + 1) - year_start y <=? 366).
Lemma year_checked : all_from year_ok 400 0 = true.
Proof. vm_compute. reflexivity. Qed.

Lemma year_mono a b : 0 <= a -> a <= b -> b <= 146095 -> year_of_era a <= year_of_era b.
Proof.
  intros H0 Hab Hb. unfold year_of_era. apply Z.div_le_mono; [lia|].
  rewrite (Z.div_small a 146096), (Z.div_small b 146096) by lia.
  pose proof (Z.div_le_mono a b 36524 ltac:(lia) Hab).
  pose proof (Z.div_mod a 1460 ltac:(lia)). pose proof (Z.mod_pos_bound a 1460 ltac:(lia)).
  pose proof (Z.div_mod b 1460 ltac:(lia)). pose proof (Z.mod_pos_bound b 1460 ltac:(lia)).
  pose proof (Z.div_le_mono a b 1460 ltac:(lia) Hab). lia.
Qed.

Lemma year_ok_all y : 0 <= y < 400 -> year_of_era (year_start y) = y /\ year_of_era (year_start (y + 1) - 1) = y /\
  365 <= year_start (y + 1) - year_start y <= 366.
Proof. intros H. pose proof (all_from_spec _ _ _ y year_checked ltac:(lia)) as Hy. unfold year_ok in Hy. bd. lia. Qed.

Lemma year_start_mono a b : a <= b -> year_start a <= year_start b.
Proof.
  intros H. unfold year_start. pose proof (Z.div_le_mono a b 4 ltac:(lia) H). pose proof (Z.div_le_mono a b 100 ltac:(lia) H).
  pose proof (Z.div_mod a 100 ltac:(lia)). pose proof (Z.mod_pos_bound a 100 ltac:(lia)).
  pose proof (Z.div_mod b 100 ltac:(lia)). pose proof (Z.mod_pos_bound b 100 ltac:(lia)). lia.
Qed.

Lemma year_unique y doe : 0 <= y < 400 -> year_start y <= doe < year_start (y + 1) -> year_of_era doe = y.
Proof.
  intros Hy Hd. destruct (year_ok_all y Hy) as (H1 & H2 & _).
  pose proof (year_start_mono 0 y ltac:(lia)). pose proof (year_start_mono (y + 1) 400 ltac:(lia)).
  change (year_start 0) with 0 in *. change (year_start 400) with 146096 in *.
  pose proof (year_mono (year_start y) doe ltac:(lia) ltac:(lia) ltac:(lia)).
  pose proof (year_mono doe (year_start (y + 1) - 1) ltac:(lia) ltac:(lia) ltac:(lia)). lia.
Qed.

Lemma year_exists doe : 0 <= doe < 146096 -> exists y, 0 <= y < 400 /\ year_start y <= doe < year_start (y + 1).
Proof.
  intros Hd. assert (forall n, (n <= 400)%nat -> doe < year_start (Z.of_nat n) ->
    exists y, 0 <= y < 400 /\ year_start y <= doe < year_start (y + 1)) as H; [|apply (H 400%nat); [lia|apply Hd]].
  induction n as [|n IH]; intros Hn Hlt; [change (year_start (Z.of_nat 0)) with 0 in Hlt; lia|].
  destruct (Z.lt_ge_cases doe (year_start (Z.of_nat n))) as [|Hge]; [apply IH; [lia|done]|].
  exists (Z.of_nat n). replace (Z.of_nat n + 1) with (Z.of_nat (S n)) by lia. lia.
Qed.

(** A day of an era is in one of its years, at most 365 days after its start. *)
Lemma era_day doe : 0 <= doe < era_days -> let y := year_of_era doe in 0 <= y < 400 /\ 0 <= doe - year_start y <= 365 /\
  (doe < 146096 -> doe < year_start (y + 1)).
Proof.
  intros Hd. cbv zeta. destruct (Z.eq_dec doe 146096) as [->|Hne]; [vm_compute; intuition discriminate|].
  unfold era_days in Hd. destruct (year_exists doe ltac:(lia)) as (y & Hy & Hs). rewrite (year_unique y doe Hy Hs).
  destruct (year_ok_all y Hy) as (_ & _ & ?). lia.
Qed.

Lemma civil_fields n : let '(y, m, d) := civil n in 1 <= m <= 12 /\ 1 <= d <= 31.
Proof.
  unfold civil. pose proof (Z.mod_pos_bound (n + 719468) era_days ltac:(done)) as Hb.
  destruct (era_day _ Hb) as (_ & Hd & _). unfold civil_of_era_day.
  pose proof (all_from_spec _ _ 0 _ doy_checked ltac:(split; [exact (proj1 Hd)|lia])) as H. unfold doy_ok in H.
  destruct (month_day _) as [m d]. bd. lia.
Qed.

Lemma era_step doe : 0 <= doe -> doe + 1 < era_days -> date_key (civil_of_era_day doe) < date_key (civil_of_era_day (doe + 1)).
Proof.
  intros H0 H1. rewrite !date_key_era. destruct (era_day doe ltac:(lia)) as (Hy & Hd & Hlt). set (y := year_of_era doe) in *.
  pose proof (all_from_spec _ _ 0 _ doy_checked ltac:(split; [exact (proj1 Hd)|lia])) as H. unfold doy_ok in H.
  destruct (month_day (doe - year_start y)) as [m d]. repeat (apply andb_prop in H as [H ?]). bd.
  destruct (Z.eq_dec (doe + 1) (year_start (y + 1))) as [E|Hne].
  - destruct (Z.eq_dec y 399) as [->|Hne]; [change (year_start (399 + 1)) with 146096 in E; replace doe with 146095 by lia; reflexivity|].
    destruct (year_ok_all (y + 1) ltac:(lia)) as (E1 & _ & _). rewrite E, E1, Z.sub_diag. change (month_key 0) with 301.
    match goal with H : _ < 10301 |- _ => revert H end. lia.
  - assert (year_of_era (doe + 1) = y) as ->.
    { destruct (Z.eq_dec doe 146095) as [->|]; [done|]. apply year_unique; [done|]. unfold era_days in *. lia. }
    match goal with H : (_ =? _) || _ = true |- _ => apply orb_prop in H as [H|H] end.
    + destruct (year_ok_all y Hy) as (_ & _ & ?). unfold era_days in *. lia.
    + replace (doe + 1 - year_start y) with (doe - year_start y + 1) by lia. lia.
Qed.

Lemma civil_step n : date_key (civil n) < date_key (civil (n + 1)).
Proof.
  unfold civil. replace (n + 1 + 719468) with (n + 719468 + 1) by lia. set (k := n + 719468). clearbody k.
  pose proof (Z.mod_pos_bound k era_days ltac:(done)) as Hb. pose proof (Z.div_mod k era_days ltac:(done)) as Hk.
  destruct (Z.eq_dec (k mod era_days) 146096) as [E|Hne].
  - assert (0 = (k + 1) mod era_days) as Hm by (apply (Z.mod_unique_pos _ _ (k / era_days + 1)); unfold era_days in *; lia).
    assert (k / era_days + 1 = (k + 1) / era_days) as Hd by (apply (Z.div_unique_pos _ _ _ 0); unfold era_days in *; lia).
    rewrite E, <- Hm, <- Hd. change (civil_of_era_day 146096) with (400, 2, 29). change (civil_of_era_day 0) with (0, 3, 1).
    unfold date_key. lia.
  - assert (k mod era_days + 1 = (k + 1) mod era_days) as <- by (apply (Z.mod_unique_pos _ _ (k / era_days)); unfold era_days in *; lia).
    assert (k / era_days = (k + 1) / era_days) as <- by (apply (Z.div_unique_pos _ _ _ (k mod era_days + 1)); unfold era_days in *; lia).
    pose proof (era_step (k mod era_days)) as H. unfold date_key in *.
    destruct (civil_of_era_day (k mod era_days)) as [[y m] d], (civil_of_era_day (k mod era_days + 1)) as [[y' m'] d'].
    unfold era_days in *. lia.
Qed.

Lemma civil_mono a b : a < b -> date_key (civil a) < date_key (civil b).
Proof.
  intros H. replace b with (a + 1 + (b - a - 1)) by lia. assert (0 <= b - a - 1) as Hn by lia. revert Hn.
  generalize (b - a - 1). apply natlike_ind; [rewrite Z.add_0_r; apply civil_step|].
  intros x Hx IH. etrans; [exact IH|]. replace (a + 1 + Z.succ x) with (a + 1 + x + 1) by lia. apply civil_step.
Qed.

(** The instants that have a four-digit year, from 1970 on. *)
Definition in_range (t : Z) : Prop := 0 <= t < 253402300800 * 1000000000.

Lemma UTC_ok t : in_range t -> time_ok (UTC t).
Proof.
  intros Ht. unfold in_range in Ht. unfold UTC. set (s := t / 1000000000).
  assert (0 <= s < 253402300800) as Hs by (unfold s; split; [apply Z.div_pos; lia|apply Z.div_lt_upper_bound; lia]).
  assert (0 <= s / 86400 <= 2932896) as Hd by (split; [apply Z.div_pos; lia|apply Z.lt_succ_r, Z.div_lt_upper_bound; lia]).
  pose proof (civil_fields (s / 86400)) as Hf. pose proof (Z.mod_pos_bound s 86400 ltac:(lia)) as Hr.
  assert (date_key (civil 0) <= date_key (civil (s / 86400)) <= date_key (civil 2932896)) as Hk.
  { split; [destruct (Z.eq_dec (s / 86400) 0) as [->|]; [lia|apply Z.lt_le_incl, civil_mono; lia]|].
    destruct (Z.eq_dec (s / 86400) 2932896) as [->|]; [lia|apply Z.lt_le_incl, civil_mono; lia]. }
  destruct (civil (s / 86400)) as [[y m] d]. change (date_key (civil 0)) with 19700101 in Hk.
  change (date_key (civil 2932896)) with 99991231 in Hk. unfold date_key in Hk.
  pose proof (Z.mod_pos_bound t 1000000000 ltac:(lia)). set (r := s mod 86400) in *.
  pose proof (Z.mod_pos_bound r 3600 ltac:(lia)). pose proof (Z.mod_pos_bound r 60 ltac:(lia)).
  assert (0 <= r / 3600 < 24) by (split; [apply Z.div_pos; lia|apply Z.div_lt_upper_bound; lia]).
  assert (0 <= r mod 3600 / 60 < 60) by (split; [apply Z.div_pos; lia|apply Z.div_lt_upper_bound; lia]).
  unfold time_ok. simpl. lia.
Qed.

Lemma clock_lt h m s h' m' s' :
  0 <= m < 60 -> 0 <= m' < 60 -> 0 <= s < 60 -> 0 <= s' < 60 ->
  3600 * h + 60 * m + s < 3600 * h' + 60 * m' + s' -> (h * 100 + m) * 100 + s < (h' * 100 + m') * 100 + s'.
Proof. intros. destruct (Z.lt_trichotomy h h') as [|[|]]; [lia| |lia]. destruct (Z.lt_trichotomy m m') as [|[|]]; lia. Qed.

Lemma UTC_second a b : in_range a -> in_range b -> a / 1000000000 < b / 1000000000 -> second_of (UTC a) < second_of (UTC b).
Proof.
  intros Ha Hb H. pose proof (UTC_ok a Ha) as Ta. pose proof (UTC_ok b Hb) as Tb. unfold time_ok, UTC in *.
  set (s := a / 1000000000) in *. set (u := b / 1000000000) in *.
  pose proof (civil_mono (s / 86400) (u / 86400)) as Hm. pose proof (Z.div_le_mono s u 86400 ltac:(lia) ltac:(lia)) as Hle.
  destruct (Z.eq_dec (s / 86400) (u / 86400)) as [E|Hne].
  - rewrite <- E in *. destruct (civil (s / 86400)) as [[y m] d]. simpl in *. unfold second_of. simpl.
    pose proof (Z.div_mod s 86400 ltac:(lia)). pose proof (Z.div_mod u 86400 ltac:(lia)).
    set (r := s mod 86400) in *. set (q := u mod 86400) in *. assert (r < q) as Hrq by lia.
    pose proof (Z.div_mod r 3600 ltac:(lia)). pose proof (Z.div_mod q 3600 ltac:(lia)).
    pose proof (Z.div_mod (r mod 3600) 60 ltac:(lia)). pose proof (Z.div_mod (q mod 3600) 60 ltac:(lia)).
    assert (r mod 60 = (r mod 3600) mod 60) by (rewrite (Z.mod_mod_divide r 3600 60); [done|by exists 60]).
    assert (q mod 60 = (q mod 3600) mod 60) by (rewrite (Z.mod_mod_divide q 3600 60); [done|by exists 60]).
    set (h := r / 3600) in *. set (h' := q / 3600) in *. set (mi := r mod 3600 / 60) in *. set (mi' := q mod 3600 / 60) in *.
    assert (r = 3600 * h + 60 * mi + r mod 60) as Er by lia. assert (q = 3600 * h' + 60 * mi' + q mod 60) as Eq by lia.
    pose proof (clock_lt h mi (r mod 60) h' mi' (q mod 60) ltac:(lia) ltac:(lia) ltac:(lia) ltac:(lia) ltac:(lia)). lia.
  - specialize (Hm ltac:(lia)). destruct (civil (s / 86400)) as [[y m] d], (civil (u / 86400)) as [[y' m'] d'].
    unfold date_key in Hm. unfold second_of. simpl in *. lia.
Qed.

(** Texts of instants: their order is that of the seconds, and is never wrong
    by a second or more. *)
Lemma stamp_lt a b : in_range a -> in_range b -> a / 1000000000 < b / 1000000000 -> String.ltb (stamp a) (stamp b) = true.
Proof. intros Ha Hb H. unfold stamp. rewrite ts_ltb by (by apply UTC_ok). left. by apply UTC_second. Qed.

Lemma stamp_inv a b : in_range a -> in_range b -> String.ltb (stamp a) (stamp b) = true -> a / 1000000000 <= b / 1000000000.
Proof.
  intros Ha Hb H. destruct (Z.le_gt_cases (a / 1000000000) (b / 1000000000)) as [|Hlt]; [done|].
  pose proof (stamp_lt b a Hb Ha Hlt) as H2. by rewrite (str_ltb_asym _ _ H) in H2.
Qed.

(** ** Properties *)

(** The text order of stored times is the order of the seconds they fall
    in; inside one second it is not: a time may be stored as a text that sorts
    after a later one. Queries that order or compare by timestamp are therefore
    right up to less than a second, and no better. *)
Theorem ts_order (a b : Z) :
  in_range a -> in_range b ->
  (a / 1000000000 < b / 1000000000 -> String.ltb (stamp a) (stamp b) = true) /\
  (String.ltb (stamp a) (stamp b) = true -> a < b + 1000000000) /\
  exists u v, in_range u /\ in_range v /\ u / 1000000000 = b / 1000000000 /\ v / 1000000000 = b / 1000000000 /\
    u < v /\ String.ltb (stamp v) (stamp u) = true.
Proof.
  intros Ha Hb. pose proof (Z.div_mod a 1000000000 ltac:(lia)). pose proof (Z.mod_pos_bound a 1000000000 ltac:(lia)).
  pose proof (Z.div_mod b 1000000000 ltac:(lia)). pose proof (Z.mod_pos_bound b 1000000000 ltac:(lia)). split_and!.
  - by apply stamp_lt.
  - intros Hl%stamp_inv; [lia|done..].
  - set (s := b / 1000000000) in *. set (u := 500000000 + s * 1000000000). set (v := 510000000 + s * 1000000000).
    assert (u / 1000000000 = s /\ v / 1000000000 = s /\ u mod 1000000000 = 500000000 /\ v mod 1000000000 = 510000000) as (Eu & Ev & Mu & Mv)
      by (unfold u, v; rewrite !Z.div_add, !Z.mod_add by lia; split_and!; [apply Z.add_0_l..|reflexivity|reflexivity]).
    assert (in_range u /\ in_range v) as [Hu Hv] by (unfold in_range, u, v in *; lia).
    exists u, v. split_and!; [done..|unfold u, v; lia|]. unfold stamp. rewrite ts_ltb by (by apply UTC_ok).
    right. unfold UTC. rewrite Eu, Ev, Mu, Mv. destruct (civil _) as [[y m] d]. split; [done|]. by vm_compute.
Qed.

(** The leap day of 2024. *)
Lemma ts_order_witness : String.ltb (stamp 1709164799999999999) (stamp 1709164800000000000) = true.
Proof.
  apply (ts_order 1709164799999999999 1709164800000000000); [unfold in_range; lia | unfold in_range; lia | vm_compute; reflexivity].
Defined.
