(* ===== verification/Metrics.v ===== *)
(** * Samples: the partitioned table and the chart queries

    Models [internal/store/metrics.go]. A day's samples are a table of their
    own; on Postgres a parent table spans them, on SQLite the reader unions the
    days a range touches. Instants are nanoseconds since the epoch and a stored
    row keeps the second; readings are exact rationals, so the rounding of Go's
    floats is the one thing left out. *)
From S2P Require Import Prelude GoStd.
From Stdlib Require Import QArith.
Local Open Scope string_scope.
Local Open Scope list_scope.
Local Open Scope daffa_scope.
Local Open Scope Z_scope.

(** ** Rows *)

Record Sample := mkSample {
  sTS : Z; sEnvID : string; sContainerID : string; sContainerName : string; sStack : string; sService : string;
  sCPUPct : Q; sCPUCores : Q; sMemBytes : Z; sMemLimit : Z; sMemPct : Q }.

(** A row holds the second the sample was taken in, [m.TS.UTC().Unix()]. *)
Definition Unix (t : Z) : Z := t / 1000000000.
Definition row_of (m : Sample) : Sample :=
  mkSample (Unix (sTS m)) (sEnvID m) (sContainerID m) (sContainerName m) (sStack m) (sService m)
           (sCPUPct m) (sCPUCores m) (sMemBytes m) (sMemLimit m) (sMemPct m).

Definition HostSentinel := ":host".

(** A partition is named after its UTC calendar day; days are numbered from
    the epoch. *)
Definition day_secs : Z := 86400.
Definition day (t : Z) : Z := Unix t / day_secs.
Definition row_day (r : Sample) : Z := sTS r / day_secs.

Inductive Dialect := SQLite | Postgres.
#[export] Instance Dialect_eq_dec : EqDecision Dialect.
Proof. solve_decision. Defined.

Record MetricsDB := mkMetrics { dialect : Dialect; parts : gmap Z (list Sample) }.

(** ** Partitions *)

Definition EnsurePartition (db : MetricsDB) (t : Z) : MetricsDB :=
  match parts db !! day t with
  | Some _ => db
  | None => mkMetrics (dialect db) (<[day t := []]> (parts db))
  end.

(** [Partitions] lists the days oldest first. *)
Definition Partitions (db : MetricsDB) : list Z := ssort Z.ltb (map fst (map_to_list (parts db))).

(** The loop that drops the tables of the days before the cutoff's. *)
Definition drop_step (cut : Z) (st : MetricsDB * list Z) (d : Z) : MetricsDB * list Z :=
  let '(db, dropped) := st in
  if negb (d <? cut) then (db, dropped)
  else (mkMetrics (dialect db) (delete d (parts db)), dropped ++ [d]).

Definition DropPartitionsBefore (db : MetricsDB) (cutoff : Z) : MetricsDB * list Z :=
  fold_left (drop_step (day cutoff)) (Partitions db) (db, []).

(** ** Writing a round *)

Inductive MetricsErr := ErrPartitionBounds.

(** One multi-row INSERT into the child table of [d]. A Postgres partition
    refuses a row outside its bounds, and with it the statement. *)
Definition insert_chunk (d : Z) (db : MetricsDB) (chunk : list Sample) : res MetricsErr MetricsDB :=
  let rows := map row_of chunk in
  if bool_decide (dialect db = Postgres) && negb (forallb (fun r => row_day r =? d) rows) then Err ErrPartitionBounds
  else Ok (mkMetrics (dialect db) (<[d := default [] (parts db !! d) ++ rows]> (parts db))).

Definition chunk_size : nat := 200.

(** The slices [samples[start:end]]; a list is cut in at most as many as it
    has elements. *)
Fixpoint chunks (fuel n : nat) (l : list Sample) : list (list Sample) :=
  match fuel, l with
  | _, [] => []
  | O, _ => []
  | S fuel, _ => take n l :: chunks fuel n (drop n l)
  end.

(** The statements run one after the other: those before a failing one stay. *)
Fixpoint insert_all (d : Z) (db : MetricsDB) (cs : list (list Sample)) : MetricsDB * option MetricsErr :=
  match cs with
  | [] => (db, None)
  | c :: cs => match insert_chunk d db c with Ok db' => insert_all d db' cs | Err e => (db, Some e) end
  end.

Definition InsertSamples (db : MetricsDB) (samples : list Sample) : MetricsDB * option MetricsErr :=
  match samples with
  | [] => (db, None)
  | m :: _ => insert_all (day (sTS m)) (EnsurePartition db (sTS m)) (chunks (length samples) chunk_size samples)
  end.

(** ** Reading a range *)

(** Every row, as Postgres' parent table sees it. *)
Definition all_rows (db : MetricsDB) : list Sample :=
  flat_map (fun d => default [] (parts db !! d)) (Partitions db).

(** [metricsSource]: the rows the FROM expression covers. [want] is the loop
    from the first day of the range to the last. *)
Definition want (from to : Z) : list Z := seqZ (day from) (day to - day from + 1).

Definition metricsSource (db : MetricsDB) (from to : Z) : list Sample :=
  match dialect db with
  | Postgres => all_rows db
  | SQLite => flat_map (fun d => default [] (parts db !! d))
                (List.filter (fun d => bool_decide (d ∈ want from to)) (Partitions db))
  end.

(** ** SQL aggregates *)

(** GROUP BY: one group per key that occurs, with the rows that have it. *)
Definition group_by {A K} `{EqDecision K} (key : A -> K) (l : list A) : list (K * list A) :=
  map (fun k => (k, List.filter (fun x => bool_decide (key x = k)) l)) (remove_dups (map key l)).

Definition Qmax2 (a b : Q) : Q := if Qle_bool a b then b else a.
Definition Qmin2 (a b : Q) : Q := if Qle_bool b a then b else a.

(** MAX, MIN, SUM and AVG; a group is never empty. *)
Definition fold1 (f : Q -> Q -> Q) (l : list Q) : Q := match l with [] => 0%Q | x :: l => fold_left f l x end.
Definition sql_max : list Q -> Q := fold1 Qmax2.
Definition sql_min : list Q -> Q := fold1 Qmin2.
Definition sql_sum (l : list Q) : Q := fold_left Qplus l 0%Q.
Definition sql_avg (l : list Q) : Q := (sql_sum l / inject_Z (Z.of_nat (length l)))%Q.

(** ** The chart *)

Record Point := mkPoint { p_ts : Z; p_cpu_avg : Q; p_cpu_max : Q; p_mem_avg : Q; p_mem_max : Q; p_mem_pct : Q; p_mem_limit : Q }.

Record SeriesQuery := mkSeries {
  q_env : string; q_container : string; q_stack : string; q_host : bool; q_node : string; q_from : Z; q_to : Z; q_max : Z }.

Definition any_or (want have : string) : bool := bool_decide (want = "") || bool_decide (have = want).

(** The WHERE of the chart. *)
Definition series_where (q : SeriesQuery) (r : Sample) : bool :=
  (Unix (q_from q) <=? sTS r) && (sTS r <? Unix (q_to q)) && bool_decide (sEnvID r = q_env q) &&
  (if q_host q then bool_decide (sContainerName r = HostSentinel) && any_or (q_node q) (sContainerID r)
   else negb (bool_decide (sContainerName r = HostSentinel)) && any_or (q_container q) (sContainerName r) &&
        any_or (q_stack q) (sStack r)).

Definition max_points (q : SeriesQuery) : Z := if q_max q <=? 0 then 240 else q_max q.

(** The bucket width in seconds: both divisions truncate. *)
Definition bucket_width (q : SeriesQuery) : Z :=
  let bucket := Z.quot (Z.quot (q_to q - q_from q) 1000000000) (max_points q) in
  if bucket <? 1 then 1 else bucket.

(** One instant: the rows of one second, summed. *)
Record Instant := mkInstant { i_bucket : Z; i_cpu : Q; i_mem : Q; i_pct : Q; i_lim : Q }.

Definition instant_of (w : Z) (g : Z * list Sample) : Instant :=
  mkInstant (Z.quot g.1 w * w) (sql_sum (map sCPUPct g.2)) (sql_sum (map (fun r => inject_Z (sMemBytes r)) g.2))
            (sql_max (map sMemPct g.2)) (sql_sum (map (fun r => inject_Z (sMemLimit r)) g.2)).

Definition point_of (g : Z * list Instant) : Point :=
  mkPoint g.1 (sql_avg (map i_cpu g.2)) (sql_max (map i_cpu g.2)) (sql_avg (map i_mem g.2)) (sql_max (map i_mem g.2))
          (sql_max (map i_pct g.2)) (sql_max (map i_lim g.2)).

Definition series_points (w : Z) (rows : list Sample) : list Point :=
  ssort (fun a b => p_ts a <? p_ts b) (map point_of (group_by i_bucket (map (instant_of w) (group_by sTS rows)))).

Definition Series (db : MetricsDB) (q : SeriesQuery) : list Point :=
  series_points (bucket_width q) (List.filter (series_where q) (metricsSource db (q_from q) (q_to q))).

(** ** Partitions hold their own day *)

Definition parts_ok (db : MetricsDB) : Prop :=
  forall d rows r, parts db !! d = Some rows -> r ∈ rows -> row_day r = d.

Lemma flat_map_ext {A B} (f g : A -> list B) l : (forall x, x ∈ l -> f x = g x) -> flat_map f l = flat_map g l.
Proof.
  induction l as [|x l IH]; intros H; simpl; [done|]. rewrite (H x) by (by left). f_equal.
  apply IH. intros y Hy. apply H. by right.
Qed.

Lemma all_rows_perm db : all_rows db ≡ₚ flat_map snd (map_to_list (parts db)).
Proof.
  unfold all_rows, Partitions. rewrite (Permutation_flat_map _ (ssort_perm _ _)).
  rewrite flat_map_concat_map, map_map, <- flat_map_concat_map.
  rewrite (flat_map_ext _ snd); [done|]. intros [d rows] H. apply elem_of_map_to_list in H. simpl. by rewrite H.
Qed.

Lemma elem_of_all_rows db r : r ∈ all_rows db <-> exists d rows, parts db !! d = Some rows /\ r ∈ rows.
Proof.
  rewrite all_rows_perm, flat_map_elem. split.
  - intros ([d rows] & H & Hr). apply elem_of_map_to_list in H. eauto.
  - intros (d & rows & H & Hr). exists (d, rows). by rewrite elem_of_map_to_list.
Qed.

Lemma elem_of_Partitions db d : d ∈ Partitions db <-> is_Some (parts db !! d).
Proof.
  unfold Partitions. rewrite elem_of_ssort, list_elem_of_fmap. split.
  - intros ([d' rows] & -> & H). apply elem_of_map_to_list in H. eauto.
  - intros [rows H]. exists (d, rows). by rewrite elem_of_map_to_list.
Qed.

Lemma day_mono a b : a <= b -> a / day_secs <= b / day_secs.
Proof. intros. apply Z.div_le_mono; [done|lia]. Qed.

Lemma metricsSource_filter (db : MetricsDB) (f : Sample -> bool) (from to : Z) :
  parts_ok db -> (forall r, f r = true -> Unix from <= sTS r <= Unix to) ->
  List.filter f (metricsSource db from to) = List.filter f (all_rows db).
Proof.
  intros Hok Hf. unfold metricsSource. destruct (dialect db); [|done]. unfold all_rows.
  pose proof (fun d => proj1 (elem_of_Partitions db d)) as Hp. revert Hp.
  induction (Partitions db) as [|d l IH]; intros Hp; simpl; [done|].
  assert (forall x, x ∈ l -> is_Some (parts db !! x)) as Hl by (intros x Hx; apply Hp; by right).
  case_bool_decide as Hw; simpl; rewrite !List.filter_app, ?IH by done; [done|].
  enough (List.filter f (default [] (parts db !! d)) = []) as -> by done.
  destruct (parts db !! d) as [rows|] eqn:E; simpl; [|done].
  assert (forall r, r ∈ rows -> f r = false) as Hnone.
  { intros r Hr. apply not_true_iff_false. intros H. apply Hf in H. pose proof (Hok _ _ _ E Hr) as Hd.
    apply Hw. unfold want. apply elem_of_seqZ. unfold day. subst d. unfold row_day.
    pose proof (day_mono (Unix from) (sTS r)). pose proof (day_mono (sTS r) (Unix to)). lia. }
  clear -Hnone. induction rows as [|r rows IH]; simpl; [done|].
  rewrite Hnone by (by left). apply IH. intros x Hx. apply Hnone. by right.
Qed.

(** On SQLite the pruned read of a range returns the rows the query looks
    at, and no others of interest: any condition that only holds inside the
    range selects from the union of the range's days exactly what it selects
    from the whole table, in the same order. *)
Theorem metricsSource_prunes (db : MetricsDB) (f : Sample -> bool) (from to : Z) :
  parts_ok db -> (forall r, f r = true -> Unix from <= sTS r <= Unix to) ->
  List.filter f (metricsSource db from to) = List.filter f (all_rows db).
Proof. exact (metricsSource_filter db f from to). Qed.

(** ** Writing *)

Lemma chunks_concat n l fuel : (0 < n)%nat -> (length l <= fuel)%nat -> concat (chunks fuel n l) = l.
Proof.
  intros Hn. revert l. induction fuel as [|fuel IH]; intros [|x l] Hl; simpl in *; [done|lia|done|].
  destruct n as [|n]; [lia|]. simpl. rewrite IH by (rewrite length_drop; lia). by rewrite take_drop.
Qed.

Lemma chunks_bound n l fuel c : c ∈ chunks fuel n l -> (length c <= n)%nat.
Proof.
  revert l. induction fuel as [|fuel IH]; intros [|x l]; simpl; try (by intros ?%elem_of_nil).
  intros [->|Hc]%elem_of_cons; [rewrite length_take; lia|]. by eapply IH.
Qed.

Lemma insert_rows_perm (m : gmap Z (list Sample)) d rows :
  flat_map snd (map_to_list (<[d := default [] (m !! d) ++ rows]> m)) ≡ₚ flat_map snd (map_to_list m) ++ rows.
Proof.
  destruct (m !! d) as [old|] eqn:E; simpl.
  - rewrite <- (insert_delete_eq m d).
    rewrite (Permutation_flat_map snd (map_to_list_insert (delete d m) d (old ++ rows) (lookup_delete_eq _ _))). simpl.
    rewrite <- (Permutation_flat_map snd (map_to_list_delete m d old E)). simpl.
    rewrite <- !app_assoc. apply Permutation_app_head, Permutation_app_comm.
  - rewrite (Permutation_flat_map snd (map_to_list_insert m d rows E)). simpl. apply Permutation_app_comm.
Qed.

Lemma insert_chunk_spec d db c db' : insert_chunk d db c = Ok db' ->
  dialect db' = dialect db /\ all_rows db' ≡ₚ all_rows db ++ map row_of c /\
  (dialect db = Postgres -> forall r, r ∈ map row_of c -> row_day r = d) /\
  (parts_ok db -> (forall r, r ∈ map row_of c -> row_day r = d) -> parts_ok db').
Proof.
  unfold insert_chunk. destruct (bool_decide (dialect db = Postgres) && _) eqn:E; [done|]. intros [= <-].
  split_and!; simpl.
  - done.
  - rewrite !all_rows_perm. simpl. apply insert_rows_perm.
  - intros Hp r Hr. rewrite bool_decide_eq_true_2 in E by done. simpl in E. apply negb_false_iff in E.
    rewrite forallb_elem in E. by apply Z.eqb_eq, E.
  - intros Hok Hc d' rows r. simpl. destruct (decide (d' = d)) as [->|Hne].
    + rewrite lookup_insert_eq. intros [= <-]. rewrite elem_of_app. intros [Hr|Hr]; [|by apply Hc].
      destruct (parts db !! d) as [old|] eqn:Eo; [by eapply Hok|by apply elem_of_nil in Hr].
    + rewrite lookup_insert_ne by done. apply Hok.
Qed.

Lemma EnsurePartition_rows db t : all_rows (EnsurePartition db t) ≡ₚ all_rows db /\ dialect (EnsurePartition db t) = dialect db /\
  (parts_ok db -> parts_ok (EnsurePartition db t)) /\ is_Some (parts (EnsurePartition db t) !! day t).
Proof.
  unfold EnsurePartition. destruct (parts db !! day t) eqn:E; [split_and!; eauto|].
  split_and!; simpl.
  - rewrite !all_rows_perm. simpl. by rewrite (Permutation_flat_map snd (map_to_list_insert _ _ _ E)).
  - done.
  - intros Hok d rows r. simpl. destruct (decide (d = day t)) as [->|Hne].
    + rewrite lookup_insert_eq. intros [= <-] ?%elem_of_nil. done.
    + rewrite lookup_insert_ne by done. apply Hok.
  - rewrite lookup_insert_eq. eauto.
Qed.

Lemma insert_all_spec d cs : forall db,
  let r := insert_all d db cs in
  dialect r.1 = dialect db /\
  (parts_ok db -> dialect db = Postgres \/ (forall r, r ∈ map row_of (concat cs) -> row_day r = d) -> parts_ok r.1) /\
  ((forall r, r ∈ map row_of (concat cs) -> row_day r = d) -> r.2 = None) /\
  (r.2 = None -> all_rows r.1 ≡ₚ all_rows db ++ map row_of (concat cs)) /\
  (r.2 <> None -> dialect db = Postgres).
Proof.
  induction cs as [|c cs IH]; intros db; simpl.
  { split_and!; try done. intros _. by rewrite app_nil_r. }
  destruct (insert_chunk d db c) as [db1|e] eqn:E; simpl.
  - destruct (insert_chunk_spec d db c db1 E) as (Hd & Hr & Hp & Hk). destruct (IH db1) as (H1 & H2 & H3 & H4 & H5).
    rewrite Hd in *. split_and!.
    + done.
    + intros Hok Hdisj. apply H2.
      * apply Hk; [done|]. destruct Hdisj as [Hpg|Hall]; [by apply Hp|].
        intros r Hr'. apply Hall. rewrite map_app. apply elem_of_app. by left.
      * destruct Hdisj as [Hpg|Hall]; [by left|]. right. intros r Hr'. apply Hall. rewrite map_app. apply elem_of_app. by right.
    + intros Hall. apply H3. intros r Hr'. apply Hall. rewrite map_app. apply elem_of_app. by right.
    + intros Hn. rewrite (H4 Hn), Hr, map_app, app_assoc. done.
    + done.
  - unfold insert_chunk in E. destruct (bool_decide (dialect db = Postgres) && _) eqn:Ec; [|done]. bd.
    split_and!; try done. intros Hall. exfalso.
    enough (forallb (fun r => row_day r =? d) (map row_of c) = true) by congruence.
    apply forallb_elem. intros r Hr. apply Z.eqb_eq, Hall. rewrite map_app. apply elem_of_app. by left.
Qed.

(** Writing a round whose samples share a day stores every one of them, in
    the partition of its own day, however many statements it takes; and
    whatever the round, Postgres never holds a row in another day's table. *)
Theorem InsertSamples_spec (db : MetricsDB) (m : Sample) (l : list Sample) :
  parts_ok db ->
  let r := InsertSamples db (m :: l) in
  ((forall x, x ∈ l -> day (sTS x) = day (sTS m)) ->
     r.2 = None /\ parts_ok r.1 /\ all_rows r.1 ≡ₚ all_rows db ++ map row_of (m :: l)) /\
  (dialect db = Postgres -> parts_ok r.1).
Proof.
  intros Hok. cbv zeta. unfold InsertSamples. set (s := m :: l). set (db1 := EnsurePartition db (sTS m)).
  destruct (EnsurePartition_rows db (sTS m)) as (Hr & Hd & Hk & _). fold db1 in Hr, Hd, Hk.
  destruct (insert_all_spec (day (sTS m)) (chunks (length s) chunk_size s) db1) as (_ & H2 & H3 & H4 & _).
  rewrite chunks_concat in * by (unfold chunk_size; lia). rewrite Hd in H2. split.
  - intros Hday. assert (forall r, r ∈ map row_of s -> row_day r = day (sTS m)) as Hall.
    { intros r (x & -> & Hx)%list_elem_of_fmap. apply elem_of_cons in Hx as [->|Hx]; [done|]. by apply Hday. }
    split_and!; [by apply H3|apply H2; eauto|]. rewrite (H4 (H3 Hall)), Hr. done.
  - intros Hp. apply H2; eauto.
Qed.

(** ** Retention *)

Lemma drop_fold cut l db acc :
  let r := fold_left (drop_step cut) l (db, acc) in
  dialect r.1 = dialect db /\ r.2 = acc ++ List.filter (fun d => d <? cut) l /\
  forall d, parts r.1 !! d = if bool_decide (d ∈ l) && (d <? cut) then None else parts db !! d.
Proof.
  revert db acc. induction l as [|x l IH]; intros db acc; simpl; [split_and!; [done|by rewrite app_nil_r|done]|].
  destruct (x <? cut) eqn:E; simpl.
  - destruct (IH (mkMetrics (dialect db) (delete x (parts db))) (acc ++ [x])) as (H1 & H2 & H3).
    split_and!; [done|by rewrite H2, <- app_assoc|]. intros d. rewrite H3. simpl.
    destruct (decide (d = x)) as [->|Hne].
    + rewrite lookup_delete_eq, E. rewrite (bool_decide_eq_true_2 (x ∈ x :: l)) by (by left). simpl. by case_match.
    + rewrite lookup_delete_ne by done. rewrite (bool_decide_ext (d ∈ x :: l) (d ∈ l)) by (rewrite elem_of_cons; tauto). done.
  - destruct (IH db acc) as (H1 & H2 & H3). split_and!; [done|done|]. intros d. rewrite H3.
    destruct (decide (d = x)) as [->|Hne]; [by rewrite E, !andb_false_r|].
    rewrite (bool_decide_ext (d ∈ x :: l) (d ∈ l)) by (rewrite elem_of_cons; tauto). done.
Qed.

Lemma Drop_lookup db cutoff d :
  parts (DropPartitionsBefore db cutoff).1 !! d = if d <? day cutoff then None else parts db !! d.
Proof.
  unfold DropPartitionsBefore. destruct (drop_fold (day cutoff) (Partitions db) db []) as (_ & _ & ->).
  case_bool_decide as H; simpl; [done|]. rewrite elem_of_Partitions, <- eq_None_not_Some in H. rewrite H. by case_match.
Qed.

Lemma Drop_rows (db : MetricsDB) (cutoff : Z) : parts_ok db ->
  let r := DropPartitionsBefore db cutoff in
  parts_ok r.1 /\
  (forall x, x ∈ all_rows r.1 <-> x ∈ all_rows db /\ day cutoff <= row_day x) /\
  (forall x, x ∈ all_rows db -> Unix cutoff <= sTS x -> x ∈ all_rows r.1).
Proof.
  intros Hok. cbv zeta.
  assert (forall x, x ∈ all_rows (DropPartitionsBefore db cutoff).1 <-> x ∈ all_rows db /\ day cutoff <= row_day x) as Hrows.
  { intros x. rewrite !elem_of_all_rows. split.
    - intros (d & rows & H & Hx). rewrite Drop_lookup in H. destruct (d <? day cutoff) eqn:E; [done|]. apply Z.ltb_ge in E.
      rewrite (Hok _ _ _ H Hx). eauto.
    - intros [(d & rows & H & Hx) Hd]. rewrite (Hok _ _ _ H Hx) in Hd. exists d, rows. rewrite Drop_lookup.
      by rewrite (proj2 (Z.ltb_ge _ _) Hd). }
  split_and!; [|done|].
  - intros d rows r. rewrite Drop_lookup. destruct (d <? day cutoff); [done|]. apply Hok.
  - intros x Hx Hc. apply Hrows. split; [done|]. by apply day_mono.
Qed.

(** Expiry drops whole days and only those before the cutoff's: a row goes
    exactly when its day is over before the cutoff's day begins, so everything
    younger than the cutoff stays. *)
Theorem DropPartitionsBefore_spec (db : MetricsDB) (cutoff : Z) :
  parts_ok db ->
  let r := DropPartitionsBefore db cutoff in
  parts_ok r.1 /\
  (forall x, x ∈ all_rows r.1 <-> x ∈ all_rows db /\ day cutoff <= row_day x) /\
  (forall x, x ∈ all_rows db -> Unix cutoff <= sTS x -> x ∈ all_rows r.1) /\
  (forall d, d ∈ r.2 <-> is_Some (parts db !! d) /\ d < day cutoff).
Proof.
  intros Hok. destruct (Drop_rows db cutoff Hok) as (H1 & H2 & H3). split_and!; [done..|].
  intros d. unfold DropPartitionsBefore. destruct (drop_fold (day cutoff) (Partitions db) db []) as (_ & -> & _). simpl.
    rewrite elem_of_filter_b, elem_of_Partitions, Z.ltb_lt. done.
Qed.

(** ** Groups and aggregates *)

Lemma group_by_elem {A K} `{EqDecision K} (key : A -> K) l k g :
  (k, g) ∈ group_by key l <-> g = List.filter (fun x => bool_decide (key x = k)) l /\ exists x, x ∈ l /\ key x = k.
Proof.
  unfold group_by. rewrite list_elem_of_fmap. setoid_rewrite elem_of_remove_dups. setoid_rewrite list_elem_of_fmap.
  naive_solver.
Qed.

Lemma group_by_keys {A K} `{EqDecision K} (key : A -> K) l : map fst (group_by key l) = remove_dups (map key l).
Proof. unfold group_by. rewrite map_map. apply map_id. Qed.

Lemma fold1_ind (f : Q -> Q -> Q) (P : Q -> Prop) l :
  (forall a b, P a -> P b -> P (f a b)) -> l <> [] -> (forall x, x ∈ l -> P x) -> P (fold1 f l).
Proof.
  intros Hf Hne Hl. destruct l as [|x l]; [done|]. simpl. clear Hne.
  assert (P x) as Hx by (apply Hl; by left). assert (forall y, y ∈ l -> P y) as Hl' by (intros y Hy; apply Hl; by right).
  clear Hl. revert x Hx. induction l as [|y l IH]; intros x Hx; simpl; [done|].
  apply IH; [intros z Hz; apply Hl'; by right|]. apply Hf; [done|]. apply Hl'. by left.
Qed.

Lemma Qmax2_ub a b x : (x <= a)%Q \/ (x <= b)%Q -> (x <= Qmax2 a b)%Q.
Proof.
  unfold Qmax2. destruct (Qle_bool a b) eqn:E; [apply Qle_bool_iff in E|].
  - intros [H|H]; [by eapply Qle_trans|done].
  - assert (b <= a)%Q. { destruct (Qlt_le_dec a b) as [H|H]; [|done]. apply Qlt_le_weak, Qle_bool_iff in H. congruence. }
    intros [H1|H1]; [done|by eapply Qle_trans].
Qed.

Lemma Qmin2_lb a b x : (a <= x)%Q \/ (b <= x)%Q -> (Qmin2 a b <= x)%Q.
Proof.
  unfold Qmin2. destruct (Qle_bool b a) eqn:E; [apply Qle_bool_iff in E|].
  - intros [H|H]; [by eapply Qle_trans|done].
  - assert (a <= b)%Q. { destruct (Qlt_le_dec b a) as [H|H]; [|done]. apply Qlt_le_weak, Qle_bool_iff in H. congruence. }
    intros [H1|H1]; [done|by eapply Qle_trans].
Qed.

Lemma fold_left_mono (f : Q -> Q -> Q) (R : Q -> Prop) l : (forall a b, R a \/ R b -> R (f a b)) ->
  forall x, R x \/ (exists y, y ∈ l /\ R y) -> R (fold_left f l x).
Proof.
  intros Hf. induction l as [|y l IH]; intros x [Hx|(z & Hz & HR)]; simpl; try done.
  - by apply elem_of_nil in Hz.
  - apply IH. left. auto.
  - apply elem_of_cons in Hz as [->|Hz]; apply IH; [left; auto|right; eauto].
Qed.

(** MAX and MIN are reached by an element of the group and bound all of them. *)
Lemma sql_max_spec l : l <> [] -> (sql_max l ∈ l) /\ forall x, x ∈ l -> (x <= sql_max l)%Q.
Proof.
  intros Hne. split.
  - apply (fold1_ind _ (fun q => q ∈ l)); [|done|done]. intros a b Ha Hb. unfold Qmax2. by case_match.
  - intros x Hx. destruct l as [|y l]; [done|]. apply (fold_left_mono _ (fun q => (x <= q)%Q)).
    + intros a b. apply Qmax2_ub.
    + apply elem_of_cons in Hx as [->|Hx]; [left; apply Qle_refl|right]. exists x. split; [done|apply Qle_refl].
Qed.

Lemma sql_min_spec l : l <> [] -> (sql_min l ∈ l) /\ forall x, x ∈ l -> (sql_min l <= x)%Q.
Proof.
  intros Hne. split.
  - apply (fold1_ind _ (fun q => q ∈ l)); [|done|done]. intros a b Ha Hb. unfold Qmin2. by case_match.
  - intros x Hx. destruct l as [|y l]; [done|]. apply (fold_left_mono _ (fun q => (q <= x)%Q)).
    + intros a b. apply Qmin2_lb.
    + apply elem_of_cons in Hx as [->|Hx]; [left; apply Qle_refl|right]. exists x. split; [done|apply Qle_refl].
Qed.

(** ** The chart *)

Lemma NoDup_Z_range (l : list Z) a b : NoDup l -> (forall x, x ∈ l -> a <= x <= b) -> a <= b + 1 -> Z.of_nat (length l) <= b - a + 1.
Proof.
  intros Hnd Hl Hab. assert (l ⊆+ seqZ a (b - a + 1)) as H%submseteq_length.
  { apply NoDup_submseteq; [done|]. intros x Hx. apply elem_of_seqZ. specialize (Hl x Hx). lia. }
  rewrite length_seqZ in H. lia.
Qed.

(** The CPU of one second: what the containers in scope used together. *)
Definition cpu_at (rows : list Sample) (t : Z) : Q :=
  sql_sum (map sCPUPct (List.filter (fun r => bool_decide (sTS r = t)) rows)).

Lemma elem_of_points w rows p : p ∈ series_points w rows <->
  exists k g, (k, g) ∈ group_by i_bucket (map (instant_of w) (group_by sTS rows)) /\ p = point_of (k, g).
Proof.
  unfold series_points. rewrite elem_of_ssort, list_elem_of_fmap. split; [intros ([k g] & -> & H)|intros (k & g & H & ->)]; eauto.
Qed.

Lemma elem_of_instants w rows i : i ∈ map (instant_of w) (group_by sTS rows) <->
  exists r, r ∈ rows /\ i = instant_of w (sTS r, List.filter (fun x => bool_decide (sTS x = sTS r)) rows).
Proof.
  rewrite list_elem_of_fmap. split.
  - intros ([t g] & -> & (-> & r & Hr & <-)%group_by_elem). eauto.
  - intros (r & Hr & ->). eexists. split; [done|]. apply group_by_elem. eauto.
Qed.

Lemma points_keys w rows :
  map p_ts (map point_of (group_by i_bucket (map (instant_of w) (group_by sTS rows)))) =
  remove_dups (map i_bucket (map (instant_of w) (group_by sTS rows))).
Proof. rewrite map_map. simpl. rewrite <- group_by_keys. done. Qed.

Lemma points_sorted w rows : StronglySorted (fun a b => p_ts a < p_ts b) (series_points w rows).
Proof.
  assert (NoDup (map p_ts (series_points w rows))) as Hnd.
  { unfold series_points. rewrite (Permutation_map _ (ssort_perm _ _)), points_keys. apply NoDup_remove_dups. }
  assert (StronglySorted (sle (fun a b => p_ts a <? p_ts b)) (series_points w rows)) as Hs.
  { apply ssort_sorted; intros; rewrite ?Z.ltb_lt, ?Z.ltb_ge in *; lia. }
  revert Hnd Hs. generalize (series_points w rows). induction l as [|p l IH]; intros Hnd Hs; [constructor|].
  simpl in Hnd. apply NoDup_cons in Hnd as [Hp Hnd]. inversion_clear Hs as [|? ? Hl Hall]. constructor; [by apply IH|].
  rewrite Forall_forall in Hall |- *. intros x Hx. specialize (Hall x Hx). unfold sle in Hall. apply Z.ltb_ge in Hall.
  assert (p_ts x <> p_ts p); [|lia]. intros E. apply Hp. rewrite <- E. by apply list_elem_of_fmap_2.
Qed.

Lemma bucket_width_pos q : 1 <= bucket_width q.
Proof. unfold bucket_width. case_match eqn:E; [lia|]. by apply Z.ltb_ge in E. Qed.

Lemma bucket_covers w t : 1 <= w -> 0 <= t -> Z.quot t w * w <= t < Z.quot t w * w + w.
Proof. intros Hw Ht. rewrite Z.quot_div_nonneg by lia. pose proof (Z.div_mod t w). pose proof (Z.mod_pos_bound t w). lia. Qed.

(** How many buckets a range of [D] seconds has. *)
Lemma bucket_count q t : 0 <= q_from q -> Unix (q_from q) <= t < Unix (q_to q) ->
  (Unix (q_to q) - 1) / bucket_width q - Unix (q_from q) / bucket_width q + 1 <= 2 * max_points q + 1.
Proof.
  intros H0 Ht. unfold Unix in *. set (F := q_from q / 1000000000) in *. set (T := q_to q / 1000000000) in *.
  assert (1 <= max_points q) as HM by (unfold max_points; case_match eqn:E; [lia|apply Z.leb_gt in E; lia]).
  pose proof (Z.div_mod (q_from q) 1000000000 ltac:(lia)). pose proof (Z.mod_pos_bound (q_from q) 1000000000 ltac:(lia)).
  pose proof (Z.div_mod (q_to q) 1000000000 ltac:(lia)). pose proof (Z.mod_pos_bound (q_to q) 1000000000 ltac:(lia)).
  fold F in H. fold T in H2.
  unfold bucket_width. rewrite (Z.quot_div_nonneg (q_to q - q_from q)) by lia. set (D := (q_to q - q_from q) / 1000000000).
  assert (T - F <= D + 1) as HD.
  { unfold D. assert (T - F - 1 <= (q_to q - q_from q) / 1000000000); [|lia]. apply Z.div_le_lower_bound; lia. }
  assert (0 <= D) as HD0 by (apply Z.div_pos; lia).
  rewrite Z.quot_div_nonneg by lia. set (M := max_points q) in *. pose proof (Z.div_mod D M ltac:(lia)). pose proof (Z.mod_pos_bound D M ltac:(lia)).
  case_match eqn:E; [apply Z.ltb_lt in E|apply Z.ltb_ge in E].
  - rewrite !Z.div_1_r. assert (D < M) by nia. lia.
  - set (w := D / M) in *. assert (D <= w * (2 * M - 1)) by nia.
    assert (T - 1 - F <= w * (2 * M - 1)) as Hw by lia.
    assert ((T - 1) / w <= F / w + 2 * M); [|lia].
    pose proof (Z.div_mod F w ltac:(lia)). pose proof (Z.mod_pos_bound F w ltac:(lia)).
    apply Z.lt_succ_r, Z.div_lt_upper_bound; [lia|]. nia.
Qed.

Lemma Series_rows db q : parts_ok db -> Series db q = series_points (bucket_width q) (List.filter (series_where q) (all_rows db)).
Proof.
  intros Hok. unfold Series. rewrite metricsSource_filter; [done|done|]. intros r Hr. unfold series_where in Hr. bd.
  lia.
Qed.

Lemma point_of_row w rows r : r ∈ rows ->
  exists p g, p ∈ series_points w rows /\ p = point_of (Z.quot (sTS r) w * w, g) /\
    instant_of w (sTS r, List.filter (fun x => bool_decide (sTS x = sTS r)) rows) ∈ g.
Proof.
  intros Hr. set (i := instant_of w _). set (insts := map (instant_of w) (group_by sTS rows)).
  set (g := List.filter (fun x => bool_decide (i_bucket x = i_bucket i)) insts).
  assert (i ∈ insts) as Hi by (apply elem_of_instants; eauto).
  exists (point_of (i_bucket i, g)), g. split_and!.
  - apply elem_of_points. exists (i_bucket i), g. split; [|done]. apply group_by_elem. eauto.
  - done.
  - apply elem_of_filter_b. split; [done|]. by apply bool_decide_eq_true_2.
Qed.

Lemma points_count q rows :
  0 <= q_from q -> (forall r, r ∈ rows -> Unix (q_from q) <= sTS r < Unix (q_to q)) ->
  Z.of_nat (length (series_points (bucket_width q) rows)) <= 2 * max_points q + 1.
Proof.
  intros H0 Hin. destruct rows as [|r0 rows0] eqn:E.
  { simpl. unfold max_points. case_match eqn:Em; [lia|apply Z.leb_gt in Em; lia]. }
  pose proof (Hin r0 ltac:(by left)) as Hr0. rewrite <- E in *. clear E rows0.
  pose proof (bucket_width_pos q) as Hw. set (w := bucket_width q) in *.
  etrans; [|apply (bucket_count q (sTS r0)); [done|lia]]. fold w.
  set (keys := remove_dups (map i_bucket (map (instant_of w) (group_by sTS rows)))).
  assert (length (series_points w rows) = length (map (fun k => Z.quot k w) keys)) as ->.
  { rewrite (length_map (fun k => Z.quot k w) keys). unfold keys. rewrite <- points_keys, length_map. unfold series_points. by rewrite ssort_perm. }
  assert (forall k, k ∈ keys -> exists t, k = Z.quot t w * w /\ Unix (q_from q) <= t < Unix (q_to q)) as Hk.
  { intros k (i & -> & (r & Hr & ->)%elem_of_instants)%elem_of_remove_dups%list_elem_of_fmap. exists (sTS r). eauto. }
  assert (0 <= Unix (q_from q)) as HF by (apply Z.div_pos; lia).
  apply NoDup_Z_range.
  - apply NoDup_fmap_2_strong; [|apply NoDup_remove_dups]. intros a b (x & -> & _)%Hk (y & -> & _)%Hk.
    rewrite !Z.quot_mul by lia. by intros ->.
  - intros x (k & -> & (t & -> & Ht)%Hk)%list_elem_of_fmap. rewrite Z.quot_mul, Z.quot_div_nonneg by lia.
    split; apply Z.div_le_mono; lia.
  - pose proof (Z.div_le_mono (Unix (q_from q)) (Unix (q_to q) - 1) w). lia.
Qed.

(** A chart is strictly ordered in time, every sample of the range falls in
    one of its buckets, a bucket's maximum is the total of a second in it and
    is below no other, and there are at most twice [MaxPoints] buckets and one:
    the width is rounded down, so [MaxPoints] itself is not the cap. *)
Theorem Series_spec (db : MetricsDB) (q : SeriesQuery) :
  parts_ok db -> 0 <= q_from q ->
  let rows := List.filter (series_where q) (all_rows db) in
  let pts := Series db q in
  StronglySorted (fun a b => p_ts a < p_ts b) pts /\
  (forall p, p ∈ pts -> exists r, r ∈ rows /\ p_ts p <= sTS r < p_ts p + bucket_width q /\ p_cpu_max p = cpu_at rows (sTS r)) /\
  (forall r, r ∈ rows -> exists p, p ∈ pts /\ p_ts p <= sTS r < p_ts p + bucket_width q /\ (cpu_at rows (sTS r) <= p_cpu_max p)%Q) /\
  Z.of_nat (length pts) <= 2 * max_points q + 1.
Proof.
  intros Hok H0 rows pts. unfold pts. rewrite Series_rows by done. fold rows. pose proof (bucket_width_pos q) as Hw.
  assert (forall r, r ∈ rows -> Unix (q_from q) <= sTS r < Unix (q_to q)) as Hin.
  { intros r [_ Hr]%elem_of_filter_b. unfold series_where in Hr. bd.
    lia. }
  assert (0 <= Unix (q_from q)) as HF by (apply Z.div_pos; lia).
  split_and!.
  - apply points_sorted.
  - intros p (k & g & [-> (i0 & Hi0 & Hk)]%group_by_elem & ->)%elem_of_points. simpl.
    set (insts := map (instant_of _) _) in *. set (g := List.filter _ insts).
    destruct (sql_max_spec (map i_cpu g)) as [Hmax _].
    { intros Hnil%map_eq_nil. assert (i0 ∈ g) as Hg by (apply elem_of_filter_b; by rewrite bool_decide_eq_true_2). rewrite Hnil in Hg. by apply elem_of_nil in Hg. }
    apply list_elem_of_fmap in Hmax as (i & -> & [Hi Hik]%elem_of_filter_b). bd.
    apply elem_of_instants in Hi as (r & Hr & ->). exists r. split; [done|]. simpl in Hik. subst k. rewrite <- Hik. split; [|done].
    apply bucket_covers; [done|]. specialize (Hin r Hr). lia.
  - intros r Hr. destruct (point_of_row (bucket_width q) rows r Hr) as (p & g & Hp & -> & Hg). eexists. split; [exact Hp|].
    simpl. split; [apply bucket_covers; [done|]; specialize (Hin r Hr); lia|].
    apply sql_max_spec; [destruct g; [by apply elem_of_nil in Hg|done]|]. apply (list_elem_of_fmap_2 i_cpu) in Hg. exact Hg.
  - by apply points_count.
Qed.

(** ** At a concrete installation *)

Definition reading (t : Z) (name stack service : string) (pct : Q) : Sample :=
  mkSample (t * 1000000000) "prod" (name +:+ "-id") name stack service pct 2 1000 2000 (inject_Z 50).

(** 13 July 2026, two minutes before midnight UTC. *)
Definition t_demo : Z := 1783987080.
Definition samples_demo : list Sample :=
  [reading t_demo "a-db-1" "a" "db" (inject_Z 90); reading t_demo "b-db-1" "b" "db" (inject_Z 10)].
Definition empty_demo : MetricsDB := mkMetrics SQLite ∅.
Definition metrics_demo : MetricsDB :=
  (InsertSamples (InsertSamples empty_demo samples_demo).1 [reading (t_demo + 180) "a-db-1" "a" "db" (inject_Z 95)]).1.

(** The invariant, as a computation. *)
Definition parts_okb (db : MetricsDB) : bool :=
  forallb (fun kv => forallb (fun r => row_day r =? kv.1) kv.2) (map_to_list (parts db)).
Lemma parts_okb_ok db : parts_okb db = true -> parts_ok db.
Proof.
  unfold parts_okb. rewrite forallb_forall. intros H d rows r Hd Hr. apply elem_of_map_to_list, list_elem_of_In in Hd.
  apply H in Hd. simpl in Hd. rewrite forallb_forall in Hd. apply Z.eqb_eq, Hd. by apply list_elem_of_In.
Qed.

Lemma parts_ok_demo : parts_ok metrics_demo.
Proof. apply parts_okb_ok. vm_compute. reflexivity. Qed.

Definition chart_demo : SeriesQuery := mkSeries "prod" "" "a" false "" ((t_demo - 60) * 1000000000) ((t_demo + 240) * 1000000000) 2.

Lemma metricsSource_prunes_witness :
  List.filter (series_where chart_demo) (metricsSource metrics_demo (q_from chart_demo) (q_to chart_demo)) =
  List.filter (series_where chart_demo) (all_rows metrics_demo).
Proof.
  apply (metricsSource_prunes metrics_demo (series_where chart_demo) (q_from chart_demo) (q_to chart_demo) parts_ok_demo).
  intros r Hr. unfold series_where in Hr. bd. lia.
Defined.

Lemma parts_ok_empty : parts_ok empty_demo.
Proof. intros d rows r H. unfold empty_demo in H. simpl in H. by rewrite lookup_empty in H. Qed.

Lemma InsertSamples_spec_witness :
  (InsertSamples empty_demo samples_demo).2 = None /\
  all_rows (InsertSamples empty_demo samples_demo).1 ≡ₚ all_rows empty_demo ++ map row_of samples_demo.
Proof.
  destruct (InsertSamples_spec empty_demo (reading t_demo "a-db-1" "a" "db" (inject_Z 90)) [reading t_demo "b-db-1" "b" "db" (inject_Z 10)] parts_ok_empty)
    as [H _].
  destruct H as (H1 & _ & H2); [|split; [exact H1|exact H2]].
  intros x Hx. apply elem_of_cons in Hx as [->|Hx]; [reflexivity|by apply elem_of_nil in Hx].
Defined.

Lemma DropPartitionsBefore_spec_witness :
  let r := DropPartitionsBefore metrics_demo ((t_demo + 86400) * 1000000000) in
  parts_ok r.1 /\ r.2 = [20647].
Proof.
  split; [|vm_compute; reflexivity].
  destruct (DropPartitionsBefore_spec metrics_demo ((t_demo + 86400) * 1000000000) parts_ok_demo) as (H & _). exact H.
Defined.

Lemma Series_spec_witness :
  map p_ts (Series metrics_demo chart_demo) = [1783987050; 1783987200] /\
  Z.of_nat (length (Series metrics_demo chart_demo)) <= 5.
Proof.
  split; [vm_compute; reflexivity|].
  destruct (Series_spec metrics_demo chart_demo parts_ok_demo) as (_ & _ & _ & H); [vm_compute; discriminate|exact H].
Defined.
