(* ===== verification/Monitors.v ===== *)
(** * Monitors: the sampling settings, the rules and their alerts

    Models [internal/store/monitors.go] up to the evaluation query, and the
    operations on [monitor_alerts]. The tables are maps and lists as in
    [Deployments]; instants are nanoseconds, compared as the texts
    [Timestamps.stamp] writes wherever SQL compares them. *)
From S2P Require Import Prelude GoStd Timestamps Metrics.
From Stdlib Require Import QArith.
Local Open Scope string_scope.
Local Open Scope list_scope.
Local Open Scope daffa_scope.
Local Open Scope Z_scope.

(** ** Settings *)

Definition MaxRetentionDays : Z := 90.
Definition MinIntervalSecs : Z := 30.

Record MonitorSettings := mkSettings { ms_enabled : bool; ms_interval : Z; ms_retention : Z }.

(** [Interval] is a [time.Duration], a 64-bit number of nanoseconds. *)
Definition Interval (m : MonitorSettings) : Z := wrap64 (ms_interval m * 1000000000).

Definition default_settings : MonitorSettings := mkSettings true 30 7.

(** The row, if it was ever written, read up to the floor. *)
Definition ReadMonitorSettings (row : option MonitorSettings) : MonitorSettings :=
  match row with
  | None => default_settings
  | Some m => mkSettings (ms_enabled m) (if ms_interval m <? MinIntervalSecs then MinIntervalSecs else ms_interval m) (ms_retention m)
  end.

Inductive SettingsErr := ErrRetentionTooLong | ErrIntervalTooShort.

Definition SaveMonitorSettings (m : MonitorSettings) : res SettingsErr (option MonitorSettings) :=
  if (ms_retention m <? 1) || (MaxRetentionDays <? ms_retention m) then Err ErrRetentionTooLong
  else if ms_interval m <? MinIntervalSecs then Err ErrIntervalTooShort
  else Ok (Some m).

(** ** Rules *)

(** What each metric reads off a sample. *)
Definition metricColumns (metric : string) : option (Sample -> Q) :=
  if bool_decide (metric = "cpu_pct") then Some sCPUPct
  else if bool_decide (metric = "mem_pct") then Some sMemPct
  else if bool_decide (metric = "mem_bytes") then Some (fun r => inject_Z (sMemBytes r))
  else if bool_decide (metric = "cpu_cores") then Some (fun r => (sCPUPct r * sCPUCores r / inject_Z 100)%Q)
  else None.

Definition PercentMetric (metric : string) : bool := bool_decide (metric = "cpu_pct") || bool_decide (metric = "mem_pct").

(** [v > threshold] and [v < threshold]. *)
Definition Qlt_bool (a b : Q) : bool := negb (Qle_bool b a).
Inductive Op := OpGt | OpLt.
Definition comparisons (op : string) : option Op :=
  if bool_decide (op = ">") then Some OpGt else if bool_decide (op = "<") then Some OpLt else None.
Definition breaches (op : Op) (v threshold : Q) : bool := match op with OpGt => Qlt_bool threshold v | OpLt => Qlt_bool v threshold end.

Definition ActionRestart := "restart".
Definition ActionExec := "exec".
Definition ActionScale := "scale".
Definition ActionHTTP := "http".

Record MonitorAction := mkAction {
  ac_kind : string; ac_command : list string; ac_timeout : Z; ac_by : Z; ac_limit : Z;
  ac_url : string; ac_secret : string; ac_secret_enc : string; ac_has_secret : bool }.

Record storedAction := mkStored {
  sa_kind : string; sa_command : list string; sa_timeout : Z; sa_by : Z; sa_limit : Z; sa_url : string; sa_secret_enc : string }.

(** [EnvID], [Stack] and [Container] are filters, "" meaning any. *)
Record Monitor := mkMonitor {
  mID : string; mName : string; mEnabled : bool; mMetric : string; mOp : string; mThreshold : Q; mDurationSecs : Z;
  mEnvID : string; mStack : string; mContainer : string; mActions : list MonitorAction; mCooldownSecs : Z;
  mCreatedAt : Z; mUpdatedAt : Z }.

Definition maxMonitorActions : nat := 5.
Definition DefaultActionCooldown : Z := 15 * 60.
Definition minActionCooldownSecs : Z := 60.
Definition maxActionCooldownSecs : Z := 24 * 60 * 60.
Definition maxExecTimeoutSecs : Z := 600.
Definition maxHTTPTimeoutSecs : Z := 30.
Definition maxScaleStep : Z := 10.

(** Every way a rule can be wrong: all of them are [ErrInvalidMonitor]. *)
Inductive BadRule :=
| BadName | ErrUnknownMetric (metric : string) | ErrBadComparison (op : string) | BadWindow
| BadFleetActions | BadActionCount | BadCooldown | BadCommand | BadExecTimeout | BadScaleStep | BadScaleLimit
| BadURL | BadHTTPTimeout | BadActionKind (kind : string) | BadPercentage | BadQuantity.

Definition set_url (a : MonitorAction) (u : string) : MonitorAction :=
  mkAction (ac_kind a) (ac_command a) (ac_timeout a) (ac_by a) (ac_limit a) u (ac_secret a) (ac_secret_enc a) (ac_has_secret a).

(** One turn of the loop over the actions; an HTTP action's URL is trimmed in
    place. *)
Definition validate_action (a : MonitorAction) : res BadRule MonitorAction :=
  if bool_decide (ac_kind a = ActionRestart) then Ok a
  else if bool_decide (ac_kind a = ActionExec) then
    match ac_command a with
    | [] => Err BadCommand
    | c :: _ =>
        if bool_decide (strings.TrimSpace c = "") then Err BadCommand
        else if (ac_timeout a <? 0) || (maxExecTimeoutSecs <? ac_timeout a) then Err BadExecTimeout else Ok a
    end
  else if bool_decide (ac_kind a = ActionScale) then
    if (ac_by a =? 0) || (maxScaleStep <? ac_by a) || (ac_by a <? - maxScaleStep) then Err BadScaleStep
    else if ac_limit a <? 1 then Err BadScaleLimit else Ok a
  else if bool_decide (ac_kind a = ActionHTTP) then
    let u := strings.TrimSpace (ac_url a) in
    if negb (strings.HasPrefix u "https://") && negb (strings.HasPrefix u "http://") then Err BadURL
    else if (ac_timeout a <? 0) || (maxHTTPTimeoutSecs <? ac_timeout a) then Err BadHTTPTimeout
    else Ok (set_url a u)
  else Err (BadActionKind (ac_kind a)).

Fixpoint map_res {A B E} (f : A -> res E B) (l : list A) : res E (list B) :=
  match l with [] => Ok [] | x :: l => let* y := f x in let* ys := map_res f l in Ok (y :: ys) end.

Definition set_actions (m : Monitor) (acts : list MonitorAction) (cooldown : Z) : Monitor :=
  mkMonitor (mID m) (mName m) (mEnabled m) (mMetric m) (mOp m) (mThreshold m) (mDurationSecs m) (mEnvID m) (mStack m)
            (mContainer m) acts cooldown (mCreatedAt m) (mUpdatedAt m).

Definition validateActions (m : Monitor) : res BadRule Monitor :=
  match mActions m with
  | [] => Ok m
  | _ =>
      if bool_decide (mEnvID m = "") then Err BadFleetActions
      else if (maxMonitorActions <? length (mActions m))%nat then Err BadActionCount
      else
        let cooldown := if mCooldownSecs m =? 0 then DefaultActionCooldown else mCooldownSecs m in
        if (cooldown <? minActionCooldownSecs) || (maxActionCooldownSecs <? cooldown) then Err BadCooldown
        else let* acts := map_res validate_action (mActions m) in Ok (set_actions m acts cooldown)
  end.

(** [validate] also fills in what it defaults, so it returns the rule that will
    be stored. *)
Definition validate (m : Monitor) : res BadRule Monitor :=
  if bool_decide (strings.TrimSpace (mName m) = "") then Err BadName
  else match metricColumns (mMetric m) with
  | None => Err (ErrUnknownMetric (mMetric m))
  | Some _ =>
    match comparisons (mOp m) with
    | None => Err (ErrBadComparison (mOp m))
    | Some _ =>
        if mDurationSecs m <? 60 then Err BadWindow
        else
          let* m := validateActions m in
          if PercentMetric (mMetric m) then
            if Qlt_bool (mThreshold m) 0 || Qlt_bool (inject_Z 100) (mThreshold m) then Err BadPercentage else Ok m
          else if Qle_bool (mThreshold m) 0 then Err BadQuantity
          else Ok m
    end
  end.

(** ** The tables *)

Inductive AlertState := AlertFiring | AlertResolved.
#[export] Instance AlertState_eq_dec : EqDecision AlertState.
Proof. solve_decision. Defined.

(** Identifiers of alerts come from [NewID], which never repeats one: the
    [n]-th is the number [n]. *)
Record Alert := mkAlert {
  aID : nat; aMonitorID : string; aEnvID : string; aContainerName : string; aContainerID : string; aStack : string;
  aState : AlertState; aValue : Q; aStartedAt : Z; aLastSeenAt : Z; aResolvedAt : option Z; aResolveReason : string;
  aActionsAt : option Z }.

(** A stored rule: the host filter is NULL for "every host", and the actions
    are one JSON text. *)
Record MonitorRow := mkRow { mr_rule : Monitor; mr_env : option string; mr_actions : string }.

Record MonDB := mkMonDB {
  monitors : gmap string MonitorRow; alerts : list Alert; next_id : nat;
  environments : gset string; settings : option MonitorSettings; metrics : MetricsDB }.

Definition set_monitors (db : MonDB) (m : gmap string MonitorRow) : MonDB := mkMonDB m (alerts db) (next_id db) (environments db) (settings db) (metrics db).
Definition set_alerts (db : MonDB) (l : list Alert) : MonDB := mkMonDB (monitors db) l (next_id db) (environments db) (settings db) (metrics db).
Definition set_metrics (db : MonDB) (m : MetricsDB) : MonDB := mkMonDB (monitors db) (alerts db) (next_id db) (environments db) (settings db) m.

Inductive MonErr := ErrInvalidMonitor (why : BadRule) | ErrNotFound | ErrConstraint.

Definition invalid {A} (r : res BadRule A) : res MonErr A := match r with Ok a => Ok a | Err b => Err (ErrInvalidMonitor b) end.

(** ** Alerts *)

Definition firing_on (mid target : string) (a : Alert) : bool :=
  bool_decide (aMonitorID a = mid) && bool_decide (aContainerName a = target) && bool_decide (aState a = AlertFiring).

(** [FiringAlert]: the row the query returns first. *)
Definition FiringAlert (db : MonDB) (mid target : string) : option Alert := List.find (firing_on mid target) (alerts db).

Definition RaiseAlert (db : MonDB) (now : Z) (mid env target cid stack : string) (value : Q) : res MonErr (MonDB * Alert) :=
  let a := mkAlert (next_id db) mid env target cid stack AlertFiring value now now None "" None in
  match monitors db !! mid with
  | None => Err ErrConstraint
  | Some _ => Ok (mkMonDB (monitors db) (alerts db ++ [a]) (S (next_id db)) (environments db) (settings db) (metrics db), a)
  end.

Definition update_alerts (p : Alert -> bool) (f : Alert -> Alert) (db : MonDB) : MonDB :=
  set_alerts db (map (fun a => if p a then f a else a) (alerts db)).

Definition is_firing (id : nat) (a : Alert) : bool := bool_decide (aID a = id) && bool_decide (aState a = AlertFiring).

Definition touch (value : Q) (now : Z) (a : Alert) : Alert :=
  mkAlert (aID a) (aMonitorID a) (aEnvID a) (aContainerName a) (aContainerID a) (aStack a) (aState a) value (aStartedAt a) now
          (aResolvedAt a) (aResolveReason a) (aActionsAt a).
Definition TouchAlert (db : MonDB) (id : nat) (value : Q) (now : Z) : MonDB := update_alerts (is_firing id) (touch value now) db.

Definition resolved (reason : string) (now : Z) (a : Alert) : Alert :=
  mkAlert (aID a) (aMonitorID a) (aEnvID a) (aContainerName a) (aContainerID a) (aStack a) AlertResolved (aValue a) (aStartedAt a)
          (aLastSeenAt a) (Some now) reason (aActionsAt a).
Definition ResolveAlert (db : MonDB) (id : nat) (reason : string) (now : Z) : MonDB := update_alerts (is_firing id) (resolved reason now) db.

Definition resolveAlertsFor (db : MonDB) (mid reason : string) (now : Z) : MonDB :=
  update_alerts (fun a => bool_decide (aMonitorID a = mid) && bool_decide (aState a = AlertFiring)) (resolved reason now) db.

Definition StaleAlerts (db : MonDB) (before : Z) : list Alert :=
  List.filter (fun a => bool_decide (aState a = AlertFiring) && String.ltb (stamp (aLastSeenAt a)) (stamp before)) (alerts db).

(** [ClaimAlertActions] and [LastActionAt]: when a monitor's actions last
    started on a target, the greatest text of the column. *)
Definition claimed (now : Z) (a : Alert) : Alert :=
  mkAlert (aID a) (aMonitorID a) (aEnvID a) (aContainerName a) (aContainerID a) (aStack a) (aState a) (aValue a) (aStartedAt a)
          (aLastSeenAt a) (aResolvedAt a) (aResolveReason a) (Some now).
Definition ClaimAlertActions (db : MonDB) (id : nat) (now : Z) : MonDB :=
  update_alerts (fun a => bool_decide (aID a = id)) (claimed now) db.

Definition later (a b : Z) : Z := if String.ltb (stamp a) (stamp b) then b else a.
Definition LastActionAt (db : MonDB) (mid target : string) : option Z :=
  match omap aActionsAt (List.filter (fun a => bool_decide (aMonitorID a = mid) && bool_decide (aContainerName a = target)) (alerts db)) with
  | [] => None
  | t :: ts => Some (fold_left later ts t)
  end.

(** Firing first, then the latest: the list a caller may see. *)
Definition alert_before (a b : Alert) : bool :=
  let rank x := bool_decide (aState x = AlertFiring) in
  if rank a && negb (rank b) then true else if rank b && negb (rank a) then false
  else String.ltb (stamp (aStartedAt b)) (stamp (aStartedAt a)).
Definition alert_limit (limit : Z) : nat := Z.to_nat (if limit <=? 0 then 100 else limit).
Definition ListAlerts (db : MonDB) (global : bool) (envs : list string) (limit : Z) : list Alert :=
  if negb global && bool_decide (envs = []) then []
  else take (alert_limit limit) (ssort alert_before
         (List.filter (fun a => bool_decide (is_Some (monitors db !! aMonitorID a)) && (global || bool_decide (aEnvID a ∈ envs))) (alerts db))).

(** ** Rules in the database *)

(** [encoding/json] on the stored actions. *)
Class JSON := {
  marshal : list storedAction -> string;
  unmarshal : string -> option (list storedAction) }.

(** What the code relies on: a list reads back, and its text is not empty. *)
Class JSONLaws (J : JSON) : Prop := {
  unmarshal_marshal l : unmarshal (marshal l) = Some l;
  marshal_nonempty l : marshal l <> "" }.

Section Rules.
Context {J : JSON}.

Definition stored_of (a : MonitorAction) : storedAction :=
  mkStored (ac_kind a) (ac_command a) (ac_timeout a) (ac_by a) (ac_limit a) (ac_url a) (ac_secret_enc a).
Definition encodeActions (l : list MonitorAction) : string := match l with [] => "" | _ => marshal (map stored_of l) end.

Definition action_of (a : storedAction) : MonitorAction :=
  mkAction (sa_kind a) (sa_command a) (sa_timeout a) (sa_by a) (sa_limit a) (sa_url a) "" (sa_secret_enc a)
           (negb (bool_decide (sa_secret_enc a = ""))).
Definition decodeActions (s : string) : list MonitorAction :=
  if bool_decide (s = "") then [] else match unmarshal s with None => [] | Some l => map action_of l end.

Definition cooldown (m : Monitor) : Z := if mCooldownSecs m =? 0 then DefaultActionCooldown else mCooldownSecs m.
Definition nullEnv (envID : string) : option string := if bool_decide (envID = "") then None else Some envID.

(** The columns of a rule, and [scanMonitor], which reads them back. *)
Definition row_of_rule (m : Monitor) : MonitorRow := mkRow (set_actions m [] (cooldown m)) (nullEnv (mEnvID m)) (encodeActions (mActions m)).
Definition scanMonitor (r : MonitorRow) : Monitor :=
  let m := mr_rule r in
  mkMonitor (mID m) (mName m) (mEnabled m) (mMetric m) (mOp m) (mThreshold m) (mDurationSecs m)
            (match mr_env r with Some e => e | None => "" end) (mStack m) (mContainer m) (decodeActions (mr_actions r))
            (mCooldownSecs m) (mCreatedAt m) (mUpdatedAt m).

Definition env_fk (db : MonDB) (m : Monitor) : bool :=
  match nullEnv (mEnvID m) with None => true | Some e => bool_decide (e ∈ environments db) end.

Definition with_id (m : Monitor) (id : string) (created updated : Z) : Monitor :=
  mkMonitor id (mName m) (mEnabled m) (mMetric m) (mOp m) (mThreshold m) (mDurationSecs m) (mEnvID m) (mStack m) (mContainer m)
            (mActions m) (mCooldownSecs m) created updated.

Definition CreateMonitor (db : MonDB) (m : Monitor) (newid : string) (now : Z) : res MonErr (MonDB * Monitor) :=
  let* m := invalid (validate m) in
  let m := with_id m ("mon_" +:+ newid) now now in
  match monitors db !! mID m with
  | Some _ => Err ErrConstraint
  | None => if env_fk db m then Ok (set_monitors db (<[mID m := row_of_rule m]> (monitors db)), m) else Err ErrConstraint
  end.

(** Disabling a monitor resolves its alerts, without a notification. *)
Definition UpdateMonitor (db : MonDB) (m : Monitor) (now : Z) : res MonErr MonDB :=
  let* m := invalid (validate m) in
  match monitors db !! mID m with
  | None => Err ErrNotFound
  | Some old =>
      let m := with_id m (mID m) (mCreatedAt (mr_rule old)) now in
      if env_fk db m then
        let db := set_monitors db (<[mID m := row_of_rule m]> (monitors db)) in
        Ok (if negb (mEnabled m) then resolveAlertsFor db (mID m) "the monitor was disabled" now else db)
      else Err ErrConstraint
  end.

Definition MonitorByID (db : MonDB) (id : string) : res MonErr Monitor :=
  match monitors db !! id with Some r => Ok (scanMonitor r) | None => Err ErrNotFound end.

(** The alerts of a deleted rule go with it. *)
Definition DeleteMonitor (db : MonDB) (id : string) : res MonErr MonDB :=
  match monitors db !! id with
  | None => Err ErrNotFound
  | Some _ => Ok (set_alerts (set_monitors db (delete id (monitors db)))
                    (List.filter (fun a => negb (bool_decide (aMonitorID a = id))) (alerts db)))
  end.

Definition by_name (a b : MonitorRow) : bool := String.ltb (mName (mr_rule a)) (mName (mr_rule b)).
Definition monitor_rows (db : MonDB) : list MonitorRow := ssort by_name (map snd (map_to_list (monitors db))).

(** [env_id IN (…)] is never true of a NULL. *)
Definition ListMonitors (db : MonDB) (global : bool) (envs : list string) : list Monitor :=
  if negb global && bool_decide (envs = []) then []
  else map scanMonitor (List.filter (fun r => global || match mr_env r with Some e => bool_decide (e ∈ envs) | None => false end) (monitor_rows db)).

Definition EnabledMonitors (db : MonDB) : list Monitor :=
  map scanMonitor (List.filter (fun r => mEnabled (mr_rule r)) (monitor_rows db)).

(** ** What a stored rule is *)

Definition action_ok (a : MonitorAction) : Prop :=
  (ac_kind a = ActionRestart) \/
  (ac_kind a = ActionExec /\ (exists c l, ac_command a = c :: l /\ strings.TrimSpace c <> "") /\ 0 <= ac_timeout a <= maxExecTimeoutSecs) \/
  (ac_kind a = ActionScale /\ 1 <= Z.abs (ac_by a) <= maxScaleStep /\ 1 <= ac_limit a) \/
  (ac_kind a = ActionHTTP /\ (strings.HasPrefix (ac_url a) "https://" = true \/ strings.HasPrefix (ac_url a) "http://" = true) /\
     0 <= ac_timeout a <= maxHTTPTimeoutSecs).

Definition rule_ok (m : Monitor) : Prop :=
  strings.TrimSpace (mName m) <> "" /\ is_Some (metricColumns (mMetric m)) /\ is_Some (comparisons (mOp m)) /\ 60 <= mDurationSecs m /\
  (if PercentMetric (mMetric m) then (0 <= mThreshold m)%Q /\ (mThreshold m <= inject_Z 100)%Q else (0 < mThreshold m)%Q) /\
  (mActions m <> [] -> mEnvID m <> "" /\ (length (mActions m) <= maxMonitorActions)%nat /\
     minActionCooldownSecs <= mCooldownSecs m <= maxActionCooldownSecs /\ Forall action_ok (mActions m)).

Lemma Qlt_bool_true a b : Qlt_bool a b = true <-> (a < b)%Q.
Proof.
  unfold Qlt_bool. rewrite negb_true_iff, <- not_true_iff_false, Qle_bool_iff. split; [apply Qnot_le_lt|apply Qlt_not_le].
Qed.
Lemma Qlt_bool_false a b : Qlt_bool a b = false <-> (b <= a)%Q.
Proof. rewrite <- not_true_iff_false, Qlt_bool_true. split; [apply Qnot_lt_le|intros H H'; by apply (Qlt_not_le _ _ H')]. Qed.
Lemma Qle_bool_false a b : Qle_bool a b = false -> (b < a)%Q.
Proof. intros H. apply Qlt_bool_true. unfold Qlt_bool. by rewrite H. Qed.

Lemma validate_action_ok a a' : validate_action a = Ok a' -> action_ok a'.
Proof.
  unfold validate_action, action_ok. intros H.
  case_bool_decide as Hk1; [|case_bool_decide as Hk2; [|case_bool_decide as Hk3; [|case_bool_decide as Hk4]]].
  - injection H as <-. by left.
  - destruct (ac_command a) as [|c l] eqn:E; [discriminate|]. destruct (bool_decide _) eqn:Ec; [discriminate|].
    destruct ((ac_timeout a <? 0) || _) eqn:Et; [done|]. injection H as <-. bd. right. left. split_and!; [done|eauto|lia|lia].
  - destruct ((ac_by a =? 0) || _ || _) eqn:Eb; [done|]. destruct (ac_limit a <? 1) eqn:El; [done|]. injection H as <-. bd.
    right. right. left. match goal with H : (_ =? 0) = false |- _ => apply Z.eqb_neq in H end. split_and!; [done|lia|lia|lia].
  - destruct (negb _ && negb _) eqn:Eu; [done|]. destruct ((ac_timeout a <? 0) || _) eqn:Et; [done|]. injection H as <-. bd.
    right. right. right. simpl. split_and!; [done| |lia|lia]. apply andb_false_iff in Eu. rewrite !negb_false_iff in Eu. done.
  - done.
Qed.

Lemma map_res_Forall {A B E} (f : A -> res E B) (P : B -> Prop) l l' :
  (forall x y, f x = Ok y -> P y) -> map_res f l = Ok l' -> Forall P l' /\ length l' = length l.
Proof.
  intros Hf. revert l'. induction l as [|x l IH]; intros l' H; simpl in H; [by inv_res|].
  apply rbind_ok_inv in H as (y & Hy & (ys & Hys & [= <-])%rbind_ok_inv). destruct (IH _ Hys) as [HF HL].
  split; [constructor; eauto|simpl; congruence].
Qed.

Lemma validateActions_ok m m' : validateActions m = Ok m' ->
  mName m' = mName m /\ mMetric m' = mMetric m /\ mOp m' = mOp m /\ mDurationSecs m' = mDurationSecs m /\ mThreshold m' = mThreshold m /\
  mEnvID m' = mEnvID m /\ mEnabled m' = mEnabled m /\ mID m' = mID m /\
  (mActions m' <> [] -> mEnvID m' <> "" /\ (length (mActions m') <= maxMonitorActions)%nat /\
     minActionCooldownSecs <= mCooldownSecs m' <= maxActionCooldownSecs /\ Forall action_ok (mActions m')).
Proof.
  unfold validateActions. destruct (mActions m) as [|a0 acts] eqn:E.
  { intros [= <-]. rewrite E. split_and!; done. }
  rewrite <- E. case_bool_decide as He; [done|]. destruct (maxMonitorActions <? length (mActions m))%nat eqn:El; [done|].
  set (cd := if mCooldownSecs m =? 0 then _ else _). destruct ((cd <? _) || _) eqn:Ec; [done|]. intros (acts' & Ha & [= <-])%rbind_ok_inv.
  destruct (map_res_Forall _ action_ok _ _ validate_action_ok Ha) as [HF HL]. simpl. split_and!; try done.
  intros _. apply Nat.ltb_ge in El. bd. split_and!; [done|lia|lia|lia|done].
Qed.

Lemma validate_ok m m' : validate m = Ok m' -> rule_ok m' /\ mEnvID m' = mEnvID m /\ mEnabled m' = mEnabled m /\ mID m' = mID m.
Proof.
  unfold validate. case_bool_decide as Hn; [done|]. destruct (metricColumns (mMetric m)) as [col|] eqn:Em; [|done].
  destruct (comparisons (mOp m)) as [op|] eqn:Eo; [|done]. destruct (mDurationSecs m <? 60) eqn:Ed; [done|].
  intros (x & H & H0)%rbind_ok_inv. apply validateActions_ok in H as (H1 & H2 & H3 & H4 & H5 & H6 & H7 & H8 & H9).
  enough (x = m' /\ if PercentMetric (mMetric x) then (0 <= mThreshold x)%Q /\ (mThreshold x <= inject_Z 100)%Q else (0 < mThreshold x)%Q) as [-> Ht].
  { split; [|done]. unfold rule_ok. rewrite H1, H2, H3, H4, Em, Eo. bd. split_and!; eauto; try lia; by rewrite <- H2. }
  destruct (PercentMetric (mMetric x)).
  - destruct (Qlt_bool (mThreshold x) 0 || _) eqn:Et; [done|]. injection H0 as <-. apply orb_false_elim in Et as [Et1 Et2].
    apply Qlt_bool_false in Et1, Et2. done.
  - destruct (Qle_bool (mThreshold x) 0) eqn:Et; [done|]. injection H0 as <-. by apply Qle_bool_false in Et.
Qed.

(** ** The tables stay well formed *)

Definition firing (a : Alert) : Prop := aState a = AlertFiring.

Record mon_ok (db : MonDB) : Prop := {
  ok_ids : NoDup (map aID (alerts db));
  ok_next : forall a, a ∈ alerts db -> (aID a < next_id db)%nat;
  ok_fk : forall a, a ∈ alerts db -> is_Some (monitors db !! aMonitorID a);
  ok_one : forall a b, a ∈ alerts db -> b ∈ alerts db -> firing a -> firing b ->
             aMonitorID a = aMonitorID b -> aContainerName a = aContainerName b -> a = b;
  ok_rules : forall id r, monitors db !! id = Some r -> mID (scanMonitor r) = id /\ rule_ok (scanMonitor r) /\ mr_env r <> Some "" }.

(** A disabled rule has nothing firing. *)
Definition quiet (db : MonDB) : Prop :=
  forall a, a ∈ alerts db -> firing a -> exists r, monitors db !! aMonitorID a = Some r /\ mEnabled (mr_rule r) = true.

(** An update that may close an alert but never opens one or changes what it
    is about. *)
Definition closing (f : Alert -> Alert) : Prop := forall a,
  aID (f a) = aID a /\ aMonitorID (f a) = aMonitorID a /\ aContainerName (f a) = aContainerName a /\ (firing (f a) -> firing a).

Lemma touch_closing v now : closing (touch v now). Proof. done. Qed.
Lemma resolved_closing reason now : closing (resolved reason now). Proof. by intros a. Qed.
Lemma claimed_closing now : closing (claimed now). Proof. done. Qed.
#[local] Hint Resolve touch_closing resolved_closing claimed_closing : daffa.

Lemma ids_unique db a b : mon_ok db -> a ∈ alerts db -> b ∈ alerts db -> aID a = aID b -> a = b.
Proof.
  intros Hok. pose proof (ok_ids _ Hok) as Hnd. induction (alerts db) as [|x l IH]; [by intros ?%elem_of_nil|].
  simpl in Hnd. apply NoDup_cons in Hnd as [Hx Hnd]. intros [->|Ha]%elem_of_cons [->|Hb]%elem_of_cons E; try done.
  - destruct Hx. apply (list_elem_of_fmap_2 aID) in Hb. rewrite <- E in Hb. exact Hb.
  - destruct Hx. apply (list_elem_of_fmap_2 aID) in Ha. rewrite E in Ha. exact Ha.
  - by apply IH.
Qed.

Lemma update_alerts_ok p f db : closing f -> mon_ok db -> mon_ok (update_alerts p f db).
Proof.
  intros Hf Hok.
  assert (forall a, a ∈ alerts (update_alerts p f db) -> exists a0, a0 ∈ alerts db /\ a = (if p a0 then f a0 else a0) /\
    aID a = aID a0 /\ aMonitorID a = aMonitorID a0 /\ aContainerName a = aContainerName a0 /\ (firing a -> firing a0)) as Hinv.
  { intros a (a0 & -> & Ha)%list_elem_of_fmap. exists a0. destruct (Hf a0) as (? & ? & ? & ?). by destruct (p a0). }
  split; simpl.
  - rewrite map_map. erewrite map_ext; [apply (ok_ids _ Hok)|]. intros a. destruct (Hf a) as (? & _). by destruct (p a).
  - intros a (a0 & Ha & _ & -> & _)%Hinv. by apply (ok_next _ Hok).
  - intros a (a0 & Ha & _ & _ & -> & _)%Hinv. by apply (ok_fk _ Hok).
  - intros a b (a0 & Ha & Ea & _ & Em & En & Hfa)%Hinv (b0 & Hb & Eb & _ & Em' & En' & Hfb)%Hinv Fa Fb Hm Hn.
    assert (a0 = b0) as -> by (apply (ok_one _ Hok); eauto; congruence). congruence.
  - apply (ok_rules _ Hok).
Qed.

Lemma RaiseAlert_ok db now mid env target cid stack v db' a :
  RaiseAlert db now mid env target cid stack v = Ok (db', a) -> mon_ok db ->
  (forall b, b ∈ alerts db -> firing b -> aMonitorID b = mid -> aContainerName b <> target) -> mon_ok db'.
Proof.
  unfold RaiseAlert. destruct (monitors db !! mid) as [r|] eqn:E; [|done]. intros [= <- <-] Hok Hfree.
  split; simpl.
  - rewrite map_app. apply NoDup_app. split_and!; [apply (ok_ids _ Hok)| |apply NoDup_singleton].
    intros i (x & -> & Hx)%list_elem_of_fmap Hn%list_elem_of_singleton. apply (ok_next _ Hok) in Hx. simpl in Hn. lia.
  - intros x [Hx| ->%list_elem_of_singleton]%elem_of_app; simpl; [apply (ok_next _ Hok) in Hx|]; lia.
  - intros x [Hx| ->%list_elem_of_singleton]%elem_of_app; simpl; [by apply (ok_fk _ Hok)|eauto].
  - intros x y [Hx| ->%list_elem_of_singleton]%elem_of_app [Hy| ->%list_elem_of_singleton]%elem_of_app Fx Fy Hm Hn; simpl in *.
    + by apply (ok_one _ Hok).
    + by destruct (Hfree x Hx).
    + by destruct (Hfree y Hy).
    + done.
  - apply (ok_rules _ Hok).
Qed.

Lemma FiringAlert_Some db mid target a : FiringAlert db mid target = Some a ->
  a ∈ alerts db /\ firing a /\ aMonitorID a = mid /\ aContainerName a = target.
Proof.
  intros [Hin Hp]%List.find_some. apply list_elem_of_In in Hin. unfold firing_on in Hp. bd. done.
Qed.
Lemma FiringAlert_None db mid target : FiringAlert db mid target = None ->
  forall a, a ∈ alerts db -> firing a -> aMonitorID a = mid -> aContainerName a <> target.
Proof.
  intros H a Ha Hf Hm Hn. apply list_elem_of_In in Ha. pose proof (List.find_none _ _ H a Ha) as Hp. unfold firing_on in Hp.
  by rewrite !bool_decide_eq_true_2 in Hp.
Qed.

(** *** What is written is what is read *)

Context {L : JSONLaws J}.

(** A secret is write-only: what comes back is that there is one. *)
Definition redact (a : MonitorAction) : MonitorAction :=
  mkAction (ac_kind a) (ac_command a) (ac_timeout a) (ac_by a) (ac_limit a) (ac_url a) "" (ac_secret_enc a)
           (negb (bool_decide (ac_secret_enc a = ""))).
Definition read_back (m : Monitor) : Monitor := set_actions m (map redact (mActions m)) (cooldown m).

Lemma decode_encode l : decodeActions (encodeActions l) = map redact l.
Proof using L.
  unfold decodeActions, encodeActions. destruct l as [|a l]; [done|].
  rewrite bool_decide_eq_false_2 by apply marshal_nonempty. rewrite unmarshal_marshal, map_map. done.
Qed.

Lemma scan_row m : scanMonitor (row_of_rule m) = read_back m.
Proof using L.
  unfold scanMonitor, row_of_rule, read_back, set_actions. simpl. rewrite decode_encode. unfold nullEnv. case_bool_decide as He; simpl; [by rewrite He|done].
Qed.

Lemma action_ok_redact a : action_ok a -> action_ok (redact a).
Proof. by destruct a. Qed.

Lemma rule_ok_read_back m : rule_ok m -> rule_ok (read_back m).
Proof.
  intros (H1 & H2 & H3 & H4 & H5 & H6). unfold rule_ok, read_back. simpl.
  do 5 (split; [assumption|]). intros Hne. destruct H6 as (E & Hl & Hc & Ha); [by destruct (mActions m)|]. rewrite length_map.
  assert (minActionCooldownSecs <= cooldown m <= maxActionCooldownSecs) as Hcd.
  { unfold cooldown. destruct (mCooldownSecs m =? 0); unfold DefaultActionCooldown, minActionCooldownSecs, maxActionCooldownSecs in *; lia. }
  split; [done|]. split; [done|]. split; [done|]. rewrite Forall_forall in Ha |- *.
  intros x (a & -> & Hx)%list_elem_of_fmap. by apply action_ok_redact, Ha.
Qed.

Lemma with_id_ok m id c u : rule_ok m -> rule_ok (with_id m id c u).
Proof. done. Qed.

Lemma put_rule_ok db m : mon_ok db -> rule_ok m -> mon_ok (set_monitors db (<[mID m := row_of_rule m]> (monitors db))).
Proof using L.
  intros Hok Hr. split; simpl; [apply (ok_ids _ Hok)|apply (ok_next _ Hok)| |apply (ok_one _ Hok)|].
  - intros a Ha%(ok_fk _ Hok). destruct (decide (aMonitorID a = mID m)) as [->|Hne]; [rewrite lookup_insert_eq; eauto|by rewrite lookup_insert_ne].
  - intros id r. destruct (decide (id = mID m)) as [->|Hne]; [rewrite lookup_insert_eq; intros [= <-]|rewrite lookup_insert_ne by done; apply (ok_rules _ Hok)].
    rewrite scan_row. split; [done|]. split; [by apply rule_ok_read_back|]. simpl. unfold nullEnv. by case_bool_decide; [|intros [= ?]].
Qed.

Lemma CreateMonitor_inv db m newid now db' m' : CreateMonitor db m newid now = Ok (db', m') ->
  exists v, validate m = Ok v /\ m' = with_id v ("mon_" +:+ newid) now now /\ monitors db !! mID m' = None /\ env_fk db m' = true /\
    db' = set_monitors db (<[mID m' := row_of_rule m']> (monitors db)).
Proof.
  unfold CreateMonitor, invalid. destruct (validate m) as [v|e]; simpl; [|done].
  destruct (monitors db !! _) eqn:El; [done|]. destruct (env_fk db _) eqn:Ef; [|done]. intros [= <- <-]. eauto 10.
Qed.

Lemma UpdateMonitor_inv db m now db' : UpdateMonitor db m now = Ok db' ->
  exists v old, validate m = Ok v /\ monitors db !! mID v = Some old /\
    let m' := with_id v (mID v) (mCreatedAt (mr_rule old)) now in env_fk db m' = true /\
    let db1 := set_monitors db (<[mID m' := row_of_rule m']> (monitors db)) in
    db' = if negb (mEnabled m') then resolveAlertsFor db1 (mID m') "the monitor was disabled" now else db1.
Proof.
  unfold UpdateMonitor, invalid. destruct (validate m) as [v|e]; simpl; [|done].
  destruct (monitors db !! mID v) as [old|] eqn:El; [|done]. destruct (env_fk db _) eqn:Ef; [|done].
  intros [= <-]. exists v, old. eauto.
Qed.

Lemma CreateMonitor_ok db m newid now db' m' : mon_ok db -> CreateMonitor db m newid now = Ok (db', m') -> mon_ok db'.
Proof using L.
  intros Hok (v & Hv & -> & _ & _ & ->)%CreateMonitor_inv. apply put_rule_ok; [done|]. by apply with_id_ok, (validate_ok _ _ Hv).
Qed.

Lemma UpdateMonitor_ok db m now db' : mon_ok db -> UpdateMonitor db m now = Ok db' -> mon_ok db'.
Proof using L.
  intros Hok (v & old & Hv & _ & Hrest)%UpdateMonitor_inv. destruct Hrest as (_ & ->).
  assert (rule_ok (with_id v (mID v) (mCreatedAt (mr_rule old)) now)) as Hr by (by apply with_id_ok, (validate_ok _ _ Hv)).
  destruct (negb _); [apply update_alerts_ok; [auto with daffa|]|]; by apply put_rule_ok.
Qed.

Lemma DeleteMonitor_ok db id db' : mon_ok db -> DeleteMonitor db id = Ok db' -> mon_ok db'.
Proof.
  unfold DeleteMonitor. intros Hok. destruct (monitors db !! id) as [r|]; [|done]. intros [= <-].
  split; simpl.
  - apply NoDup_map_filter, (ok_ids _ Hok).
  - intros a [Ha _]%elem_of_filter_b. by apply (ok_next _ Hok).
  - intros a [Ha Hne]%elem_of_filter_b. bd. rewrite lookup_delete_ne by done. by apply (ok_fk _ Hok).
  - intros a b [Ha _]%elem_of_filter_b [Hb _]%elem_of_filter_b. by apply (ok_one _ Hok).
  - intros i r0 [Hne Hi]%lookup_delete_Some. by apply (ok_rules _ Hok).
Qed.

Lemma update_alerts_elem p f db a : closing f -> a ∈ alerts (update_alerts p f db) ->
  exists a0, a0 ∈ alerts db /\ a = (if p a0 then f a0 else a0) /\
    aID a = aID a0 /\ aMonitorID a = aMonitorID a0 /\ aContainerName a = aContainerName a0 /\ (firing a -> firing a0).
Proof.
  intros Hf (a0 & -> & Ha)%list_elem_of_fmap. exists a0. destruct (Hf a0) as (? & ? & ? & ?). by destruct (p a0).
Qed.

Lemma update_alerts_quiet p f db : closing f -> quiet db -> quiet (update_alerts p f db).
Proof. intros Hf Hq a (a0 & Ha & _ & _ & -> & _ & Hfi)%update_alerts_elem Fa; [|done]. apply Hq; auto. Qed.

Lemma resolved_not_firing reason now a : ~ firing (resolved reason now a).
Proof. done. Qed.

Lemma resolveAlertsFor_none db mid reason now a :
  a ∈ alerts (resolveAlertsFor db mid reason now) -> aMonitorID a = mid -> ~ firing a.
Proof.
  intros (a0 & -> & Ha)%list_elem_of_fmap Hm Hf.
  destruct (bool_decide (aMonitorID a0 = mid) && bool_decide (aState a0 = AlertFiring)) eqn:E; [done|].
  rewrite !bool_decide_eq_true_2 in E by done. done.
Qed.

Lemma UpdateMonitor_quiet db m now db' : quiet db -> UpdateMonitor db m now = Ok db' -> quiet db'.
Proof.
  intros Hq (v & old & Hv & Hold & Hrest)%UpdateMonitor_inv. destruct Hrest as (_ & ->).
  set (m' := with_id v (mID v) (mCreatedAt (mr_rule old)) now). set (db1 := set_monitors db _).
  assert (forall a, a ∈ alerts db1 -> firing a -> aMonitorID a <> mID m' -> exists r, monitors db1 !! aMonitorID a = Some r /\ mEnabled (mr_rule r) = true) as Hother.
  { intros a Ha Hf Hne. destruct (Hq a Ha Hf) as (r & Hr & He). exists r. split; [|done]. simpl. by rewrite lookup_insert_ne. }
  destruct (negb (mEnabled m')) eqn:En.
  - intros a Ha Hf. destruct (decide (aMonitorID a = mID m')) as [Hm|Hne]; [by destruct (resolveAlertsFor_none _ _ _ _ _ Ha Hm)|].
    destruct (update_alerts_elem _ _ _ _ (resolved_closing _ _) Ha) as (a0 & Ha0 & _ & _ & Hm & _ & Hfi).
    rewrite Hm in *. apply Hother; auto.
  - intros a Ha Hf. destruct (decide (aMonitorID a = mID m')) as [Hm|Hne]; [|by apply Hother].
    exists (row_of_rule m'). split; [simpl; rewrite Hm; by rewrite lookup_insert_eq|]. simpl. by apply negb_false_iff in En.
Qed.

Lemma CreateMonitor_quiet db m newid now db' m' : mon_ok db -> quiet db -> CreateMonitor db m newid now = Ok (db', m') -> quiet db'.
Proof.
  intros Hok Hq (v & _ & -> & Hn & _ & ->)%CreateMonitor_inv a Ha Hf. destruct (Hq a Ha Hf) as (r & Hr & He). exists r. split; [|done].
  simpl in *. rewrite lookup_insert_ne; [done|]. intros E. rewrite E in Hn. congruence.
Qed.

Lemma DeleteMonitor_quiet db id db' : quiet db -> DeleteMonitor db id = Ok db' -> quiet db'.
Proof.
  unfold DeleteMonitor. intros Hq. destruct (monitors db !! id); [|done]. intros [= <-] a [Ha Hne]%elem_of_filter_b Hf. bd.
  destruct (Hq a Ha Hf) as (r & Hr & He). exists r. simpl. by rewrite lookup_delete_ne.
Qed.

Lemma elem_of_monitor_rows db r : r ∈ monitor_rows db <-> exists id, monitors db !! id = Some r.
Proof.
  unfold monitor_rows. rewrite elem_of_ssort, list_elem_of_fmap. split.
  - intros ([id r'] & -> & H). apply elem_of_map_to_list in H. eauto.
  - intros (id & H). exists (id, r). by rewrite elem_of_map_to_list.
Qed.

(** ** Properties *)

(** A rule that is accepted is a rule that makes sense (a name, a known
    metric and comparison, a window of at least a minute, a threshold in range;
    actions only on a rule pinned to one cluster, each within its bounds, with
    a cooldown between a minute and a day), and it reads back as it was written
    but for the secrets of its actions; no other rule changes. *)
Theorem CreateMonitor_roundtrip (db db' : MonDB) (m m' : Monitor) (newid : string) (now : Z) :
  CreateMonitor db m newid now = Ok (db', m') ->
  rule_ok m' /\ rule_ok (read_back m') /\
  MonitorByID db' (mID m') = Ok (read_back m') /\ MonitorByID db (mID m') = Err ErrNotFound /\
  (forall id, id <> mID m' -> MonitorByID db' id = MonitorByID db id) /\
  alerts db' = alerts db.
Proof using L.
  intros (v & Hv & -> & Hn & _ & ->)%CreateMonitor_inv. apply validate_ok in Hv as (Hr & _). set (m' := with_id v _ _ _) in *.
  assert (rule_ok m') as Hr' by (by apply with_id_ok). unfold MonitorByID. rewrite Hn. simpl. rewrite lookup_insert_eq, scan_row.
  split_and!; [done|by apply rule_ok_read_back|done|done| |done].
  intros id Hne. by rewrite lookup_insert_ne.
Qed.

(** A caller scoped to some clusters sees exactly the rules pinned to one of
    them, and never a fleet-wide one; and no alert of a cluster it holds
    nothing on. *)
Theorem monitor_visibility (db : MonDB) (envs : list string) (limit : Z) (m : Monitor) (a : Alert) :
  mon_ok db ->
  (m ∈ ListMonitors db false envs <-> MonitorByID db (mID m) = Ok m /\ mEnvID m <> "" /\ mEnvID m ∈ envs) /\
  (a ∈ ListAlerts db false envs limit -> a ∈ alerts db /\ aEnvID a ∈ envs) /\
  (length (ListAlerts db false envs limit) <= alert_limit limit)%nat.
Proof.
  intros Hok. split_and!.
  - unfold ListMonitors. simpl. case_bool_decide as He.
    { subst. split; [by intros ?%elem_of_nil|]. by intros (_ & _ & ?%elem_of_nil). }
    rewrite list_elem_of_fmap. split.
    + intros (r & -> & [Hr Hs]%elem_of_filter_b). apply elem_of_monitor_rows in Hr as (id & Hr).
      destruct (ok_rules _ Hok id r Hr) as (Hid & _ & Hne). unfold MonitorByID. rewrite Hid, Hr. split; [done|].
      simpl. destruct (mr_env r) as [e|]; [|done]. bd. split; congruence.
    + unfold MonitorByID. destruct (monitors db !! mID m) as [r|] eqn:Er; [|by intros (? & _)]. intros ([= <-] & Hne & Hin).
      exists r. split; [done|]. apply elem_of_filter_b. split; [apply elem_of_monitor_rows; eauto|].
      simpl in Hne, Hin. destruct (mr_env r) as [e|]; [by apply bool_decide_eq_true_2|done].
  - unfold ListAlerts. simpl. case_bool_decide; [by intros ?%elem_of_nil|]. intros Ha.
    apply elem_of_take in Ha as (i & Ha%list_elem_of_lookup_2 & _). rename Ha into Hs.
    apply elem_of_ssort, elem_of_filter_b in Hs as [Hs1 Hs2]. bd. done.
  - unfold ListAlerts. simpl. case_bool_decide; [simpl; lia|]. rewrite length_take. lia.
Qed.
End Rules.

(** Settings that are accepted are read back as saved, and whatever the
    table holds, a round is at least thirty seconds long and its length in
    nanoseconds does not wrap as long as the interval is below 292 years. *)
Theorem settings_roundtrip (m : MonitorSettings) (row : option MonitorSettings) :
  (forall row', SaveMonitorSettings m = Ok row' -> ReadMonitorSettings row' = m /\ 1 <= ms_retention m <= MaxRetentionDays) /\
  (SaveMonitorSettings m = Err ErrIntervalTooShort -> ms_interval m < MinIntervalSecs) /\
  let r := ReadMonitorSettings row in
  MinIntervalSecs <= ms_interval r /\
  (ms_interval r < 9223372036 -> Interval r = ms_interval r * 1000000000 /\ 30000000000 <= Interval r).
Proof.
  unfold SaveMonitorSettings, MinIntervalSecs, MaxRetentionDays. split_and!.
  - intros row'. destruct (_ || _) eqn:E1; [done|]. destruct (_ <? 30) eqn:E2; [done|]. intros [= <-]. bd. simpl.
    unfold MinIntervalSecs. rewrite (proj2 (Z.ltb_ge _ _)) by lia. destruct m. simpl in *. split; [done|lia].
  - destruct (_ || _); [done|]. destruct (_ <? 30) eqn:E2; [|done]. bd. done.
  - destruct row as [r|]; simpl; unfold MinIntervalSecs; [destruct (_ <? 30) eqn:E|]; bd; simpl; lia.
  - intros Hlt. assert (30 <= ms_interval (ReadMonitorSettings row)) as Hge.
    { destruct row as [r|]; simpl; unfold MinIntervalSecs; [destruct (_ <? 30) eqn:E|]; bd; simpl; lia. }
    unfold Interval. rewrite wrap64_id by lia. lia.
Qed.
