(* ===== verification/MonitorRound.v ===== *)
(** * A monitoring round: the evaluation query, the evaluator, the actions

    Models [Store.Evaluate] of [internal/store/monitors.go],
    [internal/monitor/evaluate.go], [internal/monitor/retention.go] and the
    decisions of [internal/api/monitor_actions.go]. Database calls that can
    fail on their own are inputs ([Faults]); messages are the records [Notice]
    and the goroutines that run actions are left behind as tasks. *)
From S2P Require Import Prelude GoStd Timestamps Metrics Monitors.
From Stdlib Require Import QArith.
Local Open Scope string_scope.
Local Open Scope list_scope.
Local Open Scope daffa_scope.
Local Open Scope Z_scope.


(** ** The query *)

Record Breach := mkBreach {
  b_env : string; b_name : string; b_cid : string; b_stack : string;
  b_samples : Z; b_breaching : Z; b_worst : Q; b_best : Q }.

Definition HasCoverage (b : Breach) (expected : Z) : bool := Z.max 2 (Z.quot expected 2) <=? b_samples b.
Definition Sustained (b : Breach) (expected : Z) : bool := HasCoverage b expected && (b_breaching b =? b_samples b).

(** What a rule watches: the service, or a container that has none. *)
Definition target (r : Sample) : string := if bool_decide (sService r = "") then sContainerName r else sService r.

(** [at.Add(-time.Duration(m.DurationSecs) * time.Second)]. *)
Definition window_ns (m : Monitor) : Z := wrap64 (mDurationSecs m * 1000000000).
Definition window_from (m : Monitor) (at_ : Z) : Z := at_ - window_ns m.

Definition in_scope (m : Monitor) (at_ : Z) (r : Sample) : bool :=
  (Unix (window_from m at_) <? sTS r) && (sTS r <=? Unix at_) && negb (bool_decide (sContainerName r = HostSentinel)) &&
  any_or (mEnvID m) (sEnvID r) && any_or (mStack m) (sStack r) &&
  (bool_decide (mContainer m = "") || bool_decide (target r = mContainer m) || bool_decide (sContainerName r = mContainer m)).

(** The key of a target, and the worst and best of a list of readings. *)
Definition TKey : Type := string * string * string.
Definition key_of (r : Sample) : TKey := (sEnvID r, sStack r, target r).
Definition worst (op : Op) : list Q -> Q := match op with OpGt => sql_max | OpLt => sql_min end.
Definition best (op : Op) : list Q -> Q := match op with OpGt => sql_min | OpLt => sql_max end.

(** MAX over texts. *)
Definition str_max2 (a b : string) : string := if String.ltb a b then b else a.
Definition str_max (l : list string) : string := match l with [] => "" | x :: l => fold_left str_max2 l x end.

(** The inner query: one value per target and second, the worst of its
    replicas. *)
Record Reading := mkReading { rd_key : TKey; rd_ts : Z; rd_cid : string; rd_v : Q }.
Definition readings (col : Sample -> Q) (op : Op) (rows : list Sample) : list Reading :=
  map (fun g => mkReading g.1.1 g.1.2 (str_max (map sContainerID g.2)) (worst op (map col g.2)))
      (group_by (fun r => (key_of r, sTS r)) rows).

(** The outer query: one row per target. *)
Definition breach_of (op : Op) (threshold : Q) (g : TKey * list Reading) : Breach :=
  let '(env, stack, name) := g.1 in
  mkBreach env name (str_max (map rd_cid g.2)) stack (Z.of_nat (length g.2))
           (Z.of_nat (length (List.filter (fun x => breaches op (rd_v x) threshold) g.2)))
           (worst op (map rd_v g.2)) (best op (map rd_v g.2)).

Definition Evaluate (db : MonDB) (m : Monitor) (at_ : Z) : res BadRule (list Breach) :=
  match metricColumns (mMetric m), comparisons (mOp m) with
  | None, _ => Err (ErrUnknownMetric (mMetric m))
  | _, None => Err (ErrBadComparison (mOp m))
  | Some col, Some op =>
      let rows := List.filter (in_scope m at_) (metricsSource (metrics db) (window_from m at_) at_) in
      Ok (map (breach_of op (mThreshold m)) (group_by rd_key (readings col op rows)))
  end.

(** ** The evaluator *)

Inductive Event := MonitorFired | MonitorResolved.
Record Notice := mkNotice { n_env : string; n_event : Event; n_monitor : string; n_targets : list string; n_reason : string }.

(** What a round leaves behind: the tables, the messages sent and the alerts
    whose actions were started. *)
Record Round := mkRound { db : MonDB; sent : list Notice; acting : list nat }.

(** The calls that fail in this round: per monitor the evaluation, per monitor
    and target the look-up of the open alert and the write. *)
Record Faults := mkFaults { f_eval : string -> bool; f_find : string -> string -> bool; f_write : string -> string -> bool }.
Definition no_faults : Faults := mkFaults (fun _ => false) (fun _ _ => false) (fun _ _ => false).

Definition at_best := "back within the threshold".
Definition went_quiet := "the container stopped reporting — it was redeployed, removed, or its host went away".

(** [resolve]: the write, then the message; a write that fails sends none. *)
Definition resolve (fail : bool) (now : Z) (m : Monitor) (a : Alert) (reason : string) (r : Round) : Round :=
  if fail then r
  else mkRound (ResolveAlert (db r) (aID a) reason now)
               (sent r ++ [mkNotice (aEnvID a) MonitorResolved (mName m) [aContainerName a] reason]) (acting r).

(** Newly firing alerts, grouped by host. *)
Abbreviation Fired := (gmap string (list Alert)).

(** One turn of the loop over the breaches. [runner] is whether an
    [ActionRunner] is installed. *)
Definition evaluate_step (fs : Faults) (runner : bool) (now : Z) (m : Monitor) (expected : Z) (st : Round * Fired) (b : Breach) : Round * Fired :=
  let '(r, fired) := st in
  let open := if f_find fs (mID m) (b_name b) then None else FiringAlert (db r) (mID m) (b_name b) in
  if negb (HasCoverage b expected) then (r, fired)
  else
    match open with
    | None =>
        if Sustained b expected then
          match (if f_write fs (mID m) (b_name b) then Err ErrConstraint
                 else RaiseAlert (db r) now (mID m) (b_env b) (b_name b) (b_cid b) (b_stack b) (b_worst b)) with
          | Err _ => (r, fired)
          | Ok (d, a) =>
              (mkRound d (sent r) (if negb (bool_decide (mActions m = [])) && runner then acting r ++ [aID a] else acting r),
               <[b_env b := default [] (fired !! b_env b) ++ [a]]> fired)
          end
        else (r, fired)
    | Some a =>
        if Sustained b expected then
          (mkRound (if f_write fs (mID m) (b_name b) then db r else TouchAlert (db r) (aID a) (b_worst b) now) (sent r) (acting r), fired)
        else (resolve (f_write fs (mID m) (b_name b)) now m a at_best r, fired)
    end.

Definition name_before (a b : Alert) : bool := String.ltb (aContainerName a) (aContainerName b).

(** [notifyFired]: one message per host, its alerts by name. *)
Definition notifyFired (m : Monitor) (env : string) (l : list Alert) : Notice :=
  mkNotice env MonitorFired (mName m) (map aContainerName (ssort name_before l)) "".

(** How many samples a window should hold. *)
Definition expected_samples (m : Monitor) (interval : Z) : Z := Z.quot (window_ns m) interval.

Definition evaluate (fs : Faults) (runner : bool) (now at_ interval : Z) (r : Round) (m : Monitor) : Round :=
  if f_eval fs (mID m) then r
  else match Evaluate (db r) m at_ with
  | Err _ => r
  | Ok bs =>
      let '(r, fired) := fold_left (evaluate_step fs runner now m (expected_samples m interval)) bs (r, ∅) in
      mkRound (db r) (sent r ++ map (fun kv => notifyFired m kv.1 kv.2) (map_to_list fired)) (acting r)
  end.

Section Run.
Context {J : JSON}.

Definition resolve_one (fs : Faults) (now : Z) (r : Round) (a : Alert) : Round :=
  match MonitorByID (db r) (aMonitorID a) with
  | Err _ => r
  | Ok m => resolve (f_write fs (aMonitorID a) (aContainerName a)) now m a went_quiet r
  end.

Definition resolveStale (fs : Faults) (now at_ interval : Z) (r : Round) : Round :=
  fold_left (resolve_one fs now) (StaleAlerts (db r) (at_ - 3 * interval)) r.

(** [Run]: every enabled rule over the round that just landed, then the alerts
    that have gone quiet. *)
Definition Run (fs : Faults) (runner : bool) (now at_ : Z) (d : MonDB) : Round :=
  let interval := Interval (ReadMonitorSettings (settings d)) in
  let r := fold_left (evaluate fs runner now at_ interval) (EnabledMonitors d) (mkRound d [] []) in
  resolveStale fs now at_ interval r.
End Run.

(** ** Retention *)

(** [Sweep]: today's partition and tomorrow's, then what has expired. *)
Definition day_ns : Z := 86400 * 1000000000.
Definition Sweep (d : MonDB) (now : Z) : MonDB :=
  let ms := EnsurePartition (EnsurePartition (metrics d) now) (now + day_ns) in
  set_metrics d (DropPartitionsBefore ms (now - ms_retention (ReadMonitorSettings (settings d)) * day_ns)).1.

(** ** Actions *)

(** What one run of an alert's actions did: nothing because of the cooldown, or
    the actions, each with its outcome. *)
Inductive ActionRun := Skipped | Acted (results : list (string * bool)).

(** [RunActions], the daemon's answers being [run]; every action runs, whatever
    became of the one before. *)
Definition RunActions (d : MonDB) (m : Monitor) (a : Alert) (now since : Z) (run : MonitorAction -> bool) : MonDB * ActionRun :=
  let cooldown := wrap64 (mCooldownSecs m * 1000000000) in
  let recent := match LastActionAt d (mID m) (aContainerName a) with Some last => since - last <? cooldown | None => false end in
  if recent then (d, Skipped)
  else (ClaimAlertActions d (aID a) now, Acted (map (fun act => (ac_kind act, run act)) (mActions m))).

(** [scaleTarget]: a step in 64 bits, held to its limit. *)
Definition scaleTarget (cur by_ limit : Z) : Z :=
  let want := wrap64 (cur + by_) in
  if 0 <? by_ then Z.min want (Z.max limit cur) else Z.max want (Z.min limit cur).

(** ** What the query computes *)

Lemma worst_breaches op thr l : l <> [] -> breaches op (worst op l) thr = true <-> exists x, x ∈ l /\ breaches op x thr = true.
Proof.
  intros Hne. destruct op; simpl.
  - destruct (sql_max_spec l Hne) as [Hin Hub]. split; [eauto|]. intros (x & Hx & Hb). apply Qlt_bool_true in Hb. apply Qlt_bool_true.
    eapply Qlt_le_trans; eauto.
  - destruct (sql_min_spec l Hne) as [Hin Hlb]. split; [eauto|]. intros (x & Hx & Hb). apply Qlt_bool_true in Hb. apply Qlt_bool_true.
    eapply Qle_lt_trans; eauto.
Qed.

Lemma elem_of_readings col op rows x : x ∈ readings col op rows <->
  exists r, r ∈ rows /\ rd_key x = key_of r /\ rd_ts x = sTS r /\
    let g := List.filter (fun y => bool_decide ((key_of y, sTS y) = (key_of r, sTS r))) rows in
    rd_cid x = str_max (map sContainerID g) /\ rd_v x = worst op (map col g).
Proof.
  unfold readings. rewrite list_elem_of_fmap. split.
  - intros ([k g] & -> & (-> & r & Hr & <-)%group_by_elem). exists r. done.
  - intros (r & Hr & H1 & H2 & H3 & H4). eexists. split; [|apply group_by_elem; split; [done|exists r; split; done]].
    destruct x. simpl in *. by subst.
Qed.

Lemma filter_all {A} (p : A -> bool) l : length (List.filter p l) = length l <-> forall x, x ∈ l -> p x = true.
Proof.
  induction l as [|y l IH]; simpl; [split; [by intros _ x ?%elem_of_nil|done]|].
  pose proof (List.filter_length_le p l) as Hle. destruct (p y) eqn:E; simpl.
  - rewrite (inj_iff S), IH. split; [intros H x [->|Hx]%elem_of_cons; auto|intros H x Hx; apply H; by right].
  - split; [lia|]. intros H. rewrite (H y) in E by (by left). done.
Qed.

Lemma readings_keys col op rows : map (fun x => (rd_key x, rd_ts x)) (readings col op rows) = remove_dups (map (fun r => (key_of r, sTS r)) rows).
Proof.
  unfold readings. rewrite map_map, <- group_by_keys. apply map_ext. by intros [[? ?] ?].
Qed.

(** The seconds in which a target has samples. *)
Definition seconds_of (k : TKey) (rows : list Sample) : list Z :=
  remove_dups (map sTS (List.filter (fun r => bool_decide (key_of r = k)) rows)).

Lemma group_seconds col op rows k :
  map rd_ts (List.filter (fun x => bool_decide (rd_key x = k)) (readings col op rows)) ≡ₚ seconds_of k rows.
Proof.
  apply NoDup_Permutation; [|apply NoDup_remove_dups|].
  - set (g := List.filter _ _). apply (NoDup_fmap_1 (fun t => (k, t))).
    assert (map (fun t => (k, t)) (map rd_ts g) = map (fun x => (rd_key x, rd_ts x)) g) as E.
    { rewrite map_map. apply map_ext_in. intros x [_ Hx]%list_elem_of_In%elem_of_filter_b. bd. by subst. }
    change (NoDup (map (fun t => (k, t)) (map rd_ts g))). rewrite E. apply NoDup_map_filter. rewrite readings_keys. apply NoDup_remove_dups.
  - intros t. unfold seconds_of. rewrite elem_of_remove_dups, !list_elem_of_fmap. split.
    + intros (x & -> & [(r & Hr & Hk & Ht & _)%elem_of_readings Hx]%elem_of_filter_b). bd. exists r. split; [done|].
      apply elem_of_filter_b. split; [done|]. apply bool_decide_eq_true_2. congruence.
    + intros (r & -> & [Hr Hk]%elem_of_filter_b). bd.
      eexists (mkReading (key_of r) (sTS r) _ _). split; [done|]. apply elem_of_filter_b. split; [|by apply bool_decide_eq_true_2].
      apply elem_of_readings. exists r. split_and!; try done.
Qed.

Definition bkey (b : Breach) : TKey := (b_env b, b_stack b, b_name b).

Lemma breach_key op thr g : bkey (breach_of op thr g) = g.1.
Proof. by destruct g as [[[e s] n] l]. Qed.

Lemma Evaluate_rows d m at_ bs : parts_ok (metrics d) -> Evaluate d m at_ = Ok bs ->
  exists col op, metricColumns (mMetric m) = Some col /\ comparisons (mOp m) = Some op /\
    bs = map (breach_of op (mThreshold m)) (group_by rd_key (readings col op (List.filter (in_scope m at_) (all_rows (metrics d))))).
Proof.
  intros Hok. unfold Evaluate. destruct (metricColumns _) as [col|]; [|done]. destruct (comparisons _) as [op|]; [|done].
  intros [= <-]. exists col, op. split_and!; [done..|]. rewrite metricsSource_filter; [done|done|].
  intros r Hr. unfold in_scope in Hr. bd. lia.
Qed.

(** C6: the query's reading of "over the line for the whole window": there is
    one row per service and stack of a host that has a sample in the window, it
    counts the seconds it has samples in, and the rule held throughout exactly
    when there are enough of them and in every one of them some replica was
    over the line. *)
Theorem Evaluate_spec (d : MonDB) (m : Monitor) (at_ : Z) (bs : list Breach) (col : Sample -> Q) (op : Op) :
  parts_ok (metrics d) -> Evaluate d m at_ = Ok bs -> metricColumns (mMetric m) = Some col -> comparisons (mOp m) = Some op ->
  let rows := List.filter (in_scope m at_) (all_rows (metrics d)) in
  NoDup (map bkey bs) /\
  (forall k, k ∈ map bkey bs <-> exists r, r ∈ rows /\ key_of r = k) /\
  forall b, b ∈ bs ->
    b_samples b = Z.of_nat (length (seconds_of (bkey b) rows)) /\
    forall expected, Sustained b expected = true <->
      HasCoverage b expected = true /\
      forall t, t ∈ seconds_of (bkey b) rows ->
        exists r, r ∈ rows /\ key_of r = bkey b /\ sTS r = t /\ breaches op (col r) (mThreshold m) = true.
Proof.
  intros Hok He Hcol Hop rows. destruct (Evaluate_rows _ _ _ _ Hok He) as (col' & op' & Hc' & Ho' & ->).
  assert (col' = col) as -> by congruence. assert (op' = op) as -> by congruence. fold rows.
  assert (map bkey (map (breach_of op (mThreshold m)) (group_by rd_key (readings col op rows))) = remove_dups (map rd_key (readings col op rows))) as Hkeys.
  { rewrite map_map, <- group_by_keys. apply map_ext. apply breach_key. }
  split_and!.
  - rewrite Hkeys. apply NoDup_remove_dups.
  - intros k. rewrite Hkeys, elem_of_remove_dups, list_elem_of_fmap. split.
    + intros (x & -> & (r & Hr & -> & _)%elem_of_readings). eauto.
    + intros (r & Hr & <-). eexists (mkReading (key_of r) (sTS r) _ _). split; [done|]. apply elem_of_readings. exists r. split_and!; done.
  - intros b ([k g] & -> & (-> & x0 & Hx0 & Hk0)%group_by_elem)%list_elem_of_fmap. rewrite breach_key. simpl fst.
    set (g := List.filter _ _). pose proof (group_seconds col op rows k) as Hs. fold g in Hs.
    assert (b_samples (breach_of op (mThreshold m) (k, g)) = Z.of_nat (length g)) as Hlen by (by destruct k as [[? ?] ?]).
    assert (b_breaching (breach_of op (mThreshold m) (k, g)) = Z.of_nat (length (List.filter (fun x => breaches op (rd_v x) (mThreshold m)) g))) as Hbr
      by (by destruct k as [[? ?] ?]).
    split; [rewrite Hlen, <- Hs, length_map; done|]. intros expected. unfold Sustained. rewrite andb_true_iff, Hlen, Hbr, Z.eqb_eq, Nat2Z.inj_iff, filter_all.
    apply and_iff_compat_l. setoid_rewrite <- Hs. setoid_rewrite list_elem_of_fmap. split.
    + intros Hall t (x & -> & Hx). pose proof (Hall x Hx) as Hb. unfold g in Hx. apply elem_of_filter_b in Hx as [Hx Hxk]. bd.
      apply elem_of_readings in Hx as (r & Hr & Hk & Ht & _ & Hv). rewrite Hv in Hb. apply worst_breaches in Hb as (v & (r' & -> & Hr')%list_elem_of_fmap & Hb).
      * apply elem_of_filter_b in Hr' as [Hr' Hkk]. bd. apply pair_eq in Hkk as [Hk1 Hk2]. exists r'. split_and!; [done|congruence|congruence|done].
      * intros Hnil%map_eq_nil. assert (r ∈ []) as ?%elem_of_nil; [|done]. rewrite <- Hnil. apply elem_of_filter_b. split; [done|]. by apply bool_decide_eq_true_2.
    + intros Hall x Hx. destruct (Hall (rd_ts x)) as (r' & Hr' & Hk' & Ht' & Hb); [eauto|]. unfold g in Hx. apply elem_of_filter_b in Hx as [Hx Hxk]. bd.
      apply elem_of_readings in Hx as (r & Hr & Hk & Ht & _ & ->).
      assert (r' ∈ List.filter (fun y => bool_decide ((key_of y, sTS y) = (key_of r, sTS r))) rows) as Hin.
      { apply elem_of_filter_b. split; [done|]. apply bool_decide_eq_true_2. congruence. }
      apply worst_breaches; [intros Hnil%map_eq_nil; rewrite Hnil in Hin; by apply elem_of_nil in Hin|].
      exists (col r'). split; [by apply list_elem_of_fmap_2|done].
Qed.

(** ** The open alert of a target, as the state of an abstract machine *)

Section Rounds.
Context {J : JSON}.

Lemma FiringAlert_iff d mid nm a : mon_ok d ->
  FiringAlert d mid nm = Some a <-> a ∈ alerts d /\ firing a /\ aMonitorID a = mid /\ aContainerName a = nm.
Proof.
  intros Hok. split; [apply FiringAlert_Some|]. intros (Ha & Hf & Hm & Hn). destruct (FiringAlert d mid nm) as [b|] eqn:E.
  - apply FiringAlert_Some in E as (Hb & Hfb & Hmb & Hnb). f_equal. apply (ok_one _ Hok); congruence.
  - by destruct (FiringAlert_None _ _ _ E a Ha Hf Hm).
Qed.

Lemma FiringAlert_ext d d' mid nm : mon_ok d -> mon_ok d' ->
  (forall a, firing a -> aMonitorID a = mid -> aContainerName a = nm -> a ∈ alerts d' <-> a ∈ alerts d) ->
  FiringAlert d' mid nm = FiringAlert d mid nm.
Proof.
  intros Hok Hok' Hext. destruct (FiringAlert d mid nm) as [a|] eqn:E.
  - apply FiringAlert_iff in E as (Ha & Hf & Hm & Hn); [|done]. apply FiringAlert_iff; [done|]. rewrite Hext; done.
  - destruct (FiringAlert d' mid nm) as [a|] eqn:E'; [|done]. apply FiringAlert_iff in E' as (Ha & Hf & Hm & Hn); [|done].
    apply Hext in Ha; [|done..]. by destruct (FiringAlert_None _ _ _ E a Ha Hf Hm).
Qed.

(** An update of one open alert leaves every other target's alone. *)
Lemma update_one_elem d a f x : mon_ok d -> a ∈ alerts d -> firing a -> closing f ->
  firing x -> (aMonitorID x <> aMonitorID a \/ aContainerName x <> aContainerName a) ->
  x ∈ alerts (update_alerts (is_firing (aID a)) f d) <-> x ∈ alerts d.
Proof.
  intros Hok Ha Hfa Hf Hfx Hne.
  assert (forall x0, x0 ∈ alerts d -> is_firing (aID a) x0 = true -> x0 = a) as Hsame.
  { intros x0 Hx0 Hi. unfold is_firing in Hi. bd. by apply (ids_unique d). }
  split.
  - intros (x0 & -> & Hx0)%list_elem_of_fmap. destruct (is_firing (aID a) x0) eqn:E; [|done].
    assert (x0 = a) as -> by auto. destruct (Hf a) as (_ & Hm & Hn & _). rewrite Hm, Hn in Hne. tauto.
  - intros Hx. apply list_elem_of_fmap. exists x. split; [|done]. destruct (is_firing (aID a) x) eqn:E; [|done].
    assert (x = a) as -> by auto. tauto.
Qed.

Lemma FiringAlert_update d a f mid nm : mon_ok d -> a ∈ alerts d -> firing a -> closing f ->
  FiringAlert (update_alerts (is_firing (aID a)) f d) mid nm =
  if bool_decide (mid = aMonitorID a) && bool_decide (nm = aContainerName a)
  then if bool_decide (aState (f a) = AlertFiring) then Some (f a) else None
  else FiringAlert d mid nm.
Proof.
  intros Hok Ha Hfa Hf. pose proof (update_alerts_ok (is_firing (aID a)) f d Hf Hok) as Hok'.
  destruct (bool_decide (mid = aMonitorID a) && bool_decide (nm = aContainerName a)) eqn:E.
  - bd. subst. destruct (Hf a) as (Hi & Hm & Hn & _).
    assert (f a ∈ alerts (update_alerts (is_firing (aID a)) f d)) as Hin.
    { apply list_elem_of_fmap. exists a. split; [|done]. unfold is_firing. by rewrite !bool_decide_eq_true_2. }
    case_bool_decide as Hs.
    + apply FiringAlert_iff; [done|]. done.
    + destruct (FiringAlert _ _ _) as [b|] eqn:Eb; [|done]. apply FiringAlert_iff in Eb as (Hb & Hfb & Hmb & Hnb); [|done].
      apply list_elem_of_fmap in Hb as (b0 & -> & Hb0). destruct (is_firing (aID a) b0) eqn:Ei.
      * unfold is_firing in Ei. bd. rewrite (ids_unique d b0 a) in Hfb by done. done.
      * exfalso. assert (b0 = a) as -> by (apply (ok_one _ Hok); done). unfold is_firing in Ei. by rewrite !bool_decide_eq_true_2 in Ei.
  - apply FiringAlert_ext; [done..|]. intros x Hfx Hm Hn. apply update_one_elem; try done. subst.
    apply andb_false_iff in E as [E|E]; bd; [left|right]; congruence.
Qed.

Lemma RaiseAlert_FiringAlert d now mid env nm cid stack v d' a mid' nm' :
  mon_ok d -> FiringAlert d mid nm = None -> RaiseAlert d now mid env nm cid stack v = Ok (d', a) ->
  FiringAlert d' mid' nm' = if bool_decide (mid' = mid) && bool_decide (nm' = nm) then Some a else FiringAlert d mid' nm'.
Proof.
  intros Hok Hn Hr. assert (mon_ok d') as Hok' by (eapply RaiseAlert_ok; [exact Hr|done|by apply FiringAlert_None]).
  unfold RaiseAlert in Hr. destruct (monitors d !! mid); [|done]. injection Hr as <- <-.
  destruct (bool_decide (mid' = mid) && bool_decide (nm' = nm)) eqn:E.
  - bd. subst. apply FiringAlert_iff; [done|]. split_and!; try done. simpl. apply elem_of_app. right. by apply list_elem_of_singleton.
  - apply FiringAlert_ext; [done..|]. intros x Hf Hm Hnm. simpl. rewrite elem_of_app, list_elem_of_singleton. split; [|tauto].
    intros [?| ->]; [done|]. simpl in *. subst. by rewrite !bool_decide_eq_true_2 in E.
Qed.

(** *** The specification: one target, one verdict per round *)

Inductive Verdict := NoData | Bad | Good.
Definition verdict_of (b : Breach) (expected : Z) : Verdict :=
  if negb (HasCoverage b expected) then NoData else if Sustained b expected then Bad else Good.

Definition fresh_alert (id : nat) (now : Z) (m : Monitor) (b : Breach) : Alert :=
  mkAlert id (mID m) (b_env b) (b_name b) (b_cid b) (b_stack b) AlertFiring (b_worst b) now now None "" None.

(** What an alert does when its target is judged: it opens on the first bad
    verdict, follows the value while the verdicts stay bad, closes on a good
    one, and stays as it is when nothing can be said. *)
Inductive alert_step (now : Z) (m : Monitor) (b : Breach) : Verdict -> option Alert -> option Alert -> Prop :=
| step_silent o : alert_step now m b NoData o o
| step_raise id : alert_step now m b Bad None (Some (fresh_alert id now m b))
| step_hold a : alert_step now m b Bad (Some a) (Some (touch (b_worst b) now a))
| step_recover a : alert_step now m b Good (Some a) None
| step_fine : alert_step now m b Good None None.

(** The rows of the query that name a target, in the order the loop meets them: the
    services of this name of two stacks, or of two hosts, share one alert. *)
Definition rows_of (nm : string) (bs : list Breach) : list Breach := List.filter (fun b => bool_decide (b_name b = nm)) bs.
(** The machine run over them. *)
Inductive alert_run (now : Z) (m : Monitor) (expected : Z) : list Breach -> option Alert -> option Alert -> Prop :=
| run_done o : alert_run now m expected [] o o
| run_step b bs o1 o2 o3 : alert_step now m b (verdict_of b expected) o1 o2 -> alert_run now m expected bs o2 o3 -> alert_run now m expected (b :: bs) o1 o3.

Definition known (d : MonDB) (m : Monitor) : Prop := exists r, monitors d !! mID m = Some r /\ mEnabled (mr_rule r) = true.

(** Everything one step of the loop does, when no call fails. *)
Lemma evaluate_step_spec fs runner now m expected r fired b r' fired' :
  (forall x y, f_find fs x y = false) -> (forall x y, f_write fs x y = false) ->
  mon_ok (db r) -> known (db r) m ->
  evaluate_step fs runner now m expected (r, fired) b = (r', fired') ->
  mon_ok (db r') /\ (quiet (db r) -> quiet (db r')) /\ monitors (db r') = monitors (db r) /\ metrics (db r') = metrics (db r) /\
  environments (db r') = environments (db r) /\ settings (db r') = settings (db r) /\
  alert_step now m b (verdict_of b expected) (FiringAlert (db r) (mID m) (b_name b)) (FiringAlert (db r') (mID m) (b_name b)) /\
  (forall mid nm, mid <> mID m \/ nm <> b_name b -> FiringAlert (db r') mid nm = FiringAlert (db r) mid nm) /\
  (forall a, firing a -> aMonitorID a <> mID m \/ aContainerName a <> b_name b \/ HasCoverage b expected = false ->
     a ∈ alerts (db r') <-> a ∈ alerts (db r)) /\
  (exists ns, sent r' = sent r ++ ns /\ forall n, n ∈ ns -> n_event n = MonitorResolved).
Proof.
  intros Hff Hfw Hok (row & Hrow & Hen). unfold evaluate_step. rewrite Hff, Hfw.
  assert (exists ns, sent r = sent r ++ ns /\ forall n : Notice, n ∈ ns -> n_event n = MonitorResolved) as Hnil
    by (exists []; split; [by rewrite app_nil_r|by intros n ?%elem_of_nil]).
  unfold verdict_of. destruct (HasCoverage b expected) eqn:Hc; simpl.
  2: { intros [= <- <-]. split_and!; try done. constructor. }
  destruct (FiringAlert (db r) (mID m) (b_name b)) as [a|] eqn:Ea; destruct (Sustained b expected) eqn:Es.
  - intros [= <- <-]. simpl. apply FiringAlert_Some in Ea as (Ha & Hf & Hm & Hn).
    pose proof (update_alerts_ok (is_firing (aID a)) _ _ (touch_closing (b_worst b) now) Hok) as Hok'.
    split_and!; try done.
    + apply update_alerts_quiet. apply touch_closing.
    + unfold TouchAlert. rewrite FiringAlert_update by (done || apply touch_closing).
      rewrite Hm, Hn, !bool_decide_eq_true_2 by done. simpl. constructor.
    + intros mid nm Hne. unfold TouchAlert. rewrite FiringAlert_update by (done || apply touch_closing). rewrite Hm, Hn.
      case_bool_decide; case_bool_decide; simpl; try done. subst. by destruct Hne.
    + intros x Hfx Hne. apply update_one_elem; try (done || apply touch_closing). rewrite Hm, Hn. destruct Hne as [?|[?|?]]; auto; congruence.
  - intros [= <- <-]. simpl. apply FiringAlert_Some in Ea as (Ha & Hf & Hm & Hn).
    pose proof (update_alerts_ok (is_firing (aID a)) _ _ (resolved_closing at_best now) Hok) as Hok'.
    split_and!; try done.
    + apply update_alerts_quiet. apply resolved_closing.
    + unfold ResolveAlert. rewrite FiringAlert_update by (done || apply resolved_closing).
      rewrite Hm, Hn, !bool_decide_eq_true_2 by done. simpl. constructor.
    + intros mid nm Hne. unfold ResolveAlert. rewrite FiringAlert_update by (done || apply resolved_closing). rewrite Hm, Hn.
      case_bool_decide; case_bool_decide; simpl; try done. subst. by destruct Hne.
    + intros x Hfx Hne. apply update_one_elem; try (done || apply resolved_closing). rewrite Hm, Hn. destruct Hne as [?|[?|?]]; auto; congruence.
    + eexists. split; [done|]. by intros n ->%list_elem_of_singleton.
  - pose proof (fun d' a => RaiseAlert_FiringAlert (db r) now (mID m) (b_env b) (b_name b) (b_cid b) (b_stack b) (b_worst b) d' a) as HFA.
    pose proof (RaiseAlert_ok (db r) now (mID m) (b_env b) (b_name b) (b_cid b) (b_stack b) (b_worst b)) as HOK.
    unfold RaiseAlert in *. rewrite Hrow in *. intros [= <- <-]. simpl. specialize (HFA _ _ (mID m) (b_name b) Hok Ea eq_refl) as Hself.
    rewrite !bool_decide_eq_true_2 in Hself by done. simpl in Hself.
    split_and!; try done.
    + eapply HOK; [done|done|by apply FiringAlert_None].
    + intros Hq x [Hx| ->%list_elem_of_singleton]%elem_of_app Hf; [by apply Hq|]. eauto.
    + rewrite Hself. constructor.
    + intros mid nm Hne. rewrite (HFA _ _ mid nm Hok Ea eq_refl). case_bool_decide; case_bool_decide; simpl; try done. subst. by destruct Hne.
    + intros x Hfx Hne. rewrite elem_of_app, list_elem_of_singleton. split; [|tauto]. intros [?| ->]; [done|]. simpl in Hne.
      destruct Hne as [?|[?|?]]; congruence.
  - intros [= <- <-]. split_and!; try done. rewrite Ea. constructor.
Qed.

Definition listed (fired : Fired) (env : string) (a : Alert) : Prop := a ∈ default [] (fired !! env).

Definition recovered (m : Monitor) (a : Alert) (reason : string) : Notice :=
  mkNotice (aEnvID a) MonitorResolved (mName m) [aContainerName a] reason.

(** What one step announces: an alert is put on its host's list, and its
    actions started, exactly when it opens; a recovery is sent when it closes. *)
Lemma evaluate_step_notes fs runner now m expected r fired b r' fired' :
  (forall x y, f_find fs x y = false) -> (forall x y, f_write fs x y = false) ->
  mon_ok (db r) -> known (db r) m ->
  evaluate_step fs runner now m expected (r, fired) b = (r', fired') ->
  let before := FiringAlert (db r) (mID m) (b_name b) in
  let after := FiringAlert (db r') (mID m) (b_name b) in
  (forall env a, listed fired' env a <-> listed fired env a \/ (env = b_env b /\ before = None /\ after = Some a)) /\
  (forall i, i ∈ acting r' <-> i ∈ acting r \/ (mActions m <> [] /\ runner = true /\ before = None /\ exists a, after = Some a /\ aID a = i)) /\
  (forall n, n ∈ sent r' <-> n ∈ sent r \/ exists a, before = Some a /\ after = None /\ n = recovered m a at_best).
Proof.
  intros Hff Hfw Hok Hkn He. cbv zeta.
  destruct (evaluate_step_spec _ _ _ _ _ _ _ _ _ _ Hff Hfw Hok Hkn He) as (_ & _ & _ & _ & _ & _ & Hstep & _).
  destruct Hkn as (row & Hrow & Hen). unfold evaluate_step in He. rewrite Hff, Hfw in He. unfold verdict_of in Hstep.
  destruct (HasCoverage b expected) eqn:Hc; simpl in He, Hstep.
  2: { injection He as <- <-. destruct (FiringAlert (db r) _ _) as [a|]; split_and!; naive_solver. }
  destruct (FiringAlert (db r) (mID m) (b_name b)) as [a|] eqn:Ea; destruct (Sustained b expected) eqn:Es.
  - assert (FiringAlert (db r') (mID m) (b_name b) <> None) as Hsome by (inversion Hstep; congruence).
    injection He as <- <-. simpl in *. split_and!; intros; naive_solver.
  - assert (FiringAlert (db r') (mID m) (b_name b) = None) as Hnone by (inversion Hstep; congruence).
    injection He as <- <-. rewrite Hnone. split_and!; [naive_solver..|]. intros n. simpl. rewrite elem_of_app, list_elem_of_singleton. naive_solver.
  - pose proof (fun d' a => RaiseAlert_FiringAlert (db r) now (mID m) (b_env b) (b_name b) (b_cid b) (b_stack b) (b_worst b) d' a) as HFA.
    unfold RaiseAlert in *. rewrite Hrow in *. injection He as <- <-. specialize (HFA _ _ (mID m) (b_name b) Hok Ea eq_refl).
    rewrite !bool_decide_eq_true_2 in HFA by done. simpl in HFA |- *. rewrite HFA.
    split_and!.
    + intros env x. unfold listed. destruct (decide (env = b_env b)) as [->|Hne].
      * rewrite lookup_insert_eq. simpl. rewrite elem_of_app, list_elem_of_singleton. naive_solver.
      * rewrite lookup_insert_ne by done. naive_solver.
    + intros i0. case_bool_decide as Hact; simpl; [naive_solver|]. destruct runner; simpl; [|naive_solver].
      rewrite elem_of_app, list_elem_of_singleton. naive_solver.
    + naive_solver.
  - injection He as <- <-. rewrite Ea. split_and!; naive_solver.
Qed.

(** The part of the tables a round never writes. *)
Definition same_rules (d d' : MonDB) : Prop :=
  monitors d' = monitors d /\ metrics d' = metrics d /\ environments d' = environments d /\ settings d' = settings d.

Lemma same_rules_refl d : same_rules d d. Proof. done. Qed.
Lemma same_rules_trans d1 d2 d3 : same_rules d1 d2 -> same_rules d2 d3 -> same_rules d1 d3.
Proof. intros (? & ? & ? & ?) (? & ? & ? & ?). repeat split; congruence. Qed.
Lemma same_rules_known d d' m : same_rules d d' -> known d m -> known d' m.
Proof. intros (E & _) (row & Hr & He). exists row. by rewrite E. Qed.

Definition about (m : Monitor) (bs : list Breach) (mid nm : string) : Prop := mid = mID m /\ nm ∈ map b_name bs.

(** The loop over the breaches: what it preserves, and what it does to each
    target when no two breaches name the same one. *)
Lemma evaluate_fold fs runner now m expected bs : forall r fired r' fired',
  (forall x y, f_find fs x y = false) -> (forall x y, f_write fs x y = false) ->
  mon_ok (db r) -> known (db r) m ->
  fold_left (evaluate_step fs runner now m expected) bs (r, fired) = (r', fired') ->
  mon_ok (db r') /\ (quiet (db r) -> quiet (db r')) /\ same_rules (db r) (db r') /\
  (forall mid nm, ~ about m bs mid nm -> FiringAlert (db r') mid nm = FiringAlert (db r) mid nm) /\
  (forall a, firing a -> aMonitorID a <> mID m \/ (forall b, b ∈ bs -> b_name b = aContainerName a -> HasCoverage b expected = false) ->
     a ∈ alerts (db r') <-> a ∈ alerts (db r)) /\
  (NoDup (map b_name bs) -> forall b, b ∈ bs ->
     alert_step now m b (verdict_of b expected) (FiringAlert (db r) (mID m) (b_name b)) (FiringAlert (db r') (mID m) (b_name b))).
Proof.
  induction bs as [|b bs IH]; intros r fired r' fired' Hff Hfw Hok Hkn He; cbn [fold_left] in He.
  - injection He as <- <-. split_and!; try done. by intros _ b ?%elem_of_nil.
  - destruct (evaluate_step fs runner now m expected (r, fired) b) as [r1 fired1] eqn:E1.
    destruct (evaluate_step_spec _ _ _ _ _ _ _ _ _ _ Hff Hfw Hok Hkn E1) as (Hok1 & Hq1 & Hm1 & Hme1 & Hen1 & Hse1 & Hst1 & Hfr1 & Hin1 & _).
    assert (same_rules (db r) (db r1)) as Hsr1 by done.
    destruct (IH r1 fired1 r' fired' Hff Hfw Hok1 (same_rules_known _ _ _ Hsr1 Hkn) He) as (Hok2 & Hq2 & Hsr2 & Hfr2 & Hin2 & Hst2).
    refine (conj Hok2 (conj _ (conj (same_rules_trans _ _ _ Hsr1 Hsr2) (conj _ (conj _ _))))).
    + auto.
    + intros mid nm Hab. rewrite Hfr2, Hfr1; [done| |].
      * destruct (decide (mid = mID m)) as [->|]; [right|by left]. intros ->. apply Hab. split; [done|]. by left.
      * intros [Hm Hn]. apply Hab. split; [done|]. by right.
    + intros a Hf Hor. rewrite Hin2, Hin1; [done|done| |done|].
      * destruct Hor as [?|Hno]; [by left|]. destruct (decide (aContainerName a = b_name b)) as [En|]; [right; right; apply Hno; [by left|done]|by right; left].
      * destruct Hor as [?|Hno]; [by left|]. right. intros b' Hb'. apply Hno. by right.
    + simpl. intros [Hni Hnd]%NoDup_cons b' [->|Hb']%elem_of_cons.
      * rewrite Hfr2; [done|]. by intros [_ ?].
      * specialize (Hst2 Hnd b' Hb'). rewrite Hfr1 in Hst2; [done|]. right. intros E. apply Hni. rewrite <- E. by apply list_elem_of_fmap_2.
Qed.

(** Whatever the rows, each target goes through the machine once for each of its
    own. *)
Lemma evaluate_fold_runs fs runner now m expected bs : forall r fired r' fired',
  (forall x y, f_find fs x y = false) -> (forall x y, f_write fs x y = false) ->
  mon_ok (db r) -> known (db r) m ->
  fold_left (evaluate_step fs runner now m expected) bs (r, fired) = (r', fired') ->
  forall nm, alert_run now m expected (rows_of nm bs) (FiringAlert (db r) (mID m) nm) (FiringAlert (db r') (mID m) nm).
Proof.
  induction bs as [|b bs IH]; intros r fired r' fired' Hff Hfw Hok Hkn He nm; cbn [fold_left] in He.
  - injection He as <- <-. constructor.
  - destruct (evaluate_step fs runner now m expected (r, fired) b) as [r1 fired1] eqn:E1.
    destruct (evaluate_step_spec _ _ _ _ _ _ _ _ _ _ Hff Hfw Hok Hkn E1) as (Hok1 & _ & Hm1 & Hme1 & Hen1 & Hse1 & Hst1 & Hfr1 & _).
    assert (known (db r1) m) as Hkn1 by (eapply same_rules_known; [split_and!|]; eauto).
    specialize (IH r1 fired1 r' fired' Hff Hfw Hok1 Hkn1 He nm). unfold rows_of. simpl. fold (rows_of nm bs). case_bool_decide as Hn.
    + subst nm. econstructor; [exact Hst1|exact IH].
    + rewrite Hfr1 in IH; [done|]. right. congruence.
Qed.

Lemma evaluate_fold_notes fs runner now m expected bs : forall r fired r' fired',
  (forall x y, f_find fs x y = false) -> (forall x y, f_write fs x y = false) ->
  mon_ok (db r) -> known (db r) m -> NoDup (map b_name bs) ->
  fold_left (evaluate_step fs runner now m expected) bs (r, fired) = (r', fired') ->
  let opens b a := FiringAlert (db r) (mID m) (b_name b) = None /\ FiringAlert (db r') (mID m) (b_name b) = Some a in
  (forall env a, listed fired' env a <-> listed fired env a \/ exists b, b ∈ bs /\ env = b_env b /\ opens b a) /\
  (forall i, i ∈ acting r' <-> i ∈ acting r \/ (mActions m <> [] /\ runner = true /\ exists b a, b ∈ bs /\ opens b a /\ aID a = i)) /\
  (forall n, n ∈ sent r' <-> n ∈ sent r \/ exists b a, b ∈ bs /\ FiringAlert (db r) (mID m) (b_name b) = Some a /\
     FiringAlert (db r') (mID m) (b_name b) = None /\ n = recovered m a at_best).
Proof.
  induction bs as [|b bs IH]; intros r fired r' fired' Hff Hfw Hok Hkn Hnd He; cbn [fold_left] in He; cbv zeta.
  - injection He as <- <-. split_and!; intros; (split; [by left|]); intros [?|Hx]; try done.
    + by destruct Hx as (? & ?%elem_of_nil & _).
    + by destruct Hx as (_ & _ & ? & ? & ?%elem_of_nil & _).
    + by destruct Hx as (? & ? & ?%elem_of_nil & _).
  - destruct (evaluate_step fs runner now m expected (r, fired) b) as [r1 fired1] eqn:E1.
    destruct (evaluate_step_spec _ _ _ _ _ _ _ _ _ _ Hff Hfw Hok Hkn E1) as (Hok1 & _ & Hm1 & Hme1 & Hen1 & Hse1 & _ & Hfr1 & _).
    destruct (evaluate_step_notes _ _ _ _ _ _ _ _ _ _ Hff Hfw Hok Hkn E1) as (Hl1 & Ha1 & Hs1).
    assert (known (db r1) m) as Hkn1 by (eapply same_rules_known; [split_and!|]; eauto).
    apply NoDup_cons in Hnd as [Hni Hnd].
    destruct (evaluate_fold _ _ _ _ _ _ _ _ _ _ Hff Hfw Hok1 Hkn1 He) as (_ & _ & _ & Hfr2 & _).
    destruct (IH r1 fired1 r' fired' Hff Hfw Hok1 Hkn1 Hnd He) as (Hl2 & Ha2 & Hs2).
    assert (FiringAlert (db r1) (mID m) (b_name b) = FiringAlert (db r') (mID m) (b_name b)) as Eb by (rewrite Hfr2; [done|by intros [_ ?]]).
    assert (forall b', b' ∈ bs -> FiringAlert (db r1) (mID m) (b_name b') = FiringAlert (db r) (mID m) (b_name b')) as Eb'.
    { intros b' Hb'. apply Hfr1. right. intros E. apply Hni. rewrite <- E. by apply list_elem_of_fmap_2. }
    rewrite Eb in *. setoid_rewrite elem_of_cons. split_and!.
    + intros env a. rewrite Hl2, Hl1. split.
      * intros [[?|(? & ? & ?)]|(b' & Hb' & He' & Ho)]; [by left|right; exists b; naive_solver|]. rewrite Eb' in Ho by done. right. exists b'. naive_solver.
      * intros [?|(b' & [->|Hb'] & He' & Ho)]; [naive_solver|naive_solver|]. right. exists b'. rewrite Eb' by done. done.
    + intros i. rewrite Ha2, Ha1. split.
      * intros [[?|(? & ? & ? & a & ? & ?)]|(? & ? & b' & a & Hb' & Ho & ?)]; [by left|right; split_and!; [done..|]; exists b, a; naive_solver|].
        rewrite Eb' in Ho by done. right. split_and!; [done..|]. exists b', a. naive_solver.
      * intros [?|(? & ? & b' & a & [->|Hb'] & Ho & ?)]; [naive_solver|left; right; split_and!; naive_solver|].
        right. split_and!; [done..|]. exists b', a. rewrite Eb' by done. done.
    + intros n. rewrite Hs2, Hs1. split.
      * intros [[?|(a & ? & ? & ?)]|(b' & a & Hb' & Ho & ? & ?)]; [by left|right; exists b, a; naive_solver|]. rewrite Eb' in Ho by done. right. exists b', a. naive_solver.
      * intros [?|(b' & a & [->|Hb'] & ? & ? & ?)]; [naive_solver|naive_solver|]. right. exists b', a. rewrite Eb' by done. done.
Qed.

(** ** A whole round keeps the tables well formed *)

Lemma evaluate_step_write_fault fs runner now m expected r fired b :
  f_write fs (mID m) (b_name b) = true -> db (evaluate_step fs runner now m expected (r, fired) b).1 = db r.
Proof. intros Hw. unfold evaluate_step. rewrite Hw. repeat case_match; simplify_eq; done. Qed.

Lemma evaluate_step_no_fault fs runner now m expected st b :
  f_find fs (mID m) (b_name b) = false -> f_write fs (mID m) (b_name b) = false ->
  evaluate_step fs runner now m expected st b = evaluate_step no_faults runner now m expected st b.
Proof. intros Hf Hw. unfold evaluate_step, no_faults. simpl. by rewrite Hf, Hw. Qed.

Definition sound_reads (fs : Faults) : Prop := forall x y, f_find fs x y = false.

Definition keeps (d d' : MonDB) : Prop := mon_ok d' /\ (quiet d -> quiet d') /\ same_rules d d'.
Lemma keeps_refl d : mon_ok d -> keeps d d. Proof. by split. Qed.
Lemma keeps_trans d1 d2 d3 : keeps d1 d2 -> keeps d2 d3 -> keeps d1 d3.
Proof. intros (? & ? & ?) (? & ? & ?). split; [done|]. split; [auto|]. by eapply same_rules_trans. Qed.

Lemma evaluate_step_keeps fs runner now m expected r fired b : sound_reads fs -> mon_ok (db r) -> known (db r) m ->
  keeps (db r) (db (evaluate_step fs runner now m expected (r, fired) b).1).
Proof.
  intros Hf Hok Hkn. destruct (f_write fs (mID m) (b_name b)) eqn:Ew.
  - rewrite evaluate_step_write_fault by done. by apply keeps_refl.
  - rewrite evaluate_step_no_fault by auto. destruct (evaluate_step no_faults _ _ _ _ _ _) as [r1 f1] eqn:E.
    destruct (evaluate_step_spec no_faults _ _ _ _ _ _ _ _ _ (fun _ _ => eq_refl) (fun _ _ => eq_refl) Hok Hkn E) as (H1 & H2 & H3 & H4 & H5 & H6 & _).
    split; [done|]. by split.
Qed.

Lemma evaluate_fold_keeps fs runner now m expected bs : sound_reads fs -> forall st, mon_ok (db st.1) -> known (db st.1) m ->
  keeps (db st.1) (db (fold_left (evaluate_step fs runner now m expected) bs st).1).
Proof.
  intros Hf. induction bs as [|b bs IH]; intros [r fired] Hok Hkn; cbn [fold_left]; [by apply keeps_refl|].
  pose proof (evaluate_step_keeps fs runner now m expected r fired b Hf Hok Hkn) as Hk. destruct Hk as (Hok1 & Hq1 & Hsr1).
  eapply keeps_trans; [by split_and!|]. apply IH; [done|]. by eapply same_rules_known.
Qed.

Lemma evaluate_db fs runner now at_ interval r m : db (evaluate fs runner now at_ interval r m) =
  if f_eval fs (mID m) then db r else
  match Evaluate (db r) m at_ with
  | Err _ => db r
  | Ok bs => db (fold_left (evaluate_step fs runner now m (expected_samples m interval)) bs (r, ∅)).1
  end.
Proof.
  unfold evaluate. destruct (f_eval fs (mID m)); [done|]. destruct (Evaluate (db r) m at_); [|done]. by destruct (fold_left _ _ _) as [r1 f1].
Qed.

Lemma evaluate_keeps fs runner now at_ interval r m : sound_reads fs -> mon_ok (db r) -> known (db r) m ->
  keeps (db r) (db (evaluate fs runner now at_ interval r m)).
Proof.
  intros Hf Hok Hkn. rewrite evaluate_db. destruct (f_eval _ _); [by apply keeps_refl|]. destruct (Evaluate _ _ _); [|by apply keeps_refl].
  by apply (evaluate_fold_keeps _ _ _ _ _ _ Hf (r, ∅)).
Qed.

Lemma evaluate_all_keeps fs runner now at_ interval ms : sound_reads fs -> forall r, mon_ok (db r) -> (forall m, m ∈ ms -> known (db r) m) ->
  keeps (db r) (db (fold_left (evaluate fs runner now at_ interval) ms r)).
Proof.
  intros Hf. induction ms as [|m ms IH]; intros r Hok Hkn; cbn [fold_left]; [by apply keeps_refl|].
  destruct (evaluate_keeps fs runner now at_ interval r m Hf Hok (Hkn m ltac:(by left))) as (Hok1 & Hq1 & Hsr1).
  eapply keeps_trans; [by split_and!|]. apply IH; [done|]. intros m' Hm'. eapply same_rules_known; [done|]. apply Hkn. by right.
Qed.

Lemma EnabledMonitors_known d m : mon_ok d -> m ∈ EnabledMonitors d -> known d m.
Proof.
  intros Hok (r & -> & [Hr He]%elem_of_filter_b)%list_elem_of_fmap. apply elem_of_monitor_rows in Hr as (id & Hr).
  exists r. destruct (ok_rules _ Hok id r Hr) as (-> & _). done.
Qed.

Lemma resolve_one_keeps fs now r a : mon_ok (db r) -> keeps (db r) (db (resolve_one fs now r a)).
Proof.
  intros Hok. unfold resolve_one. destruct (MonitorByID _ _) as [m|]; [|by apply keeps_refl]. unfold resolve.
  destruct (f_write _ _ _); simpl; [by apply keeps_refl|].
  split; [apply update_alerts_ok; [apply resolved_closing|done]|]. split; [apply update_alerts_quiet, resolved_closing|done].
Qed.

Lemma resolve_all_keeps fs now l : forall r, mon_ok (db r) -> keeps (db r) (db (fold_left (resolve_one fs now) l r)).
Proof.
  induction l as [|a l IH]; intros r Hok; cbn [fold_left]; [by apply keeps_refl|].
  pose proof (resolve_one_keeps fs now r a Hok) as Hk. eapply keeps_trans; [exact Hk|]. apply IH. apply Hk.
Qed.

Lemma Run_keeps fs runner now at_ d : sound_reads fs -> mon_ok d -> keeps d (db (Run fs runner now at_ d)).
Proof.
  intros Hf Hok. unfold Run, resolveStale. set (i := Interval _).
  pose proof (evaluate_all_keeps fs runner now at_ i (EnabledMonitors d) Hf (mkRound d [] []) Hok
    (fun m Hm => EnabledMonitors_known d m Hok Hm)) as Hk.
  eapply keeps_trans; [exact Hk|]. apply resolve_all_keeps. apply Hk.
Qed.

(** What happens to the tables over time; a call that fails changes nothing. *)
Inductive mop :=
| MCreate (m : Monitor) (newid : string) (now : Z) | MUpdate (m : Monitor) (now : Z) | MDelete (id : string)
| MSamples (l : list Sample) | MRound (fs : Faults) (runner : bool) (now at_ : Z) | MSweep (now : Z)
| MActions (m : Monitor) (a : Alert) (now since : Z) (run : MonitorAction -> bool).

Definition exec_mop (d : MonDB) (o : mop) : MonDB :=
  match o with
  | MCreate m newid now => match CreateMonitor d m newid now with Ok (d', _) => d' | Err _ => d end
  | MUpdate m now => match UpdateMonitor d m now with Ok d' => d' | Err _ => d end
  | MDelete id => match DeleteMonitor d id with Ok d' => d' | Err _ => d end
  | MSamples l => set_metrics d (InsertSamples (metrics d) l).1
  | MRound fs runner now at_ => db (Run fs runner now at_ d)
  | MSweep now => Sweep d now
  | MActions m a now since run => (RunActions d m a now since run).1
  end.

Definition reads_ok (o : mop) : Prop := match o with MRound fs _ _ _ => sound_reads fs | _ => True end.

Context {L : JSONLaws J}.

Lemma set_metrics_ok d ms : mon_ok d -> mon_ok (set_metrics d ms).
Proof. intros [? ? ? ? ?]. by split. Qed.

Lemma exec_mop_ok d o : reads_ok o -> mon_ok d -> quiet d -> mon_ok (exec_mop d o) /\ quiet (exec_mop d o).
Proof using L.
  intros Hr Hok Hq. destruct o as [m newid now|m now|id|l|fs runner now at_|now|m a now since run]; simpl.
  - destruct (CreateMonitor d m newid now) as [[d' m']|] eqn:E; [|done]. split; [by eapply CreateMonitor_ok|by eapply CreateMonitor_quiet].
  - destruct (UpdateMonitor d m now) as [d'|] eqn:E; [|done]. split; [by eapply UpdateMonitor_ok|by eapply UpdateMonitor_quiet].
  - destruct (DeleteMonitor d id) as [d'|] eqn:E; [|done]. split; [by eapply DeleteMonitor_ok|by eapply DeleteMonitor_quiet].
  - split; [by apply set_metrics_ok|done].
  - destruct (Run_keeps fs runner now at_ d Hr Hok) as (? & ? & _). auto.
  - split; [by apply set_metrics_ok|done].
  - unfold RunActions. destruct (match LastActionAt _ _ _ with Some _ => _ | None => _ end); simpl; [done|].
    split; [apply update_alerts_ok; [apply claimed_closing|done]|by apply update_alerts_quiet].
Qed.


(** ** One rule's round *)

Definition fault_free (fs : Faults) (m : Monitor) : Prop :=
  f_eval fs (mID m) = false /\ (forall x y, f_find fs x y = false) /\ (forall x y, f_write fs x y = false).

(** C4: a round of a rule in which no call fails refines the alert machine: each
    target goes through it once for each row of the query that names it — an alert
    opens on the first bad verdict, follows the value while they stay bad, closes on
    a good one and is left alone when the window says nothing — and no other
    target's alert moves. A service of the same name in two stacks is one target with
    two rows. When no name comes twice, people are told exactly of the alerts that
    open, one message per host, and of those that close, and actions start exactly
    when an alert opens. *)
Theorem evaluate_refines (fs : Faults) (runner : bool) (now at_ interval : Z) (r : Round) (m : Monitor) (bs : list Breach) :
  fault_free fs m -> mon_ok (db r) -> known (db r) m -> Evaluate (db r) m at_ = Ok bs ->
  let r' := evaluate fs runner now at_ interval r m in
  let before nm := FiringAlert (db r) (mID m) nm in
  let after nm := FiringAlert (db r') (mID m) nm in
  (forall nm, alert_run now m (expected_samples m interval) (rows_of nm bs) (before nm) (after nm)) /\
  (forall mid nm, ~ about m bs mid nm -> FiringAlert (db r') mid nm = FiringAlert (db r) mid nm) /\
  (NoDup (map b_name bs) ->
   (forall b, b ∈ bs -> alert_step now m b (verdict_of b (expected_samples m interval)) (before (b_name b)) (after (b_name b))) /\
   (exists fired : Fired,
     (forall env a, listed fired env a <-> exists b, b ∈ bs /\ env = b_env b /\ before (b_name b) = None /\ after (b_name b) = Some a) /\
     (forall n, n ∈ sent r' <-> n ∈ sent r \/
        (exists b a, b ∈ bs /\ before (b_name b) = Some a /\ after (b_name b) = None /\ n = recovered m a at_best) \/
        (exists env l, fired !! env = Some l /\ n = notifyFired m env l))) /\
   (forall i, i ∈ acting r' <-> i ∈ acting r \/
     (mActions m <> [] /\ runner = true /\ exists b a, b ∈ bs /\ before (b_name b) = None /\ after (b_name b) = Some a /\ aID a = i))).
Proof.
  intros (He & Hf & Hw) Hok Hkn Hev. cbv zeta. unfold evaluate. rewrite He, Hev.
  destruct (fold_left _ bs (r, ∅)) as [r1 fired] eqn:E.
  destruct (evaluate_fold _ _ _ _ _ _ _ _ _ _ Hf Hw Hok Hkn E) as (_ & _ & _ & Hfr & _ & Hst).
  split; [by apply (evaluate_fold_runs _ _ _ _ _ _ _ _ _ _ Hf Hw Hok Hkn E)|]. split; [done|]. intros Hnd.
  destruct (evaluate_fold_notes _ _ _ _ _ _ _ _ _ _ Hf Hw Hok Hkn Hnd E) as (Hl & Ha & Hs). simpl.
  split_and!; [by apply Hst| |].
  - exists fired. split.
    + intros env a. rewrite Hl. split; [|naive_solver]. intros [Hin|?]; [|naive_solver]. unfold listed in Hin.
      rewrite lookup_empty in Hin. by apply elem_of_nil in Hin.
    + intros n. rewrite elem_of_app, Hs, list_elem_of_fmap. split.
      * intros [[?|?]|([env l] & -> & Hin%elem_of_map_to_list)]; naive_solver.
      * intros [?|[?|(env & l & Hin & ->)]]; [naive_solver..|]. right. exists (env, l). by rewrite elem_of_map_to_list.
  - intros i. rewrite Ha. naive_solver.
Qed.

(** ** Silence *)

Lemma Evaluate_same d d' m at_ : same_rules d d' -> Evaluate d' m at_ = Evaluate d m at_.
Proof. intros (_ & E & _). unfold Evaluate. by rewrite E. Qed.

(** Nothing a round says of [a]'s target lets it touch [a]. *)
Definition unheard (d : MonDB) (at_ interval : Z) (ms : list Monitor) (a : Alert) : Prop :=
  forall m bs b, m ∈ ms -> mID m = aMonitorID a -> Evaluate d m at_ = Ok bs -> b ∈ bs -> b_name b = aContainerName a ->
    HasCoverage b (expected_samples m interval) = false.

Lemma evaluate_unheard runner now at_ interval r m a : mon_ok (db r) -> known (db r) m -> firing a ->
  unheard (db r) at_ interval [m] a ->
  a ∈ alerts (db (evaluate no_faults runner now at_ interval r m)) <-> a ∈ alerts (db r).
Proof.
  intros Hok Hkn Hf Hu. rewrite evaluate_db. simpl. destruct (Evaluate (db r) m at_) as [bs|] eqn:E; [|done].
  destruct (fold_left _ bs (r, ∅)) as [r1 fired] eqn:Ef.
  destruct (evaluate_fold no_faults _ _ _ _ _ _ _ _ _ (fun _ _ => eq_refl) (fun _ _ => eq_refl) Hok Hkn Ef) as (_ & _ & _ & _ & Hin & _).
  apply Hin; [done|]. destruct (decide (mID m = aMonitorID a)) as [Hm|?]; [right|left; congruence].
  intros b Hb Hn. apply (Hu m bs b); try done. by left.
Qed.

Lemma evaluate_all_unheard runner now at_ interval ms a : firing a -> forall r, mon_ok (db r) -> (forall m, m ∈ ms -> known (db r) m) ->
  unheard (db r) at_ interval ms a ->
  a ∈ alerts (db (fold_left (evaluate no_faults runner now at_ interval) ms r)) <-> a ∈ alerts (db r).
Proof.
  intros Hf. induction ms as [|m ms IH]; intros r Hok Hkn Hu; cbn [fold_left]; [done|].
  assert (known (db r) m) as Hk by (apply Hkn; by left).
  destruct (evaluate_keeps no_faults runner now at_ interval r m (fun _ _ => eq_refl) Hok Hk) as (Hok1 & _ & Hsr).
  rewrite IH; [|done| |].
  - apply evaluate_unheard; [done..|]. intros m' bs b Hm'%list_elem_of_singleton. subst m'. apply Hu. by left.
  - intros m' Hm'. eapply same_rules_known; [exact Hsr|]. apply Hkn. by right.
  - intros m' bs b Hm' Hid. rewrite (Evaluate_same _ _ _ _ Hsr). apply Hu; [by right|done].
Qed.

Lemma resolve_elem d a reason now x : mon_ok d -> a ∈ alerts d -> firing x ->
  x ∈ alerts (ResolveAlert d (aID a) reason now) <-> x ∈ alerts d /\ (x <> a).
Proof.
  intros Hok Ha Hfx. unfold ResolveAlert, update_alerts. simpl. rewrite list_elem_of_fmap. split.
  - intros (x0 & E & Hx0). destruct (is_firing (aID a) x0) eqn:Ei; [by subst|]. subst. split; [done|]. intros ->.
    unfold is_firing in Ei. by rewrite !bool_decide_eq_true_2 in Ei.
  - intros [Hx Hne]. exists x. split; [|done]. destruct (is_firing (aID a) x) eqn:Ei; [|done]. unfold is_firing in Ei. bd.
    destruct Hne. by apply (ids_unique d).
Qed.

Lemma resolve_all_spec now l : forall r, mon_ok (db r) -> NoDup l -> (forall a, a ∈ l -> a ∈ alerts (db r) /\ firing a) ->
  let r' := fold_left (resolve_one no_faults now) l r in
  (forall x, firing x -> x ∈ alerts (db r') <-> x ∈ alerts (db r) /\ (x ∉ l)) /\
  (forall a, a ∈ l -> exists m, MonitorByID (db r) (aMonitorID a) = Ok m /\ recovered m a went_quiet ∈ sent r') /\
  (forall n, n ∈ sent r -> n ∈ sent r').
Proof.
  induction l as [|a l IH]; intros r Hok Hnd Hl; cbn [fold_left]; cbv zeta.
  { split_and!; [|by intros a ?%elem_of_nil|done]. intros x Hx. split; [intros ?; split; [done|by intros ?%elem_of_nil]|tauto]. }
  apply NoDup_cons in Hnd as [Hni Hnd]. destruct (Hl a ltac:(by left)) as [Ha Hfa].
  destruct (ok_fk _ Hok a Ha) as [row Hrow].
  set (r1 := resolve_one no_faults now r a).
  assert (r1 = mkRound (ResolveAlert (db r) (aID a) went_quiet now) (sent r ++ [recovered (scanMonitor row) a went_quiet]) (acting r)) as E1.
  { unfold r1, resolve_one, MonitorByID. by rewrite Hrow. }
  assert (mon_ok (db r1)) as Hok1 by apply (resolve_one_keeps no_faults now r a Hok).
  destruct (IH r1 Hok1 Hnd) as (H1 & H2 & H3).
  { intros x Hx. destruct (Hl x ltac:(by right)) as [Hxa Hfx]. split; [|done]. rewrite E1. simpl.
    apply resolve_elem; [done..|]. split; [done|]. by intros ->. }
  split_and!.
  - intros x Hx. rewrite H1 by done. rewrite E1. cbn [db]. rewrite resolve_elem by done. rewrite not_elem_of_cons. tauto.
  - intros x [->|Hx]%elem_of_cons.
    + exists (scanMonitor row). unfold MonitorByID at 1. rewrite Hrow. split; [done|]. apply H3. rewrite E1. simpl. apply elem_of_app. right.
      by apply list_elem_of_singleton.
    + destruct (H2 x Hx) as (m & Hm & Hs). exists m. split; [|done]. rewrite E1 in Hm. exact Hm.
  - intros n Hn. apply H3. rewrite E1. simpl. apply elem_of_app. by left.
Qed.

(** Silence is not recovery. A firing alert whose target has too few samples
    to judge is untouched by its rule; it is closed, and announced, with the
    words "stopped reporting" once it has not been seen for three intervals,
    and left firing until then (up to the second the stored texts resolve). *)
Theorem silence_is_not_recovery (runner : bool) (now at_ : Z) (d : MonDB) (a : Alert) :
  let interval := Interval (ReadMonitorSettings (settings d)) in
  let before := at_ - 3 * interval in
  mon_ok d -> a ∈ alerts d -> firing a -> unheard d at_ interval (EnabledMonitors d) a ->
  in_range (aLastSeenAt a) -> in_range before ->
  let r := Run no_faults runner now at_ d in
  (Unix (aLastSeenAt a) < Unix before ->
     FiringAlert (db r) (aMonitorID a) (aContainerName a) = None /\
     exists m, MonitorByID d (aMonitorID a) = Ok m /\ recovered m a went_quiet ∈ sent r) /\
  (Unix before < Unix (aLastSeenAt a) -> a ∈ alerts (db r)).
Proof.
  intros interval before Hok Ha Hf Hu Hr1 Hr2. cbv zeta. unfold Run, resolveStale. fold interval. fold before.
  set (r0 := fold_left (evaluate no_faults runner now at_ interval) (EnabledMonitors d) (mkRound d [] [])).
  destruct (evaluate_all_keeps no_faults runner now at_ interval (EnabledMonitors d) (fun _ _ => eq_refl) (mkRound d [] []) Hok
    (fun m Hm => EnabledMonitors_known d m Hok Hm)) as (Hok0 & _ & Hsr). fold r0 in Hok0, Hsr.
  assert (a ∈ alerts (db r0)) as Ha0 by (apply (evaluate_all_unheard runner now at_ interval (EnabledMonitors d) a Hf (mkRound d [] []) Hok); [intros m; by apply EnabledMonitors_known|done|done]).
  destruct (resolve_all_spec now (StaleAlerts (db r0) before) r0 Hok0) as (H1 & H2 & _).
  { apply (NoDup_fmap_1 aID), (NoDup_map_filter aID), (ok_ids _ Hok0). }
  { intros x [Hx Hs]%elem_of_filter_b. bd. done. }
  set (r' := fold_left (resolve_one no_faults now) (StaleAlerts (db r0) before) r0) in *.
  assert (mon_ok (db r')) as Hok' by apply (resolve_all_keeps no_faults now _ r0 Hok0). split.
  - intros Hlt. assert (a ∈ StaleAlerts (db r0) before) as Hst.
    { apply elem_of_filter_b. split; [done|]. rewrite bool_decide_eq_true_2 by done. simpl. by apply stamp_lt. }
    split.
    + destruct (FiringAlert (db r') _ _) as [x|] eqn:E; [|done]. apply FiringAlert_iff in E as (Hx & Hfx & Hm & Hn); [|done].
      apply H1 in Hx as [Hx Hnx]; [|done]. destruct Hnx. by rewrite (ok_one _ Hok0 x a).
    + destruct (H2 a Hst) as (m & Hm & Hs). exists m. split; [|done]. unfold MonitorByID in *. destruct Hsr as (Hmon & _). by rewrite Hmon in Hm.
  - intros Hlt. apply H1; [done|]. split; [done|]. intros [_ Hs]%elem_of_filter_b. bd.
    match goal with H : String.ltb _ _ = true |- _ => apply stamp_inv in H; [|done..] end. unfold Unix in *. lia.
Qed.

End Rounds.
