(* ===== verification/MonitorCases.v ===== *)
(** * Monitoring: the hard cases, the actions, retention

    Theorems about the definitions of [MonitorRound]: rules two of whose targets
    share a name, look-ups that fail, the cooldown of actions, the bounds of a
    scale action, what a sweep leaves; and the concrete tables on which the
    theorems of [Monitors] and [MonitorRound] are applied. *)
From S2P Require Import Prelude GoStd Timestamps Metrics Monitors MonitorRound.
From Stdlib Require Import QArith.
Local Open Scope string_scope.
Local Open Scope list_scope.
Local Open Scope daffa_scope.
Local Open Scope Z_scope.

Section Cases.
Context {J : JSON}.

(** ** Where it goes wrong *)

Lemma evaluate_two (fs : Faults) runner now at_ interval r m b1 b2 : fault_free fs m -> Evaluate (db r) m at_ = Ok [b1; b2] ->
  evaluate fs runner now at_ interval r m =
  let st := evaluate_step no_faults runner now m (expected_samples m interval)
              (evaluate_step no_faults runner now m (expected_samples m interval) (r, ∅) b1) b2 in
  mkRound (db st.1) (sent st.1 ++ map (fun kv => notifyFired m kv.1 kv.2) (map_to_list st.2)) (acting st.1).
Proof.
  intros (He & Hf & Hw) Hev. unfold evaluate. rewrite He, Hev. cbn [fold_left]. rewrite !(evaluate_step_no_fault fs) by auto.
  cbv zeta. by destruct (evaluate_step no_faults _ _ _ _ (evaluate_step _ _ _ _ _ _ b1) b2).
Qed.

Lemma verdict_cases b e : match verdict_of b e with
  | NoData => HasCoverage b e = false
  | Bad => HasCoverage b e = true /\ Sustained b e = true
  | Good => HasCoverage b e = true /\ Sustained b e = false
  end.
Proof. unfold verdict_of. destruct (HasCoverage b e); simpl; [|done]. by destruct (Sustained b e). Qed.

Lemma step_opens runner now m e r fired b : mon_ok (db r) -> known (db r) m -> verdict_of b e = Bad ->
  FiringAlert (db r) (mID m) (b_name b) = None ->
  exists r' a, evaluate_step no_faults runner now m e (r, fired) b = (r', <[b_env b := default [] (fired !! b_env b) ++ [a]]> fired) /\
    mon_ok (db r') /\ known (db r') m /\ sent r' = sent r /\ FiringAlert (db r') (mID m) (b_name b) = Some a /\
    a = fresh_alert (next_id (db r)) now m b.
Proof.
  intros Hok Hkn Hv Hn. pose proof (verdict_cases b e) as Hc. rewrite Hv in Hc. destruct Hc as [Hc Hs].
  destruct Hkn as (row & Hrow & Hen). eexists _, _. split.
  { unfold evaluate_step, no_faults. simpl. rewrite Hn, Hc, Hs. simpl. unfold RaiseAlert. rewrite Hrow. reflexivity. }
  pose proof (RaiseAlert_FiringAlert (db r) now (mID m) (b_env b) (b_name b) (b_cid b) (b_stack b) (b_worst b)) as HFA.
  pose proof (RaiseAlert_ok (db r) now (mID m) (b_env b) (b_name b) (b_cid b) (b_stack b) (b_worst b)) as HOK.
  unfold RaiseAlert in *. rewrite Hrow in *. cbn [db sent]. split_and!.
  - eapply HOK; [done|done|by apply FiringAlert_None].
  - by exists row.
  - done.
  - erewrite HFA; [|done|done|done]. by rewrite !bool_decide_eq_true_2.
  - done.
Qed.

Lemma step_closes runner now m e r fired b a : mon_ok (db r) -> known (db r) m -> verdict_of b e = Good ->
  FiringAlert (db r) (mID m) (b_name b) = Some a ->
  exists r', evaluate_step no_faults runner now m e (r, fired) b = (r', fired) /\
    mon_ok (db r') /\ known (db r') m /\ sent r' = sent r ++ [recovered m a at_best] /\ FiringAlert (db r') (mID m) (b_name b) = None.
Proof.
  intros Hok Hkn Hv Hs. pose proof (verdict_cases b e) as Hc. rewrite Hv in Hc. destruct Hc as [Hc Hsu].
  eexists. split. { unfold evaluate_step, no_faults. simpl. rewrite Hs, Hc, Hsu. simpl. reflexivity. }
  apply FiringAlert_Some in Hs as (Ha & Hf & Hm & Hn). cbn [db sent resolve]. split_and!.
  - apply update_alerts_ok; [apply resolved_closing|done].
  - destruct Hkn as (row & ? & ?). by exists row.
  - done.
  - unfold ResolveAlert. rewrite FiringAlert_update by (done || apply resolved_closing). rewrite Hm, Hn, !bool_decide_eq_true_2 by done. done.
Qed.

(** Alerts are kept per rule and target name, breaches per host and stack:
    two stacks with a service of the same name share one alert. With one of
    them over the line and the other fine, every round both raises and resolves
    it: each sends a recovery and a page, in either order of the rows. *)
Theorem shared_target_flaps (fs : Faults) (runner : bool) (now at_ interval : Z) (r : Round) (m : Monitor) (hot cool : Breach) :
  fault_free fs m -> mon_ok (db r) -> known (db r) m -> b_name hot = b_name cool ->
  verdict_of hot (expected_samples m interval) = Bad -> verdict_of cool (expected_samples m interval) = Good ->
  let r' := evaluate fs runner now at_ interval r m in
  let page := notifyFired m (b_env hot) [fresh_alert (next_id (db r)) now m hot] in
  (Evaluate (db r) m at_ = Ok [hot; cool] -> FiringAlert (db r) (mID m) (b_name hot) = None ->
     FiringAlert (db r') (mID m) (b_name hot) = None /\
     sent r' = sent r ++ [recovered m (fresh_alert (next_id (db r)) now m hot) at_best; page]) /\
  (forall a, Evaluate (db r) m at_ = Ok [cool; hot] -> FiringAlert (db r) (mID m) (b_name hot) = Some a ->
     FiringAlert (db r') (mID m) (b_name hot) = Some (fresh_alert (next_id (db r)) now m hot) /\
     sent r' = sent r ++ [recovered m a at_best; page]).
Proof.
  intros Hff Hok Hkn Hname Hbad Hgood r' page. unfold r'. split.
  - intros Hev Hn. rewrite (evaluate_two _ _ _ _ _ _ _ _ _ Hff Hev). cbv zeta. set (e := expected_samples m interval) in *.
    destruct (step_opens runner now m e r ∅ hot Hok Hkn Hbad Hn) as (r1 & a & -> & Hok1 & Hkn1 & Hs1 & Ha1 & ->).
    rewrite Hname in Ha1. destruct (step_closes runner now m e r1 (<[b_env hot := default [] ((∅ : Fired) !! b_env hot) ++ [fresh_alert (next_id (db r)) now m hot]]> ∅)
      cool _ Hok1 Hkn1 Hgood Ha1) as (r2 & -> & Hok2 & _ & Hs2 & Ha2).
    simpl. rewrite Hname. split; [done|]. rewrite lookup_empty. simpl. rewrite insert_empty, map_to_list_singleton. simpl.
    by rewrite Hs2, Hs1, <- app_assoc.
  - intros a Hev Ha. rewrite (evaluate_two _ _ _ _ _ _ _ _ _ Hff Hev). cbv zeta. set (e := expected_samples m interval) in *.
    rewrite Hname in Ha. destruct (step_closes runner now m e r ∅ cool a Hok Hkn Hgood Ha) as (r1 & E1 & Hok1 & Hkn1 & Hs1 & Ha1).
    assert (next_id (db r1) = next_id (db r)) as Hid.
    { pose proof (verdict_cases cool e) as Hc. rewrite Hgood in Hc. destruct Hc as [Hc Hs]. unfold evaluate_step, no_faults in E1. simpl in E1.
      rewrite Ha, Hc, Hs in E1. simpl in E1. injection E1 as <-. done. }
    rewrite E1. rewrite <- Hname in Ha1. destruct (step_opens runner now m e r1 ∅ hot Hok1 Hkn1 Hbad Ha1) as (r2 & a2 & -> & _ & _ & Hs2 & Ha2 & ->).
    simpl. split; [by rewrite Ha2, Hid|]. rewrite lookup_empty. simpl. rewrite insert_empty, map_to_list_singleton. simpl.
    by rewrite Hs2, Hs1, Hid, <- app_assoc.
Qed.

(** A look-up of the open alert that fails reads as "nothing is firing": a
    target that is still over the line gets a second firing alert, is announced
    again, and its actions run again. *)
Theorem failed_lookup_duplicates (fs : Faults) (runner : bool) (now e : Z) (r r' : Round) (fired fired' : Fired) (m : Monitor) (b : Breach) (a : Alert) :
  mon_ok (db r) -> known (db r) m -> verdict_of b e = Bad -> FiringAlert (db r) (mID m) (b_name b) = Some a ->
  f_find fs (mID m) (b_name b) = true -> f_write fs (mID m) (b_name b) = false ->
  evaluate_step fs runner now m e (r, fired) b = (r', fired') ->
  exists a', a ∈ alerts (db r') /\ a' ∈ alerts (db r') /\ aID a' <> aID a /\ firing a /\ firing a' /\
    aMonitorID a' = aMonitorID a /\ aContainerName a' = aContainerName a /\ listed fired' (b_env b) a' /\
    (mActions m <> [] -> runner = true -> aID a' ∈ acting r').
Proof.
  intros Hok (row & Hrow & _) Hv Ha Hf Hw He. pose proof (verdict_cases b e) as Hc. rewrite Hv in Hc. destruct Hc as [Hc Hs].
  apply FiringAlert_Some in Ha as (Hin & Hfa & Hm & Hn). unfold evaluate_step in He. rewrite Hf, Hw, Hc, Hs in He. simpl in He.
  unfold RaiseAlert in He. rewrite Hrow in He. injection He as <- <-. exists (fresh_alert (next_id (db r)) now m b). simpl.
  split_and!; try done.
  - apply elem_of_app. by left.
  - apply elem_of_app. right. by apply list_elem_of_singleton.
  - apply (ok_next _ Hok) in Hin. lia.
  - unfold listed. rewrite lookup_insert_eq. simpl. apply elem_of_app. right. by apply list_elem_of_singleton.
  - intros Hact ->. rewrite bool_decide_eq_false_2 by done. simpl. apply elem_of_app. right. by apply list_elem_of_singleton.
Qed.

(** ** Actions *)

Lemma later_spec a b : in_range a -> in_range b -> (later a b = a \/ later a b = b) /\ Unix a <= Unix (later a b) /\ Unix b <= Unix (later a b).
Proof.
  intros Ha Hb. unfold later. destruct (String.ltb (stamp a) (stamp b)) eqn:E.
  - apply stamp_inv in E; [|done..]. unfold Unix. split; [by right|lia].
  - split; [by left|]. split; [lia|]. unfold Unix. destruct (Z.le_gt_cases (b / 1000000000) (a / 1000000000)) as [|Hlt]; [done|].
    by rewrite (stamp_lt a b Ha Hb) in E by lia.
Qed.

Lemma later_fold l : forall t, in_range t -> (forall x, x ∈ l -> in_range x) ->
  in_range (fold_left later l t) /\ Unix t <= Unix (fold_left later l t) /\ forall x, x ∈ l -> Unix x <= Unix (fold_left later l t).
Proof.
  induction l as [|y l IH]; intros t Ht Hl; cbn [fold_left]; [split; [done|]; split; [lia|by intros x ?%elem_of_nil]|].
  assert (in_range y) as Hy by (apply Hl; by left). destruct (later_spec t y Ht Hy) as (Hor & H1 & H2).
  assert (in_range (later t y)) as Hr by (destruct Hor as [-> | ->]; done).
  destruct (IH (later t y) Hr (fun x Hx => Hl x ltac:(by right))) as (G1 & G2 & G3). split; [done|]. split; [lia|].
  intros x [->|Hx]%elem_of_cons; [lia|auto].
Qed.

Definition claims_in_range (d : MonDB) : Prop := forall a t, a ∈ alerts d -> aActionsAt a = Some t -> in_range t.

Lemma LastActionAt_spec d mid nm a t : claims_in_range d -> a ∈ alerts d -> aMonitorID a = mid -> aContainerName a = nm -> aActionsAt a = Some t ->
  exists last, LastActionAt d mid nm = Some last /\ Unix t <= Unix last.
Proof.
  intros Hcl Ha Hm Hn Ht. unfold LastActionAt. set (l := omap _ _).
  assert (forall x, x ∈ l -> in_range x) as Hl.
  { intros x (y & [Hy _]%elem_of_filter_b & Hx)%list_elem_of_omap. by eapply Hcl. }
  assert (t ∈ l) as Hin.
  { apply list_elem_of_omap. exists a. split; [|done]. apply elem_of_filter_b. by rewrite !bool_decide_eq_true_2. }
  destruct l as [|t0 l0]; [by apply elem_of_nil in Hin|]. eexists. split; [done|].
  destruct (later_fold l0 t0) as (_ & H1 & H2); [apply Hl; by left|intros x Hx; apply Hl; by right|].
  apply elem_of_cons in Hin as [->|Hin]; auto.
Qed.

(** The cooldown holds across alerts: once a rule's actions have started on
    a target, they do not start again on it, for whatever alert of the rule,
    until the cooldown is over, give or take the second a stored time resolves;
    and a run that is not skipped carries out every action in order, whatever
    became of the one before. *)
Theorem cooldown_holds (d : MonDB) (m : Monitor) (a a2 : Alert) (now since now2 since2 : Z) (run run2 : MonitorAction -> bool) (results : list (string * bool)) :
  claims_in_range d -> in_range now -> minActionCooldownSecs <= mCooldownSecs m <= maxActionCooldownSecs ->
  a ∈ alerts d -> aMonitorID a = mID m -> aContainerName a2 = aContainerName a ->
  let d1 := (RunActions d m a now since run).1 in
  (RunActions d m a now since run).2 = Acted results ->
  map fst results = map ac_kind (mActions m) /\
  (since2 - now < mCooldownSecs m * 1000000000 - 1000000000 -> RunActions d1 m a2 now2 since2 run2 = (d1, Skipped)).
Proof.
  intros Hcl Hnow Hcd Ha Hm Hn. cbv zeta. unfold minActionCooldownSecs, maxActionCooldownSecs in Hcd.
  destruct (RunActions d m a now since run) as [d1 o] eqn:E. unfold RunActions in E.
  destruct (match LastActionAt d _ _ with Some _ => _ | None => _ end); [by injection E as <- <-|]. apply pair_eq in E as [<- <-].
  cbn [fst snd]. intros [= <-]. split; [by rewrite map_map|]. intros Hlt. set (d1 := ClaimAlertActions d (aID a) now).
  assert (claimed now a ∈ alerts d1) as Ha1.
  { apply list_elem_of_fmap. exists a. split; [|done]. by rewrite bool_decide_eq_true_2. }
  assert (claims_in_range d1) as Hcl1.
  { intros x t (x0 & -> & Hx0)%list_elem_of_fmap. case_bool_decide; [by intros [= <-]|by apply Hcl]. }
  unfold RunActions. destruct (LastActionAt_spec d1 (mID m) (aContainerName a2) (claimed now a) now Hcl1 Ha1 Hm ltac:(by rewrite Hn) eq_refl) as (last & -> & Hl).
  rewrite wrap64_id by lia. assert (now < last + 1000000000) as Hl'.
  { unfold Unix in Hl. pose proof (Z.div_mod now 1000000000 ltac:(lia)). pose proof (Z.mod_pos_bound now 1000000000 ltac:(lia)).
    pose proof (Z.div_mod last 1000000000 ltac:(lia)). pose proof (Z.mod_pos_bound last 1000000000 ltac:(lia)). lia. }
  rewrite (proj2 (Z.ltb_lt _ _)) by lia. done.
Qed.

(** A scale action that a rule was accepted with never scales a running
    service to zero, moves by at most its step, in its own direction, and does
    not take the service past its limit; a service already past it stays. *)
Theorem scaleTarget_bounds (a : MonitorAction) (cur : Z) :
  action_ok a -> ac_kind a = ActionScale -> 0 < cur < 2 ^ 62 ->
  let r := scaleTarget cur (ac_by a) (ac_limit a) in
  1 <= r /\ Z.abs (r - cur) <= Z.abs (ac_by a) <= maxScaleStep /\
  (0 < ac_by a -> cur <= r <= Z.max (ac_limit a) cur) /\ (ac_by a < 0 -> Z.min (ac_limit a) cur <= r <= cur).
Proof.
  intros Hok Hk Hc. assert (1 <= Z.abs (ac_by a) <= maxScaleStep /\ 1 <= ac_limit a) as [Hb Hl].
  { destruct Hok as [H|[[H _]|[[_ H]|[H _]]]]; [by rewrite Hk in H|by rewrite Hk in H|done|by rewrite Hk in H]. }
  unfold maxScaleStep in *. cbv zeta. unfold scaleTarget. rewrite wrap64_id by lia. destruct (0 <? ac_by a) eqn:E; bd; lia.
Qed.

(** After a sweep the tables for today's samples and tomorrow's exist,
    nothing younger than the retention period is gone, and nothing is left from
    a day before the one it ends in. *)
Theorem Sweep_spec (d : MonDB) (now : Z) :
  parts_ok (metrics d) -> 1 <= ms_retention (ReadMonitorSettings (settings d)) ->
  let cutoff := now - ms_retention (ReadMonitorSettings (settings d)) * day_ns in
  let d' := Sweep d now in
  parts_ok (metrics d') /\
  is_Some (parts (metrics d') !! day now) /\ is_Some (parts (metrics d') !! day (now + day_ns)) /\
  (forall x, x ∈ all_rows (metrics d) -> Unix cutoff <= sTS x -> x ∈ all_rows (metrics d')) /\
  (forall x, x ∈ all_rows (metrics d') -> x ∈ all_rows (metrics d) /\ day cutoff <= row_day x).
Proof.
  intros Hok Hr cutoff. cbv zeta. unfold Sweep. fold cutoff. cbn [metrics set_metrics].
  set (m1 := EnsurePartition (metrics d) now). set (m2 := EnsurePartition m1 (now + day_ns)).
  destruct (EnsurePartition_rows (metrics d) now) as (P1 & _ & K1 & S1). fold m1 in P1, K1, S1.
  destruct (EnsurePartition_rows m1 (now + day_ns)) as (P2 & _ & K2 & S2). fold m2 in P2, K2, S2.
  assert (day cutoff <= day now /\ day cutoff <= day (now + day_ns)) as [D1 D2].
  { unfold day, Unix, cutoff, day_ns. split; (apply Z.div_le_mono; [done|]; apply Z.div_le_mono; lia). }
  assert (is_Some (parts m2 !! day now)) as S1'.
  { unfold m2, EnsurePartition. destruct (parts m1 !! day (now + day_ns)); [done|]. simpl. destruct (decide (day now = day (now + day_ns))) as [<-|]; [rewrite lookup_insert_eq; eauto|by rewrite lookup_insert_ne]. }
  destruct (Drop_rows m2 cutoff (K2 (K1 Hok))) as (Q1 & Q2 & Q3). split_and!.
  - done.
  - by rewrite Drop_lookup, (proj2 (Z.ltb_ge _ _)).
  - by rewrite Drop_lookup, (proj2 (Z.ltb_ge _ _)).
  - intros x Hx Hc. apply Q3; [|done]. by rewrite P2, P1.
  - intros x [Hx Hd]%Q2. by rewrite P2, P1 in Hx.
Qed.
End Cases.

(** ** On concrete tables *)

Definition action_tuple (a : storedAction) : string * list string * Z * Z * Z * string * string :=
  (sa_kind a, sa_command a, sa_timeout a, sa_by a, sa_limit a, sa_url a, sa_secret_enc a).
Definition tuple_action (t : string * list string * Z * Z * Z * string * string) : storedAction :=
  let '(k, c, t, b, l, u, s) := t in mkStored k c t b l u s.
#[local] Instance storedAction_eq_dec : EqDecision storedAction.
Proof. solve_decision. Defined.
#[local] Instance storedAction_countable : Countable storedAction.
Proof. refine (inj_countable' action_tuple tuple_action _). by intros []. Defined.

Fixpoint pos_text (p : positive) : string :=
  match p with xH => "" | xO p => String "0" (pos_text p) | xI p => String "1" (pos_text p) end.
Fixpoint text_pos (s : string) : positive :=
  match s with "" => xH | String c s => if bool_decide (c = "0"%char) then xO (text_pos s) else xI (text_pos s) end.
Lemma text_pos_text p : text_pos (pos_text p) = p.
Proof. induction p as [p IH|p IH|]; simpl; [by rewrite IH..|done]. Qed.

(** A codec with the laws the code relies on. *)
#[local] Instance demo_json : JSON := {
  marshal l := String "j" (pos_text (encode l));
  unmarshal s := match s with String _ s => decode (text_pos s) | "" => None end }.
#[local] Instance demo_json_laws : JSONLaws demo_json.
Proof. split; [intros l; simpl; by rewrite text_pos_text, countable.decode_encode|done]. Qed.

Definition at_demo : Z := (t_demo + 60) * 1000000000.
Definition restart_action : MonitorAction := mkAction "restart" [] 0 0 0 "" "" "" false.
Definition rule_demo : Monitor :=
  mkMonitor "" "hot" true "cpu_pct" ">" (inject_Z 80) 60 "prod" "" "" [restart_action] 0 0 0.
Definition blank_db : MonDB := mkMonDB ∅ [] 0 {["prod"]} (Some (mkSettings true 30 7)) empty_demo.

(** The rule and a minute of samples of two services, at 90% and at 10%. *)
Definition minute (stack1 svc1 stack2 svc2 : string) : list Sample :=
  [reading (t_demo + 30) "c1" stack1 svc1 (inject_Z 90); reading (t_demo + 30) "c2" stack2 svc2 (inject_Z 10);
   reading (t_demo + 60) "c1" stack1 svc1 (inject_Z 90); reading (t_demo + 60) "c2" stack2 svc2 (inject_Z 10)].
Definition tables (l : list Sample) : MonDB := fold_left exec_mop [MCreate rule_demo "1" at_demo; MSamples l] blank_db.
Definition the_rule (d : MonDB) : Monitor := match EnabledMonitors d with m :: _ => m | [] => rule_demo end.

Lemma blank_ok : mon_ok blank_db /\ quiet blank_db.
Proof. split; [|by intros a ?%elem_of_nil]. split; simpl; [apply NoDup_nil_2|by intros a ?%elem_of_nil|by intros a ?%elem_of_nil|by intros a b ?%elem_of_nil|done]. Qed.

Lemma tables_ok l : mon_ok (tables l) /\ quiet (tables l).
Proof.
  unfold tables. cbn [fold_left]. destruct blank_ok as [H Hq].
  destruct (exec_mop_ok blank_db (MCreate rule_demo "1" at_demo) I H Hq) as [H1 Hq1]. by apply exec_mop_ok.
Qed.


(** Two stacks with a service of the same name, and two services of one stack. *)
Definition same_name : MonDB := tables (minute "a" "db" "b" "db").
Definition two_names : MonDB := tables (minute "a" "web" "a" "db").
Definition rounded (d : MonDB) : Round := mkRound d [] [].

Lemma demo_parts d : d = same_name \/ d = two_names -> parts_ok (metrics d).
Proof. intros [-> | ->]; apply parts_okb_ok; vm_compute; reflexivity. Qed.

Definition hot_row (stack svc : string) : Breach := mkBreach "prod" svc "c1-id" stack 2 2 (inject_Z 90) (inject_Z 90).
Definition cool_row (stack svc : string) : Breach := mkBreach "prod" svc "c2-id" stack 2 0 (inject_Z 10) (inject_Z 10).

Lemma same_name_rows : Evaluate same_name (the_rule same_name) at_demo = Ok [hot_row "a" "db"; cool_row "b" "db"].
Proof. vm_compute. reflexivity. Qed.
Lemma two_names_rows : Evaluate two_names (the_rule two_names) at_demo = Ok [hot_row "a" "web"; cool_row "a" "db"].
Proof. vm_compute. reflexivity. Qed.
Lemma demo_known d : d = same_name \/ d = two_names -> known d (the_rule d).
Proof. intros [-> | ->]; eexists; (split; [vm_compute; reflexivity|reflexivity]). Qed.

Lemma Evaluate_spec_witness :
  Evaluate two_names (the_rule two_names) at_demo = Ok [hot_row "a" "web"; cool_row "a" "db"] /\
  NoDup (map bkey [hot_row "a" "web"; cool_row "a" "db"]).
Proof.
  split; [exact two_names_rows|].
  destruct (Evaluate_spec two_names (the_rule two_names) at_demo _ sCPUPct OpGt (demo_parts _ (or_intror eq_refl)) two_names_rows) as [H _];
    [vm_compute; reflexivity..|exact H].
Defined.

Lemma fault_free_demo m : fault_free no_faults m. Proof. done. Qed.

Lemma evaluate_refines_witness :
  let r' := evaluate no_faults true at_demo at_demo 30000000000 (rounded two_names) (the_rule two_names) in
  (exists a, FiringAlert (db r') "mon_1" "web" = Some a) /\
  alert_step at_demo (the_rule two_names) (cool_row "a" "db") Good None None /\
  (let r2 := evaluate no_faults true at_demo at_demo 30000000000 (rounded same_name) (the_rule same_name) in
   alert_run at_demo (the_rule same_name) (expected_samples (the_rule same_name) 30000000000) [hot_row "a" "db"; cool_row "b" "db"] None (FiringAlert (db r2) "mon_1" "db")).
Proof.
  split; [eexists; vm_compute; reflexivity|]. split.
  - destruct (evaluate_refines no_faults true at_demo at_demo 30000000000 (rounded two_names) (the_rule two_names) _
      (fault_free_demo _) (proj1 (tables_ok _)) (demo_known _ (or_intror eq_refl)) two_names_rows) as (_ & _ & H).
    destruct H as [H _]; [repeat constructor; simpl; [intros H%list_elem_of_singleton; discriminate H|by intros H%elem_of_nil]|].
    exact (H (cool_row "a" "db") ltac:(right; left)).
  - destruct (evaluate_refines no_faults true at_demo at_demo 30000000000 (rounded same_name) (the_rule same_name) _
      (fault_free_demo _) (proj1 (tables_ok _)) (demo_known _ (or_introl eq_refl)) same_name_rows) as (H & _). exact (H "db").
Defined.


(** A minute and a half after the last sample: the alert of [web] is still
    firing, and has not been heard of for more than three intervals. *)
Definition fired_db : MonDB := exec_mop two_names (MRound no_faults true at_demo at_demo).
Definition the_alert (d : MonDB) : Alert := match alerts d with a :: _ => a | [] => mkAlert 0 "" "" "" "" "" AlertResolved 0 0 0 None "" None end.
Definition at_quiet : Z := at_demo + 120 * 1000000000.

Lemma fired_ok : mon_ok fired_db.
Proof. apply (exec_mop_ok two_names (MRound no_faults true at_demo at_demo)); [done|apply tables_ok..]. Qed.

Lemma fired_alert : the_alert fired_db ∈ alerts fired_db /\ firing (the_alert fired_db) /\ aMonitorID (the_alert fired_db) = "mon_1" /\
  aContainerName (the_alert fired_db) = "web" /\ aLastSeenAt (the_alert fired_db) = at_demo /\ aActionsAt (the_alert fired_db) = None.
Proof.
  assert (alerts fired_db = [the_alert fired_db]) as E by (vm_compute; reflexivity). rewrite E at 1. split; [by left|].
  repeat split; vm_compute; reflexivity.
Qed.

Lemma fired_unheard : unheard fired_db at_quiet (Interval (ReadMonitorSettings (settings fired_db))) (EnabledMonitors fired_db) (the_alert fired_db).
Proof.
  intros m bs b Hm _ He Hb. assert (EnabledMonitors fired_db = [the_rule fired_db]) as E by (vm_compute; reflexivity).
  rewrite E in Hm. apply list_elem_of_singleton in Hm. subst m.
  assert (Evaluate fired_db (the_rule fired_db) at_quiet = Ok []) as E2 by (vm_compute; reflexivity). rewrite E2 in He.
  injection He as <-. apply elem_of_nil in Hb as [].
Qed.

Lemma in_range_demo : in_range at_demo /\ in_range (at_quiet - 3 * 30000000000).
Proof. split; unfold in_range; vm_compute; repeat split; intros H; discriminate H. Qed.

Lemma silence_is_not_recovery_witness :
  FiringAlert fired_db "mon_1" "web" = Some (the_alert fired_db) /\
  FiringAlert (db (Run no_faults true at_quiet at_quiet fired_db)) "mon_1" "web" = None.
Proof.
  destruct fired_alert as (Ha & Hf & Hm & Hn & Hl & _). split; [vm_compute; reflexivity|].
  assert (in_range (aLastSeenAt (the_alert fired_db))) as Hr by (rewrite Hl; apply in_range_demo).
  destruct (silence_is_not_recovery true at_quiet at_quiet fired_db (the_alert fired_db) fired_ok Ha Hf fired_unheard Hr (proj2 in_range_demo)) as [H _].
  rewrite Hm, Hn, Hl in H. apply H. vm_compute. reflexivity.
Defined.

Lemma shared_target_flaps_witness :
  let r' := evaluate no_faults true at_demo at_demo 30000000000 (rounded same_name) (the_rule same_name) in
  Evaluate same_name (the_rule same_name) at_demo = Ok [hot_row "a" "db"; cool_row "b" "db"] /\
  FiringAlert (db r') "mon_1" "db" = None /\ length (sent r') = 2%nat.
Proof.
  split; [exact same_name_rows|].
  destruct (shared_target_flaps no_faults true at_demo at_demo 30000000000 (rounded same_name) (the_rule same_name) (hot_row "a" "db") (cool_row "b" "db")
    (fault_free_demo _) (proj1 (tables_ok _)) (demo_known _ (or_introl eq_refl)) eq_refl eq_refl eq_refl) as [H _].
  destruct (H same_name_rows eq_refl) as [H1 H2]. split; [exact H1|]. rewrite H2. reflexivity.
Defined.

Definition blind : Faults := mkFaults (fun _ => false) (fun _ _ => true) (fun _ _ => false).

Lemma failed_lookup_duplicates_witness :
  let st := evaluate_step blind true at_quiet (the_rule fired_db) 2 (rounded fired_db, ∅) (hot_row "a" "web") in
  exists a', a' ∈ alerts (db st.1) /\ aID a' <> aID (the_alert fired_db) /\ firing a' /\ aID a' ∈ acting st.1.
Proof.
  cbv zeta. destruct (evaluate_step blind true at_quiet (the_rule fired_db) 2 (rounded fired_db, ∅) (hot_row "a" "web")) as [r' fired'] eqn:E.
  destruct (failed_lookup_duplicates blind true at_quiet 2 (rounded fired_db) r' ∅ fired' (the_rule fired_db) (hot_row "a" "web") (the_alert fired_db))
    as (a' & _ & H2 & H3 & _ & H5 & _ & _ & _ & H9); [exact fired_ok| |reflexivity|vm_compute; reflexivity|reflexivity|reflexivity|exact E|].
  - eexists. split; [vm_compute; reflexivity|reflexivity].
  - exists a'. split; [exact H2|]. split; [exact H3|]. split; [exact H5|]. apply H9; [|reflexivity]. vm_compute. discriminate.
Defined.

Lemma cooldown_holds_witness :
  let d1 := (RunActions fired_db (the_rule fired_db) (the_alert fired_db) at_demo at_demo (fun _ => true)).1 in
  RunActions d1 (the_rule fired_db) (the_alert fired_db) at_quiet at_quiet (fun _ => true) = (d1, Skipped).
Proof.
  apply (cooldown_holds fired_db (the_rule fired_db) (the_alert fired_db) (the_alert fired_db) at_demo at_demo at_quiet at_quiet (fun _ => true) (fun _ => true)
    [("restart", true)]); [|apply in_range_demo|split; vm_compute; discriminate|apply fired_alert|vm_compute; reflexivity|reflexivity|vm_compute; reflexivity|vm_compute; reflexivity].
  intros a t Ha Ht. assert (alerts fired_db = [the_alert fired_db]) as E by (vm_compute; reflexivity). rewrite E in Ha.
  apply list_elem_of_singleton in Ha as ->. destruct fired_alert as (_ & _ & _ & _ & _ & Hn). rewrite Hn in Ht. discriminate Ht.
Defined.

Lemma scaleTarget_bounds_witness : scaleTarget 2 (-5) 1 = 1 /\ 1 <= scaleTarget 2 (-5) 1.
Proof.
  split; [reflexivity|]. set (a := mkAction "scale" [] 0 (-5) 1 "" "" "" false).
  assert (action_ok a) as Ha by (right; right; left; split; [reflexivity|]; simpl; unfold maxScaleStep; lia).
  destruct (scaleTarget_bounds a 2 Ha eq_refl ltac:(lia)) as [H _]. exact H.
Defined.

Lemma Sweep_spec_witness :
  parts_ok (metrics (Sweep two_names at_demo)) /\ is_Some (parts (metrics (Sweep two_names at_demo)) !! 20648).
Proof.
  destruct (Sweep_spec two_names at_demo (demo_parts _ (or_intror eq_refl))) as (H1 & _ & H3 & _); [vm_compute; discriminate|].
  split; [exact H1|]. exact H3.
Defined.

Lemma CreateMonitor_roundtrip_witness :
  exists m d, CreateMonitor blank_db rule_demo "1" at_demo = Ok (d, m) /\ MonitorByID d "mon_1" = Ok (read_back m).
Proof.
  destruct (CreateMonitor blank_db rule_demo "1" at_demo) as [[d m]|e] eqn:E; [|vm_compute in E; discriminate E].
  exists m, d. split; [reflexivity|]. destruct (CreateMonitor_roundtrip blank_db d rule_demo m "1" at_demo E) as (_ & _ & H & _).
  apply CreateMonitor_inv in E as (v & _ & -> & _). exact H.
Defined.

Lemma monitor_visibility_witness :
  the_rule two_names ∈ ListMonitors two_names false ["prod"] /\ ~ the_rule two_names ∈ ListMonitors two_names false ["staging"].
Proof.
  assert (mEnvID (the_rule two_names) = "prod" /\ mID (the_rule two_names) = "mon_1" /\ MonitorByID two_names "mon_1" = Ok (the_rule two_names)) as (He & Hi & Hm)
    by (repeat split; vm_compute; reflexivity).
  split.
  - apply (monitor_visibility two_names ["prod"] 10 (the_rule two_names) (the_alert two_names) (proj1 (tables_ok _))). rewrite Hi, He. split; [exact Hm|split; [discriminate|left]].
  - intros H. apply (monitor_visibility two_names ["staging"] 10 (the_rule two_names) (the_alert two_names) (proj1 (tables_ok _))) in H as (_ & _ & H).
    rewrite He in H. apply list_elem_of_singleton in H. discriminate H.
Defined.
