(* ===== verification/Watch.v ===== *)
(** * What a push must touch: the watch patterns of a stack

    Models [internal/stacks/watch.go]. A pattern is compiled to a regular
    expression; the ones [globRegexp] writes are sequences of the five items
    below, anchored at both ends, which [MatchString] tries on the code points
    of a name. *)
From S2P Require Import Prelude GoStd Paths.
Local Open Scope string_scope.
Local Open Scope list_scope.
Local Open Scope daffa_scope.
Local Open Scope Z_scope.

(** ** The code *)

Definition watch_sep (c : ascii) : bool := bool_decide (c = "010"%char) || bool_decide (c = "013"%char) || bool_decide (c = ","%char).

Definition WatchPatterns (watchPaths composePath : string) : list string :=
  match List.filter (fun p => negb (bool_decide (p = ""))) (map strings.TrimSpace (strings.FieldsFunc watchPaths watch_sep)) with
  | [] => [if bool_decide (composePath = "") then "docker-compose.yml" else composePath]
  | out => out
  end.

(** The items: a literal code point, [.*], [/?], [[^/]*] and [[^/]]. *)
Inductive Item := ILit (r : Z) | IAny | ISlashOpt | ISeg | IOne.

(** The loop over the bytes of a pattern. A byte becomes the code point of the
    same number: [QuoteMeta(string(c))]. *)
Fixpoint globRegexp (p : string) : list Item :=
  match p with
  | "" => []
  | String "*" p1 =>
      match p1 with
      | String "*" p2 => IAny :: match p2 with String "/" p3 => ISlashOpt :: globRegexp p3 | _ => globRegexp p2 end
      | _ => ISeg :: globRegexp p1
      end
  | String "?" p1 => IOne :: globRegexp p1
  | String c p1 => ILit (utf8.byte_val c) :: globRegexp p1
  end.

Definition slash_rune : Z := 47.
Definition newline : Z := 10.
Definition not_slash (r : Z) : bool := negb (r =? slash_rune).

(** As many code points satisfying [p] as the rest of the expression leaves. *)
Fixpoint star (p : Z -> bool) (k : list Z -> bool) (l : list Z) : bool :=
  k l || match l with [] => false | x :: l' => p x && star p k l' end.

(** [MatchString] of an anchored expression; [.] does not match a newline. *)
Fixpoint MatchString (re : list Item) (l : list Z) : bool :=
  match re with
  | [] => bool_decide (l = [])
  | ILit c :: re => match l with x :: l => (x =? c) && MatchString re l | [] => false end
  | IOne :: re => match l with x :: l => not_slash x && MatchString re l | [] => false end
  | ISeg :: re => star not_slash (MatchString re) l
  | IAny :: re => star (fun x => negb (x =? newline)) (MatchString re) l
  | ISlashOpt :: re => MatchString re l || match l with x :: l => (x =? slash_rune) && MatchString re l | [] => false end
  end.

Definition matchGlob (pattern name : string) : bool :=
  let pattern := strings.TrimPrefix (strings.TrimSpace pattern) "/" in
  if bool_decide (pattern = "") then false
  else
    let pattern := if strings.HasSuffix pattern "/" then pattern +:+ "**" else pattern in
    MatchString (globRegexp pattern) (utf8.runes name).

Definition clean_name (f : string) : string := strings.TrimPrefix (path.Clean f) "/".

Definition Matches (changed patterns : list string) : bool :=
  existsb (fun f => existsb (fun p => matchGlob p (clean_name f)) patterns) changed.

(** The file a deploy reads at that path: [resolveGit]. *)
Definition resolved_file (composePath : string) : string :=
  path.Clean (strings.TrimPrefix (if bool_decide (composePath = "") then "docker-compose.yml" else composePath) "/").

(** ** The language of an expression *)

Definition item_lang (i : Item) (l : list Z) : Prop :=
  match i with
  | ILit c => l = [c]
  | IOne => exists x, l = [x] /\ x <> slash_rune
  | ISeg => Forall (fun x => x <> slash_rune) l
  | IAny => Forall (fun x => x <> newline) l
  | ISlashOpt => l = [] \/ l = [slash_rune]
  end.

Fixpoint lang (re : list Item) (l : list Z) : Prop :=
  match re with
  | [] => l = []
  | i :: re => exists l1 l2, l = l1 ++ l2 /\ item_lang i l1 /\ lang re l2
  end.

Lemma star_spec p k l : star p k l = true <-> exists l1 l2, l = l1 ++ l2 /\ Forall (fun x => p x = true) l1 /\ k l2 = true.
Proof.
  induction l as [|x l IH]; simpl.
  - rewrite orb_false_r. split; [intros H; by exists [], []|]. intros (l1 & l2 & E & _ & H). symmetry in E. by apply app_eq_nil in E as [_ ->].
  - rewrite orb_true_iff, andb_true_iff, IH. split.
    + intros [H|(Hx & l1 & l2 & -> & H1 & H2)]; [by exists [], (x :: l)|]. exists (x :: l1), l2. split; [done|]. split; [by constructor|done].
    + intros ([|y l1] & l2 & E & H1 & H2); simpl in E; [left; by rewrite E|]. injection E as <- ->. right.
      apply Forall_cons in H1 as [Hx H1]. split; [done|]. eauto.
Qed.

Lemma not_slash_true x : not_slash x = true <-> x <> slash_rune.
Proof. unfold not_slash. rewrite negb_true_iff, Z.eqb_neq. done. Qed.

Lemma not_newline_true x : negb (x =? newline) = true <-> x <> newline.
Proof. rewrite negb_true_iff, Z.eqb_neq. done. Qed.
Lemma Forall_bool {A} (f : A -> bool) (P : A -> Prop) : (forall x, f x = true <-> P x) -> forall l, Forall (fun x => f x = true) l <-> Forall P l.
Proof. intros H l. rewrite !Forall_forall. by setoid_rewrite H. Qed.

Lemma MatchString_lang re : forall l, MatchString re l = true <-> lang re l.
Proof.
  induction re as [|i re IH]; intros l; simpl; [by rewrite bool_decide_eq_true|].
  destruct i; simpl.
  - destruct l as [|x l].
    + split; [done|]. by intros (? & ? & E & -> & _).
    + rewrite andb_true_iff, Z.eqb_eq, IH. split; [intros [-> H]; by exists [r], l|]. intros (? & ? & E & -> & H). simpl in E. by injection E as -> ->.
  - rewrite star_spec. setoid_rewrite IH. by setoid_rewrite (Forall_bool _ _ (not_newline_true)).
  - rewrite orb_true_iff, IH. split.
    + intros [H|H]; [by exists [], l; auto|]. destruct l as [|x l]; [done|]. apply andb_prop in H as [Hx H]. apply Z.eqb_eq in Hx as ->.
      apply IH in H. exists [slash_rune], l. auto.
    + intros (l1 & l2 & -> & [-> | ->] & H); [by left|right]. simpl. by apply IH.
  - rewrite star_spec. setoid_rewrite IH. by setoid_rewrite (Forall_bool _ _ not_slash_true).
  - destruct l as [|x l].
    + split; [done|]. by intros (? & ? & E & (? & -> & _) & _).
    + rewrite andb_true_iff, not_slash_true, IH. split; [intros [Hx H]; exists [x], l; eauto|]. intros (? & ? & E & (y & -> & Hy) & H). simpl in E. by injection E as -> ->.
Qed.

Lemma lang_app r1 r2 l : lang (r1 ++ r2) l <-> exists l1 l2, l = l1 ++ l2 /\ lang r1 l1 /\ lang r2 l2.
Proof.
  revert l. induction r1 as [|i r1 IH]; intros l; simpl.
  - split; [intros H; by exists [], l|]. by intros (? & ? & -> & -> & H).
  - setoid_rewrite IH. split.
    + intros (l1 & l2 & -> & H1 & l3 & l4 & -> & H3 & H4). exists (l1 ++ l3), l4. rewrite <- app_assoc. split; [done|]. split; [|done]. eauto 10.
    + intros (l1 & l2 & -> & (l3 & l4 & -> & H3 & H4) & H2). exists l3, (l4 ++ l2). rewrite <- app_assoc. split; [done|]. split; [done|]. eauto.
Qed.

(** ** What [globRegexp] writes *)

Lemma glob_star p : strings.HasPrefix p "*" = false -> globRegexp (String "*" p) = ISeg :: globRegexp p.
Proof. destruct p as [|c p]; [done|]. destruct c as [[] [] [] [] [] [] [] []]; try reflexivity. done. Qed.

Lemma glob_lit c p : c <> "*"%char -> c <> "?"%char -> globRegexp (String c p) = ILit (utf8.byte_val c) :: globRegexp p.
Proof. intros H1 H2. destruct c as [[] [] [] [] [] [] [] []]; try reflexivity; done. Qed.

Definition no_dstar (s : string) : Prop := strings.Contains s "**" = false.

Lemma Contains_app_false a b sub : strings.Contains (a +:+ b) sub = false -> strings.Contains a sub = false /\ strings.Contains b sub = false.
Proof.
  assert (forall x y : string, strings.HasPrefix x sub = true -> strings.HasPrefix (x +:+ y) sub = true) as Hp.
  { intros x y. rewrite !HasPrefix_spec. intros [t ->]. exists (t +:+ y). by rewrite app_assoc_s. }
  induction a as [|c a IH]; intros H.
  - split; [|done]. destruct sub as [|d sub]; [|done]. by destruct b.
  - rewrite app_cons_s in H. simpl in H. apply orb_false_elim in H as [H1 H2]. destruct (IH H2) as [H3 H4]. split; [|done].
    simpl strings.Contains. rewrite H3, orb_false_r. destruct (strings.HasPrefix (String c a) sub) eqn:E; [|done].
    apply Hp with (y := b) in E. rewrite app_cons_s in E. congruence.
Qed.

Lemma no_dstar_cons c s : no_dstar (String c s) -> no_dstar s /\ (c = "*"%char -> strings.HasPrefix s "*" = false).
Proof.
  unfold no_dstar. intros H. split.
  - by apply (Contains_app_false (String c "") s).
  - intros ->. change (strings.Contains (String "*" s) "**") with (strings.HasPrefix (String "*" s) "**" || strings.Contains s "**") in H.
    apply orb_false_elim in H as [H _]. destruct s as [|d s]; [done|]. simpl in *. by case_bool_decide.
Qed.

(** What [*] and [?] mean inside one segment. *)
Inductive wild : string -> list Z -> Prop :=
| wild_nil : wild "" []
| wild_star_none p l : wild p l -> wild (String "*" p) l
| wild_star_more p x l : x <> slash_rune -> wild (String "*" p) l -> wild (String "*" p) (x :: l)
| wild_one p x l : x <> slash_rune -> wild p l -> wild (String "?" p) (x :: l)
| wild_lit c p l : c <> "*"%char -> c <> "?"%char -> wild p l -> wild (String c p) (utf8.byte_val c :: l).

Lemma wild_star p l : wild (String "*" p) l <-> exists l1 l2, l = l1 ++ l2 /\ Forall (fun x => x <> slash_rune) l1 /\ wild p l2.
Proof.
  split.
  - intros H. remember (String "*" p) as q eqn:E. induction H; simplify_eq; try done.
    + by exists [], l.
    + destruct (IHwild eq_refl) as (l1 & l2 & -> & H1 & H2). exists (x :: l1), l2. split; [done|]. split; [by constructor|done].
  - intros (l1 & l2 & -> & H1 & H2). induction H1; [by constructor|]. by constructor.
Qed.

Lemma byte_val_inj c d : utf8.byte_val c = utf8.byte_val d -> c = d.
Proof. intros H. rewrite <- (ascii_nat_embedding c), <- (ascii_nat_embedding d). f_equal. by apply Nat2Z.inj. Qed.

Lemma glob_wild s : no_char slash s -> no_dstar s -> forall l, lang (globRegexp s) l <-> wild s l.
Proof.
  induction s as [|c s IH]; intros Hs Hd l.
  { simpl. split; [intros ->; constructor|by inversion 1]. }
  unfold no_char in Hs. simpl in Hs. apply orb_false_elim in Hs as [_ Hs]. apply no_dstar_cons in Hd as [Hd Hst]. specialize (IH Hs Hd).
  destruct (decide (c = "*"%char)) as [->|Hc1].
  - rewrite glob_star by auto. rewrite wild_star. simpl. by setoid_rewrite IH.
  - destruct (decide (c = "?"%char)) as [->|Hc2].
    + simpl. setoid_rewrite IH. split.
      * intros (l1 & l2 & -> & (x & -> & Hx) & H). by apply (wild_one s x l2).
      * intros H. inversion H; subst; try done. exists [x], l0. split; [done|]. eauto.
    + rewrite glob_lit by done. simpl. setoid_rewrite IH. split.
      * intros (l1 & l2 & -> & -> & H). by apply (wild_lit c s l2).
      * intros H. inversion H; subst; try done. by exists [utf8.byte_val c], l0.
Qed.

Lemma wild_no_slash s l : no_char slash s -> wild s l -> slash_rune ∉ l.
Proof.
  intros Hs H. induction H; rewrite ?not_elem_of_cons; try (by apply not_elem_of_nil).
  - apply IHwild. unfold no_char in *. simpl in Hs. by bd.
  - split; [done|by apply IHwild].
  - split; [done|apply IHwild]. unfold no_char in *. simpl in Hs. by bd.
  - unfold no_char in *. simpl in Hs. bd. split; [|by apply IHwild]. intros E. apply (byte_val_inj slash) in E. congruence.
Qed.

(** The segments of a name, as code points. *)
Fixpoint rune_segs (l : list Z) : list (list Z) :=
  match l with
  | [] => [[]]
  | x :: l => if x =? slash_rune then [] :: rune_segs l
              else match rune_segs l with h :: t => (x :: h) :: t | [] => [[x]] end
  end.

Lemma rune_segs_cons l : exists h t, rune_segs l = h :: t /\ (slash_rune ∉ h) /\
  ((t = [] /\ l = h) \/ exists l2, l = h ++ slash_rune :: l2 /\ t = rune_segs l2).
Proof.
  induction l as [|x l (h & t & E & Hh & H)]; simpl.
  - exists [], []. split; [done|]. split; [apply not_elem_of_nil|by left].
  - destruct (x =? slash_rune) eqn:Ex.
    + apply Z.eqb_eq in Ex as ->. exists [], (rune_segs l). split; [done|]. split; [apply not_elem_of_nil|]. right. by exists l.
    + apply Z.eqb_neq in Ex. rewrite E. exists (x :: h), t. split; [done|]. split; [rewrite not_elem_of_cons; auto|].
      destruct H as [[-> ->]|(l2 & -> & ->)]; [by left|right; by exists l2].
Qed.

Lemma rune_segs_app h l2 : slash_rune ∉ h -> rune_segs (h ++ slash_rune :: l2) = h :: rune_segs l2.
Proof.
  induction h as [|x h IH]; intros Hh; [done|]. apply not_elem_of_cons in Hh as [Hx Hh]. simpl. rewrite (proj2 (Z.eqb_neq _ _)) by done. by rewrite IH.
Qed.
Lemma rune_segs_one h : slash_rune ∉ h -> rune_segs h = [h].
Proof.
  induction h as [|x h IH]; intros Hh; [done|]. apply not_elem_of_cons in Hh as [Hx Hh]. simpl. rewrite (proj2 (Z.eqb_neq _ _)) by done. by rewrite IH.
Qed.

Lemma glob_app_seg s t : no_dstar s -> globRegexp (s +:+ String slash t) = globRegexp s ++ ILit slash_rune :: globRegexp t.
Proof.
  induction s as [|c s IH]; intros Hd; [done|]. rewrite app_cons_s. apply no_dstar_cons in Hd as [Hd Hst].
  destruct (decide (c = "*"%char)) as [->|Hc1].
  - rewrite !glob_star; [by rewrite IH|by auto|]. specialize (Hst eq_refl). destruct s; [done|]. done.
  - destruct (decide (c = "?"%char)) as [->|Hc2]; [simpl; by rewrite IH|]. rewrite !glob_lit by done. by rewrite IH.
Qed.

Lemma glob_segments segs : segs <> [] -> Forall (fun s => no_char slash s /\ no_dstar s) segs ->
  forall l, lang (globRegexp (strings.Join segs "/")) l <-> Forall2 wild segs (rune_segs l).
Proof.
  intros Hne Hall. induction Hall as [|s segs [Hs Hd] Hall IH]; [done|]. intros l. destruct segs as [|s2 segs].
  - simpl strings.Join. rewrite glob_wild by done. split.
    + intros H. rewrite rune_segs_one by (by eapply wild_no_slash). by repeat constructor.
    + intros H. destruct (rune_segs_cons l) as (h & t & E & _ & [[-> ->]|(l2 & -> & ->)]); rewrite E in H; inversion H as [|? ? ? ? Hw Hr]; subst; [done|].
      inversion Hr. destruct (rune_segs_cons l2) as (? & ? & E2 & _). congruence.
  - rewrite Join_cons. change ("/" +:+ strings.Join (s2 :: segs) "/") with (String slash (strings.Join (s2 :: segs) "/")).
    rewrite glob_app_seg by done. rewrite lang_app. split.
    + intros (l1 & l2 & -> & H1 & (l3 & l4 & -> & -> & H4)). apply glob_wild in H1; [|done..]. simpl app.
      rewrite rune_segs_app by (by eapply wild_no_slash). constructor; [done|]. by apply IH.
    + intros H. destruct (rune_segs_cons l) as (h & t & E & _ & [[-> ->]|(l2 & -> & ->)]); rewrite E in H; inversion H as [|? ? ? ? Hw Hr]; subst; [by inversion Hr|].
      exists h, (slash_rune :: l2). split; [done|]. split; [by apply glob_wild|]. exists [slash_rune], l2. split; [done|]. split; [done|]. by apply IH.
Qed.

Lemma no_dstar_Split s : no_dstar s -> Forall (fun x => no_char slash x /\ no_dstar x) (strings.Split s slash).
Proof.
  intros H. rewrite <- (Join_Split s slash) in H. pose proof (Split_no_char s slash) as Hn. revert H Hn. generalize (strings.Split s slash) as l.
  change (String slash "") with "/". induction l as [|x l IH]; intros H Hn; [constructor|]. apply Forall_cons in Hn as [Hx Hn]. destruct l as [|y l].
  - by repeat constructor.
  - rewrite Join_cons in H. apply Contains_app_false in H as [H1 H2]. apply Contains_app_false in H2 as [_ H2]. constructor; [done|]. by apply IH.
Qed.

(** ** Properties *)

(** A pattern without [**] is matched segment by segment: the name has as
    many segments as the pattern, [*] stands for any run of characters of its
    segment and [?] for one of them. *)
Theorem watch_segments (p name : string) :
  strings.TrimSpace p = p -> p <> "" -> path.IsAbs p = false -> strings.HasSuffix p "/" = false -> no_dstar p ->
  matchGlob p name = true <-> Forall2 wild (strings.Split p slash) (rune_segs (utf8.runes name)).
Proof.
  intros Ht Hne Ha Hs Hd. unfold matchGlob. rewrite Ht. assert (strings.TrimPrefix p "/" = p) as -> by (unfold strings.TrimPrefix, path.IsAbs in *; by rewrite Ha).
  rewrite bool_decide_eq_false_2 by done. rewrite Hs, MatchString_lang. rewrite <- (Join_Split p slash) at 1. change (String slash "") with "/".
  apply glob_segments; [apply Split_not_nil|by apply no_dstar_Split].
Qed.

(** A pattern, or a piece of one, in which every character stands for itself. *)
Definition literal_char (c : ascii) : bool :=
  negb (bool_decide (c = "*"%char)) && negb (bool_decide (c = "?"%char)) && (utf8.byte_val c <? 128).
Definition literal (s : string) : Prop := Forall (fun c => literal_char c = true) (String.list_ascii_of_string s).
Definition bytes_of (s : string) : list Z := map utf8.byte_val (String.list_ascii_of_string s).

Lemma list_ascii_app a b : String.list_ascii_of_string (a +:+ b) = String.list_ascii_of_string a ++ String.list_ascii_of_string b.
Proof. induction a as [|c a IH]; [done|]. rewrite app_cons_s. simpl. by rewrite IH. Qed.

Lemma literal_app a b : literal (a +:+ b) <-> literal a /\ literal b.
Proof. unfold literal. rewrite list_ascii_app. apply Forall_app. Qed.

Lemma glob_literal d s : literal d -> globRegexp (d +:+ s) = map ILit (bytes_of d) ++ globRegexp s.
Proof.
  unfold literal, bytes_of. induction d as [|c d IH]; intros H; [done|]. apply Forall_cons in H as [Hc H]. unfold literal_char in Hc. bd.
  rewrite app_cons_s, glob_lit by done. simpl. by rewrite IH.
Qed.

Lemma glob_literal_all d : literal d -> globRegexp d = map ILit (bytes_of d) ++ [].
Proof. intros H. pose proof (glob_literal d "" H) as E. by rewrite app_nil_s in E. Qed.

Lemma lang_literal b re l : lang (map ILit b ++ re) l <-> exists r, l = b ++ r /\ lang re r.
Proof.
  revert l. induction b as [|x b IH]; intros l; simpl.
  - split; [intros H; by exists l|]. by intros (r & -> & H).
  - setoid_rewrite IH. split; [intros (? & ? & -> & -> & r & -> & H); by exists r|]. intros (r & -> & H). exists [x], (b ++ r). eauto.
Qed.

(** A code point below 128 at the head of a name is its first byte. *)
Lemma runes_ascii c s : utf8.byte_val c < 128 -> utf8.runes (String c s) = utf8.byte_val c :: utf8.runes s.
Proof. intros H. simpl. by rewrite (proj2 (Z.ltb_lt _ _)). Qed.

Lemma no_char_elem c s : no_char c s -> c ∉ String.list_ascii_of_string s.
Proof.
  unfold no_char. induction s as [|b s IH]; simpl; intros H; [by apply not_elem_of_nil|]. bd. apply not_elem_of_cons. split; [congruence|auto].
Qed.

Lemma accept3_ge x y : 224 <= x -> utf8.accept3 x y = true -> 2048 <= (x - 224) * 4096 + (y - 128) * 64.
Proof. unfold utf8.accept3. intros Hx H. destruct (x =? 224) eqn:E; bd; [apply Z.eqb_eq in E|apply Z.eqb_neq in E]; lia. Qed.
Lemma accept4_ge x y : 240 <= x -> utf8.accept4 x y = true -> 65536 <= (x - 240) * 262144 + (y - 128) * 4096.
Proof. unfold utf8.accept4. intros Hx H. destruct (x =? 240) eqn:E; bd; [apply Z.eqb_eq in E|apply Z.eqb_neq in E]; lia. Qed.

Lemma runes_head c s : 128 <= utf8.byte_val c -> exists r l, utf8.runes (String c s) = r :: l /\ 128 <= r.
Proof.
  intros Hc. assert (forall l, exists r l', utf8.RuneError :: l = r :: l' /\ 128 <= r) as Herr by (intros l; exists utf8.RuneError, l; by split).
  unfold utf8.runes; fold utf8.runes. rewrite (proj2 (Z.ltb_ge _ _)) by done.
  destruct s as [|c1 s2]; [apply Herr|]. destruct ((_ && _) && _) eqn:E1.
  { eexists _, _. split; [done|]. unfold utf8.cont in *. bd. lia. }
  destruct s2 as [|c2 s3]; [apply Herr|]. destruct ((_ && _) && _) eqn:E2 in |- *.
  { eexists _, _. split; [done|]. bd. match goal with H : utf8.accept3 _ _ = true |- _ => apply accept3_ge in H; [|done] end. unfold utf8.cont in *. bd. lia. }
  destruct s3 as [|c3 s4]; [apply Herr|]. destruct ((_ && _) && _) eqn:E3 in |- *; [|apply Herr].
  eexists _, _. split; [done|]. bd. match goal with H : utf8.accept4 _ _ = true |- _ => apply accept4_ge in H; [|done] end. unfold utf8.cont in *. bd. lia.
Qed.

Lemma runes_literal d name r : literal d -> utf8.runes name = bytes_of d ++ r <-> exists t, name = d +:+ t /\ utf8.runes t = r.
Proof.
  unfold literal, bytes_of. revert name. induction d as [|c d IH]; intros name H; simpl.
  - split; [intros <-; by exists name|]. by intros (t & -> & H').
  - apply Forall_cons in H as [Hc H]. unfold literal_char in Hc. bd. split.
    + destruct name as [|c' name]; [done|]. destruct (Z.le_gt_cases 128 (utf8.byte_val c')) as [Hge|Hlt].
      * destruct (runes_head c' name Hge) as (x & l & E & Hx). rewrite E. intros [= -> _]. lia.
      * rewrite runes_ascii by done. intros [= Hcc Hr]. apply byte_val_inj in Hcc as ->. apply IH in Hr as (t & -> & Ht); [|done]. by exists t.
    + intros (t & -> & Ht). rewrite app_cons_s, runes_ascii by done. f_equal. apply IH; [done|]. by exists t.
Qed.

Definition trimmed (p : string) : Prop := strings.TrimSpace p = p /\ p <> "" /\ path.IsAbs p = false.

Lemma matchGlob_eq p name : trimmed p -> matchGlob p name = MatchString (globRegexp (if strings.HasSuffix p "/" then p +:+ "**" else p)) (utf8.runes name).
Proof.
  intros (Ht & Hne & Ha). unfold matchGlob. rewrite Ht. assert (strings.TrimPrefix p "/" = p) as -> by (unfold strings.TrimPrefix, path.IsAbs in *; by rewrite Ha).
  by rewrite bool_decide_eq_false_2.
Qed.

Lemma runes_nil s : utf8.runes s = [] -> s = "".
Proof. destruct s as [|c s]; [done|]. destruct (Z.le_gt_cases 128 (utf8.byte_val c)) as [Hge|Hlt]; [destruct (runes_head c s Hge) as (? & ? & -> & _); done|by rewrite runes_ascii]. Qed.

Lemma match_literal p name : trimmed p -> literal p -> strings.HasSuffix p "/" = false -> matchGlob p name = true <-> name = p.
Proof.
  intros Ht Hl Hs. rewrite matchGlob_eq, Hs, MatchString_lang by done. rewrite <- (app_nil_s p) at 1. rewrite glob_literal by done. simpl globRegexp.
  rewrite lang_literal. split.
  - intros (r & Hr & ->). rewrite app_nil_r in Hr. apply (runes_literal p name []) in Hl as [Hl _]. rewrite app_nil_r in Hl.
    apply Hl in Hr as (t & -> & ->%runes_nil). apply app_nil_s.
  - intros ->. exists []. split; [|done]. apply runes_literal; [done|]. exists "". by rewrite app_nil_s.
Qed.

Lemma match_under d name : trimmed (d +:+ "/") -> literal d ->
  let under_d := exists t, name = d +:+ "/" +:+ t /\ newline ∉ utf8.runes t in
  (strings.HasSuffix (d +:+ "/") "/" = true -> matchGlob (d +:+ "/") name = true <-> under_d) /\
  (trimmed (d +:+ "/**") -> strings.HasSuffix (d +:+ "/**") "/" = false -> matchGlob (d +:+ "/**") name = true <-> under_d).
Proof.
  intros Ht Hl under_d. assert (literal (d +:+ "/")) as Hl' by (apply literal_app; split; [done|by repeat constructor]).
  assert (MatchString (globRegexp ((d +:+ "/") +:+ "**")) (utf8.runes name) = true <-> under_d) as Hm.
  { rewrite MatchString_lang, glob_literal by done. rewrite lang_literal. unfold under_d. split.
    - intros (r & Hr & l1 & l2 & -> & H1 & ->). rewrite app_nil_r in Hr. apply runes_literal in Hr as (t & -> & <-); [|done].
      exists t. rewrite app_assoc_s. split; [done|]. simpl in H1. rewrite Forall_forall in H1. by intros H%H1.
    - intros (t & -> & Hn). exists (utf8.runes t). split; [apply runes_literal; [done|]; exists t; by rewrite app_assoc_s|].
      exists (utf8.runes t), []. rewrite app_nil_r. split; [done|]. split; [|done]. simpl. apply Forall_forall. by intros x Hx ->. }
  split.
  - intros Hs. by rewrite matchGlob_eq, Hs.
  - intros Ht' Hs. rewrite matchGlob_eq, Hs by done. by rewrite app_assoc_s in Hm.
Qed.

Lemma drop_app_n d n t : strings.drop (String.length d + n) (d +:+ t) = strings.drop n t.
Proof. induction d as [|c d IH]; [done|]. rewrite app_cons_s. simpl. apply IH. Qed.

Lemma HasSuffix_app d t suf : (String.length suf <= String.length t)%nat -> strings.HasSuffix (d +:+ t) suf = strings.HasSuffix t suf.
Proof.
  intros H. unfold strings.HasSuffix. rewrite length_app_s. rewrite !(proj2 (Nat.leb_le _ _)) by lia.
  replace (String.length d + String.length t - String.length suf)%nat with (String.length d + (String.length t - String.length suf))%nat by lia.
  by rewrite drop_app_n.
Qed.

(** A directory, written with or without [**], stands for exactly what lies
    under it, at any depth (a name with a line break in it apart). *)
Theorem watch_directory (d name : string) :
  literal d -> trimmed (d +:+ "/") -> trimmed (d +:+ "/**") ->
  matchGlob (d +:+ "/") name = matchGlob (d +:+ "/**") name /\
  (matchGlob (d +:+ "/**") name = true <-> exists t, name = d +:+ "/" +:+ t /\ newline ∉ utf8.runes t).
Proof.
  intros Hl H1 H2. destruct (match_under d name H1 Hl) as [M1 M2].
  assert (strings.HasSuffix (d +:+ "/") "/" = true) as S1 by (rewrite HasSuffix_app; [done|simpl; lia]).
  assert (strings.HasSuffix (d +:+ "/**") "/" = false) as S2 by (rewrite HasSuffix_app; [done|simpl; lia]).
  split; [|by apply M2]. apply bool_iff. by rewrite M1, M2.
Qed.

Lemma WatchPatterns_default w c : (forall s, s ∈ strings.FieldsFunc w watch_sep -> strings.TrimSpace s = "") -> c <> "" -> WatchPatterns w c = [c].
Proof.
  intros H Hc. unfold WatchPatterns. destruct (List.filter _ _) as [|x l] eqn:E; [by rewrite bool_decide_eq_false_2|].
  assert (x ∈ x :: l) as Hx by (by left). rewrite <- E in Hx. apply elem_of_filter_b in Hx as [(s & -> & Hs)%list_elem_of_fmap Hn]. bd. by apply H in Hs.
Qed.

Lemma Matches_one changed c : trimmed c -> literal c -> strings.HasSuffix c "/" = false ->
  Matches changed [c] = true <-> exists f, f ∈ changed /\ clean_name f = c.
Proof.
  intros Ht Hl Hs. unfold Matches. rewrite existsb_elem. do 2 f_equiv. simpl. by rewrite orb_false_r, match_literal.
Qed.

(** A stack with no patterns of its own watches its compose file and nothing
    else, for a plain compose path. *)
Theorem default_watch (w c : string) (changed : list string) :
  (forall s, s ∈ strings.FieldsFunc w watch_sep -> strings.TrimSpace s = "") ->
  trimmed c -> literal c -> strings.HasSuffix c "/" = false ->
  Matches changed (WatchPatterns w c) = true <-> exists f, f ∈ changed /\ clean_name f = c.
Proof. intros Hw Ht Hl Hs. rewrite WatchPatterns_default; [by apply Matches_one|done|apply Ht]. Qed.

Lemma clean_name_segs f : Forall (fun x => x <> ".") (strings.Split (clean_name f) slash) \/ clean_name f = ".".
Proof.
  unfold clean_name. pose proof (segs_of_ok f) as Hok. assert (Forall (fun x => x <> ".") (segs_of f)) as Hf.
  { apply Forall_forall. intros x Hx. by destruct (cleaned_seg _ _ x Hok Hx). }
  destruct (path.IsAbs f) eqn:E.
  - left. rewrite Split_Clean_abs by done. destruct (segs_of f); [by repeat constructor|done].
  - assert (strings.TrimPrefix (path.Clean f) "/" = path.Clean f) as ->.
    { pose proof (Clean_abs f) as Ha. rewrite E in Ha. unfold strings.TrimPrefix, path.IsAbs in *. by rewrite Ha. }
    rewrite Split_Clean by done. destruct (segs_of f) eqn:Es; [|by left]. right. by rewrite Clean_form, E, Es.
Qed.

Lemma clean_name_no_dot f t : clean_name f <> "./" +:+ t.
Proof.
  intros E. destruct (clean_name_segs f) as [H|H]; rewrite E in H; [|done].
  change ("./" +:+ t) with ("." +:+ String slash t) in H. rewrite Split_app_any in H. by inversion H.
Qed.

(** But the pattern is compared with cleaned names and is not cleaned itself,
    while the deploy cleans the path before it reads the file: a stack whose
    compose path is written [./p] deploys [p], and no push ever triggers it. *)
Theorem uncleaned_default_never_matches (p : string) (changed : list string) :
  trimmed ("./" +:+ p) -> literal p -> strings.HasSuffix ("./" +:+ p) "/" = false -> path.IsAbs p = false -> path.Clean p = p ->
  resolved_file ("./" +:+ p) = p /\ Matches changed (WatchPatterns "" ("./" +:+ p)) = false.
Proof.
  intros Ht Hl Hs Ha Hc. split.
  - unfold resolved_file. rewrite bool_decide_eq_false_2 by done. change (strings.TrimPrefix ("./" +:+ p) "/") with ("./" +:+ p).
    rewrite <- Hc at 2. rewrite !Clean_form, Ha. change (path.IsAbs ("./" +:+ p)) with false.
    assert (segs_of ("./" +:+ p) = segs_of p) as ->; [|done]. unfold segs_of. rewrite Ha. change (path.IsAbs ("./" +:+ p)) with false.
    change ("./" +:+ p) with ("." +:+ String slash p). by rewrite Split_app_any.
  - rewrite WatchPatterns_default by (done || by intros ? ?%elem_of_nil). apply not_true_iff_false. rewrite Matches_one; [|done| |done].
    + intros (f & _ & E). by apply clean_name_no_dot in E.
    + apply literal_app. split; [by repeat constructor|done].
Qed.

(** [d/**/x] is meant for an [x] anywhere under [d]; the slash of [**/] is
    optional in the expression, so it also takes every name that merely ends in
    [x]. *)
Theorem double_star_overmatches (d w x : string) :
  literal d -> literal w -> literal x -> no_char slash w -> no_char "010" w ->
  trimmed (d +:+ "/**/" +:+ x) -> strings.HasSuffix (d +:+ "/**/" +:+ x) "/" = false ->
  matchGlob (d +:+ "/**/" +:+ x) (d +:+ "/" +:+ w +:+ x) = true.
Proof.
  intros Hd Hw Hx Hws Hwn Ht Hs. rewrite matchGlob_eq, Hs, MatchString_lang by done. rewrite <- (app_assoc_s d "/" (w +:+ x)).
  change ("/**/" +:+ x) with ("/" +:+ ("**/" +:+ x)). rewrite <- (app_assoc_s d "/" ("**/" +:+ x)).
  assert (literal (d +:+ "/")) as Hl by (apply literal_app; split; [done|by repeat constructor]).
  rewrite glob_literal by done. apply lang_literal. exists (bytes_of w ++ bytes_of x). split.
  - apply runes_literal; [done|]. exists (w +:+ x). split; [done|]. apply runes_literal; [done|]. exists x. split; [done|].
    rewrite <- (app_nil_s x) at 1. rewrite <- (app_nil_r (bytes_of x)). apply runes_literal; [done|]. by exists "".
  - simpl. exists (bytes_of w), (bytes_of x). split; [done|]. split.
    + unfold bytes_of. apply Forall_forall. intros z (c & -> & Hc)%list_elem_of_fmap E. apply (byte_val_inj c "010") in E as ->.
      by apply (no_char_elem _ _ Hwn).
    + exists [], (bytes_of x). split; [done|]. split; [by left|]. rewrite app_empty_s, (glob_literal_all x Hx). apply lang_literal. exists []. by rewrite app_nil_r.
Qed.

(** ** Instances *)

Lemma watch_segments_witness : matchGlob "compose/*.yml" "compose/app.yml" = true /\ matchGlob "compose/*.yml" "compose/sub/app.yml" = false.
Proof.
  assert (forall n, matchGlob "compose/*.yml" n = true <-> Forall2 wild (strings.Split "compose/*.yml" slash) (rune_segs (utf8.runes n))) as H
    by (intros n; apply (watch_segments "compose/*.yml" n); [reflexivity|discriminate|reflexivity|reflexivity|reflexivity]).
  split; [reflexivity|]. apply not_true_iff_false. rewrite H. intros HF. apply Forall2_length in HF. discriminate HF.
Defined.

Lemma watch_directory_witness : matchGlob "config/" "config/a/b.conf" = matchGlob "config/**" "config/a/b.conf" /\ matchGlob "config/**" "config/a/b.conf" = true.
Proof.
  assert (literal "config") as Hl by (repeat constructor).
  assert (trimmed "config/" /\ trimmed "config/**") as [H1 H2] by (repeat split; discriminate).
  destruct (watch_directory "config" "config/a/b.conf" Hl H1 H2) as [H _]. split; [exact H|reflexivity].
Defined.

Lemma default_watch_witness : Matches ["README.md"; "/deploy/./compose.yml"] (WatchPatterns "" "deploy/compose.yml") = true.
Proof.
  apply (default_watch "" "deploy/compose.yml").
  - intros s Hs. apply elem_of_nil in Hs as [].
  - split; [reflexivity|split; [discriminate|reflexivity]].
  - repeat constructor.
  - reflexivity.
  - exists "/deploy/./compose.yml". split; [right; left|reflexivity].
Defined.

Lemma uncleaned_default_never_matches_witness :
  resolved_file "./compose.yml" = "compose.yml" /\ Matches ["compose.yml"] (WatchPatterns "" "./compose.yml") = false.
Proof.
  apply (uncleaned_default_never_matches "compose.yml" ["compose.yml"]); [split; [reflexivity|split; [discriminate|reflexivity]]|repeat constructor|reflexivity..].
Defined.

Lemma double_star_overmatches_witness : matchGlob "svc/**/compose.yml" "svc/old-compose.yml" = true.
Proof.
  apply (double_star_overmatches "svc" "old-" "compose.yml"); [repeat constructor..|reflexivity|reflexivity|split; [reflexivity|split; [discriminate|reflexivity]]|reflexivity].
Defined.
