(* ===== verification/Webhooks.v ===== *)
(** * Webhook deliveries

    Models the delivery half of [internal/api/webhook_handlers.go]: the
    signature, the payload, the verdict on each linked target, what runs in the
    background and what is recorded. [encoding/json], [net/url], HMAC-SHA256,
    [strings.ToLower] and the sealer are parameters. *)
From S2P Require Import Prelude GoStd Paths Watch.
Local Open Scope string_scope.
Local Open Scope list_scope.
Local Open Scope daffa_scope.

(** ** Requests and payloads *)

Record Request := mkRequest { rq_header : string -> string; rq_body : option string }.

Record repoURLs := mkURLs {
  CloneURL : string; SSHURL : string; GitURL : string; HTMLURL : string; URL : string;
  GitHTTPURL : string; GitSSHURL : string; WebURL : string; Homepage : string }.
Record commit := mkCommit { Added : list string; Modified : list string; Removed : list string }.
Record payload := mkPayload {
  pl_ref : string; pl_before : string; pl_after : string; pl_repository : repoURLs; pl_project : repoURLs; pl_commits : list commit }.

Record push := mkPush { p_ref : string; p_test : bool; p_files : list string; p_repos : list string }.

(** What a delivery reads of its targets. *)
Record LStack := mkLStack {
  ls_id : string; ls_name : string; ls_env : string; ls_auto : bool; ls_kind : string; ls_url : string; ls_git_ref : string;
  ls_path : string; ls_watch : string }.
Record LSource := mkLSource {
  lv_id : string; lv_volume : string; lv_env : string; lv_auto : bool; lv_kind : string; lv_url : string; lv_git_ref : string;
  lv_path : string; lv_stack : string }.

Definition firstNonEmpty (a b : string) : string := if bool_decide (a = "") then b else a.

(** [strings.EqualFold(event, "ping")]: none of these four letters folds with
    anything but its other case. *)
Definition is_ping_word (s : string) : bool := bool_decide (strings.ToLowerASCII s = "ping").

Fixpoint add_new (seen : list string) (l : list string) : list string :=
  match l with [] => [] | x :: l => if bool_decide (x ∈ seen) then add_new seen l else x :: add_new (x :: seen) l end.

Section Deliveries.
Context (hmac_hex : string -> string -> string).
Context (open_secret : string -> option string).
Context (unmarshal_payload : string -> option payload).
(** [url.Parse]: host, host name and path. *)
Context (url_parse : string -> option (string * string * string)).
Context (ToLower : string -> string).

(** ** The signature *)

Inductive SigErr := ErrMismatch | ErrToken | ErrNoSignature.

Definition checkHMAC (got body secret : string) : res SigErr unit :=
  if bool_decide (strings.TrimSpace got = hmac_hex secret body) then Ok tt else Err ErrMismatch.

Definition verifySignature (r : Request) (body secret : string) : res SigErr unit :=
  let hub := rq_header r "X-Hub-Signature-256" in
  if negb (bool_decide (hub = "")) then checkHMAC (strings.TrimPrefix hub "sha256=") body secret
  else
    let sig := firstNonEmpty (rq_header r "X-Forgejo-Signature") (rq_header r "X-Gitea-Signature") in
    if negb (bool_decide (sig = "")) then checkHMAC sig body secret
    else
      let tok := rq_header r "X-Gitlab-Token" in
      if negb (bool_decide (tok = "")) then (if bool_decide (tok = secret) then Ok tt else Err ErrToken)
      else Err ErrNoSignature.

Definition isPing (r : Request) : bool :=
  is_ping_word (firstNonEmpty (rq_header r "X-GitHub-Event")
    (firstNonEmpty (rq_header r "X-Forgejo-Event") (firstNonEmpty (rq_header r "X-Gitea-Event") (rq_header r "X-Gitlab-Event")))).

(** ** The payload *)

Definition repoKey (raw : string) : string :=
  let raw := strings.TrimSpace raw in
  if bool_decide (raw = "") then ""
  else
    let host_path :=
      if negb (strings.Contains raw "://") then strings.cut_byte (match strings.after_last raw "@" with Some rest => rest | None => raw end) ":"
      else match url_parse raw with
           | None => None
           | Some (h, name, p) => if bool_decide (h = "") then None else Some (name, p)
           end in
    match host_path with
    | None => ""
    | Some (host, p) =>
        let p := strings.TrimSuffix (strings.Trim p "/") ".git" in
        if bool_decide (host = "") || bool_decide (p = "") then "" else ToLower (host +:+ "/" +:+ p)
    end.

Definition isAPIRepoKey (k : string) : bool :=
  strings.HasPrefix k "api." ||
  let p := match strings.cut_byte k "/" with Some (_, p) => p | None => "" end in
  strings.HasPrefix p "api/v1/repos/" || strings.HasPrefix p "api/v4/projects/".

Definition urls (r : repoURLs) : list string :=
  [CloneURL r; SSHURL r; GitURL r; HTMLURL r; URL r; GitHTTPURL r; GitSSHURL r; WebURL r; Homepage r].

Definition parsePush (body : string) : option push :=
  match unmarshal_payload body with
  | None => None
  | Some pl => Some (mkPush (pl_ref pl) (negb (bool_decide (pl_before pl = "")) && bool_decide (pl_before pl = pl_after pl))
      (add_new [] (flat_map (fun c => Added c ++ Modified c ++ Removed c) (pl_commits pl)))
      (add_new [] (List.filter (fun k => negb (bool_decide (k = "")) && negb (isAPIRepoKey k))
         (map repoKey (urls (pl_repository pl) ++ urls (pl_project pl))))))
  end.

Definition fromRepo (p : push) (gitURL : string) : bool :=
  let want := repoKey gitURL in
  if bool_decide (p_repos p = []) || bool_decide (want = "") then true else bool_decide (want ∈ p_repos p).

Definition norm_ref (s : string) : string := strings.TrimPrefix (strings.TrimPrefix s "refs/heads/") "refs/tags/".
Definition refMatches (pushed tracked : string) : bool := bool_decide (norm_ref pushed = norm_ref tracked).

Definition touchesSubtree (files : list string) (subtree : string) : bool :=
  let dir := path.Clean (strings.TrimPrefix subtree "/") in
  if bool_decide (dir = "") || bool_decide (dir = ".") then true
  else existsb (fun f => under (path.Clean (strings.TrimPrefix f "/")) dir) files.

(** ** The verdicts *)

Inductive TargetKind := KStack | KVolumeSource.
Inductive Status := Deploying | Syncing | Ignored | Covered | Skipped | Failed | Deployed | Synced.
Inductive Reason :=
| NoReason | Paused | NotGit | OtherRepo | OtherRef | NotWatched | ByDeployOf (stack : string) | AlreadyRunning | Cause (e : string).
Record deliveryResult := mkResult {
  dr_kind : TargetKind; dr_id : string; dr_name : string; dr_env : string; dr_status : Status; dr_reason : Reason; dr_deployment : string }.

(** The rules, in the order they are tried. *)
Definition refusal (auto : bool) (kind url ref : string) (touched : bool) (p : push) : option Reason :=
  if negb auto then Some Paused
  else if negb (bool_decide (kind = "git")) then Some NotGit
  else if negb (fromRepo p url) then Some OtherRepo
  else if negb (bool_decide (p_ref p = "")) && negb (bool_decide (ref = "")) && negb (refMatches (p_ref p) ref) then Some OtherRef
  else if (0 <? length (p_files p))%nat && negb touched then Some NotWatched
  else None.

Definition stack_refusal (p : push) (st : LStack) : option Reason :=
  refusal (ls_auto st) (ls_kind st) (ls_url st) (ls_git_ref st) (Matches (p_files p) (WatchPatterns (ls_watch st) (ls_path st))) p.
Definition source_refusal (p : push) (v : LSource) : option Reason :=
  refusal (lv_auto v) (lv_kind v) (lv_url v) (lv_git_ref v) (touchesSubtree (p_files p) (lv_path v)) p.

Definition plan_stack (p : push) (acc : list deliveryResult * gmap string string) (st : LStack) : list deliveryResult * gmap string string :=
  let '(out, deploying) := acc in
  match stack_refusal p st with
  | Some why => (out ++ [mkResult KStack (ls_id st) (ls_name st) (ls_env st) Ignored why ""], deploying)
  | None => (out ++ [mkResult KStack (ls_id st) (ls_name st) (ls_env st) Deploying NoReason ""], <[ls_id st := ls_name st]> deploying)
  end.

Definition plan_source (p : push) (deploying : gmap string string) (out : list deliveryResult) (v : LSource) : list deliveryResult :=
  let r := mkResult KVolumeSource (lv_id v) (lv_volume v) (lv_env v) in
  match source_refusal p v with
  | Some why => out ++ [r Ignored why ""]
  | None =>
      let name := default "" (deploying !! lv_stack v) in
      if negb (bool_decide (name = "")) then out ++ [r Covered (ByDeployOf name) ""] else out ++ [r Syncing NoReason ""]
  end.

Definition planDelivery (p : push) (stacks : list LStack) (sources : list LSource) : list deliveryResult :=
  let '(out, deploying) := fold_left (plan_stack p) stacks ([], ∅) in
  fold_left (plan_source p deploying) sources out.

(** ** Acting on them *)

(** What the background run does to the outside world. *)
Inductive Act := ActDeploy (stack : string) | ActSync (source : string).
Inductive DeployAnswer := RunInProgress | DeployError (e : string) | DeployStarted (id : string).

Definition with_outcome (r : deliveryResult) (s : Status) (why : Reason) (dep : string) : deliveryResult :=
  mkResult (dr_kind r) (dr_id r) (dr_name r) (dr_env r) s why dep.

(** One goroutine of [runDelivery]. *)
Definition run_one (deploy : string -> DeployAnswer) (sync : string -> option string) (r : deliveryResult) : deliveryResult * list Act :=
  match dr_status r with
  | Deploying =>
      (match deploy (dr_id r) with
       | RunInProgress => with_outcome r Skipped AlreadyRunning (dr_deployment r)
       | DeployError e => with_outcome r Failed (Cause e) (dr_deployment r)
       | DeployStarted id => with_outcome r Deployed (dr_reason r) id
       end, [ActDeploy (dr_id r)])
  | Syncing =>
      (match sync (dr_id r) with
       | Some e => with_outcome r Failed (Cause e) (dr_deployment r)
       | None => with_outcome r Synced (dr_reason r) (dr_deployment r)
       end, [ActSync (dr_id r)])
  | _ => (r, [])
  end.

(** They run in parallel on different targets; each rewrites its own verdict. *)
Definition runDelivery (deploy : string -> DeployAnswer) (sync : string -> option string) (results : list deliveryResult) : list deliveryResult * list Act :=
  (map (fun r => (run_one deploy sync r).1) results, flat_map (fun r => (run_one deploy sync r).2) results).

(** ** The handler *)

Inductive EventKind := EvPush | EvPing | EvTest.
Record deliveryRecord := mkRecord { rec_event : EventKind; rec_ref : string; rec_repos : list string; rec_results : list deliveryResult }.
Inductive Reply := ReplyBadRequest | ReplyNotFound | ReplyBadSignature | ReplyServerError | ReplyPong | ReplyIgnored (l : list deliveryResult) | ReplyAccepted (l : list deliveryResult).
Inductive Effect := Denied (why : string) | Recorded (r : deliveryRecord) | Background (l : list deliveryResult).

Definition acts (l : list deliveryResult) : bool :=
  existsb (fun r => match dr_status r with Deploying | Syncing => true | _ => false end) l.

(** [linked] is what the two queries for the linked targets return. *)
Definition deliverWebhook (r : Request) (secretEnc : string) (linked : option (list LStack * list LSource)) : Reply * list Effect :=
  match rq_body r with
  | None => (ReplyBadRequest, [])
  | Some body =>
    match open_secret secretEnc with
    | None | Some "" => (ReplyNotFound, [Denied "secret"])
    | Some secret =>
      match verifySignature r body secret with
      | Err _ => (ReplyBadSignature, [Denied "signature"])
      | Ok _ =>
          if isPing r then (ReplyPong, [Recorded (mkRecord EvPing "" [] [])])
          else match parsePush body with
          | None => (ReplyBadRequest, [])
          | Some p =>
              if p_test p then (ReplyPong, [Recorded (mkRecord EvTest (p_ref p) (p_repos p) [])])
              else match linked with
              | None => (ReplyServerError, [])
              | Some (stacks, sources) =>
                  let results := planDelivery p stacks sources in
                  let rec := Recorded (mkRecord EvPush (p_ref p) (p_repos p) results) in
                  if acts results then (ReplyAccepted results, [rec; Background results]) else (ReplyIgnored results, [rec])
              end
          end
      end
    end
  end.
End Deliveries.

(** ** The plan in closed form *)
Section Facts.
Context (url_parse : string -> option (string * string * string)).
Context (ToLower : string -> string).

Abbreviation plan := (planDelivery url_parse ToLower).
Abbreviation srefusal := (stack_refusal url_parse ToLower).
Abbreviation vrefusal := (source_refusal url_parse ToLower).

Definition stack_result (p : push) (st : LStack) : deliveryResult :=
  match srefusal p st with
  | Some why => mkResult KStack (ls_id st) (ls_name st) (ls_env st) Ignored why ""
  | None => mkResult KStack (ls_id st) (ls_name st) (ls_env st) Deploying NoReason ""
  end.
Definition source_result (p : push) (deploying : gmap string string) (v : LSource) : deliveryResult :=
  let r := mkResult KVolumeSource (lv_id v) (lv_volume v) (lv_env v) in
  match vrefusal p v with
  | Some why => r Ignored why ""
  | None => let name := default "" (deploying !! lv_stack v) in
            if negb (bool_decide (name = "")) then r Covered (ByDeployOf name) "" else r Syncing NoReason ""
  end.
Definition deploying_of (p : push) (stacks : list LStack) : gmap string string :=
  fold_left (fun m st => match srefusal p st with None => <[ls_id st := ls_name st]> m | Some _ => m end) stacks ∅.

Lemma plan_stacks p stacks : forall out m,
  fold_left (plan_stack url_parse ToLower p) stacks (out, m) =
  (out ++ map (stack_result p) stacks, fold_left (fun m st => match srefusal p st with None => <[ls_id st := ls_name st]> m | Some _ => m end) stacks m).
Proof.
  induction stacks as [|st l IH]; intros out m; simpl; [by rewrite app_nil_r|]. unfold stack_result at 1.
  destruct (srefusal p st); rewrite IH, <- app_assoc; done.
Qed.

Lemma plan_sources p m sources : forall out, fold_left (plan_source url_parse ToLower p m) sources out = out ++ map (source_result p m) sources.
Proof.
  induction sources as [|v l IH]; intros out; simpl; [by rewrite app_nil_r|]. rewrite IH.
  assert (plan_source url_parse ToLower p m out v = out ++ [source_result p m v]) as ->.
  { unfold plan_source, source_result. destruct (vrefusal p v); [done|]. by destruct (negb _). }
  by rewrite <- app_assoc.
Qed.

Lemma plan_closed p stacks sources : plan p stacks sources = map (stack_result p) stacks ++ map (source_result p (deploying_of p stacks)) sources.
Proof. unfold planDelivery. rewrite plan_stacks. simpl. by rewrite plan_sources. Qed.

(** Every target has an identifier of its own and a name: what the tables of
    stacks and sources guarantee. *)
Definition targets_ok (stacks : list LStack) (sources : list LSource) : Prop :=
  NoDup (map ls_id stacks) /\ NoDup (map lv_id sources) /\ Forall (fun st => ls_name st <> "") stacks.

Lemma deploying_lookup p stacks id name : NoDup (map ls_id stacks) ->
  deploying_of p stacks !! id = Some name <-> exists st, st ∈ stacks /\ ls_id st = id /\ ls_name st = name /\ srefusal p st = None.
Proof.
  intros Hnd. unfold deploying_of. set (f := fun (m : gmap string string) st => _).
  assert (forall m, fold_left f stacks m !! id = Some name <->
    (exists st, st ∈ stacks /\ ls_id st = id /\ ls_name st = name /\ srefusal p st = None) \/
    (m !! id = Some name /\ ~ exists st, st ∈ stacks /\ ls_id st = id /\ srefusal p st = None)) as H.
  { induction stacks as [|st l IH]; intros m; simpl.
    - split; [intros Hm; right; split; [done|]; intros (? & ?%elem_of_nil & _); done|]. intros [(? & ?%elem_of_nil & _)|[? _]]; done.
    - apply NoDup_cons in Hnd as [Hni Hnd]. rewrite (IH Hnd). unfold f. setoid_rewrite elem_of_cons. destruct (srefusal p st) eqn:E.
      + naive_solver.
      + destruct (decide (ls_id st = id)) as [<-|Hne].
        * rewrite lookup_insert_eq. split.
          -- intros [(x & Hx & Hid & _)|[[= <-] _]]; [|left; exists st; auto]. destruct Hni. rewrite <- Hid. by apply list_elem_of_fmap_2.
          -- intros [(x & [->|Hx] & Hid & <- & _)|[_ Hno]].
             ++ right. split; [done|]. intros (y & Hy & Hid' & _). destruct Hni. rewrite <- Hid'. by apply list_elem_of_fmap_2.
             ++ destruct Hni. rewrite <- Hid. by apply list_elem_of_fmap_2.
             ++ destruct Hno. exists st. auto.
        * rewrite lookup_insert_ne by done. naive_solver. }
  rewrite H, lookup_empty. split; [intros [?|[? _]]; [done|discriminate]|by left].
Qed.

Lemma source_covered p stacks v : NoDup (map ls_id stacks) -> Forall (fun st => ls_name st <> "") stacks -> vrefusal p v = None ->
  (dr_status (source_result p (deploying_of p stacks) v) = Covered /\ exists st, st ∈ stacks /\ ls_id st = lv_stack v /\ srefusal p st = None /\
     dr_reason (source_result p (deploying_of p stacks) v) = ByDeployOf (ls_name st)) \/
  (dr_status (source_result p (deploying_of p stacks) v) = Syncing /\ ~ exists st, st ∈ stacks /\ ls_id st = lv_stack v /\ srefusal p st = None).
Proof.
  intros Hnd Hnm Hv. unfold source_result. rewrite Hv. destruct (deploying_of p stacks !! lv_stack v) as [name|] eqn:E; simpl.
  - apply deploying_lookup in E as (st & Hst & Hid & <- & Hr); [|done]. rewrite Forall_forall in Hnm. rewrite bool_decide_eq_false_2 by auto.
    left. split; [done|]. exists st. done.
  - right. split; [done|]. intros (st & Hst & Hid & Hr). assert (deploying_of p stacks !! lv_stack v = Some (ls_name st)) as E2; [|congruence].
    apply deploying_lookup; [done|]. eauto.
Qed.

(** A push has one verdict for each linked target, in order. A stack deploys
    exactly when none of the rules refuses the push: it is not paused, tracks
    git, the repository and the branch agree and a watched path was touched. A
    source is synced under the same rules with its subtree for the paths,
    unless its stack is one of those that deploy. *)
Theorem planDelivery_spec (p : push) (stacks : list LStack) (sources : list LSource) :
  targets_ok stacks sources ->
  map dr_id (plan p stacks sources) = map ls_id stacks ++ map lv_id sources /\
  (forall st, st ∈ stacks -> exists r, r ∈ plan p stacks sources /\ dr_kind r = KStack /\ dr_id r = ls_id st /\
     (dr_status r = Deploying /\
        (ls_auto st = true /\ ls_kind st = "git" /\ fromRepo url_parse ToLower p (ls_url st) = true /\
         (p_ref p = "" \/ ls_git_ref st = "" \/ refMatches (p_ref p) (ls_git_ref st) = true) /\
         (p_files p = [] \/ Matches (p_files p) (WatchPatterns (ls_watch st) (ls_path st)) = true)) \/
      dr_status r = Ignored /\ exists why, srefusal p st = Some why /\ dr_reason r = why)) /\
  (forall v, v ∈ sources -> exists r, r ∈ plan p stacks sources /\ dr_kind r = KVolumeSource /\ dr_id r = lv_id v /\
     match dr_status r with
     | Ignored => vrefusal p v <> None
     | Covered => vrefusal p v = None /\ exists st, st ∈ stacks /\ ls_id st = lv_stack v /\ srefusal p st = None
     | Syncing => vrefusal p v = None /\ ~ exists st, st ∈ stacks /\ ls_id st = lv_stack v /\ srefusal p st = None
     | _ => False
     end).
Proof.
  intros (Hnd & Hnd2 & Hnm). rewrite plan_closed. split; [|split].
  - rewrite map_app, !map_map. f_equal; apply map_ext; intros x; [unfold stack_result; by destruct (srefusal p x)|].
    unfold source_result. destruct (vrefusal p x); [done|]. by destruct (negb _).
  - intros st Hst. exists (stack_result p st). split; [apply elem_of_app; left; by apply list_elem_of_fmap_2|].
    unfold stack_result. destruct (srefusal p st) as [why|] eqn:E; simpl; (split; [done|]; split; [done|]); [right; eauto|left; split; [done|]].
    unfold stack_refusal, refusal in E. destruct (ls_auto st); [|done]. simpl in E. case_bool_decide; [|done]. simpl in E.
    destruct (fromRepo _ _ _ _); [|done]. simpl in E. destruct ((_ && _) && _) eqn:E1 in E; [done|]. destruct (_ && _) eqn:E2 in E; [done|].
    split; [done|]. split; [done|]. split; [done|]. split.
    + apply andb_false_iff in E1 as [E1|E1]; [apply andb_false_iff in E1 as [E1|E1]; bd; auto|]. apply negb_false_iff in E1. auto.
    + apply andb_false_iff in E2 as [E2|E2]; [left; by destruct (p_files p)|]. apply negb_false_iff in E2. auto.
  - intros v Hv. exists (source_result p (deploying_of p stacks) v). split; [apply elem_of_app; right; by apply list_elem_of_fmap_2|].
    destruct (vrefusal p v) as [why|] eqn:E; [unfold source_result; by rewrite E|].
    assert (dr_kind (source_result p (deploying_of p stacks) v) = KVolumeSource /\ dr_id (source_result p (deploying_of p stacks) v) = lv_id v) as [-> ->].
    { unfold source_result. rewrite E. by destruct (negb _). }
    split; [done|]. split; [done|]. destruct (source_covered p stacks v Hnd Hnm E) as [[-> (st & ? & ? & ? & _)]|[-> ?]]; eauto 10.
Qed.

(** ** What runs *)

Lemma run_acts deploy sync l a : a ∈ (runDelivery deploy sync l).2 <->
  exists r, r ∈ l /\ ((dr_status r = Deploying /\ a = ActDeploy (dr_id r)) \/ (dr_status r = Syncing /\ a = ActSync (dr_id r))).
Proof.
  unfold runDelivery. simpl. rewrite flat_map_elem. do 2 f_equiv. f_equiv. unfold run_one.
  destruct (dr_status a0); simpl; rewrite ?list_elem_of_singleton; split; try (by intros ?%elem_of_nil); naive_solver.
Qed.

Lemma act_deploy p stacks sources deploy sync id : NoDup (map ls_id stacks) ->
  ActDeploy id ∈ (runDelivery deploy sync (plan p stacks sources)).2 <-> exists st, st ∈ stacks /\ ls_id st = id /\ srefusal p st = None.
Proof.
  intros Hnd. rewrite run_acts, plan_closed. split.
  - intros (r & Hr & [[Hs [= ->]]|[_ ?]]); [|done]. apply elem_of_app in Hr as [(st & -> & Hst)%list_elem_of_fmap|(v & -> & _)%list_elem_of_fmap].
    + exists st. unfold stack_result in *. destruct (srefusal p st); [done|]. done.
    + unfold source_result in Hs. destruct (vrefusal p v); [done|]. by destruct (negb _).
  - intros (st & Hst & <- & Hr). exists (stack_result p st). split; [apply elem_of_app; left; by apply list_elem_of_fmap_2|]. left.
    unfold stack_result. by rewrite Hr.
Qed.

Lemma act_sync p stacks sources deploy sync id : targets_ok stacks sources ->
  ActSync id ∈ (runDelivery deploy sync (plan p stacks sources)).2 <->
  exists v, v ∈ sources /\ lv_id v = id /\ vrefusal p v = None /\ ~ exists st, st ∈ stacks /\ ls_id st = lv_stack v /\ srefusal p st = None.
Proof.
  intros (Hnd & _ & Hnm). rewrite run_acts, plan_closed. split.
  - intros (r & Hr & [[_ ?]|[Hs [= ->]]]); [done|]. apply elem_of_app in Hr as [(st & -> & _)%list_elem_of_fmap|(v & -> & Hv)%list_elem_of_fmap].
    + unfold stack_result in Hs. by destruct (srefusal p st).
    + exists v. destruct (vrefusal p v) as [why|] eqn:E; [unfold source_result in Hs; by rewrite E in Hs|].
      split; [done|]. destruct (source_covered p stacks v Hnd Hnm E) as [[Hc _]|[_ Hno]]; [congruence|].
      split; [|done]. unfold source_result. rewrite E. by destruct (negb _).
  - intros (v & Hv & <- & Hr & Hno). exists (source_result p (deploying_of p stacks) v).
    split; [apply elem_of_app; right; by apply list_elem_of_fmap_2|]. right.
    destruct (source_covered p stacks v Hnd Hnm Hr) as [[_ (st & ? & ? & ? & _)]|[Hs _]]; [destruct Hno; eauto|]. split; [done|].
    unfold source_result. rewrite Hr. by destruct (negb _).
Qed.

Lemma NoDup_acts deploy sync l : NoDup (map (fun r => (dr_kind r, dr_id r)) l) ->
  (forall r, r ∈ l -> (dr_status r = Deploying -> dr_kind r = KStack) /\ (dr_status r = Syncing -> dr_kind r = KVolumeSource)) ->
  NoDup (runDelivery deploy sync l).2.
Proof.
  induction l as [|r l IH]; intros Hnd Hk; [constructor|]. apply NoDup_cons in Hnd as [Hni Hnd]. unfold runDelivery. simpl.
  assert (NoDup (runDelivery deploy sync l).2) as Hl by (apply IH; [done|intros x Hx; apply Hk; by right]).
  apply NoDup_app. split; [unfold run_one; destruct (dr_status r); simpl; first [apply NoDup_singleton|apply NoDup_nil_2]|]. split; [|done].
  intros a Ha Ha2. apply run_acts in Ha2 as (r2 & Hr2 & Hor). destruct (Hk r ltac:(by left)) as [Hk1 Hk2]. destruct (Hk r2 ltac:(by right)) as [Hk3 Hk4].
  apply Hni, list_elem_of_fmap. exists r2. split; [|done]. unfold run_one in Ha.
  destruct (dr_status r) eqn:E; simpl in Ha; try (by apply elem_of_nil in Ha); apply list_elem_of_singleton in Ha; subst a;
    destruct Hor as [[E2 Ea]|[E2 Ea]]; simplify_eq; [rewrite Hk1, Hk3 by done|rewrite Hk2, Hk4 by done]; congruence.
Qed.

Lemma not_both p stacks sources deploy sync v st : targets_ok stacks sources -> v ∈ sources -> st ∈ stacks -> ls_id st = lv_stack v ->
  srefusal p st = None -> ActSync (lv_id v) ∉ (runDelivery deploy sync (plan p stacks sources)).2.
Proof.
  intros Hok Hv Hst Hlink Hr (v2 & Hv2 & Hid & _ & Hno)%act_sync; [|done]. apply Hno. exists st.
  rewrite (NoDup_map_inj lv_id sources v2 v); [done|apply Hok|done..].
Qed.

(** A delivery acts on each target at most once, and never syncs a source
    while it deploys the stack the source belongs to: the deploy syncs its
    sources itself, and a second sync of the same volume would race it. *)
Theorem delivery_acts_once (p : push) (stacks : list LStack) (sources : list LSource) (deploy : string -> DeployAnswer) (sync : string -> option string) :
  targets_ok stacks sources ->
  let acts := (runDelivery deploy sync (plan p stacks sources)).2 in
  NoDup acts /\
  (forall id, ActDeploy id ∈ acts -> exists st, st ∈ stacks /\ ls_id st = id) /\
  (forall v, v ∈ sources -> ActSync (lv_id v) ∈ acts -> ActDeploy (lv_stack v) ∉ acts).
Proof.
  intros Hok acts. pose proof Hok as (Hnd & Hnd2 & Hnm). unfold acts. split; [|split].
  - apply NoDup_acts; rewrite plan_closed.
    + rewrite map_app, !map_map. apply NoDup_app. split; [|split].
      * assert (map (fun x => (dr_kind (stack_result p x), dr_id (stack_result p x))) stacks = map (fun i => (KStack, i)) (map ls_id stacks)) as ->.
        { rewrite map_map. apply map_ext. intros x. unfold stack_result. by destruct (srefusal p x). }
        apply NoDup_fmap_2; [intros ? ? [=]; done|done].
      * intros k (x & -> & _)%list_elem_of_fmap (y & Hy & _)%list_elem_of_fmap. revert Hy. unfold stack_result, source_result.
        destruct (srefusal p x), (vrefusal p y); try destruct (negb _); discriminate.
      * assert (map (fun x => (dr_kind (source_result p (deploying_of p stacks) x), dr_id (source_result p (deploying_of p stacks) x))) sources = map (fun i => (KVolumeSource, i)) (map lv_id sources)) as ->.
        { rewrite map_map. apply map_ext. intros x. unfold source_result. destruct (vrefusal p x); [done|]. by destruct (negb _). }
        apply NoDup_fmap_2; [intros ? ? [=]; done|done].
    + intros r [(st & -> & _)%list_elem_of_fmap|(v & -> & _)%list_elem_of_fmap]%elem_of_app.
      * unfold stack_result. by destruct (srefusal p st).
      * unfold source_result. destruct (vrefusal p v); [done|]. by destruct (negb _).
  - intros id (st & ? & ? & _)%act_deploy; [|done]. eauto.
  - intros v Hv Ha (st & Hst & Hid & Hr)%act_deploy; [|done]. by apply (not_both p stacks sources deploy sync v st Hok Hv Hst).
Qed.

(** A source whose stack deploys in the same delivery is recorded as synced
    by that deploy, whatever becomes of it: when the deploy is refused because
    another one is running, the record says so for the stack, still says
    "synced by the deploy" for the source, and nothing synced it. *)
Theorem covered_without_sync (p : push) (stacks : list LStack) (sources : list LSource) (deploy : string -> DeployAnswer) (sync : string -> option string)
    (st : LStack) (v : LSource) :
  targets_ok stacks sources -> st ∈ stacks -> v ∈ sources -> lv_stack v = ls_id st ->
  srefusal p st = None -> vrefusal p v = None -> deploy (ls_id st) = RunInProgress ->
  let '(after, acts) := runDelivery deploy sync (plan p stacks sources) in
  (ActSync (lv_id v) ∉ acts) /\
  (exists r, r ∈ after /\ dr_kind r = KStack /\ dr_id r = ls_id st /\ dr_status r = Skipped /\ dr_reason r = AlreadyRunning) /\
  (exists r, r ∈ after /\ dr_kind r = KVolumeSource /\ dr_id r = lv_id v /\ dr_status r = Covered /\ dr_reason r = ByDeployOf (ls_name st)).
Proof.
  intros Hok Hst Hv Hlink Hrs Hrv Hrun. pose proof Hok as (Hnd & Hnd2 & Hnm).
  pose proof (not_both p stacks sources deploy sync v st Hok Hv Hst (eq_sym Hlink) Hrs) as Hno.
  destruct (runDelivery deploy sync (plan p stacks sources)) as [after acts] eqn:E.
  assert (after = map (fun r => (run_one deploy sync r).1) (plan p stacks sources)) as -> by (by injection E as <- <-).
  split; [exact Hno|]. rewrite plan_closed, map_app, !map_map. split.
  - eexists. split; [apply elem_of_app; left; apply list_elem_of_fmap; exists st; by split|]. unfold stack_result, run_one. rewrite Hrs. simpl. by rewrite Hrun.
  - eexists. split; [apply elem_of_app; right; apply list_elem_of_fmap; exists v; by split|]. unfold source_result, run_one. rewrite Hrv.
    assert (deploying_of p stacks !! lv_stack v = Some (ls_name st)) as -> by (apply deploying_lookup; [done|]; eauto).
    simpl. rewrite Forall_forall in Hnm. by rewrite bool_decide_eq_false_2 by auto.
Qed.

(** ** Who may deliver *)

Context (hmac_hex : string -> string -> string).
Context (open_secret : string -> option string).
Context (unmarshal_payload : string -> option payload).
Abbreviation deliver := (deliverWebhook hmac_hex open_secret unmarshal_payload url_parse ToLower).

(** What the request presents, and what it must equal. *)
Definition presented (r : Request) (body secret : string) : Prop :=
  let hub := rq_header r "X-Hub-Signature-256" in
  let forge := firstNonEmpty (rq_header r "X-Forgejo-Signature") (rq_header r "X-Gitea-Signature") in
  if negb (bool_decide (hub = "")) then strings.TrimSpace (strings.TrimPrefix hub "sha256=") = hmac_hex secret body
  else if negb (bool_decide (forge = "")) then strings.TrimSpace forge = hmac_hex secret body
  else rq_header r "X-Gitlab-Token" <> "" /\ rq_header r "X-Gitlab-Token" = secret.

Lemma verify_iff r body secret : verifySignature hmac_hex r body secret = Ok tt <-> presented r body secret.
Proof.
  unfold verifySignature, presented, checkHMAC. destruct (negb (bool_decide (rq_header r "X-Hub-Signature-256" = ""))); [case_bool_decide; naive_solver|].
  destruct (negb (bool_decide (firstNonEmpty _ _ = ""))); [case_bool_decide; naive_solver|].
  case_bool_decide as E; simpl; [naive_solver|]. case_bool_decide; naive_solver.
Qed.

(** C39: nothing is recorded, nothing runs and nothing is learned without the
    signature. A request whose body was read but whose signature is not the one
    the secret gives is answered the same whatever the webhook drives, and
    leaves one denial behind; one that is answered in any other way has
    presented the HMAC of its body, or GitLab's token, under a non-empty secret. *)
Theorem delivery_needs_signature (r : Request) (enc : string) (linked linked2 : option (list LStack * list LSource)) (body : string) :
  rq_body r = Some body ->
  let '(reply, effects) := deliver r enc linked in
  (forall secret, open_secret enc = Some secret -> secret <> "" -> ~ presented r body secret ->
     deliver r enc linked = deliver r enc linked2 /\ reply = ReplyBadSignature /\ effects = [Denied "signature"]) /\
  ((exists e, e ∈ effects /\ (forall why, e <> Denied why)) ->
     exists secret, open_secret enc = Some secret /\ secret <> "" /\ presented r body secret).
Proof.
  intros Hb. destruct (deliver r enc linked) as [reply effects] eqn:E. split.
  - intros secret Hs Hne Hp. unfold deliverWebhook in *. rewrite Hb, Hs in *. destruct secret as [|c s]; [done|].
    destruct (verifySignature hmac_hex r body (String c s)) as [[]|] eqn:Ev; [by apply verify_iff in Ev|]. injection E as <- <-. done.
  - intros (e & He & Hd). unfold deliverWebhook in E. rewrite Hb in E. destruct (open_secret enc) as [[|c s]|].
    + injection E as <- <-. apply list_elem_of_singleton in He as ->. by destruct (Hd "secret").
    + exists (String c s). destruct (verifySignature hmac_hex r body (String c s)) as [[]|] eqn:Ev; [by apply verify_iff in Ev|].
      injection E as <- <-. apply list_elem_of_singleton in He as ->. by destruct (Hd "signature").
    + injection E as <- <-. apply list_elem_of_singleton in He as ->. by destruct (Hd "secret").
Qed.
End Facts.

(** ** A small deployment *)

Definition demo_hmac (secret body : string) : string := "sig:" +:+ secret +:+ body.
Definition demo_urls (u : string) : repoURLs := mkURLs u "" "" "" "" "" "" "" "".
Definition demo_payload (_ : string) : option payload :=
  Some (mkPayload "refs/heads/main" "a" "b" (demo_urls "git@forge:acme/app.git") (demo_urls "") [mkCommit [] ["compose.yml"] []]).
Definition demo_url (_ : string) : option (string * string * string) := None.
Definition demo_lower (s : string) : string := s.

Definition stack_demo : LStack := mkLStack "s1" "app" "prod" true "git" "git@forge:acme/app" "main" "compose.yml" "".
Definition source_demo : LSource := mkLSource "v1" "app-config" "prod" true "git" "git@forge:acme/app" "main" "" "s1".
Definition push_demo : push := mkPush "refs/heads/main" false ["compose.yml"] ["forge/acme/app"].

Lemma targets_demo : targets_ok [stack_demo] [source_demo].
Proof. split; [apply NoDup_singleton|]. split; [apply NoDup_singleton|]. by repeat constructor. Qed.

Lemma planDelivery_spec_witness :
  map dr_status (planDelivery demo_url demo_lower push_demo [stack_demo] [source_demo]) = [Deploying; Covered] /\
  map dr_id (planDelivery demo_url demo_lower push_demo [stack_demo] [source_demo]) = ["s1"; "v1"].
Proof.
  split; [vm_compute; reflexivity|].
  destruct (planDelivery_spec demo_url demo_lower push_demo [stack_demo] [source_demo] targets_demo) as [H _]. exact H.
Defined.

Lemma delivery_acts_once_witness :
  let acts := (runDelivery (fun _ => DeployStarted "d1") (fun _ => None) (planDelivery demo_url demo_lower push_demo [stack_demo] [source_demo])).2 in
  acts = [ActDeploy "s1"] /\ NoDup acts.
Proof.
  split; [vm_compute; reflexivity|].
  destruct (delivery_acts_once demo_url demo_lower push_demo [stack_demo] [source_demo] (fun _ => DeployStarted "d1") (fun _ => None) targets_demo) as [H _]. exact H.
Defined.

Lemma covered_without_sync_witness :
  exists r, r ∈ (runDelivery (fun _ => RunInProgress) (fun _ => None) (planDelivery demo_url demo_lower push_demo [stack_demo] [source_demo])).1 /\
    dr_id r = "v1" /\ dr_status r = Covered.
Proof.
  pose proof (covered_without_sync demo_url demo_lower push_demo [stack_demo] [source_demo] (fun _ => RunInProgress) (fun _ => None) stack_demo source_demo
    targets_demo ltac:(left) ltac:(left) eq_refl ltac:(vm_compute; reflexivity) ltac:(vm_compute; reflexivity) eq_refl) as H.
  destruct (runDelivery _ _ _) as [after acts]. destruct H as (_ & _ & r & H1 & _ & H2 & H3 & _). exists r. split; [exact H1|split; [exact H2|exact H3]].
Defined.

Definition forged : Request := mkRequest (fun h => if bool_decide (h = "X-Gitea-Signature") then "nonsense" else "") (Some "{}").

Lemma delivery_needs_signature_witness :
  deliverWebhook demo_hmac (fun _ => Some "key") demo_payload demo_url demo_lower forged "enc" (Some ([stack_demo], [source_demo])) = (ReplyBadSignature, [Denied "signature"]).
Proof.
  pose proof (delivery_needs_signature demo_url demo_lower demo_hmac (fun _ => Some "key") demo_payload forged "enc" (Some ([stack_demo], [source_demo])) None "{}" eq_refl) as H.
  destruct (deliverWebhook _ _ _ _ _ _ _ (Some _)) as [reply effects]. destruct H as [H _].
  destruct (H "key" eq_refl) as (_ & -> & ->); [discriminate| |reflexivity]. vm_compute. discriminate.
Defined.
