(* ===== verification/Sans.v ===== *)
(** * Subject alternative names

    Models [splitSANEntry], [ClassifySAN] and [NormalizeSANs] of
    [internal/certs/certs.go], which the API and the manifest share.
    [net.ParseIP] (with the canonical text of the address) and [url.Parse]
    (host and opaque part) are parameters. *)
From S2P Require Import Prelude GoStd Paths.
Local Open Scope string_scope.
Local Open Scope list_scope.
Local Open Scope daffa_scope.

(** ** Character classes *)

Definition code (c : ascii) : nat := nat_of_ascii c.
Definition in_code (lo hi : nat) (c : ascii) : bool := (lo <=? code c)%nat && (code c <=? hi)%nat.
Definition is_upper : ascii -> bool := in_code 65 90.
Definition is_lower : ascii -> bool := in_code 97 122.
Definition is_digit : ascii -> bool := in_code 48 57.
Definition is_letter (c : ascii) : bool := is_upper c || is_lower c.
Definition is_alnum (c : ascii) : bool := is_letter c || is_digit c.

(** ** The code *)

(** [^[A-Za-z][A-Za-z0-9+.\-]*:] *)
Definition scheme_char (c : ascii) : bool := is_alnum c || bool_decide (c = "+"%char) || bool_decide (c = "."%char) || bool_decide (c = "-"%char).
Definition uriScheme (s : string) : bool :=
  match strings.cut_byte s ":" with
  | Some (String c r, _) => is_letter c && strings.all_chars scheme_char r
  | _ => false
  end.

(** One label of [dnsSAN]: [[A-Za-z0-9_]([A-Za-z0-9_-]*[A-Za-z0-9_])?]. *)
Definition edge_char (c : ascii) : bool := is_alnum c || bool_decide (c = "_"%char).
Definition mid_char (c : ascii) : bool := edge_char c || bool_decide (c = "-"%char).
Fixpoint last_char (c : ascii) (s : string) : ascii := match s with "" => c | String d s => last_char d s end.
Definition dns_label (s : string) : bool :=
  match s with "" => false | String c r => strings.all_chars mid_char s && edge_char c && edge_char (last_char c r) end.
Definition dnsSAN (s : string) : bool :=
  forallb dns_label (strings.Split (strings.TrimPrefix s "*.") ".").

Inductive SANKind := SANDNS | SANIP | SANURI.
Inductive SANErr := EmptySAN | BadURI (s : string) | NothingAfterScheme (s : string) | NoneOfTheThree (s : string) | BadHostName (s : string).

Definition splitSANEntry (entry : string) : list string :=
  flat_map (fun field =>
    if uriScheme field then [strings.TrimSuffix field ","]
    else List.filter (fun part => negb (bool_decide (part = ""))) (strings.Split field ",")) (strings.Fields entry).

Section Sans.
Context (ParseIP : string -> option string).
Context (url_parse : string -> option (string * string)).

Definition ClassifySAN (san : string) : res SANErr SANKind :=
  if bool_decide (san = "") then Err EmptySAN
  else match ParseIP san with
  | Some _ => Ok SANIP
  | None =>
      if uriScheme san then
        match url_parse san with
        | None => Err (BadURI san)
        | Some (host, opaque) => if bool_decide (host = "") && bool_decide (opaque = "") then Err (NothingAfterScheme san) else Ok SANURI
        end
      else if negb (dnsSAN (strings.TrimSuffix san ".")) then
        Err (if strings.has_char (fun c => bool_decide (c = ":"%char) || bool_decide (c = "/"%char) || bool_decide (c = "@"%char)) san then NoneOfTheThree san else BadHostName san)
      else Ok SANDNS
  end.

Definition canonical (kind : SANKind) (san : string) : string :=
  match kind with
  | SANIP => match ParseIP san with Some c => c | None => san end
  | SANDNS => strings.ToLowerASCII (strings.TrimSuffix san ".")
  | SANURI => san
  end.

(** The two loops are one over the split entries; the first error ends both. *)
Fixpoint normalize_go (out : list string) (l : list string) : res SANErr (list string) :=
  match l with
  | [] => Ok out
  | san :: l =>
      let* kind := ClassifySAN san in
      let c := canonical kind san in
      normalize_go (if bool_decide (c ∈ out) then out else out ++ [c]) l
  end.
Definition NormalizeSANs (l : list string) : res SANErr (list string) := normalize_go [] (flat_map splitSANEntry l).

(** ** Atoms: what is not split again *)

Definition nospace (s : string) : Prop := forall a b, s = a +:+ b -> b <> "" -> List.find (strings.HasPrefix b) strings.spaces = None.

Lemma HasPrefix_app b t p : strings.HasPrefix b p = true -> strings.HasPrefix (b +:+ t) p = true.
Proof. rewrite !HasPrefix_spec. intros [r ->]. exists (r +:+ t). by rewrite app_assoc_s. Qed.

Lemma find_none_app b t : List.find (strings.HasPrefix (b +:+ t)) strings.spaces = None -> List.find (strings.HasPrefix b) strings.spaces = None.
Proof.
  intros H. destruct (List.find (strings.HasPrefix b) strings.spaces) as [p|] eqn:E; [|done]. apply List.find_some in E as [Hin Hp].
  pose proof (List.find_none _ _ H p Hin) as Hn. simpl in Hn. by rewrite (HasPrefix_app b t p Hp) in Hn.
Qed.

Lemma nospace_sub x s y : nospace (x +:+ s +:+ y) -> nospace s.
Proof.
  intros H a b -> Hb. apply (find_none_app b y). apply (H (x +:+ a)); [by rewrite !app_assoc_s|]. destruct b; done.
Qed.

Lemma fields_from_nospace s : forall acc, nospace s -> strings.fields_from 0 acc s = strings.emit (acc +:+ s).
Proof.
  induction s as [|c s IH]; intros acc H; [by rewrite app_nil_s|]. unfold strings.fields_from; fold strings.fields_from.
  rewrite (H "" (String c s) eq_refl) by done. rewrite IH; [by rewrite app_assoc_s|]. intros a b E. apply (H (String c a)). by rewrite E.
Qed.

Lemma Fields_nospace s : nospace s -> s <> "" -> strings.Fields s = [s].
Proof. intros H Hne. unfold strings.Fields. rewrite fields_from_nospace, app_empty_s by done. unfold strings.emit. by rewrite bool_decide_eq_false_2. Qed.

Lemma snoc_split acc c a b : acc +:+ String c "" = a +:+ b -> b = "" \/ exists b', b = b' +:+ String c "" /\ acc = a +:+ b'.
Proof.
  revert a. induction acc as [|d acc IH]; intros [|e a] H.
  - right. by exists "".
  - left. rewrite app_cons_s in H. injection H as _ H. by destruct a, b.
  - right. exists (String d acc). split; [by symmetry|done].
  - rewrite !app_cons_s in H. injection H as -> H. destruct (IH a H) as [->|(b' & -> & ->)]; [by left|]. right. by exists b'.
Qed.

(** No suffix of [acc] starts a white-space character in front of [s]. *)
Definition open_at (acc s : string) : Prop := forall a b, acc = a +:+ b -> b <> "" -> List.find (strings.HasPrefix (b +:+ s)) strings.spaces = None.

Lemma open_at_nil s : open_at "" s.
Proof. intros [|? a] [|? b] E Hb; done. Qed.

Lemma emit_elem acc f s : open_at acc s -> f ∈ strings.emit acc -> nospace f /\ f <> "".
Proof.
  intros H Hf. unfold strings.emit in Hf. case_bool_decide as E; [by apply elem_of_nil in Hf|]. apply list_elem_of_singleton in Hf as ->.
  split; [|done]. intros a b Ea Hb. apply (find_none_app b s). eauto.
Qed.

Lemma fields_from_elem s : forall skip acc f, open_at acc s -> (skip <> 0%nat -> acc = "") -> f ∈ strings.fields_from skip acc s -> nospace f /\ f <> "".
Proof.
  induction s as [|c s IH]; intros skip acc f Hacc Hk Hf; [by eapply emit_elem|].
  unfold strings.fields_from in Hf; fold strings.fields_from in Hf. destruct skip as [|k].
  - destruct (List.find (strings.HasPrefix (String c s)) strings.spaces) as [p|] eqn:Ep.
    + apply elem_of_app in Hf as [Hf|Hf]; [by eapply emit_elem|]. eapply IH; [apply open_at_nil|done|exact Hf].
    + apply (IH 0%nat _ f) in Hf; [done| |done]. intros a b E Hb. destruct (snoc_split _ _ _ _ E) as [->|(b' & -> & ->)]; [done|].
      rewrite app_assoc_s. change (String c "" +:+ s) with (String c s). destruct (decide (b' = "")) as [->|Hb']; [done|]. by apply (Hacc a b').
  - rewrite Hk in * by done. eapply IH; [apply open_at_nil|done|exact Hf].
Qed.

Lemma Fields_elem s f : f ∈ strings.Fields s -> nospace f /\ f <> "".
Proof. apply fields_from_elem; [apply open_at_nil|done]. Qed.

(** ** Character classes of strings *)

Lemma all_chars_cons f c s : strings.all_chars f (String c s) = f c && strings.all_chars f s.
Proof. unfold strings.all_chars. simpl. by rewrite negb_orb, negb_involutive. Qed.
Lemma all_chars_app f a b : strings.all_chars f (a +:+ b) = strings.all_chars f a && strings.all_chars f b.
Proof. induction a as [|c a IH]; [done|]. by rewrite app_cons_s, !all_chars_cons, IH, andb_assoc. Qed.
Lemma all_chars_impl (f g : ascii -> bool) s : (forall c, f c = true -> g c = true) -> strings.all_chars f s = true -> strings.all_chars g s = true.
Proof. intros H. induction s as [|c s IH]; [done|]. rewrite !all_chars_cons. intros [H1 H2]%andb_prop. by rewrite H, IH. Qed.
Lemma all_chars_no f c s : f c = false -> strings.all_chars f s = true -> no_char c s.
Proof.
  unfold no_char. intros H. induction s as [|d s IH]; [done|]. rewrite all_chars_cons. intros [H1 H2]%andb_prop. simpl. rewrite IH by done.
  rewrite orb_false_r. apply bool_decide_eq_false_2. congruence.
Qed.

(** Every byte of [f] is told apart from the first byte of white space. *)
Definition visible (f : ascii -> bool) : Prop := forall c, f c = true -> forallb (fun p => match p with String d _ => negb (bool_decide (d = c)) | "" => false end) strings.spaces = true.

Lemma visible_nospace f s : visible f -> strings.all_chars f s = true -> nospace s.
Proof.
  intros Hf Hs a b -> Hb. rewrite all_chars_app in Hs. apply andb_prop in Hs as [_ Hs]. destruct b as [|c b]; [done|].
  rewrite all_chars_cons in Hs. apply andb_prop in Hs as [Hc _]. specialize (Hf c Hc).
  destruct (List.find (strings.HasPrefix (String c b)) strings.spaces) as [p|] eqn:E; [|done]. apply List.find_some in E as [Hin Hp].
  rewrite forallb_forall in Hf. specialize (Hf p Hin). destruct p as [|d p]; [done|]. bd. simpl in Hp. bd. congruence.
Qed.

Lemma TrimSuffix_cases s suf : (exists t, s = t +:+ suf /\ strings.TrimSuffix s suf = t) \/ ((forall t, s <> t +:+ suf) /\ strings.TrimSuffix s suf = s).
Proof.
  assert (forall t u, strings.take_chars (String.length t) (t +:+ u) = t) as Htake by (induction t as [|c t IH]; intros u; [by destruct u|]; simpl; by rewrite IH).
  assert (forall n u, (n <= String.length u)%nat -> strings.take_chars n u +:+ strings.drop n u = u /\ String.length (strings.drop n u) = (String.length u - n)%nat) as Hsplit.
  { induction n as [|n IH]; intros [|c u] Hl; simpl in *; try done. destruct (IH u) as [H1 H2]; [lia|]. by rewrite app_cons_s, H1. }
  unfold strings.TrimSuffix. destruct (strings.HasSuffix s suf) eqn:E; [left|right; split; [|done]].
  - unfold strings.HasSuffix in E. bd. destruct (Hsplit (String.length s - String.length suf)%nat s) as [H1 _]; [lia|].
    rewrite H0 in H1. eauto.
  - intros t ->. apply not_true_iff_false in E. apply E. unfold strings.HasSuffix. rewrite length_app_s.
    replace (String.length t + String.length suf - String.length suf)%nat with (String.length t) by lia. rewrite drop_app.
    rewrite bool_decide_eq_true_2 by done. rewrite andb_true_r. apply Nat.leb_le. lia.
Qed.

Lemma TrimSuffix_id s suf : (forall t, s <> t +:+ suf) -> strings.TrimSuffix s suf = s.
Proof. intros H. destruct (TrimSuffix_cases s suf) as [(t & E & _)|[_ E]]; [by destruct (H t)|done]. Qed.

Lemma no_char_snoc c s : no_char c s -> forall t, s <> t +:+ String c "".
Proof.
  unfold no_char. intros H t ->. induction t as [|d t IH]; simpl in H; [by rewrite bool_decide_eq_true_2 in H|]. bd. auto.
Qed.

(** ** Host names *)

Definition dns_char (c : ascii) : bool := mid_char c || bool_decide (c = "."%char) || bool_decide (c = "*"%char).

Lemma all_chars_Join f l sep : strings.all_chars f sep = true -> Forall (fun x => strings.all_chars f x = true) l -> strings.all_chars f (strings.Join l sep) = true.
Proof.
  intros Hs. induction 1 as [|x l Hx Hl IH]; [done|]. destruct l as [|y l]; [done|]. rewrite Join_cons, !all_chars_app. by rewrite Hx, Hs, IH.
Qed.

Lemma dnsSAN_chars s : dnsSAN s = true -> strings.all_chars dns_char s = true.
Proof.
  unfold dnsSAN. intros H. assert (strings.all_chars dns_char (strings.TrimPrefix s "*.") = true) as Ht.
  { rewrite <- (Join_Split (strings.TrimPrefix s "*.") "."). apply all_chars_Join; [done|]. rewrite forallb_elem in H. apply Forall_forall. intros x Hx.
    specialize (H x Hx). unfold dns_label in H. destruct x as [|c r]; [done|]. bd. eapply all_chars_impl; [|done]. intros d Hd. unfold dns_char. by rewrite Hd. }
  unfold strings.TrimPrefix in Ht. destruct (strings.HasPrefix s "*.") eqn:E; [|done]. apply HasPrefix_spec in E as [t ->].
  rewrite (drop_app "*." t) in Ht. by rewrite all_chars_app, Ht.
Qed.

Lemma dnsSAN_not_dotted s t : dnsSAN s = true -> s <> t +:+ ".".
Proof.
  intros H ->. unfold dnsSAN in H. rewrite forallb_elem in H. assert ("" ∈ strings.Split (strings.TrimPrefix (t +:+ ".") "*.") ".") as Hin; [|by specialize (H "" Hin)].
  unfold strings.TrimPrefix. destruct (strings.HasPrefix (t +:+ ".") "*.") eqn:E.
  - apply HasPrefix_spec in E as [y E]. rewrite E, (drop_app "*." y). change ("*." +:+ y) with (("*" +:+ ".") +:+ y) in E. 
    destruct (snoc_split t "." "*." y) as [->|(b & -> & _)]; [exact E|by left|]. rewrite Split_app_any. apply elem_of_app. right. by left.
  - rewrite Split_app_any. apply elem_of_app. right. by left.
Qed.

Lemma lower_facts c : strings.lower_ascii (strings.lower_ascii c) = strings.lower_ascii c /\ mid_char (strings.lower_ascii c) = mid_char c /\
  edge_char (strings.lower_ascii c) = edge_char c /\ bool_decide (strings.lower_ascii c = "."%char) = bool_decide (c = "."%char) /\
  bool_decide (strings.lower_ascii c = "*"%char) = bool_decide (c = "*"%char).
Proof. destruct c as [[] [] [] [] [] [] [] []]; vm_compute; done. Qed.

Lemma Lower_idem s : strings.ToLowerASCII (strings.ToLowerASCII s) = strings.ToLowerASCII s.
Proof. induction s as [|c s IH]; [done|]. simpl. by rewrite IH, (proj1 (lower_facts c)). Qed.

Lemma Split_lower s : strings.Split (strings.ToLowerASCII s) "." = map strings.ToLowerASCII (strings.Split s ".").
Proof.
  induction s as [|c s IH]; [done|]. simpl. destruct (lower_facts c) as (_ & _ & _ & -> & _). rewrite IH. case_bool_decide; [done|].
  destruct (strings.Split s ".") eqn:E; done.
Qed.

Lemma dns_label_lower s : dns_label (strings.ToLowerASCII s) = dns_label s.
Proof.
  assert (forall s, strings.all_chars mid_char (strings.ToLowerASCII s) = strings.all_chars mid_char s) as Hall.
  { intros t. induction t as [|c t IH]; [done|]. cbn [strings.ToLowerASCII]. rewrite !all_chars_cons, IH. by destruct (lower_facts c) as (_ & -> & _). }
  assert (forall s c, last_char (strings.lower_ascii c) (strings.ToLowerASCII s) = strings.lower_ascii (last_char c s)) as Hlast.
  { intros t. induction t as [|d t IH]; intros c; [done|]. simpl. apply IH. }
  destruct s as [|c s]; [done|]. unfold dns_label. rewrite Hall. cbn [strings.ToLowerASCII]. rewrite Hlast.
  destruct (lower_facts c) as (_ & _ & -> & _). by destruct (lower_facts (last_char c s)) as (_ & _ & -> & _).
Qed.

Lemma TrimPrefix_lower s : strings.TrimPrefix (strings.ToLowerASCII s) "*." = strings.ToLowerASCII (strings.TrimPrefix s "*.").
Proof.
  unfold strings.TrimPrefix. destruct s as [|c [|d s]]; [done| |].
  - simpl. by rewrite !andb_false_r.
  - cbn [strings.ToLowerASCII strings.HasPrefix]. 
    assert (forall e f, bool_decide ("*"%char = e) && (bool_decide ("."%char = f) && true) = bool_decide (e = "*"%char) && bool_decide (f = "."%char)) as Hsym.
    { intros e f. rewrite andb_true_r. f_equal; apply bool_decide_ext; split; congruence. }
    rewrite !Hsym. destruct (lower_facts c) as (_ & _ & _ & _ & ->). destruct (lower_facts d) as (_ & _ & _ & -> & _).
    case_match; [|done]. simpl. by destruct s.
Qed.

Lemma dnsSAN_lower s : dnsSAN (strings.ToLowerASCII s) = dnsSAN s.
Proof.
  unfold dnsSAN. rewrite TrimPrefix_lower, Split_lower. induction (strings.Split (strings.TrimPrefix s "*.") ".") as [|x l IH]; [done|].
  simpl. by rewrite dns_label_lower, IH.
Qed.

Lemma cut_byte_none s c : no_char c s -> strings.cut_byte s c = None.
Proof. unfold no_char. induction s as [|d s IH]; [done|]. simpl. intros H. bd. case_bool_decide; [done|]. by rewrite IH. Qed.
Lemma no_colon_no_scheme s : no_char ":" s -> uriScheme s = false.
Proof. unfold uriScheme. by intros ->%cut_byte_none. Qed.

Lemma cut_byte_snoc s c d x y : c <> d -> strings.cut_byte (s +:+ String d "") c = Some (x, y) -> exists y', strings.cut_byte s c = Some (x, y').
Proof.
  intros Hcd. revert x y. induction s as [|e s IH]; intros x y H.
  - simpl in H. case_bool_decide; [by subst|done].
  - rewrite app_cons_s in H. simpl in H |- *. case_bool_decide; [injection H as <- <-; eauto|].
    destruct (strings.cut_byte (s +:+ String d "") c) as [[x' y']|] eqn:E; [|done]. injection H as <- <-. destruct (IH x' y' eq_refl) as [y'' ->]. eauto.
Qed.

Lemma uriScheme_snoc s : uriScheme (s +:+ ",") = true -> uriScheme s = true.
Proof.
  unfold uriScheme. destruct (strings.cut_byte (s +:+ ",") ":") as [[x y]|] eqn:E; [|done]. apply cut_byte_snoc in E as [y' ->]; [|done]. done.
Qed.

(** ** What the split yields *)

Lemma split_entry_elem e san : san ∈ splitSANEntry e -> nospace san /\ san <> "" /\ (uriScheme san = true \/ no_char "," san).
Proof.
  unfold splitSANEntry. rewrite flat_map_elem. intros (f & Hf & Hin). destruct (Fields_elem e f Hf) as [Hsp Hne]. destruct (uriScheme f) eqn:Eu.
  - apply list_elem_of_singleton in Hin as ->. destruct (TrimSuffix_cases f ",") as [(t & -> & ->)|[_ ->]]; [|auto].
    apply uriScheme_snoc in Eu. split_and!; [by apply (nospace_sub "" t ",")|by intros ->|by left].
  - apply elem_of_filter_b in Hin as [Hin Hn]. bd. assert (exists x y, f = x +:+ san +:+ y) as (x & y & ->).
    { rewrite <- (Join_Split f ","). apply list_elem_of_split in Hin as (l1 & l2 & ->). change (String "," "") with ",". destruct l1 as [|a l1], l2 as [|b l2].
      - exists "", "". exact (eq_sym (app_nil_s san)).
      - exists "", ("," +:+ strings.Join (b :: l2) ","). exact (Join_cons san b l2 ",").
      - exists (strings.Join (a :: l1) "," +:+ ","), "". rewrite app_nil_s, Join_app by done. by rewrite app_assoc_s.
      - rewrite Join_app by done. rewrite Join_cons. exists (strings.Join (a :: l1) "," +:+ ","). eexists. by rewrite app_assoc_s. }
    split_and!; [by apply (nospace_sub x san y)|done|]. right. pose proof (Split_no_char (x +:+ san +:+ y) ",") as Hall. rewrite Forall_forall in Hall. auto.
Qed.

Lemma split_atom c : nospace c -> c <> "" -> (forall t, c <> t +:+ ",") -> (uriScheme c = true \/ no_char "," c) -> splitSANEntry c = [c].
Proof.
  intros Hs Hne Hend Hc. unfold splitSANEntry. rewrite Fields_nospace by done. simpl. destruct (uriScheme c) eqn:E; [by rewrite TrimSuffix_id|].
  destruct Hc as [?|Hc]; [done|]. rewrite Split_one by done. simpl. by rewrite bool_decide_eq_false_2.
Qed.

(** ** What the loop returns *)

Lemma normalize_go_ok l : forall out out', normalize_go out l = Ok out' -> exists cs,
  Forall2 (fun san c => exists k, ClassifySAN san = Ok k /\ c = canonical k san) l cs /\
  (NoDup out -> NoDup out') /\ (forall c, c ∈ out' <-> c ∈ out \/ c ∈ cs) /\ exists tl, out' = out ++ tl /\ tl `sublist_of` cs.
Proof.
  induction l as [|san l IH]; intros out out' H; simpl in H.
  - injection H as <-. exists []. split_and!; [constructor|done|set_solver|]. exists []. by rewrite app_nil_r.
  - destruct (ClassifySAN san) as [k|] eqn:Ek; [|done]. simpl in H. apply IH in H as (cs & H2 & Hnd & Hel & tl & -> & Hsub).
    exists (canonical k san :: cs). case_bool_decide as E; split_and!.
    + constructor; eauto.
    + done.
    + intros c. rewrite Hel, elem_of_cons. naive_solver.
    + exists tl. split; [done|by constructor].
    + constructor; eauto.
    + intros Ho. apply Hnd. apply NoDup_app. split_and!; [done| |apply NoDup_singleton]. intros x Hx ->%list_elem_of_singleton. done.
    + intros c. rewrite Hel. set_solver.
    + exists (canonical k san :: tl). split; [by rewrite <- app_assoc|by constructor].
Qed.

Lemma normalize_go_err l : forall out e, normalize_go out l = Err e -> exists l1 san l2, l = l1 ++ san :: l2 /\
  Forall (fun s => is_ok (ClassifySAN s) = true) l1 /\ ClassifySAN san = Err e.
Proof.
  induction l as [|san l IH]; intros out e H; simpl in H; [done|]. destruct (ClassifySAN san) as [k|e'] eqn:Ek; simpl in H.
  - apply IH in H as (l1 & s & l2 & -> & H1 & H2). exists (san :: l1), s, l2. split_and!; [done| |done]. constructor; [by rewrite Ek|done].
  - injection H as ->. exists [], san, l. split_and!; [done|constructor|done].
Qed.

(** What is stored is a fixed point of the loop. *)
Definition stored_form (c : string) : Prop := splitSANEntry c = [c] /\ exists k, ClassifySAN c = Ok k /\ canonical k c = c.

Lemma normalize_go_fixed l : forall out, Forall stored_form l -> NoDup (out ++ l) -> normalize_go out (flat_map splitSANEntry l) = Ok (out ++ l).
Proof.
  induction l as [|c l IH]; intros out Hf Hnd; [by rewrite app_nil_r|]. apply Forall_cons in Hf as [(Hs & k & Hk & Hc) Hf].
  simpl. rewrite Hs. simpl. rewrite Hk. simpl. rewrite Hc. rewrite bool_decide_eq_false_2.
  - rewrite IH; [by rewrite <- app_assoc|done|]. by rewrite <- app_assoc.
  - intros Hin. apply NoDup_app in Hnd as (_ & Hnd & _). apply (Hnd c Hin). by left.
Qed.

(** The entries are classified in order: the result holds the canonical form of
    each, once, in the order of first appearance; the first entry that is none
    of the three kinds is the error, and nothing is returned. *)
Theorem NormalizeSANs_spec l :
  match NormalizeSANs l with
  | Ok out => exists cs, Forall2 (fun san c => exists k, ClassifySAN san = Ok k /\ c = canonical k san) (flat_map splitSANEntry l) cs /\
      NoDup out /\ (forall c, c ∈ out <-> c ∈ cs) /\ out `sublist_of` cs
  | Err e => exists l1 san l2, flat_map splitSANEntry l = l1 ++ san :: l2 /\ Forall (fun s => is_ok (ClassifySAN s) = true) l1 /\ ClassifySAN san = Err e
  end.
Proof.
  unfold NormalizeSANs. destruct (normalize_go [] _) as [out|e] eqn:E; [|by eapply normalize_go_err].
  apply normalize_go_ok in E as (cs & H2 & Hnd & Hel & tl & -> & Hsub). exists cs. split_and!; [done|apply Hnd; constructor| |done].
  intros c. rewrite Hel. set_solver.
Qed.

(** [net.IP.String], as documented: lower-case hexadecimal digits, dots and
    colons; it parses back to itself; a dotted address is written the way it was
    (leading zeros are refused). *)
Definition ip_char (c : ascii) : bool := is_digit c || in_code 97 102 c || bool_decide (c = "."%char) || bool_decide (c = ":"%char).
Context (HIP_text : forall s c, ParseIP s = Some c -> c <> "" /\ strings.all_chars ip_char c = true).
Context (HIP_again : forall s c, ParseIP s = Some c -> ParseIP c = Some c).
Context (HIP_dotted : forall s c, ParseIP s = Some c -> no_char ":" s -> c = s).

Lemma visible_ip : visible ip_char.
Proof. intros c. destruct c as [[] [] [] [] [] [] [] []]; vm_compute; done. Qed.
Lemma visible_dns : visible dns_char.
Proof. intros c. destruct c as [[] [] [] [] [] [] [] []]; vm_compute; done. Qed.

Lemma stored_dns d : dnsSAN d = true -> stored_form (strings.ToLowerASCII d).
Proof using HIP_dotted.
  rewrite <- dnsSAN_lower. intros Hd. set (c := strings.ToLowerASCII d) in *. assert (Hlow : strings.ToLowerASCII c = c) by apply Lower_idem.
  clearbody c. pose proof (dnsSAN_chars c Hd) as Hch. pose proof (no_colon_no_scheme c (all_chars_no dns_char ":" c eq_refl Hch)) as Hno.
  pose proof (all_chars_no dns_char "," c eq_refl Hch) as Hcomma. assert (c <> "") as Hne by (by intros ->).
  assert (strings.TrimSuffix c "." = c) as Hdot by (apply TrimSuffix_id; intros t; by apply dnsSAN_not_dotted).
  split; [apply split_atom; [by apply (visible_nospace dns_char); [apply visible_dns|]|done|by apply (no_char_snoc ",")|by right]|].
  unfold ClassifySAN. rewrite bool_decide_eq_false_2 by done. destruct (ParseIP c) as [c'|] eqn:E.
  - exists SANIP. split; [done|]. simpl. rewrite E. symmetry. rewrite (HIP_dotted c c' E); [done|]. by apply (all_chars_no dns_char).
  - rewrite Hno, Hdot, Hd. exists SANDNS. split; [done|]. simpl. by rewrite Hdot.
Qed.

Lemma canonical_stored e san k : san ∈ splitSANEntry e -> ClassifySAN san = Ok k -> (forall t, canonical k san <> t +:+ ",") -> stored_form (canonical k san).
Proof using HIP_text HIP_again HIP_dotted.
  intros Hin Hk Hend. destruct (split_entry_elem e san Hin) as (Hsp & Hne & Hor). pose proof Hk as Hk'. unfold ClassifySAN in Hk.
  rewrite bool_decide_eq_false_2 in Hk by done. destruct (ParseIP san) as [c|] eqn:Eip.
  - injection Hk as <-. simpl in *. rewrite Eip in *. destruct (HIP_text san c Eip) as [Hc Hch]. pose proof (HIP_again san c Eip) as Hag. split.
    + apply split_atom; [by apply (visible_nospace ip_char); [apply visible_ip|]|done|done|right; by apply (all_chars_no ip_char)].
    + exists SANIP. simpl. rewrite Hag. split; [|done]. unfold ClassifySAN. by rewrite bool_decide_eq_false_2, Hag by done.
  - destruct (uriScheme san) eqn:Eu.
    + assert (k = SANURI) as -> by (destruct (url_parse san) as [[h o]|]; [|done]; destruct (_ && _); congruence). simpl in *.
      split; [by apply split_atom; [..|left]|]. by exists SANURI.
    + destruct (dnsSAN (strings.TrimSuffix san ".")) eqn:Ed; [|done]. injection Hk as <-. by apply stored_dns.
Qed.

(** What was stored normalizes to itself, whatever the caller first sent:
    saving a certificate again never changes its names (unless a URI was left
    with a trailing comma). *)
Theorem NormalizeSANs_idempotent l out : NormalizeSANs l = Ok out -> (forall t, t +:+ "," ∉ out) -> NormalizeSANs out = Ok out.
Proof using HIP_text HIP_again HIP_dotted.
  intros H Hend. apply normalize_go_ok in H as (cs & H2 & Hnd & Hel & _). apply (normalize_go_fixed out []); [|apply Hnd; constructor].
  apply Forall_forall. intros c Hc. pose proof Hc as Hin. apply Hel in Hc as [Hc|Hc]; [by apply elem_of_nil in Hc|].
  apply list_elem_of_lookup in Hc as [i Hi]. destruct (Forall2_lookup_r _ _ _ _ _ H2 Hi) as (san & Hsan & k & Hk & ->).
  apply list_elem_of_lookup_2, flat_map_elem in Hsan as (e & _ & Hsan). apply (canonical_stored e); [done..|].
  intros t E. apply (Hend t). by rewrite <- E.
Qed.

(** What [url.Parse] does with a scheme followed by something that is neither a
    path nor an authority: it is the opaque part. *)
Definition opaque_law (h p : string) : Prop := url_parse (h +:+ ":" +:+ p) = Some ("", p).

(** A host with a port is taken for a URI whose scheme is the host: it is
    stored as a URI name, which no client compares with a host. *)
Theorem host_port_becomes_uri c h p : is_letter c = true -> strings.all_chars scheme_char h = true -> p <> "" ->
  ParseIP (String c h +:+ ":" +:+ p) = None -> opaque_law (String c h) p ->
  ClassifySAN (String c h +:+ ":" +:+ p) = Ok SANURI /\ canonical SANURI (String c h +:+ ":" +:+ p) = String c h +:+ ":" +:+ p.
Proof.
  intros Hc Hh Hp Hip Hurl. split; [|done]. unfold ClassifySAN. rewrite bool_decide_eq_false_2, Hip by done.
  assert (strings.cut_byte (String c h +:+ ":" +:+ p) ":" = Some (String c h, p)) as Hcut.
  { assert (forall a, no_char ":" a -> strings.cut_byte (a +:+ ":" +:+ p) ":" = Some (a, p)) as Hgen.
    { unfold no_char. induction a as [|d a IH]; intros Ha; simpl in Ha |- *; [done|]. bd. rewrite bool_decide_eq_false_2 by done.
      change (a +:+ String ":" p) with (a +:+ ":" +:+ p). by rewrite IH. }
    apply Hgen. apply (all_chars_no scheme_char); [done|]. rewrite all_chars_cons, Hh, andb_true_r. unfold scheme_char, is_alnum. by rewrite Hc. }
  assert (uriScheme (String c h +:+ ":" +:+ p) = true) as ->.
  { unfold uriScheme. rewrite Hcut. by rewrite Hc, Hh. }
  rewrite Hurl. by rewrite (bool_decide_eq_false_2 (p = "")), andb_false_r by done.
Qed.
End Sans.

(** ** Concrete parsers *)

(** One IPv6 address in two spellings and a dotted one. *)
Definition demoParseIP (s : string) : option string :=
  if bool_decide (s = "::1") || bool_decide (s = "::0001") then Some "::1"
  else if bool_decide (s = "10.0.0.1") then Some "10.0.0.1" else None.
(** The authority after [//], else the whole rest. *)
Definition demoURL (s : string) : option (string * string) :=
  match strings.cut_byte s ":" with
  | None => None
  | Some (_, rest) =>
      if strings.HasPrefix rest "//" then Some (hd "" (strings.Split (strings.drop 2 rest) "/"), "")
      else if strings.HasPrefix rest "/" then Some ("", "") else Some ("", rest)
  end.

Lemma demoIP_cases s c : demoParseIP s = Some c -> c = "::1" /\ s <> "10.0.0.1" /\ (s = "::1" \/ s = "::0001") \/ c = "10.0.0.1" /\ s = "10.0.0.1".
Proof. unfold demoParseIP. intros H. repeat case_bool_decide; simplify_eq/=; naive_solver. Qed.

Definition demoSANs : list string := ["API.example.com., ::0001"; "spiffe://td/Svc,"; "::1,api.example.com"].
Definition demoStored : list string := ["api.example.com"; "::1"; "spiffe://td/Svc"].

Theorem NormalizeSANs_idempotent_witness : NormalizeSANs demoParseIP demoURL demoSANs = Ok demoStored /\ NormalizeSANs demoParseIP demoURL demoStored = Ok demoStored.
Proof.
  assert (NormalizeSANs demoParseIP demoURL demoSANs = Ok demoStored) as H by (vm_compute; reflexivity). split; [exact H|].
  apply (NormalizeSANs_idempotent demoParseIP demoURL) with (l := demoSANs); [| | |exact H|].
  - intros s c Hs. destruct (demoIP_cases s c Hs) as [[-> _]|[-> _]]; by split.
  - intros s c Hs. destruct (demoIP_cases s c Hs) as [[-> _]|[-> _]]; reflexivity.
  - intros s c Hs. destruct (demoIP_cases s c Hs) as [(-> & _ & [->| ->])|[-> ->]]; done.
  - intros t Ht. unfold demoStored in Ht. assert (forall x, x ∈ demoStored -> no_char "," x) as Hno.
    { intros x Hx. unfold demoStored in Hx. repeat (apply elem_of_cons in Hx as [->|Hx]; [vm_compute; reflexivity|]). by apply elem_of_nil in Hx. }
    apply (no_char_snoc "," _ (Hno _ Ht) t). done.
Defined.

Theorem host_port_becomes_uri_witness : ClassifySAN demoParseIP demoURL "api:8443" = Ok SANURI.
Proof. destruct (host_port_becomes_uri demoParseIP demoURL "a" "pi" "8443") as [H _]; [done|done|done|done|vm_compute; reflexivity|exact H]. Defined.
