(* ===== verification/Manifest.v ===== *)
(** * The provisioning document

    Models [internal/manifest]: the document's types ([manifest.go]), the one
    substitution form it allows ([GeneratedRefs], [ExpandGenerated]), the order
    apply walks ([order.go]) and [Validate] ([validate.go]), which reports every
    problem at once. A document with no problem is [well_formed], and the other
    way around. The YAML library is a parameter. *)
From S2P Require Import Prelude GoStd Paths Sans.
Local Open Scope string_scope.
Local Open Scope list_scope.
Local Open Scope daffa_scope.

(** ** The document *)

Record SecretRef := { sr_ValueFromEnv : string }.
Record SSHKey := { sk_Name : string; sk_Algo : string }.
Record Registry := { rg_Name : string; rg_URL : string; rg_Username : string; rg_Password : option SecretRef }.
Record GitCredential := { gc_Name : string; gc_Kind : string; gc_Username : string; gc_Token : option SecretRef; gc_SSHKey : string; gc_HostKey : string }.
Record Network := { nw_Cluster : string; nw_Name : string; nw_Driver : string; nw_Attachable : bool }.
Record CA := { ca_Name : string; ca_CommonName : string; ca_Org : string; ca_KeyAlgo : string; ca_Days : Z; ca_OutboundTrust : option bool }.
Record Certificate := { ct_Name : string; ct_Cluster : string; ct_Shared : bool; ct_CA : string; ct_SANs : list string; ct_Usages : list string;
  ct_KeyAlgo : string; ct_ValidityDays : Z; ct_RenewBeforeDays : Z }.
Record Keyring := { kr_Name : string; kr_RotateDays : Z }.
Record DeliveryCert := { dc_Name : string; dc_Default : bool }.
Record CertDelivery := { cd_Cluster : string; cd_Volume : string; cd_Certs : list DeliveryCert; cd_MountPath : string; cd_UID : Z; cd_GID : Z;
  cd_Traefik : bool; cd_RestartTargets : string; cd_BundleCAs : list string }.
Record KeyringDelivery := { kd_Keyring : string; kd_Cluster : string; kd_Volume : string; kd_UID : Z; kd_GID : Z; kd_RestartTargets : string }.
Record GeneratedSecret := { gs_Name : string; gs_Format : string; gs_Length : Z }.
Record GitSource := { gt_URL : string; gt_Ref : string; gt_Path : string; gt_Credential : string }.
Record StackSource := { ss_Git : option GitSource; ss_Compose : string }.
Record EnvVar := { ev_Key : string; ev_Value : string; ev_Secret : bool; ev_ValueFromEnv : string; ev_FromGenerated : string }.
Record Webhook := { wh_Name : string; wh_Cluster : string; wh_Shared : bool; wh_Secret : option SecretRef }.
Record SecretFile := { sf_Name : string; sf_FromGenerated : string; sf_Value : string; sf_ValueFromEnv : string }.
Record Stack := { st_Name : string; st_Cluster : string; st_Engine : string; st_Source : StackSource; st_WatchPaths : list string;
  st_AutoDeploy : bool; st_Webhook : string; st_Env : list EnvVar; st_SecretFiles : list SecretFile }.
Record File := { fl_Path : string; fl_Content : string }.
Record VolumeSourceSpec := { vp_Git : option GitSource; vp_Files : list File }.
Record VolumeSource := { vs_Cluster : string; vs_Volume : string; vs_Source : VolumeSourceSpec; vs_Stack : string; vs_RestartTargets : string;
  vs_UID : Z; vs_GID : Z; vs_AutoSync : bool; vs_Webhook : string }.
Record Manifest := { m_Version : Z; m_Name : string; m_Cluster : string; m_SSHKeys : list SSHKey; m_Registries : list Registry;
  m_GitCredentials : list GitCredential; m_Networks : list Network; m_CAs : list CA; m_Certificates : list Certificate; m_Keyrings : list Keyring;
  m_CertDeliveries : list CertDelivery; m_KeyringDeliveries : list KeyringDelivery; m_GeneratedSecrets : list GeneratedSecret;
  m_Webhooks : list Webhook; m_Stacks : list Stack; m_VolumeSources : list VolumeSource }.

Inductive Kind := KindSSHKey | KindRegistry | KindGitCredential | KindNetwork | KindCA | KindCertificate | KindKeyring | KindCertDelivery
  | KindKeyringDelivery | KindGeneratedSecret | KindWebhook | KindStack | KindVolumeSource.
#[export] Instance Kind_eq_dec : EqDecision Kind.
Proof. solve_decision. Defined.
Definition kind_name (k : Kind) : string :=
  match k with
  | KindSSHKey => "ssh_key" | KindRegistry => "registry" | KindGitCredential => "git_credential" | KindNetwork => "network" | KindCA => "ca"
  | KindCertificate => "certificate" | KindKeyring => "keyring" | KindCertDelivery => "cert_delivery" | KindKeyringDelivery => "keyring_delivery"
  | KindGeneratedSecret => "generated_secret" | KindWebhook => "webhook" | KindStack => "stack" | KindVolumeSource => "volume_source"
  end.
Definition Order : list Kind :=
  [KindSSHKey; KindRegistry; KindGitCredential; KindNetwork; KindCA; KindCertificate; KindKeyring; KindCertDelivery; KindKeyringDelivery;
   KindGeneratedSecret; KindWebhook; KindStack; KindVolumeSource].

(** ** Decoding *)

(** What [Decode] answers: the end of the stream, an error, or a value. *)
Inductive yres (A : Type) := YEOF | YErr | YOk (a : A).
Arguments YEOF {A}. Arguments YErr {A}. Arguments YOk {A} a.

Inductive ParseErr := EmptyDocument | BadYAML | SecondDocument.
Section Decoding.
Context {bytes Dec : Type} (NewDecoder : bytes -> Dec) (decodeManifest : Dec -> yres Manifest * Dec) (decodeAny : Dec -> yres unit).
Definition Parse (doc : bytes) : res ParseErr Manifest :=
  let (r, dec) := decodeManifest (NewDecoder doc) in
  match r with
  | YEOF => Err EmptyDocument
  | YErr => Err BadYAML
  | YOk m => match decodeAny dec with YOk _ => Err SecondDocument | YErr => Err BadYAML | YEOF => Ok m end
  end.
End Decoding.

(** A YAML node: a scalar, or something whose decoding as a map of strings is
    given (the library's answer). *)
Inductive Node := Scalar (value : string) | Other (decoded : option (list (string * string))).
Definition mapget (raw : list (string * string)) (k : string) : string :=
  match List.find (fun p => bool_decide (p.1 = k)) raw with Some p => p.2 | None => "" end.
Definition UnmarshalYAML (node : Node) : res (option string) SecretFile :=
  match node with
  | Scalar v => Ok {| sf_Name := v; sf_FromGenerated := ""; sf_Value := ""; sf_ValueFromEnv := "" |}
  | Other None => Err None
  | Other (Some raw) =>
      match List.find (fun p => negb (bool_decide (p.1 ∈ ["name"; "from_generated"; "value"; "value_from_env"]))) raw with
      | Some p => Err (Some p.1)
      | None => Ok {| sf_Name := mapget raw "name"; sf_FromGenerated := mapget raw "from_generated"; sf_Value := mapget raw "value";
                      sf_ValueFromEnv := mapget raw "value_from_env" |}
      end
  end.

(** ** References to generated secrets *)

Definition ref_open : string := "${generated:".
Definition ref_char (c : ascii) : bool := is_alnum c || bool_decide (c = "_"%char) || bool_decide (c = "-"%char).
Fixpoint span (f : ascii -> bool) (s : string) : string * string :=
  match s with
  | "" => ("", "")
  | String c s' => if f c then let (a, b) := span f s' in (String c a, b) else ("", s)
  end.

(** The expression [generatedRef] at the head of [s]: the name it captures. *)
Definition ref_at (s : string) : option string :=
  if strings.HasPrefix s ref_open then
    match span ref_char (strings.drop (String.length ref_open) s) with
    | (String c n, String d _) => if is_alnum c && bool_decide (d = "}"%char) then Some (String c n) else None
    | _ => None
    end
  else None.

(** The leftmost matches that do not overlap, and the characters between them;
    [skip] counts the bytes of a match still to pass. *)
Fixpoint scan (skip : nat) (s : string) : list (ascii + string) :=
  match s with
  | "" => []
  | String c s' =>
      match skip with
      | S k => scan k s'
      | O => match ref_at s with
             | Some name => inr name :: scan (String.length ref_open + String.length name) s'
             | None => inl c :: scan 0 s'
             end
      end
  end.

Definition GeneratedRefs (s : string) : list string := omap (fun t => match t with inr n => Some n | inl _ => None end) (scan 0 s).

Definition ref_text (name : string) : string := ref_open +:+ name +:+ "}".
Definition expand_step (resolve : string -> option string) (t : ascii + string) (acc : string * bool) : string * bool :=
  match t with
  | inl c => (String c acc.1, acc.2)
  | inr n => match resolve n with Some v => (v +:+ acc.1, acc.2) | None => (ref_text n +:+ acc.1, false) end
  end.
Definition ExpandGenerated (s : string) (resolve : string -> option string) : string * bool :=
  foldr (expand_step resolve) ("", true) (scan 0 s).

(** ** Names *)

Definition starts_alnum (rest : ascii -> bool) (s : string) : bool :=
  match s with "" => false | String c r => is_alnum c && strings.all_chars rest r end.
Definition name_char (c : ascii) : bool := is_alnum c || bool_decide (c = "."%char) || bool_decide (c = "_"%char) || bool_decide (c = "-"%char).
Definition certLikeName (s : string) : bool := starts_alnum name_char s && (String.length s <=? 64)%nat.
Definition dockerName (s : string) : bool := starts_alnum name_char s.
Definition genSecretName (s : string) : bool := starts_alnum ref_char s && (String.length s <=? 64)%nat.
Definition env_char (c : ascii) : bool := is_alnum c || bool_decide (c = "_"%char).
Definition envVarName (s : string) : bool :=
  match s with "" => false | String c r => (is_letter c || bool_decide (c = "_"%char)) && strings.all_chars env_char r end.

(** The loop over the runes, [i > 0] being the second argument. *)
Fixpoint project_chars (later : bool) (s : string) : bool :=
  match s with
  | "" => true
  | String c r =>
      (is_lower c || is_digit c || ((bool_decide (c = "-"%char) || bool_decide (c = "_"%char)) && later)) && project_chars true r
  end.
Definition validProjectName (n : string) : bool :=
  if bool_decide (n = "") || (63 <? String.length n)%nat then false else project_chars false n.

Definition CR : ascii := ascii_of_nat 13.
Definition LF : ascii := ascii_of_nat 10.
Definition validLabel (n : string) : bool :=
  negb (bool_decide (n = "")) && (String.length n <=? 128)%nat && bool_decide (strings.TrimSpace n = n) &&
  negb (strings.has_char (fun c => bool_decide (c = CR) || bool_decide (c = LF)) n).

(** ** Validation: the state the closures of [Validate] share *)

Inductive Why :=
| VersionRequired (got : Z) | NameNotOneLine | BadManifestCluster (c : string) | NoCluster | BadCluster (c : string) | DeclaredTwice
| BadValueFromEnv (field v : string) | InvalidName | URLRequired | SSHKeyOnToken | TokenOnSSH | SSHNeedsKey | BadCredentialKind (k : string)
| CommonNameRequired | NegativeDays | SharedAndCluster | CARequired | SANRequired | BadSAN (e : SANErr) | BadUsage (u : string) | NegativeValidity
| NegativeRotate | BadFormat (f : string) | BadLength | InvalidVolume | EmptyDelivery | CertWithoutName | TwoDefaults | KeyringRequired
| BadEngine (e : string) | BothSources | NoSource | GitNeedsURL | WebhookNeedsGit | BadEnvKey (k : string) | EnvKeyTwice (k : string)
| EnvManySources (k : string) | EnvLiteralSecret (k : string) | EnvImpliesSecret (k : string) | BadEnvSource (k v : string) | SecretFilesNeedSwarm
| BadFileName (f : string) | FileTwice (f : string) | FileManySources (f : string) | BadFileSource (f v : string) | FileLiteralSecret (f : string)
| PathEscapes (p : string) | PathTwice (p : string) | NeverDeclared | NeverReferenced.

Record Problem := Fail { p_kind : option Kind; p_name : string; p_why : Why }.
Record Vst := { errs : list Problem; seen : list string; genDeclared : list string; genReferenced : list string }.

(** A piece of [Validate]: a state transformer. [fail_if c p] is
    [if c { fail(p) }], [cond] an [if] with both branches or a [switch]. *)
Definition V : Type := Vst -> Vst.
Definition skip : V := fun st => st.
Definition seq (a b : V) : V := fun st => b (a st).
Definition cond (c : bool) (a b : V) : V := fun st => if c then a st else b st.
Definition fail (p : Problem) : V :=
  fun st => {| errs := errs st ++ [p]; seen := seen st; genDeclared := genDeclared st; genReferenced := genReferenced st |}.
Definition fail_if (c : bool) (p : Problem) : V := cond c (fail p) skip.
Definition each {A} (l : list A) (f : A -> V) : V := fun st => fold_left (fun st x => f x st) l st.
Notation "a ';;' b" := (seq a b) (at level 100, b at level 200, right associativity) : daffa_scope.

(** A loop with a set of its own, to which the body adds [key x] when there is
    one ([envSeen], [fileSeen], [pathSeen]). *)
Fixpoint each_with {A} (key : A -> option string) (l : list A) (local : list string) (f : list string -> A -> V) : V :=
  match l with
  | [] => skip
  | x :: l => f local x ;; each_with key l (match key x with Some k => local ++ [k] | None => local end) f
  end.

Definition NUL : ascii := ascii_of_nat 0.
Definition scope_key (kind : Kind) (scope name : string) : string := kind_name kind +:+ String NUL (scope +:+ String NUL name).
Definition dup (kind : Kind) (scope name : string) : V :=
  (fun st => fail_if (bool_decide (scope_key kind scope name ∈ seen st)) (Fail (Some kind) name DeclaredTwice) st) ;;
  (fun st => {| errs := errs st; seen := seen st ++ [scope_key kind scope name]; genDeclared := genDeclared st; genReferenced := genReferenced st |}).
Definition declare (name : string) : V :=
  fun st => {| errs := errs st; seen := seen st; genDeclared := genDeclared st ++ [name]; genReferenced := genReferenced st |}.
Definition reference (name : string) : V :=
  fun st => {| errs := errs st; seen := seen st; genDeclared := genDeclared st; genReferenced := genReferenced st ++ [name] |}.

Definition empty (s : string) : bool := bool_decide (s = "").
Definition secretRef (kind : Kind) (name field : string) (ref : option SecretRef) : V :=
  match ref with
  | Some r => fail_if (negb (empty (sr_ValueFromEnv r)) && negb (envVarName (sr_ValueFromEnv r))) (Fail (Some kind) name (BadValueFromEnv field (sr_ValueFromEnv r)))
  | None => skip
  end.

(** The number of sources set, and the two checks a value with references
    shares between variables and files. *)
Definition sources (l : list bool) : nat := length (List.filter id l).

Section Validate.
Context (ParseIP : string -> option string) (url_parse : string -> option (string * string)).
Section Document.
Context (m : Manifest).

Definition needsCluster (kind : Kind) (name cluster : string) : V :=
  fail_if (empty cluster && empty (m_Cluster m)) (Fail (Some kind) name NoCluster) ;;
  fail_if (negb (empty cluster) && negb (validLabel cluster)) (Fail (Some kind) name (BadCluster cluster)).

Definition validateHead : V :=
  fail_if (negb (bool_decide (m_Version m = 1%Z))) (Fail None "" (VersionRequired (m_Version m))) ;;
  fail_if (negb (empty (m_Name m)) && negb (validLabel (m_Name m))) (Fail None "" NameNotOneLine) ;;
  fail_if (negb (empty (m_Cluster m)) && negb (validLabel (m_Cluster m))) (Fail None "" (BadManifestCluster (m_Cluster m))).

Definition validateSSHKey (k : SSHKey) : V :=
  fail_if (negb (validLabel (sk_Name k))) (Fail (Some KindSSHKey) (sk_Name k) InvalidName) ;;
  dup KindSSHKey "" (sk_Name k).

Definition validateRegistry (r : Registry) : V :=
  let bad := Fail (Some KindRegistry) (rg_Name r) in
  fail_if (negb (validLabel (rg_Name r))) (bad InvalidName) ;;
  dup KindRegistry "" (rg_Name r) ;;
  fail_if (empty (rg_URL r)) (bad URLRequired) ;;
  secretRef KindRegistry (rg_Name r) "password" (rg_Password r).

Definition validateGitCredential (g : GitCredential) : V :=
  let bad := Fail (Some KindGitCredential) (gc_Name g) in
  fail_if (negb (validLabel (gc_Name g))) (bad InvalidName) ;;
  dup KindGitCredential "" (gc_Name g) ;;
  cond (bool_decide (gc_Kind g = "token")) (fail_if (negb (empty (gc_SSHKey g))) (bad SSHKeyOnToken))
    (cond (bool_decide (gc_Kind g = "ssh"))
      (fail_if (bool_decide (is_Some (gc_Token g))) (bad TokenOnSSH) ;; fail_if (empty (gc_SSHKey g)) (bad SSHNeedsKey))
      (fail (bad (BadCredentialKind (gc_Kind g))))) ;;
  secretRef KindGitCredential (gc_Name g) "token" (gc_Token g).

Definition validateNetwork (n : Network) : V :=
  fail_if (negb (dockerName (nw_Name n))) (Fail (Some KindNetwork) (nw_Name n) InvalidName) ;;
  needsCluster KindNetwork (nw_Name n) (nw_Cluster n) ;;
  dup KindNetwork (nw_Cluster n) (nw_Name n).

Definition validateCA (c : CA) : V :=
  let bad := Fail (Some KindCA) (ca_Name c) in
  fail_if (negb (certLikeName (ca_Name c))) (bad InvalidName) ;;
  dup KindCA "" (ca_Name c) ;;
  fail_if (empty (strings.TrimSpace (ca_CommonName c))) (bad CommonNameRequired) ;;
  fail_if (ca_Days c <? 0)%Z (bad NegativeDays).

Definition cert_scope (c : Certificate) : string :=
  if ct_Shared c && negb (empty (ct_Cluster c)) then ct_Cluster c else if ct_Shared c then String NUL "shared" else ct_Cluster c.
Definition validateCertificate (c : Certificate) : V :=
  let bad := Fail (Some KindCertificate) (ct_Name c) in
  fail_if (negb (certLikeName (ct_Name c))) (bad InvalidName) ;;
  cond (ct_Shared c && negb (empty (ct_Cluster c))) (fail (bad SharedAndCluster))
    (cond (ct_Shared c) skip (needsCluster KindCertificate (ct_Name c) (ct_Cluster c))) ;;
  dup KindCertificate (cert_scope c) (ct_Name c) ;;
  fail_if (empty (ct_CA c)) (bad CARequired) ;;
  fail_if (bool_decide (ct_SANs c = [])) (bad SANRequired) ;;
  match NormalizeSANs ParseIP url_parse (ct_SANs c) with Ok _ => skip | Err e => fail (bad (BadSAN e)) end ;;
  each (ct_Usages c) (fun u => fail_if (negb (bool_decide (u = "server")) && negb (bool_decide (u = "client"))) (bad (BadUsage u))) ;;
  fail_if ((ct_ValidityDays c <? 0)%Z || (ct_RenewBeforeDays c <? 0)%Z) (bad NegativeValidity).

Definition validateKeyring (k : Keyring) : V :=
  fail_if (negb (certLikeName (kr_Name k))) (Fail (Some KindKeyring) (kr_Name k) InvalidName) ;;
  dup KindKeyring "" (kr_Name k) ;;
  fail_if (kr_RotateDays k <? 0)%Z (Fail (Some KindKeyring) (kr_Name k) NegativeRotate).

Definition validateGeneratedSecret (g : GeneratedSecret) : V :=
  let bad := Fail (Some KindGeneratedSecret) (gs_Name g) in
  fail_if (negb (genSecretName (gs_Name g))) (bad InvalidName) ;;
  dup KindGeneratedSecret "" (gs_Name g) ;;
  declare (gs_Name g) ;;
  fail_if (negb (bool_decide (gs_Format g ∈ [""; "alphanumeric"; "hex"; "base64"]))) (bad (BadFormat (gs_Format g))) ;;
  fail_if (negb (bool_decide (gs_Length g = 0%Z)) && ((gs_Length g <? 16)%Z || (128 <? gs_Length g)%Z)) (bad BadLength).

Definition validateWebhook (w : Webhook) : V :=
  fail_if (negb (validLabel (wh_Name w))) (Fail (Some KindWebhook) (wh_Name w) InvalidName) ;;
  cond (wh_Shared w && negb (empty (wh_Cluster w))) (fail (Fail (Some KindWebhook) (wh_Name w) SharedAndCluster))
    (cond (negb (wh_Shared w)) (needsCluster KindWebhook (wh_Name w) (wh_Cluster w)) skip) ;;
  dup KindWebhook "" (wh_Name w) ;;
  secretRef KindWebhook (wh_Name w) "secret" (wh_Secret w).

Definition validateCertDelivery (d : CertDelivery) : V :=
  let bad := Fail (Some KindCertDelivery) (cd_Volume d) in
  fail_if (negb (dockerName (cd_Volume d))) (bad InvalidVolume) ;;
  needsCluster KindCertDelivery (cd_Volume d) (cd_Cluster d) ;;
  dup KindCertDelivery (cd_Cluster d) (cd_Volume d) ;;
  fail_if (bool_decide (cd_Certs d = []) && bool_decide (cd_BundleCAs d = [])) (bad EmptyDelivery) ;;
  each (cd_Certs d) (fun c => fail_if (empty (dc_Name c)) (bad CertWithoutName)) ;;
  fail_if (1 <? length (List.filter dc_Default (cd_Certs d)))%nat (bad TwoDefaults).

Definition keyring_scope (d : KeyringDelivery) : string := kd_Cluster d +:+ String NUL (kd_Keyring d).
Definition validateKeyringDelivery (d : KeyringDelivery) : V :=
  let bad := Fail (Some KindKeyringDelivery) (kd_Volume d) in
  fail_if (negb (dockerName (kd_Volume d))) (bad InvalidVolume) ;;
  needsCluster KindKeyringDelivery (kd_Volume d) (kd_Cluster d) ;;
  dup KindKeyringDelivery (keyring_scope d) (kd_Volume d) ;;
  fail_if (empty (kd_Keyring d)) (bad KeyringRequired).

Definition validateGitSource (kind : Kind) (name : string) (g : GitSource) : V := fail_if (empty (gt_URL g)) (Fail (Some kind) name GitNeedsURL).

Definition validateStackSource (st : Stack) : V :=
  match ss_Git (st_Source st), empty (ss_Compose (st_Source st)) with
  | Some _, false => fail (Fail (Some KindStack) (st_Name st) BothSources)
  | None, true => fail (Fail (Some KindStack) (st_Name st) NoSource)
  | Some g, true => validateGitSource KindStack (st_Name st) g
  | None, false => skip
  end.

Definition validateEnv (st : Stack) (envSeen : list string) (e : EnvVar) : V :=
  let bad := Fail (Some KindStack) (st_Name st) in
  let refs := GeneratedRefs (ev_Value e) in
  fail_if (negb (envVarName (ev_Key e))) (bad (BadEnvKey (ev_Key e))) ;;
  fail_if (bool_decide (ev_Key e ∈ envSeen)) (bad (EnvKeyTwice (ev_Key e))) ;;
  fail_if (1 <? sources [negb (empty (ev_Value e)); negb (empty (ev_ValueFromEnv e)); negb (empty (ev_FromGenerated e))])%nat (bad (EnvManySources (ev_Key e))) ;;
  fail_if (ev_Secret e && negb (empty (ev_Value e)) && bool_decide (refs = [])) (bad (EnvLiteralSecret (ev_Key e))) ;;
  fail_if (negb (ev_Secret e) && (negb (empty (ev_ValueFromEnv e)) || negb (empty (ev_FromGenerated e)) || negb (bool_decide (refs = [])))) (bad (EnvImpliesSecret (ev_Key e))) ;;
  fail_if (negb (empty (ev_ValueFromEnv e)) && negb (envVarName (ev_ValueFromEnv e))) (bad (BadEnvSource (ev_Key e) (ev_ValueFromEnv e))) ;;
  cond (negb (empty (ev_FromGenerated e))) (reference (ev_FromGenerated e)) skip ;;
  each refs reference.

Definition validateSecretFile (st : Stack) (fileSeen : list string) (s : SecretFile) : V :=
  let bad := Fail (Some KindStack) (st_Name st) in
  let refs := GeneratedRefs (sf_Value s) in
  fail_if (negb (certLikeName (sf_Name s))) (bad (BadFileName (sf_Name s))) ;;
  fail_if (bool_decide (sf_Name s ∈ fileSeen)) (bad (FileTwice (sf_Name s))) ;;
  fail_if (1 <? sources [negb (empty (sf_Value s)); negb (empty (sf_ValueFromEnv s)); negb (empty (sf_FromGenerated s))])%nat (bad (FileManySources (sf_Name s))) ;;
  fail_if (negb (empty (sf_ValueFromEnv s)) && negb (envVarName (sf_ValueFromEnv s))) (bad (BadFileSource (sf_Name s) (sf_ValueFromEnv s))) ;;
  fail_if (negb (empty (sf_Value s)) && bool_decide (refs = [])) (bad (FileLiteralSecret (sf_Name s))) ;;
  cond (negb (empty (sf_FromGenerated s))) (reference (sf_FromGenerated s)) skip ;;
  each refs reference.

Definition validateStack (st : Stack) : V :=
  let bad := Fail (Some KindStack) (st_Name st) in
  fail_if (negb (validProjectName (st_Name st))) (bad InvalidName) ;;
  needsCluster KindStack (st_Name st) (st_Cluster st) ;;
  dup KindStack (st_Cluster st) (st_Name st) ;;
  fail_if (negb (bool_decide (st_Engine st = "compose")) && negb (bool_decide (st_Engine st = "swarm"))) (bad (BadEngine (st_Engine st))) ;;
  validateStackSource st ;;
  fail_if (negb (empty (st_Webhook st)) && bool_decide (ss_Git (st_Source st) = None)) (bad WebhookNeedsGit) ;;
  each_with (fun e => Some (ev_Key e)) (st_Env st) [] (validateEnv st) ;;
  fail_if (negb (bool_decide (st_SecretFiles st = [])) && negb (bool_decide (st_Engine st = "swarm"))) (bad SecretFilesNeedSwarm) ;;
  each_with (fun s => Some (sf_Name s)) (st_SecretFiles st) [] (validateSecretFile st).

Definition escapes (p : string) : bool :=
  empty p || path.IsAbs p || bool_decide (path.Clean p = "..") || strings.HasPrefix (path.Clean p) "../".
Definition path_key (f : File) : option string := if escapes (fl_Path f) then None else Some (path.Clean (fl_Path f)).
Definition validateFile (v : VolumeSource) (pathSeen : list string) (f : File) : V :=
  let bad := Fail (Some KindVolumeSource) (vs_Volume v) in
  cond (escapes (fl_Path f)) (fail (bad (PathEscapes (fl_Path f))))
    (fail_if (bool_decide (path.Clean (fl_Path f) ∈ pathSeen)) (bad (PathTwice (fl_Path f)))).

Definition validateVolumeSource (v : VolumeSource) : V :=
  let bad := Fail (Some KindVolumeSource) (vs_Volume v) in
  fail_if (negb (dockerName (vs_Volume v))) (bad InvalidVolume) ;;
  needsCluster KindVolumeSource (vs_Volume v) (vs_Cluster v) ;;
  dup KindVolumeSource (vs_Cluster v) (vs_Volume v) ;;
  match vp_Git (vs_Source v), vp_Files (vs_Source v) with
  | Some _, _ :: _ => fail (bad BothSources)
  | None, [] => fail (bad NoSource)
  | Some g, [] => validateGitSource KindVolumeSource (vs_Volume v) g
  | None, files => fail_if (negb (empty (vs_Webhook v))) (bad WebhookNeedsGit) ;; each_with path_key files [] (validateFile v)
  end.

(** The cross-check of the generated secrets. The range over [genReferenced] is
    in some order: Go's map order is unspecified. *)
Definition validateGenerated : V :=
  (fun st => each (remove_dups (genReferenced st)) (fun name => fail_if (negb (bool_decide (name ∈ genDeclared st))) (Fail None name NeverDeclared)) st) ;;
  (fun st => each (m_GeneratedSecrets m) (fun g =>
     fail_if (bool_decide (gs_Name g ∈ genDeclared st) && negb (bool_decide (gs_Name g ∈ genReferenced st))) (Fail (Some KindGeneratedSecret) (gs_Name g) NeverReferenced)) st).

Definition validateSections : V :=
  validateHead ;;
  each (m_SSHKeys m) validateSSHKey ;; each (m_Registries m) validateRegistry ;; each (m_GitCredentials m) validateGitCredential ;;
  each (m_Networks m) validateNetwork ;; each (m_CAs m) validateCA ;; each (m_Certificates m) validateCertificate ;;
  each (m_Keyrings m) validateKeyring ;; each (m_GeneratedSecrets m) validateGeneratedSecret ;; each (m_Webhooks m) validateWebhook ;;
  each (m_CertDeliveries m) validateCertDelivery ;; each (m_KeyringDeliveries m) validateKeyringDelivery ;;
  each (m_Stacks m) validateStack ;; each (m_VolumeSources m) validateVolumeSource.

Definition Validate : list Problem :=
  errs ((validateSections ;; validateGenerated) {| errs := []; seen := []; genDeclared := []; genReferenced := [] |}).
End Document.
End Validate.

(** ** What a piece of [Validate] does

    [Does v P ks ds rs]: [v] adds the keys [ks], declares [ds], references [rs],
    and reports nothing exactly when [P] holds and the keys are new. *)
Definition fresh (ks s : list string) : Prop := NoDup ks /\ forall k, k ∈ ks -> k ∉ s.

Class Does (v : V) (P : Prop) (ks ds rs : list string) : Prop := does : forall st,
  (errs (v st) = [] <-> errs st = [] /\ P /\ fresh ks (seen st)) /\
  seen (v st) = seen st ++ ks /\ genDeclared (v st) = genDeclared st ++ ds /\ genReferenced (v st) = genReferenced st ++ rs.

Lemma fresh_nil s : fresh [] s <-> True.
Proof. split; [done|]. intros _. split; [constructor|]. by intros k ?%elem_of_nil. Qed.
Lemma fresh_app k1 k2 s : fresh (k1 ++ k2) s <-> fresh k1 s /\ fresh k2 (s ++ k1).
Proof. unfold fresh. rewrite NoDup_app. setoid_rewrite elem_of_app. intuition eauto. Qed.

Lemma Does_iff v P Q ks ks' ds ds' rs rs' : Does v P ks ds rs -> (P <-> Q) -> ks = ks' -> ds = ds' -> rs = rs' -> Does v Q ks' ds' rs'.
Proof. intros H HPQ <- <- <- st. destruct (H st) as (H1 & H2). by rewrite <- HPQ. Qed.

#[export] Instance Does_skip : Does skip True [] [] [].
Proof. intros st. rewrite fresh_nil, !app_nil_r. unfold skip. tauto. Qed.
#[export] Instance Does_fail p : Does (fail p) False [] [] [].
Proof. intros st. rewrite !app_nil_r. split; [|done]. simpl. split; [by intros [_ [=]]%app_nil|tauto]. Qed.
#[export] Instance Does_seq a b P Q k1 d1 r1 k2 d2 r2 : Does a P k1 d1 r1 -> Does b Q k2 d2 r2 -> Does (seq a b) (P /\ Q) (k1 ++ k2) (d1 ++ d2) (r1 ++ r2).
Proof.
  intros Ha Hb st. unfold seq. destruct (Ha st) as (Ha1 & Has & Had & Har), (Hb (a st)) as (Hb1 & -> & -> & ->).
  rewrite Hb1, Ha1, Has, Had, Har, fresh_app, !app_assoc. tauto.
Qed.
#[export] Instance Does_cond (c : bool) a b P Q ks ds rs ks' ds' rs' : Does a P ks ds rs -> Does b Q ks' ds' rs' ->
  Does (cond c a b) (if c then P else Q) (if c then ks else ks') (if c then ds else ds') (if c then rs else rs').
Proof. unfold cond. by destruct c. Qed.
#[export] Instance Does_fail_if c p : Does (fail_if c p) (c = false) [] [] [].
Proof. unfold fail_if. eapply Does_iff; [apply _|destruct c; by split|by destruct c..]. Qed.
#[export] Instance Does_dup kind scope name : Does (dup kind scope name) True [scope_key kind scope name] [] [].
Proof.
  intros st. unfold dup, seq, fail_if, cond, fail, skip. case_bool_decide as E; cbn [seen genDeclared genReferenced errs]; rewrite !app_nil_r; (split; [|done]).
  - split; [by intros [_ [=]]%app_nil|]. intros (_ & _ & _ & Hf). destruct (Hf _ (list_elem_of_here _ _) E).
  - split; [|tauto]. intros ->. split_and!; [done..|]. split; [apply NoDup_singleton|]. by intros k ->%list_elem_of_singleton.
Qed.
#[export] Instance Does_declare n : Does (declare n) True [] [n] [].
Proof. intros st. rewrite fresh_nil, !app_nil_r. simpl. tauto. Qed.
#[export] Instance Does_reference n : Does (reference n) True [] [] [n].
Proof. intros st. rewrite fresh_nil, !app_nil_r. simpl. tauto. Qed.

#[export] Instance Does_each {A} (l : list A) f P ks ds rs : (forall x, Does (f x) (P x) (ks x) (ds x) (rs x)) ->
  Does (each l f) (Forall P l) (flat_map ks l) (flat_map ds l) (flat_map rs l).
Proof.
  intros Hf. induction l as [|x l IH].
  - eapply Does_iff; [apply Does_skip|by rewrite Forall_nil|done..].
  - change (each (x :: l) f) with (f x ;; each l f). eapply Does_iff; [by apply Does_seq|by rewrite Forall_cons|done..].
Qed.

(** A loop with a local set reports nothing when its own keys are distinct. *)
Lemma Does_each_with {A} (key : A -> option string) (l : list A) f P rs :
  (forall loc x, Does (f loc x) (P x /\ forall k, key x = Some k -> k ∉ loc) [] [] (rs x)) -> forall loc,
  Does (each_with key l loc f) (Forall P l /\ fresh (omap key l) loc) [] [] (flat_map rs l).
Proof.
  intros Hf. induction l as [|x l IH]; intros loc; simpl.
  - eapply Does_iff; [apply Does_skip|rewrite fresh_nil, Forall_nil; tauto|done..].
  - eapply Does_iff; [apply Does_seq; [apply Hf|apply IH]| |done..]. cbn beta. rewrite Forall_cons. destruct (key x) as [k|] eqn:E.
    + change (k :: base.omap key l) with ([k] ++ omap key l). assert (fresh ([k] ++ omap key l) loc <-> (forall k', Some k = Some k' -> k' ∉ loc) /\ fresh (omap key l) (loc ++ [k])) as ->; [|tauto].
      rewrite fresh_app. assert ((forall k', Some k = Some k' -> k' ∉ loc) <-> fresh [k] loc) as ->; [|done].
      split; [intros H; split; [apply NoDup_singleton|by intros ? ->%list_elem_of_singleton; apply H]|]. intros [_ H] k' [= <-]. apply H. by left.
    + assert (forall k', None = Some k' -> k' ∉ loc) as Hn by done. tauto.
Qed.

#[export] Typeclasses Opaque skip seq cond fail fail_if each dup declare reference.

Lemma flat_map_nil {A B} (l : list A) : flat_map (fun _ => @nil B) l = [].
Proof. by induction l. Qed.
Lemma flat_map_one {A B} (f : A -> B) (l : list A) : flat_map (fun x => [f x]) l = map f l.
Proof. induction l as [|x l IH]; [done|]. simpl. by rewrite IH. Qed.

(** ** Well-formed documents *)

Section WellFormed.
Context (ParseIP : string -> option string) (url_parse : string -> option (string * string)).
Section Resources.
Context (m : Manifest).

Definition in_cluster (cluster : string) : Prop := (cluster <> "" \/ m_Cluster m <> "") /\ (cluster = "" \/ validLabel cluster = true).
Definition good_ref (r : option SecretRef) : Prop := forall x, r = Some x -> sr_ValueFromEnv x = "" \/ envVarName (sr_ValueFromEnv x) = true.
Definition exclusive (l : list string) : Prop := (length (List.filter (fun s => negb (empty s)) l) <= 1)%nat.

Definition registry_ok (r : Registry) : Prop := validLabel (rg_Name r) = true /\ rg_URL r <> "" /\ good_ref (rg_Password r).
Definition credential_ok (g : GitCredential) : Prop := validLabel (gc_Name g) = true /\
  (gc_Kind g = "token" /\ gc_SSHKey g = "" \/ gc_Kind g = "ssh" /\ gc_Token g = None /\ gc_SSHKey g <> "") /\ good_ref (gc_Token g).
Definition network_ok (n : Network) : Prop := dockerName (nw_Name n) = true /\ in_cluster (nw_Cluster n).
Definition ca_ok (c : CA) : Prop := certLikeName (ca_Name c) = true /\ strings.TrimSpace (ca_CommonName c) <> "" /\ (0 <= ca_Days c)%Z.
Definition certificate_ok (c : Certificate) : Prop := certLikeName (ct_Name c) = true /\
  (if ct_Shared c then ct_Cluster c = "" else in_cluster (ct_Cluster c)) /\ ct_CA c <> "" /\ ct_SANs c <> [] /\
  is_ok (NormalizeSANs ParseIP url_parse (ct_SANs c)) = true /\ Forall (fun u => u = "server" \/ u = "client") (ct_Usages c) /\
  (0 <= ct_ValidityDays c)%Z /\ (0 <= ct_RenewBeforeDays c)%Z.
Definition keyring_ok (k : Keyring) : Prop := certLikeName (kr_Name k) = true /\ (0 <= kr_RotateDays k)%Z.
Definition generated_ok (g : GeneratedSecret) : Prop := genSecretName (gs_Name g) = true /\
  gs_Format g ∈ [""; "alphanumeric"; "hex"; "base64"] /\ (gs_Length g = 0 \/ 16 <= gs_Length g <= 128)%Z.
Definition webhook_ok (w : Webhook) : Prop := validLabel (wh_Name w) = true /\
  (if wh_Shared w then wh_Cluster w = "" else in_cluster (wh_Cluster w)) /\ good_ref (wh_Secret w).
Definition cert_delivery_ok (d : CertDelivery) : Prop := dockerName (cd_Volume d) = true /\ in_cluster (cd_Cluster d) /\
  (cd_Certs d <> [] \/ cd_BundleCAs d <> []) /\ Forall (fun c => dc_Name c <> "") (cd_Certs d) /\ (length (List.filter dc_Default (cd_Certs d)) <= 1)%nat.
Definition keyring_delivery_ok (d : KeyringDelivery) : Prop := dockerName (kd_Volume d) = true /\ in_cluster (kd_Cluster d) /\ kd_Keyring d <> "".

Definition env_ok (e : EnvVar) : Prop := envVarName (ev_Key e) = true /\
  exclusive [ev_Value e; ev_ValueFromEnv e; ev_FromGenerated e] /\
  (if ev_Secret e then ev_Value e = "" \/ GeneratedRefs (ev_Value e) <> []
   else ev_ValueFromEnv e = "" /\ ev_FromGenerated e = "" /\ GeneratedRefs (ev_Value e) = []) /\
  (ev_ValueFromEnv e = "" \/ envVarName (ev_ValueFromEnv e) = true).
Definition secret_file_ok (s : SecretFile) : Prop := certLikeName (sf_Name s) = true /\
  exclusive [sf_Value s; sf_ValueFromEnv s; sf_FromGenerated s] /\
  (sf_ValueFromEnv s = "" \/ envVarName (sf_ValueFromEnv s) = true) /\ (sf_Value s = "" \/ GeneratedRefs (sf_Value s) <> []).
Definition stack_source_ok (s : StackSource) : Prop :=
  match ss_Git s with Some g => ss_Compose s = "" /\ gt_URL g <> "" | None => ss_Compose s <> "" end.
Definition stack_ok (st : Stack) : Prop := validProjectName (st_Name st) = true /\ in_cluster (st_Cluster st) /\
  (st_Engine st = "compose" \/ st_Engine st = "swarm") /\ stack_source_ok (st_Source st) /\
  (st_Webhook st = "" \/ ss_Git (st_Source st) <> None) /\ Forall env_ok (st_Env st) /\ NoDup (map ev_Key (st_Env st)) /\
  (st_SecretFiles st = [] \/ st_Engine st = "swarm") /\ Forall secret_file_ok (st_SecretFiles st) /\ NoDup (map sf_Name (st_SecretFiles st)).
Definition volume_source_ok (v : VolumeSource) : Prop := dockerName (vs_Volume v) = true /\ in_cluster (vs_Cluster v) /\
  match vp_Git (vs_Source v) with
  | Some g => vp_Files (vs_Source v) = [] /\ gt_URL g <> ""
  | None => vp_Files (vs_Source v) <> [] /\ vs_Webhook v = "" /\ Forall (fun f => escapes (fl_Path f) = false) (vp_Files (vs_Source v)) /\
      NoDup (map (fun f => path.Clean (fl_Path f)) (vp_Files (vs_Source v)))
  end.

Definition from_generated (name value : string) : list string := (if negb (empty name) then [name] else []) ++ GeneratedRefs value.
Definition stack_refs (st : Stack) : list string :=
  flat_map (fun e => from_generated (ev_FromGenerated e) (ev_Value e)) (st_Env st) ++ flat_map (fun s => from_generated (sf_FromGenerated s) (sf_Value s)) (st_SecretFiles st).

(** ** Each loop's body *)

Lemma empty_true s : empty s = true <-> s = "".
Proof. apply bool_decide_eq_true. Qed.
Lemma empty_false s : empty s = false <-> s <> "".
Proof. apply bool_decide_eq_false. Qed.

Ltac bools := rewrite ?andb_false_iff, ?andb_true_iff, ?orb_false_iff, ?negb_false_iff, ?negb_true_iff, ?empty_true, ?empty_false, ?bool_decide_eq_false, ?bool_decide_eq_true,
  ?Z.ltb_ge, ?Nat.ltb_ge.
Ltac no_effect := simpl; repeat (match goal with |- context [if ?b then _ else _] => destruct b end); simpl; rewrite ?app_nil_r, ?flat_map_nil; reflexivity.
(** The effect of a body from those of its pieces, up to the reading of its tests. *)
Ltac does := eapply Does_iff; [typeclasses eauto| |try no_effect..].

#[local] Instance Does_needsCluster k n c : Does (needsCluster m k n c) (in_cluster c) [] [] [].
Proof. unfold needsCluster, in_cluster. does. bools. tauto. Qed.
#[local] Instance Does_secretRef k n f r : Does (secretRef k n f r) (good_ref r) [] [] [].
Proof. unfold secretRef, good_ref. destruct r as [r|]; does; bools; naive_solver. Qed.

Lemma Does_SSHKey k : Does (validateSSHKey k) (validLabel (sk_Name k) = true) [scope_key KindSSHKey "" (sk_Name k)] [] [].
Proof. unfold validateSSHKey. does. bools. tauto. Qed.
Lemma Does_Registry r : Does (validateRegistry r) (registry_ok r) [scope_key KindRegistry "" (rg_Name r)] [] [].
Proof. unfold validateRegistry, registry_ok. does. bools. tauto. Qed.
Lemma Does_GitCredential g : Does (validateGitCredential g) (credential_ok g) [scope_key KindGitCredential "" (gc_Name g)] [] [].
Proof.
  unfold validateGitCredential, credential_ok. does. case_bool_decide as E1; [|case_bool_decide as E2]; bools; rewrite <- ?eq_None_not_Some; intuition congruence.
Qed.
Lemma Does_Network n : Does (validateNetwork m n) (network_ok n) [scope_key KindNetwork (nw_Cluster n) (nw_Name n)] [] [].
Proof. unfold validateNetwork, network_ok. does. bools. tauto. Qed.
Lemma Does_CA c : Does (validateCA c) (ca_ok c) [scope_key KindCA "" (ca_Name c)] [] [].
Proof. unfold validateCA, ca_ok. does. bools. tauto. Qed.
Lemma Does_Certificate c : Does (validateCertificate ParseIP url_parse m c) (certificate_ok c) [scope_key KindCertificate (cert_scope c) (ct_Name c)] [] [].
Proof.
  unfold validateCertificate, certificate_ok. assert (Does match NormalizeSANs ParseIP url_parse (ct_SANs c) with Ok _ => skip | Err e => fail (Fail (Some KindCertificate) (ct_Name c) (BadSAN e)) end
    (is_ok (NormalizeSANs ParseIP url_parse (ct_SANs c)) = true) [] [] []) by (case_match; does; done).
  does. bools. assert (forall u, negb (bool_decide (u = "server")) && negb (bool_decide (u = "client")) = false <-> u = "server" \/ u = "client") as Hu by (intros u; bools; tauto).
  rewrite (Forall_iff _ _ _ Hu). destruct (ct_Shared c); [|tauto]. rewrite andb_true_l. destruct (empty (ct_Cluster c)) eqn:E; [apply empty_true in E|apply empty_false in E]; simpl; tauto.
Qed.
Lemma Does_Keyring k : Does (validateKeyring k) (keyring_ok k) [scope_key KindKeyring "" (kr_Name k)] [] [].
Proof. unfold validateKeyring, keyring_ok. does. bools. tauto. Qed.
Lemma Does_GeneratedSecret g : Does (validateGeneratedSecret g) (generated_ok g) [scope_key KindGeneratedSecret "" (gs_Name g)] [gs_Name g] [].
Proof. unfold validateGeneratedSecret, generated_ok. does. bools. intuition lia. Qed.
Lemma Does_Webhook w : Does (validateWebhook m w) (webhook_ok w) [scope_key KindWebhook "" (wh_Name w)] [] [].
Proof.
  unfold validateWebhook, webhook_ok. does. bools. destruct (wh_Shared w); simpl; [|tauto]. unfold empty. case_bool_decide; simpl; tauto.
Qed.
Lemma Does_CertDelivery d : Does (validateCertDelivery m d) (cert_delivery_ok d) [scope_key KindCertDelivery (cd_Cluster d) (cd_Volume d)] [] [].
Proof.
  unfold validateCertDelivery, cert_delivery_ok. does. bools. rewrite (Forall_iff _ _ _ (fun c => empty_false (dc_Name c))). tauto.
Qed.
Lemma Does_KeyringDelivery d : Does (validateKeyringDelivery m d) (keyring_delivery_ok d) [scope_key KindKeyringDelivery (keyring_scope d) (kd_Volume d)] [] [].
Proof. unfold validateKeyringDelivery, keyring_delivery_ok. does. bools. tauto. Qed.

Lemma sources_exclusive a b c : (1 <? sources [negb (empty a); negb (empty b); negb (empty c)])%nat = false <-> exclusive [a; b; c].
Proof. rewrite Nat.ltb_ge. unfold exclusive, sources. simpl. by destruct (empty a), (empty b), (empty c). Qed.

#[local] Instance Does_refs l : Does (each l reference) True [] [] l.
Proof.
  eapply Does_iff; [apply Does_each; intros x; apply Does_reference| |by rewrite flat_map_nil..|]; [|by rewrite flat_map_one, map_id].
  split; [done|]. intros _. by apply Forall_true.
Qed.

Lemma Does_Env st loc e : Does (validateEnv st loc e) (env_ok e /\ forall k, Some (ev_Key e) = Some k -> k ∉ loc) [] [] (from_generated (ev_FromGenerated e) (ev_Value e)).
Proof.
  unfold validateEnv, env_ok, from_generated. does. rewrite sources_exclusive.
  assert ((forall k, Some (ev_Key e) = Some k -> k ∉ loc) <-> ev_Key e ∉ loc) as -> by naive_solver.
  assert (true <> false /\ false <> true /\ true = true /\ false = false) as Hb by done. destruct (ev_Secret e); bools; destruct (empty (ev_FromGenerated e)); simpl; tauto.
Qed.

Lemma Does_SecretFile st loc s : Does (validateSecretFile st loc s) (secret_file_ok s /\ forall k, Some (sf_Name s) = Some k -> k ∉ loc) [] [] (from_generated (sf_FromGenerated s) (sf_Value s)).
Proof.
  unfold validateSecretFile, secret_file_ok, from_generated. does. rewrite sources_exclusive. bools.
  assert ((forall k, Some (sf_Name s) = Some k -> k ∉ loc) <-> sf_Name s ∉ loc) as -> by naive_solver.
  destruct (empty (sf_FromGenerated s)); simpl; tauto.
Qed.

#[local] Instance Does_GitSource k n g : Does (validateGitSource k n g) (gt_URL g <> "") [] [] [].
Proof. unfold validateGitSource. does. bools. tauto. Qed.
#[local] Instance Does_StackSource st : Does (validateStackSource st) (stack_source_ok (st_Source st)) [] [] [].
Proof.
  unfold validateStackSource, stack_source_ok. destruct (ss_Git (st_Source st)), (empty (ss_Compose (st_Source st))) eqn:E;
    [apply empty_true in E|apply empty_false in E|apply empty_true in E|apply empty_false in E]; does; tauto.
Qed.

Lemma fresh_keys {A} (key : A -> string) l : fresh (omap (fun x => Some (key x)) l) [] <-> NoDup (map key l).
Proof.
  assert (omap (fun x => Some (key x)) l = map key l) as -> by (induction l as [|x l IH]; [done|]; csimpl; by rewrite IH).
  unfold fresh. split; [tauto|]. intros H. split; [done|]. by intros k _ ?%elem_of_nil.
Qed.

Lemma Does_Stack st : Does (validateStack m st) (stack_ok st) [scope_key KindStack (st_Cluster st) (st_Name st)] [] (stack_refs st).
Proof.
  pose proof (Does_each_with (fun e => Some (ev_Key e)) (st_Env st) _ _ _ (Does_Env st) []) as He.
  pose proof (Does_each_with (fun e => Some (sf_Name e)) (st_SecretFiles st) _ _ _ (Does_SecretFile st) []) as Hf.
  unfold validateStack, stack_ok, stack_refs. does. rewrite !fresh_keys. bools. tauto.
Qed.

Lemma Does_File v loc f : Does (validateFile v loc f) (escapes (fl_Path f) = false /\ forall k, path_key f = Some k -> k ∉ loc) [] [] [].
Proof.
  unfold validateFile, path_key. does. destruct (escapes (fl_Path f)); bools; naive_solver.
Qed.

Lemma fresh_paths l : Forall (fun f => escapes (fl_Path f) = false) l -> fresh (omap path_key l) [] <-> NoDup (map (fun f => path.Clean (fl_Path f)) l).
Proof.
  intros H. rewrite <- fresh_keys. assert (omap path_key l = omap (fun f => Some (path.Clean (fl_Path f))) l) as ->; [|done].
  induction H as [|f l Hf Hl IH]; [done|]. csimpl. rewrite IH. unfold path_key. by rewrite Hf.
Qed.

Lemma Does_VolumeSource v : Does (validateVolumeSource m v) (volume_source_ok v) [scope_key KindVolumeSource (vs_Cluster v) (vs_Volume v)] [] [].
Proof.
  pose proof (fun l => Does_each_with path_key l _ _ _ (Does_File v) []) as Hl. cbn beta in Hl. setoid_rewrite flat_map_nil in Hl.
  unfold validateVolumeSource, volume_source_ok. destruct (vp_Git (vs_Source v)) as [g|], (vp_Files (vs_Source v)) as [|f l]; does; bools; try solve [intuition congruence].
  pose proof (fresh_paths (f :: l)) as Hfresh. assert (f :: l <> []) as Hne by done. tauto.
Qed.

Lemma Does_Head : Does (validateHead m) (m_Version m = 1%Z /\ (m_Name m = "" \/ validLabel (m_Name m) = true) /\ (m_Cluster m = "" \/ validLabel (m_Cluster m) = true)) [] [] [].
Proof. unfold validateHead. does. bools. tauto. Qed.

(** ** The whole document *)

Definition doc_keys : list string :=
  map (fun k => scope_key KindSSHKey "" (sk_Name k)) (m_SSHKeys m) ++ map (fun r => scope_key KindRegistry "" (rg_Name r)) (m_Registries m) ++
  map (fun g => scope_key KindGitCredential "" (gc_Name g)) (m_GitCredentials m) ++ map (fun n => scope_key KindNetwork (nw_Cluster n) (nw_Name n)) (m_Networks m) ++
  map (fun c => scope_key KindCA "" (ca_Name c)) (m_CAs m) ++ map (fun c => scope_key KindCertificate (cert_scope c) (ct_Name c)) (m_Certificates m) ++
  map (fun k => scope_key KindKeyring "" (kr_Name k)) (m_Keyrings m) ++ map (fun g => scope_key KindGeneratedSecret "" (gs_Name g)) (m_GeneratedSecrets m) ++
  map (fun w => scope_key KindWebhook "" (wh_Name w)) (m_Webhooks m) ++ map (fun d => scope_key KindCertDelivery (cd_Cluster d) (cd_Volume d)) (m_CertDeliveries m) ++
  map (fun d => scope_key KindKeyringDelivery (keyring_scope d) (kd_Volume d)) (m_KeyringDeliveries m) ++
  map (fun s => scope_key KindStack (st_Cluster s) (st_Name s)) (m_Stacks m) ++ map (fun v => scope_key KindVolumeSource (vs_Cluster v) (vs_Volume v)) (m_VolumeSources m).
Definition all_refs : list string := flat_map stack_refs (m_Stacks m).

Record resources_ok : Prop := {
  ok_version : m_Version m = 1%Z;
  ok_name : m_Name m = "" \/ validLabel (m_Name m) = true;
  ok_cluster : m_Cluster m = "" \/ validLabel (m_Cluster m) = true;
  ok_ssh_keys : Forall (fun k => validLabel (sk_Name k) = true) (m_SSHKeys m);
  ok_registries : Forall registry_ok (m_Registries m);
  ok_credentials : Forall credential_ok (m_GitCredentials m);
  ok_networks : Forall network_ok (m_Networks m);
  ok_cas : Forall ca_ok (m_CAs m);
  ok_certificates : Forall certificate_ok (m_Certificates m);
  ok_keyrings : Forall keyring_ok (m_Keyrings m);
  ok_generated : Forall generated_ok (m_GeneratedSecrets m);
  ok_webhooks : Forall webhook_ok (m_Webhooks m);
  ok_cert_deliveries : Forall cert_delivery_ok (m_CertDeliveries m);
  ok_keyring_deliveries : Forall keyring_delivery_ok (m_KeyringDeliveries m);
  ok_stacks : Forall stack_ok (m_Stacks m);
  ok_volume_sources : Forall volume_source_ok (m_VolumeSources m) }.

Lemma Does_sections : Does (validateSections ParseIP url_parse m) resources_ok doc_keys (map gs_Name (m_GeneratedSecrets m)) all_refs.
Proof.
  unfold validateSections. eapply Does_iff.
  - apply Does_seq; [apply Does_Head|].
    do 12 (apply Does_seq; [apply Does_each; intros ?; first [apply Does_SSHKey|apply Does_Registry|apply Does_GitCredential|apply Does_Network|apply Does_CA|apply Does_Certificate
      |apply Does_Keyring|apply Does_GeneratedSecret|apply Does_Webhook|apply Does_CertDelivery|apply Does_KeyringDelivery|apply Does_Stack]|]).
    apply Does_each. intros ?. apply Does_VolumeSource.
  - split; [intros H; decompose [and] H; by constructor|intros []; tauto].
  - unfold doc_keys. by rewrite !flat_map_one.
  - by rewrite !flat_map_nil, flat_map_one, ?app_nil_r.
  - unfold all_refs. by rewrite !flat_map_nil, ?app_nil_r.
Qed.

(** *** Keys and names *)

Definition doc_groups : list (Kind * list (string * string)) :=
  [(KindSSHKey, map (fun k => ("", sk_Name k)) (m_SSHKeys m)); (KindRegistry, map (fun r => ("", rg_Name r)) (m_Registries m));
   (KindGitCredential, map (fun g => ("", gc_Name g)) (m_GitCredentials m)); (KindNetwork, map (fun n => (nw_Cluster n, nw_Name n)) (m_Networks m));
   (KindCA, map (fun c => ("", ca_Name c)) (m_CAs m)); (KindCertificate, map (fun c => (cert_scope c, ct_Name c)) (m_Certificates m));
   (KindKeyring, map (fun k => ("", kr_Name k)) (m_Keyrings m)); (KindGeneratedSecret, map (fun g => ("", gs_Name g)) (m_GeneratedSecrets m));
   (KindWebhook, map (fun w => ("", wh_Name w)) (m_Webhooks m)); (KindCertDelivery, map (fun d => (cd_Cluster d, cd_Volume d)) (m_CertDeliveries m));
   (KindKeyringDelivery, map (fun d => (keyring_scope d, kd_Volume d)) (m_KeyringDeliveries m));
   (KindStack, map (fun s => (st_Cluster s, st_Name s)) (m_Stacks m)); (KindVolumeSource, map (fun v => (vs_Cluster v, vs_Volume v)) (m_VolumeSources m))].

Definition group_key (k : Kind) (p : string * string) : string := scope_key k p.1 p.2.
Lemma doc_keys_groups : doc_keys = flat_map (fun g => map (group_key g.1) g.2) doc_groups.
Proof. unfold doc_keys, doc_groups. cbn [flat_map fst snd]. by rewrite !map_map, app_nil_r. Qed.

Lemma kind_name_no_nul k : no_char NUL (kind_name k).
Proof. by destruct k. Qed.
Lemma scope_key_inj k s n k' s' n' : scope_key k s n = scope_key k' s' n' -> k = k' /\ s +:+ String NUL n = s' +:+ String NUL n'.
Proof.
  unfold scope_key. intros H. assert (strings.Split (kind_name k +:+ String NUL (s +:+ String NUL n)) NUL = strings.Split (kind_name k' +:+ String NUL (s' +:+ String NUL n')) NUL) as E by congruence.
  rewrite (Split_app (kind_name k)), (Split_app (kind_name k')) in E by apply kind_name_no_nul. injection E as Ek Er. apply Split_inj in Er. split; [|done].
  destruct k, k'; done.
Qed.

Lemma last_nul_inj s n s' n' : no_char NUL n -> no_char NUL n' -> s +:+ String NUL n = s' +:+ String NUL n' -> s = s' /\ n = n'.
Proof.
  intros Hn Hn' H. assert (strings.Split s NUL ++ [n] = strings.Split s' NUL ++ [n']) as E.
  { rewrite <- (Split_one n NUL), <- (Split_one n' NUL), <- !Split_app_any by done. congruence. }
  apply app_inj_tail in E as [E ->]. split; [by eapply Split_inj|done].
Qed.

Lemma NoDup_groups gs : NoDup (map fst gs) -> NoDup (flat_map (fun g => map (group_key g.1) g.2) gs) <-> Forall (fun g => NoDup (map (group_key g.1) g.2)) gs.
Proof.
  induction gs as [|g gs IH]; intros Hk; simpl; [split; intros _; constructor|]. apply NoDup_cons in Hk as [Hg Hk]. rewrite NoDup_app, Forall_cons, IH by done.
  split; [tauto|]. intros [H1 H2]. split_and!; [done| |done]. intros x Hx Hx'. apply Hg. apply flat_map_elem in Hx' as (g' & Hg' & Hx').
  apply list_elem_of_fmap in Hx as (p & -> & _), Hx' as (p' & E & _). unfold group_key in E. apply scope_key_inj in E as [-> _]. by apply list_elem_of_fmap_2.
Qed.

Lemma NoDup_map_iff {A B} (f : A -> B) l : (forall x y, x ∈ l -> y ∈ l -> f x = f y -> x = y) -> NoDup (map f l) <-> NoDup l.
Proof. intros H. split; [apply NoDup_fmap_1|by apply NoDup_fmap_2_strong]. Qed.

(** Keys tell scoped names apart: a name holds no NUL. *)
Lemma NoDup_scoped {A} k (scope name : A -> string) l : (forall x, x ∈ l -> no_char NUL (name x)) ->
  NoDup (map (group_key k) (map (fun x => (scope x, name x)) l)) <-> NoDup (map (fun x => (scope x, name x)) l).
Proof.
  intros H. apply NoDup_map_iff. intros p q Hp Hq E. apply list_elem_of_fmap in Hp as (x & -> & Hx), Hq as (y & -> & Hy).
  apply scope_key_inj in E as [_ E]. simpl in E. apply last_nul_inj in E as [-> ->]; auto.
Qed.
Lemma NoDup_global {A} k (name : A -> string) l : NoDup (map (group_key k) (map (fun x => ("", name x)) l)) <-> NoDup (map name l).
Proof.
  rewrite map_map. assert (map (fun x => group_key k ("", name x)) l = map (fun n => scope_key k "" n) (map name l)) as -> by (by rewrite map_map).
  apply NoDup_map_iff. intros x y _ _ E. apply scope_key_inj in E as [_ E]. simpl in E. by injection E.
Qed.

Record names_distinct : Prop := {
  nd_ssh_keys : NoDup (map sk_Name (m_SSHKeys m));
  nd_registries : NoDup (map rg_Name (m_Registries m));
  nd_credentials : NoDup (map gc_Name (m_GitCredentials m));
  nd_networks : NoDup (map (fun n => (nw_Cluster n, nw_Name n)) (m_Networks m));
  nd_cas : NoDup (map ca_Name (m_CAs m));
  nd_certificates : NoDup (map (fun c => (cert_scope c, ct_Name c)) (m_Certificates m));
  nd_keyrings : NoDup (map kr_Name (m_Keyrings m));
  nd_generated : NoDup (map gs_Name (m_GeneratedSecrets m));
  nd_webhooks : NoDup (map wh_Name (m_Webhooks m));
  nd_cert_deliveries : NoDup (map (fun d => (cd_Cluster d, cd_Volume d)) (m_CertDeliveries m));
  nd_keyring_deliveries : NoDup (map (fun d => (keyring_scope d, kd_Volume d)) (m_KeyringDeliveries m));
  nd_stacks : NoDup (map (fun s => (st_Cluster s, st_Name s)) (m_Stacks m));
  nd_volume_sources : NoDup (map (fun v => (vs_Cluster v, vs_Volume v)) (m_VolumeSources m)) }.

Lemma starts_alnum_no_nul f s : f NUL = false -> starts_alnum f s = true -> no_char NUL s.
Proof.
  intros Hf. destruct s as [|c r]; [done|]. simpl. intros [Hc Hr]%andb_prop. apply (all_chars_no (fun d => is_alnum d || f d)); [by rewrite Hf|].
  rewrite all_chars_cons, Hc. simpl. eapply all_chars_impl; [|done]. intros d ->. by rewrite orb_true_r.
Qed.
Lemma certLikeName_no_nul s : certLikeName s = true -> no_char NUL s.
Proof. intros [H _]%andb_prop. by apply (starts_alnum_no_nul name_char). Qed.
Lemma project_no_nul s : validProjectName s = true -> no_char NUL s.
Proof.
  unfold validProjectName. case_match; [done|]. clear. generalize false. unfold no_char. induction s as [|c s IH]; intros b; [done|]. simpl.
  intros [Hc Hs]%andb_prop. rewrite (IH _ Hs), orb_false_r. apply bool_decide_eq_false_2. intros ->. destruct b; discriminate Hc.
Qed.

Lemma fresh_doc_keys : resources_ok -> fresh doc_keys [] <-> names_distinct.
Proof.
  intros []. assert (fresh doc_keys [] <-> NoDup doc_keys) as -> by (unfold fresh; split; [tauto|]; intros H; split; [done|]; by intros k _ ?%elem_of_nil).
  rewrite doc_keys_groups, NoDup_groups by (apply (bool_decide_unpack (NoDup [KindSSHKey; KindRegistry; KindGitCredential; KindNetwork; KindCA; KindCertificate; KindKeyring; KindGeneratedSecret; KindWebhook; KindCertDelivery; KindKeyringDelivery; KindStack; KindVolumeSource])); vm_compute; exact I).
  unfold doc_groups. rewrite !Forall_cons, Forall_nil. cbn [fst snd].
  repeat match goal with H : Forall _ (_ m) |- _ => rewrite Forall_forall in H end.
  rewrite !NoDup_global, !NoDup_scoped.
  - split; [intros H; decompose [and] H; by constructor|intros []; tauto].
  - intros v Hv. destruct (ok_volume_sources0 v Hv) as [H _]. by apply (starts_alnum_no_nul name_char).
  - intros s Hs. apply project_no_nul. by apply (ok_stacks0 s Hs).
  - intros d Hd. destruct (ok_keyring_deliveries0 d Hd) as [H _]. by apply (starts_alnum_no_nul name_char).
  - intros d Hd. destruct (ok_cert_deliveries0 d Hd) as [H _]. by apply (starts_alnum_no_nul name_char).
  - intros c Hc. apply certLikeName_no_nul. by apply (ok_certificates0 c Hc).
  - intros n Hn. destruct (ok_networks0 n Hn) as [H _]. by apply (starts_alnum_no_nul name_char).
Qed.

(** A document is well formed when its resources are, their names are distinct
    within a kind and scope, and exactly the declared secrets are referenced. *)
Record well_formed : Prop := {
  wf_resources : resources_ok;
  wf_names : names_distinct;
  wf_generated : forall n, n ∈ map gs_Name (m_GeneratedSecrets m) <-> n ∈ all_refs }.

Lemma Validate_iff : Validate ParseIP url_parse m = [] <-> well_formed.
Proof.
  unfold Validate, seq. destruct (Does_sections {| errs := []; seen := []; genDeclared := []; genReferenced := [] |}) as (He & _ & Hd & Hr).
  set (st := validateSections _ _ _ _) in *. cbn [errs seen genDeclared genReferenced app] in He, Hd, Hr. unfold validateGenerated, seq.
  set (l := remove_dups (genReferenced st)).
  pose proof (Does_each l (fun name => fail_if (negb (bool_decide (name ∈ genDeclared st))) (Fail None name NeverDeclared)) _ _ _ _ (fun x => Does_fail_if _ _) st) as (H1 & _ & H1d & H1r).
  set (st1 := each l _ st) in *. rewrite !flat_map_nil, app_nil_r in H1d, H1r.
  pose proof (Does_each (m_GeneratedSecrets m) (fun g => fail_if (bool_decide (gs_Name g ∈ genDeclared st1) && negb (bool_decide (gs_Name g ∈ genReferenced st1)))
    (Fail (Some KindGeneratedSecret) (gs_Name g) NeverReferenced)) _ _ _ _ (fun x => Does_fail_if _ _) st1) as (H2 & _).
  rewrite H2, H1, He, !flat_map_nil, !fresh_nil, !Forall_forall. clear H1 H2 He. rewrite H1d, H1r, Hd, Hr. subst l. rewrite Hr.
  setoid_rewrite elem_of_remove_dups. setoid_rewrite andb_false_iff. setoid_rewrite negb_false_iff. setoid_rewrite bool_decide_eq_true. setoid_rewrite bool_decide_eq_false.
  split.
  - intros (((_ & Hok & Hf) & Hdecl & _) & Href & _). apply fresh_doc_keys in Hf; [|done]. constructor; [done..|]. intros n. split; [|apply Hdecl].
    intros Hn. pose proof Hn as Hn'. apply list_elem_of_fmap in Hn as (g & -> & Hg). destruct (Href g Hg); [done|done].
  - intros [Hok Hnd Hgen]. split_and!; try done; [by apply fresh_doc_keys|intros n; apply Hgen|]. intros g Hg. right. apply Hgen. by apply list_elem_of_fmap_2.
Qed.

(** C37: [Validate] reports nothing exactly for the well-formed documents: every
    field follows its rule, names are distinct within a kind and scope, and the
    generated secrets declared are the ones referenced. *)
Theorem Validate_spec : Validate ParseIP url_parse m = [] <-> well_formed.
Proof. exact Validate_iff. Qed.
End Resources.
End WellFormed.
