(* ===== verification/ManifestCases.v ===== *)
(** * Provisioning documents: references, files, concrete documents

    What a valid document guarantees to [apply] ([Manifest] holds the model and
    the meaning of [Validate]): the generated references it contains expand, its
    files stay inside their volume; and a pair of declarations it does not tell
    apart. *)
From S2P Require Import Prelude GoStd Paths Sans Manifest.
Local Open Scope string_scope.
Local Open Scope list_scope.
Local Open Scope daffa_scope.

(** ** The expansion of references *)

Lemma span_spec f s : s = (span f s).1 +:+ (span f s).2 /\ strings.all_chars f (span f s).1 = true.
Proof.
  induction s as [|c s [IH1 IH2]]; [done|]. simpl. destruct (f c) eqn:E; [|by split]. destruct (span f s) as [a b]. simpl in *. rewrite all_chars_cons, E, IH2. split; [|done]. rewrite app_cons_s. congruence.
Qed.

Lemma ref_at_some s n : ref_at s = Some n -> exists rest, s = ref_text n +:+ rest.
Proof.
  unfold ref_at, ref_text. destruct (strings.HasPrefix s ref_open) eqn:E; [|done]. apply HasPrefix_spec in E as [t ->]. rewrite drop_app.
  destruct (span_spec ref_char t) as [Ht _]. destruct (span ref_char t) as [[|c a] [|d b]]; try done. simpl in Ht. destruct (is_alnum c && _) eqn:Ed; [|done].
  bd. subst d. intros [= <-]. exists b. rewrite Ht, !app_assoc_s. reflexivity.
Qed.

Lemma scan_skip s : forall k, scan k s = scan 0 (strings.drop k s).
Proof. induction s as [|c s IH]; intros [|k]; try done. simpl. apply IH. Qed.

Lemma scan_ref n rest : ref_at (ref_text n +:+ rest) = Some n -> scan 0 (ref_text n +:+ rest) = inr n :: scan 0 rest.
Proof.
  intros H. unfold ref_text in *. change (ref_open +:+ n +:+ "}") with (String "$" ("{generated:" +:+ n +:+ "}")) in *.
  rewrite app_cons_s in *. unfold scan; fold scan. rewrite H. rewrite scan_skip. do 2 f_equal.
  replace (String.length ref_open + String.length n)%nat with (String.length ("{generated:" +:+ n +:+ "}")) by (rewrite !length_app_s; simpl; lia). apply drop_app.
Qed.

(** Tokens are read off the text one after the other. *)
Lemma scan_ind (P : string -> list (ascii + string) -> Prop) :
  P "" [] -> (forall c s, ref_at (String c s) = None -> P s (scan 0 s) -> P (String c s) (inl c :: scan 0 s)) ->
  (forall n s, ref_at (ref_text n +:+ s) = Some n -> P s (scan 0 s) -> P (ref_text n +:+ s) (inr n :: scan 0 s)) -> forall s, P s (scan 0 s).
Proof.
  intros H0 Hc Hr s. remember (String.length s) as k eqn:Ek. revert s Ek. induction (lt_wf k) as [k _ IH]. intros s ->.
  destruct s as [|c s]; [exact H0|]. destruct (ref_at (String c s)) as [n|] eqn:E.
  - destruct (ref_at_some _ _ E) as [rest Hs]. rewrite Hs in *. rewrite (scan_ref n rest E). apply Hr; [done|]. eapply IH; [|reflexivity].
    rewrite length_app_s. simpl. lia.
  - unfold scan; fold scan. rewrite E. apply Hc; [done|]. eapply IH; [|reflexivity]. simpl. lia.
Qed.

Lemma expand_snd resolve l : (foldr (expand_step resolve) ("", true) l).2 = true <-> forall n, inr n ∈ l -> is_Some (resolve n).
Proof.
  induction l as [|[c|n] l IH]; simpl.
  - split; [by intros _ n ?%elem_of_nil|done].
  - rewrite IH. set_solver.
  - destruct (resolve n) as [v|] eqn:E; simpl.
    + rewrite IH. split; [intros H x [[= ->]|Hx]%elem_of_cons; [by rewrite E|auto]|intros H x Hx; apply H; by right].
    + split; [done|]. intros H. destruct (H n); [by left|congruence].
Qed.

Lemma GeneratedRefs_elem s n : n ∈ GeneratedRefs s <-> inr n ∈ scan 0 s.
Proof.
  unfold GeneratedRefs. rewrite list_elem_of_omap. split; [intros ([c|x] & Hx & [= ->]); done|]. intros H. by exists (inr n).
Qed.

(** The expansion succeeds exactly when every reference resolves; what does not
    resolve stays as it was written, and expanding each reference to its own
    text gives the value back. *)
Theorem ExpandGenerated_spec s resolve :
  ((ExpandGenerated s resolve).2 = true <-> forall n, n ∈ GeneratedRefs s -> is_Some (resolve n)) /\
  ((forall n, n ∈ GeneratedRefs s -> resolve n = None \/ resolve n = Some (ref_text n)) -> (ExpandGenerated s resolve).1 = s).
Proof.
  split.
  - unfold ExpandGenerated. rewrite expand_snd. by setoid_rewrite GeneratedRefs_elem.
  - setoid_rewrite GeneratedRefs_elem. unfold ExpandGenerated. apply (scan_ind (fun s l => (forall n, inr n ∈ l -> _) -> (foldr (expand_step resolve) ("", true) l).1 = s)).
    + done.
    + intros c t _ IH H. simpl. rewrite IH; [done|]. intros n Hn. apply H. by right.
    + intros n t _ IH H. simpl. destruct (H n ltac:(by left)) as [-> | ->]; simpl; (rewrite IH; [done|]; intros x Hx; apply H; by right).
Qed.

(** ** What [apply] may rely on *)

Section Valid.
Context (ParseIP : string -> option string) (url_parse : string -> option (string * string)).

(** Once every declared secret has a value, every value of a valid document
    expands, and every [from_generated] names a value. *)
Theorem valid_values_expand m resolve st : Validate ParseIP url_parse m = [] -> st ∈ m_Stacks m ->
  (forall g, g ∈ m_GeneratedSecrets m -> is_Some (resolve (gs_Name g))) ->
  (forall e, e ∈ st_Env st -> (ExpandGenerated (ev_Value e) resolve).2 = true /\ (ev_FromGenerated e <> "" -> is_Some (resolve (ev_FromGenerated e)))) /\
  (forall f, f ∈ st_SecretFiles st -> (ExpandGenerated (sf_Value f) resolve).2 = true /\ (sf_FromGenerated f <> "" -> is_Some (resolve (sf_FromGenerated f)))).
Proof.
  intros H%Validate_iff Hst Hres. destruct H as [_ _ Hgen].
  assert (forall n, n ∈ stack_refs st -> is_Some (resolve n)) as Hall.
  { intros n Hn. assert (n ∈ all_refs m) as Hr%Hgen by (apply flat_map_elem; eauto). apply list_elem_of_fmap in Hr as (g & -> & Hg). auto. }
  assert (forall name value, (forall n, n ∈ from_generated name value -> is_Some (resolve n)) ->
    (ExpandGenerated value resolve).2 = true /\ (name <> "" -> is_Some (resolve name))) as Hone.
  { intros name value Hn. unfold from_generated in Hn. split.
    - unfold ExpandGenerated. apply expand_snd. intros n Hin%GeneratedRefs_elem. apply Hn, elem_of_app. by right.
    - intros Hne. apply Hn, elem_of_app. left. unfold empty. rewrite bool_decide_eq_false_2 by done. by left. }
  split; intros x Hx; apply Hone; intros n Hn; apply Hall; unfold stack_refs; apply elem_of_app; [left|right]; apply flat_map_elem; eauto.
Qed.

(** A path that validates is relative, and cleaned it never names the directory
    above the volume. *)
Lemma not_escaping_segments p : escapes p = false -> path.IsAbs p = false /\ (".." ∉ strings.Split (path.Clean p) slash).
Proof.
  unfold escapes. intros H. bd. split; [done|]. by apply inside_segments.
Qed.

(** In a valid document no file of a volume source climbs out of the volume, and
    no two of its files land on the same path. *)
Theorem volume_files_inside m v f : Validate ParseIP url_parse m = [] -> v ∈ m_VolumeSources m -> f ∈ vp_Files (vs_Source v) ->
  path.IsAbs (fl_Path f) = false /\ (".." ∉ strings.Split (path.Clean (fl_Path f)) slash) /\
  forall g, g ∈ vp_Files (vs_Source v) -> path.Clean (fl_Path g) = path.Clean (fl_Path f) -> g = f.
Proof.
  intros H%Validate_iff Hv Hf. destruct H as [Hok _ _]. pose proof (ok_volume_sources _ _ _ Hok) as Hall. rewrite Forall_forall in Hall.
  destruct (Hall v Hv) as (_ & _ & Hsrc). destruct (vp_Git (vs_Source v)) as [g|].
  - destruct Hsrc as [Hnil _]. rewrite Hnil in Hf. by apply elem_of_nil in Hf.
  - destruct Hsrc as (_ & _ & Hesc & Hnd). rewrite Forall_forall in Hesc. destruct (not_escaping_segments _ (Hesc f Hf)). split_and!; [done..|].
    intros g Hg E. by apply (NoDup_map_inj _ _ _ _ Hnd Hg Hf).
Qed.

(** The cluster a resource ends up on. *)
Definition effective (m : Manifest) (cluster : string) : string := if empty cluster then m_Cluster m else cluster.
Definition with_cluster (st : Stack) (c : string) : Stack :=
  {| st_Name := st_Name st; st_Cluster := c; st_Engine := st_Engine st; st_Source := st_Source st; st_WatchPaths := st_WatchPaths st;
     st_AutoDeploy := st_AutoDeploy st; st_Webhook := st_Webhook st; st_Env := st_Env st; st_SecretFiles := st_SecretFiles st |}.
Definition with_stacks (m : Manifest) (l : list Stack) : Manifest :=
  {| m_Version := m_Version m; m_Name := m_Name m; m_Cluster := m_Cluster m; m_SSHKeys := m_SSHKeys m; m_Registries := m_Registries m;
     m_GitCredentials := m_GitCredentials m; m_Networks := m_Networks m; m_CAs := m_CAs m; m_Certificates := m_Certificates m;
     m_Keyrings := m_Keyrings m; m_CertDeliveries := m_CertDeliveries m; m_KeyringDeliveries := m_KeyringDeliveries m;
     m_GeneratedSecrets := m_GeneratedSecrets m; m_Webhooks := m_Webhooks m; m_Stacks := l; m_VolumeSources := m_VolumeSources m |}.

(** Uniqueness is checked on the cluster as written: a stack of the default
    cluster can be declared a second time by naming that cluster, and the
    document stays valid with two stacks of one name on one cluster. *)
Theorem same_stack_twice m st : Validate ParseIP url_parse m = [] -> st ∈ m_Stacks m -> st_Cluster st = "" ->
  (forall s, s ∈ m_Stacks m -> st_Cluster s <> m_Cluster m) ->
  let again := with_cluster st (m_Cluster m) in
  Validate ParseIP url_parse (with_stacks m (m_Stacks m ++ [again])) = [] /\
  st_Name again = st_Name st /\ effective m (st_Cluster again) = effective m (st_Cluster st).
Proof.
  intros H%Validate_iff Hst Hc Hno again. pose proof H as [Hok Hnames Hgen]. destruct Hok, Hnames. split; [|split; [done|]].
  - assert (stack_ok m st) as Hs by (by rewrite Forall_forall in ok_stacks; apply ok_stacks).
    assert (m_Cluster m <> "" /\ (m_Cluster m = "" \/ validLabel (m_Cluster m) = true)) as [Hne Hlab].
    { destruct Hs as (_ & [[?|?] _] & _); [done|]. split; [done|]. by destruct ok_cluster; [left|right]. }
    apply Validate_iff. constructor.
    + constructor; try done. simpl. apply Forall_app. split; [done|]. apply Forall_singleton.
      destruct Hs as (H1 & _ & H3). split; [done|]. split; [|done]. split; [by right|done].
    + constructor; try done. simpl. rewrite map_app. apply NoDup_app. split_and!; [done| |apply NoDup_singleton].
      intros x Hx ->%list_elem_of_singleton. apply list_elem_of_fmap in Hx as (s & E & Hin). simpl in E. injection E as E _. by apply (Hno s Hin).
    + intros n. rewrite (Hgen n). unfold all_refs. simpl. rewrite flat_map_app, elem_of_app. simpl. rewrite app_nil_r. split; [by left|].
      intros [?|Hn]; [done|]. apply flat_map_elem. by exists st.
  - unfold effective. rewrite Hc. simpl. unfold empty. case_bool_decide; done.
Qed.
End Valid.

(** ** A concrete document *)

Definition demoStack : Stack :=
  {| st_Name := "shop"; st_Cluster := ""; st_Engine := "swarm";
     st_Source := {| ss_Git := Some {| gt_URL := "https://git.example/shop.git"; gt_Ref := ""; gt_Path := ""; gt_Credential := "" |}; ss_Compose := "" |};
     st_WatchPaths := ["deploy"]; st_AutoDeploy := true; st_Webhook := "forge";
     st_Env := [{| ev_Key := "LOG_LEVEL"; ev_Value := "info"; ev_Secret := false; ev_ValueFromEnv := ""; ev_FromGenerated := "" |};
                {| ev_Key := "DSN"; ev_Value := "postgres://app:${generated:db-password}@db/x"; ev_Secret := true; ev_ValueFromEnv := ""; ev_FromGenerated := "" |}];
     st_SecretFiles := [{| sf_Name := "db_password"; sf_FromGenerated := "db-password"; sf_Value := ""; sf_ValueFromEnv := "" |}] |}.
Definition demoVolume : VolumeSource :=
  {| vs_Cluster := "edge"; vs_Volume := "shop-config";
     vs_Source := {| vp_Git := None; vp_Files := [{| fl_Path := "conf/app.toml"; fl_Content := "a" |}; {| fl_Path := "conf/../motd"; fl_Content := "b" |}] |};
     vs_Stack := "shop"; vs_RestartTargets := ""; vs_UID := 0; vs_GID := 0; vs_AutoSync := false; vs_Webhook := "" |}.
Definition demoManifest : Manifest :=
  {| m_Version := 1; m_Name := "shop"; m_Cluster := "prod"; m_SSHKeys := []; m_Registries := []; m_GitCredentials := []; m_Networks := [];
     m_CAs := [{| ca_Name := "mesh"; ca_CommonName := "Mesh CA"; ca_Org := ""; ca_KeyAlgo := ""; ca_Days := 0; ca_OutboundTrust := None |}];
     m_Certificates := [{| ct_Name := "shop"; ct_Cluster := ""; ct_Shared := true; ct_CA := "mesh"; ct_SANs := ["shop.example"; "10.0.0.1"]; ct_Usages := ["server"];
                           ct_KeyAlgo := ""; ct_ValidityDays := 90; ct_RenewBeforeDays := 30 |}];
     m_Keyrings := []; m_CertDeliveries := []; m_KeyringDeliveries := [];
     m_GeneratedSecrets := [{| gs_Name := "db-password"; gs_Format := "hex"; gs_Length := 0 |}];
     m_Webhooks := [{| wh_Name := "forge"; wh_Cluster := ""; wh_Shared := false; wh_Secret := None |}];
     m_Stacks := [demoStack]; m_VolumeSources := [demoVolume] |}.
Definition demoResolve (n : string) : option string := if bool_decide (n = "db-password") then Some "s3cret" else None.

Example demo_expansion : ExpandGenerated "postgres://app:${generated:db-password}@db/x" demoResolve = ("postgres://app:s3cret@db/x", true).
Proof. vm_compute. reflexivity. Qed.
Example nested_reference : GeneratedRefs "${generated:${generated:a}}" = ["a"].
Proof. vm_compute. reflexivity. Qed.
Example bad_documents :
  map p_why (Validate demoParseIP demoURL (with_stacks demoManifest [demoStack; demoStack])) = [DeclaredTwice] /\
  map p_why (Validate demoParseIP demoURL (with_stacks demoManifest [])) = [NeverReferenced].
Proof. split; vm_compute; reflexivity. Qed.

Theorem valid_values_expand_witness : ExpandGenerated (ev_Value (nth 1 (st_Env demoStack) {| ev_Key := ""; ev_Value := ""; ev_Secret := false; ev_ValueFromEnv := ""; ev_FromGenerated := "" |})) demoResolve = ("postgres://app:s3cret@db/x", true)
  /\ (forall e, e ∈ st_Env demoStack -> (ExpandGenerated (ev_Value e) demoResolve).2 = true).
Proof.
  split; [vm_compute; reflexivity|]. intros e He. destruct (valid_values_expand demoParseIP demoURL demoManifest demoResolve demoStack) as [H _].
  - vm_compute. reflexivity.
  - apply list_elem_of_singleton. reflexivity.
  - intros g Hg. apply list_elem_of_singleton in Hg as ->. by eexists.
  - destruct (H e He) as [Hx _]. exact Hx.
Defined.

Theorem volume_files_inside_witness : path.IsAbs "conf/../motd" = false /\ (".." ∉ strings.Split (path.Clean "conf/../motd") slash).
Proof.
  destruct (volume_files_inside demoParseIP demoURL demoManifest demoVolume {| fl_Path := "conf/../motd"; fl_Content := "b" |}) as (H1 & H2 & _).
  - vm_compute. reflexivity.
  - apply list_elem_of_singleton. reflexivity.
  - right. left.
  - split; [exact H1|exact H2].
Defined.

Theorem same_stack_twice_witness : Validate demoParseIP demoURL (with_stacks demoManifest [demoStack; with_cluster demoStack "prod"]) = [].
Proof.
  destruct (same_stack_twice demoParseIP demoURL demoManifest demoStack) as [H _].
  - vm_compute. reflexivity.
  - apply list_elem_of_singleton. reflexivity.
  - reflexivity.
  - intros s Hs. apply list_elem_of_singleton in Hs as ->. discriminate.
  - exact H.
Defined.
