(* ===== verification/Keyrings.v ===== *)
(** * Keyrings: versions, deliveries, the rotation worker

    Models [internal/store/keyrings.go], the handlers that change a keyring
    ([internal/api/keyring_handlers.go]), the reconciler of
    [internal/api/keyring_delivery.go] and the worker
    ([internal/api/keyring_worker.go]) with the alarms it shares with the
    certificate worker. The sealer, base64, the JSON printer and SHA-256 are
    parameters; which writes fail is an input. *)
From S2P Require Import Prelude GoStd Timestamps Sans.
Local Open Scope string_scope.
Local Open Scope list_scope.
Local Open Scope daffa_scope.
Local Open Scope Z_scope.

(** ** Tables *)

Record Keyring := mkRing { k_id : string; k_name : string; k_rotate : Z; k_created : Z }.
Inductive VersionState := Active | DecryptOnly | Retired.
#[export] Instance VersionState_eq_dec : EqDecision VersionState.
Proof. solve_decision. Defined.
Record KeyringVersion := mkVersion { v_id : string; v_ring : string; v_enc : string; v_state : VersionState; v_created : Z }.
Record KeyringDelivery := mkDelivery {
  d_id : string; d_ring : string; d_env : string; d_volume : string; d_uid : Z; d_gid : Z; d_restart : string;
  d_hash : string; d_synced : option Z; d_status : string; d_error : string; d_created : Z }.
Record KDB := mkKDB { rings : list Keyring; versions : list KeyringVersion; deliveries : list KeyringDelivery }.

Inductive KErr := ErrNotFound | ErrDuplicate | ErrForeignKey | ErrRandom | ErrSeal | ErrInUse | ErrNegative | ErrBadName | ErrNotConnected.

Definition set_rings (db : KDB) (l : list Keyring) : KDB := mkKDB l (versions db) (deliveries db).
Definition set_versions (db : KDB) (l : list KeyringVersion) : KDB := mkKDB (rings db) l (deliveries db).
Definition set_deliveries (db : KDB) (l : list KeyringDelivery) : KDB := mkKDB (rings db) (versions db) l.

(** ** The store *)

Definition KeyringByID (db : KDB) (id : string) : res KErr Keyring :=
  match List.find (fun k => bool_decide (k_id k = id)) (rings db) with Some k => Ok k | None => Err ErrNotFound end.
Definition KeyringByName (db : KDB) (name : string) : res KErr Keyring :=
  match List.find (fun k => bool_decide (k_name k = name)) (rings db) with Some k => Ok k | None => Err ErrNotFound end.
Definition ListKeyrings (db : KDB) : list Keyring := ssort (fun a b => String.ltb (k_name a) (k_name b)) (rings db).

(** The primary key and the unique name. *)
Definition CreateKeyring (db : KDB) (k : Keyring) : res KErr KDB :=
  if existsb (fun x => bool_decide (k_id x = k_id k) || bool_decide (k_name x = k_name k)) (rings db) then Err ErrDuplicate
  else Ok (set_rings db (rings db ++ [k])).
Definition UpdateKeyring (db : KDB) (k : Keyring) : res KErr KDB :=
  if existsb (fun x => negb (bool_decide (k_id x = k_id k)) && bool_decide (k_name x = k_name k)) (rings db) && existsb (fun x => bool_decide (k_id x = k_id k)) (rings db)
  then Err ErrDuplicate
  else Ok (set_rings db (map (fun x => if bool_decide (k_id x = k_id k) then mkRing (k_id x) (k_name k) (k_rotate k) (k_created x) else x) (rings db))).
Definition KeyringInUse (db : KDB) (id : string) : nat := length (List.filter (fun d => bool_decide (d_ring d = id)) (deliveries db)).
(** The versions go with the ring; a delivery that refers to it refuses the
    deletion. *)
Definition DeleteKeyring (db : KDB) (id : string) : res KErr KDB :=
  if existsb (fun d => bool_decide (d_ring d = id)) (deliveries db) then Err ErrForeignKey
  else Ok (mkKDB (List.filter (fun k => negb (bool_decide (k_id k = id))) (rings db))
             (List.filter (fun v => negb (bool_decide (v_ring v = id))) (versions db)) (deliveries db)).

Definition is_active (v : KeyringVersion) : bool := bool_decide (v_state v = Active).
Definition demote (ids : list string) (v : KeyringVersion) : KeyringVersion :=
  if bool_decide (v_id v ∈ ids) && is_active v then mkVersion (v_id v) (v_ring v) (v_enc v) DecryptOnly (v_created v) else v.
Definition active_ids (db : KDB) (ring : string) : list string :=
  map v_id (List.filter (fun v => bool_decide (v_ring v = ring) && is_active v) (versions db)).

(** The transaction: demote the versions [ids], insert the new one; a refused
    insert rolls both back. *)
Definition rotate_commit (db : KDB) (ids : list string) (ring enc id : string) (now : Z) : res KErr KDB :=
  if negb (existsb (fun k => bool_decide (k_id k = ring)) (rings db)) then Err ErrForeignKey
  else if existsb (fun v => bool_decide (v_id v = id)) (versions db) then Err ErrDuplicate
  else Ok (set_versions db (map (demote ids) (versions db) ++ [mkVersion id ring enc Active now])).
Definition RotateKeyring (db : KDB) (ring enc id : string) (now : Z) : res KErr KDB := rotate_commit db (active_ids db ring) ring enc id now.

(** [ORDER BY created_at DESC, id DESC] *)
Definition newer (a b : KeyringVersion) : bool :=
  String.ltb (stamp (v_created b)) (stamp (v_created a)) || (bool_decide (stamp (v_created a) = stamp (v_created b)) && String.ltb (v_id b) (v_id a)).
Definition KeyringVersions (db : KDB) (ring : string) : list KeyringVersion := ssort newer (List.filter (fun v => bool_decide (v_ring v = ring)) (versions db)).
Definition KeyringVersionByID (db : KDB) (id : string) : res KErr KeyringVersion :=
  match List.find (fun v => bool_decide (v_id v = id)) (versions db) with Some v => Ok v | None => Err ErrNotFound end.

Definition retire (id : string) (v : KeyringVersion) : KeyringVersion :=
  if bool_decide (v_id v = id) && bool_decide (v_state v = DecryptOnly) then mkVersion (v_id v) (v_ring v) (v_enc v) Retired (v_created v) else v.
Definition RetireKeyringVersion (db : KDB) (id : string) : KDB * bool :=
  (set_versions db (map (retire id) (versions db)), existsb (fun v => bool_decide (v_id v = id) && bool_decide (v_state v = DecryptOnly)) (versions db)).

Definition CreateKeyringDelivery (db : KDB) (d : KeyringDelivery) : res KErr KDB :=
  let d := mkDelivery (d_id d) (d_ring d) (d_env d) (if bool_decide (d_volume d = "") then "daffa-keys" else d_volume d) (d_uid d) (d_gid d) (d_restart d)
             (d_hash d) (d_synced d) (if bool_decide (d_status d = "") then "pending" else d_status d) (d_error d) (d_created d) in
  if existsb (fun x => bool_decide (d_id x = d_id d)) (deliveries db) then Err ErrDuplicate
  else if negb (existsb (fun k => bool_decide (k_id k = d_ring d)) (rings db)) then Err ErrForeignKey
  else Ok (set_deliveries db (deliveries db ++ [d])).
Definition KeyringDeliveryForVolume (db : KDB) (ring env volume : string) : res KErr KeyringDelivery :=
  match List.find (fun d => bool_decide (d_ring d = ring) && bool_decide (d_env d = env) && bool_decide (d_volume d = volume)) (deliveries db) with
  | Some d => Ok d | None => Err ErrNotFound end.
Definition ListKeyringDeliveries (db : KDB) (global : bool) (envs : list string) : list KeyringDelivery :=
  ssort (fun a b => String.ltb (stamp (d_created a)) (stamp (d_created b)))
    (List.filter (fun d => global || bool_decide (d_env d ∈ envs)) (deliveries db)).
Definition AllKeyringDeliveries (db : KDB) : list KeyringDelivery := ListKeyringDeliveries db true [].
Definition synced (hash : string) (err : option string) (now : Z) (d : KeyringDelivery) : KeyringDelivery :=
  mkDelivery (d_id d) (d_ring d) (d_env d) (d_volume d) (d_uid d) (d_gid d) (d_restart d) hash (Some now)
    (match err with None => "ok" | Some _ => "error" end) (match err with None => "" | Some e => e end) (d_created d).
Definition MarkKeyringDeliverySynced (db : KDB) (id hash : string) (err : option string) (now : Z) : KDB :=
  set_deliveries db (map (fun d => if bool_decide (d_id d = id) then synced hash err now d else d) (deliveries db)).
Definition DeleteKeyringDelivery (db : KDB) (id : string) : KDB :=
  set_deliveries db (List.filter (fun d => negb (bool_decide (d_id d = id))) (deliveries db)).

(** ** The handlers *)

(** What a rotation draws on: the random material ([None]: the source failed),
    the sealer, the new version's id and the clock. *)
Record Draw := mkDraw { w_material : option string; w_id : string; w_now : Z }.

Section Server.
Context (Seal : string -> option string).

Definition rotateKeyring (db : KDB) (ring : string) (w : Draw) : res KErr KDB :=
  match w_material w with
  | None => Err ErrRandom
  | Some m => match Seal m with
              | None => Err ErrSeal
              | Some enc => RotateKeyring db ring enc (w_id w) (w_now w)
              end
  end.

(** [^[a-zA-Z0-9][a-zA-Z0-9._-]{0,63}$] *)
Definition name_rest (c : ascii) : bool := is_alnum c || bool_decide (c = "."%char) || bool_decide (c = "_"%char) || bool_decide (c = "-"%char).
Definition certName (s : string) : bool :=
  match s with "" => false | String c r => is_alnum c && strings.all_chars name_rest r && (String.length r <=? 63)%nat end.

(** A keyring whose first version cannot be made is deleted again; the
    deletion's own error is ignored. *)
Definition handleCreateKeyring (db : KDB) (req : Keyring) (w : Draw) : KDB * option KErr :=
  let k := mkRing (k_id req) (strings.TrimSpace (k_name req)) (k_rotate req) (k_created req) in
  if negb (certName (k_name k)) then (db, Some ErrBadName)
  else if k_rotate k <? 0 then (db, Some ErrNegative)
  else match CreateKeyring db k with
  | Err e => (db, Some e)
  | Ok db1 => match rotateKeyring db1 (k_id k) w with
              | Err e => (match DeleteKeyring db1 (k_id k) with Ok db2 => db2 | Err _ => db1 end, Some e)
              | Ok db2 => (db2, None)
              end
  end.
Definition handleRotateKeyring (db : KDB) (id : string) (w : Draw) : KDB * option KErr :=
  match KeyringByID db id with
  | Err e => (db, Some e)
  | Ok k => match rotateKeyring db (k_id k) w with Err e => (db, Some e) | Ok db => (db, None) end
  end.
Definition handleUpdateKeyring (db : KDB) (id : string) (rotate : Z) : KDB * option KErr :=
  match KeyringByID db id with
  | Err e => (db, Some e)
  | Ok k => if rotate <? 0 then (db, Some ErrNegative)
            else match UpdateKeyring db (mkRing (k_id k) (k_name k) rotate (k_created k)) with Err e => (db, Some e) | Ok db => (db, None) end
  end.

(** A new delivery: what the request names, [id] and [now] of the store. The
    first sync runs in the background ([reportKeyringDeliverySync]). *)
Definition handleCreateKeyringDelivery (connected : string -> bool) (db : KDB) (ring env volume : string) (uid gid : Z) (restart id : string) (now : Z) : KDB * option KErr :=
  if negb (connected env) then (db, Some ErrNotConnected)
  else match KeyringByID db ring with
  | Err e => (db, Some e)
  | Ok _ => if negb (bool_decide (volume = "")) && negb (certName volume) then (db, Some ErrBadName)
            else match CreateKeyringDelivery db (mkDelivery id ring env volume uid gid (strings.TrimSpace restart) "" None "" "" now) with
                 | Err e => (db, Some e) | Ok db => (db, None) end
  end.
Definition KeyringDeliveryByID (db : KDB) (id : string) : res KErr KeyringDelivery :=
  match List.find (fun d => bool_decide (d_id d = id)) (deliveries db) with Some d => Ok d | None => Err ErrNotFound end.
Definition handleDeleteKeyringDelivery (db : KDB) (id : string) : KDB * option KErr :=
  match KeyringDeliveryByID db id with Err e => (db, Some e) | Ok d => (DeleteKeyringDelivery db (d_id d), None) end.

Inductive RetireReply := NoSuchKeyring | NoSuchVersion | VersionActive | VersionRetired | RetireRaced | RetireDone.
(** [kv] is what the handler read; the store's statement runs on the tables of
    its own moment. *)
Definition handleRetireKeyringVersion (read db : KDB) (id vid : string) : KDB * RetireReply :=
  match KeyringByID read id with
  | Err _ => (db, NoSuchKeyring)
  | Ok k => match KeyringVersionByID read vid with
            | Err _ => (db, NoSuchVersion)
            | Ok kv => if negb (bool_decide (v_ring kv = k_id k)) then (db, NoSuchVersion)
                       else match RetireKeyringVersion db (v_id kv) with
                            | (db, true) => (db, RetireDone)
                            | (db, false) => (db, match v_state kv with Active => VersionActive | Retired => VersionRetired | DecryptOnly => RetireRaced end)
                            end
            end
  end.
Definition handleDeleteKeyring (db : KDB) (id : string) : KDB * option KErr :=
  match KeyringByID db id with
  | Err e => (db, Some e)
  | Ok k => if (0 <? KeyringInUse db (k_id k))%nat then (db, Some ErrInUse)
            else match DeleteKeyring db (k_id k) with Err e => (db, Some e) | Ok db => (db, None) end
  end.
End Server.

(** ** The reconciler *)

Section Reconciler.
Context (Open b64 : string -> option string).
(** The document as the JSON printer sees it: ring, current version, and each
    live version with its material, state and time. *)
Context (json : string -> string -> list (string * (string * VersionState * Z)) -> string).
Context (sha : list (string * string) -> Z -> Z -> string).

Inductive DErr := KeyringGone | Undecryptable | NotBase64 | NoActiveVersion | NotConnected | WriteFailed (nodes : list string).

(** One turn of the loop over the versions, newest first. *)
Definition Doc : Type := list (string * (string * VersionState * Z)) * string * string.
Definition doc_step (v : KeyringVersion) (doc : Doc) : res DErr Doc :=
  let '(keys, current, raw) := doc in
  if bool_decide (v_state v = Retired) then Ok doc
  else match Open (v_enc v) with
       | None => Err Undecryptable
       | Some m =>
           let keys := keys ++ [(v_id v, (m, v_state v, v_created v))] in
           if is_active v then match b64 m with None => Err NotBase64 | Some r => Ok (keys, v_id v, r) end
           else Ok (keys, current, raw)
       end.
Fixpoint doc_of (l : list KeyringVersion) (doc : Doc) : res DErr Doc :=
  match l with [] => Ok doc | v :: l => let* doc := doc_step v doc in doc_of l doc end.

Definition keyringFiles (db : KDB) (d : KeyringDelivery) : res DErr (list (string * string) * string) :=
  match KeyringByID db (d_ring d) with
  | Err _ => Err KeyringGone
  | Ok k =>
      let* doc := doc_of (KeyringVersions db (d_ring d)) ([], "", "") in
      let '(keys, current, raw) := doc in
      if bool_decide (current = "") then Err NoActiveVersion
      else let files := [(k_name k +:+ ".current.key", raw); (k_name k +:+ ".json", json (k_name k) current keys +:+ String (ascii_of_nat 10) "")] in
           Ok (files, sha files (d_uid d) (d_gid d))
  end.

(** The contents of the volumes: environment, node, volume, file name. *)
Abbreviation Volumes := (gmap (string * string * string * string) string).
Definition put_files (env node volume : string) (files : list (string * string)) (vols : Volumes) : Volumes :=
  foldr (fun f vols => <[(env, node, volume, f.1) := f.2]> vols) vols files.

(** [nodes env] is what the pool knows ([None]: not connected); [write env node]
    whether writing there succeeds. *)
Record Fleet := mkFleet { nodes : string -> option (list string); write : string -> string -> bool }.

Definition write_nodes (fl : Fleet) (d : KeyringDelivery) (files : list (string * string)) (ns : list string) (vols : Volumes) : Volumes * list string :=
  fold_left (fun acc n => let '(vols, errs) := acc in
    if write fl (d_env d) n then (put_files (d_env d) n (d_volume d) files vols, errs) else (vols, errs ++ [n])) ns (vols, []).

Definition syncKeyringDelivery (fl : Fleet) (db : KDB) (vols : Volumes) (d : KeyringDelivery) : Volumes * (string * option DErr) :=
  match keyringFiles db d with
  | Err e => (vols, ("", Some e))
  | Ok (files, hash) =>
      if bool_decide (hash = d_hash d) && bool_decide (d_status d = "ok") then (vols, (hash, None))
      else match nodes fl (d_env d) with
           | None => (vols, (hash, Some NotConnected))
           | Some ns => let '(vols, errs) := write_nodes fl d files ns vols in
                        (vols, (hash, match errs with [] => None | _ => Some (WriteFailed errs) end))
           end
  end.

Context (err_text : DErr -> string).
Definition reportKeyringDeliverySync (fl : Fleet) (now : Z) (st : KDB * Volumes) (d : KeyringDelivery) : KDB * Volumes :=
  let '(db, vols) := st in
  let '(vols, (hash, err)) := syncKeyringDelivery fl db vols d in
  match err with
  | None => if bool_decide (hash = d_hash d) && bool_decide (d_status d = "ok") then (db, vols)
            else (MarkKeyringDeliverySynced db (d_id d) hash None now, vols)
  | Some e => (MarkKeyringDeliverySynced db (d_id d) hash (Some (err_text e)) now, vols)
  end.
Definition converge (fl : Fleet) (now : Z) (st : KDB * Volumes) : KDB * Volumes :=
  fold_left (reportKeyringDeliverySync fl now) (AllKeyringDeliveries st.1) st.

(** "Sync now": the recorded hash is forgotten first. *)
Definition handleSyncKeyringDelivery (fl : Fleet) (now : Z) (st : KDB * Volumes) (id : string) : KDB * Volumes :=
  match List.find (fun d => bool_decide (d_id d = id)) (deliveries st.1) with
  | None => st
  | Some d => reportKeyringDeliverySync fl now st
      (mkDelivery (d_id d) (d_ring d) (d_env d) (d_volume d) (d_uid d) (d_gid d) (d_restart d) "" (d_synced d) (d_status d) (d_error d) (d_created d))
  end.
End Reconciler.

(** ** The worker *)

Definition rotation_day : Z := 24 * 3600 * 1000000000.
(** [certAlarms.fire]: a missing entry reads as "". *)
Definition alarm_get (seen : gmap string string) (key : string) : string := default "" (seen !! key).
Definition fire (seen : gmap string string) (key stage : string) : gmap string string * bool :=
  if bool_decide (alarm_get seen key = stage) then (seen, false) else (<[key := stage]> seen, true).

Inductive KEvent := KeyringRotated (ring : string) | KeyringRotateFailed (ring : string).
Record WSt := mkWSt { w_db : KDB; w_alarms : gmap string string; w_events : list KEvent }.

(** [time.Duration(k.RotateDays)*24*time.Hour] wraps; [now.Sub] saturates. *)
Definition period (k : Keyring) : Z := wrap64 (wrap64 (k_rotate k * 24) * (3600 * 1000000000)).
Definition sat64 (z : Z) : Z := Z.max (- 2^63) (Z.min (2^63 - 1) z).
Definition not_due (now : Z) (k : Keyring) (v : KeyringVersion) : bool := sat64 (now - v_created v) <? period k.

Section Worker.
Context (Seal : string -> option string).
Definition rotate_one (draw : string -> Draw) (now : Z) (st : WSt) (k : Keyring) : WSt :=
  let key := k_id k +:+ "/rotatefail" in
  if k_rotate k <=? 0 then st
  else match List.find is_active (KeyringVersions (w_db st) (k_id k)) with
  | None => st
  | Some a =>
      if not_due now k a then mkWSt (w_db st) (fire (w_alarms st) key "").1 (w_events st)
      else match rotateKeyring Seal (w_db st) (k_id k) (draw (k_id k)) with
           | Err _ => let '(seen, new) := fire (w_alarms st) key "failing" in
                      mkWSt (w_db st) seen (w_events st ++ if new then [KeyringRotateFailed (k_name k)] else [])
           | Ok db => mkWSt db (fire (w_alarms st) key "").1 (w_events st ++ [KeyringRotated (k_name k)])
           end
  end.
Definition rotateDueKeyrings (draw : string -> Draw) (now : Z) (st : WSt) : WSt := fold_left (rotate_one draw now) (ListKeyrings (w_db st)) st.
End Worker.

Definition keyringSweep (Seal Open b64 : string -> option string) (json : string -> string -> list (string * (string * VersionState * Z)) -> string)
  (sha : list (string * string) -> Z -> Z -> string) (err_text : DErr -> string) (fl : Fleet) (draw : string -> Draw) (now : Z) (st : WSt * gmap (string * string * string * string) string)
  : WSt * gmap (string * string * string * string) string :=
  let w := rotateDueKeyrings Seal draw now st.1 in
  let '(db, vols) := converge Open b64 json sha err_text fl now (w_db w, st.2) in
  (mkWSt db (w_alarms w) (w_events w), vols).

(** ** What the tables keep *)

Definition actives (l : list KeyringVersion) (ring : string) : list KeyringVersion := List.filter (fun v => bool_decide (v_ring v = ring) && is_active v) l.

(** Every keyring has exactly one version to encrypt with. *)
Record kdb_ok (db : KDB) : Prop := {
  ok_ring_ids : NoDup (map k_id (rings db));
  ok_ring_names : NoDup (map k_name (rings db));
  ok_version_ids : NoDup (map v_id (versions db));
  ok_delivery_ids : NoDup (map d_id (deliveries db));
  ok_version_ring : forall v, v ∈ versions db -> v_ring v ∈ map k_id (rings db);
  ok_delivery_ring : forall d, d ∈ deliveries db -> d_ring d ∈ map k_id (rings db);
  ok_one_active : forall r, r ∈ map k_id (rings db) -> length (actives (versions db) r) = 1%nat }.

(** A version, later: same key under the same id, its state only advanced. *)
Definition rank (s : VersionState) : nat := match s with Active => 0 | DecryptOnly => 1 | Retired => 2 end.
Definition advanced (v v' : KeyringVersion) : Prop :=
  v_id v' = v_id v /\ v_ring v' = v_ring v /\ v_enc v' = v_enc v /\ v_created v' = v_created v /\ (rank (v_state v) <= rank (v_state v'))%nat.
Definition keeps_versions (db db' : KDB) : Prop :=
  forall v, v ∈ versions db -> v_ring v ∈ map k_id (rings db') -> exists v', v' ∈ versions db' /\ advanced v v'.

Lemma advanced_refl v : advanced v v.
Proof. by repeat split. Qed.
Lemma advanced_trans a b c : advanced a b -> advanced b c -> advanced a c.
Proof. unfold advanced. intuition (congruence || lia). Qed.

Lemma demote_advanced ids v : advanced v (demote ids v).
Proof. unfold demote, is_active. destruct (bool_decide (v_id v ∈ ids)); [|apply advanced_refl]. case_bool_decide as E; [|apply advanced_refl]. unfold advanced. simpl. rewrite E. simpl. intuition lia. Qed.
Lemma retire_advanced id v : advanced v (retire id v).
Proof. unfold retire. case_bool_decide; [|apply advanced_refl]. case_bool_decide as E; [|apply advanced_refl]. unfold advanced. simpl. rewrite E. simpl. intuition lia. Qed.

Lemma version_map_ids (f : KeyringVersion -> KeyringVersion) l : (forall v, advanced v (f v)) -> map v_id (map f l) = map v_id l /\ map v_ring (map f l) = map v_ring l.
Proof. intros H. rewrite !map_map. split; apply map_ext; intros v; apply H. Qed.

Lemma actives_demote ids l r : actives (map (demote ids) l) r = List.filter (fun v => negb (bool_decide (v_id v ∈ ids))) (actives l r).
Proof.
  induction l as [|v l IH]; [done|]. unfold actives in *. simpl. rewrite IH. unfold demote. destruct (bool_decide (v_id v ∈ ids)) eqn:E; simpl.
  - destruct (is_active v) eqn:Ea; simpl; [|by rewrite Ea, andb_false_r].
    assert (is_active (mkVersion (v_id v) (v_ring v) (v_enc v) DecryptOnly (v_created v)) = false) as -> by done.
    rewrite andb_false_r, andb_true_r. destruct (bool_decide (v_ring v = r)); simpl; by rewrite ?E.
  - destruct (bool_decide (v_ring v = r) && is_active v); [|done]. simpl. by rewrite E.
Qed.
Lemma actives_retire id l r : actives (map (retire id) l) r = actives l r.
Proof.
  induction l as [|v l IH]; [done|]. unfold actives in *. simpl. rewrite IH. unfold retire. destruct (bool_decide (v_id v = id) && bool_decide (v_state v = DecryptOnly)) eqn:E; [|done].
  bd. unfold is_active. simpl. by rewrite H0, !andb_false_r.
Qed.
Lemma actives_app l l' r : actives (l ++ l') r = actives l r ++ actives l' r.
Proof. apply List.filter_app. Qed.
Lemma active_ids_eq db r : active_ids db r = map v_id (actives (versions db) r).
Proof. done. Qed.
Lemma actives_elem l r v : v ∈ actives l r <-> v ∈ l /\ v_ring v = r /\ v_state v = Active.
Proof. unfold actives. rewrite elem_of_filter_b, andb_true_iff. unfold is_active. by rewrite !bool_decide_eq_true. Qed.

Lemma existsb_ids {A} (f : A -> string) x l : existsb (fun k => bool_decide (f k = x)) l = true <-> x ∈ map f l.
Proof. rewrite existsb_elem, list_elem_of_fmap. setoid_rewrite bool_decide_eq_true. naive_solver. Qed.

Lemma filter_id {A} (f : A -> bool) l : (forall x, x ∈ l -> f x = true) -> List.filter f l = l.
Proof. induction l as [|x l IH]; intros H; [done|]. simpl. rewrite H by (by left). rewrite IH; [done|]. intros y Hy. apply H. by right. Qed.
Lemma filter_none {A} (f : A -> bool) l : (forall x, x ∈ l -> f x = false) -> List.filter f l = [].
Proof. induction l as [|x l IH]; intros H; [done|]. simpl. rewrite H by (by left). apply IH. intros y Hy. apply H. by right. Qed.

(** The transaction demotes the versions it found that are still active. *)
Lemma rotate_commit_inv db ids r enc id now db' : rotate_commit db ids r enc id now = Ok db' ->
  r ∈ map k_id (rings db) /\ (id ∉ map v_id (versions db)) /\ db' = set_versions db (map (demote ids) (versions db) ++ [mkVersion id r enc Active now]).
Proof.
  unfold rotate_commit. destruct (existsb _ (rings db)) eqn:E1; simpl; [|done]. apply existsb_ids in E1. destruct (existsb _ (versions db)) eqn:E2; [done|].
  intros [= <-]. split_and!; [done| |done]. intros H. apply existsb_ids in H. congruence.
Qed.

Lemma demoted_other db r r' : NoDup (map v_id (versions db)) -> r <> r' ->
  List.filter (fun v => negb (bool_decide (v_id v ∈ active_ids db r))) (actives (versions db) r') = actives (versions db) r'.
Proof.
  intros Hnd Hr. apply filter_id. intros v Hv. apply negb_true_iff, bool_decide_eq_false_2. intros Hin. rewrite active_ids_eq in Hin.
  apply list_elem_of_fmap in Hin as (w & E & Hw). apply actives_elem in Hv as (Hv & <- & _), Hw as (Hw & <- & _). apply Hr. f_equal.
  by apply (NoDup_map_inj v_id (versions db)).
Qed.

Lemma RotateKeyring_spec db r enc id now db' : kdb_ok db -> RotateKeyring db r enc id now = Ok db' ->
  rings db' = rings db /\ deliveries db' = deliveries db /\ keeps_versions db db' /\ NoDup (map v_id (versions db')) /\
  actives (versions db') r = [mkVersion id r enc Active now] /\ (forall r', r' <> r -> actives (versions db') r' = actives (versions db) r') /\
  (forall v, v ∈ versions db' -> v = mkVersion id r enc Active now \/ exists v0, v0 ∈ versions db /\ v = demote (active_ids db r) v0).
Proof.
  intros Hok H. apply rotate_commit_inv in H as (Hr & Hid & ->). simpl. split_and!; try done.
  - intros v Hv _. exists (demote (active_ids db r) v). split; [|apply demote_advanced]. apply elem_of_app. left. by apply list_elem_of_fmap_2.
  - rewrite map_app. destruct (version_map_ids (demote (active_ids db r)) (versions db) (demote_advanced _)) as [-> _]. simpl. apply NoDup_app.
    split_and!; [apply Hok| |apply NoDup_singleton]. intros x Hx ->%list_elem_of_singleton. done.
  - rewrite actives_app, actives_demote. rewrite filter_none; [unfold actives; simpl; by rewrite bool_decide_eq_true_2|].
    intros v Hv. apply negb_false_iff, bool_decide_eq_true_2. rewrite active_ids_eq. by apply list_elem_of_fmap_2.
  - intros r' Hr'. rewrite actives_app, actives_demote, (demoted_other db r r') by (done || apply Hok). unfold actives at 2. simpl.
    rewrite bool_decide_eq_false_2 by done. by rewrite app_nil_r.
  - intros v [Hv|Hv]%elem_of_app; [right; apply list_elem_of_fmap in Hv as (v0 & -> & Hv0); eauto|left; by apply list_elem_of_singleton in Hv].
Qed.

Lemma RotateKeyring_ok db r enc id now db' : kdb_ok db -> RotateKeyring db r enc id now = Ok db' -> kdb_ok db'.
Proof.
  intros Hok H. pose proof H as Hr. apply rotate_commit_inv in Hr as (Hr & _ & _).
  destruct (RotateKeyring_spec _ _ _ _ _ _ Hok H) as (Er & Ed & _ & Hnd & Hact & Hother & Hel). destruct Hok.
  constructor; rewrite ?Er, ?Ed; try done.
  - intros v Hv. apply Hel in Hv as [->|(v0 & Hv0 & ->)]; [done|]. destruct (demote_advanced (active_ids db r) v0) as (_ & -> & _). auto.
  - intros r' Hr'. destruct (decide (r' = r)) as [->|Hne]; [by rewrite Hact|]. rewrite Hother by done. auto.
Qed.

(** ** One active version per keyring *)

Section Operations.
Context (Seal : string -> option string).

(** Everything that writes the three tables. *)
Inductive kop :=
| KCreate (k : Keyring) (w : Draw) | KRotate (id : string) (w : Draw) | KUpdate (id : string) (rotate : Z) | KRetire (read : KDB) (id vid : string)
| KDelete (id : string) | KDeliver (connected : string -> bool) (ring env volume : string) (uid gid : Z) (restart id : string) (now : Z) | KUndeliver (id : string) | KMark (id hash : string) (err : option string) (now : Z)
| KWorker (draw : string -> Draw) (now : Z) (seen : gmap string string).
Definition exec_kop (db : KDB) (o : kop) : KDB :=
  match o with
  | KCreate k w => (handleCreateKeyring Seal db k w).1
  | KRotate id w => (handleRotateKeyring Seal db id w).1
  | KUpdate id rotate => (handleUpdateKeyring db id rotate).1
  | KRetire read id vid => (handleRetireKeyringVersion read db id vid).1
  | KDelete id => (handleDeleteKeyring db id).1
  | KDeliver connected ring env volume uid gid restart id now => (handleCreateKeyringDelivery connected db ring env volume uid gid restart id now).1
  | KUndeliver id => (handleDeleteKeyringDelivery db id).1
  | KMark id hash err now => MarkKeyringDeliverySynced db id hash err now
  | KWorker draw now seen => w_db (rotateDueKeyrings Seal draw now (mkWSt db seen []))
  end.

Definition good (db db' : KDB) : Prop := kdb_ok db' /\ keeps_versions db db'.
Lemma good_refl db : kdb_ok db -> good db db.
Proof. intros H. split; [done|]. intros v Hv _. exists v. split; [done|apply advanced_refl]. Qed.

Lemma rotate_good db r w db' : kdb_ok db -> rotateKeyring Seal db r w = Ok db' -> good db db' /\ rings db' = rings db.
Proof.
  unfold rotateKeyring. intros Hok H. destruct (w_material w) as [mat|]; [|done]. destruct (Seal mat) as [enc|]; [|done].
  destruct (RotateKeyring_spec _ _ _ _ _ _ Hok H) as (Er & _ & Hk & _). split; [|done]. split; [by eapply RotateKeyring_ok|done].
Qed.

Lemma update_ring_good db k db' : kdb_ok db -> UpdateKeyring db k = Ok db' -> good db db'.
Proof.
  unfold UpdateKeyring. intros Hok H. destruct (_ && _) eqn:E; [done|]. injection H as <-.
  assert (forall l, map k_id (map (fun x => if bool_decide (k_id x = k_id k) then mkRing (k_id x) (k_name k) (k_rotate k) (k_created x) else x) l) = map k_id l) as Hid.
  { intros l. rewrite map_map. apply map_ext. intros x. by case_bool_decide. }
  destruct Hok. split.
  - constructor; simpl; rewrite ?Hid; try done. apply andb_false_iff in E. destruct E as [E|E].
    + rewrite existsb_false in E. clear - ok_ring_ids0 ok_ring_names0 E. induction (rings db) as [|x l IH]; [constructor|]. simpl in *.
      apply NoDup_cons in ok_ring_ids0 as [Hx Hids], ok_ring_names0 as [Hn Hnames]. apply NoDup_cons. split; [|apply IH; [done..|]; intros y Hy; apply E; by right].
      intros Hin. apply list_elem_of_fmap in Hin as (y & Ey & Hy). apply list_elem_of_fmap in Hy as (z & -> & Hz).
      assert (k_id z <> k_id x) as Hzx by (intros Ez; apply Hx; rewrite <- Ez; by apply list_elem_of_fmap_2).
      assert (forall u, u ∈ x :: l -> k_id u <> k_id k -> k_name u <> k_name k) as Hu by (intros u Hu Hne En; specialize (E u Hu); rewrite bool_decide_eq_false_2, bool_decide_eq_true_2 in E by done; done).
      case_bool_decide as E1; case_bool_decide as E2; simpl in Ey; try congruence.
      * apply (Hu z); [by right|done|done].
      * apply (Hu x); [by left|done|done].
      * apply Hn. rewrite Ey. by apply list_elem_of_fmap_2.
    + rewrite existsb_false in E. assert (map (fun x => if bool_decide (k_id x = k_id k) then mkRing (k_id x) (k_name k) (k_rotate k) (k_created x) else x) (rings db) = rings db) as ->; [|done].
      clear - E. induction (rings db) as [|x l IH]; [done|]. simpl. rewrite IH by (intros y Hy; apply E; by right). specialize (E x ltac:(by left)). by rewrite E.
  - intros v Hv _. exists v. split; [done|apply advanced_refl].
Qed.

Lemma retire_good db id : kdb_ok db -> good db (RetireKeyringVersion db id).1.
Proof.
  intros []. unfold RetireKeyringVersion. simpl. destruct (version_map_ids (retire id) (versions db) (retire_advanced id)) as [Hid Hring]. split.
  - constructor; simpl; rewrite ?Hid; try done.
    + intros v Hv. apply list_elem_of_fmap in Hv as (v0 & -> & Hv0). destruct (retire_advanced id v0) as (_ & -> & _). auto.
    + intros r Hr. rewrite actives_retire. auto.
  - intros v Hv _. exists (retire id v). split; [by apply list_elem_of_fmap_2|apply retire_advanced].
Qed.

Lemma actives_without id l r : r <> id -> actives (List.filter (fun v => negb (bool_decide (v_ring v = id))) l) r = actives l r.
Proof.
  intros Hne. induction l as [|v l IH]; [done|]. unfold actives in *. simpl. destruct (bool_decide (v_ring v = id)) eqn:E; simpl; rewrite IH; [|done].
  bd. rewrite bool_decide_eq_false_2; [done|congruence].
Qed.

Lemma delete_ring_good db id db' : kdb_ok db -> DeleteKeyring db id = Ok db' -> good db db'.
Proof.
  unfold DeleteKeyring. intros Hok H. destruct (existsb _ _) eqn:E; [done|]. injection H as <-. rewrite existsb_false in E. destruct Hok.
  assert (forall r, r ∈ map k_id (List.filter (fun k => negb (bool_decide (k_id k = id))) (rings db)) <-> r ∈ map k_id (rings db) /\ r <> id) as Hr.
  { intros r. rewrite !list_elem_of_fmap. setoid_rewrite elem_of_filter_b. setoid_rewrite negb_true_iff. setoid_rewrite bool_decide_eq_false. naive_solver. }
  split.
  - constructor; simpl; try (by apply NoDup_map_filter).
    + done.
    + intros v Hv. apply elem_of_filter_b in Hv as [Hv Hn]. bd. apply Hr. auto.
    + intros d Hd. apply Hr. split; [auto|]. specialize (E d Hd). by bd.
    + intros r [Hin Hne]%Hr. rewrite actives_without by done. auto.
  - intros v Hv Hin. simpl in Hin. apply Hr in Hin as [_ Hne]. exists v. split; [|apply advanced_refl]. apply elem_of_filter_b. split; [done|]. by apply negb_true_iff, bool_decide_eq_false_2.
Qed.

Lemma CreateKeyring_inv db k db' : CreateKeyring db k = Ok db' -> db' = set_rings db (rings db ++ [k]) /\ (k_id k ∉ map k_id (rings db)) /\ (k_name k ∉ map k_name (rings db)).
Proof.
  unfold CreateKeyring. destruct (existsb _ _) eqn:E; [done|]. intros [= <-]. rewrite existsb_false in E. split; [done|].
  split; intros H; apply list_elem_of_fmap in H as (x & Ex & Hx); specialize (E x Hx); apply orb_false_iff in E as [E1 E2]; bd; congruence.
Qed.

(** The rotation that seeds a new keyring, and the deletion that takes it back. *)
Lemma create_good db req w : kdb_ok db -> good db (handleCreateKeyring Seal db req w).1.
Proof.
  intros Hok. unfold handleCreateKeyring. cbv zeta. generalize (mkRing (k_id req) (strings.TrimSpace (k_name req)) (k_rotate req) (k_created req)). intros k. destruct (negb _); [by apply good_refl|]. destruct (k_rotate k <? 0); [by apply good_refl|]. destruct (CreateKeyring db k) as [db1|e] eqn:E; [|by apply good_refl].
  apply CreateKeyring_inv in E as (-> & Hid & Hname). assert (actives (versions db) (k_id k) = []) as Hnone.
  { apply filter_none. intros v Hv. apply andb_false_iff. left. apply bool_decide_eq_false_2. intros Ev. apply Hid. rewrite <- Ev. by apply (ok_version_ring _ Hok). }
  destruct (rotateKeyring Seal _ (k_id k) w) as [db2|e] eqn:Er.
  - unfold rotateKeyring in Er. destruct (w_material w); [|done]. destruct (Seal _) as [enc|]; [|done]. apply rotate_commit_inv in Er as (_ & Hnew & ->). simpl in *.
    assert (active_ids (set_rings db (rings db ++ [k])) (k_id k) = []) as ->.
    { rewrite active_ids_eq. simpl. by rewrite Hnone. }
    assert (map (demote []) (versions db) = versions db) as -> by (rewrite <- (map_id (versions db)) at 2; apply map_ext; intros v; done).
    destruct Hok. split.
    + constructor; simpl; rewrite ?map_app; try done.
      * apply NoDup_app. split_and!; [done| |apply NoDup_singleton]. intros x Hx ->%list_elem_of_singleton. done.
      * apply NoDup_app. split_and!; [done| |apply NoDup_singleton]. intros x Hx ->%list_elem_of_singleton. done.
      * apply NoDup_app. split_and!; [done| |apply NoDup_singleton]. intros x Hx ->%list_elem_of_singleton. done.
      * intros v [Hv| ->%list_elem_of_singleton]%elem_of_app; apply elem_of_app; [left; auto|right; by left].
      * intros d Hd. apply elem_of_app. left. auto.
      * intros r [Hr| ->%list_elem_of_singleton]%elem_of_app; rewrite actives_app, length_app; unfold actives at 2; simpl.
        -- rewrite bool_decide_eq_false_2 by (intros <-; done). simpl. rewrite ok_one_active0 by done. done.
        -- by rewrite bool_decide_eq_true_2, Hnone by done.
    + intros v Hv _. exists v. split; [simpl; apply elem_of_app; by left|apply advanced_refl].
  - assert (DeleteKeyring (set_rings db (rings db ++ [k])) (k_id k) = Ok db) as ->; [|by apply good_refl].
    unfold DeleteKeyring. simpl. destruct (existsb _ (deliveries db)) eqn:Ed.
    + apply existsb_ids in Ed. apply list_elem_of_fmap in Ed as (d & Ed & Hd). destruct Hid. rewrite Ed. by apply (ok_delivery_ring _ Hok).
    + f_equal. destruct db as [rs vs ds]; simpl in *. f_equal.
      * rewrite List.filter_app. simpl. rewrite bool_decide_eq_true_2 by done. simpl. rewrite app_nil_r. apply filter_id. intros x Hx. apply negb_true_iff, bool_decide_eq_false_2.
        intros Ex. apply Hid. rewrite <- Ex. by apply list_elem_of_fmap_2.
      * apply filter_id. intros v Hv. apply negb_true_iff, bool_decide_eq_false_2. intros Ev. apply Hid. rewrite <- Ev. by apply (ok_version_ring _ Hok).
Qed.

Lemma deliveries_good db l : kdb_ok db -> NoDup (map d_id l) -> (forall d, d ∈ l -> d_ring d ∈ map k_id (rings db)) -> good db (set_deliveries db l).
Proof. intros [] H1 H2. split; [by constructor|]. intros v Hv _. exists v. split; [done|apply advanced_refl]. Qed.

Lemma create_delivery_good db d db' : kdb_ok db -> CreateKeyringDelivery db d = Ok db' -> good db db'.
Proof.
  intros Hok. unfold CreateKeyringDelivery. cbv zeta. destruct (existsb _ (deliveries db)) eqn:E1; [done|]. destruct (negb _) eqn:E2; [done|]. intros [= <-].
  apply negb_false_iff, existsb_ids in E2. simpl in E1, E2. rewrite existsb_false in E1. apply deliveries_good; [done| |].
  - rewrite map_app. apply NoDup_app. split_and!; [apply Hok| |apply NoDup_singleton]. intros x Hx ->%list_elem_of_singleton.
    apply list_elem_of_fmap in Hx as (y & Ey & Hy). specialize (E1 y Hy). simpl in *. by bd.
  - intros x [Hx| ->%list_elem_of_singleton]%elem_of_app; [by apply (ok_delivery_ring _ Hok)|done].
Qed.

Lemma mark_ids id hash err now l : map d_id (map (fun d => if bool_decide (d_id d = id) then synced hash err now d else d) l) = map d_id l.
Proof. rewrite map_map. apply map_ext. intros d. by case_bool_decide. Qed.

Lemma mark_good db id hash err now : kdb_ok db -> good db (MarkKeyringDeliverySynced db id hash err now).
Proof.
  intros Hok. apply deliveries_good; [done|rewrite mark_ids; apply Hok|]. intros d Hd. apply list_elem_of_fmap in Hd as (d0 & -> & Hd0).
  case_bool_decide; by apply (ok_delivery_ring _ Hok d0).
Qed.

Lemma rotate_one_db draw now st k : w_db (rotate_one Seal draw now st k) = w_db st \/ rotateKeyring Seal (w_db st) (k_id k) (draw (k_id k)) = Ok (w_db (rotate_one Seal draw now st k)).
Proof.
  unfold rotate_one. destruct (k_rotate k <=? 0); [by left|]. destruct (List.find _ _); [|by left]. destruct (not_due now k k0); [by left|].
  destruct (rotateKeyring Seal (w_db st) (k_id k) (draw (k_id k))) eqn:E; [by right|]. left. by destruct (fire _ _ _).
Qed.

Lemma good_trans db db1 db2 : rings db2 = rings db1 -> good db db1 -> good db1 db2 -> good db db2.
Proof.
  intros Er [_ H1] [H2 H3]. split; [done|]. intros v Hv Hin. rewrite Er in Hin. destruct (H1 v Hv Hin) as (v1 & Hv1 & Ha).
  destruct (H3 v1 Hv1) as (v2 & Hv2 & Hb); [destruct Ha as (_ & -> & _); by rewrite Er|]. exists v2. split; [done|by eapply advanced_trans].
Qed.

Lemma rotate_fold_good draw now l : forall st, kdb_ok (w_db st) -> good (w_db st) (w_db (fold_left (rotate_one Seal draw now) l st)) /\ rings (w_db (fold_left (rotate_one Seal draw now) l st)) = rings (w_db st).
Proof.
  induction l as [|k l IH]; intros st Hok; simpl; [split; [by apply good_refl|done]|].
  assert (good (w_db st) (w_db (rotate_one Seal draw now st k)) /\ rings (w_db (rotate_one Seal draw now st k)) = rings (w_db st)) as [H1 E1].
  { destruct (rotate_one_db draw now st k) as [->|H]; [split; [by apply good_refl|done]|by eapply rotate_good]. }
  destruct (IH (rotate_one Seal draw now st k)) as [H2 E2]; [apply H1|]. split; [by eapply good_trans|congruence].
Qed.

Lemma exec_kop_good db o : kdb_ok db -> good db (exec_kop db o).
Proof.
  intros Hok. destruct o as [k w|id w|id rotate|read id vid|id|connected ring env volume uid gid restart id now|id|id hash err now|draw now seen]; simpl.
  - by apply create_good.
  - unfold handleRotateKeyring. destruct (KeyringByID db id); [|by apply good_refl]. destruct (rotateKeyring _ _ _ _) eqn:E; [by eapply rotate_good|by apply good_refl].
  - unfold handleUpdateKeyring. destruct (KeyringByID db id); [|by apply good_refl]. destruct (rotate <? 0); [by apply good_refl|].
    destruct (UpdateKeyring _ _) eqn:E; [by eapply update_ring_good|by apply good_refl].
  - unfold handleRetireKeyringVersion. destruct (KeyringByID read id); [|by apply good_refl]. destruct (KeyringVersionByID read vid) as [kv|]; [|by apply good_refl].
    destruct (negb _); [by apply good_refl|]. pose proof (retire_good db (v_id kv) Hok) as H. destruct (RetireKeyringVersion db (v_id kv)) as [db' []]; exact H.
  - unfold handleDeleteKeyring. destruct (KeyringByID db id); [|by apply good_refl]. destruct (0 <? _)%nat; [by apply good_refl|].
    destruct (DeleteKeyring _ _) eqn:E; [by eapply delete_ring_good|by apply good_refl].
  - unfold handleCreateKeyringDelivery. destruct (negb _); [by apply good_refl|]. destruct (KeyringByID db ring); [|by apply good_refl].
    destruct (_ && _); [by apply good_refl|]. destruct (CreateKeyringDelivery _ _) as [db'|] eqn:E; [by apply create_delivery_good in E|by apply good_refl].
  - unfold handleDeleteKeyringDelivery. destruct (KeyringDeliveryByID db id); [|by apply good_refl]. apply deliveries_good; [done|apply NoDup_map_filter, Hok|]. intros d Hd. apply elem_of_filter_b in Hd as [Hd _]. by apply (ok_delivery_ring _ Hok).
  - by apply mark_good.
  - by apply rotate_fold_good.
Qed.

(** C38: Whatever is done to keyrings, one request after the other, each keeps
    exactly one version to encrypt with; a version of a keyring that still
    exists is still there with the same key, its state only advanced. *)
Theorem keyrings_invariant (db : KDB) (os : list kop) : kdb_ok db ->
  kdb_ok (fold_left exec_kop os db) /\ forall o, keeps_versions db (exec_kop db o).
Proof.
  intros Hok. split; [|intros o; by apply exec_kop_good]. revert db Hok. induction os as [|o os IH]; intros db Hok; [done|]. apply IH. by apply exec_kop_good.
Qed.
End Operations.

(** ** Rotations that overlap

    On Postgres the lock on writes is a no-op and each rotation is a transaction
    at READ COMMITTED: its first statement sees the active versions committed
    when it starts; it may wait for another rotation to commit, and then demotes
    those of them that are still active. *)
Inductive revent := RBegin (txn : nat) (ring : string) | RCommit (txn : nat) (enc id : string) (now : Z).
Record RWorld := mkRW { r_db : KDB; r_open : list (nat * (string * list string)) }.
Definition rstep (w : RWorld) (e : revent) : RWorld :=
  match e with
  | RBegin t ring => mkRW (r_db w) ((t, (ring, active_ids (r_db w) ring)) :: r_open w)
  | RCommit t enc id now =>
      match List.find (fun x => (x.1 =? t)%nat) (r_open w) with
      | None => w
      | Some (_, (ring, ids)) => mkRW (match rotate_commit (r_db w) ids ring enc id now with Ok db => db | Err _ => r_db w end)
                                   (List.filter (fun x => negb (x.1 =? t)%nat) (r_open w))
      end
  end.

(** Two rotations of one keyring that start before either commits leave it with
    two active versions, which "encrypt with current" cannot tell apart; the
    next rotation demotes both. *)
Theorem overlapping_rotations (db : KDB) (r e1 i1 e2 i2 e3 i3 : string) (n1 n2 n3 : Z) : kdb_ok db -> r ∈ map k_id (rings db) ->
  NoDup [i1; i2; i3] -> Forall (fun i => i ∉ map v_id (versions db)) [i1; i2; i3] ->
  let w := fold_left rstep [RBegin 1 r; RBegin 2 r; RCommit 1 e1 i1 n1; RCommit 2 e2 i2 n2] (mkRW db []) in
  active_ids (r_db w) r = [i1; i2] /\
  exists db', RotateKeyring (r_db w) r e3 i3 n3 = Ok db' /\ active_ids db' r = [i3].
Proof.
  intros Hok Hr Hnd Hnew. set (ids := active_ids db r).
  assert (forall db0 ids0 e i n, rings db0 = rings db -> i ∉ map v_id (versions db0) ->
    rotate_commit db0 ids0 r e i n = Ok (set_versions db0 (map (demote ids0) (versions db0) ++ [mkVersion i r e Active n]))) as Hc.
  { intros db0 ids0 e i n Er Hi. unfold rotate_commit. rewrite Er, (proj2 (existsb_ids k_id r (rings db)) Hr). simpl.
    destruct (existsb (fun v => bool_decide (v_id v = i)) (versions db0)) eqn:E; [|done]. by apply existsb_ids in E. }
  assert (forall l ids0, map v_id (map (demote ids0) l) = map v_id l) as Hids by (intros l ids0; apply version_map_ids, demote_advanced).
  apply NoDup_cons in Hnd as [Hi1 Hnd]. apply NoDup_cons in Hnd as [Hi2 _]. apply Forall_cons in Hnew as [H1 Hnew]. apply Forall_cons in Hnew as [H2 Hnew]. apply Forall_inv in Hnew as H3.
  assert (actives (map (demote ids) (versions db)) r = []) as Hnone.
  { rewrite actives_demote. apply filter_none. intros v Hv. apply negb_false_iff, bool_decide_eq_true_2. unfold ids. rewrite active_ids_eq. by apply list_elem_of_fmap_2. }
  cbn [fold_left rstep r_db r_open List.find fst Nat.eqb]. fold ids. rewrite (Hc db) by done. cbn [List.filter fst Nat.eqb negb List.find r_db r_open].
  set (db1 := set_versions db _). assert (map v_id (versions db1) = map v_id (versions db) ++ [i1]) as E1 by (unfold db1; simpl; by rewrite map_app, Hids).
  rewrite (Hc db1 ids e2 i2 n2); [|done|rewrite E1, elem_of_app; set_solver]. cbn [r_db].
  set (db2 := set_versions db1 _). assert (map v_id (versions db2) = map v_id (versions db) ++ [i1; i2]) as E2 by (change (versions db2) with (map (demote ids) (versions db1) ++ [mkVersion i2 r e2 Active n2]); by rewrite map_app, Hids, E1, <- app_assoc).
  assert (i1 ∉ ids) as Hni by (intros Hin; apply H1; unfold ids, active_ids in Hin; apply list_elem_of_fmap in Hin as (v & -> & Hv); apply elem_of_filter_b in Hv as [Hv _]; by apply list_elem_of_fmap_2).
  assert (active_ids db2 r = [i1; i2]) as Ha.
  { rewrite active_ids_eq. unfold db2, db1. simpl versions. rewrite actives_app, actives_demote, actives_app, Hnone. unfold actives. simpl.
    rewrite bool_decide_eq_true_2 by done. simpl. rewrite bool_decide_eq_false_2 by done. done. }
  split; [exact Ha|]. eexists. split.
  - apply Hc; [done|]. rewrite E2, elem_of_app. set_solver.
  - rewrite active_ids_eq. simpl versions. rewrite actives_app, actives_demote, filter_none.
    + unfold actives. simpl. by rewrite bool_decide_eq_true_2.
    + intros v Hv. apply negb_false_iff, bool_decide_eq_true_2. rewrite active_ids_eq. by apply list_elem_of_fmap_2.
Qed.
