(* ===== verification/KeyringCases.v ===== *)
(** * Keyrings: what reaches the volumes, when versions rotate

    The delivered document, the convergence of a sweep, the schedule of the
    worker and where it wraps around ([Keyrings] holds the model). *)
From stdpp Require Import pretty.
From S2P Require Import Prelude GoStd Timestamps Keyrings.
Local Open Scope string_scope.
Local Open Scope list_scope.
Local Open Scope daffa_scope.
Local Open Scope Z_scope.

(** ** The document *)

Lemma find_ring db k : kdb_ok db -> k ∈ rings db -> KeyringByID db (k_id k) = Ok k.
Proof.
  intros Hok Hk. unfold KeyringByID. destruct (List.find _ _) as [k'|] eqn:E.
  - apply List.find_some in E as [Hin E]. bd. f_equal. apply (NoDup_map_inj k_id (rings db)); [apply Hok|by apply list_elem_of_In|done|done].
  - pose proof (List.find_none _ _ E k (proj1 (list_elem_of_In _ _) Hk)) as Hn. simpl in Hn. by bd.
Qed.

Lemma KeyringByID_id db r k : KeyringByID db r = Ok k -> r = k_id k.
Proof. unfold KeyringByID. destruct (List.find _ _) eqn:E; [|done]. intros [= ->]. apply List.find_some in E as [_ E]. by bd. Qed.

Lemma KeyringVersions_perm db r : KeyringVersions db r ≡ₚ List.filter (fun v => bool_decide (v_ring v = r)) (versions db).
Proof. apply ssort_perm. Qed.

Lemma filter_active_eq db r : List.filter is_active (KeyringVersions db r) ≡ₚ actives (versions db) r.
Proof.
  unfold actives. rewrite (filter_perm is_active _ _ (KeyringVersions_perm db r)). induction (versions db) as [|v l IH]; [done|]. simpl.
  destruct (bool_decide (v_ring v = r)); simpl; [|done]. destruct (is_active v); [by rewrite IH|done].
Qed.

Lemma one_active db r : kdb_ok db -> r ∈ map k_id (rings db) -> exists a, actives (versions db) r = [a] /\ List.filter is_active (KeyringVersions db r) = [a].
Proof.
  intros Hok Hr. pose proof (ok_one_active _ Hok r Hr) as Hl. destruct (actives (versions db) r) as [|a [|b l]] eqn:E; try done.
  exists a. split; [done|]. apply Permutation_singleton_r. by rewrite filter_active_eq, E.
Qed.

Lemma find_filter_head {A} (f : A -> bool) l : List.find f l = head (List.filter f l).
Proof. induction l as [|x l IH]; [done|]. simpl. by destruct (f x). Qed.

Section Documents.
Context (Open b64 : string -> option string).
Context (json : string -> string -> list (string * (string * VersionState * Z)) -> string).
Context (sha : list (string * string) -> Z -> Z -> string).

Definition live (v : KeyringVersion) : bool := negb (bool_decide (v_state v = Retired)).
Definition entry_of (v : KeyringVersion) (x : string * (string * VersionState * Z)) : Prop :=
  x.1 = v_id v /\ Open (v_enc v) = Some x.2.1.1 /\ x.2.1.2 = v_state v /\ x.2.2 = v_created v.
Definition current_of (l : list KeyringVersion) (cur raw : string) (cur' raw' : string) : Prop :=
  match List.filter is_active l with
  | [] => cur' = cur /\ raw' = raw
  | a :: t => exists b m, b ∈ a :: t /\ cur' = v_id b /\ Open (v_enc b) = Some m /\ b64 m = Some raw'
  end.

Lemma doc_of_ok l : forall keys cur raw keys' cur' raw', doc_of Open b64 l (keys, cur, raw) = Ok (keys', cur', raw') ->
  exists new, keys' = keys ++ new /\ Forall2 entry_of (List.filter live l) new /\ current_of l cur raw cur' raw'.
Proof.
  induction l as [|v l IH]; intros keys cur raw keys' cur' raw' H; simpl in H.
  - injection H as <- <- <-. exists []. rewrite app_nil_r. by split_and!.
  - apply rbind_ok_inv in H as ([[keys1 cur1] raw1] & H1 & H). apply IH in H as (new & -> & Hf & Hc). unfold current_of in *. cbn [List.filter]. change (live v) with (negb (bool_decide (v_state v = Retired))).
    destruct (bool_decide (v_state v = Retired)) eqn:Er; simpl in H1 |- *.
    + injection H1 as -> -> ->. exists new. assert (is_active v = false) as Ea by (bd; unfold is_active; by rewrite Er). simpl. rewrite Ea. by split_and!.
    + destruct (Open (v_enc v)) as [m|] eqn:Eo; [|done]. simpl. destruct (is_active v) eqn:Ea.
      * destruct (b64 m) as [rw|] eqn:Eb; [|done]. injection H1 as <- <- <-. exists ((v_id v, (m, v_state v, v_created v)) :: new). split_and!; [by rewrite <- app_assoc|by constructor|].
        destruct (List.filter is_active l) as [|a t]; [destruct Hc as [-> ->]; exists v, m; split_and!; [left|..]; done|].
        destruct Hc as (b & m' & Hb & Hrest). exists b, m'. split; [by right|done].
      * injection H1 as <- <- <-. exists ((v_id v, (m, v_state v, v_created v)) :: new). split_and!; [by rewrite <- app_assoc|by constructor|done].
Qed.

Lemma doc_of_err l : forall doc e, doc_of Open b64 l doc = Err e -> exists v, v ∈ l /\ v_state v <> Retired /\
  (e = Undecryptable /\ Open (v_enc v) = None \/ e = NotBase64 /\ v_state v = Active /\ exists m, Open (v_enc v) = Some m /\ b64 m = None).
Proof.
  induction l as [|v l IH]; intros [[keys cur] raw] e H; simpl in H; [done|].
  destruct (bool_decide (v_state v = Retired)) eqn:Er; simpl in H; [destruct (IH _ _ H) as (w & Hw & ?); exists w; split; [by right|done]|]. bd.
  destruct (Open (v_enc v)) as [m|] eqn:Eo; simpl in H; [|injection H as <-; exists v; split; [by left|]; split; [done|by left]].
  destruct (is_active v) eqn:Ea; simpl in H; [|destruct (IH _ _ H) as (w & Hw & ?); exists w; split; [by right|done]].
  destruct (b64 m) eqn:Eb; simpl in H; [destruct (IH _ _ H) as (w & Hw & ?); exists w; split; [by right|done]|]. injection H as <-.
  exists v. split; [by left|]. split; [done|]. right. unfold is_active in Ea. bd. eauto.
Qed.

(** A delivery carries every version that is not retired, newest first, with its
    key and state, names the active one as current and holds its raw key beside
    them; the only way it fails is a key that does not open or decode. *)
Theorem keyring_document (db : KDB) (d : KeyringDelivery) (k : Keyring) : kdb_ok db -> k ∈ rings db -> k_id k = d_ring d ->
  (forall v, v ∈ versions db -> v_id v <> "") ->
  match keyringFiles Open b64 json sha db d with
  | Ok (files, hash) => exists a m raw keys, actives (versions db) (d_ring d) = [a] /\ Open (v_enc a) = Some m /\ b64 m = Some raw /\
      Forall2 entry_of (List.filter live (KeyringVersions db (d_ring d))) keys /\
      files = [(k_name k +:+ ".current.key", raw); (k_name k +:+ ".json", json (k_name k) (v_id a) keys +:+ String (ascii_of_nat 10) "")] /\
      hash = sha files (d_uid d) (d_gid d)
  | Err e => exists v, v ∈ versions db /\ v_ring v = d_ring d /\ v_state v <> Retired /\
      (e = Undecryptable /\ Open (v_enc v) = None \/ e = NotBase64 /\ v_state v = Active /\ exists m, Open (v_enc v) = Some m /\ b64 m = None)
  end.
Proof.
  intros Hok Hk Ek Hid. unfold keyringFiles. rewrite <- Ek, (find_ring db k) by done. rewrite Ek.
  destruct (one_active db (d_ring d) Hok) as (a & Ea & Efa); [rewrite <- Ek; by apply list_elem_of_fmap_2|].
  destruct (doc_of Open b64 (KeyringVersions db (d_ring d)) ([], "", "")) as [[[keys cur] raw]|e] eqn:E; cbn [rbind].
  - apply doc_of_ok in E as (new & -> & Hf & Hc). unfold current_of in Hc. rewrite Efa in Hc. destruct Hc as (b & m & Hb & -> & Ho & Hb64).
    apply list_elem_of_singleton in Hb as ->. assert (a ∈ versions db) as Hin by (apply (actives_elem _ (d_ring d)); rewrite Ea; by left).
    rewrite bool_decide_eq_false_2 by auto. exists a, m, raw, new. by split_and!.
  - apply doc_of_err in E as (v & Hv & Hrest). rewrite (KeyringVersions_perm db (d_ring d)) in Hv. apply elem_of_filter_b in Hv as [Hv Er]. bd. eauto.
Qed.
End Documents.

(** ** The sweep converges *)

Section Sweep.
Context (Open b64 : string -> option string).
Context (json : string -> string -> list (string * (string * VersionState * Z)) -> string).
Context (sha : list (string * string) -> Z -> Z -> string) (err_text : DErr -> string).

Abbreviation Volumes := (gmap (string * string * string * string) string).
Abbreviation files_of := (keyringFiles Open b64 json sha).
Abbreviation report := (reportKeyringDeliverySync Open b64 json sha err_text).

(** Every node of the delivery's environment holds the files. *)
Definition holds (fl : Fleet) (vols : Volumes) (d : KeyringDelivery) (files : list (string * string)) : Prop :=
  forall ns n f, nodes fl (d_env d) = Some ns -> n ∈ ns -> f ∈ files -> vols !! (d_env d, n, d_volume d, f.1) = Some f.2.
Definition current (db : KDB) (d : KeyringDelivery) : Prop := d_status d = "ok" /\ exists files, files_of db d = Ok (files, d_hash d).
(** What is recorded as delivered is there. *)
Definition recorded (fl : Fleet) (db : KDB) (vols : Volumes) : Prop := forall d, d ∈ deliveries db -> d_status d = "ok" ->
  exists files, d_hash d = sha files (d_uid d) (d_gid d) /\ holds fl vols d files.
(** The fleet and the keys are reachable. *)
Definition reachable (fl : Fleet) (db : KDB) : Prop := forall d, d ∈ deliveries db ->
  is_ok (files_of db d) = true /\ is_Some (nodes fl (d_env d)) /\ forall n, write fl (d_env d) n = true.
Context (sha_inj : forall f f' u g, sha f u g = sha f' u g -> f = f').

Lemma files_hash db d files hash : files_of db d = Ok (files, hash) -> hash = sha files (d_uid d) (d_gid d).
Proof.
  unfold keyringFiles. destruct (KeyringByID db (d_ring d)); [|done]. intros H. apply rbind_ok_inv in H as ([[keys cur] raw] & _ & H).
  case_bool_decide; [done|]. by injection H as <- <-.
Qed.

(** The files of two deliveries that share a name in a volume are the same. *)
Lemma files_names db d files hash : files_of db d = Ok (files, hash) -> exists k, KeyringByID db (d_ring d) = Ok k /\
  exists raw blob, files = [(k_name k +:+ ".current.key", raw); (k_name k +:+ ".json", blob)].
Proof.
  unfold keyringFiles. destruct (KeyringByID db (d_ring d)) as [k|] eqn:Ek; [|done]. intros H. apply rbind_ok_inv in H as ([[keys cur] raw] & _ & H).
  case_bool_decide; [done|]. injection H as <- <-. eauto.
Qed.

Lemma app_suffix_inj (s : string) : forall a b, a +:+ s = b +:+ s -> a = b.
Proof.
  intros a. induction a as [|c a IH]; intros [|e b] H; [done| | |].
  - assert (String.length ("" +:+ s) = String.length (String e b +:+ s)) as Hl by (by rewrite H). rewrite !length_app_s in Hl. simpl in Hl. lia.
  - assert (String.length (String c a +:+ s) = String.length ("" +:+ s)) as Hl by (by rewrite H). rewrite !length_app_s in Hl. simpl in Hl. lia.
  - rewrite !app_cons_s in H. injection H as -> E. by rewrite (IH b E).
Qed.

Lemma last_char_inj (a b : string) c d : a +:+ String c "" = b +:+ String d "" -> c = d.
Proof.
  revert b. induction a as [|x a IH]; intros [|y b] H; rewrite ?app_cons_s in H.
  - by injection H.
  - injection H as _ H. by destruct b.
  - injection H as _ H. by destruct a.
  - injection H as _ H. by apply (IH b).
Qed.

Lemma same_file db d d' files files' h h' f f' : kdb_ok db -> files_of db d = Ok (files, h) -> files_of db d' = Ok (files', h') ->
  f ∈ files -> f' ∈ files' -> f.1 = f'.1 -> f = f'.
Proof.
  intros Hok H H' Hf Hf' E. destruct (files_names _ _ _ _ H) as (k & Ek & raw & blob & ->), (files_names _ _ _ _ H') as (k' & Ek' & raw' & blob' & ->).
  assert (forall a b, a +:+ ".current.key" <> b +:+ ".json") as Hdiff.
  { intros a b Hab. change ".current.key" with (".current.ke" +:+ String "y" "") in Hab. change ".json" with (".jso" +:+ String "n" "") in Hab.
    rewrite <- !app_assoc_s in Hab. by apply last_char_inj in Hab. }
  assert (forall s, k_name k +:+ s = k_name k' +:+ s -> k = k') as Hk.
  { intros s Hs. apply app_suffix_inj in Hs. unfold KeyringByID in Ek, Ek'. destruct (List.find _ (rings db)) as [x|] eqn:Ex in Ek; [|done]. injection Ek as ->.
    destruct (List.find _ (rings db)) as [x'|] eqn:Ex' in Ek'; [|done]. injection Ek' as ->. apply List.find_some in Ex as [Hx _], Ex' as [Hx' _].
    apply (NoDup_map_inj k_name (rings db)); [apply Hok|by apply list_elem_of_In..|done]. }
  assert (k = k' -> raw = raw' /\ blob = blob') as Hsame.
  { intros <-. apply KeyringByID_id in Ek, Ek'. unfold keyringFiles in H, H'. rewrite Ek' in H'. rewrite Ek in H.
    destruct (KeyringByID db (k_id k)) as [k2|] eqn:E2; [|done]. apply rbind_ok_inv in H as ([[keys cur] rw] & H1 & H), H' as ([[keys' cur'] rw'] & H1' & H').
    case_bool_decide; [done|]. case_bool_decide; [done|]. injection H as _ Er _ Ej _. injection H' as _ Er' _ Ej' _. subst. rewrite H1 in H1'. injection H1' as <- <- <-. done. }
  apply elem_of_cons in Hf as [->|Hf], Hf' as [->|Hf']; repeat match goal with H : _ ∈ [_] |- _ => apply list_elem_of_singleton in H as -> end; simpl in E.
  - destruct (Hk _ E). destruct (Hsame eq_refl) as [-> ->]. done.
  - by apply Hdiff in E.
  - symmetry in E. by apply Hdiff in E.
  - destruct (Hk _ E). destruct (Hsame eq_refl) as [-> ->]. done.
Qed.


(** Writing: every entry is what it was, or one of the files under its name. *)
Definition touched (P : string * string -> Prop) (vols vols' : Volumes) : Prop :=
  forall key, vols' !! key = vols !! key \/ exists f, P f /\ key.2 = f.1 /\ vols' !! key = Some f.2.
Lemma touched_refl P vols : touched P vols vols.
Proof. by left. Qed.
Lemma touched_trans P a b c : touched P a b -> touched P b c -> touched P a c.
Proof. intros H1 H2 key. destruct (H2 key) as [->|?]; [apply H1|by right]. Qed.

Definition functional (files : list (string * string)) : Prop := forall f f', f ∈ files -> f' ∈ files -> f.1 = f'.1 -> f = f'.

Lemma put_files_touched env n vol files vols : touched (fun f => f ∈ files) vols (put_files env n vol files vols).
Proof.
  induction files as [|f files IH]; [by left|]. intros key. simpl. destruct (decide (key = (env, n, vol, f.1))) as [->|Hne].
  - right. exists f. split_and!; [by left|done|]. by rewrite lookup_insert_eq.
  - rewrite lookup_insert_ne by done. destruct (IH key) as [->|(f' & ? & ?)]; [by left|right; exists f'; split; [by right|done]].
Qed.

Lemma put_files_holds env n vol files vols f : functional files -> f ∈ files -> put_files env n vol files vols !! (env, n, vol, f.1) = Some f.2.
Proof.
  intros Hf Hin. induction files as [|g files IH]; [by apply not_elem_of_nil in Hin|]. simpl. destruct (decide (g.1 = f.1)) as [E|Hne].
  - rewrite <- E, lookup_insert_eq. f_equal. f_equal. apply Hf; [by left|done|done].
  - rewrite lookup_insert_ne by congruence. apply IH.
    + intros x y Hx Hy. apply Hf; by right.
    + apply elem_of_cons in Hin as [->|Hin]; done.
Qed.

Lemma write_nodes_ok fl d files : functional files -> (forall n, write fl (d_env d) n = true) -> forall ns vols errs,
  let '(vols', errs') := fold_left (fun acc n => let '(vols, errs) := acc in
    if write fl (d_env d) n then (put_files (d_env d) n (d_volume d) files vols, errs) else (vols, errs ++ [n])) ns (vols, errs) in
  errs' = errs /\ touched (fun f => f ∈ files) vols vols' /\
  forall n f, (n ∈ ns \/ vols !! (d_env d, n, d_volume d, f.1) = Some f.2) -> f ∈ files -> vols' !! (d_env d, n, d_volume d, f.1) = Some f.2.
Proof.
  intros Hf Hw ns. induction ns as [|n ns IH]; intros vols errs; simpl.
  - split_and!; [done|apply touched_refl|]. by intros n f [?%not_elem_of_nil|?].
  - rewrite Hw. specialize (IH (put_files (d_env d) n (d_volume d) files vols) errs). destruct (fold_left _ ns _) as [vols' errs']. destruct IH as (-> & Ht & Hh).
    split_and!; [done|eapply touched_trans; [apply put_files_touched|done]|]. intros m f [[->|Hm]%elem_of_cons|Hv] Hin.
    + apply Hh; [|done]. right. by apply put_files_holds.
    + apply Hh; [by left|done].
    + apply Hh; [|done]. right. destruct (put_files_touched (d_env d) n (d_volume d) files vols (d_env d, m, d_volume d, f.1)) as [->|(f' & Hf' & E & ->)]; [done|].
      simpl in E. f_equal. f_equal. by apply Hf.
Qed.

(** What a sweep makes of the tables: the rings and versions as they were, and
    the deliveries with the same place and owner. *)
Definition place (d : KeyringDelivery) := (d_id d, d_ring d, d_env d, d_volume d, d_uid d, d_gid d).
Definition same_but_marks (db db' : KDB) : Prop :=
  rings db' = rings db /\ versions db' = versions db /\ map place (deliveries db') = map place (deliveries db).
Lemma same_refl db : same_but_marks db db.
Proof. done. Qed.
Lemma same_trans a b c : same_but_marks a b -> same_but_marks b c -> same_but_marks a c.
Proof. intros (?&?&?) (?&?&?). split_and!; congruence. Qed.

Lemma files_same db db' d d' : rings db' = rings db -> versions db' = versions db -> place d' = place d -> files_of db' d' = files_of db d.
Proof.
  intros Er Ev [= _ E _ _ Eu Eg]. unfold keyringFiles, KeyringByID, KeyringVersions. by rewrite Er, Ev, E, Eu, Eg.
Qed.

Lemma mark_same db id hash e now : same_but_marks db (MarkKeyringDeliverySynced db id hash e now).
Proof. split_and!; [done|done|]. simpl. rewrite map_map. apply map_ext. intros d. by case_bool_decide. Qed.

(** A file some delivery wants. *)
Definition desired (db : KDB) (f : string * string) : Prop := exists d files h, d ∈ deliveries db /\ files_of db d = Ok (files, h) /\ f ∈ files.
(** Between the writes of a sweep: what is recorded is there, or already what is
    wanted under that name. *)
Definition nearly (fl : Fleet) (db : KDB) (vols : Volumes) (d : KeyringDelivery) : Prop := d_status d = "ok" ->
  exists files, d_hash d = sha files (d_uid d) (d_gid d) /\
    forall ns n f, nodes fl (d_env d) = Some ns -> n ∈ ns -> f ∈ files ->
      vols !! (d_env d, n, d_volume d, f.1) = Some f.2 \/ exists f', desired db f' /\ f'.1 = f.1 /\ vols !! (d_env d, n, d_volume d, f.1) = Some f'.2.

Lemma nearly_touched fl db vols vols' d : touched (desired db) vols vols' -> nearly fl db vols d -> nearly fl db vols' d.
Proof.
  intros Ht Hn Hs. destruct (Hn Hs) as (files & Eh & Hf). exists files. split; [done|]. intros ns n f Hns Hin Hff.
  destruct (Ht (d_env d, n, d_volume d, f.1)) as [->|(f' & Hd & E & ->)]; [by eapply Hf|]. right. exists f'. simpl in E. by rewrite E.
Qed.

Lemma desired_same db db' f : same_but_marks db db' -> desired db f -> desired db' f.
Proof.
  intros (Er & Ev & Ed) (d & files & h & Hd & Hf & Hin). assert (place d ∈ map place (deliveries db')) as Hp by (rewrite Ed; by apply list_elem_of_fmap_2).
  apply list_elem_of_fmap in Hp as (d' & Ep & Hd'). exists d', files, h. split_and!; [done| |done]. rewrite <- Hf. by apply files_same.
Qed.

(** One delivery of the sweep. *)
Lemma report_step fl now db vols d files h : kdb_ok db -> d ∈ deliveries db -> nearly fl db vols d ->
  files_of db d = Ok (files, h) -> is_Some (nodes fl (d_env d)) -> (forall n, write fl (d_env d) n = true) ->
  let '(db', vols') := report fl now (db, vols) d in
  same_but_marks db db' /\ touched (desired db) vols vols' /\ (forall x, x ∈ deliveries db -> d_id x <> d_id d -> x ∈ deliveries db') /\
  exists d', d' ∈ deliveries db' /\ place d' = place d /\ d_status d' = "ok" /\ d_hash d' = h /\ nearly fl db' vols' d'.
Proof.
  intros Hok Hin Hn Hf [ns Hns] Hw. unfold reportKeyringDeliverySync, syncKeyringDelivery. rewrite Hf.
  destruct (bool_decide (h = d_hash d) && bool_decide (d_status d = "ok")) eqn:E.
  - rewrite E. bd. split_and!; [apply same_refl|apply touched_refl|done|]. exists d. by split_and!.
  - rewrite Hns. assert (functional files) as Hfun by (intros f f' H1 H2; by apply (same_file db d d files files h h)).
    pose proof (write_nodes_ok fl d files Hfun Hw ns vols []) as Hwn. unfold write_nodes. destruct (fold_left _ ns _) as [vols' errs']. destruct Hwn as (-> & Ht & Hh).
    rewrite E. split_and!.
    + apply mark_same.
    + intros key. destruct (Ht key) as [?|(f & Hff & ?)]; [by left|right]. exists f. split; [|done]. by exists d, files, h.
    + intros x Hx Hne. simpl. apply list_elem_of_fmap. exists x. rewrite bool_decide_eq_false_2 by done. done.
    + exists (synced h None now d). split_and!; try done.
      * simpl. apply list_elem_of_fmap. exists d. by rewrite bool_decide_eq_true_2.
      * intros _. exists files. simpl. split; [by eapply files_hash|]. intros ns' n f Hns' Hm Hff. left. rewrite Hns in Hns'. injection Hns' as <-. auto.
Qed.

Lemma same_ok db db' : same_but_marks db db' -> kdb_ok db -> kdb_ok db'.
Proof.
  intros (Er & Ev & Ed) []. assert (map d_id (deliveries db') = map d_id (deliveries db)) as Ei.
  { assert (forall l, map d_id l = map (fun p => p.1.1.1.1.1) (map place l)) as H by (intros l; by rewrite map_map). by rewrite !H, Ed. }
  constructor; rewrite ?Er, ?Ev, ?Ei; try done. intros d Hd. apply (list_elem_of_fmap_2 place) in Hd. change (place <$> deliveries db') with (map place (deliveries db')) in Hd.
  rewrite Ed in Hd. apply list_elem_of_fmap in Hd as (d0 & E & Hd0). injection E as _ -> _ _ _ _. auto.
Qed.

Lemma same_place db db' d' : same_but_marks db db' -> d' ∈ deliveries db' -> exists d, d ∈ deliveries db /\ place d' = place d.
Proof.
  intros (_ & _ & Ed) H. apply (list_elem_of_fmap_2 place) in H. change (place <$> deliveries db') with (map place (deliveries db')) in H. rewrite Ed in H.
  apply list_elem_of_fmap in H as (d & -> & Hd). eauto.
Qed.

Lemma same_reachable fl db db' : same_but_marks db db' -> reachable fl db -> reachable fl db'.
Proof.
  intros Hs Hr d' Hd'. destruct (same_place _ _ _ Hs Hd') as (d & Hd & E). destruct (Hr d Hd) as (H1 & H2 & H3).
  rewrite (files_same db db' d d') by (done || apply Hs). injection E as _ _ -> _ _ _. done.
Qed.

Lemma sweep_fold fl now l : forall db vols, kdb_ok db -> reachable fl db -> NoDup (map d_id l) -> (forall d, d ∈ l -> d ∈ deliveries db) ->
  (forall d, d ∈ deliveries db -> nearly fl db vols d /\ ((d ∈ l) \/ current db d)) ->
  let '(db', vols') := fold_left (report fl now) l (db, vols) in
  same_but_marks db db' /\ forall d, d ∈ deliveries db' -> nearly fl db' vols' d /\ current db' d.
Proof.
  induction l as [|d l IH]; intros db vols Hok Hre Hnd Hl Hall; cbn [fold_left].
  - split; [apply same_refl|]. intros d Hd. destruct (Hall d Hd) as [? [?%not_elem_of_nil|?]]; done.
  - apply NoDup_cons in Hnd as [Hni Hnd]. assert (d ∈ deliveries db) as Hd by (apply Hl; by left). destruct (Hre d Hd) as (Hf & Hns & Hw).
    destruct (files_of db d) as [[files h]|] eqn:Ef; [|done]. pose proof (report_step fl now db vols d files h Hok Hd (proj1 (Hall d Hd)) Ef Hns Hw) as Hs.
    destruct (report fl now (db, vols) d) as [db1 vols1]. destruct Hs as (Hsame & Ht & Hkeep & d1 & Hd1 & Ep & Est & Eh & Hn1).
    pose proof (same_ok _ _ Hsame Hok) as Hok1.
    specialize (IH db1 vols1 Hok1 (same_reachable _ _ _ Hsame Hre) Hnd).
    destruct (fold_left (report fl now) l (db1, vols1)) as [db2 vols2]. destruct IH as [Hsame2 Hfin]; [| |split; [by eapply same_trans|done]].
    + intros x Hx. apply Hkeep; [apply Hl; by right|]. intros E. apply Hni. rewrite <- E. by apply list_elem_of_fmap_2.
    + intros x Hx. destruct (same_place _ _ _ Hsame Hx) as (x0 & Hx0 & Ex). destruct (decide (d_id x0 = d_id d)) as [Eid|Hne].
      * assert (x = d1) as ->.
        { apply (NoDup_map_inj d_id (deliveries db1)); [apply Hok1|done|done|]. injection Ex as -> _ _ _ _ _. injection Ep as -> _ _ _ _ _. done. }
        split; [done|]. right. split; [done|]. exists files. rewrite (files_same db db1 d d1), Eh; [done|apply Hsame|apply Hsame|done].
      * assert (x = x0) as ->.
        { apply (NoDup_map_inj d_id (deliveries db1)); [apply Hok1|done|by apply Hkeep|]. by injection Ex as -> _ _ _ _ _. }
        destruct (Hall x0 Hx0) as [Hn Hc]. split.
        -- intros Hs. destruct (nearly_touched fl db vols vols1 x0 Ht Hn Hs) as (fs & Efs & Hfs). exists fs. split; [done|]. intros ns n f H1 H2 H3.
           destruct (Hfs ns n f H1 H2 H3) as [?|(f' & Hdes & ?)]; [by left|right]. exists f'. split; [by eapply desired_same|done].
        -- destruct Hc as [[->|Hx1]%elem_of_cons|[Hst (fs & Hfs)]]; [done|by left|right]. split; [done|]. exists fs.
           rewrite (files_same db db1 x0 x0); [done|apply Hsame|apply Hsame|done].
Qed.

Lemma current_holds fl db vols d : kdb_ok db -> d ∈ deliveries db -> nearly fl db vols d -> current db d ->
  exists files, files_of db d = Ok (files, d_hash d) /\ holds fl vols d files.
Proof.
  intros Hok Hd Hn [Hs (files & Hf)]. exists files. split; [done|]. destruct (Hn Hs) as (fs & Eh & Hfs). rewrite (files_hash _ _ _ _ Hf) in Eh. apply sha_inj in Eh as <-.
  intros ns n f H1 H2 H3. destruct (Hfs ns n f H1 H2 H3) as [->|(f' & (d' & fs' & h' & Hd' & Hf' & Hin') & E & ->)]; [done|].
  f_equal. f_equal. by apply (same_file db d' d fs' files h' (d_hash d)).
Qed.

Lemma converge_current fl now db vols : (forall d, d ∈ deliveries db -> current db d) -> converge Open b64 json sha err_text fl now (db, vols) = (db, vols).
Proof.
  intros Hc. unfold converge. assert (forall d, d ∈ AllKeyringDeliveries db -> current db d) as H.
  { intros d Hd. apply Hc. unfold AllKeyringDeliveries, ListKeyringDeliveries in Hd. rewrite ssort_perm in Hd. by apply elem_of_filter_b in Hd as [? _]. }
  cbn [fst]. induction (AllKeyringDeliveries db) as [|d l IH]; [done|]. cbn [fold_left].
  assert (report fl now (db, vols) d = (db, vols)) as ->; [|apply IH; intros x Hx; apply H; by right].
  destruct (H d) as [Hs (files & Hf)]; [by left|]. unfold reportKeyringDeliverySync, syncKeyringDelivery. rewrite Hf.
  assert (bool_decide (d_hash d = d_hash d) && bool_decide (d_status d = "ok") = true) as E by (by rewrite !bool_decide_eq_true_2). rewrite E. cbn iota beta. by rewrite E.
Qed.

(** When the fleet is reachable and the keys open, one sweep leaves every
    delivery marked with the hash of what its keyring now asks for, and every
    node holding those files; the next sweep writes nothing, on whatever fleet
    it runs: a node that joined in between gets no files until the content
    changes. *)
Theorem keyring_sweep_converges (fl : Fleet) (now : Z) (db : KDB) (vols : Volumes) : kdb_ok db -> recorded fl db vols -> reachable fl db ->
  let '(db', vols') := converge Open b64 json sha err_text fl now (db, vols) in
  rings db' = rings db /\ versions db' = versions db /\ map place (deliveries db') = map place (deliveries db) /\
  (forall d, d ∈ deliveries db' -> d_status d = "ok" /\ exists files, files_of db' d = Ok (files, d_hash d) /\ holds fl vols' d files) /\
  forall fl' now', converge Open b64 json sha err_text fl' now' (db', vols') = (db', vols').
Proof.
  intros Hok Hrec Hre. pose proof (sweep_fold fl now (AllKeyringDeliveries db) db vols Hok Hre) as H.
  assert (AllKeyringDeliveries db ≡ₚ deliveries db) as Hp by (unfold AllKeyringDeliveries, ListKeyringDeliveries; rewrite ssort_perm, filter_id by done; done).
  unfold converge at 1. cbn [fst]. destruct (fold_left (report fl now) (AllKeyringDeliveries db) (db, vols)) as [db' vols'].
  destruct H as [Hsame Hfin].
  - assert (map d_id (AllKeyringDeliveries db) ≡ₚ map d_id (deliveries db)) as -> by (by apply Permutation_map). apply Hok.
  - intros d. by rewrite Hp.
  - intros d Hd. split; [|left; by rewrite Hp]. intros Hs. destruct (Hrec d Hd Hs) as (files & Eh & Hh). exists files. split; [done|]. intros ns n f H1 H2 H3. left. by apply (Hh ns).
  - destruct Hsame as (Er & Ev & Ed). split_and!; try done.
    + intros d Hd. destruct (Hfin d Hd) as [Hn Hc]. split; [apply Hc|]. apply current_holds; [by eapply same_ok|done..].
    + intros fl' now'. apply converge_current. intros d Hd. by apply Hfin.
Qed.
End Sweep.

(** ** The schedule *)

Section Schedule.
Context (Seal : string -> option string) (draw : string -> Draw) (now : Z).

Definition due (k : Keyring) (a : KeyringVersion) : bool := (0 <? k_rotate k) && negb (not_due now k a).
Definition drawn (k : Keyring) : option KeyringVersion :=
  let w := draw (k_id k) in
  match w_material w with
  | None => None
  | Some m => match Seal m with None => None | Some enc => Some (mkVersion (w_id w) (k_id k) enc Active (w_now w)) end
  end.
Definition drew (k : Keyring) : bool := match drawn k with Some _ => true | None => false end.
(** The version the sweep leaves active. *)
Definition after (k : Keyring) (a : KeyringVersion) : KeyringVersion := if due k a then default a (drawn k) else a.
Definition failing (k : Keyring) (a : KeyringVersion) : bool := due k a && negb (drew k).
Definition alarm_key (k : Keyring) : string := k_id k +:+ "/rotatefail".
Definition notice (seen : gmap string string) (k : Keyring) (a : KeyringVersion) : list KEvent :=
  if due k a then if drew k then [KeyringRotated (k_name k)]
                  else if bool_decide (alarm_get seen (alarm_key k) = "failing") then [] else [KeyringRotateFailed (k_name k)]
  else [].
Definition alarm_after (seen : gmap string string) (k : Keyring) (a : KeyringVersion) : string :=
  if 0 <? k_rotate k then if failing k a then "failing" else "" else alarm_get seen (alarm_key k).

Lemma alarm_fire seen key stage key' : alarm_get (fire seen key stage).1 key' = if bool_decide (key' = key) then stage else alarm_get seen key'.
Proof.
  unfold fire. case_bool_decide as E; case_bool_decide as E'; subst; simpl; try done.
  - unfold alarm_get. by rewrite lookup_insert_eq.
  - unfold alarm_get. by rewrite lookup_insert_ne.
Qed.

Lemma rotate_one_spec st k a : kdb_ok (w_db st) -> k ∈ rings (w_db st) -> actives (versions (w_db st)) (k_id k) = [a] ->
  w_id (draw (k_id k)) ∉ map v_id (versions (w_db st)) ->
  let st' := rotate_one Seal draw now st k in
  rings (w_db st') = rings (w_db st) /\ kdb_ok (w_db st') /\
  actives (versions (w_db st')) (k_id k) = [after k a] /\
  (forall r, r <> k_id k -> actives (versions (w_db st')) r = actives (versions (w_db st)) r) /\
  (forall i, i ∈ map v_id (versions (w_db st')) -> i ∈ map v_id (versions (w_db st)) \/ i = w_id (draw (k_id k))) /\
  w_events st' = w_events st ++ notice (w_alarms st) k a /\
  (forall key, alarm_get (w_alarms st') key = if bool_decide (key = alarm_key k) then alarm_after (w_alarms st) k a else alarm_get (w_alarms st) key).
Proof.
  intros Hok Hk Ha Hid. assert (k_id k ∈ map k_id (rings (w_db st))) as Hr by (by apply list_elem_of_fmap_2).
  destruct (one_active (w_db st) (k_id k) Hok Hr) as (a' & Ea & Efa). rewrite Ha in Ea. injection Ea as <-.
  unfold rotate_one, after, notice, alarm_after, failing, drew, due. fold (alarm_key k). destruct (k_rotate k <=? 0) eqn:E0.
  { assert ((0 <? k_rotate k) = false) as -> by (apply Z.ltb_ge, Z.leb_le, E0). simpl. rewrite app_nil_r. split_and!; try done; [intros i Hi; by left|intros key; by case_bool_decide; subst]. }
  assert ((0 <? k_rotate k) = true) as -> by (apply Z.ltb_lt, Z.leb_gt, E0). rewrite find_filter_head, Efa. change (head [a]) with (Some a). cbv iota beta zeta.
  destruct (not_due now k a); cbn [andb negb w_db w_events w_alarms].
  { rewrite app_nil_r. split_and!; try done; [intros i Hi; by left|intros key; apply alarm_fire]. }
  unfold rotateKeyring, drawn. cbn zeta. destruct (w_material (draw (k_id k))) as [m|]; [destruct (Seal m) as [enc|]|]; cbn [default].
  - destruct (RotateKeyring (w_db st) (k_id k) enc (w_id (draw (k_id k))) (w_now (draw (k_id k)))) as [db'|e] eqn:Er.
    + destruct (RotateKeyring_spec _ _ _ _ _ _ Hok Er) as (Err & _ & _ & _ & Hact & Hother & Hel). cbn [w_db w_events w_alarms negb].
      split_and!; try done; [by eapply RotateKeyring_ok| |intros key; apply alarm_fire].
      intros i Hi. apply list_elem_of_fmap in Hi as (v & -> & Hv). apply Hel in Hv as [->|(v0 & Hv0 & ->)]; [by right|left].
      destruct (demote_advanced (active_ids (w_db st) (k_id k)) v0) as (-> & _). by apply list_elem_of_fmap_2.
    + exfalso. unfold RotateKeyring, rotate_commit in Er. rewrite (proj2 (existsb_ids k_id (k_id k) (rings (w_db st))) Hr) in Er. simpl in Er.
      destruct (existsb (fun v => bool_decide (v_id v = _)) _) eqn:E in Er; [|done]. by apply existsb_ids in E.
  - pose proof (alarm_fire (w_alarms st) (alarm_key k) "failing") as Hf. unfold fire in *. case_bool_decide; cbn [w_db w_events w_alarms negb]; split_and!; try done; intros i Hi; by left.
  - pose proof (alarm_fire (w_alarms st) (alarm_key k) "failing") as Hf. unfold fire in *. case_bool_decide; cbn [w_db w_events w_alarms negb]; split_and!; try done; intros i Hi; by left.
Qed.

(** The active version of a ring, by name, before and after. *)
Lemma rotate_fold_spec l : forall st (act : string -> KeyringVersion), kdb_ok (w_db st) -> NoDup (map k_id l) ->
  (forall k, k ∈ l -> k ∈ rings (w_db st)) -> (forall k, k ∈ l -> actives (versions (w_db st)) (k_id k) = [act (k_id k)]) ->
  (forall k, k ∈ l -> w_id (draw (k_id k)) ∉ map v_id (versions (w_db st))) -> NoDup (map (fun k => w_id (draw (k_id k))) l) ->
  let st' := fold_left (rotate_one Seal draw now) l st in
  (forall k, k ∈ l -> actives (versions (w_db st')) (k_id k) = [after k (act (k_id k))] /\
    alarm_get (w_alarms st') (alarm_key k) = alarm_after (w_alarms st) k (act (k_id k))) /\
  (forall r, (r ∉ map k_id l) -> actives (versions (w_db st')) r = actives (versions (w_db st)) r) /\
  (forall key, (key ∉ map alarm_key l) -> alarm_get (w_alarms st') key = alarm_get (w_alarms st) key) /\
  w_events st' = w_events st ++ flat_map (fun k => notice (w_alarms st) k (act (k_id k))) l.
Proof.
  induction l as [|k l IH]; intros st act Hok Hnd Hin Hact Hnew Hdis; cbn [fold_left map flat_map]; cbn [map] in Hnd, Hdis.
  - rewrite app_nil_r. split_and!; try done. by intros k ?%not_elem_of_nil.
  - apply NoDup_cons in Hnd as [Hni Hnd], Hdis as [Hdi Hdis].
    destruct (rotate_one_spec st k (act (k_id k)) Hok) as (Er & Hok1 & Ha1 & Hother & Hids & Hev & Hal); [apply Hin; by left|apply Hact; by left|apply Hnew; by left|].
    assert (forall x, x ∈ l -> k_id x <> k_id k) as Hne by (intros x Hx E; apply Hni; rewrite <- E; by apply list_elem_of_fmap_2).
    assert (forall x, x ∈ l -> alarm_key x <> alarm_key k) as Hak by (intros x Hx E; apply (Hne x Hx); by apply app_suffix_inj in E).
    assert (forall x, x ∈ l -> alarm_get (w_alarms (rotate_one Seal draw now st k)) (alarm_key x) = alarm_get (w_alarms st) (alarm_key x)) as Hsame
      by (intros x Hx; rewrite Hal, bool_decide_eq_false_2 by auto; done).
    destruct (IH (rotate_one Seal draw now st k) act Hok1 Hnd) as (H1 & H2 & H3 & H4); [| | |done|].
    + intros x Hx. rewrite Er. apply Hin. by right.
    + intros x Hx. rewrite Hother by auto. apply Hact. by right.
    + intros x Hx Hi. apply Hids in Hi as [Hi|Hi]; [by apply (Hnew x); [right|]|]. apply Hdi. rewrite <- Hi. by apply (list_elem_of_fmap_2 (fun k => w_id (draw (k_id k)))).
    + split_and!.
      * intros x [->|Hx]%elem_of_cons.
        -- rewrite H2, H3, Ha1, Hal; [by rewrite bool_decide_eq_true_2| |done]. intros Hx. apply list_elem_of_fmap in Hx as (y & E & Hy). by apply (Hak y).
        -- destruct (H1 x Hx) as [-> ->]. split; [done|]. unfold alarm_after. by rewrite Hsame.
      * intros r Hr. apply not_elem_of_cons in Hr as [Hr1 Hr2]. by rewrite H2, Hother.
      * intros key Hkey. apply not_elem_of_cons in Hkey as [Hk1 Hk2]. by rewrite H3, Hal, bool_decide_eq_false_2.
      * rewrite H4, Hev, <- app_assoc. f_equal. f_equal. assert (forall l', (forall x, x ∈ l' -> x ∈ l) ->
          flat_map (fun x => notice (w_alarms (rotate_one Seal draw now st k)) x (act (k_id x))) l' = flat_map (fun x => notice (w_alarms st) x (act (k_id x))) l') as E; [|by apply E].
        induction l' as [|x l' IHl]; intros Hl'; [done|]. cbn [flat_map]. rewrite IHl by (intros y Hy; apply Hl'; by right). f_equal. unfold notice. rewrite Hsame; [done|]. apply Hl'. by left.
Qed.

(** The worker's sweep rotates each keyring that is due exactly once, however
    many periods it missed, and no other; a rotation that fails leaves the
    active version in place and is announced once, on the first of a row of
    failures. *)
Theorem rotation_due (st : WSt) : kdb_ok (w_db st) -> (forall r, w_id (draw r) ∉ map v_id (versions (w_db st))) -> Inj (=) (=) (fun r => w_id (draw r)) ->
  let st' := rotateDueKeyrings Seal draw now st in
  exists act : string -> KeyringVersion,
    (forall k, k ∈ rings (w_db st) -> actives (versions (w_db st)) (k_id k) = [act (k_id k)] /\
      actives (versions (w_db st')) (k_id k) = [after k (act (k_id k))] /\
      alarm_get (w_alarms st') (alarm_key k) = alarm_after (w_alarms st) k (act (k_id k))) /\
    w_events st' = w_events st ++ flat_map (fun k => notice (w_alarms st) k (act (k_id k))) (ListKeyrings (w_db st)).
Proof.
  intros Hok Hnew Hinj. set (act := fun r => default (mkVersion "" "" "" Active 0) (head (actives (versions (w_db st)) r))).
  assert (ListKeyrings (w_db st) ≡ₚ rings (w_db st)) as Hp by apply ssort_perm.
  assert (forall k, k ∈ rings (w_db st) -> actives (versions (w_db st)) (k_id k) = [act (k_id k)]) as Hact.
  { intros k Hk. destruct (one_active (w_db st) (k_id k) Hok) as (a & Ea & _); [by apply list_elem_of_fmap_2|]. unfold act. by rewrite Ea. }
  exists act. assert (NoDup (map k_id (ListKeyrings (w_db st)))) as Hnd.
  { assert (map k_id (ListKeyrings (w_db st)) ≡ₚ map k_id (rings (w_db st))) as -> by (by apply Permutation_map). apply Hok. }
  destruct (rotate_fold_spec (ListKeyrings (w_db st)) st act) as (H1 & _ & _ & H2); [done|done|intros k; by rewrite Hp|intros k; rewrite Hp; auto|auto| |].
  - rewrite <- (map_map k_id (fun r => w_id (draw r))). change (NoDup ((fun r => w_id (draw r)) <$> map k_id (ListKeyrings (w_db st)))). by apply NoDup_fmap_2.
  - split; [|done]. intros k Hk. split; [by apply Hact|]. apply H1. by rewrite Hp.
Qed.
End Schedule.

(** Up to 106,751 days the schedule is what it says: due when the active version
    is that many days old. One day more and the period, in nanoseconds, no
    longer fits 64 bits: up to 213,503 days it is negative, so every hourly
    sweep rotates. *)
Theorem rotation_period (now : Z) (k : Keyring) (a : KeyringVersion) : 0 < k_rotate k ->
  (k_rotate k <= 106751 -> due now k a = true <-> k_rotate k * rotation_day <= now - v_created a) /\
  (106752 <= k_rotate k <= 213503 -> v_created a <= now -> due now k a = true).
Proof.
  intros H0. unfold due, not_due. rewrite (proj2 (Z.ltb_lt 0 (k_rotate k)) H0). simpl. rewrite negb_true_iff, Z.ltb_ge. split.
  - intros H. assert (period k = k_rotate k * rotation_day) as -> by (unfold period, rotation_day; rewrite (wrap64_id (k_rotate k * 24)), wrap64_id by lia; lia).
    unfold sat64, rotation_day. lia.
  - intros H Hle. assert (period k = k_rotate k * rotation_day - 2 ^ 64) as ->.
    { unfold period, rotation_day. rewrite (wrap64_id (k_rotate k * 24)) by lia. unfold wrap64.
      rewrite <- (Z.mod_unique _ _ 1 (k_rotate k * (24 * 3600 * 1000000000) + 2 ^ 63 - 2 ^ 64)); lia. }
    unfold sat64, rotation_day. lia.
Qed.

(** ** A concrete database *)

Module Demo.
Definition hash (f : list (string * string)) (_ _ : Z) : string := pretty (encode f).
Definition sealed (s : string) : option string := Some ("sealed " +:+ s).
Definition opened (s : string) : option string := Some s.
Definition printed (ring current : string) (keys : list (string * (string * VersionState * Z))) : string := current.
Definition db : KDB := mkKDB [mkRing "r1" "tokens" 30 0; mkRing "r2" "cookies" 0 0]
  [mkVersion "v0" "r1" "k0" DecryptOnly 0; mkVersion "v1" "r1" "k1" Active 5; mkVersion "v2" "r2" "k2" Active 7]
  [mkDelivery "d1" "r1" "e1" "keys" 0 0 "" "" None "pending" "" 9; mkDelivery "d2" "r2" "e1" "keys" 0 0 "" (hash [("cookies.json", "v9")] 0 0) (Some 8) "ok" "" 9].
Definition fleet : Fleet := mkFleet (fun _ => Some ["n1"; "n2"]) (fun _ _ => true).
Definition stored : gmap (string * string * string * string) string :=
  <[("e1", "n1", "keys", "cookies.json") := "v9"]> (<[("e1", "n2", "keys", "cookies.json") := "v9"]> ∅).
Definition material (r : string) : Draw := mkDraw (Some "m") ("v" +:+ r) (31 * rotation_day).

Lemma db_ok : kdb_ok db.
Proof.
  constructor; try (by apply (bool_decide_unpack _); vm_compute); simpl; intros x Hx; set_solver.
Qed.
Lemma hash_inj f f' u g : hash f u g = hash f' u g -> f = f'.
Proof. unfold hash. intros H. by apply (inj pretty), (inj encode) in H. Qed.
Lemma stored_recorded : recorded hash fleet db stored.
Proof.
  intros d Hd Hs. simpl in Hd. apply elem_of_cons in Hd as [->|Hd]; [done|]. apply list_elem_of_singleton in Hd as ->.
  exists [("cookies.json", "v9")]. split; [done|]. intros ns n f [= <-] Hn Hf. apply list_elem_of_singleton in Hf as ->. set_unfold in Hn. by destruct Hn as [->|[->|[]]].
Qed.
Lemma fleet_reachable : reachable opened opened printed hash fleet db.
Proof.
  intros d Hd. simpl in Hd. split; [|split; [by eexists|done]]. repeat (apply elem_of_cons in Hd as [->|Hd]; [by vm_compute|]). by apply not_elem_of_nil in Hd.
Qed.
End Demo.

Lemma keyrings_invariant_witness : kdb_ok Demo.db /\ kdb_ok (fold_left (exec_kop Demo.sealed) [KRotate "r1" (Demo.material "r1"); KRetire Demo.db "r1" "v1"; KDelete "r2"] Demo.db).
Proof. split; [exact Demo.db_ok|]. apply (keyrings_invariant Demo.sealed Demo.db [KRotate "r1" (Demo.material "r1"); KRetire Demo.db "r1" "v1"; KDelete "r2"]). exact Demo.db_ok. Defined.

Lemma overlapping_rotations_witness : active_ids (r_db (fold_left rstep [RBegin 1 "r1"; RBegin 2 "r1"; RCommit 1 "a" "i1" 3; RCommit 2 "b" "i2" 4] (mkRW Demo.db []))) "r1" = ["i1"; "i2"].
Proof.
  apply (overlapping_rotations Demo.db "r1" "a" "i1" "b" "i2" "c" "i3" 3 4 5); [exact Demo.db_ok|simpl; set_solver|by apply (bool_decide_unpack _); vm_compute|].
  repeat constructor; by apply (bool_decide_unpack _); vm_compute.
Defined.

Lemma keyring_document_witness : Forall (fun d => exists files h, keyringFiles Demo.opened Demo.opened Demo.printed Demo.hash Demo.db d = Ok (files, h) /\ length files = 2%nat)
  (take 1 (deliveries Demo.db)).
Proof.
  repeat constructor. pose proof (keyring_document Demo.opened Demo.opened Demo.printed Demo.hash Demo.db (mkDelivery "d1" "r1" "e1" "keys" 0 0 "" "" None "pending" "" 9) (mkRing "r1" "tokens" 30 0) Demo.db_ok) as H.
  destruct (keyringFiles _ _ _ _ _ _) as [[files h]|e].
  - destruct H as (a & m & raw & keys & _ & _ & _ & _ & -> & _); [simpl; set_solver|done|intros v Hv; simpl in Hv; set_solver|]. by eexists _, _.
  - destruct H as (v & _ & _ & _ & [[_ H]|(_ & _ & m & _ & H)]); [simpl; set_solver|done|intros v Hv; simpl in Hv; set_solver|done|done].
Defined.

Lemma keyring_sweep_converges_witness : let '(db', vols') := converge Demo.opened Demo.opened Demo.printed Demo.hash (fun _ => "failed") Demo.fleet 10 (Demo.db, Demo.stored) in
  (forall d, d ∈ deliveries db' -> d_status d = "ok") /\
  converge Demo.opened Demo.opened Demo.printed Demo.hash (fun _ => "failed") (mkFleet (fun _ => Some ["n1"; "n2"; "n3"]) (fun _ _ => true)) 11 (db', vols') = (db', vols').
Proof.
  pose proof (keyring_sweep_converges Demo.opened Demo.opened Demo.printed Demo.hash (fun _ => "failed") Demo.hash_inj Demo.fleet 10 Demo.db Demo.stored
    Demo.db_ok Demo.stored_recorded Demo.fleet_reachable) as H. destruct (converge _ _ _ _ _ _ _ _) as [db' vols']. destruct H as (_ & _ & _ & H1 & H2).
  split; [intros d Hd; by apply H1|apply H2].
Defined.

Lemma rotation_due_witness : exists act, w_events (rotateDueKeyrings Demo.sealed (fun r => mkDraw (Some "m") ("new " +:+ r) (31 * rotation_day)) (31 * rotation_day) (mkWSt Demo.db ∅ []))
    = flat_map (fun k => notice Demo.sealed (fun r => mkDraw (Some "m") ("new " +:+ r) (31 * rotation_day)) (31 * rotation_day) ∅ k (act (k_id k))) (ListKeyrings Demo.db).
Proof.
  destruct (rotation_due Demo.sealed (fun r => mkDraw (Some "m") ("new " +:+ r) (31 * rotation_day)) (31 * rotation_day) (mkWSt Demo.db ∅ [])) as (act & _ & H); [exact Demo.db_ok| | |by exists act].
  - intros r. simpl. set_solver.
  - intros r r' H. simpl in H. by injection H.
Defined.

Lemma rotation_period_witness : due (31 * rotation_day) (mkRing "r1" "tokens" 30 0) (mkVersion "v1" "r1" "k1" Active 5) = true /\
  due 6 (mkRing "r3" "forever" 200000 0) (mkVersion "v1" "r3" "k1" Active 5) = true.
Proof.
  split.
  - apply (proj1 (rotation_period (31 * rotation_day) (mkRing "r1" "tokens" 30 0) (mkVersion "v1" "r1" "k1" Active 5) ltac:(done))); [done|].
    cbn [k_rotate v_created]. unfold rotation_day. lia.
  - apply (proj2 (rotation_period 6 (mkRing "r3" "forever" 200000 0) (mkVersion "v1" "r3" "k1" Active 5) ltac:(done))); cbn [k_rotate v_created]; lia.
Defined.
