(* ===== verification/Volumes.v ===== *)
(** * Volumes: what reaches a named volume, and the list of it

    Models [internal/volumes/]: writing, reading and removing files of a named
    volume of one node ([volumes.go]), the manifest every mirroring writer
    leaves behind ([manifest.go]) and the filter of a backup ([filter.go]). A
    volume is the files it holds by cleaned path; which calls to the daemon fail,
    and how far they got, is an input. *)
From S2P Require Import Prelude GoStd Paths.
Local Open Scope string_scope.
Local Open Scope list_scope.
Local Open Scope daffa_scope.

(** ** Files of a volume *)

Record File := mkFile { fl_name : string; fl_data : string; fl_mode : Z }.
Record Blob := mkBlob { b_data : string; b_mode : Z; b_uid : Z; b_gid : Z }.
#[export] Instance Blob_eq_dec : EqDecision Blob.
Proof. solve_decision. Defined.
Abbreviation Volume := (gmap string Blob).
(** The named volumes of one node. *)
Abbreviation Disk := (gmap string Volume).

(** A zero mode means 0644. *)
Definition entry_of_file (uid gid : Z) (f : File) : string * Blob :=
  (fl_name f, mkBlob (fl_data f) (if bool_decide (fl_mode f = 0%Z) then 420%Z else fl_mode f) uid gid).
Definition tarFiles (files : list File) (uid gid : Z) : list (string * Blob) :=
  map (entry_of_file uid gid) (ssort (fun a b => String.ltb (fl_name a) (fl_name b)) files).
(** The daemon extracts the archive entry by entry, under the cleaned name. *)
Definition extract (entries : list (string * Blob)) (v : Volume) : Volume :=
  fold_left (fun v e => <[path.Clean e.1 := e.2]> v) entries v.

(** How a call ends: refused before it touched anything, stopped after some of
    the entries, or done. *)
Inductive WriteEnd := WriteDone | WriteRefused | WriteStopped (n : nat).
Definition volume_of (disk : Disk) (vol : string) : Volume := default ∅ (disk !! vol).
Definition Write (disk : Disk) (vol : string) (files : list File) (uid gid : Z) (e : WriteEnd) : Disk * bool :=
  let put entries := <[vol := extract entries (volume_of disk vol)]> disk in
  match e with
  | WriteRefused => (disk, false)
  | WriteStopped n => (put (take n (tarFiles files uid gid)), false)
  | WriteDone => (put (tarFiles files uid gid), true)
  end.

Inductive ReadErr := ErrNotExist | ErrNoVolume | ErrDaemon | ErrTooBig.
Definition readLimit : Z := 8 * 2 ^ 20.
Definition ReadFile (disk : Disk) (vol name : string) (answers : bool) : res ReadErr string :=
  if negb answers then Err ErrDaemon
  else match disk !! vol with
       | None => Err ErrNoVolume
       | Some v => match v !! path.Clean name with
                   | None => Err ErrNotExist
                   | Some b => if (readLimit <? Z.of_nat (String.length (b_data b)))%Z then Err ErrTooBig else Ok (b_data b)
                   end
       end.

(** The names of a removal must stay inside the volume, all of them, before any
    is removed. *)
Definition removable (n : string) : bool :=
  let clean := path.Clean n in
  negb (bool_decide (clean = "") || bool_decide (clean = ".") || bool_decide (clean = "..") || strings.HasPrefix clean "/" || strings.HasPrefix clean "../").
(** [rm -f --] goes on past what it cannot remove: the names it got. *)
Inductive RemoveEnd := RemoveDone | RemoveStopped (got : string -> bool).
Definition drop_names (names : list string) (v : Volume) : Volume := fold_left (fun v n => delete (path.Clean n) v) names v.
Definition RemoveFiles (disk : Disk) (vol : string) (names : list string) (e : RemoveEnd) : Disk * bool :=
  match names with
  | [] => (disk, true)
  | _ => match disk !! vol with
         | None => (disk, false)
         | Some v => if negb (forallb removable names) then (disk, false)
                     else match e with
                          | RemoveDone => (<[vol := drop_names names v]> disk, true)
                          | RemoveStopped got => (<[vol := drop_names (List.filter got names) v]> disk, false)
                          end
         end
  end.

(** ** The manifest *)

Definition ManifestName : string := ".daffa-manifest".
Definition ManifestCerts : string := ".daffa-certs-manifest".
Definition ManifestFleet : string := ".daffa-fleet-manifest".
Definition newline : ascii := ascii_of_nat 10.
Definition line (s : string) : string := s +:+ String newline "".
Definition ManifestOf (commit hash : string) (names : list string) : string :=
  line "# Written by Daffa. Do not edit: it is rewritten on every sync." +:+ line ("# commit " +:+ commit) +:+ line ("# hash " +:+ hash) +:+
  foldr (fun n s => line n +:+ s) "" names.
Definition manifest_line (l : string) : list string :=
  let l := strings.TrimSpace l in
  if bool_decide (l = "") || strings.HasPrefix l "#" then [] else [l].
Definition ParseManifest (b : string) : list string := flat_map manifest_line (strings.Split b newline).

(** ** The filter of a backup *)

Definition normalizeEntry (name : string) : string := path.Clean (strings.TrimPrefix name "./").
Definition cleanExcludes (exclude : list string) : list string :=
  List.filter (fun p => negb (bool_decide (p = "")) && negb (bool_decide (p = "."))) (map normalizeEntry exclude).
Definition excluded (name : string) (prefixes : list string) : bool :=
  let n := normalizeEntry name in existsb (fun p => bool_decide (n = p) || strings.HasPrefix n (p +:+ "/")) prefixes.
(** The entries of the archive and the error it ends with, if any. *)
Definition FilterTar {B E} (src : list (string * B) * option E) (exclude : list string) : list (string * B) * option E :=
  match cleanExcludes exclude with
  | [] => src
  | ps => (List.filter (fun h => negb (excluded h.1 ps)) src.1, src.2)
  end.

(** ** Backup and restore of a whole volume *)

(** What the daemon's archive of a volume holds: entries rooted at [./], the
    directory itself first. *)
Definition Snapshot (disk : Disk) (vol : string) : res ReadErr (list (string * Blob)) :=
  match disk !! vol with None => Err ErrNoVolume | Some v => Ok (map (fun e => ("./" +:+ e.1, e.2)) (map_to_list v)) end.
Definition cleanEntryName (name : string) : string :=
  let name := path.Clean name in
  if bool_decide (name = ".") || bool_decide (name = "/") || bool_decide (name = "") then "" else name.
(** [dirs]: the names of entries that are no files, the root among them. *)
Definition IsEmpty (disk : Disk) (vol : string) (dirs : list string) : res ReadErr bool :=
  match Snapshot disk vol with
  | Err e => Err e
  | Ok es => Ok (forallb (fun n => bool_decide (cleanEntryName n = "")) (dirs ++ map fst es))
  end.
Definition Wipe (disk : Disk) (vol : string) (e : RemoveEnd) : Disk * bool :=
  match disk !! vol with
  | None => (disk, false)
  | Some v => match e with
              | RemoveDone => (<[vol := ∅]> disk, true)
              | RemoveStopped got => (<[vol := drop_names (List.filter got (map fst (map_to_list v))) v]> disk, false)
              end
  end.
(** The volume is created first; the archive is the caller's. *)
Definition Restore (disk : Disk) (vol : string) (archive : list (string * Blob)) (e : WriteEnd) : Disk * bool :=
  let put entries := <[vol := extract entries (volume_of disk vol)]> disk in
  match e with WriteRefused => (disk, false) | WriteStopped n => (put (take n archive), false) | WriteDone => (put archive, true) end.

(** ** Extraction and removal, entry by entry *)

Lemma extract_other entries v n : (forall e, e ∈ entries -> path.Clean e.1 <> n) -> extract entries v !! n = v !! n.
Proof.
  unfold extract. revert v. induction entries as [|e l IH]; intros v H; [done|]. simpl. rewrite IH by (intros x Hx; apply H; by right).
  apply lookup_insert_ne, H. by left.
Qed.

Lemma extract_in entries v e : e ∈ entries -> (forall x y, x ∈ entries -> y ∈ entries -> path.Clean x.1 = path.Clean y.1 -> x = y) ->
  extract entries v !! path.Clean e.1 = Some e.2.
Proof.
  unfold extract. revert v. induction entries as [|x l IH]; intros v Hin Hf; [by apply not_elem_of_nil in Hin|]. simpl.
  destruct (decide (e ∈ l)) as [Hl|Hl]; [apply IH; [done|]; intros a b Ha Hb; apply Hf; by right|].
  apply elem_of_cons in Hin as [->|?]; [|done]. fold (extract l (<[path.Clean x.1:=x.2]> v)). rewrite extract_other, lookup_insert_eq; [done|].
  intros y Hy Hc. apply Hl. assert (y = x) as <-; [|done]. apply Hf; [by right|by left|done].
Qed.

Lemma drop_names_lookup names v n : drop_names names v !! n = if bool_decide (n ∈ map path.Clean names) then None else v !! n.
Proof.
  unfold drop_names. revert v. induction names as [|x l IH]; intros v; [done|]. simpl. rewrite IH.
  destruct (decide (n = path.Clean x)) as [->|Hne].
  - rewrite lookup_delete_eq, (bool_decide_eq_true_2 (_ ∈ _ :: _)) by (by left). by case_bool_decide.
  - rewrite lookup_delete_ne by done. do 2 case_bool_decide; set_solver.
Qed.

(** ** The manifest reads back *)

Lemma parse_app a b : ParseManifest (a +:+ String newline b) = ParseManifest a ++ ParseManifest b.
Proof. unfold ParseManifest. by rewrite Split_app_any, flat_map_app. Qed.

Lemma parse_line s b : no_char newline s -> ParseManifest (line s +:+ b) = manifest_line s ++ ParseManifest b.
Proof.
  intros H. unfold line. rewrite app_assoc_s. change (String newline "" +:+ b) with (String newline b). rewrite parse_app. f_equal.
  unfold ParseManifest. rewrite Split_one by done. simpl. by rewrite app_nil_r.
Qed.

Lemma srev_app_eq s acc : strings.srev_app s acc = strings.srev_app s "" +:+ acc.
Proof.
  revert acc. induction s as [|c s IH]; intros acc; [done|]. simpl. rewrite IH, (IH (String c "")), app_assoc_s. done.
Qed.
Lemma srev_app_s a b : strings.srev (a +:+ b) = strings.srev b +:+ strings.srev a.
Proof.
  unfold strings.srev. revert b. induction a as [|c a IH]; intros b; simpl; [by rewrite app_nil_s|].
  change (strings.srev_app (a +:+ b) (String c "")) with (strings.srev_app (a +:+ b) (String c "")). rewrite srev_app_eq, IH, (srev_app_eq a (String c "")), app_assoc_s. done.
Qed.

Lemma srev_srev s : strings.srev (strings.srev s) = s.
Proof. induction s as [|c s IH]; [done|]. change (String c s) with (String c "" +:+ s). by rewrite !srev_app_s, IH. Qed.

(** Stripping stops at a character no pattern holds. *)
Lemma strip_n_stops n pats c x : (forall p, p ∈ pats -> p <> "" /\ strings.has_char (fun a => bool_decide (a = c)) p = false) ->
  exists y, strings.strip_n n pats (x +:+ String c "") = y +:+ String c "".
Proof.
  intros Hp. revert x. induction n as [|n IH]; intros x; simpl; [by exists x|]. unfold strings.strip_one.
  destruct (List.find _ pats) as [p|] eqn:E; [|by exists x]. apply List.find_some in E as [Hin E]. apply list_elem_of_In in Hin. destruct (Hp p Hin) as [_ Hc].
  apply HasPrefix_spec in E as [t E]. assert (exists y, t = y +:+ String c "") as [y ->].
  { clear - E Hc. revert x E. induction p as [|d p IH]; intros x E; simpl in E; [by exists x|]. simpl in Hc. apply orb_false_iff in Hc as [Hd Hc].
    destruct x as [|e x]; simpl in E; injection E as -> E; [by rewrite bool_decide_eq_true_2 in Hd|]. by apply (IH Hc x). }
  rewrite E, drop_app. apply IH.
Qed.

Lemma TrimSpace_hash s : exists t, strings.TrimSpace (String "#" s) = String "#" t.
Proof.
  unfold strings.TrimSpace. assert (strings.strip strings.spaces (String "#" s) = String "#" s) as -> by done.
  change (String "#" s) with (String "#" "" +:+ s). rewrite srev_app_s. change (strings.srev (String "#" "")) with (String "#" ""). unfold strings.strip.
  destruct (strip_n_stops (String.length (strings.srev s +:+ String "#" "")) (map strings.srev strings.spaces) "#"%char (strings.srev s)) as [y ->].
  - apply Forall_forall. by repeat constructor.
  - rewrite srev_app_s. by exists (strings.srev y).
Qed.

Lemma manifest_comment s : manifest_line (String "#" s) = [].
Proof. unfold manifest_line. by destruct (TrimSpace_hash s) as [t ->]. Qed.

Definition one_line (s : string) : Prop := no_char newline s.
Lemma one_line_app a b : one_line a -> one_line b -> one_line (a +:+ b).
Proof.
  unfold one_line, no_char. induction a as [|c a IH]; simpl; [done|]. intros [H1 H2]%orb_false_iff Hb. rewrite H1. simpl. by apply IH.
Qed.

(** What the next sync reads back from the names of the last: each name read
    alone. *)
Lemma ParseManifest_names commit hash names : one_line commit -> one_line hash ->
  ParseManifest (ManifestOf commit hash names) = flat_map ParseManifest names.
Proof.
  intros Hc Hh. unfold ManifestOf. rewrite (parse_line "# Written by Daffa. Do not edit: it is rewritten on every sync.") by done.
  rewrite (parse_line ("# commit " +:+ commit)) by (by apply one_line_app). rewrite (parse_line ("# hash " +:+ hash)) by (by apply one_line_app).
  assert (manifest_line ("# commit " +:+ commit) = []) as -> by exact (manifest_comment (" commit " +:+ commit)).
  assert (manifest_line ("# hash " +:+ hash) = []) as -> by exact (manifest_comment (" hash " +:+ hash)).
  assert (manifest_line "# Written by Daffa. Do not edit: it is rewritten on every sync." = []) as -> by done.
  simpl app. induction names as [|n names IH]; [done|]. simpl. unfold line. rewrite app_assoc_s.
  change (String newline "" +:+ foldr (fun n s => (n +:+ String newline "") +:+ s) "" names) with (String newline (foldr (fun n s => line n +:+ s) "" names)).
  rewrite parse_app. by rewrite IH.
Qed.

(** A name that survives the manifest: one line, trimmed, not a comment. *)
Definition recordable (n : string) : Prop := n <> "" /\ one_line n /\ strings.TrimSpace n = n /\ strings.HasPrefix n "#" = false.

Lemma recordable_line n : recordable n -> ParseManifest n = [n].
Proof.
  intros (Hn & H1 & Ht & Hh). unfold ParseManifest. rewrite Split_one by done. simpl. unfold manifest_line. rewrite Ht, Hh, bool_decide_eq_false_2 by done. done.
Qed.

Lemma manifest_reads_back commit hash names : one_line commit -> one_line hash -> Forall recordable names ->
  ParseManifest (ManifestOf commit hash names) = names.
Proof.
  intros Hc Hh Hn. rewrite ParseManifest_names by done. induction Hn as [|n l Hr _ IH]; [done|]. simpl. by rewrite recordable_line, IH.
Qed.

(** The manifest gives back exactly the names that were written, when each is
    one trimmed line that does not start with #; when not, it gives back other
    names, which the next sync takes for files of its own: a name with a line
    break reads as several, a name that ends in a space without it. *)
Theorem manifest_roundtrip : (forall commit hash names, one_line commit -> one_line hash -> Forall recordable names ->
    ParseManifest (ManifestOf commit hash names) = names) /\
  ParseManifest (ManifestOf "" "" ["conf" +:+ String newline "acme.json"; "x "; "#y"]) = ["conf"; "acme.json"; "x"].
Proof. split; [exact manifest_reads_back|by vm_compute]. Qed.

(** ** The filter drops subtrees, nothing else *)

(** [n] is, or lies under, one of the paths excluded. *)
Lemma excluded_under name exclude : excluded name (cleanExcludes exclude) = true <->
  exists e, e ∈ exclude /\ normalizeEntry e <> "." /\ under (normalizeEntry name) (normalizeEntry e) = true.
Proof.
  unfold excluded, cleanExcludes. cbv zeta. rewrite existsb_elem. setoid_rewrite elem_of_filter_b. setoid_rewrite list_elem_of_fmap. split.
  - intros (p & ([e [-> He]] & Hp) & Hu). bd. exists e. unfold under. done.
  - intros (e & He & Hd & Hu). exists (normalizeEntry e). split; [|exact Hu]. split; [by exists e|].
    rewrite !bool_decide_eq_false_2; [done|done|apply Clean_nonempty].
Qed.

(** A backup keeps the archive's entries in order, less those that are, or lie
    under, an excluded path — segment by segment, so [cache] leaves [cache2]
    alone; an exclude of the root, or of nothing, excludes nothing. *)
Theorem FilterTar_spec {B E} (src : list (string * B)) (err : option E) (exclude : list string) :
  FilterTar (src, err) exclude = (List.filter (fun h => negb (excluded h.1 (cleanExcludes exclude))) src, err) /\
  (forall name, excluded name (cleanExcludes exclude) = true <->
     exists e, e ∈ exclude /\ normalizeEntry e <> "." /\ strings.Split (normalizeEntry e) slash `prefix_of` strings.Split (normalizeEntry name) slash).
Proof.
  split.
  - unfold FilterTar. destruct (cleanExcludes exclude) as [|p ps]; [|done]. simpl. f_equal. induction src as [|x l IH]; [done|]. simpl. by rewrite <- IH.
  - intros name. rewrite excluded_under. by setoid_rewrite under_segments.
Qed.

(** ** A volume that is backed up and restored *)

(** The names a volume holds: cleaned, relative, below the root. *)
Definition clean_volume (v : Volume) : Prop := forall n b, v !! n = Some b -> path.Clean n = n /\ path.IsAbs n = false /\ n <> ".".

Lemma Clean_dot n : path.IsAbs n = false -> path.Clean ("./" +:+ n) = path.Clean n.
Proof.
  intros H. rewrite !Clean_form. assert (segs_of ("./" +:+ n) = segs_of n) as ->.
  { unfold segs_of. rewrite H. change ("./" +:+ n) with ("." +:+ String slash n). change (path.IsAbs ("." +:+ String slash n)) with false.
    by rewrite Split_app. }
  rewrite H. done.
Qed.

Lemma entry_clean v n b : clean_volume v -> (n, b) ∈ map_to_list v -> path.Clean ("./" +:+ n) = n /\ normalizeEntry ("./" +:+ n) = n.
Proof.
  intros Hv Hin%elem_of_map_to_list. destruct (Hv n b Hin) as (Hc & Ha & _). split; [by rewrite Clean_dot|]. unfold normalizeEntry. by rewrite TrimPrefix_app.
Qed.

Lemma filter_map_b {A B} (f : A -> B) p l : List.filter p (map f l) = map f (List.filter (fun x => p (f x)) l).
Proof. induction l as [|x l IH]; [done|]. simpl. rewrite IH. by destruct (p (f x)). Qed.

(** Extracting the entries of a volume into an empty one gives them back. *)
Lemma extract_entries v l n : clean_volume v -> (forall e, e ∈ l -> e ∈ map_to_list v) -> NoDup l.*1 ->
  extract (map (fun e => ("./" +:+ e.1, e.2)) l) ∅ !! n = (list_to_map l : Volume) !! n.
Proof.
  intros Hv Hl Hnd. destruct ((list_to_map l : Volume) !! n) as [b|] eqn:E.
  - apply elem_of_list_to_map_2 in E. destruct (entry_clean v n b Hv (Hl _ E)) as [Hc _].
    assert (In ("./" +:+ n, b) (map (fun e => ("./" +:+ e.1, e.2)) l)) as Hin by (apply (in_map (fun e => ("./" +:+ e.1, e.2)) l (n, b)); by apply list_elem_of_In).
    apply list_elem_of_In in Hin. rewrite <- Hc. apply (extract_in _ ∅ ("./" +:+ n, b) Hin).
    intros x y (e1 & -> & H1)%list_elem_of_fmap (e2 & -> & H2)%list_elem_of_fmap Hxy. simpl in Hxy. destruct e1 as [n1 b1], e2 as [n2 b2].
    destruct (entry_clean v n1 b1 Hv (Hl _ H1)) as [E1 _], (entry_clean v n2 b2 Hv (Hl _ H2)) as [E2 _]. simpl in Hxy |- *. rewrite E1, E2 in Hxy. subst n2.
    pose proof (elem_of_list_to_map_1 l n1 b1 Hnd H1) as A1. pose proof (elem_of_list_to_map_1 l n1 b2 Hnd H2) as A2. rewrite A1 in A2. by injection A2 as ->.
  - rewrite extract_other; [done|]. intros x ([m b] & -> & H1)%list_elem_of_fmap Hc. simpl in Hc. destruct (entry_clean v m b Hv (Hl _ H1)) as [E1 _]. rewrite E1 in Hc. subst m.
    apply not_elem_of_list_to_map_2 in E. apply E. apply list_elem_of_fmap. by exists (n, b).
Qed.

(** What the filter leaves of an archive, extracted into an empty volume. *)
Lemma restored_files {X} (v : Volume) (exclude : list string) n : clean_volume v ->
  extract (FilterTar (map (fun e => ("./" +:+ e.1, e.2)) (map_to_list v), None : option X) exclude).1 ∅ !! n = if existsb (under n) (cleanExcludes exclude) then None else v !! n.
Proof.
  intros Hv. set (ps := cleanExcludes exclude).
  assert ((FilterTar (map (fun e => ("./" +:+ e.1, e.2)) (map_to_list v), None : option X) exclude).1 =
    map (fun e => ("./" +:+ e.1, e.2)) (List.filter (fun e => negb (existsb (under e.1) ps)) (map_to_list v))) as ->.
  { unfold FilterTar. fold ps. assert (forall l, (forall e, e ∈ l -> e ∈ map_to_list v) -> List.filter (fun h => negb (excluded h.1 ps)) (map (fun e => ("./" +:+ e.1, e.2)) l) =
      map (fun e => ("./" +:+ e.1, e.2)) (List.filter (fun e => negb (existsb (under e.1) ps)) l)) as H.
    { intros l Hl. rewrite filter_map_b. f_equal. apply List.filter_ext_in. intros [m b] Hin. apply list_elem_of_In in Hin. f_equal.
      unfold excluded. cbn [fst]. by destruct (entry_clean v m b Hv (Hl _ Hin)) as [_ ->]. }
    destruct ps as [|p ps'] eqn:Ep; [|by apply H]. cbn [fst]. f_equal. symmetry. apply forallb_filter_id. by apply forallb_forall. }
  rewrite (extract_entries v); [|done|by intros e [He _]%elem_of_filter_b|apply (NoDup_map_filter fst); apply NoDup_fst_map_to_list].
  destruct (list_to_map _ !! n) as [b|] eqn:E.
  - apply elem_of_list_to_map_2, elem_of_filter_b in E as [Hin Hf]. cbn [fst] in Hf. apply elem_of_map_to_list in Hin. by destruct (existsb _ ps).
  - apply not_elem_of_list_to_map_2 in E. destruct (existsb (under n) ps) eqn:Ex; [done|]. destruct (v !! n) as [b|] eqn:Ev; [|done]. exfalso.
    apply E. apply list_elem_of_fmap. exists (n, b). split; [done|]. apply elem_of_filter_b. split; [by apply elem_of_map_to_list|]. cbn [fst]. by rewrite Ex.
Qed.

(** A volume that is backed up, wiped and restored holds what it held, less the
    files under an excluded path: the archive of the daemon, the filter and the
    restore agree on names. *)
Theorem backup_restores (disk : Disk) (vol : string) (v : Volume) (exclude : list string) : disk !! vol = Some v -> clean_volume v ->
  exists archive, Snapshot disk vol = Ok archive /\
  forall n, volume_of (Restore (Wipe disk vol RemoveDone).1 vol (FilterTar (archive, None : option unit) exclude).1 WriteDone).1 vol !! n =
    if existsb (under n) (cleanExcludes exclude) then None else v !! n.
Proof.
  intros Hd Hv. unfold Snapshot, Wipe. rewrite Hd. eexists. split; [done|]. intros n. cbn [fst]. unfold Restore, volume_of at 1. cbn [fst]. rewrite lookup_insert_eq. cbn [default].
  unfold volume_of. rewrite lookup_insert_eq. by apply restored_files.
Qed.

Definition demo_volume : Volume := {[ "a/x" := mkBlob "1" 420 0 0; "cache/y" := mkBlob "2" 420 0 0; "cache2" := mkBlob "3" 420 0 0 ]}.
Lemma demo_clean : clean_volume demo_volume.
Proof.
  intros n b H. assert (forallb (fun e => bool_decide (path.Clean e.1 = e.1) && negb (path.IsAbs e.1) && negb (bool_decide (e.1 = "."))) (map_to_list demo_volume) = true) as Hall by (by vm_compute).
  apply forallb_elem with (x := (n, b)) in Hall; [|by apply elem_of_map_to_list]. cbn [fst] in Hall. apply andb_prop in Hall as [[Hc Ha]%andb_prop Hd]. bd. by destruct (path.IsAbs n).
Qed.
Lemma backup_restores_witness : exists archive, Snapshot {[ "v" := demo_volume ]} "v" = Ok archive /\
  forall n, volume_of (Restore (Wipe {[ "v" := demo_volume ]} "v" RemoveDone).1 "v" (FilterTar (archive, None : option unit) ["./cache/"]).1 WriteDone).1 "v" !! n =
    if existsb (under n) (cleanExcludes ["./cache/"]) then None else demo_volume !! n.
Proof. apply (backup_restores {[ "v" := demo_volume ]} "v" demo_volume ["./cache/"]); [by vm_compute|exact demo_clean]. Defined.

Lemma manifest_roundtrip_witness : ParseManifest (ManifestOf "c0ffee" "ab12" ["conf/a.yml"; "b.yml"]) = ["conf/a.yml"; "b.yml"].
Proof.
  apply (proj1 manifest_roundtrip "c0ffee" "ab12" ["conf/a.yml"; "b.yml"]); [by vm_compute|by vm_compute|].
  apply Forall_cons_2; [by repeat split|]. apply Forall_cons_2; [by repeat split|by constructor].
Defined.
