(* ===== verification/Mirror.v ===== *)
(** * The mirror: one writer's share of a volume

    The loop that [syncVolumeSource], [syncCertDelivery] and [syncFleetDelivery]
    ([internal/api/volsource_sync.go], [cert_delivery.go], [fleet_delivery.go])
    repeat word for word over the nodes of an environment: read the previous
    manifest, write the content, remove what is no longer wanted, write the
    manifest last. The writer is the name of its manifest. *)
From S2P Require Import Prelude GoStd Paths Volumes.
Local Open Scope string_scope.
Local Open Scope list_scope.
Local Open Scope daffa_scope.

(** How the four calls of one node end. *)
Record NodeEnds := mkEnds { e_answers : bool; e_content : WriteEnd; e_remove : RemoveEnd; e_commit : WriteEnd }.
Definition smooth : NodeEnds := mkEnds true WriteDone RemoveDone WriteDone.

(** What the previous manifest lists and is not wanted any more; [None]: the
    node could not answer. *)
Definition stale_of (disk : Disk) (vol mname : string) (answers : bool) (current : list string) : option (list string) :=
  match ReadFile disk vol mname answers with
  | Ok prev => Some (List.filter (fun n => negb (bool_decide (n ∈ current))) (ParseManifest prev))
  | Err ErrNotExist | Err ErrNoVolume => Some []
  | Err _ => None
  end.

(** What a sync wants on each node: the files, and the text of the manifest that
    lists them. *)
Record Want := mkWant { w_files : list File; w_manifest : string; w_uid : Z; w_gid : Z }.
Definition w_names (w : Want) : list string := map fl_name (w_files w).
Definition manifest_file (mname : string) (w : Want) : File := mkFile mname (w_manifest w) 0.

(** One node; [false]: it is among the errors. *)
Definition mirror_node (mname vol : string) (w : Want) (e : NodeEnds) (disk : Disk) : Disk * bool :=
  match stale_of disk vol mname (e_answers e) (w_names w) with
  | None => (disk, false)
  | Some stale =>
      let '(disk, ok) := Write disk vol (w_files w) (w_uid w) (w_gid w) (e_content e) in
      if negb ok then (disk, false)
      else let '(disk, ok) := RemoveFiles disk vol stale (e_remove e) in
           if negb ok then (disk, false)
           else Write disk vol [manifest_file mname w] (w_uid w) (w_gid w) (e_commit e)
  end.

(** The nodes of an environment, each with its disk; the nodes that failed. *)
Abbreviation Disks := (gmap (string * string) Disk).
Definition disk_of (disks : Disks) (env node : string) : Disk := default ∅ (disks !! (env, node)).
Definition mirror_nodes (mname env vol : string) (w : Want) (ends : string -> NodeEnds) (nodes : list string) (disks : Disks) : Disks * list string :=
  fold_left (fun acc n => let '(disks, errs) := acc in
    let '(disk, ok) := mirror_node mname vol w (ends n) (disk_of disks env n) in
    (<[(env, n) := disk]> disks, if ok then errs else errs ++ [n])) nodes (disks, []).

(** ** What a writer may want *)

(** The names are clean, stay inside the volume, can be recorded, differ, and
    none is the manifest's own; the manifest lists them. The handlers and the
    walk of a commit see to clean names; a document of [daffa apply] does not: its
    inline files are stored under the names as written. *)
Record want_ok (mname : string) (w : Want) : Prop := {
  wo_clean : Forall (fun n => path.Clean n = n /\ removable n = true /\ n <> mname) (w_names w);
  wo_distinct : NoDup (w_names w);
  wo_lists : forall n, n ∈ ParseManifest (w_manifest w) <-> n ∈ w_names w;
  wo_small : (Z.of_nat (String.length (w_manifest w)) <= readLimit)%Z }.

Definition blob (w : Want) (f : File) : Blob := (entry_of_file (w_uid w) (w_gid w) f).2.
Definition manifest_blob (mname : string) (w : Want) : Blob := blob w (manifest_file mname w).

Lemma tar_elem files uid gid e : e ∈ tarFiles files uid gid <-> exists f, f ∈ files /\ e = entry_of_file uid gid f.
Proof.
  unfold tarFiles. rewrite list_elem_of_fmap. setoid_rewrite ssort_perm. naive_solver.
Qed.

Lemma clean_name mname w n : want_ok mname w -> n ∈ w_names w -> path.Clean n = n.
Proof. intros [H _ _ _] Hn. rewrite Forall_forall in H. by apply H. Qed.

Lemma names_elem w n : n ∈ w_names w <-> exists f, f ∈ w_files w /\ fl_name f = n.
Proof. unfold w_names. rewrite list_elem_of_fmap. naive_solver. Qed.

Lemma tar_injective mname w x y : want_ok mname w -> x ∈ tarFiles (w_files w) (w_uid w) (w_gid w) -> y ∈ tarFiles (w_files w) (w_uid w) (w_gid w) ->
  path.Clean x.1 = path.Clean y.1 -> x = y.
Proof.
  intros Hw (f & Hf & ->)%tar_elem (g & Hg & ->)%tar_elem E. simpl in E.
  rewrite (clean_name mname w (fl_name f)), (clean_name mname w (fl_name g)) in E by (done || (apply names_elem; eauto)). f_equal.
  apply (NoDup_map_inj fl_name (w_files w)); [apply Hw|done..].
Qed.

(** The content, by name. *)
Definition wanted_blob (w : Want) (n : string) : option Blob := blob w <$> List.find (fun f => bool_decide (fl_name f = n)) (w_files w).
Lemma wanted_none w n : (n ∉ w_names w) -> wanted_blob w n = None.
Proof.
  intros H. unfold wanted_blob. destruct (List.find _ _) as [f|] eqn:E; [|done]. apply List.find_some in E as [Hf E]. bd.
  destruct H. apply names_elem. exists f. split; [by apply list_elem_of_In|done].
Qed.
Lemma wanted_some mname w f : want_ok mname w -> f ∈ w_files w -> wanted_blob w (fl_name f) = Some (blob w f).
Proof.
  intros Hw Hf. unfold wanted_blob. destruct (List.find _ _) as [g|] eqn:E.
  - apply List.find_some in E as [Hg E]. bd. simpl. do 2 f_equal. apply (NoDup_map_inj fl_name (w_files w)); [apply Hw|by apply list_elem_of_In|done|done].
  - pose proof (List.find_none _ _ E f (proj1 (list_elem_of_In _ _) Hf)) as Hn. simpl in Hn. by bd.
Qed.

Lemma content_lookup mname w v n : want_ok mname w ->
  extract (tarFiles (w_files w) (w_uid w) (w_gid w)) v !! n = if bool_decide (n ∈ w_names w) then wanted_blob w n else v !! n.
Proof.
  intros Hw. case_bool_decide as Hn.
  - apply names_elem in Hn as Hf. destruct Hf as (f & Hf & <-). rewrite (wanted_some mname) by done.
    rewrite <- (clean_name mname w (fl_name f)) at 1 by done. apply (extract_in _ _ (entry_of_file (w_uid w) (w_gid w) f)); [apply tar_elem; eauto|].
    intros x y Hx Hy. by apply (tar_injective mname w).
  - apply extract_other. intros e (f & Hf & ->)%tar_elem E. simpl in E. rewrite (clean_name mname w) in E by (done || (apply names_elem; eauto)).
    apply Hn. apply names_elem. eauto.
Qed.

(** ** One node *)

Section Writer.
Context (mname vol : string) (mname_clean : path.Clean mname = mname).

(** What the writer's manifest lists in the volume. *)
Definition listed (disk : Disk) (l : list string) : Prop := stale_of disk vol mname true [] = Some l.
Definition own_names (l : list string) : Prop := Forall (fun n => path.Clean n = n /\ removable n = true /\ n <> mname) l.

Lemma stale_filter disk l current : listed disk l -> stale_of disk vol mname true current = Some (List.filter (fun n => negb (bool_decide (n ∈ current))) l).
Proof.
  unfold listed, stale_of. destruct (ReadFile disk vol mname true) as [prev|[]]; intros H; try done; injection H as <-; [|done..].
  f_equal. induction (ParseManifest prev) as [|x r IH]; [done|]. simpl. by rewrite IH.
Qed.

Lemma listed_want disk w : want_ok mname w -> volume_of disk vol !! mname = Some (manifest_blob mname w) -> listed disk (ParseManifest (w_manifest w)).
Proof.
  intros Hw H. unfold listed, stale_of, ReadFile. simpl. unfold volume_of in H. destruct (disk !! vol) as [v|]; simpl in H; [|by rewrite lookup_empty in H].
  rewrite mname_clean, H. simpl. pose proof (wo_small _ _ Hw). destruct (readLimit <? _)%Z eqn:E; [bd; lia|]. f_equal.
  induction (ParseManifest (w_manifest w)) as [|x r IH]; [done|]. simpl. by rewrite IH.
Qed.

Lemma map_clean l : own_names l -> map path.Clean l = l.
Proof. induction 1 as [|n l [E _] _ IH]; [done|]. simpl. by rewrite E, IH. Qed.

Lemma own_filter f l : own_names l -> own_names (List.filter f l).
Proof. intros H. apply Forall_forall. intros n Hn. apply elem_of_filter_b in Hn as [Hn _]. unfold own_names in H. rewrite Forall_forall in H. by apply H. Qed.

Lemma own_removable l : own_names l -> forallb removable l = true.
Proof. intros H. apply forallb_elem. intros n Hn. unfold own_names in H. rewrite Forall_forall in H. by apply H. Qed.

Lemma volume_insert disk v : volume_of (<[vol := v]> disk) vol = v.
Proof. unfold volume_of. by rewrite lookup_insert_eq. Qed.

(** What each stage leaves, entry by entry. *)
Lemma remove_done disk v l e : own_names l -> disk !! vol = Some v ->
  let '(disk', ok) := RemoveFiles disk vol l e in
  (e = RemoveDone -> ok = true) /\ is_Some (disk' !! vol) /\ (forall other, other <> vol -> disk' !! other = disk !! other) /\
  forall n, volume_of disk' vol !! n = volume_of disk vol !! n \/ (n ∈ l /\ volume_of disk' vol !! n = None).
Proof.
  intros Hl Hv. unfold RemoveFiles. destruct l as [|x l]; [split_and!; eauto|]. rewrite Hv, (own_removable _ Hl). simpl negb. cbn iota.
  assert (forall names, (forall n, n ∈ names -> n ∈ x :: l) -> forall n, volume_of (<[vol := drop_names names v]> disk) vol !! n = volume_of disk vol !! n \/
    (n ∈ x :: l /\ volume_of (<[vol := drop_names names v]> disk) vol !! n = None)) as H.
  { intros names Hn n. rewrite volume_insert, drop_names_lookup. unfold volume_of. rewrite Hv. simpl. case_bool_decide as E; [|by left]. right. split; [|done].
    apply list_elem_of_fmap in E as (m & -> & Hm). specialize (Hn m Hm). unfold own_names in Hl. rewrite Forall_forall in Hl. destruct (Hl m Hn) as [-> _]. done. }
  destruct e as [|got]; (split_and!; [done|by rewrite lookup_insert_eq; eauto|intros o Ho; by rewrite lookup_insert_ne|]); apply H; [done|].
  intros n Hn. by apply elem_of_filter_b in Hn as [Hn _].
Qed.

Lemma remove_all disk v l : own_names l -> disk !! vol = Some v ->
  let '(disk', ok) := RemoveFiles disk vol l RemoveDone in ok = true /\ forall n, volume_of disk' vol !! n = if bool_decide (n ∈ l) then None else volume_of disk vol !! n.
Proof.
  intros Hl Hv. unfold RemoveFiles. destruct l as [|x l]; [done|]. rewrite Hv, (own_removable _ Hl). simpl negb. cbn iota. split; [done|].
  intros n. rewrite volume_insert, drop_names_lookup, (map_clean _ Hl). unfold volume_of. by rewrite Hv.
Qed.

Lemma manifest_extract w v n : extract (tarFiles [manifest_file mname w] (w_uid w) (w_gid w)) v !! n = if bool_decide (n = mname) then Some (manifest_blob mname w) else v !! n.
Proof.
  unfold extract. simpl. rewrite mname_clean. case_bool_decide as E; [subst; by rewrite lookup_insert_eq|by rewrite lookup_insert_ne].
Qed.

(** A run of the loop without failures. *)
Lemma mirror_smooth disk l w : listed disk l -> own_names l -> want_ok mname w ->
  exists disk', mirror_node mname vol w smooth disk = (disk', true) /\ is_Some (disk' !! vol) /\ (forall other, other <> vol -> disk' !! other = disk !! other) /\
  forall n, volume_of disk' vol !! n = if bool_decide (n = mname) then Some (manifest_blob mname w)
    else if bool_decide (n ∈ w_names w) then wanted_blob w n else if bool_decide (n ∈ l) then None else volume_of disk vol !! n.
Proof.
  intros Hl Hown Hw. unfold mirror_node. cbn [e_answers e_content e_remove e_commit smooth]. rewrite (stale_filter disk l (w_names w) Hl). cbn [Write negb].
  set (d1 := <[vol := _]> disk). set (stale := List.filter _ l). assert (own_names stale) as Hst by (by apply own_filter).
  assert (d1 !! vol = Some (extract (tarFiles (w_files w) (w_uid w) (w_gid w)) (volume_of disk vol))) as Hd1 by (apply lookup_insert_eq).
  pose proof (remove_all d1 _ stale Hst Hd1) as Hr. pose proof (remove_done d1 _ stale RemoveDone Hst Hd1) as Hr'.
  destruct (RemoveFiles d1 vol stale RemoveDone) as [d2 ok]. destruct Hr as [-> Hr], Hr' as (_ & _ & Ho & _). cbn [negb Write]. eexists. split; [done|]. split_and!.
  - rewrite lookup_insert_eq. eauto.
  - intros o Hne. rewrite lookup_insert_ne by done. rewrite Ho by done. by apply lookup_insert_ne.
  - intros n. rewrite volume_insert, manifest_extract. case_bool_decide as E1; [done|]. rewrite Hr. unfold volume_of at 1. rewrite Hd1. simpl default.
    rewrite (content_lookup mname) by done. unfold stale. case_bool_decide as E2; case_bool_decide as E3.
    + apply elem_of_filter_b in E2 as [_ E2]. by bd.
    + apply elem_of_filter_b in E2 as [E2 _]. by rewrite bool_decide_eq_true_2.
    + done.
    + rewrite bool_decide_eq_false_2; [done|]. intros H. apply E2. apply elem_of_filter_b. split; [done|]. by apply negb_true_iff, bool_decide_eq_false_2.
Qed.

(** A run however it ends: what it may have touched, and that the new manifest
    is there only once the removal was done. *)
Lemma write_any disk files uid gid e : let '(disk', ok) := Write disk vol files uid gid e in
  (ok = true -> e = WriteDone) /\ (forall other, other <> vol -> disk' !! other = disk !! other) /\ (ok = true -> is_Some (disk' !! vol)) /\
  forall n, (n ∉ map (fun f => path.Clean (fl_name f)) files) -> volume_of disk' vol !! n = volume_of disk vol !! n.
Proof.
  assert (forall k, forall n, (n ∉ map (fun f => path.Clean (fl_name f)) files) ->
    volume_of (<[vol := extract (take k (tarFiles files uid gid)) (volume_of disk vol)]> disk) vol !! n = volume_of disk vol !! n) as H.
  { intros k n Hn. rewrite volume_insert. apply extract_other. intros x Hx E. apply Hn.
    assert (x ∈ tarFiles files uid gid) as (f & Hf & ->)%tar_elem by (rewrite <- (take_drop k (tarFiles files uid gid)); apply elem_of_app; by left).
    apply list_elem_of_fmap. exists f. by split. }
  destruct e as [| |k]; simpl; split_and!; try done.
  - intros o Ho. by apply lookup_insert_ne.
  - intros _. rewrite lookup_insert_eq. eauto.
  - intros n Hn. rewrite <- (H (length (tarFiles files uid gid)) n Hn). by rewrite firstn_all.
  - intros o Ho. by apply lookup_insert_ne.
  - apply H.
Qed.

Lemma remove_done_ok disk l e : (RemoveFiles disk vol l e).2 = true -> l = [] \/ e = RemoveDone.
Proof. unfold RemoveFiles. destruct l; [by left|]. destruct (disk !! vol); [|done]. destruct (negb _); [done|]. destruct e; [by right|done]. Qed.

Lemma mirror_any disk l w e : listed disk l -> own_names l -> want_ok mname w ->
  let '(disk', ok) := mirror_node mname vol w e disk in
  (forall other, other <> vol -> disk' !! other = disk !! other) /\
  (forall n, n <> mname -> (n ∉ w_names w) -> volume_of disk' vol !! n = volume_of disk vol !! n \/ (n ∈ l /\ volume_of disk' vol !! n = None)) /\
  (volume_of disk' vol !! mname = volume_of disk vol !! mname \/
   (volume_of disk' vol !! mname = Some (manifest_blob mname w) /\ forall n, n ∈ l -> (n ∉ w_names w) -> volume_of disk' vol !! n = None)).
Proof.
  intros Hl Hown Hw. unfold mirror_node. destruct (e_answers e).
  2: { unfold stale_of, ReadFile. simpl. split_and!; auto. }
  rewrite (stale_filter disk l (w_names w) Hl). set (stale := List.filter _ l). assert (own_names stale) as Hst by (by apply own_filter).
  assert (forall n, (n ∉ w_names w) -> n ∉ map (fun f => path.Clean (fl_name f)) (w_files w)) as Hname.
  { intros n Hn Hin. apply list_elem_of_fmap in Hin as (f & -> & Hf). rewrite (clean_name mname w (fl_name f)) in Hn by (done || (apply names_elem; eauto)). apply Hn, names_elem. eauto. }
  assert (mname ∉ w_names w) as Hm by (intros Hin; pose proof (wo_clean _ _ Hw) as Hc; rewrite Forall_forall in Hc; by destruct (Hc _ Hin) as (_ & _ & ?)).
  assert (mname ∉ stale) as Hms by (intros Hin; unfold own_names in Hst; rewrite Forall_forall in Hst; by destruct (Hst _ Hin) as (_ & _ & ?)).
  pose proof (write_any disk (w_files w) (w_uid w) (w_gid w) (e_content e)) as H1. destruct (Write disk vol (w_files w) (w_uid w) (w_gid w) (e_content e)) as [d1 ok1].
  destruct H1 as (Hok1 & Ho1 & Hs1 & Hv1). destruct ok1; cbn [negb].
  2: { split_and!; [done|intros n _ Hn; left; by apply Hv1, Hname|left; by apply Hv1, Hname]. }
  destruct (Hs1 eq_refl) as [v1 Hd1]. pose proof (remove_done d1 v1 stale (e_remove e) Hst Hd1) as H2. pose proof (remove_all d1 v1 stale Hst Hd1) as Ha.
  pose proof (remove_done_ok d1 stale (e_remove e)) as Hdone.
  destruct (RemoveFiles d1 vol stale (e_remove e)) as [d2 ok2] eqn:E2. destruct H2 as (_ & _ & Ho2 & Hv2).
  assert (forall n, n <> mname -> (n ∉ w_names w) -> volume_of d2 vol !! n = volume_of disk vol !! n \/ n ∈ l /\ volume_of d2 vol !! n = None) as Hn2.
  { intros n Hne Hn. destruct (Hv2 n) as [->|[Hin ->]]; [left; by apply Hv1, Hname|right]. by apply elem_of_filter_b in Hin as [Hin _]. }
  assert (volume_of d2 vol !! mname = volume_of disk vol !! mname) as Hm2 by (destruct (Hv2 mname) as [->|[? _]]; [by apply Hv1, Hname|done]).
  destruct ok2; cbn [negb].
  2: { split_and!; [intros o Ho; by rewrite Ho2, Ho1|done|by left]. }
  pose proof (write_any d2 [manifest_file mname w] (w_uid w) (w_gid w) (e_commit e)) as H3.
  assert (forall n, n ∈ l -> (n ∉ w_names w) -> volume_of d2 vol !! n = None) as Hgone.
  { intros n Hin Hn. assert (n ∈ stale) as Hns by (apply elem_of_filter_b; split; [done|]; by apply negb_true_iff, bool_decide_eq_false_2).
    destruct (Hdone eq_refl) as [E|E]; [rewrite E in Hns; by apply not_elem_of_nil in Hns|]. rewrite E in E2. rewrite E2 in Ha. destruct Ha as [_ Ha]. rewrite Ha. by rewrite bool_decide_eq_true_2. }
  destruct (Write d2 vol [manifest_file mname w] (w_uid w) (w_gid w) (e_commit e)) as [d3 ok3] eqn:E3. destruct H3 as (_ & Ho3 & _ & Hv3). simpl in Hv3. rewrite mname_clean in Hv3.
  assert (forall n, n <> mname -> volume_of d3 vol !! n = volume_of d2 vol !! n) as Hn3 by (intros n Hn; apply Hv3; set_solver).
  split_and!; [intros o Ho; by rewrite Ho3, Ho2, Ho1|intros n Hne Hn; rewrite Hn3 by done; by apply Hn2|].
  destruct (e_commit e) as [| |[|k]]; cbn [Write] in E3; apply (f_equal fst) in E3; cbn [fst] in E3; subst d3.
  - right. split; [rewrite volume_insert, manifest_extract; by rewrite bool_decide_eq_true_2|]. intros n Hin Hn. rewrite Hn3; [by apply Hgone|].
    intros ->. unfold own_names in Hown. rewrite Forall_forall in Hown. by destruct (Hown _ Hin) as (_ & _ & ?).
  - left. exact Hm2.
  - left. rewrite volume_insert. exact Hm2.
  - right. assert (take (S k) (tarFiles [manifest_file mname w] (w_uid w) (w_gid w)) = tarFiles [manifest_file mname w] (w_uid w) (w_gid w)) as Et by (unfold tarFiles; simpl; by rewrite take_nil). rewrite Et in *. split.
    + rewrite volume_insert. pose proof (manifest_extract w (volume_of d2 vol) mname) as E. rewrite bool_decide_eq_true_2 in E by done. exact E.
    + intros n Hin Hn. rewrite Hn3; [by apply Hgone|]. intros ->. unfold own_names in Hown. rewrite Forall_forall in Hown. by destruct (Hown _ Hin) as (_ & _ & ?).
Qed.

(** Whatever is wanted and however it ends, a run leaves alone what is neither
    written nor named by the manifest it finds. *)
Lemma remove_frame disk l e n : (forall m, m ∈ l -> path.Clean m <> n) -> volume_of (RemoveFiles disk vol l e).1 vol !! n = volume_of disk vol !! n.
Proof.
  intros Hl. unfold RemoveFiles. destruct l as [|x l]; [done|]. destruct (disk !! vol) as [v|] eqn:Hv; [|done]. destruct (negb _); [done|].
  assert (forall names, (forall m, m ∈ names -> m ∈ x :: l) -> volume_of (<[vol := drop_names names v]> disk) vol !! n = volume_of disk vol !! n) as H.
  { intros names Hn. rewrite volume_insert, drop_names_lookup. unfold volume_of. rewrite Hv. simpl. rewrite bool_decide_eq_false_2; [done|].
    intros (m & -> & Hm)%list_elem_of_fmap. by apply (Hl m); [apply Hn|]. }
  destruct e; cbn [fst]; apply H; [done|]. by intros m [Hm _]%elem_of_filter_b.
Qed.
Lemma mirror_frame disk w e n : n <> mname -> (forall f, f ∈ w_files w -> path.Clean (fl_name f) <> n) ->
  (forall prev m, ReadFile disk vol mname true = Ok prev -> m ∈ ParseManifest prev -> path.Clean m <> n) ->
  volume_of (mirror_node mname vol w e disk).1 vol !! n = volume_of disk vol !! n.
Proof.
  intros Hne Hw Hl. unfold mirror_node. destruct (stale_of _ _ _ _ _) as [stale|] eqn:Es; [|done].
  assert (forall m, m ∈ stale -> path.Clean m <> n) as Hst.
  { intros m Hm. unfold stale_of in Es. destruct (e_answers e); [|by unfold ReadFile in Es]. destruct (ReadFile disk vol mname true) as [prev|[]] eqn:Er; try done; injection Es as <-; [|by apply not_elem_of_nil in Hm..].
    apply elem_of_filter_b in Hm as [Hm _]. by apply (Hl prev). }
  pose proof (write_any disk (w_files w) (w_uid w) (w_gid w) (e_content e)) as H1. destruct (Write disk vol (w_files w) (w_uid w) (w_gid w) (e_content e)) as [d1 ok1]. destruct H1 as (_ & _ & _ & H1).
  rewrite <- (H1 n) by (intros (f & -> & Hf)%list_elem_of_fmap; by apply (Hw f)). destruct ok1; [|done]. cbn [negb].
  pose proof (remove_frame d1 stale (e_remove e) n Hst) as H2. destruct (RemoveFiles d1 vol stale (e_remove e)) as [d2 ok2]. simpl in H2. rewrite <- H2. destruct ok2; [|done]. cbn [negb].
  pose proof (write_any d2 [manifest_file mname w] (w_uid w) (w_gid w) (e_commit e)) as H3. destruct (Write d2 vol _ _ _ _) as [d3 ok3]. destruct H3 as (_ & _ & _ & H3). simpl in *. apply H3.
  rewrite mname_clean. set_solver.
Qed.
End Writer.
