(* ===== verification/MirrorCases.v ===== *)
(** * The mirror over time: histories, retries, two writers, lost files

    What a sequence of runs of the loop of [Mirror] leaves in a volume. *)
From S2P Require Import Prelude GoStd Paths Volumes Mirror.
Local Open Scope string_scope.
Local Open Scope list_scope.
Local Open Scope daffa_scope.

(** ** One writer *)

Section History.
Context (mname vol : string) (mname_clean : path.Clean mname = mname).
Abbreviation run w e := (fun disk => (mirror_node mname vol w e disk).1).
Definition sync_all (ws : list Want) (disk : Disk) : Disk := fold_left (fun d w => run w smooth d) ws disk.
Definition attempts (w : Want) (es : list NodeEnds) (disk : Disk) : Disk := fold_left (fun d e => run w e d) es disk.
Definition lists (w : Want) : list string := ParseManifest (w_manifest w).

Lemma lists_own w : want_ok mname w -> own_names mname (lists w).
Proof. intros Hw. apply Forall_forall. intros n Hn. apply (wo_lists _ _ Hw) in Hn. pose proof (wo_clean _ _ Hw) as H. rewrite Forall_forall in H. by apply H. Qed.

Lemma smooth_run disk l w : listed mname vol disk l -> own_names mname l -> want_ok mname w ->
  listed mname vol (run w smooth disk) (lists w) /\ (forall other, other <> vol -> run w smooth disk !! other = disk !! other) /\
  forall n, volume_of (run w smooth disk) vol !! n = if bool_decide (n = mname) then Some (manifest_blob mname w)
    else if bool_decide (n ∈ w_names w) then wanted_blob w n else if bool_decide (n ∈ l) then None else volume_of disk vol !! n.
Proof.
  intros Hl Hown Hw. destruct (mirror_smooth mname vol mname_clean disk l w Hl Hown Hw) as (d & E & _ & Ho & Hv). rewrite E. cbn [fst].
  split_and!; [|done|done]. apply listed_want; [done|done|]. rewrite Hv. by rewrite bool_decide_eq_true_2.
Qed.

(** After any number of syncs the volume holds what the last one wanted and its
    manifest, none of the files of the syncs before it, and every other file as
    it was. *)
Theorem mirror_history (disk : Disk) (l : list string) (ws : list Want) (w : Want) : listed mname vol disk l -> own_names mname l -> Forall (want_ok mname) (ws ++ [w]) ->
  forall n, volume_of (sync_all (ws ++ [w]) disk) vol !! n = if bool_decide (n = mname) then Some (manifest_blob mname w)
    else if bool_decide (n ∈ w_names w) then wanted_blob w n
    else if bool_decide (n ∈ l ++ flat_map w_names ws) then None else volume_of disk vol !! n.
Proof.
  revert disk l. induction ws as [|w0 ws IH]; intros disk l Hl Hown Hws n; simpl in Hws |- *.
  - apply Forall_inv in Hws. destruct (smooth_run disk l w Hl Hown Hws) as (_ & _ & Hv). rewrite Hv. by rewrite app_nil_r.
  - apply Forall_cons in Hws as [Hw0 Hws]. destruct (smooth_run disk l w0 Hl Hown Hw0) as (Hl1 & _ & Hv). specialize (IH _ _ Hl1 (lists_own _ Hw0) Hws n). unfold sync_all in *. simpl.
    rewrite IH. case_bool_decide as E1; [done|]. case_bool_decide as E2; [done|]. rewrite Hv, (bool_decide_eq_false_2 (n = mname)) by done.
    assert (Hlw : n ∈ lists w0 <-> n ∈ w_names w0) by apply (wo_lists _ _ Hw0).
    destruct (decide (n ∈ w_names w0)) as [H0|H0]; [rewrite (bool_decide_eq_true_2 (n ∈ lists w0 ++ _)) by set_solver; by rewrite bool_decide_eq_true_2 by set_solver|].
    rewrite (bool_decide_eq_false_2 (n ∈ w_names w0)) by done.
    destruct (decide (n ∈ l)) as [H2|H2]; [rewrite (bool_decide_eq_true_2 (n ∈ l)), (bool_decide_eq_true_2 (n ∈ l ++ _)) by set_solver; by case_bool_decide|].
    rewrite (bool_decide_eq_false_2 (n ∈ l)) by done. do 2 case_bool_decide; set_solver.
Qed.

Lemma listed_same disk disk' l : listed mname vol disk l -> volume_of disk' vol !! mname = volume_of disk vol !! mname -> listed mname vol disk' l.
Proof.
  unfold listed, stale_of, ReadFile, volume_of. simpl. rewrite mname_clean. intros H E.
  destruct (disk !! vol) as [v|], (disk' !! vol) as [v'|]; simpl in *; rewrite ?lookup_empty in E; try done.
  - by rewrite E.
  - rewrite <- E in H. done.
  - by rewrite E.
Qed.

Lemma attempts_settle (disk : Disk) (l : list string) (w : Want) (es : list NodeEnds) : listed mname vol disk l -> own_names mname l -> want_ok mname w ->
  volume_of (run w smooth (attempts w es disk)) vol = volume_of (run w smooth disk) vol.
Proof.
  intros Hl Hown Hw.
  assert (forall d, (forall n, n <> mname -> (n ∉ w_names w) -> volume_of d vol !! n = volume_of disk vol !! n \/ (n ∈ l /\ volume_of d vol !! n = None)) ->
    (listed mname vol d l \/ (listed mname vol d (lists w) /\ forall n, n ∈ l -> (n ∉ w_names w) -> volume_of d vol !! n = None)) ->
    volume_of (run w smooth (attempts w es d)) vol = volume_of (run w smooth disk) vol) as H; [|apply H; [by left|by left]].
  induction es as [|e es IH]; intros d Hd Hm.
  - apply map_eq. intros n. destruct (smooth_run disk l w Hl Hown Hw) as (_ & _ & Hv). rewrite Hv. unfold attempts. simpl.
    destruct Hm as [Hm|[Hm Hgone]]; [destruct (smooth_run d l w Hm Hown Hw) as (_ & _ & Hv')|destruct (smooth_run d (lists w) w Hm (lists_own w Hw) Hw) as (_ & _ & Hv')]; rewrite Hv';
      case_bool_decide as E1; [done| |done|]; (case_bool_decide as E2; [done|]).
    + case_bool_decide as E3; [done|]. destruct (Hd n E1 E2) as [->|[? _]]; done.
    + rewrite (bool_decide_eq_false_2 (n ∈ lists w)) by (intros Hin; apply E2; by apply (wo_lists _ _ Hw)).
      case_bool_decide as E3; [by apply Hgone|]. destruct (Hd n E1 E2) as [->|[? _]]; done.
  - unfold attempts. simpl. apply IH; clear IH.
    + intros n E1 E2. destruct Hm as [Hm|[Hm Hgone]].
      * pose proof (mirror_any mname vol mname_clean d l w e Hm Hown Hw) as Ha. destruct (mirror_node mname vol w e d) as [d' ok]. destruct Ha as (_ & Ha & _). cbn [fst].
        destruct (Ha n E1 E2) as [->|[Hin ->]]; [by apply Hd|by right].
      * pose proof (mirror_any mname vol mname_clean d (lists w) w e Hm (lists_own w Hw) Hw) as Ha. destruct (mirror_node mname vol w e d) as [d' ok]. destruct Ha as (_ & Ha & _). cbn [fst].
        destruct (Ha n E1 E2) as [->|[Hin ->]]; [by apply Hd|]. by apply (wo_lists _ _ Hw) in Hin.
    + destruct Hm as [Hm|[Hm Hgone]].
      * pose proof (mirror_any mname vol mname_clean d l w e Hm Hown Hw) as Ha. destruct (mirror_node mname vol w e d) as [d' ok]. destruct Ha as (_ & _ & Ha). cbn [fst].
        destruct Ha as [Ha|[Ha Hg]]; [left; by eapply listed_same|right]. split; [by apply listed_want|done].
      * right. pose proof (mirror_any mname vol mname_clean d (lists w) w e Hm (lists_own w Hw) Hw) as Ha. destruct (mirror_node mname vol w e d) as [d' ok]. destruct Ha as (_ & Hk & Ha). cbn [fst]. split.
        -- destruct Ha as [Ha|[Ha Hg]]; [by eapply listed_same|by apply listed_want].
        -- intros n Hin Hn. assert (n <> mname) as Hne by (intros ->; unfold own_names in Hown; rewrite Forall_forall in Hown; by destruct (Hown _ Hin) as (_ & _ & ?)).
           destruct (Hk n Hne Hn) as [->|[_ ->]]; [by apply Hgone|done].
Qed.

Lemma attempts_tracked disk l w es : listed mname vol disk l -> own_names mname l -> want_ok mname w ->
  exists l', listed mname vol (attempts w es disk) l' /\ own_names mname l'.
Proof.
  intros Hl Hown Hw. revert disk l Hl Hown. induction es as [|e es IH]; intros disk l Hl Hown; [eauto|]. unfold attempts. simpl.
  pose proof (mirror_any mname vol mname_clean disk l w e Hl Hown Hw) as Ha. destruct (mirror_node mname vol w e disk) as [d ok]. destruct Ha as (_ & _ & [Ha|[Ha _]]).
  - apply (IH d l); [by eapply listed_same|done].
  - apply (IH d (lists w)); [by apply listed_want|by apply lists_own].
Qed.


Lemma sync_all_listed ws : forall disk l, listed mname vol disk l -> own_names mname l -> Forall (want_ok mname) ws ->
  exists l', listed mname vol (sync_all ws disk) l' /\ own_names mname l'.
Proof.
  induction ws as [|w ws IH]; intros disk l Hl Hown Hws; [eauto|]. apply Forall_cons in Hws as [Hw Hws].
  destruct (smooth_run disk l w Hl Hown Hw) as (Hl1 & _). by apply (IH _ (lists w) Hl1 (lists_own w Hw)).
Qed.

(** A file is lost track of when the write of the manifest fails and the content
    changes before the next attempt: no manifest lists it, so no later sync
    removes it, and each reports success. *)
Theorem interrupted_then_changed (disk : Disk) (l : list string) (w : Want) (ws : list Want) (n : string) : listed mname vol disk l -> own_names mname l ->
  want_ok mname w -> Forall (want_ok mname) ws -> ws <> [] -> n ∈ w_names w -> (n ∉ l) -> Forall (fun w => n ∉ w_names w) ws ->
  (mirror_node mname vol w (mkEnds true WriteDone RemoveDone WriteRefused) disk).2 = false /\
  (forall before last, ws = before ++ [last] ->
    (mirror_node mname vol last smooth (sync_all before (run w (mkEnds true WriteDone RemoveDone WriteRefused) disk))).2 = true) /\
  exists b, volume_of (sync_all ws (run w (mkEnds true WriteDone RemoveDone WriteRefused) disk)) vol !! n = Some b.
Proof.
  intros Hl Hown Hw Hws Hne Hn Hnl Hnot. set (e := mkEnds true WriteDone RemoveDone WriteRefused).
  assert (n <> mname) as Hnm by (intros ->; pose proof (wo_clean _ _ Hw) as H; rewrite Forall_forall in H; by destruct (H _ Hn) as (_ & _ & ?)).
  assert (listed mname vol (run w e disk) l /\ (mirror_node mname vol w e disk).2 = false /\ exists b, volume_of (run w e disk) vol !! n = Some b) as (Hl1 & Hf & b & Hb).
  { unfold mirror_node, e. cbn [e_answers e_content e_remove e_commit]. rewrite (stale_filter mname vol disk l (w_names w) Hl). cbn [Write negb].
    set (stale := List.filter _ l). set (d1 := <[vol := _]> disk). assert (own_names mname stale) as Hst by (by apply own_filter).
    assert (d1 !! vol = Some (extract (tarFiles (w_files w) (w_uid w) (w_gid w)) (volume_of disk vol))) as Hd1 by (apply lookup_insert_eq).
    pose proof (remove_all mname vol d1 _ stale Hst Hd1) as Hr. destruct (RemoveFiles d1 vol stale RemoveDone) as [d2 ok]. destruct Hr as [-> Hr]. cbn [negb Write fst snd].
    assert (forall m, volume_of d2 vol !! m = if bool_decide (m ∈ stale) then None else if bool_decide (m ∈ w_names w) then wanted_blob w m else volume_of disk vol !! m) as Hv.
    { intros m. rewrite Hr. case_bool_decide; [done|]. unfold volume_of at 1. rewrite Hd1. simpl. by apply (content_lookup mname). }
    assert (mname ∉ w_names w) as Hmw by (intros Hin; pose proof (wo_clean _ _ Hw) as H; rewrite Forall_forall in H; by destruct (H _ Hin) as (_ & _ & ?)).
    split_and!; [|done|].
    - eapply listed_same; [done|]. rewrite Hv, !bool_decide_eq_false_2; [done|done|]. intros Hin. unfold own_names in Hst. rewrite Forall_forall in Hst. by destruct (Hst _ Hin) as (_ & _ & ?).
    - rewrite Hv, bool_decide_eq_false_2, bool_decide_eq_true_2; [|done|by intros [? _]%elem_of_filter_b]. apply names_elem in Hn as (f & Hf & <-). rewrite (wanted_some mname) by done. eauto. }
  split; [done|]. split.
  { intros before last ->. apply Forall_app in Hws as [Hb' Hlast%Forall_inv]. destruct (sync_all_listed before _ l Hl1 Hown Hb') as (l' & Hl' & Hown').
    destruct (mirror_smooth mname vol mname_clean _ l' last Hl' Hown' Hlast) as (d & -> & _). done. }
  exists b. destruct (exists_last Hne) as (ws0 & w0 & ->). apply Forall_app in Hnot as [Hn0 Hn1%Forall_inv].
  rewrite (mirror_history _ l ws0 w0) by done. rewrite !bool_decide_eq_false_2; [done| |done|done].
  intros [?|Hin]%elem_of_app; [done|]. apply flat_map_elem in Hin as (w1 & Hw1 & Hin). rewrite Forall_forall in Hn0. by apply (Hn0 w1).
Qed.
End History.

(** ** Two writers *)

Section Sharing.
Context (vol mA mB : string) (mA_clean : path.Clean mA = mA) (mB_clean : path.Clean mB = mB).
(** What each of the two ever names in the volume. *)
Context (SA SB : list string) (apart : forall n, n ∈ SA -> n ∈ SB -> False).

(** A run of one of them, however it ends. *)
Inductive turn := TurnA (w : Want) (e : NodeEnds) | TurnB (w : Want) (e : NodeEnds).
Definition take_turn (disk : Disk) (t : turn) : Disk :=
  match t with TurnA w e => (mirror_node mA vol w e disk).1 | TurnB w e => (mirror_node mB vol w e disk).1 end.
Definition is_A (t : turn) : bool := match t with TurnA _ _ => true | TurnB _ _ => false end.
Definition turn_ok (t : turn) : Prop :=
  match t with
  | TurnA w _ => want_ok mA w /\ forall n, n ∈ w_names w -> n ∈ SA
  | TurnB w _ => want_ok mB w /\ forall n, n ∈ w_names w -> n ∈ SB
  end.
(** What a writer's manifest lists is its own. *)
Definition keeps_to (m : string) (S : list string) (disk : Disk) : Prop := exists l, listed m vol disk l /\ own_names m l /\ forall n, n ∈ l -> n ∈ S.

Lemma turn_frame m S w e disk : path.Clean m = m -> m ∈ S -> want_ok m w -> (forall n, n ∈ w_names w -> n ∈ S) -> keeps_to m S disk ->
  keeps_to m S (mirror_node m vol w e disk).1 /\ forall n, (n ∉ S) -> volume_of (mirror_node m vol w e disk).1 vol !! n = volume_of disk vol !! n.
Proof.
  intros Hc Hm Hw Hin (l & Hl & Hown & HlS). pose proof (mirror_any m vol Hc disk l w e Hl Hown Hw) as H. destruct (mirror_node m vol w e disk) as [d ok]. cbn [fst].
  destruct H as (_ & Hv & Hman). split.
  - destruct Hman as [Hman|[Hman _]]; [exists l; split_and!; [by eapply listed_same|done|done]|]. exists (lists w). split_and!; [by apply listed_want|by apply lists_own|].
    intros n Hn. apply Hin. by apply (wo_lists _ _ Hw).
  - intros n Hn. destruct (Hv n) as [->|[Hnl _]]; [intros ->; done|intros Hx; by apply Hn, Hin|done|]. by destruct Hn; apply HlS.
Qed.

Lemma extract_agree es n : forall v1 v2 : gmap string Blob, v1 !! n = v2 !! n -> extract es v1 !! n = extract es v2 !! n.
Proof.
  unfold extract. induction es as [|x es IH]; intros v1 v2 H; [done|]. simpl. apply IH. destruct (decide (n = path.Clean x.1)) as [->|Hne]; [by rewrite !lookup_insert_eq|].
  by rewrite !lookup_insert_ne.
Qed.

Lemma write_agree d1 d2 files uid gid e : (Write d1 vol files uid gid e).2 = (Write d2 vol files uid gid e).2 /\
  ((Write d1 vol files uid gid e).2 = true -> is_Some ((Write d1 vol files uid gid e).1 !! vol) /\ is_Some ((Write d2 vol files uid gid e).1 !! vol)) /\
  forall n, volume_of d1 vol !! n = volume_of d2 vol !! n -> volume_of (Write d1 vol files uid gid e).1 vol !! n = volume_of (Write d2 vol files uid gid e).1 vol !! n.
Proof.
  destruct e; simpl; (split; [done|]); (split; [intros ?; rewrite ?lookup_insert_eq; eauto; done|]); intros m Hm; rewrite ?volume_insert; try done; by apply extract_agree.
Qed.

Lemma remove_agree d1 d2 l e : is_Some (d1 !! vol) -> is_Some (d2 !! vol) -> (RemoveFiles d1 vol l e).2 = (RemoveFiles d2 vol l e).2 /\
  is_Some ((RemoveFiles d1 vol l e).1 !! vol) /\ is_Some ((RemoveFiles d2 vol l e).1 !! vol) /\
  forall n, volume_of d1 vol !! n = volume_of d2 vol !! n -> volume_of (RemoveFiles d1 vol l e).1 vol !! n = volume_of (RemoveFiles d2 vol l e).1 vol !! n.
Proof.
  intros [v1 H1] [v2 H2]. unfold RemoveFiles. destruct l as [|x l]; [split_and!; eauto|]. rewrite H1, H2. destruct (forallb removable (x :: l)); simpl negb; cbn iota; [|split_and!; eauto].
  assert (forall n, volume_of d1 vol !! n = volume_of d2 vol !! n -> v1 !! n = v2 !! n) as Hv by (intros n; unfold volume_of; by rewrite H1, H2).
  destruct e; cbn [fst snd]; (split; [done|]); rewrite !lookup_insert_eq; (split; [eauto|]); (split; [eauto|]); intros m Hm; rewrite !volume_insert, !drop_names_lookup; (case_bool_decide; [done|auto]).
Qed.

(** The same turn in two volumes that agree on the writer's manifest. *)
Lemma turn_agree m w e l d1 d2 : path.Clean m = m -> listed m vol d1 l -> listed m vol d2 l ->
  forall n, volume_of d1 vol !! n = volume_of d2 vol !! n -> volume_of (mirror_node m vol w e d1).1 vol !! n = volume_of (mirror_node m vol w e d2).1 vol !! n.
Proof.
  intros Hc H1 H2 n Hn. unfold mirror_node. destruct (e_answers e); [|unfold stale_of, ReadFile; done].
  rewrite (stale_filter m vol d1 l (w_names w) H1), (stale_filter m vol d2 l (w_names w) H2).
  destruct (write_agree d1 d2 (w_files w) (w_uid w) (w_gid w) (e_content e)) as (Eok & Hs & Hw).
  destruct (Write d1 vol (w_files w) (w_uid w) (w_gid w) (e_content e)) as [a1 ok1], (Write d2 vol (w_files w) (w_uid w) (w_gid w) (e_content e)) as [a2 ok2]. cbn [fst snd] in *. subst ok2.
  destruct ok1; cbn [negb fst]; [|by apply Hw]. destruct (Hs eq_refl) as [Ha1 Ha2].
  set (stale := List.filter _ l). destruct (remove_agree a1 a2 stale (e_remove e) Ha1 Ha2) as (Eok & _ & _ & Hr).
  destruct (RemoveFiles a1 vol stale (e_remove e)) as [b1 ok1], (RemoveFiles a2 vol stale (e_remove e)) as [b2 ok2]. cbn [fst snd] in *. subst ok2.
  destruct ok1; cbn [negb fst]; [|by apply Hr, Hw].
  destruct (write_agree b1 b2 [manifest_file m w] (w_uid w) (w_gid w) (e_commit e)) as (_ & _ & Hw'). by apply Hw', Hr, Hw.
Qed.

End Sharing.

(** ** Concrete runs *)

(** A want whose manifest reads back as its names. *)
Lemma want_ok_of mname w : forallb (fun n => bool_decide (path.Clean n = n) && removable n && negb (bool_decide (n = mname))) (w_names w) = true ->
  bool_decide (NoDup (w_names w)) = true -> ParseManifest (w_manifest w) = w_names w -> (Z.of_nat (String.length (w_manifest w)) <=? readLimit)%Z = true -> want_ok mname w.
Proof.
  intros H1 H2 H3 H4. constructor; [|by apply bool_decide_eq_true in H2|by rewrite H3|by apply Z.leb_le].
  apply forallb_Forall in H1. eapply Forall_impl; [exact H1|]. intros n Hn. simpl in Hn. apply andb_prop in Hn as [[Hc Hr]%andb_prop Hm]. bd. done.
Qed.

Module Demo.
Definition demo_want (h : string) (names : list string) : Want := mkWant (map (fun n => mkFile n (n +:+ h) 0) names) (ManifestOf "" h names) 0 0.
Lemma wants_ok : want_ok ".m" (demo_want "1" ["a"; "b"]) /\ want_ok ".m" (demo_want "2" ["b"; "c"]) /\ want_ok ".n" (demo_want "3" ["x"; "y"]).
Proof. split_and!; apply want_ok_of; by vm_compute. Qed.
Definition disk : Disk := {[ "v" := {[ "acme.json" := mkBlob "" 384 0 0 ]} ]}.
End Demo.

Lemma mirror_history_witness :
  volume_of (sync_all ".m" "v" [Demo.demo_want "1" ["a"; "b"]; Demo.demo_want "2" ["b"; "c"]] Demo.disk) "v" !! "a" =
  if bool_decide ("a" = ".m") then Some (manifest_blob ".m" (Demo.demo_want "2" ["b"; "c"]))
  else if bool_decide ("a" ∈ w_names (Demo.demo_want "2" ["b"; "c"])) then wanted_blob (Demo.demo_want "2" ["b"; "c"]) "a"
  else if bool_decide ("a" ∈ [] ++ flat_map w_names [Demo.demo_want "1" ["a"; "b"]]) then None else volume_of Demo.disk "v" !! "a".
Proof.
  apply (mirror_history ".m" "v" eq_refl Demo.disk [] [Demo.demo_want "1" ["a"; "b"]] (Demo.demo_want "2" ["b"; "c"])); [by vm_compute|constructor|].
  apply Forall_cons_2; [apply Demo.wants_ok|]. apply Forall_cons_2; [apply Demo.wants_ok|by constructor].
Defined.


Lemma interrupted_then_changed_witness :
  (mirror_node ".m" "v" (Demo.demo_want "1" ["a"; "b"]) (mkEnds true WriteDone RemoveDone WriteRefused) Demo.disk).2 = false /\
  (forall before last, [Demo.demo_want "2" ["b"; "c"]] = before ++ [last] ->
    (mirror_node ".m" "v" last smooth (sync_all ".m" "v" before (mirror_node ".m" "v" (Demo.demo_want "1" ["a"; "b"]) (mkEnds true WriteDone RemoveDone WriteRefused) Demo.disk).1)).2 = true) /\
  exists b, volume_of (sync_all ".m" "v" [Demo.demo_want "2" ["b"; "c"]] (mirror_node ".m" "v" (Demo.demo_want "1" ["a"; "b"]) (mkEnds true WriteDone RemoveDone WriteRefused) Demo.disk).1) "v" !! "a" = Some b.
Proof.
  apply (interrupted_then_changed ".m" "v" eq_refl Demo.disk [] (Demo.demo_want "1" ["a"; "b"]) [Demo.demo_want "2" ["b"; "c"]] "a").
  - by vm_compute.
  - constructor.
  - apply Demo.wants_ok.
  - constructor; [apply Demo.wants_ok|constructor].
  - done.
  - apply (bool_decide_unpack _). by vm_compute.
  - apply (bool_decide_unpack _). by vm_compute.
  - apply (bool_decide_unpack _). by vm_compute.
Defined.

