(* ===== verification/Certs.v ===== *)
(** * Certificates: authorities, leaves, deliveries, rotation

    Models [internal/store/certs.go] and [internal/store/fleetdeliveries.go] (the
    tables and every write to them), the handlers of
    [internal/api/cert_handlers.go] that move an authority through its rotation
    or sign a leaf, the trust bundle, and the certificate worker
    ([internal/api/cert_worker.go]). Signing, verifying and sealing are the class
    [Crypto]; a bundle selection is kept as the list of ids its text spells. *)
From S2P Require Import Prelude GoStd Timestamps Sans Keyrings.
Local Open Scope string_scope.
Local Open Scope list_scope.
Local Open Scope daffa_scope.
Local Open Scope Z_scope.

(** ** Tables *)

Inductive CAStatus := CAActive | CANext | CARetired.
#[export] Instance CAStatus_eq_dec : EqDecision CAStatus.
Proof. solve_decision. Defined.
(** [rotates_id] "" and [overlap_until] [None] are NULL. *)
Record CertAuthority := mkCA {
  ca_id : string; ca_name : string; ca_pem : string; ca_key : string; ca_algo : string; ca_notafter : Z;
  ca_status : CAStatus; ca_rotates : string; ca_overlap : option Z; ca_warn : Z; ca_protected : bool; ca_outbound : bool }.
Definition CanSign (ca : CertAuthority) : bool := negb (bool_decide (ca_key ca = "")).

(** [env_id] "" is shared, [ca_id] "" is uploaded. *)
Record Certificate := mkCert {
  ct_id : string; ct_name : string; ct_env : string; ct_ca : string; ct_sans : list string; ct_pem : string; ct_chain : string; ct_key : string; ct_algo : string;
  ct_usages : string; ct_notafter : Z; ct_validity : Z; ct_renew : Z; ct_status : string; ct_error : string; ct_protected : bool }.
Definition Issued (c : Certificate) : bool := negb (bool_decide (ct_ca c = "")).

Record DeliveryCert := mkDC { dc_cert : string; dc_default : bool }.
Record CertDelivery := mkCD {
  cd_id : string; cd_env : string; cd_certs : list DeliveryCert; cd_volume : string; cd_mount : string; cd_uid : Z; cd_gid : Z; cd_traefik : bool;
  cd_restart : string; cd_bundle : list string; cd_hash : string; cd_synced : option Z; cd_status : string; cd_error : string; cd_created : Z; cd_protected : bool }.
Record FleetGroup := mkGroup { g_subdir : string; g_bundle : list string; g_certs : list string }.
Record FleetDelivery := mkFD {
  fd_id : string; fd_env : string; fd_volume : string; fd_uid : Z; fd_gid : Z; fd_restart : string; fd_groups : list FleetGroup;
  fd_hash : string; fd_synced : option Z; fd_status : string; fd_error : string; fd_created : Z }.
Record CDB := mkCDB { cas : list CertAuthority; leaves : list Certificate; cdels : list CertDelivery; fdels : list FleetDelivery }.
Definition set_cas (db : CDB) (l : list CertAuthority) : CDB := mkCDB l (leaves db) (cdels db) (fdels db).
Definition set_leaves (db : CDB) (l : list Certificate) : CDB := mkCDB (cas db) l (cdels db) (fdels db).
Definition set_cdels (db : CDB) (l : list CertDelivery) : CDB := mkCDB (cas db) (leaves db) l (fdels db).
Definition set_fdels (db : CDB) (l : list FleetDelivery) : CDB := mkCDB (cas db) (leaves db) (cdels db) l.

Definition by_id {A} (f : A -> string) (id : string) (l : list A) : res KErr A :=
  match List.find (fun x => bool_decide (f x = id)) l with Some x => Ok x | None => Err ErrNotFound end.

(** ** The store: authorities *)

Definition CertAuthorityByID (db : CDB) (id : string) : res KErr CertAuthority := by_id ca_id id (cas db).
Definition CertAuthorityByName (db : CDB) (name : string) : res KErr CertAuthority := by_id ca_name name (cas db).
Definition ListCertAuthorities (db : CDB) : list CertAuthority := ssort (fun a b => String.ltb (ca_name a) (ca_name b)) (cas db).
Definition CreateCertAuthority (db : CDB) (ca : CertAuthority) : res KErr CDB :=
  let ca := mkCA (ca_id ca) (ca_name ca) (ca_pem ca) (ca_key ca) (ca_algo ca) (ca_notafter ca) (ca_status ca) (ca_rotates ca) (ca_overlap ca)
              (if ca_warn ca <=? 0 then 180 else ca_warn ca) (ca_protected ca) (ca_outbound ca) in
  if existsb (fun x => bool_decide (ca_id x = ca_id ca) || bool_decide (ca_name x = ca_name ca)) (cas db) then Err ErrDuplicate
  else Ok (set_cas db (cas db ++ [ca])).
(** The name and the protection stay as they are. *)
Definition ca_row (ca x : CertAuthority) : CertAuthority :=
  if bool_decide (ca_id x = ca_id ca) then
    mkCA (ca_id x) (ca_name x) (ca_pem ca) (ca_key ca) (ca_algo ca) (ca_notafter ca) (ca_status ca) (ca_rotates ca) (ca_overlap ca) (ca_warn ca) (ca_protected x) (ca_outbound ca)
  else x.
Definition UpdateCertAuthority (db : CDB) (ca : CertAuthority) : CDB := set_cas db (map (ca_row ca) (cas db)).
Definition count {A} (f : A -> bool) (l : list A) : nat := length (List.filter f l).
Definition CertAuthorityInUse (db : CDB) (id : string) : nat :=
  (count (fun c => bool_decide (ct_ca c = id)) (leaves db) + count (fun d => bool_decide (id ∈ cd_bundle d)) (cdels db)
   + count (fun g => bool_decide (id ∈ g_bundle g)) (flat_map fd_groups (fdels db)))%nat.
(** A leaf that refers to it refuses the deletion. *)
Definition DeleteCertAuthority (db : CDB) (id : string) : res KErr CDB :=
  if existsb (fun c => bool_decide (ct_ca c = id)) (leaves db) then Err ErrForeignKey
  else Ok (set_cas db (List.filter (fun x => negb (bool_decide (ca_id x = id))) (cas db))).

(** ** The store: certificates *)

Definition CertificateByID (db : CDB) (id : string) : res KErr Certificate := by_id ct_id id (leaves db).
Definition CertificateByName (db : CDB) (env name : string) : res KErr Certificate :=
  match List.find (fun c => bool_decide (ct_env c = env) && bool_decide (ct_name c = name)) (leaves db) with Some c => Ok c | None => Err ErrNotFound end.
Definition by_cert_name (a b : Certificate) : bool := String.ltb (ct_name a) (ct_name b).
Definition ListCertificates (db : CDB) (global : bool) (envs : list string) : list Certificate :=
  ssort by_cert_name (List.filter (fun c => global || bool_decide (ct_env c = "") || bool_decide (ct_env c ∈ envs)) (leaves db)).
Definition CertificatesByCA (db : CDB) (id : string) : list Certificate := ssort by_cert_name (List.filter (fun c => bool_decide (ct_ca c = id)) (leaves db)).
Definition CreateCertificate (db : CDB) (c : Certificate) : res KErr CDB :=
  let c := mkCert (ct_id c) (ct_name c) (ct_env c) (ct_ca c) (ct_sans c) (ct_pem c) (ct_chain c) (ct_key c) (ct_algo c) (if bool_decide (ct_usages c = "") then "server" else ct_usages c)
             (ct_notafter c) (ct_validity c) (if ct_renew c <=? 0 then 30 else ct_renew c) (if bool_decide (ct_status c = "") then "ok" else ct_status c) (ct_error c) (ct_protected c) in
  if existsb (fun x => bool_decide (ct_id x = ct_id c) || (bool_decide (ct_env x = ct_env c) && bool_decide (ct_name x = ct_name c))) (leaves db) then Err ErrDuplicate
  else if negb (bool_decide (ct_ca c = "")) && negb (existsb (fun x => bool_decide (ca_id x = ct_ca c)) (cas db)) then Err ErrForeignKey
  else Ok (set_leaves db (leaves db ++ [c])).
(** Environment and protection stay. *)
Definition UpdateCertificate (db : CDB) (c : Certificate) : CDB :=
  set_leaves db (map (fun x => if bool_decide (ct_id x = ct_id c) then
      mkCert (ct_id x) (ct_name c) (ct_env x) (ct_ca c) (ct_sans c) (ct_pem c) (ct_chain c) (ct_key c) (ct_algo c) (ct_usages c) (ct_notafter c) (ct_validity c) (ct_renew c) (ct_status c) (ct_error c) (ct_protected x)
    else x) (leaves db)).
Definition CertificateInUse (db : CDB) (id : string) : nat :=
  (count (fun dc => bool_decide (dc_cert dc = id)) (flat_map cd_certs (cdels db)) + count (fun x => bool_decide (x = id)) (flat_map g_certs (flat_map fd_groups (fdels db))))%nat.
(** The rows that place it in a delivery go with it. *)
Definition DeleteCertificate (db : CDB) (id : string) : CDB :=
  mkCDB (cas db) (List.filter (fun c => negb (bool_decide (ct_id c = id))) (leaves db))
    (map (fun d => mkCD (cd_id d) (cd_env d) (List.filter (fun dc => negb (bool_decide (dc_cert dc = id))) (cd_certs d)) (cd_volume d) (cd_mount d) (cd_uid d) (cd_gid d) (cd_traefik d)
      (cd_restart d) (cd_bundle d) (cd_hash d) (cd_synced d) (cd_status d) (cd_error d) (cd_created d) (cd_protected d)) (cdels db))
    (map (fun d => mkFD (fd_id d) (fd_env d) (fd_volume d) (fd_uid d) (fd_gid d) (fd_restart d)
      (map (fun g => mkGroup (g_subdir g) (g_bundle g) (List.filter (fun i => negb (bool_decide (i = id))) (g_certs g))) (fd_groups d))
      (fd_hash d) (fd_synced d) (fd_status d) (fd_error d) (fd_created d)) (fdels db)).

(** ** The store: deliveries *)

Definition DefaultCertMountPath : string := "/etc/traefik/dynamic-certs".
Definition or_default (s d : string) : string := if bool_decide (s = "") then d else s.
(** At most one delivery that renders tls.yml per volume. *)
Definition traefik_taken (db : CDB) (d : CertDelivery) : bool :=
  cd_traefik d && existsb (fun x => cd_traefik x && negb (bool_decide (cd_id x = cd_id d)) && bool_decide (cd_env x = cd_env d) && bool_decide (cd_volume x = cd_volume d)) (cdels db).
Definition known_certs (db : CDB) (ids : list string) : bool := forallb (fun i => existsb (fun c => bool_decide (ct_id c = i)) (leaves db)) ids.
Definition CreateCertDelivery (db : CDB) (d : CertDelivery) : res KErr CDB :=
  let d := mkCD (cd_id d) (cd_env d) (cd_certs d) (or_default (cd_volume d) "daffa-certs") (or_default (cd_mount d) DefaultCertMountPath) (cd_uid d) (cd_gid d) (cd_traefik d)
             (cd_restart d) (cd_bundle d) (cd_hash d) (cd_synced d) (or_default (cd_status d) "pending") (cd_error d) (cd_created d) (cd_protected d) in
  if existsb (fun x => bool_decide (cd_id x = cd_id d)) (cdels db) || traefik_taken db d || negb (bool_decide (NoDup (map dc_cert (cd_certs d)))) then Err ErrDuplicate
  else if negb (known_certs db (map dc_cert (cd_certs d))) then Err ErrForeignKey
  else Ok (set_cdels db (cdels db ++ [d])).
Definition UpdateCertDelivery (db : CDB) (d : CertDelivery) : res KErr CDB :=
  if traefik_taken db d || negb (bool_decide (NoDup (map dc_cert (cd_certs d)))) then Err ErrDuplicate
  else if negb (known_certs db (map dc_cert (cd_certs d))) then Err ErrForeignKey
  else Ok (set_cdels db (map (fun x => if bool_decide (cd_id x = cd_id d) then
      mkCD (cd_id x) (cd_env x) (cd_certs d) (cd_volume x) (or_default (cd_mount d) DefaultCertMountPath) (cd_uid d) (cd_gid d) (cd_traefik d) (cd_restart d) (cd_bundle d)
        (cd_hash x) (cd_synced x) (cd_status x) (cd_error x) (cd_created x) (cd_protected x)
    else x) (cdels db))).
(** What a read attaches: the certificates that exist, by name. *)
Definition cert_name (db : CDB) (id : string) : string := match CertificateByID db id with Ok c => ct_name c | Err _ => "" end.
Definition attachDeliveryCerts (db : CDB) (d : CertDelivery) : CertDelivery :=
  mkCD (cd_id d) (cd_env d)
    (ssort (fun a b => String.ltb (cert_name db (dc_cert a)) (cert_name db (dc_cert b))) (List.filter (fun dc => is_ok (CertificateByID db (dc_cert dc))) (cd_certs d)))
    (cd_volume d) (cd_mount d) (cd_uid d) (cd_gid d) (cd_traefik d) (cd_restart d) (cd_bundle d) (cd_hash d) (cd_synced d) (cd_status d) (cd_error d) (cd_created d) (cd_protected d).
Definition CertDeliveryByID (db : CDB) (id : string) : res KErr CertDelivery := let* d := by_id cd_id id (cdels db) in Ok (attachDeliveryCerts db d).
Definition TraefikDeliveryForVolume (db : CDB) (env volume : string) : res KErr CertDelivery :=
  match List.find (fun d => bool_decide (cd_env d = env) && bool_decide (cd_volume d = volume) && cd_traefik d) (cdels db) with
  | Some d => Ok (attachDeliveryCerts db d) | None => Err ErrNotFound end.
Definition by_cd_created (a b : CertDelivery) : bool := String.ltb (stamp (cd_created a)) (stamp (cd_created b)).
Definition DeliveriesForVolume (db : CDB) (env volume : string) : list CertDelivery :=
  map (attachDeliveryCerts db) (ssort by_cd_created (List.filter (fun d => bool_decide (cd_env d = env) && bool_decide (cd_volume d = volume)) (cdels db))).
Definition ListCertDeliveries (db : CDB) (global : bool) (envs : list string) : list CertDelivery :=
  map (attachDeliveryCerts db) (ssort by_cd_created (List.filter (fun d => global || bool_decide (cd_env d ∈ envs)) (cdels db))).
Definition AllCertDeliveries (db : CDB) : list CertDelivery := ListCertDeliveries db true [].
Definition cd_marked (hash : string) (err : option string) (now : Z) (d : CertDelivery) : CertDelivery :=
  mkCD (cd_id d) (cd_env d) (cd_certs d) (cd_volume d) (cd_mount d) (cd_uid d) (cd_gid d) (cd_traefik d) (cd_restart d) (cd_bundle d)
    hash (Some now) (match err with None => "ok" | Some _ => "error" end) (match err with None => "" | Some e => e end) (cd_created d) (cd_protected d).
Definition MarkCertDeliverySynced (db : CDB) (id hash : string) (err : option string) (now : Z) : CDB :=
  set_cdels db (map (fun d => if bool_decide (cd_id d = id) then cd_marked hash err now d else d) (cdels db)).
Definition DeleteCertDelivery (db : CDB) (id : string) : CDB := set_cdels db (List.filter (fun d => negb (bool_decide (cd_id d = id))) (cdels db)).
(** The selections that name [old] name [new] instead. *)
Definition swap (old new : string) (ids : list string) : list string := map (fun i => if bool_decide (i = old) then new else i) ids.
Definition with_bundle (ids : list string) (d : CertDelivery) : CertDelivery :=
  mkCD (cd_id d) (cd_env d) (cd_certs d) (cd_volume d) (cd_mount d) (cd_uid d) (cd_gid d) (cd_traefik d) (cd_restart d) ids
    (cd_hash d) (cd_synced d) (cd_status d) (cd_error d) (cd_created d) (cd_protected d).
Definition set_bundle (id : string) (ids : list string) (db : CDB) : CDB :=
  set_cdels db (map (fun d => if bool_decide (cd_id d = id) then with_bundle ids d else d) (cdels db)).
(** One write per delivery that names [old]. *)
Definition ReplaceCAInDeliveryBundles (db : CDB) (old new : string) : list (CDB -> CDB) :=
  flat_map (fun d => if bool_decide (old ∈ cd_bundle d) then [set_bundle (cd_id d) (swap old new (cd_bundle d))] else []) (AllCertDeliveries db).

(** The keys of the two tables under a fleet delivery. *)
Definition groups_distinct (gs : list FleetGroup) : bool := bool_decide (NoDup (map g_subdir gs)) && bool_decide (NoDup (flat_map g_certs gs)).
Definition CreateFleetDelivery (db : CDB) (d : FleetDelivery) : res KErr CDB :=
  let d := mkFD (fd_id d) (fd_env d) (or_default (fd_volume d) "daffa-fleet-certs") (fd_uid d) (fd_gid d) (fd_restart d) (fd_groups d)
             (fd_hash d) (fd_synced d) (or_default (fd_status d) "pending") (fd_error d) (fd_created d) in
  if existsb (fun x => bool_decide (fd_id x = fd_id d)) (fdels db) || negb (groups_distinct (fd_groups d)) then Err ErrDuplicate
  else if negb (known_certs db (flat_map g_certs (fd_groups d))) then Err ErrForeignKey
  else Ok (set_fdels db (fdels db ++ [d])).
Definition UpdateFleetDelivery (db : CDB) (d : FleetDelivery) : res KErr CDB :=
  if negb (groups_distinct (fd_groups d)) then Err ErrDuplicate
  else if negb (known_certs db (flat_map g_certs (fd_groups d))) then Err ErrForeignKey
  else Ok (set_fdels db (map (fun x => if bool_decide (fd_id x = fd_id d) then
      mkFD (fd_id x) (fd_env x) (fd_volume x) (fd_uid d) (fd_gid d) (fd_restart d) (fd_groups d) (fd_hash x) (fd_synced x) (fd_status x) (fd_error x) (fd_created x)
    else x) (fdels db))).
(** Groups come back by subdirectory, their certificates by name. *)
Definition attachFleetGroups (db : CDB) (d : FleetDelivery) : FleetDelivery :=
  mkFD (fd_id d) (fd_env d) (fd_volume d) (fd_uid d) (fd_gid d) (fd_restart d)
    (map (fun g => mkGroup (g_subdir g) (g_bundle g)
        (ssort (fun a b => String.ltb (cert_name db a) (cert_name db b)) (List.filter (fun i => is_ok (CertificateByID db i)) (g_certs g))))
      (ssort (fun a b => String.ltb (g_subdir a) (g_subdir b)) (fd_groups d)))
    (fd_hash d) (fd_synced d) (fd_status d) (fd_error d) (fd_created d).
Definition FleetDeliveryByID (db : CDB) (id : string) : res KErr FleetDelivery := let* d := by_id fd_id id (fdels db) in Ok (attachFleetGroups db d).
Definition FleetDeliveryForVolume (db : CDB) (env volume : string) : res KErr FleetDelivery :=
  match List.find (fun d => bool_decide (fd_env d = env) && bool_decide (fd_volume d = volume)) (fdels db) with
  | Some d => Ok (attachFleetGroups db d) | None => Err ErrNotFound end.
Definition ListFleetDeliveries (db : CDB) (global : bool) (envs : list string) : list FleetDelivery :=
  map (attachFleetGroups db) (ssort (fun a b => String.ltb (stamp (fd_created a)) (stamp (fd_created b))) (List.filter (fun d => global || bool_decide (fd_env d ∈ envs)) (fdels db))).
Definition AllFleetDeliveries (db : CDB) : list FleetDelivery := ListFleetDeliveries db true [].
Definition fd_marked (hash : string) (err : option string) (now : Z) (d : FleetDelivery) : FleetDelivery :=
  mkFD (fd_id d) (fd_env d) (fd_volume d) (fd_uid d) (fd_gid d) (fd_restart d) (fd_groups d)
    hash (Some now) (match err with None => "ok" | Some _ => "error" end) (match err with None => "" | Some e => e end) (fd_created d).
Definition MarkFleetDeliverySynced (db : CDB) (id hash : string) (err : option string) (now : Z) : CDB :=
  set_fdels db (map (fun d => if bool_decide (fd_id d = id) then fd_marked hash err now d else d) (fdels db)).
Definition DeleteFleetDelivery (db : CDB) (id : string) : CDB := set_fdels db (List.filter (fun d => negb (bool_decide (fd_id d = id))) (fdels db)).
Definition with_groups (gs : list FleetGroup) (d : FleetDelivery) : FleetDelivery :=
  mkFD (fd_id d) (fd_env d) (fd_volume d) (fd_uid d) (fd_gid d) (fd_restart d) gs (fd_hash d) (fd_synced d) (fd_status d) (fd_error d) (fd_created d).
Definition set_group_bundle (id subdir : string) (ids : list string) (db : CDB) : CDB :=
  set_fdels db (map (fun d => if bool_decide (fd_id d = id) then
      with_groups (map (fun g => if bool_decide (g_subdir g = subdir) then mkGroup (g_subdir g) ids (g_certs g) else g) (fd_groups d)) d else d) (fdels db)).
(** One write per group that names [old]. *)
Definition ReplaceCAInFleetBundles (db : CDB) (old new : string) : list (CDB -> CDB) :=
  flat_map (fun d => flat_map (fun g => if bool_decide (old ∈ g_bundle g) then [set_group_bundle (fd_id d) (g_subdir g) (swap old new (g_bundle g))] else []) (fd_groups d)) (AllFleetDeliveries db).

(** ** Signing and sealing

    [MakeCA] and [Issue] draw a key: what they return is asked for at a moment.
    [Bundle] re-encodes the certificates of some PEM texts one after another. *)
Class Crypto := {
  Seal : string -> option string;
  Open : string -> option string;
  ValidateCAUpload : string -> string -> bool;
  ValidateLeafUpload : string -> string -> string -> bool;
  MakeCA : Z -> string -> string -> string -> Z -> option (string * string);
  Issue : Z -> string -> string -> list string -> string -> Z -> string -> option (string * string);
  Renew : Z -> string -> string -> string -> string -> Z -> string -> option string;
  Reissue : Z -> string -> string -> string -> list string -> Z -> string -> option string;
  Verify : string -> string -> bool;
  NotAfter : string -> Z;
  ValidDays : string -> Z;
  Describe : string -> string;
  CommonName : string -> string;
  Organization : string -> string;
  SANList : string -> list string;
  UsagesOf : string -> string;
  Bundle : list string -> option string }.

Inductive CErr := BadName | BadCA | CNRequired | SealFailed | OpenFailed (name : string) | Store (e : KErr) | ProtectedRow | InUse | NotActive | RotationInFlight
| NotStaged | ConfirmRequired | RenewFailed (name : string) | VerifyFailed (name : string) | WriteLost | NoEnvironment | BadCertificate | ChooseCA | TrustOnly | BadSANs (e : SANErr)
| SANRequired | BadUsages | IssueFailed | Uploaded | CAGone | CAHoldsNoKey | ImmutableName | ImmutableEnv | IssuedCertificate | BundleFailed.

(** How many more writes succeed; [None]: all. *)
Definition Writes := option nat.
Definition spend (w : Writes) : option Writes := match w with None => Some None | Some O => None | Some (S n) => Some (Some n) end.

(** Only server and client exist; the order is fixed; nothing means server. *)
Definition usage_of (u : string) : string := strings.ToLowerASCII (strings.TrimSpace u).
Definition joinUsages (server client : bool) : string := strings.Join ((if server then ["server"] else []) ++ (if client then ["client"] else [])) " ".
Fixpoint usages_go (l : list string) (server client : bool) : option (bool * bool) :=
  match l with
  | [] => Some (server, client)
  | u :: l => let u := usage_of u in
              if bool_decide (u = "") then usages_go l server client
              else if bool_decide (u = "server") then usages_go l true client
              else if bool_decide (u = "client") then usages_go l server true
              else None
  end.
Definition NormalizeUsages (l : list string) : option string :=
  match usages_go l false false with
  | None => None
  | Some (server, client) => Some (joinUsages (server || negb client) client)
  end.

Section Handlers.
Context `{Crypto} (ParseIP : string -> option string) (url_parse : string -> option (string * string)).

(** ** Authorities *)

Record CARequest := mkCARequest {
  rq_name : string; rq_pem : string; rq_key : string; rq_algo : string; rq_days : Z; rq_cn : string; rq_org : string; rq_outbound : option bool }.
Definition ECDSAP256 : string := "ecdsa-p256".
Definition handleCreateCA (db : CDB) (req : CARequest) (id : string) (now : Z) : CDB * option CErr :=
  let name := strings.TrimSpace (rq_name req) in
  let create pem key algo :=
    match CreateCertAuthority db (mkCA id name pem key algo (NotAfter pem) CAActive "" None 0 false (default true (rq_outbound req))) with
    | Err e => (db, Some (Store e)) | Ok db => (db, None) end in
  if negb (certName name) then (db, Some BadName)
  else if negb (bool_decide (strings.TrimSpace (rq_pem req) = "")) then
    if negb (ValidateCAUpload (rq_pem req) (rq_key req)) then (db, Some BadCA)
    else if bool_decide (rq_key req = "") then create (rq_pem req) "" (Describe (rq_pem req))
    else match Seal (rq_key req) with None => (db, Some SealFailed) | Some sealed => create (rq_pem req) sealed (Describe (rq_pem req)) end
  else
    let algo := or_default (rq_algo req) ECDSAP256 in
    let days := if rq_days req <=? 0 then 3650 else rq_days req in
    let cn := strings.TrimSpace (rq_cn req) in
    if bool_decide (cn = "") then (db, Some CNRequired)
    else match MakeCA now cn (strings.TrimSpace (rq_org req)) algo days with
         | None => (db, Some BadCA)
         | Some (pem, key) => match Seal key with None => (db, Some SealFailed) | Some sealed => create pem sealed algo end
         end.

Definition handleDeleteCA (db : CDB) (id : string) : CDB * option CErr :=
  match CertAuthorityByID db id with
  | Err e => (db, Some (Store e))
  | Ok ca => if ca_protected ca then (db, Some ProtectedRow)
             else if (0 <? CertAuthorityInUse db (ca_id ca))%nat then (db, Some InUse)
             else match DeleteCertAuthority db (ca_id ca) with Err e => (db, Some (Store e)) | Ok db => (db, None) end
  end.
Definition set_outbound (ca : CertAuthority) (b : bool) : CertAuthority :=
  mkCA (ca_id ca) (ca_name ca) (ca_pem ca) (ca_key ca) (ca_algo ca) (ca_notafter ca) (ca_status ca) (ca_rotates ca) (ca_overlap ca) (ca_warn ca) (ca_protected ca) b.
Definition handleUpdateCA (db : CDB) (id : string) (outbound : option bool) : CDB * option CErr :=
  match CertAuthorityByID db id with
  | Err e => (db, Some (Store e))
  | Ok ca => (UpdateCertAuthority db (set_outbound ca (default (ca_outbound ca) outbound)), None)
  end.

(** [hasStagedSuccessor]: one staged successor at a time. *)
Definition hasStagedSuccessor (l : list CertAuthority) (id : string) : bool :=
  existsb (fun o => bool_decide (ca_status o = CANext) && bool_decide (ca_rotates o = id)) l.
Record RotateRequest := mkRotate { rr_name : string; rr_cn : string; rr_algo : string; rr_days : Z; rr_overlap : Z }.
Definition add_days (now days : Z) : Z := now + days * rotation_day.
(** Phase one: the successor is staged; the incumbent and its leaves stay. *)
Definition handleRotateCA (db : CDB) (id : string) (req : RotateRequest) (newid : string) (now : Z) : CDB * option CErr :=
  match CertAuthorityByID db id with
  | Err e => (db, Some (Store e))
  | Ok ca =>
      if negb (bool_decide (ca_status ca = CAActive)) then (db, Some NotActive)
      else if hasStagedSuccessor (ListCertAuthorities db) (ca_id ca) then (db, Some RotationInFlight)
      else
        let cn := or_default (strings.TrimSpace (rr_cn req)) (CommonName (ca_pem ca)) in
        let algo := or_default (rr_algo req) ECDSAP256 in
        let days := if rr_days req <=? 0 then 3650 else rr_days req in
        let overlap := if rr_overlap req <=? 0 then 30 else rr_overlap req in
        let name := or_default (strings.TrimSpace (rr_name req)) (ca_name ca +:+ "-next") in
        if negb (certName name) then (db, Some BadName)
        else match MakeCA now cn (Organization (ca_pem ca)) algo days with
             | None => (db, Some BadCA)
             | Some (pem, key) => match Seal key with
                 | None => (db, Some SealFailed)
                 | Some sealed =>
                     match CreateCertAuthority db (mkCA newid name pem sealed algo (NotAfter pem) CANext (ca_id ca) (Some (add_days now overlap)) (ca_warn ca) false (ca_outbound ca)) with
                     | Err e => (db, Some (Store e)) | Ok db => (db, None) end
                 end
             end
  end.

(** The leaf, signed again by [to] with its own key and names. *)
Definition resigned (now : Z) (to : CertAuthority) (toKey : string) (c : Certificate) : res CErr Certificate :=
  match Open (ct_key c) with
  | None => Err (OpenFailed (ct_name c))
  | Some leafKey =>
      match Renew now (ca_pem to) toKey (ct_pem c) leafKey (ct_validity c) (ct_usages c) with
      | None => Err (RenewFailed (ct_name c))
      | Some pem => if negb (Verify pem (ca_pem to)) then Err (VerifyFailed (ct_name c))
                    else Ok (mkCert (ct_id c) (ct_name c) (ct_env c) (ca_id to) (ct_sans c) pem (ct_chain c) (ct_key c) (ct_algo c) (ct_usages c) (NotAfter pem) (ct_validity c) (ct_renew c) "ok" "" (ct_protected c))
      end
  end.
Fixpoint resign_loop (now : Z) (to : CertAuthority) (toKey : string) (l : list Certificate) (w : Writes) (db : CDB) : CDB * Writes * option CErr :=
  match l with
  | [] => (db, w, None)
  | c :: l => match resigned now to toKey c with
              | Err e => (db, w, Some e)
              | Ok c => match spend w with
                        | None => (db, w, Some WriteLost)
                        | Some w => resign_loop now to toKey l w (UpdateCertificate db c)
                        end
              end
  end.
Definition resignLeaves (now : Z) (w : Writes) (db : CDB) (from to : CertAuthority) : CDB * Writes * option CErr :=
  match Open (ca_key to) with
  | None => (db, w, Some (OpenFailed (ca_name to)))
  | Some toKey => resign_loop now to toKey (CertificatesByCA db (ca_id from)) w db
  end.

Definition set_status (ca : CertAuthority) (st : CAStatus) (overlap : option Z) : CertAuthority :=
  mkCA (ca_id ca) (ca_name ca) (ca_pem ca) (ca_key ca) (ca_algo ca) (ca_notafter ca) st (ca_rotates ca) overlap (ca_warn ca) (ca_protected ca) (ca_outbound ca).
(** The writes of the promotion, in the order of the code. *)
Definition promote (db : CDB) (next : CertAuthority) (old : option CertAuthority) : list (CDB -> CDB) :=
  (fun db => UpdateCertAuthority db (set_status next CAActive (ca_overlap next))) ::
  match old with
  | None => []
  | Some old => (fun db => UpdateCertAuthority db (set_status old CARetired (ca_overlap next))) ::
      ReplaceCAInDeliveryBundles db (ca_id old) (ca_id next) ++ ReplaceCAInFleetBundles db (ca_id old) (ca_id next)
  end.
Fixpoint run_writes (l : list (CDB -> CDB)) (w : Writes) (db : CDB) : CDB * option CErr :=
  match l with
  | [] => (db, None)
  | f :: l => match spend w with None => (db, Some WriteLost) | Some w => run_writes l w (f db) end
  end.
(** Phase two: the leaves first, then the promotion. *)
Definition handleActivateCA (db : CDB) (id : string) (confirm : bool) (w : Writes) (now : Z) : CDB * option CErr :=
  match CertAuthorityByID db id with
  | Err e => (db, Some (Store e))
  | Ok next =>
      if negb (bool_decide (ca_status next = CANext)) then (db, Some NotStaged)
      else if negb confirm then (db, Some ConfirmRequired)
      else
        let old := match CertAuthorityByID db (ca_rotates next) with Ok o => Some o | Err _ => None end in
        let '(db, w, err) := match old with None => (db, w, None) | Some o => resignLeaves now w db o next end in
        match err with
        | Some e => (db, Some e)
        | None => run_writes (promote db next old) w db
        end
  end.

(** ** The trust bundle *)

Definition wanted (l : list CertAuthority) (sel : list string) (ca : CertAuthority) : bool :=
  match sel with
  | [] => true
  | _ => bool_decide (ca_id ca ∈ sel)
         || (negb (bool_decide (ca_rotates ca = "")) && bool_decide (ca_status ca = CANext) && bool_decide (ca_rotates ca ∈ sel))
         || existsb (fun o => bool_decide (ca_id o ∈ sel) && bool_decide (ca_rotates o = ca_id ca)) l
  end.
Definition in_force (now : Z) (ca : CertAuthority) : bool :=
  match ca_status ca with CARetired => match ca_overlap ca with None => false | Some t => now <? t end | _ => true end.
Definition trusted (db : CDB) (now : Z) (sel : list string) : list CertAuthority :=
  List.filter (fun ca => wanted (ListCertAuthorities db) sel ca && in_force now ca) (ListCertAuthorities db).
Definition trustBundle (db : CDB) (now : Z) (sel : list string) : option string := Bundle (map ca_pem (trusted db now sel)).

(** ** Leaves *)

Definition signingCA (db : CDB) (id : string) : res CErr (CertAuthority * string) :=
  match CertAuthorityByID db id with
  | Err _ => Err CAGone
  | Ok ca => if negb (CanSign ca) then Err CAHoldsNoKey
             else match Open (ca_key ca) with None => Err (OpenFailed (ca_name ca)) | Some k => Ok (ca, k) end
  end.

Record CertRequest := mkCertRequest {
  cr_name : string; cr_env : string; cr_ca : string; cr_sans : list string; cr_usages : list string; cr_algo : string; cr_validity : Z; cr_renew : Z;
  cr_pem : string; cr_chain : string; cr_key : string }.
(** A certificate is issued by any authority that holds its key. *)
Definition handleCreateCertificate (db : CDB) (environments : list string) (req : CertRequest) (id : string) (now : Z) : CDB * option CErr :=
  let name := strings.TrimSpace (cr_name req) in
  let create c := match CreateCertificate db c with Err e => (db, Some (Store e)) | Ok db => (db, None) end in
  if negb (certName name) then (db, Some BadName)
  else if negb (bool_decide (cr_env req = "")) && negb (bool_decide (cr_env req ∈ environments)) then (db, Some NoEnvironment)
  else if negb (bool_decide (strings.TrimSpace (cr_pem req) = "")) then
    if negb (ValidateLeafUpload (cr_pem req) (cr_chain req) (cr_key req)) then (db, Some BadCertificate)
    else match Seal (cr_key req) with
         | None => (db, Some SealFailed)
         | Some sealed => create (mkCert id name (cr_env req) "" (SANList (cr_pem req)) (cr_pem req) (cr_chain req) sealed (Describe (cr_pem req)) (UsagesOf (cr_pem req)) (NotAfter (cr_pem req))
                            (ValidDays (cr_pem req)) (cr_renew req) "" "" false)
         end
  else match CertAuthorityByID db (cr_ca req) with
  | Err _ => (db, Some ChooseCA)
  | Ok ca =>
      if negb (CanSign ca) then (db, Some TrustOnly)
      else match NormalizeSANs ParseIP url_parse (cr_sans req) with
      | Err e => (db, Some (BadSANs e))
      | Ok [] => (db, Some SANRequired)
      | Ok sans =>
          match NormalizeUsages (cr_usages req) with
          | None => (db, Some BadUsages)
          | Some usages =>
              let algo := or_default (cr_algo req) ECDSAP256 in
              let days := if cr_validity req <=? 0 then 398 else cr_validity req in
              match Open (ca_key ca) with
              | None => (db, Some (OpenFailed (ca_name ca)))
              | Some caKey => match Issue now (ca_pem ca) caKey sans algo days usages with
                  | None => (db, Some IssueFailed)
                  | Some (pem, key) => match Seal key with
                      | None => (db, Some SealFailed)
                      | Some sealed => create (mkCert id name (cr_env req) (ca_id ca) sans pem "" sealed algo usages (NotAfter pem) days (cr_renew req) "" "" false)
                      end
                  end
              end
          end
      end
  end.

(** Same key, same names, by the authority it has. *)
Definition renewed (db : CDB) (now : Z) (c : Certificate) : res CErr Certificate :=
  let* cak := signingCA db (ct_ca c) in
  let '(ca, caKey) := cak in
  match Open (ct_key c) with
  | None => Err (OpenFailed (ct_name c))
  | Some leafKey =>
      match Renew now (ca_pem ca) caKey (ct_pem c) leafKey (ct_validity c) (ct_usages c) with
      | None => Err (RenewFailed (ct_name c))
      | Some pem => if negb (Verify pem (ca_pem ca)) then Err (VerifyFailed (ct_name c))
                    else Ok (mkCert (ct_id c) (ct_name c) (ct_env c) (ct_ca c) (ct_sans c) pem (ct_chain c) (ct_key c) (ct_algo c) (ct_usages c) (NotAfter pem) (ct_validity c) (ct_renew c) "ok" "" (ct_protected c))
      end
  end.
(** With a fresh key: issued anew, without the verification. *)
Definition rekeyed (db : CDB) (now : Z) (c : Certificate) : res CErr Certificate :=
  let* cak := signingCA db (ct_ca c) in
  let '(ca, caKey) := cak in
  match Issue now (ca_pem ca) caKey (ct_sans c) (ct_algo c) (ct_validity c) (ct_usages c) with
  | None => Err IssueFailed
  | Some (pem, key) => match Seal key with
      | None => Err SealFailed
      | Some sealed => Ok (mkCert (ct_id c) (ct_name c) (ct_env c) (ct_ca c) (ct_sans c) pem (ct_chain c) sealed (ct_algo c) (ct_usages c) (NotAfter pem) (ct_validity c) (ct_renew c) "ok" "" (ct_protected c))
      end
  end.
Definition handleRenewCertificate (db : CDB) (id : string) (rotate_key : bool) (now : Z) : CDB * option CErr :=
  match CertificateByID db id with
  | Err e => (db, Some (Store e))
  | Ok c => if negb (Issued c) then (db, Some Uploaded)
            else match (if rotate_key then rekeyed db now c else renewed db now c) with
                 | Err e => (db, Some e) | Ok c => (UpdateCertificate db c, None) end
  end.
Definition handleDeleteCertificate (db : CDB) (id : string) : CDB * option CErr :=
  match CertificateByID db id with
  | Err e => (db, Some (Store e))
  | Ok c => if ct_protected c then (db, Some ProtectedRow)
            else if (0 <? CertificateInUse db (ct_id c))%nat then (db, Some InUse)
            else (DeleteCertificate db (ct_id c), None)
  end.

(** An uploaded certificate takes a new pair; an issued one is signed again, with
    its own key, when its names or usages change. *)
Definition reuploaded (c : Certificate) (req : CertRequest) (sealed : string) : Certificate :=
  mkCert (ct_id c) (ct_name c) (ct_env c) (ct_ca c) (SANList (cr_pem req)) (cr_pem req) (cr_chain req) sealed (Describe (cr_pem req)) (UsagesOf (cr_pem req)) (NotAfter (cr_pem req))
    (ct_validity c) (ct_renew c) "ok" "" (ct_protected c).
Definition edited (c : Certificate) (req : CertRequest) : Certificate :=
  mkCert (ct_id c) (ct_name c) (ct_env c) (ct_ca c) (ct_sans c) (ct_pem c) (ct_chain c) (ct_key c) (ct_algo c) (ct_usages c) (ct_notafter c)
    (if (0 <? cr_validity req) && Issued c then cr_validity req else ct_validity c) (if 0 <? cr_renew req then cr_renew req else ct_renew c) (ct_status c) (ct_error c) (ct_protected c).
Definition reissued (db : CDB) (now : Z) (c : Certificate) (sans : list string) (usages : string) : res CErr Certificate :=
  let* cak := signingCA db (ct_ca c) in
  let '(ca, caKey) := cak in
  match Open (ct_key c) with
  | None => Err (OpenFailed (ct_name c))
  | Some leafKey => match Reissue now (ca_pem ca) caKey leafKey sans (ct_validity c) usages with
      | None => Err IssueFailed
      | Some pem => Ok (mkCert (ct_id c) (ct_name c) (ct_env c) (ct_ca c) sans pem (ct_chain c) (ct_key c) (ct_algo c) usages (NotAfter pem) (ct_validity c) (ct_renew c) "ok" "" (ct_protected c))
      end
  end.
(** What the request asks to change: [None] when it names nothing new. *)
Definition new_sans (c : Certificate) (sans : list string) : option (list string) :=
  match sans with [] => None | _ => if bool_decide (sans = ct_sans c) then None else Some sans end.
Definition new_usages (c : Certificate) (asked : list string) : res CErr (option string) :=
  match asked with
  | [] => Ok None
  | _ => match NormalizeUsages asked with None => Err BadUsages | Some u => Ok (if bool_decide (u = ct_usages c) then None else Some u) end
  end.
Definition updated (db : CDB) (now : Z) (c : Certificate) (req : CertRequest) : res CErr Certificate :=
  if negb (bool_decide (cr_name req = "")) && negb (bool_decide (cr_name req = ct_name c)) then Err ImmutableName
  else if negb (bool_decide (cr_env req = "")) && negb (bool_decide (cr_env req = ct_env c)) then Err ImmutableEnv
  else
    let c := edited c req in
    let* c := (if bool_decide (strings.TrimSpace (cr_pem req) = "") then Ok c
               else if Issued c then Err IssuedCertificate
               else if negb (ValidateLeafUpload (cr_pem req) (cr_chain req) (cr_key req)) then Err BadCertificate
               else match Seal (cr_key req) with None => Err SealFailed | Some sealed => Ok (reuploaded c req sealed) end) in
    match NormalizeSANs ParseIP url_parse (cr_sans req) with
    | Err e => Err (BadSANs e)
    | Ok sans =>
        let* usages := new_usages c (cr_usages req) in
        match new_sans c sans, usages with
        | None, None => Ok c
        | sans, usages => if negb (Issued c) then Err Uploaded else reissued db now c (default (ct_sans c) sans) (default (ct_usages c) usages)
        end
    end.
Definition handleUpdateCertificate (db : CDB) (id : string) (req : CertRequest) (now : Z) : CDB * option CErr :=
  match CertificateByID db id with
  | Err e => (db, Some (Store e))
  | Ok c => match updated db now c req with Err e => (db, Some e) | Ok c => (UpdateCertificate db c, None) end
  end.

(** ** The worker *)

Inductive CEvent := CertRenewed (name : string) | CertRenewFailed (name stage : string) | CertExpiring (name stage : string) | CARotationDue (name : string) | CAOverdue (name day : string).
Record CWorld := mkCW { cw_db : CDB; cw_alarms : gmap string string; cw_events : list CEvent }.
Definition days_ns (days : Z) : Z := wrap64 (wrap64 (days * 24) * (3600 * 1000000000)).
Definition left_of (now : Z) (t : Z) : Z := sat64 (t - now).
Definition week : Z := 7 * rotation_day.

(** A failure is recorded on the row; the old certificate stays. *)
Definition with_error (c : Certificate) (text : string) : Certificate :=
  mkCert (ct_id c) (ct_name c) (ct_env c) (ct_ca c) (ct_sans c) (ct_pem c) (ct_chain c) (ct_key c) (ct_algo c) (ct_usages c) (ct_notafter c) (ct_validity c) (ct_renew c) "error" text (ct_protected c).
Context (cerr_text : CErr -> string).
Definition renewCertificate (db : CDB) (now : Z) (c : Certificate) : CDB * option CErr :=
  match renewed db now c with
  | Err e => (UpdateCertificate db (with_error c (cerr_text e)), Some e)
  | Ok c => (UpdateCertificate db c, None)
  end.
Definition expiry_stage (left : Z) : string := if left <=? 0 then "expired" else if left <=? week then "urgent" else "expiring".
Definition failure_stage (left : Z) : string := if left <=? week then "urgent" else "failing".
Definition sweep_one (now : Z) (st : CWorld) (c : Certificate) : CWorld :=
  let expiry := ct_id c +:+ "/expiry" in
  let left := left_of now (ct_notafter c) in
  if days_ns (ct_renew c) <? left then mkCW (cw_db st) (fire (cw_alarms st) expiry "").1 (cw_events st)
  else if Issued c then
    match renewCertificate (cw_db st) now c with
    | (db, Some _) => let '(seen, new) := fire (cw_alarms st) (ct_id c +:+ "/renewfail") (failure_stage left) in
                      mkCW db seen (cw_events st ++ if new then [CertRenewFailed (ct_name c) (failure_stage left)] else [])
    | (db, None) => mkCW db (fire (cw_alarms st) (ct_id c +:+ "/renewfail") "").1 (cw_events st ++ [CertRenewed (ct_name c)])
    end
  else let '(seen, new) := fire (cw_alarms st) expiry (expiry_stage left) in
       mkCW (cw_db st) seen (cw_events st ++ if new then [CertExpiring (ct_name c) (expiry_stage left)] else []).
Definition sweepCertificates (now : Z) (st : CWorld) : CWorld := fold_left (sweep_one now) (ListCertificates (cw_db st) true []) st.
Context (date : Z -> string).
Definition sweep_ca (l : list CertAuthority) (now : Z) (st : CWorld) (ca : CertAuthority) : CWorld :=
  match ca_status ca with
  | CAActive =>
      let key := ca_id ca +:+ "/rotate" in
      if days_ns (ca_warn ca) <? left_of now (ca_notafter ca) then mkCW (cw_db st) (fire (cw_alarms st) key "").1 (cw_events st)
      else if hasStagedSuccessor l (ca_id ca) then st
      else let '(seen, new) := fire (cw_alarms st) key "due" in mkCW (cw_db st) seen (cw_events st ++ if new then [CARotationDue (ca_name ca)] else [])
  | CANext =>
      if (match ca_overlap ca with Some t => now <? t | None => false end) then st
      else let '(seen, new) := fire (cw_alarms st) (ca_id ca +:+ "/overdue") (date now) in
           mkCW (cw_db st) seen (cw_events st ++ if new then [CAOverdue (ca_name ca) (date now)] else [])
  | CARetired => st
  end.
Definition sweepCAs (now : Z) (st : CWorld) : CWorld := let l := ListCertAuthorities (cw_db st) in fold_left (sweep_ca l now) l st.
End Handlers.
