(* ===== verification/Rotation.v ===== *)
(** * Rotation of an authority

    What the two phases of a rotation ([handleRotateCA], [handleActivateCA] of
    [internal/api/cert_handlers.go]) keep: which authority may be in which state,
    and that no bundle stops trusting the certificates it trusted. *)
From S2P Require Import Prelude GoStd Timestamps Sans Keyrings Certs.
Local Open Scope string_scope.
Local Open Scope list_scope.
Local Open Scope daffa_scope.
Local Open Scope Z_scope.

(** ** What holds of the tables *)

(** Every selection of roots, of the deliveries and of the fleet groups. *)
Definition selections (db : CDB) : list (list string) := map cd_bundle (cdels db) ++ map g_bundle (flat_map fd_groups (fdels db)).

(** A leaf may be signed by [id]: it is uploaded, or the authority is there —
    and not retired, where [live] asks for that. *)
Definition signer_ok (live : bool) (l : list CertAuthority) (id : string) : Prop := id = "" \/ exists ca, ca ∈ l /\ ca_id ca = id /\ (live = true -> ca_status ca <> CARetired).

Record cas_ok (past : bool) (l : list CertAuthority) : Prop := {
  ck_ids : NoDup (map ca_id l);
  ck_named : Forall (fun ca => ca_id ca <> "" /\ (ca_status ca = CANext -> ca_rotates ca <> "")) l;
  (** the root a staged one replaces is active, *)
  ck_staged : forall n o, n ∈ l -> o ∈ l -> ca_rotates n = ca_id o -> ca_status n = CANext -> ca_status o = CAActive;
  (** and retired once it was replaced, where [past] asks for that: an activation
      interrupted between the two writes leaves both active. *)
  ck_past : past = true -> forall n o, n ∈ l -> o ∈ l -> ca_rotates n = ca_id o -> ca_status n <> CANext -> ca_status o = CARetired;
  ck_one : forall n m, n ∈ l -> m ∈ l -> ca_status n = CANext -> ca_status m = CANext -> ca_rotates n = ca_rotates m -> ca_id n = ca_id m }.

Definition unstaged (l : list CertAuthority) (sel : list string) : Prop := forall ca, ca ∈ l -> ca_status ca = CANext -> ca_id ca ∉ sel.
(** What is selected exists and is not staged. *)
Definition selected (l : list CertAuthority) (sel : list string) : Prop := forall i, i ∈ sel -> exists ca, ca ∈ l /\ ca_id ca = i /\ ca_status ca <> CANext.

(** The tables are well formed; [past] and [live] add to it what holds of them as
    long as no promotion was interrupted, and no retired root issued. *)
Record pki_ok (past live : bool) (db : CDB) : Prop := {
  pk_cas : cas_ok past (cas db);
  pk_leaves : Forall (fun c => signer_ok live (cas db) (ct_ca c)) (leaves db);
  pk_certs : NoDup (map ct_id (leaves db));
  pk_sel : Forall (selected (cas db)) (selections db);
  pk_dels : NoDup (map cd_id (cdels db));
  pk_fleets : NoDup (map fd_id (fdels db));
  pk_groups : Forall (fun d => NoDup (map g_subdir (fd_groups d))) (fdels db) }.

(** A selection trusts an authority for good: it is in every bundle made of it. *)
Definition trusts (db : CDB) (sel : list string) (id : string) : Prop :=
  exists ca, ca ∈ cas db /\ ca_id ca = id /\ ca_status ca <> CARetired /\ wanted (ListCertAuthorities db) sel ca = true.

Lemma elem_ListCA db ca : ca ∈ ListCertAuthorities db <-> ca ∈ cas db.
Proof. unfold ListCertAuthorities. by rewrite ssort_perm. Qed.

Lemma trusted_elem db t sel ca : ca ∈ trusted db t sel <-> ca ∈ cas db /\ wanted (ListCertAuthorities db) sel ca = true /\ in_force t ca = true.
Proof. unfold trusted. rewrite elem_of_filter_b, andb_true_iff, elem_ListCA. done. Qed.

Lemma trusts_in_bundles db sel id : trusts db sel id -> forall t, exists ca, ca ∈ trusted db t sel /\ ca_id ca = id.
Proof. intros (ca & Hin & Hid & Hs & Hw) t. exists ca. split; [|done]. apply trusted_elem. split_and!; [done|done|]. unfold in_force. by destruct (ca_status ca). Qed.

(** What makes an authority wanted by a selection. *)
Definition lineage (l : list CertAuthority) (sel : list string) (ca : CertAuthority) : Prop :=
  sel = [] \/ ca_id ca ∈ sel \/ (ca_rotates ca <> "" /\ ca_status ca = CANext /\ ca_rotates ca ∈ sel) \/ (exists o, o ∈ l /\ ca_id o ∈ sel /\ ca_rotates o = ca_id ca).
Lemma wanted_lineage db sel ca : wanted (ListCertAuthorities db) sel ca = true <-> lineage (cas db) sel ca.
Proof.
  unfold wanted, lineage. destruct sel as [|i sel]; [split; [by left|done]|]. rewrite !orb_true_iff, !andb_true_iff, existsb_elem, negb_true_iff, !bool_decide_eq_true, bool_decide_eq_false.
  setoid_rewrite elem_ListCA. setoid_rewrite andb_true_iff. setoid_rewrite bool_decide_eq_true. intuition (naive_solver || discriminate).
Qed.

Lemma by_id_ok {A} (f : A -> string) id l x : by_id f id l = Ok x -> x ∈ l /\ f x = id.
Proof. unfold by_id. destruct (List.find _ l) as [y|] eqn:E; [|done]. intros [= ->]. apply List.find_some in E as [Hin E]. bd. split; [by apply list_elem_of_In|done]. Qed.
Lemma by_id_none {A} (f : A -> string) id l e : by_id f id l = Err e -> forall x, x ∈ l -> f x <> id.
Proof.
  unfold by_id. destruct (List.find _ l) as [y|] eqn:E; [done|]. intros _ x Hx Hf. pose proof (List.find_none _ _ E x (proj1 (list_elem_of_In _ _) Hx)) as H. simpl in H. by bd.
Qed.

(** ** Signing leaves again *)

Section Leaves.
Context `{Crypto}.

(** What a rewritten leaf table keeps: only the leaves [ids] may move to [to]. *)
Definition leaf_moved (to : string) (ids : list string) (db db' : CDB) : Prop :=
  cas db' = cas db /\ cdels db' = cdels db /\ fdels db' = fdels db /\ map ct_id (leaves db') = map ct_id (leaves db) /\
  forall c', c' ∈ leaves db' -> exists c, c ∈ leaves db /\ ct_id c = ct_id c' /\ (ct_ca c' = ct_ca c \/ (ct_ca c' = to /\ ct_id c ∈ ids)).

Lemma leaf_moved_refl to ids db : leaf_moved to ids db db.
Proof. split_and!; try done. intros c Hc. exists c. auto. Qed.
Lemma leaf_moved_trans to ids a b c : leaf_moved to ids a b -> leaf_moved to ids b c -> leaf_moved to ids a c.
Proof.
  intros (A1 & A2 & A3 & A5 & A4) (B1 & B2 & B3 & B5 & B4). split_and!; [congruence..|]. intros x (y & Hy & E1 & E2)%B4. destruct (A4 y Hy) as (z & Hz & F1 & F2).
  exists z. split_and!; [done|congruence|]. destruct E2 as [->|[-> Hi]]; [done|right]. split; [done|congruence].
Qed.

Lemma update_elem db c x' : x' ∈ leaves (UpdateCertificate db c) -> exists x, x ∈ leaves db /\ ct_id x' = ct_id x /\
  ((ct_id x <> ct_id c /\ x' = x) \/ (ct_id x = ct_id c /\ ct_ca x' = ct_ca c)).
Proof. unfold UpdateCertificate. simpl. intros (x & -> & Hx)%list_elem_of_fmap. exists x. case_bool_decide; naive_solver. Qed.
Lemma update_ids db c : map ct_id (leaves (UpdateCertificate db c)) = map ct_id (leaves db).
Proof. unfold UpdateCertificate. simpl. rewrite map_map. apply map_ext. intros x. by case_bool_decide. Qed.
Lemma update_moved to ids db c : ct_ca c = to -> ct_id c ∈ ids -> leaf_moved to ids db (UpdateCertificate db c).
Proof.
  intros Hc Hi. split_and!; [done..|apply update_ids|]. intros c' (x & Hx & Hid & [[_ ->]|[Hxc Hca]])%update_elem; exists x; [by auto|].
  split_and!; [done|done|right]. split; congruence.
Qed.

Lemma resigned_ok now to key c c' : resigned now to key c = Ok c' -> ct_id c' = ct_id c /\ ct_ca c' = ca_id to.
Proof. unfold resigned. intros E. repeat (case_match; try discriminate). by injection E as <-. Qed.

Lemma resign_loop_moved now to key ids l : (forall i, i ∈ map ct_id l -> i ∈ ids) -> forall w db, let '(db', _, e) := resign_loop now to key l w db in
  leaf_moved (ca_id to) ids db db' /\ (e = None -> forall c', c' ∈ leaves db' -> ct_id c' ∈ map ct_id l -> ct_ca c' = ca_id to).
Proof.
  induction l as [|c l IH]; intros Hids w db; simpl; [split; [apply leaf_moved_refl|by intros _ c' _ ?%not_elem_of_nil]|].
  destruct (resigned now to key c) as [c2|e] eqn:E; [|cbn; split; [apply leaf_moved_refl|done]]. apply resigned_ok in E as [Hid Hca].
  destruct (spend w) as [w1|]; [|cbn; split; [apply leaf_moved_refl|done]]. specialize (IH ltac:(intros i Hi; apply Hids; by right) w1 (UpdateCertificate db c2)).
  destruct (resign_loop now to key l w1 (UpdateCertificate db c2)) as [[db' w'] e]. destruct IH as [Hm Hall]. split.
  - eapply leaf_moved_trans; [apply update_moved; [done|]|done]. rewrite Hid. apply Hids. by left.
  - intros -> c' Hc' [Hc|Hin]%elem_of_cons; [|by apply Hall]. destruct Hm as (_ & _ & _ & _ & Hm). destruct (Hm c' Hc') as (x & Hx & Hxid & [->|[? _]]); [|done].
    destruct (update_elem _ _ _ Hx) as (y & _ & Hy & [[Hne _]|[_ ->]]); [congruence|done].
Qed.

(** Whatever happens, only leaves of the old authority move, to the new one;
    when nothing failed none is left. *)
Definition moved (from to : string) (db db' : CDB) : Prop :=
  cas db' = cas db /\ cdels db' = cdels db /\ fdels db' = fdels db /\ map ct_id (leaves db') = map ct_id (leaves db) /\
  forall c', c' ∈ leaves db' -> exists c, c ∈ leaves db /\ ct_id c = ct_id c' /\ (ct_ca c' = ct_ca c \/ (ct_ca c' = to /\ ct_ca c = from)).
Lemma resignLeaves_moved now w db from to : NoDup (map ct_id (leaves db)) -> let '(db', _, e) := resignLeaves now w db from to in
  moved (ca_id from) (ca_id to) db db' /\ (e = None -> ca_id from <> ca_id to -> forall c', c' ∈ leaves db' -> ct_ca c' <> ca_id from).
Proof.
  intros Hnd. set (ids := map ct_id (CertificatesByCA db (ca_id from))).
  assert (forall c, c ∈ leaves db -> ct_id c ∈ ids <-> ct_ca c = ca_id from) as Hids.
  { intros c Hc. unfold ids, CertificatesByCA. rewrite list_elem_of_fmap. setoid_rewrite ssort_perm. setoid_rewrite elem_of_filter_b. setoid_rewrite bool_decide_eq_true.
    split; [|eauto]. intros (x & E & Hx & Hca). by rewrite (NoDup_map_inj ct_id (leaves db) c x). }
  assert (forall db', leaf_moved (ca_id to) ids db db' -> moved (ca_id from) (ca_id to) db db') as Hw.
  { intros db' (? & ? & ? & ? & H4). split_and!; try done. intros c' (c & Hc & Hid & Hor)%H4. exists c. split_and!; [done|done|]. destruct Hor as [|[? Hi]]; [by left|right]. split; [done|by apply Hids]. }
  unfold resignLeaves. destruct (Open (ca_key to)) as [key|]; [|cbn; split; [apply Hw, leaf_moved_refl|done]].
  pose proof (resign_loop_moved now to key ids (CertificatesByCA db (ca_id from)) (fun i Hi => Hi) w db) as Hr. destruct (resign_loop _ _ _ _ w db) as [[db' w'] e]. destruct Hr as [Hm Hall]. split; [by apply Hw|].
  intros -> Hne c' Hc' Hca. destruct Hm as (_ & _ & _ & _ & Hm). destruct (Hm c' Hc') as (c & Hc & Hid & [E|[E _]]); [|congruence]. apply Hne. rewrite <- (Hall eq_refl c' Hc'); [done|].
  rewrite <- Hid. apply Hids; [done|congruence].
Qed.
End Leaves.

(** ** Selections follow the lineage *)

Section Swaps.
Context {K : Type} `{EqDecision K} (old new : string).
(** The writes of a replacement, seen at one row: the last that names its key. *)
Definition last_write (k : K) (P : list (K * list string)) (b : list string) : list string :=
  fold_left (fun b p => if bool_decide (p.1 = k) && bool_decide (old ∈ p.2) then swap old new p.2 else b) P b.

Lemma swap_absent b : (old ∉ b) -> swap old new b = b.
Proof.
  unfold swap. induction b as [|x b IH]; [done|]. intros H. simpl. rewrite bool_decide_eq_false_2 by (intros ->; apply H; by left). rewrite IH; [done|]. intros ?. apply H. by right.
Qed.
Lemma last_write_other k P b : (k ∉ map fst P) -> last_write k P b = b.
Proof.
  unfold last_write. revert b. induction P as [|p P IH]; intros b Hk; [done|]. simpl in *. rewrite bool_decide_eq_false_2 by (intros E; apply Hk; rewrite <- E; by left). simpl. apply IH. intros ?. apply Hk. by right.
Qed.
Lemma last_write_own k P b : NoDup (map fst P) -> (k, b) ∈ P -> last_write k P b = swap old new b.
Proof.
  unfold last_write. induction P as [|p P IH]; intros Hnd Hin; [by apply not_elem_of_nil in Hin|]. simpl in Hnd. apply NoDup_cons in Hnd as [Hp Hnd]. simpl. apply elem_of_cons in Hin as [<-|Hin].
  - cbn [fst snd]. rewrite (bool_decide_eq_true_2 (k = k)) by done. cbn [andb].
    pose proof (fun c => last_write_other k P c Hp) as Ho. unfold last_write in Ho. case_bool_decide; rewrite Ho; [done|by rewrite swap_absent].
  - rewrite (bool_decide_eq_false_2 (p.1 = k)); [by apply IH|]. intros E. apply Hp. rewrite E. apply list_elem_of_fmap. by exists (k, b).
Qed.
End Swaps.

#[local] Arguments last_write : simpl never.

Definition run_all (fs : list (CDB -> CDB)) (db : CDB) : CDB := fold_left (fun db f => f db) fs db.
Lemma run_all_app a b db : run_all (a ++ b) db = run_all b (run_all a db).
Proof. unfold run_all. by rewrite fold_left_app. Qed.

Definition del_keys (l : list CertDelivery) : list (string * list string) := map (fun d => (cd_id d, cd_bundle d)) l.
Lemma run_delivery_swaps old new L : forall db,
  let db' := run_all (flat_map (fun d => if bool_decide (old ∈ cd_bundle d) then [set_bundle (cd_id d) (swap old new (cd_bundle d))] else []) L) db in
  cas db' = cas db /\ leaves db' = leaves db /\ fdels db' = fdels db /\ cdels db' = map (fun x => with_bundle (last_write old new (cd_id x) (del_keys L) (cd_bundle x)) x) (cdels db).
Proof.
  induction L as [|d L IH]; intros db; cbv zeta.
  - simpl. split_and!; try done. unfold last_write. simpl. rewrite <- (map_id (cdels db)) at 1. apply map_ext. by intros [].
  - cbn [flat_map]. rewrite run_all_app. destruct (IH (run_all (if bool_decide (old ∈ cd_bundle d) then [set_bundle (cd_id d) (swap old new (cd_bundle d))] else []) db)) as (-> & -> & -> & ->).
    assert (forall x b, last_write old new (cd_id x) (del_keys (d :: L)) b = last_write old new (cd_id x) (del_keys L) (if bool_decide (cd_id d = cd_id x) && bool_decide (old ∈ cd_bundle d) then swap old new (cd_bundle d) else b)) as Hc by done.
    setoid_rewrite Hc. case_bool_decide as Hd; (split_and!; [done..|]); [simpl; rewrite map_map|]; apply map_ext; intros x.
    + rewrite andb_true_r. destruct (decide (cd_id x = cd_id d)) as [E|E]; [by rewrite (bool_decide_eq_true_2 (cd_id x = _)), (bool_decide_eq_true_2 (cd_id d = _)) by done|].
      by rewrite (bool_decide_eq_false_2 (cd_id x = _)), (bool_decide_eq_false_2 (cd_id d = _)) by congruence.
    + by rewrite andb_false_r.
Qed.

Definition group_keys (d : FleetDelivery) : list (string * string * list string) := map (fun g => (fd_id d, g_subdir g, g_bundle g)) (fd_groups d).
Definition fleet_keys (l : list FleetDelivery) : list (string * string * list string) := flat_map group_keys l.
Definition group_write (old new : string) (p : string * string * list string) : list (CDB -> CDB) :=
  if bool_decide (old ∈ p.2) then [set_group_bundle p.1.1 p.1.2 (swap old new p.2)] else [].
Definition rebundle (f : string -> list string -> list string) (d : FleetDelivery) : FleetDelivery :=
  with_groups (map (fun g => mkGroup (g_subdir g) (f (g_subdir g) (g_bundle g)) (g_certs g)) (fd_groups d)) d.

Lemma fleet_writes db old new : ReplaceCAInFleetBundles db old new = flat_map (group_write old new) (fleet_keys (AllFleetDeliveries db)).
Proof.
  unfold ReplaceCAInFleetBundles, fleet_keys. induction (AllFleetDeliveries db) as [|d l IH]; [done|]. cbn [flat_map]. rewrite flat_map_app, <- IH. f_equal.
  unfold group_keys. by rewrite flat_map_concat_map, flat_map_concat_map, map_map.
Qed.

Lemma run_group_swaps old new P : forall db, let db' := run_all (flat_map (group_write old new) P) db in
  cas db' = cas db /\ leaves db' = leaves db /\ cdels db' = cdels db /\ fdels db' = map (fun d => rebundle (fun s => last_write old new (fd_id d, s) P) d) (fdels db).
Proof.
  induction P as [|p P IH]; intros db; cbv zeta.
  - simpl. split_and!; try done. rewrite <- (map_id (fdels db)) at 1. apply map_ext. intros [id ? ? ? ? ? gs ? ? ? ? ?]. unfold rebundle, with_groups, last_write. simpl. f_equal.
    rewrite <- (map_id gs) at 1. apply map_ext. by intros [].
  - cbn [flat_map]. rewrite run_all_app. destruct (IH (run_all (group_write old new p) db)) as (-> & -> & -> & ->). unfold group_write.
    assert (forall k b, last_write old new k (p :: P) b = last_write old new k P (if bool_decide (p.1 = k) && bool_decide (old ∈ p.2) then swap old new p.2 else b)) as Hc by done.
    case_bool_decide as Hd; (split_and!; [done..|]); [simpl; rewrite map_map|]; apply map_ext; intros x; [|unfold rebundle; f_equal; apply map_ext; intros g; by rewrite Hc, andb_false_r].
    destruct p as [[i s] b]. cbn [fst snd] in *. case_bool_decide as E; unfold rebundle, with_groups; simpl; f_equal; rewrite ?map_map; apply map_ext; intros g; rewrite Hc; cbn [fst snd]; rewrite andb_true_r.
    + case_bool_decide as Es; simpl; [rewrite bool_decide_eq_true_2 by congruence|rewrite bool_decide_eq_false_2 by congruence]; done.
    + by rewrite bool_decide_eq_false_2 by congruence.
Qed.

Lemma fleet_keys_perm db : fleet_keys (AllFleetDeliveries db) ≡ₚ fleet_keys (fdels db).
Proof.
  unfold fleet_keys, AllFleetDeliveries, ListFleetDeliveries. rewrite (forallb_filter_id (fun d => true || bool_decide (fd_env d ∈ []))) by (by apply forallb_forall).
  assert (forall l, flat_map group_keys (map (attachFleetGroups db) l) ≡ₚ flat_map group_keys l) as H.
  { induction l as [|d l IH]; [done|]. simpl. rewrite IH. apply Permutation_app_tail. unfold group_keys, attachFleetGroups. simpl. rewrite map_map. simpl.
    apply (Permutation_map (fun g => (fd_id d, g_subdir g, g_bundle g))). apply ssort_perm. }
  rewrite H. apply Permutation_flat_map, ssort_perm.
Qed.
Lemma NoDup_fleet_keys l : NoDup (map fd_id l) -> Forall (fun d => NoDup (map g_subdir (fd_groups d))) l -> NoDup (map fst (fleet_keys l)).
Proof.
  induction l as [|d l IH]; intros Hd Hg; [constructor|]. simpl in Hd. apply NoDup_cons in Hd as [Hn Hd]. apply Forall_cons in Hg as [Hg0 Hg]. unfold fleet_keys in *. simpl. rewrite map_app.
  apply NoDup_app. split_and!; [|intros k Hk Hk'|by apply IH].
  - unfold group_keys. rewrite map_map. simpl. rewrite <- (map_map g_subdir (pair (fd_id d))). by apply (NoDup_fmap_2 (pair (fd_id d))).
  - apply list_elem_of_fmap in Hk as (p & -> & Hp). unfold group_keys in Hp. apply list_elem_of_fmap in Hp as (g & -> & _).
    apply list_elem_of_fmap in Hk' as (p & E & Hp). apply flat_map_elem in Hp as (d' & Hd' & Hp). apply list_elem_of_fmap in Hp as (g' & -> & _). cbn [fst] in E. injection E as E _.
    apply Hn. apply list_elem_of_fmap. exists d'. by split.
Qed.

(** What a complete replacement leaves: every selection with the new root for
    the old one, and nothing else changed. *)
Lemma replaced_selections db old new : NoDup (map cd_id (cdels db)) -> NoDup (map fd_id (fdels db)) -> Forall (fun d => NoDup (map g_subdir (fd_groups d))) (fdels db) ->
  let db' := run_all (ReplaceCAInDeliveryBundles db old new ++ ReplaceCAInFleetBundles db old new) db in
  cas db' = cas db /\ leaves db' = leaves db /\ cdels db' = map (fun d => with_bundle (swap old new (cd_bundle d)) d) (cdels db) /\
  fdels db' = map (rebundle (fun _ => swap old new)) (fdels db).
Proof.
  intros Hd Hf Hg. cbv zeta. rewrite run_all_app, fleet_writes.
  destruct (run_group_swaps old new (fleet_keys (AllFleetDeliveries db)) (run_all (ReplaceCAInDeliveryBundles db old new) db)) as (-> & -> & -> & ->).
  destruct (run_delivery_swaps old new (AllCertDeliveries db) db) as (E1 & E2 & E3 & E4). unfold ReplaceCAInDeliveryBundles. rewrite E1, E2, E3, E4. split_and!; [done|done| |].
  - apply map_ext_in. intros x Hx. apply list_elem_of_In in Hx. f_equal. assert (del_keys (AllCertDeliveries db) ≡ₚ del_keys (cdels db)) as Hp.
    { unfold del_keys, AllCertDeliveries, ListCertDeliveries. rewrite map_map. rewrite <- (map_ext (fun d => (cd_id d, cd_bundle d))) by done. rewrite ssort_perm.
      rewrite (forallb_filter_id (fun d => true || bool_decide (cd_env d ∈ []))) by (by apply forallb_forall). done. }
    apply last_write_own; [|rewrite Hp; apply list_elem_of_fmap; eauto]. rewrite (fmap_Permutation fst _ _ Hp). unfold del_keys. by rewrite <- list_fmap_compose.
  - apply map_ext_in. intros x Hx. apply list_elem_of_In in Hx. unfold rebundle. f_equal. apply map_ext_in. intros g Hin. apply list_elem_of_In in Hin. f_equal.
    pose proof (fleet_keys_perm db) as Hp. apply last_write_own.
    + rewrite (fmap_Permutation fst _ _ Hp). by apply NoDup_fleet_keys.
    + rewrite Hp. unfold fleet_keys. apply flat_map_elem. exists x. split; [done|]. apply list_elem_of_fmap. eauto.
Qed.

(** ** The promotion *)

Section Strength.
Context {past live : bool}.

Lemma run_writes_prefix fs : forall w db, let '(db', e) := run_writes fs w db in
  exists k, (k <= length fs)%nat /\ db' = run_all (take k fs) db /\ (e = None -> k = length fs) /\ (e = None \/ e = Some WriteLost).
Proof.
  induction fs as [|f fs IH]; intros w db; simpl; [exists 0%nat; auto|]. destruct (spend w) as [w1|]; [|exists 0%nat; split_and!; [lia|done|done|by right]].
  specialize (IH w1 (f db)). destruct (run_writes fs w1 (f db)) as [db' e]. destruct IH as (k & Hk & -> & He & Ho). exists (S k). split_and!; [lia|done| |done]. intros E. by rewrite He.
Qed.

(** The roots after the promotion. *)
Definition promoted (next : CertAuthority) (ca : CertAuthority) : CertAuthority :=
  if bool_decide (ca_id ca = ca_id next) then set_status ca CAActive (ca_overlap ca)
  else if bool_decide (ca_id ca = ca_rotates next) then set_status ca CARetired (ca_overlap next) else ca.
Lemma promoted_id next ca : ca_id (promoted next ca) = ca_id ca.
Proof. unfold promoted. repeat case_bool_decide; done. Qed.
Lemma promoted_rotates next ca : ca_rotates (promoted next ca) = ca_rotates ca.
Proof. unfold promoted. repeat case_bool_decide; done. Qed.
Lemma set_status_id ca : set_status ca (ca_status ca) (ca_overlap ca) = ca.
Proof. by destruct ca. Qed.

Section Promotion.
Context (l : list CertAuthority) (next : CertAuthority) (Hok : cas_ok past l) (Hnext : next ∈ l) (Hst : ca_status next = CANext).

Lemma same_ca x y : x ∈ l -> y ∈ l -> ca_id x = ca_id y -> x = y.
Proof. by apply NoDup_map_inj, Hok. Qed.
Lemma next_not_old : ca_id next <> ca_rotates next.
Proof. intros E. pose proof (ck_staged _ l Hok next next Hnext Hnext (eq_sym E) Hst). congruence. Qed.
Lemma no_successor o : past = true -> o ∈ l -> ca_rotates o <> ca_id next.
Proof.
  intros Hpast Ho E. destruct (decide (ca_status o = CANext)) as [Hs|Hs].
  - pose proof (ck_staged _ l Hok o next Ho Hnext E Hs). congruence.
  - pose proof (ck_past _ l Hok Hpast o next Ho Hnext E Hs). congruence.
Qed.
Lemma promoted_staged x : x ∈ l -> ca_status (promoted next x) = CANext -> promoted next x = x /\ ca_status x = CANext /\ ca_id x <> ca_id next.
Proof. intros Hx. unfold promoted. repeat case_bool_decide; done. Qed.
Lemma promoted_active o : o ∈ l -> ca_status o = CAActive -> ca_id o <> ca_rotates next -> promoted next o = o.
Proof. intros Ho Hs Hne. unfold promoted. case_bool_decide as E; [|by rewrite bool_decide_eq_false_2]. rewrite (same_ca o next) in Hs by done. congruence. Qed.
Lemma promoted_retired o : o ∈ l -> ca_status o = CARetired -> ca_status (promoted next o) = CARetired.
Proof. intros Ho Hs. unfold promoted. case_bool_decide as E; [rewrite (same_ca o next) in Hs by done; congruence|]. by case_bool_decide. Qed.

Lemma promotion_ok : cas_ok past (map (promoted next) l).
Proof.
  destruct Hok as [Hi Hn Hs Hp H1]. constructor.
  - rewrite map_map. rewrite (map_ext _ ca_id); [done|apply promoted_id].
  - apply Forall_forall. intros x' (x & -> & Hx)%list_elem_of_fmap. rewrite promoted_id, promoted_rotates. rewrite Forall_forall in Hn. destruct (Hn x Hx) as [Ha Hb]. split; [done|].
    intros (E & Hx2 & _)%promoted_staged; [|done]. auto.
  - intros n' o' (n & -> & Hn')%list_elem_of_fmap (o & -> & Ho)%list_elem_of_fmap. rewrite promoted_rotates, promoted_id. intros E (En & Hns & Hne)%promoted_staged; [|done].
    pose proof (Hs n o Hn' Ho E Hns) as Hact. rewrite promoted_active; [done|done|done|]. intros E2. apply Hne, H1; [done|done|done|done|congruence].
  - intros Hpast n' o' (n & -> & Hn')%list_elem_of_fmap (o & -> & Ho)%list_elem_of_fmap. rewrite promoted_rotates, promoted_id. intros E Hns.
    destruct (decide (ca_id n = ca_id next)) as [En|En].
    + rewrite (same_ca n next) in E by done. unfold promoted. rewrite bool_decide_eq_false_2 by (rewrite <- E; intros ?; by apply next_not_old). by rewrite bool_decide_eq_true_2.
    + apply promoted_retired; [done|]. apply (Hp Hpast n o Hn' Ho E). intros Hnn. apply Hns. unfold promoted. rewrite bool_decide_eq_false_2 by done. rewrite bool_decide_eq_false_2; [done|].
      intros En2. pose proof (Hs next n Hnext Hn' (eq_sym En2) Hst). congruence.
  - intros n' m' (n & -> & Hn')%list_elem_of_fmap (m & -> & Hm)%list_elem_of_fmap (-> & ? & _)%promoted_staged (-> & ? & _)%promoted_staged; auto.
Qed.

(** The two writes are that promotion. *)
Lemma promote_cas (old : option CertAuthority) db : cas db = l -> (forall o, old = Some o -> o ∈ l /\ ca_id o = ca_rotates next) ->
  (old = None -> forall x, x ∈ l -> ca_id x <> ca_rotates next) ->
  cas (match old with None => UpdateCertAuthority db (set_status next CAActive (ca_overlap next))
       | Some o => UpdateCertAuthority (UpdateCertAuthority db (set_status next CAActive (ca_overlap next))) (set_status o CARetired (ca_overlap next)) end) = map (promoted next) l.
Proof.
  intros Hc Ho Hnone. destruct old as [o|]; unfold UpdateCertAuthority, ca_row; simpl; rewrite Hc, ?map_map; apply map_ext_in; intros x Hx; apply list_elem_of_In in Hx; unfold promoted, set_status.
  - destruct (Ho o eq_refl) as [Hol Eo]. rewrite <- Eo. destruct (decide (ca_id x = ca_id next)) as [E|E].
    + rewrite (same_ca x next) by done. rewrite (bool_decide_eq_true_2 (ca_id next = ca_id next)) by done. simpl. rewrite Eo. rewrite bool_decide_eq_false_2; [done|]. apply next_not_old.
    + rewrite (bool_decide_eq_false_2 (ca_id x = ca_id next)) by done. case_bool_decide as E2; [|done]. by rewrite (same_ca x o).
  - case_bool_decide as E; simpl; [by rewrite (same_ca x next)|]. rewrite bool_decide_eq_false_2; [done|by apply Hnone].
Qed.
End Promotion.

(** ** Activation *)

Section Activation.
Context `{Crypto}.

Definition old_of (db : CDB) (next : CertAuthority) : option CertAuthority := match CertAuthorityByID db (ca_rotates next) with Ok o => Some o | Err _ => None end.
Lemma old_of_some db next o : old_of db next = Some o -> o ∈ cas db /\ ca_id o = ca_rotates next.
Proof. unfold old_of, CertAuthorityByID. destruct (by_id _ _ _) as [x|] eqn:E; [|done]. intros [= ->]. by apply by_id_ok in E. Qed.
Lemma old_of_none db next : old_of db next = None -> forall x, x ∈ cas db -> ca_id x <> ca_rotates next.
Proof. unfold old_of, CertAuthorityByID. destruct (by_id _ _ _) as [x|e] eqn:E; [done|]. intros _. by eapply by_id_none. Qed.

(** An activation does nothing, or moves leaves and then does the first [k]
    writes of the promotion; it begins them only when no leaf is left. *)
Record activation (db db' : CDB) (e : option CErr) (next : CertAuthority) (db1 : CDB) (k : nat) : Prop := {
  av_next : next ∈ cas db /\ ca_status next = CANext;
  av_moved : moved (ca_rotates next) (ca_id next) db db1;
  av_writes : db' = run_all (take k (promote db1 next (old_of db next))) db1;
  av_done : e = None -> k = length (promote db1 next (old_of db next));
  av_left : (0 < k)%nat -> forall c, c ∈ leaves db1 -> ct_ca c <> ca_rotates next }.

Lemma moved_refl a b db : moved a b db db.
Proof. split_and!; try done. intros c Hc. exists c. auto. Qed.

Lemma activate_cases db id confirm w now db' e : pki_ok past live db -> handleActivateCA db id confirm w now = (db', e) ->
  (db' = db /\ e <> None) \/ exists next db1 k, ca_id next = id /\ activation db db' e next db1 k.
Proof.
  intros Hok. unfold handleActivateCA. destruct (CertAuthorityByID db id) as [next|] eqn:En; [|intros [= <- <-]; by left].
  apply by_id_ok in En as [Hin Hid]. case_bool_decide as Hs; [|intros [= <- <-]; by left]. cbn [negb]. destruct confirm; [|intros [= <- <-]; by left]. cbn [negb].
  fold (old_of db next). destruct (old_of db next) as [o|] eqn:Eo.
  - destruct (old_of_some _ _ _ Eo) as [Ho Eoid]. pose proof (resignLeaves_moved now w db o next (pk_certs _ _ _ Hok)) as Hm. destruct (resignLeaves now w db o next) as [[db1 w1] e1]. destruct Hm as [Hm Hleft].
    rewrite Eoid in Hm, Hleft. destruct e1 as [e1|].
    + intros [= <- <-]. right. exists next, db1, 0%nat. split; [done|]. constructor; try done. lia.
    + pose proof (run_writes_prefix (promote db1 next (Some o)) w1 db1) as Hr. intros Hrun. rewrite Hrun in Hr. destruct Hr as (k & _ & -> & Hk & _). right. exists next, db1, k. split; [done|].
      constructor; rewrite ?Eo; try done. intros _. apply Hleft; [done|]. intros E. eapply (next_not_old (cas db) next); [apply Hok|done|done|done].
  - pose proof (run_writes_prefix (promote db next None) w db) as Hr. intros Hrun. rewrite Hrun in Hr. destruct Hr as (k & _ & -> & Hk & _). right. exists next, db, k. split; [done|].
    constructor; rewrite ?Eo; try done; [apply moved_refl|]. intros _ c Hc E. pose proof (pk_leaves _ _ _ Hok) as Hl. rewrite Forall_forall in Hl. destruct (Hl c Hc) as [E0|(ca & Hca & Eca & _)].
    + pose proof (ck_named _ _ (pk_cas _ _ _ Hok)) as Hn. rewrite Forall_forall in Hn. destruct (Hn _ Hin) as [_ Hr]. apply (Hr Hs). congruence.
    + eapply old_of_none; [exact Eo|exact Hca|congruence].
Qed.

(** What the tables are when the activation stopped before the promotion, and
    when it went through. *)
Lemma promote_done db db' next db1 k : pki_ok past live db -> activation db db' None next db1 k ->
  cas db' = map (promoted next) (cas db) /\ leaves db' = leaves db1 /\
  (map cd_id (cdels db') = map cd_id (cdels db)) /\ (map fd_id (fdels db') = map fd_id (fdels db)) /\ Forall (fun d => NoDup (map g_subdir (fd_groups d))) (fdels db') /\
  selections db' = map (fun sel => match old_of db next with None => sel | Some _ => swap (ca_rotates next) (ca_id next) sel end) (selections db).
Proof.
  intros Hok [[Hn Hs] (Ec & Ed & Ef & _ & _) Hw Hk _]. rewrite (Hk eq_refl), firstn_all in Hw. subst db'.
  pose proof (promote_cas (cas db) next (pk_cas _ _ _ Hok) Hn Hs (old_of db next) db1 Ec (old_of_some db next) (old_of_none db next)) as Hc.
  unfold promote. destruct (old_of db next) as [o|] eqn:Eo; [|simpl in *; rewrite Hc, Ed, Ef; split_and!; try done; [apply Hok|unfold selections; simpl; rewrite Ed, Ef; by rewrite map_id]].
  destruct (old_of_some _ _ _ Eo) as [_ Eoid]. set (db2 := UpdateCertAuthority _ _) in Hc.
  pose proof (replaced_selections db2 (ca_id o) (ca_id next)) as Hr. cbv zeta in Hr.
  assert (cdels db2 = cdels db) as Ed2 by done. assert (fdels db2 = fdels db) as Ef2 by done. assert (leaves db2 = leaves db1) as El2 by done.
  assert (run_all ((fun db => UpdateCertAuthority db (set_status next CAActive (ca_overlap next))) :: (fun db => UpdateCertAuthority db (set_status o CARetired (ca_overlap next))) ::
    ReplaceCAInDeliveryBundles db1 (ca_id o) (ca_id next) ++ ReplaceCAInFleetBundles db1 (ca_id o) (ca_id next)) db1 =
    run_all (ReplaceCAInDeliveryBundles db2 (ca_id o) (ca_id next) ++ ReplaceCAInFleetBundles db2 (ca_id o) (ca_id next)) db2) as -> by done.
  rewrite Ed2, Ef2 in Hr. destruct (Hr (pk_dels _ _ _ Hok) (pk_fleets _ _ _ Hok) (pk_groups _ _ _ Hok)) as (H1 & H2 & H3 & H4). clearbody db2. rewrite H1, H2, H3, H4. split_and!; [done|done| | | |].
  - rewrite map_map. by apply map_ext.
  - rewrite map_map. by apply map_ext.
  - apply Forall_map. eapply Forall_impl; [apply Hok|]. intros d Hd. unfold compose, rebundle. simpl. by rewrite map_map.
  - unfold selections. rewrite H3, H4, map_app, map_map, !flat_map_concat_map. rewrite <- Eoid. f_equal; [by rewrite map_map|].
    rewrite map_map, !concat_map, !map_map. f_equal. apply map_ext. intros d. unfold rebundle. simpl. by rewrite !map_map.
Qed.

(** The writes of a promotion leave the leaves alone, and those that follow the
    second the roots as well. *)
Lemma run_all_keeps {A} (g : CDB -> A) fs : Forall (fun f => forall db, g (f db) = g db) fs -> forall k db, g (run_all (take k fs) db) = g db.
Proof. intros Hf. induction Hf as [|f fs Hf0 _ IH]; intros [|k] db; try done. simpl. by rewrite IH, Hf0. Qed.
Lemma replace_keeps {A} (g : CDB -> A) db old new : (forall i ids db, g (set_bundle i ids db) = g db) -> (forall i sd ids db, g (set_group_bundle i sd ids db) = g db) ->
  Forall (fun f => forall db, g (f db) = g db) (ReplaceCAInDeliveryBundles db old new ++ ReplaceCAInFleetBundles db old new).
Proof.
  intros H1 H2. apply Forall_forall. intros f [Hf|Hf]%elem_of_app; apply flat_map_elem in Hf as (d & _ & Hf).
  - case_bool_decide; [|by apply not_elem_of_nil in Hf]. apply list_elem_of_singleton in Hf as ->. auto.
  - apply flat_map_elem in Hf as (x & _ & Hf). case_bool_decide; [|by apply not_elem_of_nil in Hf]. apply list_elem_of_singleton in Hf as ->. auto.
Qed.
Lemma promote_leaves db db1 next k : leaves (run_all (take k (promote db1 next (old_of db next))) db1) = leaves db1.
Proof.
  apply (run_all_keeps leaves). unfold promote. constructor; [done|]. destruct (old_of db next); [|done]. constructor; [done|]. by apply replace_keeps.
Qed.

Lemma begun_roots db db1 next k : cas_ok past (cas db) -> next ∈ cas db -> ca_status next = CANext -> cas db1 = cas db -> (0 < k)%nat ->
  exists g, cas (run_all (take k (promote db1 next (old_of db next))) db1) = map g (cas db) /\
  forall x, x ∈ cas db -> ca_id (g x) = ca_id x /\ ca_rotates (g x) = ca_rotates x /\ (ca_id x = ca_id next -> ca_status (g x) = CAActive).
Proof.
  intros Hok Hn Hs Ec Hk. destruct k as [|k]; [lia|]. unfold promote. set (r1 := ca_row (set_status next CAActive (ca_overlap next))).
  assert (cas (UpdateCertAuthority db1 (set_status next CAActive (ca_overlap next))) = map r1 (cas db)) as E1 by (unfold UpdateCertAuthority; simpl; by rewrite Ec).
  assert (forall x, x ∈ cas db -> ca_id (r1 x) = ca_id x /\ ca_rotates (r1 x) = ca_rotates x /\ (ca_id x = ca_id next -> ca_status (r1 x) = CAActive)) as H1.
  { intros x Hx. unfold r1, ca_row, set_status. simpl. case_bool_decide as E; [|done]. by rewrite (same_ca (cas db) Hok x next). }
  destruct (old_of db next) as [o|] eqn:Eo; [|exists r1; by destruct k].
  destruct k as [|k]; [by exists r1|]. exists (fun x => ca_row (set_status o CARetired (ca_overlap next)) (r1 x)). destruct (old_of_some _ _ _ Eo) as [Ho Eoid]. split.
  - cbn [firstn]. unfold run_all. cbn [fold_left]. fold (run_all (take k (ReplaceCAInDeliveryBundles db1 (ca_id o) (ca_id next) ++ ReplaceCAInFleetBundles db1 (ca_id o) (ca_id next)))).
    rewrite (run_all_keeps cas) by (by apply replace_keeps). unfold UpdateCertAuthority in *. simpl in *. by rewrite E1, map_map.
  - intros x Hx. destruct (H1 x Hx) as (A & B & C). unfold ca_row. simpl. case_bool_decide as E; simpl; [|done]. rewrite A in E. rewrite (same_ca (cas db) Hok x o) by done. split_and!; [by rewrite <- (same_ca (cas db) Hok x o)|done|].
    intros E2. exfalso. apply (next_not_old (cas db) next Hok Hn Hs). congruence.
Qed.
End Activation.

(** ** What each operation keeps *)

Lemma signer_mono l l' id : (forall ca, ca ∈ l -> ca_id ca = id -> exists ca', ca' ∈ l' /\ ca_id ca' = id /\ (ca_status ca <> CARetired -> ca_status ca' <> CARetired)) ->
  signer_ok live l id -> signer_ok live l' id.
Proof. intros Hl [->|(ca & Hin & Hid & Hs)]; [by left|right]. destruct (Hl ca Hin Hid) as (ca' & ? & ? & ?). exists ca'. auto. Qed.

(** Rows that keep what the invariant looks at. *)
Definition same_shape (g : CertAuthority -> CertAuthority) (l : list CertAuthority) : Prop :=
  forall x, x ∈ l -> ca_id (g x) = ca_id x /\ ca_status (g x) = ca_status x /\ ca_rotates (g x) = ca_rotates x.
Lemma cas_ok_map g l : same_shape g l -> cas_ok past l -> cas_ok past (map g l).
Proof.
  intros Hg [Hi Hn Hs Hp H1]. constructor.
  - rewrite map_map. rewrite (map_ext_in _ ca_id); [done|]. intros x Hx. by apply Hg, list_elem_of_In.
  - apply Forall_forall. intros x' (x & -> & Hx)%list_elem_of_fmap. destruct (Hg x Hx) as (-> & -> & ->). rewrite Forall_forall in Hn. by apply Hn.
  - intros n' o' (n & -> & Hx)%list_elem_of_fmap (o & -> & Ho)%list_elem_of_fmap. destruct (Hg n Hx) as (A1 & A2 & A3), (Hg o Ho) as (B1 & B2 & B3). rewrite ?A1, ?A2, ?A3, ?B1, ?B2, ?B3. by apply Hs.
  - intros Hpast n' o' (n & -> & Hx)%list_elem_of_fmap (o & -> & Ho)%list_elem_of_fmap. destruct (Hg n Hx) as (A1 & A2 & A3), (Hg o Ho) as (B1 & B2 & B3). rewrite ?A1, ?A2, ?A3, ?B1, ?B2, ?B3. by apply Hp.
  - intros n' o' (n & -> & Hx)%list_elem_of_fmap (o & -> & Ho)%list_elem_of_fmap. destruct (Hg n Hx) as (A1 & A2 & A3), (Hg o Ho) as (B1 & B2 & B3). rewrite ?A1, ?A2, ?A3, ?B1, ?B2, ?B3. by apply H1.
Qed.
Lemma cas_ok_filter p l : cas_ok past l -> cas_ok past (List.filter p l).
Proof.
  intros [Hi Hn Hs Hp H1]. constructor; [by apply NoDup_map_filter| |intros n o [? _]%elem_of_filter_b [? _]%elem_of_filter_b|intros Hpast n o [? _]%elem_of_filter_b [? _]%elem_of_filter_b|intros n o [? _]%elem_of_filter_b [? _]%elem_of_filter_b]; [|by apply Hs|by apply Hp|by apply H1].
  apply Forall_forall. intros x [Hx _]%elem_of_filter_b. rewrite Forall_forall in Hn. by apply Hn.
Qed.

(** The ids the store draws are new. *)
Definition fresh_ca (db : CDB) (id : string) : Prop :=
  id <> "" /\ (id ∉ map ca_id (cas db)) /\ (id ∉ map ca_rotates (cas db)) /\ Forall (fun sel : list string => id ∉ sel) (selections db).

Lemma cas_ok_add db x : cas_ok past (cas db) -> fresh_ca db (ca_id x) ->
  (ca_status x = CAActive /\ ca_rotates x = "") \/ (ca_status x = CANext /\ exists o, o ∈ cas db /\ ca_id o = ca_rotates x /\ ca_status o = CAActive /\ hasStagedSuccessor (cas db) (ca_id o) = false) ->
  cas_ok past (cas db ++ [x]).
Proof.
  intros [Hi Hn Hs Hp H1] (Hne & Hid & Hrot & _) Hx. assert (forall y, y ∈ cas db -> ca_id y <> ca_id x) as Hneq by (intros y Hy E; apply Hid; rewrite <- E; by apply list_elem_of_fmap; exists y).
  assert (forall y, y ∈ cas db -> ca_rotates y <> ca_id x) as Hnrot by (intros y Hy E; apply Hrot; rewrite <- E; by apply list_elem_of_fmap; exists y).
  assert (ca_rotates x <> ca_id x) as Hself by (destruct Hx as [[_ E]|(_ & o & Ho & E & _)]; [congruence|rewrite <- E; by apply Hneq]).
  rewrite Forall_forall in Hn. constructor.
  - rewrite map_app. apply NoDup_app. split_and!; [done| |apply NoDup_singleton]. intros y Hy Hy'. apply list_elem_of_singleton in Hy' as ->. done.
  - apply Forall_app. split; [by apply Forall_forall|]. constructor; [|constructor]. split; [done|]. intros Es. destruct Hx as [[? _]|(_ & o & Ho & E & _)]; [congruence|]. rewrite <- E. by apply Hn.
  - intros n o [Hn1| ->%list_elem_of_singleton]%elem_of_app [Ho1| ->%list_elem_of_singleton]%elem_of_app E Es; [by apply (Hs n o)|by apply Hnrot in E| |done].
    destruct Hx as [[? _]|(_ & o2 & Ho2 & E2 & Ea & _)]; [congruence|]. rewrite (NoDup_map_inj ca_id _ o o2 Hi Ho1 Ho2); [done|congruence].
  - intros Hpast n o [Hn1| ->%list_elem_of_singleton]%elem_of_app [Ho1| ->%list_elem_of_singleton]%elem_of_app E Es; [by apply (Hp Hpast n o)|by apply Hnrot in E| |done].
    destruct Hx as [[_ Er]|[? _]]; [|done]. exfalso. apply (proj1 (Hn o Ho1)). congruence.
  - assert (forall n, n ∈ cas db -> ca_status n = CANext -> ca_rotates n = ca_rotates x -> ca_status x = CANext -> False) as Hone.
    { intros n Hn1 En Er Ex. destruct Hx as [[? _]|(_ & o & Ho & Eo & _ & Hh)]; [congruence|]. unfold hasStagedSuccessor in Hh. rewrite existsb_false in Hh. specialize (Hh n Hn1). apply andb_false_iff in Hh as [Hh|Hh]; bd; congruence. }
    intros n m [Hn1| ->%list_elem_of_singleton]%elem_of_app [Hm1| ->%list_elem_of_singleton]%elem_of_app En Em Er; [by apply H1|by destruct (Hone n)|by destruct (Hone m)|done].
Qed.

Section Frames.
Context (db : CDB) (Hok : pki_ok past live db).

(** Changes of the roots alone, of the leaves alone, of the deliveries alone. *)
Lemma pki_cas l : cas_ok past l -> (forall ca, ca ∈ cas db -> ca_status ca <> CANext -> (exists ca', ca' ∈ l /\ ca_id ca' = ca_id ca /\ ca_status ca' <> CANext) \/ Forall (fun sel : list string => ca_id ca ∉ sel) (selections db)) ->
  (forall c, c ∈ leaves db -> signer_ok live (cas db) (ct_ca c) -> signer_ok live l (ct_ca c)) -> pki_ok past live (set_cas db l).
Proof.
  intros Hl Hst Hsig. destruct Hok as [Hc Hle Hcer Hsel Hd Hf Hg]. constructor; simpl; try done.
  - apply Forall_forall. intros c Hin. rewrite Forall_forall in Hle. apply (Hsig c Hin), (Hle c Hin).
  - apply Forall_forall. intros sel Hin i Hi. rewrite Forall_forall in Hsel. destruct (Hsel sel Hin i Hi) as (ca & Hca & <- & Hs). destruct (Hst ca Hca Hs) as [?|Hno]; [done|].
    rewrite Forall_forall in Hno. by apply Hno in Hi.
Qed.
Lemma pki_leaves ls : NoDup (map ct_id ls) -> Forall (fun c => signer_ok live (cas db) (ct_ca c)) ls -> pki_ok past live (set_leaves db ls).
Proof. destruct Hok. by constructor. Qed.
Lemma pki_update c : signer_ok live (cas db) (ct_ca c) -> pki_ok past live (UpdateCertificate db c).
Proof.
  intros Hs. apply pki_leaves.
  - pose proof (update_ids db c) as E. unfold UpdateCertificate in E. simpl in E. rewrite E. apply Hok.
  - apply Forall_map. eapply Forall_impl; [apply Hok|]. intros x Hx. unfold compose. by case_bool_decide.
Qed.
Lemma pki_cdels ls : NoDup (map cd_id ls) -> Forall (fun d => selected (cas db) (cd_bundle d)) ls -> pki_ok past live (set_cdels db ls).
Proof.
  intros Hnd Hun. destruct Hok as [Hc Hle Hcer Hsel Hd Hf Hg]. constructor; simpl; try done. unfold selections in *. simpl. apply Forall_app in Hsel as [_ Hsel]. apply Forall_app. split; [|done]. by apply Forall_map.
Qed.
Lemma pki_fdels ls : NoDup (map fd_id ls) -> Forall (fun d => NoDup (map g_subdir (fd_groups d)) /\ Forall (fun g => selected (cas db) (g_bundle g)) (fd_groups d)) ls -> pki_ok past live (set_fdels db ls).
Proof.
  intros Hnd Hun. destruct Hok as [Hc Hle Hcer Hsel Hd Hf Hg]. constructor; simpl; try done.
  - unfold selections in *. simpl. apply Forall_app in Hsel as [Hsel _]. apply Forall_app. split; [done|]. apply Forall_map. apply Forall_forall. intros g (d & Hdin & Hgin)%flat_map_elem.
    rewrite Forall_forall in Hun. destruct (Hun d Hdin) as [_ Hu]. rewrite Forall_forall in Hu. by apply Hu.
  - eapply Forall_impl; [exact Hun|]. by intros d [? _].
Qed.
Lemma sel_cdels : Forall (fun d => selected (cas db) (cd_bundle d)) (cdels db).
Proof. pose proof (pk_sel _ _ _ Hok) as H. unfold selections in H. apply Forall_app in H as [H _]. exact (proj1 (Forall_map _ _ _) H). Qed.
Lemma sel_fdels : Forall (fun d => NoDup (map g_subdir (fd_groups d)) /\ Forall (fun g => selected (cas db) (g_bundle g)) (fd_groups d)) (fdels db).
Proof.
  pose proof (pk_sel _ _ _ Hok) as H. unfold selections in H. apply Forall_app in H as [_ H]. apply (proj1 (Forall_map _ _ _)) in H. rewrite Forall_forall in H. apply Forall_forall. intros d Hd.
  pose proof (pk_groups _ _ _ Hok) as Hg. rewrite Forall_forall in Hg. split; [by apply Hg|]. apply Forall_forall. intros g Hgin. apply H. apply flat_map_elem. eauto.
Qed.
End Frames.

Lemma selected_unstaged l sel : cas_ok past l -> selected l sel -> unstaged l sel.
Proof. intros Hok Hsel ca Hca Hs Hin. destruct (Hsel _ Hin) as (x & Hx & E & Hn). by rewrite (same_ca l Hok x ca) in Hn. Qed.
End Strength.

(** ** A promotion that was interrupted *)

Section Interrupted.
Context `{Crypto} {live : bool}.
#[local] Abbreviation pki_weak := (pki_ok false live).

Lemma run_all_inv (P : CDB -> Prop) fs : Forall (fun f => forall db, P db -> P (f db)) fs -> forall k db, P db -> P (run_all (take k fs) db).
Proof. intros Hf. induction Hf as [|f fs Hf0 _ IH]; intros [|k] db Hp; try done. simpl. by apply IH, Hf0. Qed.

(** One row of the roots rewritten: it keeps its id and what it replaces. *)
Section Row.
Context (db : CDB) (Hok : pki_weak db) (x : CertAuthority) (st : CAStatus) (overlap : option Z) (Hx : x ∈ cas db) (Hst : st <> CANext).
#[local] Abbreviation row := (ca_row (set_status x st overlap)).
Lemma row_at y : y ∈ cas db -> row y = if bool_decide (ca_id y = ca_id x) then set_status y st overlap else y.
Proof. intros Hy. unfold ca_row. simpl. case_bool_decide as E; [|done]. by rewrite (same_ca (cas db) (pk_cas _ _ _ Hok) y x). Qed.
Lemma row_keeps y : y ∈ cas db -> ca_id (row y) = ca_id y /\ ca_rotates (row y) = ca_rotates y /\ (ca_status (row y) = CANext -> row y = y /\ ca_id y <> ca_id x).
Proof. intros Hy. rewrite (row_at y Hy). case_bool_decide; done. Qed.

Lemma row_ok : (forall n, n ∈ cas db -> ca_status n = CANext -> ca_rotates n = ca_id x -> ca_id n = ca_id x \/ st = CAActive) -> (forall c, c ∈ leaves db -> ct_ca c = ca_id x -> st <> CARetired) ->
  pki_weak (UpdateCertAuthority db (set_status x st overlap)).
Proof.
  intros Hstaged Hleaf. pose proof (pk_cas _ _ _ Hok) as [Hi Hn Hs _ H1]. apply (pki_cas db Hok).
  - constructor; [| | |done|].
    + rewrite map_map. rewrite (map_ext_in _ ca_id); [done|]. intros y Hy. by apply row_keeps, list_elem_of_In.
    + apply Forall_forall. intros y' (y & -> & Hy)%list_elem_of_fmap. destruct (row_keeps y Hy) as (-> & -> & E). rewrite Forall_forall in Hn. destruct (Hn y Hy) as [? Hb]. split; [done|].
      intros Es. destruct (E Es) as [E2 _]. rewrite E2 in Es. auto.
    + intros n' o' (n & -> & Hn')%list_elem_of_fmap (o & -> & Ho)%list_elem_of_fmap E Es. destruct (row_keeps n Hn') as (_ & A & B), (row_keeps o Ho) as (C & _ & _). destruct (B Es) as [B1 B2]. rewrite B1 in Es, E. rewrite C in E.
      rewrite (row_at o Ho). case_bool_decide as Eo; [|by apply (Hs n o)]. simpl. destruct (Hstaged n Hn' Es ltac:(congruence)); [done|done].
    + intros n' m' (n & -> & Hn')%list_elem_of_fmap (m & -> & Hm)%list_elem_of_fmap En Em. destruct (row_keeps n Hn') as (_ & _ & [A _]%(fun f => f En)), (row_keeps m Hm) as (_ & _ & [B _]%(fun f => f Em)). rewrite A in *. rewrite B in *. by apply H1.
  - intros y Hy Hys. left. exists (row y). destruct (row_keeps y Hy) as (-> & _ & E). split_and!; [by apply list_elem_of_fmap; exists y|done|]. intros Es. destruct (E Es) as [E2 _]. by rewrite E2 in Es.
  - intros c Hc. apply signer_mono. intros y Hy Hid. exists (row y). destruct (row_keeps y Hy) as (-> & _ & _). split_and!; [by apply list_elem_of_fmap; exists y|done|].
    rewrite (row_at y Hy). case_bool_decide as E; [|done]. simpl. intros _. apply (Hleaf c Hc). congruence.
Qed.
End Row.

(** The selections are rewritten once the successor is a root to select. *)
Lemma swapped_selected l old new sel : (exists ca, ca ∈ l /\ ca_id ca = new /\ ca_status ca <> CANext) -> selected l sel -> selected l (swap old new sel).
Proof. intros Hnew Hs i. unfold swap. intros (j & -> & Hj)%list_elem_of_fmap. case_bool_decide; [done|by apply Hs]. Qed.

Lemma listed_selections db : (forall d, d ∈ AllCertDeliveries db -> cd_bundle d ∈ selections db) /\ (forall d g, d ∈ AllFleetDeliveries db -> g ∈ fd_groups d -> g_bundle g ∈ selections db).
Proof.
  unfold AllCertDeliveries, ListCertDeliveries, AllFleetDeliveries, ListFleetDeliveries, selections. split.
  - intros d' (d & -> & Hd)%list_elem_of_fmap. rewrite ssort_perm in Hd. apply elem_of_filter_b in Hd as [Hd _]. apply elem_of_app. left. apply list_elem_of_fmap. by exists d.
  - intros d' g' (d & -> & Hd)%list_elem_of_fmap Hg. rewrite ssort_perm in Hd. apply elem_of_filter_b in Hd as [Hd _]. unfold attachFleetGroups in Hg. simpl in Hg. apply list_elem_of_fmap in Hg as (g & -> & Hg). rewrite ssort_perm in Hg.
    apply elem_of_app. right. apply list_elem_of_fmap. exists g. split; [done|]. apply flat_map_elem. eauto.
Qed.
Lemma replace_ok db0 l old new : Forall (selected l) (selections db0) -> (exists ca, ca ∈ l /\ ca_id ca = new /\ ca_status ca <> CANext) ->
  Forall (fun f => forall db, pki_weak db /\ cas db = l -> pki_weak (f db) /\ cas (f db) = l) (ReplaceCAInDeliveryBundles db0 old new ++ ReplaceCAInFleetBundles db0 old new).
Proof.
  intros Hsel Hnew. rewrite Forall_forall in Hsel. destruct (listed_selections db0) as [Hd0 Hf0]. apply Forall_forall. intros f [Hf|Hf]%elem_of_app; apply flat_map_elem in Hf as (d & Hd & Hf).
  - case_bool_decide; [|by apply not_elem_of_nil in Hf]. apply list_elem_of_singleton in Hf as ->. intros db [Hp Ec]. split; [|done]. apply (pki_cdels db Hp).
    + rewrite map_map. rewrite (map_ext _ cd_id); [apply Hp|]. intros x. by case_bool_decide.
    + apply Forall_map. eapply Forall_impl; [exact (sel_cdels db Hp)|]. intros x Hx. unfold compose. case_bool_decide; [|done]. rewrite Ec. simpl. apply swapped_selected; [done|]. by apply Hsel, Hd0.
  - apply flat_map_elem in Hf as (g & Hg & Hf). case_bool_decide; [|by apply not_elem_of_nil in Hf]. apply list_elem_of_singleton in Hf as ->. intros db [Hp Ec]. split; [|done]. apply (pki_fdels db Hp).
    + rewrite map_map. rewrite (map_ext _ fd_id); [apply Hp|]. intros x. by case_bool_decide.
    + apply Forall_map. eapply Forall_impl; [exact (sel_fdels db Hp)|]. intros x [Hx Hxs]. unfold compose. case_bool_decide; [|done]. simpl. split.
      * rewrite map_map. rewrite (map_ext _ g_subdir); [done|]. intros y. by case_bool_decide.
      * apply Forall_map. eapply Forall_impl; [exact Hxs|]. intros y Hy. unfold compose. case_bool_decide; [|done]. rewrite Ec. simpl. apply swapped_selected; [done|]. by eapply Hsel, Hf0.
Qed.

(** However far the promotion came, the tables are well formed. *)
Lemma promote_prefix_ok db next k : pki_weak db -> next ∈ cas db -> ca_status next = CANext -> (forall c, c ∈ leaves db -> ct_ca c <> ca_rotates next) -> pki_weak (run_all (take k (promote db next (old_of db next))) db).
Proof.
  intros Hok Hn Hs Hleft. pose proof (pk_cas _ _ _ Hok) as Hcas. destruct k as [|k]; [done|]. unfold promote. set (db1 := UpdateCertAuthority db (set_status next CAActive (ca_overlap next))).
  assert (pki_weak db1) as H1 by (apply row_ok; [done|done|done|by intros; right|done]).
  assert (forall fs, run_all (take (S k) ((fun db => UpdateCertAuthority db (set_status next CAActive (ca_overlap next))) :: fs)) db = run_all (take k fs) db1) as -> by done.
  destruct (old_of db next) as [o|] eqn:Eo; [|by destruct k]. destruct k as [|k]; [done|]. destruct (old_of_some _ _ _ Eo) as [Ho Eoid].
  pose proof (next_not_old (cas db) next Hcas Hn Hs) as Hne.
  assert (o ∈ cas db1) as Ho1.
  { unfold db1, UpdateCertAuthority. simpl. apply list_elem_of_fmap. exists o. split; [|done]. unfold ca_row. simpl. by rewrite bool_decide_eq_false_2 by congruence. }
  set (db2 := UpdateCertAuthority db1 (set_status o CARetired (ca_overlap next))).
  assert (pki_weak db2) as H2.
  { apply row_ok; [done|done|done| |intros c Hc E; exfalso; apply (Hleft c Hc); congruence]. intros n' (n & -> & Hnn)%list_elem_of_fmap Es E. exfalso.
    destruct (row_keeps db Hok next CAActive (ca_overlap next) Hn ltac:(done) n Hnn) as (_ & _ & A). destruct (A Es) as [B C]. rewrite B in Es, E. apply C. apply (ck_one _ _ Hcas n next); [done..|congruence]. }
  assert (forall fs, run_all (take (S k) ((fun db => UpdateCertAuthority db (set_status o CARetired (ca_overlap next))) :: fs)) db1 = run_all (take k fs) db2) as -> by done.
  apply (run_all_inv (fun d => pki_weak d /\ cas d = cas db2)); [|done]. apply replace_ok.
  - change (selections db) with (selections db2). apply H2.
  - set (y := set_status next CAActive (ca_overlap next)). assert (y ∈ cas db1) as Hy.
    { unfold db1, UpdateCertAuthority. simpl. apply list_elem_of_fmap. exists next. split; [|done]. by rewrite (row_at db Hok next CAActive (ca_overlap next) Hn next Hn), bool_decide_eq_true_2. }
    exists y. split_and!; [|done|done]. unfold db2, UpdateCertAuthority. simpl. apply list_elem_of_fmap. exists y. split; [|done]. unfold ca_row. simpl. by rewrite bool_decide_eq_false_2 by congruence.
Qed.
End Interrupted.
