(* ===== verification/CertDeliveries.v ===== *)
(** * Deliveries of certificates: what may share a volume, what is written

    Models the handlers and the reconcilers of [internal/api/cert_delivery.go]
    and [internal/api/fleet_delivery.go] over the tables of [Certs] and the loop
    of [Mirror]. SHA-256 is a parameter, applied to the bytes the code hashes. *)
From S2P Require Import Prelude GoStd Paths Timestamps Sans Keyrings Volumes Mirror Certs.
From stdpp Require Import pretty.
Local Open Scope string_scope.
Local Open Scope list_scope.
Local Open Scope daffa_scope.
Local Open Scope Z_scope.

(** ** Requests *)

Inductive DelErr := NoSuchCert (id : string) | WrongEnvironment (name : string) | NameCollision (name : string) | MultipleDefaults | EnvNotConnected | BadVolume
| BadMountPath | NoSuchBundleCA (id : string) | StagedCA (name : string) | TraefikTaken | VolumeTaken | DelStore (e : KErr) | DelProtected
| NoGroups | BadSubdir (s : string) | DuplicateSubdir (s : string) | CertInTwoGroups (id : string)
| BadBundle | CertGone | KeyLocked | DeliveryFailed (nodes : list string).

(** Where the consumer mounts the volume: absolute, not the root. *)
Definition cleanMountPath (p : string) : option string :=
  let p := strings.TrimSpace p in
  if bool_decide (p = "") then Some DefaultCertMountPath
  else if negb (strings.HasPrefix p "/") then None
  else let clean := path.Clean p in
       if bool_decide (clean = "/") then None
       else if existsb (fun seg => bool_decide (seg = "..")) (strings.Split clean slash) then None
       else Some clean.

(** A selection names authorities that exist and are not staged. *)
Fixpoint check_bundle (db : CDB) (ids : list string) : res DelErr unit :=
  match ids with
  | [] => Ok tt
  | id :: ids => match CertAuthorityByID db id with
                 | Err _ => Err (NoSuchBundleCA id)
                 | Ok ca => if bool_decide (ca_status ca = CANext) then Err (StagedCA (ca_name ca)) else check_bundle db ids
                 end
  end.

(** The loop over the asked certificates: [seen] ids, [names] taken, [defaults]. *)
Fixpoint resolve_go (db : CDB) (env : string) (l : list DeliveryCert) (seen names : list string) (defaults : nat) (out : list DeliveryCert) : res DelErr (list DeliveryCert) :=
  match l with
  | [] => if (1 <? defaults)%nat then Err MultipleDefaults else Ok out
  | rc :: l =>
      if bool_decide (dc_cert rc = "") || bool_decide (dc_cert rc ∈ seen) then resolve_go db env l seen names defaults out
      else match CertificateByID db (dc_cert rc) with
           | Err _ => Err (NoSuchCert (dc_cert rc))
           | Ok c =>
               if negb (bool_decide (ct_env c = "")) && negb (bool_decide (ct_env c = env)) then Err (WrongEnvironment (ct_name c))
               else if bool_decide (ct_name c ∈ names) then Err (NameCollision (ct_name c))
               else resolve_go db env l (dc_cert rc :: seen) (ct_name c :: names) (if dc_default rc then S defaults else defaults) (out ++ [rc])
           end
  end.
Definition resolveDeliveryCerts (db : CDB) (env : string) (l : list DeliveryCert) : res DelErr (list DeliveryCert) := resolve_go db env l [] [] 0 [].

Definition refuseSecondTraefikDelivery (db : CDB) (d : CertDelivery) : option DelErr :=
  if negb (cd_traefik d) then None
  else match TraefikDeliveryForVolume db (cd_env d) (cd_volume d) with
       | Err _ => None
       | Ok other => if bool_decide (cd_id other = cd_id d) then None else Some TraefikTaken
       end.

(** What the request asks for; [id] and [now] are the store's. *)
Record DeliveryRequest := mkDR {
  dr_env : string; dr_certs : list DeliveryCert; dr_volume : string; dr_mount : string; dr_uid : Z; dr_gid : Z; dr_traefik : bool; dr_restart : string; dr_bundle : list string }.
Definition handleCreateCertDelivery (connected : string -> bool) (db : CDB) (req : DeliveryRequest) (id : string) (now : Z) : CDB * option DelErr :=
  if negb (connected (dr_env req)) then (db, Some EnvNotConnected)
  else match resolveDeliveryCerts db (dr_env req) (dr_certs req) with
  | Err e => (db, Some e)
  | Ok certs =>
      if negb (bool_decide (dr_volume req = "")) && negb (certName (dr_volume req)) then (db, Some BadVolume)
      else match cleanMountPath (dr_mount req) with
      | None => (db, Some BadMountPath)
      | Some mount => match check_bundle db (dr_bundle req) with
          | Err e => (db, Some e)
          | Ok _ =>
              let d := mkCD id (dr_env req) certs (dr_volume req) mount (dr_uid req) (dr_gid req) (dr_traefik req) (strings.TrimSpace (dr_restart req)) (dr_bundle req) "" None "" "" now false in
              match refuseSecondTraefikDelivery db d with
              | Some e => (db, Some e)
              | None => match FleetDeliveryForVolume db (cd_env d) (cd_volume d) with
                  | Ok _ => (db, Some VolumeTaken)
                  | Err _ => match CreateCertDelivery db d with Err e => (db, Some (DelStore e)) | Ok db => (db, None) end
                  end
              end
          end
      end
  end.
Definition handleUpdateCertDelivery (db : CDB) (id : string) (req : DeliveryRequest) : CDB * option DelErr :=
  match CertDeliveryByID db id with
  | Err e => (db, Some (DelStore e))
  | Ok d => match resolveDeliveryCerts db (cd_env d) (dr_certs req) with
      | Err e => (db, Some e)
      | Ok certs => match cleanMountPath (dr_mount req) with
          | None => (db, Some BadMountPath)
          | Some mount => match check_bundle db (dr_bundle req) with
              | Err e => (db, Some e)
              | Ok _ =>
                  let d := mkCD (cd_id d) (cd_env d) certs (cd_volume d) mount (dr_uid req) (dr_gid req) (dr_traefik req) (strings.TrimSpace (dr_restart req)) (dr_bundle req)
                             (cd_hash d) (cd_synced d) (cd_status d) (cd_error d) (cd_created d) (cd_protected d) in
                  match refuseSecondTraefikDelivery db d with
                  | Some e => (db, Some e)
                  | None => match UpdateCertDelivery db d with Err e => (db, Some (DelStore e)) | Ok db => (db, None) end
                  end
              end
          end
      end
  end.
Definition handleDeleteCertDelivery (db : CDB) (id : string) : CDB * option DelErr :=
  match CertDeliveryByID db id with
  | Err e => (db, Some (DelStore e))
  | Ok d => if cd_protected d then (db, Some DelProtected) else (DeleteCertDelivery db (cd_id d), None)
  end.

(** [^[a-z0-9]([a-z0-9-]{0,62}[a-z0-9])?$] *)
Definition slug_edge (c : ascii) : bool := is_lower c || is_digit c.
Definition fleetSubdir (s : string) : bool :=
  match s with
  | "" => false
  | String c r => slug_edge c && strings.all_chars (fun c => slug_edge c || bool_decide (c = "-"%char)) r && slug_edge (last_char c r) && (String.length s <=? 64)%nat
  end.

(** One group's certificates: [placed] ids of other groups, [names] of this. *)
Fixpoint group_go (db : CDB) (l seen placed names out : list string) : res DelErr (list string * list string) :=
  match l with
  | [] => Ok (out, placed)
  | id :: l =>
      if bool_decide (id = "") || bool_decide (id ∈ seen) then group_go db l seen placed names out
      else if bool_decide (id ∈ placed) then Err (CertInTwoGroups id)
      else match CertificateByID db id with
           | Err _ => Err (NoSuchCert id)
           | Ok c => if bool_decide (ct_name c ∈ names) then Err (NameCollision (ct_name c))
                     else group_go db l (id :: seen) (id :: placed) (ct_name c :: names) (out ++ [id])
           end
  end.
Fixpoint groups_go (db : CDB) (l : list FleetGroup) (subdirs placed : list string) (out : list FleetGroup) : res DelErr (list FleetGroup) :=
  match l with
  | [] => Ok out
  | g :: l =>
      if negb (bool_decide (g_subdir g = "")) && negb (fleetSubdir (g_subdir g)) then Err (BadSubdir (g_subdir g))
      else if bool_decide (g_subdir g ∈ subdirs) then Err (DuplicateSubdir (g_subdir g))
      else let* _ := check_bundle db (g_bundle g) in
           let* r := group_go db (g_certs g) [] placed [] [] in
           groups_go db l (g_subdir g :: subdirs) r.2 (out ++ [mkGroup (g_subdir g) (g_bundle g) r.1])
  end.
Definition resolveFleetGroups (db : CDB) (l : list FleetGroup) : res DelErr (list FleetGroup) :=
  match l with [] => Err NoGroups | _ => groups_go db l [] [] [] end.

Definition refuseFleetVolumeClash (db : CDB) (id env volume : string) : option DelErr :=
  match DeliveriesForVolume db env volume with
  | _ :: _ => Some VolumeTaken
  | [] => match FleetDeliveryForVolume db env volume with
          | Err _ => None
          | Ok other => if bool_decide (fd_id other = id) then None else Some VolumeTaken
          end
  end.
Record FleetRequest := mkFR { fr_env : string; fr_volume : string; fr_uid : Z; fr_gid : Z; fr_restart : string; fr_groups : list FleetGroup }.
Definition handleCreateFleetDelivery (connected : string -> bool) (db : CDB) (req : FleetRequest) (id : string) (now : Z) : CDB * option DelErr :=
  if negb (connected (fr_env req)) then (db, Some EnvNotConnected)
  else if negb (bool_decide (fr_volume req = "")) && negb (certName (fr_volume req)) then (db, Some BadVolume)
  else match resolveFleetGroups db (fr_groups req) with
  | Err e => (db, Some e)
  | Ok groups =>
      let d := mkFD id (fr_env req) (or_default (fr_volume req) "daffa-fleet-certs") (fr_uid req) (fr_gid req) (strings.TrimSpace (fr_restart req)) groups "" None "" "" now in
      match refuseFleetVolumeClash db (fd_id d) (fd_env d) (fd_volume d) with
      | Some e => (db, Some e)
      | None => match CreateFleetDelivery db d with Err e => (db, Some (DelStore e)) | Ok db => (db, None) end
      end
  end.
Definition handleUpdateFleetDelivery (db : CDB) (id : string) (req : FleetRequest) : CDB * option DelErr :=
  match FleetDeliveryByID db id with
  | Err e => (db, Some (DelStore e))
  | Ok d => match resolveFleetGroups db (fr_groups req) with
      | Err e => (db, Some e)
      | Ok groups =>
          match UpdateFleetDelivery db (mkFD (fd_id d) (fd_env d) (fd_volume d) (fr_uid req) (fr_gid req) (strings.TrimSpace (fr_restart req)) groups
                  (fd_hash d) (fd_synced d) (fd_status d) (fd_error d) (fd_created d)) with Err e => (db, Some (DelStore e)) | Ok db => (db, None) end
      end
  end.
Definition handleDeleteFleetDelivery (db : CDB) (id : string) : CDB * option DelErr :=
  match FleetDeliveryByID db id with Err e => (db, Some (DelStore e)) | Ok d => (DeleteFleetDelivery db (fd_id d), None) end.

(** ** The names a delivery owns, which a volume source must leave alone *)

Definition cert_files (db : CDB) (prefix id : string) : list string :=
  match CertificateByID db id with Err _ => [] | Ok c => [prefix +:+ ct_name c +:+ ".crt"; prefix +:+ ct_name c +:+ ".key"] end.
Definition delivery_owned (db : CDB) (env volume : string) : list string :=
  match TraefikDeliveryForVolume db env volume with
  | Err _ => []
  | Ok d => ["tls.yml"; "ca-bundle.crt"; ManifestCerts] ++ flat_map (fun dc => cert_files db "" (dc_cert dc)) (cd_certs d)
  end.
Definition refuseDeliveryOwnedNames (db : CDB) (env volume : string) (names : list string) : option string :=
  List.find (fun n => bool_decide (n ∈ delivery_owned db env volume)) names.
Definition group_prefix (g : FleetGroup) : string := if bool_decide (g_subdir g = "") then "" else g_subdir g +:+ "/".
Definition fleetOwnedNames (db : CDB) (env volume : string) : list string :=
  match FleetDeliveryForVolume db env volume with
  | Err _ => []
  | Ok d => ManifestFleet :: flat_map (fun g => (group_prefix g +:+ "ca-bundle.crt") :: flat_map (cert_files db (group_prefix g)) (g_certs g)) (fd_groups d)
  end.
Definition refuseFleetOwnedNames (db : CDB) (env volume : string) (names : list string) : option string :=
  List.find (fun n => bool_decide (n ∈ fleetOwnedNames db env volume)) names.

(** ** What is delivered *)

Abbreviation Files := (gmap string string).
Definition sorted_names (m : Files) : list string := ssort String.ltb (map fst (map_to_list m)).
Definition nul_byte : string := String (ascii_of_nat 0) "".
Definition pretty_len (s : string) : string := pretty (N.of_nat (String.length s)).
Definition hashed_entry (m : Files) (n : string) : string := let data := default "" (m !! n) in n +:+ nul_byte +:+ pretty_len data +:+ nul_byte +:+ data.
Definition owner_line (uid gid : Z) : string := "uid=" +:+ pretty uid +:+ " gid=" +:+ pretty gid.
(** The bytes that are hashed: every file in the order of its name, then the owner. *)
Definition hashed (m : Files) (uid gid : Z) : string := foldr (fun n s => hashed_entry m n +:+ s) (owner_line uid gid) (sorted_names m).

Definition pair_lines (first mount n : string) : string := line (first +:+ "certFile: " +:+ mount +:+ "/" +:+ n +:+ ".crt") +:+ line ("      keyFile: " +:+ mount +:+ "/" +:+ n +:+ ".key").
Definition traefikFragment (mount : string) (names : list string) (default_name : string) : string :=
  line "# Written by Daffa. Do not edit: it is rewritten on every renewal." +:+ line "tls:" +:+
  (if bool_decide (default_name = "") then "" else
     line "  stores:" +:+ line "    default:" +:+ line "      defaultCertificate:" +:+
     line ("        certFile: " +:+ mount +:+ "/" +:+ default_name +:+ ".crt") +:+ line ("        keyFile: " +:+ mount +:+ "/" +:+ default_name +:+ ".key")) +:+
  line "  certificates:" +:+ foldr (fun n s => pair_lines "    - " mount n +:+ s) "" names.

Section Sync.
Context `{Crypto} (sha256_hex : string -> string).
(** The connected environments and their nodes. *)
Context (nodes : string -> option (list string)) (del_text : DelErr -> string).
Definition contentHash (m : Files) (uid gid : Z) : string := sha256_hex (hashed m uid gid).

Definition put_pair (prefix : string) (c : Certificate) (key : string) (m : Files) : Files :=
  <[prefix +:+ ct_name c +:+ ".key" := key]> (<[prefix +:+ ct_name c +:+ ".crt" := ct_pem c +:+ ct_chain c]> m).
Definition put_bundle (prefix bundle : string) (m : Files) : Files := if bool_decide (bundle = "") then m else <[prefix +:+ "ca-bundle.crt" := bundle]> m.
(** The carried certificates: the files, the names in order, the default. *)
Fixpoint carry (db : CDB) (env : string) (l : list DeliveryCert) (m : Files) (carried : list string) (dflt : string) : res DelErr (Files * list string * string) :=
  match l with
  | [] => Ok (m, carried, dflt)
  | dc :: l =>
      match CertificateByID db (dc_cert dc) with
      | Err _ => Err CertGone
      | Ok c =>
          if negb (bool_decide (ct_env c = "")) && negb (bool_decide (ct_env c = env)) then Err (WrongEnvironment (ct_name c))
          else match Open (ct_key c) with
               | None => Err KeyLocked
               | Some key => carry db env l (put_pair "" c key m) (carried ++ [ct_name c]) (if dc_default dc then ct_name c else dflt)
               end
      end
  end.
Definition deliveryFiles (db : CDB) (now : Z) (d : CertDelivery) : res DelErr Files :=
  match trustBundle db now (cd_bundle d) with
  | None => Err BadBundle
  | Some bundle =>
      let* r := carry db (cd_env d) (cd_certs d) (put_bundle "" bundle ∅) [] "" in
      let '(m, carried, dflt) := r in
      Ok (if cd_traefik d && negb (bool_decide (carried = [])) then <["tls.yml" := traefikFragment (cd_mount d) carried dflt]> m else m)
  end.

(** One group of a fleet delivery: its pairs, the authorities that issued them. *)
Fixpoint carry_group (db : CDB) (prefix : string) (l names derived : list string) (m : Files) : res DelErr (Files * list string) :=
  match l with
  | [] => Ok (m, derived)
  | id :: l =>
      match CertificateByID db id with
      | Err _ => Err CertGone
      | Ok c =>
          if bool_decide (ct_name c ∈ names) then Err (NameCollision (ct_name c))
          else match Open (ct_key c) with
               | None => Err KeyLocked
               | Some key => carry_group db prefix l (ct_name c :: names) (if bool_decide (ct_ca c = "") || bool_decide (ct_ca c ∈ derived) then derived else ct_ca c :: derived) (put_pair prefix c key m)
               end
      end
  end.
Definition group_files (db : CDB) (now : Z) (g : FleetGroup) (m : Files) : res DelErr Files :=
  if negb (bool_decide (g_subdir g = "")) && negb (fleetSubdir (g_subdir g)) then Err (BadSubdir (g_subdir g))
  else
    let* r := carry_group db (group_prefix g) (g_certs g) [] [] m in
    match (match g_bundle g with [] => ssort String.ltb r.2 | sel => sel end) with
    | [] => Ok r.1
    | sel => match trustBundle db now sel with None => Err BadBundle | Some bundle => Ok (put_bundle (group_prefix g) bundle r.1) end
    end.
Fixpoint groups_files (db : CDB) (now : Z) (l : list FleetGroup) (m : Files) : res DelErr Files :=
  match l with [] => Ok m | g :: l => let* m := group_files db now g m in groups_files db now l m end.
Definition fleetDeliveryFiles (db : CDB) (now : Z) (d : FleetDelivery) : res DelErr Files := groups_files db now (fd_groups d) ∅.

(** ** The reconcilers *)

Definition mode_of (name : string) : Z := if strings.HasSuffix name ".key" then 384 else 420.
Definition delivery_list (m : Files) : list File := map (fun p => mkFile p.1 p.2 (mode_of p.1)) (map_to_list m).
Definition want_of (m : Files) (hash : string) (uid gid : Z) : Want := mkWant (delivery_list m) (ManifestOf "" hash (sorted_names m)) uid gid.
(** The tables, the volumes of every node, the containers restarted so far. *)
Record DWorld := mkDW { dw_db : CDB; dw_disks : Disks; dw_restarts : list (string * string * string) }.
Definition restarted (env targets : string) (ns errs : list string) : list (string * string * string) :=
  flat_map (fun n => if bool_decide (n ∈ errs) then [] else map (fun c => (env, n, c)) (strings.Fields targets)) ns.
(** How the calls to the nodes end, by delivery and node. *)
Definition Ends := string -> string -> NodeEnds.

Definition syncCertDelivery (now : Z) (ends : Ends) (st : DWorld) (d : CertDelivery) : DWorld * string * option DelErr :=
  match deliveryFiles (dw_db st) now d with
  | Err e => (st, "", Some e)
  | Ok m =>
      let hash := contentHash m (cd_uid d) (cd_gid d) in
      if bool_decide (hash = cd_hash d) && bool_decide (cd_status d = "ok") then (st, hash, None)
      else match nodes (cd_env d) with
           | None => (st, hash, Some EnvNotConnected)
           | Some ns =>
               let '(disks, errs) := mirror_nodes ManifestCerts (cd_env d) (cd_volume d) (want_of m hash (cd_uid d) (cd_gid d)) (ends (cd_id d)) ns (dw_disks st) in
               (mkDW (dw_db st) disks (dw_restarts st ++ restarted (cd_env d) (cd_restart d) ns errs), hash, match errs with [] => None | _ => Some (DeliveryFailed errs) end)
           end
  end.
Definition reportDeliverySync (now : Z) (ends : Ends) (st : DWorld) (d : CertDelivery) : DWorld * option DelErr :=
  let '(st, hash, err) := syncCertDelivery now ends st d in
  if negb (bool_decide (is_Some err)) && bool_decide (hash = cd_hash d) && bool_decide (cd_status d = "ok") then (st, None)
  else (mkDW (MarkCertDeliverySynced (dw_db st) (cd_id d) hash (del_text <$> err) now) (dw_disks st) (dw_restarts st), err).

Definition syncFleetDelivery (now : Z) (ends : Ends) (st : DWorld) (d : FleetDelivery) : DWorld * string * option DelErr :=
  match fleetDeliveryFiles (dw_db st) now d with
  | Err e => (st, "", Some e)
  | Ok m =>
      let hash := contentHash m (fd_uid d) (fd_gid d) in
      if bool_decide (hash = fd_hash d) && bool_decide (fd_status d = "ok") then (st, hash, None)
      else match nodes (fd_env d) with
           | None => (st, hash, Some EnvNotConnected)
           | Some ns =>
               let '(disks, errs) := mirror_nodes ManifestFleet (fd_env d) (fd_volume d) (want_of m hash (fd_uid d) (fd_gid d)) (ends (fd_id d)) ns (dw_disks st) in
               (mkDW (dw_db st) disks (dw_restarts st ++ restarted (fd_env d) (fd_restart d) ns errs), hash, match errs with [] => None | _ => Some (DeliveryFailed errs) end)
           end
  end.
Definition reportFleetDeliverySync (now : Z) (ends : Ends) (st : DWorld) (d : FleetDelivery) : DWorld * option DelErr :=
  let '(st, hash, err) := syncFleetDelivery now ends st d in
  if negb (bool_decide (is_Some err)) && bool_decide (hash = fd_hash d) && bool_decide (fd_status d = "ok") then (st, None)
  else (mkDW (MarkFleetDeliverySynced (dw_db st) (fd_id d) hash (del_text <$> err) now) (dw_disks st) (dw_restarts st), err).

(** Sync now: forced. *)
Definition handleSyncCertDelivery (now : Z) (ends : Ends) (st : DWorld) (id : string) : DWorld * option DelErr :=
  match CertDeliveryByID (dw_db st) id with
  | Err e => (st, Some (DelStore e))
  | Ok d => reportDeliverySync now ends st
      (mkCD (cd_id d) (cd_env d) (cd_certs d) (cd_volume d) (cd_mount d) (cd_uid d) (cd_gid d) (cd_traefik d) (cd_restart d) (cd_bundle d) "" (cd_synced d) (cd_status d) (cd_error d) (cd_created d) (cd_protected d))
  end.
Definition handleSyncFleetDelivery (now : Z) (ends : Ends) (st : DWorld) (id : string) : DWorld * option DelErr :=
  match FleetDeliveryByID (dw_db st) id with
  | Err e => (st, Some (DelStore e))
  | Ok d => reportFleetDeliverySync now ends st (mkFD (fd_id d) (fd_env d) (fd_volume d) (fd_uid d) (fd_gid d) (fd_restart d) (fd_groups d) "" (fd_synced d) (fd_status d) (fd_error d) (fd_created d))
  end.

(** The second half of [certSweep], and all of [resyncDeliveries]: the certificate
    deliveries, then the fleet deliveries, each list read before its loop. *)
Definition resyncDeliveries (now : Z) (ends : Ends) (st : DWorld) : DWorld :=
  let st := fold_left (fun st d => (reportDeliverySync now ends st d).1) (AllCertDeliveries (dw_db st)) st in
  fold_left (fun st d => (reportFleetDeliverySync now ends st d).1) (AllFleetDeliveries (dw_db st)) st.
End Sync.
