(* ===== verification/CertCases.v ===== *)
(** * Authorities and deliveries over time

    Every operation on the tables of [Certs] and [CertDeliveries] keeps what
    [Rotation] states of them; what a rotation promises to the bundles, and what
    becomes of it when it is interrupted. *)
From S2P Require Import Prelude GoStd Timestamps Sans Keyrings Volumes Mirror Certs CertDeliveries Rotation.
Local Open Scope string_scope.
Local Open Scope list_scope.
Local Open Scope daffa_scope.
Local Open Scope Z_scope.

Section Operations.
Context `{Crypto} (ParseIP : string -> option string) (url_parse : string -> option (string * string)).
Context (cerr_text : CErr -> string) (environments : list string) (connected : string -> bool).

(** The requests, and the two outcomes the reconcilers record; [now] is the time
    of the operation, an activation has its [Writes]. *)
Inductive COp :=
| OCreateCA (req : CARequest) (id : string) | ODeleteCA (id : string) | OUpdateCA (id : string) (outbound : option bool)
| ORotate (id : string) (req : RotateRequest) (newid : string) | OActivate (id : string) (confirm : bool) (w : Writes)
| OIssue (req : CertRequest) (id : string) | ORenew (id : string) (rotate_key : bool) | OUpdateCert (id : string) (req : CertRequest) | ODeleteCert (id : string) | OSweep (alarms : gmap string string)
| OCreateDelivery (req : DeliveryRequest) (id : string) | OUpdateDelivery (id : string) (req : DeliveryRequest) | ODeleteDelivery (id : string) | OMarkDelivery (id hash : string) (err : option string)
| OCreateFleet (req : FleetRequest) (id : string) | OUpdateFleet (id : string) (req : FleetRequest) | ODeleteFleet (id : string) | OMarkFleet (id hash : string) (err : option string).
Definition run_op (db : CDB) (now : Z) (op : COp) : CDB :=
  match op with
  | OCreateCA req id => (handleCreateCA db req id now).1
  | ODeleteCA id => (handleDeleteCA db id).1
  | OUpdateCA id b => (handleUpdateCA db id b).1
  | ORotate id req newid => (handleRotateCA db id req newid now).1
  | OActivate id confirm w => (handleActivateCA db id confirm w now).1
  | OIssue req id => (handleCreateCertificate ParseIP url_parse db environments req id now).1
  | ORenew id k => (handleRenewCertificate db id k now).1
  | OUpdateCert id req => (handleUpdateCertificate ParseIP url_parse db id req now).1
  | ODeleteCert id => (handleDeleteCertificate db id).1
  | OSweep alarms => cw_db (sweepCertificates cerr_text now (mkCW db alarms []))
  | OCreateDelivery req id => (handleCreateCertDelivery connected db req id now).1
  | OUpdateDelivery id req => (handleUpdateCertDelivery db id req).1
  | ODeleteDelivery id => (handleDeleteCertDelivery db id).1
  | OMarkDelivery id hash err => MarkCertDeliverySynced db id hash err now
  | OCreateFleet req id => (handleCreateFleetDelivery connected db req id now).1
  | OUpdateFleet id req => (handleUpdateFleetDelivery db id req).1
  | ODeleteFleet id => (handleDeleteFleetDelivery db id).1
  | OMarkFleet id hash err => MarkFleetDeliverySynced db id hash err now
  end.

(** A staged root is still staged: the promotion has not begun. *)
Definition still_staged (db : CDB) (id : string) : Prop := exists ca, ca ∈ cas db /\ ca_id ca = id /\ ca_status ca = CANext.
(** New ids are new. *)
Definition fresh_op (db : CDB) (now : Z) (op : COp) : Prop :=
  match op with OCreateCA _ id => fresh_ca db id | ORotate _ _ newid => fresh_ca db newid | _ => True end.
(** An activation goes through, or ends before the first write of its promotion. *)
Definition whole_op (db : CDB) (now : Z) (op : COp) : Prop :=
  match op with
  | OActivate id confirm w => (handleActivateCA db id confirm w now).2 = None \/ still_staged (handleActivateCA db id confirm w now).1 id \/ (handleActivateCA db id confirm w now).1 = db
  | _ => True
  end.
(** No certificate is issued by a retired root. *)
Definition live_op (db : CDB) (now : Z) (op : COp) : Prop :=
  match op with OIssue req _ => forall ca, CertAuthorityByID db (cr_ca req) = Ok ca -> ca_status ca <> CARetired | _ => True end.

Definition run_ops (ops : list (Z * COp)) (db : CDB) : CDB := fold_left (fun db o => run_op db o.1 o.2) ops db.
(** Every operation of a history meets [P] where it is done. *)
Definition along (P : CDB -> Z -> COp -> Prop) (ops : list (Z * COp)) (db : CDB) : Prop :=
  forall n now op, ops !! n = Some (now, op) -> P (run_ops (take n ops) db) now op.

Section Strength.
Context {past live : bool}.

(** ** Roots *)

Lemma staged_listed db id : hasStagedSuccessor (ListCertAuthorities db) id = hasStagedSuccessor (cas db) id.
Proof. apply bool_iff. unfold hasStagedSuccessor. rewrite !existsb_elem. by setoid_rewrite elem_ListCA. Qed.

Lemma pki_create db ca db' : pki_ok past live db -> fresh_ca db (ca_id ca) ->
  (ca_status ca = CAActive /\ ca_rotates ca = "") \/ (ca_status ca = CANext /\ exists o, o ∈ cas db /\ ca_id o = ca_rotates ca /\ ca_status o = CAActive /\ hasStagedSuccessor (cas db) (ca_id o) = false) ->
  CreateCertAuthority db ca = Ok db' -> pki_ok past live db'.
Proof.
  intros Hok Hf Hx. unfold CreateCertAuthority. case_match; [done|]. intros [= <-]. set (x := mkCA _ _ _ _ _ _ _ _ _ _ _ _). apply (pki_cas db Hok).
  - by apply cas_ok_add; [apply Hok|..].
  - intros y Hy Hs. left. exists y. split_and!; [apply elem_of_app; by left|done|done].
  - intros c _. apply signer_mono. intros y Hy Hid. exists y. split_and!; [apply elem_of_app; by left|done|done].
Qed.

Lemma pki_create_ca db req id now : pki_ok past live db -> fresh_ca db id -> pki_ok past live (handleCreateCA db req id now).1.
Proof.
  intros Hok Hf. unfold handleCreateCA. cbv zeta.
  assert (forall pem key algo, pki_ok past live (match CreateCertAuthority db (mkCA id (strings.TrimSpace (rq_name req)) pem key algo (NotAfter pem) CAActive "" None 0 false (default true (rq_outbound req))) with
    Err e => (db, Some (Store e)) | Ok db => (db, None) end).1) as Hc.
  { intros pem key algo. destruct (CreateCertAuthority _ _) as [db'|e] eqn:E; [|done]. eapply pki_create; [done| | |exact E]; [done|by left]. }
  repeat first [apply Hc | done | case_match].
Qed.

Lemma pki_rotate db id req newid now : pki_ok past live db -> fresh_ca db newid -> pki_ok past live (handleRotateCA db id req newid now).1.
Proof.
  intros Hok Hf. unfold handleRotateCA. destruct (CertAuthorityByID db id) as [ca|e] eqn:Eca; [|done]. apply by_id_ok in Eca as [Hin Hid].
  case_bool_decide as Hs; [|done]. cbn [negb]. rewrite staged_listed. destruct (hasStagedSuccessor (cas db) (ca_id ca)) eqn:Hh; [done|]. cbv zeta.
  repeat (case_match; try done); (eapply pki_create; [done| | |eassumption]; [done|]); right; (split; [done|]); exists ca; by split_and!.
Qed.

Lemma count_zero {A} (f : A -> bool) l : count f l = 0%nat -> forall x, x ∈ l -> f x = false.
Proof. unfold count. intros Hc x Hx. destruct (f x) eqn:E; [|done]. assert (x ∈ List.filter f l) as Hin by (by apply elem_of_filter_b). destruct (List.filter f l); [by apply not_elem_of_nil in Hin|done]. Qed.
Lemma unused_unselected db id : (CertAuthorityInUse db id <= 0)%nat -> Forall (fun sel : list string => id ∉ sel) (selections db).
Proof.
  unfold CertAuthorityInUse. intros Hu. apply Forall_forall. intros sel Hin Hid. unfold selections in Hin. apply elem_of_app in Hin as [Hin|Hin]; apply list_elem_of_fmap in Hin as (x & -> & Hx).
  - assert (count (fun d => bool_decide (id ∈ cd_bundle d)) (cdels db) = 0%nat) as Hc by lia. pose proof (count_zero _ _ Hc x Hx) as Hz. simpl in Hz. by bd.
  - assert (count (fun g => bool_decide (id ∈ g_bundle g)) (flat_map fd_groups (fdels db)) = 0%nat) as Hc by lia. pose proof (count_zero _ _ Hc x Hx) as Hz. simpl in Hz. by bd.
Qed.
Lemma pki_delete_ca db id : pki_ok past live db -> pki_ok past live (handleDeleteCA db id).1.
Proof.
  intros Hok. unfold handleDeleteCA. destruct (CertAuthorityByID db id) as [ca|e]; [|done]. destruct (ca_protected ca); [done|]. destruct (0 <? CertAuthorityInUse db (ca_id ca))%nat eqn:Eu; [done|]. apply Nat.ltb_ge in Eu.
  unfold DeleteCertAuthority. destruct (existsb _ (leaves db)) eqn:El; [done|]. cbn [fst].
  apply (pki_cas db Hok); [by apply cas_ok_filter, Hok|intros x Hx Hs|].
  { destruct (decide (ca_id x = ca_id ca)) as [->|Hne]; [right; by apply unused_unselected|left]. exists x. split_and!; [|done|done]. apply elem_of_filter_b. split; [done|]. by apply negb_true_iff, bool_decide_eq_false. }
  intros c Hc. apply signer_mono. intros x Hx Hid. exists x. split_and!; [|done|done]. apply elem_of_filter_b. split; [done|]. rewrite existsb_false in El. specialize (El c Hc). bd.
  apply negb_true_iff, bool_decide_eq_false. congruence.
Qed.

(** A row rewritten without its state. *)
Lemma pki_rewrite_ca db ca : pki_ok past live db -> (forall x, x ∈ cas db -> ca_id x = ca_id ca -> ca_status ca = ca_status x /\ ca_rotates ca = ca_rotates x) -> pki_ok past live (UpdateCertAuthority db ca).
Proof.
  intros Hok Hsame. assert (same_shape (ca_row ca) (cas db)) as Hg.
  { intros x Hx. unfold ca_row. case_bool_decide as E; [|done]. simpl. by destruct (Hsame x Hx E). }
  apply (pki_cas db Hok); [apply cas_ok_map; [done|apply Hok]| |].
  - intros x Hx Hs. left. exists (ca_row ca x). destruct (Hg x Hx) as (-> & -> & _). split_and!; [by apply list_elem_of_fmap; exists x|done|done].
  - intros c _. apply signer_mono. intros x Hx Hid. exists (ca_row ca x). destruct (Hg x Hx) as (-> & -> & _). split_and!; [by apply list_elem_of_fmap; exists x|done|done].
Qed.
Lemma pki_update_ca db id b : pki_ok past live db -> pki_ok past live (handleUpdateCA db id b).1.
Proof.
  intros Hok. unfold handleUpdateCA. destruct (CertAuthorityByID db id) as [ca|e] eqn:Eca; [|done]. apply by_id_ok in Eca as [Hin Hid]. cbn [fst]. apply pki_rewrite_ca; [done|].
  intros x Hx E. by rewrite (same_ca (cas db) (pk_cas _ _ _ Hok) x ca).
Qed.

(** ** Leaves *)

Lemma leaf_signer db c : pki_ok past live db -> c ∈ leaves db -> signer_ok live (cas db) (ct_ca c).
Proof. intros Hok Hc. pose proof (pk_leaves _ _ _ Hok) as H0. rewrite Forall_forall in H0. by apply H0. Qed.
Lemma renewed_ca db now c c' : renewed db now c = Ok c' -> ct_ca c' = ct_ca c /\ ct_id c' = ct_id c.
Proof. unfold renewed. destruct (signingCA db (ct_ca c)) as [[ca k]|e]; [|done]. simpl. intros E. repeat (case_match; try done). by injection E as <-. Qed.
Lemma rekeyed_ca db now c c' : rekeyed db now c = Ok c' -> ct_ca c' = ct_ca c.
Proof. unfold rekeyed. destruct (signingCA db (ct_ca c)) as [[ca k]|e]; [|done]. simpl. intros E. repeat (case_match; try done). by injection E as <-. Qed.
Lemma reissued_ca db now c sans u c' : reissued db now c sans u = Ok c' -> ct_ca c' = ct_ca c.
Proof. unfold reissued. destruct (signingCA db (ct_ca c)) as [[ca k]|e]; [|done]. simpl. intros E. repeat (case_match; try done). by injection E as <-. Qed.
Lemma updated_ca db now c req c' : updated ParseIP url_parse db now c req = Ok c' -> ct_ca c' = ct_ca c.
Proof.
  unfold updated. do 2 (case_match; [done|]). cbv zeta.
  destruct (if bool_decide (strings.TrimSpace (cr_pem req) = "") then Ok (edited c req) else _) as [c1|e] eqn:E1; [|done]. cbn [rbind].
  assert (ct_ca c1 = ct_ca c) as <- by (repeat (case_match; try done); by simplify_eq).
  destruct (NormalizeSANs ParseIP url_parse (cr_sans req)) as [sans|e]; [|done]. destruct (new_usages c1 (cr_usages req)) as [u|e]; [|done]. cbn [rbind].
  destruct (new_sans c1 sans), u; try (destruct (negb (Issued c1)); [done|]); intros E; first [by injection E as <- | exact (reissued_ca _ _ _ _ _ _ E)].
Qed.

Lemma pki_leaf_update db c c' : pki_ok past live db -> c ∈ leaves db -> ct_ca c' = ct_ca c -> pki_ok past live (UpdateCertificate db c').
Proof. intros Hok Hc E. apply pki_update; [done|]. rewrite E. by apply leaf_signer. Qed.
Lemma pki_renew db id k now : pki_ok past live db -> pki_ok past live (handleRenewCertificate db id k now).1.
Proof.
  intros Hok. unfold handleRenewCertificate. destruct (CertificateByID db id) as [c|e] eqn:Ec; [|done]. apply by_id_ok in Ec as [Hc _]. case_match; [done|].
  destruct (if k then _ else _) as [c'|e] eqn:E; [|done]. apply (pki_leaf_update db c); [done|done|]. destruct k; [exact (rekeyed_ca _ _ _ _ E)|exact (proj1 (renewed_ca _ _ _ _ E))].
Qed.
Lemma pki_update_cert db id req now : pki_ok past live db -> pki_ok past live (handleUpdateCertificate ParseIP url_parse db id req now).1.
Proof.
  intros Hok. unfold handleUpdateCertificate. destruct (CertificateByID db id) as [c|e] eqn:Ec; [|done]. apply by_id_ok in Ec as [Hc _].
  destruct (updated ParseIP url_parse db now c req) as [c'|e] eqn:E; [|done]. apply (pki_leaf_update db c); [done|done|]. exact (updated_ca _ _ _ _ _ E).
Qed.
Lemma pki_delete_cert db id : pki_ok past live db -> pki_ok past live (handleDeleteCertificate db id).1.
Proof.
  intros Hok. unfold handleDeleteCertificate. destruct (CertificateByID db id) as [c|e]; [|done]. destruct (ct_protected c); [done|]. destruct (0 <? _)%nat; [done|]. destruct Hok as [Hc Hle Hcer Hsel Hd Hf Hg].
  constructor; unfold DeleteCertificate; simpl; try done.
  - apply Forall_forall. intros x [Hx _]%elem_of_filter_b. rewrite Forall_forall in Hle. by apply Hle.
  - by apply NoDup_map_filter.
  - assert (selections (DeleteCertificate db (ct_id c)) = selections db) as E; [|by unfold DeleteCertificate in E; rewrite E].
    unfold selections, DeleteCertificate. simpl. rewrite map_map, flat_map_concat_map, flat_map_concat_map, map_map, !concat_map, !map_map. do 2 f_equal. apply map_ext. intros d. simpl. by rewrite map_map.
  - by rewrite map_map.
  - by rewrite map_map.
  - apply Forall_map. eapply Forall_impl; [exact Hg|]. intros d Hnd. unfold compose. simpl. by rewrite map_map.
Qed.
Lemma pki_issue db req id now : pki_ok past live db -> (live = true -> live_op db now (OIssue req id)) ->
  pki_ok past live (handleCreateCertificate ParseIP url_parse db environments req id now).1.
Proof.
  intros Hok Hr. unfold handleCreateCertificate. cbv zeta.
  assert (forall c, signer_ok live (cas db) (ct_ca c) -> pki_ok past live (match CreateCertificate db c with Err e => (db, Some (Store e)) | Ok db => (db, None) end).1) as Hc.
  { intros c Hs. unfold CreateCertificate. cbv zeta. destruct (existsb _ (leaves db)) eqn:Ed; [done|]. destruct (negb _ && negb _); [done|]. cbn [fst]. apply (pki_leaves db Hok).
    - rewrite map_app. apply NoDup_app. split_and!; [apply Hok| |apply NoDup_singleton]. intros i Hi Hi'%list_elem_of_singleton. apply list_elem_of_fmap in Hi as (x & -> & Hx).
      rewrite existsb_false in Ed. specialize (Ed x Hx). apply orb_false_iff in Ed as [Ed _]. bd. congruence.
    - apply Forall_app. split; [apply Hok|]. by constructor. }
  destruct (negb (certName _)); [done|]. destruct (negb _ && negb _); [done|].
  destruct (negb (bool_decide (strings.TrimSpace (cr_pem req) = ""))); [repeat first [done | apply Hc; by left | case_match]|].
  destruct (CertAuthorityByID db (cr_ca req)) as [ca|e] eqn:Eca; [|done]. apply by_id_ok in Eca as Hin.
  assert (signer_ok live (cas db) (ca_id ca)) as Hsig by (right; exists ca; split_and!; [apply Hin|done|intros Hlv; by apply (Hr Hlv)]).
  repeat first [done | apply Hc; exact Hsig | case_match].
Qed.

(** ** The sweep *)

Lemma sweep_one_db now st c : cw_db (sweep_one cerr_text now st c) = cw_db st \/ exists c', ct_ca c' = ct_ca c /\ ct_id c' = ct_id c /\ cw_db (sweep_one cerr_text now st c) = UpdateCertificate (cw_db st) c'.
Proof.
  unfold sweep_one, renewCertificate. cbv zeta. destruct (days_ns _ <? _); [by left|]. destruct (Issued c).
  - destruct (renewed (cw_db st) now c) as [c'|e] eqn:E; right.
    + exists c'. by destruct (renewed_ca _ _ _ _ E).
    + exists (with_error c (cerr_text e)). destruct (fire _ _ _). done.
  - left. by destruct (fire _ _ _).
Qed.
Lemma pki_sweep now st : pki_ok past live (cw_db st) -> pki_ok past live (cw_db (sweepCertificates cerr_text now st)).
Proof.
  intros Hok. unfold sweepCertificates.
  assert (Forall (fun c => signer_ok live (cas (cw_db st)) (ct_ca c)) (ListCertificates (cw_db st) true [])) as Hl.
  { apply Forall_forall. intros c Hc. apply leaf_signer; [done|]. unfold ListCertificates in Hc. rewrite ssort_perm in Hc. by apply elem_of_filter_b in Hc as [Hc _]. }
  revert Hl. generalize (ListCertificates (cw_db st) true []). intros l. revert st Hok. induction l as [|c l IH]; intros st Hok Hl; [done|]. apply Forall_cons in Hl as [Hc Hl]. cbn [fold_left].
  destruct (sweep_one_db now st c) as [E|(c' & Eca & _ & E)]; apply IH; rewrite E; try done. apply pki_update; [done|]. by rewrite Eca.
Qed.

(** ** Deliveries *)

Lemma check_bundle_ok db ids u : check_bundle db ids = Ok u -> selected (cas db) ids.
Proof.
  induction ids as [|i ids IH]; simpl; intros Hb j Hin; [by apply not_elem_of_nil in Hin|].
  destruct (CertAuthorityByID db i) as [x|e] eqn:Ex; [|done]. case_bool_decide as Hx; [done|]. apply elem_of_cons in Hin as [->|Hin]; [|by apply IH].
  apply by_id_ok in Ex as [Hxin Hxi]. by exists x.
Qed.

Lemma pki_create_delivery db req id now : pki_ok past live db -> pki_ok past live (handleCreateCertDelivery connected db req id now).1.
Proof.
  intros Hok. unfold handleCreateCertDelivery. destruct (negb (connected _)); [done|]. destruct (resolveDeliveryCerts _ _ _) as [certs|e]; [|done]. destruct (negb _ && negb _); [done|].
  destruct (cleanMountPath _) as [mount|]; [|done]. destruct (check_bundle db (dr_bundle req)) as [u|e] eqn:Eb; [|done]. apply check_bundle_ok in Eb. cbv zeta.
  destruct (refuseSecondTraefikDelivery _ _); [done|]. destruct (FleetDeliveryForVolume _ _ _); [done|]. unfold CreateCertDelivery. cbv zeta.
  destruct (_ || negb (bool_decide (NoDup _))) eqn:Ed; [done|]. destruct (negb (known_certs _ _)); [done|]. cbn [fst]. apply orb_false_iff in Ed as [[Ed _]%orb_false_iff _]. apply (pki_cdels db Hok).
  - rewrite map_app. apply NoDup_app. split_and!; [apply Hok| |apply NoDup_singleton]. intros i Hi Hi'%list_elem_of_singleton. apply list_elem_of_fmap in Hi as (x & -> & Hx).
    rewrite existsb_false in Ed. specialize (Ed x Hx). bd. by apply Ed.
  - apply Forall_app. split; [exact (sel_cdels db Hok)|]. by constructor.
Qed.

Lemma pki_update_delivery db id req : pki_ok past live db -> pki_ok past live (handleUpdateCertDelivery db id req).1.
Proof.
  intros Hok. unfold handleUpdateCertDelivery. destruct (CertDeliveryByID db id) as [d|e]; [|done]. destruct (resolveDeliveryCerts _ _ _) as [certs|e]; [|done].
  destruct (cleanMountPath _) as [mount|]; [|done]. destruct (check_bundle db (dr_bundle req)) as [u|e] eqn:Eb; [|done]. apply check_bundle_ok in Eb. cbv zeta.
  destruct (refuseSecondTraefikDelivery _ _); [done|]. unfold UpdateCertDelivery. destruct (traefik_taken _ _ || _); [done|]. destruct (negb (known_certs _ _)); [done|]. cbn [fst]. apply (pki_cdels db Hok).
  - rewrite map_map. rewrite (map_ext _ cd_id); [apply Hok|]. intros x. by case_bool_decide.
  - apply Forall_map. eapply Forall_impl; [exact (sel_cdels db Hok)|]. intros x Hx. unfold compose. by case_bool_decide.
Qed.

Lemma pki_delete_delivery db id : pki_ok past live db -> pki_ok past live (handleDeleteCertDelivery db id).1.
Proof.
  intros Hok. unfold handleDeleteCertDelivery. destruct (CertDeliveryByID db id) as [d|e]; [|done]. destruct (cd_protected d); [done|]. cbn [fst]. apply (pki_cdels db Hok); [apply NoDup_map_filter, Hok|].
  apply Forall_forall. intros x [Hx _]%elem_of_filter_b. pose proof (sel_cdels db Hok) as Hs. rewrite Forall_forall in Hs. by apply Hs.
Qed.
Lemma pki_mark_delivery db id hash err now : pki_ok past live db -> pki_ok past live (MarkCertDeliverySynced db id hash err now).
Proof.
  intros Hok. apply (pki_cdels db Hok); [rewrite map_map; rewrite (map_ext _ cd_id); [apply Hok|]; intros x; by case_bool_decide|].
  apply Forall_map. eapply Forall_impl; [exact (sel_cdels db Hok)|]. intros x Hx. unfold compose. by case_bool_decide.
Qed.

(** ** Fleet deliveries *)

Definition group_ok (db : CDB) (g : FleetGroup) : Prop := selected (cas db) (g_bundle g).
Lemma groups_go_ok db l : forall subdirs placed out out', Forall (group_ok db) out -> groups_go db l subdirs placed out = Ok out' -> Forall (group_ok db) out'.
Proof.
  induction l as [|g l IH]; intros subdirs placed out out' Hout; simpl; [by intros [= <-]|]. destruct (negb _ && negb _); [done|]. case_bool_decide; [done|].
  destruct (check_bundle db (g_bundle g)) as [u|e] eqn:Eb; [|done]. cbn [rbind]. destruct (group_go _ _ _ _ _ _) as [r|e]; [|done]. cbn [rbind]. apply IH.
  apply Forall_app. split; [done|]. constructor; [|constructor]. by eapply check_bundle_ok.
Qed.
Lemma resolve_groups_ok db l gs : resolveFleetGroups db l = Ok gs -> Forall (group_ok db) gs.
Proof. unfold resolveFleetGroups. destruct l; [done|]. intros E. by eapply groups_go_ok in E. Qed.
Lemma groups_distinct_ok gs : groups_distinct gs = true -> NoDup (map g_subdir gs).
Proof. unfold groups_distinct. intros [Hn _]%andb_prop. by bd. Qed.

Lemma pki_create_fleet db req id now : pki_ok past live db -> pki_ok past live (handleCreateFleetDelivery connected db req id now).1.
Proof.
  intros Hok. unfold handleCreateFleetDelivery. destruct (negb (connected _)); [done|]. destruct (negb _ && negb _); [done|]. destruct (resolveFleetGroups db (fr_groups req)) as [gs|e] eqn:Eg; [|done].
  apply resolve_groups_ok in Eg. cbv zeta. destruct (refuseFleetVolumeClash _ _ _ _); [done|]. unfold CreateFleetDelivery. cbv zeta. cbn [fd_groups].
  destruct (existsb _ (fdels db) || negb (groups_distinct gs)) eqn:Ed; [done|]. apply orb_false_iff in Ed as [Ed En]. destruct (negb (known_certs _ _)); [done|]. cbn [fst]. apply (pki_fdels db Hok).
  - rewrite map_app. apply NoDup_app. split_and!; [apply Hok| |apply NoDup_singleton]. intros i Hi Hi'%list_elem_of_singleton. apply list_elem_of_fmap in Hi as (x & -> & Hx).
    rewrite existsb_false in Ed. specialize (Ed x Hx). bd. by apply Ed.
  - apply Forall_app. split; [exact (sel_fdels db Hok)|]. constructor; [|constructor]. split; [apply groups_distinct_ok; by apply negb_false_iff|done].
Qed.
Lemma pki_update_fleet db id req : pki_ok past live db -> pki_ok past live (handleUpdateFleetDelivery db id req).1.
Proof.
  intros Hok. unfold handleUpdateFleetDelivery. destruct (FleetDeliveryByID db id) as [d|e]; [|done]. destruct (resolveFleetGroups db (fr_groups req)) as [gs|e] eqn:Eg; [|done].
  apply resolve_groups_ok in Eg. unfold UpdateFleetDelivery. cbn [fd_groups]. destruct (negb (groups_distinct gs)) eqn:En; [done|]. destruct (negb (known_certs _ _)); [done|]. cbn [fst]. apply (pki_fdels db Hok).
  - rewrite map_map. rewrite (map_ext _ fd_id); [apply Hok|]. intros x. by case_bool_decide.
  - apply Forall_map. eapply Forall_impl; [exact (sel_fdels db Hok)|]. intros x Hx. unfold compose. case_bool_decide; [|done]. split; [apply groups_distinct_ok; by apply negb_false_iff|done].
Qed.
Lemma pki_delete_fleet db id : pki_ok past live db -> pki_ok past live (handleDeleteFleetDelivery db id).1.
Proof.
  intros Hok. unfold handleDeleteFleetDelivery. destruct (FleetDeliveryByID db id) as [d|e]; [|done]. cbn [fst]. apply (pki_fdels db Hok); [apply NoDup_map_filter, Hok|].
  apply Forall_forall. intros x [Hx _]%elem_of_filter_b. pose proof (sel_fdels db Hok) as Hs. rewrite Forall_forall in Hs. by apply Hs.
Qed.
Lemma pki_mark_fleet db id hash err now : pki_ok past live db -> pki_ok past live (MarkFleetDeliverySynced db id hash err now).
Proof.
  intros Hok. apply (pki_fdels db Hok); [rewrite map_map; rewrite (map_ext _ fd_id); [apply Hok|]; intros x; by case_bool_decide|].
  apply Forall_map. eapply Forall_impl; [exact (sel_fdels db Hok)|]. intros x Hx. unfold compose. by case_bool_decide.
Qed.

(** ** Activation *)

(** What an activation that is not interrupted within its promotion comes to. *)
Inductive outcome (db db' : CDB) (id : string) : Prop :=
| Unchanged : db' = db -> outcome db db' id
| LeavesMoved next : next ∈ cas db -> ca_id next = id -> ca_status next = CANext -> moved (ca_rotates next) id db db' -> outcome db db' id
| Promoted next db1 : next ∈ cas db -> ca_id next = id -> ca_status next = CANext -> moved (ca_rotates next) id db db1 -> leaves db' = leaves db1 ->
    (forall c, c ∈ leaves db' -> ct_ca c <> ca_rotates next) -> cas db' = map (promoted next) (cas db) ->
    map cd_id (cdels db') = map cd_id (cdels db) -> map fd_id (fdels db') = map fd_id (fdels db) -> Forall (fun d => NoDup (map g_subdir (fd_groups d))) (fdels db') ->
    selections db' = map (fun sel => match old_of db next with None => sel | Some _ => swap (ca_rotates next) id sel end) (selections db) -> outcome db db' id.

Lemma activate_outcome db id confirm w now db' e : pki_ok past live db -> handleActivateCA db id confirm w now = (db', e) -> e = None \/ still_staged db' id \/ db' = db -> outcome db db' id.
Proof.
  intros Hok Hrun Hs. destruct (activate_cases _ _ _ _ _ _ _ Hok Hrun) as [[-> _]|(next & db1 & k & Hid & Ha)]; [by constructor|]. pose proof Ha as [[Hn Hst] Hm Hw Hd Hl].
  destruct (decide (k = 0%nat)) as [->|Hk]; [simpl in Hw; subst db'; apply (LeavesMoved _ _ _ next); [done..|by rewrite <- Hid]|].
  destruct Hs as [->|[(ca & Hca & Hcid & Hcs)|Hs]]; [|exfalso|by constructor].
  - destruct (promote_done db db' next db1 k Hok Ha) as (H1 & H2 & H3 & H4 & H5 & H6). apply (Promoted _ _ _ next db1); try done; [by rewrite <- Hid| |by rewrite <- Hid].
    rewrite H2. apply Hl. unfold promote in Hd. specialize (Hd eq_refl). simpl in Hd. lia.
  - destruct (begun_roots db db1 next k (pk_cas _ _ _ Hok) Hn Hst (proj1 Hm) ltac:(lia)) as (g & Eg & Hg). rewrite <- Hw in Eg. rewrite Eg in Hca. apply list_elem_of_fmap in Hca as (x & -> & Hx).
    destruct (Hg x Hx) as (A & _ & C). rewrite A in Hcid. rewrite C in Hcs; [done|congruence].
Qed.

Lemma moved_signers db db' next : pki_ok past live db -> next ∈ cas db -> ca_status next = CANext -> moved (ca_rotates next) (ca_id next) db db' -> Forall (fun c => signer_ok live (cas db) (ct_ca c)) (leaves db').
Proof.
  intros Hok Hn Hs (_ & _ & _ & _ & Hm). apply Forall_forall. intros c' Hc'. destruct (Hm c' Hc') as (c & Hc & _ & [->|[-> _]]); [by apply leaf_signer|]. right. exists next. split_and!; [done|done|congruence].
Qed.

Lemma pki_outcome db db' id : pki_ok past live db -> outcome db db' id -> pki_ok past live db'.
Proof.
  intros Hok [->|next Hn Hid Hs Hm|next db1 Hn Hid Hs Hm Hl Hleft Hc Hd Hf Hg Hsel]; [done|subst id..].
  - pose proof (moved_signers db db' next Hok Hn Hs Hm) as Hsig. destruct Hm as (E1 & E2 & E3 & E4 & _). destruct Hok as [Hc Hle Hcer Hsel Hd Hf Hg].
    assert (selections db' = selections db) as Es by (unfold selections; by rewrite E2, E3). constructor; rewrite ?E1, ?E2, ?E3, ?E4, ?Es; done.
  - pose proof (moved_signers db db1 next Hok Hn Hs Hm) as Hsig. destruct Hm as (_ & _ & _ & Em & _). pose proof (pk_cas _ _ _ Hok) as Hcas. constructor.
    + rewrite Hc. by apply promotion_ok.
    + rewrite Hl. apply Forall_forall. intros c Hcin. rewrite Forall_forall in Hsig. destruct (Hsig c Hcin) as [?|(ca & Hca & Eca & Hca2)]; [by left|right]. exists (promoted next ca).
      split_and!; [rewrite Hc; by apply list_elem_of_fmap; exists ca|by rewrite promoted_id|]. unfold promoted. case_bool_decide; [done|]. case_bool_decide as E; [|done].
      exfalso. apply (Hleft c); [by rewrite Hl|congruence].
    + rewrite Hl, Em. apply Hok.
    + rewrite Hsel, Hc. apply Forall_map, Forall_forall. intros sel Hin i Hi. unfold compose in Hi. pose proof (pk_sel _ _ _ Hok) as Hun. rewrite Forall_forall in Hun. specialize (Hun sel Hin).
      assert (forall j, j ∈ sel -> exists ca, ca ∈ map (promoted next) (cas db) /\ ca_id ca = j /\ ca_status ca <> CANext) as Hkeep.
      { intros j Hj. destruct (Hun j Hj) as (ca & Hca & Eca & Hcs). exists (promoted next ca). rewrite promoted_id. split_and!; [by apply list_elem_of_fmap; exists ca|done|].
        unfold promoted. repeat case_bool_decide; done. }
      destruct (old_of db next) as [o|]; [|by apply Hkeep]. unfold swap in Hi. apply list_elem_of_fmap in Hi as (j & -> & Hj). case_bool_decide as E; [|by apply Hkeep].
      exists (promoted next next). rewrite promoted_id. split_and!; [by apply list_elem_of_fmap; exists next|done|]. unfold promoted. by rewrite bool_decide_eq_true_2.
    + by rewrite Hd; apply Hok.
    + by rewrite Hf; apply Hok.
    + done.
Qed.

End Strength.

Lemma pki_activate (past live : bool) db id confirm w now : pki_ok past live db -> (past = true -> whole_op db now (OActivate id confirm w)) -> pki_ok past live (handleActivateCA db id confirm w now).1.
Proof.
  intros Hok Hw. destruct (handleActivateCA db id confirm w now) as [db' e] eqn:E. simpl. destruct past.
  - specialize (Hw eq_refl). simpl in Hw. rewrite E in Hw. eapply pki_outcome; [done|]. by eapply activate_outcome.
  - destruct (activate_cases _ _ _ _ _ _ _ Hok E) as [[-> _]|(next & db1 & k & Hid & [[Hn Hs] Hm -> _ Hl])]; [done|].
    assert (pki_ok false live db1) as H1 by (apply (pki_outcome db db1 id Hok); apply (LeavesMoved _ _ _ next); [done..|by rewrite <- Hid]).
    destruct (decide (k = 0%nat)) as [->|Hk]; [done|]. assert (old_of db next = old_of db1 next) as -> by (unfold old_of, CertAuthorityByID; by rewrite (proj1 Hm)).
    apply promote_prefix_ok; [done|by rewrite (proj1 Hm)|done|]. apply Hl. lia.
Qed.

Lemma run_ops_cons o ops db : run_ops (o :: ops) db = run_ops ops (run_op db o.1 o.2).
Proof. done. Qed.
Lemma along_cons P o ops db : along P (o :: ops) db -> P db o.1 o.2 /\ along P ops (run_op db o.1 o.2).
Proof. intros Ha. split; [destruct o; exact (Ha 0%nat _ _ eq_refl)|]. intros n now op Hop. exact (Ha (S n) now op Hop). Qed.

(** C33: The tables of the authority stay well formed whatever is done, one
    operation after the other and interrupted anywhere, provided that new ids are
    new: every issued certificate hangs on a root that is there, a staged root
    replaces an active one, at most one replacement is staged per root, and every
    selection names roots that are there and not staged. With [past]: as long as no
    activation is interrupted within its promotion, a root is retired once it was
    replaced. With [live]: as long as no certificate is issued by a retired root,
    which the code allows, none hangs on one: an activation that retires a root
    leaves it no certificate, even one interrupted there. *)
Theorem pki_invariant (past live : bool) (ops : list (Z * COp)) (db : CDB) : pki_ok past live db -> along fresh_op ops db ->
  (past = true -> along whole_op ops db) -> (live = true -> along live_op ops db) -> pki_ok past live (run_ops ops db).
Proof.
  revert db. induction ops as [|[now op] ops IH]; intros db Hok Hf Hw Hl; [done|]. rewrite run_ops_cons.
  apply along_cons in Hf as [Hf0 Hf]. assert (past = true -> whole_op db now op) as Hw0 by (intros Hp; by apply Hw, along_cons in Hp as [? _]). assert (live = true -> live_op db now op) as Hl0 by (intros Hp; by apply Hl, along_cons in Hp as [? _]).
  apply IH; [|done|intros Hp; by apply Hw, along_cons in Hp as [_ ?]|intros Hp; by apply Hl, along_cons in Hp as [_ ?]]. clear IH Hf Hw Hl. destruct op; simpl in *.
  - by apply pki_create_ca.
  - by apply pki_delete_ca.
  - by apply pki_update_ca.
  - by apply pki_rotate.
  - by apply pki_activate.
  - by apply pki_issue.
  - by apply pki_renew.
  - by apply pki_update_cert.
  - by apply pki_delete_cert.
  - by apply pki_sweep.
  - by apply pki_create_delivery.
  - by apply pki_update_delivery.
  - by apply pki_delete_delivery.
  - by apply pki_mark_delivery.
  - by apply pki_create_fleet.
  - by apply pki_update_fleet.
  - by apply pki_delete_fleet.
  - by apply pki_mark_fleet.
Qed.

(** ** What a rotation promises to the bundles *)

Lemma trusts_lineage db sel id : trusts db sel id <-> exists ca, ca ∈ cas db /\ ca_id ca = id /\ ca_status ca <> CARetired /\ lineage (cas db) sel ca.
Proof. unfold trusts. by setoid_rewrite wanted_lineage. Qed.

Section Lineage.
Context (l : list CertAuthority) (next old : CertAuthority) (Hok : cas_ok true l) (Hn : next ∈ l) (Hs : ca_status next = CANext) (Ho : old ∈ l) (Eo : ca_rotates next = ca_id old).
Lemma old_active : ca_status old = CAActive.
Proof. by apply (ck_staged _ l Hok next old). Qed.

(** A selection that wants the old root wants the new one: staged, because it
    rides along; promoted, because it took the old one's place. *)
Lemma old_wanted sel : unstaged l sel -> lineage l sel old -> sel = [] \/ ca_id old ∈ sel.
Proof.
  intros Hu [?|[?|[(_ & E & _)|(o & Hol & Hin & E)]]]; [by left|by right|rewrite old_active in E; done|]. exfalso.
  destruct (decide (ca_status o = CANext)) as [Hos|Hos]; [by apply (Hu o)|]. pose proof (ck_past _ l Hok eq_refl o old Hol Ho E Hos) as Hr. by rewrite old_active in Hr.
Qed.
Lemma staged_rides sel : unstaged l sel -> lineage l sel old -> lineage l sel next.
Proof.
  intros Hu [?|Hin]%old_wanted; [by left| |done]. right; right; left. split_and!; [|done|by rewrite Eo]. pose proof (ck_named _ l Hok) as Hnm. rewrite Forall_forall in Hnm. by apply Hnm.
Qed.
Lemma swap_elem i sel : i ∈ swap (ca_id old) (ca_id next) sel <-> (i ∈ sel /\ i <> ca_id old) \/ (i = ca_id next /\ ca_id old ∈ sel).
Proof.
  unfold swap. rewrite list_elem_of_fmap. split.
  - intros (x & -> & Hx). case_bool_decide as E; [right|left]; [split; [done|congruence]|done].
  - intros [[Hin Hne]|[-> Hin]]; eexists; (split; [|exact Hin]); [by rewrite bool_decide_eq_false_2|by rewrite bool_decide_eq_true_2].
Qed.
Lemma new_for_old sel : unstaged l sel -> lineage l sel old -> lineage (map (promoted next) l) (swap (ca_id old) (ca_id next) sel) (promoted next next).
Proof.
  intros Hu [->|Hin]%old_wanted; [by left| |done]. right; left. rewrite promoted_id. apply swap_elem. by right.
Qed.
(** The old root itself stays wanted, by the back-pointer. *)
Lemma old_dragged sel : unstaged l sel -> lineage l sel old -> lineage (map (promoted next) l) (swap (ca_id old) (ca_id next) sel) (promoted next old).
Proof.
  intros Hu [->|Hin]%old_wanted; [by left| |done]. right; right; right. exists (promoted next next). rewrite !promoted_id, promoted_rotates.
  split_and!; [by apply list_elem_of_fmap; exists next|apply swap_elem; by right|done].
Qed.
(** Every other root in force stays wanted. *)
Lemma others_wanted sel ca : unstaged l sel -> ca ∈ l -> ca_status ca <> CARetired -> ca_id ca <> ca_id old -> lineage l sel ca ->
  lineage (map (promoted next) l) (swap (ca_id old) (ca_id next) sel) (promoted next ca).
Proof.
  intros Hu Hca Hnr Hne [->|[Hin|[(Hr & Hcs & Hin)|(o & Hol & Hin & E)]]]; [by left|right; left; rewrite promoted_id; apply swap_elem; by left| |].
  - destruct (decide (ca_id ca = ca_id next)) as [E|E].
    + right; left. rewrite promoted_id, E. apply swap_elem. right. split; [done|]. by rewrite (same_ca l Hok ca next) in Hin; [rewrite <- Eo|..].
    + right; right; left. assert (promoted next ca = ca) as ->.
      { unfold promoted. rewrite !bool_decide_eq_false_2; [done|by rewrite Eo|done]. }
      split_and!; [done|done|]. apply swap_elem. left. split; [done|]. intros E2. apply E. apply (ck_one _ l Hok ca next); [done..|congruence].
  - exfalso. destruct (decide (ca_status o = CANext)) as [Hos|Hos]; [by apply (Hu o)|]. by pose proof (ck_past _ l Hok eq_refl o ca Hol Hca E Hos).
Qed.
End Lineage.

Lemma moved_trusts db db' next old : pki_ok true false db -> next ∈ cas db -> ca_status next = CANext -> old ∈ cas db -> ca_rotates next = ca_id old ->
  moved (ca_rotates next) (ca_id next) db db' -> forall sel, selected (cas db) sel -> forall c', c' ∈ leaves db' -> exists c, c ∈ leaves db /\ ct_id c = ct_id c' /\ (trusts db sel (ct_ca c) -> trusts db' sel (ct_ca c')).
Proof.
  intros Hok Hn Hs Ho Eo (Ec & _ & _ & _ & Hm) sel Hsel%(selected_unstaged (cas db) sel (pk_cas _ _ _ Hok)) c' Hc'. destruct (Hm c' Hc') as (c & Hc & Hid & Hor). exists c. split_and!; [done|done|]. rewrite !trusts_lineage, Ec.
  destruct Hor as [->|[-> E]]; [done|]. intros (ca & Hca & Hcid & Hcs & Hl). assert (ca = old) as -> by (apply (same_ca (past := true) (cas db)); [apply Hok|done..|congruence]).
  exists next. split_and!; [done|done|congruence|]. by apply (staged_rides (cas db) next old (pk_cas _ _ _ Hok)).
Qed.

Lemma old_exists db next : pki_ok true false db -> next ∈ cas db -> ca_status next = CANext -> (exists c, c ∈ leaves db /\ ct_ca c = ca_rotates next) -> exists old, old_of db next = Some old.
Proof.
  intros Hok Hn Hs (c & Hc & Ec). destruct (old_of db next) as [o|] eqn:Eo; [by exists o|]. exfalso. destruct (leaf_signer db c Hok Hc) as [E|(ca & Hca & Eca & _)].
  - pose proof (ck_named _ _ (pk_cas _ _ _ Hok)) as Hnm. rewrite Forall_forall in Hnm. destruct (Hnm _ Hn) as [_ Hr]. apply (Hr Hs). congruence.
  - eapply old_of_none; [exact Eo|exact Hca|congruence].
Qed.

(** The promotion, when the old root is there and when it was deleted. *)
Lemma promoted_trusts db db' next db1 : pki_ok true false db -> next ∈ cas db -> ca_status next = CANext -> moved (ca_rotates next) (ca_id next) db db1 -> leaves db' = leaves db1 ->
  (forall c, c ∈ leaves db' -> ct_ca c <> ca_rotates next) -> cas db' = map (promoted next) (cas db) ->
  forall sel, selected (cas db) sel -> forall c', c' ∈ leaves db' -> exists c, c ∈ leaves db /\ ct_id c = ct_id c' /\
    (trusts db sel (ct_ca c) -> trusts db' (match old_of db next with None => sel | Some _ => swap (ca_rotates next) (ca_id next) sel end) (ct_ca c')).
Proof.
  intros Hok Hn Hs (_ & _ & _ & _ & Hm) El Hleft Ec sel Hsel c' Hc'. pose proof (pk_cas _ _ _ Hok) as Hcas. pose proof (selected_unstaged _ _ Hcas Hsel) as Hu.
  assert (ct_ca c' <> ca_rotates next) as Hne by (by apply Hleft). rewrite El in Hc'. destruct (Hm c' Hc') as (c & Hc & Hid & Hor). exists c. split_and!; [done|done|].
  rewrite !trusts_lineage, Ec. intros (ca & Hca & Hcid & Hcs & Hl).
  assert (forall x, x ∈ cas db -> promoted next x ∈ map (promoted next) (cas db)) as Hin by (intros x Hx; by apply list_elem_of_fmap; exists x).
  destruct (old_of db next) as [old|] eqn:Eo.
  - destruct (old_of_some _ _ _ Eo) as [Ho Eoid]. symmetry in Eoid. destruct Hor as [E|[E1 E2]].
    + exists (promoted next ca). rewrite promoted_id. split_and!; [by apply Hin|congruence| |].
      * unfold promoted. case_bool_decide; [done|]. rewrite bool_decide_eq_false_2; [done|congruence].
      * rewrite Eoid. apply (others_wanted (cas db) next old); try done. congruence.
    + exists (promoted next next). rewrite promoted_id. split_and!; [by apply Hin|done|unfold promoted; by rewrite bool_decide_eq_true_2|].
      assert (ca = old) as -> by (apply (same_ca (past := true) (cas db)); [done..|congruence]). rewrite Eoid. by apply (new_for_old (cas db) next old).
  - destruct Hor as [E|[_ E2]]; [|destruct (old_exists db next Hok Hn Hs) as [o Eo2]; [by exists c|congruence]].
    exists (promoted next ca). rewrite promoted_id. assert (forall x, x ∈ cas db -> ca_id x <> ca_rotates next) as Hno by (by apply old_of_none). split_and!; [by apply Hin|congruence| |].
    + unfold promoted. case_bool_decide; [done|]. by rewrite bool_decide_eq_false_2 by (by apply Hno).
    + destruct Hl as [->|[Hi|[(Hr & Hst & Hi)|(o & Hol & Hi & E3)]]]; [by left|by right; left; rewrite promoted_id| |].
      * destruct (Hsel _ Hi) as (x & Hx & Ex & _). destruct (decide (ca_id ca = ca_id next)) as [En|En]; [rewrite (same_ca (cas db) Hcas ca next) in Ex by done; by destruct (Hno x Hx)|].
        right; right; left. assert (promoted next ca = ca) as -> by (unfold promoted; by rewrite !bool_decide_eq_false_2 by (done || by apply Hno)). done.
      * right; right; right. exists (promoted next o). rewrite !promoted_id, promoted_rotates. split_and!; [by apply Hin|done|done].
Qed.

Lemma activate_promoted db id confirm w now db' : pki_ok true false db -> handleActivateCA db id confirm w now = (db', None) ->
  exists next db1 k, ca_id next = id /\ activation db db' None next db1 k.
Proof. intros Hok Hrun. by destruct (activate_cases _ _ _ _ _ _ _ Hok Hrun) as [[_ ?]|?]. Qed.

(** C34: An activation that is not interrupted within its promotion, on tables that
    no earlier one left half promoted ([pki_ok] with [past]), does not make a
    bundle stop trusting: whether it went through or failed while it was signing
    leaves again, every selection trusts for good the root of each certificate it
    trusted before; and once the successor is promoted, a selection that trusted
    the old root carries it until the announced deadline. An interruption within
    the promotion does break this: [activation_interrupted]. *)
Theorem rotation_keeps_trust (db db' : CDB) (id : string) (confirm : bool) (w : Writes) (now : Z) (e : option CErr) : pki_ok true false db ->
  handleActivateCA db id confirm w now = (db', e) -> e = None \/ still_staged db' id \/ db' = db ->
  forall i sel sel', selections db !! i = Some sel -> selections db' !! i = Some sel' ->
  (forall c', c' ∈ leaves db' -> exists c, c ∈ leaves db /\ ct_id c = ct_id c' /\ (trusts db sel (ct_ca c) -> trusts db' sel' (ct_ca c'))) /\
  (forall next old deadline, e = None -> CertAuthorityByID db id = Ok next -> CertAuthorityByID db (ca_rotates next) = Ok old -> trusts db sel (ca_id old) -> ca_overlap next = Some deadline ->
    forall t, t < deadline -> exists ca, ca ∈ trusted db' t sel' /\ ca_id ca = ca_id old /\ ca_pem ca = ca_pem old).
Proof.
  intros Hok Hrun Hs i sel sel' Hsel Hsel'. pose proof (pk_cas _ _ _ Hok) as Hcas.
  assert (selected (cas db) sel) as Hso by (pose proof (pk_sel _ _ _ Hok) as Hu; rewrite Forall_forall in Hu; apply Hu; by eapply list_elem_of_lookup_2).
  split.
  - destruct (activate_outcome _ _ _ _ _ _ _ Hok Hrun Hs) as [->|next Hn <- Hst Hm|next db1 Hn <- Hst Hm Hl Hleft Hc _ _ _ Es].
    + rewrite Hsel in Hsel'. injection Hsel' as ->. intros c Hc. by exists c.
    + assert (sel' = sel) as -> by (destruct Hm as (_ & E1 & E2 & _); unfold selections in *; rewrite E1, E2, Hsel in Hsel'; by injection Hsel').
      intros c' Hc'. destruct (old_of db next) as [old|] eqn:Eo.
      * destruct (old_of_some _ _ _ Eo) as [Ho Eoid]. by apply (moved_trusts db db' next old).
      * pose proof Hm as (Ec & _ & _ & _ & Hmm). destruct (Hmm c' Hc') as (c & Hcin & Hid & [E|[_ E]]); [|destruct (old_exists db next Hok Hn Hst) as [o ?]; [by exists c|congruence]].
        exists c. split_and!; [done|done|]. rewrite !trusts_lineage, Ec. by rewrite E.
    + rewrite Es, list_lookup_fmap, Hsel in Hsel'. injection Hsel' as <-. by apply (promoted_trusts db db' next db1).
  - intros next old deadline -> En Eold Htr Hov t Ht. destruct (activate_promoted _ _ _ _ _ _ Hok Hrun) as (next2 & db1 & k & Hid & Ha). pose proof Ha as [[Hn Hst] _ _ _ _].
    apply by_id_ok in En as [Hn2 En]. assert (next2 = next) as -> by (apply (same_ca (past := true) (cas db)); [done..|congruence]).
    destruct (promote_done db db' next db1 k Hok Ha) as (Hc & _ & _ & _ & _ & Es). assert (old_of db next = Some old) as Eo by (unfold old_of; by rewrite Eold). rewrite Eo in Es.
    destruct (old_of_some _ _ _ Eo) as [Ho Eoid]. symmetry in Eoid. rewrite Es, list_lookup_fmap, Hsel in Hsel'. injection Hsel' as <-. exists (promoted next old). rewrite promoted_id.
    assert (promoted next old = set_status old CARetired (ca_overlap next)) as Ep.
    { unfold promoted. rewrite bool_decide_eq_false_2, bool_decide_eq_true_2; [done|done|]. intros E. eapply (next_not_old (cas db) next); [done..|congruence]. }
    split_and!; [|done|by rewrite Ep]. apply trusted_elem. rewrite wanted_lineage, Hc. split_and!.
    + by apply list_elem_of_fmap; exists old.
    + rewrite Eoid. apply (old_dragged (cas db) next old); [done..|by apply (selected_unstaged (past := true))|]. apply trusts_lineage in Htr as (x & Hx & Ex & _ & Hl). by rewrite (same_ca (cas db) Hcas old x).
    + rewrite Ep. unfold in_force. simpl. rewrite Hov. by apply Z.ltb_lt.
Qed.

(** An activation interrupted within its promotion — the database fails between
    two of its writes — cannot be taken up again: the successor is no longer
    staged, every later attempt is refused without effect, and a selection that
    still names the old root alone carries, at any time, no root for the
    certificates that were all signed anew. *)
Theorem activation_interrupted (db db' : CDB) (id : string) (confirm : bool) (w : Writes) (now : Z) (e : option CErr) : pki_ok true false db ->
  handleActivateCA db id confirm w now = (db', e) -> e <> None -> db' <> db -> ~ still_staged db' id ->
  (forall confirm w now, handleActivateCA db' id confirm w now = (db', Some NotStaged)) /\
  (forall next, CertAuthorityByID db id = Ok next -> forall c', c' ∈ leaves db' -> exists c, c ∈ leaves db /\ ct_id c = ct_id c' /\ ct_ca c' <> ca_rotates next /\ (ct_ca c = ca_rotates next -> ct_ca c' = id)) /\
  (forall sel, sel <> [] -> (id ∉ sel) -> forall t ca, ca ∈ trusted db' t sel -> ca_id ca <> id).
Proof.
  intros Hok Hrun He Hdb Hns. pose proof (pk_cas _ _ _ Hok) as Hcas. destruct (activate_cases _ _ _ _ _ _ _ Hok Hrun) as [[-> _]|(next & db1 & k & <- & Ha)]; [done|]. destruct Ha as [[Hn Hst] Hm Hw _ Hl].
  assert (k <> 0%nat) as Hk.
  { intros ->. simpl in Hw. subst db'. apply Hns. exists next. destruct Hm as (-> & _). by split_and!. }
  destruct (begun_roots db db1 next k Hcas Hn Hst (proj1 Hm) ltac:(lia)) as (g & Eg & Hg). rewrite <- Hw in Eg.
  assert (leaves db' = leaves db1) as El by (rewrite Hw; apply promote_leaves). split_and!.
  - intros cf w' now'. unfold handleActivateCA, CertAuthorityByID. destruct (by_id ca_id (ca_id next) (cas db')) as [x|er] eqn:Ex.
    + apply by_id_ok in Ex as [Hx Exi]. rewrite Eg in Hx. apply list_elem_of_fmap in Hx as (y & -> & Hy). destruct (Hg y Hy) as (A & _ & C). rewrite C by congruence. by rewrite bool_decide_eq_false_2.
    + exfalso. eapply by_id_none; [exact Ex| |]; [rewrite Eg; apply list_elem_of_fmap; exists next; split; [done|exact Hn]|]. by destruct (Hg next Hn).
  - intros next2 En2 c' Hc'. apply by_id_ok in En2 as [Hn2 En2]. assert (next2 = next) as -> by (by apply (same_ca (past := true) (cas db))). rewrite El in Hc'.
    pose proof Hm as (_ & _ & _ & _ & Hmm). destruct (Hmm c' Hc') as (c & Hc & Hcid & Hor). exists c. split_and!; [done|done|by apply Hl; [lia|]|]. intros E. destruct Hor as [E2|[? _]]; [|done].
    exfalso. apply (Hl ltac:(lia) c' Hc'). congruence.
  - intros sel Hne Hnin t ca [Hca [Hwd _]]%trusted_elem Eid. apply wanted_lineage in Hwd. rewrite Eg in Hca. apply list_elem_of_fmap in Hca as (x & -> & Hx). destruct (Hg x Hx) as (A & B & C).
    destruct Hwd as [?|[Hi|[(_ & Hi & _)|(o & Ho & Hi & E)]]]; [done|by rewrite Eid in Hi|by rewrite C in Hi by congruence|]. rewrite Eg in Ho. apply list_elem_of_fmap in Ho as (y & -> & Hy).
    destruct (Hg y Hy) as (_ & B2 & _). apply (no_successor (cas db) next Hcas Hn Hst y eq_refl Hy). congruence.
Qed.
End Operations.

(** ** A rotation, from the first root to the third *)

Module CertDemo.
#[local] Instance crypto : Crypto := {|
  Seal := fun s => Some ("sealed " +:+ s); Open := fun s => Some (strings.TrimPrefix s "sealed ");
  ValidateCAUpload := fun _ _ => true; ValidateLeafUpload := fun _ _ _ => true;
  MakeCA := fun _ cn _ _ _ => Some ("root " +:+ cn, "key " +:+ cn);
  Issue := fun _ ca _ _ _ _ _ => Some ("leaf by " +:+ ca, "leaf key");
  Renew := fun _ ca _ _ _ _ _ => Some ("leaf by " +:+ ca); Reissue := fun _ ca _ _ _ _ _ => Some ("leaf by " +:+ ca);
  Verify := fun leaf ca => bool_decide (leaf = "leaf by " +:+ ca); NotAfter := fun _ => 0; ValidDays := fun _ => 0; Describe := fun _ => ""; CommonName := fun ca => ca +:+ "'"; Organization := fun _ => "";
  SANList := fun _ => []; UsagesOf := fun _ => "server"; Bundle := fun l => Some (strings.Join l "|") |}.
Abbreviation op db now o := (run_op (fun _ => None) (fun _ => None) (fun _ => "failed") [] (fun _ => true) db now o).
Definition one_day : Z := rotation_day.
Definition root_request : CARequest := mkCARequest "root" "" "" "" 0 "first" "" None.
Definition leaf_request (ca : string) : CertRequest := mkCertRequest "web" "" ca ["example.org"] [] "" 0 0 "" "" "".
Definition delivery_request (certs : list string) (bundle : list string) : DeliveryRequest := mkDR "env" (map (fun i => mkDC i false) certs) "" "" 0 0 false "" bundle.
Definition rotate_request (name : string) : RotateRequest := mkRotate name "" "" 0 0.
Definition empty_db : CDB := mkCDB [] [] [] [].
Definition db1 : CDB := op empty_db 0 (OCreateCA root_request "A").
Definition db2 : CDB := op db1 0 (OIssue (leaf_request "A") "web").
Definition db3 : CDB := op db2 0 (OCreateDelivery (delivery_request ["web"] ["A"]) "d").
Definition db4 : CDB := op db3 0 (ORotate "A" (rotate_request "second") "B").
Definition db5 : CDB := op db4 0 (OActivate "B" true None).
Definition db6 : CDB := op db5 one_day (ORotate "B" (rotate_request "third") "C").
Definition db7 : CDB := op db6 one_day (OActivate "C" true None).
(** The database fails after the third write: the leaf, the successor, the old
    root. *)
Definition db4' : CDB := op db4 0 (OActivate "B" true (Some 3%nat)).

Ltac by_value := repeat split; apply (bool_decide_unpack _); by vm_compute.
Lemma empty_ok (past live : bool) : pki_ok past live empty_db.
Proof.
  constructor; simpl; try by constructor. constructor; simpl; try (by constructor); try intros Hpast; intros n o Hn; by apply not_elem_of_nil in Hn.
Qed.
Lemma db4_ok : pki_ok true false db4.
Proof.
  assert (pki_ok true false db1) as H1 by (apply pki_create_ca; [apply empty_ok|by_value]).
  assert (pki_ok true false db2) as H2 by (apply pki_issue; [done|intros Hlive; discriminate]).
  assert (pki_ok true false db3) as H3 by (by apply pki_create_delivery).
  apply pki_rotate; [done|by_value].
Qed.
End CertDemo.

(** With everything in force; and through an activation the database interrupts,
    where a replaced root stays active. *)
Lemma pki_invariant_witness : pki_ok true true (@run_ops CertDemo.crypto (fun _ => None) (fun _ => None) (fun _ => "failed") [] (fun _ => true)
    [(0, OCreateCA CertDemo.root_request "A"); (0, OIssue (CertDemo.leaf_request "A") "web"); (0, ORotate "A" (CertDemo.rotate_request "second") "B"); (0, OActivate "B" true None)] CertDemo.empty_db) /\
  pki_ok false true (@run_ops CertDemo.crypto (fun _ => None) (fun _ => None) (fun _ => "failed") [] (fun _ => true)
    [(0, OCreateCA CertDemo.root_request "A"); (0, OIssue (CertDemo.leaf_request "A") "web"); (0, ORotate "A" (CertDemo.rotate_request "second") "B"); (0, OActivate "B" true (Some 2%nat))] CertDemo.empty_db).
Proof.
  split; (apply pki_invariant; [exact (CertDemo.empty_ok _ _)|..]); try done; intros; intros n now op Hop; (destruct n as [|[|[|[|n]]]]; [injection Hop as <- <-..|done]); try done; try CertDemo.by_value.
  - by left; vm_compute.
  - intros ca E. vm_compute in E. by injection E as <-.
  - intros ca E. vm_compute in E. by injection E as <-.
Defined.

Lemma rotation_keeps_trust_witness :
  (forall c', c' ∈ leaves CertDemo.db5 -> exists c, c ∈ leaves CertDemo.db4 /\ ct_id c = ct_id c' /\ (trusts CertDemo.db4 ["A"] (ct_ca c) -> trusts CertDemo.db5 ["B"] (ct_ca c'))) /\
  (forall next old deadline, @None CErr = None -> CertAuthorityByID CertDemo.db4 "B" = Ok next -> CertAuthorityByID CertDemo.db4 (ca_rotates next) = Ok old -> trusts CertDemo.db4 ["A"] (ca_id old) -> ca_overlap next = Some deadline ->
    forall t, t < deadline -> exists ca, ca ∈ trusted CertDemo.db5 t ["B"] /\ ca_id ca = ca_id old /\ ca_pem ca = ca_pem old).
Proof.
  eapply (@rotation_keeps_trust CertDemo.crypto CertDemo.db4 CertDemo.db5 "B" true None 0 None CertDemo.db4_ok) with (i := 0%nat); [by vm_compute|by left|by vm_compute|by vm_compute].
Defined.

Lemma activation_interrupted_witness :
  (forall confirm w now, @handleActivateCA CertDemo.crypto CertDemo.db4' "B" confirm w now = (CertDemo.db4', Some NotStaged)) /\
  (forall next, CertAuthorityByID CertDemo.db4 "B" = Ok next -> forall c', c' ∈ leaves CertDemo.db4' -> exists c, c ∈ leaves CertDemo.db4 /\ ct_id c = ct_id c' /\ ct_ca c' <> ca_rotates next /\ (ct_ca c = ca_rotates next -> ct_ca c' = "B")) /\
  (forall sel, sel <> [] -> ("B" ∉ sel) -> forall t ca, ca ∈ trusted CertDemo.db4' t sel -> ca_id ca <> "B").
Proof.
  apply (@activation_interrupted CertDemo.crypto CertDemo.db4 CertDemo.db4' "B" true (Some 3%nat) 0 (Some WriteLost) CertDemo.db4_ok); [by vm_compute|done|by vm_compute|].
  intros (ca & Hca & Hid & Hs). assert (Forall (fun ca => ~ (ca_id ca = "B" /\ ca_status ca = CANext)) (cas CertDemo.db4')) as Hf by (apply (bool_decide_unpack _); by vm_compute).
  rewrite Forall_forall in Hf. by apply (Hf ca Hca).
Defined.

(** Two rotations within one overlap: the first root is still in force and in
    the full bundle, but a delivery that selected it no longer carries it; and a
    retired root still issues certificates, which no bundle covers once the
    overlap is over. *)
Theorem two_rotations_drop_root :
  map cd_bundle (cdels CertDemo.db7) = [["C"]] /\
  map ca_id (trusted CertDemo.db7 (2 * CertDemo.one_day) []) = ["A"; "B"; "C"] /\
  map ca_id (trusted CertDemo.db7 (2 * CertDemo.one_day) ["C"]) = ["B"; "C"] /\
  (let db := @run_op CertDemo.crypto (fun _ => None) (fun _ => None) (fun _ => "failed") [] (fun _ => true) CertDemo.db7 (2 * CertDemo.one_day)
       (OIssue (mkCertRequest "late" "" "A" ["late.example.org"] [] "" 0 0 "" "" "") "late") in
   map ct_ca (leaves db) = ["C"; "A"] /\ map ca_id (trusted db (40 * CertDemo.one_day) []) = ["C"]).
Proof. by vm_compute. Qed.
