(* ===== verification/VolSources.v ===== *)
(** * Volume sources: a volume whose content is a git subtree or a set of files

    Models [internal/store/volsources.go], [internal/stacks/tree.go],
    [internal/api/volsource_handlers.go] and [internal/api/volsource_sync.go] over
    the loop of [Mirror]; the deliveries that share a volume are those of
    [CertDeliveries]. What a clone returns is a parameter: the commit, or nothing
    when the credential, the connection or the ref fails. *)
From S2P Require Import Prelude GoStd Paths Timestamps Sans Keyrings Volumes Mirror Certs CertDeliveries.
From stdpp Require Import pretty.
Local Open Scope string_scope.
Local Open Scope list_scope.
Local Open Scope daffa_scope.
Local Open Scope Z_scope.

(** ** The tables *)

(** [vs_cred], [vs_stack], [vs_webhook] "" are NULL. *)
Record VolumeSource := mkVS {
  vs_id : string; vs_env : string; vs_vol : string; vs_kind : string; vs_url : string; vs_ref : string; vs_path : string; vs_cred : string; vs_uid : Z; vs_gid : Z;
  vs_stack : string; vs_restart : string; vs_auto : bool; vs_webhook : string; vs_hash : string; vs_commit : string; vs_synced : option Z; vs_status : string; vs_error : string;
  vs_warnings : string; vs_created : Z; vs_by : string }.
Record SDB := mkSDB { sources : list VolumeSource; inline_files : gmap string (list File) }.
(** What the rows refer to: the environment of a stack, of a webhook ("" for a
    webhook of the fleet). *)
Record Refs := mkRefs { r_envs : list string; r_stack : string -> option string; r_cred : string -> bool; r_webhook : string -> option string }.
Definition null_or (s : string) (f : bool) : bool := bool_decide (s = "") || f.
Definition refs_ok (R : Refs) (v : VolumeSource) : bool :=
  null_or (vs_cred v) (r_cred R (vs_cred v)) && null_or (vs_stack v) (bool_decide (is_Some (r_stack R (vs_stack v)))) && null_or (vs_webhook v) (bool_decide (is_Some (r_webhook R (vs_webhook v)))).

Definition same_volume (a b : VolumeSource) : bool := bool_decide (vs_env a = vs_env b) && bool_decide (vs_vol a = vs_vol b).
Definition created_source (v : VolumeSource) (now : Z) : VolumeSource :=
  mkVS (vs_id v) (vs_env v) (vs_vol v) (or_default (vs_kind v) "git") (vs_url v) (vs_ref v) (vs_path v) (vs_cred v) (vs_uid v) (vs_gid v) (vs_stack v) (vs_restart v) (vs_auto v) (vs_webhook v)
    (vs_hash v) (vs_commit v) (vs_synced v) (or_default (vs_status v) "pending") (vs_error v) (vs_warnings v) now (vs_by v).
Definition CreateVolumeSource (R : Refs) (db : SDB) (v : VolumeSource) (now : Z) : res KErr SDB :=
  let v := created_source v now in
  if existsb (fun x => bool_decide (vs_id x = vs_id v) || same_volume x v) (sources db) then Err ErrDuplicate
  else if negb (bool_decide (vs_env v ∈ r_envs R) && refs_ok R v) then Err ErrForeignKey
  else Ok (mkSDB (sources db ++ [v]) (inline_files db)).
Definition VolumeSourceByID (db : SDB) (id : string) : res KErr VolumeSource := by_id vs_id id (sources db).
Definition VolumeSourceByVolume (db : SDB) (env volume : string) : res KErr VolumeSource :=
  match List.find (fun v => bool_decide (vs_env v = env) && bool_decide (vs_vol v = volume)) (sources db) with Some v => Ok v | None => Err ErrNotFound end.
Definition ListVolumeSources (db : SDB) (global : bool) (envs : list string) : list VolumeSource :=
  ssort (fun a b => String.ltb (stamp (vs_created a)) (stamp (vs_created b))) (List.filter (fun v => global || bool_decide (vs_env v ∈ envs)) (sources db)).
Definition VolumeSourcesByStack (db : SDB) (stack : string) : list VolumeSource :=
  ssort (fun a b => String.ltb (vs_vol a) (vs_vol b)) (List.filter (fun v => negb (bool_decide (vs_stack v = "")) && bool_decide (vs_stack v = stack)) (sources db)).
(** Environment, volume and what the last sync left stay. *)
Definition UpdateVolumeSource (R : Refs) (db : SDB) (v : VolumeSource) : res KErr SDB :=
  if existsb (fun x => bool_decide (vs_id x = vs_id v)) (sources db) && negb (refs_ok R v) then Err ErrForeignKey
  else Ok (mkSDB (map (fun x => if bool_decide (vs_id x = vs_id v) then
      mkVS (vs_id x) (vs_env x) (vs_vol x) (vs_kind v) (vs_url v) (vs_ref v) (vs_path v) (vs_cred v) (vs_uid v) (vs_gid v) (vs_stack v) (vs_restart v) (vs_auto v) (vs_webhook v)
        (vs_hash x) (vs_commit x) (vs_synced x) (vs_status x) (vs_error x) (vs_warnings x) (vs_created x) (vs_by x)
    else x) (sources db)) (inline_files db)).
Definition vs_marked (hash commit warnings : string) (err : option string) (now : Z) (v : VolumeSource) : VolumeSource :=
  mkVS (vs_id v) (vs_env v) (vs_vol v) (vs_kind v) (vs_url v) (vs_ref v) (vs_path v) (vs_cred v) (vs_uid v) (vs_gid v) (vs_stack v) (vs_restart v) (vs_auto v) (vs_webhook v)
    hash commit (Some now) (match err with None => "ok" | Some _ => "error" end) (match err with None => "" | Some e => e end) warnings (vs_created v) (vs_by v).
Definition MarkVolumeSourceSynced (db : SDB) (id hash commit warnings : string) (err : option string) (now : Z) : SDB :=
  mkSDB (map (fun v => if bool_decide (vs_id v = id) then vs_marked hash commit warnings err now v else v) (sources db)) (inline_files db).
Definition DeleteVolumeSource (db : SDB) (id : string) : SDB :=
  mkSDB (List.filter (fun v => negb (bool_decide (vs_id v = id))) (sources db)) (delete id (inline_files db)).
(** One transaction: a path twice, or a source that is gone, changes nothing. *)
Definition SetVolSourceFiles (db : SDB) (id : string) (files : list File) : res KErr SDB :=
  if negb (bool_decide (NoDup (map fl_name files))) then Err ErrDuplicate
  else match files with
       | [] => Ok (mkSDB (sources db) (delete id (inline_files db)))
       | _ => if existsb (fun v => bool_decide (vs_id v = id)) (sources db) then Ok (mkSDB (sources db) (<[id := files]> (inline_files db))) else Err ErrForeignKey
       end.
Definition VolSourceFiles (db : SDB) (id : string) : list File := ssort (fun a b => String.ltb (fl_name a) (fl_name b)) (default [] (inline_files db !! id)).

(** ** A subtree of a commit *)

Definition maxTreeFiles : nat := 4096.
Definition maxTreeFileBytes : Z := 8 * 2 ^ 20.
Definition maxTreeBytes : Z := 32 * 2 ^ 20.
Inductive FileMode := Dir | Symlink | Submodule | Regular | Executable | Deprecated | OtherMode.
#[export] Instance FileMode_eq_dec : EqDecision FileMode.
Proof. solve_decision. Defined.
(** An entry the walker yields; [None]: the object could not be found, or read. *)
Record WalkEntry := mkEntry { we_name : string; we_mode : FileMode; we_size : option Z; we_data : option string }.
(** A walk ends at the end of the tree ([true]) or with an error. *)
Record Walk := mkWalk { wk_entries : list WalkEntry; wk_end : bool }.
Record Commit := mkCommit { cm_sha : string; cm_tree : string -> option Walk }.
Inductive TreeErr := NoDirectory | WalkFailed | IsSymlink (n : string) | IsSubmodule (n : string) | StrangeMode (n : string) | Outside (n : string) | TooManyFiles
| Unreadable (n : string) | FileTooBig (n : string) | TreeTooBig | NoFiles.

Definition path_join (dir name : string) : string := path.Clean (dir +:+ "/" +:+ name).
Definition looksLikePrivateKey (b : string) : bool := strings.Contains b "AGE-SECRET-KEY-" || strings.Contains b "PRIVATE KEY-----".
Definition key_warning (n : string) : string :=
  n +:+ " looks like it carries a private key — a repository is the wrong place for one; secrets belong in sealed stack env vars or a cert delivery".
Definition stays_inside (n : string) : bool :=
  bool_decide (n = path.Clean n) && negb (strings.HasPrefix n "/" || bool_decide (n = "..") || strings.HasPrefix n "../" || strings.Contains n "/../").
Definition mode_err (m : FileMode) (n : string) : option TreeErr :=
  match m with Symlink => Some (IsSymlink n) | Submodule => Some (IsSubmodule n) | OtherMode => Some (StrangeMode n) | _ => None end.
(** The loop: the files so far, their warnings, their size. *)
Fixpoint walk_go (dir : string) (l : list WalkEntry) (ended : bool) (files : list File) (warnings : list string) (total : Z) : res TreeErr (list File * list string) :=
  match l with
  | [] => if ended then Ok (files, warnings) else Err WalkFailed
  | e :: l =>
      let n := we_name e in
      if bool_decide (we_mode e = Dir) then walk_go dir l ended files warnings total
      else match mode_err (we_mode e) (path_join dir n) with
      | Some err => Err err
      | None =>
          if negb (stays_inside n) then Err (Outside n)
          else if (maxTreeFiles <=? length files)%nat then Err TooManyFiles
          else match we_size e with
          | None => Err (Unreadable (path_join dir n))
          | Some size =>
              if maxTreeFileBytes <? size then Err (FileTooBig (path_join dir n))
              else let total := total + size in
              if maxTreeBytes <? total then Err TreeTooBig
              else match we_data e with
              | None => Err (Unreadable (path_join dir n))
              | Some b => walk_go dir l ended (files ++ [mkFile n b (if bool_decide (we_mode e = Executable) then 493 else 420)])
                            (if looksLikePrivateKey b then warnings ++ [key_warning (path_join dir n)] else warnings) total
              end
          end
      end
  end.
Definition treeFiles (c : Commit) (dir : string) : res TreeErr (list File * list string) :=
  let dir := path.Clean (strings.TrimPrefix dir "/") in
  match cm_tree c (if bool_decide (dir = ".") then "" else dir) with
  | None => Err NoDirectory
  | Some w =>
      let* r := walk_go dir (wk_entries w) (wk_end w) [] [] 0 in
      match r.1 with
      | [] => Err NoFiles
      | _ => Ok (ssort (fun a b => String.ltb (fl_name a) (fl_name b)) r.1, r.2)
      end
  end.

(** ** The handlers *)

Inductive SrcErr := Negative | NoStack | StackElsewhere | NeedsURL | NoCredential | NoWebhook | WebhookElsewhere | NeedsWebhook | NeedsFile | EmptyPath | BadPath (p : string)
| DuplicatePath (p : string) | OwnedByDelivery (n : string) | OwnedByFleet (n : string) | BadKind | SrcNotConnected | BadVolumeName | VolumeHasSource | SrcStore (e : KErr) | OneWay | GitUnreachable
| CloneFailed | Tree (e : TreeErr) | SyncFailed (nodes : list string).

Record SourceRequest := mkSR {
  sq_env : string; sq_vol : string; sq_kind : string; sq_url : string; sq_ref : string; sq_path : string; sq_cred : string; sq_files : list File; sq_uid : Z; sq_gid : Z;
  sq_stack : string; sq_restart : string; sq_auto : bool; sq_webhook : string }.

(** [dockerVolumeName]: ^[a-zA-Z0-9][a-zA-Z0-9_.-]{0,127}$ *)
Definition dockerVolumeName (s : string) : bool :=
  match s with
  | "" => false
  | String c r => is_alnum c && strings.all_chars (fun c => is_alnum c || bool_decide (c = "_"%char) || bool_decide (c = "."%char) || bool_decide (c = "-"%char)) r && (String.length r <=? 127)%nat
  end.

Fixpoint files_go (l : list File) (seen : list string) (out : list File) : res SrcErr (list File) :=
  match l with
  | [] => Ok out
  | f :: l =>
      let p := strings.TrimSpace (fl_name f) in
      if bool_decide (p = "") then Err EmptyPath
      else if strings.HasPrefix p "/" || negb (bool_decide (p = path.Clean p)) || strings.HasPrefix p "../" || bool_decide (p = "..") then Err (BadPath (fl_name f))
      else if bool_decide (p ∈ seen) then Err (DuplicatePath p)
      else files_go l (p :: seen) (out ++ [mkFile p (fl_data f) (fl_mode f)])
  end.
Definition volSourceFilesFromRequest (l : list File) : res SrcErr (list File) := files_go l [] [].

Definition linkableWebhook (R : Refs) (wh env : string) : res SrcErr string :=
  if bool_decide (wh = "") then Ok ""
  else match r_webhook R wh with
       | None => Err NoWebhook
       | Some e => if negb (bool_decide (e = "")) && negb (bool_decide (e = env)) then Err WebhookElsewhere else Ok wh
       end.
Definition check_stack (R : Refs) (stack env : string) : res SrcErr unit :=
  if bool_decide (stack = "") then Ok tt
  else match r_stack R stack with None => Err NoStack | Some e => if bool_decide (e = env) then Ok tt else Err StackElsewhere end.
(** The names of a source against those the deliveries on its volume own. *)
Definition clash (cdb : CDB) (env volume : string) (names : list string) : option SrcErr :=
  match refuseDeliveryOwnedNames cdb env volume names with
  | Some n => Some (OwnedByDelivery n)
  | None => match refuseFleetOwnedNames cdb env volume names with Some n => Some (OwnedByFleet n) | None => None end
  end.
Definition with_request (v : VolumeSource) (kind url ref path cred : string) (auto : bool) (wh : string) (req : SourceRequest) : VolumeSource :=
  mkVS (vs_id v) (vs_env v) (vs_vol v) kind url ref path cred (sq_uid req) (sq_gid req) (sq_stack req) (strings.TrimSpace (sq_restart req)) auto wh
    (vs_hash v) (vs_commit v) (vs_synced v) (vs_status v) (vs_error v) (vs_warnings v) (vs_created v) (vs_by v).
Definition applyVolumeSourceRequest (R : Refs) (cdb : CDB) (req : SourceRequest) (v : VolumeSource) : res SrcErr VolumeSource :=
  if (sq_uid req <? 0) || (sq_gid req <? 0) then Err Negative
  else
    let* _ := check_stack R (sq_stack req) (vs_env v) in
    let kind := or_default (or_default (sq_kind req) (vs_kind v)) "git" in
    if bool_decide (kind = "git") then
      if bool_decide (strings.TrimSpace (sq_url req) = "") then Err NeedsURL
      else if negb (null_or (sq_cred req) (r_cred R (sq_cred req))) then Err NoCredential
      else
        let* wh := linkableWebhook R (sq_webhook req) (vs_env v) in
        if sq_auto req && bool_decide (wh = "") then Err NeedsWebhook
        else Ok (with_request v kind (strings.TrimSpace (sq_url req)) (strings.TrimSpace (sq_ref req)) (strings.TrimSpace (sq_path req)) (sq_cred req) (sq_auto req) wh req)
    else if bool_decide (kind = "inline") then
      match sq_files req with
      | [] => Err NeedsFile
      | _ =>
          let* files := volSourceFilesFromRequest (sq_files req) in
          match clash cdb (vs_env v) (vs_vol v) (map fl_name files) with
          | Some e => Err e
          | None => Ok (with_request v kind "" "" "" "" false "" req)
          end
      end
    else Err BadKind.

(** The files of the request; on an error, none (the error is dropped). *)
Definition request_files (req : SourceRequest) : list File := match volSourceFilesFromRequest (sq_files req) with Ok l => l | Err _ => [] end.
Definition blank_source (id env vol by_ : string) : VolumeSource := mkVS id env vol "" "" "" "" "" 0 0 "" "" false "" "" "" None "" "" "" 0 by_.
(** [inl]: refused. [inr]: the row to sync in the background. *)
Definition handleCreateVolumeSource (R : Refs) (connected : string -> bool) (cdb : CDB) (db : SDB) (req : SourceRequest) (id user : string) (now : Z) : SDB * (SrcErr + string) :=
  if negb (connected (sq_env req)) then (db, inl SrcNotConnected)
  else if negb (dockerVolumeName (sq_vol req)) then (db, inl BadVolumeName)
  else match applyVolumeSourceRequest R cdb req (blank_source id (sq_env req) (sq_vol req) user) with
  | Err e => (db, inl e)
  | Ok v => match CreateVolumeSource R db v now with
      | Err ErrDuplicate => (db, inl VolumeHasSource)
      | Err e => (db, inl (SrcStore e))
      | Ok db => if bool_decide (vs_kind v = "inline") then
                   match SetVolSourceFiles db (vs_id v) (request_files req) with Err e => (db, inl (SrcStore e)) | Ok db => (db, inr (vs_id v)) end
                 else (db, inr (vs_id v))
      end
  end.
Definition handleDeleteVolumeSource (db : SDB) (id : string) : SDB * option SrcErr :=
  match VolumeSourceByID db id with Err e => (db, Some (SrcStore e)) | Ok v => (DeleteVolumeSource db (vs_id v), None) end.

(** ** The reconciler *)

(** Octal, as [%o] prints it; an int64 has at most 22 digits. *)
Fixpoint octal_go (fuel : nat) (z : Z) (acc : string) : string :=
  let acc := String (ascii_of_nat (Z.to_nat (z mod 8) + 48)) acc in
  match fuel with O => acc | S fuel => if z <? 8 then acc else octal_go fuel (z / 8) acc end.
Definition octal (z : Z) : string := if z <? 0 then "-" +:+ octal_go 22 (- z) "" else octal_go 22 z "".
Definition hashed_file (f : File) : string := fl_name f +:+ nul_byte +:+ octal (fl_mode f) +:+ nul_byte +:+ pretty_len (fl_data f) +:+ nul_byte +:+ fl_data f.
Definition hashed_tree (files : list File) (uid gid : Z) : string := foldr (fun f s => hashed_file f +:+ s) (owner_line uid gid) files.

Section Sync.
Context `{Crypto} (sha256_hex : string -> string) (nodes : string -> option (list string)) (del_text : DelErr -> string) (src_text : SrcErr -> string).
(** A clone at (url, ref) with a credential. *)
Context (clone : string -> string -> string -> option Commit).
Definition volumeSourceHash (files : list File) (uid gid : Z) : string := sha256_hex (hashed_tree files uid gid).
Record ResolvedTree := mkTree { rt_files : list File; rt_commit : string; rt_warnings : list string }.
Definition inlineTree (db : SDB) (v : VolumeSource) : ResolvedTree := mkTree (VolSourceFiles db (vs_id v)) "" [].
Definition ResolveTree (v : VolumeSource) : res SrcErr ResolvedTree :=
  match clone (vs_url v) (vs_ref v) (vs_cred v) with
  | None => Err CloneFailed
  | Some c => match treeFiles c (vs_path v) with Err e => Err (Tree e) | Ok r => Ok (mkTree r.1 (cm_sha c) r.2) end
  end.
Definition resolve_source (db : SDB) (v : VolumeSource) : res SrcErr ResolvedTree :=
  if bool_decide (vs_kind v = "inline") then Ok (inlineTree db v) else ResolveTree v.
Definition probeVolumeSourceGit (v : VolumeSource) : option SrcErr := match ResolveTree v with Err _ => Some GitUnreachable | Ok _ => None end.

(** Only inline to git; the probe runs before anything is written. *)
Definition handleUpdateVolumeSource (R : Refs) (cdb : CDB) (db : SDB) (v : VolumeSource) (req : SourceRequest) : SDB * option SrcErr :=
  let switching := negb (bool_decide (sq_kind req = "")) && negb (bool_decide (sq_kind req = vs_kind v)) in
  if switching && (negb (bool_decide (vs_kind v = "inline")) || negb (bool_decide (sq_kind req = "git"))) then (db, Some OneWay)
  else match applyVolumeSourceRequest R cdb req v with
  | Err e => (db, Some e)
  | Ok v =>
      match (if switching then probeVolumeSourceGit v else None) with
      | Some e => (db, Some e)
      | None => match UpdateVolumeSource R db v with
          | Err e => (db, Some (SrcStore e))
          | Ok db =>
              let set l := match SetVolSourceFiles db (vs_id v) l with Err e => (db, Some (SrcStore e)) | Ok db => (db, None) end in
              if switching then set [] else if bool_decide (vs_kind v = "inline") then set (request_files req) else (db, None)
          end
      end
  end.

(** The sources beside the world of the deliveries. *)
Record SWorld := mkSW { sw_db : SDB; sw_del : DWorld }.
Definition source_want (rt : ResolvedTree) (hash : string) (uid gid : Z) : Want :=
  mkWant (rt_files rt) (ManifestOf (rt_commit rt) hash (map fl_name (rt_files rt))) uid gid.
(** What a sync answers: hash, commit, warnings, error. *)
Record SyncOut := mkOut { o_hash : string; o_commit : string; o_warnings : string; o_err : option SrcErr }.
Definition syncVolumeSource (ends : Ends) (st : SWorld) (v : VolumeSource) : SWorld * SyncOut :=
  match resolve_source (sw_db st) v with
  | Err e => (st, mkOut "" "" "" (Some e))
  | Ok rt =>
      let hash := volumeSourceHash (rt_files rt) (vs_uid v) (vs_gid v) in
      let out := mkOut hash (rt_commit rt) (strings.Join (rt_warnings rt) (String newline "")) in
      if bool_decide (hash = vs_hash v) && bool_decide (vs_status v = "ok") then (st, out None)
      else match clash (dw_db (sw_del st)) (vs_env v) (vs_vol v) (map fl_name (rt_files rt)) with
      | Some e => (st, out (Some e))
      | None => match nodes (vs_env v) with
          | None => (st, out (Some SrcNotConnected))
          | Some ns =>
              let d := sw_del st in
              let '(disks, errs) := mirror_nodes ManifestName (vs_env v) (vs_vol v) (source_want rt hash (vs_uid v) (vs_gid v)) (ends (vs_id v)) ns (dw_disks d) in
              (mkSW (sw_db st) (mkDW (dw_db d) disks (dw_restarts d ++ restarted (vs_env v) (vs_restart v) ns errs)), out (match errs with [] => None | _ => Some (SyncFailed errs) end))
          end
      end
  end.
Definition reportVolumeSourceSync (now : Z) (ends : Ends) (st : SWorld) (v : VolumeSource) : SWorld * option SrcErr :=
  let '(st, o) := syncVolumeSource ends st v in
  if negb (bool_decide (is_Some (o_err o))) && bool_decide (o_hash o = vs_hash v) && bool_decide (o_commit o = vs_commit v) && bool_decide (vs_status v = "ok") then (st, None)
  else (mkSW (MarkVolumeSourceSynced (sw_db st) (vs_id v) (o_hash o) (o_commit o) (o_warnings o) (src_text <$> o_err o) now) (sw_del st), o_err o).
Definition handleSyncVolumeSource (now : Z) (ends : Ends) (st : SWorld) (v : VolumeSource) : SWorld * option SrcErr :=
  reportVolumeSourceSync now ends st
    (mkVS (vs_id v) (vs_env v) (vs_vol v) (vs_kind v) (vs_url v) (vs_ref v) (vs_path v) (vs_cred v) (vs_uid v) (vs_gid v) (vs_stack v) (vs_restart v) (vs_auto v) (vs_webhook v)
      "" (vs_commit v) (vs_synced v) (vs_status v) (vs_error v) (vs_warnings v) (vs_created v) (vs_by v)).

(** The sources of a stack, before its deploy: each one, then the deliveries on
    its volume, which a failed source skips. The volumes that failed. *)
Definition sync_delivery (now : Z) (ends : Ends) (vol : string) (acc : SWorld * list string) (d : CertDelivery) : SWorld * list string :=
  let '(w, err) := reportDeliverySync sha256_hex nodes del_text now ends (sw_del acc.1) d in
  (mkSW (sw_db acc.1) w, acc.2 ++ match err with None => [] | Some _ => [vol] end).
Definition sync_with_volume (now : Z) (ends : Ends) (acc : SWorld * list string) (v : VolumeSource) : SWorld * list string :=
  let '(st, err) := reportVolumeSourceSync now ends acc.1 v in
  match err with
  | Some _ => (st, acc.2 ++ [vs_vol v])
  | None =>
      let acc := fold_left (sync_delivery now ends (vs_vol v)) (DeliveriesForVolume (dw_db (sw_del st)) (vs_env v) (vs_vol v)) (st, acc.2) in
      match FleetDeliveryForVolume (dw_db (sw_del acc.1)) (vs_env v) (vs_vol v) with
      | Err _ => acc
      | Ok fd => let '(w, err) := reportFleetDeliverySync sha256_hex nodes del_text now ends (sw_del acc.1) fd in
                 (mkSW (sw_db acc.1) w, acc.2 ++ match err with None => [] | Some _ => [vs_vol v] end)
      end
  end.
Definition syncStackVolumeSources (now : Z) (ends : Ends) (st : SWorld) (stack : string) : SWorld * list string :=
  fold_left (sync_with_volume now ends) (VolumeSourcesByStack (sw_db st) stack) (st, []).
End Sync.
