(* ===== verification/DeliveryCases.v ===== *)
(** * What the deliveries promise

    The bytes a delivery and a source are hashed by ([CertDeliveries.hashed],
    [VolSources.hashed_tree]), what a sync leaves on every node, and what two
    deliveries on one volume do to each other. *)
From S2P Require Import Prelude GoStd Paths Timestamps Sans Keyrings Volumes Mirror MirrorCases Certs Rotation CertDeliveries CertCases VolSources.
From stdpp Require Import pretty.
Local Open Scope string_scope.
Local Open Scope list_scope.
Local Open Scope daffa_scope.
Local Open Scope Z_scope.

(** ** Numbers as text *)

Definition NULc : ascii := ascii_of_nat 0.
Lemma has_char_app f a b : strings.has_char f (a +:+ b) = strings.has_char f a || strings.has_char f b.
Proof. induction a as [|c a IH]; [done|]. simpl. rewrite IH. by rewrite orb_assoc. Qed.
Lemma no_char_app c a b : no_char c (a +:+ b) <-> no_char c a /\ no_char c b.
Proof. unfold no_char. rewrite has_char_app. apply orb_false_iff. Qed.

Definition no_digit (c : ascii) : Prop := is_digit c = false /\ c <> "-"%char.
Lemma pretty_char_digit n : (n < 10)%N -> is_digit (pretty_N_char n) = true.
Proof.
  intros H. assert (n ∈ map N.of_nat (seq 0 10)) as Hin by (apply list_elem_of_fmap; exists (N.to_nat n); split; [lia|apply elem_of_seq; lia]).
  assert (Forall (fun n => is_digit (pretty_N_char n) = true) (map N.of_nat (seq 0 10))) as Hf by (apply (bool_decide_unpack _); by vm_compute).
  rewrite Forall_forall in Hf. by apply Hf.
Qed.
Lemma pretty_go_no c n s : is_digit c = false -> no_char c s -> no_char c (pretty_N_go n s).
Proof.
  intros Hc. revert s. induction (N.lt_wf_0 n) as [n _ IH]; intros s Hs. destruct (decide (n = 0)%N) as [->|Hn]; [by rewrite pretty_N_go_0|].
  rewrite pretty_N_go_step by lia. apply IH; [apply N.div_lt; lia|]. unfold no_char in *. simpl. rewrite Hs, orb_false_r. apply bool_decide_eq_false. intros E.
  rewrite <- E, pretty_char_digit in Hc; [done|]. by apply N.mod_lt.
Qed.
Lemma pretty_N_no c (n : N) : is_digit c = false -> no_char c (pretty n).
Proof.
  intros Hc. unfold pretty, pretty_N. case_decide; [|by apply pretty_go_no]. unfold no_char. simpl. rewrite orb_false_r. apply bool_decide_eq_false. by intros <-.
Qed.
Lemma pretty_Z_no c (z : Z) : no_digit c -> no_char c (pretty z).
Proof.
  intros [Hc Hd]. destruct z as [|p|p]; simpl.
  - unfold no_char. simpl. rewrite orb_false_r. apply bool_decide_eq_false. by intros <-.
  - by apply (pretty_N_no c (N.pos p)).
  - change (pretty (Z.neg p)) with (String "-" (pretty (N.pos p))). unfold no_char. simpl. apply orb_false_iff. split; [by apply bool_decide_eq_false|by apply pretty_N_no].
Qed.

(** ** Cutting *)

Lemma cut_at c a b x y : no_char c a -> no_char c b -> a +:+ String c x = b +:+ String c y -> a = b /\ x = y.
Proof.
  unfold no_char. revert b. induction a as [|d a IH]; intros [|e b] Ha Hb E; simpl in *.
  - by injection E.
  - injection E as -> _. by rewrite bool_decide_eq_true_2 in Hb.
  - injection E as -> _. by rewrite bool_decide_eq_true_2 in Ha.
  - injection E as -> E. apply orb_false_iff in Ha as [_ Ha], Hb as [_ Hb]. by destruct (IH b Ha Hb E) as [-> ->].
Qed.
Lemma same_length_app a b x y : String.length a = String.length b -> a +:+ x = b +:+ y -> a = b /\ x = y.
Proof.
  revert b. induction a as [|c a IH]; intros [|d b] Hl E; simpl in *; try done. injection E as -> E. injection Hl as Hl. by destruct (IH b Hl E) as [-> ->].
Qed.

(** A record of the hashed text: fields, each closed by a NUL, then the length of
    the data and the data. *)
Definition frame (r : list string * string) (rest : string) : string :=
  foldr (fun h s => h +:+ nul_byte +:+ s) (pretty_len r.2 +:+ nul_byte +:+ r.2 +:+ rest) r.1.
Definition frames (l : list (list string * string)) (last : string) : string := foldr frame last l.
Definition frame_ok (n : nat) (r : list string * string) : Prop := length r.1 = n /\ Forall (no_char NULc) r.1.

Lemma fields_inj hs hs' x y : length hs = length hs' -> Forall (no_char NULc) hs -> Forall (no_char NULc) hs' ->
  foldr (fun h s => h +:+ nul_byte +:+ s) x hs = foldr (fun h s => h +:+ nul_byte +:+ s) y hs' -> hs = hs' /\ x = y.
Proof.
  revert hs'. induction hs as [|h hs IH]; intros [|h' hs'] Hl H1 H2 E; simpl in *; try done. apply Forall_cons in H1 as [H1 H1'], H2 as [H2 H2'].
  apply (cut_at NULc h h') in E as [-> E]; [|done..]. injection Hl as Hl. by destruct (IH hs' Hl H1' H2' E) as [-> ->].
Qed.
Lemma frame_inj n r r' x y : frame_ok n r -> frame_ok n r' -> frame r x = frame r' y -> r = r' /\ x = y.
Proof.
  intros [Hl Hn] [Hl' Hn'] E. unfold frame in E. apply fields_inj in E as [E1 E]; [|congruence|done..].
  apply (cut_at NULc) in E as [Ep E]; [|by apply pretty_N_no..]. unfold pretty_len in Ep. apply (inj pretty) in Ep. apply same_length_app in E as [E2 ->]; [|lia]. destruct r, r'. simpl in *. by subst.
Qed.
Lemma frame_has_nul r x : ~ no_char NULc (frame r x).
Proof.
  assert (forall hs y, ~ no_char NULc y -> ~ no_char NULc (foldr (fun h s => h +:+ nul_byte +:+ s) y hs)) as Hf.
  { induction hs as [|h hs IH]; intros y Hy; [done|]. simpl. rewrite !no_char_app. intros (_ & _ & Hn). by apply (IH y Hy). }
  apply Hf. rewrite !no_char_app. by intros (_ & Hn & _).
Qed.
Lemma frames_inj n l l' last last' : Forall (frame_ok n) l -> Forall (frame_ok n) l' -> no_char NULc last -> no_char NULc last' -> frames l last = frames l' last' -> l = l' /\ last = last'.
Proof.
  intros Hl. revert l'. induction Hl as [|r l Hr Hl IH]; intros l' Hl' H1 H2 E; destruct Hl' as [|r' l' Hr' Hl']; simpl in E; [done| | |].
  - subst last. by destruct (frame_has_nul _ _ H1).
  - subst last'. by destruct (frame_has_nul _ _ H2).
  - apply (frame_inj n) in E as [-> E]; [|done..]. by destruct (IH l' Hl' H1 H2 E) as [-> ->].
Qed.

Lemma owner_no_nul uid gid : no_char NULc (owner_line uid gid).
Proof. unfold owner_line. rewrite !no_char_app. split_and!; [done| |done|]; by apply pretty_Z_no. Qed.
Lemma owner_inj uid gid uid' gid' : owner_line uid gid = owner_line uid' gid' -> uid = uid' /\ gid = gid'.
Proof.
  unfold owner_line. intros E. apply (same_length_app "uid=" "uid=") in E as [_ E]; [|done]. apply (cut_at " " (pretty uid) (pretty uid')) in E as [Eu E]; [|by apply pretty_Z_no..].
  apply (same_length_app "gid=" "gid=") in E as [_ E]; [|done]. split; by apply (inj pretty).
Qed.

(** ** The bytes that are hashed *)

Lemma hashed_frames m uid gid : hashed m uid gid = frames (map (fun n => ([n], default "" (m !! n))) (sorted_names m)) (owner_line uid gid).
Proof. unfold hashed, frames. induction (sorted_names m) as [|n l IH]; [done|]. simpl. rewrite IH. unfold frame, hashed_entry. simpl. by rewrite !app_assoc_s. Qed.
Lemma elem_sorted (m : Files) n : n ∈ sorted_names m <-> is_Some (m !! n).
Proof.
  unfold sorted_names. rewrite ssort_perm. split.
  - intros ([k v] & -> & Hin)%list_elem_of_fmap. apply elem_of_map_to_list in Hin. simpl. eauto.
  - intros [v Hv]. apply list_elem_of_fmap. exists (n, v). split; [done|]. by apply elem_of_map_to_list.
Qed.

Definition octal_value (v : Z) (s : string) : Z := fold_left (fun v c => 8 * v + (Z.of_nat (nat_of_ascii c) - 48)) (String.list_ascii_of_string s) v.
Lemma octal_digit z : is_digit (ascii_of_nat (Z.to_nat (z mod 8) + 48)) = true /\ Z.of_nat (nat_of_ascii (ascii_of_nat (Z.to_nat (z mod 8) + 48))) - 48 = z mod 8.
Proof.
  pose proof (Z.mod_pos_bound z 8 ltac:(lia)) as Hb. assert (Z.to_nat (z mod 8) ∈ seq 0 8) as Hin by (apply elem_of_seq; lia).
  assert (Forall (fun n => is_digit (ascii_of_nat (n + 48)) = true /\ nat_of_ascii (ascii_of_nat (n + 48)) = (n + 48)%nat) (seq 0 8)) as Hf by (apply (bool_decide_unpack _); by vm_compute).
  rewrite Forall_forall in Hf. destruct (Hf _ Hin) as [-> ->]. split; [done|]. lia.
Qed.
Lemma octal_go_value fuel z acc : 0 <= z < 8 ^ (Z.of_nat fuel + 1) -> octal_value 0 (octal_go fuel z acc) = octal_value z acc.
Proof.
  revert z acc. induction fuel as [|fuel IH]; intros z acc Hz.
  - cbn [octal_go]. unfold octal_value. simpl. destruct (octal_digit z) as [_ ->]. rewrite Z.mod_small by (simpl in Hz; lia). done.
  - cbn [octal_go]. destruct (z <? 8) eqn:E.
    + unfold octal_value. simpl. destruct (octal_digit z) as [_ ->]. rewrite Z.mod_small by (bd; lia). done.
    + rewrite IH.
      * unfold octal_value. simpl. destruct (octal_digit z) as [_ ->]. f_equal. pose proof (Z.div_mod z 8 ltac:(lia)). lia.
      * split; [apply Z.div_pos; lia|]. apply Z.div_lt_upper_bound; [lia|]. replace (Z.of_nat (S fuel) + 1) with (Z.succ (Z.of_nat fuel + 1)) in Hz by lia. rewrite Z.pow_succ_r in Hz by lia. lia.
Qed.
Definition digits (s : string) : Prop := strings.all_chars is_digit s = true.
Lemma octal_go_digits fuel z acc : digits acc -> digits (octal_go fuel z acc).
Proof.
  revert z acc. induction fuel as [|fuel IH]; intros z acc Ha; cbn [octal_go]; destruct (octal_digit z) as [Hd _];
    (assert (digits (String (ascii_of_nat (Z.to_nat (z mod 8) + 48)) acc)) as Hc by (unfold digits; rewrite all_chars_cons, Ha; by rewrite Hd)); [done|].
  destruct (z <? 8); [done|]. by apply IH.
Qed.
Lemma digits_no c s : is_digit c = false -> digits s -> no_char c s.
Proof. apply all_chars_no. Qed.
Lemma octal_inj a b : - 2 ^ 63 <= a < 2 ^ 63 -> - 2 ^ 63 <= b < 2 ^ 63 -> octal a = octal b -> a = b.
Proof.
  assert (8 ^ (Z.of_nat 22 + 1) = 2 ^ 69) as Ep by done. assert (forall f z, no_char "-" (octal_go f z "")) as Hd by (intros; by apply digits_no; [|apply octal_go_digits]).
  assert (forall x y, 0 <= x < 2 ^ 69 -> 0 <= y < 2 ^ 69 -> octal_go 22 x "" = octal_go 22 y "" -> x = y) as Hi.
  { intros x y Hx Hy E. pose proof (octal_go_value 22 x "" ltac:(lia)) as H1. rewrite E, octal_go_value in H1 by lia. done. }
  intros Ha Hb. unfold octal. destruct (Z.ltb_spec a 0), (Z.ltb_spec b 0); intros E.
  - apply (same_length_app "-" "-") in E as [_ E]; [|done]. apply Hi in E; lia.
  - pose proof (Hd 22%nat b) as Hn. by rewrite <- E in Hn.
  - pose proof (Hd 22%nat a) as Hn. by rewrite E in Hn.
  - apply Hi in E; lia.
Qed.
Lemma octal_no_nul z : no_char NULc (octal z).
Proof. unfold octal. case_match; [apply no_char_app; split; [done|]|]; by apply digits_no; [|apply octal_go_digits]. Qed.

Lemma tree_frames files uid gid : hashed_tree files uid gid = frames (map (fun f => ([fl_name f; octal (fl_mode f)], fl_data f)) files) (owner_line uid gid).
Proof. unfold hashed_tree, frames. induction files as [|f l IH]; [done|]. simpl. rewrite IH. unfold frame, hashed_file. simpl. by rewrite !app_assoc_s. Qed.

(** What is compared before a sync is skipped covers all that would be
    written: two deliveries hash the same bytes only with the same names, the
    same contents and the same owner, and two sources only with the same files,
    modes and owner, in the same order — whatever the contents are, as long as
    no name has a NUL. *)
Theorem hash_covers_content :
  (forall m m' uid gid uid' gid', map_Forall (fun n _ => no_char NULc n) m -> map_Forall (fun n _ => no_char NULc n) m' ->
    hashed m uid gid = hashed m' uid' gid' <-> m = m' /\ uid = uid' /\ gid = gid') /\
  (forall l l' uid gid uid' gid', Forall (fun f => no_char NULc (fl_name f) /\ - 2 ^ 63 <= fl_mode f < 2 ^ 63) (l ++ l') ->
    hashed_tree l uid gid = hashed_tree l' uid' gid' <-> l = l' /\ uid = uid' /\ gid = gid').
Proof.
  split.
  - intros m m' uid gid uid' gid' Hm Hm'. split; [|by intros (-> & -> & ->)]. rewrite !hashed_frames. intros E.
    assert (forall m : Files, map_Forall (fun n _ => no_char NULc n) m -> Forall (frame_ok 1) (map (fun n => ([n], default "" (m !! n))) (sorted_names m))) as Hok.
    { intros k Hk. apply Forall_forall. intros r (n & -> & [v Hv]%elem_sorted)%list_elem_of_fmap. split; [done|]. constructor; [by apply (Hk n v)|by constructor]. }
    apply (frames_inj 1) in E as [E1 E2]; [|apply Hok; done|apply Hok; done|apply owner_no_nul|apply owner_no_nul]. split; [|by apply owner_inj].
    assert (sorted_names m = sorted_names m') as En by (apply (f_equal (map (fun r => default "" (head r.1)))) in E1; rewrite !map_map in E1; simpl in E1; by rewrite !map_id in E1).
    apply map_eq. intros n. destruct (decide (n ∈ sorted_names m)) as [Hn|Hn].
    + rewrite En in E1. assert (default "" (m !! n) = default "" (m' !! n)) as Ev.
      { rewrite En in Hn. clear -E1 Hn. induction Hn as [n l|n k l _ IH]; simpl in E1; injection E1 as E1 E2; auto. }
      rewrite elem_sorted in Hn. pose proof Hn as Hn'. rewrite <- elem_sorted, En, elem_sorted in Hn'. destruct Hn as [v Hv], Hn' as [v' Hv']. rewrite Hv, Hv' in Ev |- *. simpl in Ev. by rewrite Ev.
    + pose proof Hn as Hn'. rewrite En in Hn'. rewrite elem_sorted in Hn, Hn'. apply eq_None_not_Some in Hn, Hn'. congruence.
  - intros l l' uid gid uid' gid' H. split; [|by intros (-> & -> & ->)]. rewrite !tree_frames. intros E. apply Forall_app in H as [H H'].
    assert (forall l, Forall (fun f => no_char NULc (fl_name f) /\ - 2 ^ 63 <= fl_mode f < 2 ^ 63) l -> Forall (frame_ok 2) (map (fun f => ([fl_name f; octal (fl_mode f)], fl_data f)) l)) as Hok.
    { intros k Hk. apply Forall_map. eapply Forall_impl; [exact Hk|]. intros f [Hf _]. split; [done|]. constructor; [done|]. constructor; [apply octal_no_nul|by constructor]. }
    apply (frames_inj 2) in E as [E1 E2]; [|apply Hok; done|apply Hok; done|apply owner_no_nul|apply owner_no_nul]. split; [|by apply owner_inj].
    revert l' H' E1. induction H as [|f l [_ Hf] _ IH]; intros l' H' E1; destruct H' as [|f' l' [_ Hf'] H']; simpl in E1; try done. injection E1 as En Em Ed E1.
    apply octal_inj in Em; [|done..]. f_equal; [destruct f, f'; simpl in *; congruence|by apply IH].
Qed.

(** ** Plain file names *)

(** Letters, digits, dots, underscores and dashes, not starting with a dot. *)
Definition plain_file (n : string) : Prop := strings.all_chars name_rest n = true /\ n <> "" /\ strings.HasPrefix n "." = false.

Lemma strip_plain pats s : forallb (fun p => match p with String c _ => negb (name_rest c) | "" => false end) pats = true -> strings.all_chars name_rest s = true -> strings.strip pats s = s.
Proof.
  intros Hp Hs. unfold strings.strip. destruct s as [|c s]; [done|]. simpl. unfold strings.strip_one. destruct (List.find _ pats) as [p|] eqn:E; [|done].
  apply List.find_some in E as [Hin E]. rewrite forallb_forall in Hp. specialize (Hp p Hin). destruct p as [|d p]; [done|].
  rewrite all_chars_cons in Hs. apply andb_prop in Hs as [Hc _]. apply HasPrefix_spec in E as [t E]. injection E as -> _. by rewrite Hc in Hp.
Qed.
Lemma srev_chars f s : strings.all_chars f (strings.srev s) = strings.all_chars f s.
Proof.
  induction s as [|c s IH]; [done|]. change (String c s) with (String c "" +:+ s). rewrite srev_app_s, !all_chars_app, IH. apply andb_comm.
Qed.
Lemma TrimSpace_plain s : strings.all_chars name_rest s = true -> strings.TrimSpace s = s.
Proof.
  intros Hs. unfold strings.TrimSpace. rewrite (strip_plain strings.spaces) by (done || by vm_compute). rewrite strip_plain; [apply srev_srev|by vm_compute|by rewrite srev_chars].
Qed.
Lemma plain_name n : plain_file n -> path.Clean n = n /\ removable n = true /\ recordable n /\ no_char NULc n.
Proof.
  intros (Hc & Hne & Hd). assert (no_char slash n) as Hs by (by apply (all_chars_no name_rest)). assert (n <> "." /\ n <> "..") as [H1 H2] by (by split; intros ->).
  assert (path.IsAbs n = false) as Ha by (destruct n as [|c n]; [done|]; destruct (path.IsAbs _) eqn:E; [|done]; apply HasPrefix_spec in E as [t E]; injection E as -> _; done).
  assert (segs_of n = [n]) as Eseg.
  { unfold segs_of. rewrite Ha, Split_one by done. apply clean_segs_id. exists 0%nat, [n]. split_and!; [done| |done]. constructor; [by split_and!|by constructor]. }
  assert (path.Clean n = n) as E by (by rewrite Clean_form, Ha, Eseg). split_and!; [done| | |by apply (all_chars_no name_rest)].
  - unfold removable. rewrite E, !bool_decide_eq_false_2 by done. change (strings.HasPrefix n "/") with (path.IsAbs n). rewrite Ha.
    destruct (strings.HasPrefix n "../") eqn:Ep; [|done]. apply HasPrefix_spec in Ep as [t ->]. done.
  - split_and!; [done|by apply (all_chars_no name_rest)|by apply TrimSpace_plain|]. destruct (strings.HasPrefix n "#") eqn:Eh; [|done]. apply HasPrefix_spec in Eh as [t ->]. done.
Qed.
Lemma pair_plain name ext : certName name = true -> strings.all_chars name_rest ext = true -> plain_file (name +:+ ext).
Proof.
  destruct name as [|c r]; [done|]. simpl. intros [[Hc Hr]%andb_prop _]%andb_prop He. assert (name_rest c = true /\ c <> "."%char) as [Hn Hd].
  { unfold name_rest. rewrite Hc. split; [done|]. by intros ->. }
  split_and!; [|done|].
  - rewrite app_cons_s, all_chars_cons, all_chars_app. by rewrite Hn, Hr, He.
  - destruct (strings.HasPrefix _ ".") eqn:E; [|done]. apply HasPrefix_spec in E as [t E]. injection E as -> _. done.
Qed.

(** ** The loop over the nodes *)

Lemma want_names m hash uid gid n : n ∈ w_names (want_of m hash uid gid) <-> is_Some (m !! n).
Proof.
  unfold w_names, want_of, delivery_list. simpl. rewrite map_map. simpl. rewrite <- elem_sorted. unfold sorted_names. by rewrite ssort_perm.
Qed.
Lemma want_plain mname m hash uid gid : strings.HasPrefix mname "." = true -> one_line hash -> map_Forall (fun n _ => plain_file n) m ->
  Z.of_nat (String.length (ManifestOf "" hash (sorted_names m))) <= readLimit -> want_ok mname (want_of m hash uid gid) /\ lists (want_of m hash uid gid) = sorted_names m.
Proof.
  intros Hd Hh Hm Hs. assert (forall n, is_Some (m !! n) -> plain_file n) as Hp by (intros n [v Hv]; by apply (Hm n v)).
  assert (ParseManifest (ManifestOf "" hash (sorted_names m)) = sorted_names m) as El.
  { apply manifest_reads_back; [done|done|]. apply Forall_forall. intros n Hn%elem_sorted. by destruct (plain_name n (Hp n Hn)) as (_ & _ & ? & _). }
  split; [constructor|done].
  - apply Forall_forall. intros n Hn%want_names. destruct (plain_name n (Hp n Hn)) as (? & ? & _ & _). split_and!; [done|done|]. intros ->. by destruct (Hp _ Hn) as (_ & _ & ?); congruence.
  - unfold w_names, want_of, delivery_list. simpl. rewrite map_map. simpl. apply NoDup_fst_map_to_list.
  - intros n. change (w_manifest (want_of m hash uid gid)) with (ManifestOf "" hash (sorted_names m)). by rewrite El, want_names, elem_sorted.
  - done.
Qed.
(** The file of a name, as it lands in a volume. *)
Definition delivered (m : Files) (uid gid : Z) (n : string) : option Blob := (fun v => mkBlob v (mode_of n) uid gid) <$> m !! n.
Lemma wanted_delivered mname m hash uid gid n : want_ok mname (want_of m hash uid gid) -> wanted_blob (want_of m hash uid gid) n = delivered m uid gid n.
Proof.
  intros Hw. unfold delivered. destruct (m !! n) as [v|] eqn:E; simpl.
  - assert (mkFile n v (mode_of n) ∈ w_files (want_of m hash uid gid)) as Hin.
    { unfold want_of, delivery_list. simpl. apply list_elem_of_fmap. exists (n, v). split; [done|]. by apply elem_of_map_to_list. }
    pose proof (wanted_some mname _ (mkFile n v (mode_of n)) Hw Hin) as E2. cbn [fl_name] in E2. rewrite E2. unfold blob, entry_of_file. simpl. rewrite bool_decide_eq_false_2; [done|]. unfold mode_of. by case_match.
  - apply wanted_none. rewrite want_names, E. by intros [? ?].
Qed.

(** The loop over the nodes: each node on its own. *)
Lemma mirror_nodes_spec mname env vol w ends ns : NoDup ns -> forall disks,
  (forall n, n ∈ ns -> disk_of (mirror_nodes mname env vol w ends ns disks).1 env n = (mirror_node mname vol w (ends n) (disk_of disks env n)).1) /\
  (forall env' n, (env' <> env \/ (n ∉ ns)) -> (mirror_nodes mname env vol w ends ns disks).1 !! (env', n) = disks !! (env', n)) /\
  (mirror_nodes mname env vol w ends ns disks).2 = List.filter (fun n => negb (mirror_node mname vol w (ends n) (disk_of disks env n)).2) ns.
Proof.
  intros Hnd. unfold mirror_nodes. set (f := fun (acc : Disks * list string) n => _).
  assert (forall disks errs,
    (forall n, n ∈ ns -> disk_of (fold_left f ns (disks, errs)).1 env n = (mirror_node mname vol w (ends n) (disk_of disks env n)).1) /\
    (forall env' n, (env' <> env \/ (n ∉ ns)) -> (fold_left f ns (disks, errs)).1 !! (env', n) = disks !! (env', n)) /\
    (fold_left f ns (disks, errs)).2 = errs ++ List.filter (fun n => negb (mirror_node mname vol w (ends n) (disk_of disks env n)).2) ns) as Hf; [|intros disks; apply (Hf disks [])].
  induction Hnd as [|x ns Hx Hnd IH]; intros disks errs; simpl; [split_and!; [by intros n ?%not_elem_of_nil|done|by rewrite app_nil_r]|].
  destruct (mirror_node mname vol w (ends x) (disk_of disks env x)) as [disk ok] eqn:E.
  assert (forall n, n <> x -> disk_of (<[(env, x) := disk]> disks) env n = disk_of disks env n) as Hne by (intros n Hn; unfold disk_of; by rewrite lookup_insert_ne by congruence).
  destruct (IH (<[(env, x) := disk]> disks) (if ok then errs else errs ++ [x])) as (H1 & H2 & H3). split_and!.
  - intros n [->|Hn]%elem_of_cons.
    + rewrite E. unfold disk_of at 1. rewrite H2 by (by right). by rewrite lookup_insert_eq.
    + rewrite H1 by done. rewrite Hne; [done|]. by intros ->.
  - intros env' n Hn. rewrite H2; [|destruct Hn as [?|Hn]; [by left|right; set_solver]]. rewrite lookup_insert_ne; [done|]. intros [= -> ->]. destruct Hn as [?|Hn]; [done|]. by destruct Hn; left.
  - rewrite H3. assert (List.filter (fun n => negb (mirror_node mname vol w (ends n) (disk_of (<[(env, x) := disk]> disks) env n)).2) ns = List.filter (fun n => negb (mirror_node mname vol w (ends n) (disk_of disks env n)).2) ns) as ->.
    { apply filter_ext_in. intros n Hn%list_elem_of_In. rewrite Hne; [done|]. by intros ->. }
    destruct ok; simpl; [done|by rewrite <- app_assoc].
Qed.

(** What the writer's manifest lists, on every node. *)
Definition tracked (mname env vol : string) (ns : list string) (l : string -> list string) (disks : Disks) : Prop :=
  forall n, n ∈ ns -> listed mname vol (disk_of disks env n) (l n) /\ own_names mname (l n).

Lemma smooth_content mname vol m hash uid gid disk l : path.Clean mname = mname -> strings.HasPrefix mname "." = true -> one_line hash -> map_Forall (fun n _ => plain_file n) m ->
  Z.of_nat (String.length (ManifestOf "" hash (sorted_names m))) <= readLimit -> listed mname vol disk l -> own_names mname l ->
  forall f, f <> mname -> volume_of (mirror_node mname vol (want_of m hash uid gid) smooth disk).1 vol !! f =
    if bool_decide (is_Some (m !! f)) then delivered m uid gid f else if bool_decide (f ∈ l) then None else volume_of disk vol !! f.
Proof.
  intros Hc Hd Hh Hp Hs Hli Hown f Hf. destruct (want_plain mname m hash uid gid Hd Hh Hp Hs) as [Hw _]. destruct (smooth_run mname vol Hc _ _ _ Hli Hown Hw) as (_ & _ & Hv).
  rewrite Hv, bool_decide_eq_false_2 by done. rewrite (wanted_delivered mname) by done. by rewrite (bool_decide_ext _ _ (want_names m hash uid gid f)).
Qed.
(** One sync of a delivery no call of which fails. *)
Lemma mirror_nodes_smooth mname env vol ns l m hash uid gid ends disks : path.Clean mname = mname -> strings.HasPrefix mname "." = true -> one_line hash ->
  NoDup ns -> map_Forall (fun n _ => plain_file n) m -> Z.of_nat (String.length (ManifestOf "" hash (sorted_names m))) <= readLimit -> (forall n, n ∈ ns -> ends n = smooth) -> tracked mname env vol ns l disks ->
  let '(disks', errs) := mirror_nodes mname env vol (want_of m hash uid gid) ends ns disks in
  errs = [] /\ tracked mname env vol ns (fun _ => sorted_names m) disks' /\
  (forall n f, n ∈ ns -> f <> mname -> volume_of (disk_of disks' env n) vol !! f =
     if bool_decide (is_Some (m !! f)) then delivered m uid gid f else if bool_decide (f ∈ l n) then None else volume_of (disk_of disks env n) vol !! f).
Proof.
  intros Hc Hd Hh Hnd Hp Hs Hends Htr. destruct (want_plain mname m hash uid gid Hd Hh Hp Hs) as [Hw Hl].
  destruct (mirror_nodes_spec mname env vol (want_of m hash uid gid) ends ns Hnd disks) as (H1 & _ & H3). destruct (mirror_nodes _ _ _ _ _ _ _) as [disks' errs]. cbn [fst snd] in *.
  assert (forall n, n ∈ ns -> disk_of disks' env n = (mirror_node mname vol (want_of m hash uid gid) smooth (disk_of disks env n)).1 /\ (mirror_node mname vol (want_of m hash uid gid) (ends n) (disk_of disks env n)).2 = true) as Hn.
  { intros n Hin. rewrite H1, Hends by done. destruct (Htr n Hin) as [Hli Hown]. destruct (mirror_smooth mname vol Hc _ _ _ Hli Hown Hw) as (d & -> & _). done. }
  split_and!.
  - rewrite H3. clear -Hn. induction ns as [|x ns IH]; [done|]. simpl. rewrite (proj2 (Hn x ltac:(by left))). apply IH. intros n Hin. apply Hn. by right.
  - intros n Hin. destruct (Htr n Hin) as [Hli Hown]. destruct (smooth_run mname vol Hc _ _ _ Hli Hown Hw) as (Hl1 & _). rewrite (proj1 (Hn n Hin)). split; [by rewrite <- Hl|]. rewrite <- Hl. by apply lists_own.
  - intros n f Hin Hf. destruct (Htr n Hin) as [Hli Hown]. rewrite (proj1 (Hn n Hin)). by apply smooth_content.
Qed.

(** A sync that reports no error did all that a smooth one does. *)
Lemma mirror_ok_smooth mname vol w e disk d : mirror_node mname vol w e disk = (d, true) -> mirror_node mname vol w smooth disk = (d, true).
Proof.
  unfold mirror_node, smooth. cbn [e_answers e_content e_remove e_commit]. destruct (e_answers e); [|done]. destruct (stale_of _ _ _ _ _) as [stale|]; [|done].
  destruct (e_content e); try done. cbn [Write negb]. destruct (RemoveFiles _ vol stale (e_remove e)) as [d2 ok] eqn:E. destruct ok; [|done]. cbn [negb].
  assert (RemoveFiles (<[vol:=extract (tarFiles (w_files w) (w_uid w) (w_gid w)) (volume_of disk vol)]> disk) vol stale RemoveDone = (d2, true)) as ->.
  { pose proof (f_equal snd E) as E2. apply remove_done_ok in E2 as [->|Er]; [exact E|by rewrite <- Er]. }
  cbn [negb]. by destruct (e_commit e).
Qed.

(** ** What one sync does *)

Section Sync.
Context `{Crypto} (sha256_hex : string -> string) (nodes : string -> option (list string)) (del_text : DelErr -> string).
(** A digest in hexadecimal is one line. *)
Context (hex_line : forall s, one_line (sha256_hex s)).
#[local] Abbreviation hash_bytes := (CertDeliveries.contentHash sha256_hex).


(** The handlers let no other name of a certificate in. *)
Definition names_ok (db : CDB) : Prop := Forall (fun c => certName (ct_name c) = true) (leaves db).

Lemma carry_plain db env l : names_ok db -> forall m carried dflt r, map_Forall (fun n _ => plain_file n) m -> carry db env l m carried dflt = Ok r -> map_Forall (fun n _ => plain_file n) r.1.1.
Proof.
  intros Hn. induction l as [|dc l IH]; intros m carried dflt r Hm; simpl; [by intros [= <-]|]. destruct (CertificateByID db (dc_cert dc)) as [c|e] eqn:Ec; [|done].
  destruct (negb _ && negb _); [done|]. destruct (Open (ct_key c)) as [key|]; [|done]. apply IH. apply by_id_ok in Ec as [Hc _].
  assert (certName (ct_name c) = true) as Hname by (unfold names_ok in Hn; rewrite Forall_forall in Hn; by apply Hn).
  unfold put_pair. simpl. apply map_Forall_insert_2; [apply (pair_plain _ ".key"); [exact Hname|done]|]. apply map_Forall_insert_2; [apply (pair_plain _ ".crt"); [exact Hname|done]|done].
Qed.
Lemma files_plain db now d m : names_ok db -> deliveryFiles db now d = Ok m -> map_Forall (fun n _ => plain_file n) m.
Proof.
  intros Hn. unfold deliveryFiles. destruct (trustBundle db now (cd_bundle d)) as [bundle|]; [|done]. destruct (carry _ _ _ _ _ _) as [[[m' carried] dflt]|e] eqn:E; [|done]. simpl. intros [= <-].
  assert (map_Forall (fun n _ => plain_file n) m') as Hm.
  { apply (carry_plain db _ _ Hn _ _ _ _) in E; [done|]. unfold put_bundle. case_bool_decide; [apply map_Forall_empty|]. apply map_Forall_insert_2; [by vm_compute|apply map_Forall_empty]. }
  case_match; [|done]. apply map_Forall_insert_2; [by vm_compute|done].
Qed.
(** The files depend on the authorities and the leaves. *)
Lemma delivery_files_same db db' now d : cas db' = cas db -> leaves db' = leaves db -> deliveryFiles db' now d = deliveryFiles db now d.
Proof.
  intros E1 E2. unfold deliveryFiles, trustBundle, trusted, ListCertAuthorities. rewrite E1. destruct (Bundle _) as [bundle|]; [|done].
  assert (forall l m carried dflt, carry db' (cd_env d) l m carried dflt = carry db (cd_env d) l m carried dflt) as Hc; [|by rewrite Hc].
  induction l as [|dc l IH]; intros m carried dflt; [done|]. simpl. unfold CertificateByID. rewrite E2. destruct (by_id _ _ _) as [c|e]; [|done]. destruct (negb _ && negb _); [done|].
  destruct (Open _); [apply IH|done].
Qed.

Lemma marked_row db id id' hash err now : CertDeliveryByID (MarkCertDeliverySynced db id hash err now) id' =
  match CertDeliveryByID db id' with Ok d => Ok (if bool_decide (cd_id d = id) then cd_marked hash err now d else d) | Err e => Err e end.
Proof.
  set (f := fun d => if bool_decide (cd_id d = id) then cd_marked hash err now d else d).
  assert (forall l, by_id cd_id id' (map f l) = match by_id cd_id id' l with Ok d => Ok (f d) | Err e => Err e end) as Hf.
  { assert (forall d, cd_id (f d) = cd_id d) as Hid by (intros d; unfold f; by case_bool_decide). unfold by_id. induction l as [|d l IH]; [done|]. simpl. rewrite Hid. by destruct (bool_decide (cd_id d = id')). }
  unfold CertDeliveryByID. change (cdels (MarkCertDeliverySynced db id hash err now)) with (map f (cdels db)). rewrite Hf. destruct (by_id cd_id id' (cdels db)) as [d|e]; [|done].
  simpl. unfold f. change (cd_id (attachDeliveryCerts db d)) with (cd_id d). by case_bool_decide.
Qed.

(** One run of the reconciler on a delivery, whose row is read first; [up]: the
    environment is connected. *)
Record Attempt := mkAttempt { at_now : Z; at_ends : Ends; at_up : bool }.
Definition sync_attempt (id : string) (st : DWorld) (a : Attempt) : DWorld :=
  match CertDeliveryByID (dw_db st) id with
  | Err _ => st
  | Ok d => (CertDeliveries.reportDeliverySync sha256_hex (fun e => if at_up a then nodes e else None) del_text (at_now a) (at_ends a) st d).1
  end.
(** Rows that ask for the same. *)
Definition same_ask (a b : CertDelivery) : Prop :=
  cd_id a = cd_id b /\ cd_env a = cd_env b /\ cd_certs a = cd_certs b /\ cd_volume a = cd_volume b /\ cd_mount a = cd_mount b /\ cd_uid a = cd_uid b /\ cd_gid a = cd_gid b /\
  cd_traefik a = cd_traefik b /\ cd_bundle a = cd_bundle b.
Definition up_to_date (hash : string) (d : CertDelivery) : Prop := hash = cd_hash d /\ cd_status d = "ok".
Lemma files_ask db now a b : same_ask a b -> deliveryFiles db now a = deliveryFiles db now b.
Proof. intros (E1 & E2 & E3 & E4 & E5 & E6 & E7 & E8 & E9). unfold deliveryFiles. by rewrite E2, E3, E5, E8, E9. Qed.

(** What a run does to a row that is not up to date, and to one that is. *)
Lemma report_skip nds now ends st d m : deliveryFiles (dw_db st) now d = Ok m -> up_to_date (hash_bytes m (cd_uid d) (cd_gid d)) d ->
  CertDeliveries.reportDeliverySync sha256_hex nds del_text now ends st d = (st, None).
Proof.
  intros Hf [Hh Hs]. unfold CertDeliveries.reportDeliverySync, syncCertDelivery. rewrite Hf. cbv zeta. assert (bool_decide (hash_bytes m (cd_uid d) (cd_gid d) = cd_hash d) = true) as A by (by apply bool_decide_eq_true_2).
  assert (bool_decide (cd_status d = "ok") = true) as B by (by apply bool_decide_eq_true_2). rewrite A, B. cbn [andb]. by rewrite A, ?B.
Qed.
Lemma report_run nds now ends st d m : deliveryFiles (dw_db st) now d = Ok m -> ~ up_to_date (hash_bytes m (cd_uid d) (cd_gid d)) d ->
  let hash := hash_bytes m (cd_uid d) (cd_gid d) in
  match nds (cd_env d) with
  | None => CertDeliveries.reportDeliverySync sha256_hex nds del_text now ends st d =
      (mkDW (MarkCertDeliverySynced (dw_db st) (cd_id d) hash (Some (del_text EnvNotConnected)) now) (dw_disks st) (dw_restarts st), Some EnvNotConnected)
  | Some ns =>
      let r := mirror_nodes ManifestCerts (cd_env d) (cd_volume d) (want_of m hash (cd_uid d) (cd_gid d)) (ends (cd_id d)) ns (dw_disks st) in
      let err := match r.2 with [] => None | _ => Some (DeliveryFailed r.2) end in
      exists restarts, CertDeliveries.reportDeliverySync sha256_hex nds del_text now ends st d =
        (mkDW (MarkCertDeliverySynced (dw_db st) (cd_id d) hash (del_text <$> err) now) r.1 restarts, err)
  end.
Proof.
  intros Hf Hu hash. unfold CertDeliveries.reportDeliverySync, syncCertDelivery. rewrite Hf. fold hash. cbv zeta.
  assert (bool_decide (hash = cd_hash d) && bool_decide (cd_status d = "ok") = false) as Hb by (destruct (bool_decide _ && _) eqn:E; [|done]; apply andb_prop in E as [? ?]; bd; by destruct Hu).
  rewrite Hb. destruct (nds (cd_env d)) as [ns|].
  - destruct (mirror_nodes _ _ _ _ _ _ _) as [disks errs]. cbn [fst snd]. destruct errs as [|x errs]; eexists; cbn [fst snd]; rewrite <- andb_assoc, Hb, andb_false_r; done.
  - rewrite <- andb_assoc, Hb, andb_false_r. done.
Qed.

(** ** Convergence *)

(** The delivery as it is asked for, and where its files go. *)
Context (db0 : CDB) (disks0 : Disks) (d0 : CertDelivery) (m : Files) (ns : list string) (tracked_names : string -> list string).
Abbreviation env := (cd_env d0).
Abbreviation vol := (cd_volume d0).
Abbreviation hash := (hash_bytes m (cd_uid d0) (cd_gid d0)).
Abbreviation wanted_now := (want_of m hash (cd_uid d0) (cd_gid d0)).
Record deliverable : Prop := {
  dl_names : names_ok db0;
  dl_files : exists now, deliveryFiles db0 now d0 = Ok m;
  dl_nodes : nodes env = Some ns;
  dl_distinct : NoDup ns;
  dl_small : Z.of_nat (String.length (ManifestOf "" hash (sorted_names m))) <= readLimit;
  dl_tracked : tracked ManifestCerts env vol ns tracked_names disks0 }.

(** What holds between two runs: the row asks for the same, every node saw some
    attempts at the same content, and a row that says so tells the truth. *)
Record converging (st : DWorld) : Prop := {
  cv_cas : cas (dw_db st) = cas db0;
  cv_leaves : leaves (dw_db st) = leaves db0;
  cv_row : exists r, CertDeliveryByID (dw_db st) (cd_id d0) = Ok r /\ same_ask r d0 /\
    (up_to_date hash r -> forall n, n ∈ ns -> volume_of (disk_of (dw_disks st) env n) vol = volume_of (mirror_node ManifestCerts vol wanted_now smooth (disk_of disks0 env n)).1 vol);
  cv_disks : forall n, n ∈ ns -> exists es, disk_of (dw_disks st) env n = attempts ManifestCerts vol wanted_now es (disk_of disks0 env n) }.

Lemma attempt_converging st a : deliverable -> deliveryFiles db0 (at_now a) d0 = Ok m -> converging st ->
  converging (sync_attempt (cd_id d0) st a) /\
  (forall r, CertDeliveryByID (dw_db st) (cd_id d0) = Ok r -> up_to_date hash r -> sync_attempt (cd_id d0) st a = st) /\
  (at_up a = true -> (forall n, n ∈ ns -> at_ends a (cd_id d0) n = smooth) -> exists r, CertDeliveryByID (dw_db (sync_attempt (cd_id d0) st a)) (cd_id d0) = Ok r /\ up_to_date hash r).
Proof.
  intros [Hn [t Ht] Hnodes Hnd Hsm Htr] Hf [Ec El (r & Er & Ha & Hup) Hd]. pose proof Ha as (Eid & Eenv & _ & Evol & _ & Eu & Eg & _).
  assert (deliveryFiles (dw_db st) (at_now a) r = Ok m) as Hfr by (rewrite (delivery_files_same db0) by done; by rewrite (files_ask _ _ _ _ Ha)).
  assert (hash = hash_bytes m (cd_uid r) (cd_gid r)) as Eh by (by rewrite Eu, Eg).
  destruct (want_plain ManifestCerts m hash (cd_uid d0) (cd_gid d0) ltac:(by vm_compute) ltac:(apply hex_line) (files_plain _ _ _ _ Hn Ht) Hsm) as [Hw _].
  unfold sync_attempt. rewrite Er. destruct (decide (up_to_date hash r)) as [Hu|Hu].
  { rewrite (report_skip _ _ _ _ _ m) by (rewrite <- ?Eh; done). cbn [fst]. split_and!; [|done|].
    - constructor; [done|done|by exists r|done].
    - intros _ _. by exists r. }
  pose proof (report_run (fun e => if at_up a then nodes e else None) (at_now a) (at_ends a) st r m Hfr ltac:(by rewrite <- Eh)) as Hrun. cbv zeta in Hrun. rewrite <- Eh in Hrun.
  rewrite Eenv in Hrun. destruct (at_up a).
  2: { rewrite Hrun. cbn [fst]. split_and!; [|by intros r' [= <-]|done]. constructor; [done|done| |done]. simpl. rewrite marked_row, Er, bool_decide_eq_true_2 by done. eexists. split; [done|]. split; [done|].
       by intros [_ ?]. }
  rewrite Hnodes in Hrun. destruct Hrun as [rs ->]. cbn [fst]. rewrite Eid, Eu, Eg, Evol.
  destruct (mirror_nodes_spec ManifestCerts env vol wanted_now (at_ends a (cd_id d0)) ns Hnd (dw_disks st)) as (H1 & _ & H3).
  destruct (mirror_nodes _ _ _ _ _ _ _) as [disks errs]. cbn [fst snd] in *.
  assert (errs = [] -> forall n, n ∈ ns -> volume_of (disk_of disks env n) vol = volume_of (mirror_node ManifestCerts vol wanted_now smooth (disk_of disks0 env n)).1 vol) as Hgood.
  { intros -> n Hin. rewrite H1 by done. destruct (Hd n Hin) as [es Es], (Htr n Hin) as [Hli Hown]. destruct (mirror_node ManifestCerts vol wanted_now (at_ends a (cd_id d0) n) (disk_of (dw_disks st) env n)) as [d ok] eqn:E.
    assert (ok = true) as -> by (destruct ok; [done|]; assert (n ∈ List.filter (fun n => negb (mirror_node ManifestCerts vol wanted_now (at_ends a (cd_id d0) n) (disk_of (dw_disks st) env n)).2) ns) as Hx by (apply elem_of_filter_b; by rewrite E); rewrite <- H3 in Hx; by apply not_elem_of_nil in Hx).
    apply mirror_ok_smooth in E. cbn [fst]. rewrite Es in E. pose proof (attempts_settle ManifestCerts vol eq_refl (disk_of disks0 env n) _ wanted_now es Hli Hown Hw) as Hr. cbv beta in Hr. by rewrite E in Hr. }
  split_and!; [| |].
  - constructor; [done|done| |].
    + simpl. rewrite marked_row, Er, bool_decide_eq_true_2 by done. eexists. split; [done|]. split; [done|]. intros [_ Hs]. apply Hgood. by destruct errs.
    + intros n Hin. simpl. rewrite H1 by done. destruct (Hd n Hin) as [es ->]. exists (es ++ [at_ends a (cd_id d0) n]). unfold attempts. by rewrite fold_left_app.
  - by intros r' [= <-].
  - intros _ Hs. simpl. rewrite marked_row, Er, bool_decide_eq_true_2 by done. eexists. split; [done|]. assert (errs = []) as ->; [|done].
    rewrite H3. assert (forall n, n ∈ ns -> negb (mirror_node ManifestCerts vol wanted_now (at_ends a (cd_id d0) n) (disk_of (dw_disks st) env n)).2 = false) as Hall.
    { intros n Hin. rewrite Hs by done. destruct (Hd n Hin) as [es ->], (Htr n Hin) as [Hli Hown].
      destruct (attempts_tracked ManifestCerts vol eq_refl _ _ wanted_now es Hli Hown Hw) as (l' & Hl' & Hown'). destruct (mirror_smooth ManifestCerts vol eq_refl _ _ _ Hl' Hown' Hw) as (d & -> & _). done. }
    clear -Hall. induction ns as [|x l IH]; [done|]. simpl. rewrite Hall by (by left). apply IH. intros n Hin. apply Hall. by right.
Qed.

Lemma attempts_converging atts : deliverable -> (forall a, a ∈ atts -> deliveryFiles db0 (at_now a) d0 = Ok m) -> forall st, converging st -> converging (fold_left (sync_attempt (cd_id d0)) atts st).
Proof.
  intros Hd. induction atts as [|a atts IH]; intros Hf st Hc; [done|]. simpl. apply IH; [intros b Hb; apply Hf; by right|]. apply attempt_converging; [done|apply Hf; by left|done].
Qed.

(** C35: A delivery converges: however many syncs of it failed, on whichever nodes
    and however far they got, after the first that does not fail its row says
    so, every node of its environment holds the files it asks for — the
    certificates, their keys, the bundle, the fragment — with their modes and
    owner, what its manifest listed before and is not wanted any more is gone,
    every other file is as it was, and no later sync writes anything until the
    content changes. *)
Theorem delivery_converges (st : DWorld) (atts : list Attempt) (final : Attempt) : deliverable -> dw_db st = db0 -> dw_disks st = disks0 ->
  CertDeliveryByID db0 (cd_id d0) = Ok d0 -> ~ up_to_date hash d0 -> (forall a, a ∈ atts ++ [final] -> deliveryFiles db0 (at_now a) d0 = Ok m) ->
  at_up final = true -> (forall n, n ∈ ns -> at_ends final (cd_id d0) n = smooth) ->
  let st' := fold_left (sync_attempt (cd_id d0)) (atts ++ [final]) st in
  (exists r, CertDeliveryByID (dw_db st') (cd_id d0) = Ok r /\ up_to_date hash r) /\
  (forall n f, n ∈ ns -> f <> ManifestCerts -> volume_of (disk_of (dw_disks st') env n) vol !! f =
     if bool_decide (is_Some (m !! f)) then delivered m (cd_uid d0) (cd_gid d0) f else if bool_decide (f ∈ tracked_names n) then None else volume_of (disk_of disks0 env n) vol !! f) /\
  (forall a, deliveryFiles db0 (at_now a) d0 = Ok m -> sync_attempt (cd_id d0) st' a = st').
Proof.
  intros Hd Edb Edisks Er Hu Hf Hup Hs st'. assert (converging st) as Hc.
  { constructor; [by rewrite Edb|by rewrite Edb|exists d0; rewrite Edb; split_and!; [done|by repeat split|done]|]. intros n _. exists []. by rewrite Edisks. }
  assert (converging (fold_left (sync_attempt (cd_id d0)) atts st)) as Hc1 by (apply attempts_converging; [done| |done]; intros a Ha; apply Hf, elem_of_app; by left).
  destruct (attempt_converging _ final Hd (Hf final ltac:(apply elem_of_app; right; by left)) Hc1) as (Hc2 & _ & Hok). unfold st'. rewrite fold_left_app. simpl.
  destruct (Hok Hup Hs) as (r & Er2 & Hr). split_and!; [by exists r| |].
  - intros n f Hn Hne. destruct (cv_row _ Hc2) as (r' & Er' & _ & Hv). rewrite Er2 in Er'. injection Er' as <-. rewrite (Hv Hr n Hn).
    destruct (dl_files Hd) as [t Ht], (dl_tracked Hd n Hn) as [Hli Hown].
    apply smooth_content; [done|done|apply hex_line|eapply files_plain; [apply Hd|exact Ht]|apply Hd|done..].
  - intros a Ha. by apply (attempt_converging _ a Hd Ha Hc2) with (r := r).
Qed.
End Sync.

(** ** Two deliveries on one volume *)

Section Shared.
Context `{Crypto} (sha256_hex : string -> string) (nodes : string -> option (list string)) (del_text : DelErr -> string) (hex_line : forall s, one_line (sha256_hex s)).
#[local] Abbreviation sync_attempt := (sync_attempt sha256_hex nodes del_text).
#[local] Abbreviation hash_of d m := (CertDeliveries.contentHash sha256_hex m (cd_uid d) (cd_gid d)).

Lemma attempt_smooth st d m ns l a : deliverable sha256_hex nodes (dw_db st) (dw_disks st) d m ns l -> CertDeliveryByID (dw_db st) (cd_id d) = Ok d -> ~ up_to_date (hash_of d m) d ->
  deliveryFiles (dw_db st) (at_now a) d = Ok m -> at_up a = true -> (forall n, n ∈ ns -> at_ends a (cd_id d) n = smooth) ->
  dw_db (sync_attempt (cd_id d) st a) = MarkCertDeliverySynced (dw_db st) (cd_id d) (hash_of d m) None (at_now a) /\
  tracked ManifestCerts (cd_env d) (cd_volume d) ns (fun _ => sorted_names m) (dw_disks (sync_attempt (cd_id d) st a)) /\
  forall n f, n ∈ ns -> f <> ManifestCerts -> volume_of (disk_of (dw_disks (sync_attempt (cd_id d) st a)) (cd_env d) n) (cd_volume d) !! f =
     if bool_decide (is_Some (m !! f)) then delivered m (cd_uid d) (cd_gid d) f else if bool_decide (f ∈ l n) then None else volume_of (disk_of (dw_disks st) (cd_env d) n) (cd_volume d) !! f.
Proof.
  intros [Hn [t Ht] Hnodes Hnd Hsm Htr] Er Hu Hf Hup Hs. unfold DeliveryCases.sync_attempt. rewrite Er.
  pose proof (report_run sha256_hex del_text (fun e => if at_up a then nodes e else None) (at_now a) (at_ends a) st d m Hf Hu) as Hrun. cbv zeta in Hrun. rewrite Hup, Hnodes in Hrun. rewrite Hup.
  pose proof (mirror_nodes_smooth ManifestCerts (cd_env d) (cd_volume d) ns l m (hash_of d m) (cd_uid d) (cd_gid d) (at_ends a (cd_id d)) (dw_disks st) eq_refl eq_refl (hex_line _) Hnd (files_plain _ _ _ _ Hn Ht) Hsm Hs Htr) as Hm.
  destruct (mirror_nodes _ _ _ _ _ _ _) as [disks errs]. cbn [fst snd] in Hrun. destruct Hrun as [rs ->], Hm as (-> & H1 & H2). done.
Qed.

(** Two deliveries without a fragment that share a volume delete each other's
    files: their manifests have one name, so the second to sync takes what the
    first wrote for stale. Both rows say that all is well, and no later sync
    writes anything. *)
Theorem plain_deliveries_delete_each_other (st : DWorld) (a b : CertDelivery) (ma mb : Files) (ns : list string) (l : string -> list string) (t1 t2 : Attempt) :
  cd_id a <> cd_id b -> cd_env a = cd_env b -> cd_volume a = cd_volume b ->
  deliverable sha256_hex nodes (dw_db st) (dw_disks st) a ma ns l -> (exists lb, deliverable sha256_hex nodes (dw_db st) (dw_disks st) b mb ns lb) ->
  CertDeliveryByID (dw_db st) (cd_id a) = Ok a -> CertDeliveryByID (dw_db st) (cd_id b) = Ok b -> ~ up_to_date (hash_of a ma) a -> ~ up_to_date (hash_of b mb) b ->
  deliveryFiles (dw_db st) (at_now t1) a = Ok ma -> deliveryFiles (dw_db st) (at_now t2) b = Ok mb -> at_up t1 = true -> at_up t2 = true ->
  (forall n, n ∈ ns -> at_ends t1 (cd_id a) n = smooth /\ at_ends t2 (cd_id b) n = smooth) ->
  let st' := sync_attempt (cd_id b) (sync_attempt (cd_id a) st t1) t2 in
  (forall n f, n ∈ ns -> is_Some (ma !! f) -> mb !! f = None -> volume_of (disk_of (dw_disks st') (cd_env a) n) (cd_volume a) !! f = None) /\
  (exists ra rb, CertDeliveryByID (dw_db st') (cd_id a) = Ok ra /\ CertDeliveryByID (dw_db st') (cd_id b) = Ok rb /\ cd_status ra = "ok" /\ cd_status rb = "ok") /\
  (forall t, deliveryFiles (dw_db st) (at_now t) a = Ok ma -> deliveryFiles (dw_db st) (at_now t) b = Ok mb -> sync_attempt (cd_id a) st' t = st' /\ sync_attempt (cd_id b) st' t = st').
Proof.
  intros Hne Ee Ev Ha [lb Hb] Era Erb Hua Hub Hfa Hfb Hup1 Hup2 Hs st'.
  destruct (attempt_smooth st a ma ns l t1 Ha Era Hua Hfa Hup1 (fun n Hn => proj1 (Hs n Hn))) as (E1 & T1 & _). set (st1 := sync_attempt (cd_id a) st t1) in *.
  assert (CertDeliveryByID (dw_db st1) (cd_id b) = Ok b) as Erb1 by (rewrite E1, marked_row, Erb; by rewrite bool_decide_eq_false_2 by congruence).
  assert (forall d now, deliveryFiles (dw_db st1) now d = deliveryFiles (dw_db st) now d) as F1 by (intros d now; by apply delivery_files_same; rewrite E1).
  assert (deliverable sha256_hex nodes (dw_db st1) (dw_disks st1) b mb ns (fun _ => sorted_names ma)) as Hb1.
  { destruct Hb as [Hn [t Ht] Hnodes Hnd Hsm _]. constructor; [by unfold names_ok; rewrite E1|exists t; by rewrite F1|done|done|done|]. by rewrite <- Ee, <- Ev. }
  destruct (attempt_smooth st1 b mb ns _ t2 Hb1 Erb1 Hub ltac:(by rewrite F1) Hup2 (fun n Hn => proj2 (Hs n Hn))) as (E2 & _ & V2). fold st' in E2, V2.
  assert (CertDeliveryByID (dw_db st') (cd_id a) = Ok (cd_marked (hash_of a ma) None (at_now t1) a)) as Ra.
  { rewrite E2, marked_row, E1, marked_row, Era, (bool_decide_eq_true_2 (cd_id a = cd_id a)) by done. by rewrite bool_decide_eq_false_2 by done. }
  assert (CertDeliveryByID (dw_db st') (cd_id b) = Ok (cd_marked (hash_of b mb) None (at_now t2) b)) as Rb by (rewrite E2, marked_row, Erb1; by rewrite bool_decide_eq_true_2 by done).
  assert (forall d now, deliveryFiles (dw_db st') now d = deliveryFiles (dw_db st) now d) as F2 by (intros d now; rewrite <- F1; by apply delivery_files_same; rewrite E2).
  split_and!.
  - intros n f Hn Hfa' Hfb'. rewrite Ee, Ev, V2; [|done|].
    + rewrite Hfb', bool_decide_eq_false_2 by (by intros [? ?]). rewrite bool_decide_eq_true_2; [done|]. by apply elem_sorted.
    + intros ->. destruct (dl_files _ _ _ _ _ _ _ _ Ha) as [t Ht]. destruct Hfa' as [v Hv]. apply (files_plain _ _ _ _ (dl_names _ _ _ _ _ _ _ _ Ha)) in Ht. by destruct (Ht _ v Hv) as (_ & _ & ?).
  - by eexists _, _.
  - intros t Fa Fb. unfold DeliveryCases.sync_attempt. rewrite Ra, Rb. rewrite (report_skip sha256_hex del_text _ _ _ st' _ ma); [|by rewrite F2|done]. rewrite (report_skip sha256_hex del_text _ _ _ st' _ mb); [done|by rewrite F2|done].
Qed.
End Shared.

(** ** Concrete deliveries *)

Module DeliveryDemo.
Import CertDemo.
#[local] Existing Instance crypto.
Definition sha (s : string) : string := pretty_len s.
Definition demo_nodes (e : string) : option (list string) := Some ["n1"; "n2"].
Definition text (e : DelErr) : string := "failed".
Definition api_request : CertRequest := mkCertRequest "api" "" "A" ["api.example.org"] [] "" 0 0 "" "" "".
(** Two certificates, a delivery of each into the same volume. *)
Definition two : CDB := Eval vm_compute in op (op db3 0 (OIssue api_request "api")) 0 (OCreateDelivery (delivery_request ["api"] ["A"]) "e").
Definition asked_row (id : string) : CertDelivery := match CertDeliveryByID two id with Ok d => d | Err _ => mkCD "" "" [] "" "" 0 0 false "" [] "" None "" "" 0 false end.
Definition files_of_row (d : CertDelivery) : Files := match deliveryFiles two 0 d with Ok m => m | Err _ => ∅ end.
Definition d : CertDelivery := Eval vm_compute in asked_row "d".
Definition e : CertDelivery := Eval vm_compute in asked_row "e".
Definition d_files : Files := Eval vm_compute in files_of_row d.
Definition e_files : Files := Eval vm_compute in files_of_row e.
Definition start : DWorld := mkDW two ∅ [].
(** The archive of [n2] stops after one entry; the host is gone; all is well. *)
Definition bad : Attempt := mkAttempt 0 (fun _ n => if bool_decide (n = "n2") then mkEnds true (WriteStopped 1) RemoveDone WriteDone else smooth) true.
Definition gone : Attempt := mkAttempt 0 (fun _ _ => smooth) false.
Definition good : Attempt := mkAttempt 0 (fun _ _ => smooth) true.

Lemma sha_line s : one_line (sha s).
Proof. by apply pretty_N_no. Qed.
Lemma ready r m : r = d /\ m = d_files \/ r = e /\ m = e_files -> deliverable sha demo_nodes two ∅ r m ["n1"; "n2"] (fun _ => []).
Proof.
  intros Hid. constructor.
  - apply (bool_decide_unpack _). by vm_compute.
  - exists 0. destruct Hid as [[-> ->]|[-> ->]]; vm_compute; reflexivity.
  - done.
  - apply (bool_decide_unpack _). by vm_compute.
  - apply Z.leb_le. destruct Hid as [[-> ->]|[-> ->]]; vm_compute; reflexivity.
  - intros n _. split; [|constructor]. destruct Hid as [[-> ->]|[-> ->]]; vm_compute; reflexivity.
Qed.
Lemma ready_d : deliverable sha demo_nodes two ∅ d d_files ["n1"; "n2"] (fun _ => []).
Proof. apply ready. by left. Qed.
Lemma ready_e : deliverable sha demo_nodes two ∅ e e_files ["n1"; "n2"] (fun _ => []).
Proof. apply ready. by right. Qed.
Lemma pending h r : cd_status r = "pending" -> ~ up_to_date h r.
Proof. intros E [_ E']. by rewrite E in E'. Qed.
End DeliveryDemo.

Lemma delivery_converges_witness : exists r, CertDeliveryByID (dw_db (fold_left (@sync_attempt CertDemo.crypto DeliveryDemo.sha DeliveryDemo.demo_nodes DeliveryDemo.text "d") [DeliveryDemo.bad; DeliveryDemo.gone; DeliveryDemo.good] DeliveryDemo.start)) "d" = Ok r /\ cd_status r = "ok".
Proof.
  assert (Hf : forall a, a ∈ [DeliveryDemo.bad; DeliveryDemo.gone] ++ [DeliveryDemo.good] -> @deliveryFiles CertDemo.crypto DeliveryDemo.two (at_now a) DeliveryDemo.d = Ok DeliveryDemo.d_files).
  { apply Forall_forall. repeat (apply Forall_cons_2; [vm_compute; reflexivity|]). by constructor. }
  destruct (@delivery_converges CertDemo.crypto DeliveryDemo.sha DeliveryDemo.demo_nodes DeliveryDemo.text DeliveryDemo.sha_line DeliveryDemo.two ∅ DeliveryDemo.d DeliveryDemo.d_files ["n1"; "n2"] (fun _ => [])
    DeliveryDemo.start [DeliveryDemo.bad; DeliveryDemo.gone] DeliveryDemo.good DeliveryDemo.ready_d eq_refl eq_refl ltac:(vm_compute; reflexivity) (DeliveryDemo.pending _ DeliveryDemo.d eq_refl) Hf eq_refl (fun _ _ => eq_refl)) as [(r & Er & Hr) _].
  exists r. split; [exact Er|apply Hr].
Defined.

Lemma plain_deliveries_delete_each_other_witness :
  let st' := @sync_attempt CertDemo.crypto DeliveryDemo.sha DeliveryDemo.demo_nodes DeliveryDemo.text "e" (@sync_attempt CertDemo.crypto DeliveryDemo.sha DeliveryDemo.demo_nodes DeliveryDemo.text "d" DeliveryDemo.start DeliveryDemo.good) DeliveryDemo.good in
  volume_of (disk_of (dw_disks st') (cd_env DeliveryDemo.d) "n1") (cd_volume DeliveryDemo.d) !! "web.key" = None /\ exists ra, CertDeliveryByID (dw_db st') "d" = Ok ra /\ cd_status ra = "ok".
Proof.
  intros st'. destruct (@plain_deliveries_delete_each_other CertDemo.crypto DeliveryDemo.sha DeliveryDemo.demo_nodes DeliveryDemo.text DeliveryDemo.sha_line DeliveryDemo.start DeliveryDemo.d DeliveryDemo.e
    DeliveryDemo.d_files DeliveryDemo.e_files ["n1"; "n2"] (fun _ => []) DeliveryDemo.good DeliveryDemo.good) as (Hgone & (ra & rb & Ra & _ & Sa & _) & _).
  - discriminate.
  - vm_compute; reflexivity.
  - vm_compute; reflexivity.
  - exact DeliveryDemo.ready_d.
  - exists (fun _ => []). exact DeliveryDemo.ready_e.
  - vm_compute; reflexivity.
  - vm_compute; reflexivity.
  - exact (DeliveryDemo.pending _ DeliveryDemo.d eq_refl).
  - exact (DeliveryDemo.pending _ DeliveryDemo.e eq_refl).
  - vm_compute; reflexivity.
  - vm_compute; reflexivity.
  - done.
  - done.
  - done.
  - split; [|exact (ex_intro _ ra (conj Ra Sa))]. apply (Hgone "n1" "web.key"); clear; [by left|vm_compute; eauto|vm_compute; reflexivity].
Defined.
