(* ===== verification/SourceCases.v ===== *)
(** * What a volume source promises

    Which subtrees of a commit are delivered ([VolSources.treeFiles]), what a
    sync leaves to the deliveries on its volume, and what it takes from them. *)
From S2P Require Manifest.
From S2P Require Import Prelude GoStd Paths Timestamps Sans Keyrings Volumes Mirror MirrorCases Certs Rotation CertDeliveries CertCases VolSources DeliveryCases.
Local Open Scope string_scope.
Local Open Scope list_scope.
Local Open Scope daffa_scope.
Local Open Scope Z_scope.

(** ** Subtrees *)

Definition is_file (e : WalkEntry) : bool := negb (bool_decide (we_mode e = Dir)).
Definition size_of (e : WalkEntry) : Z := default 0 (we_size e).
Definition tree_file (e : WalkEntry) : File := mkFile (we_name e) (default "" (we_data e)) (if bool_decide (we_mode e = Executable) then 493 else 420).
Definition total_size (l : list WalkEntry) : Z := foldr (fun e s => size_of e + s) 0 l.
(** A regular file, readable, of bounded size, with a name that stays inside. *)
Record deliverable_entry (e : WalkEntry) : Prop := {
  de_mode : we_mode e = Regular \/ we_mode e = Executable \/ we_mode e = Deprecated;
  de_inside : stays_inside (we_name e) = true;
  de_size : exists s, we_size e = Some s /\ s <= maxTreeFileBytes;
  de_data : is_Some (we_data e) }.
(** The sums grow: no prefix of the walk is beyond the bound. *)
Definition sums_ok (t : Z) (l : list WalkEntry) : Prop := forall k, (0 < k <= length l)%nat -> t + total_size (take k l) <= maxTreeBytes.
Definition warnings_of (dir : string) (l : list WalkEntry) : list string :=
  flat_map (fun e => if looksLikePrivateKey (default "" (we_data e)) then [key_warning (path_join dir (we_name e))] else []) l.

Lemma mode_err_none m n : m <> Dir -> mode_err m n = None <-> m = Regular \/ m = Executable \/ m = Deprecated.
Proof. intros Hd. destruct m; simpl; naive_solver. Qed.

Lemma sums_cons t e l : sums_ok t (e :: l) <-> t + size_of e <= maxTreeBytes /\ sums_ok (t + size_of e) l.
Proof.
  unfold sums_ok. split.
  - intros Hs. split; [specialize (Hs 1%nat); simpl in Hs; lia|]. intros k Hk. specialize (Hs (S k)). simpl in Hs. lia.
  - intros [H1 H2] [|k] Hk; [lia|]. simpl in *. destruct k as [|k]; [simpl; lia|]. specialize (H2 (S k)). lia.
Qed.

Lemma walk_spec dir l ended : forall files warnings total r,
  walk_go dir l ended files warnings total = Ok r <->
  ended = true /\ Forall deliverable_entry (List.filter is_file l) /\ (length files + length (List.filter is_file l) <= max (length files) maxTreeFiles)%nat /\ sums_ok total (List.filter is_file l) /\
  r = (files ++ map tree_file (List.filter is_file l), warnings ++ warnings_of dir (List.filter is_file l)).
Proof.
  induction l as [|e l IH]; intros files warnings total r; cbn [walk_go List.filter].
  - destruct ended; [|naive_solver]. rewrite !app_nil_r. split; [|by intros (_ & _ & _ & _ & ->)]. intros [= <-]. split_and!; [done|constructor|simpl; lia| |done]. intros k Hk. simpl in Hk. lia.
  - destruct (is_file e) eqn:Ef; unfold is_file in Ef; [|apply negb_false_iff in Ef; rewrite Ef; apply IH]. apply negb_true_iff in Ef as Ed. rewrite Ed. apply bool_decide_eq_false in Ed.
    rewrite Forall_cons, sums_cons. simpl length.
    destruct (mode_err (we_mode e) (path_join dir (we_name e))) as [err|] eqn:Em.
    { split; [done|]. intros (_ & [[Hm _ _ _] _] & _). apply (mode_err_none _ (path_join dir (we_name e)) Ed) in Hm. congruence. }
    apply mode_err_none in Em; [|done]. destruct (stays_inside (we_name e)) eqn:Ei; simpl negb; cbn iota; [|split; [done|]; intros (_ & [[_ Hi _ _] _] & _); congruence].
    destruct (maxTreeFiles <=? length files)%nat eqn:Ec; [apply Nat.leb_le in Ec; split; [done|]; intros (_ & _ & Hc & _); lia|apply Nat.leb_gt in Ec].
    destruct (we_size e) as [size|] eqn:Es; [|split; [done|]; intros (_ & [[_ _ (s & Hs & _) _] _] & _); congruence].
    assert (size_of e = size) as Esz by (unfold size_of; by rewrite Es). rewrite Esz.
    destruct (Z.ltb_spec maxTreeFileBytes size) as [Hb|Hb]; [split; [done|]; intros (_ & [[_ _ (s & Hs & Hle) _] _] & _); simplify_eq; lia|].
    destruct (Z.ltb_spec maxTreeBytes (total + size)) as [Ht|Ht]; [split; [done|]; intros (_ & _ & _ & [? _] & _); lia|].
    destruct (we_data e) as [b|] eqn:Eb; [|split; [done|]; intros (_ & [[_ _ _ [? ?]] _] & _); congruence].
    rewrite IH. simpl map. rewrite length_app. simpl length. assert (tree_file e = mkFile (we_name e) b (if bool_decide (we_mode e = Executable) then 493 else 420)) as -> by (unfold tree_file; by rewrite Eb).
    assert (warnings_of dir (e :: List.filter is_file l) = (if looksLikePrivateKey b then [key_warning (path_join dir (we_name e))] else []) ++ warnings_of dir (List.filter is_file l)) as -> by (unfold warnings_of; simpl; by rewrite Eb).
    rewrite <- app_assoc. assert ((if looksLikePrivateKey b then warnings ++ [key_warning (path_join dir (we_name e))] else warnings) ++ warnings_of dir (List.filter is_file l) =
      warnings ++ (if looksLikePrivateKey b then [key_warning (path_join dir (we_name e))] else []) ++ warnings_of dir (List.filter is_file l)) as -> by (destruct (looksLikePrivateKey b); [by rewrite <- app_assoc|done]).
    assert (deliverable_entry e) as He by (constructor; [done|done|by exists size|by exists b]). simpl app.
    split; intros (H1 & H2 & H3 & H4 & H5); (split; [done|]); [split; [by split|]|split; [by destruct H2|]]; (split; [lia|]); [split; [by split|done]|by destruct H4].
Qed.

Record deliverable_walk (w : Walk) : Prop := {
  dw_end : wk_end w = true;
  dw_entries : Forall deliverable_entry (List.filter is_file (wk_entries w));
  dw_count : (0 < length (List.filter is_file (wk_entries w)) <= maxTreeFiles)%nat;
  dw_sums : sums_ok 0 (List.filter is_file (wk_entries w)) }.
(** The size of a blob is that of its data. *)
Definition honest (w : Walk) : Prop := Forall (fun e => match we_size e, we_data e with Some s, Some d => s = Z.of_nat (String.length d) | _, _ => True end) (wk_entries w).
Definition subtree (c : Commit) (dir : string) : option Walk :=
  let dir := path.Clean (strings.TrimPrefix dir "/") in cm_tree c (if bool_decide (dir = ".") then "" else dir).
Definition data_sum (l : list File) : Z := foldr (fun f s => Z.of_nat (String.length (fl_data f)) + s) 0 l.

Lemma stays_inside_spec n : stays_inside n = true -> path.Clean n = n /\ path.IsAbs n = false /\ ".." ∉ strings.Split n slash.
Proof.
  unfold stays_inside. intros [E Hn]%andb_prop. bd. assert (path.Clean n = n) as Ec by congruence. split_and!; [done|done|]. rewrite <- Ec. apply inside_segments; by rewrite ?Ec.
Qed.
Lemma data_sum_perm l l' : l ≡ₚ l' -> data_sum l = data_sum l'.
Proof. unfold data_sum. induction 1; simpl; lia. Qed.
Lemma data_sum_total l : Forall deliverable_entry l -> honest (mkWalk l true) -> data_sum (map tree_file l) = total_size l.
Proof.
  unfold honest, data_sum, total_size, size_of. simpl. intros Hl. induction Hl as [|e l [_ _ (s & Hs & _) [d Hd]] _ IH]; [done|]. intros [He Hh]%Forall_cons. simpl. rewrite Hs, Hd in *. simpl. rewrite IH by done. by rewrite He.
Qed.

(** A subtree is delivered exactly when its walk ends and every entry that is
    no directory is a readable file, not a link and not a submodule, whose name
    stays inside, and there are between one and 4096 of them, none above 8 MiB
    and together at most 32 MiB; what is delivered are those files in the order
    of their names, an executable with mode 0755 and any other with 0644. So
    what lands in a volume is bounded and never climbs out of it. *)
Theorem treeFiles_spec (c : Commit) (dir : string) (files : list File) (warnings : list string) :
  (treeFiles c dir = Ok (files, warnings) <-> exists w, subtree c dir = Some w /\ deliverable_walk w /\
     files = ssort (fun a b => String.ltb (fl_name a) (fl_name b)) (map tree_file (List.filter is_file (wk_entries w))) /\
     warnings = warnings_of (path.Clean (strings.TrimPrefix dir "/")) (List.filter is_file (wk_entries w))) /\
  (treeFiles c dir = Ok (files, warnings) -> (forall w, subtree c dir = Some w -> honest w) ->
     (0 < length files <= 4096)%nat /\ data_sum files <= 32 * 2 ^ 20 /\
     forall f, f ∈ files -> Z.of_nat (String.length (fl_data f)) <= 8 * 2 ^ 20 /\ (fl_mode f = 420 \/ fl_mode f = 493) /\
       path.Clean (fl_name f) = fl_name f /\ path.IsAbs (fl_name f) = false /\ ".." ∉ strings.Split (fl_name f) slash).
Proof.
  assert (treeFiles c dir = Ok (files, warnings) <-> exists w, subtree c dir = Some w /\ deliverable_walk w /\
     files = ssort (fun a b => String.ltb (fl_name a) (fl_name b)) (map tree_file (List.filter is_file (wk_entries w))) /\
     warnings = warnings_of (path.Clean (strings.TrimPrefix dir "/")) (List.filter is_file (wk_entries w))) as Hspec.
  { unfold treeFiles, subtree. destruct (cm_tree c _) as [w|]; [|split; [done|by intros (? & ? & _)]]. set (d := path.Clean (strings.TrimPrefix dir "/")).
    pose proof (walk_spec d (wk_entries w) (wk_end w) [] [] 0) as Hw. unfold rbind. destruct (walk_go d (wk_entries w) (wk_end w) [] [] 0) as [[fs ws]|e].
    - destruct (proj1 (Hw (fs, ws)) eq_refl) as (H1 & H2 & H3 & H4 & [= -> ->]). simpl in H3 |- *. split.
      + destruct (map tree_file _) as [|f l] eqn:El; [done|]. rewrite <- El. intros [= <- <-]. exists w. split_and!; [done| |done..]. constructor; [done|done| |done].
        rewrite <- (length_map tree_file), El. rewrite <- (length_map tree_file), El in H3. simpl in *. lia.
      + intros (w' & [= <-] & [_ _ Hc _] & -> & ->). destruct (map tree_file (List.filter is_file (wk_entries w))) eqn:El; [|done]. apply map_eq_nil in El. rewrite El in Hc. simpl in Hc. lia.
    - split; [done|]. intros (w' & [= <-] & [H1 H2 H3 H4] & _). exfalso. assert (Err e = Ok (map tree_file (List.filter is_file (wk_entries w)), warnings_of d (List.filter is_file (wk_entries w)))) as E; [|done].
      apply Hw. split_and!; [done|done|simpl; lia|done|done]. }
  split; [exact Hspec|]. intros (w & Hw & [He Hf Hc Hs] & -> & ->)%Hspec Hh. specialize (Hh w Hw). set (l := List.filter is_file (wk_entries w)) in *.
  assert (honest (mkWalk l true)) as Hhl by (unfold honest in *; simpl; apply Forall_forall; intros x [Hx _]%elem_of_filter_b; rewrite Forall_forall in Hh; by apply Hh).
  assert (length (ssort (fun a b => String.ltb (fl_name a) (fl_name b)) (map tree_file l)) = length l) as El by (rewrite (Permutation_length (ssort_perm _ _)); apply length_map).
  split_and!; [lia|unfold maxTreeFiles in Hc; lia| |].
  - rewrite (data_sum_perm _ _ (ssort_perm _ _)), data_sum_total by done. specialize (Hs (length l) ltac:(lia)). rewrite firstn_all in Hs. unfold maxTreeBytes in Hs. lia.
  - intros f Hin. rewrite ssort_perm in Hin. apply list_elem_of_fmap in Hin as (e & -> & Hin). rewrite Forall_forall in Hf. destruct (Hf e Hin) as [_ Hi (s & Es & Hle) [d Ed]].
    unfold honest in Hhl. rewrite Forall_forall in Hhl. specialize (Hhl e Hin). simpl in Hhl. rewrite Es, Ed in Hhl. destruct (stays_inside_spec _ Hi) as (H1 & H2 & H3).
    unfold tree_file. simpl. rewrite Ed. simpl. split_and!; [unfold maxTreeFileBytes in Hle; lia|case_bool_decide; auto|done|done|done].
Qed.

(** ** A source beside the deliveries *)

(** What the deliveries on a volume own. *)
Definition owned (cdb : CDB) (env volume : string) : list string := delivery_owned cdb env volume ++ fleetOwnedNames cdb env volume.

Lemma find_none_iff {A} (f : A -> bool) l : List.find f l = None <-> forall x, x ∈ l -> f x = false.
Proof.
  split; [intros Hn x Hx; apply (List.find_none _ _ Hn); by apply list_elem_of_In|]. intros Hn. destruct (List.find f l) as [x|] eqn:E; [|done].
  apply List.find_some in E as [Hin E]. rewrite Hn in E; [done|]. by apply list_elem_of_In.
Qed.
Lemma clash_none cdb env volume (names : list string) : clash cdb env volume names = None <-> forall n, n ∈ names -> n ∉ owned cdb env volume.
Proof.
  unfold clash, refuseDeliveryOwnedNames, refuseFleetOwnedNames, owned. setoid_rewrite elem_of_app. split.
  - destruct (List.find _ names) eqn:E1; [done|]. destruct (List.find _ names) eqn:E2 in |- *; [done|]. rewrite find_none_iff in E1, E2. intros _ n Hn. specialize (E1 n Hn). specialize (E2 n Hn). bd. by intros [?|?].
  - intros Hn. destruct (List.find _ names) eqn:E1; [|destruct (List.find _ names) eqn:E2 in |- *; [|done]]; exfalso.
    + apply List.find_some in E1 as [Hin E1]. apply list_elem_of_In in Hin. bd. apply (Hn _ Hin). by left.
    + apply List.find_some in E2 as [Hin E2]. apply list_elem_of_In in Hin. bd. apply (Hn _ Hin). by right.
Qed.

Lemma suffix_not_manifest a ext : ext ∈ [".crt"; ".key"] -> a +:+ ext <> ManifestName.
Proof.
  intros He E. apply (f_equal strings.srev) in E. rewrite srev_app_s in E. rewrite !elem_of_cons in He. by destruct He as [-> | [-> | ?%not_elem_of_nil]].
Qed.
Lemma owned_not_manifest cdb env volume f : f ∈ owned cdb env volume -> f <> ManifestName.
Proof.
  assert (forall prefix id f, f ∈ cert_files cdb prefix id -> f <> ManifestName) as Hc.
  { intros prefix id g. unfold cert_files. destruct (CertificateByID cdb id) as [c|e]; [|by intros ?%not_elem_of_nil]. rewrite !elem_of_cons. intros [-> | [-> | ?%not_elem_of_nil]]; [| |done].
    - rewrite <- app_assoc_s. by apply suffix_not_manifest; left.
    - rewrite <- app_assoc_s. apply suffix_not_manifest. by right; left. }
  unfold owned, delivery_owned, fleetOwnedNames. rewrite elem_of_app. intros [H0|H0].
  - destruct (TraefikDeliveryForVolume cdb env volume) as [d|e]; [|by apply not_elem_of_nil in H0]. apply elem_of_app in H0 as [H0|H0].
    + assert (Forall (fun f => f <> ManifestName) ["tls.yml"; "ca-bundle.crt"; ManifestCerts]) as Hf by (by repeat constructor). rewrite Forall_forall in Hf. by apply Hf.
    + apply flat_map_elem in H0 as (dc & _ & H0). by apply Hc in H0.
  - destruct (FleetDeliveryForVolume cdb env volume) as [d|e]; [|by apply not_elem_of_nil in H0]. apply elem_of_cons in H0 as [->|H0]; [done|].
    apply flat_map_elem in H0 as (g & _ & H0). apply elem_of_cons in H0 as [->|H0]; [|].
    { pose proof (suffix_not_manifest (group_prefix g +:+ "ca-bundle") ".crt" ltac:(by left)) as Hx. by rewrite app_assoc_s in Hx. }
    apply flat_map_elem in H0 as (id & _ & H0). by apply Hc in H0.
Qed.

Section Sync.
Context `{Crypto} (sha256_hex : string -> string) (nodes : string -> option (list string)) (clone : string -> string -> string -> option Commit).
#[local] Abbreviation sync := (syncVolumeSource sha256_hex nodes clone).
#[local] Abbreviation tree_want v rt := (source_want rt (volumeSourceHash sha256_hex (rt_files rt) (vs_uid v) (vs_gid v)) (vs_uid v) (vs_gid v)).

Lemma tree_clean c dir r : treeFiles c dir = Ok r -> Forall (fun f => path.Clean (fl_name f) = fl_name f) r.1.
Proof.
  destruct r as [fs ws]. intros (w & _ & [_ He _ _] & -> & _)%treeFiles_spec. apply Forall_forall. intros f Hf. rewrite ssort_perm in Hf. apply list_elem_of_fmap in Hf as (e & -> & He').
  rewrite Forall_forall in He. destruct (He e He') as [_ Hi _ _]. by destruct (stays_inside_spec _ Hi).
Qed.
Lemma resolve_clean db v rt : (vs_kind v = "inline" -> Forall (fun f => path.Clean (fl_name f) = fl_name f) (VolSourceFiles db (vs_id v))) ->
  resolve_source clone db v = Ok rt -> Forall (fun f => path.Clean (fl_name f) = fl_name f) (rt_files rt).
Proof.
  intros Hi. unfold resolve_source. case_bool_decide as Ek; [intros [= <-]; by apply Hi|]. unfold ResolveTree. destruct (clone _ _ _) as [c|]; [|done]. destruct (treeFiles c (vs_path v)) as [r|e] eqn:Et; [|done]. intros [= <-]. by apply tree_clean in Et.
Qed.

(** C36: A source leaves alone what the deliveries on its volume own: whatever its
    files or its subtree hold and however its calls end, on no node does a sync
    write, change or remove one of their files — the certificates and keys, the
    bundle, the fragment, their manifests — provided that the manifest the source
    left on the node names none of them, and that the files of an inline source
    have clean names, which the handlers demand and [daffa apply] does not: [unclean_name_overwrites]. *)
Theorem source_spares_deliveries (ends : Ends) (st : SWorld) (v : VolumeSource) (ns : list string) : nodes (vs_env v) = Some ns -> NoDup ns ->
  (vs_kind v = "inline" -> Forall (fun f => path.Clean (fl_name f) = fl_name f) (VolSourceFiles (sw_db st) (vs_id v))) ->
  (forall n prev m, n ∈ ns -> ReadFile (disk_of (dw_disks (sw_del st)) (vs_env v) n) (vs_vol v) ManifestName true = Ok prev -> m ∈ ParseManifest prev -> path.Clean m ∉ owned (dw_db (sw_del st)) (vs_env v) (vs_vol v)) ->
  forall n f, n ∈ ns -> f ∈ owned (dw_db (sw_del st)) (vs_env v) (vs_vol v) ->
  volume_of (disk_of (dw_disks (sw_del (sync ends st v).1)) (vs_env v) n) (vs_vol v) !! f = volume_of (disk_of (dw_disks (sw_del st)) (vs_env v) n) (vs_vol v) !! f.
Proof.
  intros Hn Hnd Hin Hl n f Hnode Hf. unfold syncVolumeSource. destruct (resolve_source clone (sw_db st) v) as [rt|e] eqn:Er; [|done]. apply resolve_clean in Er as Hc; [|done]. rewrite Forall_forall in Hc. cbv zeta.
  destruct (_ && _); [done|]. destruct (clash _ _ _ _) as [e|] eqn:Ec; [done|]. rewrite Hn. rewrite clash_none in Ec.
  destruct (mirror_nodes_spec ManifestName (vs_env v) (vs_vol v) (tree_want v rt) (ends (vs_id v)) ns Hnd (dw_disks (sw_del st))) as (H1 & _).
  destruct (mirror_nodes _ _ _ _ _ _ _) as [disks errs]. simpl in H1 |- *. rewrite H1 by done. apply (mirror_frame ManifestName (vs_vol v) eq_refl); [by eapply owned_not_manifest| |].
  - intros x Hx E. rewrite Hc in E by done. apply (Ec f); [|done]. rewrite <- E. apply list_elem_of_fmap. by exists x.
  - intros prev m Hr Hm E. apply (Hl n prev m Hnode Hr Hm). by rewrite E.
Qed.
End Sync.

(** ** Concrete sources *)

Module SourceDemo.
Import CertDemo DeliveryDemo.
#[local] Existing Instance crypto.
Definition refs : Refs := mkRefs ["env"] (fun _ => None) (fun _ => false) (fun _ => None).
Definition no_clone (url ref cred : string) : option Commit := None.
Definition all_smooth : Ends := fun _ _ => smooth.
Definition request (file : string) : SourceRequest := mkSR "env" "daffa-certs" "inline" "" "" "" "" [mkFile file "text" 0] 0 0 "" "" false "".
Definition traefik_request : DeliveryRequest := mkDR "env" [mkDC "web" false] "" "" 0 0 true "" ["A"].
Definition src_text (e : SrcErr) : string := "failed".
Abbreviation sync_row st := (match VolumeSourceByID (sw_db st) "s" with Ok v => (reportVolumeSourceSync sha demo_nodes src_text no_clone 0 all_smooth st v).1 | Err _ => st end).
(** The steps: a source with a file [tls.yml]; a delivery that renders one; the
    source's file is renamed. *)
Definition st1 : SWorld := Eval vm_compute in
  let db := (handleCreateVolumeSource refs (fun _ => true) db2 (mkSDB [] ∅) (request "tls.yml") "s" "" 0).1 in sync_row (mkSW db (mkDW db2 ∅ [])).
Definition st2 : SWorld := Eval vm_compute in
  let cdb := (handleCreateCertDelivery (fun _ => true) db2 traefik_request "d" 0).1 in
  mkSW (sw_db st1) (resyncDeliveries sha demo_nodes text 0 all_smooth (mkDW cdb (dw_disks (sw_del st1)) [])).
Definition st3 : SWorld := Eval vm_compute in
  match VolumeSourceByID (sw_db st2) "s" with
  | Ok v => sync_row (mkSW (handleUpdateVolumeSource no_clone refs (dw_db (sw_del st2)) (sw_db st2) v (request "other.yml")).1 (sw_del st2))
  | Err _ => st2
  end.
Definition source : VolSources.VolumeSource := Eval vm_compute in match VolumeSourceByID (sw_db st3) "s" with Ok v => vs_marked "" "" "" None 0 v | Err _ => blank_source "" "" "" "" end.
(** The hash of the row is cleared, so the sync runs; the archive of [n1] stops half way. *)
Definition rough : Ends := fun _ n => if bool_decide (n = "n1") then mkEnds true (WriteStopped 0) RemoveDone WriteDone else smooth.
Definition holds (st : SWorld) (n f : string) : bool := bool_decide (is_Some (volume_of (disk_of (dw_disks (sw_del st)) "env" n) "daffa-certs" !! f)).
End SourceDemo.

(** A source that once wrote [tls.yml] takes the fragment of a delivery that was
    put on its volume later: creating the delivery asks no source, and the
    source's next content without the file removes it as stale. The rows of both
    say that all is well, and resyncing the deliveries writes nothing. *)
Theorem source_takes_fragment :
  map cd_status (cdels (dw_db (sw_del SourceDemo.st2))) = ["ok"] /\ SourceDemo.holds SourceDemo.st2 "n1" "tls.yml" = true /\
  map vs_status (sources (sw_db SourceDemo.st3)) = ["ok"] /\ map cd_status (cdels (dw_db (sw_del SourceDemo.st3))) = ["ok"] /\
  SourceDemo.holds SourceDemo.st3 "n1" "tls.yml" = false /\ SourceDemo.holds SourceDemo.st3 "n1" "web.key" = true /\
  @resyncDeliveries CertDemo.crypto DeliveryDemo.sha DeliveryDemo.demo_nodes DeliveryDemo.text 0 SourceDemo.all_smooth (sw_del SourceDemo.st3) = sw_del SourceDemo.st3.
Proof. repeat split; vm_compute; reflexivity. Qed.

(** A document whose inline source has a file [./tls.yml] is valid; [daffa apply]
    stores that name as written, where the handler refuses it; no delivery owns a
    file of that name, so the sync goes through, and the fragment of the delivery
    on the volume is gone, though no manifest named it before. *)
Module Unclean.
Import CertDemo DeliveryDemo SourceDemo.
#[local] Existing Instance crypto.
Definition document : Manifest.Manifest := Manifest.Build_Manifest 1 "prod" "env" [] [] [] [] [] [] [] [] [] [] [] []
  [Manifest.Build_VolumeSource "" "daffa-certs" (Manifest.Build_VolumeSourceSpec None [Manifest.Build_File "./tls.yml" "mine now"]) "" "" 0 0 false ""].
Definition first : SWorld := Eval vm_compute in
  let db := (handleCreateVolumeSource refs (fun _ => true) db2 (mkSDB [] ∅) (request "other.yml") "s" "" 0).1 in sync_row (mkSW db (mkDW db2 ∅ [])).
Definition stored : SWorld := Eval vm_compute in
  let cdb := (handleCreateCertDelivery (fun _ => true) db2 traefik_request "d" 0).1 in
  mkSW (match SetVolSourceFiles (sw_db first) "s" [mkFile "./tls.yml" "mine now" 0] with Ok db => db | Err _ => sw_db first end)
    (resyncDeliveries sha demo_nodes text 0 all_smooth (mkDW cdb (dw_disks (sw_del first)) [])).
Definition after_sync : SWorld := Eval vm_compute in sync_row stored.
Definition fragment (st : SWorld) : option string := b_data <$> volume_of (disk_of (dw_disks (sw_del st)) "env" "n1") "daffa-certs" !! "tls.yml".
End Unclean.
Theorem unclean_name_overwrites :
  Manifest.Validate (fun _ => None) (fun _ => None) Unclean.document = [] /\ (forall f, f ∈ [mkFile "./tls.yml" "mine now" 0] -> volSourceFilesFromRequest [f] <> Ok [f]) /\
  map fl_name (VolSourceFiles (sw_db Unclean.stored) "s") = ["./tls.yml"] /\ "tls.yml" ∈ owned (dw_db (sw_del Unclean.stored)) "env" "daffa-certs" /\
  is_Some (Unclean.fragment Unclean.stored) /\ Unclean.fragment Unclean.stored <> Some "mine now" /\ Unclean.fragment Unclean.after_sync = Some "mine now" /\ map vs_status (sources (sw_db Unclean.after_sync)) = ["ok"].
Proof. split; [by vm_compute|]. split; [by intros f ->%list_elem_of_singleton|]. split_and!; first [by vm_compute|apply (bool_decide_unpack _); by vm_compute]. Qed.

Lemma source_spares_deliveries_witness :
  volume_of (disk_of (dw_disks (sw_del (@syncVolumeSource DeliveryDemo.sha DeliveryDemo.demo_nodes SourceDemo.no_clone SourceDemo.rough SourceDemo.st3 SourceDemo.source).1)) (vs_env SourceDemo.source) "n1") (vs_vol SourceDemo.source) !! "web.key" =
  volume_of (disk_of (dw_disks (sw_del SourceDemo.st3)) (vs_env SourceDemo.source) "n1") (vs_vol SourceDemo.source) !! "web.key".
Proof.
  apply (source_spares_deliveries DeliveryDemo.sha DeliveryDemo.demo_nodes SourceDemo.no_clone SourceDemo.rough SourceDemo.st3 SourceDemo.source ["n1"; "n2"]).
  - reflexivity.
  - apply (bool_decide_unpack _). vm_compute. reflexivity.
  - intros _. apply (bool_decide_unpack _). vm_compute. reflexivity.
  - assert (Forall (fun n => match ReadFile (disk_of (dw_disks (sw_del SourceDemo.st3)) (vs_env SourceDemo.source) n) (vs_vol SourceDemo.source) ManifestName true with
      | Ok prev => Forall (fun m => path.Clean m ∉ owned (dw_db (sw_del SourceDemo.st3)) (vs_env SourceDemo.source) (vs_vol SourceDemo.source)) (ParseManifest prev) | Err _ => True end) ["n1"; "n2"]) as Hl.
    { repeat (apply Forall_cons_2; [vm_compute ReadFile; cbv iota; apply (bool_decide_unpack _); vm_compute; reflexivity|]). constructor. }
    intros n prev m Hn Hr Hm. rewrite Forall_forall in Hl. specialize (Hl n Hn). rewrite Hr, Forall_forall in Hl. by apply Hl.
  - by left.
  - apply (bool_decide_unpack _). vm_compute. reflexivity.
Defined.
