(* ===== verification/Cleanup.v ===== *)
(** * Automatic disk cleanup

    Models [internal/store/cleanup.go], [internal/api/cleanup_worker.go],
    [internal/api/cleanup_handlers.go] and the image sweep of
    [internal/dockerx/imagesweep.go]: the policies and the schedule rebuilt from
    them, one sweep of a host, and which images it takes. What the daemons answer
    is an input; the cron library is its parser, a parameter. *)
From S2P Require Import Prelude GoStd Watch Keyrings.
Local Open Scope string_scope.
Local Open Scope list_scope.
Local Open Scope daffa_scope.
Local Open Scope Z_scope.

(** ** Policies *)

Definition CleanupTargets : list string := ["containers"; "images"; "networks"; "build-cache"].
Definition ValidCleanupTarget (t : string) : bool := existsb (fun v => bool_decide (v = t)) CleanupTargets.
Record CleanupPolicy := mkPolicy { cp_enabled : bool; cp_schedule : string; cp_targets : list string; cp_keep_hours : Z; cp_keep_images : list string; cp_updated : Z }.

Inductive PolicyErr := BadKeepHours | VolumesNeverSwept | UnknownTarget (t : string) | TargetTwice (t : string) | BadPattern (p : string) | TooManyPatterns | ScheduleRequired | NothingToPrune
| BadCron | PolicyStore (e : KErr).
Definition maxKeepImages : nat := 100.
Definition maxKeepHours : Z := 24 * 365.
Definition pattern_break (c : ascii) : bool := bool_decide (c = " "%char) || bool_decide (c = "009"%char) || bool_decide (c = "010"%char).

Fixpoint check_targets (l seen : list string) : option PolicyErr :=
  match l with
  | [] => None
  | t :: l => if bool_decide (t = "volumes") then Some VolumesNeverSwept
              else if negb (ValidCleanupTarget t) then Some (UnknownTarget t)
              else if bool_decide (t ∈ seen) then Some (TargetTwice t)
              else check_targets l (t :: seen)
  end.
Fixpoint check_patterns (l : list string) : option PolicyErr :=
  match l with
  | [] => None
  | p :: l => let p := strings.TrimSpace p in
              if negb (bool_decide (p = "")) && strings.has_char pattern_break p then Some (BadPattern p) else check_patterns l
  end.
Definition Validate (p : CleanupPolicy) : option PolicyErr :=
  if (cp_keep_hours p <? 0) || (maxKeepHours <? cp_keep_hours p) then Some BadKeepHours
  else match check_targets (cp_targets p) [] with
  | Some e => Some e
  | None => match check_patterns (cp_keep_images p) with
      | Some e => Some e
      | None => if (maxKeepImages <? length (cp_keep_images p))%nat then Some TooManyPatterns
                else if negb (cp_enabled p) then None
                else if bool_decide (strings.TrimSpace (cp_schedule p) = "") then Some ScheduleRequired
                else match cp_targets p with [] => Some NothingToPrune | _ => None end
      end
  end.

Fixpoint dedupe_go (l seen out : list string) : list string :=
  match l with
  | [] => out
  | v :: l => let v := strings.TrimSpace v in
              if bool_decide (v = "") || bool_decide (v ∈ seen) then dedupe_go l seen out else dedupe_go l (v :: seen) (out ++ [v])
  end.
Definition dedupeTrimmed (l : list string) : list string := dedupe_go l [] [].
Fixpoint index_in (l : list string) (t : string) : nat := match l with [] => O | v :: l => if bool_decide (v = t) then O else S (index_in l t) end.
Definition cleanupTargetOrder (t : string) : nat := index_in CleanupTargets t.
Definition normalize (p : CleanupPolicy) : CleanupPolicy :=
  mkPolicy (cp_enabled p) (strings.TrimSpace (cp_schedule p)) (ssort (fun a b => (cleanupTargetOrder a <? cleanupTargetOrder b)%nat) (cp_targets p)) (cp_keep_hours p) (dedupeTrimmed (cp_keep_images p)) (cp_updated p).

(** A row of one of the two tables; the lists are one text each. *)
Record PolicyRow := mkRow { pr_enabled : bool; pr_schedule : string; pr_targets : string; pr_keep_hours : Z; pr_keep_images : string; pr_updated : Z }.
Definition nl : string := String "010" "".
Definition joinTargets (l : list string) : string := strings.Join l " ".
Definition splitTargets (s : string) : list string := strings.Fields s.
Definition row_of_policy (p : CleanupPolicy) : PolicyRow := mkRow (cp_enabled p) (cp_schedule p) (joinTargets (cp_targets p)) (cp_keep_hours p) (strings.Join (cp_keep_images p) nl) (cp_updated p).
Definition scanCleanupPolicy (r : PolicyRow) : CleanupPolicy :=
  mkPolicy (pr_enabled r) (pr_schedule r) (splitTargets (pr_targets r)) (pr_keep_hours r) (dedupeTrimmed (strings.Split (pr_keep_images r) "010")) (pr_updated r).

(** The last sweep of a host; [cr_ended] [None]: in flight, or lost. *)
Record CleanupRun := mkRun { cr_trigger : string; cr_started : Z; cr_ended : option Z; cr_freed : Z; cr_deleted : Z; cr_error : string }.
(** The hosts with their ids in the order they were added. *)
Record CleanDB := mkCDB { hosts : list string; cleanup_settings : option PolicyRow; env_cleanup_policies : gmap string PolicyRow; env_cleanup_runs : gmap string CleanupRun }.

Definition GlobalCleanupPolicy (db : CleanDB) : option CleanupPolicy := scanCleanupPolicy <$> cleanup_settings db.
Definition EnvCleanupPolicy (db : CleanDB) (env : string) : option CleanupPolicy := scanCleanupPolicy <$> env_cleanup_policies db !! env.
Definition EffectiveCleanupPolicy (db : CleanDB) (env : string) : option CleanupPolicy :=
  match EnvCleanupPolicy db env with Some p => Some p | None => GlobalCleanupPolicy db end.
Definition stored (p : CleanupPolicy) (now : Z) : PolicyRow :=
  let p := normalize p in row_of_policy (mkPolicy (cp_enabled p) (cp_schedule p) (cp_targets p) (cp_keep_hours p) (cp_keep_images p) now).
Definition SaveGlobalCleanupPolicy (db : CleanDB) (p : CleanupPolicy) (now : Z) : res PolicyErr CleanDB :=
  match Validate p with
  | Some e => Err e
  | None => Ok (mkCDB (hosts db) (Some (stored p now)) (env_cleanup_policies db) (env_cleanup_runs db))
  end.
Definition DeleteGlobalCleanupPolicy (db : CleanDB) : CleanDB := mkCDB (hosts db) None (env_cleanup_policies db) (env_cleanup_runs db).
Definition SaveEnvCleanupPolicy (db : CleanDB) (env : string) (p : CleanupPolicy) (now : Z) : res PolicyErr CleanDB :=
  match Validate p with
  | Some e => Err e
  | None => if negb (bool_decide (env ∈ hosts db)) then Err (PolicyStore ErrForeignKey)
            else Ok (mkCDB (hosts db) (cleanup_settings db) (<[env := stored p now]> (env_cleanup_policies db)) (env_cleanup_runs db))
  end.
Definition DeleteEnvCleanupPolicy (db : CleanDB) (env : string) : CleanDB := mkCDB (hosts db) (cleanup_settings db) (delete env (env_cleanup_policies db)) (env_cleanup_runs db).

Definition StartCleanupRun (db : CleanDB) (env trigger : string) (now : Z) : res KErr CleanDB :=
  if negb (bool_decide (env ∈ hosts db)) then Err ErrForeignKey
  else Ok (mkCDB (hosts db) (cleanup_settings db) (env_cleanup_policies db) (<[env := mkRun trigger now None 0 0 ""]> (env_cleanup_runs db))).
Definition FinishCleanupRun (db : CleanDB) (env : string) (freed deleted : Z) (err : option string) (now : Z) : CleanDB :=
  mkCDB (hosts db) (cleanup_settings db) (env_cleanup_policies db)
    (alter (fun r => mkRun (cr_trigger r) (cr_started r) (Some now) freed deleted (match err with Some e => e | None => "" end)) env (env_cleanup_runs db)).
Definition LastCleanupRun (db : CleanDB) (env : string) : option CleanupRun := env_cleanup_runs db !! env.
(** The rows of a host go with it. *)
Definition add_host (db : CleanDB) (env : string) : CleanDB := mkCDB (hosts db ++ [env]) (cleanup_settings db) (env_cleanup_policies db) (env_cleanup_runs db).
Definition remove_host (db : CleanDB) (env : string) : CleanDB :=
  mkCDB (List.filter (fun h => negb (bool_decide (h = env))) (hosts db)) (cleanup_settings db) (delete env (env_cleanup_policies db)) (delete env (env_cleanup_runs db)).

(** ** Which images a sweep takes *)

(** [im_created] in seconds, the daemon's. *)
Record Image := mkImage { im_id : string; im_tags : list string; im_digests : list string; im_created : Z; im_labels : gmap string string; im_size : Z }.
Inductive KeepRule := ByDigest (d : string) | ByGlob (re : list Item).
Definition KeepLabel : string := "daffa.keep".
Definition RunnerDigest : string := "sha256:851f91d241214e7c6db86513b270d58776379aacc5eb9c4a87e5b47115e3065c".
Definition RunnerImage : string := "docker:27-cli@" +:+ RunnerDigest.

(** The quoted pattern with [.*] for every star, anchored. *)
Definition keep_items (p : string) : list Item := map (fun r => if r =? 42 then IAny else ILit r) (utf8.runes p).
Definition keep_rule (p : string) : KeepRule :=
  match strings.cut_byte p "@" with
  | Some (_, d) => ByDigest d
  | None =>
      let name := match strings.after_last p "/" with Some r => r | None => p end in
      ByGlob (keep_items (if strings.Contains name ":" then p else p +:+ ":*"))
  end.
Definition parseKeepRules (patterns : list string) : list KeepRule :=
  map keep_rule (List.filter (fun p => negb (bool_decide (p = ""))) (map strings.TrimSpace patterns)).
(** [None]: the rule has no digest and no expression, which the first tag calls. *)
Definition rule_matches (r : KeepRule) (img : Image) : option bool :=
  match r with
  | ByDigest "" => match im_tags img with [] => Some false | _ => None end
  | ByDigest d => Some (bool_decide (im_id img = d) || existsb (fun x => strings.HasSuffix x ("@" +:+ d)) (im_digests img))
  | ByGlob re => Some (existsb (fun t => MatchString re (utf8.runes t)) (im_tags img))
  end.
Fixpoint any_match (rules : list KeepRule) (img : Image) : option bool :=
  match rules with
  | [] => Some false
  | r :: rules => match rule_matches r img with None => None | Some true => Some true | Some false => any_match rules img end
  end.
Inductive Verdict := InUse | Young | Labelled | Kept | Goes | Dies.
Definition second : Z := 1000000000.
Definition sweepVerdict (img : Image) (inUse : list string) (cutoff : Z) (rules : list KeepRule) : Verdict :=
  if bool_decide (im_id img ∈ inUse) then InUse
  else if negb (im_created img * second <? cutoff) then Young
  else if match im_labels img !! KeepLabel with Some v => negb (bool_decide (v = "false")) | None => false end then Labelled
  else match any_match rules img with None => Dies | Some true => Kept | Some false => Goes end.
Definition realTags (img : Image) : list string := List.filter (fun t => negb (bool_decide (t = "<none>:<none>"))) (im_tags img).
Definition refs_of (img : Image) : list string := match realTags img with [] => [im_id img] | l => l end.

(** What a node's daemon answers to a sweep; [None]: an error. A container is
    the image it runs, [None] when it cannot be inspected. *)
Inductive RemoveAnswer := Removed (deleted : bool) | RefConflict | RefNotFound | RefFailed (msg : string).
Inductive PruneTarget := PruneImages | PruneContainers | PruneNetworks | PruneVolumes | PruneBuildCache.
Inductive PruneFilter := Until (d : Z) | Dangling (b : bool).
Record PruneOptions := mkOpts { po_min_age : Z; po_unused : bool; po_keep : list string }.
Record Daemon := mkDaemon {
  dm_time : option Z; dm_images : res string (list Image); dm_containers : res string (list (option string)); dm_before : option Z; dm_after : option Z;
  dm_remove : string -> RemoveAnswer; dm_prune : PruneTarget -> list PruneFilter -> res string (Z * Z) }.

(** The names of one image, until one fails: whether content went, what is worth
    reporting, what was asked for. *)
Fixpoint remove_refs (answer : string -> RemoveAnswer) (refs : list string) (gone : bool) : bool * list string * list string :=
  match refs with
  | [] => (gone, [], [])
  | r :: refs =>
      match answer r with
      | Removed d => let '(g, fails, asked) := remove_refs answer refs (gone || d) in (g, fails, r :: asked)
      | RefFailed msg => (gone, [r +:+ ": " +:+ msg], [r])
      | _ => (gone, [], [r])
      end
  end.
Record Swept := mkSwept { sw_deleted : Z; sw_estimated : Z; sw_failures : list string; sw_asked : list string }.
Definition swept_image (answer : string -> RemoveAnswer) (img : Image) (s : Swept) : Swept :=
  let '(gone, fails, asked) := remove_refs answer (refs_of img) false in
  mkSwept (if gone then sw_deleted s + 1 else sw_deleted s) (if gone then wrap64 (sw_estimated s + im_size img) else sw_estimated s) (sw_failures s ++ fails) (sw_asked s ++ asked).
(** [false]: the process died on an image. *)
Fixpoint sweep_images (answer : string -> RemoveAnswer) (inUse : list string) (cutoff : Z) (rules : list KeepRule) (l : list Image) (s : Swept) : Swept * bool :=
  match l with
  | [] => (s, true)
  | img :: l =>
      match sweepVerdict img inUse cutoff rules with
      | Dies => (s, false)
      | Goes => sweep_images answer inUse cutoff rules l (swept_image answer img s)
      | _ => sweep_images answer inUse cutoff rules l s
      end
  end.
(** How a prune ends: dead, an error and no result, a result with what failed. *)
Inductive Pruned := PruneDied | PruneFailed (e : string) | PruneDone (freed deleted : Z) (failures : list string).
(** An image a container that cannot be inspected runs counts as unused. *)
Definition imagesInUse (d : Daemon) : res string (list string) := let* l := dm_containers d in Ok (omap id l).
Definition cutoff_of (now : Z) (d : Daemon) (opts : PruneOptions) : Z := default now (dm_time d) - po_min_age opts.
Definition swept_of (now : Z) (opts : PruneOptions) (d : Daemon) (imgs : list Image) (inUse : list string) : Swept * bool :=
  sweep_images (dm_remove d) inUse (cutoff_of now d opts) (parseKeepRules (po_keep opts)) imgs (mkSwept 0 0 [] []).
Definition sweepUnusedImages (now : Z) (opts : PruneOptions) (d : Daemon) : Pruned :=
  match dm_images d with
  | Err e => PruneFailed e
  | Ok imgs => match imagesInUse d with
      | Err e => PruneFailed e
      | Ok inUse =>
          let '(s, alive) := swept_of now opts d imgs inUse in
          if negb alive then PruneDied
          else PruneDone (match dm_before d, dm_after d with Some b, Some a => if a <=? b then b - a else 0 | _, _ => sw_estimated s end) (sw_deleted s) (sw_failures s)
      end
  end.
Definition pruneFilters (t : PruneTarget) (opts : PruneOptions) : list PruneFilter :=
  (if (0 <? po_min_age opts) && match t with PruneVolumes => false | _ => true end then [Until (po_min_age opts)] else []) ++ match t with PruneImages => [Dangling (negb (po_unused opts))] | _ => [] end.
Definition PruneWith (now : Z) (t : PruneTarget) (opts : PruneOptions) (d : Daemon) : Pruned :=
  match t with
  | PruneImages => if po_unused opts then sweepUnusedImages now opts d
                   else match dm_prune d t (pruneFilters t opts) with Err e => PruneFailed e | Ok (freed, deleted) => PruneDone (wrap64 freed) deleted [] end
  | PruneNetworks => match dm_prune d t (pruneFilters t opts) with Err e => PruneFailed e | Ok (_, deleted) => PruneDone 0 deleted [] end
  | _ => match dm_prune d t (pruneFilters t opts) with Err e => PruneFailed e | Ok (freed, deleted) => PruneDone (wrap64 freed) deleted [] end
  end.
(** The manual prune. *)
Definition Prune (now : Z) (t : PruneTarget) (d : Daemon) : Pruned := PruneWith now t (mkOpts 0 false []) d.

(** ** One sweep of a host *)

Definition cleanupPruneTarget (t : string) : option PruneTarget :=
  if bool_decide (t = "images") then Some PruneImages
  else if bool_decide (t = "containers") then Some PruneContainers
  else if bool_decide (t = "networks") then Some PruneNetworks
  else if bool_decide (t = "build-cache") then Some PruneBuildCache
  else None.
Definition hour : Z := 3600 * second.
Definition sweep_options (p : CleanupPolicy) : PruneOptions := mkOpts (wrap64 (cp_keep_hours p * hour)) true (cp_keep_images p ++ [RunnerImage]).
(** What the sweep has reclaimed and what failed so far. *)
Record HostSweep := mkHS { hs_freed : Z; hs_deleted : Z; hs_failures : list string }.
Definition failure_line (target node e : string) : string := target +:+ " on " +:+ node +:+ ": " +:+ e.
Definition sweep_target (now : Z) (opts : PruneOptions) (node : string * Daemon) (acc : option HostSweep) (target : string) : option HostSweep :=
  match acc, cleanupPruneTarget target with
  | None, _ => None
  | Some h, None => Some h
  | Some h, Some t =>
      match PruneWith now t opts node.2 with
      | PruneDied => None
      | PruneFailed e => Some (mkHS (hs_freed h) (hs_deleted h) (hs_failures h ++ [failure_line target node.1 e]))
      | PruneDone freed deleted fails =>
          Some (mkHS (wrap64 (hs_freed h + freed)) (hs_deleted h + deleted)
                 (hs_failures h ++ match fails with [] => [] | _ => [failure_line target node.1 (strings.Join fails "; ")] end))
      end
  end.
Definition sweep_node (now : Z) (p : CleanupPolicy) (acc : option HostSweep) (node : string * Daemon) : option HostSweep :=
  fold_left (sweep_target now (sweep_options p) node) (cp_targets p) acc.
(** [nodes] [None]: the host is not connected. *)
Definition sweepHost (now : Z) (nodes : option (list (string * Daemon))) (p : CleanupPolicy) : option (Z * Z * option string) :=
  match nodes with
  | None => Some (0, 0, Some "this host is not connected")
  | Some [] => Some (0, 0, Some "this host has no reachable node")
  | Some ns => match fold_left (sweep_node now p) ns (Some (mkHS 0 0 [])) with
      | None => None
      | Some h => Some (hs_freed h, hs_deleted h, match hs_failures h with [] => None | l => Some (strings.Join l "; ") end)
      end
  end.

(** ** The worker and its schedule *)

(** What a person chooses; the parser of the cron library is a parameter. *)
Record PolicyRequest := mkPR { rq_enabled : bool; rq_schedule : string; rq_targets : list string; rq_keep_hours : Z; rq_keep_images : list string }.
Record Task := mkTask { tk_env : string; tk_trigger : string; tk_policy : CleanupPolicy }.
(** The server: the tables, the hosts with a sweep in flight, the sweeps, the
    entries of the running cron, the audit log. *)
Record Worker := mkWorker { wk_db : CleanDB; wk_running : list string; wk_tasks : list Task; wk_entries : list (string * string); wk_audit : list (string * string) }.
Definition set_db (w : Worker) (db : CleanDB) : Worker := mkWorker db (wk_running w) (wk_tasks w) (wk_entries w) (wk_audit w).
Definition log (w : Worker) (action outcome : string) : Worker := mkWorker (wk_db w) (wk_running w) (wk_tasks w) (wk_entries w) (wk_audit w ++ [(action, outcome)]).

Section Worker.
Context (cron_ok : string -> bool).

(** The entry of a host, if it has one. *)
Definition scheduled (db : CleanDB) (env : string) : option string :=
  match EffectiveCleanupPolicy db env with
  | Some p => if cp_enabled p && negb (bool_decide (cp_schedule p = "")) && cron_ok (cp_schedule p) then Some (cp_schedule p) else None
  | None => None
  end.
Definition schedule_of (db : CleanDB) : list (string * string) := omap (fun env => (fun s => (env, s)) <$> scheduled db env) (hosts db).
(** [reads] [false]: the hosts could not be listed, and the old cron stays. *)
Definition rebuildCleanupSchedule (reads : bool) (w : Worker) : Worker :=
  if reads then mkWorker (wk_db w) (wk_running w) (wk_tasks w) (schedule_of (wk_db w)) (wk_audit w) else w.

Definition tryStart (w : Worker) (env : string) : option Worker :=
  if bool_decide (env ∈ wk_running w) then None else Some (mkWorker (wk_db w) (env :: wk_running w) (wk_tasks w) (wk_entries w) (wk_audit w)).
Definition finish (w : Worker) (env : string) : Worker :=
  mkWorker (wk_db w) (List.filter (fun e => negb (bool_decide (e = env))) (wk_running w)) (wk_tasks w) (wk_entries w) (wk_audit w).
(** [runCleanup] until its sweep is under way; [writes] [false]: the run could
    not be recorded. *)
Definition runCleanup_start (w : Worker) (env trigger : string) (writes : bool) (now : Z) : Worker :=
  match tryStart w env with
  | None => w
  | Some w =>
      match EffectiveCleanupPolicy (wk_db w) env with
      | None => finish w env
      | Some p =>
          if bool_decide (cp_targets p = []) || (negb (cp_enabled p) && negb (bool_decide (trigger = "manual"))) then finish w env
          else match (if writes then StartCleanupRun (wk_db w) env trigger now else Err ErrNotConnected) with
               | Err _ => finish w env
               | Ok db => mkWorker db (wk_running w) (wk_tasks w ++ [mkTask env trigger p]) (wk_entries w) (wk_audit w)
               end
      end
  end.
(** The rest of it, once the sweep has ended. *)
Definition runCleanup_end (w : Worker) (t : Task) (outcome : Z * Z * option string) (writes : bool) (now : Z) : Worker :=
  let '(freed, deleted, err) := outcome in
  let db := if writes then FinishCleanupRun (wk_db w) (tk_env t) freed deleted err now else wk_db w in
  let w := mkWorker db (wk_running w) (List.filter (fun x => negb (bool_decide (tk_env x = tk_env t))) (wk_tasks w)) (wk_entries w) (wk_audit w) in
  finish (log w "cleanup.run" (match err with None => "ok" | Some _ => "error" end)) (tk_env t).
(** The process is gone: what was in flight is lost, the schedule is rebuilt. *)
Definition restart (w : Worker) : Worker := mkWorker (wk_db w) [] [] (schedule_of (wk_db w)) (wk_audit w).
(** A whole run; [None]: the process died in it. *)
Definition runCleanup (w : Worker) (env trigger : string) (nodes : option (list (string * Daemon))) (now later : Z) : option Worker :=
  let w' := runCleanup_start w env trigger true now in
  match List.find (fun t => bool_decide (tk_env t = env)) (wk_tasks w') with
  | None => Some w'
  | Some t => if bool_decide (env ∈ wk_running w) then Some w'
              else match sweepHost now nodes (tk_policy t) with None => None | Some o => Some (runCleanup_end w' t o true later) end
  end.

(** ** The handlers *)

Definition decodeCleanupPolicy (req : PolicyRequest) : res PolicyErr CleanupPolicy :=
  let p := mkPolicy (rq_enabled req) (strings.TrimSpace (rq_schedule req)) (map strings.TrimSpace (rq_targets req)) (rq_keep_hours req) (rq_keep_images req) 0 in
  if negb (bool_decide (cp_schedule p = "")) && negb (cron_ok (cp_schedule p)) then Err BadCron else Ok p.
Definition handleSaveGlobalCleanup (w : Worker) (req : PolicyRequest) (now : Z) : Worker * option PolicyErr :=
  match (let* p := decodeCleanupPolicy req in SaveGlobalCleanupPolicy (wk_db w) p now) with
  | Err e => (w, Some e)
  | Ok db => (log (rebuildCleanupSchedule true (set_db w db)) "cleanup.settings.update" "ok", None)
  end.
Definition handleDeleteGlobalCleanup (w : Worker) : Worker :=
  log (rebuildCleanupSchedule true (set_db w (DeleteGlobalCleanupPolicy (wk_db w)))) "cleanup.settings.clear" "ok".
Definition handleSaveEnvCleanup (w : Worker) (env : string) (req : PolicyRequest) (now : Z) : Worker * option PolicyErr :=
  if negb (bool_decide (env ∈ hosts (wk_db w))) then (w, Some (PolicyStore ErrNotFound))
  else match (let* p := decodeCleanupPolicy req in SaveEnvCleanupPolicy (wk_db w) env p now) with
  | Err e => (w, Some e)
  | Ok db => (log (rebuildCleanupSchedule true (set_db w db)) "cleanup.host.update" "ok", None)
  end.
Definition handleDeleteEnvCleanup (w : Worker) (env : string) : Worker :=
  log (rebuildCleanupSchedule true (set_db w (DeleteEnvCleanupPolicy (wk_db w) env))) "cleanup.host.clear" "ok".
(** Whether a sweep is started in the background. *)
Definition handleRunCleanup (w : Worker) (env : string) : bool :=
  match EffectiveCleanupPolicy (wk_db w) env with None => false | Some p => negb (bool_decide (cp_targets p = [])) end.

(** What happens to the server, one step after the other. Adding or removing a
    host rebuilds nothing. *)
Inductive CleanEvent :=
| Fire (env : string) (writes : bool) (now : Z) | RunNow (env : string) (writes : bool) (now : Z) | SweepEnds (env : string) (outcome : Z * Z * option string) (writes : bool) (now : Z)
| SaveGlobal (req : PolicyRequest) (now : Z) | ClearGlobal | SaveEnv (env : string) (req : PolicyRequest) (now : Z) | ClearEnv (env : string)
| AddHost (env : string) | RemoveHost (env : string) | Restart.
Definition clean_step (w : Worker) (e : CleanEvent) : Worker :=
  match e with
  | Fire env writes now => if bool_decide (env ∈ map fst (wk_entries w)) then runCleanup_start w env "schedule" writes now else w
  | RunNow env writes now => if handleRunCleanup w env then runCleanup_start w env "manual" writes now else w
  | SweepEnds env outcome writes now =>
      match List.find (fun t => bool_decide (tk_env t = env)) (wk_tasks w) with None => w | Some t => runCleanup_end w t outcome writes now end
  | SaveGlobal req now => (handleSaveGlobalCleanup w req now).1
  | ClearGlobal => handleDeleteGlobalCleanup w
  | SaveEnv env req now => (handleSaveEnvCleanup w env req now).1
  | ClearEnv env => handleDeleteEnvCleanup w env
  | AddHost env => if bool_decide (env ∈ hosts (wk_db w)) then w else set_db w (add_host (wk_db w) env)
  | RemoveHost env => set_db w (remove_host (wk_db w) env)
  | Restart => restart w
  end.
End Worker.
