(* ===== verification/CleanupCases.v ===== *)
(** * What the cleanup promises

    The stored form of a policy, the schedule and the sweeps over time, the
    images a sweep may take ([Cleanup]). *)
From S2P Require Import Prelude GoStd Watch Sans Keyrings Volumes Cleanup.
Local Open Scope string_scope.
Local Open Scope list_scope.
Local Open Scope daffa_scope.
Local Open Scope Z_scope.

(** ** Words and trimmed texts *)

Lemma visible_find f c t : visible f -> f c = true -> List.find (strings.HasPrefix (String c t)) strings.spaces = None.
Proof.
  intros Hf Hc. specialize (Hf c Hc). destruct (List.find _ strings.spaces) as [p|] eqn:E; [|done]. apply List.find_some in E as [Hin Hp].
  rewrite forallb_forall in Hf. specialize (Hf p Hin). destruct p as [|d p]; [done|]. bd. simpl in Hp. bd. congruence.
Qed.
Lemma fields_word f x s : visible f -> strings.all_chars f x = true -> forall acc, strings.fields_from 0 acc (x +:+ String " " s) = strings.emit (acc +:+ x) ++ strings.fields_from 0 "" s.
Proof.
  intros Hf. induction x as [|c x IH]; intros Hx acc; [by rewrite app_nil_s|]. rewrite all_chars_cons in Hx. apply andb_prop in Hx as [Hc Hx].
  rewrite app_cons_s. cbn [strings.fields_from]. rewrite (visible_find f) by done. rewrite IH by done. by rewrite app_assoc_s.
Qed.
Lemma Fields_Join f l : visible f -> Forall (fun x => strings.all_chars f x = true /\ x <> "") l -> strings.Fields (strings.Join l " ") = l.
Proof.
  intros Hf. induction 1 as [|x l [Hx Hne] Hl IH]; [done|]. destruct l as [|y l]; [apply Fields_nospace; [by eapply visible_nospace|done]|].
  rewrite Join_cons. change (x +:+ " " +:+ strings.Join (y :: l) " ") with (x +:+ String " " (strings.Join (y :: l) " ")). unfold strings.Fields in *. rewrite (fields_word f) by done. rewrite IH, app_empty_s.
  unfold strings.emit. by rewrite bool_decide_eq_false_2.
Qed.

Lemma strip_n_prefix n pats s : (forall p, p ∈ pats -> p <> "") -> (String.length s <= n)%nat -> List.find (strings.HasPrefix (strings.strip_n n pats s)) pats = None /\ exists u, s = u +:+ strings.strip_n n pats s.
Proof.
  intros Hp. revert s. induction n as [|n IH]; intros s Hl; simpl.
  - destruct s as [|c s]; [|simpl in Hl; lia]. split; [|by exists ""]. destruct (List.find _ pats) as [p|] eqn:E; [|done]. apply List.find_some in E as [Hin E]. apply list_elem_of_In in Hin. by destruct p; [destruct (Hp "" Hin)|].
  - unfold strings.strip_one. destruct (List.find (strings.HasPrefix s) pats) as [p|] eqn:E; [|split; [done|by exists ""]]. apply List.find_some in E as [Hin E]. apply list_elem_of_In in Hin. apply HasPrefix_spec in E as [t ->]. rewrite drop_app.
    rewrite length_app_s in Hl. assert (0 < String.length p)%nat by (destruct p; [by destruct (Hp "" Hin)|simpl; lia]). destruct (IH t ltac:(lia)) as [H1 [u Hu]]. split; [done|]. exists (p +:+ u). by rewrite app_assoc_s, <- Hu.
Qed.
Lemma strip_done pats s : List.find (strings.HasPrefix s) pats = None -> strings.strip pats s = s.
Proof. intros H. unfold strings.strip. destruct (String.length s); [done|]. simpl. unfold strings.strip_one. by rewrite H. Qed.
Lemma no_prefix_app pats a b : List.find (strings.HasPrefix (a +:+ b)) pats = None -> List.find (strings.HasPrefix a) pats = None.
Proof.
  intros H. destruct (List.find (strings.HasPrefix a) pats) as [p|] eqn:E; [|done]. apply List.find_some in E as [Hin Hp]. pose proof (List.find_none _ _ H p Hin) as Hn. simpl in Hn. by rewrite (HasPrefix_app a b p Hp) in Hn.
Qed.
(** Trimming twice is trimming once. *)
Lemma TrimSpace_idem s : strings.TrimSpace (strings.TrimSpace s) = strings.TrimSpace s.
Proof.
  assert (forall p, p ∈ strings.spaces -> p <> "") as H1 by (apply Forall_forall; apply (bool_decide_unpack _); by vm_compute).
  assert (forall p, p ∈ map strings.srev strings.spaces -> p <> "") as H2 by (apply Forall_forall; apply (bool_decide_unpack _); by vm_compute).
  set (a := strings.strip strings.spaces s). set (b := strings.strip (map strings.srev strings.spaces) (strings.srev a)). change (strings.TrimSpace s) with (strings.srev b).
  destruct (strip_n_prefix (String.length s) strings.spaces s H1 ltac:(lia)) as [Ha _]. change (strings.strip_n (String.length s) strings.spaces s) with a in Ha.
  destruct (strip_n_prefix (String.length (strings.srev a)) _ (strings.srev a) H2 ltac:(lia)) as [Hb [u Hu]]. change (strings.strip_n _ _ (strings.srev a)) with b in Hb, Hu.
  assert (a = strings.srev b +:+ strings.srev u) as Ea by (rewrite <- (srev_srev a), Hu; by rewrite srev_app_s).
  unfold strings.TrimSpace. rewrite (strip_done _ (strings.srev b)); [|rewrite Ea in Ha; by eapply no_prefix_app]. by rewrite srev_srev, strip_done.
Qed.

(** ** Policies *)

Definition tidy (v : string) : Prop := strings.TrimSpace v = v /\ v <> "".
Lemma dedupe_go_fixed l seen out : NoDup l -> Forall tidy l -> (forall v, v ∈ l -> v ∉ seen) -> dedupe_go l seen out = out ++ l.
Proof.
  intros Hn Hl. revert seen out. induction Hl as [|v l [Ht Hv] Hl IH]; intros seen out Hs; simpl; [by rewrite app_nil_r|]. apply NoDup_cons in Hn as [Hvl Hn]. rewrite Ht, (bool_decide_eq_false_2 (v = "")), bool_decide_eq_false_2 by (done || (apply Hs; by left)). simpl.
  rewrite IH; [by rewrite <- app_assoc|done|]. intros x Hx [->|Hin]%elem_of_cons; [done|]. by apply (Hs x); [right|].
Qed.
Lemma dedupe_fixed l : NoDup l -> Forall tidy l -> dedupeTrimmed l = l.
Proof. intros Hn Hl. unfold dedupeTrimmed. rewrite dedupe_go_fixed; [done..|]. by intros v _ ?%not_elem_of_nil. Qed.
Lemma dedupe_go_spec l seen out : NoDup out -> Forall tidy out -> (forall v, v ∈ seen <-> v ∈ out) ->
  NoDup (dedupe_go l seen out) /\ Forall tidy (dedupe_go l seen out) /\ forall v, v ∈ dedupe_go l seen out <-> v ∈ out \/ (v <> "" /\ exists x, x ∈ l /\ v = strings.TrimSpace x).
Proof.
  revert seen out. induction l as [|x l IH]; intros seen out Hn Ho Hs; simpl.
  - split_and!; [done|done|]. intros v. split; [by left|]. intros [?|(_ & y & Hy & _)]; [done|]. by apply not_elem_of_nil in Hy.
  - destruct (_ || _) eqn:E.
    + destruct (IH seen out Hn Ho Hs) as (H1 & H2 & H3). split_and!; [done|done|]. intros v. rewrite H3. split; intros [?|(Hv & y & Hy & ->)]; [by left|right; split; [done|]; exists y; by split; [right|]|by left|].
      apply elem_of_cons in Hy as [->|Hy]; [|right; split; [done|]; by exists y]. apply orb_prop in E as [E|E]; bd; [done|]. left. by apply Hs.
    + apply orb_false_iff in E as [E1 E2]. apply bool_decide_eq_false in E1, E2. destruct (IH (strings.TrimSpace x :: seen) (out ++ [strings.TrimSpace x])) as (H1 & H2 & H3).
      * apply NoDup_app. split_and!; [done| |apply NoDup_singleton]. intros v Hv ->%list_elem_of_singleton. by apply E2, Hs.
      * apply Forall_app. split; [done|]. constructor; [|by constructor]. split; [apply TrimSpace_idem|done].
      * intros v. rewrite elem_of_cons, elem_of_app, list_elem_of_singleton, Hs. tauto.
      * split_and!; [done|done|]. intros v. rewrite H3, elem_of_app, list_elem_of_singleton. split.
        -- intros [[?|Hv]|(Hv & y & Hy & ->)]; [by left|right; split; [congruence|]; exists x; by split; [left|]|right; split; [done|]; exists y; by split; [right|]].
        -- intros [?|(Hv & y & Hy & ->)]; [by left; left|]. apply elem_of_cons in Hy as [->|Hy]; [by left; right|right; split; [done|]; by exists y].
Qed.
Lemma dedupe_spec l : NoDup (dedupeTrimmed l) /\ Forall tidy (dedupeTrimmed l) /\ forall v, v ∈ dedupeTrimmed l <-> v <> "" /\ exists x, x ∈ l /\ v = strings.TrimSpace x.
Proof.
  destruct (dedupe_go_spec l [] [] ltac:(constructor) ltac:(constructor) ltac:(done)) as (H1 & H2 & H3). split_and!; [done|done|]. intros v. unfold dedupeTrimmed. rewrite H3. split; [intros [?%not_elem_of_nil|?]; done|by right].
Qed.

Lemma check_targets_none l seen : check_targets l seen = None <-> Forall (fun t => t ∈ CleanupTargets) l /\ NoDup l /\ forall t, t ∈ l -> t ∉ seen.
Proof.
  revert seen. induction l as [|t l IH]; intros seen; simpl; [split; [intros _; split_and!; [constructor|constructor|by intros t ?%not_elem_of_nil]|done]|].
  assert (ValidCleanupTarget t = true <-> t ∈ CleanupTargets) as Hv by (unfold ValidCleanupTarget; rewrite existsb_elem; split; [intros (x & Hx & E%bool_decide_eq_true); by subst|intros ?; exists t; split; [done|by apply bool_decide_eq_true]]).
  case_bool_decide as E1.
  { split; [done|]. intros (Hl & _ & _). apply Forall_inv in Hl. subst. apply Hv in Hl. done. }
  destruct (ValidCleanupTarget t) eqn:E2; simpl; [|split; [done|]; intros (Hl & _ & _); apply Forall_inv in Hl; apply Hv in Hl; congruence].
  case_bool_decide as E3; [split; [done|]; intros (_ & _ & Hs); by destruct (Hs t ltac:(by left))|]. rewrite IH, Forall_cons, NoDup_cons. split.
  - intros (H1 & H2 & H3). split_and!; [by apply Hv|done| |done|].
    + intros Hin. by apply (H3 t Hin); left.
    + intros x [->|Hx]%elem_of_cons; [done|]. intros Hs. by apply (H3 x Hx); right.
  - intros ((_ & H1) & (Ht & H2) & H3). split_and!; [done|done|]. intros x Hx [->|Hs]%elem_of_cons; [done|]. by apply (H3 x); [right|].
Qed.
Lemma check_patterns_none l : check_patterns l = None <-> Forall (fun p => strings.has_char pattern_break (strings.TrimSpace p) = false) l.
Proof.
  induction l as [|p l IH]; simpl; [split; [constructor|done]|]. rewrite Forall_cons, <- IH. case_bool_decide as E; simpl; [rewrite E; simpl; naive_solver|]. destruct (strings.has_char _ _); naive_solver.
Qed.

Lemma Validate_none p : Validate p = None <-> 0 <= cp_keep_hours p <= maxKeepHours /\ check_targets (cp_targets p) [] = None /\ check_patterns (cp_keep_images p) = None /\ (length (cp_keep_images p) <= maxKeepImages)%nat /\
  (cp_enabled p = true -> strings.TrimSpace (cp_schedule p) <> "" /\ cp_targets p <> []).
Proof.
  unfold Validate. destruct (Z.ltb_spec (cp_keep_hours p) 0), (Z.ltb_spec maxKeepHours (cp_keep_hours p)); simpl; try (split; [done|]; intros [? _]; lia).
  destruct (check_targets _ _); [split; [done|]; by intros (_ & ? & _)|]. destruct (check_patterns _); [split; [done|]; by intros (_ & _ & ? & _)|].
  destruct (Nat.ltb_spec maxKeepImages (length (cp_keep_images p))); [split; [done|]; intros (_ & _ & _ & ? & _); lia|]. destruct (cp_enabled p); simpl; [|split; [intros _; split_and!; by (lia || done)|done]].
  case_bool_decide as Es; [split; [done|]; intros (_ & _ & _ & _ & Hx); by destruct (Hx eq_refl)|]. destruct (cp_targets p) as [|t l]; [split; [done|]; intros (_ & _ & _ & _ & Hx); by destruct (Hx eq_refl)|].
  split; [intros _; split_and!; by (lia || done)|done].
Qed.

Definition target_char (c : ascii) : bool := is_lower c || bool_decide (c = "-"%char).
Lemma visible_target : visible target_char.
Proof. intros c. destruct c as [[] [] [] [] [] [] [] []]; intros Hc; try done; by vm_compute. Qed.
Lemma targets_text l : Forall (fun t => t ∈ CleanupTargets) l -> splitTargets (joinTargets l) = l.
Proof.
  intros Hl. apply (Fields_Join target_char); [apply visible_target|]. eapply Forall_impl; [exact Hl|]. intros t Ht. simpl in Ht.
  assert (Forall (fun t => strings.all_chars target_char t = true /\ t <> "") CleanupTargets) as Hf by (apply (bool_decide_unpack _); by vm_compute). rewrite Forall_forall in Hf. by apply Hf.
Qed.
Lemma patterns_text l : check_patterns l = None -> dedupeTrimmed (strings.Split (strings.Join (dedupeTrimmed l) nl) "010") = dedupeTrimmed l.
Proof.
  intros Hc%check_patterns_none. destruct (dedupe_spec l) as (H1 & H2 & H3). set (d := dedupeTrimmed l) in *. destruct (decide (d = [])) as [->|Hne]; [by vm_compute|]. unfold nl. rewrite Split_Join; [by apply dedupe_fixed|done|].
  apply Forall_forall. intros v Hv. apply H3 in Hv as (_ & x & Hx & ->). rewrite Forall_forall in Hc. specialize (Hc x Hx). unfold no_char.
  clear -Hc. induction (strings.TrimSpace x) as [|c s IH]; [done|]. simpl in *. apply orb_false_iff in Hc as [Hb Hc]. rewrite IH, orb_false_r by done. unfold pattern_break in Hb. apply orb_false_iff in Hb as [_ Hb]. done.
Qed.

Lemma stored_reads p now : Validate p = None -> scanCleanupPolicy (stored p now) =
  mkPolicy (cp_enabled p) (strings.TrimSpace (cp_schedule p)) (ssort (fun a b => (cleanupTargetOrder a <? cleanupTargetOrder b)%nat) (cp_targets p)) (cp_keep_hours p) (dedupeTrimmed (cp_keep_images p)) now.
Proof.
  intros (_ & Ht & Hp & _)%Validate_none. unfold scanCleanupPolicy, stored, row_of_policy, normalize. simpl. rewrite patterns_text by done. rewrite targets_text; [done|].
  apply Forall_forall. intros t Hin. rewrite ssort_perm in Hin. apply check_targets_none in Ht as [Hl _]. rewrite Forall_forall in Hl. by apply Hl.
Qed.

(** What is saved is what runs: the policy in force on a host is the one last
    saved for it — or, without one, the fleet's — with its targets in the order
    a run performs them and its patterns trimmed and without repeats; a policy
    that is switched off hides the fleet's all the same; a policy that is not
    valid, or of a host that is gone, changes nothing. *)
Theorem saved_policy_in_force (db : CleanDB) (env : string) (p : CleanupPolicy) (now : Z) :
  let saved := mkPolicy (cp_enabled p) (strings.TrimSpace (cp_schedule p)) (ssort (fun a b => (cleanupTargetOrder a <? cleanupTargetOrder b)%nat) (cp_targets p)) (cp_keep_hours p) (dedupeTrimmed (cp_keep_images p)) now in
  match SaveEnvCleanupPolicy db env p now with
  | Ok db' => Validate p = None /\ env ∈ hosts db /\ EffectiveCleanupPolicy db' env = Some saved /\ (forall other, other <> env -> EffectiveCleanupPolicy db' other = EffectiveCleanupPolicy db other) /\
      EffectiveCleanupPolicy (DeleteEnvCleanupPolicy db' env) env = GlobalCleanupPolicy db
  | Err e => Validate p = Some e \/ (env ∉ hosts db)
  end /\
  match SaveGlobalCleanupPolicy db p now with
  | Ok db' => Validate p = None /\ forall other, EffectiveCleanupPolicy db' other = match EnvCleanupPolicy db other with Some o => Some o | None => Some saved end
  | Err e => Validate p = Some e
  end.
Proof.
  intros saved. split.
  - unfold SaveEnvCleanupPolicy. destruct (Validate p) as [e|] eqn:Ev; [by left|]. case_bool_decide as Eh; simpl; [|by right]. unfold EffectiveCleanupPolicy, EnvCleanupPolicy. simpl. rewrite lookup_insert_eq, delete_insert_eq, lookup_delete_eq. simpl. rewrite stored_reads by done.
    split_and!; try done. intros other Ho. by rewrite lookup_insert_ne by done.
  - unfold SaveGlobalCleanupPolicy. destruct (Validate p) as [e|] eqn:Ev; [done|]. split; [done|]. intros other. unfold EffectiveCleanupPolicy, EnvCleanupPolicy, GlobalCleanupPolicy. simpl. by rewrite stored_reads.
Qed.

(** ** The schedule and the sweeps in flight *)

Section Worker.
Context (cron_ok : string -> bool).
#[local] Abbreviation step := (clean_step cron_ok).
#[local] Abbreviation plan := (schedule_of cron_ok).

(** A sweep in flight holds the slot of its host, and the run of that host is
    not recorded as ended. *)
Record flights_ok (w : Worker) : Prop := {
  fl_slots : wk_running w ≡ₚ map tk_env (wk_tasks w);
  fl_one : NoDup (map tk_env (wk_tasks w));
  fl_open : forall t r, t ∈ wk_tasks w -> env_cleanup_runs (wk_db w) !! tk_env t = Some r -> cr_ended r = None }.

Lemma flights_db w db : flights_ok w -> (forall env r, env_cleanup_runs db !! env = Some r -> env_cleanup_runs (wk_db w) !! env = Some r) -> flights_ok (set_db w db).
Proof. intros [H1 H2 H3] Hd. constructor; [done|done|]. simpl. intros t r Ht Hr. by apply (H3 t r Ht), Hd. Qed.
Lemma flights_log w a o : flights_ok w -> flights_ok (log w a o).
Proof. by intros [H1 H2 H3]. Qed.
Lemma flights_rebuild w b : flights_ok w -> flights_ok (rebuildCleanupSchedule cron_ok b w).
Proof. intros [H1 H2 H3]. by destruct b. Qed.
Lemma finish_start w env : flights_ok w -> (env ∉ wk_running w) -> finish (mkWorker (wk_db w) (env :: wk_running w) (wk_tasks w) (wk_entries w) (wk_audit w)) env = w.
Proof.
  intros _ Hn. unfold finish. simpl. rewrite bool_decide_eq_true_2 by done. simpl. destruct w as [db run tasks entries audit]. simpl in *. f_equal.
  clear -Hn. induction run as [|x l IH]; [done|]. apply not_elem_of_cons in Hn as [Hne Hn]. simpl. rewrite bool_decide_eq_false_2 by done. simpl. by rewrite IH.
Qed.
Lemma start_cases w env trigger writes now : flights_ok w -> runCleanup_start w env trigger writes now = w \/
  exists p db, (env ∉ wk_running w) /\ EffectiveCleanupPolicy (wk_db w) env = Some p /\ cp_targets p <> [] /\ (cp_enabled p = true \/ trigger = "manual") /\ StartCleanupRun (wk_db w) env trigger now = Ok db /\
    runCleanup_start w env trigger writes now = mkWorker db (env :: wk_running w) (wk_tasks w ++ [mkTask env trigger p]) (wk_entries w) (wk_audit w).
Proof.
  intros Hok. unfold runCleanup_start, tryStart. case_bool_decide as Er; [by left|]. simpl. destruct (EffectiveCleanupPolicy (wk_db w) env) as [p|]; [|left; by apply finish_start].
  destruct (_ || _) eqn:E; [left; by apply finish_start|]. apply orb_false_iff in E as [E1 E2]. apply bool_decide_eq_false in E1.
  destruct (if writes then StartCleanupRun (wk_db w) env trigger now else Err ErrNotConnected) as [db|e] eqn:Es; [|left; by apply finish_start].
  right. exists p, db. split_and!; try done; [|by destruct writes]. destruct (cp_enabled p); [by left|]. right. simpl in E2. by apply negb_false_iff, bool_decide_eq_true in E2.
Qed.
Lemma flights_start w env trigger writes now : flights_ok w -> flights_ok (runCleanup_start w env trigger writes now).
Proof.
  intros Hok. destruct (start_cases w env trigger writes now Hok) as [->|(p & db & Hn & _ & _ & _ & Hs & ->)]; [done|]. destruct Hok as [H1 H2 H3]. constructor; simpl.
  - rewrite map_app. simpl. rewrite H1. by rewrite Permutation_app_comm.
  - rewrite map_app. simpl. apply NoDup_app. split_and!; [done| |apply NoDup_singleton]. intros x Hx ->%list_elem_of_singleton. apply Hn. by rewrite H1.
  - unfold StartCleanupRun in Hs. destruct (negb _); [done|]. injection Hs as <-. simpl. intros t r Ht. destruct (decide (tk_env t = env)) as [->|Hne]; [rewrite lookup_insert_eq; by intros [= <-]|].
    rewrite lookup_insert_ne by done. apply elem_of_app in Ht as [Ht|Ht%list_elem_of_singleton]; [by apply H3|by subst].
Qed.
Lemma filter_keys_perm {A} (f : A -> string) l env : map f (List.filter (fun x => negb (bool_decide (f x = env))) l) = List.filter (fun e => negb (bool_decide (e = env))) (map f l).
Proof. induction l as [|x l IH]; [done|]. simpl. case_bool_decide; simpl; by rewrite ?IH. Qed.
Lemma flights_end w t outcome writes now : flights_ok w -> t ∈ wk_tasks w -> flights_ok (runCleanup_end w t outcome writes now).
Proof.
  intros [H1 H2 H3] Ht. unfold runCleanup_end. destruct outcome as [[freed deleted] err]. constructor; simpl.
  - rewrite filter_keys_perm. by apply filter_perm.
  - by apply NoDup_map_filter.
  - intros x r [Hx Hne]%elem_of_filter_b. apply negb_true_iff, bool_decide_eq_false in Hne. destruct writes; simpl; [rewrite lookup_alter_ne by done|]; by apply H3.
Qed.
Lemma flights_step w e : flights_ok w -> flights_ok (step w e).
Proof.
  intros Hok. destruct e; simpl.
  - case_bool_decide; [by apply flights_start|done].
  - destruct (handleRunCleanup w env); [by apply flights_start|done].
  - destruct (List.find _ _) as [t|] eqn:E; [|done]. apply List.find_some in E as [Hin _]. by apply flights_end; [|apply list_elem_of_In].
  - unfold handleSaveGlobalCleanup. destruct (decodeCleanupPolicy cron_ok req) as [p|e]; [|done]. simpl. destruct (SaveGlobalCleanupPolicy (wk_db w) p now) as [db|e] eqn:Es; [|done].
    apply flights_log, (flights_rebuild (set_db w db) true), flights_db; [done|]. unfold SaveGlobalCleanupPolicy in Es. destruct (Validate p); [done|]. by injection Es as <-.
  - by apply flights_log, (flights_rebuild (set_db w (DeleteGlobalCleanupPolicy (wk_db w))) true), flights_db.
  - unfold handleSaveEnvCleanup. case_bool_decide; [|done]. simpl. destruct (decodeCleanupPolicy cron_ok req) as [p|e]; [|done]. simpl. destruct (SaveEnvCleanupPolicy (wk_db w) env p now) as [db|e] eqn:Es; [|done].
    apply flights_log, (flights_rebuild (set_db w db) true), flights_db; [done|]. unfold SaveEnvCleanupPolicy in Es. destruct (Validate p); [done|]. destruct (negb _); [done|]. by injection Es as <-.
  - by apply flights_log, (flights_rebuild (set_db w (DeleteEnvCleanupPolicy (wk_db w) env)) true), flights_db.
  - case_bool_decide; [done|by apply flights_db].
  - apply flights_db; [done|]. simpl. intros x r. destruct (decide (x = env)) as [->|Hne]; [by rewrite lookup_delete_eq|by rewrite lookup_delete_ne].
  - constructor; simpl; [done|constructor|by intros t r ?%not_elem_of_nil].
Qed.

(** However schedules, people and policy changes overlap, a host never has
    two sweeps in flight, a slot is taken exactly while its sweep is in flight —
    so no failure keeps a host from ever being swept again — and the run of the
    host does not read as ended before its sweep has. *)
Theorem single_flight (db : CleanDB) (es : list CleanEvent) : flights_ok (fold_left step es (restart cron_ok (mkWorker db [] [] [] []))).
Proof.
  assert (flights_ok (restart cron_ok (mkWorker db [] [] [] []))) as Hok by (constructor; simpl; [done|constructor|by intros t r ?%not_elem_of_nil]).
  revert Hok. generalize (restart cron_ok (mkWorker db [] [] [] [])) as w. induction es as [|e es IH]; intros w Hok; [done|]. simpl. by apply IH, flights_step.
Qed.

(** What changes the schedule, when it is accepted. *)
Definition edits (w : Worker) (e : CleanEvent) : bool :=
  match e with
  | SaveGlobal req now => bool_decide ((handleSaveGlobalCleanup cron_ok w req now).2 = None)
  | SaveEnv env req now => bool_decide ((handleSaveEnvCleanup cron_ok w env req now).2 = None)
  | ClearGlobal | ClearEnv _ | Restart => true
  | _ => false
  end.
(** No entry runs on a policy that is not in force; ids of hosts are not reused. *)
Definition entries_ok (w : Worker) : Prop := forall env s, (env, s) ∈ wk_entries w -> env ∈ hosts (wk_db w) -> scheduled cron_ok (wk_db w) env = Some s.
Definition fresh_host (w : Worker) (e : CleanEvent) : Prop := match e with AddHost env => env ∉ map fst (wk_entries w) | _ => True end.

Lemma plan_elem db env s : (env, s) ∈ plan db <-> env ∈ hosts db /\ scheduled cron_ok db env = Some s.
Proof.
  unfold schedule_of. rewrite list_elem_of_omap. split.
  - intros (x & Hx & E). destruct (scheduled cron_ok db x) as [s'|] eqn:Es; [|done]. simpl in E. injection E as <- <-. done.
  - intros [Hx Es]. exists env. by rewrite Es.
Qed.
Lemma edited w e : edits w e = true -> wk_entries (step w e) = plan (wk_db (step w e)).
Proof.
  destruct e; simpl; intros He; try done.
  - unfold handleSaveGlobalCleanup in *. destruct (let* p := _ in _) as [db|e]; [done|]. by apply bool_decide_eq_true in He.
  - unfold handleSaveEnvCleanup in *. destruct (negb _); [by apply bool_decide_eq_true in He|]. destruct (let* p := _ in _) as [db|e]; [done|]. by apply bool_decide_eq_true in He.
Qed.
Lemma start_keeps w env trigger writes now : wk_entries (runCleanup_start w env trigger writes now) = wk_entries w /\
  hosts (wk_db (runCleanup_start w env trigger writes now)) = hosts (wk_db w) /\ forall x, scheduled cron_ok (wk_db (runCleanup_start w env trigger writes now)) x = scheduled cron_ok (wk_db w) x.
Proof.
  unfold runCleanup_start, tryStart. case_bool_decide; [done|]. simpl. destruct (EffectiveCleanupPolicy (wk_db w) env) as [p|]; [|done]. destruct (_ || _); [done|].
  destruct (if writes then StartCleanupRun (wk_db w) env trigger now else Err ErrNotConnected) as [db|e] eqn:Es; [|done]. destruct writes; [|done]. unfold StartCleanupRun in Es. destruct (negb _); [done|]. by injection Es as <-.
Qed.
Lemma unedited w e : edits w e = false -> wk_entries (step w e) = wk_entries w.
Proof.
  destruct e; simpl; intros He; try done.
  - case_bool_decide; [apply start_keeps|done].
  - destruct (handleRunCleanup w env); [apply start_keeps|done].
  - destruct (List.find _ _) as [t|]; [|done]. unfold runCleanup_end. by destruct outcome as [[? ?] ?].
  - unfold handleSaveGlobalCleanup in *. destruct (let* p := _ in _) as [db|e]; [by apply bool_decide_eq_false in He|done].
  - unfold handleSaveEnvCleanup in *. destruct (negb _); [done|]. destruct (let* p := _ in _) as [db|e]; [by apply bool_decide_eq_false in He|done].
  - by case_bool_decide.
Qed.
Lemma entries_step w e : fresh_host w e -> entries_ok w -> entries_ok (step w e).
Proof.
  intros Hf Hok. destruct (edits w e) eqn:Ee; [intros env s Hin _; rewrite edited in Hin by done; by apply plan_elem in Hin as [_ ?]|].
  intros env s. rewrite unedited by done. intros Hin Hh. destruct e; simpl in *; try done.
  - case_bool_decide; [|by apply Hok]. destruct (start_keeps w env0 "schedule" writes now) as (_ & E1 & E2). rewrite E2. apply Hok; [done|by rewrite E1 in Hh].
  - destruct (handleRunCleanup w env0); [|by apply Hok]. destruct (start_keeps w env0 "manual" writes now) as (_ & E1 & E2). rewrite E2. apply Hok; [done|by rewrite E1 in Hh].
  - destruct (List.find _ _) as [t|]; [|by apply Hok]. unfold runCleanup_end in *. destruct outcome as [[? ?] ?]. destruct writes; by apply Hok.
  - unfold handleSaveGlobalCleanup in *. destruct (let* p := _ in _) as [db|e]; [by apply bool_decide_eq_false in Ee|by apply Hok].
  - unfold handleSaveEnvCleanup in *. destruct (negb _); [by apply Hok|]. destruct (let* p := _ in _) as [db|e]; [by apply bool_decide_eq_false in Ee|by apply Hok].
  - case_bool_decide; [by apply Hok|]. simpl in Hh. apply elem_of_app in Hh as [Hh| ->%list_elem_of_singleton]; [by apply Hok|]. destruct Hf. apply list_elem_of_fmap. by exists (env0, s).
  - apply elem_of_filter_b in Hh as [Hh Hne]. apply negb_true_iff, bool_decide_eq_false in Hne. specialize (Hok env s Hin Hh). unfold scheduled, EffectiveCleanupPolicy, EnvCleanupPolicy, GlobalCleanupPolicy in *. simpl. by rewrite lookup_delete_ne by done.
Qed.

(** The schedule is what the policies say: whatever happens, no host is swept
    on a schedule that is not the one in force on it, and after every accepted
    change of a policy, and after a restart, the schedule has exactly the hosts
    whose policy is on, with theirs. *)
Theorem schedule_follows_policies (db : CleanDB) (es : list CleanEvent) : let w0 := restart cron_ok (mkWorker db [] [] [] []) in
  (forall n e, es !! n = Some e -> fresh_host (fold_left step (take n es) w0) e) ->
  let w := fold_left step es w0 in
  (forall env s, (env, s) ∈ wk_entries w -> env ∈ hosts (wk_db w) -> scheduled cron_ok (wk_db w) env = Some s) /\
  (forall e, edits w e = true -> forall env s, (env, s) ∈ wk_entries (step w e) <-> env ∈ hosts (wk_db (step w e)) /\ scheduled cron_ok (wk_db (step w e)) env = Some s) /\
  (forall env writes now, (env ∉ map fst (wk_entries w)) -> step w (Fire env writes now) = w).
Proof.
  intros w0 Hf w. split_and!.
  - assert (entries_ok w0) as H0 by (intros env s Hin _; simpl in Hin; by apply plan_elem in Hin as [_ ?]). unfold w. clear w. revert H0 Hf. generalize w0 as v. clear w0. induction es as [|e es IH]; intros v Hv Hf; [exact Hv|]. simpl.
    apply IH; [|intros n x Hx; exact (Hf (S n) x Hx)]. apply entries_step; [|done]. exact (Hf 0%nat e eq_refl).
  - intros e He env s. rewrite edited by done. apply plan_elem.
  - intros env writes now Hn. simpl. by rewrite bool_decide_eq_false_2.
Qed.

(** A host that is added is not swept, although the fleet's policy is in force on
    it, until somebody changes a policy or the server is restarted: adding a
    host rebuilds no schedule. *)
Theorem new_host_waits (w : Worker) (env s : string) (es : list CleanEvent) : (env ∉ hosts (wk_db w)) -> (env ∉ map fst (wk_entries w)) ->
  env_cleanup_policies (wk_db w) !! env = None -> (exists other, scheduled cron_ok (wk_db w) other = Some s /\ env_cleanup_policies (wk_db w) !! other = None) ->
  (forall n e, es !! n = Some e -> edits (fold_left step (take n es) (step w (AddHost env))) e = false) ->
  env ∈ hosts (wk_db (step w (AddHost env))) /\ scheduled cron_ok (wk_db (step w (AddHost env))) env = Some s /\
  (env ∉ map fst (wk_entries (fold_left step es (step w (AddHost env))))).
Proof.
  intros Hh Hn Ho (other & Hs & Hoo) He. split_and!.
  - simpl. rewrite bool_decide_eq_false_2 by done. simpl. apply elem_of_app. right. by left.
  - simpl. rewrite bool_decide_eq_false_2 by done. unfold scheduled, EffectiveCleanupPolicy, EnvCleanupPolicy, GlobalCleanupPolicy in *. simpl. rewrite Hoo in Hs. by rewrite Ho.
  - assert (env ∉ map fst (wk_entries (step w (AddHost env)))) as Hv by (simpl; by rewrite bool_decide_eq_false_2 by done). revert Hv He. generalize (step w (AddHost env)) as v. clear.
    induction es as [|e es IH]; intros v Hv He; [done|]. simpl. apply IH; [|intros n x Hx; exact (He (S n) x Hx)]. rewrite unedited; [done|]. exact (He 0%nat e eq_refl).
Qed.
End Worker.

(** ** What a sweep takes *)

Lemma asked_refs answer refs gone r : r ∈ (remove_refs answer refs gone).2 -> r ∈ refs.
Proof.
  revert gone. induction refs as [|x refs IH]; intros gone; simpl; [done|]. destruct (answer x) as [d| | |msg]; try (intros ->%list_elem_of_singleton; by left).
  destruct (remove_refs answer refs (gone || d)) as [[g f] l] eqn:E. simpl. intros [->|Hr]%elem_of_cons; [by left|right]. apply (IH (gone || d)). by rewrite E.
Qed.
Lemma swept_asked answer inUse cutoff rules l : forall s r, r ∈ sw_asked (sweep_images answer inUse cutoff rules l s).1 -> r ∈ sw_asked s \/ exists img, img ∈ l /\ r ∈ refs_of img /\ sweepVerdict img inUse cutoff rules = Goes.
Proof.
  induction l as [|img l IH]; intros s r; simpl; [by left|].
  assert (forall s, r ∈ sw_asked (sweep_images answer inUse cutoff rules l s).1 -> r ∈ sw_asked s \/ exists x, x ∈ img :: l /\ r ∈ refs_of x /\ sweepVerdict x inUse cutoff rules = Goes) as H.
  { intros s' Hr. destruct (IH s' r Hr) as [?|(x & Hx & H1 & H2)]; [by left|right]. exists x. by split_and!; [right|..]. }
  destruct (sweepVerdict img inUse cutoff rules) eqn:Ev; try apply H; [|by left]. intros Hr. apply H in Hr as [Hr|?]; [|by right]. unfold swept_image in Hr.
  destruct (remove_refs answer (refs_of img) false) as [[g f] asked] eqn:Er. simpl in Hr. apply elem_of_app in Hr as [?|Hr]; [by left|right]. exists img. split_and!; [by left| |done]. apply (asked_refs answer (refs_of img) false). by rewrite Er.
Qed.
Lemma any_match_false rules img : any_match rules img = Some false <-> Forall (fun r => rule_matches r img = Some false) rules.
Proof.
  induction rules as [|r rules IH]; simpl; [split; [constructor|done]|]. rewrite Forall_cons, <- IH. destruct (rule_matches r img) as [[]|]; naive_solver.
Qed.
Lemma verdict_goes img inUse cutoff rules : sweepVerdict img inUse cutoff rules = Goes <->
  (im_id img ∉ inUse) /\ im_created img * second < cutoff /\ (im_labels img !! KeepLabel = None \/ im_labels img !! KeepLabel = Some "false") /\ Forall (fun r => rule_matches r img = Some false) rules.
Proof.
  unfold sweepVerdict. rewrite <- any_match_false. case_bool_decide; [split; [done|by intros [? _]]|]. destruct (Z.ltb_spec (im_created img * second) cutoff); simpl; [|split; [done|]; intros (_ & ? & _); lia].
  destruct (im_labels img !! KeepLabel) as [v|] eqn:El; [case_bool_decide as Ev; simpl; [|split; [done|]; intros (_ & _ & [?|[= ?]] & _); done]|].
  - destruct (any_match rules img) as [[]|]; split; try done; [by intros (_ & _ & _ & ?)..| |by intros (_ & _ & _ & ?)]. intros _. split_and!; [done|done|right; congruence|done].
  - destruct (any_match rules img) as [[]|]; split; try done; [by intros (_ & _ & _ & ?)..| |by intros (_ & _ & _ & ?)]. intros _. split_and!; [done|done|by left|done].
Qed.
Lemma policy_age p : Validate p = None -> po_min_age (sweep_options p) = cp_keep_hours p * hour.
Proof.
  intros (Hk & _)%Validate_none. unfold sweep_options. simpl. apply wrap64_id. unfold maxKeepHours, hour, second in *. lia.
Qed.
Lemma runner_rule p : ByDigest RunnerDigest ∈ parseKeepRules (po_keep (sweep_options p)).
Proof.
  unfold parseKeepRules, sweep_options. simpl. apply list_elem_of_fmap. exists RunnerImage. split; [by vm_compute|]. apply elem_of_filter_b. split; [|by vm_compute]. apply list_elem_of_fmap. exists RunnerImage. split; [by vm_compute|]. apply elem_of_app. right. by left.
Qed.

(** Everything a scheduled sweep asks a node to remove is a name of an image
    that no container it could inspect runs, that is older, by the daemon's
    clock, than the hours the policy keeps, that is not labelled to be kept and
    that no pattern of the policy matches; the runner's own image, whatever it
    is called, is never among them. *)
Theorem sweep_spares (p : CleanupPolicy) (now : Z) (d : Daemon) (imgs : list Image) (inUse : list string) (r : string) : Validate p = None ->
  r ∈ sw_asked (swept_of now (sweep_options p) d imgs inUse).1 ->
  exists img, img ∈ imgs /\ r ∈ refs_of img /\ (im_id img ∉ inUse) /\ im_created img * second < default now (dm_time d) - cp_keep_hours p * hour /\
    (im_labels img !! KeepLabel = None \/ im_labels img !! KeepLabel = Some "false") /\
    (forall pat, pat ∈ cp_keep_images p -> strings.TrimSpace pat <> "" -> rule_matches (keep_rule (strings.TrimSpace pat)) img = Some false) /\
    im_id img <> RunnerDigest /\ forall x, x ∈ im_digests img -> strings.HasSuffix x ("@" +:+ RunnerDigest) = false.
Proof.
  intros Hv Hr. unfold swept_of in Hr. apply swept_asked in Hr as [Hr|(img & Hin & Href & Hg)]; [by apply not_elem_of_nil in Hr|]. apply verdict_goes in Hg as (H1 & H2 & H3 & H4). rewrite Forall_forall in H4.
  exists img. unfold cutoff_of in H2. rewrite policy_age in H2 by done. pose proof (H4 _ (runner_rule p)) as Hrun. unfold rule_matches in Hrun. change RunnerDigest with (String "s" (strings.drop 1 RunnerDigest)) in Hrun at 1. cbv iota in Hrun.
  injection Hrun as Hrun. apply orb_false_iff in Hrun as [Hid Hd]. apply bool_decide_eq_false in Hid. rewrite existsb_false in Hd. split_and!; try done.
  intros pat Hp Hne. apply H4. unfold parseKeepRules, sweep_options. simpl. apply list_elem_of_fmap. exists (strings.TrimSpace pat). split; [done|]. apply elem_of_filter_b. split; [|by apply negb_true_iff, bool_decide_eq_false].
  apply list_elem_of_fmap. exists pat. split; [done|]. apply elem_of_app. by left.
Qed.

(** ** What a pattern keeps *)

(** [p] with any text for every star. *)
Inductive fits : string -> string -> Prop :=
| fits_nil : fits "" ""
| fits_char c p t : c <> "*"%char -> fits p t -> fits (String c p) (String c t)
| fits_star p u t : fits p t -> fits (String "*" p) (u +:+ t).
Definition plain_text (s : string) : Prop := Forall (fun c => utf8.byte_val c < 128 /\ utf8.byte_val c <> Watch.newline) (String.list_ascii_of_string s).

Lemma plain_cons c s : plain_text (String c s) <-> (utf8.byte_val c < 128 /\ utf8.byte_val c <> Watch.newline) /\ plain_text s.
Proof. unfold plain_text. simpl. by rewrite Forall_cons. Qed.
Lemma plain_runes s : plain_text s -> utf8.runes s = bytes_of s.
Proof. induction s as [|c s IH]; [done|]. intros [[Hc _] Hs]%plain_cons. rewrite runes_ascii by done. by rewrite IH. Qed.
Lemma bytes_app a b : bytes_of (a +:+ b) = bytes_of a ++ bytes_of b.
Proof. unfold bytes_of. by rewrite list_ascii_app, map_app. Qed.
Lemma plain_app a b : plain_text (a +:+ b) <-> plain_text a /\ plain_text b.
Proof. unfold plain_text. rewrite list_ascii_app. apply Forall_app. Qed.
Lemma bytes_split t l1 l2 : bytes_of t = l1 ++ l2 -> exists a b, t = a +:+ b /\ bytes_of a = l1 /\ bytes_of b = l2.
Proof.
  revert t. induction l1 as [|x l1 IH]; intros t E; [by exists "", t|]. destruct t as [|c t]; [done|]. injection E as Ex E. destruct (IH t E) as (a & b & -> & Ha & Hb). exists (String c a), b.
  split_and!; [done| |done]. unfold bytes_of in *. simpl. by rewrite Ha, Ex.
Qed.
Lemma keep_items_spec p : plain_text p -> forall t, plain_text t -> MatchString (keep_items p) (utf8.runes t) = true <-> fits p t.
Proof.
  intros Hp t Ht. rewrite MatchString_lang, (plain_runes t) by done. unfold keep_items. rewrite (plain_runes p) by done. revert t Ht. induction p as [|c p IH]; intros t Ht.
  - simpl. split; [intros E; destruct t; [constructor|done]|by inversion 1].
  - apply plain_cons in Hp as [Hc Hp]. specialize (IH Hp). simpl. destruct (Z.eqb_spec (utf8.byte_val c) 42) as [E|E].
    + assert (c = "*"%char) as -> by (by apply byte_val_inj). split.
      * intros (l1 & l2 & El & _ & Hl). apply bytes_split in El as (a & b & -> & <- & <-). apply plain_app in Ht as [Ha Hb]. apply fits_star. by apply IH.
      * inversion 1 as [| |p' u t' Hf]; subst; [done|]. apply plain_app in Ht as [Hu Ht']. exists (bytes_of u), (bytes_of t'). split; [by rewrite bytes_app|]. split; [|by apply IH].
        unfold bytes_of. apply Forall_map. eapply Forall_impl; [exact Hu|]. by intros x [_ ?].
    + split.
      * intros (l1 & l2 & El & -> & Hl). destruct t as [|d t]; [done|]. apply plain_cons in Ht as [Hd Ht]. injection El as Ed El. apply byte_val_inj in Ed as ->. apply fits_char; [by intros ->|]. apply IH; [done|]. by rewrite <- El in Hl.
      * inversion 1 as [|c' p' t' Hne Hf|]; subst; [|done]. apply plain_cons in Ht as [Hd Ht]. exists [utf8.byte_val c], (bytes_of t'). split_and!; [done|done|]. by apply IH.
Qed.

(** A pattern without a digest keeps exactly the images with a tag it fits, any
    text for a star, and any tag when it names none; the port of a registry is
    no tag. *)
Theorem keep_pattern_spec (p : string) (img : Image) : no_char "@" p -> plain_text p -> Forall plain_text (im_tags img) ->
  let name := match strings.after_last p "/" with Some r => r | None => p end in
  rule_matches (keep_rule p) img = Some true <-> exists t, t ∈ im_tags img /\ fits (if strings.Contains name ":" then p else p +:+ ":*") t.
Proof.
  intros Hat Hp Ht name. unfold keep_rule. assert (strings.cut_byte p "@" = None) as ->.
  { clear -Hat. unfold no_char in Hat. induction p as [|c p IH]; [done|]. simpl in *. apply orb_false_iff in Hat as [Hc Hp]. rewrite Hc, IH by done. done. }
  fold name. set (q := if strings.Contains name ":" then p else p +:+ ":*"). assert (plain_text q) as Hq.
  { unfold q. destruct (strings.Contains name ":"); [done|]. apply plain_app. split; [done|]. apply (bool_decide_unpack _). by vm_compute. }
  unfold rule_matches. split.
  - intros [= (t & Hin & Hm)%existsb_elem]. exists t. split; [done|]. rewrite Forall_forall in Ht. apply keep_items_spec; [done|by apply Ht|done].
  - intros (t & Hin & Hf). f_equal. apply existsb_elem. exists t. split; [done|]. rewrite Forall_forall in Ht. apply keep_items_spec; [done|by apply Ht|done].
Qed.

(** ** A whole host *)

Definition jobs (ns : list (string * Daemon)) (targets : list string) : list ((string * Daemon) * PruneTarget) :=
  flat_map (fun n => omap (fun t => (fun t => (n, t)) <$> cleanupPruneTarget t) targets) ns.
Definition job_end (now : Z) (opts : PruneOptions) (j : (string * Daemon) * PruneTarget) : Pruned := PruneWith now j.2 opts j.1.2.
#[local] Arguments job_end : simpl never.
#[local] Arguments jobs : simpl never.
Definition deleted_of (e : Pruned) : Z := match e with PruneDone _ d _ => d | _ => 0 end.
Definition died (e : Pruned) : bool := match e with PruneDied => true | _ => false end.
Definition clean (e : Pruned) : bool := match e with PruneDone _ _ [] => true | _ => false end.

Lemma jobs_step n t l : jobs [n] (t :: l) = match cleanupPruneTarget t with Some pt => (n, pt) :: jobs [n] l | None => jobs [n] l end.
Proof. unfold jobs. simpl. by destruct (cleanupPruneTarget t). Qed.
Lemma jobs_node n ns targets : jobs (n :: ns) targets = jobs [n] targets ++ jobs ns targets.
Proof. unfold jobs. simpl. by rewrite app_nil_r. Qed.
Lemma targets_fold now opts n targets : forall h,
  match fold_left (sweep_target now opts n) targets (Some h) with
  | None => exists j, j ∈ jobs [n] targets /\ died (job_end now opts j) = true
  | Some h' => Forall (fun j => died (job_end now opts j) = false) (jobs [n] targets) /\ hs_deleted h' = hs_deleted h + foldr (fun j s => deleted_of (job_end now opts j) + s) 0 (jobs [n] targets) /\
      (hs_failures h' = [] <-> hs_failures h = [] /\ Forall (fun j => clean (job_end now opts j) = true) (jobs [n] targets))
  end.
Proof.
  assert (forall l, fold_left (sweep_target now opts n) l None = None) as Hnone by (induction l; done).
  induction targets as [|t l IH]; intros h; [simpl; split_and!; [constructor|lia|split; [by split|by intros [? _]]]|]. rewrite jobs_step. simpl.
  destruct (cleanupPruneTarget t) as [pt|] eqn:Et; simpl; [|exact (IH h)].
  assert (forall h', match fold_left (sweep_target now opts n) l (Some h') with
    | None => exists j, j ∈ (n, pt) :: jobs [n] l /\ died (job_end now opts j) = true
    | Some h2 => died (PruneWith now pt opts n.2) = false -> Forall (fun j => died (job_end now opts j) = false) ((n, pt) :: jobs [n] l) /\ hs_deleted h2 = hs_deleted h' + foldr (fun j s => deleted_of (job_end now opts j) + s) 0 (jobs [n] l) /\
        (hs_failures h2 = [] <-> hs_failures h' = [] /\ Forall (fun j => clean (job_end now opts j) = true) (jobs [n] l)) end) as Hstep.
  { intros h'. specialize (IH h'). destruct (fold_left _ l (Some h')) as [h2|]; [|destruct IH as (j & Hj & E); exists j; by split; [right|]]. destruct IH as (H1 & H2 & H3). intros Hd. split_and!; [by constructor|done|done]. }
  destruct (PruneWith now pt opts n.2) as [|e|freed deleted fails] eqn:Ep.
  - rewrite Hnone. exists (n, pt). split; [by left|]. unfold job_end. simpl. by rewrite Ep.
  - specialize (Hstep (mkHS (hs_freed h) (hs_deleted h) (hs_failures h ++ [failure_line t n.1 e]))). destruct (fold_left _ l _) as [h2|]; [|done]. destruct (Hstep eq_refl) as (H1 & H2 & H3). split_and!; [done| |].
    + rewrite H2. simpl. change (job_end now opts (n, pt)) with (PruneWith now pt opts n.2). rewrite Ep. simpl. lia.
    + rewrite H3. simpl. rewrite Forall_cons. change (job_end now opts (n, pt)) with (PruneWith now pt opts n.2). rewrite Ep. simpl. split; [intros [Hx _]; by apply app_eq_nil in Hx as [_ ?]|by intros (_ & ? & _)].
  - specialize (Hstep (mkHS (wrap64 (hs_freed h + freed)) (hs_deleted h + deleted) (hs_failures h ++ match fails with [] => [] | _ => [failure_line t n.1 (strings.Join fails "; ")] end))). destruct (fold_left _ l _) as [h2|]; [|done]. destruct (Hstep eq_refl) as (H1 & H2 & H3). split_and!; [done| |].
    + rewrite H2. simpl. change (job_end now opts (n, pt)) with (PruneWith now pt opts n.2). rewrite Ep. simpl. lia.
    + rewrite H3. simpl. rewrite Forall_cons. change (job_end now opts (n, pt)) with (PruneWith now pt opts n.2). rewrite Ep. destruct fails; simpl; [rewrite app_nil_r; naive_solver|]. split; [intros [Hx _]; by apply app_eq_nil in Hx as [_ ?]|by intros (_ & ? & _)].
Qed.

(** A sweep of a host prunes every target of the policy on every node, in the
    order of the policy on each: one that fails stops no other, what is reported
    as deleted is the sum of what each deleted, and the sweep is reported
    without an error exactly when every one of them went through; it fails to
    end only when a prune takes the process down. *)
Theorem host_sweep_spec (now : Z) (p : CleanupPolicy) (ns : list (string * Daemon)) : ns <> [] ->
  match sweepHost now (Some ns) p with
  | None => exists j, j ∈ jobs ns (cp_targets p) /\ job_end now (sweep_options p) j = PruneDied
  | Some (freed, deleted, err) =>
      (forall j, j ∈ jobs ns (cp_targets p) -> job_end now (sweep_options p) j <> PruneDied) /\
      deleted = foldr (fun j s => deleted_of (job_end now (sweep_options p) j) + s) 0 (jobs ns (cp_targets p)) /\
      (err = None <-> forall j, j ∈ jobs ns (cp_targets p) -> exists f d, job_end now (sweep_options p) j = PruneDone f d [])
  end.
Proof.
  intros Hne. set (opts := sweep_options p). assert (forall h, match fold_left (sweep_node now p) ns (Some h) with
    | None => exists j, j ∈ jobs ns (cp_targets p) /\ died (job_end now opts j) = true
    | Some h' => Forall (fun j => died (job_end now opts j) = false) (jobs ns (cp_targets p)) /\ hs_deleted h' = hs_deleted h + foldr (fun j s => deleted_of (job_end now opts j) + s) 0 (jobs ns (cp_targets p)) /\
        (hs_failures h' = [] <-> hs_failures h = [] /\ Forall (fun j => clean (job_end now opts j) = true) (jobs ns (cp_targets p))) end) as Hf.
  { assert (forall l, fold_left (sweep_node now p) l None = None) as Hnone by (induction l as [|n l IH]; [done|]; simpl; unfold sweep_node at 2; assert (forall t, fold_left (sweep_target now (sweep_options p) n) t None = None) as -> by (by induction t); done).
    clear Hne. induction ns as [|n ns IH]; intros h; [simpl; split_and!; [constructor|lia|split; [by split|by intros [? _]]]|]. rewrite jobs_node. simpl. pose proof (targets_fold now opts n (cp_targets p) h) as Ht.
    unfold sweep_node at 2. fold opts. destruct (fold_left (sweep_target now opts n) (cp_targets p) (Some h)) as [h1|].
    - specialize (IH h1). destruct (fold_left (sweep_node now p) ns (Some h1)) as [h2|].
      + destruct Ht as (A1 & A2 & A3), IH as (B1 & B2 & B3). split_and!; [by apply Forall_app| |].
        * rewrite B2, A2. rewrite foldr_app. clear. assert (forall (l : list ((string * Daemon) * PruneTarget)) z, foldr (fun j s => deleted_of (job_end now opts j) + s) z l = foldr (fun j s => deleted_of (job_end now opts j) + s) 0 l + z) as E by (induction l as [|x l IH]; intros z; simpl; [lia|]; rewrite IH; lia).
          rewrite (E _ (foldr _ 0 (jobs ns _))). lia.
        * rewrite B3, A3, Forall_app. tauto.
      + destruct IH as (j & Hj & E). exists j. split; [apply elem_of_app; by right|done].
    - rewrite Hnone. destruct Ht as (j & Hj & E). exists j. split; [apply elem_of_app; by left|done]. }
  specialize (Hf (mkHS 0 0 [])). unfold sweepHost. destruct ns as [|n ns]; [done|]. destruct (fold_left _ _ _) as [h|].
  - destruct Hf as (H1 & H2 & H3). rewrite Forall_forall in H1. split_and!; [intros j Hj E; specialize (H1 j Hj); fold opts in E; by rewrite E in H1|simpl in H2; lia|].
    assert ((match hs_failures h with [] => None | l => Some (strings.Join l "; ") end) = None <-> hs_failures h = []) as -> by (by destruct (hs_failures h)). rewrite H3, Forall_forall. split.
    + intros [_ Hc] j Hj. specialize (Hc j Hj). fold opts. destruct (job_end now opts j) as [| |f d [|? ?]]; try done. by exists f, d.
    + intros Hc. split; [done|]. intros j Hj. destruct (Hc j Hj) as (f & d & E). fold opts in E. by rewrite E.
  - destruct Hf as (j & Hj & E). exists j. split; [done|]. fold opts. by destruct (job_end now opts j).
Qed.

(** ** A pattern with nothing after its digest sign *)

Lemma cut_byte_at name : no_char "@" name -> strings.cut_byte (name +:+ "@") "@" = Some (name, "").
Proof.
  unfold no_char. induction name as [|c s IH]; [done|]. simpl. intros [Hc Hs]%orb_false_iff. rewrite Hc. by rewrite IH.
Qed.
Lemma sweep_dies answer inUse cutoff rules l img : img ∈ l -> sweepVerdict img inUse cutoff rules = Dies -> forall s, (sweep_images answer inUse cutoff rules l s).2 = false.
Proof.
  induction l as [|x l IH]; intros Hin Hv s; [by apply not_elem_of_nil in Hin|]. simpl. apply elem_of_cons in Hin as [->|Hin]; [by rewrite Hv|]. destruct (sweepVerdict x inUse cutoff rules); (done || by apply IH).
Qed.

(** A keep pattern that ends in its digest sign is accepted when it is saved and
    takes the process down when it is used: the first image with a tag that the
    sweep would otherwise weigh ends the sweep, and with it the server. *)
Theorem trailing_at_kills (p : CleanupPolicy) (name : string) (rest : list string) (img : Image) (imgs : list Image) (inUse : list string) (now : Z) (d : Daemon) :
  cp_keep_images p = (name +:+ "@") :: rest -> no_char "@" name -> strings.TrimSpace (name +:+ "@") = name +:+ "@" -> Validate p = None ->
  dm_images d = Ok imgs -> imagesInUse d = Ok inUse ->
  img ∈ imgs -> (im_id img ∉ inUse) -> im_created img * second < default now (dm_time d) - cp_keep_hours p * hour -> im_labels img !! KeepLabel = None -> im_tags img <> [] ->
  PruneWith now PruneImages (sweep_options p) d = PruneDied.
Proof.
  intros Hk Hn Ht Hv Hi Hu Hin Hid Hc Hl Hg. unfold PruneWith. simpl. unfold sweepUnusedImages. rewrite Hi, Hu. destruct (swept_of _ _ _ _ _) as [s alive] eqn:Es. pose proof (f_equal snd Es) as Ea. simpl in Ea. unfold swept_of in Ea. rewrite (sweep_dies _ _ _ _ _ img Hin) in Ea; [by rewrite <- Ea|].
  unfold sweepVerdict, cutoff_of. rewrite bool_decide_eq_false_2, policy_age, Hl by done. destruct (Z.ltb_spec (im_created img * second) (default now (dm_time d) - cp_keep_hours p * hour)); [|lia]. simpl.
  unfold parseKeepRules, sweep_options. simpl. rewrite Hk. simpl. rewrite Ht, bool_decide_eq_false_2 by (by destruct name). simpl. unfold keep_rule at 1. rewrite cut_byte_at by done. simpl. by destruct (im_tags img).
Qed.

(** ** A fleet of two hosts *)

Module CleanDemo.
Definition any_cron (s : string) : bool := true.
Definition fleet : CleanDB := mkCDB ["env_a"; "env_b"] None ∅ ∅.
Definition policy : CleanupPolicy := mkPolicy true "0 4 * * *" ["images"; "containers"] 24 [" myorg/runner "; "alpine@"] 0.
Definition busy : Image := mkImage "sha256:11" ["app:2"] ["app@sha256:d1"] 100 ∅ 5.
Definition old : Image := mkImage "sha256:22" ["app:1"; "app:old"] [] 100 ∅ 7.
Definition runner : Image := mkImage "sha256:33" ["myorg/runner:3"] [] 100 ∅ 9.
Definition tidy_policy : CleanupPolicy := mkPolicy true "0 4 * * *" ["containers"; "images"] 24 ["myorg/runner"] 0.
Definition t0 : Z := 1000000 * second.
Definition daemon : Daemon := mkDaemon (Some t0) (Ok [busy; runner; old]) (Ok [Some "sha256:11"; None]) (Some 100) (Some 93) (fun r => if bool_decide (r = "app:old") then Removed true else Removed false) (fun t f => match t with PruneContainers => Ok (3, 1) | _ => Err "busy" end).
Definition server : Worker := restart any_cron (mkWorker fleet [] [] [] []).
Definition req : PolicyRequest := mkPR true "0 4 * * *" ["containers"; "images"] 24 ["myorg/runner"].
Definition events : list CleanEvent := [SaveGlobal req 5; Fire "env_a" true 6; RunNow "env_a" true 7; SweepEnds "env_a" (7, 1, None) true 8; SaveEnv "env_b" (mkPR false "" [] 0 []) 9; AddHost "env_c"; Restart].

Lemma schedule_witness : let w0 := restart any_cron (mkWorker fleet [] [] [] []) in
  (forall n e, events !! n = Some e -> fresh_host (fold_left (clean_step any_cron) (take n events) w0) e) /\
  let w := fold_left (clean_step any_cron) events w0 in wk_entries w = [("env_a", "0 4 * * *"); ("env_c", "0 4 * * *")] /\
  (forall env s, (env, s) ∈ wk_entries w -> env ∈ hosts (wk_db w) -> scheduled any_cron (wk_db w) env = Some s).
Proof.
  assert (forall n e, events !! n = Some e -> fresh_host (fold_left (clean_step any_cron) (take n events) (restart any_cron (mkWorker fleet [] [] [] []))) e) as Hf.
  { intros n e He. do 7 (destruct n as [|n]; [injection He as <-; first [exact I|apply (bool_decide_unpack _); by vm_compute]|]). done. }
  split; [exact Hf|]. split; [by vm_compute|]. exact (proj1 (schedule_follows_policies any_cron fleet events Hf)).
Defined.

Definition waiting : Worker := Eval vm_compute in fold_left (clean_step any_cron) [SaveGlobal req 5] server.
Lemma new_host_witness : ("env_c" ∈ hosts (wk_db (clean_step any_cron waiting (AddHost "env_c")))) /\ scheduled any_cron (wk_db (clean_step any_cron waiting (AddHost "env_c"))) "env_c" = Some "0 4 * * *" /\
  ("env_c" ∉ map fst (wk_entries (fold_left (clean_step any_cron) [Fire "env_a" true 6; RunNow "env_b" true 7] (clean_step any_cron waiting (AddHost "env_c"))))).
Proof.
  apply (new_host_waits any_cron waiting "env_c" "0 4 * * *" [Fire "env_a" true 6; RunNow "env_b" true 7]).
  - apply (bool_decide_unpack _). by vm_compute.
  - apply (bool_decide_unpack _). by vm_compute.
  - vm_compute. reflexivity.
  - exists "env_a". split; vm_compute; reflexivity.
  - intros n e He. do 2 (destruct n as [|n]; [injection He as <-; vm_compute; reflexivity|]). done.
Defined.

(** The image in use and the one a pattern keeps stay; a name that is left with
    the daemon's refusal does not. *)
Lemma sweep_spares_witness : Validate tidy_policy = None /\ sw_asked (swept_of t0 (sweep_options tidy_policy) daemon [busy; runner; old] ["sha256:11"]).1 = ["app:1"; "app:old"] /\
  exists img, img ∈ [busy; runner; old] /\ "app:1" ∈ refs_of img /\ (im_id img ∉ ["sha256:11"]) /\ im_created img * second < default t0 (dm_time daemon) - cp_keep_hours tidy_policy * hour.
Proof.
  split; [vm_compute; reflexivity|]. split; [vm_compute; reflexivity|]. edestruct (sweep_spares tidy_policy t0 daemon [busy; runner; old] ["sha256:11"] "app:1") as (img & H1 & H2 & H3 & H4 & _).
  - vm_compute. reflexivity.
  - apply (bool_decide_unpack _). by vm_compute.
  - exists img. by split_and!.
Defined.

Lemma keep_pattern_witness : rule_matches (keep_rule "localhost:5000/app") (mkImage "sha256:44" ["localhost:5000/app:1"; "localhost:5000/app:2"] [] 0 ∅ 0) = Some true /\
  exists t, t ∈ ["localhost:5000/app:1"; "localhost:5000/app:2"] /\ fits "localhost:5000/app:*" t.
Proof.
  split; [vm_compute; reflexivity|]. apply (keep_pattern_spec "localhost:5000/app" (mkImage "sha256:44" ["localhost:5000/app:1"; "localhost:5000/app:2"] [] 0 ∅ 0)).
  - vm_compute. reflexivity.
  - apply (bool_decide_unpack _). by vm_compute.
  - apply (bool_decide_unpack _). by vm_compute.
  - vm_compute. reflexivity.
Defined.

Lemma host_sweep_witness : sweepHost t0 (Some [("node1", daemon)]) tidy_policy = Some (10, 2, None) /\ forall j, j ∈ jobs [("node1", daemon)] ["containers"; "images"] -> job_end t0 (sweep_options tidy_policy) j <> PruneDied.
Proof.
  assert (sweepHost t0 (Some [("node1", daemon)]) tidy_policy = Some (10, 2, None)) as E by (vm_compute; reflexivity). split; [exact E|].
  pose proof (host_sweep_spec t0 tidy_policy [("node1", daemon)] ltac:(discriminate)) as H. rewrite E in H. exact (proj1 H).
Defined.

(** The policy is saved and, when its time comes, the server goes down and the
    run is left open. *)
Lemma trailing_at_witness : Validate (mkPolicy true "0 4 * * *" ["images"] 24 ["alpine@"] 0) = None /\ PruneWith t0 PruneImages (sweep_options (mkPolicy true "0 4 * * *" ["images"] 24 ["alpine@"] 0)) daemon = PruneDied /\
  let w := (handleSaveGlobalCleanup any_cron server (mkPR true "0 4 * * *" ["images"] 24 ["alpine@"]) 5).1 in
  runCleanup w "env_a" "schedule" (Some [("node1", daemon)]) t0 t0 = None /\
  (cr_ended <$> LastCleanupRun (wk_db (restart any_cron (runCleanup_start w "env_a" "schedule" true t0))) "env_a") = Some None.
Proof.
  split; [vm_compute; reflexivity|]. split; [|split; vm_compute; reflexivity].
  apply (trailing_at_kills (mkPolicy true "0 4 * * *" ["images"] 24 ["alpine@"] 0) "alpine" [] old [busy; runner; old] ["sha256:11"] t0 daemon); try (vm_compute; reflexivity).
  - by right; right; left.
  - apply (bool_decide_unpack _). by vm_compute.
  - discriminate.
Defined.
End CleanDemo.
