(* ===== verification/BackupStore.v ===== *)
(** * Backups: the tables

    Models [internal/store/storage.go], [internal/store/keys.go] and
    [internal/store/backups.go]: storage targets, the public halves of encryption
    keys, backup jobs with the keys they encrypt to, and the record of every run;
    with the keys and cascades that [internal/store/migrate.go] declares. *)
From S2P Require Import Prelude GoStd Keyrings.
Local Open Scope string_scope.
Local Open Scope list_scope.
Local Open Scope daffa_scope.
Local Open Scope Z_scope.

Record StorageTarget := mkTarget { st_id : string; st_name : string; st_endpoint : string; st_region : string; st_bucket : string; st_key_id : string; st_secret : string; st_created : Z; st_by : string }.
Record EncryptionKey := mkEKey { ek_id : string; ek_name : string; ek_recipient : string; ek_source : string; ek_created : Z; ek_by : string }.
(** A row holds no keys: those are in a table of their own. *)
Record BackupJob := mkJob {
  j_id : string; j_env : string; j_name : string; j_container : string; j_engine : string; j_databases : string; j_user : string; j_password : string;
  j_schedule : string; j_volume : string; j_stop : string; j_exclude : string; j_storage : string; j_prefix : string; j_encryption : string; j_keys : list string;
  j_enabled : bool; j_created : Z; j_by : string }.
Inductive RunStatus := Running | Succeeded | Failed.
Record BackupRun := mkBRun { r_id : string; r_job : string; r_status : RunStatus; r_trigger : string; r_bytes : Z; r_object : string; r_error : string; r_started : Z; r_ended : option Z; r_by : string }.
#[export] Instance RunStatus_eq_dec : EqDecision RunStatus.
Proof. solve_decision. Defined.
Record BDB := mkBDB { envs : list string; targets : list StorageTarget; ekeys : list EncryptionKey; jobs : list BackupJob; job_keys : list (string * string); runs : list BackupRun }.

Definition set_targets (db : BDB) (l : list StorageTarget) : BDB := mkBDB (envs db) l (ekeys db) (jobs db) (job_keys db) (runs db).
Definition set_ekeys (db : BDB) (l : list EncryptionKey) : BDB := mkBDB (envs db) (targets db) l (jobs db) (job_keys db) (runs db).
Definition set_jobs (db : BDB) (l : list BackupJob) : BDB := mkBDB (envs db) (targets db) (ekeys db) l (job_keys db) (runs db).
Definition set_job_keys (db : BDB) (l : list (string * string)) : BDB := mkBDB (envs db) (targets db) (ekeys db) (jobs db) l (runs db).
Definition set_runs (db : BDB) (l : list BackupRun) : BDB := mkBDB (envs db) (targets db) (ekeys db) (jobs db) (job_keys db) l.
Definition Encrypted (j : BackupJob) : bool := bool_decide (j_encryption j = "age").

(** ** Storage targets *)

Definition CreateStorageTarget (db : BDB) (t : StorageTarget) : res KErr BDB :=
  if bool_decide (st_id t ∈ map st_id (targets db)) || bool_decide (st_name t ∈ map st_name (targets db)) then Err ErrDuplicate else Ok (set_targets db (targets db ++ [t])).
Definition StorageTargetByID (db : BDB) (id : string) : res KErr StorageTarget :=
  match List.find (fun t => bool_decide (st_id t = id)) (targets db) with Some t => Ok t | None => Err ErrNotFound end.
Definition ListStorageTargets (db : BDB) : list StorageTarget := ssort (fun a b => String.ltb (st_name a) (st_name b)) (targets db).
Definition UpdateStorageTarget (db : BDB) (t : StorageTarget) : res KErr BDB :=
  if existsb (fun o => bool_decide (st_name o = st_name t) && negb (bool_decide (st_id o = st_id t))) (targets db) && bool_decide (st_id t ∈ map st_id (targets db)) then Err ErrDuplicate
  else Ok (set_targets db (map (fun o => if bool_decide (st_id o = st_id t)
    then mkTarget (st_id o) (st_name t) (st_endpoint t) (st_region t) (st_bucket t) (st_key_id t) (st_secret t) (st_created o) (st_by o) else o) (targets db))).
Definition StorageTargetInUse (db : BDB) (id : string) : nat := length (List.filter (fun j => bool_decide (j_storage j = id)) (jobs db)).
(** Nothing cascades: a job that names the target refuses. *)
Definition DeleteStorageTarget (db : BDB) (id : string) : res KErr BDB :=
  if existsb (fun j => bool_decide (j_storage j = id)) (jobs db) && bool_decide (id ∈ map st_id (targets db)) then Err ErrForeignKey
  else Ok (set_targets db (List.filter (fun t => negb (bool_decide (st_id t = id))) (targets db))).

(** ** Encryption keys *)

Definition CreateEncryptionKey (db : BDB) (k : EncryptionKey) : res KErr BDB :=
  if bool_decide (ek_id k ∈ map ek_id (ekeys db)) || bool_decide (ek_name k ∈ map ek_name (ekeys db)) then Err ErrDuplicate
  else Ok (set_ekeys db (ekeys db ++ [mkEKey (ek_id k) (ek_name k) (ek_recipient k) (if bool_decide (ek_source k = "") then "imported" else ek_source k) (ek_created k) (ek_by k)])).
Definition EncryptionKeyByID (db : BDB) (id : string) : res KErr EncryptionKey :=
  match List.find (fun k => bool_decide (ek_id k = id)) (ekeys db) with Some k => Ok k | None => Err ErrNotFound end.
Definition by_key_name (a b : EncryptionKey) : bool := String.ltb (ek_name a) (ek_name b).
Definition ListEncryptionKeys (db : BDB) : list EncryptionKey := ssort by_key_name (ekeys db).
Definition EncryptionKeyInUse (db : BDB) (id : string) : nat := length (List.filter (fun l => bool_decide (l.2 = id)) (job_keys db)).
Definition DeleteEncryptionKey (db : BDB) (id : string) : res KErr BDB :=
  if existsb (fun l => bool_decide (l.2 = id)) (job_keys db) && bool_decide (id ∈ map ek_id (ekeys db)) then Err ErrForeignKey
  else Ok (set_ekeys db (List.filter (fun k => negb (bool_decide (ek_id k = id))) (ekeys db))).

(** ** Jobs and the keys they encrypt to *)

Definition row_of_job (j : BackupJob) : BackupJob :=
  mkJob (j_id j) (j_env j) (j_name j) (j_container j) (j_engine j) (j_databases j) (j_user j) (j_password j) (j_schedule j) (j_volume j) (j_stop j) (j_exclude j)
    (j_storage j) (j_prefix j) (j_encryption j) [] (j_enabled j) (j_created j) (j_by j).
Definition insert_job (db : BDB) (j : BackupJob) : res KErr BDB :=
  if bool_decide (j_id j ∈ map j_id (jobs db)) || existsb (fun o => bool_decide (j_env o = j_env j) && bool_decide (j_name o = j_name j)) (jobs db) then Err ErrDuplicate
  else if negb (bool_decide (j_env j ∈ envs db)) || negb (bool_decide (j_storage j ∈ map st_id (targets db))) then Err ErrForeignKey
  else Ok (set_jobs db (jobs db ++ [row_of_job j])).
Fixpoint link_keys (db : BDB) (job : string) (keys : list string) : res KErr BDB :=
  match keys with
  | [] => Ok db
  | k :: keys =>
      if bool_decide ((job, k) ∈ job_keys db) then Err ErrDuplicate
      else if negb (bool_decide (job ∈ map j_id (jobs db))) || negb (bool_decide (k ∈ map ek_id (ekeys db))) then Err ErrForeignKey
      else link_keys (set_job_keys db (job_keys db ++ [(job, k)])) job keys
  end.
Definition setBackupJobKeysTx (db : BDB) (job : string) (keys : list string) : res KErr BDB :=
  link_keys (set_job_keys db (List.filter (fun l => negb (bool_decide (l.1 = job))) (job_keys db))) job keys.
(** One transaction each: an error leaves the tables as they were. *)
Definition CreateBackupJob (db : BDB) (j : BackupJob) : res KErr BDB := let* db := insert_job db j in setBackupJobKeysTx db (j_id j) (j_keys j).
Definition SetBackupJobKeys (db : BDB) (job : string) (keys : list string) : res KErr BDB := setBackupJobKeysTx db job keys.
Definition keys_of (db : BDB) (job : string) : list EncryptionKey :=
  List.filter (fun k => bool_decide ((job, ek_id k) ∈ job_keys db)) (ListEncryptionKeys db).
Definition JobRecipients (db : BDB) (job : string) : list string := map ek_recipient (keys_of db job).
Definition attachJobKeys (db : BDB) (j : BackupJob) : BackupJob :=
  mkJob (j_id j) (j_env j) (j_name j) (j_container j) (j_engine j) (j_databases j) (j_user j) (j_password j) (j_schedule j) (j_volume j) (j_stop j) (j_exclude j)
    (j_storage j) (j_prefix j) (j_encryption j) (map ek_id (keys_of db (j_id j))) (j_enabled j) (j_created j) (j_by j).
Definition BackupJobByID (db : BDB) (id : string) : res KErr BackupJob :=
  match List.find (fun j => bool_decide (j_id j = id)) (jobs db) with Some j => Ok (attachJobKeys db j) | None => Err ErrNotFound end.
Definition ListBackupJobs (db : BDB) (global : bool) (visible : list string) : list BackupJob :=
  map (attachJobKeys db) (ssort (fun a b => String.ltb (j_name a) (j_name b)) (List.filter (fun j => global || bool_decide (j_env j ∈ visible)) (jobs db))).
Definition AllBackupJobs (db : BDB) : list BackupJob := ListBackupJobs db true [].
Definition with_schedule (schedule : string) (j : BackupJob) : BackupJob :=
  mkJob (j_id j) (j_env j) (j_name j) (j_container j) (j_engine j) (j_databases j) (j_user j) (j_password j) schedule (j_volume j) (j_stop j) (j_exclude j)
    (j_storage j) (j_prefix j) (j_encryption j) (j_keys j) (j_enabled j) (j_created j) (j_by j).
Definition with_enabled (enabled : bool) (j : BackupJob) : BackupJob :=
  mkJob (j_id j) (j_env j) (j_name j) (j_container j) (j_engine j) (j_databases j) (j_user j) (j_password j) (j_schedule j) (j_volume j) (j_stop j) (j_exclude j)
    (j_storage j) (j_prefix j) (j_encryption j) (j_keys j) enabled (j_created j) (j_by j).
Definition on_job (f : BackupJob -> BackupJob) (id : string) (db : BDB) : BDB := set_jobs db (map (fun j => if bool_decide (j_id j = id) then f j else j) (jobs db)).
Definition SetBackupJobSchedule (db : BDB) (id schedule : string) : BDB := on_job (with_schedule schedule) id db.
Definition SetBackupJobEnabled (db : BDB) (id : string) (enabled : bool) : BDB := on_job (with_enabled enabled) id db.
(** The keys and the runs of jobs go with them. *)
Definition drop_jobs (gone : BackupJob -> bool) (db : BDB) : BDB :=
  let ids := map j_id (List.filter gone (jobs db)) in
  mkBDB (envs db) (targets db) (ekeys db) (List.filter (fun j => negb (gone j)) (jobs db)) (List.filter (fun l => negb (bool_decide (l.1 ∈ ids))) (job_keys db))
    (List.filter (fun r => negb (bool_decide (r_job r ∈ ids))) (runs db)).
Definition DeleteBackupJob (db : BDB) (id : string) : BDB := drop_jobs (fun j => bool_decide (j_id j = id)) db.
Definition remove_env (db : BDB) (env : string) : BDB :=
  let db := drop_jobs (fun j => bool_decide (j_env j = env)) db in
  mkBDB (List.filter (fun e => negb (bool_decide (e = env))) (envs db)) (targets db) (ekeys db) (jobs db) (job_keys db) (runs db).
Definition add_env (db : BDB) (env : string) : BDB := mkBDB (envs db ++ [env]) (targets db) (ekeys db) (jobs db) (job_keys db) (runs db).

(** ** Runs *)

Definition StartBackupRun (db : BDB) (id job trigger user : string) (now : Z) : res KErr BDB :=
  if bool_decide (id ∈ map r_id (runs db)) then Err ErrDuplicate
  else if negb (bool_decide (job ∈ map j_id (jobs db))) then Err ErrForeignKey
  else Ok (set_runs db (runs db ++ [mkBRun id job Running trigger 0 "" "" now None user])).
Definition on_run (p : BackupRun -> bool) (f : BackupRun -> BackupRun) (db : BDB) : BDB := set_runs db (map (fun r => if p r then f r else r) (runs db)).
Definition FinishBackupRun (db : BDB) (id : string) (bytes : Z) (key : string) (err : option string) (now : Z) : BDB :=
  on_run (fun r => bool_decide (r_id r = id))
    (fun r => mkBRun (r_id r) (r_job r) (match err with None => Succeeded | Some _ => Failed end) (r_trigger r) bytes key (match err with None => "" | Some e => e end) (r_started r) (Some now) (r_by r)) db.
Definition newer_run (a b : BackupRun) : bool := r_started b <? r_started a.
Definition ListBackupRuns (db : BDB) (job : string) (limit : Z) : list BackupRun :=
  let limit := if (limit <=? 0) || (100 <? limit) then 20 else limit in
  take (Z.to_nat limit) (ssort newer_run (List.filter (fun r => bool_decide (r_job r = job)) (runs db))).
Definition LastBackupRun (db : BDB) (job : string) : res KErr BackupRun := match ListBackupRuns db job 1 with r :: _ => Ok r | [] => Err ErrNotFound end.
Definition FailStaleBackupRuns (db : BDB) (now : Z) : BDB :=
  on_run (fun r => bool_decide (r_status r = Running))
    (fun r => mkBRun (r_id r) (r_job r) Failed (r_trigger r) (r_bytes r) (r_object r) "the server stopped while this backup was running" (r_started r) (Some now) (r_by r)) db.
