(* ===== verification/Backups.v ===== *)
(** * Backups: the pipeline

    Models [internal/backups/]: the commands that dump and load a database
    ([engine.go]), the pipe a dump goes through into the bucket ([pipeline.go],
    [volume.go]), the listing of a bucket ([s3.go]) and the way back
    ([restore.go]). Compression and encryption are the class [Codec]; what the
    daemon and the object store answer is an input; a put either stores the whole
    object or nothing, which is what object stores promise. *)
From S2P Require Import Prelude GoStd Timestamps.
Local Open Scope string_scope.
Local Open Scope list_scope.
Local Open Scope daffa_scope.
Local Open Scope Z_scope.

(** ** Engines *)

Record Spec := mkSpec { sp_engine : string; sp_databases : string; sp_user : string; sp_password : string }.
Definition Postgres : string := "postgres".
Definition MySQL : string := "mysql".
Definition MongoDB : string := "mongodb".
Definition VolumeEngine : string := "volume".
Definition ValidEngine (e : string) : bool := bool_decide (e = Postgres) || bool_decide (e = MySQL) || bool_decide (e = MongoDB).

Inductive PipeErr :=
| OneDatabase | UnknownEngine (e : string) | NoRecipients | PrivateKeyGiven | BadRecipient (r : string) | NoClient (e : string) | DumpNotStarted (e : string)
| Streaming (e : string) | Uploading (e : string) | Unconfirmed (e : string) | DumpFailed (code : Z) (msg : string) | NoData
| KeyRequired | WrongKey | NotGzip | DecryptedNotGzip | NotInBucket (key : string) | RestoreFailed (code : Z).

Definition database_sep (c : ascii) : bool := bool_decide (c = ","%char) || bool_decide (c = " "%char) || bool_decide (c = "009"%char) || bool_decide (c = "010"%char).
Definition splitDatabases (s : string) : list string :=
  List.filter (fun f => negb (bool_decide (f = ""))) (map strings.TrimSpace (strings.FieldsFunc s database_sep)).
Definition unless_empty (s : string) (l : list string) : list string := if bool_decide (s = "") then [] else l.
Definition postgres_user (s : Spec) : string := if bool_decide (sp_user s = "") then "postgres" else sp_user s.

Definition dumpCommand (s : Spec) : res PipeErr (list string) :=
  let dbs := splitDatabases (sp_databases s) in
  if bool_decide (sp_engine s = Postgres) then
    match dbs with
    | [] => Ok ["pg_dumpall"; "-U"; postgres_user s; "--clean"; "--if-exists"]
    | [d] => Ok ["pg_dump"; "-U"; postgres_user s; "--clean"; "--if-exists"; d]
    | _ => Err OneDatabase
    end
  else if bool_decide (sp_engine s = MySQL) then
    Ok (["mysqldump"; "--single-transaction"; "--quick"; "--routines"; "--triggers"] ++ unless_empty (sp_user s) ["-u"; sp_user s] ++ unless_empty (sp_password s) ["-p" +:+ sp_password s] ++
        match dbs with [] => ["--all-databases"] | _ => "--databases" :: dbs end)
  else if bool_decide (sp_engine s = MongoDB) then
    Ok (["mongodump"; "--archive"] ++ unless_empty (sp_user s) ["-u"; sp_user s; "--authenticationDatabase"; "admin"] ++ unless_empty (sp_password s) ["-p"; sp_password s] ++
        flat_map (fun d => ["--db"; d]) dbs)
  else Err (UnknownEngine (sp_engine s)).
Definition restoreCommand (s : Spec) : res PipeErr (list string) :=
  let dbs := splitDatabases (sp_databases s) in
  if bool_decide (sp_engine s = Postgres) then Ok (["psql"; "-U"; postgres_user s; "--set"; "ON_ERROR_STOP=off"] ++ match dbs with [d] => ["-d"; d] | _ => ["-d"; "postgres"] end)
  else if bool_decide (sp_engine s = MySQL) then
    Ok (["mysql"] ++ unless_empty (sp_user s) ["-u"; sp_user s] ++ unless_empty (sp_password s) ["-p" +:+ sp_password s] ++ match dbs with [d] => [d] | _ => [] end)
  else if bool_decide (sp_engine s = MongoDB) then
    Ok (["mongorestore"; "--archive"; "--drop"] ++ unless_empty (sp_user s) ["-u"; sp_user s; "--authenticationDatabase"; "admin"] ++ unless_empty (sp_password s) ["-p"; sp_password s])
  else Err (UnknownEngine (sp_engine s)).
Definition Extension (e : string) (encrypted : bool) : string :=
  (if bool_decide (e = MongoDB) then ".archive.gz" else if bool_decide (e = VolumeEngine) then ".tar.gz" else ".sql.gz") +:+ (if encrypted then ".age" else "").

(** [<prefix>/<YYYY-MM-DD>/<base>-<YYYYMMDDThhmmssZ><ext>], in UTC. *)
Definition day_text (t : Time) : string := pad 4 (t_year t) +:+ "-" +:+ pad 2 (t_month t) +:+ "-" +:+ pad 2 (t_day t).
Definition stamp_text (t : Time) : string := pad 4 (t_year t) +:+ pad 2 (t_month t) +:+ pad 2 (t_day t) +:+ "T" +:+ pad 2 (t_hour t) +:+ pad 2 (t_min t) +:+ pad 2 (t_sec t) +:+ "Z".
Definition objectKey (prefix base ext : string) (now : Z) : string :=
  let key := day_text (UTC now) +:+ "/" +:+ base +:+ "-" +:+ stamp_text (UTC now) +:+ ext in
  let p := strings.Trim prefix "/" in
  if bool_decide (p = "") then key else p +:+ "/" +:+ key.

(** ** The pipe *)

(** The gzip and age formats: [valid_recipient] reads a public key, an identity is
    the private half of one. *)
Class Codec := {
  gzip : string -> string; gunzip : string -> option string;
  valid_recipient : string -> bool; age_encrypt : list string -> string -> string; age_decrypt : string -> string -> option string; recipient_of : string -> string }.
Class CodecLaws (C : Codec) : Prop := {
  gunzip_gzip : forall s, gunzip (gzip s) = Some s;
  gzip_header : forall s, gzip s <> "";
  decrypt_own : forall rs id s, recipient_of id ∈ rs -> age_decrypt id (age_encrypt rs s) = Some s;
  decrypt_other : forall rs id s, (recipient_of id ∉ rs) -> age_decrypt id (age_encrypt rs s) = None;
  age_not_gzip : forall rs s, gunzip (age_encrypt rs s) = None;
  age_header : forall rs s, age_encrypt rs s <> "" }.

Record Dest := mkDest { ds_endpoint : string; ds_region : string; ds_bucket : string; ds_prefix : string; ds_key_id : string; ds_secret : string; ds_encrypt : bool; ds_recipients : string }.
Record Object := mkObject { o_data : string; o_modified : Z }.
Abbreviation Bucket := (gmap string Object).
(** What the object store answers; an error is its text. *)
Record S3 := mkS3 { s3_client : option string; s3_put : option string; s3_remove : bool }.
(** A dump that runs in a container: whether it starts, its output with the
    error the stream ends with, what the inspection says at the end. *)
Record Exec := mkExec { ex_start : option string; ex_data : string; ex_stream : option string; ex_inspect : res string Z; ex_stderr : string }.

Section Pipe.
Context {C : Codec}.

Fixpoint check_recipients (l : list string) : res PipeErr (list string) :=
  match l with
  | [] => Ok []
  | f :: l => if strings.HasPrefix f "AGE-SECRET-KEY-" then Err PrivateKeyGiven
              else if negb (valid_recipient f) then Err (BadRecipient f)
              else let* rs := check_recipients l in Ok (f :: rs)
  end.
Definition parseRecipients (s : string) : res PipeErr (list string) := match strings.Fields s with [] => Err NoRecipients | l => check_recipients l end.
(** Compressed first, then encrypted. *)
Definition compressAndEncrypt (data : string) (stream : option string) (d : Dest) : res PipeErr string :=
  let* rs := (if ds_encrypt d then parseRecipients (ds_recipients d) else Ok []) in
  match stream with
  | Some e => Err (Streaming e)
  | None => Ok (if ds_encrypt d then age_encrypt rs (gzip data) else gzip data)
  end.
(** The object is stored when the pipe closed without an error and the store
    took it. *)
Definition upload (b : Bucket) (s3 : S3) (key : string) (piped : res PipeErr string) (now : Z) : Bucket * res PipeErr Z :=
  match piped, s3_put s3 with
  | Err e, _ => (b, Err e)
  | Ok _, Some e => (b, Err (Uploading e))
  | Ok data, None => (<[key := mkObject data now]> b, Ok (Z.of_nat (String.length data)))
  end.
Definition removed (b : Bucket) (s3 : S3) (key : string) : Bucket := if s3_remove s3 then delete key b else b.
Definition tail_of_stderr (s : string) : string :=
  let msg := strings.TrimSpace s in
  let msg := if (500 <? String.length msg)%nat then strings.take_chars 500 msg +:+ "…" else msg in
  if bool_decide (msg = "") then "no output" else msg.
Definition wait (ex : Exec) : option PipeErr :=
  match ex_inspect ex with
  | Err e => Some (Unconfirmed e)
  | Ok code => if bool_decide (code = 0) then None else Some (DumpFailed code (tail_of_stderr (ex_stderr ex)))
  end.

(** The key and the size of what was stored. *)
Definition Run (b : Bucket) (s3 : S3) (exec : list string -> Exec) (spec : Spec) (dst : Dest) (now : Z) : Bucket * res PipeErr (string * Z) :=
  match dumpCommand spec with
  | Err e => (b, Err e)
  | Ok cmd =>
      match s3_client s3 with
      | Some e => (b, Err (NoClient e))
      | None =>
          let key := objectKey (ds_prefix dst) (sp_engine spec) (Extension (sp_engine spec) (ds_encrypt dst)) now in
          let ex := exec cmd in
          match ex_start ex with
          | Some e => (b, Err (DumpNotStarted e))
          | None =>
              match upload b s3 key (compressAndEncrypt (ex_data ex) (ex_stream ex) dst) now with
              | (b, Err e) => (b, Err e)
              | (b, Ok n) =>
                  match wait ex with
                  | Some e => (removed b s3 key, Err e)
                  | None => if n =? 0 then (removed b s3 key, Err NoData) else (b, Ok (key, n))
                  end
              end
          end
      end
  end.
Definition RunVolume (b : Bucket) (s3 : S3) (data : string) (stream : option string) (volume : string) (dst : Dest) (now : Z) : Bucket * res PipeErr (string * Z) :=
  match s3_client s3 with
  | Some e => (b, Err (NoClient e))
  | None =>
      let key := objectKey (ds_prefix dst) ("volume-" +:+ volume) (Extension VolumeEngine (ds_encrypt dst)) now in
      match upload b s3 key (compressAndEncrypt data stream dst) now with
      | (b, Err e) => (b, Err e)
      | (b, Ok n) => if n =? 0 then (removed b s3 key, Err NoData) else (b, Ok (key, n))
      end
  end.

(** ** The bucket *)

Record Stored := mkStored { sn_key : string; sn_size : Z; sn_modified : Z; sn_encrypted : bool }.
Definition stored_of (e : string * Object) : Stored := mkStored e.1 (Z.of_nat (String.length (o_data e.2))) (o_modified e.2) (strings.HasSuffix e.1 ".age").
Definition dir_prefix (prefix : string) : string := let p := strings.Trim prefix "/" in if bool_decide (p = "") then "" else p +:+ "/".
Definition ListStored (b : Bucket) (s3 : S3) (dst : Dest) (limit : nat) : res PipeErr (list Stored) :=
  match s3_client s3 with
  | Some e => Err (NoClient e)
  | None =>
      let out := ssort (fun x y => sn_modified y <? sn_modified x) (map stored_of (List.filter (fun e => strings.HasPrefix e.1 (dir_prefix (ds_prefix dst))) (map_to_list b))) in
      Ok (if (0 <? limit)%nat && (limit <? length out)%nat then take limit out else out)
  end.
Definition Fetch (b : Bucket) (s3 : S3) (key : string) : res PipeErr string :=
  match s3_client s3 with Some e => Err (NoClient e) | None => match b !! key with Some o => Ok (o_data o) | None => Err (NotInBucket key) end end.

(** ** The way back *)

Definition Decrypt (src : string) (encrypted : bool) (identity : option string) : res PipeErr string :=
  let* r := (if encrypted then match identity with None => Err KeyRequired | Some id => match age_decrypt id src with None => Err WrongKey | Some r => Ok r end end else Ok src) in
  match gunzip r with Some s => Ok s | None => Err (if encrypted then DecryptedNotGzip else NotGzip) end.
(** What the daemon does with a command that is fed: whether it starts, whether
    its output can be read, whether all of the input is taken, how it exits. *)
Record Feed := mkFeed { fd_start : option string; fd_output : res string string; fd_sent : option string; fd_inspect : res string Z }.
(** What was run and fed, and the result. *)
Definition Load (feed : list string -> Feed) (spec : Spec) (dump : string) : option (list string * string) * res PipeErr string :=
  match restoreCommand spec with
  | Err e => (None, Err e)
  | Ok cmd =>
      let f := feed cmd in
      match fd_start f with
      | Some e => (None, Err (DumpNotStarted e))
      | None => (Some (cmd, dump),
          match fd_output f with
          | Err e => Err (Streaming e)
          | Ok out => match fd_sent f with
              | Some e => Err (Streaming e)
              | None => match fd_inspect f with
                  | Err e => Err (Unconfirmed e)
                  | Ok code => if bool_decide (code = 0) then Ok (strings.TrimSpace out) else Err (RestoreFailed code)
                  end
              end
          end)
      end
  end.
End Pipe.

(** Which keys a job may fetch. *)
Definition keyUnderPrefix (key prefix : string) : bool :=
  if existsb (fun seg => bool_decide (seg = "..")) (strings.Split key "/") then false
  else let p := strings.Trim prefix "/" in
       if bool_decide (p = "") then true else strings.HasPrefix key (p +:+ "/").
