(* ===== verification/BackupFlow.v ===== *)
(** * Backups: the service and its handlers

    Models [internal/api/backup_service.go], [internal/api/backup_volume.go],
    [internal/api/backup_handlers.go], [internal/api/storage_handlers.go] and the
    key handlers of [internal/api/cert_handlers.go]: where a job's container or
    volume lives, what a job encrypts to, one run per job, its verdict and who is
    told, the snapshot of a volume with its consumers stopped, and restoring.
    Sealing, the cron parser, the archive format and what the daemons answer are
    parameters. *)
From S2P Require Import Prelude GoStd Paths VolSources Keyrings Volumes BackupStore Backups.
Local Open Scope string_scope.
Local Open Scope list_scope.
Local Open Scope daffa_scope.
Local Open Scope Z_scope.

(** ** Hosts *)

Record Container := mkContainer { ct_name : string; ct_id : string; ct_up : bool }.
(** A node that does not answer fails every call. *)
Record Node := mkNode { nd_name : string; nd_answers : bool; nd_containers : list Container; nd_disk : Disk }.
(** The nodes in the order of their names. *)
Record Env := mkEnv { ev_swarm : bool; ev_nodes : list Node }.
Inductive SvcErr :=
| EnvNotConnected | NoSuchContainer (ref : string) | NoSuchVolume (v : string) | VolumeOnMany (v : string) (names : list string) | BadPassword | TargetGone | BadCredential (name : string)
| NoKeys | StopFailed (name e : string) | RestartFailed (errs : list string) | AndAfterwards (first : SvcErr) (errs : list string) | Snap (e : ReadErr) | Pipe (e : PipeErr).

Definition container_is (ref : string) (c : Container) : bool :=
  bool_decide (ct_name c = ref) || strings.HasPrefix (ct_id c) ref || strings.HasPrefix (ct_name c) (ref +:+ ".").
Definition ListContainers (n : Node) : option (list Container) := if nd_answers n then Some (List.filter ct_up (nd_containers n)) else None.
Fixpoint find_container (ref : string) (ns : list Node) : res SvcErr (Node * string) :=
  match ns with
  | [] => Err (NoSuchContainer ref)
  | n :: ns => match ListContainers n with
               | None => find_container ref ns
               | Some l => match List.find (container_is ref) l with Some c => Ok (n, ct_name c) | None => find_container ref ns end
               end
  end.
Definition One (e : Env) : option Node := match ev_nodes e with [n] => Some n | _ => None end.
Definition backupNode (env : option Env) (ref : string) : res SvcErr (Node * string) :=
  match env with
  | None => Err EnvNotConnected
  | Some e => match One e with
              | Some n => if ev_swarm e then find_container ref (ev_nodes e) else Ok (n, ref)
              | None => find_container ref (ev_nodes e)
              end
  end.
Definition VolumeInspect (n : Node) (volume : string) : bool := nd_answers n && bool_decide (is_Some (nd_disk n !! volume)).
Definition volumeNode (env : option Env) (volume : string) (forRestore : bool) : res SvcErr Node :=
  match env with
  | None => Err EnvNotConnected
  | Some e => match List.filter (fun n => VolumeInspect n volume) (ev_nodes e) with
              | [n] => Ok n
              | [] => if forRestore then match One e with Some n => Ok n | None => Err (NoSuchVolume volume) end else Err (NoSuchVolume volume)
              | holders => Err (VolumeOnMany volume (map nd_name holders))
              end
  end.

(** ** Stopping the consumers of a volume *)

(** Which calls fail, with the error; and which of the stops that fail stop the
    container nevertheless, as one whose answer came too late. *)
Record Calls := mkCalls { stop_fails : string -> option string; stop_lost : string -> bool; start_fails : string -> option string }.
Definition set_up (up : bool) (name : string) (l : list Container) : list Container :=
  map (fun c => if bool_decide (ct_name c = name) then mkContainer (ct_name c) (ct_id c) up else c) l.
Definition ContainerStop (calls : Calls) (name : string) (l : list Container) : list Container * option string :=
  if negb (bool_decide (name ∈ map ct_name l)) then (l, Some "No such container")
  else match stop_fails calls name with Some e => (if stop_lost calls name then set_up false name l else l, Some e) | None => (set_up false name l, None) end.
Definition ContainerStart (calls : Calls) (name : string) (l : list Container) : list Container * option string :=
  match start_fails calls name with Some e => (l, Some e) | None => (set_up true name l, None) end.
(** [stopped] last first. *)
Fixpoint restart (calls : Calls) (stopped : list string) (l : list Container) : list Container * list string :=
  match stopped with
  | [] => (l, [])
  | name :: stopped =>
      let '(l, e) := ContainerStart calls name l in
      let '(l, errs) := restart calls stopped l in
      (l, match e with Some e => (name +:+ ": " +:+ e) :: errs | None => errs end)
  end.
Fixpoint stop_all (calls : Calls) (names stopped : list string) (l : list Container) : list Container * res SvcErr (list string) :=
  match names with
  | [] => (l, Ok stopped)
  | name :: names => match ContainerStop calls name l with
                     | (l, Some e) => ((restart calls stopped l).1, Err (StopFailed name e))
                     | (l, None) => stop_all calls names (name :: stopped) l
                     end
  end.
Definition stopForSnapshot (calls : Calls) (targets : string) (l : list Container) : list Container * res SvcErr (list string) :=
  stop_all calls (strings.Fields targets) [] l.

Definition splitExcludes (text : string) : list string :=
  if bool_decide (text = "") then [] else List.filter (fun l => negb (bool_decide (l = ""))) (map strings.TrimSpace (strings.Split text "010")).
Fixpoint sanitize (l : list string) (out : list string) : list string + string :=
  match l with
  | [] => inl out
  | raw :: l =>
      let raw := strings.TrimSpace raw in
      if bool_decide (raw = "") then sanitize l out
      else let p := path.Clean (strings.TrimPrefix raw "./") in
           if bool_decide (p = ".") || bool_decide (p = "..") || strings.HasPrefix p "../" || strings.HasPrefix p "/" then inr raw else sanitize l (out ++ [p])
  end.
(** The stored form, or the pattern that leaves the volume. *)
Definition sanitizeExcludePaths (text : string) : string + string :=
  match sanitize (strings.Split text "010") [] with inl out => inl (strings.Join out (String "010" "")) | inr bad => inr bad end.

(** ** What a job dumps, and to whom *)

Abbreviation Buckets := (gmap (string * string) Bucket).
Definition bucket_of (bs : Buckets) (d : Dest) : Bucket := default ∅ (bs !! (ds_endpoint d, ds_bucket d)).
Definition put_bucket (bs : Buckets) (d : Dest) (b : Bucket) : Buckets := <[(ds_endpoint d, ds_bucket d) := b]> bs.
(** An archive of entries as the bytes the daemon sends. *)
Class TarFormat := { tar : list (string * Blob) -> string; untar : string -> option (list (string * Blob)) }.
Class TarLaws (T : TarFormat) : Prop := { untar_tar : forall es, untar (tar es) = Some es }.

(** What one run meets: the daemons' answers, by node and container, the object
    store, the calls on the consumers of a volume, how its archive ends. *)
Record Weather := mkWeather { we_env : string -> option Env; we_exec : string -> string -> list string -> Exec; we_s3 : S3; we_calls : Calls; we_stream : option string }.

Section Service.
Context {C : Codec} {T : TarFormat} (Seal Open : string -> option string) (cron_ok : string -> bool) (text : SvcErr -> string).

Definition jobConfig (db : BDB) (job : BackupJob) : res SvcErr (Spec * Dest) :=
  match Open (j_password job) with
  | None => Err BadPassword
  | Some pass =>
      match StorageTargetByID db (j_storage job) with
      | Err _ => Err TargetGone
      | Ok t => match Open (st_secret t) with
          | None => Err (BadCredential (st_name t))
          | Some secret =>
              let* recipients := (if Encrypted job then match JobRecipients db (j_id job) with [] => Err NoKeys | recs => Ok (strings.Join recs " ") end else Ok "") in
              Ok (mkSpec (j_engine job) (j_databases job) (j_user job) pass,
                  mkDest (st_endpoint t) (st_region t) (st_bucket t) (j_prefix job) (st_key_id t) secret (Encrypted job) recipients)
          end
      end
  end.

(** What was stored, and the error: a snapshot that is stored while a consumer
    stays down has both. *)
Definition Outcome : Type := option (string * Z) * option SvcErr.
Definition outcome_of (r : res PipeErr (string * Z)) : Outcome := match r with Ok kn => (Some kn, None) | Err e => (None, Some (Pipe e)) end.
(** The containers of the node afterwards come with it. *)
Definition performVolumeBackup (db : BDB) (bs : Buckets) (we : Weather) (job : BackupJob) (now : Z) : Buckets * Outcome * option (string * list Container) :=
  match volumeNode (we_env we (j_env job)) (j_volume job) false with
  | Err e => (bs, (None, Some e), None)
  | Ok n =>
      match jobConfig db job with
      | Err e => (bs, (None, Some e), None)
      | Ok (_, dst) =>
          match stopForSnapshot (we_calls we) (j_stop job) (nd_containers n) with
          | (l, Err e) => (bs, (None, Some e), Some (nd_name n, l))
          | (l, Ok stopped) =>
              let '(bs, out) :=
                match Snapshot (nd_disk n) (j_volume job) with
                | Err e => (bs, (None, Some (Snap e)))
                | Ok archive =>
                    let src := FilterTar (archive, we_stream we) (splitExcludes (j_exclude job)) in
                    let '(b, r) := RunVolume (bucket_of bs dst) (we_s3 we) (tar src.1) src.2 (j_volume job) dst now in
                    (put_bucket bs dst b, outcome_of r)
                end in
              let '(l, errs) := restart (we_calls we) stopped l in
              (bs, match errs with
                   | [] => out
                   | _ => (out.1, Some (match out.2 with Some e => AndAfterwards e errs | None => RestartFailed errs end))
                   end, Some (nd_name n, l))
          end
      end
  end.
Definition performBackup (db : BDB) (bs : Buckets) (we : Weather) (job : BackupJob) (now : Z) : Buckets * Outcome :=
  if bool_decide (j_engine job = VolumeEngine) then (performVolumeBackup db bs we job now).1
  else match backupNode (we_env we (j_env job)) (j_container job) with
  | Err e => (bs, (None, Some e))
  | Ok (n, name) =>
      match jobConfig db job with
      | Err e => (bs, (None, Some e))
      | Ok (spec, dst) =>
          let '(b, r) := Run (bucket_of bs dst) (we_s3 we) (we_exec we (nd_name n) name) spec dst now in
          (put_bucket bs dst b, outcome_of r)
      end
  end.

(** ** The scheduler and its runs *)

Record Flight := mkFlight { f_job : BackupJob; f_run : string; f_trigger : string; f_user : string; f_began : Z }.
Record Notice := mkNotice { no_failed : bool; no_job : string; no_bytes : Z }.
(** The tables, the buckets, the jobs and runs in flight, the entries of the
    running cron, who was told, the audit log. *)
Record Server := mkServer { s_db : BDB; s_buckets : Buckets; s_running : list string; s_flights : list Flight; s_entries : list (string * string); s_told : list Notice; s_audit : list (string * string) }.
Definition on_db (s : Server) (db : BDB) : Server := mkServer db (s_buckets s) (s_running s) (s_flights s) (s_entries s) (s_told s) (s_audit s).
Definition audited (s : Server) (action outcome : string) : Server := mkServer (s_db s) (s_buckets s) (s_running s) (s_flights s) (s_entries s) (s_told s) (s_audit s ++ [(action, outcome)]).

Definition scheduled_jobs (db : BDB) : list (string * string) :=
  map (fun j => (j_id j, j_schedule j)) (List.filter (fun j => j_enabled j && negb (bool_decide (j_schedule j = "")) && cron_ok (j_schedule j)) (AllBackupJobs db)).
Definition rebuildSchedule (s : Server) : Server := mkServer (s_db s) (s_buckets s) (s_running s) (s_flights s) (scheduled_jobs (s_db s)) (s_told s) (s_audit s).
Definition startScheduler (s : Server) (now : Z) : Server :=
  rebuildSchedule (mkServer (FailStaleBackupRuns (s_db s) now) (s_buckets s) [] [] (s_entries s) (s_told s) (s_audit s)).
Definition tryStart (s : Server) (job : string) : option Server :=
  if bool_decide (job ∈ s_running s) then None else Some (mkServer (s_db s) (s_buckets s) (job :: s_running s) (s_flights s) (s_entries s) (s_told s) (s_audit s)).
Definition finish (s : Server) (job : string) : Server :=
  mkServer (s_db s) (s_buckets s) (List.filter (fun j => negb (bool_decide (j = job))) (s_running s)) (s_flights s) (s_entries s) (s_told s) (s_audit s).
(** [runBackup] until the run is recorded; [writes] [false]: it cannot be. *)
Definition runBackup_start (s : Server) (job run trigger user : string) (writes : bool) (now : Z) : Server :=
  match tryStart s job with
  | None => s
  | Some s =>
      match BackupJobByID (s_db s) job with
      | Err _ => finish s job
      | Ok j => match (if writes then StartBackupRun (s_db s) run job trigger user now else Err ErrNotConnected) with
                | Err _ => finish s job
                | Ok db => mkServer db (s_buckets s) (s_running s) (s_flights s ++ [mkFlight j run trigger user now]) (s_entries s) (s_told s) (s_audit s)
                end
      end
  end.
Definition backupDeadline : Z := 4 * 3600 * 1000000000.
(** What is left once the backup itself has ended: every call takes the context of
    the run, which has expired when the backup took its four hours. *)
Definition runBackup_end (s : Server) (fl : Flight) (bs : Buckets) (out : Outcome) (now : Z) : Server :=
  let alive := now <? f_began fl + backupDeadline in
  let '(bytes, key) := match out.1 with Some (k, n) => (n, k) | None => (0, "") end in
  let s := mkServer (if alive then FinishBackupRun (s_db s) (f_run fl) bytes key (text <$> out.2) now else s_db s) bs (s_running s)
    (List.filter (fun x => negb (bool_decide (j_id (f_job x) = j_id (f_job fl)))) (s_flights s)) (s_entries s)
    (if alive then s_told s ++ [mkNotice (match out.2 with Some _ => true | None => false end) (j_name (f_job fl)) bytes] else s_told s) (s_audit s) in
  finish (if alive then audited s "backup.run" (match out.2 with Some _ => "error" | None => "ok" end) else s) (j_id (f_job fl)).
(** One run from end to end. *)
Definition runBackup (s : Server) (job run trigger user : string) (we : Weather) (began at_ ended : Z) : Server :=
  let s' := runBackup_start s job run trigger user true began in
  match List.find (fun f => bool_decide (f_run f = run)) (s_flights s') with
  | None => s'
  | Some f => let '(bs, out) := performBackup (s_db s') (s_buckets s') we (f_job f) at_ in runBackup_end s' f bs out ended
  end.

(** ** The handlers of jobs *)

Record JobRequest := mkJR { jr_env : string; jr_name : string; jr_container : string; jr_engine : string; jr_databases : string; jr_user : string; jr_password : string; jr_schedule : string;
  jr_volume : string; jr_stop : string; jr_exclude : string; jr_storage : string; jr_prefix : string; jr_encryption : string; jr_keys : list string }.
Inductive JobErr := Forbidden | NameRequired | BadVolumeName_ | SourcedVolume | ExcludeLeaves (p : string) | ContainerRequired | BadEngine | HostNotConnected | BadSchedule | KeyMissing | KeyUnknown | ChooseTarget
| SealFailed | NameTaken | JobStore (e : KErr) | NoSuchJob.
(** The fields of the engine that was chosen; those of the other are dropped. *)
Definition engine_fields (sources : SDB) (req : JobRequest) : res JobErr JobRequest :=
  if bool_decide (jr_engine req = VolumeEngine) then
    if negb (dockerVolumeName (jr_volume req)) then Err BadVolumeName_
    else if is_ok (VolumeSourceByVolume sources (jr_env req) (jr_volume req)) then Err SourcedVolume
    else match sanitizeExcludePaths (jr_exclude req) with
    | inr bad => Err (ExcludeLeaves bad)
    | inl cleaned => Ok (mkJR (jr_env req) (jr_name req) "" (jr_engine req) "" "" "" (jr_schedule req) (jr_volume req) (strings.TrimSpace (jr_stop req)) cleaned (jr_storage req) (jr_prefix req) (jr_encryption req) (jr_keys req))
    end
  else if ValidEngine (jr_engine req) then
    if bool_decide (jr_container req = "") then Err ContainerRequired
    else Ok (mkJR (jr_env req) (jr_name req) (jr_container req) (jr_engine req) (jr_databases req) (jr_user req) (jr_password req) (jr_schedule req) "" "" "" (jr_storage req) (jr_prefix req) (jr_encryption req) (jr_keys req))
  else Err BadEngine.
(** How the job encrypts, and to which keys. *)
Definition encryption_of (db : BDB) (req : JobRequest) : res JobErr (string * list string) :=
  if bool_decide (jr_encryption req = "none") then Ok ("none", [])
  else match jr_keys req with
  | [] => Err KeyMissing
  | ks => if forallb (fun id => is_ok (EncryptionKeyByID db id)) ks then Ok ("age", ks) else Err KeyUnknown
  end.
(** What the request meets: whether its user may, what is connected, the volume
    sources; the id, the time and the user of the job. *)
Record JobContext := mkJC { jc_allowed : bool; jc_connected : string -> bool; jc_sources : SDB; jc_id : string; jc_now : Z; jc_user : string }.
Definition handleCreateBackupJob (s : Server) (c : JobContext) (req : JobRequest) : Server * option JobErr :=
  match (let* _ := rguard (jc_allowed c) Forbidden in
         let name := strings.TrimSpace (jr_name req) in
         let* _ := rguard (negb (bool_decide (name = ""))) NameRequired in
         let* req := engine_fields (jc_sources c) req in
         let* _ := rguard (jc_connected c (jr_env req)) HostNotConnected in
         let* _ := rguard (bool_decide (jr_schedule req = "") || cron_ok (jr_schedule req)) BadSchedule in
         let* enc := encryption_of (s_db s) req in
         let* _ := rguard (is_ok (StorageTargetByID (s_db s) (jr_storage req))) ChooseTarget in
         match Seal (jr_password req) with
         | None => Err SealFailed
         | Some pass =>
             match CreateBackupJob (s_db s) (mkJob (jc_id c) (jr_env req) name (jr_container req) (jr_engine req) (jr_databases req) (jr_user req) pass (jr_schedule req) (jr_volume req) (jr_stop req)
               (jr_exclude req) (jr_storage req) (strings.Trim (strings.TrimSpace (jr_prefix req)) "/") enc.1 enc.2 true (jc_now c) (jc_user c)) with
             | Err ErrDuplicate => Err NameTaken
             | Err e => Err (JobStore e)
             | Ok db => Ok db
             end
         end) with
  | Err e => (s, Some e)
  | Ok db => (audited (rebuildSchedule (on_db s db)) "backup.create" "ok", None)
  end.
(** The job the request is about was read before. *)
Definition handleDeleteBackupJob (s : Server) (job : BackupJob) : Server := audited (rebuildSchedule (on_db s (DeleteBackupJob (s_db s) (j_id job)))) "backup.delete" "ok".
Definition handleSetBackupSchedule (s : Server) (job : BackupJob) (schedule : string) : Server * option JobErr :=
  let schedule := strings.TrimSpace schedule in
  if negb (bool_decide (schedule = "")) && negb (cron_ok schedule) then (s, Some BadSchedule)
  else (audited (rebuildSchedule (on_db s (SetBackupJobSchedule (s_db s) (j_id job) schedule))) "backup.schedule" "ok", None).
Definition handleToggleBackupJob (s : Server) (job : BackupJob) : Server :=
  audited (rebuildSchedule (on_db s (SetBackupJobEnabled (s_db s) (j_id job) (negb (j_enabled job))))) "backup.toggle" "ok".
Definition handleSnapshots (s : Server) (s3 : S3) (job : BackupJob) : res SvcErr (list Stored) :=
  let* c := jobConfig (s_db s) job in
  match ListStored (bucket_of (s_buckets s) c.2) s3 c.2 50 with Ok l => Ok l | Err e => Err (Pipe e) end.
Inductive DownloadErr := NoKeyGiven | Misconfigured (e : SvcErr) | NotOfThisJob | NotThere (e : PipeErr).
Definition handleSnapshotDownload (s : Server) (s3 : S3) (job : BackupJob) (key : string) : Server * res DownloadErr string :=
  if bool_decide (key = "") then (s, Err NoKeyGiven)
  else match jobConfig (s_db s) job with
  | Err e => (s, Err (Misconfigured e))
  | Ok (_, dst) =>
      if negb (keyUnderPrefix key (ds_prefix dst)) then (s, Err NotOfThisJob)
      else match Fetch (bucket_of (s_buckets s) dst) s3 key with
      | Err e => (s, Err (NotThere e))
      | Ok data => (audited s "backup.download" "ok", Ok data)
      end
  end.

(** ** Restoring *)

Inductive RestoreReply := ConfirmRequired | Unreachable (e : SvcErr) | RestoreMisconfigured (e : SvcErr) | Restored | RestoreError (e : PipeErr)
| VolumeInUse (users : list string) | WipeFailed | VolumeUnreadable | VolumeNotEmpty | VolumeRestoreFailed.
(** The container of a database: what was run in it and fed. *)
Definition handleRestore_database (s : Server) (env : option Env) (feed : string -> string -> list string -> Feed) (job : BackupJob) (dump : string) : Server * option (list string * string) * RestoreReply :=
  match backupNode env (j_container job) with
  | Err e => (s, None, Unreachable e)
  | Ok (n, name) =>
      match jobConfig (s_db s) job with
      | Err e => (s, None, RestoreMisconfigured e)
      | Ok (spec, _) =>
          let s := audited s "backup.restore" "ok" in
          let '(fed, r) := Load (feed (nd_name n) name) spec dump in
          match r with
          | Ok _ => (audited s "backup.restore" "ok", fed, Restored)
          | Err e => (audited s "backup.restore" "error", fed, RestoreError e)
          end
      end
  end.
(** How the calls of a volume restore end: the containers that mount it, [None]
    when they cannot be listed, whether the volume can be inspected, the wipe, the
    look inside, the write. *)
Record VolCalls := mkVC { vc_users : option (list string); vc_inspect : bool; vc_wipe : RemoveEnd; vc_look : bool; vc_write : WriteEnd }.
Definition restoreVolume (s : Server) (env : option Env) (vc : VolCalls) (job : BackupJob) (wipe : bool) (archive : list (string * Blob)) : Server * option (string * Disk) * RestoreReply :=
  match volumeNode env (j_volume job) true with
  | Err e => (s, None, Unreachable e)
  | Ok n =>
      match vc_users vc with
      | Some (u :: us) => (s, None, VolumeInUse (u :: us))
      | _ =>
          let vol := j_volume job in
          let exists_ := vc_inspect vc && bool_decide (is_Some (nd_disk n !! vol)) in
          let '(disk, wiped) := if exists_ && wipe then Wipe (nd_disk n) vol (vc_wipe vc) else (nd_disk n, true) in
          if negb wiped then (s, Some (nd_name n, disk), WipeFailed)
          else match (if exists_ && negb wipe then if vc_look vc then IsEmpty disk vol ["./"] else Err ErrDaemon else Ok true) with
          | Err _ => (s, Some (nd_name n, disk), VolumeUnreadable)
          | Ok false => (s, Some (nd_name n, disk), VolumeNotEmpty)
          | Ok true =>
              let s := audited s "backup.restore" "ok" in
              let '(disk, done) := Restore disk vol archive (vc_write vc) in
              if done then (audited s "backup.restore" "ok", Some (nd_name n, disk), Restored)
              else (audited s "backup.restore" "error", Some (nd_name n, disk), VolumeRestoreFailed)
          end
      end
  end.

(** The name of the job has to be repeated. A volume is restored from the entries
    of the body; one that is no archive the daemon refuses. *)
Definition handleRestore (s : Server) (env : option Env) (feed : string -> string -> list string -> Feed) (vc : VolCalls) (job : BackupJob) (confirm : string) (wipe : bool) (body : string)
  : Server * option (list string * string) * option (string * Disk) * RestoreReply :=
  if negb (bool_decide (confirm = j_name job)) then (s, None, None, ConfirmRequired)
  else if bool_decide (j_engine job = VolumeEngine) then
    let '(s, d, r) := match untar body with
                      | Some archive => restoreVolume s env vc job wipe archive
                      | None => restoreVolume s env (mkVC (vc_users vc) (vc_inspect vc) (vc_wipe vc) (vc_look vc) WriteRefused) job wipe []
                      end in (s, None, d, r)
  else let '(s, fed, r) := handleRestore_database s env feed job body in (s, fed, None, r).

(** ** The handlers of targets and keys *)

Record StorageRequest := mkSR { sr_name : string; sr_endpoint : string; sr_region : string; sr_bucket : string; sr_key_id : string; sr_secret : string }.
Inductive StorageErr := FieldsRequired | StorageUnreachable | StorageSeal | StorageOpen | StorageNameTaken | NoSuchTarget | TargetInUse | StorageStore (e : KErr).
Definition validStorage (r : StorageRequest) : res StorageErr StorageRequest :=
  let r := mkSR (strings.TrimSpace (sr_name r)) (strings.TrimSpace (sr_endpoint r)) (if bool_decide (sr_region r = "") then "auto" else sr_region r) (strings.TrimSpace (sr_bucket r)) (sr_key_id r) (sr_secret r) in
  if bool_decide (sr_name r = "") || bool_decide (sr_endpoint r = "") || bool_decide (sr_bucket r = "") || bool_decide (sr_key_id r = "") then Err FieldsRequired else Ok r.
(** [reachable]: what [CheckDestination] finds, by destination and secret. *)
Definition handleCreateStorage (s : Server) (reachable : StorageRequest -> string -> bool) (req : StorageRequest) (id user : string) (now : Z) : Server * option StorageErr :=
  match (let* r := validStorage req in
         let* _ := rguard (reachable r (sr_secret r)) StorageUnreachable in
         match Seal (sr_secret r) with
         | None => Err StorageSeal
         | Some sealed => match CreateStorageTarget (s_db s) (mkTarget id (sr_name r) (sr_endpoint r) (sr_region r) (sr_bucket r) (sr_key_id r) sealed now user) with
                          | Err ErrDuplicate => Err StorageNameTaken | Err e => Err (StorageStore e) | Ok db => Ok db end
         end) with
  | Err e => (s, Some e)
  | Ok db => (audited (on_db s db) "storage.create" "ok", None)
  end.
(** An empty secret leaves the stored one. *)
Definition handleUpdateStorage (s : Server) (reachable : StorageRequest -> string -> bool) (id : string) (req : StorageRequest) : Server * option StorageErr :=
  match StorageTargetByID (s_db s) id with
  | Err _ => (s, Some NoSuchTarget)
  | Ok t =>
      match (let* r := validStorage req in
             let* secret := (if bool_decide (sr_secret r = "") then match Open (st_secret t) with Some x => Ok x | None => Err StorageOpen end else Ok (sr_secret r)) in
             let* _ := rguard (reachable r secret) StorageUnreachable in
             match Seal secret with
             | None => Err StorageSeal
             | Some sealed => match UpdateStorageTarget (s_db s) (mkTarget (st_id t) (sr_name r) (sr_endpoint r) (sr_region r) (sr_bucket r) (sr_key_id r) sealed (st_created t) (st_by t)) with
                              | Err e => Err (StorageStore e) | Ok db => Ok db end
             end) with
      | Err e => (s, Some e)
      | Ok db => (audited (on_db s db) "storage.update" "ok", None)
      end
  end.
Definition handleDeleteStorage (s : Server) (id : string) : Server * option StorageErr :=
  match StorageTargetByID (s_db s) id with
  | Err _ => (s, Some NoSuchTarget)
  | Ok t => if (0 <? StorageTargetInUse (s_db s) (st_id t))%nat then (s, Some TargetInUse)
            else match DeleteStorageTarget (s_db s) (st_id t) with
            | Err e => (s, Some (StorageStore e))
            | Ok db => (audited (on_db s db) "storage.delete" "ok", None)
            end
  end.

Inductive KeyErr := BadKeyName | PrivateKeyPasted | NotAPublicKey | KeyNameTaken | NoSuchKey | KeyStillUsed | KeyStore (e : KErr).
(** The age library reads a key: [canonical]. *)
Definition ParseAgeRecipient (upper : string -> string) (canonical : string -> option string) (r : string) : res KeyErr string :=
  let r := strings.TrimSpace r in
  if strings.Contains (upper r) "AGE-SECRET-KEY-" then Err PrivateKeyPasted
  else match canonical r with None => Err NotAPublicKey | Some r => Ok r end.
(** Imported when a recipient is given, otherwise the [generated] one. *)
Definition handleCreateKey (s : Server) (upper : string -> string) (canonical : string -> option string) (generated : string) (name recipient id user : string) (now : Z) : Server * option KeyErr :=
  let name := strings.TrimSpace name in
  if negb (certName name) then (s, Some BadKeyName)
  else match (if bool_decide (strings.TrimSpace recipient = "") then Ok (generated, "generated") else let* r := ParseAgeRecipient upper canonical recipient in Ok (r, "imported")) with
  | Err e => (s, Some e)
  | Ok (r, source) =>
      match CreateEncryptionKey (s_db s) (mkEKey id name r source now user) with
      | Err ErrDuplicate => (s, Some KeyNameTaken)
      | Err e => (s, Some (KeyStore e))
      | Ok db => (audited (on_db s db) ("key." +:+ source) "ok", None)
      end
  end.
Definition handleDeleteKey (s : Server) (id : string) : Server * option KeyErr :=
  match EncryptionKeyByID (s_db s) id with
  | Err _ => (s, Some NoSuchKey)
  | Ok k => if (0 <? EncryptionKeyInUse (s_db s) (ek_id k))%nat then (s, Some KeyStillUsed)
            else match DeleteEncryptionKey (s_db s) (ek_id k) with
            | Err e => (s, Some (KeyStore e))
            | Ok db => (audited (on_db s db) "key.delete" "ok", None)
            end
  end.
End Service.
