(* ===== verification/BackupCases.v ===== *)
(** * Backups: what the pipeline promises

    The names of objects, what a run leaves in the bucket and what comes back out
    of it, where a job's container or volume is, the consumers of a volume
    ([Backups], [BackupFlow]). *)
From S2P Require Import Prelude GoStd Paths Timestamps Sans VolSources Keyrings Volumes CleanupCases BackupStore Backups BackupFlow.
Local Open Scope string_scope.
Local Open Scope list_scope.
Local Open Scope daffa_scope.
Local Open Scope Z_scope.

(** ** Names of objects *)

Lemma append_cancel a b x y : String.length a = String.length b -> a +:+ x = b +:+ y -> a = b /\ x = y.
Proof.
  revert b. induction a as [|c a IH]; intros [|d b] Hl; try done. simpl in Hl. injection Hl as Hl. rewrite !app_cons_s. intros [= -> E]. destruct (IH b Hl E) as [-> ->]. done.
Qed.
Lemma app_cancel_l p a b : p +:+ a = p +:+ b -> a = b.
Proof. intros E. by apply append_cancel in E as [_ ?]. Qed.
Lemma pad_inj n a b : 0 <= a < 10 ^ Z.of_nat n -> 0 <= b < 10 ^ Z.of_nat n -> pad n a = pad n b -> a = b.
Proof.
  intros Ha Hb E. destruct (Z.lt_trichotomy a b) as [H|[H|H]]; [|done|].
  - pose proof (proj2 (pad_ltb n a b "" "" Ha Hb) (or_introl H)) as Hl. rewrite E in Hl. by rewrite str_ltb_irrefl in Hl.
  - pose proof (proj2 (pad_ltb n b a "" "" Hb Ha) (or_introl H)) as Hl. rewrite E in Hl. by rewrite str_ltb_irrefl in Hl.
Qed.
Lemma pad_split n a b x y : 0 <= a < 10 ^ Z.of_nat n -> 0 <= b < 10 ^ Z.of_nat n -> pad n a +:+ x = pad n b +:+ y -> a = b /\ x = y.
Proof. intros Ha Hb E. apply append_cancel in E as [E ->]; [|by rewrite !pad_length]. split; [by apply (pad_inj n)|done]. Qed.
Lemma stamp_text_inj s t : time_ok s -> time_ok t -> stamp_text s = stamp_text t -> second_of s = second_of t.
Proof.
  intros Hs Ht E. unfold stamp_text, time_ok in *. repeat (apply pad_split in E as [? E]; [|simpl; lia..]).
  apply app_cancel_l in E. repeat (apply pad_split in E as [? E]; [|simpl; lia..]). unfold second_of. congruence.
Qed.
Lemma stamp_text_second a b : in_range a -> in_range b -> stamp_text (UTC a) = stamp_text (UTC b) <-> a / 1000000000 = b / 1000000000.
Proof.
  intros Ha Hb. split.
  - intros E. apply stamp_text_inj in E; [|by apply UTC_ok..]. destruct (Z.lt_trichotomy (a / 1000000000) (b / 1000000000)) as [H|[H|H]]; [|done|].
    + pose proof (UTC_second a b Ha Hb H). lia.
    + pose proof (UTC_second b a Hb Ha H). lia.
  - intros E. unfold UTC. rewrite E. by destruct (civil _) as [[y m] d].
Qed.
Lemma day_text_second a b : a / 1000000000 = b / 1000000000 -> day_text (UTC a) = day_text (UTC b).
Proof. intros E. unfold UTC. rewrite E. by destruct (civil _) as [[y m] d]. Qed.
Lemma stamp_text_length t : String.length (stamp_text t) = 16%nat.
Proof. unfold stamp_text. rewrite !length_app_s, !pad_length. done. Qed.
Lemma day_text_length t : String.length (day_text t) = 10%nat.
Proof. unfold day_text. rewrite !length_app_s, !pad_length. done. Qed.
Lemma objectKey_second prefix base ext a b : in_range a -> in_range b -> objectKey prefix base ext a = objectKey prefix base ext b <-> a / 1000000000 = b / 1000000000.
Proof.
  intros Ha Hb. split.
  - intros E. apply stamp_text_second; [done..|]. unfold objectKey in E.
    assert (day_text (UTC a) +:+ "/" +:+ base +:+ "-" +:+ stamp_text (UTC a) +:+ ext = day_text (UTC b) +:+ "/" +:+ base +:+ "-" +:+ stamp_text (UTC b) +:+ ext) as E2 by (case_bool_decide; [done|]; by do 2 apply app_cancel_l in E).
    apply append_cancel in E2 as [_ E2]; [|by rewrite !day_text_length]. do 3 apply app_cancel_l in E2. by apply append_cancel in E2 as [? _]; [|by rewrite !stamp_text_length].
  - intros E. unfold objectKey. rewrite (day_text_second a b E). by rewrite (proj2 (stamp_text_second a b Ha Hb) E).
Qed.

Lemma Split_slash a b c : strings.Split (a +:+ String c b) c = strings.Split a c ++ strings.Split b c.
Proof.
  induction a as [|x a IH]; [simpl; by rewrite bool_decide_eq_true_2|]. rewrite app_cons_s. simpl. rewrite IH. case_bool_decide; [done|]. by destruct (strings.Split a c) eqn:E; [destruct (Split_not_nil a c)|].
Qed.
Definition dotdot (key : string) : bool := existsb (fun seg => bool_decide (seg = "..")) (strings.Split key "/").
(** A key is a job's when it has no [..] among its segments and is one the job's
    listing shows. *)
Lemma keyUnderPrefix_spec key prefix : keyUnderPrefix key prefix = negb (dotdot key) && strings.HasPrefix key (dir_prefix prefix).
Proof. unfold keyUnderPrefix, dir_prefix. fold (dotdot key). destruct (dotdot key); [done|]. simpl. by case_bool_decide. Qed.
Lemma objectKey_prefix prefix base ext t : strings.HasPrefix (objectKey prefix base ext t) (dir_prefix prefix) = true.
Proof. unfold objectKey, dir_prefix. case_bool_decide; [done|]. apply HasPrefix_spec. eexists. by rewrite app_assoc_s. Qed.

Lemma no_char_cat c a b : no_char c a -> no_char c b -> no_char c (a +:+ b).
Proof. unfold no_char. intros Ha Hb. induction a as [|x a IH]; [done|]. simpl in *. apply orb_false_iff in Ha as [-> Ha]. by apply IH. Qed.
Lemma pad_plain n z : no_char slash (pad n z).
Proof.
  revert z. induction n as [|n IH]; intros z; [done|]. simpl. apply no_char_cat; [apply IH|]. unfold no_char. cbn [strings.has_char]. rewrite orb_false_r. pose proof (Z.mod_pos_bound z 10 ltac:(lia)) as Hm. revert Hm. generalize (z mod 10) as d. intros d Hd.
  assert (forallb (fun x => negb (bool_decide (digit_char x = slash))) [0;1;2;3;4;5;6;7;8;9] = true) as H by (vm_compute; reflexivity). rewrite forallb_elem in H. specialize (H d). cbv beta in H. apply negb_true_iff, H, list_elem_of_In. simpl. lia.
Qed.
Ltac plain := repeat match goal with |- no_char _ (_ +:+ _) => apply no_char_cat | |- no_char _ (pad _ _) => apply pad_plain | |- _ => done end.
Lemma day_plain t : no_char slash (day_text t).
Proof. unfold day_text. plain. Qed.
Lemma stamp_plain t : no_char slash (stamp_text t).
Proof. unfold stamp_text. plain. Qed.
Lemma name_plain base ext t : no_char slash base -> no_char slash ext -> no_char slash (base +:+ "-" +:+ stamp_text t +:+ ext).
Proof. intros Hb He. pose proof (stamp_plain t). plain. Qed.
Lemma objectKey_bare prefix base ext t : no_char slash base -> no_char slash ext -> strings.Trim prefix "/" = "" ->
  strings.Split (objectKey prefix base ext t) "/" = [day_text (UTC t); base +:+ "-" +:+ stamp_text (UTC t) +:+ ext].
Proof.
  intros Hb He Hp. unfold objectKey. cbv zeta. rewrite Hp, bool_decide_eq_true_2 by done.
  change (day_text (UTC t) +:+ "/" +:+ base +:+ "-" +:+ stamp_text (UTC t) +:+ ext) with (day_text (UTC t) +:+ String slash (base +:+ "-" +:+ stamp_text (UTC t) +:+ ext)).
  change "/"%char with slash. rewrite (Split_app (day_text _)), (Split_one (base +:+ _)); [done|by apply name_plain|apply day_plain].
Qed.
Lemma objectKey_segments prefix base ext t : no_char slash base -> no_char slash ext -> strings.Trim prefix "/" <> "" ->
  strings.Split (objectKey prefix base ext t) "/" = strings.Split (strings.Trim prefix "/") "/" ++ [day_text (UTC t); base +:+ "-" +:+ stamp_text (UTC t) +:+ ext].
Proof.
  intros Hb He Hp. unfold objectKey. rewrite bool_decide_eq_false_2 by done.
  change (strings.Trim prefix "/" +:+ "/" +:+ day_text (UTC t) +:+ "/" +:+ base +:+ "-" +:+ stamp_text (UTC t) +:+ ext) with (strings.Trim prefix "/" +:+ String slash (day_text (UTC t) +:+ String slash (base +:+ "-" +:+ stamp_text (UTC t) +:+ ext))).
  change "/"%char with slash. rewrite Split_slash, (Split_app (day_text _)), (Split_one (base +:+ _)); [done|by apply name_plain|apply day_plain].
Qed.
(** What a job writes it may fetch, unless its prefix has a segment [..]. *)
Lemma objectKey_own prefix base ext t : no_char slash base -> no_char slash ext -> keyUnderPrefix (objectKey prefix base ext t) prefix = negb (dotdot (strings.Trim prefix "/")).
Proof.
  intros Hb He. rewrite keyUnderPrefix_spec, objectKey_prefix, andb_true_r. f_equal.
  assert (day_text (UTC t) <> "..") as H1 by (intros E; pose proof (day_text_length (UTC t)) as Hl; by rewrite E in Hl).
  assert (base +:+ "-" +:+ stamp_text (UTC t) +:+ ext <> "..") as H2 by (intros E; apply (f_equal String.length) in E; rewrite !length_app_s, stamp_text_length in E; simpl in E; lia).
  destruct (decide (strings.Trim prefix "/" = "")) as [Ep|Hp].
  - unfold dotdot. rewrite objectKey_bare by done. rewrite Ep. cbn [existsb]. rewrite !(bool_decide_eq_false_2 (_ = "..")) by done. done.
  - unfold dotdot. rewrite objectKey_segments by done. rewrite existsb_app. cbn [existsb]. rewrite !(bool_decide_eq_false_2 (_ = "..")) by done. by rewrite !orb_false_r.
Qed.

(** ** What a run leaves behind *)

Section Pipe.
Context {C : Codec} {L : CodecLaws C}.

(** [data] is a snapshot of [plain] for these recipients, readable by all of
    them and nobody else, or by everybody when it is not encrypted. *)
Definition reads_as (data plain : string) (encrypted : bool) (rs : list string) : Prop :=
  (encrypted = false -> forall id, Decrypt data false id = Ok plain) /\
  (encrypted = true -> (forall id, recipient_of id ∈ rs -> Decrypt data true (Some id) = Ok plain) /\ (forall id, (recipient_of id ∉ rs) -> Decrypt data true (Some id) = Err WrongKey) /\
    Decrypt data true None = Err KeyRequired /\ forall id, Decrypt data false id = Err NotGzip).

Lemma compress_reads data stream d out : compressAndEncrypt data stream d = Ok out -> stream = None /\ out <> "" /\
  exists rs, (ds_encrypt d = true -> parseRecipients (ds_recipients d) = Ok rs) /\ reads_as out data (ds_encrypt d) rs.
Proof.
  unfold compressAndEncrypt. intros H. apply rbind_ok_inv in H as (rs & Hr & H). destruct stream as [e|]; [done|]. injection H as <-. split; [done|]. destruct (ds_encrypt d) eqn:Ee.
  - split; [apply age_header|]. exists rs. split; [done|]. split; [done|]. intros _. unfold Decrypt. simpl. split_and!; [| |done|].
    + intros id Hid. rewrite decrypt_own by done. simpl. by rewrite gunzip_gzip.
    + intros id Hid. by rewrite decrypt_other.
    + intros id. by rewrite age_not_gzip.
  - split; [apply gzip_header|]. exists rs. split; [done|]. split; [|done]. intros _ id. unfold Decrypt. simpl. by rewrite gunzip_gzip.
Qed.
Lemma check_recipients_ok l rs : check_recipients l = Ok rs -> rs = l /\ Forall (fun f => valid_recipient f = true /\ strings.HasPrefix f "AGE-SECRET-KEY-" = false) l.
Proof.
  revert rs. induction l as [|f l IH]; intros rs; cbn [check_recipients]; [intros [= <-]; by split|]. destruct (strings.HasPrefix f "AGE-SECRET-KEY-") eqn:Ep; [done|]. destruct (valid_recipient f) eqn:Ev; [|done]. simpl. intros H. apply rbind_ok_inv in H as (rs' & H & [= <-]). apply IH in H as [-> H]. split; [done|]. by constructor.
Qed.
Lemma length_nonzero s : s <> "" -> (Z.of_nat (String.length s) =? 0) = false.
Proof. destruct s; [done|]. intros _. apply Z.eqb_neq. simpl. lia. Qed.

Lemma Run_ok b s3 exec spec dst now b' k n : Run b s3 exec spec dst now = (b', Ok (k, n)) ->
  k = objectKey (ds_prefix dst) (sp_engine spec) (Extension (sp_engine spec) (ds_encrypt dst)) now /\
  exists cmd data rs, dumpCommand spec = Ok cmd /\ b' = <[k := mkObject data now]> b /\ n = Z.of_nat (String.length data) /\ 0 < n /\
    ex_stream (exec cmd) = None /\ ex_inspect (exec cmd) = Ok 0 /\ (ds_encrypt dst = true -> rs <> [] /\ rs = strings.Fields (ds_recipients dst)) /\ reads_as data (ex_data (exec cmd)) (ds_encrypt dst) rs.
Proof.
  unfold Run. destruct (dumpCommand spec) as [cmd|e]; [|done]. destruct (s3_client s3); [done|]. destruct (ex_start (exec cmd)); [done|].
  unfold upload. destruct (compressAndEncrypt _ _ _) as [data|e] eqn:Ez; [|done]. destruct (s3_put s3); [done|]. apply compress_reads in Ez as (Hs & Hd & rs & Hr & Hx). destruct (wait (exec cmd)) eqn:Ew; [done|].
  rewrite length_nonzero by done. intros [= <- <- <-]. split; [done|]. exists cmd, data, rs. split_and!; try done.
  - destruct data; [done|]. simpl. lia.
  - unfold wait in Ew. destruct (ex_inspect (exec cmd)) as [c|]; [|done]. case_bool_decide; [by subst|done].
  - intros He. specialize (Hr He). unfold parseRecipients in Hr. destruct (strings.Fields (ds_recipients dst)) as [|f l] eqn:Ef; [done|]. by apply check_recipients_ok in Hr as [-> _].
Qed.
Lemma Run_err b s3 exec spec dst now b' e : Run b s3 exec spec dst now = (b', Err e) ->
  let key := objectKey (ds_prefix dst) (sp_engine spec) (Extension (sp_engine spec) (ds_encrypt dst)) now in
  b' = b \/ exists cmd, dumpCommand spec = Ok cmd /\ ex_inspect (exec cmd) <> Ok 0 /\ ((s3_remove s3 = true /\ b' = delete key b) \/ (s3_remove s3 = false /\ exists o, b' = <[key := o]> b)).
Proof.
  unfold Run. destruct (dumpCommand spec) as [cmd|]; [|intros [= <-]; by left]. destruct (s3_client s3); [intros [= <-]; by left|]. destruct (ex_start (exec cmd)); [intros [= <-]; by left|].
  unfold upload. destruct (compressAndEncrypt _ _ _) as [data|] eqn:Ez; [|intros [= <-]; by left]. destruct (s3_put s3); [intros [= <-]; by left|]. apply compress_reads in Ez as (_ & Hd & _).
  destruct (wait (exec cmd)) as [err|] eqn:Ew; [|by rewrite length_nonzero]. intros [= <- _]. right. exists cmd. split_and!; [done| |].
  - unfold wait in Ew. destruct (ex_inspect (exec cmd)) as [c|]; [|done]. case_bool_decide; [done|]. by intros [= ->].
  - unfold removed. destruct (s3_remove s3); [left|right; split; [done|]; by eexists]. split; [done|]. by rewrite delete_insert_eq.
Qed.
Lemma restore_follows spec cmd : dumpCommand spec = Ok cmd -> exists cmd', restoreCommand spec = Ok cmd'.
Proof. unfold dumpCommand, restoreCommand. repeat case_bool_decide; try done; by eexists. Qed.

(** C28: A dump that is reported as stored is the whole dump, and it comes back:
    the command exited with 0 and its stream ended without an error, the run added
    one object and changed no other, a holder of the key of any chosen recipient
    — and nobody else — decrypts it to what the database wrote, and loading it
    feeds exactly that to the restore command. A run that fails adds nothing, but
    for the object of a dump that failed after it was uploaded when it cannot be
    removed again. *)
Theorem dump_comes_back (b : Bucket) (s3 : S3) (exec : list string -> Exec) (spec : Spec) (dst : Dest) (now : Z) :
  match Run b s3 exec spec dst now with
  | (b', Ok (k, n)) =>
      exists cmd plain data rs, dumpCommand spec = Ok cmd /\ ex_inspect (exec cmd) = Ok 0 /\ ex_stream (exec cmd) = None /\ plain = ex_data (exec cmd) /\ (forall k', k' <> k -> b' !! k' = b !! k') /\
        (s3_client s3 = None -> Fetch b' s3 k = Ok data) /\ (ds_encrypt dst = true -> rs <> [] /\ rs = strings.Fields (ds_recipients dst)) /\ reads_as data plain (ds_encrypt dst) rs /\
        forall feed fed out, Load feed spec plain = (fed, Ok out) -> exists cmd', restoreCommand spec = Ok cmd' /\ fed = Some (cmd', plain)
  | (b', Err e) => let key := objectKey (ds_prefix dst) (sp_engine spec) (Extension (sp_engine spec) (ds_encrypt dst)) now in
      (forall k, k <> key -> b' !! k = b !! k) /\ (b' = b \/ exists cmd, dumpCommand spec = Ok cmd /\ ex_inspect (exec cmd) <> Ok 0 /\ (s3_remove s3 = true -> b' !! key = None))
  end.
Proof.
  destruct (Run b s3 exec spec dst now) as [b' [[k n]|e]] eqn:E.
  - apply Run_ok in E as (_ & cmd & data & rs & Hc & -> & _ & _ & Hs & Hi & Hr & Hx). exists cmd, (ex_data (exec cmd)), data, rs. split_and!; try done.
    + intros k' Hk. by rewrite lookup_insert_ne.
    + intros Hs3. unfold Fetch. by rewrite Hs3, lookup_insert_eq.
    + intros feed fed out. destruct (restore_follows spec cmd Hc) as [cmd' Hc']. unfold Load. rewrite Hc'. destruct (fd_start (feed cmd')); [done|]. intros [= <- _]. by exists cmd'.
  - apply Run_err in E as [->|(cmd & Hc & Hi & Hb)]; [split; [done|by left]|]. split.
    + intros k Hk. destruct Hb as [[_ ->]|[_ [o ->]]]; [by rewrite lookup_delete_ne|by rewrite lookup_insert_ne].
    + right. exists cmd. split_and!; [done|done|]. intros Hr. destruct Hb as [[_ ->]|[? _]]; [by rewrite lookup_delete_eq|congruence].
Qed.

Lemma compress_counts data stream d : compressAndEncrypt data stream d <> Err NoData.
Proof.
  assert (parseRecipients (ds_recipients d) <> Err NoData) as Hp.
  { unfold parseRecipients. destruct (strings.Fields _) as [|f l]; [done|]. generalize (f :: l). clear. intros l. induction l as [|f l IH]; [done|]. cbn [check_recipients].
    destruct (strings.HasPrefix f "AGE-SECRET-KEY-"); [done|]. destruct (negb _); [done|]. destruct (check_recipients l); [done|exact IH]. }
  unfold compressAndEncrypt. revert Hp. generalize (parseRecipients (ds_recipients d)). intros r Hp. destruct (ds_encrypt d); [destruct r as [x|e]|]; simpl; try (by destruct stream). congruence.
Qed.

(** The check for a dump without data never fires: what is counted is the size of
    the compressed object, and that is never empty. A dump of nothing that exits
    with 0 is stored and reported as a backup. *)
Theorem empty_dump_is_stored (b : Bucket) (s3 : S3) (exec : list string -> Exec) (spec : Spec) (dst : Dest) (now : Z) :
  (Run b s3 exec spec dst now).2 <> Err NoData /\
  forall cmd, dumpCommand spec = Ok cmd -> exec cmd = mkExec None "" None (Ok 0) "" -> s3_client s3 = None -> s3_put s3 = None -> ds_encrypt dst = false ->
  exists k n, (Run b s3 exec spec dst now).2 = Ok (k, n).
Proof.
  split.
  - unfold Run. destruct (dumpCommand spec) as [cmd|] eqn:Ec; [|unfold dumpCommand in Ec; simpl; intros [= ->]; revert Ec; repeat case_bool_decide; try done; by destruct (splitDatabases _) as [|? [|? ?]]].
    destruct (s3_client s3); [done|]. destruct (ex_start (exec cmd)); [done|].
    unfold upload. destruct (compressAndEncrypt _ _ _) as [data|err] eqn:Ez.
    + destruct (s3_put s3); [done|]. apply compress_reads in Ez as (_ & Hd & _). rewrite length_nonzero by done. destruct (wait (exec cmd)) as [err|] eqn:Ew; [|done].
      simpl. intros [= ->]. unfold wait in Ew. destruct (ex_inspect _); [|done]. by case_bool_decide.
    + simpl. intros [= ->]. by apply compress_counts in Ez.
  - intros cmd Hc He H1 H2 H3. unfold Run. rewrite Hc, H1, He. simpl. unfold upload, compressAndEncrypt. rewrite H3. simpl. rewrite H2. unfold wait. simpl. rewrite length_nonzero by apply gzip_header. by do 2 eexists.
Qed.

(** The name of a snapshot says when and with which engine, not of what: two
    jobs with the same prefix, engine and encryption write to different names
    exactly when they do it in different seconds; in the same second both report
    success, and what the first one stored is gone. *)
Theorem same_second_overwrites (b : Bucket) (s3 s3' : S3) (exec exec' : list string -> Exec) (spec spec' : Spec) (dst dst' : Dest) (now now' : Z) (b1 b2 : Bucket) (k k' : string) (n n' : Z) :
  sp_engine spec = sp_engine spec' -> ds_prefix dst = ds_prefix dst' -> ds_encrypt dst = ds_encrypt dst' -> in_range now -> in_range now' ->
  Run b s3 exec spec dst now = (b1, Ok (k, n)) -> Run b1 s3' exec' spec' dst' now' = (b2, Ok (k', n')) ->
  (k = k' <-> now / 1000000000 = now' / 1000000000) /\
  exists cmd data rs, dumpCommand spec' = Ok cmd /\ b2 !! k' = Some (mkObject data now') /\ reads_as data (ex_data (exec' cmd)) (ds_encrypt dst') rs /\ (k = k' -> b2 !! k = Some (mkObject data now')) /\ (k <> k' -> b2 !! k = b1 !! k).
Proof.
  intros He Hp Hd Hn Hn' (Hk & _)%Run_ok (Hk' & cmd & data & rs & Hc & -> & _ & _ & _ & _ & _ & Hx)%Run_ok. split.
  - rewrite Hk, Hk', He, Hp, Hd. by apply objectKey_second.
  - exists cmd, data, rs. split_and!; [done|by rewrite lookup_insert_eq|done|intros ->; by rewrite lookup_insert_eq|intros Hne; by rewrite lookup_insert_ne].
Qed.
End Pipe.

(** ** Where a job's container or volume is *)

Lemma find_first {A} (p : A -> bool) l x : List.find p l = Some x -> exists pre post, l = pre ++ x :: post /\ p x = true /\ forall y, y ∈ pre -> p y = false.
Proof.
  induction l as [|y l IH]; [done|]. simpl. destruct (p y) eqn:E.
  - intros [= ->]. exists [], l. split_and!; [done|done|]. by intros z ?%not_elem_of_nil.
  - intros H. destruct (IH H) as (pre & post & -> & Hx & Hp). exists (y :: pre), post. split_and!; [done|done|]. intros z [->|Hz]%elem_of_cons; [done|by apply Hp].
Qed.
Lemma find_none_all {A} (p : A -> bool) l : List.find p l = None <-> forall y, y ∈ l -> p y = false.
Proof.
  induction l as [|y l IH]; simpl; [split; [by intros _ z ?%not_elem_of_nil|done]|]. destruct (p y) eqn:E; [split; [done|]; intros H; by rewrite (H y ltac:(by left)) in E|]. rewrite IH. split.
  - intros H z [->|Hz]%elem_of_cons; [done|by apply H].
  - intros H z Hz. apply H. by right.
Qed.
(** No container of the node is known to be [ref]'s. *)
Definition nothing_for (ref : string) (n : Node) : Prop := forall l c, ListContainers n = Some l -> c ∈ l -> container_is ref c = false.
Lemma find_container_spec ref ns : match find_container ref ns with
  | Ok (n, name) => exists pre post c before after, ns = pre ++ n :: post /\ nd_answers n = true /\ (forall m, m ∈ pre -> nothing_for ref m) /\
      List.filter ct_up (nd_containers n) = before ++ c :: after /\ name = ct_name c /\ container_is ref c = true /\ forall c', c' ∈ before -> container_is ref c' = false
  | Err e => e = NoSuchContainer ref /\ forall m, m ∈ ns -> nothing_for ref m
  end.
Proof.
  induction ns as [|n ns IH]; simpl; [split; [done|]; by intros m ?%not_elem_of_nil|].
  assert (nothing_for ref n -> match find_container ref ns with
    | Ok (n', name) => exists pre post c before after, n :: ns = pre ++ n' :: post /\ nd_answers n' = true /\ (forall m, m ∈ pre -> nothing_for ref m) /\
        List.filter ct_up (nd_containers n') = before ++ c :: after /\ name = ct_name c /\ container_is ref c = true /\ forall c', c' ∈ before -> container_is ref c' = false
    | Err e => e = NoSuchContainer ref /\ forall m, m ∈ n :: ns -> nothing_for ref m end) as Hskip.
  { intros Hn. destruct (find_container ref ns) as [[n' name]|e].
    - destruct IH as (pre & post & c & before & after & -> & H1 & H2 & H). exists (n :: pre), post, c, before, after. split_and!; [done|done| |apply H..]. intros m [->|Hm]%elem_of_cons; [done|by apply H2].
    - destruct IH as [-> H]. split; [done|]. intros m [->|Hm]%elem_of_cons; [done|by apply H]. }
  unfold ListContainers in *. destruct (nd_answers n) eqn:Ea; [|apply Hskip; unfold nothing_for, ListContainers; rewrite Ea; done].
  destruct (List.find (container_is ref) _) as [c|] eqn:Ef.
  - apply find_first in Ef as (before & after & E & Hc & Hb). exists [], ns, c, before, after. split_and!; try done. by intros m ?%not_elem_of_nil.
  - apply Hskip. unfold nothing_for, ListContainers. rewrite Ea. intros l c [= <-] Hin. exact (proj1 (find_none_all _ _) Ef c Hin).
Qed.

(** A backup runs in the container it finds now: on one node that is no swarm
    the one the job names; otherwise the first running one, by node and in the
    daemon's order, whose name is the job's, or starts with it and a dot, or whose
    id starts with it; when no node that answers runs one, it is refused. A volume
    is backed up from the only node that answers with it, and refused when there
    is none or more than one. *)
Theorem backup_subject (e : Env) (ref volume : string) :
  match backupNode (Some e) ref with
  | Ok (n, name) => (ev_nodes e = [n] /\ ev_swarm e = false /\ name = ref) \/
      exists pre post c before after, ev_nodes e = pre ++ n :: post /\ nd_answers n = true /\ (forall m, m ∈ pre -> nothing_for ref m) /\ List.filter ct_up (nd_containers n) = before ++ c :: after /\
        name = ct_name c /\ (ct_name c = ref \/ strings.HasPrefix (ct_id c) ref = true \/ strings.HasPrefix (ct_name c) (ref +:+ ".") = true) /\ forall c', c' ∈ before -> container_is ref c' = false
  | Err _ => forall m, m ∈ ev_nodes e -> nothing_for ref m
  end /\
  match volumeNode (Some e) volume false with
  | Ok n => n ∈ ev_nodes e /\ VolumeInspect n volume = true /\ forall m, m ∈ ev_nodes e -> VolumeInspect m volume = true -> m = n
  | Err (NoSuchVolume _) => forall m, m ∈ ev_nodes e -> VolumeInspect m volume = false
  | Err (VolumeOnMany _ names) => exists a b l, List.filter (fun m => VolumeInspect m volume) (ev_nodes e) = a :: b :: l /\ names = map nd_name (a :: b :: l)
  | Err _ => False
  end.
Proof.
  split.
  - pose proof (find_container_spec ref (ev_nodes e)) as Hs. assert (match find_container ref (ev_nodes e) with
      | Ok (n, name) => exists pre post c before after, ev_nodes e = pre ++ n :: post /\ nd_answers n = true /\ (forall m, m ∈ pre -> nothing_for ref m) /\ List.filter ct_up (nd_containers n) = before ++ c :: after /\
          name = ct_name c /\ (ct_name c = ref \/ strings.HasPrefix (ct_id c) ref = true \/ strings.HasPrefix (ct_name c) (ref +:+ ".") = true) /\ forall c', c' ∈ before -> container_is ref c' = false
      | Err _ => forall m, m ∈ ev_nodes e -> nothing_for ref m end) as H.
    { destruct (find_container ref (ev_nodes e)) as [[n name]|]; [|by destruct Hs]. destruct Hs as (pre & post & c & before & after & H1 & H2 & H3 & H4 & H5 & H6 & H7). exists pre, post, c, before, after. split_and!; try done.
      unfold container_is in H6. apply orb_prop in H6 as [[H6|?]%orb_prop|?]; [left; by apply bool_decide_eq_true in H6|by right; left|by right; right]. }
    clear Hs. unfold backupNode, One. destruct (ev_nodes e) as [|n [|m l]] eqn:En; [exact H| |].
    + destruct (ev_swarm e); [|by left]. destruct (find_container ref [n]) as [[n' name]|]; [by right|exact H].
    + destruct (find_container ref (n :: m :: l)) as [[n' name]|]; [by right|exact H].
  - unfold volumeNode. destruct (List.filter _ (ev_nodes e)) as [|n [|m l]] eqn:Ef.
    + intros m Hm. destruct (VolumeInspect m volume) eqn:Ev; [|done]. assert (m ∈ List.filter (fun n => VolumeInspect n volume) (ev_nodes e)) as Hin by (by apply elem_of_filter_b). rewrite Ef in Hin. by apply not_elem_of_nil in Hin.
    + assert (n ∈ List.filter (fun n => VolumeInspect n volume) (ev_nodes e)) as Hin by (rewrite Ef; by left). apply elem_of_filter_b in Hin as [Hn Hv]. split_and!; [done|done|].
      intros m Hm Hmv. assert (m ∈ List.filter (fun n => VolumeInspect n volume) (ev_nodes e)) as Hin by (by apply elem_of_filter_b). rewrite Ef in Hin. by apply list_elem_of_singleton in Hin.
    + by exists n, m, l.
Qed.

(** ** The consumers of a volume *)

(** A container after a snapshot for which [did] were stopped: started again,
    unless that failed. *)
Definition settled (calls : Calls) (did : list string) (c : Container) : Container :=
  if bool_decide (ct_name c ∈ did) then mkContainer (ct_name c) (ct_id c) (match start_fails calls (ct_name c) with None => true | Some _ => false end) else c.
Definition halted (did : list string) (c : Container) : Container := if bool_decide (ct_name c ∈ did) then mkContainer (ct_name c) (ct_id c) false else c.
Definition restarted (calls : Calls) (did : list string) (c : Container) : Container :=
  if bool_decide (ct_name c ∈ did) && bool_decide (start_fails calls (ct_name c) = None) then mkContainer (ct_name c) (ct_id c) true else c.

(** What the stop that failed, the first of [rest], left. *)
Definition after_failed (calls : Calls) (rest : list string) (l : list Container) : list Container :=
  match rest with name :: _ => if stop_lost calls name then set_up false name l else l | [] => l end.

Lemma set_up_absent up name l : (name ∉ map ct_name l) -> set_up up name l = l.
Proof.
  unfold set_up. intros Hn. rewrite <- (map_id l) at 2. apply map_ext_in. intros c Hc%list_elem_of_In. rewrite bool_decide_eq_false_2; [done|]. intros <-. apply Hn. apply list_elem_of_fmap. by exists c.
Qed.
Lemma after_failed_halted calls rest did l : after_failed calls rest (map (halted did) l) = map (halted did) (after_failed calls rest l).
Proof.
  unfold after_failed. destruct rest as [|name rest]; [done|]. destruct (stop_lost calls name); [|done]. unfold set_up. rewrite !map_map. apply map_ext. intros c. unfold halted.
  repeat (case_bool_decide; simpl in *; try done).
Qed.
Lemma restart_spec calls stopped : forall l, (restart calls stopped l).1 = map (restarted calls stopped) l /\ ((restart calls stopped l).2 = [] <-> Forall (fun n => start_fails calls n = None) stopped).
Proof.
  induction stopped as [|n ns IH]; intros l; cbn [restart].
  { split; [|by split]. symmetry. rewrite <- (map_id l) at 2. apply map_ext. intros c. unfold restarted. by rewrite bool_decide_eq_false_2 by apply not_elem_of_nil. }
  unfold ContainerStart. destruct (start_fails calls n) as [e|] eqn:E.
  - destruct (IH l) as [H1 H2]. destruct (restart calls ns l) as [l' errs]. simpl in *. split; [|split; [done|]; intros Hf; inversion Hf; congruence]. rewrite H1. apply map_ext. intros c. unfold restarted.
    destruct (decide (ct_name c = n)) as [->|Hne]; [rewrite E, (bool_decide_eq_false_2 (Some e = None)), !andb_false_r by done; done|]. assert (bool_decide (ct_name c ∈ ns) = bool_decide (ct_name c ∈ n :: ns)) as -> by (apply bool_decide_ext; rewrite elem_of_cons; naive_solver). done.
  - destruct (IH (set_up true n l)) as [H1 H2]. destruct (restart calls ns (set_up true n l)) as [l' errs]. simpl in *. split; [|rewrite H2, Forall_cons; naive_solver]. rewrite H1. unfold set_up. rewrite map_map. apply map_ext. intros c. unfold restarted.
    destruct (decide (ct_name c = n)) as [En|Hne].
    + rewrite (bool_decide_eq_true_2 (ct_name c = n)) by done. cbn [ct_name ct_id]. rewrite En, E, (bool_decide_eq_true_2 (n ∈ n :: ns)) by (by left). simpl. by destruct (_ && _).
    + rewrite (bool_decide_eq_false_2 (ct_name c = n)) by done. assert (bool_decide (ct_name c ∈ ns) = bool_decide (ct_name c ∈ n :: ns)) as -> by (apply bool_decide_ext; rewrite elem_of_cons; naive_solver). done.
Qed.
Lemma stop_all_spec calls names : forall stopped l l0, l = map (halted stopped) l0 ->
  match stop_all calls names stopped l with
  | (l', Ok all) => all = rev names ++ stopped /\ l' = map (halted all) l0
  | (l', Err e) => exists did n rest err, names = did ++ n :: rest /\ e = StopFailed n err /\ l' = (restart calls (rev did ++ stopped) (map (halted (rev did ++ stopped)) (after_failed calls (n :: rest) l0))).1
  end.
Proof.
  induction names as [|n names IH]; intros stopped l l0 ->; cbn [stop_all]; [done|]. unfold ContainerStop.
  assert (forall err, exists did n' rest err', n :: names = did ++ n' :: rest /\ StopFailed n err = StopFailed n' err' /\ (restart calls stopped (after_failed calls (n :: names) (map (halted stopped) l0))).1 = (restart calls (rev did ++ stopped) (map (halted (rev did ++ stopped)) (after_failed calls (n' :: rest) l0))).1) as Hfail.
  { intros err. exists [], n, names, err. by rewrite after_failed_halted. }
  destruct (negb _) eqn:Eabs.
  { apply negb_true_iff, bool_decide_eq_false in Eabs. assert (after_failed calls (n :: names) (map (halted stopped) l0) = map (halted stopped) l0) as <- by (simpl; rewrite (set_up_absent false n) by done; by destruct (stop_lost calls n)). apply Hfail. }
  destruct (stop_fails calls n) as [err|]; [apply Hfail|].
  assert (set_up false n (map (halted stopped) l0) = map (halted (n :: stopped)) l0) as ->.
  { unfold set_up. rewrite map_map. apply map_ext. intros c. unfold halted. destruct (decide (ct_name c = n)) as [En|Hne].
    - rewrite (bool_decide_eq_true_2 (ct_name c ∈ n :: stopped)) by (rewrite En; by left). destruct (bool_decide (ct_name c ∈ stopped)); cbn [ct_name ct_id]; by rewrite bool_decide_eq_true_2.
    - assert (bool_decide (ct_name c ∈ n :: stopped) = bool_decide (ct_name c ∈ stopped)) as -> by (apply bool_decide_ext; rewrite elem_of_cons; naive_solver). destruct (bool_decide (ct_name c ∈ stopped)); cbn [ct_name ct_id]; by rewrite bool_decide_eq_false_2. }
  specialize (IH (n :: stopped) _ l0 eq_refl). destruct (stop_all calls names (n :: stopped) _) as [l' [all|e]].
  - destruct IH as [-> ->]. cbn [rev]; by rewrite <- app_assoc.
  - destruct IH as (did & n' & rest & err & -> & -> & ->). exists (n :: did), n', rest, err. simpl. by rewrite <- app_assoc.
Qed.
Lemma settled_restarted calls did l : map (restarted calls did) (map (halted did) l) = map (settled calls did) l.
Proof.
  rewrite map_map. apply map_ext. intros c. unfold restarted, halted, settled. destruct (decide (ct_name c ∈ did)) as [Hin|Hin].
  - rewrite (bool_decide_eq_true_2 (ct_name c ∈ did)) by done. cbn [ct_name ct_id]. rewrite (bool_decide_eq_true_2 (ct_name c ∈ did)) by done. simpl. by destruct (start_fails calls (ct_name c)).
  - by rewrite !(bool_decide_eq_false_2 (ct_name c ∈ did)) by done.
Qed.
Lemma settled_rev calls did l : map (settled calls (rev did)) l = map (settled calls did) l.
Proof. apply map_ext. intros c. unfold settled. assert (bool_decide (ct_name c ∈ rev did) = bool_decide (ct_name c ∈ did)) as -> by (apply bool_decide_ext; rewrite !list_elem_of_In; symmetry; apply in_rev). done. Qed.

Section Service.
Context {C : Codec} {L : CodecLaws C} {T : TarFormat} {TL : TarLaws T} (Seal Open : string -> option string) (cron_ok : string -> bool) (text : SvcErr -> string).
#[local] Abbreviation volume_backup := (performVolumeBackup Open).

(** What comes out of the bucket part of a volume backup. *)
Lemma RunVolume_spec b s3 data stream volume dst now : match RunVolume b s3 data stream volume dst now with
  | (b', Ok (k, n)) => k = objectKey (ds_prefix dst) ("volume-" +:+ volume) (Extension VolumeEngine (ds_encrypt dst)) now /\ stream = None /\
      exists stored rs, b' = <[k := mkObject stored now]> b /\ (ds_encrypt dst = true -> parseRecipients (ds_recipients dst) = Ok rs) /\ reads_as stored data (ds_encrypt dst) rs
  | (b', Err _) => b' = b
  end.
Proof.
  unfold RunVolume. destruct (s3_client s3); [done|]. unfold upload. destruct (compressAndEncrypt data stream dst) as [stored|e] eqn:Ez; [|done]. destruct (s3_put s3); [done|].
  apply compress_reads in Ez as (Hs & Hd & rs & Hr & Hx). rewrite length_nonzero by done. split_and!; [done|done|]. by exists stored, rs.
Qed.

(** C31: In whatever way a backup ends, every container it stopped for the snapshot
    is asked to start again, and is up unless the daemon refused that; no other
    container is touched, but one whose stop is said to have failed and took
    effect, which stays down. Nothing is stored unless all of them could be
    stopped; and then a consumer the daemon refused to start makes the run an
    error even though the snapshot is stored. *)
Theorem consumers_come_back (db : BDB) (bs : Buckets) (we : Weather) (job : BackupJob) (now : Z) :
  match volume_backup db bs we job now with
  | (bs', out, None) => bs' = bs /\ out.1 = None /\ out.2 <> None
  | (bs', out, Some (node, l)) => exists n did rest, volumeNode (we_env we (j_env job)) (j_volume job) false = Ok n /\ node = nd_name n /\
      strings.Fields (j_stop job) = did ++ rest /\ l = map (settled (we_calls we) did) (after_failed (we_calls we) rest (nd_containers n)) /\
      match rest with
      | [] => out.2 = None -> forall name, name ∈ did -> start_fails (we_calls we) name = None
      | name :: _ => bs' = bs /\ exists e, out = (None, Some (StopFailed name e))
      end
  end.
Proof.
  unfold performVolumeBackup. destruct (volumeNode _ _ _) as [n|e]; [|done]. destruct (jobConfig Open db job) as [[sp dst]|e]; [|done].
  unfold stopForSnapshot. pose proof (stop_all_spec (we_calls we) (strings.Fields (j_stop job)) [] (nd_containers n) (nd_containers n)) as Hs.
  assert (nd_containers n = map (halted []) (nd_containers n)) as Hh by (rewrite <- (map_id (nd_containers n)) at 1; by apply map_ext). specialize (Hs Hh).
  destruct (stop_all _ _ _ _) as [l [stopped|e]].
  - destruct Hs as [-> ->]. rewrite app_nil_r in *. destruct (restart_spec (we_calls we) (rev (strings.Fields (j_stop job))) (map (halted (rev (strings.Fields (j_stop job)))) (nd_containers n))) as [H1 H2].
    assert (forall bs1 (out1 : Outcome), match (let '(l, errs) := restart (we_calls we) (rev (strings.Fields (j_stop job))) (map (halted (rev (strings.Fields (j_stop job)))) (nd_containers n)) in
        (bs1, match errs with [] => out1 | _ => (out1.1, Some (match out1.2 with Some e => AndAfterwards e errs | None => RestartFailed errs end)) end, Some (nd_name n, l))) with
      | (bs', out, None) => bs' = bs /\ out.1 = None /\ out.2 <> None
      | (bs', out, Some (node, l)) => exists n' did rest, Ok n = (Ok n' : res SvcErr Node) /\ node = nd_name n' /\ strings.Fields (j_stop job) = did ++ rest /\ l = map (settled (we_calls we) did) (after_failed (we_calls we) rest (nd_containers n')) /\
          match rest with [] => out.2 = None -> forall name, name ∈ did -> start_fails (we_calls we) name = None | name :: _ => bs' = bs /\ exists e, out = (None, Some (StopFailed name e)) end end) as Hend.
    { intros bs1 out1. destruct (restart _ _ _) as [l' errs]. simpl in H1, H2. exists n, (strings.Fields (j_stop job)), []. split_and!; [done|done|by rewrite app_nil_r|by rewrite H1, settled_restarted, settled_rev|].
      destruct errs as [|x errs]; [|done]. intros _ name Hin. destruct H2 as [H2 _]. specialize (H2 eq_refl). rewrite Forall_forall in H2. apply H2. by apply list_elem_of_In, in_rev; rewrite rev_involutive; apply list_elem_of_In. }
    destruct (Snapshot _ _) as [archive|e]; [|apply (Hend bs)]. destruct (RunVolume _ _ _ _ _ _ _) as [b r]. apply Hend.
  - destruct Hs as (did & name & rest & err & E & -> & ->). rewrite app_nil_r in *. exists n, did, (name :: rest). split_and!; [done|done|done| |done|by eexists].
    destruct (restart_spec (we_calls we) (rev did) (map (halted (rev did)) (after_failed (we_calls we) (name :: rest) (nd_containers n)))) as [-> _]. by rewrite settled_restarted, settled_rev.
Qed.

Lemma empty_look (disk : Disk) vol (w : Volume) dirs : disk !! vol = Some w -> clean_volume w -> IsEmpty disk vol dirs = Ok true -> w = ∅.
Proof.
  intros Hd Hw. unfold IsEmpty, Snapshot. rewrite Hd. intros [= H]. apply map_eq. intros n. rewrite lookup_empty. destruct (w !! n) as [b|] eqn:E; [|done]. exfalso.
  destruct (Hw n b E) as (Hc & Ha & Hn). rewrite forallb_elem in H. assert (In ("./" +:+ n) (dirs ++ map fst (map (fun e : string * Blob => ("./" +:+ e.1, e.2)) (map_to_list w)))) as Hin.
  { apply in_or_app. right. rewrite map_map. apply (in_map (fun e : string * Blob => "./" +:+ e.1) (map_to_list w) (n, b)). apply list_elem_of_In. by apply elem_of_map_to_list. }
  apply list_elem_of_In in Hin. specialize (H _ Hin). apply bool_decide_eq_true in H. unfold cleanEntryName in H. rewrite Clean_dot, Hc in H by done. rewrite (bool_decide_eq_false_2 (n = ".")) in H by done.
  assert (bool_decide (n = "/") = false) as E1 by (apply bool_decide_eq_false; by intros ->). rewrite E1 in H. simpl in H. destruct (decide (n = "")) as [->|Hne]; [vm_compute in Hc; discriminate|]. by rewrite bool_decide_eq_false_2 in H.
Qed.
(** What a restore that went through has put where. *)
Lemma restore_lands s env vc job wipe archive s' node disk' : (forall m w, volumeNode env (j_volume job) true = Ok m -> nd_disk m !! j_volume job = Some w -> clean_volume w) -> vc_inspect vc = true ->
  restoreVolume s env vc job wipe archive = (s', Some (node, disk'), Restored) -> (vc_users vc = Some [] \/ vc_users vc = None) /\ volume_of disk' (j_volume job) = extract archive ∅.
Proof.
  intros Hc Hi. unfold restoreVolume. destruct (volumeNode env (j_volume job) true) as [m|e]; [|done]. specialize (Hc m). rewrite Hi.
  assert (forall d : Disk, volume_of d (j_volume job) = ∅ -> (let s0 := audited s "backup.restore" "ok" in let '(disk, done) := Restore d (j_volume job) archive (vc_write vc) in
      if done then (audited s0 "backup.restore" "ok", Some (nd_name m, disk), Restored) else (audited s0 "backup.restore" "error", Some (nd_name m, disk), VolumeRestoreFailed)) = (s', Some (node, disk'), Restored) ->
      volume_of disk' (j_volume job) = extract archive ∅) as Hw.
  { intros d Hd. unfold Restore. destruct (vc_write vc) as [| |n]; simpl; try done. intros [= _ _ <-]. unfold volume_of at 1. rewrite lookup_insert_eq. simpl. by rewrite Hd. }
  assert (forall r : Server * option (string * Disk) * RestoreReply, (r = (s', Some (node, disk'), Restored) -> volume_of disk' (j_volume job) = extract archive ∅) ->
    match vc_users vc with Some (u :: us) => (s, None, VolumeInUse (u :: us)) | _ => r end = (s', Some (node, disk'), Restored) -> (vc_users vc = Some [] \/ vc_users vc = None) /\ volume_of disk' (j_volume job) = extract archive ∅) as Hu.
  { intros r Hr. destruct (vc_users vc) as [[|u us]|]; [|done|]; intros E; (split; [|by apply Hr]); [by left|by right]. }
  apply Hu. clear Hu. rewrite andb_true_l. destruct (nd_disk m !! j_volume job) as [w|] eqn:Ew.
  - specialize (Hc w eq_refl eq_refl). rewrite (bool_decide_eq_true_2 (is_Some (Some w))) by done. simpl. destruct wipe; simpl.
    + unfold Wipe. rewrite Ew. destruct (vc_wipe vc); simpl; [|done]. apply Hw. unfold volume_of. by rewrite lookup_insert_eq.
    + destruct (vc_look vc); [|done]. destruct (IsEmpty (nd_disk m) (j_volume job) ["./"]) as [[]|] eqn:Ee; try done. apply Hw. unfold volume_of. rewrite Ew. simpl. by eapply empty_look.
  - rewrite (bool_decide_eq_false_2 (is_Some None)) by (by intros [? ?]). simpl. apply Hw. unfold volume_of. by rewrite Ew.
Qed.

(** C29: A volume that was backed up comes back: whoever may read the stored
    snapshot gets the archive the daemon made, and a restore of that archive that
    is reported as done leaves the volume — a new one, one that was found empty
    or one that was wiped — with exactly the files it held, less those under an
    excluded path, provided that the daemon answered the restore's question
    whether the volume is there. When it does not, the restore may merge:
    [failed_look_merges]. *)
Theorem volume_comes_back (db : BDB) (bs bs' : Buckets) (we : Weather) (job : BackupJob) (now sz : Z) (n : Node) (v : Volume) (k : string) (err : option SvcErr) (x : option (string * list Container)) :
  volumeNode (we_env we (j_env job)) (j_volume job) false = Ok n -> nd_disk n !! j_volume job = Some v -> clean_volume v ->
  volume_backup db bs we job now = (bs', (Some (k, sz), err), x) ->
  exists spec dst archive stored rs, jobConfig Open db job = Ok (spec, dst) /\ bucket_of bs' dst !! k = Some (mkObject stored now) /\ reads_as stored (tar archive) (ds_encrypt dst) rs /\
    (ds_encrypt dst = true -> parseRecipients (ds_recipients dst) = Ok rs) /\ untar (tar archive) = Some archive /\
    forall s env vc wipe s' node disk', vc_inspect vc = true -> (forall m w, volumeNode env (j_volume job) true = Ok m -> nd_disk m !! j_volume job = Some w -> clean_volume w) ->
      restoreVolume s env vc job wipe archive = (s', Some (node, disk'), Restored) ->
      forall name, volume_of disk' (j_volume job) !! name = if existsb (under name) (cleanExcludes (splitExcludes (j_exclude job))) then None else v !! name.
Proof.
  intros Hn Hv Hc. unfold performVolumeBackup. rewrite Hn. destruct (jobConfig Open db job) as [[sp dst]|e]; [|done]. destruct (stopForSnapshot _ _ _) as [l [stopped|e]]; [|done].
  unfold Snapshot. rewrite Hv. set (es := map (fun e => ("./" +:+ e.1, e.2)) (map_to_list v)). set (src := FilterTar (es, we_stream we) (splitExcludes (j_exclude job))).
  pose proof (RunVolume_spec (bucket_of bs dst) (we_s3 we) (tar src.1) src.2 (j_volume job) dst now) as Hr. destruct (RunVolume _ _ _ _ _ _ _) as [b [[k' n']|e]]; [|destruct (restart _ _ _) as [l' [|? ?]]; done].
  destruct Hr as (_ & _ & stored & rs & -> & Hp & Hx). intros E. assert (k' = k /\ bs' = put_bucket bs dst (<[k' := mkObject stored now]> (bucket_of bs dst))) as [-> ->] by (destruct (restart _ _ _) as [l' [|? ?]]; by injection E as <- <- _ _).
  exists sp, dst, src.1, stored, rs. split_and!; [done| |done|done|apply untar_tar|].
  - unfold bucket_of at 1, put_bucket. rewrite lookup_insert_eq. simpl. by rewrite lookup_insert_eq.
  - intros s env vc wipe s' node disk' Hi Hm Hrest name. destruct (restore_lands s env vc job wipe src.1 s' node disk' Hm Hi Hrest) as [_ ->]. unfold src, es.
    assert ((FilterTar (map (fun e => ("./" +:+ e.1, e.2)) (map_to_list v), we_stream we) (splitExcludes (j_exclude job))).1 = (FilterTar (map (fun e => ("./" +:+ e.1, e.2)) (map_to_list v), None : option string) (splitExcludes (j_exclude job))).1) as -> by (unfold FilterTar; by destruct (cleanExcludes _)).
    by apply restored_files.
Qed.
End Service.
