(* ===== verification/BackupRuns.v ===== *)
(** * Backups: the server over time

    The tables under every operation, what an encrypted job keeps writing whatever
    is done around it, the record of runs, the guards of a restore ([BackupStore],
    [BackupFlow]). *)
From S2P Require Import Prelude GoStd Paths Timestamps Sans VolSources Keyrings Volumes CleanupCases BackupStore Backups BackupFlow BackupCases.
Local Open Scope string_scope.
Local Open Scope list_scope.
Local Open Scope daffa_scope.
Local Open Scope Z_scope.

(** ** Recipients *)

Lemma visible_alnum : visible is_alnum.
Proof. intros c. destruct c as [[] [] [] [] [] [] [] []]; intros Hc; try done; by vm_compute. Qed.

Section Tables.
Context {C : Codec}.

(** A public key as the age library prints it. *)
Definition good_recipient (r : string) : Prop := valid_recipient r = true /\ strings.all_chars is_alnum r = true /\ r <> "".
Lemma good_public r : good_recipient r -> strings.HasPrefix r "AGE-SECRET-KEY-" = false.
Proof.
  intros (_ & Ha & _). destruct (strings.HasPrefix r "AGE-SECRET-KEY-") eqn:E; [|done]. exfalso. apply HasPrefix_spec in E as [t ->]. do 4 (rewrite app_cons_s, all_chars_cons in Ha; apply andb_prop in Ha as [? Ha]). done.
Qed.
Lemma parse_joined rs : Forall good_recipient rs -> rs <> [] -> parseRecipients (strings.Join rs " ") = Ok rs.
Proof.
  intros Hg Hne. unfold parseRecipients. rewrite (Fields_Join is_alnum); [|apply visible_alnum|eapply Forall_impl; [exact Hg|]; by intros r (_ & ? & ?)].
  destruct rs as [|r rs]; [done|]. clear Hne. generalize dependent (r :: rs). clear. intros l Hg. induction Hg as [|r l Hr Hl IH]; [done|]. cbn [check_recipients]. rewrite (good_public r) by done. destruct Hr as (-> & _ & _). cbn [negb]. by rewrite IH.
Qed.

(** ** The tables, whatever is done *)

Record bdb_ok (db : BDB) : Prop := {
  ok_jobs : NoDup (map j_id (jobs db));
  ok_names : NoDup (map (fun j => (j_env j, j_name j)) (jobs db));
  ok_keys : NoDup (map ek_id (ekeys db));
  ok_runs : NoDup (map r_id (runs db));
  ok_refs : forall j, j ∈ jobs db -> j_env j ∈ envs db /\ j_storage j ∈ map st_id (targets db);
  ok_links : forall j k, (j, k) ∈ job_keys db -> j ∈ map j_id (jobs db) /\ k ∈ map ek_id (ekeys db);
  ok_encrypted : forall j, j ∈ jobs db -> Encrypted j = true -> exists k, (j_id j, k) ∈ job_keys db;
  ok_run_job : forall r, r ∈ runs db -> r_job r ∈ map j_id (jobs db);
  ok_public : Forall good_recipient (map ek_recipient (ekeys db)) }.

(** A job that is still there encrypts as before, to the same keys, unchanged. *)
Definition keeps (db db' : BDB) : Prop := forall j, j ∈ jobs db -> j_id j ∈ map j_id (jobs db') -> exists j', j' ∈ jobs db' /\ j_id j' = j_id j /\ j_encryption j' = j_encryption j /\
  (forall k, (j_id j, k) ∈ job_keys db' <-> (j_id j, k) ∈ job_keys db) /\ forall k, k ∈ ekeys db -> (j_id j, ek_id k) ∈ job_keys db -> k ∈ ekeys db'.
Definition sound (db db' : BDB) : Prop := bdb_ok db' /\ keeps db db'.

Lemma sound_refl db : bdb_ok db -> sound db db.
Proof. intros Hok. split; [done|]. intros j Hj _. by exists j. Qed.
Lemma id_of {A} (f : A -> string) l x y : NoDup (map f l) -> x ∈ l -> y ∈ l -> f x = f y -> x = y.
Proof.
  induction l as [|z l IH]; simpl; intros Hn Hx Hy E; [by apply not_elem_of_nil in Hx|]. apply NoDup_cons in Hn as [Hz Hn]. apply elem_of_cons in Hx as [->|Hx], Hy as [->|Hy]; [done| | |by apply IH].
  - destruct Hz. rewrite E. by apply list_elem_of_fmap; exists y.
  - destruct Hz. rewrite <- E. by apply list_elem_of_fmap; exists x.
Qed.
Lemma in_map_id {A} (f : A -> string) (l : list A) x : x ∈ l -> f x ∈ map f l.
Proof. intros Hx. apply list_elem_of_fmap. by exists x. Qed.

(** A change that leaves jobs, links and the keys in use alone. *)
Lemma sound_same db db' : bdb_ok db' -> jobs db' = jobs db -> job_keys db' = job_keys db -> (forall k, k ∈ ekeys db -> (exists j, (j, ek_id k) ∈ job_keys db) -> k ∈ ekeys db') -> sound db db'.
Proof. intros Hok Hj Hl Hk. split; [done|]. intros j Hin _. exists j. rewrite Hj, Hl. split_and!; try done. intros k Hin' Hlk. apply Hk; [done|]. by eexists. Qed.

Lemma create_target_sound db t db' : bdb_ok db -> CreateStorageTarget db t = Ok db' -> sound db db'.
Proof.
  intros Hok. unfold CreateStorageTarget. destruct (_ || _); [done|]. intros [= <-]. apply sound_same; try done. destruct Hok. constructor; try done. simpl. intros j Hj. destruct (ok_refs0 j Hj) as [? Ht]. split; [done|]. rewrite map_app. apply elem_of_app. by left.
Qed.
Lemma update_target_sound db t db' : bdb_ok db -> UpdateStorageTarget db t = Ok db' -> sound db db'.
Proof.
  intros Hok. unfold UpdateStorageTarget. destruct (_ && _); [done|]. intros [= <-]. apply sound_same; try done. destruct Hok. constructor; try done. simpl. intros j Hj. destruct (ok_refs0 j Hj) as [? Ht]. split; [done|]. rewrite map_map. erewrite map_ext; [exact Ht|]. intros o. simpl. by case_bool_decide.
Qed.
Lemma delete_target_sound db id db' : bdb_ok db -> DeleteStorageTarget db id = Ok db' -> sound db db'.
Proof.
  intros Hok. unfold DeleteStorageTarget. destruct (existsb _ _ && _) eqn:E; [done|]. intros [= <-]. apply sound_same; try done. destruct Hok. constructor; try done. simpl. intros j Hj. destruct (ok_refs0 j Hj) as [? Ht]. split; [done|].
  apply list_elem_of_fmap in Ht as (t & Et & Hin). rewrite Et. apply in_map_id, elem_of_filter_b. split; [done|]. apply negb_true_iff, bool_decide_eq_false. intros <-.
  apply andb_false_iff in E as [E|E]; [rewrite existsb_false in E; specialize (E j Hj); by rewrite bool_decide_eq_true_2 in E|]. apply bool_decide_eq_false in E. apply E. by apply in_map_id.
Qed.
Lemma create_key_sound db k db' : good_recipient (ek_recipient k) -> bdb_ok db -> CreateEncryptionKey db k = Ok db' -> sound db db'.
Proof.
  intros Hg Hok. unfold CreateEncryptionKey. destruct (bool_decide (ek_id k ∈ _)) eqn:E1; [done|]. destruct (bool_decide (ek_name k ∈ _)); [done|]. simpl. intros [= <-]. apply bool_decide_eq_false in E1.
  apply sound_same; try done; [|by intros k' Hk' _; simpl; apply elem_of_app; left]. destruct Hok. constructor; try done; simpl.
  - rewrite map_app. apply NoDup_app. split_and!; [done| |apply NoDup_singleton]. intros x Hx ->%list_elem_of_singleton. by apply E1.
  - intros j k' Hl. destruct (ok_links0 j k' Hl). split; [done|]. rewrite map_app. apply elem_of_app. by left.
  - rewrite map_app. apply Forall_app. split; [done|]. by constructor.
Qed.
Lemma delete_key_sound db id db' : bdb_ok db -> DeleteEncryptionKey db id = Ok db' -> sound db db'.
Proof.
  intros Hok. unfold DeleteEncryptionKey. destruct (existsb _ _ && _) eqn:E; [done|]. intros [= <-].
  assert (forall k, k ∈ ekeys db -> (exists j, (j, ek_id k) ∈ job_keys db) -> ek_id k <> id) as Hk.
  { intros k Hk [j Hl] <-. apply andb_false_iff in E as [E|E]; [rewrite existsb_false in E; specialize (E _ Hl); simpl in E; by rewrite bool_decide_eq_true_2 in E|]. apply bool_decide_eq_false in E. apply E. by apply in_map_id. }
  assert (forall k, k ∈ ekeys db -> (exists j, (j, ek_id k) ∈ job_keys db) -> k ∈ List.filter (fun k => negb (bool_decide (ek_id k = id))) (ekeys db)) as Hin.
  { intros k Hin Hl. apply elem_of_filter_b. split; [done|]. apply negb_true_iff, bool_decide_eq_false. by apply Hk. }
  apply sound_same; try done. destruct Hok. constructor; try done; simpl.
  - by apply (NoDup_map_filter ek_id).
  - intros j k Hl. destruct (ok_links0 j k Hl) as [? Hkk]. split; [done|]. apply list_elem_of_fmap in Hkk as (x & -> & Hx). apply in_map_id, Hin; [done|]. by exists j.
  - rewrite Forall_map in *. rewrite Forall_forall in *. intros x [Hx _]%elem_of_filter_b. by apply ok_public0.
Qed.

Lemma link_keys_spec job keys : forall db db', link_keys db job keys = Ok db' -> db' = set_job_keys db (job_keys db ++ map (fun k => (job, k)) keys) /\ forall k, k ∈ keys -> job ∈ map j_id (jobs db) /\ k ∈ map ek_id (ekeys db).
Proof.
  induction keys as [|k keys IH]; intros db db'; cbn [link_keys].
  - intros [= <-]. split; [|by intros k ?%not_elem_of_nil]. simpl. rewrite app_nil_r. by destruct db.
  - case_bool_decide; [done|]. destruct (bool_decide (job ∈ _)) eqn:Ej; [|done]. destruct (bool_decide (k ∈ _)) eqn:Ek; [|done]. simpl. intros Hl. apply IH in Hl as [-> Hl]. simpl in *. split.
    + unfold set_job_keys. simpl. by rewrite <- app_assoc.
    + intros x [->|Hx]%elem_of_cons; [|by apply Hl]. by apply bool_decide_eq_true in Ej, Ek.
Qed.
Lemma create_job_sound db j db' : bdb_ok db -> (Encrypted j = true -> j_keys j <> []) -> CreateBackupJob db j = Ok db' -> sound db db' /\ row_of_job j ∈ jobs db' /\ forall k, (j_id j, k) ∈ job_keys db' <-> k ∈ j_keys j.
Proof.
  intros Hok He. unfold CreateBackupJob, insert_job. destruct (bool_decide (j_id j ∈ _)) eqn:Ei; [done|]. destruct (existsb _ (jobs db)) eqn:En; [done|]. simpl. destruct (bool_decide (j_env j ∈ _)) eqn:Ev; [|done]. destruct (bool_decide (j_storage j ∈ _)) eqn:Es; [|done]. simpl.
  apply bool_decide_eq_false in Ei. apply bool_decide_eq_true in Ev, Es. unfold setBackupJobKeysTx. intros Hl. apply link_keys_spec in Hl as [-> Hl]. simpl in *.
  assert (List.filter (fun l => negb (bool_decide (l.1 = j_id j))) (job_keys db) = job_keys db) as Hf.
  { apply forallb_filter_id. apply forallb_elem. intros [a b] Hab. apply negb_true_iff, bool_decide_eq_false. simpl. intros ->. destruct (ok_links db Hok _ _ Hab) as [? _]. by apply Ei. }
  rewrite Hf. assert (forall x k, (x, k) ∈ job_keys db ++ map (fun k => (j_id j, k)) (j_keys j) <-> (x, k) ∈ job_keys db \/ (x = j_id j /\ k ∈ j_keys j)) as Hlk.
  { intros x k. rewrite elem_of_app, list_elem_of_fmap. split; [intros [?|(y & [= -> ->] & Hy)]; [by left|by right]|intros [?|[-> Hk]]; [by left|right; by exists k]]. }
  split_and!.
  - split.
    + destruct Hok. constructor; simpl; try done.
      * rewrite map_app. apply NoDup_app. split_and!; [done| |apply NoDup_singleton]. intros x Hx ->%list_elem_of_singleton. by apply Ei.
      * rewrite map_app. apply NoDup_app. split_and!; [done| |apply NoDup_singleton]. intros x (o & -> & Ho)%list_elem_of_fmap Hx%list_elem_of_singleton. simpl in Hx. injection Hx as H1 H2. rewrite existsb_false in En. specialize (En o Ho). by rewrite !bool_decide_eq_true_2 in En.
      * intros o [Ho| ->%list_elem_of_singleton]%elem_of_app; [by apply ok_refs0|done].
      * intros x k [Hx|[-> Hk]]%Hlk; [destruct (ok_links0 x k Hx); split; [rewrite map_app; apply elem_of_app; by left|done]|]. destruct (Hl k Hk) as [_ ?]. split; [rewrite map_app; apply elem_of_app; right; by left|done].
      * intros o Ho Hoe. apply elem_of_app in Ho as [Ho| ->%list_elem_of_singleton]; [destruct (ok_encrypted0 o Ho Hoe) as [k ?]; exists k; apply Hlk; by left|]. specialize (He Hoe). destruct (j_keys j) as [|k ks] eqn:Ek; [done|]. exists k. apply Hlk. right. split; [done|by left].
      * intros r Hr. rewrite map_app. apply elem_of_app. left. by apply ok_run_job0.
    + intros o Ho _. exists o. simpl. split_and!; [apply elem_of_app; by left|done|done| |done]. intros k. rewrite Hlk. split; [intros [?|[E _]]; [done|]|by left]. destruct Ei. rewrite <- E. by apply in_map_id.
  - apply elem_of_app. right. by left.
  - intros k. rewrite Hlk. split; [intros [Hk|[_ ?]]; [destruct (ok_links db Hok _ _ Hk); by destruct Ei|done]|by right].
Qed.
Lemma create_job_runs db j db' : CreateBackupJob db j = Ok db' -> runs db' = runs db.
Proof.
  unfold CreateBackupJob, insert_job. destruct (bool_decide (j_id j ∈ _) || _); [done|]. destruct (negb _ || _); [done|]. cbn [rbind]. intros Hl. by apply link_keys_spec in Hl as [-> _].
Qed.
Lemma on_job_sound f id db : (forall j, j_id (f j) = j_id j /\ j_env (f j) = j_env j /\ j_name (f j) = j_name j /\ j_storage (f j) = j_storage j /\ j_encryption (f j) = j_encryption j) -> bdb_ok db -> sound db (on_job f id db).
Proof.
  intros Hf Hok. set (g := fun j => if bool_decide (j_id j = id) then f j else j).
  assert (forall j, j_id (g j) = j_id j /\ j_env (g j) = j_env j /\ j_name (g j) = j_name j /\ j_storage (g j) = j_storage j /\ j_encryption (g j) = j_encryption j) as Hg by (intros j; unfold g; case_bool_decide; [apply Hf|done]).
  assert (map j_id (map g (jobs db)) = map j_id (jobs db)) as Hids by (rewrite map_map; apply map_ext; intros j; apply Hg).
  split.
  - destruct Hok. constructor; simpl; fold g; rewrite ?Hids; try done.
    + rewrite map_map. erewrite map_ext; [exact ok_names0|]. intros j. simpl. destruct (Hg j) as (_ & -> & -> & _). done.
    + intros j (o & -> & Ho)%list_elem_of_fmap. destruct (Hg o) as (_ & -> & _ & -> & _). by apply ok_refs0.
    + intros j (o & -> & Ho)%list_elem_of_fmap. unfold Encrypted. destruct (Hg o) as (-> & _ & _ & _ & ->). by apply ok_encrypted0.
  - intros j Hj _. exists (g j). simpl. fold g. split_and!; [apply list_elem_of_fmap; by exists j|apply Hg..|done|done].
Qed.
Lemma drop_jobs_sound gone db : bdb_ok db -> sound db (drop_jobs gone db).
Proof.
  intros Hok. unfold drop_jobs. set (ids := map j_id (List.filter gone (jobs db))).
  assert (forall j, j ∈ jobs db -> gone j = false -> (j_id j ∉ ids)) as Hout.
  { intros j Hj Hg (o & E & [Ho Hgo]%elem_of_filter_b)%list_elem_of_fmap. pose proof (id_of j_id _ _ _ (ok_jobs db Hok) Hj Ho E) as ->. congruence. }
  assert (forall x, x ∈ map j_id (jobs db) -> x ∉ ids -> x ∈ map j_id (List.filter (fun j => negb (gone j)) (jobs db))) as Hkeep.
  { intros x (j & -> & Hj)%list_elem_of_fmap Hx. apply in_map_id, elem_of_filter_b. split; [done|]. apply negb_true_iff. destruct (gone j) eqn:Eg; [|done]. destruct Hx. by apply in_map_id, elem_of_filter_b. }
  split.
  - destruct Hok. constructor; simpl; try done.
    + by apply (NoDup_map_filter j_id).
    + by apply (NoDup_map_filter (fun j => (j_env j, j_name j))).
    + by apply (NoDup_map_filter r_id).
    + intros j [Hj _]%elem_of_filter_b. by apply ok_refs0.
    + intros j k [Hl Hn]%elem_of_filter_b. simpl in Hn. apply negb_true_iff, bool_decide_eq_false in Hn. destruct (ok_links0 j k Hl). split; [by apply Hkeep|done].
    + intros j [Hj Hg]%elem_of_filter_b Hje. apply negb_true_iff in Hg. destruct (ok_encrypted0 j Hj Hje) as [k Hk]. exists k. apply elem_of_filter_b. split; [done|]. simpl. apply negb_true_iff, bool_decide_eq_false. by apply Hout.
    + intros r [Hr Hn]%elem_of_filter_b. apply negb_true_iff, bool_decide_eq_false in Hn. apply Hkeep; [by apply ok_run_job0|done].
  - intros j Hj Hin. simpl in Hin. apply list_elem_of_fmap in Hin as (o & E & [Ho Hgo]%elem_of_filter_b). pose proof (id_of j_id _ _ _ (ok_jobs db Hok) Hj Ho E) as <-. apply negb_true_iff in Hgo.
    exists j. simpl. split_and!; [apply elem_of_filter_b; by rewrite Hgo|done|done| |done]. intros k. rewrite elem_of_filter_b. simpl. rewrite (bool_decide_eq_false_2 (j_id j ∈ ids)) by (by apply Hout). tauto.
Qed.
Lemma remove_env_sound env db : bdb_ok db -> sound db (remove_env db env).
Proof.
  intros Hok. destruct (drop_jobs_sound (fun j => bool_decide (j_env j = env)) db Hok) as [Hd Hk]. unfold remove_env. split; [|exact Hk].
  destruct Hd. constructor; try done. simpl in *. intros j Hj. destruct (ok_refs0 j Hj) as [He Ht]. split; [|done]. apply elem_of_filter_b in Hj as [_ Hj]. by apply elem_of_filter_b.
Qed.
Lemma add_env_sound env db : bdb_ok db -> sound db (add_env db env).
Proof.
  intros Hok. apply sound_same; try done. destruct Hok. constructor; try done. simpl. intros j Hj. destruct (ok_refs0 j Hj). split; [|done]. apply elem_of_app. by left.
Qed.
Lemma start_run_sound db id job trigger user now db' : bdb_ok db -> StartBackupRun db id job trigger user now = Ok db' -> sound db db'.
Proof.
  intros Hok. unfold StartBackupRun. destruct (bool_decide (id ∈ _)) eqn:Ei; [done|]. destruct (bool_decide (job ∈ _)) eqn:Ej; [|done]. intros [= <-]. apply bool_decide_eq_false in Ei. apply bool_decide_eq_true in Ej. apply sound_same; try done. destruct Hok. constructor; try done; simpl.
  - rewrite map_app. apply NoDup_app. split_and!; [done| |apply NoDup_singleton]. intros x Hx ->%list_elem_of_singleton. by apply Ei.
  - intros r [Hr| ->%list_elem_of_singleton]%elem_of_app; [by apply ok_run_job0|done].
Qed.
Lemma on_run_sound p f db : (forall r, r_id (f r) = r_id r /\ r_job (f r) = r_job r) -> bdb_ok db -> sound db (on_run p f db).
Proof.
  intros Hf Hok. apply sound_same; try done. assert (forall r, r_id (if p r then f r else r) = r_id r /\ r_job (if p r then f r else r) = r_job r) as Hg by (intros r; destruct (p r); [apply Hf|done]).
  destruct Hok. constructor; try done; simpl.
  - rewrite map_map. erewrite map_ext; [exact ok_runs0|]. intros r. apply Hg.
  - intros r (o & -> & Ho)%list_elem_of_fmap. destruct (Hg o) as [_ ->]. by apply ok_run_job0.
Qed.
End Tables.

(** ** The server over time *)

Section Server.
Context {C : Codec} {L : CodecLaws C} {T : TarFormat} {TL : TarLaws T} (Seal Open : string -> option string) (cron_ok : string -> bool) (text : SvcErr -> string).
(** The age library: what it makes of a pasted key, the keys it generates. *)
Context (upper : string -> string) (canonical : string -> option string) (generated : Z -> string).
Hypothesis canonical_good : forall s r, canonical s = Some r -> good_recipient r.
Hypothesis generated_good : forall t, good_recipient (generated t).

Inductive BackupEvent :=
| Fire (job run : string) (writes : bool) (now : Z) | RunNow (job run user : string) (writes : bool) (now : Z) | Ends (run : string) (bs : Buckets) (out : Outcome) (now : Z)
| CreateJob (c : JobContext) (req : JobRequest) | DeleteJob (id : string) | SetSchedule (id schedule : string) | Toggle (id : string)
| CreateTarget (reachable : StorageRequest -> string -> bool) (req : StorageRequest) (id user : string) (now : Z) | UpdateTarget (reachable : StorageRequest -> string -> bool) (id : string) (req : StorageRequest) | DeleteTarget (id : string)
| CreateKey (name recipient id user : string) (now : Z) | DeleteKey (id : string) | AddEnv (env : string) | RemoveEnv (env : string) | Restart (now : Z).
Definition with_job (s : Server) (id : string) (f : BackupJob -> Server) : Server := match BackupJobByID (s_db s) id with Ok j => f j | Err _ => s end.
Definition backup_step (s : Server) (e : BackupEvent) : Server :=
  match e with
  | Fire job run writes now => if bool_decide (job ∈ map fst (s_entries s)) then runBackup_start s job run "schedule" "" writes now else s
  | RunNow job run user writes now => with_job s job (fun j => runBackup_start s (j_id j) run "manual" user writes now)
  | Ends run bs out now => match List.find (fun f => bool_decide (f_run f = run)) (s_flights s) with Some f => runBackup_end text s f bs out now | None => s end
  | CreateJob c req => (handleCreateBackupJob Seal cron_ok s c req).1
  | DeleteJob id => with_job s id (handleDeleteBackupJob cron_ok s)
  | SetSchedule id schedule => with_job s id (fun j => (handleSetBackupSchedule cron_ok s j schedule).1)
  | Toggle id => with_job s id (handleToggleBackupJob cron_ok s)
  | CreateTarget reachable req id user now => (handleCreateStorage Seal s reachable req id user now).1
  | UpdateTarget reachable id req => (handleUpdateStorage Seal Open s reachable id req).1
  | DeleteTarget id => (handleDeleteStorage s id).1
  | CreateKey name recipient id user now => (handleCreateKey s upper canonical (generated now) name recipient id user now).1
  | DeleteKey id => (handleDeleteKey s id).1
  | AddEnv env => if bool_decide (env ∈ envs (s_db s)) then s else on_db s (add_env (s_db s) env)
  | RemoveEnv env => on_db s (remove_env (s_db s) env)
  | Restart now => startScheduler cron_ok s now
  end.
#[local] Abbreviation step := backup_step.

Lemma encryption_keys db req ks enc : encryption_of db req = Ok (enc, ks) -> enc = "age" -> ks <> [].
Proof. unfold encryption_of. case_bool_decide; [by intros [= <- <-]|]. destruct (jr_keys req) as [|k l]; [done|]. destruct (forallb _ _); [|done]. by intros [= <- <-]. Qed.

Lemma start_db s job run trigger user writes now : bdb_ok (s_db s) -> sound (s_db s) (s_db (runBackup_start s job run trigger user writes now)).
Proof.
  intros Hok. unfold runBackup_start, tryStart. case_bool_decide; [by apply sound_refl|]. destruct (BackupJobByID _ _); [|by apply sound_refl]. destruct writes; [|by apply sound_refl].
  destruct (StartBackupRun _ _ _ _ _ _) as [db|] eqn:E; [|by apply sound_refl]. simpl. by eapply start_run_sound.
Qed.
Lemma step_sound s e : bdb_ok (s_db s) -> sound (s_db s) (s_db (step s e)).
Proof.
  intros Hok. destruct e; simpl.
  - case_bool_decide; [by apply start_db|by apply sound_refl].
  - unfold with_job. destruct (BackupJobByID _ _); [by apply start_db|by apply sound_refl].
  - destruct (List.find _ _) as [f|]; [|by apply sound_refl]. unfold runBackup_end. destruct (now <? _); destruct (match out.1 with Some _ => _ | None => _ end) as [bytes key]; simpl; [|by apply sound_refl]. by apply on_run_sound.
  - unfold handleCreateBackupJob. destruct (rbind (rguard (jc_allowed c) Forbidden) _) as [db|err] eqn:E; [|by apply sound_refl]. simpl. inv_res. cbn beta zeta in *. inv_res.
    destruct (Seal _) as [pass|]; [|done]. destruct (CreateBackupJob _ _) as [db'|[]] eqn:Ec; try done. inv_res. eapply create_job_sound; [done| |exact Ec]. unfold Encrypted. simpl. intros He%bool_decide_eq_true. match goal with H : encryption_of _ _ = Ok ?x |- _ => destruct x as [enc ks] end. by eapply encryption_keys.
  - unfold with_job. destruct (BackupJobByID _ _); [by apply drop_jobs_sound|by apply sound_refl].
  - unfold with_job. destruct (BackupJobByID _ _) as [j|]; [|by apply sound_refl]. unfold handleSetBackupSchedule. destruct (_ && _); [by apply sound_refl|]. by apply on_job_sound.
  - unfold with_job. destruct (BackupJobByID _ _); [by apply on_job_sound|by apply sound_refl].
  - unfold handleCreateStorage. destruct (rbind _ _) as [db|err] eqn:E; [|by apply sound_refl]. simpl. inv_res. destruct (Seal _); [|done]. destruct (CreateStorageTarget _ _) as [db'|[]] eqn:Ec; try done. inv_res. by eapply create_target_sound.
  - unfold handleUpdateStorage. destruct (StorageTargetByID _ _) as [t|]; [|by apply sound_refl]. destruct (rbind _ _) as [db|err] eqn:E; [|by apply sound_refl]. simpl. inv_res. destruct (Seal _); [|done]. destruct (UpdateStorageTarget _ _) as [db'|] eqn:Ec; [|done]. inv_res. by eapply update_target_sound.
  - unfold handleDeleteStorage. destruct (StorageTargetByID _ _) as [t|]; [|by apply sound_refl]. case_match; [by apply sound_refl|]. destruct (DeleteStorageTarget _ _) eqn:E; [|by apply sound_refl]. by eapply delete_target_sound.
  - unfold handleCreateKey. destruct (negb _); [by apply sound_refl|].
    assert (forall r src, good_recipient r -> sound (s_db s) (s_db (match CreateEncryptionKey (s_db s) (mkEKey id (strings.TrimSpace name) r src now user) with Err ErrDuplicate => (s, Some KeyNameTaken) | Err e => (s, Some (KeyStore e)) | Ok db => (audited (on_db s db) ("key." +:+ src) "ok", None) end).1)) as Hr.
    { intros r src Hr. destruct (CreateEncryptionKey _ _) as [db|[]] eqn:E; try by apply sound_refl. eapply create_key_sound; [|done|exact E]. done. }
    case_bool_decide; [apply Hr, generated_good|]. unfold ParseAgeRecipient. destruct (strings.Contains _ _); [by apply sound_refl|]. destruct (canonical _) as [r|] eqn:Ec; [|by apply sound_refl]. simpl. by eapply Hr, canonical_good.
  - unfold handleDeleteKey. destruct (EncryptionKeyByID _ _) as [k|]; [|by apply sound_refl]. case_match; [by apply sound_refl|]. destruct (DeleteEncryptionKey _ _) eqn:E; [|by apply sound_refl]. by eapply delete_key_sound.
  - case_bool_decide; [by apply sound_refl|]. by apply add_env_sound.
  - by apply remove_env_sound.
  - by apply on_run_sound.
Qed.

Lemma steps_ok es : forall s, bdb_ok (s_db s) -> bdb_ok (s_db (fold_left step es s)).
Proof. induction es as [|e es IH]; intros s Hok; [done|]. simpl. apply IH. by apply step_sound. Qed.
Lemma job_by_id db id j : BackupJobByID db id = Ok j -> exists row, row ∈ jobs db /\ j_id row = id /\ j = attachJobKeys db row.
Proof. unfold BackupJobByID. destruct (List.find _ _) as [row|] eqn:E; [|done]. intros [= <-]. apply List.find_some in E as [Hin E]. apply list_elem_of_In in Hin. apply bool_decide_eq_true in E. by exists row. Qed.
Lemma recipients_elem db id r : r ∈ JobRecipients db id <-> exists k, k ∈ ekeys db /\ (id, ek_id k) ∈ job_keys db /\ r = ek_recipient k.
Proof.
  unfold JobRecipients, keys_of, ListEncryptionKeys. rewrite list_elem_of_fmap. split.
  - intros (k & -> & [Hk Hl]%elem_of_filter_b). apply bool_decide_eq_true in Hl. apply elem_of_ssort in Hk. by exists k.
  - intros (k & Hk & Hl & ->). exists k. split; [done|]. apply elem_of_filter_b. split; [by apply elem_of_ssort|by apply bool_decide_eq_true].
Qed.
Lemma keeps_recipients db db' j : bdb_ok db -> sound db db' -> j ∈ jobs db -> j_id j ∈ map j_id (jobs db') -> forall r, r ∈ JobRecipients db' (j_id j) <-> r ∈ JobRecipients db (j_id j).
Proof.
  intros Hok [Hok' Hk] Hj Hin r. destruct (Hk j Hj Hin) as (j' & _ & _ & _ & Hl & Hkk). rewrite !recipients_elem. split.
  - intros (k & Hk' & Hlk & ->). pose proof (proj1 (Hl _) Hlk) as Hlk0. destruct (ok_links db Hok _ _ Hlk0) as [_ Hx]. apply list_elem_of_fmap in Hx as (k0 & Ek & Hk0). rewrite Ek in Hlk0. pose proof (Hkk k0 Hk0 Hlk0) as Hk0'.
    pose proof (id_of ek_id _ _ _ (ok_keys db' Hok') Hk' Hk0' Ek) as ->. by exists k0.
  - intros (k & Hk' & Hlk & ->). exists k. split_and!; [by apply Hkk|by apply Hl|done].
Qed.
(** What an encrypted job writes, now. *)
Lemma encrypts_to db bs we j now bs' k n err : bdb_ok db -> j ∈ jobs db -> Encrypted j = true -> performBackup Open db bs we (attachJobKeys db j) now = (bs', (Some (k, n), err)) ->
  exists spec dst stored plain, jobConfig Open db (attachJobKeys db j) = Ok (spec, dst) /\ bucket_of bs' dst !! k = Some (mkObject stored now) /\ JobRecipients db (j_id j) <> [] /\ reads_as stored plain true (JobRecipients db (j_id j)).
Proof.
  intros Hok Hj He. assert (Forall good_recipient (JobRecipients db (j_id j))) as Hg.
  { apply Forall_forall. intros r (x & Hx & _ & ->)%recipients_elem. pose proof (ok_public db Hok) as Hp. rewrite Forall_forall in Hp. apply Hp. by apply (in_map_id ek_recipient). }
  assert (forall spec dst, jobConfig Open db (attachJobKeys db j) = Ok (spec, dst) -> ds_encrypt dst = true /\ JobRecipients db (j_id j) <> [] /\ ds_recipients dst = strings.Join (JobRecipients db (j_id j)) " ") as Hc.
  { intros spec dst. unfold jobConfig. destruct (Open _); [|done]. destruct (StorageTargetByID _ _); [|done]. destruct (Open (st_secret _)); [|done]. change (Encrypted (attachJobKeys db j)) with (Encrypted j). rewrite He. change (j_id (attachJobKeys db j)) with (j_id j).
    destruct (JobRecipients db (j_id j)) as [|r rs] eqn:Er; [done|]. cbn [rbind]. by intros [= _ <-]. }
  assert (forall spec dst rs stored plain, jobConfig Open db (attachJobKeys db j) = Ok (spec, dst) -> (ds_encrypt dst = true -> parseRecipients (ds_recipients dst) = Ok rs) -> reads_as stored plain (ds_encrypt dst) rs -> JobRecipients db (j_id j) <> [] /\ reads_as stored plain true (JobRecipients db (j_id j))) as Hread.
  { intros spec dst rs stored plain Hd Hrs Hx. destruct (Hc spec dst Hd) as (H1 & H2 & H3). split; [done|]. rewrite H1 in Hx. specialize (Hrs H1). rewrite H3, parse_joined in Hrs by done. by injection Hrs as ->. }
  unfold performBackup. case_bool_decide as Ev.
  - unfold performVolumeBackup. destruct (volumeNode _ _ _) as [nd|]; [|done]. destruct (jobConfig Open db _) as [[spec dst]|] eqn:Ecfg; [|done]. destruct (stopForSnapshot _ _ _) as [l [stopped|]]; [|done].
    destruct (Snapshot _ _) as [es|]; [|destruct (restart _ _ _) as [l' [|? ?]]; done]. set (src := FilterTar _ _).
    pose proof (RunVolume_spec (bucket_of bs dst) (we_s3 we) (tar src.1) src.2 (j_volume (attachJobKeys db j)) dst now) as Hr. destruct (RunVolume _ _ _ _ _ _ _) as [b [[k' n']|e]]; [|destruct (restart _ _ _) as [l' [|? ?]]; done].
    destruct Hr as (_ & _ & stored & rs & -> & Hp & Hx). intros E. assert (k' = k /\ bs' = put_bucket bs dst (<[k' := mkObject stored now]> (bucket_of bs dst))) as [-> ->] by (destruct (restart _ _ _) as [l' [|? ?]]; by injection E as <- <- _ _).
    exists spec, dst, stored, (tar src.1). destruct (Hread spec dst rs stored (tar src.1) eq_refl Hp Hx) as [H1 H2]. split_and!; [done| |done|done]. unfold bucket_of at 1, put_bucket. rewrite lookup_insert_eq. simpl. by rewrite lookup_insert_eq.
  - destruct (backupNode _ _) as [[nd name]|]; [|done]. destruct (jobConfig Open db _) as [[spec dst]|] eqn:Ecfg; [|done]. destruct (Run _ _ _ _ _ _) as [b [[k' n']|e]] eqn:Er; [|done]. intros [= <- <- _ _].
    apply Run_ok in Er as (_ & cmd & stored & rs & _ & -> & _ & _ & _ & _ & Hrs & Hx). exists spec, dst, stored, (ex_data (we_exec we (nd_name nd) name cmd)).
    destruct (Hread spec dst (JobRecipients db (j_id j)) stored (ex_data (we_exec we (nd_name nd) name cmd)) eq_refl) as [H1 H2].
    + intros _. destruct (Hc spec dst eq_refl) as (_ & Hne & ->). by apply parse_joined.
    + destruct (Hc spec dst eq_refl) as (H1 & Hne & H3). destruct (Hrs H1) as [_ ->]. rewrite H3 in Hx. rewrite (Fields_Join is_alnum) in Hx; [exact Hx|apply visible_alnum|]. eapply Forall_impl; [exact Hg|]. by intros r (_ & ? & ?).
    + split_and!; [done| |done|done]. unfold bucket_of at 1, put_bucket. rewrite lookup_insert_eq. simpl. by rewrite lookup_insert_eq.
Qed.

(** C27: Whatever is done to the server — jobs, keys, targets and hosts come and go,
    schedules change, runs overlap, the process restarts — a job that encrypts
    keeps encrypting, to the same keys, which cannot disappear while it uses
    them: every snapshot it ever stores is readable with the private half of any
    of them and with nothing else. *)
Theorem backups_stay_encrypted (s : Server) (es : list BackupEvent) (j : BackupJob) : bdb_ok (s_db s) -> j ∈ jobs (s_db s) -> Encrypted j = true ->
  (forall n, j_id j ∈ map j_id (jobs (s_db (fold_left step (take n es) s)))) ->
  let s' := fold_left step es s in exists j', BackupJobByID (s_db s') (j_id j) = Ok j' /\
  forall bs we now bs' k n err, performBackup Open (s_db s') bs we j' now = (bs', (Some (k, n), err)) ->
  exists spec dst stored plain rs, jobConfig Open (s_db s') j' = Ok (spec, dst) /\ bucket_of bs' dst !! k = Some (mkObject stored now) /\ rs <> [] /\ (forall r, r ∈ rs <-> r ∈ JobRecipients (s_db s) (j_id j)) /\ reads_as stored plain true rs.
Proof.
  intros Hok Hj He Hp s'. assert (exists row, row ∈ jobs (s_db s') /\ j_id row = j_id j /\ Encrypted row = true /\ bdb_ok (s_db s') /\ forall r, r ∈ JobRecipients (s_db s') (j_id j) <-> r ∈ JobRecipients (s_db s) (j_id j)) as (row & Hrow & Eid & Henc & Hok' & Hrec).
  { unfold s'. clear s'. revert s j Hok Hj He Hp. induction es as [|e es IH]; intros s j Hok Hj He Hp; [by exists j|]. simpl. pose proof (step_sound s e Hok) as Hs. pose proof (Hp 1%nat) as H1. simpl in H1.
    destruct (proj2 Hs j Hj H1) as (j1 & Hj1 & E1 & E2 & _). pose proof (keeps_recipients _ _ j Hok Hs Hj H1) as Hr. destruct (IH (step s e) j1) as (row & A1 & A2 & A3 & A4 & A5); [apply Hs|done|unfold Encrypted in *; by rewrite E2|intros n; rewrite E1; exact (Hp (S n))|].
    exists row. rewrite E1 in A2, A5. split_and!; [done|done|done|done|]. intros r. by rewrite A5. }
  assert (BackupJobByID (s_db s') (j_id j) = Ok (attachJobKeys (s_db s') row)) as Hb.
  { unfold BackupJobByID. destruct (List.find _ _) as [o|] eqn:E.
    - apply List.find_some in E as [Ho E]. apply list_elem_of_In in Ho. apply bool_decide_eq_true in E. by rewrite (id_of j_id _ o row (ok_jobs _ Hok') Ho Hrow ltac:(congruence)).
    - pose proof (List.find_none _ _ E row) as Hn. simpl in Hn. rewrite bool_decide_eq_true_2 in Hn by done. by apply list_elem_of_In, Hn in Hrow. }
  exists (attachJobKeys (s_db s') row). split; [done|]. intros bs we now bs' k n err Hrun. destruct (encrypts_to _ _ _ _ _ _ _ _ _ Hok' Hrow Henc Hrun) as (spec & dst & stored & plain & H1 & H2 & H3 & H4). rewrite Eid in *.
  by exists spec, dst, stored, plain, (JobRecipients (s_db s') (j_id j)).
Qed.

(** ** The record of runs *)

(** A run in flight holds the slot of its job; a run is recorded as running
    exactly while it is in flight. *)
Record flights_ok (s : Server) : Prop := {
  fl_slots : s_running s ≡ₚ map (fun f => j_id (f_job f)) (s_flights s);
  fl_one : NoDup (map (fun f => j_id (f_job f)) (s_flights s));
  fl_runs : NoDup (map f_run (s_flights s));
  fl_honest : forall r, r ∈ runs (s_db s) -> r_status r = Running <-> exists f, f ∈ s_flights s /\ f_run f = r_id r /\ j_id (f_job f) = r_job r }.
(** Ids of runs are new; no backup takes its whole four hours. *)
Definition timely (s : Server) (e : BackupEvent) : Prop :=
  match e with
  | Fire _ run _ _ | RunNow _ run _ _ _ => run ∉ map f_run (s_flights s)
  | Ends run _ _ now => forall f, f ∈ s_flights s -> f_run f = run -> now < f_began f + backupDeadline
  | _ => True
  end.
(** The rows of a table of runs that matter to what is in flight. *)
Definition same_runs (db db' : BDB) : Prop := forall r, r ∈ runs db' -> r ∈ runs db.

Lemma backup_flights_db s s' : flights_ok s -> s_running s' = s_running s -> s_flights s' = s_flights s -> same_runs (s_db s) (s_db s') -> flights_ok s'.
Proof. intros [H1 H2 H3 H4] Hr Hf Hs. constructor; rewrite ?Hr, ?Hf; try done. intros r Hin. apply H4. by apply Hs. Qed.

Lemma backup_flights_start s job run trigger user writes now : bdb_ok (s_db s) -> (run ∉ map f_run (s_flights s)) -> flights_ok s -> flights_ok (runBackup_start s job run trigger user writes now).
Proof.
  intros Hdb Hrun Hok. unfold runBackup_start, tryStart. case_bool_decide as Hj; [done|]. set (s1 := mkServer _ (s_buckets s) (job :: s_running s) _ _ _ _).
  assert (flights_ok (finish s1 job)) as Hback.
  { destruct Hok as [H1 H2 H3 H4]. constructor; simpl; try done. rewrite bool_decide_eq_true_2 by done. simpl. rewrite forallb_filter_id; [done|]. apply forallb_elem. intros x Hx. apply negb_true_iff, bool_decide_eq_false. by intros ->. }
  destruct (BackupJobByID (s_db s1) job) as [j|] eqn:Ej; [|done]. destruct writes; [|done]. destruct (StartBackupRun _ _ _ _ _ _) as [db|] eqn:Es; [|done].
  apply job_by_id in Ej as (row & Hrow & Eid & ->). unfold StartBackupRun in Es. destruct (bool_decide (run ∈ _)) eqn:Er; [done|]. destruct (negb _); [done|]. injection Es as <-. apply bool_decide_eq_false in Er. simpl in Er.
  destruct Hok as [H1 H2 H3 H4]. constructor; simpl.
  - rewrite map_app. simpl. rewrite H1, Eid. apply Permutation_cons_append.
  - rewrite map_app. simpl. apply NoDup_app. split_and!; [done| |apply NoDup_singleton]. intros x Hx ->%list_elem_of_singleton. apply Hj. rewrite H1. by rewrite <- Eid.
  - rewrite map_app. simpl. apply NoDup_app. split_and!; [done| |apply NoDup_singleton]. by intros x Hx ->%list_elem_of_singleton.
  - intros r [Hr| ->%list_elem_of_singleton]%elem_of_app.
    + rewrite (H4 r Hr). split; intros (f & Hf & E1 & E2).
      * exists f. split; [|done]. apply elem_of_app. by left.
      * apply elem_of_app in Hf as [Hf| ->%list_elem_of_singleton]; [by exists f|]. simpl in E1. destruct Er. rewrite E1. by apply (in_map_id r_id).
    + split; [|done]. intros _. exists (mkFlight (attachJobKeys (s_db s) row) run trigger user now). split; [apply elem_of_app; right; by left|]. by split.
Qed.
Lemma backup_flights_end s f bs out now : f ∈ s_flights s -> now < f_began f + backupDeadline -> flights_ok s -> flights_ok (runBackup_end text s f bs out now).
Proof.
  intros Hf Hn [H1 H2 H3 H4]. unfold runBackup_end. assert ((now <? f_began f + backupDeadline) = true) as -> by (by apply Z.ltb_lt). destruct (match out.1 with Some _ => _ | None => _ end) as [bytes key]. set (jid := j_id (f_job f)).
  constructor; simpl.
  - rewrite (filter_keys_perm (fun f => j_id (f_job f))). by apply filter_perm.
  - by apply (NoDup_map_filter (fun f => j_id (f_job f))).
  - by apply (NoDup_map_filter f_run).
  - intros r (o & -> & Ho)%list_elem_of_fmap.
    assert ((exists g, g ∈ List.filter (fun x => negb (bool_decide (j_id (f_job x) = jid))) (s_flights s) /\ f_run g = r_id o /\ j_id (f_job g) = r_job o) <-> r_id o <> f_run f /\ r_status o = Running) as Hx.
    { split.
      - intros (g & [Hg Hne]%elem_of_filter_b & E1 & E2). apply negb_true_iff, bool_decide_eq_false in Hne. split; [|apply H4; [done|]; by exists g]. intros E. apply Hne. by rewrite (id_of f_run _ g f H3 Hg Hf ltac:(congruence)).
      - intros [Hne Hs]. apply H4 in Hs as (g & Hg & E1 & E2); [|done]. exists g. split; [|done]. apply elem_of_filter_b. split; [done|]. apply negb_true_iff, bool_decide_eq_false. intros E.
        apply Hne. rewrite <- E1. by rewrite (id_of (fun f => j_id (f_job f)) _ g f H2 Hg Hf E). }
    destruct (bool_decide (r_id o = f_run f)) eqn:E.
    + apply bool_decide_eq_true in E. simpl. rewrite Hx. split; [by destruct out.2|]. by intros [? _].
    + apply bool_decide_eq_false in E. rewrite Hx. tauto.
Qed.
Lemma same_runs_refl db : same_runs db db.
Proof. by intros r. Qed.
Lemma flights_fresh s now : flights_ok (startScheduler cron_ok s now).
Proof.
  constructor; simpl; [done|constructor|constructor|]. intros r (o & -> & Ho)%list_elem_of_fmap. split.
  - case_bool_decide; done.
  - by intros (f & ?%not_elem_of_nil & _).
Qed.
Lemma backup_flights_step s e : bdb_ok (s_db s) -> timely s e -> flights_ok s -> flights_ok (step s e).
Proof.
  intros Hdb Ht Hok. assert (forall db, same_runs (s_db s) db -> flights_ok (on_db s db)) as Hon by (intros db Hs; by eapply backup_flights_db).
  assert (forall s', flights_ok s' -> flights_ok (rebuildSchedule cron_ok s')) as Hre by (intros s' [H1 H2 H3 H4]; by constructor).
  assert (forall s' a o, flights_ok s' -> flights_ok (audited s' a o)) as Hau by (intros s' a o [H1 H2 H3 H4]; by constructor).
  destruct e; simpl in *; unfold with_job.
  - case_bool_decide; [by apply backup_flights_start|done].
  - destruct (BackupJobByID _ _); [by apply backup_flights_start|done].
  - destruct (List.find _ _) as [f|] eqn:E; [|done]. apply List.find_some in E as [Hin E]. apply list_elem_of_In in Hin. apply bool_decide_eq_true in E. by apply backup_flights_end; [|apply Ht|].
  - unfold handleCreateBackupJob. destruct (rbind (rguard (jc_allowed c) Forbidden) _) as [db|err] eqn:E; [|done]. apply Hau, Hre, Hon. inv_res. cbn beta zeta in *. inv_res. destruct (Seal _); [|done]. destruct (CreateBackupJob _ _) as [db'|[]] eqn:Ec; try done. inv_res.
    apply create_job_runs in Ec. intros r. by rewrite Ec.
  - destruct (BackupJobByID _ _); [|done]. apply Hau, Hre, Hon. by intros r [Hr _]%elem_of_filter_b.
  - destruct (BackupJobByID _ _); [|done]. unfold handleSetBackupSchedule. destruct (_ && _); [done|]. apply Hau, Hre, Hon. by intros r.
  - destruct (BackupJobByID _ _); [|done]. apply Hau, Hre, Hon. by intros r.
  - unfold handleCreateStorage. destruct (rbind _ _) as [db|err] eqn:E; [|done]. apply Hau, Hon. inv_res. destruct (Seal _); [|done]. unfold CreateStorageTarget in *. destruct (_ || _); [done|]. inv_res. by intros r.
  - unfold handleUpdateStorage. destruct (StorageTargetByID _ _); [|done]. destruct (rbind _ _) as [db|err] eqn:E; [|done]. apply Hau, Hon. inv_res. destruct (Seal _); [|done]. unfold UpdateStorageTarget in *. destruct (_ && _); [done|]. inv_res. by intros r.
  - unfold handleDeleteStorage. destruct (StorageTargetByID _ _); [|done]. case_match; [done|]. unfold DeleteStorageTarget. destruct (_ && _); [done|]. apply Hau, Hon. by intros r.
  - unfold handleCreateKey. destruct (negb _); [done|]. destruct (if bool_decide _ then _ else _) as [[rcp src]|]; [|done]. unfold CreateEncryptionKey. destruct (_ || _); [done|]. apply Hau, Hon. by intros r.
  - unfold handleDeleteKey. destruct (EncryptionKeyByID _ _); [|done]. case_match; [done|]. unfold DeleteEncryptionKey. destruct (_ && _); [done|]. apply Hau, Hon. by intros r.
  - case_bool_decide; [done|]. apply Hon. by intros r.
  - apply Hon. by intros r [Hr _]%elem_of_filter_b.
  - apply flights_fresh.
Qed.

(** C30: A run is recorded as running exactly while it is in flight, and a job never
    has two: however triggers, edits, deletions and restarts fall, provided that
    no backup takes the four hours it is given. *)
Theorem runs_are_honest (db : BDB) (t0 : Z) (es : list BackupEvent) : bdb_ok db -> let s0 := startScheduler cron_ok (mkServer db ∅ [] [] [] [] []) t0 in
  (forall n e, es !! n = Some e -> timely (fold_left step (take n es) s0) e) -> flights_ok (fold_left step es s0).
Proof.
  intros Hdb s0 Ht. assert (bdb_ok (s_db s0)) as Hdb0 by (apply (step_sound (mkServer db ∅ [] [] [] [] []) (Restart t0) Hdb)).
  pose proof (flights_fresh (mkServer db ∅ [] [] [] [] []) t0 : flights_ok s0) as H0.
  revert Hdb0 H0 Ht. generalize s0. clear s0 Hdb. induction es as [|e es IH]; intros s Hdb Hs Ht; [done|]. simpl. apply IH.
  - by apply step_sound.
  - apply backup_flights_step; [done| |done]. exact (Ht 0%nat e eq_refl).
  - intros n x Hx. exact (Ht (S n) x Hx).
Qed.

(** What a run leaves behind once it ended, whatever the time. *)
Lemma end_frees (s : Server) (f : Flight) (bs : Buckets) (out : Outcome) (now : Z) : (j_id (f_job f) ∉ s_running (runBackup_end text s f bs out now)) /\ s_buckets (runBackup_end text s f bs out now) = bs.
Proof.
  unfold runBackup_end. destruct (match out.1 with Some _ => _ | None => _ end) as [bytes key]. split; [|by destruct (now <? _)].
  simpl. intros [_ Hne]%elem_of_filter_b. apply negb_true_iff, bool_decide_eq_false in Hne. done.
Qed.

(** C32: However a backup ends within the four hours it is given — stored, refused by
    a host, a target or a key, a dump or an upload that failed — it is told, while
    the tables can be written: the row of its run, and no other, has the verdict, the size and the name of what
    was stored and the error; one notice goes out that says whether it failed,
    with the size; one line is audited with the same verdict; the slot is free. *)
Theorem every_end_is_told (s : Server) (f : Flight) (bs : Buckets) (out : Outcome) (now : Z) (r : BackupRun) : NoDup (map r_id (runs (s_db s))) -> r ∈ runs (s_db s) -> r_id r = f_run f ->
  now < f_began f + backupDeadline ->
  let s' := runBackup_end text s f bs out now in
  (j_id (f_job f) ∉ s_running s') /\ s_buckets s' = bs /\
  (forall o, o ∈ runs (s_db s') -> r_id o = f_run f ->
    o = mkBRun (r_id r) (r_job r) (match out.2 with None => Succeeded | Some _ => Failed end) (r_trigger r) (match out.1 with Some (_, n) => n | None => 0 end) (match out.1 with Some (k, _) => k | None => "" end)
      (match out.2 with None => "" | Some e => text e end) (r_started r) (Some now) (r_by r)) /\
  map r_id (runs (s_db s')) = map r_id (runs (s_db s)) /\ (forall o, o ∈ runs (s_db s') -> r_id o <> f_run f -> o ∈ runs (s_db s)) /\
  s_told s' = s_told s ++ [mkNotice (negb (bool_decide (out.2 = None))) (j_name (f_job f)) (match out.1 with Some (_, n) => n | None => 0 end)] /\
  s_audit s' = s_audit s ++ [("backup.run", match out.2 with Some _ => "error" | None => "ok" end)].
Proof.
  intros Hn Hr Hid Hlt%Z.ltb_lt s'. destruct (end_frees s f bs out now) as [Hfree Hbs]. split; [exact Hfree|]. split; [exact Hbs|]. clear Hfree Hbs. unfold s', runBackup_end.
  destruct (match out.1 with Some _ => _ | None => _ end) as [bytes key] eqn:Eb. rewrite Hlt.
  assert (bytes = match out.1 with Some (_, n) => n | None => 0 end /\ key = match out.1 with Some (k, _) => k | None => "" end) as [-> ->] by (destruct out.1 as [[? ?]|]; by injection Eb as <- <-). simpl. split_and!.
  - intros o (x & -> & Hx)%list_elem_of_fmap. destruct (decide (r_id x = f_run f)) as [E|E]; [|by rewrite bool_decide_eq_false_2 by done].
    assert (x = r) as -> by (apply (NoDup_map_inj r_id (runs (s_db s))); [done..|congruence]). rewrite bool_decide_eq_true_2 by done. intros _. by destruct out.2.
  - rewrite map_map. apply map_ext. intros x. by case_bool_decide.
  - intros o (x & -> & Hx)%list_elem_of_fmap. by case_bool_decide.
  - by destruct out.2.
  - done.
Qed.

(** A backup that took longer frees the slot and leaves no other trace: its row
    says that it is running, nobody is told, nothing is audited — until the next
    start of the server, which fails it for another reason. *)
Theorem late_end_is_silent (s : Server) (f : Flight) (bs : Buckets) (out : Outcome) (now later : Z) (r : BackupRun) : r ∈ runs (s_db s) -> r_status r = Running -> f_began f + backupDeadline <= now ->
  let s' := runBackup_end text s f bs out now in
  (j_id (f_job f) ∉ s_running s') /\ s_buckets s' = bs /\ s_db s' = s_db s /\ s_told s' = s_told s /\ s_audit s' = s_audit s /\
    exists o, o ∈ runs (s_db (startScheduler cron_ok s' later)) /\ r_id o = r_id r /\ r_status o = Failed /\ r_error o = "the server stopped while this backup was running" /\ r_object o = r_object r.
Proof.
  intros Hr Hst Hge%Z.ltb_ge s'. destruct (end_frees s f bs out now) as [Hfree Hbs]. split; [exact Hfree|]. split; [exact Hbs|]. clear Hfree Hbs. unfold s', runBackup_end.
  destruct (match out.1 with Some _ => _ | None => _ end) as [bytes key]. rewrite Hge. simpl. split_and!; try done. eexists. split; [apply list_elem_of_fmap; exists r; split; [reflexivity|done]|]. by rewrite bool_decide_eq_true_2.
Qed.

(** The cron after every change of a job is the jobs that are on and have a
    schedule; a job that is gone or off does not run on it. *)
Definition edits_jobs (s : Server) (e : BackupEvent) : bool :=
  match e with
  | CreateJob c req => bool_decide ((handleCreateBackupJob Seal cron_ok s c req).2 = None)
  | DeleteJob id | Toggle id => is_ok (BackupJobByID (s_db s) id)
  | SetSchedule id schedule => match BackupJobByID (s_db s) id with Ok j => bool_decide ((handleSetBackupSchedule cron_ok s j schedule).2 = None) | Err _ => false end
  | Restart _ => true
  | _ => false
  end.
Lemma scheduled_elem db id sch : (id, sch) ∈ scheduled_jobs cron_ok db <-> exists j, j ∈ jobs db /\ j_id j = id /\ j_schedule j = sch /\ j_enabled j = true /\ sch <> "" /\ cron_ok sch = true.
Proof.
  unfold scheduled_jobs, AllBackupJobs, ListBackupJobs. rewrite list_elem_of_fmap. split.
  - intros (a & [= -> ->] & [Ha Hc]%elem_of_filter_b). apply list_elem_of_fmap in Ha as (j & -> & Hj). apply elem_of_ssort, elem_of_filter_b in Hj as [Hj _]. simpl in *. apply andb_prop in Hc as [[H1 H2]%andb_prop H3]. apply negb_true_iff, bool_decide_eq_false in H2. by exists j.
  - intros (j & Hj & <- & <- & He & Hs & Hc). exists (attachJobKeys db j). split; [done|]. apply elem_of_filter_b. simpl. rewrite He, Hc, bool_decide_eq_false_2 by done. split; [|done]. apply list_elem_of_fmap. exists j. split; [done|]. by apply elem_of_ssort, elem_of_filter_b.
Qed.
Theorem backup_schedule (s : Server) (e : BackupEvent) : edits_jobs s e = true ->
  forall id sch, (id, sch) ∈ s_entries (step s e) <-> exists j, j ∈ jobs (s_db (step s e)) /\ j_id j = id /\ j_schedule j = sch /\ j_enabled j = true /\ sch <> "" /\ cron_ok sch = true.
Proof.
  intros He id sch. rewrite <- scheduled_elem. assert (s_entries (step s e) = scheduled_jobs cron_ok (s_db (step s e))) as ->; [|done]. destruct e; simpl in *; try done; unfold with_job.
  - unfold handleCreateBackupJob in *. destruct (rbind (rguard (jc_allowed c) Forbidden) _) as [db|err]; [done|]. by apply bool_decide_eq_true in He.
  - by destruct (BackupJobByID _ _).
  - destruct (BackupJobByID _ _); [|done]. unfold handleSetBackupSchedule in *. destruct (_ && _); [by apply bool_decide_eq_true in He|done].
  - by destruct (BackupJobByID _ _).
Qed.

(** ** What can be fetched *)

(** The snapshots a job can fetch are those its listing shows: the objects
    under its prefix, as they are in the bucket, and none of another's; a name
    with a segment [..] never. What the job itself stored it can fetch, unless its
    own prefix has such a segment. *)
Theorem downloads_stay_under_prefix (s : Server) (s3 : S3) (job : BackupJob) (key : string) (spec : Spec) (dst : Dest) : jobConfig Open (s_db s) job = Ok (spec, dst) -> s3_client s3 = None ->
  (forall data, (handleSnapshotDownload Open s s3 job key).2 = Ok data <->
    key <> "" /\ dotdot key = false /\ strings.HasPrefix key (dir_prefix (j_prefix job)) = true /\ exists o, bucket_of (s_buckets s) dst !! key = Some o /\ o_data o = data) /\
  (forall l, handleSnapshots Open s s3 job = Ok l -> forall x, x ∈ l -> strings.HasPrefix (sn_key x) (dir_prefix (j_prefix job)) = true /\ exists o, bucket_of (s_buckets s) dst !! sn_key x = Some o /\ sn_size x = Z.of_nat (String.length (o_data o))) /\
  (forall base ext t, no_char slash base -> no_char slash ext -> keyUnderPrefix (objectKey (j_prefix job) base ext t) (j_prefix job) = negb (dotdot (strings.Trim (j_prefix job) "/"))).
Proof.
  intros Hc H3. assert (ds_prefix dst = j_prefix job) as Hp by (unfold jobConfig in Hc; destruct (Open _); [|done]; destruct (StorageTargetByID _ _); [|done]; destruct (Open (st_secret _)); [|done]; by destruct (if Encrypted job then _ else _); [injection Hc as _ <-|]).
  split_and!.
  - intros data. unfold handleSnapshotDownload. case_bool_decide; [split; [done|by intros [? _]]|]. rewrite Hc. cbv iota beta. rewrite Hp, keyUnderPrefix_spec. unfold Fetch. rewrite H3. destruct (dotdot key); simpl; [split; [done|by intros (_ & ? & _)]|].
    destruct (strings.HasPrefix key _); simpl; [|split; [done|by intros (_ & _ & ? & _)]]. destruct (bucket_of _ _ !! key) as [o|]; simpl; [|split; [done|by intros (_ & _ & _ & o & ? & _)]]. split; [intros [= <-]; split_and!; try done; by exists o|]. by intros (_ & _ & _ & o' & [= <-] & <-).
  - intros l. unfold handleSnapshots. rewrite Hc. cbn [rbind]. unfold ListStored. rewrite H3. cbn [snd]. rewrite Hp. intros [= <-] x Hx.
    assert (x ∈ map stored_of (List.filter (fun e => strings.HasPrefix e.1 (dir_prefix (j_prefix job))) (map_to_list (bucket_of (s_buckets s) dst)))) as Hin.
    { revert Hx. destruct (50 <? _)%nat; intros Hx; [apply elem_of_take in Hx as (i & Hx & _); apply list_elem_of_lookup_2 in Hx|]; by apply elem_of_ssort in Hx. }
    apply list_elem_of_fmap in Hin as ([k o] & -> & [Hk Hpre]%elem_of_filter_b). split; [done|]. exists o. split; [by apply elem_of_map_to_list in Hk|done].
  - intros base ext t. apply objectKey_own.
Qed.
End Server.

(** ** Restoring a volume *)

Lemma Restore_other disk vol archive e v : v <> vol -> (Restore disk vol archive e).1 !! v = disk !! v.
Proof. intros Hne. destruct e; simpl; try done; by rewrite lookup_insert_ne. Qed.
Lemma Wipe_other disk vol e v : v <> vol -> (Wipe disk vol e).1 !! v = disk !! v.
Proof. intros Hne. unfold Wipe. destruct (disk !! vol); [|done]. destruct e; simpl; by rewrite lookup_insert_ne. Qed.

(** A restore of a volume touches nothing but that volume, on the one node that
    has it or on the only node there is. While a container is known to mount it,
    it touches nothing; a volume that holds files and may not be wiped keeps
    exactly them, as long as the daemon answers when it is asked whether the
    volume is there. *)
Theorem restore_is_guarded (s s' : Server) (env : option Env) (vc : VolCalls) (job : BackupJob) (wipe : bool) (archive : list (string * Blob)) (d : option (string * Disk)) (r : RestoreReply) :
  restoreVolume s env vc job wipe archive = (s', d, r) ->
  match d with
  | None => s' = s /\ r <> Restored
  | Some (node, disk) => exists m, volumeNode env (j_volume job) true = Ok m /\ nd_name m = node /\ (forall v, v <> j_volume job -> disk !! v = nd_disk m !! v) /\ (vc_users vc = Some [] \/ vc_users vc = None) /\
      (forall w, nd_disk m !! j_volume job = Some w -> clean_volume w -> w <> ∅ -> vc_inspect vc = true -> wipe = false -> disk = nd_disk m /\ (r = VolumeNotEmpty \/ r = VolumeUnreadable))
  end.
Proof.
  unfold restoreVolume. destruct (volumeNode env (j_volume job) true) as [m|e]; [|by intros [= <- <- <-]].
  assert (forall x : Server * option (string * Disk) * RestoreReply,
    (x = (s', d, r) -> match d with None => s' = s /\ r <> Restored | Some (node, disk) => nd_name m = node /\ (forall v, v <> j_volume job -> disk !! v = nd_disk m !! v) /\
      (forall w, nd_disk m !! j_volume job = Some w -> clean_volume w -> w <> ∅ -> vc_inspect vc = true -> wipe = false -> disk = nd_disk m /\ (r = VolumeNotEmpty \/ r = VolumeUnreadable)) end) ->
    match vc_users vc with Some (u :: us) => (s, None, VolumeInUse (u :: us)) | _ => x end = (s', d, r) ->
    match d with None => s' = s /\ r <> Restored | Some (node, disk) => exists m', Ok m = (Ok m' : res SvcErr Node) /\ nd_name m' = node /\ (forall v, v <> j_volume job -> disk !! v = nd_disk m' !! v) /\ (vc_users vc = Some [] \/ vc_users vc = None) /\
      (forall w, nd_disk m' !! j_volume job = Some w -> clean_volume w -> w <> ∅ -> vc_inspect vc = true -> wipe = false -> disk = nd_disk m' /\ (r = VolumeNotEmpty \/ r = VolumeUnreadable)) end) as Hu.
  { intros x Hx Hm. destruct (vc_users vc) as [[|u us]|].
    - specialize (Hx Hm). destruct d as [[node disk]|]; [|done]. destruct Hx as (H1 & H2 & H3). exists m. split_and!; try done. by left.
    - by injection Hm as <- <- <-.
    - specialize (Hx Hm). destruct d as [[node disk]|]; [|done]. destruct Hx as (H1 & H2 & H3). exists m. split_and!; try done. by right. }
  apply Hu. clear Hu. set (vol := j_volume job). destruct (vc_inspect vc && bool_decide (is_Some (nd_disk m !! vol))) eqn:Ee.
  - destruct wipe; simpl.
    + pose proof (Wipe_other (nd_disk m) vol (vc_wipe vc)) as Hw. destruct (Wipe (nd_disk m) vol (vc_wipe vc)) as [disk [|]]; simpl in *; [|intros [= <- <- <-]; by split_and!].
      pose proof (Restore_other disk vol archive (vc_write vc)) as Hr. destruct (Restore disk vol archive (vc_write vc)) as [disk' [|]]; simpl in Hr; intros [= <- <- <-]; (split_and!; [done| |done]); intros v Hv; by rewrite Hr, Hw.
    + destruct (vc_look vc); [|intros [= <- <- <-]; split_and!; [done|done|]; intros; split; [done|by right]].
      destruct (IsEmpty (nd_disk m) vol ["./"]) as [[]|] eqn:El; simpl; [|intros [= <- <- <-]; split_and!; [done|done|]; intros; split; [done|by left]|intros [= <- <- <-]; split_and!; [done|done|]; intros; split; [done|by right]].
      pose proof (Restore_other (nd_disk m) vol archive (vc_write vc)) as Hr. destruct (Restore (nd_disk m) vol archive (vc_write vc)) as [disk' [|]]; simpl in Hr; intros [= <- <- <-]; (split_and!; [done|done|]); intros w Hw Hc Hne; destruct Hne; by eapply empty_look.
  - simpl. pose proof (Restore_other (nd_disk m) vol archive (vc_write vc)) as Hr.
    assert (forall w, nd_disk m !! vol = Some w -> clean_volume w -> w <> ∅ -> vc_inspect vc = true -> False) as Hno by (intros w Hw _ _ Hi; rewrite Hi, Hw, bool_decide_eq_true_2 in Ee; done).
    destruct (Restore (nd_disk m) vol archive (vc_write vc)) as [disk' [|]]; simpl in Hr; intros [= <- <- <-]; (split_and!; [done|done|]); intros w Hw Hc Hne Hi; destruct (Hno w Hw Hc Hne Hi).
Qed.
(** One failed call and the restore merges two states of a volume: when the daemon
    does not answer whether the volume is there, it is neither wiped nor looked
    at, and when it does not say which containers mount it, none is known. *)
Theorem failed_look_merges (s : Server) (env : option Env) (job : BackupJob) (wipe : bool) (archive : list (string * Blob)) (m : Node) : volumeNode env (j_volume job) true = Ok m ->
  exists s' disk, restoreVolume s env (mkVC None false RemoveDone true WriteDone) job wipe archive = (s', Some (nd_name m, disk), Restored) /\
    volume_of disk (j_volume job) = extract archive (volume_of (nd_disk m) (j_volume job)).
Proof. intros Hm. unfold restoreVolume. rewrite Hm. simpl. do 2 eexists. split; [reflexivity|]. unfold volume_of at 1. by rewrite lookup_insert_eq. Qed.
