(* ===== verification/BackupDemo.v ===== *)
(** * Backups: two hosts and one bucket

    An instance of the formats the backups are written in, a server with two
    databases and a volume, and the theorems of [BackupCases] and [BackupRuns] on
    it, with what goes wrong. *)
From stdpp Require Import countable.
From S2P Require Import Prelude GoStd Paths Timestamps Sans VolSources Keyrings Volumes CleanupCases BackupStore Backups BackupFlow BackupCases BackupRuns.
Local Open Scope string_scope.
Local Open Scope list_scope.
Local Open Scope daffa_scope.
Local Open Scope Z_scope.

(** ** Formats *)

(** A header of recipients, each character marked, then what is hidden. *)
Fixpoint mark (r s : string) : string := match r with "" => String "R" s | String c r => String "C" (String c (mark r s)) end.
Fixpoint header (rs : list string) (s : string) : string := match rs with [] => String "E" s | r :: rs => mark r (header rs s) end.
Fixpoint walk (id s cur : string) : bool * string :=
  match s with
  | String "C" (String c s) => walk id s (cur +:+ String c "")
  | String "R" s => let '(b, rest) := walk id s "" in (bool_decide (cur = id) || b, rest)
  | String "E" s => (false, s)
  | _ => (false, "")
  end.
Lemma walk_mark id r s : forall cur, walk id (mark r s) cur = let '(b, rest) := walk id s "" in (bool_decide (cur +:+ r = id) || b, rest).
Proof.
  induction r as [|c r IH]; intros cur; [cbn [mark walk]; by rewrite app_nil_s|]. cbn [mark walk]. rewrite IH. by rewrite app_assoc_s.
Qed.
Lemma walk_header id rs s : walk id (header rs s) "" = (bool_decide (id ∈ rs), s).
Proof.
  induction rs as [|r rs IH]; [done|]. cbn [header]. rewrite walk_mark, IH. rewrite app_empty_s. f_equal. rewrite <- bool_decide_or. apply bool_decide_ext. rewrite elem_of_cons. naive_solver.
Qed.
#[export] Instance plain_codec : Codec := {|
  gzip := fun s => String "G" s; gunzip := fun s => match s with String "G" r => Some r | _ => None end;
  valid_recipient := fun r => strings.HasPrefix r "age1"; age_encrypt := fun rs s => String "A" (header rs s);
  age_decrypt := fun id s => match s with String "A" t => let '(b, rest) := walk ("age1" +:+ id) t "" in if b then Some rest else None | _ => None end;
  recipient_of := fun id => "age1" +:+ id |}.
#[export] Instance plain_laws : CodecLaws plain_codec.
Proof.
  constructor; simpl; try done.
  - intros rs id s H. rewrite walk_header. by rewrite bool_decide_eq_true_2.
  - intros rs id s H. rewrite walk_header. by rewrite bool_decide_eq_false_2.
Qed.

Fixpoint bits (p : positive) : string := match p with xH => "" | xO p => String "0" (bits p) | xI p => String "1" (bits p) end.
Fixpoint pos_of (s : string) : positive := match s with String "0" s => xO (pos_of s) | String "1" s => xI (pos_of s) | _ => xH end.
Lemma pos_bits p : pos_of (bits p) = p.
Proof. induction p as [p IH|p IH|]; simpl; by rewrite ?IH. Qed.
#[export] Instance Blob_countable : Countable Blob.
Proof. apply (inj_countable' (fun b => (b_data b, b_mode b, b_uid b, b_gid b)) (fun x => mkBlob x.1.1.1 x.1.1.2 x.1.2 x.2)). by intros []. Defined.
#[export] Instance plain_tar : TarFormat := {| tar := fun es => bits (encode es); untar := fun s => decode (pos_of s) |}.
#[export] Instance plain_tar_laws : TarLaws plain_tar.
Proof. constructor. intros es. simpl. by rewrite pos_bits, decode_encode. Qed.

(** ** A server *)

Module BackupDemo.
Definition sealing (s : string) : option string := Some ("sealed " +:+ s).
Definition unsealing (s : string) : option string := if strings.HasPrefix s "sealed " then Some (strings.TrimPrefix s "sealed ") else None.
Definition any_cron (s : string) : bool := true.
Definition some_text (e : SvcErr) : string := match e with NoSuchContainer _ => "no container" | _ => "failed" end.
Definition age_reads (s : string) : option string := if bool_decide (s = "age1alice") then Some s else None.
Definition age_makes (t : Z) : string := "age1bob".
Lemma age_reads_good s r : age_reads s = Some r -> good_recipient r.
Proof. unfold age_reads. case_bool_decide; [|done]. intros [= <-]. subst. split_and!; [by vm_compute|by vm_compute|done]. Qed.
Lemma age_makes_good t : good_recipient (age_makes t).
Proof. split_and!; [by vm_compute|by vm_compute|done]. Qed.

Definition t0 : Z := 1783987200 * 1000000000.
Definition fresh : BDB := mkBDB ["env_a"; "env_b"] [] [] [] [] [].
Definition bucket : StorageRequest := mkSR "r2" "s3.example" "" "backups" "AK" "secret".
Definition job_on (env : string) : JobRequest := mkJR env "nightly" "db" "postgres" "" "" "pw" "0 3 * * *" "" "" "" "r2_id" "" "age" ["k1"].
Definition volume_job : JobRequest := mkJR "env_a" "files" "" "volume" "" "" "" "" "uploads" "web worker" "cache" "r2_id" "files" "none" [].
Definition sourceless : SDB := mkSDB [] ∅.
Definition jc (id : string) : JobContext := mkJC true (fun _ => true) sourceless id t0 "admin".
Definition setup : list BackupEvent := [CreateTarget (fun _ _ => true) bucket "r2_id" "admin" t0; CreateKey "ops" "age1alice" "k1" "admin" t0; CreateJob (jc "job_a") (job_on "env_a"); CreateJob (jc "job_b") (job_on "env_b"); CreateJob (jc "job_v") volume_job].
Abbreviation demo_step := (backup_step sealing unsealing any_cron some_text id age_reads age_makes).
Definition server : Server := Eval vm_compute in fold_left demo_step setup (startScheduler any_cron (mkServer fresh ∅ [] [] [] [] []) t0).

Example server_ready : map j_id (jobs (s_db server)) = ["job_a"; "job_b"; "job_v"] /\ s_entries server = [("job_a", "0 3 * * *"); ("job_b", "0 3 * * *")] /\ JobRecipients (s_db server) "job_a" = ["age1alice"].
Proof. vm_compute. done. Qed.

Definition files : Volume := {[ "img/1" := mkBlob "one" 420 1000 1000; "cache/x" := mkBlob "junk" 420 1000 1000 ]}.
Definition node_a : Node := mkNode "node1" true [mkContainer "web" "aa1" true; mkContainer "worker" "bb2" false; mkContainer "db" "cc3" true] {[ "uploads" := files ]}.
Definition node_b : Node := mkNode "node2" true [mkContainer "db" "dd4" true] ∅.
Definition hosts (env : string) : option Env := if bool_decide (env = "env_a") then Some (mkEnv false [node_a]) else if bool_decide (env = "env_b") then Some (mkEnv false [node_b]) else None.
Definition dumps (node container : string) (cmd : list string) : Exec := mkExec None ("dump of " +:+ container +:+ " on " +:+ node) None (Ok 0) "".
Definition fair : Weather := mkWeather hosts dumps (mkS3 None None true) (mkCalls (fun _ => None) (fun _ => false) (fun _ => None)) None.
Definition job_of (id : string) : BackupJob := match BackupJobByID (s_db server) id with Ok j => j | Err _ => mkJob "" "" "" "" "" "" "" "" "" "" "" "" "" "" "" [] false 0 "" end.
Definition dst_of (id : string) : Dest := match jobConfig unsealing (s_db server) (job_of id) with Ok (_, d) => d | Err _ => mkDest "" "" "" "" "" "" false "" end.
Definition spec_of (id : string) : Spec := match jobConfig unsealing (s_db server) (job_of id) with Ok (s, _) => s | Err _ => mkSpec "" "" "" "" end.

(** ** A dump, there and back *)

Definition run_a : Bucket * res PipeErr (string * Z) := Run ∅ (we_s3 fair) (dumps "node1" "db") (spec_of "job_a") (dst_of "job_a") t0.
Example run_a_stored : run_a.2 = Ok ("2026-07-14/postgres-20260714T000000Z.sql.gz.age", 41).
Proof. vm_compute. done. Qed.
Lemma dump_comes_back_witness : exists k n cmd plain data rs, run_a.2 = Ok (k, n) /\ dumpCommand (spec_of "job_a") = Ok cmd /\ plain = ex_data (dumps "node1" "db" cmd) /\ Fetch run_a.1 (we_s3 fair) k = Ok data /\ reads_as data plain (ds_encrypt (dst_of "job_a")) rs.
Proof.
  pose proof (dump_comes_back ∅ (we_s3 fair) (dumps "node1" "db") (spec_of "job_a") (dst_of "job_a") t0) as H. fold run_a in H. destruct run_a as [b' [[k n]|e]] eqn:E; [|exfalso; pose proof run_a_stored as Hs; rewrite E in Hs; discriminate Hs].
  destruct H as (cmd & plain & data & rs & H1 & _ & _ & H2 & _ & H3 & _ & H4 & _). exists k, n, cmd, plain, data, rs. split; [reflexivity|]. split; [exact H1|]. split; [exact H2|]. split; [exact (H3 eq_refl)|exact H4].
Defined.

(** Both jobs run at three. Both are told that all is well, and the bucket holds
    one dump, twice reported. *)
Definition run_b : Bucket * res PipeErr (string * Z) := Run run_a.1 (we_s3 fair) (dumps "node2" "db") (spec_of "job_b") (dst_of "job_b") (t0 + 300000000).
Lemma same_second_witness : run_b.2 = run_a.2 /\ exists k n, run_a.2 = Ok (k, n) /\ exists cmd data rs, dumpCommand (spec_of "job_b") = Ok cmd /\ run_b.1 !! k = Some (mkObject data (t0 + 300000000)) /\ reads_as data (ex_data (dumps "node2" "db" cmd)) (ds_encrypt (dst_of "job_b")) rs.
Proof.
  split; [vm_compute; reflexivity|]. exists "2026-07-14/postgres-20260714T000000Z.sql.gz.age", 41. split; [vm_compute; reflexivity|].
  destruct (same_second_overwrites ∅ (we_s3 fair) (we_s3 fair) (dumps "node1" "db") (dumps "node2" "db") (spec_of "job_a") (spec_of "job_b") (dst_of "job_a") (dst_of "job_b") t0 (t0 + 300000000) run_a.1 run_b.1
    "2026-07-14/postgres-20260714T000000Z.sql.gz.age" "2026-07-14/postgres-20260714T000000Z.sql.gz.age" 41 41) as (_ & cmd & data & rs & H1 & H2 & H3 & _).
  - vm_compute. reflexivity.
  - vm_compute. reflexivity.
  - vm_compute. reflexivity.
  - unfold in_range, t0. lia.
  - unfold in_range, t0. lia.
  - vm_compute. reflexivity.
  - vm_compute. reflexivity.
  - exists cmd, data, rs. split; [exact H1|]. split; [exact H2|exact H3].
Defined.

(** ** A volume, there and back *)

Definition files_clean : clean_volume files.
Proof.
  intros n b H. assert (forallb (fun e => bool_decide (path.Clean e.1 = e.1) && negb (path.IsAbs e.1) && negb (bool_decide (e.1 = "."))) (map_to_list files) = true) as Hall by (vm_compute; reflexivity).
  rewrite forallb_elem in Hall. specialize (Hall (n, b) ltac:(by apply elem_of_map_to_list)). simpl in Hall. apply andb_prop in Hall as [[H1 H2]%andb_prop H3]. by bd.
Qed.
Definition volume_run : Buckets * Outcome * option (string * list Container) := performVolumeBackup unsealing (s_db server) ∅ fair (job_of "job_v") t0.
Example volume_run_ok : volume_run.1.2.2 = None /\ volume_run.2 = Some ("node1", [mkContainer "web" "aa1" true; mkContainer "worker" "bb2" true; mkContainer "db" "cc3" true]).
Proof. vm_compute. done. Qed.

Lemma demo_fresh : bdb_ok (s_db (startScheduler any_cron (mkServer fresh ∅ [] [] [] [] []) t0)).
Proof.
  assert (s_db (startScheduler any_cron (mkServer fresh ∅ [] [] [] [] []) t0) = fresh) as -> by (vm_compute; reflexivity).
  split; unfold fresh; cbn [jobs ekeys runs job_keys map]; [by apply NoDup_nil_2|by apply NoDup_nil_2|by apply NoDup_nil_2|by apply NoDup_nil_2|by intros j H%not_elem_of_nil|by intros j k H%not_elem_of_nil|by intros j H%not_elem_of_nil|by intros r H%not_elem_of_nil|by constructor].
Qed.
Lemma server_ok : bdb_ok (s_db server).
Proof.
  assert (server = fold_left demo_step setup (startScheduler any_cron (mkServer fresh ∅ [] [] [] [] []) t0)) as -> by (vm_compute; reflexivity). apply steps_ok; [apply age_reads_good|apply age_makes_good|apply demo_fresh].
Qed.

Definition stored_files : string := match (bucket_of volume_run.1.1 (dst_of "job_v")) !! "files/2026-07-14/volume-uploads-20260714T000000Z.tar.gz" with Some o => o_data o | None => "" end.
Definition new_host : Env := mkEnv false [mkNode "node9" true [] ∅].
Lemma volume_comes_back_witness : exists sz, volume_run.1.2 = (Some ("files/2026-07-14/volume-uploads-20260714T000000Z.tar.gz", sz), None) /\
  exists archive, untar (tar archive) = Some archive /\ forall s' disk', restoreVolume server (Some new_host) (mkVC (Some []) true RemoveDone true WriteDone) (job_of "job_v") false archive = (s', Some ("node9", disk'), Restored) ->
    forall name, volume_of disk' "uploads" !! name = if existsb (under name) ["cache"] then None else files !! name.
Proof.
  destruct volume_run as [[bs' [[[k sz]|] err]] x] eqn:E; [|exfalso; vm_compute in E; discriminate E]. exists sz.
  assert (k = "files/2026-07-14/volume-uploads-20260714T000000Z.tar.gz" /\ err = None) as [-> ->] by (assert (volume_run.1.2 = (Some (k, sz), err)) as E2 by (by rewrite E); clear E; vm_compute in E2; by injection E2 as <- _ <-).
  split; [reflexivity|]. destruct (volume_comes_back unsealing (s_db server) ∅ bs' fair (job_of "job_v") t0 sz node_a files "files/2026-07-14/volume-uploads-20260714T000000Z.tar.gz" None x) as (spec & dst & archive & stored & rs & _ & _ & _ & _ & Hu & Hr).
  - reflexivity.
  - vm_compute. reflexivity.
  - exact files_clean.
  - exact E.
  - exists archive. split; [exact Hu|]. intros s' disk' Hres name. apply (Hr server (Some new_host) (mkVC (Some []) true RemoveDone true WriteDone) false s' "node9" disk'); [reflexivity| |exact Hres]. intros m w Hm. injection Hm as <-. vm_compute. discriminate.
Defined.

(** Somebody adds a key, tries to delete the one in use, moves a job and
    restarts the server. *)
Definition days : list BackupEvent := [CreateKey "spare" "" "k2" "admin" t0; DeleteKey "k1"; SetSchedule "job_a" "0 5 * * *"; Toggle "job_b"; RunNow "job_a" "r1" "ann" true t0; Restart (t0 + 1); DeleteJob "job_b"; Fire "job_a" "r2" true (t0 + 2)].
Definition row_a : BackupJob := row_of_job (job_of "job_a").
Lemma stay_encrypted_witness : Encrypted row_a = true /\ let s' := fold_left demo_step days server in exists j', BackupJobByID (s_db s') "job_a" = Ok j' /\ j_schedule j' = "0 5 * * *" /\
  forall bs we now bs' k n err, performBackup unsealing (s_db s') bs we j' now = (bs', (Some (k, n), err)) -> exists stored plain rs, (exists dst, bucket_of bs' dst !! k = Some (mkObject stored now)) /\ rs <> [] /\ (forall r, r ∈ rs <-> r ∈ JobRecipients (s_db server) "job_a") /\ reads_as stored plain true rs.
Proof.
  split; [vm_compute; reflexivity|]. destruct (backups_stay_encrypted sealing unsealing any_cron some_text id age_reads age_makes age_reads_good age_makes_good server days row_a) as (j' & Hj & Hb).
  - exact server_ok.
  - apply list_elem_of_In. left. vm_compute. reflexivity.
  - vm_compute. reflexivity.
  - intros n. apply (bool_decide_unpack _). do 9 (destruct n as [|n]; [vm_compute; reflexivity|]). vm_compute. reflexivity.
  - exists j'. split; [exact Hj|]. split; [pose proof Hj as Hj2; vm_compute in Hj2; by injection Hj2 as <-|]. intros bs we now bs' k n err Hrun. destruct (Hb bs we now bs' k n err Hrun) as (spec & dst & stored & plain & rs & _ & H2 & H3 & H4 & H5).
    exists stored, plain, rs. split; [exists dst; exact H2|]. split; [exact H3|]. split; [exact H4|exact H5].
Defined.

Lemma honest_witness : flights_ok (fold_left demo_step (days ++ [Ends "r2" ∅ (Some ("x", 1), None) (t0 + 3)]) (startScheduler any_cron (mkServer (s_db server) ∅ [] [] [] [] []) t0)).
Proof.
  apply (runs_are_honest sealing unsealing any_cron some_text id age_reads age_makes age_reads_good age_makes_good (s_db server) t0 (days ++ [Ends "r2" ∅ (Some ("x", 1), None) (t0 + 3)])).
  - exact server_ok.
  - intros n e He. do 9 (destruct n as [|n]; [injection He as <-; first [exact I|apply (bool_decide_unpack _); vm_compute; reflexivity|intros f Hf Hr; vm_compute in Hf; apply list_elem_of_singleton in Hf as ->; vm_compute; reflexivity]|]). discriminate He.
Defined.

(** A dump of five hours. *)
Definition flying : Server := Eval vm_compute in runBackup_start server "job_a" "r1" "schedule" "" true t0.
Definition flight : Flight := match s_flights flying with f :: _ => f | [] => mkFlight row_a "" "" "" 0 end.
Definition the_row : BackupRun := mkBRun "r1" "job_a" Running "schedule" 0 "" "" t0 None "".
Lemma silence_witness : let s' := runBackup_end some_text flying flight ∅ (None, Some EnvNotConnected) (t0 + 5 * 3600 * 1000000000) in
  LastBackupRun (s_db s') "job_a" = Ok the_row /\ s_told s' = [] /\ s_running s' = [] /\
  exists o, o ∈ runs (s_db (startScheduler any_cron s' (t0 + 1))) /\ r_id o = "r1" /\ r_status o = Failed /\ r_error o = "the server stopped while this backup was running".
Proof.
  split; [vm_compute; reflexivity|]. split; [vm_compute; reflexivity|]. split; [vm_compute; reflexivity|].
  destruct (late_end_is_silent any_cron some_text flying flight ∅ (None, Some EnvNotConnected) (t0 + 5 * 3600 * 1000000000) (t0 + 1) the_row) as (_ & _ & _ & _ & _ & o & H1 & H2 & H3 & H4 & _).
  - by left.
  - reflexivity.
  - vm_compute. discriminate.
  - exists o. split; [exact H1|]. split; [exact H2|]. split; [exact H3|exact H4].
Defined.

(** And one of an hour that stored its dump, and one that was refused. *)
Lemma told_witness : let ends out := runBackup_end some_text flying flight ∅ out (t0 + 3600 * 1000000000) in
  s_told (ends (Some ("a.age", 7), None)) = s_told flying ++ [mkNotice false "nightly" 7] /\ s_told (ends (None, Some EnvNotConnected)) = s_told flying ++ [mkNotice true "nightly" 0] /\
  forall o, o ∈ runs (s_db (ends (Some ("a.age", 7), None))) -> r_id o = "r1" -> r_status o = Succeeded /\ r_object o = "a.age".
Proof.
  assert (NoDup (map r_id (runs (s_db flying)))) as Hn by (apply (bool_decide_unpack _); vm_compute; reflexivity).
  assert (forall out, _) as H by (intros out; exact (every_end_is_told some_text flying flight ∅ out (t0 + 3600 * 1000000000) the_row Hn ltac:(by left) eq_refl eq_refl)).
  split; [|split].
  - by destruct (H (Some ("a.age", 7), None)) as (_ & _ & _ & _ & _ & -> & _).
  - by destruct (H (None, Some EnvNotConnected)) as (_ & _ & _ & _ & _ & -> & _).
  - intros o Ho Hid. destruct (H (Some ("a.age", 7), None)) as (_ & _ & Hrow & _). by rewrite (Hrow o Ho Hid).
Defined.

(** A job may fetch its own snapshot, and nothing by climbing. *)
Definition filled : Server := mkServer (s_db server) volume_run.1.1 [] [] [] [] [].
Lemma downloads_witness : jobConfig unsealing (s_db filled) (job_of "job_v") = Ok (spec_of "job_v", dst_of "job_v") /\
  is_ok (handleSnapshotDownload unsealing filled (we_s3 fair) (job_of "job_v") "files/2026-07-14/volume-uploads-20260714T000000Z.tar.gz").2 = true /\
  (forall data, (handleSnapshotDownload unsealing filled (we_s3 fair) (job_of "job_v") "files/../secret").2 <> Ok data).
Proof.
  split; [vm_compute; reflexivity|]. split; [vm_compute; reflexivity|]. intros data H.
  apply (proj1 (downloads_stay_under_prefix unsealing filled (we_s3 fair) (job_of "job_v") "files/../secret" (spec_of "job_v") (dst_of "job_v") ltac:(vm_compute; reflexivity) eq_refl)) in H as (_ & H & _). vm_compute in H. discriminate H.
Defined.

(** The volume is not empty, and stays as it is. *)
Lemma guarded_witness : restoreVolume server (hosts "env_a") (mkVC (Some []) true RemoveDone true WriteDone) (job_of "job_v") false [("./x", mkBlob "2" 420 0 0)] = (server, Some ("node1", nd_disk node_a), VolumeNotEmpty) /\
  exists m, volumeNode (hosts "env_a") "uploads" true = Ok m /\ forall v, v <> "uploads" -> nd_disk node_a !! v = nd_disk m !! v.
Proof.
  assert (restoreVolume server (hosts "env_a") (mkVC (Some []) true RemoveDone true WriteDone) (job_of "job_v") false [("./x", mkBlob "2" 420 0 0)] = (server, Some ("node1", nd_disk node_a), VolumeNotEmpty)) as E by (vm_compute; reflexivity).
  split; [exact E|]. destruct (restore_is_guarded server server (hosts "env_a") (mkVC (Some []) true RemoveDone true WriteDone) (job_of "job_v") false _ _ _ E) as (m & H1 & _ & H2 & _). exists m. split; [exact H1|exact H2].
Defined.

(** ** What goes wrong *)

(** A name that is all hexadecimal is also the beginning of an id: the dump of the
    database is taken from the web server next to it. *)
Definition crowded : Env := mkEnv true [mkNode "node1" true [mkContainer "web" "db07" true; mkContainer "db" "4e11" true] ∅].
Example id_prefix_wins : backupNode (Some crowded) "db" = Ok (mkNode "node1" true [mkContainer "web" "db07" true; mkContainer "db" "4e11" true] ∅, "web").
Proof. vm_compute. reflexivity. Qed.
(** The same key twice is answered as a name that is taken. *)
Definition doubled : JobRequest := mkJR "env_a" "other" "db" "postgres" "" "" "pw" "" "" "" "" "r2_id" "" "age" ["k1"; "k1"].
Example key_twice_is_name_taken : (handleCreateBackupJob sealing any_cron server (jc "job_x") doubled).2 = Some NameTaken.
Proof. vm_compute. reflexivity. Qed.
(** Two databases of one server are accepted, and no run of the job ever dumps
    them. *)
Definition pair : JobRequest := mkJR "env_a" "pair" "db" "postgres" "shop crm" "" "pw" "" "" "" "" "r2_id" "" "age" ["k1"].
Example two_databases_accepted : let s := (handleCreateBackupJob sealing any_cron server (jc "job_x") pair).1 in
  exists j, BackupJobByID (s_db s) "job_x" = Ok j /\ (performBackup unsealing (s_db s) ∅ fair j t0).2 = (None, Some (Pipe OneDatabase)).
Proof. eexists. split; vm_compute; reflexivity. Qed.
(** A consumer that was stopped before the snapshot runs after it. *)
Example stopped_consumer_runs : option_map snd volume_run.2 = Some [mkContainer "web" "aa1" true; mkContainer "worker" "bb2" true; mkContainer "db" "cc3" true] /\ ct_up <$> (nd_containers node_a !! 1%nat) = Some false.
Proof. vm_compute. done. Qed.
(** What a job stores under a prefix with a segment [..] it cannot fetch. *)
Example own_snapshot_refused : keyUnderPrefix (objectKey "a/../b" "postgres" ".sql.gz" t0) "a/../b" = false.
Proof. vm_compute. reflexivity. Qed.
Lemma empty_dump_witness : (Run ∅ (we_s3 fair) (fun _ => mkExec None "" None (Ok 0) "") (spec_of "job_a") (dst_of "job_a") t0).2 <> Err NoData.
Proof. exact (proj1 (empty_dump_is_stored ∅ (we_s3 fair) (fun _ => mkExec None "" None (Ok 0) "") (spec_of "job_a") (dst_of "job_a") t0)). Defined.
End BackupDemo.
