(* ===== verification/Caps.v ===== *)
(** * Capabilities: the registry and the sets a role or a user holds

    Models [internal/caps/caps.go] and [internal/caps/scoped.go]. A capability
    is a namespace and one bit in it; a set is a map from namespaces to 32-bit
    masks, a missing namespace and a zero mask being the same thing: [≡c] below
    is that equality, and every operation respects it. *)
From S2P Require Import Prelude GoStd.
Local Open Scope string_scope.
Local Open Scope list_scope.
Local Open Scope daffa_scope.

(** ** Data *)

Inductive CapMode := ModeView | ModeEdit | ModeStandalone.
Inductive CapScope := ScopeGlobal | ScopeEnv.
#[export] Instance CapMode_dec : EqDecision CapMode.
Proof. solve_decision. Defined.
#[export] Instance CapScope_dec : EqDecision CapScope.
Proof. solve_decision. Defined.

(** [Cap]: [Bit] is the mask [1 << n] itself, never the index. *)
Record Cap := mkCap { NS : string; Bit : N }.
#[export] Instance Cap_dec : EqDecision Cap.
Proof. solve_decision. Defined.

(** One row of the registry ([Description] is user-facing copy, left out). *)
Record Def := mkDef { DCap : Cap; Name : string; Object : string; Mode : CapMode; Scope : CapScope }.

(** [Set]: one [uint32] mask per namespace. *)
Abbreviation CapSet := (gmap string N).

Definition MaxBit : N := 30.

Definition NSDocker : string := "docker".
Definition NSDeploy : string := "deploy".
Definition NSData : string := "data".
Definition NSObserve : string := "observe".
Definition NSAdmin : string := "admin".
Definition NSSwarm : string := "swarm".
Definition NSCerts : string := "certs".
Definition NSKeyrings : string := "keyrings".
Definition NSSSHKeys : string := "sshkeys".
Definition NSManifests : string := "manifests".

(** [Namespaces], the registry of areas in display order (labels and descriptions are user-facing copy). *)
Definition Namespaces : list string :=
  [NSDocker; NSDeploy; NSData; NSObserve; NSSwarm; NSCerts; NSKeyrings; NSSSHKeys; NSManifests; NSAdmin].

Definition ContainersView : Cap := {| NS := NSDocker; Bit := N.shiftl 1 0 |}.
Definition ContainersEdit : Cap := {| NS := NSDocker; Bit := N.shiftl 1 1 |}.
Definition ContainersExec : Cap := {| NS := NSDocker; Bit := N.shiftl 1 2 |}.
Definition ImagesView : Cap := {| NS := NSDocker; Bit := N.shiftl 1 3 |}.
Definition ImagesEdit : Cap := {| NS := NSDocker; Bit := N.shiftl 1 4 |}.
Definition NetworksView : Cap := {| NS := NSDocker; Bit := N.shiftl 1 5 |}.
Definition NetworksEdit : Cap := {| NS := NSDocker; Bit := N.shiftl 1 6 |}.
Definition VolumesView : Cap := {| NS := NSDocker; Bit := N.shiftl 1 7 |}.
Definition VolumesEdit : Cap := {| NS := NSDocker; Bit := N.shiftl 1 8 |}.
Definition SystemPrune : Cap := {| NS := NSDocker; Bit := N.shiftl 1 9 |}.
Definition StacksView : Cap := {| NS := NSDeploy; Bit := N.shiftl 1 0 |}.
Definition StacksEdit : Cap := {| NS := NSDeploy; Bit := N.shiftl 1 1 |}.
Definition RegistriesView : Cap := {| NS := NSDeploy; Bit := N.shiftl 1 2 |}.
Definition RegistriesEdit : Cap := {| NS := NSDeploy; Bit := N.shiftl 1 3 |}.
Definition GitCredsView : Cap := {| NS := NSDeploy; Bit := N.shiftl 1 4 |}.
Definition GitCredsEdit : Cap := {| NS := NSDeploy; Bit := N.shiftl 1 5 |}.
Definition VolSourcesView : Cap := {| NS := NSDeploy; Bit := N.shiftl 1 6 |}.
Definition VolSourcesEdit : Cap := {| NS := NSDeploy; Bit := N.shiftl 1 7 |}.
Definition SecretsReveal : Cap := {| NS := NSDeploy; Bit := N.shiftl 1 8 |}.
Definition WebhooksView : Cap := {| NS := NSDeploy; Bit := N.shiftl 1 9 |}.
Definition WebhooksEdit : Cap := {| NS := NSDeploy; Bit := N.shiftl 1 10 |}.
Definition BackupsView : Cap := {| NS := NSData; Bit := N.shiftl 1 0 |}.
Definition BackupsEdit : Cap := {| NS := NSData; Bit := N.shiftl 1 1 |}.
Definition BackupsRestore : Cap := {| NS := NSData; Bit := N.shiftl 1 2 |}.
Definition BackupsDownload : Cap := {| NS := NSData; Bit := N.shiftl 1 3 |}.
Definition StorageView : Cap := {| NS := NSData; Bit := N.shiftl 1 4 |}.
Definition StorageEdit : Cap := {| NS := NSData; Bit := N.shiftl 1 5 |}.
Definition MonitorsView : Cap := {| NS := NSObserve; Bit := N.shiftl 1 0 |}.
Definition MonitorsEdit : Cap := {| NS := NSObserve; Bit := N.shiftl 1 1 |}.
Definition AuditView : Cap := {| NS := NSObserve; Bit := N.shiftl 1 2 |}.
Definition ServicesView : Cap := {| NS := NSSwarm; Bit := N.shiftl 1 0 |}.
Definition ServicesEdit : Cap := {| NS := NSSwarm; Bit := N.shiftl 1 1 |}.
Definition NodesEdit : Cap := {| NS := NSSwarm; Bit := N.shiftl 1 2 |}.
Definition SwarmEdit : Cap := {| NS := NSSwarm; Bit := N.shiftl 1 3 |}.
Definition CertsView : Cap := {| NS := NSCerts; Bit := N.shiftl 1 0 |}.
Definition CertsEdit : Cap := {| NS := NSCerts; Bit := N.shiftl 1 1 |}.
Definition KeysView : Cap := {| NS := NSCerts; Bit := N.shiftl 1 2 |}.
Definition KeysEdit : Cap := {| NS := NSCerts; Bit := N.shiftl 1 3 |}.
Definition FleetView : Cap := {| NS := NSCerts; Bit := N.shiftl 1 4 |}.
Definition FleetEdit : Cap := {| NS := NSCerts; Bit := N.shiftl 1 5 |}.
Definition KeyringsView : Cap := {| NS := NSKeyrings; Bit := N.shiftl 1 0 |}.
Definition KeyringsEdit : Cap := {| NS := NSKeyrings; Bit := N.shiftl 1 1 |}.
Definition SSHKeysView : Cap := {| NS := NSSSHKeys; Bit := N.shiftl 1 0 |}.
Definition SSHKeysEdit : Cap := {| NS := NSSSHKeys; Bit := N.shiftl 1 1 |}.
Definition ManifestsView : Cap := {| NS := NSManifests; Bit := N.shiftl 1 0 |}.
Definition UsersView : Cap := {| NS := NSAdmin; Bit := N.shiftl 1 0 |}.
Definition UsersEdit : Cap := {| NS := NSAdmin; Bit := N.shiftl 1 1 |}.
Definition RolesView : Cap := {| NS := NSAdmin; Bit := N.shiftl 1 2 |}.
Definition RolesEdit : Cap := {| NS := NSAdmin; Bit := N.shiftl 1 3 |}.
Definition SettingsView : Cap := {| NS := NSAdmin; Bit := N.shiftl 1 4 |}.
Definition SettingsEdit : Cap := {| NS := NSAdmin; Bit := N.shiftl 1 5 |}.
Definition ClustersView : Cap := {| NS := NSAdmin; Bit := N.shiftl 1 6 |}.
Definition ClustersEdit : Cap := {| NS := NSAdmin; Bit := N.shiftl 1 7 |}.
Definition LoggingView : Cap := {| NS := NSAdmin; Bit := N.shiftl 1 8 |}.
Definition LoggingEdit : Cap := {| NS := NSAdmin; Bit := N.shiftl 1 9 |}.
Definition ClustersProvision : Cap := {| NS := NSAdmin; Bit := N.shiftl 1 10 |}.

Definition All_docker : list Def :=
  [ mkDef ContainersView "containers.view" "containers" ModeView ScopeEnv;
    mkDef ContainersEdit "containers.edit" "containers" ModeEdit ScopeEnv;
    mkDef ContainersExec "containers.exec" "containers" ModeStandalone ScopeEnv;
    mkDef ImagesView "images.view" "images" ModeView ScopeEnv;
    mkDef ImagesEdit "images.edit" "images" ModeEdit ScopeEnv;
    mkDef NetworksView "networks.view" "networks" ModeView ScopeEnv;
    mkDef NetworksEdit "networks.edit" "networks" ModeEdit ScopeEnv;
    mkDef VolumesView "volumes.view" "volumes" ModeView ScopeEnv;
    mkDef VolumesEdit "volumes.edit" "volumes" ModeEdit ScopeEnv;
    mkDef SystemPrune "system.prune" "system" ModeStandalone ScopeEnv ].

Definition All_deploy : list Def :=
  [ mkDef StacksView "stacks.view" "stacks" ModeView ScopeEnv;
    mkDef StacksEdit "stacks.edit" "stacks" ModeEdit ScopeEnv;
    mkDef RegistriesView "registries.view" "registries" ModeView ScopeEnv;
    mkDef RegistriesEdit "registries.edit" "registries" ModeEdit ScopeGlobal;
    mkDef GitCredsView "gitcreds.view" "gitcreds" ModeView ScopeEnv;
    mkDef GitCredsEdit "gitcreds.edit" "gitcreds" ModeEdit ScopeGlobal;
    mkDef VolSourcesView "volsources.view" "volsources" ModeView ScopeEnv;
    mkDef VolSourcesEdit "volsources.edit" "volsources" ModeEdit ScopeEnv;
    mkDef WebhooksView "webhooks.view" "webhooks" ModeView ScopeEnv;
    mkDef WebhooksEdit "webhooks.edit" "webhooks" ModeEdit ScopeEnv;
    mkDef SecretsReveal "secrets.reveal" "secrets" ModeStandalone ScopeEnv ].

Definition All_data : list Def :=
  [ mkDef BackupsView "backups.view" "backups" ModeView ScopeEnv;
    mkDef BackupsEdit "backups.edit" "backups" ModeEdit ScopeEnv;
    mkDef BackupsRestore "backups.restore" "backups" ModeStandalone ScopeEnv;
    mkDef BackupsDownload "backups.download" "backups" ModeStandalone ScopeEnv;
    mkDef StorageView "storage.view" "storage" ModeView ScopeEnv;
    mkDef StorageEdit "storage.edit" "storage" ModeEdit ScopeGlobal ].

Definition All_observe : list Def :=
  [ mkDef MonitorsView "monitors.view" "monitors" ModeView ScopeEnv;
    mkDef MonitorsEdit "monitors.edit" "monitors" ModeEdit ScopeEnv;
    mkDef AuditView "audit.view" "audit" ModeView ScopeEnv ].

Definition All_swarm : list Def :=
  [ mkDef ServicesView "services.view" "services" ModeView ScopeEnv;
    mkDef ServicesEdit "services.edit" "services" ModeEdit ScopeEnv;
    mkDef NodesEdit "nodes.edit" "nodes" ModeStandalone ScopeEnv;
    mkDef SwarmEdit "swarm.edit" "swarm" ModeStandalone ScopeEnv ].

Definition All_certs : list Def :=
  [ mkDef CertsView "certs.view" "certs" ModeView ScopeEnv;
    mkDef CertsEdit "certs.edit" "certs" ModeEdit ScopeGlobal;
    mkDef KeysView "keys.view" "keys" ModeView ScopeEnv;
    mkDef KeysEdit "keys.edit" "keys" ModeEdit ScopeGlobal;
    mkDef FleetView "fleet.view" "fleet" ModeView ScopeEnv;
    mkDef FleetEdit "fleet.edit" "fleet" ModeEdit ScopeGlobal ].

Definition All_keyrings : list Def :=
  [ mkDef KeyringsView "keyrings.view" "keyrings" ModeView ScopeEnv;
    mkDef KeyringsEdit "keyrings.edit" "keyrings" ModeEdit ScopeGlobal;
    mkDef SSHKeysView "sshkeys.view" "sshkeys" ModeView ScopeEnv;
    mkDef SSHKeysEdit "sshkeys.edit" "sshkeys" ModeEdit ScopeGlobal ].

Definition All_manifests : list Def :=
  [ mkDef ManifestsView "manifests.view" "manifests" ModeView ScopeGlobal ].

Definition All_admin : list Def :=
  [ mkDef UsersView "users.view" "users" ModeView ScopeGlobal;
    mkDef UsersEdit "users.edit" "users" ModeEdit ScopeGlobal;
    mkDef RolesView "roles.view" "roles" ModeView ScopeGlobal;
    mkDef RolesEdit "roles.edit" "roles" ModeEdit ScopeGlobal;
    mkDef SettingsView "settings.view" "settings" ModeView ScopeGlobal;
    mkDef SettingsEdit "settings.edit" "settings" ModeEdit ScopeGlobal;
    mkDef ClustersProvision "clusters.provision" "clusters" ModeStandalone ScopeGlobal;
    mkDef ClustersView "clusters.view" "clusters" ModeView ScopeEnv;
    mkDef ClustersEdit "clusters.edit" "clusters" ModeEdit ScopeGlobal;
    mkDef LoggingView "logging.view" "logging" ModeView ScopeEnv;
    mkDef LoggingEdit "logging.edit" "logging" ModeEdit ScopeEnv ].

Definition All : list Def :=
  All_docker ++ All_deploy ++ All_data ++ All_observe ++ All_swarm ++ All_certs ++ All_keyrings ++ All_manifests ++ All_admin.

(** ** Reading and writing masks *)

(** [s[ns]]: a missing key reads as zero. *)
Definition mask (s : CapSet) (ns : string) : N := default 0%N (s !! ns).

(** [s[ns] |= m]. *)
Definition or_into (s : CapSet) (ns : string) (m : N) : CapSet := <[ns := N.lor (mask s ns) m]> s.

(** ** The lookups built by [init] *)

Definition byName : gmap string Cap :=
  fold_left (fun m d => <[Name d := DCap d]> m) All ∅.

Definition viewOf : gmap string Cap :=
  fold_left (fun m d => if bool_decide (Mode d = ModeView) then <[Object d := DCap d]> m else m) All ∅.

Definition Everything : CapSet :=
  fold_left (fun s d => or_into s (NS (DCap d)) (Bit (DCap d))) All ∅.

Definition EnvScopable : CapSet :=
  fold_left (fun s d => if bool_decide (Scope d = ScopeEnv)
                        then or_into s (NS (DCap d)) (Bit (DCap d)) else s) All ∅.

(** ** Operations *)

Definition Cap_IsZero (c : Cap) : bool := bool_decide (NS c = "") || bool_decide (Bit c = 0%N).

Definition Has (s : CapSet) (c : Cap) : bool :=
  if Cap_IsZero c then false else negb (N.land (mask s (NS c)) (Bit c) =? 0)%N.

Definition IsZero (s : CapSet) : bool := forallb (fun kv => (kv.2 =? 0)%N) (map_to_list s).

Definition Equal (s o : CapSet) : bool := forallb (fun ns => (mask s ns =? mask o ns)%N) Namespaces.

Definition Or (s o : CapSet) : CapSet := union_with (fun m n => Some (N.lor m n)) s o.

Definition And (s o : CapSet) : CapSet :=
  map_imap (fun ns m => let x := N.land m (mask o ns) in if (x =? 0)%N then None else Some x) s.

Definition With (s : CapSet) (c : Cap) : CapSet :=
  if Cap_IsZero c then s else or_into s (NS c) (Bit c).

(** What [MarshalJSON] encodes: the areas holding something. *)
Definition MarshalAreas (s : CapSet) : CapSet :=
  omap (fun m => if (m =? 0)%N then None else Some m) s.

Definition ByName (name : string) : option Cap := byName !! name.

Definition Names (s : CapSet) : list string :=
  map Name (List.filter (fun d => Has s (DCap d)) All).

(** [Normalize]: keep the registered bits, then add the view capability of
    every object whose edit capability is held. *)
Definition normalize_step (out : CapSet) (d : Def) : CapSet :=
  if bool_decide (Mode d = ModeEdit) && Has out (DCap d) then
    match viewOf !! Object d with Some v => or_into out (NS v) (Bit v) | None => out end
  else out.

Definition Normalize (s : CapSet) : CapSet :=
  fold_left normalize_step All (And s Everything).

Definition Of (cs : list Cap) : CapSet :=
  Normalize (fold_left (fun out c => if Cap_IsZero c then out else or_into out (NS c) (Bit c)) cs ∅).

(** [SetFromNames]: unknown names are collected, and make the whole call fail. *)
Definition names_step (st : CapSet * list string) (n : string) : CapSet * list string :=
  let '(out, unknown) := st in
  let n := strings.TrimSpace n in
  if bool_decide (n = "") then (out, unknown)
  else match ByName n with
       | None => (out, unknown ++ [n])
       | Some c => (or_into out (NS c) (Bit c), unknown)
       end.

Definition SetFromNames (names : list string) : res (list string) CapSet :=
  let '(out, unknown) := fold_left names_step names (∅, []) in
  if (0 <? length unknown)%nat then Err (ssort String.ltb unknown) else Ok (Normalize out).

Definition GlobalOnly (s : CapSet) : CapSet :=
  fold_left (fun out d => if bool_decide (Scope d = ScopeGlobal) && Has s (DCap d)
                          then or_into out (NS (DCap d)) (Bit (DCap d)) else out) All ∅.

Definition IsGlobalOnly (s : CapSet) : bool := negb (IsZero (GlobalOnly s)).

(** ** Scoped masks ([scoped.go]) *)

Record ScopedMask := mkScoped { Global : CapSet; Env : gmap string CapSet }.

Definition env_set (s : ScopedMask) (env : string) : CapSet := default ∅ (Env s !! env).

Definition ScopedHas (s : ScopedMask) (c : Cap) (env : string) : bool :=
  if Has (Global s) c then true
  else if bool_decide (env = "") then false
  else Has (env_set s env) c.

Definition HasAnywhere (s : ScopedMask) (c : Cap) : bool :=
  if Has (Global s) c then true else existsb (fun kv => Has kv.2 c) (map_to_list (Env s)).

Definition Envs (s : ScopedMask) : list string :=
  ssort String.ltb (map fst (List.filter (fun kv => negb (IsZero kv.2)) (map_to_list (Env s)))).


(** ** Bits

    Every statement about sets is a statement about their bits. *)
Definition bit (s : CapSet) (ns : string) (i : N) : bool := N.testbit (mask s ns) i.

Lemma mask_or_into s ns m ns' :
  mask (or_into s ns m) ns' = if bool_decide (ns = ns') then N.lor (mask s ns) m else mask s ns'.
Proof.
  unfold mask, or_into. case_bool_decide; subst.
  - by rewrite lookup_insert_eq.
  - by rewrite lookup_insert_ne.
Qed.

Lemma bit_or_into s ns m ns' i :
  bit (or_into s ns m) ns' i = bit s ns' i || (bool_decide (ns = ns') && N.testbit m i).
Proof.
  unfold bit. rewrite mask_or_into. case_bool_decide; subst; simpl.
  - apply N.lor_spec.
  - by rewrite orb_false_r.
Qed.

Lemma bit_empty ns i : bit ∅ ns i = false.
Proof. unfold bit, mask. rewrite lookup_empty. apply N.bits_0. Qed.

Lemma bit_Or s o ns i : bit (Or s o) ns i = bit s ns i || bit o ns i.
Proof.
  unfold bit, mask, Or. rewrite lookup_union_with.
  destruct (s !! ns), (o !! ns); simpl; rewrite ?N.lor_spec, ?N.bits_0, ?orb_false_r; done.
Qed.

Lemma mask_And s o ns : mask (And s o) ns = N.land (mask s ns) (mask o ns).
Proof.
  unfold mask, And. rewrite map_lookup_imap. fold (mask o ns).
  destruct (s !! ns) as [m|]; simpl; [|by destruct (default 0%N (o !! ns))].
  destruct (N.land m (mask o ns) =? 0)%N eqn:E; simpl; [|done].
  apply N.eqb_eq in E. by rewrite E.
Qed.

Lemma bit_And s o ns i : bit (And s o) ns i = bit s ns i && bit o ns i.
Proof. unfold bit. rewrite mask_And. apply N.land_spec. Qed.

Lemma land_nonzero a b : (N.land a b =? 0)%N = false <-> exists i, N.testbit a i = true /\ N.testbit b i = true.
Proof.
  rewrite N.eqb_neq. split.
  - intros Hne. exists (N.log2 (N.land a b)). apply andb_prop.
    rewrite <- N.land_spec. by apply N.bit_log2.
  - intros (i & Ha & Hb) H0.
    assert (N.testbit (N.land a b) i = true) as H1 by (by rewrite N.land_spec, Ha, Hb).
    by rewrite H0, N.bits_0 in H1.
Qed.

(** Holding a capability is holding one of its bits. *)
Lemma Has_bit s c :
  Has s c = true <-> NS c <> "" /\ exists i, bit s (NS c) i = true /\ N.testbit (Bit c) i = true.
Proof.
  unfold Has, Cap_IsZero, bit. destruct c as [ns b]; simpl.
  case_bool_decide as E1; simpl; [by split; [|intros [? _]]|].
  case_bool_decide as E2; simpl.
  - subst. split; [done|]. intros (_ & i & _ & Hb). by rewrite N.bits_0 in Hb.
  - rewrite negb_true_iff, land_nonzero. by split; [|intros [_ ?]].
Qed.

(** ** Equality of sets *)
Definition cap_eq (s o : CapSet) : Prop := forall ns i, bit s ns i = bit o ns i.
Infix "≡c" := cap_eq (at level 70, no associativity) : daffa_scope.

#[export] Instance cap_eq_equivalence : Equivalence cap_eq.
Proof.
  split.
  - done.
  - intros s o H ns i. by rewrite H.
  - intros s o p H1 H2 ns i. by rewrite H1.
Qed.

#[export] Instance bit_proper : Proper (cap_eq ==> eq ==> eq ==> eq) bit.
Proof. intros s o H ? ? -> ? ? ->. apply H. Qed.

#[export] Instance Has_proper : Proper (cap_eq ==> eq ==> eq) Has.
Proof.
  intros s o H c ? <-. apply bool_iff. rewrite !Has_bit. by setoid_rewrite H.
Qed.

#[export] Instance Or_proper : Proper (cap_eq ==> cap_eq ==> cap_eq) Or.
Proof. intros s s' Hs o o' Ho ns i. by rewrite !bit_Or, Hs, Ho. Qed.

#[export] Instance And_proper : Proper (cap_eq ==> cap_eq ==> cap_eq) And.
Proof. intros s s' Hs o o' Ho ns i. by rewrite !bit_And, Hs, Ho. Qed.

#[export] Instance or_into_proper : Proper (cap_eq ==> eq ==> eq ==> cap_eq) or_into.
Proof. intros s s' Hs ? ? -> ? ? -> ns i. by rewrite !bit_or_into, Hs. Qed.

#[export] Instance normalize_step_proper : Proper (cap_eq ==> eq ==> cap_eq) normalize_step.
Proof.
  intros s s' Hs d ? <-. unfold normalize_step. rewrite Hs.
  case_match; [|done]. case_match; [|done]. by rewrite Hs.
Qed.

#[export] Instance Normalize_proper : Proper (cap_eq ==> cap_eq) Normalize.
Proof.
  intros s s' Hs. unfold Normalize.
  assert (forall l o o', o ≡c o' -> fold_left normalize_step l o ≡c fold_left normalize_step l o') as Hl.
  { induction l as [|d l IH]; intros o o' Ho; simpl; [done|]. apply IH. by rewrite Ho. }
  apply Hl. by rewrite Hs.
Qed.

(** ** Facts of the registry, evaluated once *)

Definition same_cap_disjoint (c c' : Cap) : bool :=
  negb (bool_decide (NS c = NS c')) || (N.land (Bit c) (Bit c') =? 0)%N.

(** A single bit no higher than [MaxBit], in a known, named area. *)
Definition single_bit (c : Cap) : bool :=
  existsb (fun i => (Bit c =? N.shiftl 1 (N.of_nat i))%N) (seq 0 (S (N.to_nat MaxBit)))
  && bool_decide (NS c ∈ Namespaces) && negb (bool_decide (NS c = "")).

Lemma registry_single_bit : forallb (fun d => single_bit (DCap d)) All = true.
Proof. by vm_compute. Qed.

Lemma registry_disjoint :
  forallb (fun i => forallb (fun j => (i =? j)%nat ||
     match All !! i, All !! j with
     | Some d, Some d' => same_cap_disjoint (DCap d) (DCap d')
     | _, _ => true end) (seq 0 (length All))) (seq 0 (length All)) = true.
Proof. by vm_compute. Qed.

Lemma registry_byName :
  forallb (fun d => bool_decide (ByName (Name d) = Some (DCap d)) &&
                    bool_decide (strings.TrimSpace (Name d) = Name d) && negb (bool_decide (Name d = ""))) All = true.
Proof. by vm_compute. Qed.

(** No edit capability shares a bit with a view capability. *)
Lemma registry_views :
  forallb (fun d => match viewOf !! Object d with
    | Some v => existsb (fun d' => bool_decide (DCap d' = v) && bool_decide (Mode d' = ModeView)) All
        && forallb (fun d' => negb (bool_decide (Mode d' = ModeEdit)) || same_cap_disjoint v (DCap d')) All
    | None => negb (bool_decide (Mode d = ModeEdit)) end) All = true.
Proof. by vm_compute. Qed.

(** The view capability implied by an edit that may be held on one host may
    itself be held on one host. *)
Lemma registry_view_scope :
  forallb (fun d => negb (bool_decide (Mode d = ModeEdit) && bool_decide (Scope d = ScopeEnv)) ||
    match viewOf !! Object d with
    | Some v => Has EnvScopable v
    | None => true end) All = true.
Proof. by vm_compute. Qed.

(** The registry's tables are evaluated by [vm_compute] only, never unfolded. *)
#[global] Opaque All viewOf byName.

(** ** What the folds over the registry compute *)

Lemma bit_fold_or (P : Def -> bool) l s ns i :
  bit (fold_left (fun s d => if P d then or_into s (NS (DCap d)) (Bit (DCap d)) else s) l s) ns i = true <->
  bit s ns i = true \/ exists d, d ∈ l /\ P d = true /\ NS (DCap d) = ns /\ N.testbit (Bit (DCap d)) i = true.
Proof.
  revert s. induction l as [|d l IH]; intros s; simpl.
  - split; [by left|]. intros [|(d & Hd & _)]; [done|]. by apply elem_of_nil in Hd.
  - rewrite IH. setoid_rewrite elem_of_cons. destruct (P d) eqn:HP.
    + rewrite bit_or_into, orb_true_iff, andb_true_iff, bool_decide_eq_true. split.
      * intros [[H|[H1 H2]]|(e & He & Hrest)]; [by left | right; eauto 6 | right; eauto 6].
      * intros [H|(e & [->|He] & HPe & Hns & Hi)]; [by left; left | by left; right | right; eauto 6].
    + split.
      * intros [H|(e & He & Hrest)]; [by left | right; eauto 6].
      * intros [H|(e & [->|He] & HPe & Hrest)]; [by left | congruence | right; eauto 6].
Qed.

Lemma bit_Everything ns i :
  bit Everything ns i = true <-> exists d, d ∈ All /\ NS (DCap d) = ns /\ N.testbit (Bit (DCap d)) i = true.
Proof.
  unfold Everything. rewrite (bit_fold_or (fun _ => true)), bit_empty. split.
  - intros [|(d & Hd & _ & H)]; [done|eauto].
  - intros (d & Hd & H). right. eauto.
Qed.

Lemma bit_EnvScopable ns i :
  bit EnvScopable ns i = true <-> exists d, d ∈ All /\ Scope d = ScopeEnv /\ NS (DCap d) = ns /\ N.testbit (Bit (DCap d)) i = true.
Proof.
  unfold EnvScopable. rewrite (bit_fold_or (fun d => bool_decide (Scope d = ScopeEnv))), bit_empty.
  setoid_rewrite bool_decide_eq_true. split; [intros [|H]; done | by right].
Qed.

#[global] Opaque Everything EnvScopable.

Lemma EnvScopable_Everything ns i : bit EnvScopable ns i = true -> bit Everything ns i = true.
Proof. rewrite bit_EnvScopable, bit_Everything. intros (d & Hd & _ & H). eauto. Qed.

Lemma bit_GlobalOnly s ns i :
  bit (GlobalOnly s) ns i = true <->
  exists d, d ∈ All /\ Scope d = ScopeGlobal /\ Has s (DCap d) = true /\ NS (DCap d) = ns /\ N.testbit (Bit (DCap d)) i = true.
Proof.
  unfold GlobalOnly.
  rewrite (bit_fold_or (fun d => bool_decide (Scope d = ScopeGlobal) && Has s (DCap d))), bit_empty.
  setoid_rewrite andb_true_iff. setoid_rewrite bool_decide_eq_true. split.
  - intros [|(d & Hd & [Hs Hh] & H)]; [done|eauto 7].
  - intros (d & Hd & Hs & Hh & H). right. eauto 7.
Qed.

(** Each registered capability is one bit, and no other registered capability
    shares it: [cap_index] is where it lies. *)
Lemma registered_index d :
  d ∈ All -> NS (DCap d) <> "" /\ exists k, forall i, N.testbit (Bit (DCap d)) i = bool_decide (i = k).
Proof.
  intros Hd. pose proof (proj1 (forallb_elem _ _) registry_single_bit d Hd) as H.
  unfold single_bit in H. apply andb_prop in H as [H Hne]. apply andb_prop in H as [H _].
  apply negb_true_iff, bool_decide_eq_false_1 in Hne. split; [done|].
  apply existsb_elem in H as (k & _ & Hk). apply N.eqb_eq in Hk. exists (N.of_nat k). intros i.
  rewrite Hk, N.shiftl_1_l, N.pow2_bits_eqb.
  apply bool_iff. rewrite N.eqb_eq, bool_decide_eq_true. by split.
Qed.

Lemma Has_registered s d :
  d ∈ All -> Has s (DCap d) = true <-> exists i, N.testbit (Bit (DCap d)) i = true /\ bit s (NS (DCap d)) i = true.
Proof.
  intros Hd. rewrite Has_bit. destruct (registered_index d Hd) as [Hne _]. split.
  - intros (_ & i & ? & ?). eauto.
  - intros (i & ? & ?). eauto.
Qed.

Lemma same_cap_disjoint_spec c c' :
  same_cap_disjoint c c' = true <->
  (NS c = NS c' -> forall i, N.testbit (Bit c) i = true -> N.testbit (Bit c') i = true -> False).
Proof.
  unfold same_cap_disjoint. rewrite orb_true_iff, negb_true_iff, bool_decide_eq_false, N.eqb_eq. split.
  - intros [H|H] Hns i H1 H2; [done|].
    assert (N.testbit (N.land (Bit c) (Bit c')) i = true) as Hb by (by rewrite N.land_spec, H1, H2).
    by rewrite H, N.bits_0 in Hb.
  - intros H. destruct (decide (NS c = NS c')) as [E|]; [right|by left].
    apply N.bits_inj_0. intros i. rewrite N.land_spec.
    destruct (N.testbit (Bit c) i) eqn:H1, (N.testbit (Bit c') i) eqn:H2; try done. exfalso; eauto.
Qed.

Lemma registered_inj d d' i :
  d ∈ All -> d' ∈ All -> NS (DCap d) = NS (DCap d') ->
  N.testbit (Bit (DCap d)) i = true -> N.testbit (Bit (DCap d')) i = true -> d = d'.
Proof.
  intros Hd Hd' Hns H1 H2.
  apply list_elem_of_lookup in Hd as [n Hn]. apply list_elem_of_lookup in Hd' as [m Hm].
  destruct (decide (n = m)) as [->|Hne]; [congruence|]. exfalso.
  pose proof registry_disjoint as H. rewrite forallb_elem in H.
  specialize (H n). rewrite forallb_elem in H. setoid_rewrite elem_of_seq in H.
  apply lookup_lt_Some in Hn as Hln. apply lookup_lt_Some in Hm as Hlm.
  specialize (H ltac:(lia) m ltac:(lia)). rewrite Hn, Hm in H.
  apply orb_prop in H as [H|H]; [by apply Nat.eqb_eq in H|].
  rewrite same_cap_disjoint_spec in H. eauto.
Qed.

Lemma Has_same_bit s d i :
  d ∈ All -> N.testbit (Bit (DCap d)) i = true -> Has s (DCap d) = bit s (NS (DCap d)) i.
Proof.
  intros Hd Hi. destruct (registered_index d Hd) as [Hne [k Hk]].
  rewrite Hk, bool_decide_eq_true in Hi. subst. apply bool_iff. rewrite Has_bit. split.
  - intros (_ & j & Hj & Hjb). rewrite Hk, bool_decide_eq_true in Hjb. by subst.
  - intros Hb. split; [done|]. exists k. by rewrite Hk, bool_decide_eq_true_2.
Qed.

(** The view capability an edit implies is registered, and is no edit bit. *)
Lemma viewOf_registered d v :
  d ∈ All -> viewOf !! Object d = Some v ->
  (exists dv, dv ∈ All /\ DCap dv = v) /\ (forall d', d' ∈ All -> Mode d' = ModeEdit -> same_cap_disjoint v (DCap d') = true).
Proof.
  intros Hd Hv. pose proof (proj1 (forallb_elem _ _) registry_views d Hd) as H. simpl in H.
  rewrite Hv in H. apply andb_prop in H as [H1 H2]. split.
  - apply existsb_elem in H1 as (dv & Hdv & H1). apply andb_prop in H1 as [H1 _].
    exists dv. split; [done|]. by apply bool_decide_eq_true_1 in H1.
  - intros d' Hd' Hm. rewrite forallb_elem in H2. specialize (H2 d' Hd').
    rewrite Hm in H2. by rewrite bool_decide_eq_true_2 in H2.
Qed.

(** [granted_view s ns i]: some held edit capability implies this bit. *)
Definition granted_view (s : CapSet) (l : list Def) (ns : string) (i : N) : Prop :=
  exists d v, d ∈ l /\ Mode d = ModeEdit /\ Has s (DCap d) = true /\
              viewOf !! Object d = Some v /\ NS v = ns /\ N.testbit (Bit v) i = true.

Lemma Has_normalize_step s d d' :
  d ∈ All -> d' ∈ All -> Mode d' = ModeEdit -> Has (normalize_step s d) (DCap d') = Has s (DCap d').
Proof.
  intros Hd Hd' Hm. unfold normalize_step. case_match; [|done].
  destruct (viewOf !! Object d) as [v|] eqn:Hv; [|done].
  destruct (viewOf_registered d v Hd Hv) as [_ Hdis]. specialize (Hdis d' Hd' Hm).
  rewrite same_cap_disjoint_spec in Hdis.
  apply bool_iff. rewrite !Has_bit. setoid_rewrite bit_or_into.
  setoid_rewrite orb_true_iff. setoid_rewrite andb_true_iff. setoid_rewrite bool_decide_eq_true.
  split.
  - intros (Hne & i & [Hb|[Hns Hvi]] & Hi); [by eauto | by destruct (Hdis Hns i)].
  - intros (Hne & i & Hb & Hi). eauto 6.
Qed.

Lemma bit_normalize_fold l s ns i :
  (forall d, d ∈ l -> d ∈ All) ->
  bit (fold_left normalize_step l s) ns i = true <-> bit s ns i = true \/ granted_view s l ns i.
Proof.
  revert s. induction l as [|d l IH]; intros s Hl; simpl.
  - split; [by left|]. intros [|(d & v & Hd & _)]; [done|]. by apply elem_of_nil in Hd.
  - rewrite IH by (intros; apply Hl; by right). unfold granted_view.
    assert (d ∈ All) as Hd by (apply Hl; by left).
    assert (forall e, e ∈ l -> Mode e = ModeEdit -> Has (normalize_step s d) (DCap e) = Has s (DCap e)) as Hkeep.
    { intros e He Hm. apply Has_normalize_step; [done | apply Hl; by right | done]. }
    assert (bit (normalize_step s d) ns i = true <-> bit s ns i = true \/
      (Mode d = ModeEdit /\ Has s (DCap d) = true /\ exists v, viewOf !! Object d = Some v /\ NS v = ns /\ N.testbit (Bit v) i = true)) as ->.
    { unfold normalize_step. case_bool_decide as Hm; simpl; [|split; [by left | by intros [?|[? _]]]].
      destruct (Has s (DCap d)); [|split; [by left | by intros [?|(_ & ? & _)]]].
      destruct (viewOf !! Object d) as [v|]; [|split; [by left | by intros [?|(_ & _ & v & ? & _)]]].
      rewrite bit_or_into, orb_true_iff, andb_true_iff, bool_decide_eq_true. split.
      - intros [?|[? ?]]; [by left | right; eauto 6].
      - intros [?|(_ & _ & v' & [= <-] & ? & ?)]; [by left | by right]. }
    setoid_rewrite elem_of_cons. split.
    + intros [[Hb|(Hm & Hh & v & Hv)]|(e & v & He & Hm & Hh & Hv)]; [by left | |].
      * right. exists d, v. by repeat split; [left | ..]; try apply Hv.
      * right. exists e, v. rewrite Hkeep in Hh by done. by repeat split; [right | ..]; try apply Hv.
    + intros [Hb|(e & v & [->|He] & Hm & Hh & Hv)]; [by left; left | left; right; eauto |].
      right. exists e, v. by rewrite Hkeep.
Qed.

Lemma Has_And_Everything s d : d ∈ All -> Has (And s Everything) (DCap d) = Has s (DCap d).
Proof.
  intros Hd. apply bool_iff. rewrite !Has_registered by done. setoid_rewrite bit_And.
  setoid_rewrite andb_true_iff. split.
  - intros (i & Hi & Hs & _). eauto.
  - intros (i & Hi & Hs). exists i. repeat split; try done. apply bit_Everything. eauto.
Qed.

Lemma granted_view_Everything s ns i : granted_view (And s Everything) All ns i <-> granted_view s All ns i.
Proof.
  unfold granted_view. split; intros (d & v & Hd & Hm & Hh & Hv); exists d, v;
    rewrite ?Has_And_Everything in * by done; done.
Qed.

Lemma bit_Normalize s ns i :
  bit (Normalize s) ns i = true <->
  (bit s ns i = true /\ bit Everything ns i = true) \/ granted_view s All ns i.
Proof.
  unfold Normalize. rewrite bit_normalize_fold by done. rewrite bit_And, andb_true_iff.
  by rewrite granted_view_Everything.
Qed.

Lemma Normalize_registered s ns i : bit (Normalize s) ns i = true -> bit Everything ns i = true.
Proof.
  rewrite bit_Normalize. intros [[_ H]|(d & v & Hd & _ & _ & Hv & <- & Hi)]; [done|].
  destruct (viewOf_registered d v Hd Hv) as [(dv & Hdv & <-) _].
  apply bit_Everything. eauto.
Qed.

Lemma granted_view_Has s dv i :
  dv ∈ All -> N.testbit (Bit (DCap dv)) i = true ->
  granted_view s All (NS (DCap dv)) i <->
  exists e, e ∈ All /\ Mode e = ModeEdit /\ Has s (DCap e) = true /\ viewOf !! Object e = Some (DCap dv).
Proof.
  intros Hd Hi. unfold granted_view. split.
  - intros (e & v & He & Hm & Hh & Hv & Hns & Hvi). exists e. repeat split; try done.
    destruct (viewOf_registered e v He Hv) as [(d' & Hd' & <-) _].
    rewrite Hv. f_equal. by rewrite (registered_inj d' dv i).
  - intros (e & He & Hm & Hh & Hv). exists e, (DCap dv). by repeat split.
Qed.

Lemma IsZero_bit s : IsZero s = true <-> forall ns i, bit s ns i = false.
Proof.
  unfold IsZero. rewrite forallb_elem. split.
  - intros H ns i. unfold bit, mask. destruct (s !! ns) as [m|] eqn:E; [|apply N.bits_0].
    apply elem_of_map_to_list in E. apply (H (ns, m)) in E. apply N.eqb_eq in E. simpl in E.
    rewrite E. apply N.bits_0.
  - intros H [ns m] E. apply elem_of_map_to_list in E. simpl. apply N.eqb_eq, N.bits_inj_0.
    intros i. specialize (H ns i). unfold bit, mask in H. by rewrite E in H.
Qed.

Lemma And_Everything_idem s : And (And s Everything) Everything ≡c And s Everything.
Proof. intros ns i. rewrite !bit_And. by destruct (bit s ns i), (bit Everything ns i). Qed.

Lemma Normalize_And_Everything s : Normalize (And s Everything) ≡c Normalize s.
Proof.
  intros ns i. apply bool_iff. rewrite !bit_Normalize, bit_And, andb_true_iff.
  rewrite granted_view_Everything. tauto.
Qed.

(** A registered capability of a normalized set is one the set held, or the
    view capability of an edit it held. *)
Lemma Has_Normalize s d :
  d ∈ All ->
  Has (Normalize s) (DCap d) = true <->
  Has s (DCap d) = true \/
  exists e, e ∈ All /\ Mode e = ModeEdit /\ Has s (DCap e) = true /\ viewOf !! Object e = Some (DCap d).
Proof.
  intros Hd. destruct (registered_index d Hd) as [_ [k Hk]].
  assert (N.testbit (Bit (DCap d)) k = true) as Hkk by (by rewrite Hk, bool_decide_eq_true_2).
  rewrite !(Has_same_bit _ d k) by done. rewrite bit_Normalize, granted_view_Has by done.
  assert (bit Everything (NS (DCap d)) k = true) as Hev by (apply bit_Everything; eauto).
  tauto.
Qed.

(** [Normalize] distributes over unions, of any family of sets. *)
Lemma Has_Normalize_union {K} (Q : K -> Prop) (f : K -> CapSet) s :
  (forall d, d ∈ All -> Has s (DCap d) = true <-> exists k, Q k /\ Has (f k) (DCap d) = true) ->
  forall d, d ∈ All -> Has (Normalize s) (DCap d) = true <-> exists k, Q k /\ Has (Normalize (f k)) (DCap d) = true.
Proof.
  intros Hs d Hd. rewrite Has_Normalize by done. split.
  - intros [H|(e & He & Hm & Hh & Hv)].
    + apply Hs in H as (k & Hq & Hk); [|done]. exists k. rewrite Has_Normalize by done. eauto.
    + apply Hs in Hh as (k & Hq & Hk); [|done]. exists k. rewrite Has_Normalize by done. eauto 8.
  - intros (k & Hq & Hk). rewrite Has_Normalize in Hk by done. destruct Hk as [Hk|(e & He & Hm & Hh & Hv)].
    + left. apply Hs; eauto.
    + right. exists e. repeat split; try done. apply Hs; eauto.
Qed.

Lemma Has_Everything d : d ∈ All -> Has Everything (DCap d) = true.
Proof.
  intros Hd. destruct (registered_index d Hd) as [_ [k Hk]].
  assert (N.testbit (Bit (DCap d)) k = true) as Hkk by (by rewrite Hk, bool_decide_eq_true_2).
  rewrite (Has_same_bit _ d k) by done. apply bit_Everything. eauto.
Qed.

Lemma Has_EnvScopable d : d ∈ All -> Has EnvScopable (DCap d) = true <-> Scope d = ScopeEnv.
Proof.
  intros Hd. destruct (registered_index d Hd) as [_ [k Hk]].
  assert (N.testbit (Bit (DCap d)) k = true) as Hkk by (by rewrite Hk, bool_decide_eq_true_2).
  rewrite (Has_same_bit _ d k) by done. rewrite bit_EnvScopable. split; [|eauto].
  intros (d' & Hd' & Hs & Hns & Hi). by rewrite (registered_inj d d' k).
Qed.

Lemma Has_And s o d : d ∈ All -> Has (And s o) (DCap d) = Has s (DCap d) && Has o (DCap d).
Proof.
  intros Hd. destruct (registered_index d Hd) as [_ [k Hk]].
  assert (N.testbit (Bit (DCap d)) k = true) as Hkk by (by rewrite Hk, bool_decide_eq_true_2).
  rewrite !(Has_same_bit _ d k) by done. apply bit_And.
Qed.

(** A set cut down to what may be scoped stays so when it is normalized. *)
Lemma Normalize_EnvScopable s d :
  d ∈ All -> Has (Normalize (And s EnvScopable)) (DCap d) = true -> Scope d = ScopeEnv.
Proof.
  intros Hd. rewrite Has_Normalize by done. intros [H|(e & He & Hm & Hh & Hv)].
  - rewrite Has_And in H by done. apply andb_prop in H as [_ H]. by apply Has_EnvScopable.
  - rewrite Has_And in Hh by done. apply andb_prop in Hh as [_ Hh]. apply Has_EnvScopable in Hh; [|done].
    pose proof (proj1 (forallb_elem _ _) registry_view_scope e He) as Hr.
    cbv beta in Hr. rewrite Hm, Hh, Hv in Hr. rewrite !bool_decide_eq_true_2 in Hr by done. by apply Has_EnvScopable.
Qed.

Lemma bit_Normalize_empty ns i : bit (Normalize ∅) ns i = false.
Proof.
  apply not_true_iff_false. rewrite bit_Normalize, bit_empty. intros [[? _]|(d & v & _ & _ & Hh & _)]; [done|].
  apply Has_bit in Hh as (_ & j & Hj & _). by rewrite bit_empty in Hj.
Qed.

Lemma GlobalOnly_zero s :
  IsZero (GlobalOnly s) = true <-> (forall d, d ∈ All -> Has s (DCap d) = true -> Scope d = ScopeEnv).
Proof.
  rewrite IsZero_bit. split.
  - intros Hz d Hd Hh. destruct (Scope d) eqn:Hs; [|done]. exfalso.
    destruct (registered_index d Hd) as [_ [k Hk]].
    assert (bit (GlobalOnly s) (NS (DCap d)) k = true) as Hb.
    { apply bit_GlobalOnly. exists d. repeat split; try done. by rewrite Hk, bool_decide_eq_true_2. }
    by rewrite Hz in Hb.
  - intros Hall ns i. apply not_true_iff_false. rewrite bit_GlobalOnly.
    intros (d & Hd & Hs & Hh & _). rewrite Hall in Hs by done. done.
Qed.

(** An admin role, which resolves to [Everything], always carries a
    global-only capability. *)
Lemma Everything_not_scopable : IsZero (GlobalOnly Everything) = false.
Proof. by vm_compute. Qed.

Lemma Normalize_idem s : Normalize (Normalize s) ≡c Normalize s.
Proof.
  intros ns i. apply bool_iff. rewrite (bit_Normalize (Normalize s)). split.
  - intros [[H _]|(d & v & Hd & Hm & Hh & Hv & Hns & Hi)]; [done|].
    apply bit_Normalize. right. exists d, v. repeat split; try done.
    destruct (proj1 (Has_Normalize s d Hd) Hh) as [H|(e & He & Hme & _ & Hve)]; [done|].
    exfalso. destruct (viewOf_registered e _ He Hve) as [_ Hdis].
    specialize (Hdis d Hd Hm). rewrite same_cap_disjoint_spec in Hdis.
    destruct (registered_index d Hd) as [_ [k Hk]].
    apply (Hdis eq_refl k); by rewrite Hk, bool_decide_eq_true_2.
  - intros H. left. split; [done|]. by eapply Normalize_registered.
Qed.

(** ** Properties *)

(** [Normalize] keeps exactly the registered capabilities of a set and adds
    the view capability of every object whose edit capability is held; no bit
    outside the registry survives, whatever the stored masks contained. *)
Theorem Normalize_spec (s : CapSet) :
  (forall d, d ∈ All ->
     Has (Normalize s) (DCap d) = true <->
     Has s (DCap d) = true \/
     exists e, e ∈ All /\ Mode e = ModeEdit /\ Has s (DCap e) = true /\ viewOf !! Object e = Some (DCap d)) /\
  (forall ns i, bit (Normalize s) ns i = true -> bit Everything ns i = true).
Proof. split; [intros; by apply Has_Normalize | apply Normalize_registered]. Qed.

(** Normalizing is idempotent, up to the zero masks [≡c] ignores: what is
    read back from the database and normalized again grants nothing new. *)
Theorem Normalize_idempotent (s : CapSet) : Normalize (Normalize s) ≡c Normalize s.
Proof. apply Normalize_idem. Qed.

(** ** Names on the wire *)

Lemma SetFromNames_fold l out :
  (forall d, d ∈ l -> d ∈ All) ->
  exists out', fold_left names_step (map Name l) (out, []) = (out', []) /\
    forall ns i, bit out' ns i = true <->
      bit out ns i = true \/ exists d, d ∈ l /\ NS (DCap d) = ns /\ N.testbit (Bit (DCap d)) i = true.
Proof.
  revert out. induction l as [|d l IH]; intros out Hl; simpl.
  - exists out. split; [done|]. intros ns i. split; [by left|].
    intros [|(d & Hd & _)]; [done|]. by apply elem_of_nil in Hd.
  - pose proof (proj1 (forallb_elem _ _) registry_byName d (Hl d (list_elem_of_here _ _))) as H.
    apply andb_prop in H as [H Hne]. apply andb_prop in H as [Hb Ht].
    apply bool_decide_eq_true_1 in Hb, Ht. rewrite Ht.
    apply negb_true_iff in Hne. rewrite Hne, Hb.
    destruct (IH (or_into out (NS (DCap d)) (Bit (DCap d)))) as (out' & Hf & Hbits).
    { intros e He. apply Hl. by right. }
    exists out'. split; [done|]. intros ns i. rewrite Hbits. setoid_rewrite elem_of_cons.
    rewrite bit_or_into, orb_true_iff, andb_true_iff, bool_decide_eq_true. split.
    + intros [[H|[H1 H2]]|(e & He & Hrest)]; [by left | right; eauto 6 | right; eauto 6].
    + intros [H|(e & [->|He] & Hns & Hi)]; [by left; left | by left; right | right; eauto 6].
Qed.

(** The names the API shows for a set read back, through [SetFromNames], to
    that set as it would be granted. *)
Theorem SetFromNames_Names (s : CapSet) :
  exists s', SetFromNames (Names s) = Ok s' /\ s' ≡c Normalize s.
Proof.
  unfold SetFromNames, Names.
  destruct (SetFromNames_fold (List.filter (fun d => Has s (DCap d)) All) ∅) as (out & Hf & Hbits).
  { intros d. rewrite !list_elem_of_In, filter_In. tauto. }
  rewrite Hf. exists (Normalize out). split; [done|].
  assert (out ≡c And s Everything) as ->.
  { intros ns i. apply bool_iff. rewrite Hbits, bit_empty, bit_And, andb_true_iff, bit_Everything. split.
    - intros [|(d & Hd & Hns & Hi)]; [done|].
      rewrite list_elem_of_In, filter_In, <- list_elem_of_In in Hd. destruct Hd as [Hd Hh].
      rewrite (Has_same_bit s d i) in Hh by done. subst. eauto 6.
    - intros [Hs (d & Hd & Hns & Hi)]. right. exists d. split; [|done].
      rewrite list_elem_of_In, filter_In, <- list_elem_of_In. split; [done|].
      rewrite (Has_same_bit s d i) by done. by subst. }
  apply Normalize_And_Everything.
Qed.

(** A role carries no global-only capability exactly when every registered
    bit it holds may be granted on a single cluster; this is the test that
    decides whether a grant may be scoped. *)
Theorem IsGlobalOnly_spec (s : CapSet) :
  IsGlobalOnly s = false <-> (forall d, d ∈ All -> Has s (DCap d) = true -> Scope d = ScopeEnv).
Proof.
  unfold IsGlobalOnly. rewrite negb_false_iff. apply GlobalOnly_zero.
Qed.
