(* ===== verification/CapCache.v ===== *)
(** * The in-process cache of effective masks

    Models [internal/caps/cache.go]: the [Loader] interface the store
    implements, [Cache.Of] in the two critical sections it is made of, and
    [Cache.Invalidate]. Requests run in goroutines of their own, so a call to
    [Of] may be suspended between reading the database and writing the cache;
    the events below are the steps whose interleavings are possible. *)
From S2P Require Import Prelude Caps.
Local Open Scope daffa_scope.

(** [Loader]: the one promise the cache needs of the store. [None] is an error
    of the database. *)
Class Loader (DB : Type) := EffectiveMask : DB -> string -> option ScopedMask.

Section Cache.
Context {DB : Type} `{!Loader DB}.

(** [cached]: the map [c.m]. [inflight]: the calls to [Of] that missed and have
    loaded a mask they have not stored yet. [dirty]: the writers that have
    committed and not yet called [Invalidate]. *)
Record world := World { db : DB; cached : gmap string ScopedMask;
                        inflight : list (string * ScopedMask); dirty : nat }.

Definition NewCache (d : DB) : world := World d ∅ [] 0.

(** The first critical section of [Of] and the load that follows a miss. *)
Inductive of_result := Hit (m : ScopedMask) | Loaded (m : ScopedMask) | LoadError.

Definition Of_begin (w : world) (u : string) : of_result * world :=
  match cached w !! u with
  | Some m => (Hit m, w)
  | None =>
      match EffectiveMask (db w) u with
      | None => (LoadError, w)
      | Some m => (Loaded m, World (db w) (cached w) (inflight w ++ [(u, m)]) (dirty w))
      end
  end.

(** The second critical section: [c.m[userID] = m], for the [k]-th call in flight. *)
Definition Of_end (w : world) (k : nat) : world :=
  match inflight w !! k with
  | Some (u, m) => World (db w) (<[u := m]> (cached w)) (delete k (inflight w)) (dirty w)
  | None => w
  end.

(** [Of] when nothing runs between its two halves. *)
Definition Of (w : world) (u : string) : option ScopedMask * world :=
  match Of_begin w u with
  | (Hit m, w') => (Some m, w')
  | (LoadError, w') => (None, w')
  | (Loaded m, w') => (Some m, Of_end w' (length (inflight w)))
  end.

Definition Invalidate (w : world) : world := World (db w) ∅ (inflight w) (pred (dirty w)).

(** A write to roles, memberships or environments, as its caller does it: the
    transaction commits, then [Invalidate] is called. *)
Definition Commit (w : world) (d : DB) : world := World d (cached w) (inflight w) (S (dirty w)).

Inductive event := EBegin (u : string) | EEnd (k : nat) | EOf (u : string) | ECommit (d : DB) | EInvalidate.

Definition run1 (w : world) (e : event) : world :=
  match e with
  | EBegin u => (Of_begin w u).2
  | EEnd k => Of_end w k
  | EOf u => (Of w u).2
  | ECommit d => Commit w d
  | EInvalidate => Invalidate w
  end.

Definition run (w : world) (es : list event) : world := fold_left run1 es w.

(** The cache agrees with the database it caches. *)
Definition coherent (w : world) : Prop :=
  forall u m, cached w !! u = Some m -> EffectiveMask (db w) u = Some m.

Definition sequential (e : event) : bool :=
  match e with EOf _ | ECommit _ | EInvalidate => true | _ => false end.

Lemma Of_inflight w u : inflight (Of w u).2 = inflight w.
Proof.
  unfold Of, Of_begin. destruct (cached w !! u); [done|].
  destruct (EffectiveMask (db w) u) as [m|]; [|done]. simpl.
  unfold Of_end. simpl. rewrite list_lookup_middle by done. simpl.
  by rewrite delete_middle, app_nil_r.
Qed.

Lemma Of_cached w u :
  db (Of w u).2 = db w /\ dirty (Of w u).2 = dirty w /\
  ((Of w u).2 = w \/ exists m, EffectiveMask (db w) u = Some m /\ cached (Of w u).2 = <[u := m]> (cached w)).
Proof.
  unfold Of, Of_begin. destruct (cached w !! u); [eauto|].
  destruct (EffectiveMask (db w) u) as [m|] eqn:E; [|eauto]. simpl.
  unfold Of_end. simpl. rewrite list_lookup_middle by done. simpl. eauto 6.
Qed.

Lemma Of_coherent w u : coherent w -> coherent (Of w u).2.
Proof.
  intros Hc. destruct (Of_cached w u) as (Hdb & _ & [->|(m & Hm & Hcache)]); [done|].
  intros v n. rewrite Hdb, Hcache, lookup_insert. case_decide; [naive_solver|apply Hc].
Qed.

(** The invariant of sequential executions: when no writer is between its
    commit and its invalidation, the cache is exact. *)
Lemma run_sequential_inv es w :
  (dirty w = 0%nat -> coherent w) -> forallb sequential es = true ->
  dirty (run w es) = 0%nat -> coherent (run w es).
Proof.
  revert w. induction es as [|e es IH]; intros w Hw Hes; simpl in *; [done|].
  apply andb_prop in Hes as [He Hes]. apply IH; [|done]. destruct e; try done; simpl.
  destruct (Of_cached w u) as (_ & -> & _). eauto using Of_coherent.
Qed.

(** As long as calls to [Of] do not overlap the writers, the cache is
    exact: whenever every committed write has been followed by [Invalidate],
    each cached mask is the one the database would give. *)
Theorem sequential_coherent (d : DB) (es : list event) :
  forallb sequential es = true -> dirty (run (NewCache d) es) = 0%nat -> coherent (run (NewCache d) es).
Proof. intros. apply run_sequential_inv; [|done..]. intros _ u m. simpl. by rewrite lookup_empty. Qed.

(** Under any interleaving: an [Invalidate] that finds no call in flight
    makes the cache exact, and loads keep it so until the next commit. *)
Definition no_commit (e : event) : bool := match e with ECommit _ => false | _ => true end.

Definition inflight_ok (w : world) : Prop :=
  coherent w /\ forall u m, (u, m) ∈ inflight w -> EffectiveMask (db w) u = Some m.

Lemma run1_inflight_ok w e : no_commit e = true -> inflight_ok w -> inflight_ok (run1 w e).
Proof.
  intros He [Hc Hi]. destruct e as [u|k|u| |]; try done; simpl.
  - unfold Of_begin. destruct (cached w !! u); [done|].
    destruct (EffectiveMask (db w) u) as [m|] eqn:E; [|done]. split; [done|]. simpl.
    intros v n. rewrite elem_of_app, list_elem_of_singleton. intros [?|[= -> ->]]; eauto.
  - unfold Of_end. destruct (inflight w !! k) as [[u m]|] eqn:E; [|done].
    assert (EffectiveMask (db w) u = Some m) as Hm by (eapply Hi, list_elem_of_lookup_2, E).
    split; simpl.
    + intros v n. simpl. rewrite lookup_insert. case_decide; [naive_solver|apply Hc].
    + intros v n Hv. apply Hi. eapply elem_of_submseteq; [done|]. apply sublist_submseteq, sublist_delete.
  - split; [by apply Of_coherent|]. rewrite Of_inflight.
    destruct (Of_cached w u) as (-> & _). done.
Qed.

(** Whatever ran before, an invalidation that no load straddles restores
    exactness, and it lasts until the next commit. *)
Theorem invalidate_restores (w : world) (es : list event) :
  inflight w = [] -> forallb no_commit es = true -> coherent (run (Invalidate w) es).
Proof.
  intros Hi Hes.
  assert (inflight_ok (Invalidate w)) as Hok.
  { split; [intros u m; simpl; by rewrite lookup_empty|]. simpl. rewrite Hi.
    intros u m H. by apply elem_of_nil in H. }
  revert Hok. generalize (Invalidate w). induction es as [|e es IH]; intros w' Hok; simpl in *.
  - apply Hok.
  - apply andb_prop in Hes as [He Hes]. apply IH; [done|]. by apply run1_inflight_ok.
Qed.

(** But not in general. If the database gives a user two different masks
    before and after a write, a load that started before the commit and stores
    after [Invalidate] leaves the old mask in the cache with nobody left to
    remove it: no call is in flight, no writer is pending, and the cache is wrong. *)
Theorem stale_after_invalidate (d d' : DB) (u : string) (m m' : ScopedMask) :
  EffectiveMask d u = Some m -> EffectiveMask d' u = Some m' -> m <> m' ->
  let w := run (NewCache d) [EBegin u; ECommit d'; EInvalidate; EEnd 0] in
  dirty w = 0%nat /\ inflight w = [] /\ (Of w u).1 = Some m /\ ~ coherent w.
Proof.
  intros Hm Hm' Hne. cbv [run fold_left run1 Of_begin NewCache cached db]. rewrite lookup_empty, Hm. simpl.
  cbv [Of_end inflight lookup list_lookup]. simpl. split_and!; [done..| |].
  - unfold Of, Of_begin. simpl. by rewrite lookup_insert_eq.
  - intros Hc. specialize (Hc u m). simpl in Hc. rewrite lookup_insert_eq in Hc.
    specialize (Hc eq_refl). congruence.
Qed.

End Cache.

Arguments World {DB}.

(** ** The theorems at a concrete database: one mask per user *)

Section Witnesses.

Definition table := gmap string ScopedMask.

#[local] Instance table_loader : Loader table := fun d u => d !! u.

Definition before : table := {[ "ann" := mkScoped {[ NSDocker := 7%N ]} ∅ ]}.
Definition after : table := {[ "ann" := mkScoped ∅ ∅ ]}.

Lemma sequential_coherent_witness : coherent (run (NewCache before) [EOf "ann"; ECommit after; EInvalidate; EOf "ann"]).
Proof. apply sequential_coherent; reflexivity. Defined.

Lemma invalidate_restores_witness :
  coherent (run (Invalidate (World after before [] 1)) [EBegin "ann"; EOf "ann"; EEnd 0]).
Proof. apply invalidate_restores; reflexivity. Defined.

Lemma stale_after_invalidate_witness :
  let w := run (NewCache before) [EBegin "ann"; ECommit after; EInvalidate; EEnd 0] in
  dirty w = 0%nat /\ inflight w = [] /\ (Of w "ann").1 = Some (mkScoped {[ NSDocker := 7%N ]} ∅) /\ ~ coherent w.
Proof. eapply stale_after_invalidate; [reflexivity | reflexivity | discriminate]. Defined.

End Witnesses.
