(* ===== verification/Roles.v ===== *)
(** * Roles, memberships and effective capabilities

    Models [internal/store/roles.go] and the two unguarded user writes of
    [internal/store/models.go]. The database is a record of tables keyed the
    way their primary keys are; the foreign keys of [migrate.go] appear as the
    cascades of a DELETE and as the failure of an INSERT that would dangle.
    Every operation is one function from the database to the database or to
    the error the Go function returns. *)
From S2P Require Import Prelude GoStd Caps CapCache.
Local Open Scope string_scope.
Local Open Scope list_scope.
Local Open Scope daffa_scope.

(** ** Tables *)

Record RoleRow := mkRoleRow { r_name : string; r_description : string; r_is_admin : bool; r_builtin : bool }.

(** The columns of [users] the guards read. *)
Record UserRow := mkUserRow { u_disabled : bool; u_kind : string }.

(** [oidc_role_mappings], as far as scopes go. *)
Record MappingRow := mkMapping { om_claim : string; om_role : string; om_kind : string; om_scope_id : string }.

(** The primary key of [role_members]: user, role, scope kind, scope id. *)
Abbreviation MemberKey := (string * string * string * string)%type.

Record DB := mkDB {
  roles : gmap string RoleRow;
  role_caps : gmap (string * string) Z;      (* (role, ns) -> mask, a signed column *)
  role_members : gmap MemberKey string;      (* -> source *)
  users : gmap string UserRow;
  environments : gset string;
  oidc_role_mappings : gmap string MappingRow }.

Inductive StoreErr :=
| ErrNotFound | ErrLastAdmin | ErrBuiltinRole
| ErrCannotScope (names : list string) | ErrBadScope | ErrUnknownHost
| ErrConstraint (* a unique index or a foreign key refused the write *).

Definition SGlobal := "global".
Definition SEnv := "env".
Definition SourceLocal := "local".
Definition SourceOIDC := "oidc".

(** [store.Scope]. *)
Record GrantScope := mkScope { Kind : string; ID : string }.
Definition Global : GrantScope := mkScope SGlobal "".
Definition OnEnv (envID : string) : GrantScope := mkScope SEnv envID.
Definition IsGlobal (s : GrantScope) : bool := bool_decide (Kind s = SGlobal).
Definition Valid (s : GrantScope) : bool :=
  if bool_decide (Kind s = SGlobal) then bool_decide (ID s = "")
  else if bool_decide (Kind s = SEnv) then negb (bool_decide (ID s = ""))
  else false.

Record ScopedGrant := mkGrant { g_role : string; g_scope : GrantScope }.

(** ** Reading roles *)

(** The conversion [caps.Mask(mask)] of a signed 64-bit column to [uint32]. *)
Definition MaskOf (z : Z) : N := Z.to_N (z `mod` 2^32).

(** The raw rows of a role, before [Normalize]. *)
Definition role_raw (db : DB) (rid : string) : CapSet :=
  list_to_map (map (fun kv => (kv.1.2, MaskOf kv.2))
    (filter (fun kv => kv.1.1 = rid) (map_to_list (role_caps db)))).

Definition capsOf (db : DB) (rid : string) : CapSet := Normalize (role_raw db rid).

Record Role := mkRole { RID : string; RName : string; RDescription : string; RCaps : CapSet;
                        RIsAdmin : bool; RBuiltin : bool }.

Definition Effective (r : Role) : CapSet := if RIsAdmin r then Everything else RCaps r.

Definition RoleByID (db : DB) (id : string) : res StoreErr Role :=
  match roles db !! id with
  | None => Err ErrNotFound
  | Some r => Ok (mkRole id (r_name r) (r_description r) (capsOf db id) (r_is_admin r) (r_builtin r))
  end.

(** ** Writing roles *)

Definition set_members (db : DB) (m : gmap MemberKey string) : DB :=
  mkDB (roles db) (role_caps db) m (users db) (environments db) (oidc_role_mappings db).

(** [writeCaps]: delete the role's rows, insert one per non-zero area. *)
Definition writeCaps (db : DB) (rid : string) (set : CapSet) : gmap (string * string) Z :=
  let cleared := filter (fun kv => kv.1.1 <> rid) (role_caps db) in
  foldr (fun nm acc => if (nm.2 =? 0)%N then acc else <[(rid, nm.1) := Z.of_N nm.2]> acc)
        cleared (map_to_list (Normalize set)).

Definition name_taken (db : DB) (id name : string) : bool :=
  existsb (fun kv => negb (bool_decide (kv.1 = id)) && bool_decide (r_name kv.2 = name)) (map_to_list (roles db)).

(** [CreateRole], with the id the caller chose or [NewID] produced. *)
Definition CreateRole (db : DB) (r : Role) : res StoreErr DB :=
  if bool_decide (is_Some (roles db !! RID r)) || name_taken db (RID r) (RName r) then Err ErrConstraint
  else Ok (mkDB (<[RID r := mkRoleRow (RName r) (RDescription r) (RIsAdmin r) (RBuiltin r)]> (roles db))
                (writeCaps db (RID r) (RCaps r)) (role_members db) (users db) (environments db)
                (oidc_role_mappings db)).

Definition UpdateRole (db : DB) (r : Role) : res StoreErr DB :=
  match roles db !! RID r with
  | None => Err ErrNotFound
  | Some row =>
      if name_taken db (RID r) (RName r) then Err ErrConstraint
      else Ok (mkDB (<[RID r := mkRoleRow (RName r) (RDescription r) (r_is_admin row) (r_builtin row)]> (roles db))
                    (writeCaps db (RID r) (RCaps r)) (role_members db) (users db) (environments db)
                    (oidc_role_mappings db))
  end.

(** ** The questions behind the lockout guards *)

Definition role_is_admin (db : DB) (rid : string) : bool :=
  match roles db !! rid with Some r => r_is_admin r | None => false end.

(** The join [role_members rm JOIN roles r] of one user, on an admin role that
    satisfies [P]. *)
Definition holds_admin (db : DB) (P : string -> bool) (uid : string) : bool :=
  existsb (fun kv => let '(u, rid, _, _) := kv.1 in
                     bool_decide (u = uid) && role_is_admin db rid && P rid)
          (map_to_list (role_members db)).

Definition can_sign_in (u : UserRow) : bool := negb (u_disabled u) && negb (bool_decide (u_kind u = "bot")).

Definition countOtherAdmins (db : DB) (excludeRole : string) : nat :=
  length (List.filter (fun kv => can_sign_in kv.2 && holds_admin db (fun rid => negb (bool_decide (rid = excludeRole))) kv.1)
                      (map_to_list (users db))).

Definition countAdminsExcludingUser (db : DB) (excludeUser : string) : nat :=
  length (List.filter (fun kv => can_sign_in kv.2 && holds_admin db (fun _ => true) kv.1 &&
                                 negb (bool_decide (kv.1 = excludeUser)))
                      (map_to_list (users db))).

Definition signInAdmin (db : DB) (uid : string) : bool :=
  match users db !! uid with
  | Some u => holds_admin db (fun _ => true) uid && negb (bool_decide (u_kind u = "bot"))
  | None => false
  end.

Definition hasOtherAdminRole (db : DB) (uid excludeRole : string) : bool :=
  holds_admin db (fun rid => negb (bool_decide (rid = excludeRole))) uid.

Definition DeleteRole (db : DB) (id : string) : res StoreErr DB :=
  let* r := RoleByID db id in
  if RBuiltin r then Err ErrBuiltinRole
  else if RIsAdmin r && (countOtherAdmins db id =? 0)%nat then Err ErrLastAdmin
  else Ok (mkDB (delete id (roles db))
                (filter (fun kv => kv.1.1 <> id) (role_caps db))
                (filter (fun kv => kv.1.1.1.2 <> id) (role_members db))
                (users db) (environments db)
                (filter (fun kv => om_role kv.2 <> id) (oidc_role_mappings db))).

(** ** Grants *)

Definition canGrant (db : DB) (roleID : string) (sc : GrantScope) : res StoreErr unit :=
  if negb (Valid sc) then Err ErrBadScope
  else if IsGlobal sc then Ok tt
  else
    let* role := RoleByID db roleID in
    let bad := GlobalOnly (Effective role) in
    if negb (IsZero bad) then Err (ErrCannotScope (Names bad))
    else if bool_decide (ID sc ∈ environments db) then Ok tt
    else Err ErrUnknownHost.

(** The foreign keys of [role_members]. *)
Definition member_fk (db : DB) (userID roleID : string) : bool :=
  bool_decide (is_Some (users db !! userID)) && bool_decide (is_Some (roles db !! roleID)).

Definition GrantRole (db : DB) (userID roleID source : string) (sc : GrantScope) : res StoreErr DB :=
  let* _ := canGrant db roleID sc in
  if member_fk db userID roleID
  then Ok (set_members db (<[(userID, roleID, Kind sc, ID sc) := source]> (role_members db)))
  else Err ErrConstraint.

Definition refuseLastAdminRevoke (db : DB) (userID roleID : string) : res StoreErr unit :=
  if negb (signInAdmin db userID) then Ok tt
  else if (0 <? countAdminsExcludingUser db userID)%nat then Ok tt
  else if hasOtherAdminRole db userID roleID then Ok tt
  else Err ErrLastAdmin.

Definition RevokeRole (db : DB) (userID roleID : string) (sc : GrantScope) : res StoreErr DB :=
  let* r := RoleByID db roleID in
  let* _ := (if RIsAdmin r && IsGlobal sc then refuseLastAdminRevoke db userID roleID else Ok tt) in
  Ok (set_members db (delete (userID, roleID, Kind sc, ID sc) (role_members db))).

(** [SyncOIDCRoles]: the grants that cannot be applied are skipped before the
    transaction; inside it the provider's rows are replaced. *)
Definition sync_insert (userID : string) (acc : res StoreErr DB) (g : ScopedGrant) : res StoreErr DB :=
  let* db := acc in
  if member_fk db userID (g_role g) then
    let k := (userID, g_role g, Kind (g_scope g), ID (g_scope g)) in
    match role_members db !! k with
    | Some _ => Ok db
    | None => Ok (set_members db (<[k := SourceOIDC]> (role_members db)))
    end
  else Err ErrConstraint.

Definition valid_grants (db : DB) (grants : list ScopedGrant) : list ScopedGrant :=
  List.filter (fun g => is_ok (canGrant db (g_role g) (g_scope g))) grants.

Definition clear_oidc (db : DB) (userID : string) : DB :=
  set_members db (filter (fun kv => ~ (kv.1.1.1.1 = userID /\ kv.2 = SourceOIDC)) (role_members db)).

Definition SyncOIDCRoles (db : DB) (userID : string) (grants : list ScopedGrant) : res StoreErr DB :=
  fold_left (sync_insert userID) (valid_grants db grants) (Ok (clear_oidc db userID)).

Definition EnvHasGrants (db : DB) (envID : string) : bool :=
  existsb (fun kv => let '(_, _, k, i) := kv.1 in bool_decide (k = SEnv) && bool_decide (i = envID))
          (map_to_list (role_members db)).

Definition RevokeEnvGrants (db : DB) (envID : string) : DB :=
  mkDB (roles db) (role_caps db)
       (filter (fun kv => ~ (kv.1.1.2 = SEnv /\ kv.1.2 = envID)) (role_members db))
       (users db) (environments db)
       (filter (fun kv => ~ (om_kind kv.2 = SEnv /\ om_scope_id kv.2 = envID)) (oidc_role_mappings db)).

(** ** Users *)

Definition refuseIfLastAdmin (db : DB) (userID : string) : res StoreErr unit :=
  if negb (signInAdmin db userID) then Ok tt
  else if (countAdminsExcludingUser db userID =? 0)%nat then Err ErrLastAdmin
  else Ok tt.

Definition SetUserDisabled (db : DB) (userID : string) (disabled : bool) : DB :=
  mkDB (roles db) (role_caps db) (role_members db)
       (alter (fun u => mkUserRow disabled (u_kind u)) userID (users db))
       (environments db) (oidc_role_mappings db).

Definition DeleteUser (db : DB) (userID : string) : DB :=
  mkDB (roles db) (role_caps db)
       (filter (fun kv => kv.1.1.1.1 <> userID) (role_members db))
       (delete userID (users db)) (environments db) (oidc_role_mappings db).

Definition SetUserDisabledGuarded (db : DB) (userID : string) (disabled : bool) : res StoreErr DB :=
  let* _ := (if disabled then refuseIfLastAdmin db userID else Ok tt) in
  Ok (SetUserDisabled db userID disabled).

Definition DeleteUserGuarded (db : DB) (userID : string) : res StoreErr DB :=
  let* _ := refuseIfLastAdmin db userID in
  Ok (DeleteUser db userID).

(** ** Effective masks *)

(** One row of the join of memberships, roles and (LEFT) capabilities. *)
Record MaskRow := mkMaskRow { mr_area : option (string * Z); mr_admin : bool; mr_kind : string; mr_id : string }.

Definition role_areas (db : DB) (rid : string) : list (option (string * Z)) :=
  match filter (fun kv => kv.1.1 = rid) (map_to_list (role_caps db)) with
  | [] => [None]
  | rows => map (fun kv => Some (kv.1.2, kv.2)) rows
  end.

Definition mask_rows (db : DB) (userID : string) : list MaskRow :=
  flat_map (fun kv => let '(u, rid, kind, id) := kv.1 in
    if bool_decide (u = userID) then
      match roles db !! rid with
      | Some r => map (fun a => mkMaskRow a (r_is_admin r) kind id) (role_areas db rid)
      | None => []
      end
    else []) (map_to_list (role_members db)).

Definition row_set (r : MaskRow) : CapSet :=
  if mr_admin r then Everything
  else match mr_area r with Some (ns, m) => {[ ns := MaskOf m ]} | None => ∅ end.

Definition mask_step (st : CapSet * gmap string CapSet) (r : MaskRow) : CapSet * gmap string CapSet :=
  let '(global, env) := st in
  if mr_admin r && negb (bool_decide (mr_kind r = SGlobal)) then (global, env)
  else if bool_decide (mr_kind r = SGlobal) then (Or global (row_set r), env)
  else if bool_decide (mr_id r = "") then (global, env)
  else (global, <[mr_id r := Or (default ∅ (env !! mr_id r)) (And (row_set r) EnvScopable)]> env).

Definition EffectiveMask (db : DB) (userID : string) : ScopedMask :=
  let '(global, env) := fold_left mask_step (mask_rows db userID) (∅, ∅) in
  mkScoped (Normalize global) (Normalize <$> env).

(** The store is the cache's loader. *)
#[export] Instance store_loader : Loader DB := fun db u => Some (EffectiveMask db u).

(** ** What the stored masks contribute *)

Lemma role_raw_lookup db rid ns : role_raw db rid !! ns = MaskOf <$> role_caps db !! (rid, ns).
Proof.
  unfold role_raw. set (l := filter _ _).
  assert (NoDup (map (fun kv : string * string * Z => (kv.1.2, MaskOf kv.2)) l).*1) as Hnd.
  { rewrite map_map. simpl. apply NoDup_fmap_2_strong.
    - intros [[r1 n1] z1] [[r2 n2] z2] H1 H2. subst l. simpl.
      apply list_elem_of_filter in H1 as [E1 H1], H2 as [E2 H2]. simpl in *. intros ->. subst.
      apply elem_of_map_to_list in H1, H2. congruence.
    - subst l. apply NoDup_filter, NoDup_map_to_list. }
  destruct (role_caps db !! (rid, ns)) as [z|] eqn:E; simpl.
  - apply elem_of_list_to_map_1; [done|]. apply list_elem_of_fmap. exists ((rid, ns), z).
    split; [done|]. subst l. apply list_elem_of_filter. split; [done|]. by apply elem_of_map_to_list.
  - apply not_elem_of_list_to_map_1. intros H. apply list_elem_of_fmap in H as ([ns' m] & -> & H).
    apply list_elem_of_fmap in H as ([[r n] z] & [= -> ->] & H). subst l.
    apply list_elem_of_filter in H as [Hr H]. simpl in *. subst.
    apply elem_of_map_to_list in H. congruence.
Qed.

Lemma bit_role_raw db rid ns i :
  bit (role_raw db rid) ns i = true <->
  exists z, role_caps db !! (rid, ns) = Some z /\ N.testbit (MaskOf z) i = true.
Proof.
  unfold bit, mask. rewrite role_raw_lookup. destruct (role_caps db !! (rid, ns)) as [z|].
  - change (default 0%N (MaskOf <$> Some z)) with (MaskOf z). naive_solver.
  - change (default 0%N (MaskOf <$> None)) with 0%N. rewrite N.bits_0. naive_solver.
Qed.

Lemma role_areas_elem db rid a :
  a ∈ role_areas db rid <->
  (exists ns z, a = Some (ns, z) /\ role_caps db !! (rid, ns) = Some z) \/
  (a = None /\ forall ns, role_caps db !! (rid, ns) = None).
Proof.
  unfold role_areas. set (l := filter _ _).
  assert (forall kv, kv ∈ l <-> kv.1.1 = rid /\ role_caps db !! kv.1 = Some kv.2) as Hl.
  { intros [k z]. subst l. by rewrite list_elem_of_filter, elem_of_map_to_list. }
  assert (forall ns z, role_caps db !! (rid, ns) = Some z -> l <> []) as Hne.
  { intros ns z Hz E. assert (((rid, ns), z) ∈ l) as H by (by apply Hl). rewrite E in H. by apply elem_of_nil in H. }
  clearbody l. destruct l as [|kv l].
  - rewrite list_elem_of_singleton. split.
    + intros ->. right. split; [done|]. intros ns. destruct (role_caps db !! (rid, ns)) as [z|] eqn:E; [|done].
      by destruct (Hne ns z E).
    + intros [(ns & z & _ & Hz)|[-> _]]; [|done]. by destruct (Hne ns z Hz).
  - rewrite list_elem_of_fmap. split.
    + intros ([[r ns] z] & -> & H). apply Hl in H as [Hr Hz]. simpl in *. subst. left. eauto.
    + intros [(ns & z & -> & Hz)|[-> Hnone]].
      * exists ((rid, ns), z). split; [done|]. by apply Hl.
      * destruct (Hl kv) as [H _]. destruct H as [Hr Hz]; [by left|].
        destruct kv as [[r ns] z]. simpl in *. subst. by rewrite Hnone in Hz.
Qed.

(** The bits the rows of one membership put in a set: those of its role's
    masks, or every registered bit when the role is an admin's. *)
Definition role_bits (db : DB) (r : RoleRow) (rid ns : string) (i : N) : Prop :=
  if r_is_admin r then bit Everything ns i = true else bit (role_raw db rid) ns i = true.

Lemma mask_rows_elem db u row :
  row ∈ mask_rows db u <->
  exists rid r src, role_members db !! (u, rid, mr_kind row, mr_id row) = Some src /\
    roles db !! rid = Some r /\ mr_admin row = r_is_admin r /\ mr_area row ∈ role_areas db rid.
Proof.
  unfold mask_rows. rewrite flat_map_elem. split.
  - intros ([[[[u' rid] kind] id] src] & Hm & H). apply elem_of_map_to_list in Hm. simpl in H.
    case_bool_decide; subst; [|by apply elem_of_nil in H].
    destruct (roles db !! rid) as [r|] eqn:Er; [|by apply elem_of_nil in H].
    apply list_elem_of_fmap in H as (a & -> & Ha). simpl. eauto 8.
  - intros (rid & r & src & Hm & Hr & Ha & Harea).
    exists (u, rid, mr_kind row, mr_id row, src). split; [by apply elem_of_map_to_list|].
    simpl. rewrite bool_decide_eq_true_2 by done. rewrite Hr. apply list_elem_of_fmap.
    exists (mr_area row). split; [|done]. rewrite <- Ha. by destruct row.
Qed.

Lemma bit_row_set db row rid r ns i :
  mr_admin row = r_is_admin r -> mr_area row ∈ role_areas db rid ->
  bit (row_set row) ns i = true -> role_bits db r rid ns i.
Proof.
  intros Ha Harea. unfold row_set, role_bits. rewrite Ha. destruct (r_is_admin r); [done|].
  apply role_areas_elem in Harea as [(ns' & z & -> & Hz)|[-> _]]; [|by rewrite bit_empty].
  unfold bit at 1, mask. rewrite lookup_singleton. case_decide; subst.
  - intros Hb. apply bit_role_raw. by exists z.
  - change (default 0%N None) with 0%N. by rewrite N.bits_0.
Qed.

Lemma role_bits_row db r rid ns i :
  role_bits db r rid ns i ->
  exists a, a ∈ role_areas db rid /\ forall kind id, bit (row_set (mkMaskRow a (r_is_admin r) kind id)) ns i = true.
Proof.
  unfold role_bits, row_set. simpl. destruct (r_is_admin r); intros H.
  - assert (role_areas db rid <> []) as Hne by (unfold role_areas; by destruct (filter _ _)).
    destruct (role_areas db rid) as [|a l] eqn:E; [destruct (Hne eq_refl)|]. exists a. split; [apply list_elem_of_here | intros _ _; exact H].
  - apply bit_role_raw in H as (z & Hz & Hb). exists (Some (ns, z)). split.
    + apply role_areas_elem. left. eauto.
    + intros _ _. unfold bit, mask. by rewrite lookup_singleton_eq.
Qed.

(** ** The fold of [EffectiveMask] *)

Definition env_bit (env : gmap string CapSet) (id ns : string) (i : N) : bool := bit (default ∅ (env !! id)) ns i.

Lemma mask_fold_global rows st ns i :
  bit (fold_left mask_step rows st).1 ns i = true <->
  bit st.1 ns i = true \/ exists r, r ∈ rows /\ mr_kind r = SGlobal /\ bit (row_set r) ns i = true.
Proof.
  revert st. induction rows as [|r rows IH]; intros [g env]; simpl.
  - split; [by left|]. intros [|(r & H & _)]; [done|]. by apply elem_of_nil in H.
  - rewrite IH. setoid_rewrite elem_of_cons.
    assert (bit (mask_step (g, env) r).1 ns i = true <->
            bit g ns i = true \/ (mr_kind r = SGlobal /\ bit (row_set r) ns i = true)) as ->.
    { unfold mask_step. case_bool_decide as Hk; simpl.
      - rewrite andb_false_r. simpl. rewrite bit_Or, orb_true_iff. tauto.
      - repeat case_match; simpl; tauto. }
    split.
    + intros [[H|[H1 H2]]|(r' & H & Hr)]; [by left | right; eauto | right; eauto].
    + intros [H|(r' & [->|H] & Hr)]; [by left; left | by left; right | right; eauto].
Qed.

Lemma mask_fold_env rows st id ns i :
  env_bit (fold_left mask_step rows st).2 id ns i = true <->
  env_bit st.2 id ns i = true \/
  exists r, r ∈ rows /\ mr_kind r <> SGlobal /\ mr_admin r = false /\ mr_id r = id /\ id <> "" /\
            bit (row_set r) ns i = true /\ bit EnvScopable ns i = true.
Proof.
  revert st. induction rows as [|r rows IH]; intros [g env]; simpl.
  - split; [by left|]. intros [|(r & H & _)]; [done|]. by apply elem_of_nil in H.
  - rewrite IH. setoid_rewrite elem_of_cons.
    assert (env_bit (mask_step (g, env) r).2 id ns i = true <->
            env_bit env id ns i = true \/ (mr_kind r <> SGlobal /\ mr_admin r = false /\ mr_id r = id /\ id <> "" /\
              bit (row_set r) ns i = true /\ bit EnvScopable ns i = true)) as ->.
    { unfold mask_step. case_bool_decide as Hk; simpl; [rewrite andb_false_r; simpl; tauto|].
      destruct (mr_admin r) eqn:Ha; simpl; [split; [by left | by intros [?|(_ & ? & _)]]|].
      case_bool_decide as Hid; simpl; [split; [by left | intros [?|(_ & _ & <- & ? & _)]; done]|].
      unfold env_bit. rewrite lookup_insert. case_decide as Hd.
      - subst. simpl. rewrite bit_Or, bit_And, orb_true_iff, andb_true_iff. tauto.
      - split; [by left | by intros [?|(_ & _ & ? & _)]]. }
    split.
    + intros [[H|H]|(r' & H & Hr)]; [by left | right; eauto | right; eauto].
    + intros [H|(r' & [->|H] & Hr)]; [by left; left | by left; right | right; eauto].
Qed.

(** ** What a user may do *)

(** Held everywhere: through a global membership of a role that grants it. *)
Definition held_globally (db : DB) (u : string) (d : Def) : Prop :=
  exists rid sid src r, role_members db !! (u, rid, SGlobal, sid) = Some src /\
    RoleByID db rid = Ok r /\ Has (Effective r) (DCap d) = true.

(** Held on one environment: through a scoped membership of a role that is not
    an admin's, by what of it may be scoped. *)
Definition held_on (db : DB) (u env : string) (d : Def) : Prop :=
  exists rid kind src r, kind <> SGlobal /\ role_members db !! (u, rid, kind, env) = Some src /\
    RoleByID db rid = Ok r /\ RIsAdmin r = false /\
    Has (Normalize (And (role_raw db rid) EnvScopable)) (DCap d) = true.

Definition row_caps (db : DB) (rid : string) : CapSet :=
  if role_is_admin db rid then Everything else role_raw db rid.

Lemma RoleByID_ok db rid r :
  RoleByID db rid = Ok r <->
  exists row, roles db !! rid = Some row /\ r = mkRole rid (r_name row) (r_description row) (capsOf db rid) (r_is_admin row) (r_builtin row).
Proof.
  unfold RoleByID. destruct (roles db !! rid) as [row|].
  - split; [intros [= <-]; eauto | by intros (? & [= <-] & ->)].
  - split; [done | by intros (? & ? & _)].
Qed.

Lemma role_bits_caps db rid r ns i :
  roles db !! rid = Some r -> role_bits db r rid ns i <-> bit (row_caps db rid) ns i = true.
Proof. intros Hr. unfold role_bits, row_caps, role_is_admin. rewrite Hr. by destruct (r_is_admin r). Qed.

Lemma Has_of_bits s t d :
  d ∈ All -> (forall i, bit s (NS (DCap d)) i = true <-> bit t (NS (DCap d)) i = true) ->
  Has s (DCap d) = true <-> Has t (DCap d) = true.
Proof. intros Hd H. rewrite !Has_bit. by setoid_rewrite H. Qed.

Lemma bit_mask_global db u ns i :
  bit (fold_left mask_step (mask_rows db u) (∅, ∅)).1 ns i = true <->
  exists rid sid src r, role_members db !! (u, rid, SGlobal, sid) = Some src /\
    roles db !! rid = Some r /\ bit (row_caps db rid) ns i = true.
Proof.
  rewrite mask_fold_global. simpl. rewrite bit_empty. split.
  - intros [|(row & Hrow & Hk & Hb)]; [done|].
    apply mask_rows_elem in Hrow as (rid & r & src & Hm & Hr & Ha & Harea). rewrite Hk in Hm.
    exists rid, (mr_id row), src, r. split_and!; [done..|].
    apply (role_bits_caps _ _ r); [done|]. by eapply bit_row_set.
  - intros (rid & sid & src & r & Hm & Hr & Hb). right.
    apply (role_bits_caps _ _ r) in Hb; [|done].
    apply role_bits_row in Hb as (a & Ha & Hbits).
    exists (mkMaskRow a (r_is_admin r) SGlobal sid). split_and!; [|done|apply Hbits].
    apply mask_rows_elem. eauto 8.
Qed.

Lemma bit_mask_env db u env ns i :
  env <> "" ->
  env_bit (fold_left mask_step (mask_rows db u) (∅, ∅)).2 env ns i = true <->
  exists rid kind src r, kind <> SGlobal /\ role_members db !! (u, rid, kind, env) = Some src /\
    roles db !! rid = Some r /\ r_is_admin r = false /\ bit (And (role_raw db rid) EnvScopable) ns i = true.
Proof.
  intros Hne. rewrite mask_fold_env. unfold env_bit. simpl. rewrite lookup_empty, bit_empty.
  setoid_rewrite bit_And. setoid_rewrite andb_true_iff. split.
  - intros [|(row & Hrow & Hk & Hadm & <- & _ & Hb & Hs)]; [done|].
    apply mask_rows_elem in Hrow as (rid & r & src & Hm & Hr & Ha & Harea).
    apply (bit_row_set db _ rid r) in Hb; [|done..]. unfold role_bits in Hb.
    rewrite <- Ha, Hadm in Hb. exists rid, (mr_kind row), src, r.
    rewrite <- Ha. by repeat split.
  - intros (rid & kind & src & r & Hk & Hm & Hr & Ha & Hb & Hs). right.
    assert (role_bits db r rid ns i) as Hbits by (unfold role_bits; by rewrite Ha).
    apply role_bits_row in Hbits as (a & Harea & Hbits).
    exists (mkMaskRow a (r_is_admin r) kind env). split_and!; [|done|done|done|done|apply Hbits|done].
    apply mask_rows_elem. eauto 8.
Qed.

Lemma EffectiveMask_global db u :
  Caps.Global (EffectiveMask db u) = Normalize (fold_left mask_step (mask_rows db u) (∅, ∅)).1.
Proof. unfold EffectiveMask. by destruct (fold_left _ _ _). Qed.

Lemma EffectiveMask_env db u env :
  env_set (EffectiveMask db u) env ≡c
  Normalize (default ∅ ((fold_left mask_step (mask_rows db u) (∅, ∅)).2 !! env)).
Proof.
  unfold EffectiveMask, env_set. destruct (fold_left _ _ _) as [g e]. simpl.
  rewrite lookup_fmap. destruct (e !! env); [done|].
  intros ns i. change (default ∅ (Normalize <$> None)) with (∅ : CapSet).
  by rewrite bit_empty, bit_Normalize_empty.
Qed.

Lemma Has_global_spec db u d :
  d ∈ All -> Has (Caps.Global (EffectiveMask db u)) (DCap d) = true <-> held_globally db u d.
Proof.
  intros Hd. rewrite EffectiveMask_global.
  rewrite (Has_Normalize_union
    (fun k : string * string => exists src r, role_members db !! (u, k.1, SGlobal, k.2) = Some src /\ roles db !! k.1 = Some r)
    (fun k => row_caps db k.1)); [|clear d Hd; intros d Hd|done].
  - unfold held_globally. split.
    + intros ([rid sid] & (src & r & Hm & Hr) & Hh). simpl in *. exists rid, sid, src. eexists. split_and!; [done| |].
      * apply RoleByID_ok. eauto.
      * unfold Effective. simpl. unfold row_caps, role_is_admin in Hh. rewrite Hr in Hh.
        destruct (r_is_admin r); [by apply Has_Everything | exact Hh].
    + intros (rid & sid & src & r & Hm & Hr & Hh). apply RoleByID_ok in Hr as (row & Hr & ->).
      exists (rid, sid). split; [eauto|]. simpl. unfold row_caps, role_is_admin. rewrite Hr.
      unfold Effective in Hh. simpl in Hh. destruct (r_is_admin row); [|exact Hh].
      apply Has_Normalize; [done|]. left. exact Hh.
  - rewrite Has_bit. setoid_rewrite bit_mask_global. split.
    + intros (Hne & i & (rid & sid & src & r & Hm & Hr & Hb) & Hi). exists (rid, sid). split; [eauto|].
      apply Has_bit. eauto.
    + intros ([rid sid] & (src & r & Hm & Hr) & Hh). apply Has_bit in Hh as (Hne & i & Hb & Hi).
      split; [done|]. exists i. split; [|done]. eauto 8.
Qed.

Lemma Has_env_spec db u env d :
  d ∈ All -> env <> "" ->
  Has (env_set (EffectiveMask db u) env) (DCap d) = true <-> held_on db u env d.
Proof.
  intros Hd Henv. rewrite EffectiveMask_env.
  rewrite (Has_Normalize_union
    (fun k : string * string => exists src r, k.2 <> SGlobal /\ role_members db !! (u, k.1, k.2, env) = Some src /\
       roles db !! k.1 = Some r /\ r_is_admin r = false)
    (fun k => And (role_raw db k.1) EnvScopable)); [|clear d Hd; intros d Hd|done].
  - unfold held_on. split.
    + intros ([rid kind] & (src & r & Hk & Hm & Hr & Ha) & Hh). simpl in *.
      exists rid, kind, src, (mkRole rid (r_name r) (r_description r) (capsOf db rid) (r_is_admin r) (r_builtin r)).
      split_and!; [done|done| |exact Ha|exact Hh]. apply RoleByID_ok. eauto.
    + intros (rid & kind & src & r & Hk & Hm & Hr & Ha & Hh). apply RoleByID_ok in Hr as (row & Hr & ->).
      exists (rid, kind). split; [eauto 8 | exact Hh].
  - rewrite Has_bit. split.
    + intros (Hne & i & Hb & Hi). apply (bit_mask_env db u env) in Hb; [|done].
      destruct Hb as (rid & kind & src & r & Hk & Hm & Hr & Ha & Hb). exists (rid, kind).
      split; [eauto 8|]. apply Has_bit. eauto.
    + intros ([rid kind] & (src & r & Hk & Hm & Hr & Ha) & Hh). apply Has_bit in Hh as (Hne & i & Hb & Hi).
      split; [done|]. exists i. split; [|done]. apply (bit_mask_env db u env); [done|]. eauto 10.
Qed.

(** ** Properties of effective masks *)

(** C5: a check answers exactly the question the memberships pose: a capability
    is held on an environment when some global membership's role grants it, or
    some membership scoped to that environment does, by what of the role may be
    scoped; asked without an environment, only the global ones count. *)
Theorem EffectiveMask_spec (db : DB) (u env : string) (d : Def) :
  d ∈ All ->
  ScopedHas (EffectiveMask db u) (DCap d) env = true <->
  held_globally db u d \/ (env <> "" /\ held_on db u env d).
Proof.
  intros Hd. unfold ScopedHas. rewrite <- Has_global_spec by done.
  destruct (Has (Caps.Global (EffectiveMask db u)) (DCap d)); [tauto|].
  case_bool_decide as He; [split; [done | by intros [|[? _]]]|].
  rewrite Has_env_spec by done. split; [by right | by intros [|[_ ?]]].
Qed.

(** In any database whatsoever, including one edited by hand, what a user
    holds on one environment only is limited to the capabilities that may be
    scoped: "Admin on staging" cannot become more than that. *)
Theorem scoped_mask_safe (db : DB) (u env : string) (d : Def) :
  d ∈ All ->
  Has (env_set (EffectiveMask db u) env) (DCap d) = true -> Scope d = ScopeEnv.
Proof.
  intros Hd Hh. rewrite EffectiveMask_env in Hh.
  destruct (decide (env = "")) as [->|Hne].
  - exfalso. apply Has_bit in Hh as (_ & i & Hb & _). apply bit_Normalize in Hb.
    assert (forall ns j, bit (default ∅ ((fold_left mask_step (mask_rows db u) (∅, ∅)).2 !! "")) ns j = false) as H0.
    { intros ns j. apply not_true_iff_false. intros H. apply (mask_fold_env _ _ "" ns j) in H.
      destruct H as [H|(_ & _ & _ & _ & _ & ? & _)]; [|done]. unfold env_bit in H. simpl in H.
      by rewrite lookup_empty, bit_empty in H. }
    destruct Hb as [[Hb _]|(e & v & _ & _ & Hh & _)]; [by rewrite H0 in Hb|].
    apply Has_bit in Hh as (_ & j & Hj & _). by rewrite H0 in Hj.
  - rewrite <- EffectiveMask_env in Hh. apply Has_env_spec in Hh; [|done..].
    destruct Hh as (rid & kind & src & r & _ & _ & _ & _ & Hh). by eapply Normalize_EnvScopable.
Qed.

(** ** Storing capabilities *)

Lemma writeCaps_fold (rid : string) (l : list (string * N)) (acc : gmap (string * string) Z) (rid' ns : string) :
  foldr (fun nm acc => if (nm.2 =? 0)%N then acc else <[(rid, nm.1) := Z.of_N nm.2]> acc) acc l !! (rid', ns) =
  if bool_decide (rid = rid') then
    match (list_to_map (List.filter (fun nm => negb (nm.2 =? 0)%N) l) : gmap string N) !! ns with
    | Some m => Some (Z.of_N m)
    | None => acc !! (rid', ns)
    end
  else acc !! (rid', ns).
Proof.
  induction l as [|[n m] l IH]; simpl; [by case_bool_decide|].
  destruct (m =? 0)%N eqn:Em; simpl; [exact IH|].
  destruct (decide (rid = rid')) as [<-|Hr].
  - rewrite bool_decide_eq_true_2 in * by done. destruct (decide (n = ns)) as [->|Hn].
    + by rewrite !lookup_insert_eq.
    + rewrite !lookup_insert_ne by congruence. exact IH.
  - rewrite bool_decide_eq_false_2 in * by done. rewrite lookup_insert_ne by congruence. exact IH.
Qed.

Lemma writeCaps_other db rid set rid' ns :
  rid <> rid' -> writeCaps db rid set !! (rid', ns) = role_caps db !! (rid', ns).
Proof.
  intros Hne. unfold writeCaps. rewrite writeCaps_fold, bool_decide_eq_false_2 by done.
  apply option_eq. intros z. rewrite map_lookup_filter_Some. simpl. naive_solver.
Qed.

Lemma writeCaps_self db rid set ns :
  writeCaps db rid set !! (rid, ns) =
  match Normalize set !! ns with Some m => if (m =? 0)%N then None else Some (Z.of_N m) | None => None end.
Proof.
  unfold writeCaps. rewrite writeCaps_fold, bool_decide_eq_true_2 by done.
  assert (filter (fun kv : string * string * Z => kv.1.1 <> rid) (role_caps db) !! (rid, ns) = None) as Hc.
  { apply map_lookup_filter_None. right. intros z _. simpl. tauto. }
  rewrite Hc. set (l := List.filter _ _).
  assert (NoDup l.*1) as Hnd.
  { subst l. pose proof (NoDup_fst_map_to_list (Normalize set)) as Hn. revert Hn.
    generalize (map_to_list (Normalize set)). intros k. induction k as [|[n m] k IH]; simpl; [done|].
    intros [Hn Hk]%NoDup_cons. destruct (m =? 0)%N; simpl; [by apply IH|]. constructor; [|by apply IH].
    intros (x & -> & Hx)%list_elem_of_fmap. apply Hn. apply list_elem_of_fmap. exists x. split; [done|].
    rewrite list_elem_of_In, filter_In in Hx. apply list_elem_of_In, Hx. }
  assert (forall n m, (n, m) ∈ l <-> Normalize set !! n = Some m /\ m <> 0%N) as Hl.
  { intros n m. subst l. rewrite list_elem_of_In, filter_In, <- list_elem_of_In, elem_of_map_to_list.
    rewrite negb_true_iff, N.eqb_neq. done. }
  destruct (list_to_map l !! ns) as [m|] eqn:E.
  - apply elem_of_list_to_map_2, Hl in E as [-> E]. by rewrite (proj2 (N.eqb_neq m 0) E).
  - apply not_elem_of_list_to_map_2 in E. destruct (Normalize set !! ns) as [m|] eqn:En; [|done].
    destruct (m =? 0)%N eqn:Em; [done|]. exfalso. apply E, list_elem_of_fmap. exists (ns, m).
    split; [done|]. apply Hl. by rewrite N.eqb_neq in Em.
Qed.

(** A normalized mask fits the 32-bit column: it survives the round trip. *)
Lemma MaskOf_bits m i : (i < 32)%N -> N.testbit (MaskOf (Z.of_N m)) i = N.testbit m i.
Proof.
  intros Hi. unfold MaskOf. change (2 ^ 32)%Z with (Z.of_N (2 ^ 32)).
  rewrite <- N2Z.inj_mod, N2Z.id. by apply N.mod_pow2_bits_low.
Qed.

Lemma MaskOf_bits_high z i : (32 <= i)%N -> N.testbit (MaskOf z) i = false.
Proof.
  intros Hi. unfold MaskOf. pose proof (Z.mod_pos_bound z (2^32) eq_refl) as Hb.
  destruct (Z.to_N (z mod 2 ^ 32)) as [|p] eqn:E; [apply N.bits_0|].
  apply N.bits_above_log2. apply N.lt_le_trans with 32%N; [|done].
  apply N.log2_lt_pow2; [done|]. rewrite <- E. change (2^32)%N with (Z.to_N (2^32)).
  apply Z2N.inj_lt; lia.
Qed.

Lemma registered_low ns i : bit Everything ns i = true -> (i <= MaxBit)%N.
Proof.
  intros H. apply bit_Everything in H as (d & Hd & _ & Hi).
  pose proof (proj1 (forallb_elem _ _) registry_single_bit d Hd) as Hs. cbv beta in Hs.
  unfold single_bit in Hs. apply andb_prop in Hs as [Hs _]. apply andb_prop in Hs as [Hs _].
  apply existsb_elem in Hs as (k & Hk & E). apply N.eqb_eq in E.
  rewrite E, N.shiftl_1_l, N.pow2_bits_eqb in Hi. apply N.eqb_eq in Hi. subst.
  apply elem_of_seq in Hk. unfold MaxBit in *. simpl in Hk. lia.
Qed.

Lemma role_raw_writeCaps db db' rid set :
  role_caps db' = writeCaps db rid set -> role_raw db' rid ≡c Normalize set.
Proof.
  intros Hc ns i. apply bool_iff. rewrite bit_role_raw, Hc. setoid_rewrite writeCaps_self.
  unfold bit, mask. destruct (Normalize set !! ns) as [m|] eqn:E.
  - change (default 0%N (Some m)) with m. destruct (m =? 0)%N eqn:Em.
    + apply N.eqb_eq in Em. subst. rewrite N.bits_0. naive_solver.
    + split.
      * intros (z & [= <-] & Hb). destruct (decide (i < 32)%N); [by rewrite MaskOf_bits in Hb|].
        rewrite MaskOf_bits_high in Hb by lia. done.
      * intros Hb. exists (Z.of_N m). split; [done|]. rewrite MaskOf_bits; [done|].
        assert (bit (Normalize set) ns i = true) as Hn by (unfold bit, mask; by rewrite E).
        apply Normalize_registered, registered_low in Hn. unfold MaxBit in Hn. lia.
  - change (default 0%N None) with 0%N. rewrite N.bits_0. naive_solver.
Qed.

(** What a role edit stores is what is read back: the role's capabilities
    become the normalization of the submitted set, and no other role's change;
    the name and description move with them, the admin and builtin flags do not. *)
Theorem UpdateRole_roundtrip (db db' : DB) (r : Role) :
  UpdateRole db r = Ok db' ->
  (exists row r', roles db !! RID r = Some row /\ RoleByID db' (RID r) = Ok r' /\
     RName r' = RName r /\ RDescription r' = RDescription r /\
     RIsAdmin r' = r_is_admin row /\ RBuiltin r' = r_builtin row /\ RCaps r' ≡c Normalize (RCaps r)) /\
  (forall rid, rid <> RID r -> RoleByID db' rid = RoleByID db rid).
Proof.
  unfold UpdateRole. destruct (roles db !! RID r) as [row|] eqn:Er; [|done].
  case_match; [done|]. intros [= <-]. split.
  - exists row. eexists. split_and!; [done | by apply RoleByID_ok; simpl; rewrite lookup_insert_eq; eauto | done..|].
    simpl. unfold capsOf. rewrite (role_raw_writeCaps db _ (RID r) (RCaps r)) by done. apply Normalize_idem.
  - intros rid Hne. unfold RoleByID. simpl. rewrite lookup_insert_ne by done.
    destruct (roles db !! rid); [|done]. do 2 f_equal. unfold capsOf. f_equal.
    apply map_eq. intros ns. rewrite !role_raw_lookup. simpl. by rewrite writeCaps_other.
Qed.

(** ** The theorems at a concrete fleet *)

Definition demo_db : DB :=
  mkDB {[ "adm" := mkRoleRow "Admin" "" true true; "ops" := mkRoleRow "Ops" "" false false ]}
       {[ ("ops", NSDocker) := 6%Z ]}
       {[ ("ann", "adm", SGlobal, "") := SourceOIDC; ("bob", "ops", SEnv, "prod") := SourceLocal ]}
       {[ "ann" := mkUserRow false "user"; "bob" := mkUserRow false "user" ]}
       {[ "prod" ]} ∅.

Lemma EffectiveMask_spec_witness :
  ScopedHas (EffectiveMask demo_db "bob") ContainersEdit "prod" = true /\
  (held_globally demo_db "bob" (mkDef ContainersEdit "containers.edit" "containers" ModeEdit ScopeEnv) \/
   ("prod" <> "" /\ held_on demo_db "bob" "prod" (mkDef ContainersEdit "containers.edit" "containers" ModeEdit ScopeEnv))).
Proof.
  split; [by vm_compute|].
  apply (EffectiveMask_spec demo_db "bob" "prod" (mkDef ContainersEdit "containers.edit" "containers" ModeEdit ScopeEnv));
    [|by vm_compute].
  apply list_elem_of_In. right. by left.
Defined.

Lemma scoped_mask_safe_witness :
  Scope (mkDef ContainersEdit "containers.edit" "containers" ModeEdit ScopeEnv) = ScopeEnv.
Proof.
  apply (scoped_mask_safe demo_db "bob" "prod" (mkDef ContainersEdit "containers.edit" "containers" ModeEdit ScopeEnv)).
  - apply list_elem_of_In. right. by left.
  - by vm_compute.
Defined.

Definition demo_ops : Role := mkRole "ops" "Operators" "on call" {[ NSDocker := 2%N ]} true true.

Lemma UpdateRole_roundtrip_witness :
  exists db' r', UpdateRole demo_db demo_ops = Ok db' /\ RoleByID db' "ops" = Ok r' /\ RIsAdmin r' = false /\ Has (RCaps r') ContainersView = true.
Proof.
  destruct (UpdateRole demo_db demo_ops) as [db'|e] eqn:E; [|vm_compute in E; congruence].
  destruct (UpdateRole_roundtrip demo_db db' demo_ops E) as ((row & r' & Hrow & Hr & _ & _ & Ha & _ & Hc) & _).
  exists db', r'. split_and!; [done | exact Hr | |].
  - rewrite Ha. vm_compute in Hrow. by injection Hrow as <-.
  - rewrite Hc. by vm_compute.
Defined.
