(* ===== verification/Outbox.v ===== *)
(** * Notifications: rules, recipients, the outbox and its worker

    Models [internal/store/notify.go], [internal/notify/notify.go] and
    [internal/notify/worker.go]. The outbox is the list of its rows in order of
    insertion; what SMTP servers and chat services answer, and which database
    writes fail, are inputs of a drain. Rendering ([Render], [RenderChannel])
    and the sealer are parameters. *)
From S2P Require Import Prelude GoStd Timestamps Caps CapCache Roles.
Local Open Scope string_scope.
Local Open Scope list_scope.
Local Open Scope daffa_scope.
Local Open Scope Z_scope.

(** ** Tables *)

Record SMTPSettings := mkSMTP {
  Host : string; Port : Z; Username : string; PasswordEnc : string; FromAddr : string; FromName : string; BaseURL : string; sEnabled : bool }.

Record Channel := mkChannel { c_kind : string; c_name : string; c_url_enc : string; c_enabled : bool }.

Record Rule := mkRule { ru_id : string; ru_event : string; ru_role : string; ru_address : string; ru_channel : string }.

Inductive MsgStatus := Pending | Sent | Failed.
#[export] Instance MsgStatus_eq_dec : EqDecision MsgStatus.
Proof. solve_decision. Defined.

(** Identifiers come from [NewID]; the n-th is the number n. *)
Record OutboxMessage := mkMsg {
  o_id : nat; o_event : string; o_kind : string; o_to : string; o_channel : string; o_subject : string; o_html : string; o_text : string;
  o_status : MsgStatus; o_attempts : Z; o_next : Z; o_error : string; o_created : Z }.

Record NotifyDB := mkNotify {
  smtp : option SMTPSettings; channels : gmap string Channel; rules : list Rule; outbox : list OutboxMessage; next_msg : nat }.

Inductive NotifyErr := BadChannelKind | BadChannel | BadRuleTargets | ErrNoChannel | ErrDuplicate | ErrForeignKey.

Definition set_outbox (db : NotifyDB) (l : list OutboxMessage) : NotifyDB := mkNotify (smtp db) (channels db) (rules db) l (next_msg db).

(** ** Settings, channels and rules *)

Definition ReadSMTP (db : NotifyDB) : SMTPSettings :=
  match smtp db with Some v => v | None => mkSMTP "" 587 "" "" "" "Daffa" "" false end.

(** An empty password keeps the stored one. *)
Definition SaveSMTPSettings (db : NotifyDB) (v : SMTPSettings) : NotifyDB :=
  let pw := if bool_decide (PasswordEnc v = "") then PasswordEnc (ReadSMTP db) else PasswordEnc v in
  mkNotify (Some (mkSMTP (Host v) (Port v) (Username v) pw (FromAddr v) (FromName v) (BaseURL v) (sEnabled v)))
           (channels db) (rules db) (outbox db) (next_msg db).

Definition ChannelKinds (k : string) : bool := bool_decide (k = "slack") || bool_decide (k = "discord") || bool_decide (k = "webhook").

Definition CreateChannel (db : NotifyDB) (id : string) (c : Channel) : res NotifyErr NotifyDB :=
  if negb (ChannelKinds (c_kind c)) then Err BadChannelKind
  else if bool_decide (c_name c = "") || bool_decide (c_url_enc c = "") then Err BadChannel
  else match channels db !! id with
       | Some _ => Err ErrDuplicate
       | None => Ok (mkNotify (smtp db) (<[id := c]> (channels db)) (rules db) (outbox db) (next_msg db))
       end.

(** Its rules go first, then the channel; the rules are gone even when there
    was no channel of that name. *)
Definition DeleteChannel (db : NotifyDB) (id : string) : NotifyDB * option NotifyErr :=
  (mkNotify (smtp db) (delete id (channels db)) (List.filter (fun r => negb (bool_decide (ru_channel r = id))) (rules db)) (outbox db) (next_msg db),
   match channels db !! id with None => Some ErrNoChannel | Some _ => None end).

Definition rule_targets (r : Rule) : nat :=
  length (List.filter (fun v => negb (bool_decide (v = ""))) [ru_role r; ru_address r; ru_channel r]).

(** The foreign keys are the role's and the channel's. *)
Definition CreateNotificationRule (roles : DB) (db : NotifyDB) (r : Rule) : res NotifyErr NotifyDB :=
  if negb (rule_targets r =? 1)%nat then Err BadRuleTargets
  else if existsb (fun x => bool_decide (ru_id x = ru_id r)) (rules db) then Err ErrDuplicate
  else if negb (bool_decide (ru_role r = "")) && negb (bool_decide (is_Some (Roles.roles roles !! ru_role r))) then Err ErrForeignKey
  else if negb (bool_decide (ru_channel r = "")) && negb (bool_decide (is_Some (channels db !! ru_channel r))) then Err ErrForeignKey
  else Ok (mkNotify (smtp db) (channels db) (rules db ++ [r]) (outbox db) (next_msg db)).

Definition DeleteNotificationRule (db : NotifyDB) (id : string) : NotifyDB :=
  mkNotify (smtp db) (channels db) (List.filter (fun r => negb (bool_decide (ru_id r = id))) (rules db)) (outbox db) (next_msg db).

(** [ChannelsFor]: SELECT DISTINCT over the rules of the event. *)
Definition ChannelsFor (db : NotifyDB) (event : string) : list (string * Channel) :=
  List.filter (fun kc => c_enabled kc.2 && existsb (fun r => bool_decide (ru_event r = event) && bool_decide (ru_channel r = kc.1)) (rules db))
              (map_to_list (channels db)).

(** ** Recipients *)

(** The e-mail column of [users]. *)
Abbreviation Emails := (gmap string string).

Definition covers (envID kind id : string) : bool :=
  bool_decide (kind = SGlobal) || (negb (bool_decide (envID = "")) && bool_decide (kind = SEnv) && bool_decide (id = envID)).

Definition roleMemberEmails (roles : DB) (emails : Emails) (roleID envID : string) : list string :=
  remove_dups (omap (fun kv =>
    let '(u, rid, kind, id) := kv.1 in
    match users roles !! u, emails !! u with
    | Some row, Some e => if bool_decide (rid = roleID) && negb (u_disabled row) && negb (bool_decide (e = "")) && covers envID kind id then Some e else None
    | _, _ => None
    end) (map_to_list (role_members roles))).

(** A rule with an address is one recipient; the others name roles, which are
    resolved after them. The same address is told once. *)
Definition add_addr (out : list string) (a : string) : list string := if bool_decide (a ∈ out) then out else out ++ [a].

Definition RecipientsFor (roles : DB) (emails : Emails) (db : NotifyDB) (event envID : string) : list string :=
  let mine := List.filter (fun r => bool_decide (ru_event r = event)) (rules db) in
  let direct := fold_left add_addr (List.filter (fun a => negb (bool_decide (a = ""))) (map ru_address mine)) [] in
  let roleIDs := map ru_role (List.filter (fun r => bool_decide (ru_address r = "") && negb (bool_decide (ru_role r = ""))) mine) in
  fold_left (fun out rid => fold_left add_addr (roleMemberEmails roles emails rid envID) out) roleIDs direct.

(** ** The outbox *)

Definition Enqueue (db : NotifyDB) (now : Z) (event kind to channel subject html text : string) : NotifyDB :=
  let kind := if bool_decide (kind = "") then "email" else kind in
  mkNotify (smtp db) (channels db) (rules db)
    (outbox db ++ [mkMsg (next_msg db) event kind to channel subject html text Pending 0 now "" now]) (S (next_msg db)).

Definition due_before (a b : OutboxMessage) : bool := String.ltb (stamp (o_next a)) (stamp (o_next b)).
Definition is_due (now : Z) (m : OutboxMessage) : bool :=
  bool_decide (o_status m = Pending) && negb (String.ltb (stamp now) (stamp (o_next m))).
Definition DueMessages (db : NotifyDB) (now : Z) (limit : nat) : list OutboxMessage :=
  take limit (ssort due_before (List.filter (is_due now) (outbox db))).

Definition update_msg (db : NotifyDB) (id : nat) (f : OutboxMessage -> OutboxMessage) : NotifyDB :=
  set_outbox db (map (fun m => if bool_decide (o_id m = id) then f m else m) (outbox db)).

Definition sent_msg (m : OutboxMessage) : OutboxMessage :=
  mkMsg (o_id m) (o_event m) (o_kind m) (o_to m) (o_channel m) (o_subject m) (o_html m) (o_text m) Sent (o_attempts m + 1) (o_next m) "" (o_created m).
Definition MarkSent (db : NotifyDB) (id : nat) : NotifyDB := update_msg db id sent_msg.

Definition failed_msg (attempts : Z) (retryAt : option Z) (now : Z) (cause : string) (m : OutboxMessage) : OutboxMessage :=
  mkMsg (o_id m) (o_event m) (o_kind m) (o_to m) (o_channel m) (o_subject m) (o_html m) (o_text m)
    (match retryAt with None => Failed | Some _ => Pending end) attempts (match retryAt with None => now | Some t => t end) cause (o_created m).
(** The zero time for [retryAt] is [None]: give up. *)
Definition MarkFailed (db : NotifyDB) (id : nat) (attempts : Z) (retryAt : option Z) (now : Z) (cause : string) : NotifyDB :=
  update_msg db id (failed_msg attempts retryAt now cause).

(** ** Queueing *)

Section Notifier.
Context (Render : string -> option (string * string * string)).
Context (RenderChannel : string -> string -> option string).

(** One message per recipient; nothing when e-mail is off. *)
Definition queueEmail (roles : DB) (emails : Emails) (db : NotifyDB) (now : Z) (event envID : string) : NotifyDB :=
  let cfg := ReadSMTP db in
  if negb (sEnabled cfg) || bool_decide (Host cfg = "") then db
  else match Render event with
       | None => db
       | Some (subject, html, text) =>
           fold_left (fun d addr => Enqueue d now event "email" addr "" subject html text) (RecipientsFor roles emails db event envID) db
       end.

Definition queueChannels (db : NotifyDB) (now : Z) (event subject : string) : NotifyDB :=
  fold_left (fun d kc => match RenderChannel (c_kind kc.2) event with
                         | None => d
                         | Some body => Enqueue d now event (c_kind kc.2) "" kc.1 subject "" body
                         end) (ChannelsFor db event) db.

Definition Send (roles : DB) (emails : Emails) (db : NotifyDB) (now : Z) (event envID subject : string) : NotifyDB :=
  queueChannels (queueEmail roles emails db now event envID) now event subject.
End Notifier.

(** ** The worker *)

Definition MaxAttempts : Z := 6.
Definition minute : Z := 60 * 1000000000.
Definition backoffBase : Z := minute.
Definition backoffCap : Z := 30 * minute.
Definition batch : nat := 20.

Definition backoff (attempts : Z) : Z :=
  let d := wrap64 (backoffBase * 2 ^ (attempts - 1)) in
  if (backoffCap <? d) || (d <=? 0) then backoffCap else d.

(** The outside of one drain: whether an SMTP transport could be built, what
    each delivery answers ([None] is success), whether a channel's URL opens,
    and which row updates fail. *)
Record Outside := mkOutside { x_smtp : bool; x_answer : nat -> option string; x_open : string -> bool; x_write_fails : nat -> bool }.

Definition is_email (m : OutboxMessage) : bool := bool_decide (o_kind m = "") || bool_decide (o_kind m = "email").

Definition deliverChannel (x : Outside) (db : NotifyDB) (m : OutboxMessage) : option string :=
  match channels db !! o_channel m with
  | None => Some "channel unavailable"
  | Some c => if x_open x (c_url_enc c) then x_answer x (o_id m) else Some "opening channel URL"
  end.

(** The state of a drain: the tables, and the messages delivered, in order. *)
Abbreviation WState := (NotifyDB * list nat)%type.

Definition settle (x : Outside) (now : Z) (m : OutboxMessage) (st : WState) (err : option string) : WState :=
  let '(db, log) := st in
  let write (f : NotifyDB) := if x_write_fails x (o_id m) then db else f in
  match err with
  | None => (write (MarkSent db (o_id m)), log ++ [o_id m])
  | Some e =>
      let attempts := o_attempts m + 1 in
      if MaxAttempts <=? attempts then (write (MarkFailed db (o_id m) attempts None now e), log)
      else (write (MarkFailed db (o_id m) attempts (Some (now + backoff attempts)) now e), log)
  end.

Definition attempt (x : Outside) (now : Z) (st : WState) (m : OutboxMessage) : WState :=
  if is_email m then
    if negb (x_smtp x) then st else settle x now m st (x_answer x (o_id m))
  else settle x now m st (deliverChannel x st.1 m).

Definition drain (x : Outside) (now : Z) (st : WState) : WState :=
  fold_left (attempt x now) (DueMessages st.1 now batch) st.

(** ** Rows *)

Definition row_ok (log : list nat) (m : OutboxMessage) : Prop :=
  match o_status m with
  | Pending => 0 <= o_attempts m < MaxAttempts
  | Sent => 1 <= o_attempts m <= MaxAttempts /\ o_id m ∈ log
  | Failed => o_attempts m = MaxAttempts
  end.

Record ob_ok (st : WState) : Prop := {
  ob_ids : NoDup (map o_id (outbox st.1));
  ob_next : forall m, m ∈ outbox st.1 -> (o_id m < next_msg st.1)%nat;
  ob_log : forall i, i ∈ st.2 -> (i < next_msg st.1)%nat;
  ob_rows : forall m, m ∈ outbox st.1 -> row_ok st.2 m }.

(** When every write succeeds, a delivered message is marked so. *)
Definition exact (st : WState) : Prop := NoDup st.2 /\ forall m, m ∈ outbox st.1 -> o_id m ∈ st.2 -> o_status m = Sent.

(** The content of a message, which nothing rewrites. *)
Definition same_letter (m m' : OutboxMessage) : Prop :=
  o_id m' = o_id m /\ o_kind m' = o_kind m /\ o_to m' = o_to m /\ o_channel m' = o_channel m /\ o_text m' = o_text m /\ o_subject m' = o_subject m.

(** A row may only move on: pending rows are retried, sent and failed ones are
    final. *)
Definition moves_on (m m' : OutboxMessage) : Prop := same_letter m m' /\ (o_status m <> Pending -> m' = m) /\ o_attempts m <= o_attempts m'.
Lemma moves_on_refl m : moves_on m m. Proof. unfold moves_on, same_letter. auto 10 with lia. Qed.
Lemma moves_on_trans a b c : moves_on a b -> moves_on b c -> moves_on a c.
Proof.
  intros [S1 [A1 A2]] [S2 [A3 A4]]. split; [unfold same_letter in *; intuition congruence|]. split; [|lia].
  intros Hp. rewrite (A1 Hp) in *. auto.
Qed.

(** What one row becomes under an update. *)
Lemma elem_update db id f x : x ∈ outbox (update_msg db id f) <-> exists m, m ∈ outbox db /\ x = (if bool_decide (o_id m = id) then f m else m).
Proof. unfold update_msg. simpl. rewrite list_elem_of_fmap. naive_solver. Qed.

(** The three results of a settled attempt. *)
Definition outcome (x : Outside) (now : Z) (err : option string) (m : OutboxMessage) : OutboxMessage :=
  if x_write_fails x (o_id m) then m
  else match err with
  | None => sent_msg m
  | Some e => if MaxAttempts <=? o_attempts m + 1 then failed_msg (o_attempts m + 1) None now e m
              else failed_msg (o_attempts m + 1) (Some (now + backoff (o_attempts m + 1))) now e m
  end.

Lemma unique_row st m m' : ob_ok st -> m ∈ outbox st.1 -> m' ∈ outbox st.1 -> o_id m' = o_id m -> m' = m.
Proof. intros Hok H1 H2 E. exact (NoDup_map_inj o_id _ _ _ (ob_ids _ Hok) H2 H1 E). Qed.

Lemma settle_outbox x now m st err : ob_ok st -> m ∈ outbox st.1 ->
  let st' := settle x now m st err in
  outbox st'.1 = map (fun y => if bool_decide (o_id y = o_id m) then outcome x now err m else y) (outbox st.1) /\
  next_msg st'.1 = next_msg st.1 /\ channels st'.1 = channels st.1 /\
  st'.2 = (match err with None => st.2 ++ [o_id m] | Some _ => st.2 end).
Proof.
  intros Hok Hm. destruct st as [db log]. cbv zeta.
  assert (forall f, map (fun y => if bool_decide (o_id y = o_id m) then f y else y) (outbox db) = map (fun y => if bool_decide (o_id y = o_id m) then f m else y) (outbox db)) as Hf.
  { intros f. apply map_ext_in. intros y Hy%list_elem_of_In. case_bool_decide as E; [|done]. by rewrite (unique_row _ m y Hok Hm Hy E). }
  assert (outbox db = map (fun y => if bool_decide (o_id y = o_id m) then m else y) (outbox db)) as Hid by (transitivity (map (fun y => if bool_decide (o_id y = o_id m) then y else y) (outbox db)); [rewrite <- (map_id (outbox db)) at 1; apply map_ext; intros y; by case_bool_decide|apply (Hf (fun y => y))]).
  unfold settle, outcome. simpl. destruct err as [e|].
  - destruct (MaxAttempts <=? o_attempts m + 1); destruct (x_write_fails x (o_id m)); simpl; (split; [|done]); try exact Hid; apply Hf.
  - destruct (x_write_fails x (o_id m)); simpl; (split; [|done]); try exact Hid; apply Hf.
Qed.

Lemma outcome_moves x now err m : o_status m = Pending -> moves_on m (outcome x now err m).
Proof.
  intros Hp. unfold outcome. destruct (x_write_fails x (o_id m)); [apply moves_on_refl|].
  destruct err as [e|]; [destruct (MaxAttempts <=? _)|]; (split; [done|]; split; [done|]; simpl; lia).
Qed.

Lemma outcome_row x now err m log : o_status m = Pending -> row_ok log m ->
  row_ok (match err with None => log ++ [o_id m] | Some _ => log end) (outcome x now err m).
Proof.
  intros Hp Hr. unfold row_ok in Hr. rewrite Hp in Hr. unfold outcome. destruct (x_write_fails x (o_id m)).
  { unfold row_ok. by rewrite Hp. }
  destruct err as [e|]; [destruct (MaxAttempts <=? _) eqn:E|]; unfold row_ok; simpl; unfold MaxAttempts in *; bd; [lia|lia|].
  split; [lia|]. apply elem_of_app. right. by apply list_elem_of_singleton.
Qed.

Lemma row_ok_more log log' m : (forall i, i ∈ log -> i ∈ log') -> row_ok log m -> row_ok log' m.
Proof. intros H. unfold row_ok. destruct (o_status m); [done| |done]. intros [? ?]. auto. Qed.

Lemma settle_ok x now m st err : ob_ok st -> m ∈ outbox st.1 -> o_status m = Pending -> ob_ok (settle x now m st err).
Proof.
  intros Hok Hm Hp. destruct (settle_outbox x now m st err Hok Hm) as (Ho & Hn & _ & Hl).
  assert (forall i, i ∈ st.2 -> i ∈ (settle x now m st err).2) as Hmore by (intros i Hi; rewrite Hl; destruct err; [done|apply elem_of_app; by left]).
  assert (o_id (outcome x now err m) = o_id m) as Hid by apply (outcome_moves x now err m Hp).
  split.
  - rewrite Ho, map_map. erewrite map_ext; [apply (ob_ids _ Hok)|]. intros y. simpl. case_bool_decide as E; [congruence|done].
  - rewrite Ho, Hn. intros y (y0 & -> & Hy)%list_elem_of_fmap. case_bool_decide; [rewrite Hid|]; by apply (ob_next _ Hok).
  - rewrite Hl, Hn. intros i Hi. destruct err; [by apply (ob_log _ Hok)|]. apply elem_of_app in Hi as [Hi|Hi]; [by apply (ob_log _ Hok)|].
    apply list_elem_of_singleton in Hi as ->. by apply (ob_next _ Hok).
  - rewrite Ho. intros y (y0 & -> & Hy)%list_elem_of_fmap. case_bool_decide as E.
    + rewrite Hl. apply outcome_row; [done|]. by apply (ob_rows _ Hok).
    + eapply row_ok_more; [exact Hmore|]. by apply (ob_rows _ Hok).
Qed.

(** ** One drain *)

Definition attempted (x : Outside) (m : OutboxMessage) : bool := negb (is_email m) || x_smtp x.
Definition answer (x : Outside) (db : NotifyDB) (m : OutboxMessage) : option string :=
  if is_email m then x_answer x (o_id m) else deliverChannel x db m.

Lemma attempt_eq x now st m : attempt x now st m = if attempted x m then settle x now m st (answer x st.1 m) else st.
Proof. unfold attempt, attempted, answer. destruct (is_email m); [by destruct (x_smtp x)|done]. Qed.

(** The loop over the batch: rows outside it stay, rows of it move on. *)
Lemma drain_fold x now l : forall st, ob_ok st -> NoDup (map o_id l) -> (forall m, m ∈ l -> m ∈ outbox st.1 /\ o_status m = Pending) ->
  let st' := fold_left (attempt x now) l st in
  ob_ok st' /\ next_msg st'.1 = next_msg st.1 /\ channels st'.1 = channels st.1 /\
  (forall y, y ∈ outbox st.1 -> o_id y ∉ map o_id l -> y ∈ outbox st'.1) /\
  (forall m, m ∈ l -> (if attempted x m then outcome x now (answer x st.1 m) m else m) ∈ outbox st'.1) /\
  (forall y', y' ∈ outbox st'.1 -> exists y, y ∈ outbox st.1 /\ moves_on y y') /\
  (forall i, i ∈ st'.2 <-> i ∈ st.2 \/ exists m, m ∈ l /\ o_id m = i /\ attempted x m = true /\ answer x st.1 m = None) /\
  ((forall i, x_write_fails x i = false) -> exact st -> exact st').
Proof.
  induction l as [|m l IH]; intros st Hok Hnd Hl; cbn [fold_left]; cbv zeta.
  { refine (conj Hok (conj eq_refl (conj eq_refl (conj (fun y Hy _ => Hy) (conj _ (conj _ (conj _ _))))))); [by intros m ?%elem_of_nil| | |done].
    - intros y Hy. exists y. split; [done|apply moves_on_refl].
    - intros i. split; [by left|]. intros [?|(? & ?%elem_of_nil & _)]; done. }
  apply NoDup_cons in Hnd as [Hni Hnd]. destruct (Hl m ltac:(by left)) as [Hm Hp]. rewrite attempt_eq.
  set (st1 := if attempted x m then settle x now m st (answer x st.1 m) else st).
  assert (ob_ok st1 /\ next_msg st1.1 = next_msg st.1 /\ channels st1.1 = channels st.1 /\
    outbox st1.1 = map (fun y => if bool_decide (o_id y = o_id m) then (if attempted x m then outcome x now (answer x st.1 m) m else m) else y) (outbox st.1) /\
    st1.2 = (if attempted x m then match answer x st.1 m with None => st.2 ++ [o_id m] | Some _ => st.2 end else st.2)) as (Hok1 & Hn1 & Hc1 & Ho1 & Hl1).
  { unfold st1. destruct (attempted x m).
    - destruct (settle_outbox x now m st (answer x st.1 m) Hok Hm) as (Ho & Hn & Hc & Hlg). split; [by apply settle_ok|]. done.
    - split; [done|]. split; [done|]. split; [done|]. split; [|done]. rewrite <- (map_id (outbox st.1)) at 1. apply map_ext_in. intros y Hy%list_elem_of_In.
      case_bool_decide as E; [|done]. by apply (unique_row st m y). }
  assert (forall y, y ∈ outbox st.1 -> o_id y <> o_id m -> y ∈ outbox st1.1) as Hkeep.
  { intros y Hy Hne. rewrite Ho1. apply list_elem_of_fmap. exists y. by rewrite bool_decide_eq_false_2. }
  assert (forall m2, m2 ∈ l -> o_id m2 <> o_id m) as Hne by (intros m2 Hm2 E; apply Hni; rewrite <- E; by apply list_elem_of_fmap_2).
  destruct (IH st1 Hok1 Hnd) as (G1 & G2 & G3 & G4 & G5 & G6 & G7 & G8).
  { intros m2 Hm2. destruct (Hl m2 ltac:(by right)) as [? ?]. auto. }
  assert (forall m2, answer x st1.1 m2 = answer x st.1 m2) as Hans by (intros m2; unfold answer, deliverChannel; by rewrite Hc1).
  refine (conj G1 (conj _ (conj _ (conj _ (conj _ (conj _ (conj _ _))))))); [congruence|congruence| | | | |].
  - intros y Hy Hy2. apply not_elem_of_cons in Hy2 as [? ?]. apply G4; [by apply Hkeep|done].
  - intros m2 [->|Hm2]%elem_of_cons; [|rewrite <- Hans; by apply G5]. apply G4.
    + rewrite Ho1. apply list_elem_of_fmap. exists m. by rewrite bool_decide_eq_true_2.
    + assert (o_id (if attempted x m then outcome x now (answer x st.1 m) m else m) = o_id m) as ->; [|done].
      destruct (attempted x m); [|done]. apply (outcome_moves x now (answer x st.1 m) m Hp).
  - intros y' (y1 & Hy1 & Hmv)%G6. rewrite Ho1 in Hy1. apply list_elem_of_fmap in Hy1 as (y & -> & Hy). case_bool_decide as E; [|by exists y].
    exists m. split; [done|]. destruct (attempted x m); [|done]. eapply moves_on_trans; [by apply outcome_moves|done].
  - intros i. rewrite G7. setoid_rewrite Hans. split.
    + intros [Hi|(m2 & Hm2 & Hrest)]; [|right; exists m2; split; [by right|done]]. rewrite Hl1 in Hi.
      destruct (attempted x m) eqn:Ea; [|by left]. destruct (answer x st.1 m) eqn:En; [by left|].
      apply elem_of_app in Hi as [Hi|Hi]; [by left|]. apply list_elem_of_singleton in Hi. right. exists m. split; [by left|done].
    + intros [Hi|(m2 & Hm2 & Hid & Ha2 & Hn2)].
      * left. rewrite Hl1. destruct (attempted x m); [|done]. destruct (answer x st.1 m); [done|]. apply elem_of_app. by left.
      * apply elem_of_cons in Hm2 as [->|Hm2]; [left|right; exists m2; done]. rewrite Hl1, Ha2, Hn2. apply elem_of_app. right.
        by apply list_elem_of_singleton.
  - intros Hw Hex. apply G8; [done|]. destruct Hex as [He1 He2]. split.
    + rewrite Hl1. destruct (attempted x m); [destruct (answer x st.1 m) eqn:En; [done|]|done]. apply NoDup_app. split; [done|]. split; [|apply NoDup_singleton].
      intros i Hi ->%list_elem_of_singleton. specialize (He2 m Hm Hi). congruence.
    + rewrite Ho1, Hl1. intros y (y0 & -> & Hy0)%list_elem_of_fmap. case_bool_decide as E.
      * destruct (attempted x m) eqn:Ea.
        -- destruct (answer x st.1 m) eqn:En.
           ++ intros Hin. assert (o_id m ∈ st.2) as Hi2 by (by rewrite (proj1 (proj1 (outcome_moves x now (Some s) m Hp))) in Hin). specialize (He2 m Hm Hi2). congruence.
           ++ intros _. unfold outcome. by rewrite Hw.
        -- intros Hin. specialize (He2 m Hm Hin). congruence.
      * intros Hin. apply He2; [done|]. destruct (attempted x m); [|done]. destruct (answer x st.1 m); [done|].
        apply elem_of_app in Hin as [?|Hin]; [done|]. by apply list_elem_of_singleton in Hin.
Qed.

Lemma due_elem db now n m : m ∈ DueMessages db now n -> m ∈ outbox db /\ o_status m = Pending /\ is_due now m = true.
Proof.
  intros (i & Hi%list_elem_of_lookup_2 & _)%elem_of_take. apply elem_of_ssort, elem_of_filter_b in Hi as [Hi Hd]. split; [done|]. split; [|done].
  unfold is_due in Hd. by bd.
Qed.

Lemma due_NoDup db now n : NoDup (map o_id (outbox db)) -> NoDup (map o_id (DueMessages db now n)).
Proof.
  intros H. apply (NoDup_map_filter o_id (is_due now)) in H. unfold DueMessages. set (l := ssort _ _).
  assert (NoDup (map o_id l)) as Hl by (unfold l; by rewrite (Permutation_map o_id (ssort_perm due_before _))).
  rewrite <- (take_drop n l), map_app in Hl. by apply NoDup_app in Hl as [? _].
Qed.

Lemma due_nonempty db now n : n <> 0%nat -> (exists m, m ∈ outbox db /\ is_due now m = true) -> DueMessages db now n <> [].
Proof.
  intros Hn (m & Hm & Hd). unfold DueMessages. destruct n as [|n]; [done|].
  destruct (ssort due_before (List.filter (is_due now) (outbox db))) as [|y l] eqn:E; [|done].
  assert (m ∈ ssort due_before (List.filter (is_due now) (outbox db))) as Hin by (apply elem_of_ssort, elem_of_filter_b; done).
  rewrite E in Hin. by apply elem_of_nil in Hin.
Qed.

(** A drain, from [drain_fold]. *)
Lemma drain_spec x now st : ob_ok st ->
  let l := DueMessages st.1 now batch in
  let st' := drain x now st in
  ob_ok st' /\ next_msg st'.1 = next_msg st.1 /\ channels st'.1 = channels st.1 /\
  (forall y, y ∈ outbox st.1 -> o_id y ∉ map o_id l -> y ∈ outbox st'.1) /\
  (forall m, m ∈ l -> (if attempted x m then outcome x now (answer x st.1 m) m else m) ∈ outbox st'.1) /\
  (forall y', y' ∈ outbox st'.1 -> exists y, y ∈ outbox st.1 /\ moves_on y y') /\
  (forall i, i ∈ st'.2 <-> i ∈ st.2 \/ exists m, m ∈ l /\ o_id m = i /\ attempted x m = true /\ answer x st.1 m = None) /\
  ((forall i, x_write_fails x i = false) -> exact st -> exact st').
Proof.
  intros Hok. apply drain_fold; [done|by apply due_NoDup, (ob_ids _ Hok)|]. intros m Hm. by destruct (due_elem _ _ _ _ Hm) as (? & ? & _).
Qed.

(** ** Nothing is lost *)

(** What happens to the outbox: events queue messages, the worker drains. *)
Inductive nop :=
| NEnqueue (now : Z) (event kind to channel subject html text : string)
| NDrain (x : Outside) (now : Z)
| NDeleteChannel (id : string)
| NSaveSMTP (v : SMTPSettings).
Definition exec_nop (st : WState) (o : nop) : WState :=
  match o with
  | NEnqueue now event kind to channel subject html text => (Enqueue st.1 now event kind to channel subject html text, st.2)
  | NDrain x now => drain x now st
  | NDeleteChannel id => ((DeleteChannel st.1 id).1, st.2)
  | NSaveSMTP v => (SaveSMTPSettings st.1 v, st.2)
  end.

Definition keeps_letters (st st' : WState) : Prop := forall m, m ∈ outbox st.1 -> exists m', m' ∈ outbox st'.1 /\ moves_on m m'.

Lemma enqueue_ok st now event kind to channel subject html text : ob_ok st -> ob_ok (Enqueue st.1 now event kind to channel subject html text, st.2).
Proof.
  intros Hok. split; simpl.
  - rewrite map_app. apply NoDup_app. split; [apply (ob_ids _ Hok)|]. split; [|apply NoDup_singleton].
    intros i (m & -> & Hm)%list_elem_of_fmap Hi%list_elem_of_singleton. apply (ob_next _ Hok) in Hm. simpl in Hi. lia.
  - intros m [Hm|Hm]%elem_of_app; [apply (ob_next _ Hok) in Hm; lia|]. apply list_elem_of_singleton in Hm as ->. simpl. lia.
  - intros i Hi%(ob_log _ Hok). lia.
  - intros m [Hm|Hm]%elem_of_app; [by apply (ob_rows _ Hok)|]. apply list_elem_of_singleton in Hm as ->. done.
Qed.

Lemma drain_keeps x now st : ob_ok st -> keeps_letters st (drain x now st).
Proof.
  intros Hok m Hm. destruct (drain_spec x now st Hok) as (_ & _ & _ & H4 & H5 & _). set (l := DueMessages st.1 now batch) in *.
  destruct (decide (o_id m ∈ map o_id l)) as [Hin|Hni]; [|exists m; split; [by apply H4|apply moves_on_refl]].
  apply list_elem_of_fmap in Hin as (m2 & Hid & Hm2). destruct (due_elem _ _ _ _ Hm2) as (Hm2o & Hp & _).
  assert (m2 = m) as -> by (by apply (unique_row st)). eexists. split; [by apply H5|].
  destruct (attempted x m); [by apply outcome_moves|apply moves_on_refl].
Qed.

Lemma exec_nop_ok st o : ob_ok st -> ob_ok (exec_nop st o) /\ keeps_letters st (exec_nop st o).
Proof.
  intros Hok. destruct o; simpl.
  - split; [by apply enqueue_ok|]. intros m Hm. exists m. split; [simpl; apply elem_of_app; by left|apply moves_on_refl].
  - split; [apply (drain_spec x now st Hok)|by apply drain_keeps].
  - destruct st as [db log]. split; [by destruct Hok|]. intros m Hm. exists m. split; [done|apply moves_on_refl].
  - destruct st as [db log]. split; [by destruct Hok|]. intros m Hm. exists m. split; [done|apply moves_on_refl].
Qed.

(** No message evaporates. Whatever is queued, delivered, refused or lost on
    the way to the database, every message stays in the outbox with its
    content; it is pending with fewer than six attempts behind it, sent after a
    delivery, or a dead letter after exactly six; and what is sent or dead is
    never touched again. As long as the rows can be written, none is delivered
    twice. *)
Theorem outbox_invariant (st : WState) (os : list nop) :
  ob_ok st ->
  let st' := fold_left exec_nop os st in
  ob_ok st' /\ keeps_letters st st' /\
  (exact st -> Forall (fun o => match o with NDrain x _ => forall i, x_write_fails x i = false | _ => True end) os -> exact st').
Proof.
  cbv zeta. revert st. induction os as [|o os IH]; intros st Hok; cbn [fold_left].
  { split; [done|]. split; [|done]. intros m Hm. exists m. split; [done|apply moves_on_refl]. }
  destruct (exec_nop_ok st o Hok) as [Hok1 Hk1]. destruct (IH (exec_nop st o) Hok1) as (Hok2 & Hk2 & He2). split; [done|]. split.
  - intros m Hm. destruct (Hk1 m Hm) as (m1 & Hm1 & Hmv1). destruct (Hk2 m1 Hm1) as (m2 & Hm2 & Hmv2). exists m2. split; [done|by eapply moves_on_trans].
  - intros Hex [Ho Hos]%Forall_cons. apply He2; [|done]. destruct o; simpl in *.
    + destruct Hex as [He3 He4]. split; [done|]. simpl. intros m [Hm|Hm]%elem_of_app; [by apply He4|]. apply list_elem_of_singleton in Hm as ->. simpl.
      intros Hi%(ob_log _ Hok). lia.
    + by apply (drain_spec x now st Hok).
    + by destruct st.
    + by destruct st.
Qed.

(** ** The worker comes to rest *)

Definition left_to_try (m : OutboxMessage) : nat := match o_status m with Pending => Z.to_nat (MaxAttempts - o_attempts m) | _ => 0%nat end.
Definition work (db : NotifyDB) : nat := list_sum (map left_to_try (outbox db)).

Lemma list_sum_perm l l' : l ≡ₚ l' -> list_sum l = list_sum l'.
Proof. induction 1; simpl; lia. Qed.

Lemma settle_work x now m st err : ob_ok st -> m ∈ outbox st.1 -> o_status m = Pending -> x_write_fails x (o_id m) = false ->
  (work (settle x now m st err).1 < work st.1)%nat.
Proof.
  intros Hok Hm Hp Hw. destruct (settle_outbox x now m st err Hok Hm) as (Ho & _). unfold work. rewrite Ho, map_map.
  assert (left_to_try (outcome x now err m) < left_to_try m)%nat as Hlt.
  { pose proof (ob_rows _ Hok m Hm) as Hr. unfold row_ok in Hr. rewrite Hp in Hr. unfold left_to_try at 2. rewrite Hp. unfold outcome. rewrite Hw.
    unfold MaxAttempts in *. destruct err as [e|]; [destruct (6 <=? _) eqn:E|]; unfold left_to_try; simpl; unfold MaxAttempts; bd; lia. }
  pose proof (ob_ids _ Hok) as Hnd. revert Hnd Hm. generalize (outbox st.1) as l.
  induction l as [|y l IH]; [by intros _ ?%elem_of_nil|]. simpl. intros [Hni Hnd]%NoDup_cons Hm.
  apply elem_of_cons in Hm as [->|Hm].
  - rewrite bool_decide_eq_true_2 by done. assert (map (fun z => left_to_try (if bool_decide (o_id z = o_id y) then outcome x now err y else z)) l = map left_to_try l) as ->; [|lia].
    apply map_ext_in. intros z Hz%list_elem_of_In. rewrite bool_decide_eq_false_2; [done|]. intros E. apply Hni. rewrite <- E. by apply list_elem_of_fmap_2.
  - specialize (IH Hnd Hm). rewrite bool_decide_eq_false_2; [lia|]. intros E. apply Hni. rewrite E. by apply list_elem_of_fmap_2.
Qed.

(** Each attempt of a drain does some of the work. *)
Lemma drain_work x now st : ob_ok st -> (forall i, x_write_fails x i = false) -> x_smtp x = true ->
  (work (drain x now st).1 + length (DueMessages st.1 now batch) <= work st.1)%nat.
Proof.
  intros Hok Hw Hs. unfold drain. pose proof (due_NoDup st.1 now batch (ob_ids _ Hok)) as Hnd.
  assert (forall m, m ∈ DueMessages st.1 now batch -> m ∈ outbox st.1 /\ o_status m = Pending) as Hl by (intros m Hm; by destruct (due_elem _ _ _ _ Hm) as (? & ? & _)).
  revert Hnd Hl Hok. generalize (DueMessages st.1 now batch) as l. intros l. revert st.
  induction l as [|m l IH]; intros st Hnd Hl Hok; cbn [fold_left]; [simpl; lia|]. simpl in Hnd. apply NoDup_cons in Hnd as [Hni Hnd].
  destruct (Hl m ltac:(by left)) as [Hm Hp]. rewrite attempt_eq. assert (attempted x m = true) as -> by (unfold attempted; rewrite Hs; by destruct (is_email m)).
  pose proof (settle_work x now m st (answer x st.1 m) Hok Hm Hp (Hw _)) as Hlt.
  destruct (settle_outbox x now m st (answer x st.1 m) Hok Hm) as (Ho & _).
  assert (work (fold_left (attempt x now) l (settle x now m st (answer x st.1 m))).1 + length l <= work (settle x now m st (answer x st.1 m)).1)%nat as H; [|simpl; lia].
  apply IH; [done| |by apply settle_ok]. intros m2 Hm2. destruct (Hl m2 ltac:(by right)) as [Hm2o Hp2]. split; [|done].
  rewrite Ho. apply list_elem_of_fmap. exists m2. rewrite bool_decide_eq_false_2; [done|]. intros E. apply Hni. rewrite <- E. by apply list_elem_of_fmap_2.
Qed.

Lemma backoff_range a : 1 <= a < MaxAttempts -> backoff a = minute * 2 ^ (a - 1) /\ minute <= backoff a <= 16 * minute.
Proof.
  unfold MaxAttempts. intros H. assert (a = 1 \/ a = 2 \/ a = 3 \/ a = 4 \/ a = 5) as Ha by lia.
  destruct Ha as [->|[->|[->|[->| ->]]]]; vm_compute; repeat split; discriminate.
Qed.

Definition gap : Z := 31 * minute.
(** Each drain comes at most a minute after the one before, the first after [t]; the
    worker's are twenty seconds apart. *)
Fixpoint paced (t : Z) (rounds : list (Outside * Z)) : Prop := match rounds with [] => True | r :: rounds => r.2 <= t + minute /\ paced r.2 rounds end.
Definition last_time (t : Z) (rounds : list (Outside * Z)) : Z := fold_left (fun _ r => r.2) rounds t.
(** E-mail is on, rows can be written, and the clock is one of the years stamps
    are made for. *)
Definition working (r : Outside * Z) : Prop := x_smtp r.1 = true /\ (forall i, x_write_fails r.1 i = false) /\ in_range r.2 /\ in_range (r.2 + 16 * minute).
(** Nothing pending has to wait beyond [b]. *)
Definition due_by (db : NotifyDB) (b : Z) : Prop := forall m, m ∈ outbox db -> o_status m = Pending -> in_range (o_next m) /\ o_next m <= b.

(** Stamps tell seconds apart. *)
Definition second : Z := 1000000000.
Lemma due_at now m : in_range now -> in_range (o_next m) -> o_status m = Pending -> o_next m + second <= now -> is_due now m = true.
Proof.
  intros H1 H2 Hp Hle. unfold is_due. rewrite bool_decide_eq_true_2 by done. rewrite andb_true_l. apply negb_true_iff.
  apply str_ltb_asym, stamp_lt; [done..|]. apply (Z.div_le_mono _ _ second) in Hle; [|done]. unfold second in Hle. replace (o_next m + 1000000000) with (o_next m + 1 * 1000000000) in Hle by lia. rewrite Z.div_add in Hle by done. lia.
Qed.
(** What is tried again is tried again within sixteen minutes. *)
Lemma drain_due_by x now st b : ob_ok st -> working (x, now) -> due_by st.1 b -> due_by (drain x now st).1 (Z.max b (now + 16 * minute)).
Proof.
  intros Hok (_ & _ & Hr & Hr2) Hby m' Hm' Hp'. cbn [snd] in *. destruct (drain_spec x now st Hok) as (Hok' & _ & _ & H4 & H5 & H6 & _). set (l := DueMessages st.1 now batch) in *.
  destruct (H6 m' Hm') as (m & Hm & [[Hid _] Hmv]). assert (o_status m = Pending) as Hp.
  { destruct (decide (o_status m = Pending)) as [|Hne]; [done|]. destruct Hmv as [Hmv _]. by rewrite (Hmv Hne) in Hp'. }
  destruct (Hby m Hm Hp) as [Hrm Hle]. destruct (decide (o_id m ∈ map o_id l)) as [Hin|Hni].
  2: { assert (m' = m) as ->; [|split; [done|lia]]. apply (unique_row (drain x now st)); [done|by apply H4|done|done]. }
  apply list_elem_of_fmap in Hin as (m2 & Hid2 & Hm2). destruct (due_elem _ _ _ _ Hm2) as (Hm2o & _ & _).
  assert (m2 = m) as -> by (by apply (unique_row st)). specialize (H5 m Hm2). set (y := if attempted x m then _ else m) in H5. assert (o_id y = o_id m) as Hy.
  { unfold y. destruct (attempted x m); [|done]. apply (outcome_moves x now (answer x st.1 m) m Hp). }
  assert (m' = y) as -> by (apply (unique_row (drain x now st)); [done|done|done|congruence]). clear H4 H5 H6.
  unfold y in *. destruct (attempted x m); [|split; [done|lia]]. unfold outcome in *. destruct (x_write_fails x (o_id m)); [split; [done|lia]|]. destruct (answer x st.1 m); [|done].
  pose proof (ob_rows _ Hok m Hm) as Hrow. unfold row_ok in Hrow. rewrite Hp in Hrow. destruct (MaxAttempts <=? _) eqn:E; [done|]. bd.
  destruct (backoff_range (o_attempts m + 1)) as [_ Hb]; [lia|]. cbn [failed_msg o_next]. unfold in_range, minute in *. lia.
Qed.
Lemma work_none st m : ob_ok st -> work st.1 = 0%nat -> m ∈ outbox st.1 -> o_status m <> Pending.
Proof.
  intros Hok Hz Hm Hp. pose proof (ob_rows _ Hok m Hm) as Hrow. unfold row_ok in Hrow. rewrite Hp in Hrow.
  assert (1 <= left_to_try m)%nat by (unfold left_to_try; rewrite Hp; unfold MaxAttempts in *; lia).
  unfold work in Hz. clear -Hm Hz H. induction (outbox st.1) as [|y l IH]; [by apply elem_of_nil in Hm|]. simpl in Hz. apply elem_of_cons in Hm as [->|Hm]; [lia|]. apply IH; [lia|done].
Qed.
Lemma none_work db : (forall m, m ∈ outbox db -> o_status m <> Pending) -> work db = 0%nat.
Proof.
  unfold work. induction (outbox db) as [|y l IH]; intros H; [done|]. simpl. rewrite IH by (intros m Hm; apply H; by right).
  specialize (H y ltac:(by left)). unfold left_to_try. by destruct (o_status y).
Qed.
(** A drain after everything is due leaves less to try, or nothing was. *)
Lemma drain_progress x now st b : ob_ok st -> working (x, now) -> due_by st.1 b -> b + second <= now -> (work (drain x now st).1 < work st.1)%nat \/ work st.1 = 0%nat.
Proof.
  intros Hok (Hs & Hw & Hr & _) Hby Hle. pose proof (drain_work x now st Hok Hw Hs) as Hd. destruct (DueMessages st.1 now batch) as [|m l] eqn:El; [right|simpl in Hd; lia].
  apply none_work. intros m Hm Hp. destruct (Hby m Hm Hp) as [Hrm Hn]. apply (due_nonempty st.1 now batch); [done| |done]. exists m. split; [done|]. apply due_at; [done..|lia].
Qed.
Lemma drain_rest x now st : DueMessages st.1 now batch = [] -> drain x now st = st.
Proof. unfold drain. by intros ->. Qed.

Definition drain_all (rounds : list (Outside * Z)) (st : WState) : WState := fold_left (fun s r => drain r.1 r.2 s) rounds st.
Lemma drain_all_ok rounds : forall st, ob_ok st -> ob_ok (drain_all rounds st).
Proof. induction rounds as [|r rounds IH]; intros st Hok; [done|]. apply IH, (drain_spec r.1 r.2 st Hok). Qed.
Lemma drain_settled rounds : forall st, ob_ok st -> Forall working rounds -> work st.1 = 0%nat -> work (drain_all rounds st).1 = 0%nat.
Proof.
  induction rounds as [|[x now] rounds IH]; intros st Hok Hwk Hz; [done|]. apply Forall_cons in Hwk as [(Hs & Hw & _) Hwk]. cbn [fst snd] in *. pose proof (drain_work x now st Hok Hw Hs) as Hd.
  apply IH; [apply (drain_spec x now st Hok)|done|]. cbn [fst snd]. lia.
Qed.
(** Each busy drain puts the time by which everything is due off by eighteen
    minutes at most. *)
Lemma drains_settle rounds : forall st t b, ob_ok st -> Forall working rounds -> paced t rounds -> due_by st.1 b -> t < b + second -> b + Z.of_nat (work st.1) * (18 * minute) <= last_time t rounds -> work (drain_all rounds st).1 = 0%nat.
Proof.
  induction rounds as [|[x now] rounds IH]; intros st t b Hok Hwk Hp Hby Hlt Hlast; [cbn in *; unfold minute, second in *; lia|]. apply Forall_cons in Hwk as [Hw Hwk]. destruct Hp as [Hle Hp]. cbn [snd] in Hle, Hp.
  change (drain_all ((x, now) :: rounds) st) with (drain_all rounds (drain x now st)). change (last_time t ((x, now) :: rounds)) with (last_time now rounds) in Hlast.
  assert (ob_ok (drain x now st)) as Hok' by apply (drain_spec x now st Hok). pose proof (drain_due_by x now st b Hok Hw Hby) as Hby'. pose proof (drain_work x now st Hok (proj1 (proj2 Hw)) (proj1 Hw)) as Hd.
  destruct (decide (b + second <= now)) as [Hb|Hb].
  - destruct (drain_progress x now st b Hok Hw Hby Hb) as [Hpr|Hz]; [|apply drain_settled; [done|done|lia]].
    apply (IH _ now _ Hok' Hwk Hp Hby'); unfold minute, second in *; lia.
  - destruct (DueMessages st.1 now batch) as [|m l] eqn:El; [rewrite drain_rest by done; apply (IH _ now b); [done..|lia|lia]|]. simpl in Hd.
    apply (IH _ now _ Hok' Hwk Hp Hby'); unfold minute, second in *; lia.
Qed.

(** C8: the outbox comes to rest. While nothing more is queued, e-mail is on and rows
    can be written, and the worker drains at least once a minute (it does every
    twenty seconds), whatever the servers answer: eighteen minutes for each attempt
    left, at most six of them a message, after everything was due, nothing is
    pending — every message was delivered or is a dead letter. *)
Theorem outbox_settles (st : WState) (rounds : list (Outside * Z)) (now due : Z) :
  ob_ok st -> Forall working rounds -> paced now rounds -> due_by st.1 due -> now <= due ->
  due + Z.of_nat (work st.1) * (18 * minute) <= last_time now rounds ->
  (work st.1 <= 6 * length (outbox st.1))%nat /\
  forall m, m ∈ outbox (drain_all rounds st).1 -> o_status m <> Pending.
Proof.
  intros Hok Hwk Hp Hby Hlt Hlast. split.
  - unfold work. assert (forall m, m ∈ outbox st.1 -> (left_to_try m <= 6)%nat) as H.
    { intros m Hm. pose proof (ob_rows _ Hok m Hm) as Hrow. unfold row_ok, left_to_try, MaxAttempts in *. destruct (o_status m); lia. }
    revert H. generalize (outbox st.1) as l. induction l as [|m l IH]; intros H; simpl; [lia|].
    pose proof (H m ltac:(by left)). specialize (IH (fun y Hy => H y ltac:(by right))). lia.
  - intros m. apply work_none; [by apply drain_all_ok|apply (drains_settle rounds st now due); [done..|unfold second; lia|done]].
Qed.

(** ** Where it stands still *)

(** At least a batch of due e-mails, all older than any message of a channel. *)
Definition mail_ahead (db : NotifyDB) (E : list OutboxMessage) (now : Z) : Prop :=
  NoDup (map o_id E) /\ (batch <= length E)%nat /\
  (forall e, e ∈ E -> e ∈ outbox db /\ is_email e = true /\ is_due now e = true) /\
  (forall c e, c ∈ outbox db -> o_status c = Pending -> is_email c = false -> e ∈ E -> due_before e c = true).

Lemma due_sorted l : StronglySorted (sle due_before) (ssort due_before l).
Proof.
  apply ssort_sorted; unfold due_before; [intros x y; apply str_ltb_asym|]. intros x y z. apply str_ltb_neg_trans.
Qed.

Lemma mail_ahead_batch db E now m : NoDup (map o_id (outbox db)) -> mail_ahead db E now -> m ∈ DueMessages db now batch -> is_email m = true.
Proof.
  intros Hids (Hnd & Hlen & HE & Hold) Hm. destruct (is_email m) eqn:Em; [done|]. exfalso.
  destruct (due_elem _ _ _ _ Hm) as (Hmo & Hp & _). unfold DueMessages in Hm. set (l := ssort due_before (List.filter (is_due now) (outbox db))) in *.
  assert (forall e, e ∈ E -> e ∈ take batch l) as Hin.
  { intros e He. destruct (HE e He) as (Heo & _ & Hd). assert (e ∈ l) as Hel by (unfold l; apply elem_of_ssort, elem_of_filter_b; done).
    rewrite <- (take_drop batch l) in Hel. apply elem_of_app in Hel as [?|Hel]; [done|].
    pose proof (sorted_take_drop (sle due_before) batch l m e (due_sorted _) Hm Hel) as Hs. unfold sle in Hs. rewrite (Hold m e) in Hs by done. done. }
  assert (NoDup (map o_id (m :: E))) as Hnd2.
  { simpl. apply NoDup_cons. split; [|done]. intros (e & Hid & He)%list_elem_of_fmap. destruct (HE e He) as (Heo & Hee & _).
    rewrite (NoDup_map_inj o_id (outbox db) m e) in Em by done. congruence. }
  assert (length (map o_id (m :: E)) <= length (map o_id (take batch l)))%nat as Hle.
  { apply NoDup_incl_length; [by apply NoDup_ListNoDup|]. intros i Hi%list_elem_of_In. apply list_elem_of_In.
    apply list_elem_of_fmap in Hi as (y & -> & Hy). apply list_elem_of_fmap_2. apply elem_of_cons in Hy as [->|Hy]; auto. }
  rewrite !length_map, length_take in Hle. cbn [length] in Hle. lia.
Qed.

(** But with e-mail switched off, the messages waiting for it hold up
    everyone else. A drain takes the twenty oldest due messages and leaves an
    e-mail without a transport where it is: once twenty of them are older than
    the messages of the channels, no drain changes anything, and no channel is
    told of anything, however long the worker runs. *)
Theorem mail_off_starves_channels (st : WState) (E : list OutboxMessage) (rounds : list (Outside * Z)) :
  ob_ok st -> Forall (fun r => x_smtp r.1 = false /\ mail_ahead st.1 E r.2) rounds ->
  fold_left (fun s r => drain r.1 r.2 s) rounds st = st.
Proof.
  intros Hok. induction 1 as [|[x now] rounds [Hx Hm] _ IH]; cbn [fold_left fst snd]; [done|]. simpl in Hx, Hm.
  assert (drain x now st = st) as ->; [|done]. unfold drain.
  assert (forall m, m ∈ DueMessages st.1 now batch -> is_email m = true) as He by (intros m; apply mail_ahead_batch with (E := E); [apply (ob_ids _ Hok)|done]).
  revert He. generalize (DueMessages st.1 now batch) as l. induction l as [|m l IHl]; intros He; cbn [fold_left]; [done|].
  assert (attempt x now st m = st) as -> by (unfold attempt; rewrite He by (by left); by rewrite Hx). apply IHl. intros y Hy. apply He. by right.
Qed.

(** ** Who is told *)

Lemma add_addr_fold l : forall out, NoDup out -> NoDup (fold_left add_addr l out) /\ forall a, a ∈ fold_left add_addr l out <-> a ∈ out \/ a ∈ l.
Proof.
  induction l as [|x l IH]; intros out Hnd; cbn [fold_left]; [split; [done|]; intros a; rewrite elem_of_nil; tauto|].
  assert (NoDup (add_addr out x) /\ forall a, a ∈ add_addr out x <-> a ∈ out \/ a = x) as [H1 H2].
  { unfold add_addr. case_bool_decide as Hx; [split; [done|]; intros a; split; [auto|intros [?| ->]; done]|]. split.
    - apply NoDup_app. split; [done|]. split; [by intros y Hy ->%list_elem_of_singleton|apply NoDup_singleton].
    - intros a. by rewrite elem_of_app, list_elem_of_singleton. }
  destruct (IH _ H1) as [H3 H4]. split; [done|]. intros a. rewrite H4, H2, elem_of_cons. tauto.
Qed.

Lemma elem_of_members roles emails rid envID a : a ∈ roleMemberEmails roles emails rid envID <->
  exists u kind id src row, role_members roles !! (u, rid, kind, id) = Some src /\ users roles !! u = Some row /\ u_disabled row = false /\
    emails !! u = Some a /\ a <> "" /\ covers envID kind id = true.
Proof.
  unfold roleMemberEmails. rewrite elem_of_remove_dups, list_elem_of_omap. split.
  - intros ([[[[u r] kind] id] src] & Hin%elem_of_map_to_list & H). simpl in H. destruct (users roles !! u) as [row|] eqn:Eu; [|done].
    destruct (emails !! u) as [e|] eqn:Ee; [|done]. destruct (_ && _) eqn:E; [|done]. injection H as ->. bd. subst. by exists u, kind, id, src, row.
  - intros (u & kind & id & src & row & Hin & Hu & Hd & He & Hne & Hc). exists ((u, rid, kind, id), src). split; [by apply elem_of_map_to_list|].
    simpl. rewrite Hu, He, bool_decide_eq_true_2, Hd, bool_decide_eq_false_2, Hc by done. done.
Qed.

(** Who is told of an event: each address a rule names, and the enabled
    users with an e-mail who hold a role a rule names, everywhere or on the
    host the event is about; a fleet-wide event reaches only those who hold it
    everywhere. Nobody is told twice. *)
Theorem RecipientsFor_spec (roles : DB) (emails : Emails) (db : NotifyDB) (event envID : string) :
  NoDup (RecipientsFor roles emails db event envID) /\
  forall a, a ∈ RecipientsFor roles emails db event envID <->
    a <> "" /\ exists r, r ∈ rules db /\ ru_event r = event /\
      (ru_address r = a \/
       ru_address r = "" /\ ru_role r <> "" /\
       exists u kind id src row, role_members roles !! (u, ru_role r, kind, id) = Some src /\ users roles !! u = Some row /\
         u_disabled row = false /\ emails !! u = Some a /\ (kind = SGlobal \/ (envID <> "" /\ kind = SEnv /\ id = envID))).
Proof.
  unfold RecipientsFor. set (mine := List.filter _ (rules db)). set (direct := fold_left add_addr _ []).
  destruct (add_addr_fold (List.filter (fun a => negb (bool_decide (a = ""))) (map ru_address mine)) [] (NoDup_nil_2)) as [Hd1 Hd2]. fold direct in Hd1, Hd2.
  assert (forall l out, NoDup out -> NoDup (fold_left (fun out rid => fold_left add_addr (roleMemberEmails roles emails rid envID) out) l out) /\
    forall a, a ∈ fold_left (fun out rid => fold_left add_addr (roleMemberEmails roles emails rid envID) out) l out <-> a ∈ out \/ exists rid, rid ∈ l /\ a ∈ roleMemberEmails roles emails rid envID) as Hf.
  { induction l as [|rid l IH]; intros out Hnd; cbn [fold_left]; [split; [done|]; intros a; split; [by left|]; intros [?|(? & ?%elem_of_nil & _)]; done|].
    destruct (add_addr_fold (roleMemberEmails roles emails rid envID) out Hnd) as [H1 H2]. destruct (IH _ H1) as [H3 H4]. split; [done|].
    intros a. rewrite H4, H2. setoid_rewrite elem_of_cons. naive_solver. }
  set (roleIDs := map ru_role _). destruct (Hf roleIDs direct Hd1) as [H1 H2]. split; [done|]. intros a. rewrite H2, Hd2.
  assert (forall r, r ∈ mine <-> r ∈ rules db /\ ru_event r = event) as Hmine by (intros r; unfold mine; rewrite elem_of_filter_b, bool_decide_eq_true; done).
  assert (forall rid, rid ∈ roleIDs <-> exists r, r ∈ mine /\ ru_role r = rid /\ ru_address r = "" /\ rid <> "") as Hroles.
  { intros rid. unfold roleIDs. rewrite list_elem_of_fmap. setoid_rewrite elem_of_filter_b. setoid_rewrite andb_true_iff. setoid_rewrite negb_true_iff.
    setoid_rewrite bool_decide_eq_true. setoid_rewrite bool_decide_eq_false. naive_solver. }
  setoid_rewrite Hroles. setoid_rewrite elem_of_members. setoid_rewrite Hmine. rewrite elem_of_filter_b, list_elem_of_fmap. setoid_rewrite Hmine. split.
  - intros [[H|[(r & -> & Hr) Hne]]|(rid & (r & Hr & <- & Ha & Hne) & u & kind & id & src & row & ? & ? & ? & ? & ? & Hc)].
    + by apply elem_of_nil in H.
    + bd. split; [done|]. exists r. naive_solver.
    + split; [done|]. exists r. destruct Hr as [? ?]. split; [done|]. split; [done|]. right. split; [done|]. split; [done|].
      exists u, kind, id, src, row. unfold covers in Hc. apply orb_true_iff in Hc as [Hc|Hc]; bd; naive_solver.
  - intros (Hne & r & Hr & He & [Ha|(Ha & Hro & u & kind & id & src & row & ? & ? & ? & ? & Hc)]).
    + left. right. split; [by exists r|]. by rewrite bool_decide_eq_false_2.
    + right. exists (ru_role r). split; [by exists r|]. exists u, kind, id, src, row. split; [done|]. split; [done|]. split; [done|]. split; [done|]. split; [done|].
      unfold covers. apply orb_true_iff. destruct Hc as [->|(? & -> & ->)]; [left; by apply bool_decide_eq_true|right].
      rewrite bool_decide_eq_false_2, !bool_decide_eq_true_2 by done. done.
Qed.

(** An event queues one message for each recipient and one for each enabled
    channel routed to it, each due at once; that e-mail is off, or cannot be
    rendered, takes nothing from the channels. *)
Theorem Send_spec (Render : string -> option (string * string * string)) (RenderChannel : string -> string -> option string)
    (roles : DB) (emails : Emails) (db : NotifyDB) (now : Z) (event envID subject : string) :
  exists mails posts,
    outbox (Send Render RenderChannel roles emails db now event envID subject) = outbox db ++ mails ++ posts /\
    map o_to mails = (if sEnabled (ReadSMTP db) && negb (bool_decide (Host (ReadSMTP db) = "")) && bool_decide (is_Some (Render event))
                      then RecipientsFor roles emails db event envID else []) /\
    map o_channel posts = map fst (List.filter (fun kc => bool_decide (is_Some (RenderChannel (c_kind kc.2) event))) (ChannelsFor db event)) /\
    Forall (fun m => o_status m = Pending /\ o_attempts m = 0 /\ o_next m = now) (mails ++ posts).
Proof.
  assert (forall event kind to ch s h t d, channels (Enqueue d now event kind to ch s h t) = channels d /\ rules (Enqueue d now event kind to ch s h t) = rules d) as Hkeep by done.
  assert (forall subj html text l d, exists mails, outbox (fold_left (fun d addr => Enqueue d now event "email" addr "" subj html text) l d) = outbox d ++ mails /\
    map o_to mails = l /\ Forall (fun m => o_status m = Pending /\ o_attempts m = 0 /\ o_next m = now) mails /\
    channels (fold_left (fun d addr => Enqueue d now event "email" addr "" subj html text) l d) = channels d /\
    rules (fold_left (fun d addr => Enqueue d now event "email" addr "" subj html text) l d) = rules d) as Hmail.
  { intros subj html text l. induction l as [|a l IH]; intros d; cbn [fold_left]; [exists []; by rewrite app_nil_r|].
    destruct (IH (Enqueue d now event "email" a "" subj html text)) as (ms & E & H1 & H2 & H3 & H4). eexists (_ :: ms).
    rewrite E. simpl. rewrite <- app_assoc. split; [done|]. simpl. rewrite H1. split; [done|]. split; [by constructor|done]. }
  assert (forall l d, exists posts, outbox (fold_left (fun d kc => match RenderChannel (c_kind kc.2) event with None => d | Some body => Enqueue d now event (c_kind kc.2) "" kc.1 subject "" body end) l d) = outbox d ++ posts /\
    map o_channel posts = map fst (List.filter (fun kc => bool_decide (is_Some (RenderChannel (c_kind kc.2) event))) l) /\
    Forall (fun m => o_status m = Pending /\ o_attempts m = 0 /\ o_next m = now) posts) as Hpost.
  { intros l. induction l as [|kc l IH]; intros d; cbn [fold_left]; [exists []; by rewrite app_nil_r|]. simpl List.filter.
    destruct (RenderChannel (c_kind kc.2) event) as [body|].
    - destruct (IH (Enqueue d now event (c_kind kc.2) "" kc.1 subject "" body)) as (ps & E & H1 & H2). eexists (_ :: ps).
      rewrite E. simpl. rewrite <- app_assoc. split; [done|]. simpl. rewrite H1. split; [done|]. by constructor.
    - apply IH. }
  unfold Send. set (d1 := queueEmail Render roles emails db now event envID).
  assert (exists mails, outbox d1 = outbox db ++ mails /\ map o_to mails = (if sEnabled (ReadSMTP db) && negb (bool_decide (Host (ReadSMTP db) = "")) && bool_decide (is_Some (Render event)) then RecipientsFor roles emails db event envID else []) /\
    Forall (fun m => o_status m = Pending /\ o_attempts m = 0 /\ o_next m = now) mails /\ channels d1 = channels db /\ rules d1 = rules db) as (mails & E1 & M1 & M2 & C1 & C2).
  { unfold d1, queueEmail. destruct (sEnabled (ReadSMTP db)); simpl; [|exists []; by rewrite app_nil_r].
    destruct (bool_decide (Host (ReadSMTP db) = "")); simpl; [exists []; by rewrite app_nil_r|].
    destruct (Render event) as [[[subj html] text]|]; simpl; [apply Hmail|exists []; by rewrite app_nil_r]. }
  destruct (Hpost (ChannelsFor d1 event) d1) as (posts & E2 & P1 & P2). exists mails, posts. unfold queueChannels. rewrite E2, E1, <- app_assoc.
  split; [done|]. split; [done|]. split; [|by apply Forall_app]. rewrite P1. unfold ChannelsFor. by rewrite C1, C2.
Qed.

(** ** Instances *)

Definition blank_notify : NotifyDB := mkNotify None ∅ [] [] 0.
Definition t0_demo : Z := 1783987080 * 1000000000.
Definition mail_demo (i : nat) : OutboxMessage := mkMsg i "deploy" "email" "ops@example.com" "" "" "" "" Pending 0 t0_demo "" t0_demo.
Definition mails_demo (n : nat) : NotifyDB := mkNotify None ∅ [] (map mail_demo (seq 0 n)) n.
Definition post_demo : OutboxMessage :=
  mkMsg 20 "deploy" "slack" "" "ch1" "" "" "{}" Pending 0 (t0_demo + 60 * 1000000000) "" (t0_demo + 60 * 1000000000).
Definition mail_and_post : NotifyDB := Enqueue (mails_demo 20) (t0_demo + 60 * 1000000000) "deploy" "slack" "" "ch1" "" "" "{}".

Lemma queued_ok n : ob_ok (mails_demo n, []).
Proof.
  split; simpl.
  - rewrite map_map. simpl. rewrite map_id. apply NoDup_ListNoDup, seq_NoDup.
  - intros m (i & -> & Hi%list_elem_of_In%in_seq)%list_elem_of_fmap. simpl. lia.
  - by intros i ?%elem_of_nil.
  - by intros m (i & -> & _)%list_elem_of_fmap.
Qed.

Definition all_fail : Outside := mkOutside true (fun _ => Some "connection refused") (fun _ => true) (fun _ => false).
Definition mail_off : Outside := mkOutside false (fun _ => None) (fun _ => true) (fun _ => false).

Lemma outbox_invariant_witness :
  let st := fold_left exec_nop [NDrain all_fail t0_demo; NDrain all_fail (t0_demo + gap)] (mails_demo 1, []) in
  map o_attempts (outbox st.1) = [2] /\ ob_ok st.
Proof.
  split; [vm_compute; reflexivity|].
  destruct (outbox_invariant (mails_demo 1, []) [NDrain all_fail t0_demo; NDrain all_fail (t0_demo + gap)] (queued_ok 1)) as (H & _). exact H.
Defined.

(** Two hours of the worker's ticks. *)
Definition ticks_demo (n : nat) : list (Outside * Z) := map (fun i => (all_fail, t0_demo + Z.of_nat i * (20 * 1000000000))) (seq 0 n).
Lemma ticks_paced n : forall i t, t0_demo + Z.of_nat i * (20 * 1000000000) <= t + minute -> paced t (map (fun i => (all_fail, t0_demo + Z.of_nat i * (20 * 1000000000))) (seq i n)).
Proof. induction n as [|n IH]; intros i t Hle; [done|]. simpl. split; [done|]. apply IH. unfold minute. lia. Qed.
Lemma outbox_settles_witness :
  map o_status (outbox (drain_all (ticks_demo 400) (mails_demo 1, [])).1) = [Failed] /\ (work (mails_demo 1) <= 6)%nat.
Proof.
  split; [vm_compute; reflexivity|]. destruct (outbox_settles (mails_demo 1, []) (ticks_demo 400) (t0_demo - 1) t0_demo (queued_ok 1)) as [H _]; [..|exact H].
  - apply Forall_forall. intros r (i & -> & Hi%list_elem_of_In%in_seq)%list_elem_of_fmap. unfold working, in_range, t0_demo, minute. cbn [fst snd all_fail x_smtp x_write_fails]. split_and!; (done || lia).
  - apply ticks_paced. vm_compute. discriminate.
  - intros m Hm _. apply list_elem_of_singleton in Hm as ->. unfold in_range. vm_compute. repeat split; discriminate.
  - vm_compute. discriminate.
  - vm_compute. discriminate.
Defined.

Lemma ahead_demo now : String.ltb (stamp now) (stamp t0_demo) = false -> mail_ahead mail_and_post (map mail_demo (seq 0 20)) now.
Proof.
  intros Hn. split; [apply (ob_ids _ (queued_ok 20))|]. split; [rewrite length_map, length_seq; done|].
  assert (String.ltb (stamp t0_demo) (stamp (t0_demo + 60 * 1000000000)) = true) as Hlt by (vm_compute; reflexivity). split.
  - intros e He. split; [apply elem_of_app; by left|]. apply list_elem_of_fmap in He as (i & -> & _). split; [done|].
    unfold is_due. cbn [mail_demo o_status o_next]. by rewrite Hn, bool_decide_eq_true_2.
  - intros c e Hc _ Hk He. apply list_elem_of_fmap in He as (i & -> & _). apply elem_of_app in Hc as [(j & -> & _)%list_elem_of_fmap|Hc]; [done|].
    apply list_elem_of_singleton in Hc as ->. exact Hlt.
Qed.

Lemma mail_off_starves_channels_witness :
  is_due (t0_demo + gap) post_demo = true /\
  fold_left (fun s r => drain r.1 r.2 s) [(mail_off, t0_demo + gap); (mail_off, t0_demo + 2 * gap)] (mail_and_post, []) = (mail_and_post, []).
Proof.
  split; [vm_compute; reflexivity|].
  apply (mail_off_starves_channels (mail_and_post, []) (map mail_demo (seq 0 20))); [apply (enqueue_ok (mails_demo 20, [])), queued_ok|].
  constructor; [split; [reflexivity|apply ahead_demo; vm_compute; reflexivity]|].
  constructor; [split; [reflexivity|apply ahead_demo; vm_compute; reflexivity]|constructor].
Defined.
