(* ===== verification/RoleGuards.v ===== *)
(** * The lockout guards

    What the guards of [internal/store/roles.go] guarantee, as an invariant of
    every sequence of store operations, and where they do not reach: the OIDC
    re-sync and two guarded writes that overlap. *)
From S2P Require Import Prelude GoStd Caps CapCache Roles.
Local Open Scope string_scope.
Local Open Scope list_scope.
Local Open Scope daffa_scope.

(** Somebody who can sign in and is an administrator once they have. *)
Definition enabled_admin (db : DB) (u : string) : Prop :=
  (exists row, users db !! u = Some row /\ can_sign_in row = true) /\
  (exists rid k i src, role_members db !! (u, rid, k, i) = Some src /\ role_is_admin db rid = true).

Definition has_admin (db : DB) : Prop := exists u, enabled_admin db u.

(** The foreign keys, and the rule [GrantRole] enforces: an admin role is only
    ever held globally. *)
Record wf (db : DB) : Prop := {
  wf_role : forall u rid k i src, role_members db !! (u, rid, k, i) = Some src -> is_Some (roles db !! rid);
  wf_user : forall u rid k i src, role_members db !! (u, rid, k, i) = Some src -> is_Some (users db !! u);
  wf_admin_global : forall u rid k i src, role_members db !! (u, rid, k, i) = Some src ->
    role_is_admin db rid = true -> k = SGlobal /\ i = "" }.

(** ** Operations as data *)

Inductive op :=
| OCreateRole (r : Role) | OUpdateRole (r : Role) | ODeleteRole (id : string)
| OGrantRole (u r source : string) (sc : GrantScope) | ORevokeRole (u r : string) (sc : GrantScope)
| OSyncOIDC (u : string) (gs : list ScopedGrant)
| ORevokeEnvGrants (env : string)
| OSetUserDisabled (u : string) (disabled : bool) | ODeleteUser (u : string).

Definition apply_op (db : DB) (o : op) : res StoreErr DB :=
  match o with
  | OCreateRole r => CreateRole db r
  | OUpdateRole r => UpdateRole db r
  | ODeleteRole id => DeleteRole db id
  | OGrantRole u r source sc => GrantRole db u r source sc
  | ORevokeRole u r sc => RevokeRole db u r sc
  | OSyncOIDC u gs => SyncOIDCRoles db u gs
  | ORevokeEnvGrants env => Ok (RevokeEnvGrants db env)
  | OSetUserDisabled u b => SetUserDisabledGuarded db u b
  | ODeleteUser u => DeleteUserGuarded db u
  end.

(** A refused operation leaves the database as it was. *)
Definition exec_op (db : DB) (o : op) : DB := match apply_op db o with Ok db' => db' | Err _ => db end.
Definition exec_ops (db : DB) (os : list op) : DB := fold_left exec_op os db.

Definition guarded (o : op) : bool := match o with OSyncOIDC _ _ => false | _ => true end.

(** ** What the counting queries answer *)

Lemma holds_admin_spec db P u :
  holds_admin db P u = true <->
  exists rid k i src, role_members db !! (u, rid, k, i) = Some src /\ role_is_admin db rid = true /\ P rid = true.
Proof.
  unfold holds_admin. rewrite existsb_elem. split.
  - intros ([[[[u' rid] k] i] src] & Hm & H). apply elem_of_map_to_list in Hm. simpl in H.
    apply andb_prop in H as [H HP]. apply andb_prop in H as [Hu Ha]. apply bool_decide_eq_true_1 in Hu. subst.
    eauto 8.
  - intros (rid & k & i & src & Hm & Ha & HP). exists (u, rid, k, i, src).
    split; [by apply elem_of_map_to_list|]. simpl. by rewrite bool_decide_eq_true_2, Ha, HP.
Qed.

Lemma count_pos {A} (f : A -> bool) l : (0 < length (List.filter f l))%nat <-> exists x, x ∈ l /\ f x = true.
Proof.
  split.
  - destruct (List.filter f l) as [|x r] eqn:E; [simpl; lia|]. intros _. exists x.
    rewrite list_elem_of_In, <- filter_In, E. by left.
  - intros (x & Hx & Hf). rewrite list_elem_of_In in Hx.
    assert (In x (List.filter f l)) as H by (by apply filter_In).
    destruct (List.filter f l); [done|simpl; lia].
Qed.

Lemma countAdminsExcludingUser_pos db u :
  (0 < countAdminsExcludingUser db u)%nat <-> exists v, v <> u /\ enabled_admin db v.
Proof.
  unfold countAdminsExcludingUser. rewrite count_pos. split.
  - intros ([v row] & Hv & H). apply elem_of_map_to_list in Hv. simpl in H.
    apply andb_prop in H as [H Hne]. apply andb_prop in H as [Hs Ha].
    apply negb_true_iff, bool_decide_eq_false_1 in Hne.
    apply holds_admin_spec in Ha as (rid & k & i & src & Hm & Hr & _).
    exists v. split; [done|]. split; eauto 8.
  - intros (v & Hne & (row & Hv & Hs) & rid & k & i & src & Hm & Hr). exists (v, row).
    split; [by apply elem_of_map_to_list|]. simpl. rewrite Hs, bool_decide_eq_false_2 by done.
    rewrite (proj2 (holds_admin_spec db (fun _ => true) v)) by eauto 8. done.
Qed.

Lemma countOtherAdmins_pos db r :
  (0 < countOtherAdmins db r)%nat <->
  exists v row rid k i src, users db !! v = Some row /\ can_sign_in row = true /\
    role_members db !! (v, rid, k, i) = Some src /\ role_is_admin db rid = true /\ rid <> r.
Proof.
  unfold countOtherAdmins. rewrite count_pos. split.
  - intros ([v row] & Hv & H). apply elem_of_map_to_list in Hv. simpl in H.
    apply andb_prop in H as [Hs Ha]. apply holds_admin_spec in Ha as (rid & k & i & src & Hm & Hr & Hp).
    apply negb_true_iff, bool_decide_eq_false_1 in Hp. eauto 12.
  - intros (v & row & rid & k & i & src & Hv & Hs & Hm & Hr & Hne). exists (v, row).
    split; [by apply elem_of_map_to_list|]. simpl. rewrite Hs. apply holds_admin_spec.
    exists rid, k, i, src. by rewrite bool_decide_eq_false_2.
Qed.

(** A user who is not a sign-in administrator is not an enabled one either. *)
Lemma not_signInAdmin db u : signInAdmin db u = false -> ~ enabled_admin db u.
Proof.
  unfold signInAdmin. intros H ((row & Hu & Hs) & rid & k & i & src & Hm & Hr). rewrite Hu in H.
  rewrite (proj2 (holds_admin_spec db (fun _ => true) u)) in H by eauto 8.
  unfold can_sign_in in Hs. apply andb_prop in Hs as [_ Hs]. by rewrite Hs in H.
Qed.

(** An administrator survives any change that keeps their row, one of their
    admin memberships and that role. *)
Lemma enabled_admin_mono db db' u rid k i src src' row :
  users db' !! u = Some row -> can_sign_in row = true ->
  role_members db !! (u, rid, k, i) = Some src -> role_is_admin db rid = true ->
  role_members db' !! (u, rid, k, i) = Some src' -> role_is_admin db' rid = true ->
  has_admin db'.
Proof. intros. exists u. split; eauto 8. Qed.

(** ** Each guarded operation keeps an administrator *)

Lemma role_is_admin_insert rs rid db row :
  roles db = <[rid := row]> rs ->
  forall x, role_is_admin db x = if bool_decide (rid = x) then r_is_admin row
                                 else match rs !! x with Some r => r_is_admin r | None => false end.
Proof.
  intros H x. unfold role_is_admin. rewrite H. case_bool_decide; subst.
  - by rewrite lookup_insert_eq.
  - by rewrite lookup_insert_ne.
Qed.

Lemma CreateRole_inv db r db' :
  CreateRole db r = Ok db' ->
  roles db !! RID r = None /\ roles db' = <[RID r := mkRoleRow (RName r) (RDescription r) (RIsAdmin r) (RBuiltin r)]> (roles db) /\
  role_members db' = role_members db /\ users db' = users db.
Proof.
  unfold CreateRole. destruct (bool_decide (is_Some (roles db !! RID r))) eqn:E; [done|]. simpl.
  case_match; [done|]. intros [= <-]. simpl. split; [|done].
  apply bool_decide_eq_false_1 in E. by apply eq_None_not_Some.
Qed.

Lemma UpdateRole_inv db r db' :
  UpdateRole db r = Ok db' ->
  exists row, roles db !! RID r = Some row /\
    roles db' = <[RID r := mkRoleRow (RName r) (RDescription r) (r_is_admin row) (r_builtin row)]> (roles db) /\
    role_members db' = role_members db /\ users db' = users db.
Proof.
  unfold UpdateRole. destruct (roles db !! RID r) as [row|]; [|done].
  case_match; [done|]. intros [= <-]. eauto.
Qed.

(** Neither write changes whether an existing role is an admin's. *)
Lemma CreateRole_role_is_admin db r db' rid :
  CreateRole db r = Ok db' -> is_Some (roles db !! rid) -> role_is_admin db' rid = role_is_admin db rid.
Proof.
  intros H [row Hr]. apply CreateRole_inv in H as (Hn & Hroles & _).
  rewrite (role_is_admin_insert _ _ _ _ Hroles). case_bool_decide; subst; [congruence|done].
Qed.

Lemma UpdateRole_role_is_admin db r db' rid :
  UpdateRole db r = Ok db' -> role_is_admin db' rid = role_is_admin db rid.
Proof.
  intros H. apply UpdateRole_inv in H as (row & Hr & Hroles & _).
  rewrite (role_is_admin_insert _ _ _ _ Hroles). unfold role_is_admin. case_bool_decide; subst; [|done].
  by rewrite Hr.
Qed.

Lemma CreateRole_keeps db r db' : wf db -> has_admin db -> CreateRole db r = Ok db' -> has_admin db'.
Proof.
  intros Hwf (u & (row & Hu & Hs) & rid & k & i & src & Hm & Hr) H.
  assert (role_is_admin db' rid = true) as Hr'.
  { rewrite (CreateRole_role_is_admin db r) by eauto using wf_role. done. }
  apply CreateRole_inv in H as (_ & _ & Hmem & Husers).
  rewrite <- Husers in Hu. eapply (enabled_admin_mono db db' u rid k i src src); try done. by rewrite Hmem.
Qed.

Lemma UpdateRole_keeps db r db' : has_admin db -> UpdateRole db r = Ok db' -> has_admin db'.
Proof.
  intros (u & (row & Hu & Hs) & rid & k & i & src & Hm & Hr) H.
  pose proof (UpdateRole_role_is_admin db r db' rid H) as Hr'. rewrite Hr in Hr'.
  apply UpdateRole_inv in H as (_ & _ & _ & Hmem & Husers).
  rewrite <- Husers in Hu. eapply (enabled_admin_mono db db' u rid k i src src); try done. by rewrite Hmem.
Qed.

Lemma DeleteRole_inv db id db' :
  DeleteRole db id = Ok db' ->
  (role_is_admin db id = true -> (0 < countOtherAdmins db id)%nat) /\ users db' = users db /\
  roles db' = delete id (roles db) /\
  (forall u rid k i, role_members db' !! (u, rid, k, i) =
                     if bool_decide (rid = id) then None else role_members db !! (u, rid, k, i)).
Proof.
  unfold DeleteRole, RoleByID. intros H. destruct (roles db !! id) as [r|] eqn:Er; simpl in H; [|done].
  case_match; [done|]. destruct (r_is_admin r && _) eqn:Ec; [done|]. injection H as <-. split_and!; [|done..|].
  - unfold role_is_admin. rewrite Er. intros Ha. rewrite Ha in Ec. simpl in Ec. apply Nat.eqb_neq in Ec. lia.
  - intros u rid k i. simpl. case_bool_decide as Hd.
    + apply map_lookup_filter_None. right. intros src _ Hne. by destruct Hne.
    + apply option_eq. intros src. rewrite map_lookup_filter_Some. simpl. tauto.
Qed.

Lemma DeleteRole_keeps db id db' : has_admin db -> DeleteRole db id = Ok db' -> has_admin db'.
Proof.
  intros (u & (row & Hu & Hs) & rid & k & i & src & Hm & Hr) H.
  apply DeleteRole_inv in H as (Hcount & Husers & Hroles & Hmem).
  assert (forall rid', rid' <> id -> role_is_admin db rid' = true -> role_is_admin db' rid' = true) as Hadm.
  { intros rid' Hne. unfold role_is_admin. rewrite Hroles, lookup_delete_ne by done. done. }
  destruct (decide (rid = id)) as [->|Hne].
  - specialize (Hcount Hr). apply countOtherAdmins_pos in Hcount as (v & row' & rid & k' & i' & src' & Hv & Hsv & Hmv & Hrv & Hne).
    rewrite <- Husers in Hv. eapply (enabled_admin_mono db db' v rid k' i' src' src'); eauto.
    by rewrite Hmem, bool_decide_eq_false_2.
  - rewrite <- Husers in Hu. eapply (enabled_admin_mono db db' u rid k i src src); eauto.
    by rewrite Hmem, bool_decide_eq_false_2.
Qed.

Lemma GrantRole_inv db u r s sc db' :
  GrantRole db u r s sc = Ok db' ->
  canGrant db r sc = Ok tt /\ is_Some (users db !! u) /\ is_Some (roles db !! r) /\
  db' = set_members db (<[(u, r, Kind sc, ID sc) := s]> (role_members db)).
Proof.
  unfold GrantRole. intros H. apply rbind_ok_inv in H as ([] & Hc & H).
  unfold member_fk in H. destruct (_ && _) eqn:E; [|done]. apply andb_prop in E as [E1 E2].
  apply bool_decide_eq_true_1 in E1, E2. injection H as <-. done.
Qed.

Lemma GrantRole_keeps db u r s sc db' : has_admin db -> GrantRole db u r s sc = Ok db' -> has_admin db'.
Proof.
  intros (v & (row & Hv & Hs) & rid & k & i & src & Hm & Hr) H.
  apply GrantRole_inv in H as (_ & _ & _ & ->).
  destruct (decide ((u, r, Kind sc, ID sc) = (v, rid, k, i))) as [E|Hne].
  - eapply (enabled_admin_mono db _ v rid k i src s); try done. simpl. rewrite <- E. apply lookup_insert_eq.
  - eapply (enabled_admin_mono db _ v rid k i src src); try done. simpl. by rewrite lookup_insert_ne.
Qed.

Lemma RevokeRole_keeps db u r sc db' : wf db -> has_admin db -> RevokeRole db u r sc = Ok db' -> has_admin db'.
Proof.
  intros Hwf (v & (row & Hv & Hs) & rid & k & i & src & Hm & Hr) H.
  unfold RevokeRole in H. apply rbind_ok_inv in H as (ro & Hro & H). apply rbind_ok_inv in H as ([] & Hg & H).
  injection H as <-.
  destruct (decide ((u, r, Kind sc, ID sc) = (v, rid, k, i))) as [E|Hne].
  2: { eapply (enabled_admin_mono db _ v rid k i src src); try done. simpl. by rewrite lookup_delete_ne. }
  injection E as -> -> <- <-.
  destruct (wf_admin_global db Hwf _ _ _ _ _ Hm Hr) as [Hk Hi].
  apply RoleByID_ok in Hro as (row' & Hrow & ->). simpl in Hg.
  unfold role_is_admin in Hr. rewrite Hrow in Hr. rewrite Hr in Hg. unfold IsGlobal in Hg.
  rewrite Hk, bool_decide_eq_true_2 in Hg by done. simpl in Hg. unfold refuseLastAdminRevoke in Hg.
  assert (role_is_admin db rid = true) as Hra by (unfold role_is_admin; by rewrite Hrow).
  destruct (signInAdmin db v) eqn:Esi; simpl in Hg.
  2: { exfalso. apply (not_signInAdmin db v Esi). split; eauto 8. }
  destruct (0 <? countAdminsExcludingUser db v)%nat eqn:Ec.
  - apply Nat.ltb_lt in Ec. apply countAdminsExcludingUser_pos in Ec as (w & Hne & (roww & Hw & Hsw) & rw & kw & iw & srcw & Hmw & Hrw).
    eapply (enabled_admin_mono db _ w rw kw iw srcw srcw); try done. simpl. rewrite lookup_delete_ne; congruence.
  - destruct (hasOtherAdminRole db v rid) eqn:Eo; [|done].
    apply holds_admin_spec in Eo as (r2 & k2 & i2 & src2 & Hm2 & Hr2 & Hne2).
    apply negb_true_iff, bool_decide_eq_false_1 in Hne2.
    eapply (enabled_admin_mono db _ v r2 k2 i2 src2 src2); try done. simpl. rewrite lookup_delete_ne; congruence.
Qed.

Lemma RevokeEnvGrants_keeps db env : wf db -> has_admin db -> has_admin (RevokeEnvGrants db env).
Proof.
  intros Hwf (u & (row & Hu & Hs) & rid & k & i & src & Hm & Hr).
  destruct (wf_admin_global db Hwf _ _ _ _ _ Hm Hr) as [-> ->].
  eapply (enabled_admin_mono db _ u rid SGlobal "" src src); try done. simpl.
  apply map_lookup_filter_Some. split; [done|]. simpl. by intros [? _].
Qed.

Lemma refuseIfLastAdmin_ok db u :
  refuseIfLastAdmin db u = Ok tt -> has_admin db -> exists v, v <> u /\ enabled_admin db v.
Proof.
  unfold refuseIfLastAdmin. intros H (v & Hv). destruct (signInAdmin db u) eqn:Es; simpl in H.
  - destruct (countAdminsExcludingUser db u =? 0)%nat eqn:E; [done|]. apply Nat.eqb_neq in E.
    apply countAdminsExcludingUser_pos. lia.
  - exists v. split; [|done]. intros ->. by apply (not_signInAdmin db u Es).
Qed.

Lemma SetUserDisabled_keeps db u b db' :
  has_admin db -> SetUserDisabledGuarded db u b = Ok db' -> has_admin db'.
Proof.
  intros Ha H. unfold SetUserDisabledGuarded in H. apply rbind_ok_inv in H as ([] & Hg & H). injection H as <-.
  assert (forall v, enabled_admin db v -> v <> u \/ b = false -> has_admin (SetUserDisabled db u b)) as Hkeep.
  { intros v ((row & Hv & Hs) & rid & k & i & src & Hm & Hr) Hor.
    destruct (decide (v = u)) as [->|Hne].
    - destruct Hor as [| ->]; [done|]. exists u. split; [|eauto 8]. simpl.
      exists (mkUserRow false (u_kind row)). rewrite lookup_alter_eq, Hv. split; [done|].
      unfold can_sign_in in *. simpl. apply andb_prop in Hs as [_ Hs]. done.
    - eapply (enabled_admin_mono db _ v rid k i src src row); try done. simpl. by rewrite lookup_alter_ne. }
  destruct b.
  - destruct (refuseIfLastAdmin_ok db u Hg Ha) as (v & Hne & Hv). eauto.
  - destruct Ha as (v & Hv). eauto.
Qed.

Lemma DeleteUser_keeps db u db' : has_admin db -> DeleteUserGuarded db u = Ok db' -> has_admin db'.
Proof.
  intros Ha H. unfold DeleteUserGuarded in H. apply rbind_ok_inv in H as ([] & Hg & H). injection H as <-.
  destruct (refuseIfLastAdmin_ok db u Hg Ha) as (v & Hne & (row & Hv & Hs) & rid & k & i & src & Hm & Hr).
  eapply (enabled_admin_mono db _ v rid k i src src row); simpl; try done.
  - by rewrite lookup_delete_ne.
  - apply map_lookup_filter_Some. done.
Qed.

(** ** Well-formedness is kept by every operation, the re-sync included *)

(** Removing memberships, and only memberships of rows that stay, keeps [wf]. *)
Lemma wf_shrink db db' :
  wf db -> (forall k src, role_members db' !! k = Some src -> role_members db !! k = Some src) ->
  (forall u rid k i src, role_members db' !! (u, rid, k, i) = Some src ->
     is_Some (roles db' !! rid) /\ is_Some (users db' !! u) /\ role_is_admin db' rid = role_is_admin db rid) ->
  wf db'.
Proof.
  intros Hwf Hsub Hfk. split; intros u rid k i src Hm; destruct (Hfk _ _ _ _ _ Hm) as (Hr & Hu & Ha); [done..|].
  rewrite Ha. intros Hadm. eapply wf_admin_global; eauto.
Qed.

Lemma canGrant_admin db r sc :
  canGrant db r sc = Ok tt -> role_is_admin db r = true -> Kind sc = SGlobal /\ ID sc = "".
Proof.
  unfold canGrant, Valid, IsGlobal. intros H Ha. case_bool_decide as Hk.
  - destruct (bool_decide (ID sc = "")) eqn:E; [|done]. by apply bool_decide_eq_true_1 in E.
  - exfalso. case_match; [done|]. unfold RoleByID, role_is_admin in *.
    destruct (roles db !! r) as [row|]; [|done]. simpl in H.
    unfold Effective in H. simpl in H. rewrite Ha in H. by rewrite Everything_not_scopable in H.
Qed.

Lemma wf_insert_member db u r sc s :
  wf db -> is_Some (users db !! u) -> is_Some (roles db !! r) ->
  (role_is_admin db r = true -> Kind sc = SGlobal /\ ID sc = "") ->
  wf (set_members db (<[(u, r, Kind sc, ID sc) := s]> (role_members db))).
Proof.
  intros Hwf Hu Hr Ha. split; intros v rid k i src Hm; simpl in *;
    apply lookup_insert_Some in Hm as [[[= <- <- <- <-] _]|[_ Hm]]; try done.
  - by eapply (wf_role db).
  - by eapply (wf_user db).
  - intros. eapply (wf_admin_global db); eauto.
Qed.

Lemma canGrant_set_members db m r sc : canGrant (set_members db m) r sc = canGrant db r sc.
Proof. done. Qed.

Lemma sync_fold_Err u gs e : fold_left (sync_insert u) gs (Err e) = Err e.
Proof. induction gs; simpl; [done|]. apply IHgs. Qed.

Lemma sync_fold_wf u gs db db' :
  wf db -> (forall g, g ∈ gs -> canGrant db (g_role g) (g_scope g) = Ok tt) ->
  fold_left (sync_insert u) gs (Ok db) = Ok db' -> wf db'.
Proof.
  revert db. induction gs as [|g gs IH]; intros db Hwf Hg H; simpl in H; [by injection H as <-|].
  destruct (member_fk db u (g_role g)) eqn:Efk.
  2: { by rewrite sync_fold_Err in H. }
  destruct (role_members db !! _) eqn:Em.
  - apply (IH db); [done | | done]. intros g' Hg'. apply Hg. by right.
  - apply (IH _) in H; [done | |].
    + unfold member_fk in Efk. apply andb_prop in Efk as [E1 E2]. apply bool_decide_eq_true_1 in E1, E2.
      apply wf_insert_member; [done..|]. intros Ha. apply (canGrant_admin db (g_role g)); [|done]. apply Hg. by left.
    + intros g' Hg'. rewrite canGrant_set_members. apply Hg. by right.
Qed.

Lemma valid_grants_ok db gs g : g ∈ valid_grants db gs -> canGrant db (g_role g) (g_scope g) = Ok tt.
Proof.
  unfold valid_grants. rewrite list_elem_of_In, filter_In. intros [_ H].
  by destruct (canGrant db (g_role g) (g_scope g)) as [[]|].
Qed.

Lemma clear_oidc_lookup db u k src :
  role_members (clear_oidc db u) !! k = Some src <->
  role_members db !! k = Some src /\ ~ (k.1.1.1 = u /\ src = SourceOIDC).
Proof. unfold clear_oidc. simpl. by rewrite map_lookup_filter_Some. Qed.

Lemma clear_oidc_wf db u : wf db -> wf (clear_oidc db u).
Proof.
  intros Hwf. apply (wf_shrink db); [done | |].
  - intros k src H. by apply clear_oidc_lookup in H as [H _].
  - intros v rid k i src H. apply clear_oidc_lookup in H as [H _].
    split_and!; [by eapply (wf_role db) | by eapply (wf_user db) | done].
Qed.

Lemma apply_op_wf db o db' : wf db -> apply_op db o = Ok db' -> wf db'.
Proof.
  intros Hwf. destruct o as [r|r|id|u r s sc|u r sc|u gs|env|u b|u]; simpl; intros H.
  - pose proof (CreateRole_role_is_admin db r db') as Ha.
    pose proof (CreateRole_inv db r db' H) as (_ & Hroles & Hmem & Hus).
    apply (wf_shrink db); [done | by rewrite Hmem |]. rewrite Hmem, Hroles, Hus. intros v rid k i src Hm.
    pose proof (wf_role db Hwf _ _ _ _ _ Hm) as Hr. split_and!; [|by eapply (wf_user db) | by apply Ha].
    destruct (decide (RID r = rid)) as [<-|]; [by rewrite lookup_insert_eq | by rewrite lookup_insert_ne].
  - pose proof (UpdateRole_role_is_admin db r db') as Ha.
    pose proof (UpdateRole_inv db r db' H) as (row & _ & Hroles & Hmem & Hus).
    apply (wf_shrink db); [done | by rewrite Hmem |]. rewrite Hmem, Hroles, Hus. intros v rid k i src Hm.
    pose proof (wf_role db Hwf _ _ _ _ _ Hm) as Hr. split_and!; [|by eapply (wf_user db) | by apply Ha].
    destruct (decide (RID r = rid)) as [<-|]; [by rewrite lookup_insert_eq | by rewrite lookup_insert_ne].
  - apply DeleteRole_inv in H as (_ & Hus & Hroles & Hmem). apply (wf_shrink db); [done| |].
    + intros [[[v rid] k] i] src Hm. rewrite Hmem in Hm. by case_bool_decide.
    + intros v rid k i src Hm. rewrite Hmem in Hm. case_bool_decide as Hd; [done|].
      unfold role_is_admin. rewrite Hroles, Hus, lookup_delete_ne by done.
      split_and!; [by eapply (wf_role db) | by eapply (wf_user db) | done].
  - apply GrantRole_inv in H as (Hc & Hu & Hr & ->). apply wf_insert_member; [done..|]. by apply canGrant_admin.
  - unfold RevokeRole in H. apply rbind_ok_inv in H as (ro & _ & H). apply rbind_ok_inv in H as (? & _ & H).
    injection H as <-. apply (wf_shrink db); [done| |].
    + intros key src Hm. simpl in Hm. by apply lookup_delete_Some in Hm as [_ Hm].
    + intros v rid k i src Hm. simpl in *. apply lookup_delete_Some in Hm as [_ Hm].
      split_and!; [by eapply (wf_role db) | by eapply (wf_user db) | done].
  - eapply sync_fold_wf; [by apply (clear_oidc_wf db u)| |exact H].
    intros g Hg. change (canGrant db (g_role g) (g_scope g) = Ok tt). by eapply valid_grants_ok.
  - injection H as <-. apply (wf_shrink db); [done| |].
    + intros key src Hm. simpl in Hm. by apply map_lookup_filter_Some in Hm as [Hm _].
    + intros v rid k i src Hm. simpl in *. apply map_lookup_filter_Some in Hm as [Hm _].
      split_and!; [by eapply (wf_role db) | by eapply (wf_user db) | done].
  - unfold SetUserDisabledGuarded in H. apply rbind_ok_inv in H as (? & _ & H). injection H as <-.
    apply (wf_shrink db); [done..|]. intros v rid k i src Hm. simpl in *.
    split_and!; [by eapply (wf_role db) | | done]. rewrite lookup_alter. case_decide; subst;
      [apply fmap_is_Some|]; by eapply (wf_user db).
  - unfold DeleteUserGuarded in H. apply rbind_ok_inv in H as (? & _ & H). injection H as <-.
    apply (wf_shrink db); [done| |].
    + intros key src Hm. simpl in Hm. by apply map_lookup_filter_Some in Hm as [Hm _].
    + intros v rid k i src Hm. simpl in *. apply map_lookup_filter_Some in Hm as [Hm Hne]. simpl in Hne.
      rewrite lookup_delete_ne by done. split_and!; [by eapply (wf_role db) | by eapply (wf_user db) | done].
Qed.

Lemma exec_op_wf db o : wf db -> wf (exec_op db o).
Proof. unfold exec_op. destruct (apply_op db o) eqn:E; [|done]. intros. by eapply apply_op_wf. Qed.

Lemma exec_op_keeps db o : wf db -> guarded o = true -> has_admin db -> has_admin (exec_op db o).
Proof.
  intros Hwf Hg Ha. unfold exec_op. destruct (apply_op db o) as [db'|] eqn:E; [|done].
  destruct o; try done; simpl in E.
  - by eapply CreateRole_keeps.
  - by eapply UpdateRole_keeps.
  - by eapply DeleteRole_keeps.
  - by eapply GrantRole_keeps.
  - by eapply RevokeRole_keeps.
  - injection E as <-. by apply RevokeEnvGrants_keeps.
  - by eapply SetUserDisabled_keeps.
  - by eapply DeleteUser_keeps.
Qed.

(** ** Properties *)

(** C3: no sequence of guarded operations locks the fleet out: if somebody can
    sign in as an administrator before it, somebody can after it, whichever of
    the operations were refused on the way. *)
Theorem guarded_ops_keep_an_admin (db : DB) (os : list op) :
  wf db -> has_admin db -> forallb guarded os = true -> has_admin (exec_ops db os).
Proof.
  revert db. induction os as [|o os IH]; intros db Hwf Ha Hg; simpl in *; [done|].
  apply andb_prop in Hg as [Ho Hg]. apply IH; [by apply exec_op_wf | by apply exec_op_keeps | done].
Qed.

(** Every operation, the OIDC re-sync included, keeps the foreign keys and
    the rule that an admin role is only ever held globally, so "Admin on
    staging" never enters the memberships. *)
Theorem operations_keep_wf (db : DB) (os : list op) : wf db -> wf (exec_ops db os).
Proof.
  revert db. induction os as [|o os IH]; intros db Hwf; simpl; [done|]. by apply IH, exec_op_wf.
Qed.

(** A scoped grant is refused exactly when the role carries a capability
    that cannot be limited to one host, and the refusal names those
    capabilities. *)
Theorem GrantRole_scoped (db : DB) (u rid src env : string) (r : Role) :
  env <> "" -> RoleByID db rid = Ok r ->
  ((exists d, d ∈ All /\ Has (Effective r) (DCap d) = true /\ Caps.Scope d = ScopeGlobal) ->
     GrantRole db u rid src (OnEnv env) = Err (ErrCannotScope (Names (GlobalOnly (Effective r))))) /\
  ((forall d, d ∈ All -> Has (Effective r) (DCap d) = true -> Caps.Scope d = ScopeEnv) ->
     env ∈ environments db -> is_Some (users db !! u) ->
     exists db', GrantRole db u rid src (OnEnv env) = Ok db' /\
       role_members db' = <[(u, rid, SEnv, env) := src]> (role_members db)).
Proof.
  intros Hne Hr.
  assert (Valid (OnEnv env) = true) as Hv by (unfold Valid; simpl; by rewrite bool_decide_eq_false_2).
  unfold GrantRole, canGrant. rewrite Hv, Hr. simpl. split.
  - intros (d & Hd & Hh & Hs).
    destruct (IsZero (GlobalOnly (Effective r))) eqn:E; [|done].
    rewrite GlobalOnly_zero in E. rewrite (E d Hd Hh) in Hs. done.
  - intros Hall Henv Hu. rewrite (proj2 (GlobalOnly_zero _)) by done. simpl.
    rewrite bool_decide_eq_true_2 by done. simpl. unfold member_fk.
    apply RoleByID_ok in Hr as (row & Hr & _). rewrite !bool_decide_eq_true_2 by (done || by rewrite Hr). simpl.
    eexists. split; [done|]. done.
Qed.

(** ** The OIDC re-sync *)

Definition grant_key (u : string) (g : ScopedGrant) : MemberKey := (u, g_role g, Kind (g_scope g), ID (g_scope g)).

Lemma sync_fold_spec u gs db db' :
  fold_left (sync_insert u) gs (Ok db) = Ok db' ->
  db' = set_members db (role_members db') /\
  forall k, role_members db' !! k =
    match role_members db !! k with
    | Some src => Some src
    | None => if bool_decide (k ∈ map (grant_key u) gs) then Some SourceOIDC else None
    end.
Proof.
  revert db. induction gs as [|g gs IH]; intros db H; simpl in H.
  - injection H as <-. split; [by destruct db|]. intros k.
    destruct (role_members db !! k); [done|]. by case_bool_decide as Hk; [apply not_elem_of_nil in Hk|].
  - destruct (member_fk db u (g_role g)); [|by rewrite sync_fold_Err in H].
    change (u, g_role g, Kind (g_scope g), ID (g_scope g)) with (grant_key u g) in H.
    destruct (role_members db !! grant_key u g) as [src|] eqn:Em.
    + apply IH in H as [Hdb H]. split; [done|]. intros k. rewrite H. simpl.
      destruct (role_members db !! k) eqn:Ek; [done|]. apply f_equal with (f := fun b : bool => if b then _ else _).
      apply bool_decide_ext. rewrite elem_of_cons. split; [by right|]. intros [->|?]; [congruence|done].
    + apply IH in H as [Hdb H]. split; [done|]. intros k. rewrite H. simpl. rewrite lookup_insert. case_decide as Hk.
      * subst. rewrite Em, bool_decide_eq_true_2 by (left; done). done.
      * destruct (role_members db !! k) eqn:Ek; [done|]. apply f_equal with (f := fun b : bool => if b then _ else _).
        apply bool_decide_ext. rewrite elem_of_cons. split; [by right|]. intros [->|?]; [done|done].
Qed.

(** A successful re-sync leaves the user with exactly the roles they hold
    locally, with their local source, and the applicable grants of the
    provider; every other user's memberships, and all other tables, are
    untouched. *)
Theorem SyncOIDCRoles_spec (db db' : DB) (u : string) (gs : list ScopedGrant) :
  SyncOIDCRoles db u gs = Ok db' ->
  db' = set_members db (role_members db') /\
  (forall v rid k i, v <> u -> role_members db' !! (v, rid, k, i) = role_members db !! (v, rid, k, i)) /\
  (forall rid k i, role_members db' !! (u, rid, k, i) =
     match role_members db !! (u, rid, k, i) with
     | Some src => if bool_decide (src = SourceOIDC)
                   then if bool_decide ((u, rid, k, i) ∈ map (grant_key u) (valid_grants db gs)) then Some SourceOIDC else None
                   else Some src
     | None => if bool_decide ((u, rid, k, i) ∈ map (grant_key u) (valid_grants db gs)) then Some SourceOIDC else None
     end).
Proof.
  unfold SyncOIDCRoles. intros H. apply sync_fold_spec in H as [Hdb H].
  assert (forall k, role_members (clear_oidc db u) !! k =
    match role_members db !! k with
    | Some src => if bool_decide (k.1.1.1 = u /\ src = SourceOIDC) then None else Some src
    | None => None end) as Hclear.
  { intros k. apply option_eq. intros src. rewrite clear_oidc_lookup.
    destruct (role_members db !! k) as [s|]; [|naive_solver]. case_bool_decide; naive_solver. }
  split_and!; [exact Hdb| |].
  - intros v rid k i Hne. rewrite H, Hclear. simpl. destruct (role_members db !! _) as [s|].
    + by rewrite bool_decide_eq_false_2 by tauto.
    + rewrite bool_decide_eq_false_2; [done|]. intros Hin. apply list_elem_of_fmap in Hin as (g & E & _).
      unfold grant_key in E. congruence.
  - intros rid k i. rewrite H, Hclear. simpl. destruct (role_members db !! _) as [s|]; [|done].
    destruct (decide (s = SourceOIDC)) as [->|Hs].
    + rewrite !bool_decide_eq_true_2 by done. done.
    + by rewrite !bool_decide_eq_false_2 by tauto.
Qed.

(** ** Where the guards stop *)

(** The memberships by which a user is an administrator all come from OIDC. *)
Definition oidc_admin (db : DB) (u : string) : Prop :=
  forall rid k i src, role_members db !! (u, rid, k, i) = Some src -> role_is_admin db rid = true -> src = SourceOIDC.

(** The re-sync is not guarded: when the only administrator holds the role
    through the provider alone and the provider stops asserting it, signing in
    strips it and nobody is left. *)
Theorem sync_can_lock_out (db : DB) (u : string) :
  oidc_admin db u -> (forall v, enabled_admin db v -> v = u) ->
  exists db', SyncOIDCRoles db u [] = Ok db' /\ ~ has_admin db'.
Proof.
  intros Ho Honly. exists (clear_oidc db u). split; [done|].
  intros (v & (row & Hv & Hs) & rid & k & i & src & Hm & Ha).
  apply clear_oidc_lookup in Hm as [Hm Hkeep]. simpl in Hkeep.
  change (role_is_admin db rid = true) in Ha. change (users db !! v = Some row) in Hv.
  assert (v = u) as -> by (apply Honly; split; eauto 8).
  apply Hkeep. split; [done|]. by eapply Ho.
Qed.

Lemma refuseIfLastAdmin_other db a b : a <> b -> enabled_admin db b -> refuseIfLastAdmin db a = Ok tt.
Proof.
  intros Hne Hb. unfold refuseIfLastAdmin. destruct (signInAdmin db a); [|done]. simpl.
  destruct (countAdminsExcludingUser db a =? 0)%nat eqn:E; [|done]. apply Nat.eqb_eq in E.
  assert (0 < countAdminsExcludingUser db a)%nat by (apply countAdminsExcludingUser_pos; eauto). lia.
Qed.

(** The check and the write are two statements, so two requests that
    overlap both pass: with exactly two administrators, each guard finds the
    other one, both accounts are deleted, and nobody is left. The same holds of
    two overlapping disables. *)
Theorem overlapping_guards_lock_out (db : DB) (a b : string) :
  a <> b -> enabled_admin db a -> enabled_admin db b -> (forall v, enabled_admin db v -> v = a \/ v = b) ->
  refuseIfLastAdmin db a = Ok tt /\ refuseIfLastAdmin db b = Ok tt /\
  ~ has_admin (DeleteUser (DeleteUser db a) b) /\
  ~ has_admin (SetUserDisabled (SetUserDisabled db a true) b true).
Proof.
  intros Hne Ha Hb Honly. split_and!.
  - by apply (refuseIfLastAdmin_other db a b).
  - by apply (refuseIfLastAdmin_other db b a).
  - intros (v & (row & Hv & Hs) & rid & k & i & src & Hm & Hr). simpl in Hv, Hm.
    apply lookup_delete_Some in Hv as [Hvb Hv]. apply lookup_delete_Some in Hv as [Hva Hv].
    apply map_lookup_filter_Some in Hm as [Hm _]. apply map_lookup_filter_Some in Hm as [Hm _].
    change (role_is_admin db rid = true) in Hr.
    destruct (Honly v) as [-> | ->]; [split; eauto 8 | done | done].
  - intros (v & (row & Hv & Hs) & rid & k & i & src & Hm & Hr). simpl in Hv, Hm.
    change (role_is_admin db rid = true) in Hr.
    destruct (decide (v = b)) as [->|Hvb].
    { rewrite lookup_alter_eq in Hv. by apply fmap_Some in Hv as (? & _ & ->). }
    rewrite lookup_alter_ne in Hv by done. destruct (decide (v = a)) as [->|Hva].
    { rewrite lookup_alter_eq in Hv. by apply fmap_Some in Hv as (? & _ & ->). }
    rewrite lookup_alter_ne in Hv by done.
    destruct (Honly v) as [-> | ->]; [split; eauto 8 | done | done].
Qed.

(** ** The theorems at a concrete fleet *)

(** A statement about every membership, or every user, of a concrete database
    is a conjunction over its rows. *)
Lemma members_forall (db : DB) (P : MemberKey -> string -> Prop) :
  Forall (fun kv => P kv.1 kv.2) (map_to_list (role_members db)) ->
  forall u rid k i src, role_members db !! (u, rid, k, i) = Some src -> P (u, rid, k, i) src.
Proof.
  intros H u rid k i src Hm. rewrite Forall_forall in H.
  apply (H ((u, rid, k, i), src)). by apply elem_of_map_to_list.
Qed.

Lemma wf_of_rows (db : DB) :
  Forall (fun kv => is_Some (roles db !! kv.1.1.1.2) /\ is_Some (users db !! kv.1.1.1.1) /\
     (role_is_admin db kv.1.1.1.2 = true -> kv.1.1.2 = SGlobal /\ kv.1.2 = ""))
    (map_to_list (role_members db)) -> wf db.
Proof.
  intros H. pose proof (members_forall db (fun k _ => is_Some (roles db !! k.1.1.2) /\ is_Some (users db !! k.1.1.1) /\
    (role_is_admin db k.1.1.2 = true -> k.1.2 = SGlobal /\ k.2 = "")) H) as Hall.
  split; intros u rid k i src Hm; by destruct (Hall _ _ _ _ _ Hm) as (? & ? & ?).
Qed.

Ltac rows := repeat (apply List.Forall_cons || apply List.Forall_nil); simpl.

Lemma demo_wf : wf demo_db.
Proof.
  apply wf_of_rows. set (l := map_to_list _). vm_compute in l. subst l.
  rows; split_and!; try (by eexists); try (intros ?; done).
Qed.

Lemma demo_ann : enabled_admin demo_db "ann".
Proof. split; [by eexists|]. exists "adm", SGlobal, "", SourceOIDC. split; by vm_compute. Qed.

Lemma demo_only v : enabled_admin demo_db v -> v = "ann".
Proof.
  intros (_ & rid & k & i & src & Hm & Hr). revert Hr.
  refine (members_forall demo_db (fun kv _ => role_is_admin demo_db kv.1.1.2 = true -> kv.1.1.1 = "ann") _ v rid k i src Hm).
  set (l := map_to_list _). vm_compute in l. subst l. rows; vm_compute; done.
Qed.

Lemma guarded_ops_keep_an_admin_witness :
  has_admin (exec_ops demo_db [ODeleteUser "ann"; ODeleteRole "ops"; OGrantRole "bob" "adm" SourceLocal Roles.Global; ODeleteUser "ann"]).
Proof. apply guarded_ops_keep_an_admin; [exact demo_wf | exists "ann"; exact demo_ann | reflexivity]. Defined.

Lemma operations_keep_wf_witness :
  wf (exec_ops demo_db [OSyncOIDC "bob" [mkGrant "adm" (OnEnv "prod"); mkGrant "adm" Roles.Global]; ORevokeEnvGrants "prod"]).
Proof. apply operations_keep_wf. exact demo_wf. Defined.

Lemma sync_can_lock_out_witness :
  has_admin demo_db /\ exists db', SyncOIDCRoles demo_db "ann" [] = Ok db' /\ ~ has_admin db'.
Proof.
  split; [exists "ann"; exact demo_ann|]. apply sync_can_lock_out; [|exact demo_only].
  intros rid k i src Hm Ha. revert Ha.
  refine (members_forall demo_db (fun kv s => role_is_admin demo_db kv.1.1.2 = true -> s = SourceOIDC) _ "ann" rid k i src Hm).
  set (l := map_to_list _). vm_compute in l. subst l. rows; vm_compute; done.
Defined.

(** Two administrators: the fleet after "bob" was granted the role too. *)
Definition demo_db2 : DB := exec_op demo_db (OGrantRole "bob" "adm" SourceLocal Roles.Global).

Lemma overlapping_guards_lock_out_witness :
  refuseIfLastAdmin demo_db2 "ann" = Ok tt /\ refuseIfLastAdmin demo_db2 "bob" = Ok tt /\
  ~ has_admin (DeleteUser (DeleteUser demo_db2 "ann") "bob") /\
  ~ has_admin (SetUserDisabled (SetUserDisabled demo_db2 "ann" true) "bob" true).
Proof.
  apply overlapping_guards_lock_out; [done | | |].
  - split; [by eexists|]. exists "adm", SGlobal, "", SourceOIDC. split; by vm_compute.
  - split; [by eexists|]. exists "adm", SGlobal, "", SourceLocal. split; by vm_compute.
  - intros v ((row & Hv & _) & _). clear -Hv.
    destruct (decide (v = "ann")) as [->|Ha]; [by left|]. destruct (decide (v = "bob")) as [->|Hb]; [by right|].
    exfalso. change (users demo_db2) with (users demo_db) in Hv. simpl in Hv.
    by rewrite lookup_insert_ne, lookup_singleton_ne in Hv.
Defined.

Lemma GrantRole_scoped_witness :
  exists db', GrantRole demo_db "ann" "ops" SourceLocal (OnEnv "prod") = Ok db' /\
    role_members db' = <[("ann", "ops", SEnv, "prod") := SourceLocal]> (role_members demo_db).
Proof.
  eapply GrantRole_scoped; [done | reflexivity | | vm_compute; reflexivity | by eexists].
  intros d Hd Hh. revert d Hd Hh.
  assert (forallb (fun d => implb (Has (capsOf demo_db "ops") (DCap d)) (bool_decide (Caps.Scope d = ScopeEnv))) All = true) as H
    by (vm_compute; reflexivity).
  intros d Hd Hh. pose proof (proj1 (forallb_elem _ _) H d Hd) as Hd'. cbv beta in Hd'.
  change (Has (capsOf demo_db "ops") (DCap d) = true) in Hh. rewrite Hh in Hd'. by apply bool_decide_eq_true_1 in Hd'.
Defined.

Lemma SyncOIDCRoles_spec_witness :
  exists db', SyncOIDCRoles demo_db "bob" [mkGrant "adm" Roles.Global; mkGrant "adm" (OnEnv "prod")] = Ok db' /\
    role_members db' !! ("bob", "adm", SGlobal, "") = Some SourceOIDC /\
    role_members db' !! ("ann", "adm", SGlobal, "") = role_members demo_db !! ("ann", "adm", SGlobal, "").
Proof.
  destruct (SyncOIDCRoles demo_db "bob" [mkGrant "adm" Roles.Global; mkGrant "adm" (OnEnv "prod")]) as [db'|e] eqn:E;
    [|vm_compute in E; congruence].
  exists db'. split; [done|].
  destruct (SyncOIDCRoles_spec demo_db db' "bob" [mkGrant "adm" Roles.Global; mkGrant "adm" (OnEnv "prod")] E) as (_ & Hother & Hu).
  split; [rewrite Hu; vm_compute; reflexivity | apply Hother; done].
Defined.
