(* ===== verification/AuthStore.v ===== *)
(** * Accounts and credentials: the tables

    Models the users, sessions and break-glass tokens of [internal/store/models.go],
    [internal/store/tokens.go] and [internal/store/oidcproviders.go], on top of the
    roles and memberships of [Roles]: an account is the row [Roles] reads and the
    columns only sign-in reads; whatever a role operation removes from [Roles], the
    foreign keys of [internal/store/migrate.go] remove here. Times are instants in
    nanoseconds; a query that compares them compares the stored text. *)
From S2P Require Import Prelude GoStd Timestamps Caps CapCache Roles.
Local Open Scope string_scope.
Local Open Scope list_scope.
Local Open Scope daffa_scope.
Local Open Scope Z_scope.

(** The columns of [users] beyond [kind] and [disabled]; [""] is NULL. *)
Record Account := mkAccount { ac_username : string; ac_hash : string; ac_sub : string; ac_provider : string; ac_email : string; ac_created : Z; ac_login : option Z }.
Record Session := mkSession { ss_user : string; ss_glass : bool; ss_expires : Z }.
#[export] Instance Session_eq_dec : EqDecision Session.
Proof. solve_decision. Defined.
(** No expiry is [None]. *)
Record APIToken := mkToken { tk_id : string; tk_user : string; tk_name : string; tk_prefix : string; tk_hash : string; tk_expires : option Z; tk_created : Z; tk_used : option Z }.
#[export] Instance APIToken_eq_dec : EqDecision APIToken.
Proof. solve_decision. Defined.
Record OIDCProvider := mkProvider {
  op_id : string; op_slug : string; op_name : string; op_issuer : string; op_client : string; op_secret : string; op_redirect : string;
  op_scopes : string; op_claim : string; op_default : string; op_enabled : bool; op_created : Z }.

(** Sessions and break-glass tokens are keyed by the hash of what the bearer
    holds; [map_of] is the provider of a role mapping of [core]. *)
Record ADB := mkADB { core : DB; accounts : gmap string Account; sessions : gmap string Session; tokens : gmap string APIToken; glass : gmap string Z; providers : gmap string OIDCProvider; map_of : gmap string string }.
Inductive AErr := NoRow | Duplicate | ForeignKey | ByRole (e : StoreErr).

(** The whole row. *)
Record User := mkUser { us_id : string; us_kind : string; us_username : string; us_hash : string; us_sub : string; us_provider : string; us_email : string; us_disabled : bool }.
Definition Label (u : User) : string := if negb (bool_decide (us_username u = "")) then us_username u else if negb (bool_decide (us_email u = "")) then us_email u else us_id u.

Definition set_core (db : ADB) (c : DB) : ADB := mkADB c (accounts db) (sessions db) (tokens db) (glass db) (providers db) (map_of db).
Definition set_accounts (db : ADB) (m : gmap string Account) : ADB := mkADB (core db) m (sessions db) (tokens db) (glass db) (providers db) (map_of db).
Definition set_sessions (db : ADB) (m : gmap string Session) : ADB := mkADB (core db) (accounts db) m (tokens db) (glass db) (providers db) (map_of db).
Definition set_tokens (db : ADB) (m : gmap string APIToken) : ADB := mkADB (core db) (accounts db) (sessions db) m (glass db) (providers db) (map_of db).
Definition set_glass (db : ADB) (m : gmap string Z) : ADB := mkADB (core db) (accounts db) (sessions db) (tokens db) m (providers db) (map_of db).
Definition set_providers (db : ADB) (m : gmap string OIDCProvider) : ADB := mkADB (core db) (accounts db) (sessions db) (tokens db) (glass db) m (map_of db).
Definition set_mappings (db : ADB) (ms : gmap string MappingRow) (mo : gmap string string) : ADB :=
  mkADB (mkDB (roles (core db)) (role_caps (core db)) (role_members (core db)) (users (core db)) (environments (core db)) ms) (accounts db) (sessions db) (tokens db) (glass db) (providers db) mo.
(** What the foreign keys leave once [core] has become [c]. *)
Definition cascade (db : ADB) (c : DB) : ADB :=
  mkADB c (filter (fun kv => is_Some (users c !! kv.1)) (accounts db)) (filter (fun kv => is_Some (users c !! ss_user kv.2)) (sessions db))
    (filter (fun kv => is_Some (users c !! tk_user kv.2)) (tokens db)) (glass db) (providers db) (filter (fun kv => is_Some (oidc_role_mappings c !! kv.1)) (map_of db)).
(** An operation of [Roles]. *)
Definition on_core (db : ADB) (r : res StoreErr DB) : res AErr ADB := match r with Ok c => Ok (cascade db c) | Err e => Err (ByRole e) end.

(** ** Users *)

Definition user_of (db : ADB) (id : string) : option User :=
  match users (core db) !! id, accounts db !! id with
  | Some r, Some a => Some (mkUser id (u_kind r) (ac_username a) (ac_hash a) (ac_sub a) (ac_provider a) (ac_email a) (u_disabled r))
  | _, _ => None
  end.
Definition UserByID (db : ADB) (id : string) : res AErr User := match user_of db id with Some u => Ok u | None => Err NoRow end.
Definition account_where (db : ADB) (p : Account -> bool) : option string := fst <$> List.find (fun kv => p kv.2) (map_to_list (accounts db)).
Definition user_where (db : ADB) (p : Account -> bool) : res AErr User := match account_where db p with Some id => UserByID db id | None => Err NoRow end.
(** [NULL] equals nothing. *)
Definition UserByUsername (db : ADB) (username : string) : res AErr User :=
  user_where db (fun a => negb (bool_decide (ac_username a = "")) && bool_decide (ac_username a = username)).
Definition same_sub (provider sub : string) (a : Account) : bool :=
  negb (bool_decide (ac_provider a = "")) && negb (bool_decide (ac_sub a = "")) && bool_decide (ac_provider a = provider) && bool_decide (ac_sub a = sub).
Definition UserBySub (db : ADB) (provider sub : string) : res AErr User := user_where db (same_sub provider sub).
Definition CountUsers (db : ADB) : nat := size (users (core db)).

Definition add_user (c : DB) (id : string) (row : UserRow) : DB := mkDB (roles c) (role_caps c) (role_members c) (<[id := row]> (users c)) (environments c) (oidc_role_mappings c).
Definition CreateUser (db : ADB) (u : User) (now : Z) : res AErr ADB :=
  if bool_decide (is_Some (users (core db) !! us_id u)) then Err Duplicate
  else if negb (bool_decide (us_username u = "")) && is_ok (UserByUsername db (us_username u)) then Err Duplicate
  else if is_ok (UserBySub db (us_provider u) (us_sub u)) then Err Duplicate
  else if negb (bool_decide (us_provider u = "")) && negb (bool_decide (is_Some (providers db !! us_provider u))) then Err ForeignKey
  else Ok (set_accounts (set_core db (add_user (core db) (us_id u) (mkUserRow (us_disabled u) (us_kind u))))
             (<[us_id u := mkAccount (us_username u) (us_hash u) (us_sub u) (us_provider u) (us_email u) now None]> (accounts db))).
Definition on_account (f : Account -> Account) (id : string) (db : ADB) : ADB := set_accounts db (alter f id (accounts db)).
Definition TouchLogin (db : ADB) (id : string) (now : Z) : ADB :=
  on_account (fun a => mkAccount (ac_username a) (ac_hash a) (ac_sub a) (ac_provider a) (ac_email a) (ac_created a) (Some now)) id db.
Definition SetUserEmail (db : ADB) (id email : string) : ADB :=
  on_account (fun a => mkAccount (ac_username a) (ac_hash a) (ac_sub a) (ac_provider a) email (ac_created a) (ac_login a)) id db.
Definition SetUserPassword (db : ADB) (id hash : string) : ADB :=
  on_account (fun a => mkAccount (ac_username a) hash (ac_sub a) (ac_provider a) (ac_email a) (ac_created a) (ac_login a)) id db.

(** ** Sessions *)

Definition CreateSession (db : ADB) (id : string) (s : Session) : res AErr ADB :=
  if bool_decide (is_Some (sessions db !! id)) then Err Duplicate
  else if negb (bool_decide (is_Some (users (core db) !! ss_user s))) then Err ForeignKey
  else Ok (set_sessions db (<[id := s]> (sessions db))).
Definition DeleteSession (db : ADB) (id : string) : ADB := set_sessions db (delete id (sessions db)).
(** An expired one is deleted on the way; a disabled user's stays. *)
Definition SessionUser (db : ADB) (id : string) (now : Z) : ADB * res AErr (User * Session) :=
  match sessions db !! id with
  | None => (db, Err NoRow)
  | Some s => match user_of db (ss_user s) with
      | None => (db, Err NoRow)
      | Some u => if ss_expires s <? now then (DeleteSession db id, Err NoRow)
                  else if us_disabled u then (db, Err NoRow) else (db, Ok (u, s))
      end
  end.
Definition DeleteExpiredSessions (db : ADB) (now : Z) : ADB := set_sessions db (filter (fun kv => String.ltb (stamp (ss_expires kv.2)) (stamp now) = false) (sessions db)).

(** ** Break-glass tokens *)

Definition CreateBreakGlassToken (db : ADB) (hash : string) (expires : Z) : res AErr ADB :=
  if bool_decide (is_Some (glass db !! hash)) then Err Duplicate else Ok (set_glass db (<[hash := expires]> (glass db))).
Definition RedeemBreakGlassToken (db : ADB) (hash : string) (now : Z) : ADB * bool :=
  match glass db !! hash with
  | None => (db, false)
  | Some expires => (set_glass db (delete hash (glass db)), now <? expires)
  end.
Definition DeleteExpiredBreakGlassTokens (db : ADB) (now : Z) : ADB := set_glass db (filter (fun kv => String.ltb (stamp kv.2) (stamp now) = false) (glass db)).

(** ** API tokens *)

Definition Expired (t : APIToken) (now : Z) : bool := match tk_expires t with Some e => e <? now | None => false end.
Definition CreateAPIToken (db : ADB) (t : APIToken) : res AErr ADB :=
  if bool_decide (is_Some (tokens db !! tk_id t)) || existsb (fun kv => bool_decide (tk_hash kv.2 = tk_hash t) || (bool_decide (tk_user kv.2 = tk_user t) && bool_decide (tk_name kv.2 = tk_name t))) (map_to_list (tokens db))
  then Err Duplicate
  else if negb (bool_decide (is_Some (users (core db) !! tk_user t))) then Err ForeignKey
  else Ok (set_tokens db (<[tk_id t := t]> (tokens db))).
Definition APITokenByID (db : ADB) (id : string) : res AErr APIToken := match tokens db !! id with Some t => Ok t | None => Err NoRow end.
Definition token_with (db : ADB) (hash : string) : option APIToken := snd <$> List.find (fun kv => bool_decide (tk_hash kv.2 = hash)) (map_to_list (tokens db)).
Definition APITokenUser (db : ADB) (hash : string) (now : Z) : res AErr (User * APIToken) :=
  match token_with db hash with
  | None => Err NoRow
  | Some t => match user_of db (tk_user t) with
      | None => Err NoRow
      | Some u => if Expired t now || us_disabled u then Err NoRow else Ok (u, t)
      end
  end.
Definition TouchAPIToken (db : ADB) (id : string) (now : Z) : ADB :=
  set_tokens db (alter (fun t => mkToken (tk_id t) (tk_user t) (tk_name t) (tk_prefix t) (tk_hash t) (tk_expires t) (tk_created t) (Some now)) id (tokens db)).
Definition newer_token (a b : APIToken) : bool := tk_created b <? tk_created a.
Definition AllAPITokens (db : ADB) : list APIToken := ssort newer_token (map snd (map_to_list (tokens db))).
Definition ListAPITokens (db : ADB) (user : string) : list APIToken :=
  ssort newer_token (List.filter (fun t => bool_decide (tk_user t = user)) (map snd (map_to_list (tokens db)))).
Definition DeleteAPIToken (db : ADB) (id : string) : ADB := set_tokens db (delete id (tokens db)).

(** ** Roles held, and the roles of [Roles] under these tables *)

Record Membership := mkMembership { me_role : string; me_name : string; me_admin : bool; me_source : string; me_scope : GrantScope }.
Definition before_membership (a b : Membership) : bool :=
  (me_admin a && negb (me_admin b)) ||
  (Bool.eqb (me_admin a) (me_admin b) && (String.ltb (me_name a) (me_name b) || (bool_decide (me_name a = me_name b) && String.ltb (ID (me_scope a)) (ID (me_scope b))))).
Definition UserRoles (db : ADB) (user : string) : list Membership :=
  ssort before_membership (omap (fun kv => let '(u, rid, kind, id) := kv.1 in
    if bool_decide (u = user) then match roles (core db) !! rid with Some r => Some (mkMembership rid (r_name r) (r_is_admin r) kv.2 (mkScope kind id)) | None => None end else None)
    (map_to_list (role_members (core db)))).
(** Only the first migration makes built-in roles. *)
Definition AdminRole (db : ADB) : res AErr string :=
  match List.find (fun kv => r_is_admin kv.2 && r_builtin kv.2) (map_to_list (roles (core db))) with Some (id, _) => Ok id | None => Err NoRow end.
(** A role that is the default of a provider cannot go. *)
Definition delete_role (db : ADB) (id : string) : res AErr ADB :=
  match Roles.DeleteRole (core db) id with
  | Err e => Err (ByRole e)
  | Ok c => if existsb (fun kv => bool_decide (op_default kv.2 = id)) (map_to_list (providers db)) then Err ForeignKey else Ok (cascade db c)
  end.

(** ** Identity providers *)

Definition OIDCProviderByID (db : ADB) (id : string) : res AErr OIDCProvider := match providers db !! id with Some p => Ok p | None => Err NoRow end.
Definition OIDCProviderBySlug (db : ADB) (slug : string) : res AErr OIDCProvider :=
  match List.find (fun kv => bool_decide (op_slug kv.2 = slug)) (map_to_list (providers db)) with Some (_, p) => Ok p | None => Err NoRow end.
Definition role_exists (db : ADB) (id : string) : bool := bool_decide (id = "") || bool_decide (is_Some (roles (core db) !! id)).
Definition slug_taken (db : ADB) (id slug : string) : bool := existsb (fun kv => negb (bool_decide (kv.1 = id)) && bool_decide (op_slug kv.2 = slug)) (map_to_list (providers db)).
Definition CreateOIDCProvider (db : ADB) (p : OIDCProvider) : res AErr ADB :=
  if bool_decide (is_Some (providers db !! op_id p)) || slug_taken db (op_id p) (op_slug p) then Err Duplicate
  else if negb (role_exists db (op_default p)) then Err ForeignKey
  else Ok (set_providers db (<[op_id p := p]> (providers db))).
Definition UpdateOIDCProvider (db : ADB) (p : OIDCProvider) : res AErr ADB :=
  match providers db !! op_id p with
  | None => Err NoRow
  | Some o => if slug_taken db (op_id p) (op_slug p) then Err Duplicate
              else if negb (role_exists db (op_default p)) then Err ForeignKey
              else Ok (set_providers db (<[op_id p := mkProvider (op_id p) (op_slug p) (op_name p) (op_issuer p) (op_client p) (op_secret o) (op_redirect p) (op_scopes p) (op_claim p) (op_default p) (op_enabled p) (op_created o)]> (providers db)))
  end.
Definition SetOIDCProviderSecret (db : ADB) (id secret : string) : ADB :=
  set_providers db (alter (fun p => mkProvider (op_id p) (op_slug p) (op_name p) (op_issuer p) (op_client p) secret (op_redirect p) (op_scopes p) (op_claim p) (op_default p) (op_enabled p) (op_created p)) id (providers db)).
(** Its mappings go with it; an account it provisioned refuses. *)
Definition DeleteOIDCProvider (db : ADB) (id : string) : res AErr ADB :=
  if existsb (fun kv => bool_decide (ac_provider kv.2 = id)) (map_to_list (accounts db)) && bool_decide (is_Some (providers db !! id)) then Err ForeignKey
  else
    let gone := filter (fun kv => kv.2 = id) (map_of db) in
    Ok (set_providers (set_mappings db (filter (fun kv => gone !! kv.1 = None) (oidc_role_mappings (core db))) (filter (fun kv => kv.2 <> id) (map_of db))) (delete id (providers db))).

Record OIDCMapping := mkOMapping { ma_id : string; ma_provider : string; ma_claim : string; ma_role : string; ma_scope : GrantScope }.
Definition mapping_row (m : OIDCMapping) : MappingRow := mkMapping (ma_claim m) (ma_role m) (Kind (ma_scope m)) (ID (ma_scope m)).
#[export] Instance MappingRow_eq_dec : EqDecision MappingRow.
Proof. solve_decision. Defined.
Definition CreateOIDCMapping (db : ADB) (m : OIDCMapping) : res AErr ADB :=
  match canGrant (core db) (ma_role m) (ma_scope m) with
  | Err e => Err (ByRole e)
  | Ok _ =>
      if bool_decide (is_Some (oidc_role_mappings (core db) !! ma_id m)) ||
         existsb (fun kv => bool_decide (kv.2 = mapping_row m) && bool_decide (map_of db !! kv.1 = Some (ma_provider m))) (map_to_list (oidc_role_mappings (core db))) then Err Duplicate
      else if negb (bool_decide (is_Some (providers db !! ma_provider m))) || negb (bool_decide (is_Some (roles (core db) !! ma_role m))) then Err ForeignKey
      else Ok (set_mappings db (<[ma_id m := mapping_row m]> (oidc_role_mappings (core db))) (<[ma_id m := ma_provider m]> (map_of db)))
  end.
Definition DeleteOIDCMapping (db : ADB) (id : string) : ADB := set_mappings db (delete id (oidc_role_mappings (core db))) (delete id (map_of db)).
#[export] Instance GrantScope_eq_dec : EqDecision GrantScope.
Proof. solve_decision. Defined.
#[export] Instance ScopedGrant_eq_dec : EqDecision ScopedGrant.
Proof. solve_decision. Defined.
(** [SELECT DISTINCT]: a union, in no particular order. *)
Definition RolesForClaims (db : ADB) (provider : string) (values : list string) : list ScopedGrant :=
  remove_dups (omap (fun kv => if bool_decide (map_of db !! kv.1 = Some provider) && bool_decide (om_claim kv.2 ∈ values)
                               then Some (mkGrant (om_role kv.2) (mkScope (om_kind kv.2) (om_scope_id kv.2))) else None) (map_to_list (oidc_role_mappings (core db)))).
