(* ===== verification/Passwords.v ===== *)
(** * Passwords and random tokens

    Models [internal/auth/password.go] and the token functions of
    [internal/auth/session.go]: the PHC string a password is stored as, written and
    read back, and the text of random tokens. The key derivation of argon2 is a
    parameter; base64 without padding and the part of [fmt.Sscanf] that is used are
    modelled. Random bytes are arguments. *)
From stdpp Require Import pretty.
From S2P Require Import Prelude GoStd.
Local Open Scope string_scope.
Local Open Scope list_scope.
Local Open Scope daffa_scope.
Local Open Scope Z_scope.

Module base64.
Definition char_code (c : ascii) : Z := Z.of_nat (nat_of_ascii c).
Definition chr (z : Z) : ascii := ascii_of_nat (Z.to_nat z).
(** The two last digits tell the alphabets apart. *)
Definition digit (c62 c63 : ascii) (i : Z) : ascii :=
  if i <? 26 then chr (65 + i) else if i <? 52 then chr (71 + i) else if i <? 62 then chr (i - 4) else if i =? 62 then c62 else c63.
Definition value (c62 c63 c : ascii) : option Z :=
  let z := char_code c in
  if bool_decide (c = c62) then Some 62 else if bool_decide (c = c63) then Some 63
  else if (65 <=? z) && (z <=? 90) then Some (z - 65) else if (97 <=? z) && (z <=? 122) then Some (z - 71) else if (48 <=? z) && (z <=? 57) then Some (z + 4) else None.

Section Alphabet.
Context (c62 c63 : ascii).
#[local] Abbreviation D := (digit c62 c63).
Fixpoint encode (s : string) : string :=
  match s with
  | EmptyString => EmptyString
  | String a EmptyString => let x := char_code a in String (D (x / 4)) (String (D (x mod 4 * 16)) EmptyString)
  | String a (String b EmptyString) => let x := char_code a in let y := char_code b in String (D (x / 4)) (String (D (x mod 4 * 16 + y / 16)) (String (D (y mod 16 * 4)) EmptyString))
  | String a (String b (String c s)) => let x := char_code a in let y := char_code b in let z := char_code c in
      String (D (x / 4)) (String (D (x mod 4 * 16 + y / 16)) (String (D (y mod 16 * 4 + z / 64)) (String (D (z mod 64)) (encode s))))
  end.
(** Line breaks are skipped; the unused bits of a last digit are not looked at. *)
Fixpoint values (s : string) : option (list Z) :=
  match s with
  | EmptyString => Some []
  | String c s => if bool_decide (c = "010"%char) || bool_decide (c = "013"%char) then values s
                  else match value c62 c63 c, values s with Some v, Some vs => Some (v :: vs) | _, _ => None end
  end.
Fixpoint bytes (vs : list Z) : option string :=
  match vs with
  | [] => Some EmptyString
  | [v; w] => Some (String (chr (v * 4 + w / 16)) EmptyString)
  | [v; w; x] => Some (String (chr (v * 4 + w / 16)) (String (chr (w mod 16 * 16 + x / 4)) EmptyString))
  | v :: w :: x :: y :: vs => match bytes vs with
      | Some s => Some (String (chr (v * 4 + w / 16)) (String (chr (w mod 16 * 16 + x / 4)) (String (chr (x mod 4 * 64 + y)) s))) | None => None end
  | [_] => None
  end.
Definition decode (s : string) : option string := match values s with Some vs => bytes vs | None => None end.
End Alphabet.

Definition RawStdEncode : string -> string := encode "+" "/".
Definition RawStdDecode : string -> option string := decode "+" "/".
Definition RawURLEncode : string -> string := encode "-" "_".

(** Every digit is read back and is not a line break. *)
Definition alphabet_ok (c62 c63 : ascii) : bool :=
  forallb (fun n => let d := digit c62 c63 (Z.of_nat n) in bool_decide (value c62 c63 d = Some (Z.of_nat n)) && negb (bool_decide (d = "010"%char)) && negb (bool_decide (d = "013"%char))) (seq 0 64).
Lemma alphabet_spec c62 c63 i : alphabet_ok c62 c63 = true -> 0 <= i < 64 ->
  value c62 c63 (digit c62 c63 i) = Some i /\ digit c62 c63 i <> "010"%char /\ digit c62 c63 i <> "013"%char.
Proof.
  intros H Hi. unfold alphabet_ok in H. rewrite forallb_elem in H. specialize (H (Z.to_nat i) ltac:(apply elem_of_seq; lia)). cbv zeta in H. rewrite Z2Nat.id in H by lia. by bd.
Qed.
Lemma code_range c : 0 <= char_code c < 256.
Proof. unfold char_code. pose proof (nat_ascii_bounded c). lia. Qed.
Lemma chr_code c : chr (char_code c) = c.
Proof. unfold chr, char_code. by rewrite Nat2Z.id, ascii_nat_embedding. Qed.
Lemma values_digit c62 c63 i s : alphabet_ok c62 c63 = true -> 0 <= i < 64 -> values c62 c63 (String (digit c62 c63 i) s) = match values c62 c63 s with Some vs => Some (i :: vs) | None => None end.
Proof. intros H Hi. destruct (alphabet_spec c62 c63 i H Hi) as (H1 & H2 & H3). cbn [values]. by rewrite !bool_decide_eq_false_2, H1. Qed.

Ltac euclid := Z.to_euclidean_division_equations; lia.
Lemma first_byte x y : 0 <= x < 256 -> 0 <= y < 256 -> x / 4 * 4 + (x mod 4 * 16 + y / 16) / 16 = x.
Proof. intros. euclid. Qed.
Lemma second_byte x y z : 0 <= x < 256 -> 0 <= y < 256 -> 0 <= z < 256 -> (x mod 4 * 16 + y / 16) mod 16 * 16 + (y mod 16 * 4 + z / 64) / 4 = y.
Proof. intros. euclid. Qed.
Lemma third_byte y z : 0 <= y < 256 -> 0 <= z < 256 -> (y mod 16 * 4 + z / 64) mod 4 * 64 + z mod 64 = z.
Proof. intros. euclid. Qed.

(** What was encoded is decoded. *)
Lemma b64_back c62 c63 : alphabet_ok c62 c63 = true -> forall s, decode c62 c63 (encode c62 c63 s) = Some s.
Proof.
  intros H. assert (forall n s, (String.length s <= n)%nat -> exists vs, values c62 c63 (encode c62 c63 s) = Some vs /\ bytes vs = Some s) as Hn.
  { induction n as [|n IH]; intros s Hs; [destruct s; [by exists []|simpl in Hs; lia]|].
    destruct s as [|a [|b [|c s]]]; [by exists []| | |]; pose proof (code_range a) as Ha.
    - cbn [encode]. cbv zeta. rewrite !values_digit by (done || euclid). eexists. split; [reflexivity|]. cbn [bytes].
      pose proof (first_byte (char_code a) 0 Ha ltac:(lia)) as E. rewrite Z.add_0_r in E. by rewrite E, chr_code.
    - pose proof (code_range b) as Hb. cbn [encode]. cbv zeta. rewrite !values_digit by (done || euclid). eexists. split; [reflexivity|]. cbn [bytes].
      pose proof (second_byte (char_code a) (char_code b) 0 Ha Hb ltac:(lia)) as E. rewrite Z.add_0_r in E. by rewrite first_byte, E, !chr_code by done.
    - pose proof (code_range b) as Hb. pose proof (code_range c) as Hc. destruct (IH s ltac:(simpl in Hs; lia)) as (vs & Hv & Hbs). cbn [encode]. cbv zeta. rewrite !values_digit by (done || euclid). rewrite Hv.
      eexists. split; [reflexivity|]. cbn [bytes]. by rewrite Hbs, first_byte, second_byte, third_byte, !chr_code by done. }
  intros s. destruct (Hn (String.length s) s ltac:(lia)) as (vs & Hv & Hb). unfold decode. by rewrite Hv.
Qed.
Lemma encode_inj c62 c63 s t : alphabet_ok c62 c63 = true -> encode c62 c63 s = encode c62 c63 t -> s = t.
Proof. intros H E. pose proof (b64_back c62 c63 H s) as Hs. rewrite E, (b64_back c62 c63 H t) in Hs. by injection Hs. Qed.
Lemma RawStd_back s : RawStdDecode (RawStdEncode s) = Some s.
Proof. by apply b64_back. Qed.
Lemma RawURL_inj s t : RawURLEncode s = RawURLEncode t -> s = t.
Proof. by apply encode_inj. Qed.
(** No digit is the separator of a stored password. *)
Lemma encode_plain c62 c63 c s : forallb (fun n => negb (bool_decide (digit c62 c63 (Z.of_nat n) = c))) (seq 0 64) = true -> no_char c (encode c62 c63 s).
Proof.
  intros H. assert (forall i, 0 <= i < 64 -> bool_decide (digit c62 c63 i = c) = false) as Hd.
  { intros i Hi. rewrite forallb_elem in H. specialize (H (Z.to_nat i) ltac:(apply elem_of_seq; lia)). rewrite Z2Nat.id in H by lia. by apply negb_true_iff in H. }
  assert (forall n s, (String.length s <= n)%nat -> no_char c (encode c62 c63 s)) as Hn; [|by apply (Hn (String.length s))].
  unfold no_char. induction n as [|n IH]; intros t Ht; [destruct t; [done|simpl in Ht; lia]|].
  destruct t as [|x [|y [|z t]]]; [done| | |]; pose proof (code_range x).
  - cbn [encode]. cbv zeta. cbn [strings.has_char]. rewrite !Hd by euclid. done.
  - pose proof (code_range y). cbn [encode]. cbv zeta. cbn [strings.has_char]. rewrite !Hd by euclid. done.
  - pose proof (code_range y). pose proof (code_range z). cbn [encode]. cbv zeta. cbn [strings.has_char]. rewrite !Hd by euclid. simpl. apply IH. simpl in Ht. lia.
Qed.
End base64.

(** ** [fmt.Sscanf], as far as it is used *)

Fixpoint scan_digits (acc : Z) (s : string) : Z * string :=
  match s with
  | EmptyString => (acc, s)
  | String c r => match strconv.digit c with Some d => scan_digits (acc * 10 + d) r | None => (acc, s) end
  end.
(** A line break is an error. *)
Fixpoint skip_space (fuel : nat) (s : string) : option string :=
  if strings.HasPrefix s (String "010" "") then None
  else match fuel, strings.strip_one strings.spaces s with S fuel, Some r => skip_space fuel r | _, _ => Some s end.
Definition scan_literal (lit s : string) : option string := if strings.HasPrefix s lit then Some (strings.drop (String.length lit) s) else None.
Definition scan_number (s : string) : option (Z * string) :=
  match s with String c _ => if strconv.digit c is Some _ then Some (scan_digits 0 s) else None | EmptyString => None end.
Definition scan_int (s : string) : option (Z * string) :=
  match skip_space (String.length s) s with
  | None => None
  | Some s =>
      let '(neg, s) := match s with String c r => if bool_decide (c = "-"%char) then (true, r) else if bool_decide (c = "+"%char) then (false, r) else (false, s) | EmptyString => (false, s) end in
      match scan_number s with
      | Some (n, r) => let v := if neg then - n else n in if (- 2^63 <=? v) && (v <? 2^63) then Some (v, r) else None
      | None => None
      end
  end.
Definition scan_uint (bits : Z) (s : string) : option (Z * string) :=
  match skip_space (String.length s) s with
  | None => None
  | Some s => match scan_number s with Some (n, r) => if n <? 2^bits then Some (n, r) else None | None => None end
  end.

(** ** Stored passwords *)

Record argonParams := mkParams { ap_time : Z; ap_memory : Z; ap_threads : Z; ap_keyLen : Z }.
Definition defaultParams : argonParams := mkParams 3 65536 4 32.
Definition argon2_Version : Z := 19.
Inductive PasswordVerdict := Accepted | ErrBadPassword | Unreadable (what : string).
#[export] Instance PasswordVerdict_eq_dec : EqDecision PasswordVerdict.
Proof. solve_decision. Defined.

(** The derivation of a key: password, salt, parameters. *)
Class Argon := IDKey : string -> string -> argonParams -> string.
Class ArgonLaw (A : Argon) : Prop := key_length : forall password salt p, 0 <= ap_keyLen p -> Z.of_nat (String.length (IDKey password salt p)) = ap_keyLen p.

Section Argon.
Context {A : Argon}.
Definition HashPassword (salt password : string) : string :=
  let p := defaultParams in
  "$argon2id$v=" +:+ pretty argon2_Version +:+ "$m=" +:+ pretty (ap_memory p) +:+ ",t=" +:+ pretty (ap_time p) +:+ ",p=" +:+ pretty (ap_threads p) +:+ "$" +:+
  base64.RawStdEncode salt +:+ "$" +:+ base64.RawStdEncode (IDKey password salt p).
Definition scan_version (s : string) : option Z := match scan_literal "v=" s with Some s => fst <$> scan_int s | None => None end.
Definition scan_params (s : string) : option (Z * Z * Z) :=
  s ← scan_literal "m=" s; '(m, s) ← scan_uint 32 s; s ← scan_literal ",t=" s; '(t, s) ← scan_uint 32 s; s ← scan_literal ",p=" s; '(p, _) ← scan_uint 8 s; Some (m, t, p).
Definition VerifyPassword (encoded password : string) : PasswordVerdict :=
  match strings.Split encoded "$" with
  | [_; id; version; params; salt; hash] =>
      if negb (bool_decide (id = "argon2id")) then Unreadable "format"
      else match scan_version version with
      | None => Unreadable "version"
      | Some v =>
          if negb (bool_decide (v = argon2_Version)) then Unreadable "unsupported version"
          else match scan_params params with
          | None => Unreadable "params"
          | Some (m, t, p) =>
              match base64.RawStdDecode salt with
              | None => Unreadable "salt"
              | Some salt => match base64.RawStdDecode hash with
                  | None => Unreadable "hash"
                  | Some want => if bool_decide (IDKey password salt (mkParams t m p (Z.of_nat (String.length want))) = want) then Accepted else ErrBadPassword
                  end
              end
          end
      end
  | _ => Unreadable "format"
  end.

(** C40: A password that was hashed is read back: it is accepted, and another one
    exactly when it derives the same key. *)
Theorem verify_hash `{!ArgonLaw A} salt password other :
  VerifyPassword (HashPassword salt password) other = if bool_decide (IDKey other salt defaultParams = IDKey password salt defaultParams) then Accepted else ErrBadPassword.
Proof.
  set (key := IDKey password salt defaultParams).
  assert (HashPassword salt password = "" +:+ String "$" ("argon2id" +:+ String "$" ("v=19" +:+ String "$" ("m=65536,t=3,p=4" +:+ String "$" (base64.RawStdEncode salt +:+ String "$" (base64.RawStdEncode key)))))) as -> by reflexivity.
  unfold VerifyPassword. rewrite !Split_app, Split_one by (reflexivity || by apply base64.encode_plain). cbv beta iota.
  rewrite bool_decide_eq_true_2 by done. assert (scan_version "v=19" = Some 19) as -> by reflexivity. assert (scan_params "m=65536,t=3,p=4" = Some (65536, 3, 4)) as -> by reflexivity. rewrite !base64.RawStd_back. cbn [negb].
  rewrite bool_decide_eq_true_2 by done. cbn [negb]. assert (mkParams 3 65536 4 (Z.of_nat (String.length key)) = defaultParams) as -> by (unfold key; by rewrite (key_length password salt defaultParams)). reflexivity.
Qed.
End Argon.

(** ** Tokens *)

Definition TokenPrefix : string := "daffa_".
(** [newToken] and [randomToken], of 32 random bytes. *)
Definition newToken (random : string) : string := base64.RawURLEncode random.
Definition NewAPIToken (random : string) : string := TokenPrefix +:+ newToken random.
(** What is stored of a bearer credential; the digest is SHA-256. *)
Class Digest := sha256 : string -> string.
Definition HashToken `{!Digest} (token : string) : string := base64.RawURLEncode (sha256 token).
