(* ===== verification/Auth.v ===== *)
(** * Sessions, the login throttle and the gates of a request

    Models [internal/auth/session.go], [internal/auth/ratelimit.go],
    [internal/auth/middleware.go] and, of [internal/api/server.go], [guard],
    [recordDenial] and [audit]: who is behind a request, what it may do, and what is
    written down. A handler runs to its end before the next one; where two of them
    can overlap the halves are definitions of their own. Random values and the time
    are arguments. *)
From S2P Require Import Prelude GoStd Caps CapCache Roles AuthStore Passwords.
Local Open Scope string_scope.
Local Open Scope list_scope.
Local Open Scope daffa_scope.
Local Open Scope Z_scope.

Definition second : Z := 1000000000.
Definition minute : Z := 60 * second.
Definition hour : Z := 60 * minute.

(** ** The throttle *)

Record Bucket := mkBucket { bk_count : nat; bk_until : Z }.
Record Limits := mkLimits { li_max : nat; li_window : Z }.
(** As [NewServer] sets it. *)
Definition loginLimits : Limits := mkLimits 10 (15 * minute).
Section Limiter.
Context (l : Limits).
Definition live_bucket (m : gmap string Bucket) (key : string) (now : Z) : option Bucket :=
  match m !! key with Some b => if bk_until b <? now then None else Some b | None => None end.
Definition Allow (m : gmap string Bucket) (key : string) (now : Z) : bool := match live_bucket m key now with None => true | Some b => (bk_count b <? li_max l)%nat end.
Definition Fail (m : gmap string Bucket) (key : string) (now : Z) : gmap string Bucket :=
  <[key := match live_bucket m key now with None => mkBucket 1 (now + li_window l) | Some b => mkBucket (S (bk_count b)) (bk_until b) end]> m.
Definition Reset (m : gmap string Bucket) (key : string) : gmap string Bucket := delete key m.
End Limiter.

(** ** The server *)

Record AuditLine := mkLine { al_user : string; al_label : string; al_action : string; al_target : string; al_outcome : string; al_reason : string }.
(** A sign-in at a provider that is under way. *)
Record StateEntry := mkState { se_verifier : string; se_provider : string; se_expires : Z }.
#[export] Instance StateEntry_eq_dec : EqDecision StateEntry.
Proof. solve_decision. Defined.
(** [w_caps] is the cache of masks, [w_rps] the relying parties that were built,
    each with the row of the provider it was built from; [w_told] counts the
    messages about a break-glass sign-in. *)
Record Web := mkWeb { w_db : ADB; w_caps : gmap string ScopedMask; w_limiter : gmap string Bucket; w_states : gmap string StateEntry; w_rps : gmap string OIDCProvider; w_audit : list AuditLine; w_told : nat }.
Definition with_db (w : Web) (db : ADB) : Web := mkWeb db (w_caps w) (w_limiter w) (w_states w) (w_rps w) (w_audit w) (w_told w).
Definition with_limiter (w : Web) (m : gmap string Bucket) : Web := mkWeb (w_db w) (w_caps w) m (w_states w) (w_rps w) (w_audit w) (w_told w).
Definition with_states (w : Web) (m : gmap string StateEntry) : Web := mkWeb (w_db w) (w_caps w) (w_limiter w) m (w_rps w) (w_audit w) (w_told w).
Definition with_rps (w : Web) (m : gmap string OIDCProvider) : Web := mkWeb (w_db w) (w_caps w) (w_limiter w) (w_states w) m (w_audit w) (w_told w).
Definition logged (w : Web) (line : AuditLine) : Web := mkWeb (w_db w) (w_caps w) (w_limiter w) (w_states w) (w_rps w) (w_audit w ++ [line]) (w_told w).
Definition told (w : Web) : Web := mkWeb (w_db w) (w_caps w) (w_limiter w) (w_states w) (w_rps w) (w_audit w) (S (w_told w)).

(** The cache of [CapCache], over the tables of [Roles]. *)
Definition cache_of (w : Web) : CapCache.world (DB := DB) := CapCache.World (core (w_db w)) (w_caps w) [] 0.
Definition with_cache (w : Web) (c : CapCache.world (DB := DB)) : Web := mkWeb (w_db w) (CapCache.cached c) (w_limiter w) (w_states w) (w_rps w) (w_audit w) (w_told w).
Definition caps_Of (w : Web) (user : string) : option ScopedMask * Web := let '(m, c) := CapCache.Of (cache_of w) user in (m, with_cache w c).
Definition caps_Invalidate (w : Web) : Web := with_cache w (CapCache.Invalidate (cache_of w)).

(** ** Who is behind a request *)

(** The headers the gates read, [""] when absent; the cookie is the one of the
    session manager; [rq_value] are the path's values. *)
Record HttpRequest := mkReq { rq_authorization : string; rq_cookie : string; rq_method : string; rq_path : string; rq_value : string -> string; rq_site : string; rq_origin : string; rq_host : string }.
Record Caller := mkCaller { ca_user : User; ca_mask : ScopedMask; ca_token : option APIToken }.
Inductive Refusal := Unauthenticated | Broken | Missing (c : Cap) | CrossSite.

Section Manager.
Context {dg : Digest} (ttl : Z).

(** The cookie's value comes back with the state. *)
Definition Issue (w : Web) (user : string) (breakGlass : bool) (random : string) (now : Z) : Web * res AErr string :=
  let token := newToken random in
  let expires := if breakGlass then now + hour else now + ttl in
  match CreateSession (w_db w) (HashToken token) (mkSession user breakGlass expires) with
  | Err e => (w, Err e)
  | Ok db => (with_db w (TouchLogin db user now), Ok token)
  end.
Definition Revoke (w : Web) (rq : HttpRequest) : Web := if bool_decide (rq_cookie rq = "") then w else with_db w (DeleteSession (w_db w) (HashToken (rq_cookie rq))).

Definition attachCaps (w : Web) (u : User) (tok : option APIToken) : Web * res Refusal Caller :=
  match caps_Of w (us_id u) with
  | (None, w) => (w, Err Broken)
  | (Some m, w) => (w, Ok (mkCaller u m tok))
  end.
(** A use is written at most once a minute. *)
Definition touch (w : Web) (t : APIToken) (now : Z) : Web :=
  if match tk_used t with Some u => minute <? now - u | None => true end then with_db w (TouchAPIToken (w_db w) (tk_id t) now) else w.
Definition resolveToken (w : Web) (secret : string) (now : Z) : Web * res Refusal Caller :=
  match APITokenUser (w_db w) (HashToken secret) now with
  | Err _ => (w, Err Unauthenticated)
  | Ok (u, t) => match attachCaps w u (Some t) with (w, Ok c) => (touch w t now, Ok c) | other => other end
  end.
(** A bearer header wins over a cookie. *)
Definition Resolve (w : Web) (rq : HttpRequest) (now : Z) : Web * res Refusal Caller :=
  if strings.HasPrefix (rq_authorization rq) ("Bearer " +:+ TokenPrefix) then resolveToken w (strings.TrimPrefix (rq_authorization rq) "Bearer ") now
  else if bool_decide (rq_cookie rq = "") then (w, Err Unauthenticated)
  else match SessionUser (w_db w) (HashToken (rq_cookie rq)) now with
  | (db, Err _) => (with_db w db, Err Unauthenticated)
  | (db, Ok (u, _)) => attachCaps (with_db w db) u None
  end.

(** ** The gates *)

Definition safe_method (m : string) : bool := bool_decide (m = "GET") || bool_decide (m = "HEAD") || bool_decide (m = "OPTIONS").
(** [fold] is [strings.EqualFold], [host] what [url.Parse] calls the host. *)
Definition originMatches (fold : string -> string -> bool) (host : string -> option string) (origin selfOrigin : string) (rq : HttpRequest) : bool :=
  if negb (bool_decide (selfOrigin = "")) && fold origin selfOrigin then true else match host origin with Some h => fold h (rq_host rq) | None => false end.
(** [None]: the request goes through. *)
Definition CSRF (fold : string -> string -> bool) (host : string -> option string) (selfOrigin : string) (rq : HttpRequest) : option Refusal :=
  if safe_method (rq_method rq) then None
  else if negb (bool_decide (rq_site rq = "")) then
    if negb (bool_decide (rq_site rq = "same-origin")) && negb (bool_decide (rq_site rq = "none")) then Some CrossSite else None
  else if bool_decide (rq_origin rq = "") then None
  else if originMatches fold host (rq_origin rq) selfOrigin rq then None else Some CrossSite.

(** [audit] names the token beside the user. *)
Definition caller_label (c : Caller) : string := Label (ca_user c) +:+ match ca_token c with Some t => " (token: " +:+ tk_name t +:+ ")" | None => "" end.
Definition audit (w : Web) (c : Caller) (action target outcome reason : string) : Web := logged w (mkLine (us_id (ca_user c)) (caller_label c) action target outcome reason).
Definition cap_Name (c : Cap) : string := match List.find (fun d => bool_decide (DCap d = c)) All with Some d => Name d | None => "" end.
Definition first_of (a b : string) : string := if bool_decide (a = "") then b else a.
(** [/api/clusters/{cluster}/<resource>/...]. *)
Definition resourceFromPath (p : string) : string := match strings.Split (strings.Trim p "/") "/" with _ :: _ :: _ :: r :: _ => strings.TrimSuffix r "s" | _ => "resource" end.
Definition denied_action (rq : HttpRequest) : string :=
  if negb (bool_decide (rq_value rq "action" = "")) then "container." +:+ rq_value rq "action"
  else if negb (bool_decide (rq_value rq "target" = "")) then "prune." +:+ rq_value rq "target"
  else if strings.HasSuffix (rq_path rq) "/exec" then "container.exec"
  else if bool_decide (rq_method rq = "DELETE") then resourceFromPath (rq_path rq) +:+ ".remove"
  else rq_method rq +:+ " " +:+ rq_path rq.
Definition recordDenial (w : Web) (rq : HttpRequest) (c : Caller) (missing : Cap) : Web :=
  audit w c (denied_action rq) (first_of (rq_value rq "id") (rq_value rq "name")) "denied" ("missing_capability:" +:+ cap_Name missing).
(** [Require] and then the route's capability, fleet-wide; [None]: the route is
    open to whoever is signed in. *)
Definition enter (w : Web) (need : option Cap) (rq : HttpRequest) (now : Z) : Web * res Refusal Caller :=
  match Resolve w rq now with
  | (w, Err e) => (w, Err e)
  | (w, Ok c) => match need with
      | None => (w, Ok c)
      | Some cap => if ScopedHas (ca_mask c) cap "" then (w, Ok c) else (recordDenial w rq c cap, Err (Missing cap))
      end
  end.
End Manager.
