(* ===== verification/SignIn.v ===== *)
(** * Signing in, and who may

    Models [internal/api/auth_handlers.go], [internal/api/token_handlers.go],
    [internal/api/user_handlers.go], [internal/api/oidc_handlers.go],
    [internal/auth/oidc.go] and the account commands of [cmd/daffa/main.go]:
    password, provider and break-glass sign-in, API tokens, users and their roles,
    identity providers. What an identity provider answers, sealing, the parser of
    addresses and the lower case of letters are arguments. *)
From S2P Require Import Prelude GoStd Caps CapCache Roles Keyrings AuthStore Passwords Auth.
Local Open Scope string_scope.
Local Open Scope list_scope.
Local Open Scope daffa_scope.
Local Open Scope Z_scope.

(** What is answered: a status and a code when it is not what was asked for. *)
Inductive WebReply (A : Type) := Done (a : A) | Failed (status : Z) (code : string).
Arguments Done {A} a.
Arguments Failed {A} status code.
Abbreviation BadRequest := (Failed 400 "bad_request").
Abbreviation Internal := (Failed 500 "internal").

(** Half the key of the throttle; [host_port] is [net.SplitHostPort]. *)
Definition clientIP (trustProxy : bool) (host_port : string -> option string) (xff remote : string) : string :=
  let last := match last (strings.Split xff ",") with Some l => strings.TrimSpace l | None => "" end in
  if trustProxy && negb (bool_decide (xff = "")) && negb (bool_decide (last = "")) then last
  else match host_port remote with Some h => h | None => remote end.

(** ** Identity providers *)

(** What a claim can be: in a list, an item that is no string is [None]; [ARaw] is
    a message still to be decoded, [ABad] one that cannot be. *)
Inductive Any := ANil | AStr (s : string) | AList (l : list (option string)) | AStrs (l : list string) | AMap (keys : list string) | ARaw (decoded : Any) | ABad | AOther.
Fixpoint claimValues (v : Any) : list string :=
  match v with
  | AStr s => [s]
  | AList l => omap id l
  | AStrs l => l
  | AMap keys => keys
  | ARaw d => claimValues d
  | ANil | ABad | AOther => []
  end.
Record Identity := mkIdentity { id_sub : string; id_email : string; id_claims : list (string * Any) }.
Definition claim (id : Identity) (name : string) : Any := match List.find (fun kv => bool_decide (kv.1 = name)) (id_claims id) with Some (_, v) => v | None => ANil end.
Definition ClaimValues (p : OIDCProvider) (id : Identity) : list string := if bool_decide (op_claim p = "") then [] else claimValues (claim id (op_claim p)).

(** [stateStore]. *)
Definition put (m : gmap string StateEntry) (state verifier provider : string) (now : Z) : gmap string StateEntry :=
  <[state := mkState verifier provider (now + 10 * minute)]> (filter (fun kv => now <= se_expires kv.2) m).
Definition take (m : gmap string StateEntry) (state : string) (now : Z) : gmap string StateEntry * option StateEntry :=
  (delete state m, match m !! state with Some e => if se_expires e <? now then None else Some e | None => None end).

Section Handlers.
Context {dg : Digest} {ar : Argon} (ttl : Z) (parseAddress : string -> option (string * string)) (lower : string -> string) (Seal Open : string -> option string).

(** [Registry.For]: built once for a provider, from the row it was given.
    [reach]: discovery succeeds. *)
Definition For (w : Web) (p : OIDCProvider) (reach : bool) : Web * option OIDCProvider :=
  match w_rps w !! op_id p with
  | Some rp => (w, Some rp)
  | None => match (if bool_decide (op_secret p = "") then Some "" else Open (op_secret p)) with
            | None => (w, None)
            | Some _ => if reach then (with_rps w (<[op_id p := p]> (w_rps w)), Some p) else (w, None)
            end
  end.
Definition Forget (w : Web) (id : string) : Web := with_rps w (delete id (w_rps w)).
Definition BySlug (w : Web) (slug : string) (reach : bool) : Web * WebReply OIDCProvider :=
  match OIDCProviderBySlug (w_db w) slug with
  | Err _ => (w, Failed 404 "unknown_provider")
  | Ok p => if negb (op_enabled p) then (w, Failed 404 "unknown_provider")
            else match For w p reach with (w, Some rp) => (w, Done rp) | (w, None) => (w, Internal) end
  end.

(** ** Passwords *)

(** [failLogin]. *)
Definition failLogin (w : Web) (key username reason : string) (now : Z) : Web :=
  logged (with_limiter w (Fail loginLimits (w_limiter w) key now)) (mkLine "" "" "auth.login" username "denied" reason).
Definition login_key (username ip : string) : string := username +:+ "|" +:+ ip.
(** The throttle is asked at [now]; the password has been derived by [later].
    The cookie comes back. *)
Definition handleLocalLogin (localAuth : bool) (w : Web) (username password ip random : string) (now later : Z) : Web * WebReply string :=
  if negb localAuth then (w, Failed 403 "local_auth_disabled")
  else
    let username := strings.TrimSpace username in
    if bool_decide (username = "") || bool_decide (password = "") then (w, BadRequest)
    else
      let key := login_key username ip in
      if negb (Allow loginLimits (w_limiter w) key now) then (logged w (mkLine "" "" "auth.login" username "denied" "rate_limited"), Failed 429 "rate_limited")
      else match UserByUsername (w_db w) username with
      | Err NoRow => (failLogin w key username "unknown_or_disabled" later, Failed 401 "invalid_credentials")
      | Err _ => (w, Internal)
      | Ok u =>
          if negb (bool_decide (us_kind u = "local")) || us_disabled u then (failLogin w key username "unknown_or_disabled" later, Failed 401 "invalid_credentials")
          else if negb (bool_decide (VerifyPassword (us_hash u) password = Accepted)) then (failLogin w key username "bad_password" later, Failed 401 "invalid_credentials")
          else match Issue ttl (with_limiter w (Reset (w_limiter w) key)) (us_id u) false random later with
          | (w, Err _) => (w, Internal)
          | (w, Ok cookie) =>
              let w := logged w (mkLine (us_id u) (Label u) "auth.login" "" "ok" "") in
              match caps_Of w (us_id u) with (None, w) => (w, Internal) | (Some _, w) => (w, Done cookie) end
          end
      end.

(** ** Providers *)

Definition hasLocalRole (ms : list Membership) : bool := existsb (fun m => bool_decide (me_source m = SourceLocal)) ms.
Inductive Resolved := Known (u : User) | NoRoles | Wrong.
Definition on_db (w : Web) (r : res AErr ADB) : option Web := match r with Ok db => Some (with_db w db) | Err _ => None end.
(** [id] is of a new user, if there has to be one. *)
Definition resolveOIDCUser (w : Web) (p : OIDCProvider) (idt : Identity) (id : string) (now : Z) : Web * Resolved :=
  let grants := RolesForClaims (w_db w) (op_id p) (ClaimValues p idt) in
  let grants := match grants with [] => if bool_decide (op_default p = "") then [] else [mkGrant (op_default p) Roles.Global] | _ => grants end in
  match UserBySub (w_db w) (op_id p) (id_sub idt) with
  | Ok u =>
      if match grants with [] => negb (hasLocalRole (UserRoles (w_db w) (us_id u))) | _ => false end then (w, NoRoles)
      else match on_db w (on_core (w_db w) (SyncOIDCRoles (core (w_db w)) (us_id u) grants)) with
      | None => (w, Wrong)
      | Some w =>
          let w := caps_Invalidate w in
          if negb (bool_decide (id_email idt = "")) && negb (bool_decide (id_email idt = us_email u)) then
            (with_db w (SetUserEmail (w_db w) (us_id u) (id_email idt)), Known (mkUser (us_id u) (us_kind u) (us_username u) (us_hash u) (us_sub u) (us_provider u) (id_email idt) (us_disabled u)))
          else (w, Known u)
      end
  | Err NoRow =>
      match grants with
      | [] => (w, NoRoles)
      | _ =>
          let u := mkUser id "oidc" "" "" (id_sub idt) (op_id p) (id_email idt) false in
          match on_db w (CreateUser (w_db w) u now) with
          | None => (w, Wrong)
          | Some w => match on_db w (on_core (w_db w) (SyncOIDCRoles (core (w_db w)) id grants)) with
              | None => (w, Wrong)
              | Some w => (caps_Invalidate w, Known u)
              end
          end
      end
  | Err _ => (w, Wrong)
  end.
(** The state comes back, in the address of the provider. *)
Definition handleOIDCStart (w : Web) (slug : string) (reach : bool) (random random' : string) (now : Z) : Web * WebReply string :=
  match BySlug w slug reach with
  | (w, Failed s c) => (w, Failed s c)
  | (w, Done rp) => let state := newToken random in (with_states w (put (w_states w) state (newToken random') (op_id rp) now), Done state)
  end.
(** [exchange]: what the provider makes of the code and the verifier. *)
Definition handleOIDCCallback (w : Web) (slug qerror state code : string) (reach : bool) (exchange : OIDCProvider -> string -> string -> option Identity) (id random : string) (now : Z) : Web * WebReply string :=
  if negb (bool_decide (qerror = "")) then (w, Failed 302 qerror)
  else match BySlug w slug reach with
  | (w, Failed s c) => (w, Failed s c)
  | (w, Done rp) =>
      let '(m, e) := take (w_states w) state now in
      let w := with_states w m in
      match e with
      | None => (w, Failed 400 "bad_state")
      | Some e =>
          if negb (bool_decide (se_provider e = op_id rp)) then (w, Failed 400 "bad_state")
          else match exchange rp code (se_verifier e) with
          | None => (w, Internal)
          | Some idt =>
              match resolveOIDCUser w rp idt id now with
              | (w, NoRoles) => (logged w (mkLine "" (id_email idt) "auth.login" "" "denied" "no_mapped_roles"), Failed 403 "not_authorized")
              | (w, Wrong) => (w, Internal)
              | (w, Known u) =>
                  if us_disabled u then (w, Failed 403 "user_disabled")
                  else match Issue ttl w (us_id u) false random now with
                  | (w, Err _) => (w, Internal)
                  | (w, Ok cookie) => (logged w (mkLine (us_id u) (Label u) "auth.login" "" "ok" ""), Done cookie)
                  end
              end
          end
      end
  end.

(** ** Break-glass *)

(** [id] is of the account, if it has to be made. *)
Definition breakGlassUser (w : Web) (id : string) (now : Z) : Web * option User :=
  match (match UserByUsername (w_db w) "break-glass" with
         | Ok u => Some (w, u)
         | Err NoRow => let u := mkUser id "local" "break-glass" "" "" "" "" false in
                        match on_db w (CreateUser (w_db w) u now) with Some w => Some (w, u) | None => None end
         | Err _ => None
         end) with
  | None => (w, None)
  | Some (w, u) =>
      match AdminRole (w_db w) with
      | Err _ => (w, None)
      | Ok admin => match on_db w (on_core (w_db w) (GrantRole (core (w_db w)) (us_id u) admin SourceLocal Roles.Global)) with
                    | None => (w, None)
                    | Some w => (caps_Invalidate w, Some u)
                    end
      end
  end.
Definition handleBreakGlass (w : Web) (token id random : string) (now : Z) : Web * WebReply string :=
  let '(db, valid) := if bool_decide (token = "") then (w_db w, false) else RedeemBreakGlassToken (w_db w) (HashToken token) now in
  let w := with_db w db in
  if negb valid then (logged w (mkLine "" "" "auth.break_glass" "" "denied" ""), Failed 403 "invalid_token")
  else match breakGlassUser w id now with
  | (w, None) => (w, Internal)
  | (w, Some u) =>
      match Issue ttl w (us_id u) true random now with
      | (w, Err _) => (w, Internal)
      | (w, Ok cookie) => (told (logged w (mkLine (us_id u) (Label u) "auth.break_glass" "" "ok" "")), Done cookie)
      end
  end.
(** [MintBreakGlassToken], run on the box: the token comes back. *)
Definition MintBreakGlassToken (w : Web) (random : string) (life now : Z) : Web * res AErr string :=
  match CreateBreakGlassToken (w_db w) (HashToken (newToken random)) (now + life) with Ok db => (with_db w db, Ok (newToken random)) | Err e => (w, Err e) end.
Definition handleLogout (w : Web) (rq : HttpRequest) : Web * WebReply unit := (Revoke w rq, Done tt).

(** ** API tokens *)

(** [time.Duration(days) * 24 * time.Hour] in 64 bits. *)
Definition days_of (days : Z) : Z := wrap64 (wrap64 (days * 24) * hour).
(** The secret comes back. *)
Definition mintToken (w : Web) (c : Caller) (owner : User) (name : string) (days : Z) (id random : string) (now : Z) : Web * WebReply string :=
  let name := strings.TrimSpace name in
  if negb (certName name) then (w, BadRequest)
  else if days <? 0 then (w, BadRequest)
  else
    let secret := NewAPIToken random in
    match CreateAPIToken (w_db w) (mkToken id (us_id owner) name (strings.take_chars (String.length TokenPrefix + 6) secret) (HashToken secret) (if 0 <? days then Some (now + days_of days) else None) now None) with
    | Err Duplicate => (w, Failed 400 "name_taken")
    | Err _ => (w, Internal)
    | Ok db => (audit (with_db w db) c "token.create" name "ok" "", Done secret)
    end.
(** The codes of a refusal. *)
Definition token_cannot {A} : WebReply A := Failed 403 "token_cannot".
Definition by_token (c : Caller) : bool := match ca_token c with Some _ => true | None => false end.
Definition handleCreateToken (w : Web) (c : Caller) (name : string) (days : Z) (id random : string) (now : Z) : Web * WebReply string :=
  if by_token c then (w, token_cannot) else mintToken w c (ca_user c) name days id random now.
Definition handleCreateBotToken (w : Web) (c : Caller) (bot name : string) (days : Z) (id random : string) (now : Z) : Web * WebReply string :=
  if by_token c then (w, token_cannot)
  else match UserByID (w_db w) bot with
  | Err _ => (w, Failed 404 "not_found")
  | Ok u => if negb (bool_decide (us_kind u = "bot")) then (w, Failed 409 "not_a_bot") else mintToken w c u name days id random now
  end.
Definition handleDeleteToken (w : Web) (c : Caller) (id : string) : Web * WebReply unit :=
  if by_token c then (w, token_cannot)
  else match APITokenByID (w_db w) id with
  | Err _ => (w, Failed 404 "no_such_token")
  | Ok t => if negb (bool_decide (tk_user t = us_id (ca_user c))) && negb (ScopedHas (ca_mask c) UsersEdit "") then (w, Failed 404 "no_such_token")
            else (audit (with_db w (DeleteAPIToken (w_db w) (tk_id t))) c "token.revoke" (tk_name t) "ok" "", Done tt)
  end.

(** ** Users *)

Definition MinPasswordLength : nat := 12.
Definition normalizeEmail (email : string) : option string :=
  let email := strings.TrimSpace email in
  if bool_decide (email = "") then Some "" else match parseAddress email with Some (name, address) => if bool_decide (name = "") then Some address else None | None => None end.
Definition auditUser (w : Web) (c : Caller) (action : string) (u : User) : Web := audit w c action (Label u) "ok" "".
(** A role, and the host it is limited to; [""] is everywhere. *)
Record GrantRequest := mkGR { gr_role : string; gr_env : string }.
Definition scope_of (g : GrantRequest) : GrantScope := if bool_decide (gr_env g = "") then Roles.Global else OnEnv (gr_env g).
Definition grant_failed {A} (e : StoreErr) : WebReply A := match e with ErrCannotScope _ => Failed 409 "cannot_scope" | _ => Internal end.
(** One at a time; the ones before a failure stay. *)
Fixpoint grant_all (db : ADB) (user : string) (gs : list GrantRequest) : ADB * option StoreErr :=
  match gs with
  | [] => (db, None)
  | g :: gs => match GrantRole (core db) user (gr_role g) SourceLocal (scope_of g) with
               | Err e => (db, Some e)
               | Ok c => grant_all (cascade db c) user gs
               end
  end.
Record UserRequest := mkUR { ur_kind : string; ur_username : string; ur_email : string; ur_password : string; ur_grants : list GrantRequest }.
Definition handleCreateUser (w : Web) (c : Caller) (req : UserRequest) (id salt : string) (now : Z) : Web * WebReply unit :=
  let username := strings.TrimSpace (ur_username req) in
  let bot := bool_decide (ur_kind req = "bot") in
  if negb (bool_decide (ur_kind req = "")) && negb (bool_decide (ur_kind req = "local")) && negb bot then (w, BadRequest)
  else if bool_decide (username = "") then (w, BadRequest)
  else if bot && negb (bool_decide (ur_password req = "")) then (w, BadRequest)
  else if negb bot && (String.length (ur_password req) <? MinPasswordLength)%nat then (w, BadRequest)
  else match ur_grants req with
  | [] => (w, BadRequest)
  | _ => match normalizeEmail (ur_email req) with
      | None => (w, BadRequest)
      | Some email =>
          let u := mkUser id (if bot then "bot" else "local") username (if bot then "" else HashPassword salt (ur_password req)) "" "" email false in
          match CreateUser (w_db w) u now with
          | Err Duplicate => (w, Failed 409 "duplicate_username")
          | Err _ => (w, Internal)
          | Ok db => match grant_all db id (ur_grants req) with
              | (db, Some e) => (with_db w db, grant_failed e)
              | (db, None) => (auditUser (caps_Invalidate (with_db w db)) c "user.create" u, Done tt)
              end
          end
      end
  end.
Definition handleUpdateUser (w : Web) (c : Caller) (id : string) (email : option string) (disabled : option bool) : Web * WebReply unit :=
  match UserByID (w_db w) id with
  | Err _ => (w, Failed 404 "not_found")
  | Ok u =>
      let '(w, r) := match email with
        | None => (w, Done tt)
        | Some e => if bool_decide (us_kind u = "oidc") then (w, Failed 409 "provider_email")
                    else match normalizeEmail e with
                    | None => (w, BadRequest)
                    | Some e => if bool_decide (e = us_email u) then (w, Done tt) else (auditUser (with_db w (SetUserEmail (w_db w) id e)) c "user.email" u, Done tt)
                    end
        end in
      match r, disabled with
      | Failed s code, _ => (w, Failed s code)
      | Done _, None => (w, Done tt)
      | Done _, Some b => match on_core (w_db w) (SetUserDisabledGuarded (core (w_db w)) id b) with
          | Err (ByRole ErrLastAdmin) => (w, Failed 409 "last_admin")
          | Err _ => (w, Internal)
          | Ok db => (auditUser (with_db w db) c (if b then "user.disable" else "user.enable") u, Done tt)
          end
      end
  end.
Definition handleDeleteUser (w : Web) (c : Caller) (id : string) : Web * WebReply unit :=
  match UserByID (w_db w) id with
  | Err _ => (w, Failed 404 "not_found")
  | Ok u => match on_core (w_db w) (DeleteUserGuarded (core (w_db w)) id) with
      | Err (ByRole ErrLastAdmin) => (w, Failed 409 "last_admin")
      | Err _ => (w, Internal)
      | Ok db => (auditUser (caps_Invalidate (with_db w db)) c "user.delete" u, Done tt)
      end
  end.
Definition handleSetUserPassword (w : Web) (c : Caller) (id password salt : string) : Web * WebReply unit :=
  if by_token c then (w, token_cannot)
  else match UserByID (w_db w) id with
  | Err _ => (w, Failed 404 "not_found")
  | Ok u => if negb (bool_decide (us_kind u = "local")) then (w, Failed 409 "not_local")
            else if (String.length password <? MinPasswordLength)%nat then (w, BadRequest)
            else (auditUser (with_db w (SetUserPassword (w_db w) id (HashPassword salt password))) c "user.password_reset" u, Done tt)
  end.
(** The local grants that are not wanted any more, in the order of the list. *)
Definition still_wanted (gs : list GrantRequest) (m : Membership) : bool := existsb (fun g => bool_decide (gr_role g = me_role m) && bool_decide (scope_of g = me_scope m)) gs.
Fixpoint revoke_all (db : ADB) (user : string) (gs : list GrantRequest) (ms : list Membership) : ADB * option StoreErr :=
  match ms with
  | [] => (db, None)
  | m :: ms =>
      if negb (bool_decide (me_source m = SourceLocal)) || still_wanted gs m then revoke_all db user gs ms
      else match RevokeRole (core db) user (me_role m) (me_scope m) with
      | Err e => (db, Some e)
      | Ok c => revoke_all (cascade db c) user gs ms
      end
  end.
Definition handleSetUserRoles (w : Web) (c : Caller) (id : string) (gs : list GrantRequest) : Web * WebReply unit :=
  match UserByID (w_db w) id with
  | Err _ => (w, Failed 404 "not_found")
  | Ok u =>
      match revoke_all (w_db w) id gs (UserRoles (w_db w) id) with
      | (db, Some ErrLastAdmin) => (with_db w db, Failed 409 "last_admin")
      | (db, Some _) => (with_db w db, Internal)
      | (db, None) => match grant_all db id gs with
          | (db, Some e) => (with_db w db, grant_failed e)
          | (db, None) => (auditUser (caps_Invalidate (with_db w db)) c "user.roles" u, Done tt)
          end
      end
  end.

(** ** The settings of providers *)

Definition slug_char (c : ascii) : bool := let z := base64.char_code c in ((97 <=? z) && (z <=? 122)) || ((48 <=? z) && (z <=? 57)).
(** [^[a-z0-9][a-z0-9-]{0,30}[a-z0-9]$]: 2 to 32 characters. *)
Definition slug_ok (s : string) : bool :=
  (2 <=? String.length s)%nat && (String.length s <=? 32)%nat && strings.all_chars (fun c => slug_char c || bool_decide (c = "-"%char)) s &&
  match s with String c _ => slug_char c | _ => false end && match strings.srev s with String c _ => slug_char c | _ => false end.
Record ProviderRequest := mkPR { pr_slug : string; pr_name : string; pr_issuer : string; pr_client : string; pr_secret : string; pr_redirect : string; pr_scopes : string; pr_claim : string; pr_default : string; pr_enabled : bool }.
Definition scope_sep (c : ascii) : bool := bool_decide (c = ","%char) || bool_decide (c = " "%char) || bool_decide (c = "009"%char).
Definition TrimRight (s : string) (c : ascii) : string := strings.srev (strings.trim_left (strings.srev s) c).
(** The request in its stored form, or nothing. *)
Definition validate_provider (r : ProviderRequest) : option ProviderRequest :=
  let slug := strings.TrimSpace (lower (pr_slug r)) in
  let name := strings.TrimSpace (pr_name r) in
  let issuer := TrimRight (strings.TrimSpace (pr_issuer r)) "/" in
  if negb (slug_ok slug) || bool_decide (name = "") || negb (strings.HasPrefix issuer "https://" || strings.HasPrefix issuer "http://") || bool_decide (pr_client r = "") || bool_decide (pr_redirect r = "") then None
  else
    let scopes := if bool_decide (strings.TrimSpace (pr_scopes r) = "") then "openid profile email" else pr_scopes r in
    Some (mkPR slug name issuer (pr_client r) (pr_secret r) (pr_redirect r) (strings.Join (strings.FieldsFunc scopes scope_sep) " ") (pr_claim r) (pr_default r) (pr_enabled r)).
Definition provider_row (r : ProviderRequest) (id secret : string) (created : Z) : OIDCProvider :=
  mkProvider id (pr_slug r) (pr_name r) (pr_issuer r) (pr_client r) secret (pr_redirect r) (pr_scopes r) (pr_claim r) (pr_default r) (pr_enabled r) created.
Definition handleCreateProvider (w : Web) (c : Caller) (r : ProviderRequest) (id : string) (now : Z) : Web * WebReply unit :=
  match validate_provider r with
  | None => (w, BadRequest)
  | Some r => match (if bool_decide (pr_secret r = "") then Some "" else Seal (pr_secret r)) with
      | None => (w, Internal)
      | Some sealed => match CreateOIDCProvider (w_db w) (provider_row r id sealed now) with
          | Err Duplicate => (w, Failed 409 "duplicate_slug")
          | Err _ => (w, Internal)
          | Ok db => (audit (with_db w db) c "oidc.create" (pr_slug r) "ok" "", Done tt)
          end
      end
  end.
Definition handleUpdateProvider (w : Web) (c : Caller) (id : string) (r : ProviderRequest) : Web * WebReply unit :=
  match OIDCProviderByID (w_db w) id with
  | Err _ => (w, Failed 404 "not_found")
  | Ok p => match validate_provider r with
      | None => (w, BadRequest)
      | Some r => match UpdateOIDCProvider (w_db w) (provider_row r id (op_secret p) (op_created p)) with
          | Err Duplicate => (w, Failed 409 "duplicate_slug")
          | Err _ => (w, Internal)
          | Ok db =>
              if bool_decide (pr_secret r = "") then (audit (Forget (with_db w db) id) c "oidc.update" (pr_slug r) "ok" "", Done tt)
              else match Seal (pr_secret r) with
              | None => (with_db w db, Internal)
              | Some sealed => (audit (Forget (with_db w (SetOIDCProviderSecret db id sealed)) id) c "oidc.update" (pr_slug r) "ok" "", Done tt)
              end
          end
      end
  end.
Definition handleDeleteProvider (w : Web) (c : Caller) (id : string) : Web * WebReply unit :=
  match OIDCProviderByID (w_db w) id with
  | Err _ => (w, Failed 404 "not_found")
  | Ok p => match DeleteOIDCProvider (w_db w) id with
      | Err _ => (w, Internal)
      | Ok db => (audit (Forget (with_db w db) id) c "oidc.delete" (op_slug p) "ok" "", Done tt)
      end
  end.
Definition handleTestProvider (w : Web) (id : string) (reach : bool) : Web * WebReply bool :=
  match OIDCProviderByID (w_db w) id with
  | Err _ => (w, Failed 404 "not_found")
  | Ok p => match For (Forget w id) p reach with (w, Some _) => (w, Done true) | (w, None) => (w, Done false) end
  end.
Definition handleCreateMapping (w : Web) (c : Caller) (provider claim_value role env id : string) : Web * WebReply unit :=
  let claim_value := strings.TrimSpace claim_value in
  if bool_decide (claim_value = "") || bool_decide (role = "") then (w, BadRequest)
  else match CreateOIDCMapping (w_db w) (mkOMapping id provider claim_value role (scope_of (mkGR role env))) with
  | Err Duplicate => (w, Failed 409 "duplicate_mapping")
  | Err (ByRole (ErrCannotScope _)) => (w, Failed 409 "cannot_scope")
  | Err _ => (w, Internal)
  | Ok db => (audit (with_db w db) c "oidc.map" claim_value "ok" "", Done tt)
  end.
Definition handleDeleteMapping (w : Web) (c : Caller) (id : string) : Web * WebReply unit := (audit (with_db w (DeleteOIDCMapping (w_db w) id)) c "oidc.unmap" "" "ok" "", Done tt).

(** ** The commands, in a process of their own *)

(** [daffa user add], with the role and the scope that were looked up. *)
Definition user_add (db : ADB) (username password role : string) (sc : GrantScope) (id salt : string) (now : Z) : ADB :=
  if bool_decide (username = "") || (String.length password <? 12)%nat then db
  else match CreateUser db (mkUser id "local" username (HashPassword salt password) "" "" "" false) now with
  | Err _ => db
  | Ok db => match GrantRole (core db) id role SourceLocal sc with Ok c => cascade db c | Err _ => db end
  end.
Definition user_role (db : ADB) (username role : string) (sc : GrantScope) : ADB :=
  match UserByUsername db username with
  | Ok u => match GrantRole (core db) (us_id u) role SourceLocal sc with Ok c => cascade db c | Err _ => db end
  | Err _ => db
  end.
Definition user_passwd (db : ADB) (username password salt : string) : ADB :=
  match UserByUsername db username with
  | Ok u => if (String.length password <? 12)%nat then db else SetUserPassword db (us_id u) (HashPassword salt password)
  | Err _ => db
  end.
Definition reapSessions (db : ADB) (now : Z) : ADB := DeleteExpiredBreakGlassTokens (DeleteExpiredSessions db now) now.
End Handlers.
