(* ===== verification/AuthRuns.v ===== *)
(** * Signing in: what a run of the server does to its tables

    Every handler of [SignIn] reaches its tables through the operations of
    [AuthStore]: [reaches] says by which, so a property of all of them is proved
    once per operation. The events of a run, and what holds of every run: the
    tables stay well formed, and nobody is let in without a credential somebody
    earned. *)
From S2P Require Import Prelude GoStd Timestamps Caps CapCache Roles RoleGuards AuthStore Passwords Auth SignIn.
Local Open Scope string_scope.
Local Open Scope list_scope.
Local Open Scope daffa_scope.
Local Open Scope Z_scope.

(** ** The operations on the tables *)

Inductive prim :=
| PUser (u : User) (now : Z) | PTouchLogin (id : string) (now : Z) | PEmail (id email : string) | PPassword (id hash : string)
| PSession (id : string) (s : Session) | PEndSession (id : string) | PReapSessions (now : Z)
| PGlass (hash : string) (expires : Z) | PRedeem (hash : string) | PReapGlass (now : Z)
| PToken (t : APIToken) | PTouchToken (id : string) (now : Z) | PDropToken (id : string)
| PRole (o : op) | PProvider (p : OIDCProvider) | PUpdateProvider (p : OIDCProvider) | PSecret (id secret : string) | PDropProvider (id : string)
| PMapping (m : OIDCMapping) | PDropMapping (id : string).
Definition apply_prim (db : ADB) (p : prim) : res AErr ADB :=
  match p with
  | PUser u now => CreateUser db u now
  | PTouchLogin id now => Ok (TouchLogin db id now)
  | PEmail id e => Ok (SetUserEmail db id e)
  | PPassword id h => Ok (SetUserPassword db id h)
  | PSession id s => CreateSession db id s
  | PEndSession id => Ok (DeleteSession db id)
  | PReapSessions now => Ok (DeleteExpiredSessions db now)
  | PGlass h e => CreateBreakGlassToken db h e
  | PRedeem h => Ok (set_glass db (delete h (glass db)))
  | PReapGlass now => Ok (DeleteExpiredBreakGlassTokens db now)
  | PToken t => CreateAPIToken db t
  | PTouchToken id now => Ok (TouchAPIToken db id now)
  | PDropToken id => Ok (DeleteAPIToken db id)
  | PRole (ODeleteRole id) => delete_role db id
  | PRole o => on_core db (apply_op (core db) o)
  | PProvider p => CreateOIDCProvider db p
  | PUpdateProvider p => UpdateOIDCProvider db p
  | PSecret id s => Ok (SetOIDCProviderSecret db id s)
  | PDropProvider id => DeleteOIDCProvider db id
  | PMapping m => CreateOIDCMapping db m
  | PDropMapping id => Ok (DeleteOIDCMapping db id)
  end.

(** By operations that satisfy [P], each of which succeeds. *)
Inductive reaches (P : prim -> Prop) : ADB -> ADB -> Prop :=
| reaches_here db : reaches P db db
| reaches_step db p db1 db2 : P p -> apply_prim db p = Ok db1 -> reaches P db1 db2 -> reaches P db db2.

Lemma reaches_one (P : prim -> Prop) db p db1 : P p -> apply_prim db p = Ok db1 -> reaches P db db1.
Proof. intros Hp E. eapply reaches_step; [done|done|constructor]. Qed.
Lemma reaches_trans P a b c : reaches P a b -> reaches P b c -> reaches P a c.
Proof. induction 1; [done|]. intros Hc. eapply reaches_step; eauto. Qed.
Lemma reaches_weaken (P Q : prim -> Prop) a b : (forall p, P p -> Q p) -> reaches P a b -> reaches Q a b.
Proof. intros H. induction 1; [constructor|]. eapply reaches_step; eauto. Qed.
(** What every operation of [P] preserves. *)
Lemma reaches_rel (P : prim -> Prop) (R : ADB -> ADB -> Prop) a b :
  (forall db, R db db) -> (forall x y z, R x y -> R y z -> R x z) -> (forall db p db1, P p -> apply_prim db p = Ok db1 -> R db db1) -> reaches P a b -> R a b.
Proof. intros Hr Ht Hp. induction 1; [done|]. eapply Ht; [by eapply Hp|done]. Qed.
Lemma reaches_inv (P : prim -> Prop) (I : ADB -> Prop) a b : (forall db p db1, P p -> I db -> apply_prim db p = Ok db1 -> I db1) -> I a -> reaches P a b -> I b.
Proof. intros Hp Ha H. induction H; [done|]. eauto. Qed.

(** ** What each handler does *)

Section Runs.
Context {dg : Digest} {ar : Argon} (ttl : Z) (parseAddress : string -> option (string * string)) (lower : string -> string) (Seal Open : string -> option string).

Lemma caps_Of_db w u : w_db (caps_Of w u).2 = w_db w.
Proof. unfold caps_Of. by destruct (CapCache.Of _ _). Qed.

Definition is_touch (p : prim) : Prop := match p with PTouchToken _ _ => True | _ => False end.
Definition is_end (p : prim) : Prop := match p with PEndSession _ => True | _ => False end.
(** Finding out who is behind a request writes only that. *)
Definition reads (p : prim) : Prop := is_touch p \/ is_end p.
Lemma attach_db w u t : w_db (attachCaps w u t).1 = w_db w.
Proof. unfold attachCaps. pose proof (caps_Of_db w (us_id u)) as H. by destruct (caps_Of w (us_id u)) as [[m|] w']. Qed.
Lemma Resolve_reaches w rq now : reaches reads (w_db w) (w_db (Resolve w rq now).1).
Proof.
  unfold Resolve. destruct (strings.HasPrefix _ _).
  - unfold resolveToken. destruct (APITokenUser _ _ _) as [[u t]|]; [|constructor]. pose proof (attach_db w u (Some t)) as H. destruct (attachCaps w u (Some t)) as [w1 [c|]]; simpl in *; [|rewrite H; constructor].
    unfold touch. destruct (match tk_used t with Some _ => _ | None => _ end); simpl; rewrite <- H; [|constructor]. eapply (reaches_one _ _ (PTouchToken (tk_id t) now)); [by left|done].
  - case_bool_decide; [constructor|]. unfold SessionUser. destruct (sessions (w_db w) !! _) as [s|] eqn:Es; [|constructor]. destruct (user_of _ _) as [u|]; [|constructor].
    destruct (ss_expires s <? now); [eapply (reaches_one _ _ (PEndSession (HashToken (rq_cookie rq)))); [by right|done]|].
    destruct (us_disabled u); [constructor|]. rewrite attach_db. constructor.
Qed.
Lemma enter_reaches w need rq now : reaches reads (w_db w) (w_db (enter w need rq now).1).
Proof.
  unfold enter. pose proof (Resolve_reaches w rq now) as H. destruct (Resolve w rq now) as [w1 [c|e]]; [|done]. destruct need as [cap|]; [|done]. by destruct (ScopedHas _ _ _).
Qed.

(** ** The events of a run *)

Context (localAuth : bool).
(** [ERequest] is a request to any other route, [ERole] what the other handlers do
    to roles and hosts; the last four come from the command line and the clock. *)
Inductive WebEvent :=
| ELogin (username password ip random : string) (now later : Z)
| EStart (slug : string) (reach : bool) (random random' : string) (now : Z)
| ECallback (slug qerror state code : string) (reach : bool) (exchange : OIDCProvider -> string -> string -> option Identity) (id random : string) (now : Z)
| EBreakGlass (token id random : string) (now : Z)
| ERequest (need : option Cap) (rq : HttpRequest) (now : Z)
| ELogout (rq : HttpRequest) (now : Z)
| EMint (rq : HttpRequest) (name : string) (days : Z) (id random : string) (now : Z)
| EMintBot (rq : HttpRequest) (bot name : string) (days : Z) (id random : string) (now : Z)
| EDropToken (rq : HttpRequest) (id : string) (now : Z)
| ECreateUser (rq : HttpRequest) (req : UserRequest) (id salt : string) (now : Z)
| EUpdateUser (rq : HttpRequest) (id : string) (email : option string) (disabled : option bool) (now : Z)
| EDeleteUser (rq : HttpRequest) (id : string) (now : Z)
| EPassword (rq : HttpRequest) (id password salt : string) (now : Z)
| ERoles (rq : HttpRequest) (id : string) (gs : list GrantRequest) (now : Z)
| ECreateProvider (rq : HttpRequest) (r : ProviderRequest) (id : string) (now : Z)
| EUpdateProvider (rq : HttpRequest) (id : string) (r : ProviderRequest) (now : Z)
| EDeleteProvider (rq : HttpRequest) (id : string) (now : Z)
| ETestProvider (rq : HttpRequest) (id : string) (reach : bool) (now : Z)
| EMapping (rq : HttpRequest) (provider claim_value role env id : string) (now : Z)
| EDropMapping (rq : HttpRequest) (id : string) (now : Z)
| ERole (o : op)
| EMintGlass (random : string) (life now : Z)
| EUserAdd (username password role : string) (sc : GrantScope) (id salt : string) (now : Z)
| EUserRole (username role : string) (sc : GrantScope)
| EUserPasswd (username password salt : string)
| EReap (now : Z).

(** Which request an event carries, and the capability of its route. *)
Definition request_of (e : WebEvent) : option (option Cap * HttpRequest * Z) :=
  match e with
  | ERequest need rq now => Some (need, rq, now)
  | ELogout rq now | EMint rq _ _ _ _ now | EDropToken rq _ now => Some (None, rq, now)
  | EMintBot rq _ _ _ _ _ now | ECreateUser rq _ _ _ now | EUpdateUser rq _ _ _ now | EDeleteUser rq _ now | EPassword rq _ _ _ now | ERoles rq _ _ now => Some (Some UsersEdit, rq, now)
  | ECreateProvider rq _ _ now | EUpdateProvider rq _ _ now | EDeleteProvider rq _ now | ETestProvider rq _ _ now | EMapping rq _ _ _ _ _ now | EDropMapping rq _ now => Some (Some SettingsEdit, rq, now)
  | _ => None
  end.
(** The handler behind the gates. *)
Definition handle (e : WebEvent) (w : Web) (c : Caller) : Web :=
  match e with
  | ELogout rq _ => (handleLogout w rq).1
  | EMint _ name days id random now => (handleCreateToken w c name days id random now).1
  | EMintBot _ bot name days id random now => (handleCreateBotToken w c bot name days id random now).1
  | EDropToken _ id _ => (handleDeleteToken w c id).1
  | ECreateUser _ req id salt now => (handleCreateUser parseAddress w c req id salt now).1
  | EUpdateUser _ id email disabled _ => (handleUpdateUser parseAddress w c id email disabled).1
  | EDeleteUser _ id _ => (handleDeleteUser w c id).1
  | EPassword _ id password salt _ => (handleSetUserPassword w c id password salt).1
  | ERoles _ id gs _ => (handleSetUserRoles w c id gs).1
  | ECreateProvider _ r id now => (handleCreateProvider lower Seal w c r id now).1
  | EUpdateProvider _ id r _ => (handleUpdateProvider lower Seal w c id r).1
  | EDeleteProvider _ id _ => (handleDeleteProvider w c id).1
  | ETestProvider _ id reach _ => (handleTestProvider Open w id reach).1
  | EMapping _ provider claim_value role env id _ => (handleCreateMapping w c provider claim_value role env id).1
  | EDropMapping _ id _ => (handleDeleteMapping w c id).1
  | _ => w
  end.
Definition web_step (w : Web) (e : WebEvent) : Web :=
  match request_of e with
  | Some (need, rq, now) => match enter w need rq now with (w, Ok c) => handle e w c | (w, Err _) => w end
  | None =>
      match e with
      | ELogin username password ip random now later => (handleLocalLogin ttl localAuth w username password ip random now later).1
      | EStart slug reach random random' now => (handleOIDCStart Open w slug reach random random' now).1
      | ECallback slug qerror state code reach exchange id random now => (handleOIDCCallback ttl Open w slug qerror state code reach exchange id random now).1
      | EBreakGlass token id random now => (handleBreakGlass ttl w token id random now).1
      | ERole o => match apply_prim (w_db w) (PRole o) with Ok db => caps_Invalidate (with_db w db) | Err _ => w end
      | EMintGlass random life now => (MintBreakGlassToken w random life now).1
      | EUserAdd username password role sc id salt now => with_db w (user_add (w_db w) username password role sc id salt now)
      | EUserRole username role sc => with_db w (user_role (w_db w) username role sc)
      | EUserPasswd username password salt => with_db w (user_passwd (w_db w) username password salt)
      | EReap now => with_db w (reapSessions (w_db w) now)
      | _ => w
      end
  end.
Definition web_run (w : Web) (es : list WebEvent) : Web := fold_left web_step es w.

(** ** How a credential is earned *)

(** The event [e] signs a session in: the password of an enabled local account was
    accepted and the throttle let it be tried, the provider a sign-in was started
    at vouches for the account's subject, or a break-glass token was redeemed. *)
Definition earned (w : Web) (e : WebEvent) (h : string) (s : Session) : Prop :=
  match e with
  | ELogin username password ip random now later => h = HashToken (newToken random) /\ localAuth = true /\ Allow loginLimits (w_limiter w) (login_key (strings.TrimSpace username) ip) now = true /\
      exists u, UserByUsername (w_db w) (strings.TrimSpace username) = Ok u /\ us_kind u = "local" /\ us_disabled u = false /\ VerifyPassword (us_hash u) password = Accepted /\ s = mkSession (us_id u) false (later + ttl)
  | ECallback slug _ state code reach exchange id random now => h = HashToken (newToken random) /\
      exists rp st idt user, (BySlug Open w slug reach).2 = Done rp /\ w_states w !! state = Some st /\ now <= se_expires st /\ se_provider st = op_id rp /\ exchange rp code (se_verifier st) = Some idt /\
        s = mkSession user false (now + ttl) /\ match UserBySub (w_db w) (op_id rp) (id_sub idt) with Ok u => user = us_id u | Err _ => user = id end
  | EBreakGlass token id random now => h = HashToken (newToken random) /\ token <> "" /\ exists expires user, glass (w_db w) !! HashToken token = Some expires /\ now < expires /\
      s = mkSession user true (now + hour) /\ match UserByUsername (w_db w) "break-glass" with Ok u => user = us_id u | Err _ => user = id end
  | _ => False
  end.
(** The event mints a token: somebody signed in — not by a token — for themselves,
    or whoever manages users for a bot. *)
Definition minted (w : Web) (e : WebEvent) (t : APIToken) : Prop :=
  exists need rq now w1 c, request_of e = Some (need, rq, now) /\ enter w need rq now = (w1, Ok c) /\ ca_token c = None /\
  match e with
  | EMint _ _ _ _ random _ => tk_hash t = HashToken (NewAPIToken random) /\ tk_user t = us_id (ca_user c)
  | EMintBot _ bot _ _ _ random _ => tk_hash t = HashToken (NewAPIToken random) /\ tk_user t = bot /\ exists u, UserByID (w_db w1) bot = Ok u /\ us_kind u = "bot"
  | _ => False
  end.
(** The event sets a password: somebody signed in who manages users, or the command
    line. *)
Definition sets_password (w : Web) (e : WebEvent) (id : string) : Prop :=
  match e with
  | EPassword rq id' _ _ now => id = id' /\ exists w1 c, enter w (Some UsersEdit) rq now = (w1, Ok c) /\ ca_token c = None
  | EUserPasswd username _ _ => exists u, UserByUsername (w_db w) username = Ok u /\ us_id u = id
  | _ => False
  end.
Definition permitted (w : Web) (e : WebEvent) (p : prim) : Prop :=
  match p with
  | PSession h s => earned w e h s
  | PToken t => minted w e t
  | PPassword id _ => sets_password w e id
  | PUser u _ => (us_kind u = "bot" -> us_hash u = "") /\ (request_of e <> None -> exists rq req salt now, e = ECreateUser rq req (us_id u) salt now)
  | _ => True
  end.

(** ** Every event keeps to it *)

Lemma reads_permitted w e p : reads p -> permitted w e p.
Proof. intros [H|H]; by destruct p. Qed.
Ltac one p := apply (reaches_one _ _ p); [try done|try done].

Lemma grant_all_reaches (P : prim -> Prop) user gs : (forall o, P (PRole o)) -> forall db, reaches P db (grant_all db user gs).1.
Proof.
  intros HP. induction gs as [|g gs IH]; intros db; simpl; [constructor|]. destruct (GrantRole _ _ _ _ _) as [c|] eqn:E; [|constructor].
  eapply (reaches_step _ _ (PRole (OGrantRole user (gr_role g) SourceLocal (scope_of g)))); [done| |apply IH]. simpl. unfold on_core. by rewrite E.
Qed.
Lemma revoke_all_reaches (P : prim -> Prop) user gs ms : (forall o, P (PRole o)) -> forall db, reaches P db (revoke_all db user gs ms).1.
Proof.
  intros HP. induction ms as [|m ms IH]; intros db; simpl; [constructor|]. destruct (_ || _); [apply IH|]. destruct (RevokeRole _ _ _ _) as [c|] eqn:E; [|constructor].
  eapply (reaches_step _ _ (PRole (ORevokeRole user (me_role m) (me_scope m)))); [done| |apply IH]. simpl. unfold on_core. by rewrite E.
Qed.
Lemma Issue_reaches (P : prim -> Prop) w user glass random now :
  P (PSession (HashToken (newToken random)) (mkSession user glass (if glass then now + hour else now + ttl))) -> (forall id t, P (PTouchLogin id t)) ->
  reaches P (w_db w) (w_db (Issue ttl w user glass random now).1).
Proof.
  intros HP Ht. unfold Issue. destruct (CreateSession _ _ _) as [db|] eqn:E; [|constructor]. simpl. eapply reaches_step; [exact HP|exact E|]. by one (PTouchLogin user now).
Qed.
Lemma For_db w p reach : w_db (For Open w p reach).1 = w_db w.
Proof. unfold For. destruct (w_rps w !! _); [done|]. destruct (if bool_decide _ then _ else _); [|done]. by destruct reach. Qed.
Lemma BySlug_db w slug reach : w_db (BySlug Open w slug reach).1 = w_db w.
Proof. unfold BySlug. destruct (OIDCProviderBySlug _ _) as [p|]; [|done]. destruct (negb _); [done|]. pose proof (For_db w p reach). by destruct (For Open w p reach) as [w1 [rp|]]. Qed.
Lemma login_reaches w username password ip random now later :
  reaches (permitted w (ELogin username password ip random now later)) (w_db w) (w_db (handleLocalLogin ttl localAuth w username password ip random now later).1).
Proof.
  unfold handleLocalLogin. destruct localAuth eqn:El; [|constructor]. simpl. destruct (_ || _); [constructor|]. destruct (Allow _ _ _ _) eqn:Ea; [|constructor]. simpl.
  destruct (UserByUsername _ _) as [u|[]] eqn:Eu; try constructor. destruct (negb _ || _) eqn:Ek; [constructor|]. destruct (negb (bool_decide (VerifyPassword _ _ = _))) eqn:Ev; [constructor|].
  apply orb_false_elim in Ek as [Ek Ed]. apply negb_false_iff, bool_decide_eq_true in Ek, Ev.
  pose proof (Issue_reaches (permitted w (ELogin username password ip random now later)) (with_limiter w (Reset (w_limiter w) (login_key (strings.TrimSpace username) ip))) (us_id u) false random later) as Hi.
  destruct (Issue _ _ _ _ _ _) as [w1 [cookie|]]; simpl in *.
  - pose proof (caps_Of_db (logged w1 (mkLine (us_id u) (Label u) "auth.login" "" "ok" "")) (us_id u)) as Hc. destruct (caps_Of _ _) as [[m|] w2]; simpl in *; rewrite Hc; apply Hi; [|done| |done]; split_and!; try done; by exists u.
  - apply Hi; [|done]. split_and!; try done; by exists u.
Qed.
(** Operations that touch no credential. *)
Definition plain_prim (p : prim) : Prop := match p with PSession _ _ | PToken _ | PPassword _ _ | PUser _ _ => False | _ => True end.
Lemma plain_permitted w e p : plain_prim p -> permitted w e p.
Proof. by destruct p. Qed.
Lemma on_db_ok w r w1 : on_db w r = Some w1 -> r = Ok (w_db w1).
Proof. destruct r; [|done]. by intros [= <-]. Qed.
Lemma on_core_reaches (P : prim -> Prop) db o db' : P (PRole o) -> (forall id, o <> ODeleteRole id) -> on_core db (apply_op (core db) o) = Ok db' -> reaches P db db'.
Proof. intros HP Ho E. apply (reaches_one _ _ (PRole o)); [done|]. destruct o; try done. by destruct (Ho id). Qed.
(** A sign-in at a provider can make an account there. *)
Definition signs_up (p : prim) : Prop := plain_prim p \/ exists u t, p = PUser u t /\ us_kind u = "oidc".
Lemma resolve_reaches w rp idt id now :
  reaches signs_up (w_db w) (w_db (resolveOIDCUser w rp idt id now).1) /\
  forall u, (resolveOIDCUser w rp idt id now).2 = Known u -> match UserBySub (w_db w) (op_id rp) (id_sub idt) with Ok v => us_id u = us_id v | Err _ => us_id u = id end.
Proof.
  unfold resolveOIDCUser. cbv zeta. set (gs := match RolesForClaims _ _ _ with [] => _ | _ => _ end). destruct (UserBySub _ _ _) as [v|[]]; [| |split; [constructor|done]..].
  - destruct (match gs with [] => _ | _ => false end); [split; [constructor|done]|]. destruct (on_db w _) as [w1|] eqn:E; [|split; [constructor|done]]. apply on_db_ok in E.
    apply (on_core_reaches signs_up _ (OSyncOIDC (us_id v) gs)) in E; [|by left|done]. destruct (negb _ && negb _); simpl.
    + split; [|by intros u [= <-]]. eapply reaches_trans; [exact E|]. by one (PEmail (us_id v) (id_email idt)); left.
    + split; [exact E|by intros u [= <-]].
  - destruct gs as [|g gs']; [split; [constructor|done]|]. destruct (on_db w _) as [w1|] eqn:E; [|split; [constructor|done]]. apply on_db_ok in E.
    assert (reaches signs_up (w_db w) (w_db w1)) as H1 by (by one (PUser (mkUser id "oidc" "" "" (id_sub idt) (op_id rp) (id_email idt) false) now); right; eexists _, _).
    destruct (on_db w1 _) as [w2|] eqn:E2; [|by split]. apply on_db_ok in E2. apply (on_core_reaches signs_up _ (OSyncOIDC id (g :: gs'))) in E2; [|by left|done].
    split; [by eapply reaches_trans|by intros u [= <-]].
Qed.
Lemma signs_up_permitted w e p : request_of e = None -> signs_up p -> permitted w e p.
Proof. intros He [H|(u & t & -> & Hk)]; [by apply plain_permitted|]. simpl. by rewrite Hk. Qed.
Lemma callback_reaches w slug qerror state code reach exchange id random now :
  let e := ECallback slug qerror state code reach exchange id random now in
  reaches (permitted w e) (w_db w) (w_db (handleOIDCCallback ttl Open w slug qerror state code reach exchange id random now).1).
Proof.
  intros e. unfold handleOIDCCallback. destruct (negb _); [constructor|]. pose proof (BySlug_db w slug reach) as Hb. destruct (BySlug Open w slug reach) as [w1 [rp|s' c']] eqn:Eb; simpl in Hb; [|simpl; rewrite Hb; constructor].
  destruct (take (w_states w1) state now) as [m en] eqn:Et. assert (w_states w1 = w_states w) as Hst.
  { pose proof (f_equal fst Eb) as Ef. simpl in Ef. rewrite <- Ef. unfold BySlug. destruct (OIDCProviderBySlug _ _) as [p|]; [|done]. destruct (negb _); [done|]. unfold For. destruct (w_rps w !! _); [done|]. destruct (if bool_decide _ then _ else _); [|done]. by destruct reach. }
  destruct en as [en|]; [|simpl; rewrite Hb; constructor]. destruct (negb _) eqn:Ep; [simpl; rewrite Hb; constructor|]. apply negb_false_iff, bool_decide_eq_true in Ep.
  destruct (exchange rp code _) as [idt|] eqn:Ex; [|simpl; rewrite Hb; constructor].
  destruct (resolve_reaches (with_states w1 m) rp idt id now) as [Hr Hu]. destruct (resolveOIDCUser _ _ _ _ _) as [w2 [u| |]]; simpl in Hr, Hu; rewrite Hb in Hr, Hu; apply (reaches_weaken _ (permitted w e)) in Hr; try (intros p; apply (signs_up_permitted w e p eq_refl)); try exact Hr.
  destruct (us_disabled u); [exact Hr|]. eapply reaches_trans; [exact Hr|].
  assert (reaches (permitted w e) (w_db w2) (w_db (Issue ttl w2 (us_id u) false random now).1)) as Hi.
  { apply Issue_reaches; [|done]. split; [done|]. unfold take in Et. injection Et as _ Et. rewrite Hst in Et. destruct (w_states w !! state) as [st|] eqn:Es; [|done]. destruct (_ <? _) eqn:El; [done|]. injection Et as ->. apply Z.ltb_ge in El.
    exists rp, en, idt, (us_id u). rewrite Eb. split_and!; try done. specialize (Hu u eq_refl). by destruct (UserBySub _ _ _). }
  by destruct (Issue _ _ _ _ _ _) as [w3 [cookie|]].
Qed.
Lemma glass_reaches w token id random now :
  let e := EBreakGlass token id random now in reaches (permitted w e) (w_db w) (w_db (handleBreakGlass ttl w token id random now).1).
Proof.
  intros e. unfold handleBreakGlass. destruct (if bool_decide (token = "") then _ else _) as [db valid] eqn:Er.
  assert (reaches (permitted w e) (w_db w) db /\ (valid = true -> token <> "" /\ exists expires, glass (w_db w) !! HashToken token = Some expires /\ now < expires) /\ accounts db = accounts (w_db w) /\ core db = core (w_db w)) as (H1 & H2 & Ha & Hc).
  { case_bool_decide as Et; [injection Er as <- <-; split_and!; [constructor|done|done|done]|]. unfold RedeemBreakGlassToken in Er. destruct (glass (w_db w) !! _) as [ex|] eqn:Eg; injection Er as <- <-; [|by split_and!; [constructor|..]].
    split_and!; [by one (PRedeem (HashToken token))| |done|done]. intros ?%Z.ltb_lt. split; [done|by exists ex]. }
  destruct valid; [|exact H1]. simpl. destruct (H2 eq_refl) as (Ht & ex & Hg & Hlt). assert (forall p, user_where db p = user_where (w_db w) p) as Huw.
  { intros p. unfold user_where, account_where, UserByID, user_of. by rewrite Ha, Hc. }
  unfold breakGlassUser. simpl.
  assert (forall w1 u, reaches (permitted w e) (w_db w) (w_db w1) -> match UserByUsername (w_db w) "break-glass" with Ok v => us_id u = us_id v | Err _ => us_id u = id end ->
    reaches (permitted w e) (w_db w) (w_db (match (match AdminRole (w_db w1) with Err _ => (w1, None) | Ok admin => match on_db w1 (on_core (w_db w1) (GrantRole (core (w_db w1)) (us_id u) admin SourceLocal Roles.Global)) with None => (w1, None) | Some w => (caps_Invalidate w, Some u) end end) with
      | (w, None) => (w, Internal) | (w, Some u) => match Issue ttl w (us_id u) true random now with (w, Err _) => (w, Internal) | (w, Ok cookie) => (told (logged w (mkLine (us_id u) (Label u) "auth.break_glass" "" "ok" "")), Done cookie) end end : Web * WebReply string).1)) as Hrest.
  { intros w1 u Hw1 Hid. destruct (AdminRole (w_db w1)) as [admin|]; [|exact Hw1]. destruct (on_db w1 _) as [w2|] eqn:E; [|exact Hw1]. apply on_db_ok in E. apply (on_core_reaches (permitted w e) _ (OGrantRole (us_id u) admin SourceLocal Roles.Global)) in E; [|done|done].
    assert (reaches (permitted w e) (w_db (caps_Invalidate w2)) (w_db (Issue ttl (caps_Invalidate w2) (us_id u) true random now).1)) as Hi.
    { apply Issue_reaches; [|done]. split_and!; [done|done|]. exists ex, (us_id u). split_and!; done. }
    eapply reaches_trans; [exact Hw1|]. eapply reaches_trans; [exact E|]. by destruct (Issue _ _ _ _ _ _) as [w3 [cookie|]]. }
  unfold UserByUsername in *. rewrite Huw. destruct (user_where (w_db w) _) as [v|[]]; try exact H1; [by apply (Hrest (with_db w db))|].
  destruct (on_db (with_db w db) _) as [w1|] eqn:E; [|exact H1]. apply on_db_ok in E. apply (Hrest w1); [|done]. eapply reaches_trans; [exact H1|]. by one (PUser (mkUser id "local" "break-glass" "" "" "" "" false) now).
Qed.
Lemma mint_reaches (P : prim -> Prop) w c owner name days id random now :
  (forall t, tk_user t = us_id owner -> tk_hash t = HashToken (NewAPIToken random) -> P (PToken t)) -> reaches P (w_db w) (w_db (mintToken w c owner name days id random now).1).
Proof.
  intros HP. unfold mintToken. destruct (negb _); [constructor|]. destruct (days <? 0); [constructor|]. destruct (CreateAPIToken _ _) as [db|[]] eqn:E; try constructor. simpl. refine (reaches_one _ _ (PToken _) _ _ E). by apply HP.
Qed.
Lemma create_user_reaches (P : prim -> Prop) w c req id salt now : (forall p, plain_prim p -> P p) -> (forall u t, us_id u = id -> (us_kind u = "bot" -> us_hash u = "") -> P (PUser u t)) -> reaches P (w_db w) (w_db (handleCreateUser parseAddress w c req id salt now).1).
Proof.
  intros HP HU. unfold handleCreateUser. cbv zeta. destruct (_ && negb (bool_decide (ur_kind req = "bot"))) eqn:Ek; [constructor|]. destruct (bool_decide (strings.TrimSpace (ur_username req) = "")); [constructor|]. destruct (bool_decide (ur_kind req = "bot") && _); [constructor|]. destruct (_ && (_ <? _)%nat); [constructor|].
  destruct (ur_grants req) as [|g gs]; [constructor|]. destruct (normalizeEmail _ _) as [email|]; [|constructor]. destruct (CreateUser _ _ _) as [db|[]] eqn:E; try constructor.
  refine (reaches_step _ _ (PUser _ now) _ _ _ E _); [apply HU; [done|]; simpl; by case_bool_decide|]. pose proof (grant_all_reaches P id (g :: gs) ltac:(intros o; by apply HP) db) as Hg. by destruct (grant_all _ _ _) as [db' [e|]].
Qed.
Lemma update_user_reaches (P : prim -> Prop) w c id email disabled : (forall p, plain_prim p -> P p) -> reaches P (w_db w) (w_db (handleUpdateUser parseAddress w c id email disabled).1).
Proof.
  intros HP. unfold handleUpdateUser. destruct (UserByID _ _) as [u|]; [|constructor].
  set (r := match email with None => _ | Some _ => _ end). assert (reaches P (w_db w) (w_db r.1)) as Hr.
  { unfold r. destruct email as [e|]; [|constructor]. case_bool_decide; [constructor|]. destruct (normalizeEmail _ _) as [e'|]; [|constructor]. case_bool_decide; [constructor|]. by one (PEmail id e'); apply HP. }
  destruct r as [w1 [x|s' code]]; simpl in Hr; [|done]. destruct disabled as [b|]; [|done]. destruct (on_core _ _) as [db|[]] eqn:E; try done.
  - eapply reaches_trans; [exact Hr|]. eapply (on_core_reaches P _ (OSetUserDisabled id b)); [by apply HP|done|exact E].
  - by destruct e.
Qed.
Lemma delete_user_reaches (P : prim -> Prop) w c id : (forall p, plain_prim p -> P p) -> reaches P (w_db w) (w_db (handleDeleteUser w c id).1).
Proof.
  intros HP. unfold handleDeleteUser. destruct (UserByID _ _) as [u|]; [|constructor]. destruct (on_core _ _) as [db|[]] eqn:E; try constructor.
  - simpl. eapply (on_core_reaches P _ (ODeleteUser id)); [by apply HP|done|exact E].
  - destruct e; constructor.
Qed.
Lemma roles_reaches (P : prim -> Prop) w c id gs : (forall p, plain_prim p -> P p) -> reaches P (w_db w) (w_db (handleSetUserRoles w c id gs).1).
Proof.
  intros HP. unfold handleSetUserRoles. destruct (UserByID _ _) as [u|]; [|constructor]. pose proof (revoke_all_reaches P id gs (UserRoles (w_db w) id) ltac:(intros o; by apply HP) (w_db w)) as Hr.
  destruct (revoke_all _ _ _ _) as [db [e|]]; [by destruct e|]. pose proof (grant_all_reaches P id gs ltac:(intros o; by apply HP) db) as Hg. destruct (grant_all _ _ _) as [db' [e|]]; by eapply reaches_trans.
Qed.
Lemma provider_reaches (P : prim -> Prop) w c r id now : (forall p, plain_prim p -> P p) -> reaches P (w_db w) (w_db (handleCreateProvider lower Seal w c r id now).1).
Proof.
  intros HP. unfold handleCreateProvider. destruct (validate_provider _ _) as [r'|]; [|constructor]. destruct (if bool_decide _ then _ else _); [|constructor]. destruct (CreateOIDCProvider _ _) as [db|[]] eqn:E; try constructor. refine (reaches_one _ _ (PProvider _) _ _ E). by apply HP.
Qed.
Lemma update_provider_reaches (P : prim -> Prop) w c id r : (forall p, plain_prim p -> P p) -> reaches P (w_db w) (w_db (handleUpdateProvider lower Seal w c id r).1).
Proof.
  intros HP. unfold handleUpdateProvider. destruct (OIDCProviderByID _ _) as [p|]; [|constructor]. destruct (validate_provider _ _) as [r'|]; [|constructor]. destruct (UpdateOIDCProvider _ _) as [db|[]] eqn:E; try constructor.
  assert (reaches P (w_db w) db) as H1 by (refine (reaches_one _ _ (PUpdateProvider _) _ _ E); by apply HP). case_bool_decide; [exact H1|]. destruct (Seal _) as [sealed|]; [|exact H1]. eapply reaches_trans; [exact H1|]. by one (PSecret id sealed); apply HP.
Qed.
(** The handlers behind the gates. *)
Lemma handle_reaches w e need rq now w1 c : request_of e = Some (need, rq, now) -> enter w need rq now = (w1, Ok c) -> reaches (permitted w e) (w_db w1) (w_db (handle e w1 c)).
Proof.
  intros Hq He. pose proof (plain_permitted w e) as HP. destruct e; try discriminate Hq; injection Hq as <- <- <-; simpl handle; try constructor.
  - unfold handleLogout, Revoke. simpl. case_bool_decide; [constructor|]. by one (PEndSession (HashToken (rq_cookie rq0))).
  - unfold handleCreateToken, by_token. destruct (ca_token c) eqn:Ec; [constructor|]. apply mint_reaches. intros t Ht Hh. exists None, rq0, now0, w1, c. by split_and!.
  - unfold handleCreateBotToken, by_token. destruct (ca_token c) eqn:Ec; [constructor|]. destruct (UserByID _ _) as [u|] eqn:Eu; [|constructor]. destruct (negb _) eqn:Ek; [constructor|]. apply negb_false_iff, bool_decide_eq_true in Ek.
    apply mint_reaches. intros t Ht Hh. exists (Some UsersEdit), rq0, now0, w1, c. split_and!; try done; [|by exists u]. rewrite Ht. unfold UserByID, user_of in Eu. destruct (users _ !! bot); [|done]. destruct (accounts _ !! bot); [|done]. by injection Eu as <-.
  - unfold handleDeleteToken. destruct (by_token c); [constructor|]. destruct (APITokenByID _ _) as [t|]; [|constructor]. destruct (_ && _); [constructor|]. by one (PDropToken (tk_id t)).
  - apply create_user_reaches; [done|]. intros u t Hu Hb. split; [done|]. intros _. rewrite Hu. by eexists _, _, _, _.
  - by apply update_user_reaches.
  - by apply delete_user_reaches.
  - unfold handleSetUserPassword, by_token. destruct (ca_token c) eqn:Ec; [constructor|]. destruct (UserByID _ _) as [u|] eqn:Eu; [|constructor]. destruct (negb _); [constructor|]. destruct (_ <? _)%nat; [constructor|].
    one (PPassword id (HashPassword salt password)). split; [done|]. by exists w1, c.
  - by apply roles_reaches.
  - by apply provider_reaches.
  - by apply update_provider_reaches.
  - unfold handleDeleteProvider. destruct (OIDCProviderByID _ _); [|constructor]. destruct (DeleteOIDCProvider _ _) eqn:E; [|constructor]. by one (PDropProvider id).
  - unfold handleTestProvider. destruct (OIDCProviderByID _ _) as [p|]; [|constructor]. pose proof (For_db (Forget w1 id) p reach) as Hf. destruct (For Open _ _ _) as [w2 [rp|]]; simpl in *; rewrite Hf; constructor.
  - unfold handleCreateMapping. destruct (_ || _); [constructor|]. destruct (CreateOIDCMapping _ _) as [db|e'] eqn:E; [by one (PMapping (mkOMapping id provider (strings.TrimSpace claim_value) role (scope_of (mkGR role env))))|].
    destruct e' as [| | |[]]; constructor.
  - by one (PDropMapping id).
Qed.
Lemma user_by_name_id db name u : UserByUsername db name = Ok u -> user_of db (us_id u) = Some u.
Proof. unfold UserByUsername, user_where. destruct (account_where _ _) as [id|]; [|done]. unfold UserByID. destruct (user_of db id) as [v|] eqn:E; [|done]. intros [= <-]. pose proof E as E2. unfold user_of in E2. destruct (users _ !! id); [|done]. destruct (accounts _ !! id); [|done]. injection E2 as <-. exact E. Qed.
(** Every event changes the tables by operations it permits. *)
Lemma step_reaches w e : reaches (permitted w e) (w_db w) (w_db (web_step w e)).
Proof.
  unfold web_step. destruct (request_of e) as [[[need rq] now]|] eqn:Eq.
  - pose proof (enter_reaches w need rq now) as He. destruct (enter w need rq now) as [w1 [c|r]] eqn:Ee; simpl in He; apply (reaches_weaken _ (permitted w e)) in He; try (intros p; apply reads_permitted); [|exact He].
    eapply reaches_trans; [exact He|]. by eapply handle_reaches.
  - destruct e; try discriminate Eq.
    + apply login_reaches.
    + unfold handleOIDCStart. pose proof (BySlug_db w slug reach) as Hb. destruct (BySlug Open w slug reach) as [w1 [rp|s' c]]; simpl in *; rewrite Hb; constructor.
    + apply callback_reaches.
    + apply glass_reaches.
    + destruct (apply_prim _ _) as [db|] eqn:E; [|constructor]. by one (PRole o).
    + unfold MintBreakGlassToken. destruct (CreateBreakGlassToken _ _ _) as [db|] eqn:E; [|constructor]. by one (PGlass (HashToken (newToken random)) (now + life)).
    + simpl. unfold user_add. destruct (_ || _); [constructor|]. destruct (CreateUser _ _ _) as [db|] eqn:E; [|constructor]. refine (reaches_step _ _ (PUser _ now) _ _ _ E _); [done|]. destruct (GrantRole _ _ _ _ _) as [c|] eqn:Eg; [|constructor].
      one (PRole (OGrantRole id role SourceLocal sc)). unfold apply_prim, on_core. simpl. by rewrite Eg.
    + simpl. unfold user_role. destruct (UserByUsername _ _) as [u|]; [|constructor]. destruct (GrantRole _ _ _ _ _) as [c|] eqn:Eg; [|constructor]. one (PRole (OGrantRole (us_id u) role SourceLocal sc)). unfold apply_prim, on_core. simpl. by rewrite Eg.
    + simpl. unfold user_passwd. destruct (UserByUsername _ _) as [u|] eqn:Eu; [|constructor]. destruct (_ <? _)%nat; [constructor|]. one (PPassword (us_id u) (HashPassword salt password)). by exists u.
    + simpl. unfold reapSessions. eapply (reaches_step _ _ (PReapSessions now)); [done|done|]. by one (PReapGlass now).
Qed.
End Runs.
