(* ===== verification/AuthCases.v ===== *)
(** * Signing in: who gets in, and for how long

    What the operations on the tables do to credentials; that nobody is let in
    without one that was earned; that the tables stay well formed; the throttle, the
    sign-ins at a provider, break-glass, tokens and the changes of roles. *)
From S2P Require Import Prelude GoStd Timestamps Caps CapCache Roles RoleGuards AuthStore Passwords Auth SignIn AuthRuns.
Local Open Scope string_scope.
Local Open Scope list_scope.
Local Open Scope daffa_scope.
Local Open Scope Z_scope.

(** ** What one operation does to credentials *)

Definition same_token (a b : APIToken) : Prop :=
  tk_id b = tk_id a /\ tk_user b = tk_user a /\ tk_name b = tk_name a /\ tk_prefix b = tk_prefix a /\ tk_hash b = tk_hash a /\ tk_expires b = tk_expires a /\ tk_created b = tk_created a.
Lemma same_token_refl a : same_token a a.
Proof. done. Qed.
Lemma same_token_trans a b c : same_token a b -> same_token b c -> same_token a c.
Proof. unfold same_token. naive_solver congruence. Qed.

Lemma on_core_ok db r db1 : on_core db r = Ok db1 -> exists c, r = Ok c /\ db1 = cascade db c.
Proof. destruct r as [c|]; [|done]. intros [= <-]. by exists c. Qed.
(** An operation of [Roles] only takes rows away. *)
Lemma role_prim db o db1 : apply_prim db (PRole o) = Ok db1 -> exists c, apply_op (core db) o = Ok c /\ db1 = cascade db c.
Proof.
  assert (match o with ODeleteRole id => delete_role db id | _ => on_core db (apply_op (core db) o) end = Ok db1 -> exists c, apply_op (core db) o = Ok c /\ db1 = cascade db c) as H; [|by destruct o].
  destruct o; try apply on_core_ok. unfold delete_role. simpl. destruct (Roles.DeleteRole _ _) as [c|]; [|done]. destruct (existsb _ _); [done|]. intros [= <-]. by exists c.
Qed.
Ltac prims H := first [apply role_prim in H as (? & ? & ->) |
  simpl in H; unfold CreateUser, CreateSession, CreateBreakGlassToken, CreateAPIToken, CreateOIDCProvider, UpdateOIDCProvider, DeleteOIDCProvider, CreateOIDCMapping in H; repeat case_match; simplify_eq].
Lemma prim_sessions db p db1 h s : apply_prim db p = Ok db1 -> sessions db1 !! h = Some s -> sessions db !! h = Some s \/ p = PSession h s.
Proof.
  intros H Hs. destruct p; prims H; subst; simpl in Hs; try (by left).
  - apply lookup_insert_Some in Hs as [[<- <-]|[_ Hs]]; [by right|by left].
  - apply lookup_delete_Some in Hs as [_ Hs]. by left.
  - apply map_lookup_filter_Some in Hs as [Hs _]. by left.
  - apply map_lookup_filter_Some in Hs as [Hs _]. by left.
Qed.
Lemma prim_tokens db p db1 id t : apply_prim db p = Ok db1 -> tokens db1 !! id = Some t -> (exists t0, tokens db !! id = Some t0 /\ same_token t0 t) \/ p = PToken t /\ tk_id t = id.
Proof.
  intros H Hs. destruct p; prims H; subst; simpl in Hs; try (left; by exists t).
  - apply lookup_insert_Some in Hs as [[<- <-]|[_ Hs]]; [by right|left; by exists t].
  - left. destruct (decide (id0 = id)) as [->|Hne]; [|rewrite lookup_alter_ne in Hs by done; by exists t]. rewrite lookup_alter in Hs. destruct (decide _); [|done]. destruct (tokens db !! id) as [t0|]; [|done]. injection Hs as <-. by exists t0.
  - apply lookup_delete_Some in Hs as [_ Hs]. left. by exists t.
  - apply map_lookup_filter_Some in Hs as [Hs _]. left. by exists t.
Qed.

(** ** The tables stay well formed *)

Record auth_ok (db : ADB) : Prop := {
  ao_accounts : forall id, is_Some (accounts db !! id) <-> is_Some (users (core db) !! id);
  ao_names : forall i j a b, accounts db !! i = Some a -> accounts db !! j = Some b -> ac_username a <> "" -> ac_username a = ac_username b -> i = j;
  ao_subs : forall i j a b p s, accounts db !! i = Some a -> accounts db !! j = Some b -> same_sub p s a = true -> same_sub p s b = true -> i = j;
  ao_provider : forall i a, accounts db !! i = Some a -> ac_provider a <> "" -> is_Some (providers db !! ac_provider a);
  ao_sessions : forall h s, sessions db !! h = Some s -> is_Some (users (core db) !! ss_user s);
  ao_tokens : forall i t, tokens db !! i = Some t -> tk_id t = i /\ is_Some (users (core db) !! tk_user t);
  ao_hashes : forall i j t u, tokens db !! i = Some t -> tokens db !! j = Some u -> tk_hash t = tk_hash u \/ (tk_user t = tk_user u /\ tk_name t = tk_name u) -> i = j;
  ao_providers : forall i p, providers db !! i = Some p -> op_id p = i /\ (op_default p <> "" -> is_Some (roles (core db) !! op_default p));
  ao_slugs : forall i j p q, providers db !! i = Some p -> providers db !! j = Some q -> op_slug p = op_slug q -> i = j;
  ao_map_of : forall m, is_Some (map_of db !! m) <-> is_Some (oidc_role_mappings (core db) !! m);
  ao_map_fk : forall m p, map_of db !! m = Some p -> is_Some (providers db !! p);
  ao_map_role : forall m row, oidc_role_mappings (core db) !! m = Some row -> is_Some (roles (core db) !! om_role row);
  ao_core : wf (core db) }.

Lemma account_where_some db p id : account_where db p = Some id -> exists a, accounts db !! id = Some a /\ p a = true.
Proof.
  unfold account_where. destruct (List.find _ _) as [[i a]|] eqn:E; [|done]. intros [= <-]. apply List.find_some in E as [Hin Hp]. exists a. split; [|done].
  apply list_elem_of_In, elem_of_map_to_list in Hin. done.
Qed.
Lemma account_where_none db p : account_where db p = None -> forall id a, accounts db !! id = Some a -> p a = false.
Proof.
  unfold account_where. destruct (List.find _ _) eqn:E; [done|]. intros _ id a Ha. apply (List.find_none _ _ E (id, a)). by apply list_elem_of_In, elem_of_map_to_list.
Qed.
Lemma user_of_account db id a : auth_ok db -> accounts db !! id = Some a -> exists u, user_of db id = Some u /\ us_id u = id.
Proof. intros Hok Ha. unfold user_of. rewrite Ha. destruct (proj1 (ao_accounts _ Hok id) ltac:(by eexists)) as [r ->]. by eexists. Qed.
(** The lookups by a unique column find what there is. *)
Lemma user_where_no db p : auth_ok db -> is_ok (user_where db p) = false -> forall id a, accounts db !! id = Some a -> p a = false.
Proof.
  intros Hok. unfold user_where. destruct (account_where db p) as [i|] eqn:E; [|intros _; by apply account_where_none]. apply account_where_some in E as (a & Ha & _). destruct (user_of_account db i a Hok Ha) as (u & Hu & _). unfold UserByID. by rewrite Hu.
Qed.
Lemma user_where_ok db p u : user_where db p = Ok u -> exists a, accounts db !! us_id u = Some a /\ p a = true /\ user_of db (us_id u) = Some u.
Proof.
  unfold user_where. destruct (account_where db p) as [i|] eqn:E; [|done]. apply account_where_some in E as (a & Ha & Hp). unfold UserByID. destruct (user_of db i) as [v|] eqn:Ev; [|done]. intros [= <-].
  assert (us_id v = i) as -> by (unfold user_of in Ev; destruct (users _ !! i); [|done]; destruct (accounts _ !! i); [|done]; by injection Ev as <-). by exists a.
Qed.

(** What an operation of [Roles] does to the other tables of its database. *)
Lemma sync_fold_members u gs : forall db c, fold_left (sync_insert u) gs (Ok db) = Ok c -> exists m, c = set_members db m.
Proof.
  induction gs as [|g gs IH]; intros db c H; simpl in H; [injection H as <-; exists (role_members db); by destruct db|]. destruct (member_fk db u (g_role g)); [|by rewrite sync_fold_Err in H].
  destruct (role_members db !! _); [by apply IH|]. apply IH in H as [m ->]. by exists m.
Qed.
Lemma op_frame db o c : apply_op db o = Ok c ->
  (forall r, is_Some (roles db !! r) -> o <> ODeleteRole r -> is_Some (roles c !! r)) /\
  (forall m row, oidc_role_mappings c !! m = Some row -> oidc_role_mappings db !! m = Some row /\ o <> ODeleteRole (om_role row)) /\
  (forall u, is_Some (users c !! u) -> is_Some (users db !! u)).
Proof.
  destruct o as [r|r|id|u r s sc|u r sc|u gs|env|u b|u]; simpl; intros H.
  - pose proof (CreateRole_inv _ _ _ H) as (_ & Hr & _ & Hu). unfold CreateRole in H. destruct (_ || _); [done|]. injection H as <-. simpl in *. split_and!; [|by intros m row Hm|done]. intros x Hx _. destruct (decide (x = RID r)) as [->|Hne]; [rewrite lookup_insert_eq; by eexists|by rewrite lookup_insert_ne].
  - unfold UpdateRole in H. destruct (roles db !! RID r) as [row|]; [|done]. destruct (name_taken _ _ _); [done|]. injection H as <-. simpl. split_and!; [|by intros m row' Hm|done]. intros x Hx _. destruct (decide (x = RID r)) as [->|Hne]; [rewrite lookup_insert_eq; by eexists|by rewrite lookup_insert_ne].
  - unfold DeleteRole in H. apply rbind_ok_inv in H as (ro & _ & H). destruct (RBuiltin _); [done|]. destruct (_ && _); [done|]. injection H as <-. simpl. split_and!; [|..|done].
    + intros x Hx Hne. rewrite lookup_delete_ne; [done|congruence].
    + intros m row Hm. apply map_lookup_filter_Some in Hm as [Hm Hne]. split; [done|]. simpl in Hne. congruence.
  - apply GrantRole_inv in H as (_ & _ & _ & ->). by split_and!.
  - unfold RevokeRole in H. inv_res. by split_and!.
  - unfold SyncOIDCRoles in H. apply sync_fold_members in H as [m ->]. by split_and!.
  - injection H as <-. simpl. split_and!; [done| |done]. intros m row Hm. apply map_lookup_filter_Some in Hm as [Hm _]. done.
  - unfold SetUserDisabledGuarded in H. inv_res. simpl. split_and!; [done|done|]. intros v [z Hz]. apply lookup_alter_Some in Hz as [(-> & y & Hy & _)|[_ Hy]]; by eexists.
  - unfold DeleteUserGuarded in H. inv_res. simpl. split_and!; [done|done|]. intros v [z Hz]. apply lookup_delete_Some in Hz as [_ Hz]. by eexists.
Qed.

Lemma filter_some {A} (P : string * A -> Prop) `{!forall x, Decision (P x)} (m : gmap string A) i a : filter P m !! i = Some a -> m !! i = Some a /\ P (i, a).
Proof. by intros ?%map_lookup_filter_Some. Qed.
Lemma cascade_ok db o c : auth_ok db -> apply_op (core db) o = Ok c -> (forall id i p, o = ODeleteRole id -> providers db !! i = Some p -> op_default p <> id) -> auth_ok (cascade db c).
Proof.
  intros Hok H Hd. destruct (op_frame _ _ _ H) as (Fr & Fm & Fu). split; simpl.
  - intros id. split; [by intros [a [_ Ha]%filter_some]|]. intros Hu. destruct (proj2 (ao_accounts _ Hok id) (Fu _ Hu)) as [a Ha]. exists a. by apply map_lookup_filter_Some.
  - intros i j a b [Ha _]%filter_some [Hb _]%filter_some. by apply (ao_names _ Hok i j a b).
  - intros i j a b p s [Ha _]%filter_some [Hb _]%filter_some. by apply (ao_subs _ Hok i j a b p s).
  - intros i a [Ha _]%filter_some. by apply (ao_provider _ Hok i a).
  - by intros h s [_ Hs]%filter_some.
  - intros i t [Ht Hu]%filter_some. split; [by apply (ao_tokens _ Hok i t)|done].
  - intros i j t u [Ht _]%filter_some [Hu _]%filter_some. by apply (ao_hashes _ Hok i j t u).
  - intros i p Hp. destruct (ao_providers _ Hok i p Hp) as [He Hr]. split; [done|]. intros Hne. apply Fr; [by apply Hr|]. intros Ho. by apply (Hd _ _ _ Ho Hp).
  - apply (ao_slugs _ Hok).
  - intros m. split; [by intros [p [_ Hp]%filter_some]|]. intros [row Hrow]. destruct (proj2 (ao_map_of _ Hok m)) as [p Hp]; [exists row; by apply Fm|]. exists p. apply map_lookup_filter_Some. split; [done|]. by exists row.
  - intros m p [Hp _]%filter_some. by apply (ao_map_fk _ Hok m).
  - intros m row Hrow. destruct (Fm _ _ Hrow) as [Hr Hne]. apply Fr; [by apply (ao_map_role _ Hok m)|done].
  - apply (apply_op_wf (core db) o); [apply (ao_core _ Hok)|done].
Qed.
Lemma role_prim_ok db o db1 : auth_ok db -> apply_prim db (PRole o) = Ok db1 -> auth_ok db1.
Proof.
  intros Hok H. destruct (role_prim _ _ _ H) as (c & Hc & ->). apply (cascade_ok db o); [done|done|]. intros id i p -> Hp <-. simpl in H. unfold delete_role in H. simpl in Hc. rewrite Hc in H.
  destruct (existsb _ _) eqn:E; [done|]. rewrite existsb_false in E. specialize (E (i, p) ltac:(by apply elem_of_map_to_list)). simpl in E. by rewrite bool_decide_eq_true_2 in E.
Qed.
Lemma on_account_ok f id db : auth_ok db -> (forall a, ac_username (f a) = ac_username a /\ ac_sub (f a) = ac_sub a /\ ac_provider (f a) = ac_provider a) -> auth_ok (on_account f id db).
Proof.
  intros Hok Hf. assert (forall i a, accounts (on_account f id db) !! i = Some a -> exists b, accounts db !! i = Some b /\ ac_username a = ac_username b /\ ac_sub a = ac_sub b /\ ac_provider a = ac_provider b) as Hb.
  { intros i a. simpl. intros [(-> & b & Hb & ->)|[_ Ha]]%lookup_alter_Some; [|by exists a]. destruct (Hf b) as (H1 & H2 & H3). by exists b. }
  assert (forall p s a b, ac_sub a = ac_sub b -> ac_provider a = ac_provider b -> same_sub p s a = same_sub p s b) as Hs by (intros p s a b H1 H2; unfold same_sub; by rewrite H1, H2).
  split; try apply Hok.
  - intros i. simpl. rewrite lookup_alter_is_Some. apply (ao_accounts _ Hok).
  - intros i j a b Ha Hb' Hne He. destruct (Hb _ _ Ha) as (a' & Ha' & E1 & _). destruct (Hb _ _ Hb') as (b' & Hb'' & E2 & _). apply (ao_names _ Hok i j a' b'); congruence.
  - intros i j a b p s Ha Hb' H1 H2. destruct (Hb _ _ Ha) as (a' & Ha' & _ & E1 & E2). destruct (Hb _ _ Hb') as (b' & Hb'' & _ & E3 & E4). apply (ao_subs _ Hok i j a' b' p s); [done|done|by rewrite <- (Hs p s a a')|by rewrite <- (Hs p s b b')].
  - intros i a Ha Hne. destruct (Hb _ _ Ha) as (a' & Ha' & _ & _ & E). rewrite E in *. by apply (ao_provider _ Hok i a').
Qed.
Lemma create_user_ok db u now db1 : auth_ok db -> CreateUser db u now = Ok db1 -> auth_ok db1.
Proof.
  intros Hok. unfold CreateUser. case_bool_decide as Hn; [done|]. destruct (negb _ && is_ok (UserByUsername _ _)) eqn:E1; [done|]. destruct (is_ok (UserBySub _ _ _)) eqn:E2; [done|]. destruct (negb _ && negb _) eqn:E3; [done|]. intros [= <-].
  set (a := mkAccount _ _ _ _ _ _ _). assert (accounts db !! us_id u = None) as Hna by (apply eq_None_not_Some; by rewrite (ao_accounts _ Hok)).
  assert (forall i b, accounts db !! i = Some b -> us_username u <> "" -> ac_username b <> us_username u) as Hname.
  { intros i b Hb Hne He. apply andb_false_iff in E1 as [E1|E1]; [by apply negb_false_iff, bool_decide_eq_true in E1|]. pose proof (user_where_no db _ Hok E1 i b Hb) as H. simpl in H. rewrite He, bool_decide_eq_false_2, bool_decide_eq_true_2 in H by done. discriminate H. }
  assert (forall i b p s, accounts db !! i = Some b -> same_sub p s a = true -> same_sub p s b = false) as Hsub.
  { intros i b p s Hb Hs. unfold same_sub in Hs. simpl in Hs. bd. subst p s. by apply (user_where_no db _ Hok E2 i b). }
  assert (forall i b, <[us_id u := a]> (accounts db) !! i = Some b -> i = us_id u /\ b = a \/ i <> us_id u /\ accounts db !! i = Some b) as Hi by (intros i b [[<- <-]|[? ?]]%lookup_insert_Some; auto).
  assert (forall v, is_Some (users (core db) !! v) -> is_Some (<[us_id u := mkUserRow (us_disabled u) (us_kind u)]> (users (core db)) !! v)) as Hgrow by (intros v Hv; destruct (decide (us_id u = v)) as [<-|]; [rewrite lookup_insert_eq; by eexists|by rewrite lookup_insert_ne]).
  split; simpl; try apply Hok.
  - intros i. destruct (decide (us_id u = i)) as [<-|Hne]; [rewrite !lookup_insert_eq; split; by eexists|rewrite !lookup_insert_ne by done; apply (ao_accounts _ Hok)].
  - intros i j b c [[-> ->]|[Hi1 Hb]]%Hi [[-> ->]|[Hj Hc]]%Hi Hne He; [done| | |by apply (ao_names _ Hok i j b c)].
    + simpl in *. by destruct (Hname j c Hc Hne).
    + simpl in *. destruct (Hname i b Hb); congruence.
  - intros i j b c p s [[-> ->]|[Hi1 Hb]]%Hi [[-> ->]|[Hj Hc]]%Hi H1 H2; [done| | |by apply (ao_subs _ Hok i j b c p s)].
    + by rewrite (Hsub j c p s Hc H1) in H2.
    + by rewrite (Hsub i b p s Hb H2) in H1.
  - intros i b [[-> ->]|[_ Hb]]%Hi Hne; [|by apply (ao_provider _ Hok i b)]. simpl in *. apply andb_false_iff in E3 as [E3|E3]; apply negb_false_iff, bool_decide_eq_true in E3; [done|exact E3].
  - intros h s Hs. by apply Hgrow, (ao_sessions _ Hok h).
  - intros i t Ht. destruct (ao_tokens _ Hok i t Ht). split; [done|by apply Hgrow].
  - destruct (ao_core _ Hok) as [W1 W2 W3]. split; simpl; [exact W1| |exact W3]. intros v rid k i src Hm. apply Hgrow. by apply (W2 _ _ _ _ _ Hm).
Qed.

(** Tables that only lost sessions. *)
Lemma sessions_ok db m : auth_ok db -> (forall h s, m !! h = Some s -> is_Some (users (core db) !! ss_user s)) -> auth_ok (set_sessions db m).
Proof. intros Hok Hm. split; try apply Hok. exact Hm. Qed.
Lemma tokens_ok db m : auth_ok db -> (forall i t, m !! i = Some t -> tk_id t = i /\ is_Some (users (core db) !! tk_user t)) ->
  (forall i j t u, m !! i = Some t -> m !! j = Some u -> tk_hash t = tk_hash u \/ (tk_user t = tk_user u /\ tk_name t = tk_name u) -> i = j) -> auth_ok (set_tokens db m).
Proof. intros Hok H1 H2. split; try apply Hok; [exact H1|exact H2]. Qed.
Lemma create_token_ok db t db1 : auth_ok db -> CreateAPIToken db t = Ok db1 -> auth_ok db1.
Proof.
  intros Hok. unfold CreateAPIToken. destruct (_ || _) eqn:E1; [done|]. destruct (negb _) eqn:E2; [done|]. intros [= <-]. apply orb_false_elim in E1 as [E0 E1]. rewrite existsb_false in E1. bd.
  assert (forall j u, tokens db !! j = Some u -> ~ (tk_hash u = tk_hash t \/ (tk_user u = tk_user t /\ tk_name u = tk_name t))) as Hno.
  { intros j u Hu. specialize (E1 (j, u) ltac:(by apply elem_of_map_to_list)). simpl in E1. apply orb_false_elim in E1 as [F1 F2]. apply bool_decide_eq_false in F1. apply andb_false_iff in F2. intros [H|[H1 H2]]; [done|]. destruct F2 as [F|F]; by apply bool_decide_eq_false in F. }
  apply tokens_ok; [done| |].
  - intros i u [[<- <-]|[_ Hu]]%lookup_insert_Some; [done|by apply (ao_tokens _ Hok)].
  - intros i j u v [[<- <-]|[Hi Hu]]%lookup_insert_Some [[<- <-]|[Hj Hv]]%lookup_insert_Some H; [done| | |by apply (ao_hashes _ Hok i j u v)].
    + destruct (Hno j v Hv). naive_solver.
    + by destruct (Hno i u Hu).
Qed.
Lemma providers_ok db m : auth_ok db -> (forall i, is_Some (providers db !! i) -> is_Some (m !! i)) -> (forall i p, m !! i = Some p -> op_id p = i /\ (op_default p <> "" -> is_Some (roles (core db) !! op_default p))) ->
  (forall i j p q, m !! i = Some p -> m !! j = Some q -> op_slug p = op_slug q -> i = j) -> auth_ok (set_providers db m).
Proof.
  intros Hok H0 H1 H2. split; try apply Hok; [|exact H1|exact H2|].
  - intros i a Ha Hne. by apply H0, (ao_provider _ Hok i a).
  - intros x p Hp. by apply H0, (ao_map_fk _ Hok x).
Qed.
Lemma put_provider_ok db p : auth_ok db -> slug_taken db (op_id p) (op_slug p) = false -> role_exists db (op_default p) = true -> auth_ok (set_providers db (<[op_id p := p]> (providers db))).
Proof.
  intros Hok Hs Hr. unfold slug_taken in Hs. rewrite existsb_false in Hs.
  assert (forall j q, providers db !! j = Some q -> j <> op_id p -> op_slug q <> op_slug p) as Hno.
  { intros j q Hq Hne. specialize (Hs (j, q) ltac:(by apply elem_of_map_to_list)). simpl in Hs. rewrite bool_decide_eq_false_2 in Hs by done. by apply bool_decide_eq_false in Hs. }
  apply providers_ok; [done| | |].
  - intros i Hi. destruct (decide (op_id p = i)) as [<-|]; [rewrite lookup_insert_eq; by eexists|by rewrite lookup_insert_ne].
  - intros i q [[<- <-]|[_ Hq]]%lookup_insert_Some; [|by apply (ao_providers _ Hok)]. split; [done|]. intros Hne. unfold role_exists in Hr. rewrite bool_decide_eq_false_2 in Hr by done. by apply bool_decide_eq_true in Hr.
  - intros i j q r [[<- <-]|[Hi Hq]]%lookup_insert_Some [[<- <-]|[Hj Hr']]%lookup_insert_Some H; [done| | |by apply (ao_slugs _ Hok i j q r)].
    + by destruct (Hno j r Hr').
    + by destruct (Hno i q Hq).
Qed.
Lemma drop_provider_ok db id db1 : auth_ok db -> DeleteOIDCProvider db id = Ok db1 -> auth_ok db1.
Proof.
  intros Hok. unfold DeleteOIDCProvider. destruct (_ && _) eqn:E; [done|]. cbv zeta. intros [= <-].
  assert (forall i a, accounts db !! i = Some a -> ac_provider a <> "" -> ac_provider a <> id) as Hno.
  { intros i a Ha Hne <-. apply andb_false_iff in E as [E|E].
    - rewrite existsb_false in E. specialize (E (i, a) ltac:(by apply elem_of_map_to_list)). simpl in E. by rewrite bool_decide_eq_true_2 in E.
    - apply bool_decide_eq_false in E. by destruct E; apply (ao_provider _ Hok i a). }
  split; simpl; try apply Hok.
  - intros i a Ha Hne. rewrite lookup_delete_ne; [by apply (ao_provider _ Hok i a)|]. intros ->. by destruct (Hno i a Ha Hne).
  - intros i p [_ Hp]%lookup_delete_Some. by apply (ao_providers _ Hok).
  - intros i j p q [_ Hp]%lookup_delete_Some [_ Hq]%lookup_delete_Some. by apply (ao_slugs _ Hok i j p q).
  - intros m. split.
    + intros [p [Hp Hne]%filter_some]. destruct (proj1 (ao_map_of _ Hok m) ltac:(by eexists)) as [row Hrow]. exists row. apply map_lookup_filter_Some. split; [done|]. simpl. apply map_lookup_filter_None. right. intros q Hq. simpl. simpl in Hne. congruence.
    + intros [row [Hrow Hg]%filter_some]. destruct (proj2 (ao_map_of _ Hok m) ltac:(by eexists)) as [p Hp]. exists p. apply map_lookup_filter_Some. split; [done|]. simpl in *. intros ->. apply map_lookup_filter_None in Hg as [Hg|Hg]; [congruence|]. by apply (Hg id Hp).
  - intros m p [Hp Hne]%filter_some. simpl in Hne. rewrite lookup_delete_ne by done. by apply (ao_map_fk _ Hok m).
  - intros m row [Hrow _]%filter_some. by apply (ao_map_role _ Hok m).
  - destruct (ao_core _ Hok) as [W1 W2 W3]. split; [exact W1|exact W2|exact W3].
Qed.
Lemma mapping_ok db m db1 : auth_ok db -> CreateOIDCMapping db m = Ok db1 -> auth_ok db1.
Proof.
  intros Hok. unfold CreateOIDCMapping. destruct (canGrant _ _ _); [|done]. destruct (_ || existsb _ _); [done|]. destruct (negb _ || negb _) eqn:E; [done|]. intros [= <-]. apply orb_false_elim in E as [E1 E2]. bd.
  split; simpl; try apply Hok.
  - intros i. destruct (decide (ma_id m = i)) as [<-|Hne]; [rewrite !lookup_insert_eq; split; by eexists|rewrite !lookup_insert_ne by done; apply (ao_map_of _ Hok)].
  - intros i p [[<- <-]|[_ Hp]]%lookup_insert_Some; [done|by apply (ao_map_fk _ Hok i)].
  - intros i row [[<- <-]|[_ Hrow]]%lookup_insert_Some; [done|by apply (ao_map_role _ Hok i)].
  - destruct (ao_core _ Hok) as [W1 W2 W3]. split; [exact W1|exact W2|exact W3].
Qed.
Lemma drop_mapping_ok db id : auth_ok db -> auth_ok (DeleteOIDCMapping db id).
Proof.
  intros Hok. split; simpl; try apply Hok.
  - intros i. destruct (decide (id = i)) as [<-|Hne]; [rewrite !lookup_delete_eq; split; by intros []|rewrite !lookup_delete_ne by done; apply (ao_map_of _ Hok)].
  - intros i p [_ Hp]%lookup_delete_Some. by apply (ao_map_fk _ Hok i).
  - intros i row [_ Hrow]%lookup_delete_Some. by apply (ao_map_role _ Hok i).
  - destruct (ao_core _ Hok) as [W1 W2 W3]. split; [exact W1|exact W2|exact W3].
Qed.
Lemma prim_ok db p db1 : auth_ok db -> apply_prim db p = Ok db1 -> auth_ok db1.
Proof.
  intros Hok H. destruct p; try (by apply (role_prim_ok db o)); simpl in H.
  - by eapply create_user_ok.
  - injection H as <-. by apply on_account_ok.
  - injection H as <-. by apply on_account_ok.
  - injection H as <-. by apply on_account_ok.
  - unfold CreateSession in H. case_bool_decide; [done|]. destruct (negb _) eqn:E; [done|]. injection H as <-. bd. apply sessions_ok; [done|]. intros h s' [[<- <-]|[_ Hs]]%lookup_insert_Some; [done|by apply (ao_sessions _ Hok h)].
  - injection H as <-. apply sessions_ok; [done|]. intros h s' [_ Hs]%lookup_delete_Some. by apply (ao_sessions _ Hok h).
  - injection H as <-. apply sessions_ok; [done|]. intros h s' [Hs _]%filter_some. by apply (ao_sessions _ Hok h).
  - unfold CreateBreakGlassToken in H. case_bool_decide; [done|]. injection H as <-. split; apply Hok.
  - injection H as <-. split; apply Hok.
  - injection H as <-. split; apply Hok.
  - by eapply create_token_ok.
  - injection H as <-. assert (forall i t, alter (fun t => mkToken (tk_id t) (tk_user t) (tk_name t) (tk_prefix t) (tk_hash t) (tk_expires t) (tk_created t) (Some now)) id (tokens db) !! i = Some t -> exists t0, tokens db !! i = Some t0 /\ same_token t0 t) as Ha.
    { intros i t [(-> & t0 & Ht & ->)|[_ Ht]]%lookup_alter_Some; [by exists t0|by exists t]. }
    apply tokens_ok; [done| |].
    + intros i t (t0 & Ht & Hs)%Ha. destruct Hs as (-> & -> & _). by apply (ao_tokens _ Hok).
    + intros i j t u (t0 & Ht & Hs)%Ha (u0 & Hu & Hs')%Ha. destruct Hs as (_ & -> & -> & _ & -> & _), Hs' as (_ & -> & -> & _ & -> & _). by apply (ao_hashes _ Hok i j t0 u0).
  - injection H as <-. apply tokens_ok; [done| |].
    + intros i t [_ Ht]%lookup_delete_Some. by apply (ao_tokens _ Hok).
    + intros i j t u [_ Ht]%lookup_delete_Some [_ Hu]%lookup_delete_Some. by apply (ao_hashes _ Hok i j t u).
  - unfold CreateOIDCProvider in H. destruct (_ || _) eqn:E1; [done|]. destruct (negb _) eqn:E2; [done|]. injection H as <-. apply orb_false_elim in E1 as [_ E1]. bd. by apply put_provider_ok.
  - unfold UpdateOIDCProvider in H. destruct (providers db !! op_id p) as [q|] eqn:Eq; [|done]. destruct (slug_taken _ _ _) eqn:E1; [done|]. destruct (negb _) eqn:E2; [done|]. injection H as <-. bd. by apply (put_provider_ok db (mkProvider _ _ _ _ _ _ _ _ _ _ _ _)).
  - injection H as <-. assert (forall i p, alter (fun p => mkProvider (op_id p) (op_slug p) (op_name p) (op_issuer p) (op_client p) secret (op_redirect p) (op_scopes p) (op_claim p) (op_default p) (op_enabled p) (op_created p)) id (providers db) !! i = Some p -> exists q, providers db !! i = Some q /\ op_id p = op_id q /\ op_slug p = op_slug q /\ op_default p = op_default q) as Ha.
    { intros i p [(-> & q & Hq & ->)|[_ Hp]]%lookup_alter_Some; [by exists q|by exists p]. }
    apply providers_ok; [done| | |].
    + intros i Hi. by rewrite lookup_alter_is_Some.
    + intros i p (q & Hq & -> & _ & ->)%Ha. by apply (ao_providers _ Hok).
    + intros i j p p' (q & Hq & _ & -> & _)%Ha (q' & Hq' & _ & -> & _)%Ha. by apply (ao_slugs _ Hok i j q q').
  - by eapply drop_provider_ok.
  - by eapply mapping_ok.
  - injection H as <-. by apply drop_mapping_ok.
Qed.

(** ** Runs *)

Section Cases.
Context {dg : Digest} {ar : Argon} (ttl : Z) (parseAddress : string -> option (string * string)) (lower : string -> string) (Seal Open : string -> option string) (localAuth : bool).
#[local] Abbreviation step := (web_step ttl parseAddress lower Seal Open localAuth).
#[local] Abbreviation run := (web_run ttl parseAddress lower Seal Open localAuth).
#[local] Abbreviation earned := (earned ttl Open localAuth).
#[local] Abbreviation permitted := (permitted ttl Open localAuth).
#[local] Abbreviation moves := (step_reaches ttl parseAddress lower Seal Open localAuth).

Lemma run_snoc w es e : run w (es ++ [e]) = step (run w es) e.
Proof. unfold web_run. by rewrite fold_left_app. Qed.
Lemma web_step_ok w e : auth_ok (w_db w) -> auth_ok (w_db (step w e)).
Proof. intros H. eapply (reaches_inv _ auth_ok); [|exact H|apply moves]. intros db p db1 _. apply prim_ok. Qed.

(** C19: Whatever is done — sign-ins, tokens, users, roles and providers that come and
    go, by people, the command line and the clock — the tables keep to their rules:
    a name, and a subject at a provider, is one account; every session, token and
    grant is an existing user's; a token's secret is that of one token; every
    provider, mapping and default role that is named exists; an administrator's
    role is only held everywhere. *)
Theorem tables_stay_ok (w : Web) (es : list WebEvent) : auth_ok (w_db w) -> auth_ok (w_db (run w es)).
Proof. revert w. induction es as [|e es IH]; intros w H; [done|]. simpl. apply IH. by apply web_step_ok. Qed.

(** ** Credentials *)

Lemma step_sessions w e h s : sessions (w_db (step w e)) !! h = Some s -> sessions (w_db w) !! h = Some s \/ earned w e h s.
Proof.
  revert h s. refine (reaches_rel (permitted w e) (fun a b => forall h s, sessions b !! h = Some s -> sessions a !! h = Some s \/ earned w e h s) _ _ _ _ _ (moves w e)).
  - by left.
  - intros x y z H1 H2 h s Hs. destruct (H2 h s Hs) as [Hs'|]; [|by right]. by apply H1.
  - intros db p db1 Hp Ha h s Hs. destruct (prim_sessions _ _ _ _ _ Ha Hs) as [?| ->]; [by left|by right].
Qed.
Lemma step_tokens w e i t : tokens (w_db (step w e)) !! i = Some t -> (exists t0, tokens (w_db w) !! i = Some t0 /\ same_token t0 t) \/ exists t0, minted w e t0 /\ same_token t0 t.
Proof.
  revert i t. refine (reaches_rel (permitted w e) (fun a b => forall i t, tokens b !! i = Some t -> (exists t0, tokens a !! i = Some t0 /\ same_token t0 t) \/ exists t0, minted w e t0 /\ same_token t0 t) _ _ _ _ _ (moves w e)).
  - intros db i t Ht. left. by exists t.
  - intros x y z H1 H2 i t Ht. destruct (H2 i t Ht) as [(t0 & H0 & Hs)|]; [|by right]. destruct (H1 i t0 H0) as [(t1 & H3 & Hs')|(t1 & H3 & Hs')]; [left|right]; exists t1; (split; [done|by eapply same_token_trans]).
  - intros db p db1 Hp Ha i t Ht. destruct (prim_tokens _ _ _ _ _ Ha Ht) as [?|[-> _]]; [by left|right]. by exists t.
Qed.
(** The event since which something is so. *)
Lemma since (P : Web -> Prop) `{!forall w, Decision (P w)} w es : ~ P w -> P (run w es) ->
  exists n e, es !! n = Some e /\ ~ P (run w (firstn n es)) /\ P (step (run w (firstn n es)) e) /\ forall m, (n < m <= length es)%nat -> P (run w (firstn m es)).
Proof.
  intros H0. induction es as [|e es IH] using rev_ind; intros Hs; [done|]. rewrite run_snoc in Hs. destruct (decide (P (run w es))) as [Hb|Hb].
  - destruct (IH Hb) as (n & e' & He & Hn & He' & Hst). pose proof (lookup_lt_Some _ _ _ He) as Hl. exists n, e'. rewrite take_app_le by lia. split_and!; [by rewrite lookup_app_l|done|done|].
    intros m Hm. rewrite length_app in Hm. simpl in Hm. destruct (decide (m = S (length es))) as [->|Hne]; [rewrite take_ge by (rewrite length_app; simpl; lia); by rewrite run_snoc|]. rewrite take_app_le by lia. apply Hst. lia.
  - exists (length es), e. rewrite take_app_length. split_and!; [by rewrite lookup_app_r, Nat.sub_diag by lia|done|done|].
    intros m Hm. rewrite length_app in Hm. simpl in Hm. rewrite take_ge by (rewrite length_app; simpl; lia). by rewrite run_snoc.
Qed.
Lemma sessions_history w es h s : sessions (w_db w) !! h = None -> sessions (w_db (run w es)) !! h = Some s ->
  exists n e, es !! n = Some e /\ earned (run w (firstn n es)) e h s /\ forall m, (n < m <= length es)%nat -> sessions (w_db (run w (firstn m es))) !! h = Some s.
Proof.
  intros H0 Hs. destruct (since (fun w => sessions (w_db w) !! h = Some s) w es) as (n & e & He & Hn & Hp & Hst); [by rewrite H0|done|]. exists n, e. split_and!; [done| |done]. by destruct (step_sessions _ _ _ _ Hp).
Qed.
(** As a token is used only the time of its last use changes. *)
Definition stands (i : string) (t : APIToken) (w : Web) : Prop := match tokens (w_db w) !! i with Some t0 => same_token t0 t | None => False end.
#[local] Instance stands_dec i t w : Decision (stands i t w).
Proof. unfold stands, same_token. destruct (tokens _ !! i); apply _. Defined.
Lemma stands_spec i t w : stands i t w <-> exists t0, tokens (w_db w) !! i = Some t0 /\ same_token t0 t.
Proof. unfold stands. destruct (tokens _ !! i) as [t0|]; naive_solver. Qed.
Lemma tokens_history w es i t : tokens (w_db w) !! i = None -> tokens (w_db (run w es)) !! i = Some t ->
  exists n e t0, es !! n = Some e /\ minted (run w (firstn n es)) e t0 /\ same_token t0 t /\ forall m, (n < m <= length es)%nat -> stands i t (run w (firstn m es)).
Proof.
  intros H0 Ht. destruct (since (stands i t) w es) as (n & e & He & Hn & Hp & Hst).
  - rewrite stands_spec, H0. by intros (? & ? & _).
  - apply stands_spec. by exists t.
  - apply stands_spec in Hp as (t1 & H1 & Hs). destruct (step_tokens _ _ _ _ H1) as [(t0 & Ht0 & Hs')|(t0 & Hm & Hs')].
    + destruct Hn. apply stands_spec. exists t0. split; [done|by eapply same_token_trans].
    + exists n, e, t0. split_and!; [done|done|by eapply same_token_trans|done].
Qed.

(** Who is let in was signed in, and is still there. *)
Lemma attach_ok w u t w1 c : attachCaps w u t = (w1, Ok c) -> ca_user c = u /\ ca_token c = t /\ w_db w1 = w_db w.
Proof. unfold attachCaps. pose proof (caps_Of_db w (us_id u)) as H. destruct (caps_Of w (us_id u)) as [[m|] w2]; [|done]. by intros [= <- <-]. Qed.
Lemma Resolve_ok w rq now w1 c : Resolve w rq now = (w1, Ok c) -> exists u, ca_user c = u /\ user_of (w_db w) (us_id u) = Some u /\ us_disabled u = false /\
  match ca_token c with
  | None => exists s, sessions (w_db w) !! HashToken (rq_cookie rq) = Some s /\ ss_user s = us_id u /\ now <= ss_expires s
  | Some t => exists i, tokens (w_db w) !! i = Some t /\ tk_hash t = HashToken (strings.TrimPrefix (rq_authorization rq) "Bearer ") /\ tk_user t = us_id u /\ Expired t now = false
  end.
Proof.
  assert (forall db id u, user_of db id = Some u -> us_id u = id) as Hid by (intros db id u; unfold user_of; destruct (users _ !! id); [|done]; destruct (accounts _ !! id); [|done]; by intros [= <-]).
  unfold Resolve. destruct (strings.HasPrefix _ _).
  - unfold resolveToken, APITokenUser, token_with. destruct (List.find _ _) as [[i t]|] eqn:Ef; simpl; [|done]. apply List.find_some in Ef as [Hin Hh]. apply list_elem_of_In, elem_of_map_to_list in Hin. apply bool_decide_eq_true in Hh.
    destruct (user_of _ _) as [u|] eqn:Eu; [|done]. destruct (_ || _) eqn:Ex; [done|]. apply orb_false_elim in Ex as [Ex Ed]. destruct (attachCaps w u (Some t)) as [w2 [c2|]] eqn:Ea; [|done]. apply attach_ok in Ea as (Ec & Et & _). intros [= <- <-].
    rewrite Et. exists u. pose proof (Hid _ _ _ Eu) as Hu. rewrite Hu. split_and!; try done. by exists i.
  - case_bool_decide; [done|]. unfold SessionUser. destruct (sessions (w_db w) !! _) as [s|] eqn:Es; [|done]. destruct (user_of _ _) as [u|] eqn:Eu; [|done]. destruct (ss_expires s <? now) eqn:El; [done|]. apply Z.ltb_ge in El. destruct (us_disabled u) eqn:Ed; [done|].
    intros Ea. apply attach_ok in Ea as (Ec & Et & _). rewrite Et. exists u. pose proof (Hid _ _ _ Eu) as Hu. rewrite Hu. split_and!; try done. by exists s.
Qed.

(** C11: Nobody is let in unearned. Whatever was done since a start with no sessions
    and no tokens, a request that is let in is that of a user who exists and is not
    disabled; by cookie, some sign-in earned that very session for that user — the
    password of an enabled local account behind the throttle, a provider the
    sign-in was started at, a break-glass token — it has stood ever since and has
    not expired; by token, somebody who was signed in, and not by a token, minted
    that very secret for that user, it has stood ever since and has not expired. *)
Theorem no_access_unearned (w : Web) (es : list WebEvent) (rq : HttpRequest) (now : Z) (w1 : Web) (c : Caller) :
  sessions (w_db w) = ∅ -> tokens (w_db w) = ∅ -> Resolve (run w es) rq now = (w1, Ok c) ->
  exists u, ca_user c = u /\ user_of (w_db (run w es)) (us_id u) = Some u /\ us_disabled u = false /\
  exists n e, es !! n = Some e /\
    match ca_token c with
    | None => exists s, earned (run w (firstn n es)) e (HashToken (rq_cookie rq)) s /\ ss_user s = us_id u /\ now <= ss_expires s /\
        forall m, (n < m <= length es)%nat -> sessions (w_db (run w (firstn m es))) !! HashToken (rq_cookie rq) = Some s
    | Some t => exists i t0, minted (run w (firstn n es)) e t0 /\ same_token t0 t /\ tk_hash t = HashToken (strings.TrimPrefix (rq_authorization rq) "Bearer ") /\ tk_user t = us_id u /\ Expired t now = false /\
        forall m, (n < m <= length es)%nat -> stands i t (run w (firstn m es))
    end.
Proof.
  intros H1 H2 H. apply Resolve_ok in H as (u & Hu & Hof & Hd & H). exists u. split_and!; [done..|]. destruct (ca_token c) as [t|].
  - destruct H as (i & Ht & Hh & Htu & Hx). destruct (tokens_history w es i t) as (n & e & t0 & He & Hm & Hs & Hst); [by rewrite H2|done|]. exists n, e. split; [done|]. by exists i, t0.
  - destruct H as (s & Hs & Hsu & Hx). destruct (sessions_history w es _ s ltac:(by rewrite H1) Hs) as (n & e & He & Hm & Hst). exists n, e. split; [done|]. by exists s.
Qed.
End Cases.
