(* ===== verification/SignInCases.v ===== *)
(** * Signing in: tokens, the throttle and the sign-ins at a provider

    What a bearer of a token cannot do; how many guesses the throttle lets through;
    that a sign-in started at a provider is finished once; how long a session lasts. *)
From S2P Require Import Prelude GoStd Timestamps Caps CapCache Roles RoleGuards AuthStore Passwords Auth SignIn AuthRuns AuthCases.
Local Open Scope string_scope.
Local Open Scope list_scope.
Local Open Scope daffa_scope.
Local Open Scope Z_scope.

(** ** The secrets of accounts *)

(** An operation that is not the setting of a password or a new account leaves every
    stored password. *)
Lemma prim_hashes db p db1 id y : apply_prim db p = Ok db1 -> accounts db1 !! id = Some y ->
  (exists x, accounts db !! id = Some x /\ ac_hash y = ac_hash x) \/ (exists u now, p = PUser u now /\ us_id u = id) \/ exists h, p = PPassword id h.
Proof.
  intros H Hy. destruct p; prims H; subst; simpl in Hy; try (left; by exists y).
  - apply lookup_insert_Some in Hy as [[<- <-]|[_ Hy]]; [right; left; by exists u, now|left; by exists y].
  - apply lookup_alter_Some in Hy as [(-> & x & Hx & ->)|[_ Hx]]; left; eexists; (split; [done|done]).
  - apply lookup_alter_Some in Hy as [(-> & x & Hx & ->)|[_ Hx]]; left; eexists; (split; [done|done]).
  - destruct (decide (id0 = id)) as [->|Hne]; [right; right; by exists hash|]. rewrite lookup_alter_ne in Hy by done. left. by exists y.
  - apply map_lookup_filter_Some in Hy as [Hy _]. left. by exists y.
Qed.

Section Cases.
Context {dg : Digest} {ar : Argon} (ttl : Z) (parseAddress : string -> option (string * string)) (lower : string -> string) (Seal Open : string -> option string) (localAuth : bool).
#[local] Abbreviation step := (web_step ttl parseAddress lower Seal Open localAuth).
#[local] Abbreviation run := (web_run ttl parseAddress lower Seal Open localAuth).
#[local] Abbreviation earned := (earned ttl Open localAuth).
#[local] Abbreviation permitted := (permitted ttl Open localAuth).
#[local] Abbreviation moves := (step_reaches ttl parseAddress lower Seal Open localAuth).

Lemma step_hashes w e id y : accounts (w_db (step w e)) !! id = Some y ->
  (exists x, accounts (w_db w) !! id = Some x /\ ac_hash y = ac_hash x) \/ (request_of e <> None -> exists rq req salt now, e = ECreateUser rq req id salt now) \/ sets_password w e id.
Proof.
  revert id y. refine (reaches_rel (permitted w e) (fun a b => forall id y, accounts b !! id = Some y -> (exists x, accounts a !! id = Some x /\ ac_hash y = ac_hash x) \/ (request_of e <> None -> exists rq req salt now, e = ECreateUser rq req id salt now) \/ sets_password w e id) _ _ _ _ _ (moves w e)).
  - intros db id y Hy. left. by exists y.
  - intros a b c H1 H2 id y Hy. destruct (H2 id y Hy) as [(x & Hx & Eq)|[?|?]]; [|by auto..]. destruct (H1 id x Hx) as [(z & Hz & Eq')|[?|?]]; [|by auto..]. left. exists z. split; [done|congruence].
  - intros db p db1 Hp Ha id y Hy. destruct (prim_hashes _ _ _ _ _ Ha Hy) as [?|[(u & now & -> & <-)|(h & ->)]]; [by left| |by auto]. right. left. by destruct Hp.
Qed.
(** Making an account over one that is there is refused. *)
Lemma create_refused w c req id salt now : auth_ok (w_db w) -> is_Some (accounts (w_db w) !! id) -> w_db (handleCreateUser parseAddress w c req id salt now).1 = w_db w.
Proof.
  intros Hok Hi. apply (ao_accounts _ Hok) in Hi. unfold handleCreateUser. cbv zeta. repeat (case_match; [done|]). destruct (ur_grants req); [done|]. destruct (normalizeEmail _ _); [|done].
  unfold CreateUser. simpl. by rewrite bool_decide_eq_true_2.
Qed.

(** C20: Who holds a token cannot turn it into more. A request that comes with one,
    whatever it asks for, signs nobody in, mints no token and sets no password: the
    sessions and tokens after it were there before, and every account that was
    there keeps its password. *)
Theorem token_cannot_rekey (w : Web) (e : WebEvent) (need : option Cap) (rq : HttpRequest) (now : Z) (w1 : Web) (c : Caller) (t : APIToken) :
  auth_ok (w_db w) -> request_of e = Some (need, rq, now) -> Resolve w rq now = (w1, Ok c) -> ca_token c = Some t ->
  (forall h s, sessions (w_db (step w e)) !! h = Some s -> sessions (w_db w) !! h = Some s) /\
  (forall i t1, tokens (w_db (step w e)) !! i = Some t1 -> exists t0, tokens (w_db w) !! i = Some t0 /\ same_token t0 t1) /\
  (forall id x y, accounts (w_db w) !! id = Some x -> accounts (w_db (step w e)) !! id = Some y -> ac_hash y = ac_hash x).
Proof.
  intros Hok Hq Hr Ht. assert (forall need w2 c2, enter w need rq now = (w2, Ok c2) -> c2 = c /\ w2 = w1) as He.
  { intros n w2 c2. unfold enter. rewrite Hr. destruct n as [cap|]; [|by intros [= <- <-]]. destruct (ScopedHas _ _ _); [by intros [= <- <-]|done]. }
  split_and!.
  - intros h s Hs. destruct (step_sessions ttl parseAddress lower Seal Open localAuth w e h s Hs) as [?|Hearn]; [done|]. by destruct e.
  - intros i t1 Ht1. destruct (step_tokens ttl parseAddress lower Seal Open localAuth w e i t1 Ht1) as [?|(t0 & (n & rq' & now' & w2 & c2 & Hq' & He' & Hno & _) & _)]; [done|].
    rewrite Hq in Hq'. injection Hq' as <- <- <-. destruct (He _ _ _ He') as [-> _]. congruence.
  - intros id x y Hx Hy. destruct (step_hashes w e id y Hy) as [(x' & Hx' & ->)|[Hc|Hk]]; [congruence| |].
    + destruct (Hc ltac:(by rewrite Hq)) as (rq' & req & salt & now' & ->). simpl in Hq. injection Hq as <- -> ->. revert Hy. simpl. unfold web_step. simpl.
      pose proof (enter_reaches w (Some UsersEdit) rq now) as Hen. destruct (enter w (Some UsersEdit) rq now) as [w2 [c2|r]] eqn:Ee; simpl in Hen.
      * destruct (He _ _ _ Ee) as [-> ->]. assert (accounts (w_db w1) = accounts (w_db w) /\ auth_ok (w_db w1)) as [Ha Hok1].
        { split; [|eapply reaches_inv; [|exact Hok|exact Hen]; intros db p db1 _; apply prim_ok]. symmetry. refine (reaches_rel reads (fun a b => accounts a = accounts b) _ _ _ _ _ Hen); [done|by etrans|].
          intros db p db1 [Hp|Hp] Ep; destruct p; try done; by injection Ep as <-. }
        rewrite create_refused by (done || (rewrite Ha; by eexists)). rewrite Ha. naive_solver congruence.
      * assert (accounts (w_db w2) = accounts (w_db w)) as ->; [|naive_solver congruence]. symmetry. refine (reaches_rel reads (fun a b => accounts a = accounts b) _ _ _ _ _ Hen); [done|by etrans|].
          intros db p db1 [Hp|Hp] Ep; destruct p; try done; by injection Ep as <-.
    + destruct e; try done. destruct Hk as (-> & w2 & c2 & He' & Hno). simpl in Hq. injection Hq as <- -> ->. destruct (He _ _ _ He') as [-> _]. congruence.
Qed.

(** ** The throttle and the states under way *)

Definition held (w : Web) := (w_limiter w, w_states w).
Lemma caps_Of_held w u : held (caps_Of w u).2 = held w.
Proof. unfold caps_Of. by destruct (CapCache.Of _ _). Qed.
Lemma Resolve_held w rq now : held (Resolve w rq now).1 = held w.
Proof.
  assert (forall w u t, held (attachCaps w u t).1 = held w) as Ha by (intros w0 u t; unfold attachCaps; pose proof (caps_Of_held w0 (us_id u)); by destruct (caps_Of w0 (us_id u)) as [[m|] w2]).
  unfold Resolve, resolveToken. destruct (strings.HasPrefix _ _).
  - destruct (APITokenUser _ _ _) as [[u t]|]; [|done]. specialize (Ha w u (Some t)). destruct (attachCaps w u (Some t)) as [w2 [c|]]; [|done]. simpl in *. unfold touch. by destruct (match tk_used t with Some _ => _ | None => _ end).
  - case_bool_decide; [done|]. destruct (SessionUser _ _ _) as [db [[u s]|]]; [|done]. apply (Ha (with_db w db)).
Qed.
Lemma enter_held w need rq now : held (enter w need rq now).1 = held w.
Proof. unfold enter. pose proof (Resolve_held w rq now) as H. destruct (Resolve w rq now) as [w1 [c|]]; [|done]. destruct need; [|done]. by destruct (ScopedHas _ _ _). Qed.
Lemma For_held w p reach : held (For Open w p reach).1 = held w.
Proof. unfold For. destruct (w_rps w !! _); [done|]. destruct (if bool_decide _ then _ else _); [|done]. by destruct reach. Qed.
Lemma BySlug_held w slug reach : held (BySlug Open w slug reach).1 = held w.
Proof. unfold BySlug. destruct (OIDCProviderBySlug _ _) as [p|]; [|done]. destruct (negb _); [done|]. pose proof (For_held w p reach). by destruct (For Open w p reach) as [w1 [rp|]]. Qed.
Lemma handle_held e w c : held (handle parseAddress lower Seal Open e w c) = held w.
Proof.
  destruct e; simpl; try done.
  - unfold handleLogout, Revoke. simpl. by case_bool_decide.
  - unfold handleCreateToken, mintToken. cbv zeta. by repeat case_match.
  - unfold handleCreateBotToken, mintToken. cbv zeta. by repeat case_match.
  - unfold handleDeleteToken. by repeat case_match.
  - unfold handleCreateUser. cbv zeta. by repeat case_match.
  - unfold handleUpdateUser. destruct (UserByID _ _) as [u|]; [|done]. set (r := match email with None => _ | Some _ => _ end). assert (held r.1 = held w) as Hr by (unfold r; by repeat case_match). clearbody r. destruct r as [w1 [x|s code]]; [|done]. simpl in Hr. by repeat case_match.
  - unfold handleDeleteUser. by repeat case_match.
  - unfold handleSetUserPassword. by repeat case_match.
  - unfold handleSetUserRoles. by repeat case_match.
  - unfold handleCreateProvider. by repeat case_match.
  - unfold handleUpdateProvider. by repeat case_match.
  - unfold handleDeleteProvider. by repeat case_match.
  - unfold handleTestProvider. destruct (OIDCProviderByID _ _) as [p|]; [|done]. pose proof (For_held (Forget w id) p reach) as Hf. by destruct (For Open _ _ _) as [w2 [rp|]].
  - unfold handleCreateMapping. cbv zeta. by repeat case_match.
Qed.
Lemma resolve_held w rp idt id now : held (resolveOIDCUser w rp idt id now).1 = held w.
Proof.
  unfold resolveOIDCUser. cbv zeta. assert (forall w r w1, on_db w r = Some w1 -> held w1 = held w) as Ho by (intros w0 [db|] w1; [|done]; by intros [= <-]). set (gs := match RolesForClaims _ _ _ with [] => _ | _ => _ end). clearbody gs.
  destruct (UserBySub _ _ _) as [u|[]]; try done.
  - destruct (match gs with [] => _ | _ => false end); [done|]. destruct (on_db w _) as [w1|] eqn:E; [|done]. apply Ho in E. by destruct (negb _ && negb _).
  - destruct gs as [|g gs]; [done|]. destruct (on_db w _) as [w1|] eqn:E; [|done]. apply Ho in E. destruct (on_db w1 _) as [w2|] eqn:E2; [|done]. apply Ho in E2. simpl. by rewrite <- E, <- E2.
Qed.
Lemma Issue_held w user glass random now : held (Issue ttl w user glass random now).1 = held w.
Proof. unfold Issue. by destruct (CreateSession _ _ _). Qed.
Lemma glass_held w token id random now : held (handleBreakGlass ttl w token id random now).1 = held w.
Proof.
  unfold handleBreakGlass. destruct (if bool_decide _ then _ else _) as [db valid]. destruct (negb valid); [done|]. unfold breakGlassUser. assert (forall w r w1, on_db w r = Some w1 -> held w1 = held w) as Ho by (intros w0 [d|] w1; [|done]; by intros [= <-]).
  set (q := match UserByUsername _ _ with Ok _ => _ | Err _ => _ end). assert (forall w1 u, q = Some (w1, u) -> held w1 = held w) as Hq.
  { intros w1 u. unfold q. destruct (UserByUsername _ _) as [v|[]]; try done; [by intros [= <- _]|]. destruct (on_db _ _) as [w2|] eqn:E; [|done]. intros [= <- _]. by apply Ho in E. }
  clearbody q. destruct q as [[w1 u]|]; [|done]. specialize (Hq w1 u eq_refl). destruct (AdminRole _) as [admin|]; [|done]. destruct (on_db w1 _) as [w2|] eqn:E; [|done]. apply Ho in E. pose proof (Issue_held (caps_Invalidate w2) (us_id u) true random now) as Hi.
  destruct (Issue _ _ _ _ _ _) as [w3 [cookie|]]; simpl in *; unfold held in *; simpl in *; congruence.
Qed.
(** Only signing in with a password moves the throttle. *)
Definition guess_key (e : WebEvent) : option string := match e with ELogin username _ ip _ _ _ => Some (login_key (strings.TrimSpace username) ip) | _ => None end.
Lemma step_limiter w e : guess_key e = None -> w_limiter (step w e) = w_limiter w.
Proof.
  intros Hg. unfold web_step. destruct (request_of e) as [[[need rq] now]|] eqn:Eq.
  - pose proof (enter_held w need rq now) as He. destruct (enter w need rq now) as [w1 [c|]]; simpl in He; [|by injection He]. pose proof (handle_held e w1 c) as Hh. unfold held in *. congruence.
  - destruct e; try done.
    + unfold handleOIDCStart. pose proof (BySlug_held w slug reach) as Hb. destruct (BySlug Open w slug reach) as [w1 [rp|s' c]]; by injection Hb.
    + unfold handleOIDCCallback. destruct (negb _); [done|]. pose proof (BySlug_held w slug reach) as Hb. destruct (BySlug Open w slug reach) as [w1 [rp|s' c]]; injection Hb as Hl Hs; [|done]. unfold take. simpl. destruct (match w_states w1 !! state with Some _ => _ | None => _ end) as [en|]; [|done]. destruct (negb _); [done|]. destruct (exchange _ _ _) as [idt|]; [|done].
      pose proof (resolve_held (with_states w1 (delete state (w_states w1))) rp idt id now) as Hr. destruct (resolveOIDCUser _ _ _ _ _) as [w2 [u| |]]; injection Hr as Hr1 Hr2; simpl in *; [|congruence..]. destruct (us_disabled u); [simpl; congruence|]. pose proof (Issue_held w2 (us_id u) false random now) as Hi. destruct (Issue _ _ _ _ _ _) as [w3 [cookie|]]; injection Hi as Hi1 Hi2; simpl in *; congruence.
    + pose proof (glass_held w token id random now) as H. by injection H.
    + by destruct (apply_prim _ _).
    + unfold MintBreakGlassToken. by destruct (CreateBreakGlassToken _ _ _).
Qed.

(** What a guess is answered. *)
Definition answer (w : Web) (e : WebEvent) : option (WebReply string) :=
  match e with ELogin username password ip random now later => Some (handleLocalLogin ttl localAuth w username password ip random now later).2 | _ => None end.
(** Refused as wrong credentials: the passwords that were looked at and were not
    the right ones. *)
Definition wrong (w : Web) (e : WebEvent) : bool := match answer w e with Some (Failed 401 _) => true | _ => false end.
Definition guess_later (e : WebEvent) : Z := match e with ELogin _ _ _ _ _ later => later | _ => 0 end.
(** When, of the guesses for a key. *)
Fixpoint wrong_guesses (key : string) (w : Web) (es : list WebEvent) : list Z :=
  match es with
  | [] => []
  | e :: es => (if bool_decide (guess_key e = Some key) && wrong w e then [guess_later e] else []) ++ wrong_guesses key (step w e) es
  end.
(** No guess for the key gets in. *)
Fixpoint turned_away (key : string) (w : Web) (es : list WebEvent) : Prop :=
  match es with
  | [] => True
  | e :: es => (guess_key e = Some key -> exists s code, answer w e = Some (Failed s code) /\ s <> 500) /\ turned_away key (step w e) es
  end.
(** The guesses come one after the other. *)
Fixpoint clocked (t : Z) (es : list WebEvent) : Prop :=
  match es with
  | [] => True
  | ELogin _ _ _ _ now later :: es => t <= now <= later /\ clocked later es
  | _ :: es => clocked t es
  end.

Lemma guess_limiter w e key now later : match e with ELogin _ _ _ _ n l => n = now /\ l = later | _ => False end -> guess_key e = Some key -> (exists s code, answer w e = Some (Failed s code) /\ s <> 500) ->
  if wrong w e then Allow loginLimits (w_limiter w) key now = true /\ w_limiter (step w e) = Fail loginLimits (w_limiter w) key later else w_limiter (step w e) = w_limiter w.
Proof.
  destruct e; try done. intros [-> ->] [= Hk] (s & code & Ha & Hs). unfold wrong. rewrite Ha. simpl in Ha. injection Ha as Ha. unfold web_step. simpl. revert Ha. unfold handleLocalLogin.
  destruct (negb localAuth); [intros [= <- <-]; done|]. cbv zeta. rewrite Hk. destruct (_ || _); [intros [= <- <-]; done|]. destruct (Allow _ _ _ _) eqn:Eal; simpl; [|intros [= <- <-]; done].
  destruct (UserByUsername _ _) as [u|[]]; try (intros [= <- <-]; done). destruct (_ || us_disabled u); [intros [= <- <-]; done|]. destruct (negb _); [intros [= <- <-]; done|].
  destruct (Issue _ _ _ _ _ _) as [w1 [cookie|]]; [|by intros [= <- <-]]. destruct (caps_Of _ _) as [[m|] w2]; [done|by intros [= <- <-]].
Qed.
Lemma other_limiter w e key k : guess_key e = Some k -> k <> key -> w_limiter (step w e) !! key = w_limiter w !! key.
Proof.
  destruct e; try done. intros [= Hk] Hne. unfold web_step. simpl. unfold handleLocalLogin. destruct (negb localAuth); [done|]. cbv zeta. rewrite Hk. destruct (_ || _); [done|]. destruct (negb _); [done|].
  assert (forall m n, Fail loginLimits m k n !! key = m !! key) as Hf by (intros m n; unfold Fail; by rewrite lookup_insert_ne). destruct (UserByUsername _ _) as [u|[]]; try done; [|by apply Hf]. destruct (_ || us_disabled u); [by apply Hf|]. destruct (negb _); [by apply Hf|].
  set (w0 := with_limiter w (Reset (w_limiter w) k)). assert (w_limiter w0 !! key = w_limiter w !! key) as Hw0 by (unfold w0, Reset; simpl; by rewrite lookup_delete_ne). pose proof (Issue_held w0 (us_id u) false random later) as Hi. destruct (Issue _ _ _ _ _ _) as [w1 [cookie|]]; injection Hi as Hl Hs'; [|cbn [fst]; rewrite Hl; exact Hw0].
  pose proof (caps_Of_held (logged w1 (mkLine (us_id u) (Label u) "auth.login" "" "ok" "")) (us_id u)) as Hc. destruct (caps_Of _ _) as [[m|] w2]; injection Hc as Hc1 Hc2; cbn [fst snd] in *; rewrite Hc1, Hl; exact Hw0.
Qed.

(** How many wrong guesses in [a, a + window], with the bucket left over. *)
Definition window : Z := li_window loginLimits.
Definition counted_in (window a t : Z) (b : option Bucket) (n : nat) : Prop :=
  (a + window < t /\ (n <= 20)%nat) \/ n = 0%nat \/
  (a <= t /\ exists k u, b = Some (mkBucket k u) /\ (k <= 10)%nat /\ ((u - window < a /\ (n <= k)%nat) \/ (a <= u - window /\ (n <= 10 + k)%nat))).
Definition counted : Z -> Z -> option Bucket -> nat -> Prop := counted_in window.
Definition within (a t : Z) : bool := (a <=? t) && (t <=? a + window).
Lemma counted_bound a t b n : counted a t b n -> (n <= 20)%nat.
Proof. intros [[_ ?]|[->|(_ & k & u & _ & Hk & [[_ ?]|[_ ?]])]]; lia. Qed.
Lemma counted_later a t t' b n : t <= t' -> counted a t b n -> counted a t' b n.
Proof. intros Ht [[? ?]|[->|(Ha & k & u & H)]]; [left; split; [lia|done]|right; by left|right; right; split; [lia|by exists k, u]]. Qed.
Lemma counted_fail a t m key now later n : t <= now <= later -> Allow loginLimits m key now = true -> counted a t (m !! key) n ->
  counted a later (Fail loginLimits m key later !! key) (if within a later then S n else n).
Proof.
  intros Ht Hal Hc. unfold Fail. rewrite lookup_insert_eq. unfold Allow, live_bucket in *. unfold within, counted, counted_in in *. change (li_max loginLimits) with 10%nat in Hal. change (li_window loginLimits) with window.
  assert (0 < window) as HW by done. generalize dependent window. intros W Hc HW. destruct (decide (a + W < later)) as [Hlate|Hlate].
  { left. split; [lia|]. assert ((later <=? a + W) = false) as -> by lia. rewrite andb_false_r. destruct Hc as [[_ ?]|[->|(_ & k & u & _ & Hk & [[_ ?]|[_ ?]])]]; lia. }
  assert ((later <=? a + W) = true) as Hin by lia. rewrite Hin, andb_true_r. destruct (decide (a <= later)) as [Ha|Ha]; [|right; left; assert ((a <=? later) = false) as -> by lia; destruct Hc as [[? _]|[->|[? _]]]; [lia|done|lia]].
  assert ((a <=? later) = true) as -> by lia. right; right. split; [lia|]. destruct Hc as [[? _]|Hc]; [lia|].
  destruct (m !! key) as [[k u]|]; simpl in *.
  - destruct (u <? later) eqn:El; [exists 1%nat, (later + W)|].
    + split_and!; [done|lia|]. right. split; [lia|]. destruct Hc as [->|(_ & k' & u' & [= <- <-] & Hk & [[? ?]|[? ?]])]; lia.
    + assert ((u <? now) = false) as Eln by lia. rewrite Eln in Hal. simpl in Hal. apply Nat.ltb_lt in Hal. exists (S k), u. split_and!; [done|lia|]. destruct (decide (u - W < a)); [left|right]; (split; [lia|]); destruct Hc as [->|(_ & k' & u' & [= <- <-] & Hk & [[? ?]|[? ?]])]; lia.
  - exists 1%nat, (later + W). split_and!; [done|lia|]. right. split; [lia|]. destruct Hc as [->|(_ & k' & u' & ? & _)]; [lia|done].
Qed.

(** C21: Guessing one at a time is slow. From whatever the server has counted, as
    long as no password for a name from an address is right, at most twenty are
    looked at in any fifteen minutes, however many are sent and whatever other
    requests come between them — provided that each guess is answered before the
    next event begins ([clocked]). Guesses that overlap all pass the check before
    the first of them is counted, and no bound holds for them. *)
Theorem throttle_bounds (key : string) (w : Web) (es : list WebEvent) (t a : Z) :
  clocked t es -> turned_away key w es -> (length (List.filter (within a) (wrong_guesses key w es)) <= 20)%nat.
Proof.
  intros Hc Ht. assert (forall es w t n, clocked t es -> turned_away key w es -> counted a t (w_limiter w !! key) n -> (n + length (List.filter (within a) (wrong_guesses key w es)) <= 20)%nat) as H.
  { clear. induction es as [|e es IH]; intros w t n Hc Ht Hn; [simpl; apply counted_bound in Hn; lia|]. destruct Ht as [Ha Ht]. simpl wrong_guesses. rewrite List.filter_app, length_app.
    assert (exists t', clocked t' es /\ t <= t' /\ (match e with ELogin _ _ _ _ now later => t <= now <= later /\ t' = later | _ => t' = t end)) as (t' & Hc' & Hle & He) by (destruct e; try (by exists t); destruct Hc as [? ?]; exists later; split_and!; (done || lia)).
    destruct (decide (guess_key e = Some key)) as [Hk|Hk].
    - rewrite bool_decide_eq_true_2 by done. simpl. destruct e; try done. destruct He as [He ->]. pose proof (guess_limiter w (ELogin username password ip random now later) key now later ltac:(done) Hk (Ha Hk)) as Hl. destruct (wrong w _).
      + destruct Hl as [Hal Hl]. specialize (IH (step w (ELogin username password ip random now later)) later (if within a later then S n else n) Hc' Ht). rewrite Hl in IH. specialize (IH (counted_fail a t _ key now later n He Hal Hn)). simpl. destruct (within a later); simpl; lia.
      + simpl. apply (IH _ later); [done|done|]. rewrite Hl. by eapply counted_later.
    - rewrite bool_decide_eq_false_2 by done. simpl. apply (IH _ t'); [done|done|]. assert (w_limiter (step w e) !! key = w_limiter w !! key) as -> by (destruct (guess_key e) as [k|] eqn:Ek; [apply (other_limiter w e key k Ek); congruence|by rewrite step_limiter]). by eapply counted_later. }
  apply (H es w t 0%nat Hc Ht). right. by left.
Qed.

(** ** Sign-ins at a provider *)

Lemma other_states w e : match e with EStart _ _ _ _ _ | ECallback _ _ _ _ _ _ _ _ _ => False | _ => True end -> w_states (step w e) = w_states w.
Proof.
  intros Hg. unfold web_step. destruct (request_of e) as [[[need rq] now]|] eqn:Eq.
  - pose proof (enter_held w need rq now) as He. destruct (enter w need rq now) as [w1 [c|]]; simpl in He; [|by injection He]. pose proof (handle_held e w1 c) as Hh. unfold held in *. congruence.
  - destruct e; try done.
    + unfold handleLocalLogin. destruct (negb localAuth); [done|]. cbv zeta. destruct (_ || _); [done|]. destruct (negb _); [done|]. destruct (UserByUsername _ _) as [u|[]]; try done. destruct (_ || us_disabled u); [done|]. destruct (negb _); [done|].
      set (w0 := with_limiter w _). pose proof (Issue_held w0 (us_id u) false random later) as Hi. destruct (Issue _ _ _ _ _ _) as [w1 [cookie|]]; injection Hi as Hl Hs; [|exact Hs].
      pose proof (caps_Of_held (logged w1 (mkLine (us_id u) (Label u) "auth.login" "" "ok" "")) (us_id u)) as Hc. destruct (caps_Of _ _) as [[m|] w2]; injection Hc as Hc1 Hc2; cbn [fst snd] in *; by rewrite Hc2, Hs.
    + pose proof (glass_held w token id random now) as H. by injection H.
    + by destruct (apply_prim _ _).
    + unfold MintBreakGlassToken. by destruct (CreateBreakGlassToken _ _ _).
Qed.
(** What is left of a callback that was finished: its state is taken. *)
Definition finished (w : Web) (e : WebEvent) : bool :=
  match e with ECallback slug qerror state code reach exchange id random now => match (handleOIDCCallback ttl Open w slug qerror state code reach exchange id random now).2 with Done _ => true | _ => false end | _ => false end.
Lemma callback_states w slug qerror state code reach exchange id random now : let e := ECallback slug qerror state code reach exchange id random now in
  w_states (step w e) = w_states w /\ finished w e = false \/
  w_states (step w e) = delete state (w_states w) /\ (finished w e = true -> exists rp en idt, (BySlug Open w slug reach).2 = Done rp /\ w_states w !! state = Some en /\ now <= se_expires en /\ se_provider en = op_id rp /\ exchange rp code (se_verifier en) = Some idt).
Proof.
  intros e. unfold e, finished, web_step. simpl. unfold handleOIDCCallback. destruct (negb _); [by left|]. pose proof (BySlug_held w slug reach) as Hb. destruct (BySlug Open w slug reach) as [w1 [rp|s' c]] eqn:Eb; injection Hb as Hl Hs; [|by left]. right.
  unfold take. rewrite Hs. destruct (match w_states w !! state with Some _ => _ | None => _ end) as [en|] eqn:Een; [|simpl; split; [done|done]]. destruct (w_states w !! state) as [en'|] eqn:Est; [|done]. destruct (se_expires en' <? now) eqn:El; [done|]. injection Een as ->. apply Z.ltb_ge in El.
  destruct (negb _) eqn:Ep; [done|]. apply negb_false_iff, bool_decide_eq_true in Ep. destruct (exchange rp code (se_verifier en)) as [idt|] eqn:Ex; [|done].
  pose proof (resolve_held (with_states w1 (delete state (w_states w))) rp idt id now) as Hr. split; [|intros _; by exists rp, en, idt].
  destruct (resolveOIDCUser _ _ _ _ _) as [w2 [u| |]]; injection Hr as Hr1 Hr2; [|exact Hr2..]. destruct (us_disabled u); [exact Hr2|]. pose proof (Issue_held w2 (us_id u) false random now) as Hi. destruct (Issue _ _ _ _ _ _) as [w3 [cookie|]]; injection Hi as Hi1 Hi2; cbn [fst w_states logged] in *; congruence.
Qed.
Lemma step_states w e state en : w_states (step w e) !! state = Some en -> w_states w !! state = Some en \/
  exists slug reach random random' now rp, e = EStart slug reach random random' now /\ (BySlug Open w slug reach).2 = Done rp /\ state = newToken random /\ en = mkState (newToken random') (op_id rp) (now + 10 * minute).
Proof.
  intros H. destruct e; try (left; by rewrite other_states in H).
  - revert H. unfold web_step. simpl. unfold handleOIDCStart. pose proof (BySlug_held w slug reach) as Hb. destruct (BySlug Open w slug reach) as [w1 [rp|s' c]] eqn:Eb; injection Hb as Hl Hs; [|simpl; rewrite Hs; by left]. simpl. unfold put. rewrite Hs.
    intros [[<- <-]|[_ Hf]]%lookup_insert_Some; [right; exists slug, reach, random, random', now, rp; by rewrite Eb|left]. by apply map_lookup_filter_Some in Hf as [? _].
  - destruct (callback_states w slug qerror state0 code reach exchange id random now) as [[Hs _]|[Hs _]]; rewrite Hs in H; [by left|]. left. by apply lookup_delete_Some in H as [_ ?].
Qed.

(** C22: A sign-in at a provider is finished once, by what started it. Whatever was
    done since a start of the server, a callback that signs somebody in carries the
    state of a sign-in that this server started, at the provider it comes back to
    and no more than ten minutes before, redeems its code with the verifier of that
    start, and no callback in between was answered with a session for that state. *)
Theorem started_once (w : Web) (es : list WebEvent) (n : nat) slug qerror state code reach exchange id random now :
  w_states w = ∅ -> es !! n = Some (ECallback slug qerror state code reach exchange id random now) -> finished (run w (firstn n es)) (ECallback slug qerror state code reach exchange id random now) = true ->
  exists m slug' reach' r r' t0 rp rp' idt, (m < n)%nat /\ es !! m = Some (EStart slug' reach' r r' t0) /\ state = newToken r /\
    (BySlug Open (run w (firstn m es)) slug' reach').2 = Done rp' /\ (BySlug Open (run w (firstn n es)) slug reach).2 = Done rp /\ op_id rp' = op_id rp /\ now <= t0 + 10 * minute /\ exchange rp code (newToken r') = Some idt /\
    forall k slug2 qerror2 code2 reach2 exchange2 id2 random2 now2, (m < k < n)%nat -> es !! k = Some (ECallback slug2 qerror2 state code2 reach2 exchange2 id2 random2 now2) ->
      finished (run w (firstn k es)) (ECallback slug2 qerror2 state code2 reach2 exchange2 id2 random2 now2) = false.
Proof.
  intros H0 Hn Hf. pose proof (lookup_lt_Some _ _ _ Hn) as Hl. destruct (callback_states (run w (firstn n es)) slug qerror state code reach exchange id random now) as [[_ Hc]|[_ Hc]]; [congruence|].
  destruct (Hc Hf) as (rp & en & idt & Hrp & Hen & Hx & Hp & Hex). destruct (since ttl parseAddress lower Seal Open localAuth (fun w => w_states w !! state = Some en) w (firstn n es)) as (m & e & He & Hno & Hst & Hsince); [by rewrite H0|done|].
  pose proof (lookup_lt_Some _ _ _ He) as Hm. rewrite length_firstn in Hm, Hsince. assert (forall j, (j <= n)%nat -> firstn j (firstn n es) = firstn j es) as Hff by (intros j Hj; rewrite firstn_firstn; f_equal; lia).
  rewrite lookup_take_lt in He by lia. rewrite Hff in Hno, Hst by lia. cbv beta in Hno, Hst, Hsince. destruct (step_states _ _ _ _ Hst) as [?|(slug' & reach' & r & r' & t0 & rp' & -> & Hrp' & Hr & ->)]; [done|].
  exists m, slug', reach', r, r', t0, rp, rp', idt. cbn [se_expires se_provider se_verifier] in *. split_and!; try done; [lia|]. intros k slug2 qerror2 code2 reach2 exchange2 id2 random2 now2 Hk Hek.
  apply not_true_is_false. intros Efin. destruct (callback_states (run w (firstn k es)) slug2 qerror2 state code2 reach2 exchange2 id2 random2 now2) as [[_ Hb]|[Hgone _]]; [cbv zeta in Hb; rewrite Efin in Hb; discriminate Hb|].
  specialize (Hsince (S k) ltac:(lia)). rewrite Hff, (take_S_r es k _ Hek), (run_snoc ttl parseAddress lower Seal Open localAuth) in Hsince by lia. rewrite Hgone, lookup_delete_eq in Hsince. done.
Qed.
End Cases.
