(* ===== verification/AuthLife.v ===== *)
(** * Signing in: how long it lasts, and the way back in

    A session and a token let their user in until they expire and no longer; a
    break-glass token opens the server, whole, once; what a change of roles that is
    refused leaves behind. *)
From S2P Require Import Prelude GoStd Timestamps Caps CapCache Roles RoleGuards AuthStore Passwords Auth SignIn AuthRuns AuthCases.
Local Open Scope string_scope.
Local Open Scope list_scope.
Local Open Scope daffa_scope.
Local Open Scope Z_scope.

(** ** A user through the operations *)

Lemma user_of_id db id u : user_of db id = Some u -> us_id u = id /\ is_Some (users (core db) !! id) /\ is_Some (accounts db !! id).
Proof. unfold user_of. destruct (users _ !! id); [|done]. destruct (accounts _ !! id); [|done]. intros [= <-]. split_and!; [done|by eexists..]. Qed.
Lemma UserByUsername_of db name u : UserByUsername db name = Ok u -> user_of db (us_id u) = Some u.
Proof. intros H. by apply user_where_ok in H as (_ & _ & _ & ?). Qed.
Lemma user_of_cascade db c id : users c = users (core db) -> user_of (cascade db c) id = user_of db id.
Proof.
  intros Hu. unfold user_of. simpl. rewrite Hu. destruct (users (core db) !! id) eqn:E; [|done]. destruct (accounts db !! id) as [a|] eqn:Ea.
  - assert (filter (fun kv : string * Account => is_Some (users (core db) !! kv.1)) (accounts db) !! id = Some a) as ->; [|done]. apply map_lookup_filter_Some. split; [done|by eexists].
  - assert (filter (fun kv : string * Account => is_Some (users (core db) !! kv.1)) (accounts db) !! id = None) as ->; [|done]. apply map_lookup_filter_None. by left.
Qed.
Lemma user_of_touch db i now id : user_of (TouchLogin db i now) id = user_of db id.
Proof. unfold user_of, TouchLogin, on_account. simpl. destruct (users (core db) !! id); [|done]. destruct (decide (i = id)) as [->|Hne]; [rewrite lookup_alter_eq; by destruct (accounts db !! id)|by rewrite lookup_alter_ne]. Qed.
Lemma CreateUser_of db u now db1 : CreateUser db u now = Ok db1 -> user_of db1 (us_id u) = Some u /\ sessions db1 = sessions db /\ roles (core db1) = roles (core db).
Proof.
  unfold CreateUser. repeat (case_match; [done|]). intros [= <-]. unfold user_of. simpl. rewrite !lookup_insert_eq. by destruct u.
Qed.

Section Life.
Context {dg : Digest} {ar : Argon} (ttl : Z) (parseAddress : string -> option (string * string)) (lower : string -> string) (Seal Open : string -> option string) (localAuth : bool).

(** ** Who is behind a cookie *)

Definition by_cookie (cookie : string) (rq : HttpRequest) : Prop := rq_cookie rq = cookie /\ strings.HasPrefix (rq_authorization rq) ("Bearer " +:+ TokenPrefix) = false.
Lemma attach_some w u t : exists w1 m, attachCaps w u t = (w1, Ok (mkCaller u m t)) /\ w_db w1 = w_db w /\ (w_caps w = ∅ -> m = EffectiveMask (core (w_db w)) (us_id u)).
Proof.
  unfold attachCaps, caps_Of, CapCache.Of, CapCache.Of_begin. simpl. destruct (w_caps w !! us_id u) as [m|] eqn:E; simpl; eexists _, _; (split_and!; [done|done|]); intros Hc; [by rewrite Hc in E|done].
Qed.
Lemma newToken_some random : random <> "" -> newToken random <> "".
Proof. intros H E. apply H. apply base64.RawURL_inj. exact E. Qed.
Lemma cookie_lets_in w rq now s u : rq_cookie rq <> "" -> by_cookie (rq_cookie rq) rq -> sessions (w_db w) !! HashToken (rq_cookie rq) = Some s -> user_of (w_db w) (ss_user s) = Some u -> us_disabled u = false -> now <= ss_expires s ->
  exists w1 m, Resolve w rq now = (w1, Ok (mkCaller u m None)) /\ (w_caps w = ∅ -> m = EffectiveMask (core (w_db w)) (us_id u)).
Proof.
  intros Hc [_ Hb] Hs Hu Hd Hx. unfold Resolve, SessionUser. rewrite Hb, bool_decide_eq_false_2, Hs, Hu by done. assert ((ss_expires s <? now) = false) as -> by lia. rewrite Hd.
  destruct (attach_some (with_db w (w_db w)) u None) as (w1 & m & -> & _ & Hm). by exists w1, m.
Qed.
Lemma cookie_refused w rq now : by_cookie (rq_cookie rq) rq -> (forall s u, sessions (w_db w) !! HashToken (rq_cookie rq) = Some s -> user_of (w_db w) (ss_user s) = Some u -> ss_expires s < now \/ us_disabled u = true) -> (Resolve w rq now).2 = Err Unauthenticated.
Proof.
  intros [_ Hb] H. unfold Resolve, SessionUser. rewrite Hb. case_bool_decide; [done|]. destruct (sessions (w_db w) !! _) as [s|]; [|done]. destruct (user_of _ _) as [u|] eqn:Eu; [|done]. destruct (ss_expires s <? now) eqn:El; [done|]. destruct (H s u eq_refl Eu) as [?| ->]; [lia|done].
Qed.
(** What [Issue] leaves. *)
Lemma Issue_inv w user glass random now w1 cookie : Issue ttl w user glass random now = (w1, Ok cookie) ->
  cookie = newToken random /\ w_caps w1 = w_caps w /\ core (w_db w1) = core (w_db w) /\ sessions (w_db w1) !! HashToken cookie = Some (mkSession user glass (if glass then now + hour else now + ttl)) /\ forall id, user_of (w_db w1) id = user_of (w_db w) id.
Proof.
  unfold Issue, CreateSession. case_bool_decide; [done|]. destruct (negb _); [done|]. intros [= <- <-]. split_and!; try done; [simpl; by rewrite lookup_insert_eq|]. intros id. simpl. by rewrite user_of_touch.
Qed.

(** A password signs its user in, for as long as it says. Whoever is answered
    with a cookie is the user of that name; a request that carries the cookie is
    theirs until the session expires — unless they are disabled — is nobody's
    after, and nobody's once they have signed out. *)
Theorem session_life (w w1 : Web) (username password ip random cookie : string) (now later now2 : Z) (rq : HttpRequest) :
  handleLocalLogin ttl localAuth w username password ip random now later = (w1, Done cookie) -> random <> "" -> by_cookie cookie rq ->
  exists u, UserByUsername (w_db w) (strings.TrimSpace username) = Ok u /\ VerifyPassword (us_hash u) password = Accepted /\
    (now2 <= later + ttl -> exists w2 m, Resolve w1 rq now2 = (w2, Ok (mkCaller u m None))) /\
    (later + ttl < now2 -> (Resolve w1 rq now2).2 = Err Unauthenticated) /\
    (Resolve (handleLogout w1 rq).1 rq now2).2 = Err Unauthenticated.
Proof.
  unfold handleLocalLogin. destruct (negb localAuth); [done|]. cbv zeta. destruct (_ || _); [done|]. destruct (negb (Allow _ _ _ _)); [done|]. destruct (UserByUsername _ _) as [u|[]] eqn:Eu; try done. destruct (_ || us_disabled u) eqn:Ed; [done|]. apply orb_false_elim in Ed as [_ Ed]. destruct (negb _) eqn:Ev; [done|].
  apply negb_false_iff, bool_decide_eq_true in Ev. destruct (Issue _ _ _ _ _ _) as [w0 [ck|]] eqn:Ei; [|done]. apply Issue_inv in Ei as (-> & _ & _ & Hs & Hof). pose proof (caps_Of_db (logged w0 (mkLine (us_id u) (Label u) "auth.login" "" "ok" "")) (us_id u)) as Hdb. destruct (caps_Of _ _) as [[m|] w2]; [|done]. simpl in Hdb.
  intros [= -> <-] Hr Hb. pose proof Hb as [Hck Hnb]. pose proof (newToken_some _ Hr) as Hne. exists u. rewrite <- Hdb in Hs, Hof. rewrite <- Hck in *. assert (user_of (w_db w1) (us_id u) = Some u) as Hu by (rewrite Hof; by eapply UserByUsername_of).
  split_and!; [done|done| | |].
  - intros Hle. destruct (cookie_lets_in w1 rq now2 _ u Hne Hb Hs Hu Ed Hle) as (w3 & m' & -> & _). by exists w3, m'.
  - intros Hlt. apply cookie_refused; [done|]. intros s v Hs' _. left. rewrite Hs in Hs'. injection Hs' as <-. simpl. lia.
  - apply cookie_refused; [done|]. intros s v. unfold handleLogout, Revoke. simpl. rewrite bool_decide_eq_false_2 by done. simpl. by rewrite lookup_delete_eq.
Qed.

(** ** Tokens *)

(** The days of a token, exact up to the 106,751 that 64 bits of nanoseconds hold. *)
Lemma days_exact days : 0 <= days <= 106751 -> days_of days = days * (24 * hour).
Proof. intros H. unfold days_of, hour, minute, second. rewrite (wrap64_id (days * 24)) by lia. rewrite wrap64_id; lia. Qed.
Lemma token_with_found db i t : auth_ok db -> tokens db !! i = Some t -> token_with db (tk_hash t) = Some t.
Proof.
  intros Hok Ht. unfold token_with. destruct (List.find _ _) as [[j t']|] eqn:Ef; simpl.
  - apply List.find_some in Ef as [Hin Hh]. apply list_elem_of_In, elem_of_map_to_list in Hin. apply bool_decide_eq_true in Hh. simpl in Hh. assert (j = i) as -> by (apply (ao_hashes _ Hok j i t' t); auto). congruence.
  - exfalso. pose proof (List.find_none _ _ Ef (i, t)) as Hn. simpl in Hn. rewrite bool_decide_eq_true_2 in Hn by done. by specialize (Hn ltac:(by apply list_elem_of_In, elem_of_map_to_list)).
Qed.
Definition by_bearer (secret : string) (rq : HttpRequest) : Prop := rq_authorization rq = "Bearer " +:+ secret.
Lemma bearer_resolve w rq random now : by_bearer (NewAPIToken random) rq -> Resolve w rq now = resolveToken w (NewAPIToken random) now.
Proof.
  unfold by_bearer, Resolve. intros ->. unfold NewAPIToken. assert (strings.HasPrefix ("Bearer " +:+ (TokenPrefix +:+ newToken random)) ("Bearer " +:+ TokenPrefix) = true) as -> by (apply HasPrefix_spec; by exists (newToken random)).
  assert (strings.TrimPrefix ("Bearer " +:+ (TokenPrefix +:+ newToken random)) "Bearer " = TokenPrefix +:+ newToken random) as -> by apply TrimPrefix_app. done.
Qed.

(** C24: A token is its minter's for the days that were asked for. Who mints one and
    was let in is known by its secret until the last instant of the last day, and
    nobody is from then on; a token without days does not expire; revoked, it lets
    nobody in. The days are exact up to 106,751. *)
Theorem token_life (w w1 w2 : Web) (c c2 : Caller) (name secret id random : string) (days now now2 : Z) (rq : HttpRequest) :
  auth_ok (w_db w) -> user_of (w_db w) (us_id (ca_user c)) = Some (ca_user c) -> us_disabled (ca_user c) = false ->
  handleCreateToken w c name days id random now = (w1, Done secret) -> days <= 106751 -> by_bearer secret rq ->
  (days = 0 \/ now2 <= now + days * (24 * hour) -> exists w3 m t, Resolve w1 rq now2 = (w3, Ok (mkCaller (ca_user c) m (Some t))) /\ tk_id t = id) /\
  (0 < days -> now + days * (24 * hour) < now2 -> (Resolve w1 rq now2).2 = Err Unauthenticated) /\
  (handleDeleteToken w1 c2 id = (w2, Done tt) -> (Resolve w2 rq now2).2 = Err Unauthenticated).
Proof.
  intros Hok Hu Hd. unfold handleCreateToken. destruct (by_token c); [done|]. unfold mintToken. cbv zeta. destruct (negb _); [done|]. destruct (days <? 0) eqn:E0; [done|]. set (t := mkToken _ _ _ _ _ _ _ _). destruct (CreateAPIToken _ _) as [db|[]] eqn:Ec; try done. intros [= <- <-] Hdays Hb.
  pose proof (create_token_ok _ _ _ Hok Ec) as Hok1. unfold CreateAPIToken in Ec. destruct (_ || _); [done|]. destruct (negb _); [done|]. injection Ec as <-. set (db := set_tokens _ _) in *.
  assert (tokens db !! id = Some t) as Ht by (simpl; by rewrite lookup_insert_eq). assert (user_of db (us_id (ca_user c)) = Some (ca_user c)) as Hu1 by done. assert (Expired t now2 = (0 <? days) && (now + days * (24 * hour) <? now2)) as Hx.
  { unfold Expired, t. simpl. destruct (0 <? days) eqn:E; [|done]. rewrite days_exact by lia. done. }
  assert (forall w', w_db w' = db -> APITokenUser (w_db w') (HashToken (NewAPIToken random)) now2 = if Expired t now2 then Err NoRow else Ok (ca_user c, t)) as Ha.
  { intros w' ->. unfold APITokenUser. rewrite (token_with_found db id t Hok1 Ht : token_with db (HashToken (NewAPIToken random)) = Some t). simpl tk_user. rewrite Hu1, Hd, orb_false_r. done. }
  set (wa := audit _ _ _ _ _ _). split_and!.
  - intros Hle. rewrite (bearer_resolve _ _ _ _ Hb). unfold resolveToken. rewrite (Ha wa eq_refl), Hx. destruct ((0 <? days) && _) eqn:E; [destruct Hle; lia|]. destruct (attach_some wa (ca_user c) (Some t)) as (w3 & m & -> & _ & _). by eexists _, m, t.
  - intros Hp Hlt. rewrite (bearer_resolve _ _ _ _ Hb). unfold resolveToken. rewrite (Ha wa eq_refl), Hx. assert ((0 <? days) && (now + days * (24 * hour) <? now2) = true) as -> by lia. done.
  - unfold handleDeleteToken. destruct (by_token c2); [done|]. unfold APITokenByID. change (tokens (w_db wa)) with (tokens db). rewrite Ht. destruct (negb (bool_decide _) && negb _) eqn:Eg; [intros [=]|]. intros [= <-]. rewrite (bearer_resolve _ _ _ _ Hb). unfold resolveToken, APITokenUser. simpl.
    assert (token_with (DeleteAPIToken db id) (HashToken (NewAPIToken random)) = None) as H; [|by rewrite H]. unfold token_with. destruct (List.find _ _) as [[j t']|] eqn:Ef; [|done]. exfalso. apply List.find_some in Ef as [Hin Hh]. apply list_elem_of_In, elem_of_map_to_list in Hin; simpl in Hin; apply lookup_delete_Some in Hin as [Hne Hj]. apply bool_decide_eq_true in Hh. simpl in Hh.
    apply Hne. symmetry. apply (ao_hashes _ Hok1 j id t' t); [exact Hj|exact Ht|by left].
Qed.
(** A token of one day more is expired as it is minted. *)
Lemma days_overflow : days_of 106752 < 0.
Proof. done. Qed.

(** ** Break-glass *)

Lemma AdminRole_row db admin : AdminRole db = Ok admin -> exists r, roles (core db) !! admin = Some r /\ r_is_admin r = true.
Proof.
  unfold AdminRole. destruct (List.find _ _) as [[i r]|] eqn:Ef; [|done]. intros [= <-]. apply List.find_some in Ef as [Hin Hp]. apply list_elem_of_In, elem_of_map_to_list in Hin. apply andb_prop in Hp as [Hp _]. by exists r.
Qed.
(** An administrator everywhere may do everything. *)
Lemma admin_may (c : DB) user admin src r d : d ∈ All -> role_members c !! (user, admin, SGlobal, "") = Some src -> roles c !! admin = Some r -> r_is_admin r = true -> ScopedHas (EffectiveMask c user) (DCap d) "" = true.
Proof.
  intros Hd Hm Hr Ha. apply EffectiveMask_spec; [done|]. left. exists admin, "", src, (mkRole admin (r_name r) (r_description r) (capsOf c admin) (r_is_admin r) (r_builtin r)). split_and!; [done| |].
  - apply RoleByID_ok. by exists r.
  - unfold Effective. simpl. rewrite Ha. by apply Has_Everything.
Qed.
Lemma grant_admin w user admin : user_of (w_db w) (us_id user) = Some user -> AdminRole (w_db w) = Ok admin ->
  exists c, on_db w (on_core (w_db w) (GrantRole (core (w_db w)) (us_id user) admin SourceLocal Roles.Global)) = Some (with_db w (cascade (w_db w) c)) /\ users c = users (core (w_db w)) /\ (forall d, d ∈ All -> ScopedHas (EffectiveMask c (us_id user)) (DCap d) "" = true).
Proof.
  intros Hu Ha. destruct (user_of_id _ _ _ Hu) as (_ & Hrow & _). destruct (AdminRole_row _ _ Ha) as (r & Hr & Hadm). unfold GrantRole, canGrant. simpl. unfold member_fk. rewrite !bool_decide_eq_true_2 by (done || by eexists). simpl.
  eexists. split_and!; [done|done|]. intros d Hd. eapply admin_may; [done|simpl; by rewrite lookup_insert_eq|exact Hr|done].
Qed.
(** The account the token opens is there afterwards. *)
Lemma breakGlass_user w id now admin : AdminRole (w_db w) = Ok admin -> users (core (w_db w)) !! id = None ->
  exists w1 u, breakGlassUser w id now = (w1, Some u) /\ user_of (w_db w1) (us_id u) = Some u /\ w_caps w1 = ∅ /\ glass (w_db w1) = glass (w_db w) /\
    (forall h, sessions (w_db w) !! h = None -> sessions (w_db w1) !! h = None) /\ (forall d, d ∈ All -> ScopedHas (EffectiveMask (core (w_db w1)) (us_id u)) (DCap d) "" = true) /\
    match UserByUsername (w_db w) "break-glass" with Ok v => u = v | Err _ => us_disabled u = false /\ us_username u = "break-glass" end.
Proof.
  intros Ha Hf. unfold breakGlassUser.
  set (q := match UserByUsername (w_db w) "break-glass" with Ok _ => _ | Err _ => _ end). assert (exists w0 u, q = Some (w0, u) /\
    user_of (w_db w0) (us_id u) = Some u /\ AdminRole (w_db w0) = Ok admin /\ glass (w_db w0) = glass (w_db w) /\ sessions (w_db w0) = sessions (w_db w) /\ match UserByUsername (w_db w) "break-glass" with Ok v => u = v | Err _ => us_disabled u = false /\ us_username u = "break-glass" end) as (w0 & u & -> & Hu & Ha0 & Hg0 & Hs0 & Hv).
  { unfold q. clear q. destruct (UserByUsername (w_db w) "break-glass") as [v|e] eqn:Ev; [exists w, v; split_and!; try done; by eapply UserByUsername_of|]. assert (e = NoRow) as ->.
    { unfold UserByUsername, user_where, UserByID in Ev. destruct (account_where _ _); [destruct (user_of _ _)|]; congruence. }
    set (u := mkUser id "local" "break-glass" "" "" "" "" false). assert (exists db1, CreateUser (w_db w) u now = Ok db1 /\ glass db1 = glass (w_db w)) as (db1 & Hc & Hg).
    { unfold CreateUser. rewrite bool_decide_eq_false_2 by (simpl; rewrite Hf; by intros []). simpl. rewrite Ev. simpl. assert (is_ok (UserBySub (w_db w) "" "") = false) as ->; [|by eexists].
      unfold UserBySub, user_where, account_where. destruct (List.find _ _) as [[i a]|] eqn:Ef; [|done]. apply List.find_some in Ef as [_ Hp]. unfold same_sub in Hp. simpl in Hp. bd. congruence. }
    destruct (CreateUser_of _ _ _ _ Hc) as (Hu & Hs & Hr). exists (with_db w db1), u. simpl. fold u. rewrite Hc. split_and!; try done. unfold AdminRole. by rewrite Hr. }
  rewrite Ha0. destruct (grant_admin w0 u admin Hu Ha0) as (c & -> & Hus & Hall). eexists _, u. split_and!; [done| |done|done| |exact Hall|done].
  - simpl. rewrite user_of_cascade by done. done.
  - intros h Hh. simpl. apply map_lookup_filter_None. left. by rewrite Hs0.
Qed.
(** But to a disabled account it opens nothing: the token is spent, a cookie is
    handed out, and nobody is let in with it. *)
Theorem glass_locked_out (w : Web) (token id random admin : string) (expires now : Z) (v : User) :
  token <> "" -> glass (w_db w) !! HashToken token = Some expires -> now < expires -> AdminRole (w_db w) = Ok admin -> users (core (w_db w)) !! id = None ->
  sessions (w_db w) !! HashToken (newToken random) = None -> UserByUsername (w_db w) "break-glass" = Ok v -> us_disabled v = true ->
  exists w1 cookie, handleBreakGlass ttl w token id random now = (w1, Done cookie) /\ forall rq now2, by_cookie cookie rq -> (Resolve w1 rq now2).2 = Err Unauthenticated.
Proof.
  intros Ht Hg Hlt Ha Hid Hfresh Hv Hd. unfold handleBreakGlass. rewrite bool_decide_eq_false_2 by done. unfold RedeemBreakGlassToken. rewrite Hg. assert ((now <? expires) = true) as -> by lia. simpl. set (w0 := with_db w _).
  destruct (breakGlass_user w0 id now admin Ha Hid) as (w1 & u & -> & Hu & _ & _ & Hses & _ & Hsame). change (UserByUsername (w_db w0) "break-glass") with (UserByUsername (w_db w) "break-glass") in Hsame. rewrite Hv in Hsame. subst v.
  assert (exists w2, Issue ttl w1 (us_id u) true random now = (w2, Ok (newToken random))) as (w2 & Ei).
  { unfold Issue, CreateSession. rewrite bool_decide_eq_false_2 by (rewrite Hses by done; by intros []). destruct (user_of_id _ _ _ Hu) as (_ & Hrow & _). simpl. rewrite bool_decide_eq_true_2 by done. by eexists. }
  rewrite Ei. apply Issue_inv in Ei as (_ & _ & _ & Hs & Hof). set (w3 := told _). eexists w3, _. split; [done|]. intros rq now2 Hb. pose proof Hb as [Hck _]. apply cookie_refused; [by rewrite Hck|].
  intros s x. rewrite Hck. simpl. rewrite Hs. intros [= <-]. simpl. rewrite Hof, Hu. intros [= <-]. by right.
Qed.

(** C23: The glass breaks once, and whole. Whoever has a break-glass token in time,
    on a server that has its administrators' role and has not disabled the account
    [break-glass], is signed in — as that account, made if there is none — and may
    do everything everywhere for an hour; the token is gone with that, and
    presented again it is refused. With the account disabled the token is spent
    for nothing: [glass_locked_out]. *)
Theorem glass_admits (w : Web) (token id random admin : string) (expires now : Z) :
  token <> "" -> glass (w_db w) !! HashToken token = Some expires -> now < expires -> AdminRole (w_db w) = Ok admin ->
  users (core (w_db w)) !! id = None -> random <> "" -> sessions (w_db w) !! HashToken (newToken random) = None ->
  (forall u, UserByUsername (w_db w) "break-glass" = Ok u -> us_disabled u = false) ->
  exists w1 cookie, handleBreakGlass ttl w token id random now = (w1, Done cookie) /\
    (forall rq now2, by_cookie cookie rq -> now2 <= now + hour -> exists w2 c, Resolve w1 rq now2 = (w2, Ok c) /\ us_username (ca_user c) = "break-glass" /\ forall d, d ∈ All -> ScopedHas (ca_mask c) (DCap d) "" = true) /\
    (forall rq now2, by_cookie cookie rq -> now + hour < now2 -> (Resolve w1 rq now2).2 = Err Unauthenticated) /\
    forall id2 random2 now2, (handleBreakGlass ttl w1 token id2 random2 now2).2 = Failed 403 "invalid_token".
Proof.
  intros Ht Hg Hlt Ha Hid Hr Hfresh Hen. unfold handleBreakGlass at 1. rewrite bool_decide_eq_false_2 by done. unfold RedeemBreakGlassToken at 1. rewrite Hg. assert ((now <? expires) = true) as -> by lia. simpl. set (w0 := with_db w _).
  destruct (breakGlass_user w0 id now admin Ha Hid) as (w1 & u & -> & Hu & Hcaps & Hgl & Hses & Hall & Hv). assert (UserByUsername (w_db w0) "break-glass" = UserByUsername (w_db w) "break-glass") as Hsame by done. rewrite Hsame in Hv.
  assert (us_disabled u = false) as Hd by (destruct (UserByUsername (w_db w) "break-glass") as [v|]; [subst u; by apply Hen|by destruct Hv]).
  assert (us_username u = "break-glass") as Hname.
  { destruct (UserByUsername (w_db w) "break-glass") as [v|] eqn:Ev; [subst v|by destruct Hv]. apply user_where_ok in Ev as (a & Hacc & Hp & Huv). simpl in Hp. bd. unfold user_of in Huv. destruct (users (core (w_db w)) !! us_id u); [|done]. rewrite Hacc in Huv. injection Huv as Huv. rewrite <- Huv. simpl. congruence. }
  assert (exists w2, Issue ttl w1 (us_id u) true random now = (w2, Ok (newToken random)) /\ glass (w_db w2) = glass (w_db w1)) as (w2 & Ei & Hgl2).
  { unfold Issue, CreateSession. rewrite bool_decide_eq_false_2 by (rewrite Hses by done; by intros []). destruct (user_of_id _ _ _ Hu) as (_ & Hrow & _). simpl. rewrite bool_decide_eq_true_2 by done. by eexists. }
  rewrite Ei. apply Issue_inv in Ei as (_ & Hcaps2 & Hcore & Hs & Hof). set (w3 := told _). eexists w3, _. split_and!; [done| | |].
  - intros rq now2 Hb Hle. pose proof Hb as [Hck Hnb]. destruct (cookie_lets_in w3 rq now2 (mkSession (us_id u) true (now + hour)) u) as (w4 & m & -> & Hm); [rewrite Hck; by apply newToken_some|by rewrite Hck|by rewrite Hck|simpl; by rewrite Hof|done|done|].
    eexists w4, _. split_and!; [done|done|]. intros d Hdd. simpl. rewrite Hm by (simpl; by rewrite Hcaps2). simpl. rewrite Hcore. by apply Hall.
  - intros rq now2 Hb Hlt2. pose proof Hb as [Hck Hnb]. apply cookie_refused; [by rewrite Hck|]. intros s v. rewrite Hck. simpl. rewrite Hs. intros [= <-] _. left. simpl. lia.
  - intros id2 random2 now2. unfold handleBreakGlass. rewrite bool_decide_eq_false_2 by done. unfold RedeemBreakGlassToken. assert (glass (w_db w3) !! HashToken token = None) as Hgone by (simpl; rewrite Hgl2, Hgl; simpl; by rewrite lookup_delete_eq). by rewrite Hgone.
Qed.

(** ** A change of roles *)

Definition member_key (user role : string) (sc : GrantScope) : string * string * string * string := (user, role, Kind sc, ID sc).
Definition grant_key (user : string) (g : GrantRequest) := member_key user (gr_role g) (scope_of g).
Lemma grant_all_spec user gs : forall db db1, grant_all db user gs = (db1, None) -> forall k src,
  role_members (core db1) !! k = Some src <-> (exists g, g ∈ gs /\ k = grant_key user g /\ src = SourceLocal) \/ (role_members (core db) !! k = Some src /\ forall g, g ∈ gs -> k <> grant_key user g).
Proof.
  induction gs as [|g gs IH]; intros db db1; simpl.
  - intros [= <-] k src. split; [intros H; right; split; [done|by intros g ?%elem_of_nil]|]. by intros [(g & ?%elem_of_nil & _)|[? _]].
  - destruct (GrantRole _ _ _ _ _) as [c|] eqn:E; [|done]. apply GrantRole_inv in E as (_ & _ & _ & ->). intros H k src. rewrite (IH _ _ H k src). simpl. change (user, gr_role g, Kind (scope_of g), ID (scope_of g)) with (grant_key user g).
    setoid_rewrite elem_of_cons. destruct (decide (k = grant_key user g)) as [->|Hne].
    + rewrite lookup_insert_eq. split.
      * intros [(g' & Hg & He & ->)|[[= <-] Hn]]; left; [by exists g'; auto|exists g; auto].
      * intros [(g' & [->|Hg] & He & ->)|[_ Hn]]; [|left; by exists g'|by destruct (Hn g); auto]. destruct (decide (grant_key user g ∈ grant_key user <$> gs)) as [(g' & He' & Hg)%list_elem_of_fmap|Hno].
        -- left. by exists g'.
        -- right. split; [done|]. intros g' Hg He'. apply Hno, list_elem_of_fmap. by exists g'.
    + rewrite lookup_insert_ne by done. split.
      * intros [(g' & Hg & He & ->)|[Hl Hn]]; [left; exists g'; auto|right; split; [done|]]. intros g' [->|Hg]; auto.
      * intros [(g' & [->|Hg] & He & ->)|[Hl Hn]]; [done|left; by exists g'|right; split; [done|]]. auto.
Qed.
Definition dropped (gs : list GrantRequest) (m : Membership) : bool := bool_decide (me_source m = SourceLocal) && negb (still_wanted gs m).
Lemma revoke_all_spec user gs ms : forall db db1, revoke_all db user gs ms = (db1, None) -> forall k src,
  role_members (core db1) !! k = Some src <-> role_members (core db) !! k = Some src /\ forall m, m ∈ ms -> dropped gs m = true -> k <> member_key user (me_role m) (me_scope m).
Proof.
  induction ms as [|m ms IH]; intros db db1; simpl.
  - intros [= <-] k src. split; [intros H; split; [done|by intros m ?%elem_of_nil]|by intros [? _]].
  - setoid_rewrite elem_of_cons. destruct (negb (bool_decide (me_source m = SourceLocal)) || still_wanted gs m) eqn:Ed.
    + intros H k src. rewrite (IH _ _ H k src). apply orb_true_iff in Ed. assert (dropped gs m = false) as Hd by (unfold dropped; destruct Ed as [Ed%negb_true_iff|Ed]; rewrite Ed; [done|by rewrite andb_false_r]). split; intros [Hl Hn]; (split; [done|]); [intros m' [->|Hm]; [by rewrite Hd|by apply Hn]|auto].
    + destruct (RevokeRole _ _ _ _) as [c|] eqn:E; [|done]. unfold RevokeRole in E. inv_res. intros Hrest k src. rewrite (IH _ _ Hrest k src). simpl. change (user, me_role m, Kind (me_scope m), ID (me_scope m)) with (member_key user (me_role m) (me_scope m)).
      apply orb_false_elim in Ed as [E1 E2]. assert (dropped gs m = true) as Hd by (unfold dropped; apply negb_false_iff in E1; by rewrite E1, E2). rewrite lookup_delete_Some. split.
      * intros [[Hne Hl] Hn]. split; [done|]. intros m' [->|Hm] Hdm; [by apply not_eq_sym|by apply Hn].
      * intros [Hl Hn]. split; [split; [|done]|auto]. apply not_eq_sym. auto.
Qed.
Lemma UserRoles_elem db user m : wf (core db) -> m ∈ UserRoles db user <->
  exists r, roles (core db) !! me_role m = Some r /\ me_name m = r_name r /\ me_admin m = r_is_admin r /\ role_members (core db) !! member_key user (me_role m) (me_scope m) = Some (me_source m).
Proof.
  intros Hwf. unfold UserRoles. rewrite elem_of_ssort, list_elem_of_omap. split.
  - intros ([[[[u rid] k] i] src] & Hin & Hm). apply elem_of_map_to_list in Hin. simpl in Hm. case_bool_decide; [|done]. subst u. destruct (roles (core db) !! rid) as [r|] eqn:Er; [|done]. injection Hm as <-. by exists r.
  - intros (r & Hr & Hn & Ha & Hm). exists (member_key user (me_role m) (me_scope m), me_source m). split; [by apply elem_of_map_to_list|]. simpl. rewrite bool_decide_eq_true_2, Hr by done. rewrite <- Hn, <- Ha. destruct m as [? ? ? ? []]. done.
Qed.

(** A change of roles makes the local memberships what was asked for. When it is
    accepted, a user's local memberships are exactly those of the request, what the
    identity provider gave and what others hold is as before, and no mask computed
    before outlives it; when it is refused, nothing says so to the masks in memory:
    they stay as they were. *)
Theorem role_change (w w1 : Web) (c : Caller) (id : string) (gs : list GrantRequest) (r : WebReply unit) :
  auth_ok (w_db w) -> handleSetUserRoles w c id gs = (w1, r) ->
  match r with
  | Done _ => w_caps w1 = ∅ /\ forall k src, role_members (core (w_db w1)) !! k = Some src <->
      (exists g, g ∈ gs /\ k = grant_key id g /\ src = SourceLocal) \/ (role_members (core (w_db w)) !! k = Some src /\ (forall g, g ∈ gs -> k <> grant_key id g) /\ (k.1.1.1 = id -> src <> SourceLocal))
  | Failed _ _ => w_caps w1 = w_caps w /\ w_audit w1 = w_audit w
  end.
Proof.
  intros Hok. pose proof (ao_core _ Hok) as Hwf. unfold handleSetUserRoles. destruct (UserByID _ _) as [u|]; [|by intros [= <- <-]]. destruct (revoke_all _ _ _ _) as [db [e|]] eqn:Er; [destruct e; by intros [= <- <-]|].
  destruct (grant_all db id gs) as [db1 [e|]] eqn:Eg; [destruct e; by intros [= <- <-]|]. intros [= <- <-]. split; [done|]. intros k src. simpl. rewrite (grant_all_spec _ _ _ _ Eg), (revoke_all_spec _ _ _ _ _ Er). split.
  - intros [?|[[Hl Hn] Hg]]; [by left|right]. split_and!; [done|done|]. intros Hk ->. destruct k as [[[u' rid] kd] i]. simpl in Hk. subst u'. destruct (wf_role _ Hwf _ _ _ _ _ Hl) as [row Hrow].
    apply (Hn (mkMembership rid (r_name row) (r_is_admin row) SourceLocal (mkScope kd i))); [by apply UserRoles_elem; [|exists row]| |done].
    unfold dropped. rewrite bool_decide_eq_true_2 by done. simpl. apply negb_true_iff. unfold still_wanted. rewrite existsb_false. intros g Hgs. simpl. apply andb_false_iff. destruct (decide (gr_role g = rid)) as [<-|]; [right|left; by apply bool_decide_eq_false].
    apply bool_decide_eq_false. intros Hsc. apply (Hg g Hgs). unfold grant_key, member_key. by rewrite Hsc.
  - intros [?|(Hl & Hg & Hs)]; [by left|right]. split; [|done]. split; [done|]. intros m Hm Hd ->. unfold dropped in Hd. bd. apply UserRoles_elem in Hm as (row & _ & _ & _ & Hm); [|done]. rewrite Hl in Hm. injection Hm as ->. by apply Hs.
Qed.
End Life.
