(* ===== verification/AuthDemo.v ===== *)
(** * Signing in, run

    The theorems of [AuthCases], [SignInCases] and [AuthLife] at concrete servers,
    with a derivation that only pads its input and a digest that is the identity. *)
From S2P Require Import Prelude GoStd Timestamps Caps CapCache Roles RoleGuards AuthStore Passwords Auth SignIn AuthRuns AuthCases SignInCases AuthLife.
Local Open Scope string_scope.
Local Open Scope list_scope.
Local Open Scope daffa_scope.
Local Open Scope Z_scope.

Fixpoint padded (n : nat) (s : string) : string :=
  match n, s with O, _ => "" | S n, EmptyString => String "0" (padded n "") | S n, String c s => String c (padded n s) end.
#[local] Instance plain_argon : Argon := fun password salt p => padded (Z.to_nat (ap_keyLen p)) (password +:+ salt).
#[local] Instance plain_argon_law : ArgonLaw plain_argon.
Proof.
  intros password salt p Hp. unfold IDKey, plain_argon. generalize (password +:+ salt). intros s. rewrite <- (Z2Nat.id (ap_keyLen p)) at 2 by done. f_equal. generalize (Z.to_nat (ap_keyLen p)). clear Hp. intros n.
  revert s. induction n as [|n IH]; intros [|c s]; simpl; [done|done|by rewrite IH..].
Qed.
#[local] Instance plain_digest : Digest := fun s => s.

(** A server with its administrators' role and one more, and nobody yet. *)
Definition seed : ADB := mkADB (mkDB {[ "admin" := mkRoleRow "Administrators" "" true true; "ops" := mkRoleRow "Operators" "" false false ]} {[ ("ops", NSDocker) := 7 ]} ∅ ∅ ∅ ∅) ∅ ∅ ∅ ∅ ∅ ∅.
Lemma no_accounts_ok rs rc : auth_ok (mkADB (mkDB rs rc ∅ ∅ ∅ ∅) ∅ ∅ ∅ ∅ ∅ ∅).
Proof.
  split; simpl; try done; intros i; rewrite !lookup_empty; split; by intros [].
Qed.
Definition w0 : Web := mkWeb seed ∅ ∅ ∅ ∅ [] 0.
Definition one_day : Z := 24 * hour.
Definition ttl : Z := 7 * one_day.
Definition parse (s : string) : option (string * string) := Some ("", s).
Definition keep (s : string) : option string := Some s.
#[local] Abbreviation run := (web_run ttl parse id keep keep true).
Definition req (cookie bearer : string) : HttpRequest := mkReq bearer cookie "GET" "/api/me" (fun _ => "") "" "" "daffa".
(** Ann is added on the box and signs in. *)
Definition add_ann : WebEvent := EUserAdd "ann" "correct horse" "admin" Roles.Global "u1" "salt" 0.
Definition ann_in : WebEvent := ELogin " ann " "correct horse" "10.0.0.9" "r1" minute (minute + second).
Definition ann_req : HttpRequest := req (newToken "r1") "".
Definition w_ann : Web := run w0 [add_ann; ann_in].
Lemma w_ann_ok : auth_ok (w_db w_ann).
Proof. unfold w_ann, web_run. cbn [fold_left]. do 2 (apply web_step_ok). apply no_accounts_ok. Qed.

Lemma tables_stay_ok_witness : auth_ok (w_db (run w0 [add_ann; ann_in; EMint ann_req "ci" 30 "t1" "r2" hour; EReap (8 * one_day)])).
Proof. apply tables_stay_ok. apply no_accounts_ok. Defined.
Lemma no_access_unearned_witness : exists w1 c u, Resolve w_ann ann_req hour = (w1, Ok c) /\ ca_user c = u /\ us_username u = "ann" /\ us_disabled u = false /\ exists n e, [add_ann; ann_in] !! n = Some e.
Proof.
  destruct (Resolve w_ann ann_req hour) as [w1 [c|]] eqn:E; [|vm_compute in E; discriminate E].
  destruct (no_access_unearned ttl parse id keep keep true w0 [add_ann; ann_in] ann_req hour w1 c eq_refl eq_refl E) as (u & Hu & Hof & Hd & n & e & He & _).
  exists w1, c, u. split_and!; [done|done| |done|by exists n, e]. vm_compute in E. injection E as _ <-. subst u. reflexivity.
Defined.

(** Ann mints a token and it is used to try to change her password. *)
Definition bearer (random : string) : HttpRequest := req "" ("Bearer " +:+ NewAPIToken random).
Definition w_tok : Web := run w0 [add_ann; ann_in; EMint ann_req "ci" 30 "t1" "r2" hour].
Lemma w_tok_ok : auth_ok (w_db w_tok).
Proof. unfold w_tok, web_run. cbn [fold_left]. do 3 (apply web_step_ok). apply no_accounts_ok. Qed.
Lemma token_cannot_rekey_witness : exists w1 c t, Resolve w_tok (bearer "r2") (2 * hour) = (w1, Ok c) /\ ca_token c = Some t /\
  forall x y, accounts (w_db w_tok) !! "u1" = Some x -> accounts (w_db (run w_tok [EPassword (bearer "r2") "u1" "a new password" "s" (2 * hour)])) !! "u1" = Some y -> ac_hash y = ac_hash x.
Proof.
  destruct (Resolve w_tok (bearer "r2") (2 * hour)) as [w1 [c|]] eqn:E; [|vm_compute in E; discriminate E]. destruct (ca_token c) as [t|] eqn:Et; [|vm_compute in E; injection E as _ <-; discriminate Et].
  exists w1, c, t. split_and!; [done|done|]. apply (token_cannot_rekey ttl parse id keep keep true w_tok (EPassword (bearer "r2") "u1" "a new password" "s" (2 * hour)) (Some UsersEdit) (bearer "r2") (2 * hour) w1 c t w_tok_ok eq_refl E Et).
Defined.
(** What it can do, held by an administrator: make an account with a password. *)
Example token_makes_account : let w := run w_tok [ECreateUser (bearer "r2") (mkUR "local" "mallory" "" "correct horse battery" [mkGR "admin" ""]) "u9" "s" (2 * hour); ELogin "mallory" "correct horse battery" "10.0.0.66" "r7" (3 * hour) (3 * hour)] in
  is_ok (Resolve w (req (newToken "r7") "") (4 * hour)).2 = true.
Proof. vm_compute. reflexivity. Qed.

(** Twelve wrong guesses in a minute: ten are looked at. *)
Definition guess (n : Z) : WebEvent := ELogin "ann" "swordfish" "10.0.0.66" "r" (n * second) (n * second + 1).
Definition guesses : list WebEvent := map (fun n => guess (Z.of_nat n)) (seq 1 12).
Lemma guesses_turned_away : turned_away ttl parse id keep keep true (login_key "ann" "10.0.0.66") (run w0 [add_ann]) guesses.
Proof. repeat (split; [intros _; eexists _, _; split; [vm_compute; reflexivity|discriminate]|]). exact I. Qed.
Lemma throttle_bounds_witness : wrong_guesses ttl parse id keep keep true (login_key "ann" "10.0.0.66") (run w0 [add_ann]) guesses = map (fun n => Z.of_nat n * second + 1) (seq 1 10) /\
  (length (List.filter (within second) (wrong_guesses ttl parse id keep keep true (login_key "ann" "10.0.0.66") (run w0 [add_ann]) guesses)) <= 20)%nat.
Proof.
  split; [vm_compute; reflexivity|]. apply (throttle_bounds ttl parse id keep keep true (login_key "ann" "10.0.0.66") (run w0 [add_ann]) guesses 0 second); [|exact guesses_turned_away].
  vm_compute. repeat (split; [split; discriminate|]). exact I.
Defined.

(** Bob comes in from the provider Ann sets up. *)
Definition corp : WebEvent := ECreateProvider ann_req (mkPR "corp" "Corp" "https://id.corp" "daffa" "s3cret" "https://daffa/cb" "" "groups" "ops" true) "p1" hour.
Definition bob_starts : WebEvent := EStart "corp" true "s1" "v1" (2 * hour).
Definition bob_back : WebEvent := ECallback "corp" "" (newToken "s1") "code" true (fun _ _ _ => Some (mkIdentity "sub-7" "bob@corp" [])) "u2" "r9" (2 * hour + minute).
Definition bob_day : list WebEvent := [add_ann; ann_in; corp; bob_starts; bob_back].
Lemma started_once_witness : exists m slug r r' t0, (m < 4)%nat /\ bob_day !! m = Some (EStart slug true r r' t0) /\ newToken "s1" = newToken r.
Proof.
  destruct (started_once ttl parse id keep keep true w0 bob_day 4 "corp" "" (newToken "s1") "code" true (fun _ _ _ => Some (mkIdentity "sub-7" "bob@corp" [])) "u2" "r9" (2 * hour + minute) eq_refl eq_refl) as (m & slug & reach & r & r' & t0 & rp & rp' & idt & Hm & He & Hr & _).
  - vm_compute. reflexivity.
  - assert (reach = true) as -> by (destruct m as [|[|[|[|m]]]]; try discriminate He; [by injection He|lia]). by exists m, slug, r, r', t0.
Defined.

Lemma session_life_witness : exists w1 u, handleLocalLogin ttl true (run w0 [add_ann]) " ann " "correct horse" "10.0.0.9" "r1" minute (minute + second) = (w1, Done (newToken "r1")) /\ us_username u = "ann" /\
  (exists w2 m, Resolve w1 ann_req (7 * one_day) = (w2, Ok (mkCaller u m None))) /\ (Resolve w1 ann_req (8 * one_day)).2 = Err Unauthenticated.
Proof.
  destruct (handleLocalLogin ttl true (run w0 [add_ann]) " ann " "correct horse" "10.0.0.9" "r1" minute (minute + second)) as [w1 [ck|]] eqn:E; [|vm_compute in E; discriminate E]. assert (ck = newToken "r1") as -> by (vm_compute in E; injection E as _ <-; reflexivity).
  destruct (session_life ttl true _ _ _ _ _ _ _ _ _ (7 * one_day) ann_req E) as (u & Hu & _ & H & _); [discriminate|by split|]. destruct (session_life ttl true _ _ _ _ _ _ _ _ _ (8 * one_day) ann_req E) as (_ & _ & _ & _ & H' & _); [discriminate|by split|].
  exists w1, u. split_and!; [done| |apply H; vm_compute; discriminate|apply H'; reflexivity]. vm_compute in Hu. injection Hu as <-. reflexivity.
Defined.
Definition ann : Caller := mkCaller (mkUser "u1" "local" "ann" (HashPassword "salt" "correct horse") "" "" "" false) (EffectiveMask (core (w_db w_ann)) "u1") None.
Lemma token_life_witness : exists w1, handleCreateToken w_ann ann "ci" 30 "t1" "r2" hour = (w1, Done (NewAPIToken "r2")) /\
  (exists w3 m t, Resolve w1 (bearer "r2") (30 * one_day) = (w3, Ok (mkCaller (ca_user ann) m (Some t))) /\ tk_id t = "t1") /\ (Resolve w1 (bearer "r2") (31 * one_day)).2 = Err Unauthenticated.
Proof.
  destruct (handleCreateToken w_ann ann "ci" 30 "t1" "r2" hour) as [w1 [s|]] eqn:E; [|vm_compute in E; discriminate E]. assert (s = NewAPIToken "r2") as -> by (vm_compute in E; injection E as _ <-; reflexivity). exists w1. split; [done|].
  destruct (token_life w_ann w1 w1 ann ann "ci" (NewAPIToken "r2") "t1" "r2" 30 hour (30 * one_day) (bearer "r2")) as [H _]; [exact w_ann_ok|vm_compute; reflexivity|done|exact E|lia|done|]. destruct (token_life w_ann w1 w1 ann ann "ci" (NewAPIToken "r2") "t1" "r2" 30 hour (31 * one_day) (bearer "r2")) as [_ [H' _]]; [exact w_ann_ok|vm_compute; reflexivity|done|exact E|lia|done|].
  split; [apply H; right; vm_compute; discriminate|apply H'; [lia|reflexivity]].
Defined.
(** Asked for 106,752 days it is refused at once. *)
Example token_born_expired : let '(w, _) := handleCreateToken w_ann ann "ci" 106752 "t1" "r2" hour in (Resolve w (bearer "r2") (2 * hour)).2 = Err Unauthenticated.
Proof. vm_compute. reflexivity. Qed.

Definition w_glass : Web := run w0 [EMintGlass "g1" hour 0].
Lemma glass_admits_witness : exists w1 cookie, handleBreakGlass ttl w_glass (newToken "g1") "u7" "r1" minute = (w1, Done cookie) /\ (handleBreakGlass ttl w1 (newToken "g1") "u8" "r2" (2 * minute)).2 = Failed 403 "invalid_token".
Proof.
  destruct (glass_admits ttl w_glass (newToken "g1") "u7" "r1" "admin" hour minute) as (w1 & cookie & E & _ & _ & H);
    [vm_compute; discriminate|vm_compute; reflexivity|reflexivity|vm_compute; reflexivity|vm_compute; reflexivity|discriminate|vm_compute; reflexivity|intros u Hu; vm_compute in Hu; discriminate Hu|]. exists w1, cookie. split; [exact E|apply H].
Defined.
Lemma role_change_witness : exists w1 r, handleSetUserRoles w_ann ann "u1" [mkGR "admin" ""; mkGR "ops" ""] = (w1, r) /\
  match r with Done _ => w_caps w1 = ∅ /\ role_members (core (w_db w1)) !! ("u1", "ops", "global", "") = Some SourceLocal | _ => False end.
Proof.
  destruct (handleSetUserRoles w_ann ann "u1" [mkGR "admin" ""; mkGR "ops" ""]) as [w1 r] eqn:E. exists w1, r. split; [done|]. pose proof (role_change w_ann w1 ann "u1" [mkGR "admin" ""; mkGR "ops" ""] r w_ann_ok E) as H. destruct r as [x|s code]; [|vm_compute in E; discriminate E].
  destruct H as [Hc H]. split; [exact Hc|]. apply H. left. exists (mkGR "ops" ""). split_and!; [by right; left|reflexivity|reflexivity].
Defined.
Lemma verify_hash_witness : VerifyPassword (HashPassword "NaCl" "correct horse") "correct horse" = Accepted /\ VerifyPassword (HashPassword "NaCl" "correct horse") "battery staple" = ErrBadPassword.
Proof. rewrite !verify_hash. split; vm_compute; reflexivity. Defined.

(** A change of roles that is refused half-way has revoked, and the revoked mask
    goes on being honoured. *)
Example refused_change_lingers :
  let w := run w0 [add_ann; ann_in; EUserAdd "bob" "another horse" "ops" Roles.Global "u2" "salt" 0; ELogin "bob" "another horse" "10.0.0.8" "b1" minute minute; ERoles ann_req "u2" [mkGR "admin" "host1"] hour] in
  match (Resolve w (req (newToken "b1") "") (2 * hour)).2 with
  | Ok c => bool_decide (role_members (core (w_db w)) !! ("u2", "ops", "global", "") = None) && IsZero (Caps.Global (EffectiveMask (core (w_db w)) "u2")) && negb (IsZero (Caps.Global (ca_mask c)))
  | Err _ => false
  end = true.
Proof. vm_compute. reflexivity. Qed.
