(* ===== verification/Engines.v ===== *)
(** * The two engines and what is running

    Models [internal/stacks/engine.go], [internal/stacks/status.go] and the
    pure part of [internal/stacks/runner.go]. The Go interface [Engine] is a
    record of operations; the daemon an engine asks is a snapshot of what it
    would answer. *)
From S2P Require Import Prelude GoStd.
Local Open Scope string_scope.
Local Open Scope list_scope.
Local Open Scope daffa_scope.

(** ** Actions and services *)

Abbreviation Action := string.
Definition ActionUp : Action := "up".
Definition ActionPull : Action := "pull".
Definition ActionStop : Action := "stop".
Definition ActionDown : Action := "down".
Definition ActionRestart : Action := "restart".
Definition ActionDownVolumes : Action := "down+volumes".

Record EnvVar := mkEnv { ev_key : string; ev_value : string }.

(** A service the compose file declares. *)
Record Service := mkService { svc_name : string; svc_image : string; svc_hook : bool }.

Record ServiceStatus := mkSvcStatus {
  ss_name : string; ss_declared : string; ss_running : string; ss_state : string; ss_status : string; ss_container : string }.

Record Status := mkStatus { st_state : string; st_services : list ServiceStatus; st_changed : bool }.

(** What the daemon reports: a container of [ContainerList], a service of [ListServices]. *)
Record Container := mkContainer { c_id : string; c_image : string; c_state : string; c_status : string; c_labels : gmap string string }.
Record SwarmService := mkSwarm { sw_id : string; sw_name : string; sw_tag : string; sw_desired : Z; sw_running : Z; sw_stack : string }.
Record Daemon := mkDaemon { dm_containers : list Container; dm_services : list SwarmService }.

(** [Engine]: the interface. *)
Record Engine := mkEngine {
  eng_name : string; eng_label : string; ProjectLabel : string; ServiceLabel : string;
  Actions : list Action;
  Command : Action -> string -> list string;
  Teardown : string -> bool -> res string (list string);
  RunnerEnv : list EnvVar -> list string;
  eng_describe : Daemon -> string -> list Service -> string -> string -> Status }.

Definition Supports (e : Engine) (a : Action) : bool := existsb (fun x => bool_decide (x = a)) (Actions e).

(** ** Compose *)

Definition composePath := "docker-compose.yml".
Definition envPath := ".env".

Definition compose_Command (a : Action) (project : string) : list string :=
  let base := ["docker"; "compose"; "-p"; project; "-f"; "/stack/" +:+ composePath; "--env-file"; "/stack/" +:+ envPath] in
  if bool_decide (a = ActionUp) then base ++ ["up"; "-d"; "--remove-orphans"]
  else if bool_decide (a = ActionPull) then base ++ ["up"; "-d"; "--pull"; "always"; "--remove-orphans"]
  else if bool_decide (a = ActionStop) then base ++ ["stop"]
  else if bool_decide (a = ActionDown) then base ++ ["down"; "--remove-orphans"]
  else if bool_decide (a = ActionRestart) then base ++ ["restart"]
  else base ++ ["ps"].

Definition compose_Teardown (project : string) (volumes : bool) : res string (list string) :=
  Ok (["docker"; "compose"; "-p"; project; "down"; "--remove-orphans"] ++ (if volumes then ["--volumes"] else [])).

(** The overall state, from the number of services up and the number that should be. *)
Definition overall (none_running : bool) (up total : Z) : string :=
  if none_running then "not_deployed"
  else if (up =? 0)%Z then "stopped"
  else if (up =? total)%Z then "running"
  else "partial".

Definition changed (deployedHash currentHash : string) : bool :=
  negb (bool_decide (deployedHash = "")) && negb (bool_decide (currentHash = "")) && negb (bool_decide (deployedHash = currentHash)).

(** One turn of the loop over the declared services: [look] is what was found
    for a service, if anything, and whether it counts as up. *)
Definition describe_step (look : Service -> option (ServiceStatus * bool)) (st : list ServiceStatus * Z * Z) (d : Service)
  : list ServiceStatus * Z * Z :=
  let '(out, up, total) := st in
  if svc_hook d then (out ++ [mkSvcStatus (svc_name d) (svc_image d) "" "hook" "" ""], up, total)
  else match look d with
       | None => (out ++ [mkSvcStatus (svc_name d) (svc_image d) "" "missing" "" ""], up, (total + 1)%Z)
       | Some (s, is_up) => (out ++ [s], if is_up then (up + 1)%Z else up, (total + 1)%Z)
       end.

(** The [running] map of [describeContainers]: the last container of a service
    in the daemon's list wins; hooks are taken out. *)
Definition compose_running (projectLabel serviceLabel project : string) (declared : list Service) (list : list Container) : gmap string Container :=
  let labelled := List.filter (fun c => bool_decide (c_labels c !! projectLabel = Some project)) list in
  let running := fold_left (fun m c => match c_labels c !! serviceLabel with
                                       | Some svc => if bool_decide (svc = "") then m else <[svc := c]> m
                                       | None => m end) labelled ∅ in
  fold_left (fun m d => if svc_hook d then delete (svc_name d) m else m) declared running.

Definition compose_look (running : gmap string Container) (d : Service) : option (ServiceStatus * bool) :=
  match running !! svc_name d with
  | None => None
  | Some c => Some (mkSvcStatus (svc_name d) (svc_image d) (c_image c) (c_state c) (c_status c) (c_id c),
                    bool_decide (c_state c = "running"))
  end.

Definition describeContainers (projectLabel serviceLabel : string) (dm : Daemon) (project : string) (declared : list Service)
  (deployedHash currentHash : string) : Status :=
  let running := compose_running projectLabel serviceLabel project declared (dm_containers dm) in
  let '(out, up, total) := fold_left (describe_step (compose_look running)) declared ([], 0%Z, 0%Z) in
  mkStatus (overall (bool_decide (running = ∅)) up total) out (changed deployedHash currentHash).

Definition ComposeEngine : Engine :=
  let pl := "com.docker.compose.project" in let sl := "com.docker.compose.service" in
  mkEngine "compose" "Docker Compose" pl sl
    [ActionUp; ActionPull; ActionRestart; ActionStop; ActionDown; ActionDownVolumes]
    compose_Command compose_Teardown (fun _ => []) (describeContainers pl sl).

(** ** Swarm *)

Definition swarm_RunnerEnv (vars : list EnvVar) : list string := map (fun v => ev_key v +:+ "=" +:+ ev_value v) vars.

Definition swarm_Command (a : Action) (project : string) : list string :=
  if bool_decide (a = ActionUp) then
    ["docker"; "stack"; "deploy"; "-c"; "/stack/" +:+ composePath; "--with-registry-auth"; "--prune"; "--detach=false"; project]
  else if bool_decide (a = ActionDown) then ["docker"; "stack"; "rm"; project]
  else ["sh"; "-c"; "echo 'the swarm engine does not support this action' >&2; exit 1"].

Definition swarm_Teardown (project : string) (volumes : bool) : res string (list string) :=
  if volumes then Err "stacks: Swarm cannot remove a stack's volumes"
  else Ok ["docker"; "stack"; "rm"; project].

(** A service of the stack, by its name within the stack. *)
Definition swarm_service_name (project name : string) : string :=
  if (String.length project + 1 <? String.length name)%nat && strings.HasPrefix name (project +:+ "_")
  then strings.drop (String.length project + 1) name else name.

Definition swarm_running (project : string) (services : list SwarmService) : gmap string SwarmService :=
  fold_left (fun m s => if bool_decide (sw_stack s = project) then <[swarm_service_name project (sw_name s) := s]> m else m)
            services ∅.

Definition swarm_state (s : SwarmService) : string * bool :=
  if (sw_desired s =? 0)%Z then ("stopped", false)
  else if (sw_running s =? 0)%Z then ("missing", false)
  else if (sw_running s <? sw_desired s)%Z then ("partial", true)
  else ("running", true).

Definition swarm_look (running : gmap string SwarmService) (d : Service) : option (ServiceStatus * bool) :=
  match running !! svc_name d with
  | None => None
  | Some s => let '(state, up) := swarm_state s in
              Some (mkSvcStatus (svc_name d) (svc_image d) (sw_tag s) state "" (sw_id s), up)
  end.

Definition swarm_Describe (dm : Daemon) (project : string) (declared : list Service) (deployedHash currentHash : string) : Status :=
  let running := swarm_running project (dm_services dm) in
  let '(out, up, total) := fold_left (describe_step (swarm_look running)) declared ([], 0%Z, 0%Z) in
  mkStatus (overall (bool_decide (running = ∅)) up total) out (changed deployedHash currentHash).

Definition SwarmEngine : Engine :=
  mkEngine "swarm" "Docker Swarm" "com.docker.stack.namespace" "com.docker.swarm.service.name"
    [ActionUp; ActionDown] swarm_Command swarm_Teardown swarm_RunnerEnv swarm_Describe.

(** [EngineFor]: empty means compose. *)
Definition EngineFor (name : string) : res string Engine :=
  if bool_decide (name = "") || bool_decide (name = eng_name ComposeEngine) then Ok ComposeEngine
  else if bool_decide (name = eng_name SwarmEngine) then Ok SwarmEngine
  else Err "stacks: unknown engine".

Definition Describe (eng : Engine) (dm : Daemon) (project : string) (declared : list Service) (deployedHash currentHash : string) : Status :=
  eng_describe eng dm project declared deployedHash currentHash.

(** ** Images and logs *)

Definition norm_image (s : string) : string :=
  if negb (strings.Contains s ":") || strings.HasSuffix s "/" then s +:+ ":latest" else s.
Definition SameImage (declared running : string) : bool := bool_decide (norm_image declared = norm_image running).

Definition newline : ascii := "010"%char.

(** The text after the first newline, when something follows it. *)
Definition after_newline (cut : string) : string :=
  match strings.cut_byte cut newline with
  | Some (_, rest) => if bool_decide (rest = "") then cut else rest
  | None => cut
  end.

Definition drop_notice := "[… earlier output dropped: this log was too long to keep in full …]" +:+ String newline "".

Definition tailBytes (b : string) (limit : nat) : string * bool :=
  if (String.length b <=? limit)%nat then (b, false)
  else (drop_notice +:+ after_newline (strings.drop (String.length b - limit) b), true).

(** ** The loop over the declared services *)

Definition status_row (look : Service -> option (ServiceStatus * bool)) (d : Service) : ServiceStatus :=
  if svc_hook d then mkSvcStatus (svc_name d) (svc_image d) "" "hook" "" ""
  else match look d with Some (s, _) => s | None => mkSvcStatus (svc_name d) (svc_image d) "" "missing" "" "" end.

Definition is_up (look : Service -> option (ServiceStatus * bool)) (d : Service) : bool :=
  match look d with Some (_, b) => b | None => false end.

Definition deployable (declared : list Service) : list Service := List.filter (fun d => negb (svc_hook d)) declared.

Definition count_up (look : Service -> option (ServiceStatus * bool)) (l : list Service) : Z :=
  Z.of_nat (length (List.filter (is_up look) (deployable l))).

Lemma describe_fold look l out up total :
  fold_left (describe_step look) l (out, up, total) =
  (out ++ map (status_row look) l, (up + count_up look l)%Z, (total + Z.of_nat (length (deployable l)))%Z).
Proof.
  revert out up total. induction l as [|d l IH]; intros out up total; simpl.
  - unfold count_up. simpl. by rewrite app_nil_r, !Z.add_0_r.
  - unfold count_up, deployable. simpl. pose proof (eq_refl (status_row look d)) as Hrow.
    unfold status_row at 2 in Hrow. destruct (svc_hook d) eqn:Eh; simpl; [by rewrite IH, <- app_assoc, Hrow|].
    pose proof (eq_refl (is_up look d)) as Hup. unfold is_up at 2 in Hup.
    destruct (look d) as [[s [|]]|]; rewrite IH, <- app_assoc, Hrow, Hup; unfold count_up, deployable; simpl;
      apply pair_equal_spec; (split; [apply pair_equal_spec; split; [done|lia]|lia]).
Qed.

Lemma filter_all_length {A} (f : A -> bool) l :
  length (List.filter f l) = length l <-> forall x, x ∈ l -> f x = true.
Proof.
  induction l as [|x l IH]; simpl.
  - split; [intros _ x Hx; by apply elem_of_nil in Hx | done].
  - setoid_rewrite elem_of_cons. pose proof (List.filter_length_le f l) as Hle. destruct (f x) eqn:E; simpl.
    + rewrite Nat.succ_inj_wd, IH. split; [intros H y [->|Hy]; auto | auto].
    + split; [lia|]. intros H. specialize (H x (or_introl eq_refl)). congruence.
Qed.

Lemma filter_none_length {A} (f : A -> bool) l :
  length (List.filter f l) = 0%nat <-> forall x, x ∈ l -> f x = false.
Proof.
  rewrite length_zero_iff_nil. split.
  - intros Hn x Hx. apply not_true_iff_false. intros Hf.
    assert (x ∈ List.filter f l) as H by (by apply elem_of_filter_b). rewrite Hn in H. by apply elem_of_nil in H.
  - intros H. destruct (List.filter f l) as [|x r] eqn:E; [done|].
    assert (x ∈ List.filter f l) as Hx by (rewrite E; by left). apply elem_of_filter_b in Hx as [Hx Hf]. by rewrite H in Hf.
Qed.

Lemma elem_deployable declared d : d ∈ deployable declared <-> d ∈ declared /\ svc_hook d = false.
Proof. unfold deployable. by rewrite elem_of_filter_b, negb_true_iff. Qed.

(** What the overall state says, for whatever the engine found. *)
Lemma overall_spec look none declared :
  let s := overall none (count_up look declared) (Z.of_nat (length (deployable declared))) in
  (s = "not_deployed" <-> none = true) /\
  (s = "stopped" <-> none = false /\ forall d, d ∈ declared -> svc_hook d = false -> is_up look d = false) /\
  (s = "running" <-> none = false /\ (exists d, d ∈ declared /\ svc_hook d = false) /\
     forall d, d ∈ declared -> svc_hook d = false -> is_up look d = true).
Proof.
  cbv zeta. unfold overall, count_up. set (u := length (List.filter (is_up look) (deployable declared))).
  assert ((forall d, d ∈ declared -> svc_hook d = false -> is_up look d = false) <-> u = 0%nat) as H0.
  { unfold u. rewrite filter_none_length. setoid_rewrite elem_deployable. naive_solver. }
  assert ((forall d, d ∈ declared -> svc_hook d = false -> is_up look d = true) <-> u = length (deployable declared)) as H1.
  { unfold u. rewrite filter_all_length. setoid_rewrite elem_deployable. naive_solver. }
  assert ((exists d, d ∈ declared /\ svc_hook d = false) <-> length (deployable declared) <> 0%nat) as H2.
  { setoid_rewrite <- elem_deployable. destruct (deployable declared) as [|d l]; simpl.
    - split; [intros (d & Hd); by apply elem_of_nil in Hd | done].
    - split; [done|]. intros _. exists d. by left. }
  rewrite H0, H1, H2. destruct none; [split_and!; split; try done; intros; exfalso; by intuition|].
  destruct (Z.of_nat u =? 0)%Z eqn:E0; [apply Z.eqb_eq in E0|apply Z.eqb_neq in E0].
  - split_and!; split; try done; intros; intuition (done || lia).
  - destruct (Z.of_nat u =? Z.of_nat (length (deployable declared)))%Z eqn:E1; [apply Z.eqb_eq in E1|apply Z.eqb_neq in E1];
      split_and!; split; try done; intros; intuition (done || lia).
Qed.

Lemma lookup_delete_hooks declared (m : gmap string Container) svc :
  fold_left (fun m d => if svc_hook d then delete (svc_name d) m else m) declared m !! svc =
  if existsb (fun d => svc_hook d && bool_decide (svc_name d = svc)) declared then None else m !! svc.
Proof.
  revert m. induction declared as [|d l IH]; intros m; simpl; [done|]. rewrite IH.
  destruct (svc_hook d); simpl; [|done]. rewrite lookup_delete. case_decide as H.
  - rewrite bool_decide_eq_true_2 by done. simpl. by destruct (existsb _ _).
  - by rewrite bool_decide_eq_false_2.
Qed.

Lemma status_row_name look d :
  (forall s b, look d = Some (s, b) -> ss_name s = svc_name d) -> ss_name (status_row look d) = svc_name d.
Proof. unfold status_row. intros H. destruct (svc_hook d); [done|]. destruct (look d) as [[s b]|] eqn:E; [|done]. by eapply H. Qed.

(** ** Properties *)

(** The state of a compose stack: one row per declared service, in order;
    "not_deployed" exactly when no container of a non-hook service was found,
    "stopped" when none of the services is up, "running" when all of them are,
    hooks playing no part, "partial" otherwise. *)
Theorem compose_status_spec (dm : Daemon) (project : string) (declared : list Service) (deployed current : string) :
  let running := compose_running (ProjectLabel ComposeEngine) (ServiceLabel ComposeEngine) project declared (dm_containers dm) in
  let up d := exists c, running !! svc_name d = Some c /\ c_state c = "running" in
  let st := Describe ComposeEngine dm project declared deployed current in
  map ss_name (st_services st) = map svc_name declared /\
  (st_state st = "not_deployed" <-> running = ∅) /\
  (st_state st = "stopped" <-> running <> ∅ /\ forall d, d ∈ declared -> svc_hook d = false -> ~ up d) /\
  (st_state st = "running" <-> running <> ∅ /\ (exists d, d ∈ declared /\ svc_hook d = false) /\
     forall d, d ∈ declared -> svc_hook d = false -> up d) /\
  (forall d, d ∈ declared -> svc_hook d = true -> running !! svc_name d = None).
Proof.
  cbv zeta. unfold Describe, ComposeEngine. cbn [eng_describe ProjectLabel ServiceLabel]. unfold describeContainers.
  set (running := compose_running _ _ _ _ _). rewrite describe_fold. cbn [st_services st_state app]. rewrite !Z.add_0_l.
  pose proof (overall_spec (compose_look running) (bool_decide (running = ∅)) declared) as (Hn & Hs & Hr).
  assert (forall d, is_up (compose_look running) d = true <-> exists c, running !! svc_name d = Some c /\ c_state c = "running") as Hup.
  { intros d. unfold is_up, compose_look. destruct (running !! svc_name d) as [c|].
    - rewrite bool_decide_eq_true. split; [eauto | by intros (? & [= ->] & ?)].
    - split; [done | by intros (? & ? & _)]. }
  split_and!.
  - rewrite map_map. apply map_ext. intros d. apply status_row_name. unfold compose_look.
    intros s b. destruct (running !! _); [|done]. by intros [= <- _].
  - rewrite Hn. apply bool_decide_eq_true.
  - rewrite Hs, bool_decide_eq_false. setoid_rewrite <- Hup. setoid_rewrite not_true_iff_false. done.
  - rewrite Hr, bool_decide_eq_false. setoid_rewrite Hup. done.
  - intros d Hd Hh. unfold running, compose_running. rewrite lookup_delete_hooks.
    rewrite (proj2 (existsb_elem _ _)); [done|]. exists d. split; [done|]. by rewrite Hh, bool_decide_eq_true_2.
Qed.

(** A swarm stack reads "running" as soon as every service that is not a
    hook has at least one task up and was not scaled to zero, which includes
    services whose own row says "partial". *)
Theorem swarm_running_spec (dm : Daemon) (project : string) (declared : list Service) (deployed current : string) :
  let running := swarm_running project (dm_services dm) in
  let st := Describe SwarmEngine dm project declared deployed current in
  map ss_name (st_services st) = map svc_name declared /\
  (st_state st = "running" <->
     running <> ∅ /\ (exists d, d ∈ declared /\ svc_hook d = false) /\
     forall d, d ∈ declared -> svc_hook d = false ->
       exists s, running !! svc_name d = Some s /\ sw_desired s <> 0%Z /\ sw_running s <> 0%Z).
Proof.
  cbv zeta. unfold Describe, SwarmEngine. cbn [eng_describe]. unfold swarm_Describe.
  set (running := swarm_running _ _). rewrite describe_fold. cbn [st_services st_state app]. rewrite !Z.add_0_l.
  pose proof (overall_spec (swarm_look running) (bool_decide (running = ∅)) declared) as (_ & _ & Hr). split.
  - rewrite map_map. apply map_ext. intros d. apply status_row_name. unfold swarm_look.
    intros s b. destruct (running !! _) as [x|]; [|done]. destruct (swarm_state x). by intros [= <- _].
  - rewrite Hr, bool_decide_eq_false.
    assert (forall d, is_up (swarm_look running) d = true <->
      exists s, running !! svc_name d = Some s /\ sw_desired s <> 0%Z /\ sw_running s <> 0%Z) as Hup; [|by setoid_rewrite Hup].
    intros d. unfold is_up, swarm_look, swarm_state. destruct (running !! svc_name d) as [s|].
    + destruct (sw_desired s =? 0)%Z eqn:E1; [apply Z.eqb_eq in E1; naive_solver|apply Z.eqb_neq in E1].
      destruct (sw_running s =? 0)%Z eqn:E2; [apply Z.eqb_eq in E2; naive_solver|apply Z.eqb_neq in E2].
      destruct (sw_running s <? sw_desired s)%Z; naive_solver.
    + split; [done | by intros (? & ? & _)].
Qed.

(** What an engine advertises it can do: it offers "delete the volumes too"
    exactly when its teardown honours that, every other advertised action has a
    command that acts on the stack, and every unadvertised one is refused or
    fails on swarm. The exception is compose's "down+volumes", whose command
    is the listing. *)
Theorem engines_honest (e : Engine) (a : Action) (project : string) :
  EngineFor (eng_name e) = Ok e ->
  (Supports e ActionDownVolumes = is_ok (Teardown e project true)) /\
  (Supports e ActionDown = is_ok (Teardown e project false)) /\
  (Supports e a = true ->
     (e = ComposeEngine /\ a = ActionDownVolumes /\ Command e a project = compose_Command "ps" project) \/
     (Command e a project <> compose_Command "ps" project /\ Command e a project <> swarm_Command "ps" project)) /\
  (Supports SwarmEngine a = false -> Command SwarmEngine a project = swarm_Command "ps" project).
Proof.
  intros He.
  assert (Supports SwarmEngine a = false -> Command SwarmEngine a project = swarm_Command "ps" project) as Hlast.
  { unfold Supports. simpl. rewrite orb_false_r. intros H. apply orb_false_elim in H as [H1 H2]. bd.
    unfold swarm_Command. rewrite !bool_decide_eq_false_2 by congruence. done. }
  assert (e = ComposeEngine \/ e = SwarmEngine) as [-> | ->].
  { unfold EngineFor in He. destruct (_ || _); [injection He as <-; by left|].
    destruct (bool_decide _); [injection He as <-; by right|done]. }
  - split_and!; [done | done | | exact Hlast]. unfold Supports. simpl. rewrite orb_false_r, !orb_true_iff, !bool_decide_eq_true.
    intros [<-|[<-|[<-|[<-|[<-|<-]]]]]; [right.. | left; done]; split; vm_compute; congruence.
  - split_and!; [done | done | | exact Hlast]. unfold Supports. simpl. rewrite orb_false_r, !orb_true_iff, !bool_decide_eq_true.
    intros [<-|<-]; right; split; vm_compute; congruence.
Qed.

(** ** The tail of a log *)

Lemma drop_split n s : exists pre, s = pre +:+ strings.drop n s /\ String.length pre = Nat.min n (String.length s).
Proof.
  revert s. induction n as [|n IH]; intros s; [by exists ""|]. destruct s as [|c s]; [by exists ""|].
  simpl. destruct (IH s) as (pre & E & Hl). exists (String c pre). rewrite app_cons_s. simpl. by rewrite <- E, Hl.
Qed.

Lemma cut_byte_Some s c x y : strings.cut_byte s c = Some (x, y) -> s = x +:+ String c y.
Proof.
  revert x y. induction s as [|a s IH]; intros x y H; simpl in H; [done|]. case_bool_decide as E.
  - by injection H as <- <-; subst.
  - destruct (strings.cut_byte s c) as [[x' y']|]; [|done]. injection H as <- <-. by rewrite app_cons_s, (IH x' y').
Qed.

Lemma after_newline_split cut :
  exists pre, cut = pre +:+ after_newline cut /\ (after_newline cut = cut \/ exists p, pre = p +:+ String newline "").
Proof.
  unfold after_newline. destruct (strings.cut_byte cut newline) as [[x y]|] eqn:E; [|exists ""; by split; [|left]].
  case_bool_decide; [exists ""; by split; [|left]|]. apply cut_byte_Some in E.
  exists (x +:+ String newline ""). rewrite app_assoc_s. split; [exact E|eauto].
Qed.

(** A stored log is either the whole output, or a notice followed by an end
    of the output of at most [limit] bytes, and of no fewer unless it was cut
    at a line boundary: what is dropped is always from the front. *)
Theorem tailBytes_spec (b : string) (limit : nat) :
  (String.length b <= limit -> tailBytes b limit = (b, false))%nat /\
  (limit < String.length b -> exists pre suf, b = pre +:+ suf /\ tailBytes b limit = (drop_notice +:+ suf, true) /\
     (String.length suf <= limit) /\ (String.length suf = limit \/ exists p, pre = p +:+ String newline ""))%nat.
Proof.
  unfold tailBytes. split.
  - intros H. by rewrite (proj2 (Nat.leb_le _ _)).
  - intros H. rewrite (proj2 (Nat.leb_gt _ _)) by done. set (cut := strings.drop _ b).
    destruct (drop_split (String.length b - limit) b) as (pre1 & E1 & L1). fold cut in E1.
    destruct (after_newline_split cut) as (pre2 & E2 & Hcut).
    assert (String.length cut = limit) as Hlen.
    { apply f_equal with (f := String.length) in E1. rewrite length_app_s in E1. lia. }
    exists (pre1 +:+ pre2), (after_newline cut). split_and!.
    + rewrite app_assoc_s, <- E2. exact E1.
    + done.
    + apply f_equal with (f := String.length) in E2. rewrite length_app_s in E2. lia.
    + destruct Hcut as [-> |[p ->]]; [by left|]. right. exists (pre1 +:+ p). by rewrite app_assoc_s.
Qed.

Lemma engines_honest_witness :
  Supports SwarmEngine ActionDownVolumes = false /\ is_ok (Teardown SwarmEngine "web" true) = false.
Proof.
  destruct (engines_honest SwarmEngine ActionUp "web" eq_refl) as (H & _). split; [reflexivity|]. rewrite <- H. reflexivity.
Defined.
