(* ===== verification/Routes.v ===== *)
(** * The way of a request

    Models the routing of [internal/api/server.go] — the table of the routes with
    their capabilities, [Handler], [guard] and the checks at the object a path names —
    with [RequireCapAnywhere] and [Deny] of [internal/auth/middleware.go] and
    [requireOnWebhook] of [internal/api/webhook_handlers.go]. [net/http]'s ServeMux is
    modelled as far as it is used: patterns of literals, one-segment wildcards and
    subtrees, no host. Handlers are named; the tables that say on which host an
    object is are a record. Folding case and parsing an origin are arguments. *)
From S2P Require Import Prelude GoStd Caps CapCache Roles AuthStore Passwords Auth.
Local Open Scope string_scope.
Local Open Scope list_scope.
Local Open Scope daffa_scope.
Local Open Scope Z_scope.

Definition is_some {A} (o : option A) : bool := match o with Some _ => true | None => false end.

(** ** Patterns *)

Module mux.
(** The slash a path or a pattern ends in is an empty last segment; in a pattern
    it stands for any rest. *)
Inductive Seg := Lit (s : string) | Wild (name : string) | Rest.
Record Pattern := mkPattern { p_method : string; p_segs : list Seg }.
Definition parseSeg (s : string) : Seg :=
  if bool_decide (s = "") then Rest
  else if strings.HasPrefix s "{" && strings.HasSuffix s "}" then Wild (strings.TrimSuffix (strings.TrimPrefix s "{") "}")
  else Lit s.
Definition segments (path : string) : list string := strings.Split (strings.TrimPrefix path "/") "/".
Definition parsePattern (s : string) : Pattern :=
  match strings.Split s " " with
  | [m; p] => mkPattern m (map parseSeg (segments p))
  | _ => mkPattern "" (map parseSeg (segments s))
  end.

Section Match.
Context {A : Type}.
Definition under_lit (s : string) (p : list Seg * A) : option (list Seg * A) := match p.1 with Lit t :: r => if bool_decide (t = s) then Some (r, p.2) else None | _ => None end.
Definition under_wild (p : list Seg * A) : option (list Seg * A) := match p.1 with Wild _ :: r => Some (r, p.2) | _ => None end.
Definition is_rest (p : list Seg * A) : bool := match p.1 with Rest :: _ => true | _ => false end.
(** [matchPath]: a literal before a wildcard before a subtree. *)
Fixpoint matchPath (ps : list (list Seg * A)) (path : list string) : option (A * list string) :=
  match path with
  | [] => match List.find (fun p => bool_decide (length p.1 = 0%nat)) ps with Some p => Some (p.2, []) | None => None end
  | s :: rest =>
      match matchPath (omap (under_lit s) ps) rest with
      | Some r => Some r
      | None =>
          match (if bool_decide (s = "") then None else matchPath (omap under_wild ps) rest) with
          | Some (a, vs) => Some (a, s :: vs)
          | None => match List.find is_rest ps with Some p => Some (p.2, []) | None => None end
          end
      end
  end.
End Match.

Section Mux.
Context {A : Type}.
Definition of_method (m : string) (ps : list (Pattern * A)) : list (list Seg * (Pattern * A)) :=
  omap (fun p => if bool_decide (p_method p.1 = m) then Some (p_segs p.1, p) else None) ps.
(** The method's tree, that of GET for HEAD, the one of no method. *)
Definition match_tree (ps : list (Pattern * A)) (m : string) (path : list string) : option ((Pattern * A) * list string) :=
  match matchPath (of_method m ps) path with
  | Some r => Some r
  | None => match (if bool_decide (m = "HEAD") then matchPath (of_method "GET" ps) path else None) with
            | Some r => Some r
            | None => matchPath (of_method "" ps) path
            end
  end.
Definition exactMatch (n : option ((Pattern * A) * list string)) (path : list string) : bool :=
  match n with
  | None => false
  | Some ((p, _), _) => match last (p_segs p) with
      | Some Rest => match last path with Some "" => bool_decide (length (p_segs p) = length path) | _ => false end
      | _ => true
      end
  end.
Inductive Found := Route (p : Pattern) (a : A) (values : list string) | Moved | MethodNotAllowed | NoRoute.
Definition clean (path : list string) : bool :=
  forallb (fun s => negb (bool_decide (s = ".")) && negb (bool_decide (s = ".."))) path && forallb (fun s => negb (bool_decide (s = ""))) (removelast path).
Definition slashed (path : list string) : bool := match last path with Some "" => true | _ => false end.
(** A path that is not clean is redirected; so is one that only lacks a slash at its
    end. *)
Definition find (ps : list (Pattern * A)) (m : string) (path : list string) : Found :=
  if negb (clean path) then Moved
  else
    let n := match_tree ps m path in
    if negb (exactMatch n path) && negb (slashed path) && exactMatch (match_tree ps m (path ++ [""])) (path ++ [""]) then Moved
    else match n with
    | Some ((p, a), vs) => Route p a vs
    | None => if existsb (fun p => is_some (matchPath [(p_segs p.1, p)] path) || (negb (slashed path) && is_some (matchPath [(p_segs p.1, p)] (path ++ [""])))) ps then MethodNotAllowed else NoRoute
    end.
End Mux.
Arguments Found A : clear implicits.
#[export] Instance Seg_eq_dec : EqDecision Seg.
Proof. solve_decision. Defined.
(** The values by name. *)
Fixpoint bind (p : list Seg) (values : list string) (name : string) : string :=
  match p, values with
  | Wild n :: p, v :: values => if bool_decide (n = name) then v else bind p values name
  | Lit _ :: p, values => bind p values name
  | _, _ => ""
  end.
End mux.

(** ** The table of the API *)

Inductive scopeKind := scopeUnset | scopeNone | scopeGlobal | scopeEnv | scopeStack | scopeJob | scopeDeployment | scopeMonitor | scopeVolumeSource | scopeWebhook | scopeAny | scopeBody.
#[export] Instance scopeKind_eq_dec : EqDecision scopeKind.
Proof. solve_decision. Defined.
#[export] Instance Cap_eq_dec : EqDecision Cap.
Proof. solve_decision. Defined.
(** The handler by its name. *)
Record route := Route { rt_pattern : string; rt_cap : option Cap; rt_scope : scopeKind; rt_open : string; rt_h : string }.
#[export] Instance route_eq_dec : EqDecision route.
Proof. solve_decision. Defined.

Definition routes_session : list route :=
  [ Route "GET /api/auth/me" None scopeNone "a signed-in user may always read their own identity and permissions" "handleMe";
    Route "POST /api/auth/logout" None scopeNone "ending your own session is not a privileged act" "handleLogout" ].
Definition routes_api_tokens : list route :=
  [ Route "GET /api/tokens" None scopeNone "your own credentials are yours to see; the response carries names and prefixes, never a secret" "handleListMyTokens";
    Route "POST /api/tokens" None scopeNone "minting a credential for yourself is not a granted power; the handler refuses token-authenticated callers" "handleCreateToken";
    Route "DELETE /api/tokens/{id}" None scopeNone "the handler enforces owner-or-users.edit, answering 404 either way" "handleDeleteToken";
    Route "GET /api/tokens/all" (Some UsersEdit) scopeGlobal "" "handleListAllTokens" ].
Definition routes_capability_registry : list route :=
  [ Route "GET /api/capabilities" (Some RolesView) scopeGlobal "" "handleListCapabilities";
    Route "GET /api/openapi.json" None scopeNone "the spec describes shapes, not data; any signed-in user or token holder may read what using the API would reveal anyway" "handleOpenAPISpec" ].
Definition routes_clusters : list route :=
  [ Route "GET /api/clusters" (Some ClustersView) scopeAny "" "handleListEnvironments";
    Route "POST /api/clusters/test-connection" (Some ClustersEdit) scopeGlobal "" "handleTestSSHConnection";
    Route "POST /api/clusters" (Some ClustersEdit) scopeGlobal "" "handleCreateSSHCluster";
    Route "POST /api/clusters/provision" (Some ClustersProvision) scopeGlobal "" "handleProvision";
    Route "DELETE /api/clusters/{cluster}" (Some ClustersEdit) scopeGlobal "" "handleDeleteCluster";
    Route "GET /api/clusters/{cluster}/info" (Some ClustersView) scopeEnv "" "handleEnvInfo";
    Route "GET /api/clusters/{cluster}/df" (Some ClustersView) scopeEnv "" "handleDiskUsage";
    Route "PATCH /api/clusters/{cluster}" (Some ClustersEdit) scopeGlobal "" "handleRenameEnvironment";
    Route "GET /api/clusters/{cluster}/logging" (Some LoggingView) scopeEnv "" "handleGetEnvLogConfig";
    Route "PUT /api/clusters/{cluster}/logging" (Some LoggingEdit) scopeEnv "" "handleSaveEnvLogConfig";
    Route "DELETE /api/clusters/{cluster}/logging" (Some LoggingEdit) scopeEnv "" "handleDeleteEnvLogConfig";
    Route "GET /api/clusters/{cluster}/cleanup" (Some SystemPrune) scopeEnv "" "handleGetEnvCleanup";
    Route "PUT /api/clusters/{cluster}/cleanup" (Some SystemPrune) scopeEnv "" "handleSaveEnvCleanup";
    Route "DELETE /api/clusters/{cluster}/cleanup" (Some SystemPrune) scopeEnv "" "handleDeleteEnvCleanup";
    Route "POST /api/clusters/{cluster}/cleanup/run" (Some SystemPrune) scopeEnv "" "handleRunCleanup";
    Route "GET /api/agents" (Some ClustersEdit) scopeGlobal "" "handleListAgents";
    Route "POST /api/agents" (Some NodesEdit) scopeBody "" "handleCreateAgent";
    Route "DELETE /api/agents/{id}" (Some ClustersEdit) scopeGlobal "" "handleDeleteAgent" ].
Definition routes_containers : list route :=
  [ Route "GET /api/clusters/{cluster}/containers" (Some ContainersView) scopeEnv "" "handleListContainers";
    Route "GET /api/clusters/{cluster}/containers/{id}" (Some ContainersView) scopeEnv "" "handleInspectContainer";
    Route "GET /api/clusters/{cluster}/containers/{id}/logs" (Some ContainersView) scopeEnv "" "handleContainerLogs";
    Route "GET /api/clusters/{cluster}/containers/{id}/stats" (Some ContainersView) scopeEnv "" "handleStatsStream";
    Route "GET /api/clusters/{cluster}/stats" (Some ContainersView) scopeEnv "" "handleStatsSnapshot";
    Route "GET /api/clusters/{cluster}/events" (Some ContainersView) scopeEnv "" "handleEvents";
    Route "POST /api/clusters/{cluster}/containers/{id}/{action}" (Some ContainersEdit) scopeEnv "" "handleContainerAction";
    Route "GET /api/clusters/{cluster}/containers/{id}/exec" None scopeNone "a WebSocket upgrade is a GET; handleExec enforces containers.exec itself" "handleExec" ].
Definition routes_services_and_nodes : list route :=
  [ Route "GET /api/clusters/{cluster}/services" (Some ServicesView) scopeEnv "" "handleListServices";
    Route "GET /api/clusters/{cluster}/services/{id}" (Some ServicesView) scopeEnv "" "handleInspectService";
    Route "GET /api/clusters/{cluster}/services/{id}/tasks" (Some ServicesView) scopeEnv "" "handleListTasks";
    Route "GET /api/clusters/{cluster}/services/{id}/logs" (Some ServicesView) scopeEnv "" "handleServiceLogs";
    Route "GET /api/clusters/{cluster}/nodes" (Some ClustersView) scopeEnv "" "handleListNodes";
    Route "POST /api/clusters/{cluster}/services/{id}/scale" (Some ServicesEdit) scopeEnv "" "handleScaleService";
    Route "POST /api/clusters/{cluster}/services/{id}/redeploy" (Some ServicesEdit) scopeEnv "" "handleRedeployService";
    Route "POST /api/clusters/{cluster}/services/{id}/rollback" (Some ServicesEdit) scopeEnv "" "handleRollbackService";
    Route "DELETE /api/clusters/{cluster}/services/{id}" (Some ServicesEdit) scopeEnv "" "handleRemoveService";
    Route "POST /api/clusters/{cluster}/nodes" (Some NodesEdit) scopeEnv "" "handleAddNode";
    Route "PATCH /api/clusters/{cluster}/nodes/{id}" (Some NodesEdit) scopeEnv "" "handleUpdateNode";
    Route "DELETE /api/clusters/{cluster}/nodes/{id}" (Some NodesEdit) scopeEnv "" "handleRemoveNode" ].
Definition routes_swarm_images_networks_volumes : list route :=
  [ Route "POST /api/clusters/{cluster}/swarm/init" (Some SwarmEdit) scopeEnv "" "handleSwarmInit";
    Route "GET /api/clusters/{cluster}/swarm/tokens" (Some SwarmEdit) scopeEnv "" "handleJoinTokens";
    Route "GET /api/clusters/{cluster}/swarm/task-history" (Some ClustersView) scopeEnv "" "handleGetTaskHistory";
    Route "PUT /api/clusters/{cluster}/swarm/task-history" (Some SwarmEdit) scopeEnv "" "handleSetTaskHistory";
    Route "POST /api/clusters/{cluster}/swarm/leave" (Some SwarmEdit) scopeEnv "" "handleSwarmLeave";
    Route "GET /api/clusters/{cluster}/images" (Some ImagesView) scopeEnv "" "handleListImages";
    Route "DELETE /api/clusters/{cluster}/images/{id}" (Some ImagesEdit) scopeEnv "" "handleRemoveImage";
    Route "GET /api/clusters/{cluster}/networks" (Some NetworksView) scopeEnv "" "handleListNetworks";
    Route "DELETE /api/clusters/{cluster}/networks/{id}" (Some NetworksEdit) scopeEnv "" "handleRemoveNetwork";
    Route "GET /api/clusters/{cluster}/volumes" (Some VolumesView) scopeEnv "" "handleListVolumes";
    Route "DELETE /api/clusters/{cluster}/volumes/{name}" (Some VolumesEdit) scopeEnv "" "handleRemoveVolume";
    Route "POST /api/clusters/{cluster}/prune/{target}" (Some SystemPrune) scopeEnv "" "handlePrune" ].
Definition routes_stacks : list route :=
  [ Route "GET /api/stacks" (Some StacksView) scopeAny "" "handleListStacks";
    Route "GET /api/stacks/{id}" (Some StacksView) scopeStack "" "handleStackDetail";
    Route "GET /api/stacks/{id}/deployments" (Some StacksView) scopeStack "" "handleListStackDeployments";
    Route "GET /api/stacks/{id}/env" (Some StacksView) scopeStack "" "handleStackEnv";
    Route "GET /api/stacks/{id}/secrets" (Some StacksView) scopeStack "" "handleStackSecrets";
    Route "GET /api/stacks/{id}/env/{key}/reveal" (Some SecretsReveal) scopeStack "" "handleRevealStackEnv";
    Route "GET /api/stacks/{id}/secrets/{name}/reveal" (Some SecretsReveal) scopeStack "" "handleRevealStackSecret";
    Route "POST /api/stacks" (Some StacksEdit) scopeBody "" "handleCreateStack";
    Route "PUT /api/stacks/{id}" (Some StacksEdit) scopeStack "" "handleUpdateStack";
    Route "DELETE /api/stacks/{id}" (Some StacksEdit) scopeStack "" "handleDeleteStack";
    Route "PUT /api/stacks/{id}/env" (Some StacksEdit) scopeStack "" "handleSetStackEnv";
    Route "PUT /api/stacks/{id}/secrets" (Some StacksEdit) scopeStack "" "handleSetStackSecrets";
    Route "PUT /api/stacks/{id}/autodeploy" (Some StacksEdit) scopeStack "" "handleSetAutoDeploy";
    Route "POST /api/stacks/{id}/{action}" (Some StacksEdit) scopeStack "" "handleStackAction" ].
Definition routes_inline_compose_image_upgrades : list route :=
  [ Route "POST /api/compose/images" (Some StacksView) scopeBody "" "handlePreviewComposeImages";
    Route "POST /api/compose/tag-check" (Some StacksView) scopeBody "" "handleCheckImageTag";
    Route "POST /api/compose/latest-hint" (Some StacksView) scopeBody "" "handleLatestImageTag";
    Route "POST /api/compose/rewrite" (Some StacksEdit) scopeBody "" "handleRewriteComposeImages" ].
Definition routes_webhooks : list route :=
  [ Route "GET /api/webhooks" (Some WebhooksView) scopeAny "" "handleListWebhooks";
    Route "POST /api/webhooks" (Some WebhooksEdit) scopeBody "" "handleCreateWebhook";
    Route "PUT /api/webhooks/{id}" (Some WebhooksEdit) scopeWebhook "" "handleUpdateWebhook";
    Route "POST /api/webhooks/{id}/rotate" (Some WebhooksEdit) scopeWebhook "" "handleRotateWebhook";
    Route "DELETE /api/webhooks/{id}" (Some WebhooksEdit) scopeWebhook "" "handleDeleteWebhook" ].
Definition routes_volume_sources : list route :=
  [ Route "GET /api/volume-sources" (Some VolSourcesView) scopeAny "" "handleListVolumeSources";
    Route "POST /api/volume-sources" (Some VolSourcesEdit) scopeBody "" "handleCreateVolumeSource";
    Route "GET /api/volume-sources/{id}" (Some VolSourcesView) scopeVolumeSource "" "handleGetVolumeSource";
    Route "PUT /api/volume-sources/{id}" (Some VolSourcesEdit) scopeVolumeSource "" "handleUpdateVolumeSource";
    Route "DELETE /api/volume-sources/{id}" (Some VolSourcesEdit) scopeVolumeSource "" "handleDeleteVolumeSource";
    Route "POST /api/volume-sources/{id}/sync" (Some VolSourcesEdit) scopeVolumeSource "" "handleSyncVolumeSource" ].
Definition routes_deployments : list route :=
  [ Route "GET /api/deployments" (Some StacksView) scopeAny "" "handleRecentDeployments";
    Route "GET /api/deployments/{id}" (Some StacksView) scopeDeployment "" "handleDeploymentDetail";
    Route "GET /api/deployments/{id}/logs" (Some StacksView) scopeDeployment "" "handleDeploymentLogs";
    Route "POST /api/deployments/{id}/cancel" (Some StacksEdit) scopeDeployment "" "handleCancelDeployment";
    Route "POST /api/deployments/{id}/redeploy" (Some StacksEdit) scopeDeployment "" "handleRedeployDeployment" ].
Definition routes_backups : list route :=
  [ Route "GET /api/backups" (Some BackupsView) scopeAny "" "handleListBackupJobs";
    Route "GET /api/backups/{id}/runs" (Some BackupsView) scopeJob "" "handleBackupRuns";
    Route "GET /api/backups/{id}/snapshots" (Some BackupsView) scopeJob "" "handleSnapshots";
    Route "POST /api/backups" (Some BackupsEdit) scopeBody "" "handleCreateBackupJob";
    Route "DELETE /api/backups/{id}" (Some BackupsEdit) scopeJob "" "handleDeleteBackupJob";
    Route "PUT /api/backups/{id}/schedule" (Some BackupsEdit) scopeJob "" "handleSetBackupSchedule";
    Route "POST /api/backups/{id}/toggle" (Some BackupsEdit) scopeJob "" "handleToggleBackupJob";
    Route "POST /api/backups/{id}/run" (Some BackupsEdit) scopeJob "" "handleRunBackup";
    Route "GET /api/backups/{id}/download" (Some BackupsDownload) scopeJob "" "handleSnapshotDownload";
    Route "POST /api/backups/{id}/restore" (Some BackupsRestore) scopeJob "" "handleRestore" ].
Definition routes_storage_registries_git_credentials : list route :=
  [ Route "GET /api/storage" (Some StorageView) scopeAny "" "handleListStorage";
    Route "POST /api/storage" (Some StorageEdit) scopeGlobal "" "handleCreateStorage";
    Route "PUT /api/storage/{id}" (Some StorageEdit) scopeGlobal "" "handleUpdateStorage";
    Route "DELETE /api/storage/{id}" (Some StorageEdit) scopeGlobal "" "handleDeleteStorage";
    Route "GET /api/registries" (Some RegistriesView) scopeAny "" "handleListRegistries";
    Route "POST /api/registries" (Some RegistriesEdit) scopeGlobal "" "handleCreateRegistry";
    Route "DELETE /api/registries/{id}" (Some RegistriesEdit) scopeGlobal "" "handleDeleteRegistry";
    Route "GET /api/gitcreds" (Some GitCredsView) scopeAny "" "handleListGitCredentials";
    Route "GET /api/gitcreds/host-keys" (Some GitCredsEdit) scopeGlobal "" "handleDiscoverHostKeys";
    Route "POST /api/gitcreds" (Some GitCredsEdit) scopeGlobal "" "handleCreateGitCredential";
    Route "POST /api/gitcreds/{id}/test" (Some GitCredsEdit) scopeGlobal "" "handleTestGitCredential";
    Route "DELETE /api/gitcreds/{id}" (Some GitCredsEdit) scopeGlobal "" "handleDeleteGitCredential" ].
Definition routes_ssh_keys : list route :=
  [ Route "GET /api/ssh-keys" (Some SSHKeysView) scopeAny "" "handleListSSHKeys";
    Route "POST /api/ssh-keys" (Some SSHKeysEdit) scopeGlobal "" "handleCreateSSHKey";
    Route "DELETE /api/ssh-keys/{id}" (Some SSHKeysEdit) scopeGlobal "" "handleDeleteSSHKey" ].
Definition routes_certificates : list route :=
  [ Route "GET /api/certs/cas" (Some CertsView) scopeAny "" "handleListCAs";
    Route "POST /api/certs/cas" (Some CertsEdit) scopeGlobal "" "handleCreateCA";
    Route "PUT /api/certs/cas/{id}" (Some CertsEdit) scopeGlobal "" "handleUpdateCA";
    Route "POST /api/certs/cas/{id}/rotate" (Some CertsEdit) scopeGlobal "" "handleRotateCA";
    Route "POST /api/certs/cas/{id}/activate" (Some CertsEdit) scopeGlobal "" "handleActivateCA";
    Route "DELETE /api/certs/cas/{id}" (Some CertsEdit) scopeGlobal "" "handleDeleteCA";
    Route "GET /api/certs/bundle" (Some CertsView) scopeAny "" "handleTrustBundle";
    Route "GET /api/certs" (Some CertsView) scopeAny "" "handleListCertificates";
    Route "POST /api/certs" (Some CertsEdit) scopeGlobal "" "handleCreateCertificate";
    Route "PUT /api/certs/{id}" (Some CertsEdit) scopeGlobal "" "handleUpdateCertificate";
    Route "POST /api/certs/{id}/renew" (Some CertsEdit) scopeGlobal "" "handleRenewCertificate";
    Route "DELETE /api/certs/{id}" (Some CertsEdit) scopeGlobal "" "handleDeleteCertificate" ].
Definition routes_deliveries_encryption_keys : list route :=
  [ Route "GET /api/certs/deliveries" (Some CertsView) scopeAny "" "handleListCertDeliveries";
    Route "POST /api/certs/deliveries" (Some CertsEdit) scopeGlobal "" "handleCreateCertDelivery";
    Route "PUT /api/certs/deliveries/{id}" (Some CertsEdit) scopeGlobal "" "handleUpdateCertDelivery";
    Route "POST /api/certs/deliveries/{id}/sync" (Some CertsEdit) scopeGlobal "" "handleSyncCertDelivery";
    Route "DELETE /api/certs/deliveries/{id}" (Some CertsEdit) scopeGlobal "" "handleDeleteCertDelivery";
    Route "GET /api/certs/fleet-deliveries" (Some FleetView) scopeAny "" "handleListFleetDeliveries";
    Route "POST /api/certs/fleet-deliveries" (Some FleetEdit) scopeGlobal "" "handleCreateFleetDelivery";
    Route "PUT /api/certs/fleet-deliveries/{id}" (Some FleetEdit) scopeGlobal "" "handleUpdateFleetDelivery";
    Route "POST /api/certs/fleet-deliveries/{id}/sync" (Some FleetEdit) scopeGlobal "" "handleSyncFleetDelivery";
    Route "DELETE /api/certs/fleet-deliveries/{id}" (Some FleetEdit) scopeGlobal "" "handleDeleteFleetDelivery";
    Route "GET /api/keys" (Some KeysView) scopeAny "" "handleListKeys";
    Route "POST /api/keys" (Some KeysEdit) scopeGlobal "" "handleCreateKey";
    Route "DELETE /api/keys/{id}" (Some KeysEdit) scopeGlobal "" "handleDeleteKey" ].
Definition routes_keyrings : list route :=
  [ Route "GET /api/keyrings" (Some KeyringsView) scopeAny "" "handleListKeyrings";
    Route "POST /api/keyrings" (Some KeyringsEdit) scopeGlobal "" "handleCreateKeyring";
    Route "PUT /api/keyrings/{id}" (Some KeyringsEdit) scopeGlobal "" "handleUpdateKeyring";
    Route "POST /api/keyrings/{id}/rotate" (Some KeyringsEdit) scopeGlobal "" "handleRotateKeyring";
    Route "POST /api/keyrings/{id}/versions/{vid}/retire" (Some KeyringsEdit) scopeGlobal "" "handleRetireKeyringVersion";
    Route "DELETE /api/keyrings/{id}" (Some KeyringsEdit) scopeGlobal "" "handleDeleteKeyring";
    Route "GET /api/keyrings/deliveries" (Some KeyringsView) scopeAny "" "handleListKeyringDeliveries";
    Route "POST /api/keyrings/deliveries" (Some KeyringsEdit) scopeGlobal "" "handleCreateKeyringDelivery";
    Route "POST /api/keyrings/deliveries/{id}/sync" (Some KeyringsEdit) scopeGlobal "" "handleSyncKeyringDelivery";
    Route "DELETE /api/keyrings/deliveries/{id}" (Some KeyringsEdit) scopeGlobal "" "handleDeleteKeyringDelivery" ].
Definition routes_users : list route :=
  [ Route "GET /api/users" (Some UsersView) scopeGlobal "" "handleListUsers";
    Route "POST /api/users" (Some UsersEdit) scopeGlobal "" "handleCreateUser";
    Route "PATCH /api/users/{id}" (Some UsersEdit) scopeGlobal "" "handleUpdateUser";
    Route "DELETE /api/users/{id}" (Some UsersEdit) scopeGlobal "" "handleDeleteUser";
    Route "PUT /api/users/{id}/password" (Some UsersEdit) scopeGlobal "" "handleSetUserPassword";
    Route "PUT /api/users/{id}/roles" (Some UsersEdit) scopeGlobal "" "handleSetUserRoles";
    Route "POST /api/users/{id}/tokens" (Some UsersEdit) scopeGlobal "" "handleCreateBotToken" ].
Definition routes_roles : list route :=
  [ Route "GET /api/roles" (Some RolesView) scopeGlobal "" "handleListRoles";
    Route "POST /api/roles" (Some RolesEdit) scopeGlobal "" "handleCreateRole";
    Route "PUT /api/roles/{id}" (Some RolesEdit) scopeGlobal "" "handleUpdateRole";
    Route "DELETE /api/roles/{id}" (Some RolesEdit) scopeGlobal "" "handleDeleteRole" ].
Definition routes_resource_monitors : list route :=
  [ Route "GET /api/clusters/{cluster}/metrics" (Some ContainersView) scopeEnv "" "handleSeries";
    Route "GET /api/monitors" (Some MonitorsView) scopeAny "" "handleListMonitors";
    Route "GET /api/monitors/alerts" (Some MonitorsView) scopeAny "" "handleListAlerts";
    Route "POST /api/monitors" (Some MonitorsEdit) scopeBody "" "handleCreateMonitor";
    Route "PUT /api/monitors/{id}" (Some MonitorsEdit) scopeMonitor "" "handleUpdateMonitor";
    Route "DELETE /api/monitors/{id}" (Some MonitorsEdit) scopeMonitor "" "handleDeleteMonitor";
    Route "GET /api/settings/monitoring" (Some MonitorsView) scopeGlobal "" "handleGetMonitorSettings";
    Route "PUT /api/settings/monitoring" (Some MonitorsEdit) scopeGlobal "" "handleSaveMonitorSettings" ].
Definition routes_container_log_defaults : list route :=
  [ Route "GET /api/settings/logging" (Some LoggingView) scopeGlobal "" "handleGetGlobalLogConfig";
    Route "PUT /api/settings/logging" (Some LoggingEdit) scopeGlobal "" "handleSaveGlobalLogConfig";
    Route "DELETE /api/settings/logging" (Some LoggingEdit) scopeGlobal "" "handleDeleteGlobalLogConfig" ].
Definition routes_automatic_disk_cleanup : list route :=
  [ Route "GET /api/settings/cleanup" (Some SystemPrune) scopeGlobal "" "handleGetGlobalCleanup";
    Route "PUT /api/settings/cleanup" (Some SystemPrune) scopeGlobal "" "handleSaveGlobalCleanup";
    Route "DELETE /api/settings/cleanup" (Some SystemPrune) scopeGlobal "" "handleDeleteGlobalCleanup" ].
Definition routes_identity_providers : list route :=
  [ Route "GET /api/settings/oidc" (Some SettingsView) scopeGlobal "" "handleListProviders";
    Route "POST /api/settings/oidc" (Some SettingsEdit) scopeGlobal "" "handleCreateProvider";
    Route "PUT /api/settings/oidc/{id}" (Some SettingsEdit) scopeGlobal "" "handleUpdateProvider";
    Route "DELETE /api/settings/oidc/{id}" (Some SettingsEdit) scopeGlobal "" "handleDeleteProvider";
    Route "POST /api/settings/oidc/{id}/test" (Some SettingsEdit) scopeGlobal "" "handleTestProvider";
    Route "GET /api/settings/oidc/{id}/mappings" (Some SettingsView) scopeGlobal "" "handleListMappings";
    Route "POST /api/settings/oidc/{id}/mappings" (Some SettingsEdit) scopeGlobal "" "handleCreateMapping";
    Route "DELETE /api/settings/oidc/{id}/mappings/{mapping}" (Some SettingsEdit) scopeGlobal "" "handleDeleteMapping" ].
Definition routes_notifications : list route :=
  [ Route "GET /api/settings/smtp" (Some SettingsView) scopeGlobal "" "handleGetSMTP";
    Route "PUT /api/settings/smtp" (Some SettingsEdit) scopeGlobal "" "handleSaveSMTP";
    Route "POST /api/settings/smtp/test" (Some SettingsEdit) scopeGlobal "" "handleTestSMTP";
    Route "GET /api/notifications/events" (Some SettingsView) scopeGlobal "" "handleListNotifyEvents";
    Route "GET /api/notifications/preview/{event}" (Some SettingsView) scopeGlobal "" "handlePreviewNotification";
    Route "GET /api/notifications/failed" (Some SettingsView) scopeGlobal "" "handleFailedNotifications";
    Route "GET /api/notifications/rules" (Some SettingsView) scopeGlobal "" "handleListNotifyRules";
    Route "POST /api/notifications/rules" (Some SettingsEdit) scopeGlobal "" "handleCreateNotifyRule";
    Route "DELETE /api/notifications/rules/{id}" (Some SettingsEdit) scopeGlobal "" "handleDeleteNotifyRule";
    Route "GET /api/notifications/channels" (Some SettingsView) scopeGlobal "" "handleListChannels";
    Route "POST /api/notifications/channels" (Some SettingsEdit) scopeGlobal "" "handleCreateChannel";
    Route "POST /api/notifications/channels/{id}/test" (Some SettingsEdit) scopeGlobal "" "handleTestChannel";
    Route "DELETE /api/notifications/channels/{id}" (Some SettingsEdit) scopeGlobal "" "handleDeleteChannel" ].
Definition routes_audit : list route :=
  [ Route "GET /api/audit" (Some AuditView) scopeAny "" "handleAudit" ].
Definition routes_manifests : list route :=
  [ Route "POST /api/manifest/plan" None scopeNone "authorization is per-resource: the handler preflights every declared resource against its own capability before reporting anything" "handleManifestPlan";
    Route "POST /api/manifest/apply" None scopeNone "authorization is per-resource: the handler preflights every declared resource against its own capability before any mutation" "handleManifestApply";
    Route "GET /api/manifest/applies" (Some ManifestsView) scopeGlobal "" "handleListManifestApplies";
    Route "GET /api/manifest/applies/{id}" (Some ManifestsView) scopeGlobal "" "handleGetManifestApply" ].
Definition apiRoutes : list route :=
  routes_session ++ routes_api_tokens ++ routes_capability_registry ++ routes_clusters ++ routes_containers ++ routes_services_and_nodes ++ routes_swarm_images_networks_volumes ++ routes_stacks ++ routes_inline_compose_image_upgrades ++ routes_webhooks ++ routes_volume_sources ++ routes_deployments ++ routes_backups ++ routes_storage_registries_git_credentials ++ routes_ssh_keys ++ routes_certificates ++ routes_deliveries_encryption_keys ++ routes_keyrings ++ routes_users ++ routes_roles ++ routes_resource_monitors ++ routes_container_log_defaults ++ routes_automatic_disk_cleanup ++ routes_identity_providers ++ routes_notifications ++ routes_audit ++ routes_manifests.
Definition api_patterns : list (mux.Pattern * route) := map (fun rt => (mux.parsePattern (rt_pattern rt), rt)) apiRoutes.

(** What the server answers without a session; the rest goes to the API or to the
    files of the page. *)
Inductive Entry := Public (h : string) | Api | Page.
Definition mux_entries : list (mux.Pattern * Entry) :=
  map (fun e => (mux.parsePattern e.1, e.2))
  [ ("GET /healthz", Public "healthz"); ("POST /agents/enroll", Public "handleAgentEnroll"); ("GET /agents/connect", Public "handleAgentConnect");
    ("POST /webhooks/{id}", Public "handleWebhookDelivery"); ("POST /webhooks/stacks/{id}", Public "handleLegacyStackWebhook"); ("POST /webhooks/volume-sources/{id}", Public "handleLegacyVolumeSourceWebhook");
    ("GET /api/auth/config", Public "handleAuthConfig"); ("POST /api/auth/login", Public "handleLocalLogin"); ("GET /api/auth/oidc/start/{provider}", Public "handleOIDCStart");
    ("GET /api/auth/callback/{provider}", Public "handleOIDCCallback"); ("GET /api/auth/break-glass", Public "handleBreakGlass");
    ("/api/", Api); ("/", Page) ].

(** ** Guards *)

(** On which host an object is; [""] is none in particular. A deployment has the one
    of its stack. The object may not be there, and the store may fail to say. *)
Inductive LookErr := NoSuch | StoreFails.
Definition look := string -> res LookErr string.
Record Objects := mkObjects { stack_env : look; deployment_stack : look; job_env : look; monitor_env : look; source_env : look; webhook_env : look }.
(** A table whose look-ups do not fail. *)
Definition table (m : gmap string string) : look := fun id => match m !! id with Some v => Ok v | None => Err NoSuch end.
Inductive Outcome := Reached (h : string) (c : option Caller) (rq : HttpRequest) | Answered (status : Z) (code : string) | FilesOfThePage.

Section Serve.
Context {dg : Digest} (objs : Objects) (fold : string -> string -> bool) (host : string -> option string).

Definition Deny (w : Web) (rq : HttpRequest) (c : Caller) (cap : Cap) : Web * Outcome := (recordDenial w rq c cap, Answered 403 "forbidden").
Definition envFromPath (rq : HttpRequest) : string := rq_value rq "cluster".
(** A capability that was not declared is held by nobody. *)
Definition zero_cap : Cap := {| NS := ""; Bit := 0 |}.
Definition cap_of (rt : route) : Cap := default zero_cap (rt_cap rt).
Definition RequireCap (scope : HttpRequest -> string) (rt : route) (w : Web) (rq : HttpRequest) (c : Caller) : Web * Outcome :=
  if ScopedHas (ca_mask c) (cap_of rt) (scope rq) then (w, Reached (rt_h rt) (Some c) rq) else Deny w rq c (cap_of rt).
Definition RequireCapAnywhere (rt : route) (w : Web) (rq : HttpRequest) (c : Caller) : Web * Outcome :=
  if HasAnywhere (ca_mask c) (cap_of rt) then (w, Reached (rt_h rt) (Some c) rq) else Deny w rq c (cap_of rt).
(** What is not there and what one may not see are answered alike. *)
Definition hidden (w : Web) (rq : HttpRequest) (c : Caller) (rt : route) (code : string) : Web * Outcome := (recordDenial w rq c (cap_of rt), Answered 404 code).
(** What is answered for an object that was not found. *)
Definition unlooked (w : Web) (e : LookErr) (code : string) : Web * Outcome := match e with NoSuch => (w, Answered 404 code) | StoreFails => (w, Answered 500 "internal") end.
Definition requireOnStack (rt : route) (w : Web) (rq : HttpRequest) (c : Caller) : Web * Outcome :=
  match stack_env objs (rq_value rq "id") with
  | Err e => unlooked w e "no_such_stack"
  | Ok env => if ScopedHas (ca_mask c) (cap_of rt) env then (w, Reached (rt_h rt) (Some c) rq) else hidden w rq c rt "no_such_stack"
  end.
Definition requireOnDeployment (rt : route) (w : Web) (rq : HttpRequest) (c : Caller) : Web * Outcome :=
  match deployment_stack objs (rq_value rq "id") with
  | Err e => unlooked w e "no_such_deployment"
  | Ok stack => match stack_env objs stack with
      | Err e => unlooked w e "no_such_deployment"
      | Ok env => if ScopedHas (ca_mask c) (cap_of rt) env then (w, Reached (rt_h rt) (Some c) rq) else hidden w rq c rt "no_such_deployment"
      end
  end.
Definition requireOnJob (rt : route) (w : Web) (rq : HttpRequest) (c : Caller) : Web * Outcome :=
  match job_env objs (rq_value rq "id") with
  | Err e => unlooked w e "no_such_job"
  | Ok env => if ScopedHas (ca_mask c) (cap_of rt) env then (w, Reached (rt_h rt) (Some c) rq) else hidden w rq c rt "no_such_job"
  end.
(** Without a host the capability is needed everywhere. *)
Definition fleet_or_host (c : Caller) (cap : Cap) (env : string) : bool := if bool_decide (env = "") then Has (Caps.Global (ca_mask c)) cap else ScopedHas (ca_mask c) cap env.
Definition requireOnMonitor (rt : route) (w : Web) (rq : HttpRequest) (c : Caller) : Web * Outcome :=
  match monitor_env objs (rq_value rq "id") with
  | Err e => unlooked w e "no_such_monitor"
  | Ok env => if fleet_or_host c (cap_of rt) env then (w, Reached (rt_h rt) (Some c) rq) else hidden w rq c rt "no_such_monitor"
  end.
Definition requireOnVolumeSource (rt : route) (w : Web) (rq : HttpRequest) (c : Caller) : Web * Outcome :=
  match source_env objs (rq_value rq "id") with
  | Err e => unlooked w e "no_such_source"
  | Ok env => if ScopedHas (ca_mask c) (cap_of rt) env then (w, Reached (rt_h rt) (Some c) rq) else hidden w rq c rt "no_such_source"
  end.
Definition requireOnWebhook (rt : route) (w : Web) (rq : HttpRequest) (c : Caller) : Web * Outcome :=
  match webhook_env objs (rq_value rq "id") with
  | Err e => unlooked w e "no_such_webhook"
  | Ok env => if fleet_or_host c (cap_of rt) env then (w, Reached (rt_h rt) (Some c) rq) else hidden w rq c rt "no_such_webhook"
  end.
(** [None] is the panic of a route without a scope. *)
Definition guard (rt : route) (w : Web) (rq : HttpRequest) (c : Caller) : option (Web * Outcome) :=
  match rt_scope rt with
  | scopeNone | scopeBody => Some (w, Reached (rt_h rt) (Some c) rq)
  | scopeGlobal => Some (RequireCap (fun _ => "") rt w rq c)
  | scopeEnv => Some (RequireCap envFromPath rt w rq c)
  | scopeAny => Some (RequireCapAnywhere rt w rq c)
  | scopeStack => Some (requireOnStack rt w rq c)
  | scopeDeployment => Some (requireOnDeployment rt w rq c)
  | scopeJob => Some (requireOnJob rt w rq c)
  | scopeMonitor => Some (requireOnMonitor rt w rq c)
  | scopeVolumeSource => Some (requireOnVolumeSource rt w rq c)
  | scopeWebhook => Some (requireOnWebhook rt w rq c)
  | scopeUnset => None
  end.
(** Where a caller may exercise a capability: everywhere, or on these hosts. *)
Definition visible_on (c : Caller) (cap : Cap) : bool * list string :=
  if Has (Caps.Global (ca_mask c)) cap then (true, []) else (false, List.filter (fun env => Has (env_set (ca_mask c) env) cap) (Envs (ca_mask c))).

(** ** The whole way *)

Definition with_values (rq : HttpRequest) (p : mux.Pattern) (vs : list string) : HttpRequest :=
  mkReq (rq_authorization rq) (rq_cookie rq) (rq_method rq) (rq_path rq) (mux.bind (mux.p_segs p) vs) (rq_site rq) (rq_origin rq) (rq_host rq).
Definition unfound {A} (f : mux.Found A) : Outcome := match f with mux.Moved => Answered 301 "" | mux.MethodNotAllowed => Answered 405 "" | _ => Answered 404 "" end.
(** [None] is a panic. *)
Definition serveApi (w : Web) (rq : HttpRequest) (c : Caller) : option (Web * Outcome) :=
  match mux.find api_patterns (rq_method rq) (mux.segments (rq_path rq)) with
  | mux.Route p rt vs => guard rt w (with_values rq p vs) c
  | f => Some (w, unfound f)
  end.
Definition Require (w : Web) (rq : HttpRequest) (now : Z) : option (Web * Outcome) :=
  match Resolve w rq now with
  | (w, Ok c) => serveApi w rq c
  | (w, Err Broken) => Some (w, Answered 500 "internal")
  | (w, Err _) => Some (w, Answered 401 "unauthenticated")
  end.
Definition Handler (w : Web) (rq : HttpRequest) (now : Z) : option (Web * Outcome) :=
  match CSRF fold host "" rq with
  | Some _ => Some (w, Answered 403 "csrf")
  | None => match mux.find mux_entries (rq_method rq) (mux.segments (rq_path rq)) with
      | mux.Route p (Public h) vs => Some (w, Reached h None (with_values rq p vs))
      | mux.Route _ Api _ => Require w rq now
      | mux.Route _ Page _ => Some (w, FilesOfThePage)
      | f => Some (w, unfound f)
      end
  end.
End Serve.
