(* ===== verification/BodyScope.v ===== *)
(** * The host in the body

    Models how the ten handlers of the body-scoped routes begin ([agent_handlers.go],
    [stack_handlers.go], [image_upgrade_handlers.go], [webhook_handlers.go],
    [volsource_handlers.go], [backup_handlers.go], [monitor_handlers.go] of
    [internal/api]): the guard of such a route lets every caller through, so the handler
    decodes the body and asks for the capability on the host it names, with
    [mayUseEnv], [mayMonitor] and [mayAct]. What a handler does once it is past that is
    not part of this file. *)
From S2P Require Import Prelude GoStd Monitors Manifest Engines Caps CapCache Roles AuthStore Passwords Auth Routes.
Local Open Scope string_scope.
Local Open Scope list_scope.
Local Open Scope daffa_scope.
Local Open Scope Z_scope.

(** What these handlers look at before they know whether the caller may act: the host
    ([env_id], or [cluster] of an agent), the name, the source and engine of a stack,
    the kinds of a monitor's actions. *)
Record Body := mkBody { bd_env : string; bd_name : string; bd_source : string; bd_engine : string; bd_actions : list string }.

Section Checks.
Context {dg : Digest} (lower : string -> string).

Definition badRequest (w : Web) : Web * option Outcome := (w, Some (Answered 400 "bad_request")).
Definition mayUseEnv (w : Web) (rq : HttpRequest) (c : Caller) (cap : Cap) (env : string) : Web * option Outcome :=
  if ScopedHas (ca_mask c) cap env then (w, None) else let '(w, o) := Deny w rq c cap in (w, Some o).
(** A monitor of no host in particular watches them all. *)
Definition mayMonitor (w : Web) (rq : HttpRequest) (c : Caller) (env : string) : Web * option Outcome :=
  if bool_decide (env = "") then
    if Has (Caps.Global (ca_mask c)) MonitorsEdit then (w, None)
    else (audit w c (denied_action rq) (first_of (rq_value rq "id") (rq_value rq "name")) "denied" "missing_capability:monitors.edit(global)", Some (Answered 403 "monitor_needs_a_host"))
  else mayUseEnv w rq c MonitorsEdit env.
(** The capability an action wields, and whether it is needed everywhere; an unknown
    kind wields none and fails validation later. *)
Definition actionCap (kind : string) : option (Cap * bool) :=
  if bool_decide (kind = Monitors.ActionRestart) then Some (ContainersEdit, false)
  else if bool_decide (kind = Monitors.ActionExec) then Some (ContainersExec, false)
  else if bool_decide (kind = Monitors.ActionScale) then Some (ServicesEdit, false)
  else if bool_decide (kind = Monitors.ActionHTTP) then Some (SettingsEdit, true)
  else None.
Definition action_held (c : Caller) (env kind : string) : bool :=
  match actionCap kind with
  | None => true
  | Some (cap, global) => if global then Has (Caps.Global (ca_mask c)) cap else ScopedHas (ca_mask c) cap env
  end.
Definition missingActionCap (c : Caller) (env : string) (kinds : list string) : option Cap :=
  match List.find (fun k => negb (action_held c env k)) kinds with
  | None => None
  | Some k => fst <$> actionCap k
  end.
Definition mayAct (w : Web) (rq : HttpRequest) (c : Caller) (env : string) (kinds : list string) : Web * option Outcome :=
  match missingActionCap c env kinds with
  | None => (w, None)
  | Some cap => (recordDenial w rq c cap, Some (Answered 403 ("missing_capability:" +:+ cap_Name cap)))
  end.

(** ** How each handler begins *)

Definition begin_agent (w : Web) (rq : HttpRequest) (c : Caller) (b : Body) : Web * option Outcome :=
  if bool_decide (strings.TrimSpace (bd_name b) = "") then badRequest w
  else if bool_decide (bd_env b = "") then badRequest w
  else mayUseEnv w rq c NodesEdit (bd_env b).
Definition begin_stack (w : Web) (rq : HttpRequest) (c : Caller) (b : Body) : Web * option Outcome :=
  if negb (Manifest.validProjectName (strings.TrimSpace (lower (bd_name b)))) then badRequest w
  else if negb (bool_decide (bd_source b = "git")) && negb (bool_decide (bd_source b = "inline")) then badRequest w
  else match EngineFor (strings.TrimSpace (bd_engine b)) with
       | Err _ => badRequest w
       | Ok _ => mayUseEnv w rq c StacksEdit (bd_env b)
       end.
(** A refusal at the fleet is not recorded here. *)
Definition begin_webhook (w : Web) (rq : HttpRequest) (c : Caller) (b : Body) : Web * option Outcome :=
  if bool_decide (bd_env b = "") then
    if Has (Caps.Global (ca_mask c)) WebhooksEdit then (w, None) else (w, Some (Answered 403 ("missing_capability:" +:+ cap_Name WebhooksEdit)))
  else mayUseEnv w rq c WebhooksEdit (bd_env b).
Definition begin_monitor (w : Web) (rq : HttpRequest) (c : Caller) (b : Body) : Web * option Outcome :=
  match mayMonitor w rq c (bd_env b) with
  | (w, None) => mayAct w rq c (bd_env b) (bd_actions b)
  | r => r
  end.
(** [None]: the handler is not one of the ten. *)
Definition beginning (h : string) (w : Web) (rq : HttpRequest) (c : Caller) (b : Body) : option (Web * option Outcome) :=
  if bool_decide (h = "handleCreateAgent") then Some (begin_agent w rq c b)
  else if bool_decide (h = "handleCreateStack") then Some (begin_stack w rq c b)
  else if bool_decide (h = "handlePreviewComposeImages") then Some (mayUseEnv w rq c StacksView (bd_env b))
  else if bool_decide (h = "handleCheckImageTag") then Some (mayUseEnv w rq c StacksView (bd_env b))
  else if bool_decide (h = "handleLatestImageTag") then Some (mayUseEnv w rq c StacksView (bd_env b))
  else if bool_decide (h = "handleRewriteComposeImages") then Some (mayUseEnv w rq c StacksEdit (bd_env b))
  else if bool_decide (h = "handleCreateWebhook") then Some (begin_webhook w rq c b)
  else if bool_decide (h = "handleCreateVolumeSource") then Some (mayUseEnv w rq c VolSourcesEdit (bd_env b))
  else if bool_decide (h = "handleCreateBackupJob") then Some (mayUseEnv w rq c BackupsEdit (bd_env b))
  else if bool_decide (h = "handleCreateMonitor") then Some (begin_monitor w rq c b)
  else None.
(** A handler that was reached, up to where it acts; [None] is a body that cannot be
    decoded. *)
Definition begin (h : string) (w : Web) (rq : HttpRequest) (c : Caller) (body : option Body) : Web * Outcome :=
  match beginning h w rq c (default (mkBody "" "" "" "" []) body) with
  | None => (w, Reached h (Some c) rq)
  | Some r => match body with
      | None => (w, Answered 400 "bad_request")
      | Some _ => match r with (w, None) => (w, Reached h (Some c) rq) | (w, Some o) => (w, o) end
      end
  end.
(** The whole way, up to where a handler acts. *)
Definition Serve (objs : Objects) (fold : string -> string -> bool) (host : string -> option string) (w : Web) (rq : HttpRequest) (body : option Body) (now : Z) : option (Web * Outcome) :=
  match Handler objs fold host w rq now with
  | Some (w, Reached h (Some c) rq) => Some (begin h w rq c body)
  | r => r
  end.
End Checks.
