(* ===== verification/RouteCases.v ===== *)
(** * The way of a request: who reaches what

    The ServeMux serves the one route a request matches; nothing is reached without
    what its route asks for; a refusal says the same for what is hidden and what is
    not there, and is written down. *)
From S2P Require Import Prelude GoStd Caps CapCache Roles AuthStore Passwords Auth SignIn AuthRuns Routes BodyScope.
Local Open Scope string_scope.
Local Open Scope list_scope.
Local Open Scope daffa_scope.
Local Open Scope Z_scope.

(** ** Patterns *)

Module muxes.
Import mux.
(** A path is one of a pattern, and what its wildcards are then. *)
Fixpoint matches (p : list Seg) (path : list string) : bool :=
  match p, path with
  | [], [] => true
  | Lit t :: p, s :: path => bool_decide (t = s) && matches p path
  | Wild _ :: p, s :: path => negb (bool_decide (s = "")) && matches p path
  | Rest :: _, _ :: _ => true
  | _, _ => false
  end.
Fixpoint values (p : list Seg) (path : list string) : list string :=
  match p, path with
  | Lit _ :: p, _ :: path => values p path
  | Wild _ :: p, s :: path => s :: values p path
  | _, _ => []
  end.

Section Match.
Context {A : Type}.
Implicit Type ps : list (list Seg * A).
Lemma under_lit_elem s ps q a : (q, a) ∈ omap (under_lit s) ps -> (Lit s :: q, a) ∈ ps.
Proof. intros ([p b] & Hin & H)%list_elem_of_omap. unfold under_lit in H. simpl in H. destruct p as [|[t| |] p]; try done. case_bool_decide; [|done]. subst t. by injection H as <- <-. Qed.
Lemma under_wild_elem ps q a : (q, a) ∈ omap under_wild ps -> exists n, (Wild n :: q, a) ∈ ps.
Proof. intros ([p b] & Hin & H)%list_elem_of_omap. unfold under_wild in H. simpl in H. destruct p as [|[|n|] p]; try done. injection H as <- <-. by exists n. Qed.
Lemma matchPath_sound path : forall ps a vs, matchPath ps path = Some (a, vs) -> exists p, (p, a) ∈ ps /\ matches p path = true /\ vs = values p path.
Proof.
  induction path as [|s path IH]; intros ps a vs; simpl.
  - destruct (List.find _ _) as [[p b]|] eqn:Ef; [|done]. apply List.find_some in Ef as [Hin%list_elem_of_In Hp]. intros [= <- <-]. exists p. bd. by destruct p.
  - destruct (matchPath (omap (under_lit s) ps) path) as [[b ws]|] eqn:E1.
    + intros [= <- <-]. apply IH in E1 as (q & Hin%under_lit_elem & Hm & ->). exists (Lit s :: q). simpl. by rewrite bool_decide_eq_true_2.
    + destruct (if bool_decide (s = "") then _ else _) as [[b ws]|] eqn:E2.
      * case_bool_decide; [done|]. intros [= <- <-]. apply IH in E2 as (q & (n & Hin)%under_wild_elem & Hm & ->). exists (Wild n :: q). simpl. by rewrite bool_decide_eq_false_2.
      * destruct (List.find _ _) as [[p b]|] eqn:Ef; [|done]. apply List.find_some in Ef as [Hin%list_elem_of_In Hp]. intros [= <- <-]. exists p. unfold is_rest in Hp. simpl in Hp. by destruct p as [|[]].
Qed.
Lemma matchPath_complete path : forall ps p a, (p, a) ∈ ps -> matches p path = true -> exists r, matchPath ps path = Some r.
Proof.
  induction path as [|s path IH]; intros ps p a Hin Hm; simpl.
  - destruct (List.find _ _) as [[q b]|] eqn:Ef; [by eexists|]. exfalso. pose proof (List.find_none _ _ Ef (p, a)) as H. simpl in H. destruct p as [|[]]; try done. rewrite bool_decide_eq_true_2 in H by done. by specialize (H ltac:(by apply list_elem_of_In)).
  - destruct (matchPath (omap (under_lit s) ps) path) as [r|] eqn:E1; [by eexists|]. destruct p as [|[t|n|] p]; simpl in Hm; [done| | |].
    + bd. subst t. destruct (IH (omap (under_lit s) ps) p a) as [r Hr]; [|done|congruence]. apply list_elem_of_omap. exists (Lit s :: p, a). split; [done|]. unfold under_lit. simpl. by rewrite bool_decide_eq_true_2.
    + apply andb_prop in Hm as [Hs Hm]. apply negb_true_iff in Hs. rewrite Hs. destruct (IH (omap under_wild ps) p a) as [[b ws] Hr]; [|done|rewrite Hr; by eexists]. apply list_elem_of_omap. by exists (Wild n :: p, a).
    + destruct (if bool_decide (s = "") then _ else _) as [[b ws]|]; [by eexists|]. destruct (List.find _ _) as [[q b]|] eqn:Ef; [by eexists|]. exfalso. by specialize (List.find_none _ _ Ef (Rest :: p, a) ltac:(by apply list_elem_of_In)).
Qed.
End Match.

(** Two patterns some path is one of. *)
Fixpoint overlap (p q : list Seg) : bool :=
  match p, q with
  | [], [] => true
  | Rest :: _, _ :: _ | _ :: _, Rest :: _ => true
  | Lit a :: p, Lit b :: q => bool_decide (a = b) && overlap p q
  | Lit a :: p, Wild _ :: q | Wild _ :: p, Lit a :: q => negb (bool_decide (a = "")) && overlap p q
  | Wild _ :: p, Wild _ :: q => overlap p q
  | _, _ => false
  end.
Lemma overlap_spec path : forall p q, matches p path = true -> matches q path = true -> overlap p q = true.
Proof.
  induction path as [|s path IH]; intros p q Hp Hq; [destruct p as [|[]], q as [|[]]; done|].
  destruct p as [|[a|n|] p], q as [|[b|n'|] q]; simpl in *; try done; bd; subst; rewrite ?bool_decide_eq_true_2, ?bool_decide_eq_false_2 by done; by apply IH.
Qed.
(** A wildcard stands for something. *)
Fixpoint has_wild (n : string) (p : list Seg) : bool :=
  match p with Lit _ :: p => has_wild n p | Wild m :: p => bool_decide (m = n) || has_wild n p | _ => false end.
Lemma bind_some p path n : matches p path = true -> has_wild n p = true -> bind p (values p path) n <> "".
Proof.
  revert path. induction p as [|[a|m|] p IH]; intros [|t path]; simpl; try done.
  - intros [_ Hm]%andb_prop He. by apply IH.
  - intros [Ht Hm]%andb_prop He. apply negb_true_iff, bool_decide_eq_false in Ht. destruct (decide (m = n)) as [->|Hne]; [by rewrite bool_decide_eq_true_2|]. rewrite bool_decide_eq_false_2 in He |- * by done. by apply IH.
Qed.
End muxes.

(** ** The table *)

Definition serves (rt : route) (m : string) (path : list string) : Prop :=
  let p := mux.parsePattern (rt_pattern rt) in (mux.p_method p = m \/ (m = "HEAD" /\ mux.p_method p = "GET")) /\ muxes.matches (mux.p_segs p) path = true.
Definition apart (a b : route) : bool :=
  let p := mux.parsePattern (rt_pattern a) in let q := mux.parsePattern (rt_pattern b) in negb (bool_decide (mux.p_method p = mux.p_method q) && muxes.overlap (mux.p_segs p) (mux.p_segs q)).
Fixpoint pairwise {A} (f : A -> A -> bool) (l : list A) : bool := match l with [] => true | x :: l => forallb (f x) l && pairwise f l end.
Lemma pairwise_elem {A} (f : A -> A -> bool) l x y : pairwise f l = true -> x ∈ l -> y ∈ l -> x = y \/ f x y = true \/ f y x = true.
Proof.
  induction l as [|z l IH]; [by intros _ ?%elem_of_nil|]. simpl. intros [Hz Hl]%andb_prop. rewrite forallb_elem in Hz. intros [->|Hx]%elem_of_cons [->|Hy]%elem_of_cons; auto.
Qed.
Lemma table_apart : pairwise apart apiRoutes = true.
Proof. vm_compute. reflexivity. Qed.
Definition methods : list string := ["GET"; "POST"; "PUT"; "PATCH"; "DELETE"].
Definition plain_pattern (rt : route) : bool := let p := mux.parsePattern (rt_pattern rt) in bool_decide (mux.p_method p ∈ methods) && forallb (fun s => match s with mux.Rest => false | _ => true end) (mux.p_segs p).
Lemma table_plain : forallb plain_pattern apiRoutes = true.
Proof. vm_compute. reflexivity. Qed.
Lemma served_once r1 r2 m path : r1 ∈ apiRoutes -> r2 ∈ apiRoutes -> serves r1 m path -> serves r2 m path -> r1 = r2.
Proof.
  intros H1 H2 [Hm1 Hp1] [Hm2 Hp2]. pose proof table_plain as Hpl. rewrite forallb_elem in Hpl. assert (forall r, r ∈ apiRoutes -> mux.p_method (mux.parsePattern (rt_pattern r)) <> "HEAD") as Hh.
  { intros r Hr. specialize (Hpl r Hr). unfold plain_pattern in Hpl. cbv zeta in Hpl. apply andb_prop in Hpl as [Hpl _]. intros E. rewrite E in Hpl. discriminate Hpl. }
  assert (mux.p_method (mux.parsePattern (rt_pattern r1)) = mux.p_method (mux.parsePattern (rt_pattern r2))) as Hm by (destruct Hm1 as [<-|[-> ->]], Hm2 as [Hm2|[E ->]]; try done; [by destruct (Hh r1 H1)|by destruct (Hh r2 H2)]).
  destruct (pairwise_elem apart apiRoutes r1 r2 table_apart H1 H2) as [?|[H|H]]; [done| |]; unfold apart in H; cbv zeta in H.
  - rewrite bool_decide_eq_true_2, (muxes.overlap_spec path) in H by done. done.
  - rewrite bool_decide_eq_true_2, (muxes.overlap_spec path) in H by done. done.
Qed.

(** ** What the ServeMux makes of it *)

Definition patterns_of (l : list route) : list (mux.Pattern * route) := map (fun rt => (mux.parsePattern (rt_pattern rt), rt)) l.
Lemma of_method_elem m l segs p rt : (segs, (p, rt)) ∈ mux.of_method m (patterns_of l) <-> rt ∈ l /\ p = mux.parsePattern (rt_pattern rt) /\ mux.p_method p = m /\ segs = mux.p_segs p.
Proof.
  unfold mux.of_method, patterns_of. rewrite list_elem_of_omap. split.
  - intros ([q r] & (r' & [= -> ->] & Hr)%list_elem_of_fmap & H). simpl in H. case_bool_decide; [|done]. injection H as <- <- <-. done.
  - intros (Hr & -> & Hm & ->). exists (mux.parsePattern (rt_pattern rt), rt). split; [apply list_elem_of_fmap; by exists rt|]. simpl. by rewrite bool_decide_eq_true_2.
Qed.
Lemma match_tree_sound l m path p rt vs : l ⊆ apiRoutes -> mux.match_tree (patterns_of l) m path = Some ((p, rt), vs) ->
  rt ∈ l /\ p = mux.parsePattern (rt_pattern rt) /\ serves rt m path /\ vs = muxes.values (mux.p_segs p) path.
Proof.
  intros Hl. unfold mux.match_tree. assert (forall k, mux.matchPath (mux.of_method k (patterns_of l)) path = Some ((p, rt), vs) -> rt ∈ l /\ p = mux.parsePattern (rt_pattern rt) /\ mux.p_method p = k /\ muxes.matches (mux.p_segs p) path = true /\ vs = muxes.values (mux.p_segs p) path) as Hk.
  { intros k (segs & (Hr & Hp & Hm & ->)%of_method_elem & Hma & ->)%muxes.matchPath_sound. by split_and!. }
  destruct (mux.matchPath (mux.of_method m _) path) as [r|] eqn:E1.
  - intros [= ->]. destruct (Hk m E1) as (Hr & -> & Hm & Hma & Hv). split_and!; try done. split; [by left|done].
  - destruct (if bool_decide (m = "HEAD") then _ else _) as [r|] eqn:E2.
    + case_bool_decide as Hh; [|done]. intros [= ->]. destruct (Hk "GET" E2) as (Hr & -> & Hm & Hma & Hv). split_and!; try done. split; [by right|done].
    + intros E3. destruct (Hk "" E3) as (Hr & -> & Hm & _). pose proof table_plain as Hpl. rewrite forallb_elem in Hpl. specialize (Hpl rt (Hl _ Hr)). unfold plain_pattern in Hpl. cbv zeta in Hpl. rewrite Hm in Hpl. discriminate Hpl.
Qed.
Lemma match_tree_complete l m path rt : l ⊆ apiRoutes -> rt ∈ l -> serves rt m path -> mux.match_tree (patterns_of l) m path = Some ((mux.parsePattern (rt_pattern rt), rt), muxes.values (mux.p_segs (mux.parsePattern (rt_pattern rt))) path).
Proof.
  intros Hl Hr Hs. assert (exists x, mux.match_tree (patterns_of l) m path = Some x) as [[[p r] vs] E].
  { destruct Hs as [Hm Hma]. assert (forall k, mux.p_method (mux.parsePattern (rt_pattern rt)) = k -> exists x, mux.matchPath (mux.of_method k (patterns_of l)) path = Some x) as Hk by (intros k Hk; eapply muxes.matchPath_complete; [apply of_method_elem; by split_and!|done]).
    unfold mux.match_tree. destruct Hm as [Hm|[-> Hm]].
    - destruct (Hk m Hm) as [x ->]. by exists x.
    - destruct (mux.matchPath (mux.of_method "HEAD" _) path); [by eexists|]. rewrite bool_decide_eq_true_2 by done. destruct (Hk _ Hm) as [x ->]. by exists x. }
  destruct (match_tree_sound l m path p r vs Hl E) as (Hr' & -> & Hs' & ->). assert (r = rt) as -> by (apply (served_once r rt m path); auto). done.
Qed.
Lemma plain_exact l m path n : l ⊆ apiRoutes -> mux.match_tree (patterns_of l) m path = Some n -> mux.exactMatch (Some n) path = true.
Proof.
  intros Hl E. destruct n as [[p rt] vs]. destruct (match_tree_sound l m path p rt vs Hl E) as (Hr & -> & _). pose proof table_plain as Hpl. rewrite forallb_elem in Hpl. specialize (Hpl rt (Hl _ Hr)). apply andb_prop in Hpl as [_ Hpl]. simpl.
  destruct (last _) as [[]|] eqn:El; try done. apply last_Some_elem_of in El. rewrite forallb_elem in Hpl. by specialize (Hpl _ El).
Qed.

Lemma find_sound l m path p rt vs : l ⊆ apiRoutes -> mux.find (patterns_of l) m path = mux.Route p rt vs ->
  mux.clean path = true /\ rt ∈ l /\ p = mux.parsePattern (rt_pattern rt) /\ serves rt m path /\ vs = muxes.values (mux.p_segs p) path.
Proof.
  intros Hl. unfold mux.find. destruct (mux.clean path); simpl; [|done]. destruct (mux.match_tree (patterns_of l) m path) as [[[q r] ws]|] eqn:E.
  - rewrite (plain_exact _ _ _ _ Hl E). simpl. intros [= <- <- <-]. destruct (match_tree_sound _ _ _ _ _ _ Hl E) as (Hr & -> & Hs & ->). by split_and!.
  - destruct (_ && _); [done|]. by destruct (existsb _ _).
Qed.

(** C25: A request of the API has one route or none, whatever the order the routes
    were registered in: the ServeMux finds a route exactly when the path is clean and
    the route's method and pattern are the request's — HEAD goes with GET — and then
    its values are what the wildcards stand for. No two routes ever share a request,
    so no registration is a conflict. *)
Theorem one_route_or_none (l : list route) (m : string) (path : list string) (p : mux.Pattern) (rt : route) (vs : list string) :
  l ≡ₚ apiRoutes ->
  mux.find (patterns_of l) m path = mux.Route p rt vs <->
  mux.clean path = true /\ rt ∈ apiRoutes /\ p = mux.parsePattern (rt_pattern rt) /\ serves rt m path /\ vs = muxes.values (mux.p_segs p) path.
Proof.
  intros Hperm. assert (l ⊆ apiRoutes) as Hl by (intros x; by rewrite Hperm). split.
  - intros (Hc & Hr & Hp & Hs & Hv)%find_sound; [|done]. rewrite <- Hperm. by split_and!.
  - intros (Hc & Hr & -> & Hs & ->). assert (rt ∈ l) as Hr' by (by rewrite Hperm). pose proof (match_tree_complete l m path rt Hl Hr' Hs) as E. unfold mux.find. rewrite Hc, E, (plain_exact _ _ _ _ Hl E). done.
Qed.

(** ** Nothing is reached without what its route asks for *)

(** The handlers that find their host in the body, with what their routes declare. *)
Definition body_handlers : list (string * Cap) :=
  [ ("handleCreateAgent", NodesEdit); ("handleCreateStack", StacksEdit); ("handlePreviewComposeImages", StacksView); ("handleCheckImageTag", StacksView); ("handleLatestImageTag", StacksView);
    ("handleRewriteComposeImages", StacksEdit); ("handleCreateWebhook", WebhooksEdit); ("handleCreateVolumeSource", VolSourcesEdit); ("handleCreateBackupJob", BackupsEdit); ("handleCreateMonitor", MonitorsEdit) ].
(** The routes whose host is in the body: their handlers check. *)
Definition body_scoped : list string := ["POST /api/agents"; "POST /api/stacks"; "POST /api/compose/images"; "POST /api/compose/tag-check"; "POST /api/compose/latest-hint"; "POST /api/compose/rewrite"; "POST /api/webhooks"; "POST /api/volume-sources"; "POST /api/backups"; "POST /api/monitors"].
Definition needs (rt : route) (names : list string) : bool := forallb (fun n => muxes.has_wild n (mux.p_segs (mux.parsePattern (rt_pattern rt)))) names.
(** A route either asks for a capability of the registry or says why not, names the
    place it is checked at, and has that in its path. *)
Definition route_ok (rt : route) : bool :=
  match rt_cap rt with None => bool_decide (rt_scope rt = scopeNone) && (20 <=? String.length (rt_open rt))%nat | Some c => existsb (fun d => bool_decide (DCap d = c)) All && bool_decide (rt_open rt = "") && negb (bool_decide (rt_scope rt = scopeNone)) end &&
  match rt_scope rt with
  | scopeUnset => false
  | scopeNone | scopeGlobal | scopeAny => true
  | scopeBody => bool_decide (rt_pattern rt ∈ body_scoped)
  | scopeEnv => needs rt ["cluster"]
  | _ => needs rt ["id"]
  end.
Lemma table_ok rt : rt ∈ apiRoutes -> route_ok rt = true.
Proof. intros Hr. assert (forallb route_ok apiRoutes = true) as H by (vm_compute; reflexivity). rewrite forallb_elem in H. by apply H. Qed.
Definition public : list string := ["healthz"; "handleAgentEnroll"; "handleAgentConnect"; "handleWebhookDelivery"; "handleLegacyStackWebhook"; "handleLegacyVolumeSourceWebhook"; "handleAuthConfig"; "handleLocalLogin"; "handleOIDCStart"; "handleOIDCCallback"; "handleBreakGlass"].

Section Cases.
Context {dg : Digest} (lower : string -> string) (objs : Objects) (fold : string -> string -> bool) (host : string -> option string).

(** What a route asks of who gets as far as its handler acts. *)
Definition authorized (rt : route) (rq : HttpRequest) (c : Caller) (body : option Body) : Prop :=
  let held env := ScopedHas (ca_mask c) (cap_of rt) env = true in
  match rt_scope rt with
  | scopeNone => rt_cap rt = None /\ (20 <= String.length (rt_open rt))%nat
  | scopeBody => exists b, body = Some b /\ held (bd_env b) /\ (rt_h rt = "handleCreateMonitor" -> forall k, k ∈ bd_actions b -> action_held c (bd_env b) k = true)
  | scopeGlobal => Has (Caps.Global (ca_mask c)) (cap_of rt) = true
  | scopeEnv => rq_value rq "cluster" <> "" /\ held (rq_value rq "cluster")
  | scopeAny => HasAnywhere (ca_mask c) (cap_of rt) = true
  | scopeStack => exists env, stack_env objs (rq_value rq "id") = Ok env /\ held env
  | scopeDeployment => exists stack env, deployment_stack objs (rq_value rq "id") = Ok stack /\ stack_env objs stack = Ok env /\ held env
  | scopeJob => exists env, job_env objs (rq_value rq "id") = Ok env /\ held env
  | scopeMonitor => exists env, monitor_env objs (rq_value rq "id") = Ok env /\ held env
  | scopeVolumeSource => exists env, source_env objs (rq_value rq "id") = Ok env /\ held env
  | scopeWebhook => exists env, webhook_env objs (rq_value rq "id") = Ok env /\ held env
  | scopeUnset => False
  end.
Lemma fleet_held c cap env : fleet_or_host c cap env = ScopedHas (ca_mask c) cap env.
Proof. unfold fleet_or_host, ScopedHas. case_bool_decide; [|done]. by destruct (Has _ _). Qed.
(** The guard of a route whose host is in the path, or of none. *)
Lemma guard_reached rt w rq c body w1 h oc rq1 : route_ok rt = true -> (rt_scope rt = scopeEnv -> rq_value rq "cluster" <> "") -> guard objs rt w rq c = Some (w1, Reached h oc rq1) ->
  w1 = w /\ h = rt_h rt /\ oc = Some c /\ rq1 = rq /\ (rt_scope rt = scopeBody \/ authorized rt rq c body).
Proof.
  intros Hok Hcl. unfold guard, authorized. unfold route_ok in Hok. apply andb_prop in Hok as [Hc Hs]. assert (forall s, ScopedHas (ca_mask c) (cap_of rt) s = true -> s = "" -> Has (Caps.Global (ca_mask c)) (cap_of rt) = true) as Hg.
  { intros s H ->. unfold ScopedHas in H. destruct (Has _ _); [done|]. by rewrite bool_decide_eq_true_2 in H. }
  destruct (rt_scope rt) eqn:Es; try done;
    unfold RequireCap, RequireCapAnywhere, requireOnStack, requireOnDeployment, requireOnJob, requireOnMonitor, requireOnVolumeSource, requireOnWebhook, unlooked, Deny, hidden; rewrite ?fleet_held;
    repeat (match goal with |- context [match ?x with _ => _ end] => destruct x eqn:? end; try discriminate); intros [= <- <- <- <-]; split_and!; try done; first [by left|right]; eauto 8.
  all: try (destruct (rt_cap rt); [by rewrite andb_false_r in Hc|]; apply andb_prop in Hc as [_ Hc]; by apply Nat.leb_le in Hc).
  all: try (by apply bool_decide_eq_true in Hs); try (by destruct (rt_cap rt); [rewrite andb_false_r in Hc|]); try (by eapply Hg).
  all: rewrite fleet_held in *; by eexists.
Qed.
Lemma guard_runs rt w rq c : route_ok rt = true -> exists r, guard objs rt w rq c = Some r.
Proof. intros H. unfold route_ok in H. apply andb_prop in H as [_ H]. unfold guard. destruct (rt_scope rt); (done || by eexists). Qed.
Lemma mux_entries_find m path p e vs : mux.find mux_entries m path = mux.Route p e vs -> e ∈ map snd mux_entries.
Proof.
  unfold mux.find. destruct (negb _); [done|]. destruct (_ && _ && _); [done|]. destruct (mux.match_tree mux_entries m path) as [[[q r] ws]|] eqn:E; [|by destruct (existsb _ _)]. intros [= <- <- <-].
  unfold mux.match_tree in E. assert (forall k x, mux.matchPath (mux.of_method k mux_entries) path = Some x -> In x.1 mux_entries) as Hk.
  { intros k [[q' r'] ws'] (segs & Hin & _)%muxes.matchPath_sound. unfold mux.of_method in Hin. apply list_elem_of_omap in Hin as ([q2 r2] & Hin & H). simpl in H. case_bool_decide; [|done]. injection H as <- <- <-. by apply list_elem_of_In. }
  apply list_elem_of_In, in_map_iff. exists (q, r). split; [done|]. destruct (mux.matchPath (mux.of_method m mux_entries) path) as [x|] eqn:E1; [injection E as ->; by apply (Hk m _ E1)|].
  destruct (if bool_decide (m = "HEAD") then _ else _) as [x|] eqn:E2; [case_bool_decide; [|done]; injection E as ->; by apply (Hk "GET" _ E2)|by apply (Hk "" _ E)].
Qed.

(** The ten and only they look at the body for their host, and each asks for what
    its route declares. *)
Definition begins_as_declared (rt : route) : bool :=
  if bool_decide (rt_scope rt = scopeBody)
  then existsb (fun x => bool_decide (rt_h rt = x.1) && bool_decide (rt_cap rt = Some x.2)) body_handlers
  else negb (existsb (fun x => bool_decide (rt_h rt = x.1)) body_handlers).
Lemma table_begins rt : rt ∈ apiRoutes -> begins_as_declared rt = true.
Proof. intros Hr. assert (forallb begins_as_declared apiRoutes = true) as H by (vm_compute; reflexivity). rewrite forallb_elem in H. by apply H. Qed.
Lemma mayUseEnv_passed w rq c cap env w1 : mayUseEnv w rq c cap env = (w1, None) -> w1 = w /\ ScopedHas (ca_mask c) cap env = true.
Proof. unfold mayUseEnv, Deny. by destruct (ScopedHas _ _ _) eqn:E; [intros [= <-]|]. Qed.
Lemma fleet_passed c cap : Has (Caps.Global (ca_mask c)) cap = true -> ScopedHas (ca_mask c) cap "" = true.
Proof. unfold ScopedHas. by intros ->. Qed.
Lemma mayAct_passed w rq c env kinds w1 : mayAct w rq c env kinds = (w1, None) -> w1 = w /\ forall k, k ∈ kinds -> action_held c env k = true.
Proof.
  unfold mayAct, missingActionCap. destruct (List.find _ kinds) as [k|] eqn:Ef.
  - apply List.find_some in Ef as [_ Hk]. unfold action_held in Hk. by destruct (actionCap k).
  - intros [= <-]. split; [done|]. intros k Hk. apply negb_false_iff. by apply (List.find_none _ _ Ef), list_elem_of_In.
Qed.
(** A beginning that is passed is one of a caller who holds the capability there. *)
Lemma beginning_passed h cap w rq c b w1 : (h, cap) ∈ body_handlers -> beginning lower h w rq c b = Some (w1, None) ->
  w1 = w /\ ScopedHas (ca_mask c) cap (bd_env b) = true /\ (h = "handleCreateMonitor" -> forall k, k ∈ bd_actions b -> action_held c (bd_env b) k = true).
Proof.
  intros Hin. unfold body_handlers in Hin. rewrite !elem_of_cons in Hin. assert ((h, cap) ∉ @nil (string * Cap)) as Hnil by apply not_elem_of_nil.
  destruct_or! Hin; [injection Hin as -> ->..|done]; unfold beginning; simpl; intros [= E].
  1: unfold begin_agent in E; repeat case_bool_decide; try done; by apply mayUseEnv_passed in E as [-> ?].
  1: unfold begin_stack, badRequest in E; repeat case_match; simplify_eq; by apply mayUseEnv_passed in E as [-> ?].
  1-4,6,7: by apply mayUseEnv_passed in E as [-> ?].
  - unfold begin_webhook in E. case_bool_decide as He; [|by apply mayUseEnv_passed in E as [-> ?]]. destruct (Has _ _) eqn:Hg; [|done]. injection E as <-. rewrite He. by split_and!; [|apply fleet_passed|].
  - unfold begin_monitor in E. destruct (mayMonitor _ _ _ _) as [w2 [o|]] eqn:Em; [done|]. apply mayAct_passed in E as [-> Ha]. split; [|split; [|done]]; unfold mayMonitor in Em; (case_bool_decide as He; [|by apply mayUseEnv_passed in Em as [-> ?]]); (destruct (Has _ _) eqn:Hg; [|done]).
    + by injection Em as <-.
    + rewrite He. by apply fleet_passed.
Qed.
Lemma mayUseEnv_refuses w rq c cap env w1 o : mayUseEnv w rq c cap env = (w1, Some o) -> forall h oc rq1, o <> Reached h oc rq1.
Proof. unfold mayUseEnv, Deny. by destruct (ScopedHas _ _ _); [|intros [= _ <-]]. Qed.
(** What a beginning answers is a refusal. *)
Lemma beginning_refuses h w rq c b w1 h' oc rq1 : ~ beginning lower h w rq c b = Some (w1, Some (Reached h' oc rq1)).
Proof.
  unfold beginning, begin_agent, begin_stack, begin_webhook, begin_monitor, mayMonitor, mayAct, badRequest. intros H. repeat case_match; simplify_eq; by eapply mayUseEnv_refuses.
Qed.
Lemma beginning_none h w rq c b : existsb (fun x => bool_decide (h = x.1)) body_handlers = false -> beginning lower h w rq c b = None.
Proof. unfold body_handlers, beginning. simpl. by repeat (match goal with |- context [bool_decide (h = ?x)] => destruct (bool_decide (h = x)) end; [done|]; simpl). Qed.
Lemma beginning_some h cap w rq c b : (h, cap) ∈ body_handlers -> exists r, beginning lower h w rq c b = Some r.
Proof. unfold body_handlers. rewrite !elem_of_cons, elem_of_nil. intros H. destruct_or! H; injection H as -> ->; by eexists. Qed.
(** What is left to the handler is checked by it. *)
Lemma begin_reached rt w rq c body w1 h oc rq1 : rt ∈ apiRoutes -> begin lower (rt_h rt) w rq c body = (w1, Reached h oc rq1) ->
  w1 = w /\ h = rt_h rt /\ oc = Some c /\ rq1 = rq /\ (rt_scope rt = scopeBody -> authorized rt rq c body).
Proof.
  intros Hr E. pose proof (table_begins rt Hr) as Hb. unfold begins_as_declared in Hb. unfold begin in E. case_bool_decide as Hs.
  - apply existsb_exists in Hb as ([h' cap] & Hin%list_elem_of_In & Hb). simpl in Hb. apply andb_prop in Hb as [Hh Hc]. apply bool_decide_eq_true in Hh as <-. apply bool_decide_eq_true in Hc.
    destruct (beginning_some (rt_h rt) cap w rq c (default (mkBody "" "" "" "" []) body) Hin) as [[w2 o] Eb]. rewrite Eb in E. destruct body as [b|]; [|done]. simpl in Eb.
    destruct o as [o|]; [exfalso; injection E as _ ->; by apply beginning_refuses in Eb|]. injection E as <- <- <- <-. destruct (beginning_passed _ _ _ _ _ _ _ Hin Eb) as (-> & Hh & Ha). split_and!; try done. intros _.
    unfold authorized. rewrite Hs. exists b. unfold cap_of. rewrite Hc. by split_and!.
  - apply negb_true_iff in Hb. rewrite beginning_none in E by done. by injection E as <- <- <- <-.
Qed.


(** ** Refusals *)

Definition hidden_code (s : scopeKind) : option string :=
  match s with
  | scopeStack => Some "no_such_stack" | scopeDeployment => Some "no_such_deployment" | scopeJob => Some "no_such_job" | scopeMonitor => Some "no_such_monitor"
  | scopeVolumeSource => Some "no_such_source" | scopeWebhook => Some "no_such_webhook" | _ => None
  end.
(** Whether the object a path names is there, as far as the store says. *)
Definition there (rt : route) (rq : HttpRequest) : res LookErr unit :=
  let found (o : res LookErr string) := match o with Ok _ => Ok tt | Err e => Err e end in
  match rt_scope rt with
  | scopeStack => found (stack_env objs (rq_value rq "id"))
  | scopeDeployment => match deployment_stack objs (rq_value rq "id") with Ok st => found (stack_env objs st) | Err e => Err e end
  | scopeJob => found (job_env objs (rq_value rq "id"))
  | scopeMonitor => found (monitor_env objs (rq_value rq "id"))
  | scopeVolumeSource => found (source_env objs (rq_value rq "id"))
  | scopeWebhook => found (webhook_env objs (rq_value rq "id"))
  | _ => Ok tt
  end.
(** C26: A refusal gives nothing away and is kept. When a route does not let a caller
    through it says one thing: at an object named in the path, that there is no such
    object — whether there is none or it is on a host the caller may not see — and
    elsewhere that the permission is missing; only when the store cannot say which, it
    is an error of the server's. Nothing changes but the record, which gets one line,
    for what was tried and the capability that was missing, exactly when there was
    something to refuse. *)
Theorem refusals_are_alike (rt : route) (w w1 : Web) (rq : HttpRequest) (c : Caller) (o : Outcome) :
  guard objs rt w rq c = Some (w1, o) -> (forall h oc rq1, o <> Reached h oc rq1) ->
  o = match there rt rq with
      | Err StoreFails => Answered 500 "internal"
      | _ => match hidden_code (rt_scope rt) with Some code => Answered 404 code | None => Answered 403 "forbidden" end
      end /\
  w_db w1 = w_db w /\ w_caps w1 = w_caps w /\
  w_audit w1 = w_audit w ++ (match there rt rq with Ok _ => [mkLine (us_id (ca_user c)) (caller_label c) (denied_action rq) (first_of (rq_value rq "id") (rq_value rq "name")) "denied" ("missing_capability:" +:+ cap_Name (cap_of rt))] | Err _ => [] end).
Proof.
  intros H Hno. unfold guard, there in *. destruct (rt_scope rt); try done;
    try (injection H as <- <-; by destruct (Hno (rt_h rt) (Some c) rq));
    unfold RequireCap, RequireCapAnywhere, requireOnStack, requireOnDeployment, requireOnJob, requireOnMonitor, requireOnVolumeSource, requireOnWebhook, Deny, hidden, unlooked in H;
    repeat (match type of H with context [match ?x with _ => _ end] => destruct x eqn:? end); injection H as <- <-; simpl; rewrite ?app_nil_r; try done;
    by destruct (Hno (rt_h rt) (Some c) rq).
Qed.
(** A page of another site reaches nothing. A request that would change
    something and comes, as the browser says, from another site, is refused before
    anything looks at it, signed in or not. *)
Theorem cross_site_reaches_nothing (w : Web) (rq : HttpRequest) (now : Z) :
  safe_method (rq_method rq) = false -> (rq_site rq = "cross-site" \/ rq_site rq = "same-site" \/ (rq_site rq = "" /\ rq_origin rq <> "" /\ match host (rq_origin rq) with Some h => fold h (rq_host rq) = false | None => True end)) ->
  Handler objs fold host w rq now = Some (w, Answered 403 "csrf").
Proof.
  intros Hm Hs. unfold Handler, CSRF. rewrite Hm. destruct Hs as [->|[->|(-> & Ho & Hh)]]; [done|done|]. simpl. rewrite bool_decide_eq_false_2 by done. unfold originMatches. simpl. destruct (host _) as [h|]; [by rewrite Hh|done].
Qed.
End Cases.

(** ** What the table asks for *)

Definition cap_mode (c : Cap) : option CapMode := Mode <$> List.find (fun d => bool_decide (DCap d = c)) All.
Definition scopable (c : Cap) : bool := match List.find (fun d => bool_decide (DCap d = c)) All with Some d => match Scope d with ScopeEnv => true | _ => false end | None => false end.
(** Reads that disclose more than a view, and writes that need no more than one. *)
Definition telling_reads : list string := ["GET /api/tokens/all"; "GET /api/clusters/{cluster}/cleanup"; "GET /api/agents"; "GET /api/clusters/{cluster}/swarm/tokens"; "GET /api/stacks/{id}/env/{key}/reveal"; "GET /api/stacks/{id}/secrets/{name}/reveal"; "GET /api/backups/{id}/download"; "GET /api/gitcreds/host-keys"; "GET /api/settings/cleanup"].
Definition harmless_writes : list string := ["POST /api/auth/logout"; "POST /api/tokens"; "DELETE /api/tokens/{id}"; "POST /api/compose/images"; "POST /api/compose/tag-check"; "POST /api/compose/latest-hint"; "POST /api/manifest/plan"; "POST /api/manifest/apply"].
Definition is_get (rt : route) : bool := bool_decide (mux.p_method (mux.parsePattern (rt_pattern rt)) = "GET").
Definition is_view (rt : route) : bool := match rt_cap rt with Some c => match cap_mode c with Some ModeView => true | _ => false end | None => true end.
(** What a route asks for fits what it does. A read asks for nothing more than to
    view, except for the nine that disclose secrets, credentials or what they would
    do; a write always asks for more than to view, except for one's own session and
    tokens, three previews and the manifest, whose handler asks per resource. A
    capability that cannot be limited to a host is never checked at one. *)
Theorem routes_ask_enough (rt : route) : rt ∈ apiRoutes ->
  (is_get rt = true -> is_view rt = true \/ rt_pattern rt ∈ telling_reads) /\
  (is_get rt = false -> (rt_cap rt <> None /\ is_view rt = false) \/ rt_pattern rt ∈ harmless_writes) /\
  (forall c, rt_cap rt = Some c -> scopable c = false -> rt_scope rt = scopeGlobal).
Proof.
  intros Hr. assert (forallb (fun rt => (if is_get rt then is_view rt || bool_decide (rt_pattern rt ∈ telling_reads) else negb (is_view rt) || bool_decide (rt_pattern rt ∈ harmless_writes)) &&
    match rt_cap rt with Some c => scopable c || bool_decide (rt_scope rt = scopeGlobal) | None => true end) apiRoutes = true) as H by (vm_compute; reflexivity).
  rewrite forallb_elem in H. specialize (H rt Hr). cbv beta in H. apply andb_prop in H as [H1 H2]. split_and!.
  - intros Hg. rewrite Hg in H1. apply orb_prop in H1 as [?|H1]; [by left|right]. by apply bool_decide_eq_true in H1.
  - intros Hg. rewrite Hg in H1. apply orb_prop in H1 as [H1|H1]; [left|right; by apply bool_decide_eq_true in H1]. apply negb_true_iff in H1. split; [|done]. unfold is_view in H1. by destruct (rt_cap rt).
  - intros c Hc Hs. rewrite Hc, Hs in H2. by apply bool_decide_eq_true in H2.
Qed.

(** The handlers of a run of [AuthRuns]. *)
Definition handler_of (e : WebEvent) : option string :=
  match e with
  | ELogout _ _ => Some "handleLogout" | EMint _ _ _ _ _ _ => Some "handleCreateToken" | EMintBot _ _ _ _ _ _ _ => Some "handleCreateBotToken" | EDropToken _ _ _ => Some "handleDeleteToken"
  | ECreateUser _ _ _ _ _ => Some "handleCreateUser" | EUpdateUser _ _ _ _ _ => Some "handleUpdateUser" | EDeleteUser _ _ _ => Some "handleDeleteUser" | EPassword _ _ _ _ _ => Some "handleSetUserPassword" | ERoles _ _ _ _ => Some "handleSetUserRoles"
  | ECreateProvider _ _ _ _ => Some "handleCreateProvider" | EUpdateProvider _ _ _ _ => Some "handleUpdateProvider" | EDeleteProvider _ _ _ => Some "handleDeleteProvider" | ETestProvider _ _ _ _ => Some "handleTestProvider"
  | EMapping _ _ _ _ _ _ _ => Some "handleCreateMapping" | EDropMapping _ _ _ => Some "handleDeleteMapping"
  | _ => None
  end.
(** The gate of the sign-in model is the table's: what an event of a run asks for
    is what the one route of its handler asks for, everywhere. *)
Theorem gate_is_the_table (e : WebEvent) (need : option Cap) (rq : HttpRequest) (now : Z) (h : string) :
  request_of e = Some (need, rq, now) -> handler_of e = Some h ->
  exists rt, List.filter (fun r => bool_decide (rt_h r = h)) apiRoutes = [rt] /\ rt_cap rt = need /\ rt_scope rt = match need with Some _ => scopeGlobal | None => scopeNone end.
Proof. destruct e; try done; intros [= <- _ _] [= <-]; eexists; (split; [vm_compute; reflexivity|done]). Qed.
