(* ===== verification/RouteDemo.v ===== *)
(** * The way of a request, run

    The theorems of [RouteCases] at concrete requests, with the server of [AuthDemo]. *)
From S2P Require Import Prelude GoStd Caps CapCache Roles AuthStore Passwords Auth SignIn AuthRuns AuthDemo Routes BodyScope RouteCases.
Local Open Scope string_scope.
Local Open Scope list_scope.
Local Open Scope daffa_scope.
Local Open Scope Z_scope.

#[local] Existing Instance plain_digest.
Definition stack_route : route := Route "GET /api/stacks/{id}" (Some StacksView) scopeStack "" "handleStackDetail".
Lemma one_route_or_none_witness : mux.find (patterns_of (rev apiRoutes)) "HEAD" (mux.segments "/api/stacks/s1") = mux.Route (mux.parsePattern "GET /api/stacks/{id}") stack_route ["s1"].
Proof.
  apply (one_route_or_none (rev apiRoutes)); [symmetry; apply Permutation_rev|]. split_and!; [reflexivity| |reflexivity| |reflexivity].
  - refine (bool_decide_eq_true_1 _ _). vm_compute. reflexivity.
  - split; [by right|reflexivity].
Defined.
(** Two stacks on two hosts, and one who may see one of them. *)
Definition two_stacks : Objects := mkObjects (table {[ "s1" := "h1"; "s2" := "h2" ]}) (table ∅) (table ∅) (table ∅) (table ∅) (table ∅).
Definition on_h1 : Caller := mkCaller (mkUser "u2" "local" "bob" "" "" "" "" false) (mkScoped ∅ {[ "h1" := {[ NS StacksView := Bit StacksView ]} ]}) None.
Definition asking (id : string) : HttpRequest := mkReq "" "" "GET" ("/api/stacks/" +:+ id) (fun n => if bool_decide (n = "id") then id else "") "" "" "".
Lemma refusals_are_alike_witness : exists w1 w2, guard two_stacks stack_route w0 (asking "s2") on_h1 = Some (w1, Answered 404 "no_such_stack") /\ guard two_stacks stack_route w0 (asking "s3") on_h1 = Some (w2, Answered 404 "no_such_stack") /\
  length (w_audit w1) = 1%nat /\ length (w_audit w2) = 0%nat.
Proof.
  destruct (guard two_stacks stack_route w0 (asking "s2") on_h1) as [[w1 o1]|] eqn:E1; [|vm_compute in E1; discriminate E1]. destruct (guard two_stacks stack_route w0 (asking "s3") on_h1) as [[w2 o2]|] eqn:E2; [|vm_compute in E2; discriminate E2].
  assert (forall h oc r, o1 <> Reached h oc r) as N1 by (intros h oc r ->; vm_compute in E1; discriminate E1). assert (forall h oc r, o2 <> Reached h oc r) as N2 by (intros h oc r ->; vm_compute in E2; discriminate E2).
  destruct (refusals_are_alike two_stacks stack_route w0 w1 (asking "s2") on_h1 o1 E1 N1) as (-> & _ & _ & A1). destruct (refusals_are_alike two_stacks stack_route w0 w2 (asking "s3") on_h1 o2 E2 N2) as (-> & _ & _ & A2).
  exists w1, w2. split_and!; [reflexivity|reflexivity|rewrite A1; reflexivity|rewrite A2; reflexivity].
Defined.
Definition forged : HttpRequest := mkReq "" (newToken "r1") "DELETE" "/api/users/u1" (fun _ => "") "cross-site" "" "daffa".
Lemma cross_site_reaches_nothing_witness : Handler two_stacks String.eqb Some w_ann forged hour = Some (w_ann, Answered 403 "csrf").
Proof. apply cross_site_reaches_nothing; [reflexivity|by left]. Defined.
(** Ann, who is an administrator, reaches what she asks for. *)
Lemma no_route_unguarded_run : match Handler two_stacks String.eqb Some w_ann (mkReq "" (newToken "r1") "GET" "/api/stacks/s2" (fun _ => "") "" "" "daffa") hour with Some (_, Reached h (Some c) rq) => h = "handleStackDetail" /\ us_username (ca_user c) = "ann" /\ rq_value rq "id" = "s2" | _ => False end.
Proof. vm_compute. by split_and!. Qed.
Lemma routes_ask_enough_witness : rt_scope (Route "PUT /api/users/{id}/roles" (Some UsersEdit) scopeGlobal "" "handleSetUserRoles") = scopeGlobal.
Proof. apply (routes_ask_enough (Route "PUT /api/users/{id}/roles" (Some UsersEdit) scopeGlobal "" "handleSetUserRoles")) with (c := UsersEdit); [refine (bool_decide_eq_true_1 _ _); vm_compute; reflexivity|reflexivity|reflexivity]. Defined.
Lemma gate_is_the_table_witness : exists rt, List.filter (fun r => bool_decide (rt_h r = "handleSetUserPassword")) apiRoutes = [rt] /\ rt_cap rt = Some UsersEdit /\ rt_scope rt = scopeGlobal.
Proof. apply (gate_is_the_table (EPassword ann_req "u1" "a new password" "s" hour) (Some UsersEdit) ann_req hour "handleSetUserPassword"); reflexivity. Defined.
(** One who edits stacks on one host creates them there and on no other. *)
Definition editor : Caller := mkCaller (mkUser "u2" "local" "bob" "" "" "" "" false) (mkScoped ∅ {[ "h1" := {[ NS StacksEdit := Bit StacksEdit ]} ]}) None.
Definition creating : HttpRequest := mkReq "" "" "POST" "/api/stacks" (fun _ => "") "" "" "".
Lemma body_is_asked : (begin (fun s => s) "handleCreateStack" w0 creating editor (Some (mkBody "h1" "shop" "git" "" []))).2 = Reached "handleCreateStack" (Some editor) creating /\
  (begin (fun s => s) "handleCreateStack" w0 creating editor (Some (mkBody "h2" "shop" "git" "" []))).2 = Answered 403 "forbidden" /\
  (begin (fun s => s) "handleCreateStack" w0 creating editor (Some (mkBody "" "shop" "git" "" []))).2 = Answered 403 "forbidden".
Proof. vm_compute. by split_and!. Qed.
