(* ===== verification/Deployments.v ===== *)
(** * The deployment table

    Models the deployment half of [internal/store/stacks.go]: the claim, the
    verdict, the cancel flag, the history queries and the retention sweep. The
    table is the list of its rows in insertion order; its primary key and the
    partial unique index [idx_deploy_one_running] of [migrate.go] make an
    INSERT fail. Times are the texts [Timestamps.ts] writes. *)
From S2P Require Import Prelude GoStd.
Local Open Scope string_scope.
Local Open Scope list_scope.
Local Open Scope daffa_scope.

(** ** Rows *)

Record Deployment := mkDep {
  dID : string; dStackID : string; dAction : string; dStatus : string; dEngine : string;
  dTriggerKind : string; dStartedBy : string; dRunnerCtrID : string; dExitCode : option Z;
  dLog : string; dLogTruncated : bool; dCancelRequested : bool; dBundleHash : string;
  dCommitSHA : string; dCommitSubject : string; dComposeYAML : string; dRollbackOf : string;
  dStartedAt : string; dEndedAt : option string }.

Definition TriggerManual := "manual".
Definition TriggerWebhook := "webhook".
Definition TriggerRollback := "rollback".
Definition DeployRunning := "running".
Definition DeployOK := "ok".
Definition DeployFailed := "failed".
Definition DeployCancelled := "cancelled".

(** The deployments, and the environment of each stack ([stacks.env_id]). *)
Record Table := mkTable { rows : list Deployment; stack_env : gmap string string }.

Inductive DeployErr := ErrRunInProgress | ErrDepNotFound | ErrInsert | ErrPruneArgs.

Definition is_running (d : Deployment) : bool := bool_decide (dStatus d = DeployRunning).
Definition running_of (t : Table) (sid : string) : list Deployment :=
  List.filter (fun d => bool_decide (dStackID d = sid) && is_running d) (rows t).

Definition DeploymentByID (t : Table) (id : string) : res DeployErr Deployment :=
  match List.find (fun d => bool_decide (dID d = id)) (rows t) with
  | Some d => Ok d
  | None => Err ErrDepNotFound
  end.

Definition update_row (id : string) (f : Deployment -> Deployment) (t : Table) : Table :=
  mkTable (map (fun d => if bool_decide (dID d = id) then f d else d) (rows t)) (stack_env t).

(** ** The claim *)

(** What [ClaimDeployment] fills in, and the row it inserts: the columns the
    statement writes as constants do not come from [d]. *)
Definition claim_row (d : Deployment) (newid now : string) : Deployment :=
  mkDep (if bool_decide (dID d = "") then newid else dID d)
        (dStackID d) (dAction d) DeployRunning
        (if bool_decide (dEngine d = "") then "compose" else dEngine d)
        (if bool_decide (dTriggerKind d = "") then TriggerManual else dTriggerKind d)
        (dStartedBy d) "" None "" false false (dBundleHash d) (dCommitSHA d) (dCommitSubject d)
        (dComposeYAML d) (dRollbackOf d) now None.

(** The INSERT, under the primary key, the foreign key and the unique index. *)
Definition insert_row (t : Table) (r : Deployment) : option Table :=
  if existsb (fun d => bool_decide (dID d = dID r)) (rows t) then None
  else if negb (bool_decide (is_Some (stack_env t !! dStackID r))) then None
  else if is_running r && (0 <? length (running_of t (dStackID r)))%nat then None
  else Some (mkTable (rows t ++ [r]) (stack_env t)).

(** The statement that found the COUNT positive, or the re-check after a failed
    INSERT: it answers for the table as it is when it runs. *)
Definition claim_recheck (t : Table) (r : Deployment) : DeployErr :=
  if (0 <? length (running_of t (dStackID r)))%nat then ErrRunInProgress else ErrInsert.

(** [ClaimDeployment], with no other writer in between (SQLite, where
    [lockWrites] serializes it). *)
Definition ClaimDeployment (t : Table) (d : Deployment) (newid now : string) : res DeployErr (Table * Deployment) :=
  if (0 <? length (running_of t (dStackID d)))%nat then Err ErrRunInProgress
  else let r := claim_row d newid now in
       match insert_row t r with
       | Some t' => Ok (t', r)
       | None => Err (claim_recheck t r)
       end.

(** ** The rest of a deployment's life *)

Definition SetDeploymentContainer (t : Table) (id ctrID : string) : Table :=
  update_row id (fun d => mkDep (dID d) (dStackID d) (dAction d) (dStatus d) (dEngine d) (dTriggerKind d)
    (dStartedBy d) ctrID (dExitCode d) (dLog d) (dLogTruncated d) (dCancelRequested d) (dBundleHash d)
    (dCommitSHA d) (dCommitSubject d) (dComposeYAML d) (dRollbackOf d) (dStartedAt d) (dEndedAt d)) t.

Definition SetDeploymentBundle (t : Table) (id hash commitSHA commitSubject yaml : string) : Table :=
  update_row id (fun d => mkDep (dID d) (dStackID d) (dAction d) (dStatus d) (dEngine d) (dTriggerKind d)
    (dStartedBy d) (dRunnerCtrID d) (dExitCode d) (dLog d) (dLogTruncated d) (dCancelRequested d) hash
    commitSHA commitSubject yaml (dRollbackOf d) (dStartedAt d) (dEndedAt d)) t.

Definition verdict (cancelled : bool) (exitCode : Z) : string :=
  if cancelled then DeployCancelled else if negb (exitCode =? 0)%Z then DeployFailed else DeployOK.

Definition finish_row (status : string) (exitCode : Z) (log : string) (truncated : bool) (now : string) (d : Deployment) : Deployment :=
  mkDep (dID d) (dStackID d) (dAction d) status (dEngine d) (dTriggerKind d)
    (dStartedBy d) (dRunnerCtrID d) (Some exitCode) log truncated (dCancelRequested d) (dBundleHash d)
    (dCommitSHA d) (dCommitSubject d) (dComposeYAML d) (dRollbackOf d) (dStartedAt d) (Some now).

(** The two statements of [FinishDeployment]: the flag is read, then the
    verdict it gives is written. *)
Definition finish_read (t : Table) (id : string) : res DeployErr bool :=
  match DeploymentByID t id with Ok d => Ok (dCancelRequested d) | Err _ => Err ErrDepNotFound end.

Definition finish_write (t : Table) (id : string) (cancelled : bool) (exitCode : Z) (log : string) (truncated : bool) (now : string) : Table :=
  update_row id (finish_row (verdict cancelled exitCode) exitCode log truncated now) t.

Definition FinishDeployment (t : Table) (id : string) (exitCode : Z) (log : string) (truncated : bool) (now : string)
  : res DeployErr (Table * string) :=
  let* cancelled := finish_read t id in
  Ok (finish_write t id cancelled exitCode log truncated now, verdict cancelled exitCode).

Definition cancel_row (d : Deployment) : Deployment :=
  mkDep (dID d) (dStackID d) (dAction d) (dStatus d) (dEngine d) (dTriggerKind d)
    (dStartedBy d) (dRunnerCtrID d) (dExitCode d) (dLog d) (dLogTruncated d) true (dBundleHash d)
    (dCommitSHA d) (dCommitSubject d) (dComposeYAML d) (dRollbackOf d) (dStartedAt d) (dEndedAt d).

Definition RequestCancel (t : Table) (id : string) : Table * bool :=
  let hit d := bool_decide (dID d = id) && is_running d in
  (mkTable (map (fun d => if hit d then cancel_row d else d) (rows t)) (stack_env t), existsb hit (rows t)).

(** ** History *)

Definition clamp_limit (limit most dflt : Z) : nat :=
  Z.to_nat (if (limit <=? 0)%Z || (most <? limit)%Z then dflt else limit).

Definition ListDeployments (t : Table) (stackID : string) (limit : Z) : list Deployment :=
  top dStartedAt (clamp_limit limit 100 20) (List.filter (fun d => bool_decide (dStackID d = stackID)) (rows t)).

(** [DeploymentFilter]; [fBefore] is the text of the bound, [""] for the zero time. *)
Record DeploymentFilter := mkFilter {
  fStatus : string; fStackID : string; fEnvID : string; fTrigger : string; fBefore : string; fLimit : Z }.

Definition opt_eq (want have : string) : bool := bool_decide (want = "") || bool_decide (have = want).

(** The WHERE clause of the feed, for a row joined to its stack. *)
Definition feed_match (global : bool) (envs : list string) (f : DeploymentFilter) (env : string) (d : Deployment) : bool :=
  (global || bool_decide (env ∈ envs)) && opt_eq (fStatus f) (dStatus d) && opt_eq (fStackID f) (dStackID d) &&
  opt_eq (fEnvID f) env && opt_eq (fTrigger f) (dTriggerKind d) &&
  (bool_decide (fBefore f = "") || String.ltb (dStartedAt d) (fBefore f)).

(** The feed selects [''] in place of the log and the compose file. *)
Definition feed_row (d : Deployment) : Deployment :=
  mkDep (dID d) (dStackID d) (dAction d) (dStatus d) (dEngine d) (dTriggerKind d)
    (dStartedBy d) (dRunnerCtrID d) (dExitCode d) "" (dLogTruncated d) (dCancelRequested d) (dBundleHash d)
    (dCommitSHA d) (dCommitSubject d) "" (dRollbackOf d) (dStartedAt d) (dEndedAt d).

Definition RecentDeployments (t : Table) (global : bool) (envs : list string) (f : DeploymentFilter) : list Deployment :=
  if negb global && bool_decide (envs = []) then []
  else map feed_row (top dStartedAt (clamp_limit (fLimit f) 200 50)
    (List.filter (fun d => match stack_env t !! dStackID d with
                           | Some env => feed_match global envs f env d
                           | None => false end) (rows t))).

Definition UnfinishedDeployments (t : Table) : list Deployment := List.filter is_running (rows t).

(** [PruneDeployments]: [cutoff] is the text of [now().Add(-maxAge)]. *)
Definition newest_ids (t : Table) (sid : string) (keep : nat) : list string :=
  map dID (top dStartedAt keep (List.filter (fun d => bool_decide (dStackID d = sid)) (rows t))).

Definition prunable (t : Table) (keep : nat) (cutoff : string) (d : Deployment) : bool :=
  negb (is_running d) && String.ltb (dStartedAt d) cutoff && negb (bool_decide (dID d ∈ newest_ids t (dStackID d) keep)).

Definition PruneDeployments (t : Table) (keepPerStack : Z) (maxAge : Z) (cutoff : string) : res DeployErr (Table * Z) :=
  if (keepPerStack <=? 0)%Z || (maxAge <=? 0)%Z then Err ErrPruneArgs
  else let gone := prunable t (Z.to_nat keepPerStack) cutoff in
       Ok (mkTable (List.filter (fun d => negb (gone d)) (rows t)) (stack_env t),
           Z.of_nat (length (List.filter gone (rows t)))).

(** ** Interleavings

    On Postgres [lockWrites] is a no-op: the statements of two calls interleave.
    A [call] is one that is between two of its statements. *)
Inductive call :=
| CInsert (r : Deployment)                      (* counted zero, about to INSERT *)
| CRecheck (r : Deployment)                     (* the INSERT failed *)
| CFinish (id : string) (cancelled : bool) (exitCode : Z) (log : string) (truncated : bool).

Inductive outcome :=
| Claimed (r : Deployment) | ClaimRefused (sid : string) (e : DeployErr)
| Finished (id status : string) | FinishErr (id : string) | CancelAnswer (id : string) (flagged : bool).

Record world := World { tbl : Table; calls : list call; outcomes : list outcome }.

Inductive event :=
| EClaim (d : Deployment) (newid now : string)
| EFinish (id : string) (exitCode : Z) (log : string) (truncated : bool)
| EResume (k : nat) (now : string)              (* the next statement of the k-th call *)
| ECancel (id : string)
| ESetContainer (id ctrID : string)
| ESetBundle (id hash sha subject yaml : string)
| EPrune (keep age : Z) (cutoff : string)
| ECreateStack (sid env : string)
| EDeleteStack (sid : string).

Definition say (w : world) (o : outcome) : world := World (tbl w) (calls w) (outcomes w ++ [o]).
Definition suspend (w : world) (c : call) : world := World (tbl w) (calls w ++ [c]) (outcomes w).
Definition with_tbl (w : world) (t : Table) : world := World t (calls w) (outcomes w).

(** Deleting a stack cascades to its deployments. *)
Definition delete_stack (t : Table) (sid : string) : Table :=
  mkTable (List.filter (fun d => negb (bool_decide (dStackID d = sid))) (rows t)) (delete sid (stack_env t)).

Definition resume (w : world) (c : call) (now : string) : world :=
  match c with
  | CInsert r =>
      match insert_row (tbl w) r with
      | Some t' => say (with_tbl w t') (Claimed r)
      | None => suspend w (CRecheck r)
      end
  | CRecheck r => say w (ClaimRefused (dStackID r) (claim_recheck (tbl w) r))
  | CFinish id c x log tr => say (with_tbl w (finish_write (tbl w) id c x log tr now)) (Finished id (verdict c x))
  end.

Definition step (w : world) (e : event) : world :=
  match e with
  | EClaim d newid now =>
      if (0 <? length (running_of (tbl w) (dStackID d)))%nat then say w (ClaimRefused (dStackID d) ErrRunInProgress)
      else suspend w (CInsert (claim_row d newid now))
  | EFinish id x log tr =>
      match finish_read (tbl w) id with
      | Ok c => suspend w (CFinish id c x log tr)
      | Err _ => say w (FinishErr id)
      end
  | EResume k now =>
      match calls w !! k with
      | Some c => resume (World (tbl w) (delete k (calls w)) (outcomes w)) c now
      | None => w
      end
  | ECancel id => let '(t, b) := RequestCancel (tbl w) id in say (with_tbl w t) (CancelAnswer id b)
  | ESetContainer id c => with_tbl w (SetDeploymentContainer (tbl w) id c)
  | ESetBundle id h s sub y => with_tbl w (SetDeploymentBundle (tbl w) id h s sub y)
  | EPrune keep age cutoff =>
      match PruneDeployments (tbl w) keep age cutoff with Ok (t, _) => with_tbl w t | Err _ => w end
  | ECreateStack sid env => with_tbl w (mkTable (rows (tbl w)) (<[sid := env]> (stack_env (tbl w))))
  | EDeleteStack sid => with_tbl w (delete_stack (tbl w) sid)
  end.

Definition run (w : world) (es : list event) : world := fold_left step es w.

(** ** The invariant of the table *)

Record table_ok (t : Table) : Prop := {
  ok_ids : NoDup (map dID (rows t));
  ok_running : NoDup (map dStackID (List.filter is_running (rows t)));
  ok_stacks : forall d, d ∈ rows t -> is_Some (stack_env t !! dStackID d) }.

Lemma running_of_alt t sid : running_of t sid = List.filter (fun d => bool_decide (dStackID d = sid)) (List.filter is_running (rows t)).
Proof.
  unfold running_of. induction (rows t) as [|d l IH]; simpl; [done|].
  destruct (is_running d); simpl; [|by rewrite andb_false_r].
  rewrite andb_true_r. destruct (bool_decide _); by rewrite IH.
Qed.

Lemma elem_running_of t sid d : d ∈ running_of t sid <-> d ∈ rows t /\ dStackID d = sid /\ dStatus d = DeployRunning.
Proof. unfold running_of, is_running. by rewrite elem_of_filter_b, andb_true_iff, !bool_decide_eq_true. Qed.

Lemma running_of_nil t sid :
  (0 <? length (running_of t sid))%nat = false <-> forall d, d ∈ rows t -> dStackID d = sid -> dStatus d <> DeployRunning.
Proof.
  rewrite Nat.ltb_ge, Nat.le_0_r, length_zero_iff_nil. split.
  - intros Hn d Hd Hs Hr. assert (d ∈ running_of t sid) as H by (by apply elem_running_of). rewrite Hn in H. by apply elem_of_nil in H.
  - intros H. destruct (running_of t sid) as [|d l] eqn:E; [done|]. exfalso.
    assert (d ∈ running_of t sid) as Hd by (rewrite E; by left). apply elem_running_of in Hd as (? & ? & ?). by eapply H.
Qed.

(** An update that keeps ids and stacks, and starts nothing, keeps the invariant. *)
Lemma NoDup_map_filter_incl {A B} (f : A -> B) (p q : A -> bool) (g : A -> A) l :
  (forall x, f (g x) = f x) -> (forall x, p (g x) = true -> q x = true) ->
  NoDup (map f (List.filter q l)) -> NoDup (map f (List.filter p (map g l))).
Proof.
  intros Hf Hp. induction l as [|x l IH]; simpl; [done|]. intros H.
  assert (NoDup (map f (List.filter p (map g l)))) as Hl.
  { apply IH. destruct (q x); [by inversion H|done]. }
  destruct (p (g x)) eqn:Ep; [|done]. simpl. rewrite (Hp _ Ep) in H. simpl in H. inversion H as [|? ? Hx Hnd]; subst.
  constructor; [|done]. rewrite Hf. intros Hin. apply Hx.
  apply list_elem_of_fmap in Hin as (y & Ey & Hy). apply elem_of_filter_b in Hy as [Hy Epy].
  apply list_elem_of_fmap in Hy as (z & -> & Hz). apply list_elem_of_fmap. exists z.
  rewrite Hf in Ey. split; [done|]. apply elem_of_filter_b. eauto.
Qed.

Lemma map_rows_ok t g :
  (forall d, dID (g d) = dID d) -> (forall d, dStackID (g d) = dStackID d) ->
  (forall d, is_running (g d) = true -> is_running d = true) ->
  table_ok t -> table_ok (mkTable (map g (rows t)) (stack_env t)).
Proof.
  intros Hid Hs Hr [H1 H2 H3]. split; simpl.
  - rewrite map_map. erewrite map_ext; [exact H1|]. done.
  - by apply (NoDup_map_filter_incl _ _ is_running).
  - intros d Hd. apply list_elem_of_fmap in Hd as (d' & -> & Hd). rewrite Hs. by apply H3.
Qed.

Lemma update_row_ok t id f :
  (forall d, dID (f d) = dID d) -> (forall d, dStackID (f d) = dStackID d) ->
  (forall d, is_running (f d) = true -> is_running d = true) -> table_ok t -> table_ok (update_row id f t).
Proof.
  intros Hid Hs Hr. apply map_rows_ok; intros d; case_bool_decide; auto.
Qed.

Lemma filter_comm {A} (p q : A -> bool) l : List.filter p (List.filter q l) = List.filter q (List.filter p l).
Proof.
  induction l as [|x l IH]; simpl; [done|]. destruct (p x) eqn:Ep, (q x) eqn:Eq; simpl; rewrite ?Ep, ?Eq, IH; done.
Qed.

(** Deleting rows keeps it too. *)
Lemma filter_rows_ok t p m :
  (forall d, d ∈ rows t -> p d = true -> is_Some (m !! dStackID d)) ->
  table_ok t -> table_ok (mkTable (List.filter p (rows t)) m).
Proof.
  intros Hm [H1 H2 H3]. split; simpl.
  - by apply NoDup_map_filter.
  - rewrite filter_comm. by apply NoDup_map_filter.
  - intros d Hd. apply elem_of_filter_b in Hd as [Hd Hp]. eauto.
Qed.

Lemma insert_row_inv t r t' :
  insert_row t r = Some t' ->
  t' = mkTable (rows t ++ [r]) (stack_env t) /\ (forall d, d ∈ rows t -> dID d <> dID r) /\
  is_Some (stack_env t !! dStackID r) /\
  (dStatus r = DeployRunning -> forall d, d ∈ rows t -> dStackID d = dStackID r -> dStatus d <> DeployRunning).
Proof.
  unfold insert_row. destruct (existsb _ _) eqn:E1; [done|].
  destruct (negb _) eqn:E2; [done|]. destruct (_ && _) eqn:E3; [done|]. intros [= <-]. bd. split_and!; [done| |done|].
  - intros d Hd. rewrite existsb_false in E1. specialize (E1 d Hd). simpl in E1. by bd.
  - intros Hr. apply running_of_nil. unfold is_running in E3. rewrite bool_decide_eq_true_2 in E3 by done. done.
Qed.

Lemma insert_row_ok t r t' : insert_row t r = Some t' -> table_ok t -> table_ok t'.
Proof.
  intros H [H1 H2 H3]. apply insert_row_inv in H as (-> & Hid & Hs & Hrun). split; simpl.
  - rewrite map_app. apply NoDup_app. split_and!; [done| |apply NoDup_singleton].
    intros x Hx Hx'. apply list_elem_of_singleton in Hx' as ->. apply list_elem_of_fmap in Hx as (d & E & Hd). by destruct (Hid d).
  - rewrite List.filter_app. simpl. destruct (is_running r) eqn:Er; [|by rewrite app_nil_r].
    rewrite map_app. apply NoDup_app. split_and!; [done| |apply NoDup_singleton].
    intros x Hx Hx'. apply list_elem_of_singleton in Hx' as ->. apply list_elem_of_fmap in Hx as (d & E & Hd).
    apply elem_of_filter_b in Hd as [Hd Hdr]. unfold is_running in *. bd. by eapply (Hrun Er d).
  - intros d Hd. apply elem_of_app in Hd as [Hd|Hd]; [by apply H3|]. by apply list_elem_of_singleton in Hd as ->.
Qed.

Lemma finish_row_not_running s c x l tr now d :
  s = verdict c x -> is_running (finish_row s x l tr now d) = false.
Proof. intros ->. unfold is_running, finish_row, verdict. simpl. destruct c, (x =? 0)%Z; reflexivity. Qed.

Lemma finish_write_ok t id c x l tr now : table_ok t -> table_ok (finish_write t id c x l tr now).
Proof.
  apply update_row_ok; [done..|]. intros d H. by rewrite (finish_row_not_running _ c) in H.
Qed.

Lemma RequestCancel_ok t id : table_ok t -> table_ok (RequestCancel t id).1.
Proof. apply map_rows_ok; intros d; by destruct (bool_decide _ && _). Qed.

Lemma PruneDeployments_ok t k a c t' n : PruneDeployments t k a c = Ok (t', n) -> table_ok t -> table_ok t'.
Proof.
  unfold PruneDeployments. destruct (_ || _); [done|]. intros [= <- _] Hok. apply filter_rows_ok; [|done].
  intros d Hd _. by apply ok_stacks.
Qed.

Lemma delete_stack_ok t sid : table_ok t -> table_ok (delete_stack t sid).
Proof.
  intros Hok. apply filter_rows_ok; [|done]. intros d Hd Hp. bd. rewrite lookup_delete_ne by congruence. by apply ok_stacks.
Qed.

Lemma create_stack_ok t sid env : table_ok t -> table_ok (mkTable (rows t) (<[sid := env]> (stack_env t))).
Proof.
  intros [H1 H2 H3]. split; [done..|]. simpl. intros d Hd. rewrite lookup_insert. case_decide; [done|]. by apply H3.
Qed.
#[export] Hint Resolve update_row_ok insert_row_ok finish_write_ok RequestCancel_ok PruneDeployments_ok
  delete_stack_ok create_stack_ok : daffa.

Lemma step_ok w e : table_ok (tbl w) -> table_ok (tbl (step w e)).
Proof.
  intros Hok. destruct e as [d newid now|id x l tr|k now|id|id c|id h s sub y|keep age cutoff|sid env|sid]; simpl.
  - by destruct (0 <? _)%nat.
  - by destruct (finish_read _ _).
  - destruct (calls w !! k) as [c|]; [|done]. destruct c as [r|r|id c x l tr]; simpl; [|done|by apply finish_write_ok].
    destruct (insert_row (tbl w) r) eqn:E; simpl; [exact (insert_row_ok _ _ _ E Hok)|done].
  - exact (RequestCancel_ok (tbl w) id Hok).
  - by apply update_row_ok.
  - by apply update_row_ok.
  - destruct (PruneDeployments _ _ _ _) as [[t n]|] eqn:E; simpl; [exact (PruneDeployments_ok _ _ _ _ _ _ E Hok)|done].
  - by apply create_stack_ok.
  - by apply delete_stack_ok.
Qed.

Lemma run_ok w es : table_ok (tbl w) -> table_ok (tbl (run w es)).
Proof. revert w. induction es as [|e es IH]; intros w Hok; simpl; [done|]. by apply IH, step_ok. Qed.

(** ** Rows by id *)

Lemma DeploymentByID_ok t id d :
  table_ok t -> DeploymentByID t id = Ok d <-> d ∈ rows t /\ dID d = id.
Proof.
  intros Hok. unfold DeploymentByID. destruct (List.find _ _) as [d'|] eqn:E.
  - apply find_some in E as [Hin E]. bd. rewrite <- list_elem_of_In in Hin. split; [by intros [= ->]|].
    intros [Hd <-]. f_equal. by apply (NoDup_map_inj dID (rows t)); [apply Hok|..].
  - split; [done|]. intros [Hd <-]. rewrite list_elem_of_In in Hd. pose proof (find_none _ _ E _ Hd) as H. simpl in H. by bd.
Qed.

Lemma finish_read_ok t id d : table_ok t -> d ∈ rows t -> dID d = id -> finish_read t id = Ok (dCancelRequested d).
Proof. intros Hok Hd Hid. unfold finish_read. by rewrite (proj2 (DeploymentByID_ok t id d Hok)). Qed.

Lemma RequestCancel_true t id t' :
  RequestCancel t id = (t', true) ->
  exists d, d ∈ rows t' /\ dID d = id /\ dStatus d = DeployRunning /\ dCancelRequested d = true.
Proof.
  unfold RequestCancel. intros [= <- H]. apply existsb_elem in H as (d & Hd & H). unfold is_running in H. bd.
  exists (cancel_row d). split_and!; [|done..]. simpl. apply list_elem_of_fmap. exists d. split; [|done].
  unfold is_running. by rewrite !bool_decide_eq_true_2.
Qed.

(** ** Sequential histories, as SQLite runs them *)

Inductive dop :=
| OClaim (d : Deployment) (newid now : string) | OSetContainer (id ctrID : string)
| OSetBundle (id hash sha subject yaml : string) | OCancel (id : string)
| OFinish (id : string) (exitCode : Z) (log : string) (truncated : bool) (now : string)
| OPrune (keep age : Z) (cutoff : string).

Definition apply_dop (t : Table) (o : dop) : Table :=
  match o with
  | OClaim d newid now => match ClaimDeployment t d newid now with Ok (t', _) => t' | Err _ => t end
  | OSetContainer id c => SetDeploymentContainer t id c
  | OSetBundle id h s sub y => SetDeploymentBundle t id h s sub y
  | OCancel id => (RequestCancel t id).1
  | OFinish id x log tr now => match FinishDeployment t id x log tr now with Ok (t', _) => t' | Err _ => t end
  | OPrune k a c => match PruneDeployments t k a c with Ok (t', _) => t' | Err _ => t end
  end.

Definition finishes (id : string) (o : dop) : bool :=
  match o with OFinish id' _ _ _ _ => bool_decide (id' = id) | _ => false end.

Lemma ClaimDeployment_inv t d newid now t' r :
  ClaimDeployment t d newid now = Ok (t', r) -> r = claim_row d newid now /\ insert_row t r = Some t'.
Proof.
  unfold ClaimDeployment. destruct (0 <? _)%nat; [done|]. destruct (insert_row _ _) eqn:E; [|done].
  by intros [= <- <-].
Qed.

Lemma apply_dop_ok t o : table_ok t -> table_ok (apply_dop t o).
Proof.
  intros Hok. destruct o as [d newid now|id c|id h s sub y|id|id x log tr now|k a c]; simpl.
  - destruct (ClaimDeployment t d newid now) as [[t' r]|] eqn:E; [|done].
    apply ClaimDeployment_inv in E as [_ E]. by eapply insert_row_ok.
  - by apply update_row_ok.
  - by apply update_row_ok.
  - by apply RequestCancel_ok.
  - unfold FinishDeployment. destruct (finish_read t id); simpl; [by apply finish_write_ok|done].
  - destruct (PruneDeployments t k a c) as [[t' n]|] eqn:E; [|done]. by eapply PruneDeployments_ok.
Qed.

Definition flagged (t : Table) (id : string) : Prop :=
  exists d, d ∈ rows t /\ dID d = id /\ dStatus d = DeployRunning /\ dCancelRequested d = true.

Lemma flagged_map t id g :
  (forall d, dID d = id -> dStatus d = DeployRunning -> dCancelRequested d = true ->
     dID (g d) = id /\ dStatus (g d) = DeployRunning /\ dCancelRequested (g d) = true) ->
  flagged t id -> flagged (mkTable (map g (rows t)) (stack_env t)) id.
Proof.
  intros Hg (d & Hd & Hid & Hs & Hc). exists (g d). destruct (Hg d Hid Hs Hc) as (? & ? & ?).
  split_and!; [|done..]. apply list_elem_of_fmap. eauto.
Qed.

Lemma apply_dop_flagged t o id : finishes id o = false -> flagged t id -> flagged (apply_dop t o) id.
Proof.
  intros Hf Hfl. destruct o as [d newid now|id' c|id' h s sub y|id'|id' x log tr now|k a c]; simpl in *.
  - destruct (ClaimDeployment t d newid now) as [[t' r]|] eqn:E; [|done].
    apply ClaimDeployment_inv in E as [_ E]. apply insert_row_inv in E as (-> & _).
    destruct Hfl as (d' & Hd & H). exists d'. split; [|done]. apply elem_of_app. by left.
  - apply flagged_map; [|done]. intros d'. by case_bool_decide.
  - apply flagged_map; [|done]. intros d'. by case_bool_decide.
  - apply flagged_map; [|done]. intros d'. by destruct (_ && _).
  - unfold FinishDeployment. destruct (finish_read t id'); simpl; [|done]. bd.
    apply flagged_map; [|done]. intros d' Hid ? ?. rewrite bool_decide_eq_false_2 by congruence. done.
  - unfold PruneDeployments. destruct (_ || _); [done|]. destruct Hfl as (d & Hd & Hid & Hs & Hc).
    exists d. split_and!; [|done..]. apply elem_of_filter_b. split; [done|]. unfold prunable, is_running.
    by rewrite bool_decide_eq_true_2.
Qed.

Lemma apply_dops_flagged os t id :
  forallb (fun o => negb (finishes id o)) os = true -> table_ok t -> flagged t id ->
  table_ok (fold_left apply_dop os t) /\ flagged (fold_left apply_dop os t) id.
Proof.
  revert t. induction os as [|o os IH]; intros t Hos Hok Hf; simpl in *; [done|].
  apply andb_prop in Hos as [Ho Hos]. apply negb_true_iff in Ho.
  apply IH; [done | by apply apply_dop_ok | by apply apply_dop_flagged].
Qed.

(** ** Properties *)

(** C2: at any moment of any interleaving of deploys, cancels, verdicts and
    sweeps, on either database, a stack has at most one running deployment. *)
Theorem one_running_per_stack (w : world) (es : list event) (d1 d2 : Deployment) :
  table_ok (tbl w) ->
  d1 ∈ rows (tbl (run w es)) -> d2 ∈ rows (tbl (run w es)) ->
  dStatus d1 = DeployRunning -> dStatus d2 = DeployRunning -> dStackID d1 = dStackID d2 -> d1 = d2.
Proof.
  intros Hok H1 H2 Hr1 Hr2 Hs. pose proof (ok_running _ (run_ok w es Hok)) as Hnd.
  apply (NoDup_map_inj dStackID _ _ _ Hnd); [..|done]; apply elem_of_filter_b; split; try done;
    unfold is_running; by apply bool_decide_eq_true_2.
Qed.

(** The claim answers exactly: with a deployment running it is refused as
    "already in progress" and changes nothing; without one, a fresh id on a
    known stack is inserted as the stack's only running deployment, started
    now, with no container, no verdict and no cancel flag. *)
Theorem ClaimDeployment_spec (t : Table) (d : Deployment) (newid now : string) :
  let r := claim_row d newid now in
  ((exists d', d' ∈ rows t /\ dStackID d' = dStackID d /\ dStatus d' = DeployRunning) ->
     ClaimDeployment t d newid now = Err ErrRunInProgress) /\
  ((forall d', d' ∈ rows t -> dStackID d' = dStackID d -> dStatus d' <> DeployRunning) ->
   (forall d', d' ∈ rows t -> dID d' <> dID r) -> is_Some (stack_env t !! dStackID d) ->
     exists t', ClaimDeployment t d newid now = Ok (t', r) /\ rows t' = rows t ++ [r] /\
       running_of t' (dStackID d) = [r] /\ dStartedAt r = now /\ dExitCode r = None /\ dCancelRequested r = false).
Proof.
  cbv zeta. split.
  - intros (d' & Hd & Hs & Hr). unfold ClaimDeployment.
    destruct (0 <? _)%nat eqn:E; [done|]. rewrite running_of_nil in E. by apply (E d') in Hr.
  - intros Hr Hid Hst. rewrite <- running_of_nil in Hr. unfold ClaimDeployment. rewrite Hr. unfold insert_row.
    assert (existsb (fun d0 => bool_decide (dID d0 = dID (claim_row d newid now))) (rows t) = false) as ->.
    { apply existsb_false. intros x Hx. apply bool_decide_eq_false_2. by apply Hid. }
    rewrite bool_decide_eq_true_2 by done. simpl. rewrite Hr, ?andb_false_r.
    eexists. split_and!; [done..| | done | done | done]. unfold running_of in *. simpl. rewrite List.filter_app. simpl.
    unfold is_running at 2. rewrite !bool_decide_eq_true_2 by done. simpl.
    apply Nat.ltb_ge, Nat.le_0_r, length_zero_iff_nil in Hr. by rewrite Hr.
Qed.

(** A cancellation that was acknowledged decides the verdict: whatever the
    operations in between, and whatever the exit code, the deployment ends as
    cancelled. *)
Theorem cancel_wins (t t' : Table) (id : string) (os : list dop) (exitCode : Z) (log : string) (tr : bool) (now : string) :
  table_ok t -> RequestCancel t id = (t', true) -> forallb (fun o => negb (finishes id o)) os = true ->
  exists t'', FinishDeployment (fold_left apply_dop os t') id exitCode log tr now = Ok (t'', DeployCancelled) /\
    exists d, d ∈ rows t'' /\ dID d = id /\ dStatus d = DeployCancelled /\ dExitCode d = Some exitCode.
Proof.
  intros Hok Hc Hos. pose proof (RequestCancel_ok t id Hok) as Hok'. rewrite Hc in Hok'.
  pose proof (RequestCancel_true _ _ _ Hc) as Hf.
  destruct (apply_dops_flagged os t' id Hos Hok' Hf) as [Hok2 (d & Hd & Hid & Hs & Hcr)].
  unfold FinishDeployment. rewrite (finish_read_ok _ _ d) by done. rewrite Hcr. simpl.
  eexists. split; [done|]. exists (finish_row DeployCancelled exitCode log tr now d). split_and!; [|done..].
  simpl. apply list_elem_of_fmap. exists d. by rewrite bool_decide_eq_true_2.
Qed.

(** On Postgres the flag can be set between the two statements of the
    verdict: the cancellation is acknowledged and the deployment still ends
    as failed. *)
Theorem cancel_can_lose (t : Table) (d : Deployment) (exitCode : Z) (log : string) (tr : bool) (now : string) :
  table_ok t -> d ∈ rows t -> dStatus d = DeployRunning -> dCancelRequested d = false -> exitCode <> 0%Z ->
  outcomes (run (World t [] []) [EFinish (dID d) exitCode log tr; ECancel (dID d); EResume 0 now]) =
    [CancelAnswer (dID d) true; Finished (dID d) DeployFailed].
Proof.
  intros Hok Hd Hs Hc Hx. unfold run, fold_left, step. cbn [tbl calls outcomes].
  rewrite (finish_read_ok _ _ d) by done. rewrite Hc. cbn -[RequestCancel].
  destruct (RequestCancel t (dID d)) as [t' b] eqn:E. cbn. unfold verdict.
  rewrite (proj2 (Z.eqb_neq exitCode 0)) by done. simpl.
  assert (b = true) as ->; [|done]. unfold RequestCancel in E. injection E as _ <-.
  apply existsb_elem. exists d. split; [done|]. unfold is_running. by rewrite !bool_decide_eq_true_2.
Qed.

(** Two claims that overlap on an idle stack (Postgres): exactly one row is
    inserted; the loser is told "already in progress" when it re-checks while
    the winner runs, and gets the raw constraint error when the winner has
    already finished by then. *)
Theorem overlapping_claims (t : Table) (d1 d2 : Deployment) (i1 i2 n1 n2 log now : string) (exitCode : Z) :
  let r1 := claim_row d1 i1 n1 in let r2 := claim_row d2 i2 n2 in
  dStackID d1 = dStackID d2 -> dID r1 <> dID r2 -> is_Some (stack_env t !! dStackID d1) ->
  (forall d', d' ∈ rows t -> dStackID d' = dStackID d1 -> dStatus d' <> DeployRunning) ->
  (forall d', d' ∈ rows t -> dID d' <> dID r1) ->
  let race := [EClaim d1 i1 n1; EClaim d2 i2 n2; EResume 0 now; EResume 0 now] in
  let w := World t [] [] in
  outcomes (run w (race ++ [EResume 0 now])) = [Claimed r1; ClaimRefused (dStackID d2) ErrRunInProgress] /\
  rows (tbl (run w (race ++ [EResume 0 now]))) = rows t ++ [r1] /\
  outcomes (run w (race ++ [EFinish (dID r1) exitCode log false; EResume 1 now; EResume 0 now])) =
    [Claimed r1; Finished (dID r1) (verdict false exitCode); ClaimRefused (dStackID d2) ErrInsert].
Proof.
  cbv zeta. set (r1 := claim_row d1 i1 n1). set (r2 := claim_row d2 i2 n2). intros Hs Hne Hst Hidle Hid.
  destruct (ClaimDeployment_spec t d1 i1 n1) as [_ Hc]. destruct (Hc Hidle Hid Hst) as (t1 & Hcl & Hrows & Hrun1 & _).
  apply ClaimDeployment_inv in Hcl as [_ Hins]. fold r1 in Hins, Hrows, Hrun1.
  pose proof (proj2 (running_of_nil t (dStackID d1)) Hidle) as H0.
  assert (insert_row t1 r2 = None) as Hins2.
  { unfold insert_row. destruct (existsb _ _); [done|]. destruct (negb _); [done|].
    change (dStackID r2) with (dStackID d2). rewrite <- Hs, Hrun1. done. }
  set (w4 := World t1 [CRecheck r2] [Claimed r1]).
  assert (run (World t [] []) [EClaim d1 i1 n1; EClaim d2 i2 n2; EResume 0 now; EResume 0 now] = w4) as Hrace.
  { unfold run, fold_left, step. cbn [tbl calls outcomes]. rewrite H0. cbn [tbl calls outcomes suspend app].
    rewrite <- Hs, H0. fold r1 r2. cbn -[insert_row]. rewrite Hins. cbn -[insert_row]. by rewrite Hins2. }
  apply insert_row_inv in Hins as (Ht1 & _).
  assert (finish_read t1 (dID r1) = Ok false) as Hfr.
  { unfold finish_read, DeploymentByID. rewrite Hrows.
    assert (List.find (fun d => bool_decide (dID d = dID r1)) (rows t ++ [r1]) = Some r1) as ->; [|done].
    clear -Hid. induction (rows t) as [|x l IH]; simpl.
    - by rewrite bool_decide_eq_true_2.
    - rewrite bool_decide_eq_false_2 by (apply Hid; left). apply IH. intros d' Hd. apply Hid. by right. }
  assert (running_of (finish_write t1 (dID r1) false exitCode log false now) (dStackID d2) = []) as Hdone.
  { apply length_zero_iff_nil, Nat.le_0_r, Nat.ltb_ge, running_of_nil. intros d Hd Hds. simpl in Hd.
    apply list_elem_of_fmap in Hd as (d0 & -> & Hd0). rewrite Hrows in Hd0. case_bool_decide as Hd0id.
    - intros Hr. pose proof (finish_row_not_running (verdict false exitCode) false exitCode log false now d0 eq_refl) as H.
      unfold is_running in H. bd. done.
    - apply elem_of_app in Hd0 as [Hd0|Hd0]; [apply Hidle; congruence|]. by apply list_elem_of_singleton in Hd0 as ->. }
  unfold run in *. rewrite !fold_left_app, Hrace.
  unfold fold_left, step. unfold w4. cbn [tbl calls outcomes]. rewrite Hfr.
  cbn -[running_of finish_write]. unfold claim_recheck. change (dStackID r2) with (dStackID d2).
  change (if bool_decide (dID d1 = "") then i1 else dID d1) with (dID r1). rewrite Hdone, <- Hs, Hrun1. done.
Qed.

(** ** Retention *)

Lemma NoDup_map_inv {A B} (f : A -> B) l : NoDup (map f l) -> NoDup l.
Proof.
  induction l as [|x l IH]; simpl; [constructor|]. inversion 1 as [|? ? Hx Hl]; subst. constructor; [|by apply IH].
  intros Hin. apply Hx. apply list_elem_of_fmap. eauto.
Qed.

Lemma top_NoDup {A} (key : A -> string) n l : NoDup l -> NoDup (top key n l).
Proof.
  intros H. unfold top. assert (NoDup (ssort (by_key_desc key) l)) as Hs by (by rewrite ssort_perm).
  rewrite <- (take_drop n (ssort _ _)) in Hs. by apply NoDup_app in Hs as (? & _).
Qed.

Definition stack_rows (t : Table) (sid : string) : list Deployment :=
  List.filter (fun d => bool_decide (dStackID d = sid)) (rows t).

Lemma newest_survive t keep cutoff sid d :
  d ∈ top dStartedAt keep (stack_rows t sid) -> d ∈ rows t /\ dStackID d = sid /\ prunable t keep cutoff d = false.
Proof.
  intros Hd. pose proof (top_elem _ _ _ _ Hd) as H. apply elem_of_filter_b in H as [Hin Hs]. bd.
  split_and!; [done..|]. unfold prunable. rewrite (bool_decide_eq_true_2 (dID d ∈ _)); [by rewrite andb_false_r|].
  unfold newest_ids. apply list_elem_of_fmap. exists d. split; [done|]. by rewrite Hs.
Qed.

Lemma not_newest_full t keep d :
  d ∈ rows t -> dID d ∉ newest_ids t (dStackID d) keep ->
  length (top dStartedAt keep (stack_rows t (dStackID d))) = keep.
Proof.
  intros Hd Hn. rewrite top_length. destruct (decide (keep <= length (stack_rows t (dStackID d)))%nat); [lia|].
  destruct Hn. apply list_elem_of_fmap. exists d. split; [done|]. unfold top.
  rewrite take_ge by (rewrite ssort_perm; unfold stack_rows in *; lia).
  rewrite elem_of_ssort. apply elem_of_filter_b. by rewrite bool_decide_eq_true_2.
Qed.

(** The sweep deletes exactly the rows that are not running, older than the
    cutoff and outside the newest [keep] of their stack; whenever it deletes a
    row, at least [keep] rows of the same stack, none of them older, are still
    there; and with a non-positive argument it deletes nothing. *)
Theorem PruneDeployments_spec (t : Table) (keep age : Z) (cutoff : string) :
  table_ok t ->
  ((keep <= 0 \/ age <= 0)%Z -> PruneDeployments t keep age cutoff = Err ErrPruneArgs) /\
  ((0 < keep)%Z -> (0 < age)%Z -> exists t' n, PruneDeployments t keep age cutoff = Ok (t', n) /\
     (n = Z.of_nat (length (rows t)) - Z.of_nat (length (rows t')))%Z /\
     (forall d, d ∈ rows t -> (d ∉ rows t' <->
        dStatus d <> DeployRunning /\ String.ltb (dStartedAt d) cutoff = true /\
        dID d ∉ newest_ids t (dStackID d) (Z.to_nat keep))) /\
     (forall d, d ∈ rows t -> d ∉ rows t' ->
        (Z.to_nat keep <= length (List.filter (fun e => bool_decide (dStackID e = dStackID d) &&
            negb (String.ltb (dStartedAt e) (dStartedAt d))) (rows t')))%nat)).
Proof.
  intros Hok. unfold PruneDeployments. split.
  - intros H. assert ((keep <=? 0)%Z || (age <=? 0)%Z = true) as ->; [|done]. rewrite orb_true_iff, !Z.leb_le. lia.
  - intros Hk Ha. rewrite (proj2 (Z.leb_gt keep 0)), (proj2 (Z.leb_gt age 0)) by done. simpl.
    set (gone := prunable t (Z.to_nat keep) cutoff). do 2 eexists. split; [done|]. simpl.
    assert (forall d, d ∈ rows t -> (d ∉ List.filter (fun d => negb (gone d)) (rows t) <-> gone d = true)) as Hgone.
    { intros d Hd. rewrite elem_of_filter_b, negb_true_iff. destruct (gone d); naive_solver. }
    split_and!.
    + clear. induction (rows t) as [|d l IH]; simpl; [done|]. destruct (gone d); simpl; lia.
    + intros d Hd. rewrite Hgone by done. unfold gone, prunable, is_running.
      rewrite !andb_true_iff, !negb_true_iff, !bool_decide_eq_false. tauto.
    + intros d Hd Hd'. rewrite Hgone in Hd' by done. unfold gone, prunable in Hd'. bd.
      rewrite <- (not_newest_full t (Z.to_nat keep) d) at 1 by done.
      apply submseteq_length, NoDup_submseteq.
      * apply top_NoDup. unfold stack_rows. apply (NoDup_map_inv dID), NoDup_map_filter, Hok.
      * intros e He. destruct (newest_survive t _ cutoff _ e He) as (Hin & Hs & Hp).
        apply elem_of_filter_b. rewrite elem_of_filter_b, bool_decide_eq_true_2 by done. unfold gone. rewrite Hp.
        split_and!; [done..|]. simpl. apply negb_true_iff. eapply top_best; [exact He| |].
        -- apply elem_of_filter_b. by rewrite bool_decide_eq_true_2.
        -- intros Hin'. match goal with H : dID d ∉ _ |- _ => apply H end. apply list_elem_of_fmap. eauto.
Qed.

(** The cross-stack feed shows only deployments of stacks on environments
    the caller may see, never a log or a compose file, at most two hundred
    rows, the newest first; and it leaves a matching row out only when it
    already shows its limit of rows that are not older. *)
Theorem RecentDeployments_spec (t : Table) (global : bool) (envs : list string) (f : DeploymentFilter) :
  let sees d := exists env, stack_env t !! dStackID d = Some env /\ feed_match global envs f env d = true in
  let feed := RecentDeployments t global envs f in
  (forall d, d ∈ feed -> dLog d = "" /\ dComposeYAML d = "" /\
     exists d0 env, d0 ∈ rows t /\ d = feed_row d0 /\ stack_env t !! dStackID d0 = Some env /\
       (global = true \/ env ∈ envs) /\ feed_match global envs f env d0 = true) /\
  (length feed <= 200)%nat /\ StronglySorted (fun a b => String.ltb (dStartedAt a) (dStartedAt b) = false) feed /\
  (forall d, d ∈ rows t -> sees d -> feed_row d ∉ feed ->
     length feed = clamp_limit (fLimit f) 200 50 /\
     forall e, e ∈ feed -> String.ltb (dStartedAt e) (dStartedAt d) = false).
Proof.
  cbv zeta. unfold RecentDeployments. set (n := clamp_limit (fLimit f) 200 50).
  assert (n <= 200)%nat as Hn200.
  { unfold n, clamp_limit. destruct (_ || _) eqn:E; [lia|]. bd. lia. }
  destruct (negb global && bool_decide (envs = [])) eqn:Eg.
  - split_and!; [intros d Hd; by apply elem_of_nil in Hd | simpl; lia | constructor |].
    intros d Hd (env & _ & Hm). exfalso. bd. subst. unfold feed_match in Hm.
    rewrite (bool_decide_eq_false_2 (env ∈ [])) in Hm by apply not_elem_of_nil. done.
  - set (l := List.filter _ (rows t)).
    assert (forall d, d ∈ l <-> d ∈ rows t /\ exists env, stack_env t !! dStackID d = Some env /\ feed_match global envs f env d = true) as Hl.
    { intros d. unfold l. rewrite elem_of_filter_b. destruct (stack_env t !! dStackID d); naive_solver. }
    split_and!.
    + intros d Hd. apply list_elem_of_fmap in Hd as (d0 & -> & Hd). split_and!; [done..|].
      apply top_elem, Hl in Hd as (Hin & env & He & Hm). exists d0, env. split_and!; [done..| |done].
      unfold feed_match in Hm. bd. match goal with H : global || _ = true |- _ => apply orb_true_iff in H as [H|H]; bd end; auto.
    + rewrite length_map, top_length. lia.
    + unfold top. pose proof (desc_sorted dStartedAt l) as Hs. rewrite <- (take_drop n (ssort _ l)) in Hs.
      apply StronglySorted_app in Hs as (_ & Hs & _). induction Hs as [|x k Hk IH Hx]; simpl; constructor; [done|].
      rewrite Forall_forall in Hx |- *. intros y Hy. apply list_elem_of_fmap in Hy as (z & -> & Hz). apply (Hx z Hz).
    + intros d Hd Hsee Hn. assert (d ∈ l) as Hdl by (apply Hl; done).
      assert (d ∉ top dStartedAt n l) as Hnt by (intros H; apply Hn, list_elem_of_fmap; eauto). split.
      * rewrite length_map, top_length. destruct (decide (n <= length l)%nat); [lia|]. destruct Hnt.
        unfold top. rewrite take_ge by (rewrite ssort_perm; lia). by apply elem_of_ssort.
      * intros e He. apply list_elem_of_fmap in He as (e0 & -> & He). exact (top_best _ _ _ _ _ He Hdl Hnt).
Qed.

(** ** The theorems at a concrete stack *)

Definition request (sid action trigger : string) : Deployment :=
  mkDep "" sid action "" "" trigger "" "" None "" false false "" "" "" "" "" "" None.

Definition idle : Table := mkTable [] {[ "web" := "prod"; "db" := "prod" ]}.
Definition busy : Table := apply_dop idle (OClaim (request "web" "up" "") "d1" "2024-01-02T03:04:05Z").

Lemma idle_ok : table_ok idle.
Proof. split; simpl; [constructor | constructor | intros d Hd; by apply elem_of_nil in Hd]. Qed.

Lemma busy_ok : table_ok busy.
Proof. apply apply_dop_ok, idle_ok. Qed.

Lemma one_running_per_stack_witness :
  let es := [EClaim (request "web" "up" "") "d1" "t1"; EClaim (request "web" "up" "") "d2" "t1";
             EResume 0 "t1"; EResume 0 "t1"; EResume 0 "t1"] in
  let d := claim_row (request "web" "up" "") "d1" "t1" in
  rows (tbl (run (World idle [] []) es)) = [d] /\ d = d.
Proof.
  cbv zeta. split; [vm_compute; reflexivity|].
  apply (one_running_per_stack (World idle [] [])
    [EClaim (request "web" "up" "") "d1" "t1"; EClaim (request "web" "up" "") "d2" "t1"; EResume 0 "t1"; EResume 0 "t1"; EResume 0 "t1"]);
    [exact idle_ok | vm_compute; by left | vm_compute; by left | reflexivity | reflexivity | reflexivity].
Defined.

Lemma cancel_wins_witness :
  exists t'', FinishDeployment (SetDeploymentContainer (RequestCancel busy "d1").1 "d1" "ctr") "d1" 137 "killed" false "t9"
    = Ok (t'', DeployCancelled).
Proof.
  destruct (cancel_wins busy (RequestCancel busy "d1").1 "d1" [OSetContainer "d1" "ctr"] 137 "killed" false "t9")
    as (t'' & H & _); [exact busy_ok | vm_compute; reflexivity | reflexivity | exists t''; exact H].
Defined.

Lemma cancel_can_lose_witness :
  outcomes (run (World busy [] []) [EFinish "d1" 1 "boom" false; ECancel "d1"; EResume 0 "t9"]) =
    [CancelAnswer "d1" true; Finished "d1" DeployFailed].
Proof.
  apply (cancel_can_lose busy (claim_row (request "web" "up" "") "d1" "2024-01-02T03:04:05Z"));
    [exact busy_ok | vm_compute; by left | reflexivity | reflexivity | done].
Defined.

Lemma overlapping_claims_witness :
  rows (tbl (run (World idle [] []) [EClaim (request "web" "up" "") "d1" "t1"; EClaim (request "web" "pull" "") "d2" "t1";
    EResume 0 "t2"; EResume 0 "t2"; EResume 0 "t2"])) = [claim_row (request "web" "up" "") "d1" "t1"].
Proof.
  eapply (overlapping_claims idle (request "web" "up" "") (request "web" "pull" "") "d1" "d2" "t1" "t1" "" "t2" 0);
    [reflexivity | vm_compute; congruence | eexists; vm_compute; reflexivity | |];
    intros d' Hd; by apply elem_of_nil in Hd.
Defined.

Lemma PruneDeployments_spec_witness :
  PruneDeployments busy 0 10 "t9" = Err ErrPruneArgs /\
  exists t' n, PruneDeployments busy 1 10 "t9" = Ok (t', n) /\ n = 0%Z.
Proof.
  split; [apply PruneDeployments_spec; [exact busy_ok | lia]|].
  destruct (PruneDeployments_spec busy 1 10 "t9" busy_ok) as (_ & H).
  destruct H as (t' & n & E & _); [lia | lia |]. exists t', n. split; [exact E|].
  vm_compute in E. congruence.
Defined.
