(* ===== verification/Hooks.v ===== *)
(** * Lifecycle hooks: reading them and splitting the compose file

    Models [internal/stacks/hooks.go]. The compose loader and the yaml library
    are parameters: [yval] is what the extension block decodes to, [ynode] a
    yaml tree, [Project] the part of the loaded project the planner reads. *)
From S2P Require Import Prelude GoStd Engines.
Local Open Scope string_scope.
Local Open Scope list_scope.
Local Open Scope daffa_scope.

#[local] Set Warnings "-register-all".

(** ** Data *)

(** A decoded yaml value. A Go map has no order: [VMap] lists its entries in the
    order one iteration happens to take. *)
Inductive yval :=
| VStr (s : string) | VInt (n : Z) | VBool (b : bool) | VNull
| VList (l : list yval) | VMap (l : list (string * yval)).

Record Hook := mkHook { h_service : string; h_priority : Z; h_on_failure : string }.
Definition OnFailureFail := "fail".
Definition OnFailureContinue := "continue".
Definition Blocking (h : Hook) : bool := negb (bool_decide (h_on_failure h = OnFailureContinue)).

(** Durations are nanoseconds. *)
Definition Minute : Z := 60 * 1000000000.
Definition DefaultHookTimeout : Z := 10 * Minute.

Record Hooks := mkHooks { PreDeploy : list Hook; PostDeploy : list Hook; RollbackOnFailure : bool; HookTimeout : Z }.

Inductive HookErr :=
| ErrExtNotMapping | ErrExtKey (k : string) | ErrHooksNotMapping | ErrHooksKey (k : string)
| ErrRollbackNotBool | ErrTimeoutNotString | ErrTimeoutBad (s : string) | ErrRollbackUnreachable
| ErrListShape (where_ : string) | ErrEmptyService (where_ : string) | ErrServiceName (where_ : string)
| ErrPriority (where_ : string) | ErrOnFailure (where_ : string) | ErrEntryKey (where_ k : string) | ErrNoService (where_ : string)
| ErrNotAService (name : string) | ErrAllHooks | ErrHookMounts (name : string) | ErrDependsOnHook (name dep : string)
| ErrNotAttachable (key : string) | ErrLoad | ErrYaml | ErrNoServices.

(** A fold that stops at the first error, as a loop with [return nil, err]. *)
Fixpoint foldM {A B E} (f : B -> A -> res E B) (l : list A) (b : B) : res E B :=
  match l with [] => Ok b | a :: l' => let* b' := f b a in foldM f l' b' end.

(** ** Reading x-daffa.hooks *)

Definition is_nil {A} (l : list A) : bool := match l with [] => true | _ => false end.

Definition blank (s : string) : bool := bool_decide (strings.TrimSpace s = "").

(** One key of a hook mapping. *)
Definition hook_key (where_ : string) (hk : Hook) (kv : string * yval) : res HookErr Hook :=
  let '(k, v) := kv in
  if bool_decide (k = "service") then
    match v with
    | VStr s => if blank s then Err (ErrServiceName where_) else Ok (mkHook s (h_priority hk) (h_on_failure hk))
    | _ => Err (ErrServiceName where_)
    end
  else if bool_decide (k = "priority") then
    match v with VInt n => Ok (mkHook (h_service hk) n (h_on_failure hk)) | _ => Err (ErrPriority where_) end
  else if bool_decide (k = "on_failure") then
    match v with
    | VStr s => if bool_decide (s = OnFailureFail) || bool_decide (s = OnFailureContinue)
                then Ok (mkHook (h_service hk) (h_priority hk) s) else Err (ErrOnFailure where_)
    | _ => Err (ErrOnFailure where_)
    end
  else Err (ErrEntryKey where_ k).

Definition hook_entry (where_ : string) (it : yval) : res HookErr Hook :=
  match it with
  | VStr s => if blank s then Err (ErrEmptyService where_) else Ok (mkHook s 0 OnFailureFail)
  | VMap l =>
      let* hk := foldM (hook_key where_) l (mkHook "" 0 OnFailureFail) in
      if bool_decide (h_service hk = "") then Err (ErrNoService where_) else Ok hk
  | _ => Err (ErrListShape where_)
  end.

Definition by_priority (a b : Hook) : bool := (h_priority a <? h_priority b)%Z.

Definition hookList (v : yval) (where_ : string) : res HookErr (list Hook) :=
  match v with
  | VList items =>
      let* out := foldM (fun out it => let* hk := hook_entry where_ it in Ok (out ++ [hk])) items [] in
      Ok (ssort by_priority out)
  | _ => Err (ErrListShape where_)
  end.

Definition anyBlocking (hooks : list Hook) : bool := existsb Blocking hooks.

Section Parsing.
(** [time.ParseDuration]: nanoseconds, or [None] when the text is not one. *)
Variable ParseDuration : string -> option Z.

Definition hooks_key (h : Hooks) (kv : string * yval) : res HookErr Hooks :=
  let '(k, v) := kv in
  if bool_decide (k = "pre_deploy") then
    let* l := hookList v "x-daffa.hooks.pre_deploy" in Ok (mkHooks l (PostDeploy h) (RollbackOnFailure h) (HookTimeout h))
  else if bool_decide (k = "post_deploy") then
    let* l := hookList v "x-daffa.hooks.post_deploy" in Ok (mkHooks (PreDeploy h) l (RollbackOnFailure h) (HookTimeout h))
  else if bool_decide (k = "rollback_on_failure") then
    match v with VBool b => Ok (mkHooks (PreDeploy h) (PostDeploy h) b (HookTimeout h)) | _ => Err ErrRollbackNotBool end
  else if bool_decide (k = "timeout") then
    match v with
    | VStr s => match ParseDuration s with
                | Some d => if (d <=? 0)%Z then Err (ErrTimeoutBad s)
                            else Ok (mkHooks (PreDeploy h) (PostDeploy h) (RollbackOnFailure h) d)
                | None => Err (ErrTimeoutBad s)
                end
    | _ => Err ErrTimeoutNotString
    end
  else Err (ErrHooksKey k).

Definition map_get (k : string) (l : list (string * yval)) : option yval :=
  match List.find (fun kv => bool_decide (kv.1 = k)) l with Some (_, v) => Some v | None => None end.

Definition parseHooksExt (ext : yval) : res HookErr (option Hooks) :=
  match ext with
  | VMap root =>
      let* _ := foldM (fun _ kv => if bool_decide (kv.1 = "hooks") then Ok tt else Err (ErrExtKey kv.1)) root tt in
      match map_get "hooks" root with
      | None => Ok None
      | Some (VMap m) =>
          let* h := foldM hooks_key m (mkHooks [] [] false DefaultHookTimeout) in
          if RollbackOnFailure h && negb (anyBlocking (PostDeploy h)) then Err ErrRollbackUnreachable else Ok (Some h)
      | Some _ => Err ErrHooksNotMapping
      end
  | _ => Err ErrExtNotMapping
  end.
End Parsing.

Definition serviceSet (h : Hooks) : gset string := list_to_set (map h_service (PreDeploy h ++ PostDeploy h)).

(** ** The loaded project *)

(** A service: the keys of its networks, its mounts as (type, source), how many
    configs and secrets it mounts, and the services it depends on. *)
Record PService := mkPService {
  ps_networks : list string; ps_volumes : list (string * string); ps_configs : nat; ps_secrets : nat; ps_depends : list string }.
Record HookSubnet := mkSubnet { sn_subnet : string; sn_gateway : string; sn_iprange : string }.
Record PNetwork := mkPNetwork {
  pn_name : string; pn_driver : string; pn_external : bool; pn_attachable : bool; pn_internal : bool;
  pn_options : gmap string string; pn_labels : gmap string string; pn_ipam_driver : string; pn_ipam : list (option HookSubnet) }.
Record PVolume := mkPVolume {
  pv_name : string; pv_driver : string; pv_external : bool; pv_options : gmap string string; pv_labels : gmap string string }.

(** A missing key reads as Go's zero value. *)
Definition zero_network : PNetwork := mkPNetwork "" "" false false false ∅ ∅ "" [].
Definition zero_volume : PVolume := mkPVolume "" "" false ∅ ∅.

Record Project := mkProject {
  p_name : string; p_services : gmap string PService; p_networks : gmap string PNetwork; p_volumes : gmap string PVolume }.

(** A set of keys as the sorted slice the code makes of it. *)
Definition sorted_keys (s : gset string) : list string := ssort String.ltb (elements s).

Definition hook_services (p : Project) (hookSet : gset string) : list (string * PService) :=
  List.filter (fun kv => bool_decide (kv.1 ∈ hookSet)) (map_to_list (p_services p)).

Definition hookNetworkKeys (p : Project) (hookSet : gset string) : list string :=
  sorted_keys (⋃ map (fun kv => if is_nil (ps_networks kv.2) then {[ "default" ]} else list_to_set (ps_networks kv.2))
                     (hook_services p hookSet)).

Definition hookVolumeKeys (p : Project) (hookSet : gset string) : list string :=
  sorted_keys (⋃ map (fun kv => list_to_set (map snd (List.filter
      (fun v => bool_decide (v.1 = "volume") && negb (bool_decide (v.2 = ""))) (ps_volumes kv.2))))
                     (hook_services p hookSet)).

(** ** Validation *)

Definition validate_service (hookSet : gset string) (kv : string * PService) : res HookErr unit :=
  let '(name, svc) := kv in
  if bool_decide (name ∈ hookSet) then
    if (0 <? ps_configs svc)%nat || (0 <? ps_secrets svc)%nat then Err (ErrHookMounts name) else Ok tt
  else foldM (fun _ dep => if bool_decide (dep ∈ hookSet) then Err (ErrDependsOnHook name dep) else Ok tt) (ps_depends svc) tt.

Definition validate_network (p : Project) (key : string) : res HookErr unit :=
  match p_networks p !! key with
  | None => Ok tt
  | Some net => if pn_external net || pn_attachable net then Ok tt else Err (ErrNotAttachable key)
  end.

Definition validateHooks (p : Project) (hooks : Hooks) (swarm : bool) : res HookErr unit :=
  let hookSet := serviceSet hooks in
  let* _ := foldM (fun _ name => if bool_decide (is_Some (p_services p !! name)) then Ok tt else Err (ErrNotAService name))
                  (elements hookSet) tt in
  let* _ := rguard (negb (size hookSet =? size (p_services p))%nat) ErrAllHooks in
  let* _ := foldM (fun _ kv => validate_service hookSet kv) (map_to_list (p_services p)) tt in
  if negb swarm then Ok tt
  else foldM (fun _ key => validate_network p key) (hookNetworkKeys p hookSet) tt.

(** ** What a swarm deploy must create first *)

Record HookNetwork := mkHookNetwork {
  hn_name : string; hn_driver : string; hn_attachable : bool; hn_internal : bool; hn_options : gmap string string;
  hn_labels : gmap string string; hn_ipam_driver : string; hn_subnets : list HookSubnet }.
Record HookVolume := mkHookVolume {
  hv_name : string; hv_driver : string; hv_options : gmap string string; hv_labels : gmap string string }.
Record HookProvision := mkProvision { pr_networks : list HookNetwork; pr_volumes : list HookVolume }.

Definition deployedName (projectName key explicit : string) : string :=
  if negb (bool_decide (explicit = "")) then explicit else projectName +:+ "_" +:+ key.

Definition mergeLabels (from add : gmap string string) : gmap string string := add ∪ from.

Definition network_of (p : Project) (key : string) : PNetwork := default zero_network (p_networks p !! key).
Definition volume_of (p : Project) (key : string) : PVolume := default zero_volume (p_volumes p !! key).
Definition network_name (p : Project) (key : string) : string := deployedName (p_name p) key (pn_name (network_of p key)).
Definition volume_name (p : Project) (key : string) : string := deployedName (p_name p) key (pv_name (volume_of p key)).

Definition nsLabel (p : Project) : gmap string string := {[ "com.docker.stack.namespace" := p_name p ]}.

Definition provision_network (p : Project) (key : string) : list HookNetwork :=
  let net := network_of p key in
  if pn_external net then []
  else [mkHookNetwork (network_name p key) (pn_driver net) (pn_attachable net) (pn_internal net) (pn_options net)
          (mergeLabels (pn_labels net) (nsLabel p)) (pn_ipam_driver net) (omap id (pn_ipam net))].

Definition provision_volume (p : Project) (key : string) : list HookVolume :=
  let vol := volume_of p key in
  if pv_external vol then []
  else [mkHookVolume (volume_name p key) (pv_driver vol) (pv_options vol) (mergeLabels (pv_labels vol) (nsLabel p))].

Definition provisionList (p : Project) (hooks : Hooks) : HookProvision :=
  mkProvision (flat_map (provision_network p) (hookNetworkKeys p (serviceSet hooks)))
              (flat_map (provision_volume p) (hookVolumeKeys p (serviceSet hooks))).

(** ** The file surgery *)

(** A yaml tree: the content of a mapping is its key and value nodes, paired. *)
Inductive ynode :=
| NScalar (tag value : string)
| NMap (content : list (ynode * ynode))
| NSeq (content : list ynode)
| NOther.

Definition node_value (n : ynode) : string := match n with NScalar _ v => v | _ => "" end.
Definition scalar (s : string) : ynode := NScalar "" s.

Definition entries (n : ynode) : list (ynode * ynode) := match n with NMap c => c | _ => [] end.
Definition keys_of (n : ynode) : list string := map (fun kv => node_value kv.1) (entries n).

Definition mapValue (m : ynode) (key : string) : option ynode :=
  match List.find (fun kv => bool_decide (node_value kv.1 = key)) (entries m) with
  | Some (_, v) => Some v
  | None => None
  end.

Fixpoint drop_first (key : string) (c : list (ynode * ynode)) : list (ynode * ynode) :=
  match c with
  | [] => []
  | kv :: c' => if bool_decide (node_value kv.1 = key) then c' else kv :: drop_first key c'
  end.

Definition dropMapKey (m : ynode) (key : string) : ynode :=
  match m with NMap c => NMap (drop_first key c) | _ => m end.

(** Replacing the value of a key, as writing through the node [mapValue] returned. *)
Fixpoint set_first (key : string) (v : ynode) (c : list (ynode * ynode)) : list (ynode * ynode) :=
  match c with
  | [] => []
  | kv :: c' => if bool_decide (node_value kv.1 = key) then (kv.1, v) :: c' else kv :: set_first key v c'
  end.

Definition externalRef (name : string) : ynode :=
  NMap [(scalar "external", NScalar "!!bool" "true"); (scalar "name", scalar name)].

Definition orchestrator_key (k : string) : bool :=
  bool_decide (k = "depends_on") || bool_decide (k = "profiles") || bool_decide (k = "deploy") || bool_decide (k = "restart").

Definition pruneHookService (svc : ynode) : ynode :=
  match svc with
  | NMap c => NMap (List.filter (fun kv => negb (orchestrator_key (node_value kv.1))) c)
  | _ => svc
  end.

Definition declare (key : string) (external : bool) (orig : option ynode) (deployed : string) : ynode :=
  match orig with
  | None => externalRef deployed
  | Some o => if external then externalRef deployed
              else match mapValue o key with
                   | Some (NMap c) => NMap c
                   | _ => NMap []
                   end
  end.

(** A hook service with no networks of its own is told to join [default]. *)
Definition join_default (p : Project) (kv : ynode * ynode) : ynode * ynode :=
  let '(k, v) := kv in
  match p_services p !! node_value k, v with
  | Some s, NMap c => if is_nil (ps_networks s) then (k, NMap (c ++ [(scalar "networks", NSeq [scalar "default"])])) else kv
  | _, _ => kv
  end.

Definition section (key : string) (content : list (ynode * ynode)) : list (ynode * ynode) :=
  if is_nil content then [] else [(scalar key, NMap content)].

Definition buildHooksDoc (p : Project) (hookSet : gset string) (hooked : list (ynode * ynode)) (origNets origVols : option ynode) : ynode :=
  let networks := map (fun key => (scalar key, declare key (pn_external (network_of p key)) origNets (network_name p key)))
                      (hookNetworkKeys p hookSet) in
  let volumes := map (fun key => (scalar key, declare key (pv_external (volume_of p key)) origVols (volume_name p key)))
                     (hookVolumeKeys p hookSet) in
  NMap ((scalar "services", NMap (map (join_default p) hooked)) :: section "networks" networks ++ section "volumes" volumes).

Definition hooked_of (hookSet : gset string) (c : list (ynode * ynode)) : list (ynode * ynode) :=
  map (fun kv => (kv.1, pruneHookService kv.2)) (List.filter (fun kv => bool_decide (node_value kv.1 ∈ hookSet)) c).
Definition kept_of (hookSet : gset string) (c : list (ynode * ynode)) : list (ynode * ynode) :=
  List.filter (fun kv => negb (bool_decide (node_value kv.1 ∈ hookSet))) c.

(** The trees [splitHooks] renders: the deploy file's root and the hooks file's. *)
Definition split_trees (root : ynode) (p : Project) (hooks : Hooks) (inlineDefs : bool) : res HookErr (ynode * ynode) :=
  let hookSet := serviceSet hooks in
  match mapValue root "services" with
  | Some (NMap c) =>
      let origNets := if inlineDefs then mapValue root "networks" else None in
      let origVols := if inlineDefs then mapValue root "volumes" else None in
      let deploy := dropMapKey (NMap (set_first "services" (NMap (kept_of hookSet c)) (entries root))) "x-daffa" in
      Ok (deploy, buildHooksDoc p hookSet (hooked_of hookSet c) origNets origVols)
  | _ => Err ErrNoServices
  end.

Record HookPlan := mkPlan { pl_hooks : option Hooks; DeployYAML : string; HooksYAML : string; Provision : option HookProvision }.

Section Planning.
Variable ParseDuration : string -> option Z.
(** [loader.LoadWithContext]: the project and its [x-daffa] extension; and the
    yaml library's reader and writer. *)
Variable load : string -> string -> list EnvVar -> option (Project * option yval).
Variable yaml_read : string -> option ynode.
Variable yaml_write : ynode -> string.

Definition splitHooks (yamlText : string) (p : Project) (hooks : Hooks) (inlineDefs : bool) : res HookErr (string * string) :=
  match yaml_read yamlText with
  | None => Err ErrYaml
  | Some root => let* (d, h) := split_trees root p hooks inlineDefs in Ok (yaml_write d, yaml_write h)
  end.

Definition PlanHooks (yamlText projectName : string) (env : list EnvVar) (swarm firstDeploy : bool) : res HookErr HookPlan :=
  match load yamlText projectName env with
  | None => Err ErrLoad
  | Some (_, None) => Ok (mkPlan None yamlText "" None)
  | Some (p, Some ext) =>
      let* hooks := parseHooksExt ParseDuration ext in
      match hooks with
      | None => Ok (mkPlan None yamlText "" None)
      | Some h =>
          if is_nil (PreDeploy h) && is_nil (PostDeploy h) then Ok (mkPlan None yamlText "" None)
          else
            let* _ := validateHooks p h swarm in
            let* (deployYAML, hooksYAML) := splitHooks yamlText p h (firstDeploy && negb swarm) in
            Ok (mkPlan (Some h) deployYAML hooksYAML (if swarm then Some (provisionList p h) else None))
      end
  end.
End Planning.

Definition hooksPath := "hooks.yml".

Definition HookCommand (project service : string) : list string :=
  ["docker"; "compose"; "-p"; project; "-f"; "/stack/" +:+ hooksPath; "--env-file"; "/stack/" +:+ envPath;
   "run"; "--rm"; "--no-deps"; "--quiet-pull"; service].

(** ** Loops that stop at the first error *)

Lemma foldM_unit {A E} (f : A -> res E unit) l :
  foldM (fun _ a => f a) l tt = Ok tt <-> forall a, a ∈ l -> f a = Ok tt.
Proof.
  induction l as [|a l IH]; simpl.
  - split; [intros _ a Ha; by apply elem_of_nil in Ha | done].
  - setoid_rewrite elem_of_cons. destruct (f a) as [[]|e] eqn:Ef; simpl.
    + rewrite IH. split; [intros H b [->|Hb]; auto | auto].
    + split; [done|]. intros H. specialize (H a (or_introl eq_refl)). congruence.
Qed.

Lemma foldM_ok_inv {A B E} (P : B -> Prop) (f : B -> A -> res E B) l b b' :
  (forall x a x', a ∈ l -> P x -> f x a = Ok x' -> P x') -> P b -> foldM f l b = Ok b' -> P b'.
Proof.
  revert b. induction l as [|a l IH]; intros b Hf Hb H; simpl in H; [by injection H as <-|].
  apply rbind_ok_inv in H as (x & Hx & H). apply (IH x); [|eapply Hf; [|done|exact Hx]; by left|done].
  intros y c y' Hc. apply Hf. by right.
Qed.

(** A fold whose steps commute when their keys differ gives the same result in
    every order of the entries of a map. *)
Lemma foldM_perm {K A B E} (key : A -> K) (f : B -> A -> res E B) l l' b r :
  (forall a c x y z, key a <> key c -> f x a = Ok y -> f y c = Ok z -> exists y', f x c = Ok y' /\ f y' a = Ok z) ->
  l ≡ₚ l' -> NoDup (map key l) -> foldM f l b = Ok r -> foldM f l' b = Ok r.
Proof.
  intros Hc Hp. revert b. induction Hp as [|a l l' _ IH|a c l|l l2 l3 Hp1 IH1 _ IH2]; intros b Hnd H; simpl in *; [done| | |].
  - inversion Hnd; subst. apply rbind_ok_inv in H as (x & Hx & H). rewrite Hx. simpl. by apply IH.
  - inversion Hnd as [|? ? Hin]; subst. apply rbind_ok_inv in H as (x & Hx & H). apply rbind_ok_inv in H as (y & Hy & H).
    destruct (Hc c a b x y) as (x' & -> & Hx'); [|done|done|]; [|simpl; by rewrite Hx'].
    intros Heq. apply Hin. rewrite Heq. by left.
  - apply IH2; [|by apply IH1]. by rewrite <- Hp1.
Qed.

(** ** Reading the extension *)

Definition hook_wf (h : Hook) : Prop :=
  h_service h <> "" /\ (h_on_failure h = OnFailureFail \/ h_on_failure h = OnFailureContinue).

Lemma blank_false s : blank s = false -> s <> "".
Proof. intros H ->. by vm_compute in H. Qed.

Lemma hook_entry_wf where_ it hk : hook_entry where_ it = Ok hk -> hook_wf hk.
Proof.
  unfold hook_entry. destruct it as [s| | | | |l]; try done.
  - destruct (blank s) eqn:Eb; [done|]. intros [= <-]. split; [by apply blank_false|by left].
  - intros H. apply rbind_ok_inv in H as (h & Hf & H). case_bool_decide; [done|]. injection H as <-. split; [done|].
    apply (foldM_ok_inv (fun h => h_on_failure h = OnFailureFail \/ h_on_failure h = OnFailureContinue)) in Hf; [done| |by left].
    intros x [k v] x' _ Hx. unfold hook_key. repeat case_bool_decide; try done; destruct v; try done.
    + destruct (blank s); [done|]. by intros [= <-].
    + by intros [= <-].
    + destruct (_ || _) eqn:E; [|done]. intros [= <-]. simpl. apply orb_true_iff in E as [E|E]; bd; auto.
Qed.

Lemma by_priority_asym x y : by_priority x y = true -> by_priority y x = false.
Proof. unfold by_priority. rewrite Z.ltb_lt, Z.ltb_ge. lia. Qed.
Lemma by_priority_trans x y z : by_priority x y = true -> by_priority y z = true -> by_priority x z = true.
Proof. unfold by_priority. rewrite !Z.ltb_lt. lia. Qed.
Lemma by_priority_neg_trans x y z : by_priority x y = false -> by_priority y z = false -> by_priority x z = false.
Proof. unfold by_priority. rewrite !Z.ltb_ge. lia. Qed.
#[export] Hint Resolve by_priority_asym by_priority_trans by_priority_neg_trans : daffa.

(** The entries of a list, decoded one by one. *)
Lemma hook_list_entries where_ items out0 out :
  foldM (fun out it => let* hk := hook_entry where_ it in Ok (out ++ [hk])) items out0 = Ok out ->
  exists es, out = out0 ++ es /\ Forall2 (fun it h => hook_entry where_ it = Ok h) items es.
Proof.
  revert out0. induction items as [|it items IH]; intros out0 H; simpl in H.
  - injection H as <-. exists []. by rewrite app_nil_r.
  - apply rbind_ok_inv in H as (x & Hx & H). apply rbind_ok_inv in Hx as (h & Hh & [= <-]).
    apply IH in H as (es & -> & Hes). exists (h :: es). rewrite <- app_assoc. by split; [|constructor].
Qed.

Lemma hookList_wf v where_ l : hookList v where_ = Ok l -> Forall hook_wf l.
Proof.
  unfold hookList. destruct v; try done. intros H. apply rbind_ok_inv in H as (out & H & [= <-]).
  apply hook_list_entries in H as (es & -> & Hes). rewrite Forall_forall. intros h Hh.
  rewrite elem_of_ssort in Hh. apply list_elem_of_lookup in Hh as (i & Hi).
  eapply Forall2_lookup_r in Hes as (it & _ & Hit); [|exact Hi]. by eapply hook_entry_wf.
Qed.

Definition hooks_wf (h : Hooks) : Prop :=
  Forall hook_wf (PreDeploy h) /\ Forall hook_wf (PostDeploy h) /\ (0 < HookTimeout h)%Z.

Lemma hooks_key_wf pd h kv h' : hooks_wf h -> hooks_key pd h kv = Ok h' -> hooks_wf h'.
Proof.
  intros (H1 & H2 & H3). destruct kv as [k v]. unfold hooks_key. repeat case_bool_decide; try done.
  - intros Hl0. apply rbind_ok_inv in Hl0 as (l & Hl & [= <-]). split_and!; [by eapply hookList_wf|done..].
  - intros Hl0. apply rbind_ok_inv in Hl0 as (l & Hl & [= <-]). split_and!; [done|by eapply hookList_wf|done].
  - destruct v; try done. by intros [= <-].
  - destruct v; try done. destruct (pd s) as [d|]; [|done]. destruct (d <=? 0)%Z eqn:E; [done|]. bd. by intros [= <-].
Qed.

(** What the reader accepts is well formed: every hook names a service, its
    failure mode is one of the two, each hook has a positive deadline, and a
    rollback is only asked for when some post-deploy hook can fail the deploy. *)
Theorem parseHooksExt_sound (pd : string -> option Z) (ext : yval) (h : Hooks) :
  parseHooksExt pd ext = Ok (Some h) ->
  Forall hook_wf (PreDeploy h) /\ Forall hook_wf (PostDeploy h) /\ (0 < HookTimeout h)%Z /\
  (RollbackOnFailure h = true -> exists hk, hk ∈ PostDeploy h /\ Blocking hk = true).
Proof.
  unfold parseHooksExt. destruct ext as [| | | | |root]; try done. intros H. apply rbind_ok_inv in H as (_ & _ & H).
  destruct (map_get "hooks" root) as [[| | | | |m]|]; try done. apply rbind_ok_inv in H as (h0 & Hf & H).
  destruct (RollbackOnFailure h0 && negb (anyBlocking (PostDeploy h0))) eqn:Er; [done|]. injection H as <-.
  apply (foldM_ok_inv hooks_wf) in Hf as (H1 & H2 & H3).
  - split_and!; [done..|]. intros Hr. rewrite Hr in Er. apply negb_false_iff, existsb_elem in Er. done.
  - intros x kv x' _. apply hooks_key_wf.
  - by split_and!; simpl; [constructor..|].
Qed.

(** Hooks run in ascending priority, and hooks of equal priority in the order
    the file declares them. *)
Theorem hookList_order (items : list yval) (where_ : string) (l : list Hook) :
  hookList (VList items) where_ = Ok l ->
  exists es, Forall2 (fun it h => hook_entry where_ it = Ok h) items es /\ l ≡ₚ es /\
    StronglySorted (fun a b => (h_priority a <= h_priority b)%Z) l /\
    forall p, List.filter (fun h => (h_priority h =? p)%Z) l = List.filter (fun h => (h_priority h =? p)%Z) es.
Proof.
  unfold hookList. intros H. apply rbind_ok_inv in H as (out & H & [= <-]).
  apply hook_list_entries in H as (es & -> & Hes). exists es. simpl. split_and!; [done | apply ssort_perm | |].
  - pose proof (ssort_sorted by_priority by_priority_asym by_priority_neg_trans es) as Hs.
    induction Hs as [|x k Hk IH Hx]; constructor; [done|]. rewrite Forall_forall in Hx |- *. intros y Hy.
    specialize (Hx y Hy). unfold sle, by_priority in Hx. by bd.
  - intros p. pose proof (ssort_stable by_priority by_priority_trans by_priority_asym by_priority_neg_trans
      (mkHook "" p "") es) as Hs.
    assert (forall k, List.filter (seqv by_priority (mkHook "" p "")) k = List.filter (fun h => (h_priority h =? p)%Z) k) as Hf.
    { intros k. apply List.filter_ext. intros h. unfold seqv, by_priority. simpl. apply bool_iff.
      rewrite andb_true_iff, !negb_true_iff, !Z.ltb_ge, Z.eqb_eq. lia. }
    by rewrite !Hf in Hs.
Qed.

Lemma hook_key_commute where_ (a c : string * yval) x y z :
  a.1 <> c.1 -> hook_key where_ x a = Ok y -> hook_key where_ y c = Ok z ->
  exists y', hook_key where_ x c = Ok y' /\ hook_key where_ y' a = Ok z.
Proof.
  destruct a as [k v], c as [k' v']. simpl. intros Hne. unfold hook_key.
  repeat case_bool_decide; subst; try done; intros Ha Hc;
    destruct v, v'; try done; repeat (case_match; try done); simplify_eq/=; eauto.
Qed.

Lemma hooks_key_commute pd (a c : string * yval) x y z :
  a.1 <> c.1 -> hooks_key pd x a = Ok y -> hooks_key pd y c = Ok z ->
  exists y', hooks_key pd x c = Ok y' /\ hooks_key pd y' a = Ok z.
Proof.
  destruct a as [k v], c as [k' v']. simpl. intros Hne. unfold hooks_key.
  repeat case_bool_decide; subst; try done; intros Ha Hc;
    repeat match goal with H : rbind _ _ = Ok _ |- _ => apply rbind_ok_inv in H as (? & -> & ?) end;
    repeat match goal with H : context [match ?v with VStr _ => _ | _ => _ end] |- _ => destruct v; try done end;
    repeat (case_match; try done); simplify_eq/=; eauto.
Qed.

(** The result does not depend on the order in which Go iterates the maps it
    decodes: neither that of the block, nor that of a hook's own mapping. *)
Theorem parseHooksExt_order (pd : string -> option Z) (where_ : string) (m m' : list (string * yval)) :
  NoDup (map fst m) -> m ≡ₚ m' ->
  (forall r, parseHooksExt pd (VMap [("hooks", VMap m)]) = Ok r -> parseHooksExt pd (VMap [("hooks", VMap m')]) = Ok r) /\
  (forall h, hook_entry where_ (VMap m) = Ok h -> hook_entry where_ (VMap m') = Ok h).
Proof.
  intros Hnd Hp. split; intros r H.
  - unfold parseHooksExt in *. simpl in *. apply rbind_ok_inv in H as (h & Hf & H).
    rewrite (foldM_perm fst _ m m' _ h) by (done || apply hooks_key_commute). exact H.
  - unfold hook_entry in *. apply rbind_ok_inv in H as (h & Hf & H).
    rewrite (foldM_perm fst _ m m' _ h) by (done || apply hook_key_commute). exact H.
Qed.

(** ** The split *)

Lemma find_drop_first key k c :
  k <> key -> List.find (fun kv => bool_decide (node_value kv.1 = k)) (drop_first key c) =
  List.find (fun kv => bool_decide (node_value kv.1 = k)) c.
Proof.
  intros Hne. induction c as [|kv c IH]; simpl; [done|]. case_bool_decide as E1.
  - rewrite (bool_decide_eq_false_2 (node_value kv.1 = k)) by congruence. done.
  - simpl. by rewrite IH.
Qed.

Lemma find_set_first key v k c :
  k <> key -> List.find (fun kv => bool_decide (node_value kv.1 = k)) (set_first key v c) =
  List.find (fun kv => bool_decide (node_value kv.1 = k)) c.
Proof.
  intros Hne. induction c as [|kv c IH]; simpl; [done|]. case_bool_decide as E1; simpl.
  - by rewrite (bool_decide_eq_false_2 (node_value kv.1 = k)) by congruence.
  - by rewrite IH.
Qed.

Lemma find_set_first_same key v w c :
  List.find (fun kv => bool_decide (node_value kv.1 = key)) c = Some w ->
  exists k, List.find (fun kv => bool_decide (node_value kv.1 = key)) (set_first key v c) = Some (k, v).
Proof.
  induction c as [|kv c IH]; simpl; [done|]. case_bool_decide as E1; simpl.
  - intros _. rewrite bool_decide_eq_true_2 by done. eauto.
  - rewrite bool_decide_eq_false_2 by done. done.
Qed.

Lemma set_first_keys key v c : map (fun kv => node_value kv.1) (set_first key v c) = map (fun kv => node_value kv.1) c.
Proof. induction c as [|kv c IH]; simpl; [done|]. case_bool_decide; simpl; [done|by rewrite IH]. Qed.

Lemma drop_first_none key c :
  NoDup (map (fun kv : ynode * ynode => node_value kv.1) c) -> key ∉ map (fun kv => node_value kv.1) (drop_first key c).
Proof.
  induction c as [|kv c IH]; simpl; intros Hnd; [apply not_elem_of_nil|]. inversion Hnd as [|? ? Hx Hl]; subst.
  case_bool_decide as E; [by subst|]. simpl. rewrite not_elem_of_cons. auto.
Qed.

Lemma mapValue_none n key : key ∉ keys_of n -> mapValue n key = None.
Proof.
  unfold mapValue, keys_of. intros H. destruct (List.find _ _) as [[k v]|] eqn:E; [|done].
  apply find_some in E as [Hin E]. simpl in E. bd. destruct H. apply list_elem_of_fmap. exists (k, v).
  split; [done|]. by apply list_elem_of_In.
Qed.

Lemma split_trees_inv root p hooks inl d h :
  split_trees root p hooks inl = Ok (d, h) ->
  exists rc c, root = NMap rc /\ mapValue root "services" = Some (NMap c) /\
    d = NMap (drop_first "x-daffa" (set_first "services" (NMap (kept_of (serviceSet hooks) c)) rc)) /\
    h = buildHooksDoc p (serviceSet hooks) (hooked_of (serviceSet hooks) c)
          (if inl then mapValue root "networks" else None) (if inl then mapValue root "volumes" else None).
Proof.
  unfold split_trees. destruct (mapValue root "services") as [[| c| |]|] eqn:E; try done. intros [= <- <-].
  destruct root as [|rc| |]; try done. eauto 8.
Qed.

Lemma buildHooksDoc_services p hookSet hooked n v :
  mapValue (buildHooksDoc p hookSet hooked n v) "services" = Some (NMap (map (join_default p) hooked)).
Proof. done. Qed.

Lemma join_default_key p kv : (join_default p kv).1 = kv.1.
Proof.
  destruct kv as [k v]. unfold join_default. destruct (p_services p !! node_value k) as [s|]; [|done].
  destruct v; try done. by destruct (is_nil _).
Qed.

#[local] Arguments join_default : simpl never.

(** The split loses nothing and shares nothing: the deploy file keeps the
    services that are not hooks, untouched and in order, and the hooks file
    holds exactly the others; no hook reaches the engine; every other section
    of the file is unchanged but [x-daffa], which is gone; and no hook keeps a
    key that only an orchestrator understands. *)
Theorem split_trees_partition (root : ynode) (p : Project) (hooks : Hooks) (inl : bool) (d h : ynode) :
  split_trees root p hooks inl = Ok (d, h) -> NoDup (keys_of root) ->
  exists all kept hooked, mapValue root "services" = Some all /\ mapValue d "services" = Some kept /\ mapValue h "services" = Some hooked /\
    entries kept = List.filter (fun kv => negb (bool_decide (node_value kv.1 ∈ serviceSet hooks))) (entries all) /\
    keys_of hooked = List.filter (fun k => bool_decide (k ∈ serviceSet hooks)) (keys_of all) /\
    keys_of all ≡ₚ keys_of kept ++ keys_of hooked /\
    mapValue d "x-daffa" = None /\
    (forall k, k <> "services" -> k <> "x-daffa" -> mapValue d k = mapValue root k) /\
    (forall kv k, kv ∈ entries hooked -> orchestrator_key k = true -> k ∉ keys_of kv.2).
Proof.
  intros Hs Hnd. apply split_trees_inv in Hs as (rc & c & -> & Hc & -> & ->).
  set (hs := serviceSet hooks). exists (NMap c), (NMap (kept_of hs c)), (NMap (map (join_default p) (hooked_of hs c))).
  assert (keys_of (NMap (map (join_default p) (hooked_of hs c))) = List.filter (fun k => bool_decide (k ∈ hs)) (keys_of (NMap c))) as Hk.
  { unfold keys_of, hooked_of. simpl. rewrite !map_map. clear. induction c as [|kv c IH]; simpl; [done|].
    case_bool_decide as E; simpl; [|exact IH]. by rewrite join_default_key, IH. }
  split_and!; [done | | done | done | exact Hk | | | |].
  - unfold mapValue in *. simpl in *. rewrite find_drop_first by done.
    destruct (List.find _ rc) as [w|] eqn:E; [|done]. destruct (find_set_first_same _ (NMap (kept_of hs c)) _ _ E) as (k & ->). done.
  - rewrite Hk. unfold keys_of, kept_of. simpl. clear. induction c as [|kv c IH]; simpl; [done|].
    case_bool_decide as E; simpl; [|by apply perm_skip]. etrans; [by apply perm_skip|]. apply Permutation_middle.
  - apply mapValue_none. unfold keys_of. simpl. apply drop_first_none. by rewrite set_first_keys.
  - intros k Hk1 Hk2. unfold mapValue. simpl. by rewrite find_drop_first, find_set_first.
  - intros kv k Hkv Ho Hin. simpl in Hkv. apply list_elem_of_fmap in Hkv as (kv0 & -> & Hkv).
    unfold hooked_of in Hkv. apply list_elem_of_fmap in Hkv as ([k1 v1] & -> & _).
    assert (k ∉ keys_of (pruneHookService v1)) as Hpr.
    { unfold pruneHookService, keys_of. destruct v1; simpl; try apply not_elem_of_nil.
      intros H. apply list_elem_of_fmap in H as (x & -> & Hx). apply elem_of_filter_b in Hx as [_ Hx]. by rewrite Ho in Hx. }
    unfold join_default in Hin. simpl in Hin. destruct (p_services p !! node_value k1) as [s|]; [|done].
    destruct (pruneHookService v1) as [|pc| |] eqn:Ep; try done. destruct (is_nil _); [|done].
    unfold keys_of in Hin. simpl in Hin. rewrite map_app in Hin. apply elem_of_app in Hin as [Hin|Hin]; [by apply Hpr|].
    apply list_elem_of_singleton in Hin as ->. by vm_compute in Ho.
Qed.

(** ** Validation and provisioning *)

Lemma elem_sorted_keys s k : k ∈ sorted_keys s <-> k ∈ s.
Proof. unfold sorted_keys. by rewrite elem_of_ssort, elem_of_elements. Qed.

Lemma validateHooks_inv p hooks swarm :
  validateHooks p hooks swarm = Ok tt ->
  (forall n, n ∈ serviceSet hooks -> is_Some (p_services p !! n)) /\
  size (serviceSet hooks) <> size (p_services p) /\
  (forall n s, p_services p !! n = Some s -> validate_service (serviceSet hooks) (n, s) = Ok tt) /\
  (swarm = true -> forall key, key ∈ hookNetworkKeys p (serviceSet hooks) -> validate_network p key = Ok tt).
Proof.
  unfold validateHooks. intros H. apply rbind_ok_inv in H as ([] & H1 & H). apply rbind_ok_inv in H as ([] & H2 & H).
  apply rbind_ok_inv in H as ([] & H3 & H). rewrite foldM_unit in H1. apply rguard_ok_inv in H2. rewrite foldM_unit in H3.
  split_and!.
  - intros n Hn. specialize (H1 n). rewrite elem_of_elements in H1. specialize (H1 Hn). by case_bool_decide.
  - apply negb_true_iff, Nat.eqb_neq in H2. done.
  - intros n s Hns. apply H3. by apply elem_of_map_to_list.
  - intros -> key Hkey. simpl in H. rewrite foldM_unit in H. auto.
Qed.

(** A validated plan can be carried out: every hook is a service of the file
    and something is left to deploy, no deployed service waits for a hook, and
    on a swarm each network and volume the hooks file expects to exist is either
    the operator's or created first, under the very name the file refers to,
    labelled as the stack's own, and, for the networks, attachable. *)
Theorem validateHooks_sound (p : Project) (hooks : Hooks) (swarm : bool) :
  validateHooks p hooks swarm = Ok tt ->
  let hs := serviceSet hooks in
  (forall n, n ∈ hs -> is_Some (p_services p !! n)) /\
  (exists n, is_Some (p_services p !! n) /\ n ∉ hs) /\
  (forall n s dep, p_services p !! n = Some s -> n ∉ hs -> dep ∈ ps_depends s -> dep ∉ hs) /\
  (swarm = true -> forall key, key ∈ hookNetworkKeys p hs ->
     pn_external (network_of p key) = true \/
     exists n, n ∈ pr_networks (provisionList p hooks) /\ hn_name n = network_name p key /\
       hn_labels n !! "com.docker.stack.namespace" = Some (p_name p) /\
       (is_Some (p_networks p !! key) -> hn_attachable n = true)) /\
  (forall key, key ∈ hookVolumeKeys p hs ->
     pv_external (volume_of p key) = true \/
     exists v, v ∈ pr_volumes (provisionList p hooks) /\ hv_name v = volume_name p key /\
       hv_labels v !! "com.docker.stack.namespace" = Some (p_name p)).
Proof.
  intros H. cbv zeta. apply validateHooks_inv in H as (H1 & H2 & H3 & H4). split_and!; [done| | | |].
  - destruct (decide (exists n, n ∈ dom (p_services p) /\ n ∉ serviceSet hooks)) as [(n & Hn & Hnot)|Hno].
    + exists n. by rewrite <- elem_of_dom.
    + exfalso. apply H2. rewrite <- size_dom. f_equal. apply set_eq. intros n. rewrite elem_of_dom. split; [auto|].
      intros Hn. apply dec_stable. intros Hnot. apply Hno. exists n. by rewrite elem_of_dom.
  - intros n s dep Hn Hnot Hdep Hin. specialize (H3 n s Hn). unfold validate_service in H3.
    rewrite bool_decide_eq_false_2 in H3 by done. rewrite foldM_unit in H3. specialize (H3 dep Hdep). cbv beta in H3.
    by rewrite bool_decide_eq_true_2 in H3.
  - intros Hsw key Hkey. specialize (H4 Hsw key Hkey). destruct (pn_external (network_of p key)) eqn:Ee; [by left|right].
    eexists. split; [|split; [|split]].
    + simpl. apply flat_map_elem. exists key. split; [done|]. unfold provision_network. rewrite Ee. by left.
    + done.
    + simpl. unfold mergeLabels, nsLabel. apply lookup_union_Some_l. by rewrite lookup_singleton_eq.
    + intros [net Hnet]. unfold validate_network in H4. simpl. unfold network_of in *. rewrite Hnet in *. simpl in *.
      rewrite Ee in H4. simpl in H4. by destruct (pn_attachable net).
  - intros key Hkey. destruct (pv_external (volume_of p key)) eqn:Ee; [by left|right]. eexists. split; [|split].
    + simpl. apply flat_map_elem. exists key. split; [done|]. unfold provision_volume. rewrite Ee. by left.
    + done.
    + simpl. unfold mergeLabels, nsLabel. apply lookup_union_Some_l. by rewrite lookup_singleton_eq.
Qed.

(** On a first compose deploy nothing exists yet, so the hooks file must carry
    definitions and not references; but when the file has no top-level
    [networks] section, every stack-owned network a hook joins, [default] among
    them, is still declared external, and the hook cannot start. *)
Theorem first_deploy_default_network (root : ynode) (p : Project) (hooks : Hooks) (d h : ynode) (key : string) :
  split_trees root p hooks true = Ok (d, h) -> mapValue root "networks" = None ->
  key ∈ hookNetworkKeys p (serviceSet hooks) -> pn_external (network_of p key) = false ->
  exists nets, mapValue h "networks" = Some nets /\ mapValue nets key = Some (externalRef (network_name p key)).
Proof.
  intros Hs Hn Hkey _. apply split_trees_inv in Hs as (rc & c & -> & Hc & _ & ->). rewrite Hn.
  set (keys := hookNetworkKeys p (serviceSet hooks)) in *.
  set (f := fun k => (scalar k, externalRef (network_name p k))).
  exists (NMap (map f keys)). split.
  - unfold mapValue, buildHooksDoc. fold keys. simpl. destruct keys as [|k0 keys]; [by apply elem_of_nil in Hkey|]. done.
  - unfold mapValue. simpl. clearbody keys. clear Hn Hc. induction keys as [|k keys IH]; [by apply elem_of_nil in Hkey|].
    simpl. case_bool_decide as E; [by subst|]. apply elem_of_cons in Hkey as [->|Hkey]; [done|]. by apply IH.
Qed.

(** ** The theorems at a concrete file *)

Definition shop_ext : yval :=
  VMap [("hooks", VMap [("pre_deploy", VList [VStr "migrate"]);
                        ("post_deploy", VList [VMap [("service", VStr "warm"); ("priority", VInt 10); ("on_failure", VStr "continue")];
                                               VStr "smoke"]);
                        ("rollback_on_failure", VBool true)])].

Definition shop_hooks : Hooks :=
  mkHooks [mkHook "migrate" 0 "fail"] [mkHook "smoke" 0 "fail"; mkHook "warm" 10 "continue"] true DefaultHookTimeout.

Definition plain_service : PService := mkPService [] [] 0 0 [].
Definition shop : Project :=
  mkProject "shop" {[ "app" := plain_service; "migrate" := plain_service; "smoke" := plain_service; "warm" := plain_service ]}
    {[ "default" := mkPNetwork "" "" false true false ∅ ∅ "" [] ]} ∅.

Definition shop_file : ynode :=
  NMap [(scalar "services", NMap [(scalar "app", NMap [(scalar "image", scalar "acme/app"); (scalar "restart", scalar "always")]);
                                  (scalar "migrate", NMap [(scalar "image", scalar "acme/app"); (scalar "depends_on", NSeq [scalar "db"])]);
                                  (scalar "smoke", NMap [(scalar "image", scalar "acme/smoke")]);
                                  (scalar "warm", NMap [(scalar "image", scalar "acme/smoke")])]);
        (scalar "x-daffa", NMap [])].

Lemma parseHooksExt_sound_witness :
  parseHooksExt (fun _ => None) shop_ext = Ok (Some shop_hooks) /\ exists hk, hk ∈ PostDeploy shop_hooks /\ Blocking hk = true.
Proof.
  split; [vm_compute; reflexivity|]. apply (parseHooksExt_sound (fun _ => None) shop_ext); [vm_compute; reflexivity | reflexivity].
Defined.

Lemma hookList_order_witness :
  exists es, Forall2 (fun it h => hook_entry "w" it = Ok h)
    [VMap [("service", VStr "warm"); ("priority", VInt 10)]; VStr "smoke"] es /\
    [mkHook "smoke" 0 "fail"; mkHook "warm" 10 "fail"] ≡ₚ es.
Proof.
  destruct (hookList_order [VMap [("service", VStr "warm"); ("priority", VInt 10)]; VStr "smoke"] "w"
    [mkHook "smoke" 0 "fail"; mkHook "warm" 10 "fail"]) as (es & H1 & H2 & _); [vm_compute; reflexivity|].
  exists es. split; [exact H1 | exact H2].
Defined.

Lemma parseHooksExt_order_witness :
  hook_entry "w" (VMap [("priority", VInt 10); ("service", VStr "warm")]) = Ok (mkHook "warm" 10 "fail").
Proof.
  apply (parseHooksExt_order (fun _ => None) "w" [("service", VStr "warm"); ("priority", VInt 10)]);
    [| constructor | vm_compute; reflexivity].
  simpl. constructor; [|constructor; [apply not_elem_of_nil|constructor]].
  rewrite list_elem_of_singleton. discriminate.
Defined.

Lemma split_trees_partition_witness :
  exists d h, split_trees shop_file shop shop_hooks false = Ok (d, h) /\ mapValue d "x-daffa" = None.
Proof.
  destruct (split_trees shop_file shop shop_hooks false) as [[d h]|e] eqn:E; [|vm_compute in E; discriminate].
  exists d, h. split; [reflexivity|].
  destruct (split_trees_partition shop_file shop shop_hooks false d h E) as (all & kept & hooked & _ & _ & _ & _ & _ & _ & Hx & _); [|exact Hx].
  simpl. constructor; [|constructor; [apply not_elem_of_nil|constructor]].
  rewrite list_elem_of_singleton. discriminate.
Defined.

Lemma validateHooks_sound_witness :
  exists n, n ∈ pr_networks (provisionList shop shop_hooks) /\ hn_name n = "shop_default" /\ hn_attachable n = true.
Proof.
  destruct (validateHooks_sound shop shop_hooks true) as (_ & _ & _ & Hn & _); [vm_compute; reflexivity|].
  destruct (Hn eq_refl "default") as [Hx|(n & Hin & Hname & _ & Ha)];
    [apply list_elem_of_In; vm_compute; by left | vm_compute in Hx; discriminate |].
  exists n. split; [exact Hin|]. split; [rewrite Hname; vm_compute; reflexivity | apply Ha; eexists; vm_compute; reflexivity].
Defined.

Lemma first_deploy_default_network_witness :
  exists h nets, (exists d, split_trees shop_file shop shop_hooks true = Ok (d, h)) /\
    mapValue h "networks" = Some nets /\ mapValue nets "default" = Some (externalRef "shop_default").
Proof.
  destruct (split_trees shop_file shop shop_hooks true) as [[d h]|e] eqn:E; [|vm_compute in E; discriminate].
  destruct (first_deploy_default_network shop_file shop shop_hooks d h "default" E) as (nets & H1 & H2);
    [reflexivity | apply list_elem_of_In; vm_compute; by left | reflexivity |].
  exists h, nets. split; [exists d; reflexivity|]. split; [exact H1 | exact H2].
Defined.
