(* ===== verification/DeployFlow.v ===== *)
(** * How a deployment runs, from the claim to the verdict

    Models [internal/api/deploy.go] and [internal/api/deploy_hooks.go]: the
    preparation, the watcher, the hook pipeline, the automatic rollback, the
    teardown, the sweep after a restart and the post-deploy check.

    The server state is explicit. What the Docker daemon and the source
    repository answer are inputs of each function, with the time they take;
    a [context.Context] is its deadline, and a database call under a context
    that is done fails without writing. Background goroutines are tasks a
    function leaves behind. *)
From S2P Require Import Prelude GoStd Engines Hooks Deployments.
Local Open Scope string_scope.
Local Open Scope list_scope.
Local Open Scope daffa_scope.

(** ** Contexts *)

(** The instant a context is done, if ever; a request whose client went away is
    one whose instant has passed. Instants are nanoseconds. *)
Abbreviation Ctx := (option Z).

Definition ctx_done (c : Ctx) (now : Z) : bool := match c with Some t => (t <=? now)%Z | None => false end.
Definition WithTimeout (c : Ctx) (d now : Z) : Ctx :=
  Some (match c with Some t => Z.min t (now + d)%Z | None => (now + d)%Z end).
Definition WithoutCancel (_ : Ctx) : Ctx := None.

Definition Second : Z := 1000000000.
Definition finishTimeout : Z := 30 * Second.
Definition deployTimeout : Z := 20 * Minute.
Definition postDeployReconfirmDelay : Z := 35 * Second.

Definition finishContext (c : Ctx) (now : Z) : Ctx := WithTimeout (WithoutCancel c) finishTimeout now.
Definition DeployContext (c : Ctx) (now : Z) : Ctx := WithTimeout (WithoutCancel c) deployTimeout now.

(** ** State *)

Record Stack := mkStack { stID : string; stName : string; stEngine : string; stEnvID : string; stNodeID : string; stDeployedHash : string }.

(** A notification and an audit entry, without their display text. *)
Record Note := mkNote { nt_deployment : string; nt_target : string; nt_failed : bool }.
Record AuditRow := mkAudit { au_user : string; au_action : string; au_target : string; au_outcome : string; au_deployment : string }.

(** The containers the daemon was asked to start, in order. *)
Inductive Started := SHook (service : string) | SEngine (action : Action) | STeardown.

Inductive Task :=
| TWatch (dep : Deployment) (stack : Stack) (warnings : string)
| THooked (dep : Deployment) (stack : Stack) (eng : Engine) (action : Action) (plan : HookPlan) (warnings : string)
| TReconfirm (stack : Stack) (dep : Deployment).

Record Srv := mkSrv {
  clock : Z; table : Table; live : gmap string (string * string);
  notes : list Note; audits : list AuditRow; started : list Started; reaped : list string; tasks : list Task }.

Definition set_clock (s : Srv) (t : Z) : Srv := mkSrv t (table s) (live s) (notes s) (audits s) (started s) (reaped s) (tasks s).
Definition set_table (s : Srv) (t : Table) : Srv := mkSrv (clock s) t (live s) (notes s) (audits s) (started s) (reaped s) (tasks s).
Definition set_live (s : Srv) (l : gmap string (string * string)) : Srv := mkSrv (clock s) (table s) l (notes s) (audits s) (started s) (reaped s) (tasks s).
Definition add_note (s : Srv) (n : Note) : Srv := mkSrv (clock s) (table s) (live s) (notes s ++ [n]) (audits s) (started s) (reaped s) (tasks s).
Definition add_audit (s : Srv) (a : AuditRow) : Srv := mkSrv (clock s) (table s) (live s) (notes s) (audits s ++ [a]) (started s) (reaped s) (tasks s).
Definition add_started (s : Srv) (x : Started) : Srv := mkSrv (clock s) (table s) (live s) (notes s) (audits s) (started s ++ [x]) (reaped s) (tasks s).
Definition add_reaped (s : Srv) (c : string) : Srv := mkSrv (clock s) (table s) (live s) (notes s) (audits s) (started s) (reaped s ++ [c]) (tasks s).
Definition spawn (s : Srv) (t : Task) : Srv := mkSrv (clock s) (table s) (live s) (notes s) (audits s) (started s) (reaped s) (tasks s ++ [t]).

Inductive FlowErr := EEngine (msg : string) | EClaim (e : DeployErr) | EReason (msg : string) | EHostUnreachable | EDeadline.

(** What one runner does: whether the daemon starts it, how long it runs, how
    it ends, and whether somebody asks to cancel the deployment meanwhile. *)
Record Run := mkRun { run_start : res string string; run_took : Z; run_exit : Z; run_log : string; run_trunc : bool;
                      run_error : option string; run_cancel : bool }.

(** The connected environments: a Swarm or not, the nodes, the control node. *)
Record EnvConn := mkConn { ec_swarm : bool; ec_nodes : gset string; ec_control : option string }.

Definition runnerNode (pool : gmap string EnvConn) (stack : Stack) : res string string :=
  match pool !! stEnvID stack with
  | None => Err "unknown environment"
  | Some env =>
      if bool_decide (stEngine stack = eng_name SwarmEngine) && negb (ec_swarm env)
      then Err "this stack deploys with Swarm, but its environment is no longer a Swarm cluster"
      else if negb (bool_decide (stNodeID stack = ""))
      then if bool_decide (stNodeID stack ∈ ec_nodes env) then Ok (stNodeID stack) else Err "the node is not connected"
      else match ec_control env with Some n => Ok n | None => Err "the environment is not connected" end
  end.

(** What [bundleForDeploy] resolved. *)
Record Resolved := mkResolved { rs_hash : string; rs_commit : string; rs_subject : string; rs_yaml : string; rs_plan : HookPlan }.

Definition isDeploying (a : Action) : bool := bool_decide (a = ActionUp) || bool_decide (a = ActionPull).

Definition with_ctr (d : Deployment) (ctr : string) : Deployment :=
  mkDep (dID d) (dStackID d) (dAction d) (dStatus d) (dEngine d) (dTriggerKind d) (dStartedBy d) ctr (dExitCode d)
    (dLog d) (dLogTruncated d) (dCancelRequested d) (dBundleHash d) (dCommitSHA d) (dCommitSubject d) (dComposeYAML d)
    (dRollbackOf d) (dStartedAt d) (dEndedAt d).

Definition with_bundle (d : Deployment) (hash sha subject : string) : Deployment :=
  mkDep (dID d) (dStackID d) (dAction d) (dStatus d) (dEngine d) (dTriggerKind d) (dStartedBy d) (dRunnerCtrID d) (dExitCode d)
    (dLog d) (dLogTruncated d) (dCancelRequested d) hash sha subject (dComposeYAML d)
    (dRollbackOf d) (dStartedAt d) (dEndedAt d).

Definition new_deployment (sid action engine trigger user rollbackOf : string) : Deployment :=
  mkDep "" sid action "" engine trigger user "" None "" false false "" "" "" "" rollbackOf "" None.

Definition nl : string := String newline "".

Definition phaseHeader (phase detail : string) : string := "── " +:+ phase +:+ ": " +:+ detail +:+ " ──" +:+ nl.

Section Flow.
(** [ts(now())] at an instant, and the [%d], [%q] and [%s] of durations that
    [fmt] prints. *)
Variable stamp : Z -> string.
Variable show_int : Z -> string.
Variable quote : string -> string.
Variable show_duration : Z -> string.

(** ** Database calls under a context *)

Definition db_claim (s : Srv) (c : Ctx) (d : Deployment) (newid : string) : res FlowErr Deployment * Srv :=
  if ctx_done c (clock s) then (Err EDeadline, s)
  else match ClaimDeployment (table s) d newid (stamp (clock s)) with
       | Ok (t, r) => (Ok r, set_table s t)
       | Err e => (Err (EClaim e), s)
       end.

Definition db_finish (s : Srv) (c : Ctx) (id : string) (exitCode : Z) (log : string) (truncated : bool) : res FlowErr string * Srv :=
  if ctx_done c (clock s) then (Err EDeadline, s)
  else match FinishDeployment (table s) id exitCode log truncated (stamp (clock s)) with
       | Ok (t, status) => (Ok status, set_table s t)
       | Err e => (Err (EClaim e), s)
       end.

(** The writes whose error is only logged. *)
Definition db_write (s : Srv) (c : Ctx) (f : Table -> Table) : Srv := if ctx_done c (clock s) then s else set_table s (f (table s)).
Definition audit (s : Srv) (c : Ctx) (a : AuditRow) : Srv := if ctx_done c (clock s) then s else add_audit s a.
Definition MarkStackDeployed (s : Srv) (c : Ctx) (sid hash commit : string) : Srv :=
  if ctx_done c (clock s) then s else set_live s (<[sid := (hash, commit)]> (live s)).

Definition notifyDeploy (s : Srv) (c : Ctx) (stack : Stack) (dep : Deployment) (exit : Z) : Srv :=
  if ctx_done c (clock s) then s else add_note s (mkNote (dID dep) (stName stack) (negb (exit =? 0)%Z)).

(** [stacks.Wait]: until the runner exits, the daemon errs, or the context is done. *)
Definition Wait (s : Srv) (c : Ctx) (dep : Deployment) (r : Run) : res string (Z * string * bool) * Srv :=
  let s := if run_cancel r then set_table s (RequestCancel (table s) (dID dep)).1 else s in
  let ends := (clock s + run_took r)%Z in
  if ctx_done c ends then (Err "context deadline exceeded", set_clock s (Z.max (clock s) (default ends c)))
  else match run_error r with
       | Some e => (Err ("stacks: waiting for the runner: " +:+ e), set_clock s ends)
       | None => (Ok (run_exit r, run_log r, run_trunc r), set_clock s ends)
       end.

Definition Reap (s : Srv) (ctr : string) : Srv := if bool_decide (ctr = "") then s else add_reaped s ctr.

(** [stacks.Start] and [stacks.StartTeardown]: refused by the engine, or asked of the daemon. *)
Definition Start (s : Srv) (eng : Engine) (action : Action) (r : Run) : res string string * Srv :=
  if negb (Supports eng action) then (Err ("stacks: " +:+ eng_label eng +:+ " cannot " +:+ action +:+ " a stack"), s)
  else (run_start r, add_started s (SEngine action)).

Definition StartTeardown (s : Srv) (eng : Engine) (project : string) (volumes : bool) (r : Run) : res string string * Srv :=
  match Teardown eng project volumes with
  | Err e => (Err e, s)
  | Ok _ => (run_start r, add_started s STeardown)
  end.

(** ** Ending a deployment *)

Definition outcome_of (status : string) : string :=
  if bool_decide (status = DeployOK) then "ok"
  else if bool_decide (status = DeployFailed) then "error"
  else if bool_decide (status = DeployCancelled) then "cancelled" else "".

Definition finishDeploy (s : Srv) (c : Ctx) (dep : Deployment) (stack : Stack) (exitCode : Z) (log : string) (truncated : bool) : string * Srv :=
  let ctx := finishContext c (clock s) in
  match db_finish s ctx (dID dep) exitCode log truncated with
  | (Err _, s) => ("", s)
  | (Ok status, s) =>
      let s := if bool_decide (status = DeployCancelled) then s else notifyDeploy s ctx stack dep exitCode in
      let s := if bool_decide (status = DeployOK) && isDeploying (dAction dep) then
                 let s := MarkStackDeployed s ctx (stID stack) (dBundleHash dep) (dCommitSHA dep) in
                 if bool_decide (stEngine stack = eng_name SwarmEngine) then spawn s (TReconfirm stack dep) else s
               else s in
      (status, audit s ctx (mkAudit (dStartedBy dep) ("stack." +:+ dAction dep) (stName stack) (outcome_of status) (dID dep)))
  end.

Definition failDeployment (s : Srv) (c : Ctx) (stack : Stack) (dep : Deployment) (reason : string) : FlowErr * Srv :=
  let ctx := finishContext c (clock s) in
  let '(_, s) := db_finish s ctx (dID dep) 1 reason false in
  let s := notifyDeploy s ctx stack dep 1 in
  let s := audit s ctx (mkAudit (dStartedBy dep) ("stack." +:+ dAction dep) (stName stack) "error" (dID dep)) in
  (EReason reason, s).

Definition watchDeployment (s : Srv) (dep : Deployment) (stack : Stack) (warnings : string) (r : Run) : Srv :=
  let ctx := DeployContext None (clock s) in
  match Wait s ctx dep r with
  | (Err e, s) =>
      let s := Reap s (dRunnerCtrID dep) in
      let reason := "the runner could not be waited on: " +:+ e in
      (db_finish s (finishContext ctx (clock s)) (dID dep) 1 reason false).2
  | (Ok (exitCode, log, truncated), s) => (finishDeploy s ctx dep stack exitCode (warnings +:+ log) truncated).2
  end.

(** The service the post-deploy check finds down, and its message. *)
Definition failed_service (services : list ServiceStatus) : option ServiceStatus :=
  List.find (fun svc => negb (bool_decide (ss_state svc = "hook")) &&
                        (bool_decide (ss_state svc = "missing") || bool_decide (ss_state svc = "partial"))) services.

(** [reconfirmPostDeploy], 35 seconds later: [found] is the stack as it is read
    again and what the engine then reports, when every step up to there
    succeeded. *)
Definition reconfirmPostDeploy (s : Srv) (dep : Deployment) (found : option (Stack * Status)) : Srv :=
  let s := set_clock s (clock s + postDeployReconfirmDelay)%Z in
  let ctx := finishContext None (clock s) in
  match found with
  | None => s
  | Some (latest, status) =>
      match failed_service (st_services status) with
      | None => s
      | Some svc =>
          let msg := "post-deploy check: service " +:+ quote (ss_name svc) +:+ " in state " +:+ quote (ss_state svc) +:+
                     " 35 seconds after deploy — the container exited immediately" in
          match db_finish s ctx (dID dep) 1 msg false with
          | (Err _, s) => s
          | (Ok _, s) => notifyDeploy s ctx latest dep 1
          end
      end
  end.

(** ** Starting one *)

(** What the outside answers to one [deploy]: the bundle (built from the source,
    or from the stored file of a rollback), the sync of the volume sources, the
    swarm warnings, and the runner. *)
Record DeployIn := mkDeployIn {
  in_newid : string; in_pool : gmap string EnvConn;
  in_bundle : option Deployment -> res string Resolved; in_sync : res string unit; in_warnings : string; in_run : Run }.

Definition no_rollback (plan : HookPlan) : HookPlan :=
  match pl_hooks plan with
  | Some h => mkPlan (Some (mkHooks (PreDeploy h) (PostDeploy h) false (HookTimeout h))) (DeployYAML plan) (HooksYAML plan) (Provision plan)
  | None => plan
  end.

Definition launched (s : Srv) (c : Ctx) (dep : Deployment) (stack : Stack) (ctr warnings : string) : res FlowErr Deployment * Srv :=
  let s := db_write s c (fun t => SetDeploymentContainer t (dID dep) ctr) in
  let dep := with_ctr dep ctr in
  (Ok dep, spawn s (TWatch dep stack warnings)).

Definition fail_with (x : FlowErr * Srv) : res FlowErr Deployment * Srv := (Err x.1, x.2).

Definition deploy_down (s : Srv) (c : Ctx) (stack : Stack) (eng : Engine) (dep : Deployment) (volumes : bool) (r : Run) : res FlowErr Deployment * Srv :=
  match StartTeardown s eng (stName stack) volumes r with
  | (Err e, s) => fail_with (failDeployment s c stack dep ("The runner could not be started." +:+ nl +:+ nl +:+ e))
  | (Ok ctr, s) => launched s c dep stack ctr ""
  end.

Definition deploy_up (s : Srv) (c : Ctx) (stack : Stack) (eng : Engine) (action : Action) (dep : Deployment)
  (from : option Deployment) (i : DeployIn) : res FlowErr Deployment * Srv :=
  match in_bundle i from with
  | Err e => fail_with (failDeployment s c stack dep e)
  | Ok rs =>
      let plan := match from with Some _ => no_rollback (rs_plan rs) | None => rs_plan rs end in
      match (if isDeploying action then in_sync i else Ok tt) with
      | Err e => fail_with (failDeployment s c stack dep
                  ("A volume source this stack depends on could not be synced, so nothing was deployed." +:+ nl +:+ nl +:+ e))
      | Ok _ =>
          let warnings := if bool_decide (stEngine stack = eng_name SwarmEngine) then in_warnings i else "" in
          let s := db_write s c (fun t => SetDeploymentBundle t (dID dep) (rs_hash rs) (rs_commit rs) (rs_subject rs) (rs_yaml rs)) in
          let dep := with_bundle dep (rs_hash rs) (rs_commit rs) (rs_subject rs) in
          if bool_decide (is_Some (pl_hooks plan)) && isDeploying action
          then (Ok dep, spawn s (THooked dep stack eng action plan warnings))
          else match Start s eng action (in_run i) with
               | (Err e, s) => fail_with (failDeployment s c stack dep ("The deploy runner could not be started." +:+ nl +:+ nl +:+ e))
               | (Ok ctr, s) => launched s c dep stack ctr warnings
               end
      end
  end.

Definition deploy (s : Srv) (c : Ctx) (stack : Stack) (action : Action) (trigger userID : string) (from : option Deployment) (i : DeployIn)
  : res FlowErr Deployment * Srv :=
  match EngineFor (stEngine stack) with
  | Err e => (Err (EEngine e), s)
  | Ok eng =>
      let d := new_deployment (stID stack) action (eng_name eng) trigger userID (match from with Some f => dID f | None => "" end) in
      match db_claim s c d (in_newid i) with
      | (Err e, s) => (Err e, s)
      | (Ok dep, s) =>
          match runnerNode (in_pool i) stack with
          | Err _ => fail_with (failDeployment s c stack dep
              "The environment this stack runs on is not connected, so nothing could be deployed to it.")
          | Ok _ =>
              if bool_decide (action = ActionDown) || bool_decide (action = ActionDownVolumes)
              then deploy_down s c stack eng dep (bool_decide (action = ActionDownVolumes)) (in_run i)
              else deploy_up s c stack eng action dep from i
          end
      end
  end.

(** ** The hook pipeline *)

(** The daemon as [provisionHookResources] meets it: the networks and volumes it
    has, and what it refuses to create. *)
Record ProvIn := mkProvIn { pv_networks : gset string; pv_volumes : gset string; pv_refuses : string -> option string }.

(** One resource: what exists is left as found; the first refusal ends the loop. *)
Definition prov_step (have : gset string) (refuses : string -> option string) (what : string)
  (st : Z * string * option string) (name_suffix : string * string) : Z * string * option string :=
  match st with
  | (created, log, Some e) => st
  | (created, log, None) =>
      let '(name, suffix) := name_suffix in
      if bool_decide (name ∈ have) then st
      else match refuses name with
           | Some e => (created, log, Some ("creating " +:+ what +:+ " " +:+ name +:+ " for the pre-deploy hooks: " +:+ e))
           | None => ((created + 1)%Z, log +:+ "created " +:+ what +:+ " " +:+ name +:+ suffix +:+ nl, None)
           end
  end.

Definition network_driver (n : HookNetwork) : string := if bool_decide (hn_driver n = "") then "overlay" else hn_driver n.

(** The number created, the log, and the error that stopped it, if any. *)
Definition provisionHookResources (prov : HookProvision) (i : ProvIn) : Z * string * option string :=
  let nets := map (fun n => (hn_name n, " (" +:+ network_driver n +:+ ", attachable)")) (pr_networks prov) in
  let vols := map (fun v => (hv_name v, "")) (pr_volumes prov) in
  fold_left (prov_step (pv_volumes i) (pv_refuses i) "volume") vols
    (fold_left (prov_step (pv_networks i) (pv_refuses i) "network") nets (0%Z, "", None)).

Record HookedIn := mkHookedIn { hi_prov : ProvIn; hi_hook : string -> Run; hi_engine : Run; hi_rollback : DeployIn }.

(** [runHookPhase]: whether the pipeline may continue, the deployment with its
    runner, and the log. *)
Definition runHookPhase (s : Srv) (c : Ctx) (dep : Deployment) (phase service : string) (hooks : Hooks) (log : string) (r : Run)
  : bool * Deployment * string * Srv :=
  let log := log +:+ phaseHeader (phase +:+ " hook") service in
  let hctx := WithTimeout c (HookTimeout hooks) (clock s) in
  let s := add_started s (SHook service) in
  match run_start r with
  | Err e => (false, dep, log +:+ "the hook runner could not be started: " +:+ e +:+ nl, s)
  | Ok ctr =>
      let s := db_write s c (fun t => SetDeploymentContainer t (dID dep) ctr) in
      let dep := with_ctr dep ctr in
      match Wait s hctx dep r with
      | (Err e, s) =>
          (false, dep, log +:+ "hook " +:+ quote service +:+ " did not finish within " +:+ show_duration (HookTimeout hooks) +:+
             " and was stopped: " +:+ e +:+ nl, add_reaped s ctr)
      | (Ok (exitCode, out, _), s) =>
          let log := log +:+ out +:+ nl in
          if negb (exitCode =? 0)%Z
          then (false, dep, log +:+ "hook " +:+ quote service +:+ " failed (exit " +:+ show_int exitCode +:+ ")." +:+ nl, s)
          else (true, dep, log, s)
      end
  end.

(** The loop over one list: [true] when every blocking hook succeeded. *)
Fixpoint hook_loop (phase proceed : string) (c : Ctx) (hooks : Hooks) (run_of : string -> Run) (l : list Hook)
  (s : Srv) (dep : Deployment) (log : string) : bool * Deployment * string * Srv :=
  match l with
  | [] => (true, dep, log, s)
  | hook :: l' =>
      match runHookPhase s c dep phase (h_service hook) hooks log (run_of (h_service hook)) with
      | (true, dep, log, s) => hook_loop phase proceed c hooks run_of l' s dep log
      | (false, dep, log, s) =>
          if negb (Blocking hook)
          then hook_loop phase proceed c hooks run_of l' s dep (log +:+ "hook " +:+ quote (h_service hook) +:+ proceed +:+ nl)
          else (false, dep, log, s)
      end
  end.

(** [lastGoodDeployment]: the newest that shipped something and succeeded. *)
Definition good_target (excludeID : string) (d : Deployment) : bool :=
  negb (bool_decide (dID d = excludeID)) && bool_decide (dStatus d = DeployOK) && isDeploying (dAction d) &&
  negb (bool_decide (dComposeYAML d = "")).

Definition lastGoodDeployment (s : Srv) (c : Ctx) (stackID excludeID : string) : option Deployment :=
  if ctx_done c (clock s) then None
  else List.find (good_target excludeID) (ListDeployments (table s) stackID 50).

Definition autoRollback (s : Srv) (c : Ctx) (stack : Stack) (failed : Deployment) (i : DeployIn) : Srv :=
  match lastGoodDeployment s c (stID stack) (dID failed) with
  | None => s
  | Some prev =>
      let s := audit s c (mkAudit "" "stack.rollback" (stName stack) "ok" (dID failed)) in
      (deploy s c stack ActionUp TriggerRollback "" (Some prev) i).2
  end.

(** The engine's phase: [Ok] with the runner's log when it exited zero,
    otherwise the exit code, log and truncation to finish with. *)
Definition engine_phase (s : Srv) (c : Ctx) (dep : Deployment) (eng : Engine) (action : Action) (log : string) (r : Run)
  : res (Z * bool) unit * Deployment * string * Srv :=
  let log := log +:+ phaseHeader "deploy" action in
  match Start s eng action r with
  | (Err e, s) => (Err (1%Z, false), dep, log +:+ "The deploy runner could not be started." +:+ nl +:+ nl +:+ e +:+ nl, s)
  | (Ok ctr, s) =>
      let s := db_write s c (fun t => SetDeploymentContainer t (dID dep) ctr) in
      let dep := with_ctr dep ctr in
      match Wait s c dep r with
      | (Err e, s) => (Err (1%Z, false), dep, log +:+ "the runner could not be waited on: " +:+ e +:+ nl, Reap s ctr)
      | (Ok (exitCode, out, truncated), s) =>
          let log := log +:+ out +:+ nl in
          if negb (exitCode =? 0)%Z then (Err (exitCode, truncated), dep, log, s) else (Ok tt, dep, log, s)
      end
  end.

Definition provision_phase (plan : HookPlan) (hooks : Hooks) (stack : Stack) (log : string) (i : ProvIn) : res string string :=
  match Provision plan with
  | Some prov =>
      let '(created, plog, err) := provisionHookResources prov i in
      let what := if bool_decide (stDeployedHash stack = "")
                  then "creating the networks and volumes the hooks need; the engine adopts them"
                  else "recreating what the hooks need that is missing; the engine adopts it" in
      let log := if (0 <? created)%Z || bool_decide (is_Some err) then log +:+ phaseHeader "hook resources" what +:+ plog else log in
      match err with Some e => Err (log +:+ e +:+ nl) | None => Ok log end
  | None =>
      Ok (if bool_decide (stDeployedHash stack = "") && negb (is_nil (PreDeploy hooks))
          then log +:+ phaseHeader "first deploy" "the hooks create the stack's networks and volumes; the engine adopts them" else log)
  end.

Definition post_phase (s : Srv) (c : Ctx) (dep : Deployment) (stack : Stack) (hooks : Hooks) (log : string) (i : HookedIn) : Srv :=
  match hook_loop "post-deploy" " is marked on_failure: continue — the deploy stands despite the failure." c hooks (hi_hook i)
          (PostDeploy hooks) s dep log with
  | (true, dep, log, s) => (finishDeploy s c dep stack 0 log false).2
  | (false, dep, log, s) =>
      let '(status, s) := finishDeploy s c dep stack 1 (log +:+ "The pipeline stops here — the new version is live but failed its verification." +:+ nl) false in
      if bool_decide (status = DeployFailed) && RollbackOnFailure hooks then autoRollback s c stack dep (hi_rollback i) else s
  end.

Definition runHookedDeployment (s : Srv) (dep : Deployment) (stack : Stack) (eng : Engine) (action : Action)
  (plan : HookPlan) (hooks : Hooks) (warnings : string) (i : HookedIn) : Srv :=
  let ctx := DeployContext None (clock s) in
  match provision_phase plan hooks stack warnings (hi_prov i) with
  | Err log => (finishDeploy s ctx dep stack 1 (log +:+ "The pipeline stops here — nothing running has been touched." +:+ nl) false).2
  | Ok log =>
      match hook_loop "pre-deploy" " is marked on_failure: continue — proceeding despite the failure." ctx hooks (hi_hook i)
              (PreDeploy hooks) s dep log with
      | (false, dep, log, s) => (finishDeploy s ctx dep stack 1 (log +:+ "The pipeline stops here — nothing running has been touched." +:+ nl) false).2
      | (true, dep, log, s) =>
          match engine_phase s ctx dep eng action log (hi_engine i) with
          | (Err (exitCode, truncated), dep, log, s) => (finishDeploy s ctx dep stack exitCode log truncated).2
          | (Ok _, dep, log, s) => post_phase s ctx dep stack hooks log i
          end
      end
  end.

(** ** Teardown, and the sweep after a restart *)

(** [tearDown]: [ping] is whether the node answers. The context the verdict is
    written under is made before the runner is waited on. *)
Definition tearDown (s : Srv) (c : Ctx) (stack : Stack) (volumes : bool) (userID : string) (pool : gmap string EnvConn) (ping : bool)
  (newid : string) (r : Run) : res FlowErr unit * Srv :=
  match EngineFor (stEngine stack) with
  | Err e => (Err (EEngine e), s)
  | Ok eng =>
      match runnerNode pool stack with
      | Err _ => (Err EHostUnreachable, s)
      | Ok _ =>
          if negb ping then (Err EHostUnreachable, s)
          else
            let d := new_deployment (stID stack) (if volumes then ActionDownVolumes else ActionDown) (eng_name eng) TriggerManual userID "" in
            match db_claim s c d newid with
            | (Err e, s) => (Err e, s)
            | (Ok dep, s) =>
                match StartTeardown s eng (stName stack) volumes r with
                | (Err e, s) => (Err (EReason e), (db_finish s c (dID dep) 1 ("could not start the runner: " +:+ e) false).2)
                | (Ok ctr, s) =>
                    let s := db_write s c (fun t => SetDeploymentContainer t (dID dep) ctr) in
                    let waitCtx := DeployContext None (clock s) in
                    let fctx := finishContext waitCtx (clock s) in
                    match Wait s waitCtx dep r with
                    | (Err e, s) =>
                        let s := Reap s ctr in
                        (Err (EReason e), (db_finish s fctx (dID dep) 1 ("the runner could not be waited on: " +:+ e) false).2)
                    | (Ok (exitCode, log, truncated), s) =>
                        let s := (db_finish s fctx (dID dep) exitCode log truncated).2 in
                        (if negb (exitCode =? 0)%Z then Err (EReason "compose down failed") else Ok tt, s)
                    end
                end
            end
      end
  end.

(** One turn of [ReapOrphanedRuns]: the stack the store still has, and the
    runner [FindRunner] finds by its label. *)
Definition reap_one (stacks : gmap string Stack) (pool : gmap string EnvConn) (find : string -> option string) (c : Ctx)
  (s : Srv) (dep : Deployment) : Srv :=
  match stacks !! dStackID dep with
  | None => s
  | Some stack =>
      match runnerNode pool stack with
      | Err _ => s
      | Ok _ =>
          if bool_decide (dRunnerCtrID dep = "") then
            match find (dID dep) with
            | None => (db_finish s c (dID dep) 1 "the runner could not be found after a restart" false).2
            | Some id => spawn s (TWatch (with_ctr dep id) stack "")
            end
          else spawn s (TWatch dep stack "")
      end
  end.

Definition ReapOrphanedRuns (s : Srv) (c : Ctx) (stacks : gmap string Stack) (pool : gmap string EnvConn) (find : string -> option string) : Srv :=
  if ctx_done c (clock s) then s
  else fold_left (reap_one stacks pool find c) (UnfinishedDeployments (table s)) s.

(** ** Running what was left in the background *)

Definition run_task (s : Srv) (t : Task) (i : HookedIn) (found : option (Stack * Status)) : Srv :=
  match t with
  | TWatch dep stack warnings => watchDeployment s dep stack warnings (hi_engine i)
  | THooked dep stack eng action plan warnings =>
      match pl_hooks plan with
      | Some hooks => runHookedDeployment s dep stack eng action plan hooks warnings i
      | None => s
      end
  | TReconfirm stack dep => reconfirmPostDeploy s dep found
  end.

(** ** Every deployment ends *)

(** Nothing with this id holds its stack any more. *)
Definition closed (t : Table) (id : string) : Prop := forall d, d ∈ rows t -> dID d = id -> dStatus d <> DeployRunning.

Lemma map_closed t id g :
  (forall d, dID (g d) = dID d) -> (forall d, dStatus (g d) = DeployRunning -> dStatus d = DeployRunning) ->
  closed t id -> closed (mkTable (map g (rows t)) (stack_env t)) id.
Proof.
  intros Hid Hs Hc d Hd E. apply list_elem_of_fmap in Hd as (d0 & -> & Hd). rewrite Hid in E.
  intros Hr. by apply (Hc d0 Hd E), Hs.
Qed.

Lemma update_row_closed t id id' f :
  (forall d, dID (f d) = dID d) -> (forall d, dStatus (f d) = DeployRunning -> dStatus d = DeployRunning) ->
  closed t id -> closed (update_row id' f t) id.
Proof. intros Hid Hs. apply map_closed; intros d; case_bool_decide; auto. Qed.

Lemma RequestCancel_closed t id id' : closed t id -> closed (RequestCancel t id').1 id.
Proof. apply map_closed; intros d; by destruct (_ && _). Qed.

Lemma finish_write_closed t id id' c x l tr now :
  id = id' \/ closed t id -> closed (finish_write t id' c x l tr now) id.
Proof.
  intros H d Hd E. unfold finish_write, update_row in Hd. simpl in Hd. apply list_elem_of_fmap in Hd as (d0 & -> & Hd).
  case_bool_decide as Hid.
  - intros Hr. pose proof (finish_row_not_running (verdict c x) c x l tr now d0 eq_refl) as Hn. unfold is_running in Hn. bd. done.
  - destruct H as [->|H]; [done|]. by apply H.
Qed.

Lemma FinishDeployment_closed t id id' x l tr now t' st :
  FinishDeployment t id' x l tr now = Ok (t', st) -> id = id' \/ closed t id -> closed t' id.
Proof.
  unfold FinishDeployment. intros H. apply rbind_ok_inv in H as (c & _ & [= <- _]). apply finish_write_closed.
Qed.

Lemma FinishDeployment_Err t id x l tr now e : FinishDeployment t id x l tr now = Err e -> closed t id.
Proof.
  unfold FinishDeployment, finish_read, DeploymentByID. destruct (List.find _ _) as [d|] eqn:E; [done|].
  intros _ d Hd Hid. rewrite list_elem_of_In in Hd. pose proof (find_none _ _ E d Hd) as H. simpl in H. by bd.
Qed.

Lemma ClaimDeployment_closed t d newid now t' r id :
  ClaimDeployment t d newid now = Ok (t', r) -> dID d = "" -> newid <> id -> closed t id -> closed t' id.
Proof.
  intros H Hd Hne Hc. apply ClaimDeployment_inv in H as [-> H]. apply insert_row_inv in H as (-> & _).
  intros x Hx E. simpl in Hx. apply elem_of_app in Hx as [Hx|Hx]; [by apply Hc|].
  apply list_elem_of_singleton in Hx as ->. simpl in E. by rewrite bool_decide_eq_true_2 in E.
Qed.

Lemma finishContext_live c s : ctx_done (finishContext c (clock s)) (clock s) = false.
Proof. unfold ctx_done, finishContext, WithTimeout, WithoutCancel. apply Z.leb_gt. unfold finishTimeout, Second. lia. Qed.

Lemma db_finish_closed s c id id' x l tr : closed (table s) id -> closed (table (db_finish s c id' x l tr).2) id.
Proof.
  unfold db_finish. destruct (ctx_done _ _); [done|]. destruct (FinishDeployment _ _ _ _ _ _) as [[t st]|] eqn:E; [|done].
  simpl. intros H. eapply FinishDeployment_closed; [exact E|by right].
Qed.

Lemma db_finish_closes s c id x l tr : ctx_done c (clock s) = false -> closed (table (db_finish s c id x l tr).2) id.
Proof.
  unfold db_finish. intros ->. destruct (FinishDeployment _ _ _ _ _ _) as [[t st]|] eqn:E; simpl.
  - eapply FinishDeployment_closed; [exact E|by left].
  - by eapply FinishDeployment_Err.
Qed.

Lemma notifyDeploy_table s c st d x : table (notifyDeploy s c st d x) = table s.
Proof. unfold notifyDeploy. by destruct (ctx_done _ _). Qed.
Lemma audit_table s c a : table (audit s c a) = table s.
Proof. unfold audit. by destruct (ctx_done _ _). Qed.
Lemma MarkStackDeployed_table s c a b d : table (MarkStackDeployed s c a b d) = table s.
Proof. unfold MarkStackDeployed. by destruct (ctx_done _ _). Qed.

Lemma finishDeploy_table s c dep stack x l tr :
  table (finishDeploy s c dep stack x l tr).2 = table (db_finish s (finishContext c (clock s)) (dID dep) x l tr).2.
Proof.
  unfold finishDeploy. destruct (db_finish _ _ _ _ _ _) as [[status|e] s1]; [|done]. simpl.
  rewrite audit_table. repeat case_bool_decide; simpl; rewrite ?notifyDeploy_table; try done;
    destruct (isDeploying _); simpl; rewrite ?notifyDeploy_table, ?MarkStackDeployed_table; try done; by rewrite notifyDeploy_table.
Qed.

Lemma finishDeploy_closes s c dep stack x l tr : closed (table (finishDeploy s c dep stack x l tr).2) (dID dep).
Proof. rewrite finishDeploy_table. apply db_finish_closes, finishContext_live. Qed.

Lemma failDeployment_table s c stack dep reason :
  table (failDeployment s c stack dep reason).2 = table (db_finish s (finishContext c (clock s)) (dID dep) 1 reason false).2.
Proof. unfold failDeployment. destruct (db_finish _ _ _ _ _ _) as [r s1]. simpl. by rewrite audit_table, notifyDeploy_table. Qed.

Lemma failDeployment_closes s c stack dep reason : closed (table (failDeployment s c stack dep reason).2) (dID dep).
Proof. rewrite failDeployment_table. apply db_finish_closes, finishContext_live. Qed.

Lemma failDeployment_closed s c stack dep reason id : closed (table s) id -> closed (table (failDeployment s c stack dep reason).2) id.
Proof. rewrite failDeployment_table. apply db_finish_closed. Qed.

Lemma db_write_closed s c f id : (closed (table s) id -> closed (f (table s)) id) -> closed (table s) id -> closed (table (db_write s c f)) id.
Proof. unfold db_write. by destruct (ctx_done _ _). Qed.

Lemma set_container_closed t id x c : closed t id -> closed (SetDeploymentContainer t x c) id.
Proof. by apply update_row_closed. Qed.
Lemma set_bundle_closed t id x a b d e : closed t id -> closed (SetDeploymentBundle t x a b d e) id.
Proof. by apply update_row_closed. Qed.

Definition task_dep (t : Task) : Deployment :=
  match t with TWatch d _ _ => d | THooked d _ _ _ _ _ => d | TReconfirm _ d => d end.

(** A task that ends a deployment, as opposed to one that checks on it. *)
Definition ending (t : Task) : bool :=
  match t with TWatch _ _ _ => true | THooked _ _ _ _ plan _ => bool_decide (is_Some (pl_hooks plan)) | TReconfirm _ _ => false end.

(** The three ways [deploy] can answer. *)
Definition deploy_post (s : Srv) (newid : string) (r : res FlowErr Deployment) (s' : Srv) : Prop :=
  match r with
  | Ok dep => dID dep = newid /\ exists t, tasks s' = tasks s ++ [t] /\ dID (task_dep t) = newid /\ ending t = true
  | Err (EReason _) => closed (table s') newid
  | Err _ => s' = s
  end.

Lemma launched_post s0 s c dep stack ctr w newid :
  tasks s = tasks s0 -> dID dep = newid ->
  let x := launched s c dep stack ctr w in deploy_post s0 newid x.1 x.2.
Proof.
  intros Ht Hid. simpl. split; [done|]. unfold db_write. destruct (ctx_done _ _); simpl; rewrite Ht; eauto.
Qed.

Lemma fail_post s0 s c stack dep reason newid :
  dID dep = newid -> let x := fail_with (failDeployment s c stack dep reason) in deploy_post s0 newid x.1 x.2.
Proof.
  intros <-. simpl. pose proof (failDeployment_closes s c stack dep reason) as H.
  unfold failDeployment in *. by destruct (db_finish _ _ _ _ _ _).
Qed.

Lemma deploy_sound s c stack action trigger user from i :
  let x := deploy s c stack action trigger user from i in deploy_post s (in_newid i) x.1 x.2.
Proof.
  cbv zeta. unfold deploy. destruct (EngineFor _) as [eng|]; [|done].
  destruct (db_claim _ _ _ _) as [[dep|e] s1] eqn:Ec.
  - assert (dID dep = in_newid i /\ tasks s1 = tasks s) as [Hid Ht].
    { unfold db_claim in Ec. destruct (ctx_done _ _); [done|]. destruct (ClaimDeployment _ _ _ _) as [[t r]|] eqn:E; [|done].
      injection Ec as <- <-. apply ClaimDeployment_inv in E as [-> _]. done. }
    destruct (runnerNode _ _); [|by apply fail_post]. destruct (_ || _).
    + unfold deploy_down, StartTeardown. destruct (Teardown _ _ _); [|by apply fail_post].
      destruct (run_start (in_run i)); [by apply launched_post|by apply fail_post].
    + unfold deploy_up. destruct (in_bundle i from) as [rs|]; [|by apply fail_post].
      set (plan := match from with Some _ => _ | None => _ end). set (w := if bool_decide _ then in_warnings i else _).
      destruct (if isDeploying action then in_sync i else Ok tt); [|by apply fail_post].
      destruct (bool_decide (is_Some (pl_hooks plan)) && _) eqn:Eh; simpl.
      * apply andb_prop in Eh as [Eh _]. split; [done|].
        eexists. split; [unfold db_write; destruct (ctx_done _ _); simpl; by rewrite Ht|]. done.
      * unfold Start. destruct (negb _); [by apply fail_post|].
        destruct (run_start (in_run i)); [apply launched_post; [|done]|by apply fail_post].
        simpl. unfold db_write. by destruct (ctx_done _ _).
  - unfold db_claim in Ec. destruct (ctx_done _ _); [by injection Ec as <- <-|].
    destruct (ClaimDeployment _ _ _ _) as [[t r]|]; [done|]. by injection Ec as <- <-.
Qed.

(** [deploy] never revives another deployment. *)
Lemma deploy_closed s c stack action trigger user from i id :
  in_newid i <> id -> closed (table s) id -> closed (table (deploy s c stack action trigger user from i).2) id.
Proof.
  intros Hne Hc. unfold deploy. destruct (EngineFor _) as [eng|]; [|done].
  destruct (db_claim _ _ _ _) as [[dep|e] s1] eqn:Ec.
  - assert (closed (table s1) id) as Hc1.
    { unfold db_claim in Ec. destruct (ctx_done _ _); [done|]. destruct (ClaimDeployment _ _ _ _) as [[t r]|] eqn:E; [|done].
      injection Ec as <- <-. by eapply ClaimDeployment_closed. }
    destruct (runnerNode _ _); [|by apply failDeployment_closed]. destruct (_ || _).
    + unfold deploy_down, StartTeardown. destruct (Teardown _ _ _); [|by apply failDeployment_closed].
      destruct (run_start (in_run i)); [|by apply failDeployment_closed].
      apply db_write_closed; [apply set_container_closed|done].
    + unfold deploy_up. destruct (in_bundle i from) as [rs|]; [|by apply failDeployment_closed].
      destruct (if isDeploying action then in_sync i else Ok tt); [|by apply failDeployment_closed].
      assert (forall s2, s2 = db_write s1 c (fun t => SetDeploymentBundle t (dID dep) (rs_hash rs) (rs_commit rs) (rs_subject rs) (rs_yaml rs)) ->
        closed (table s2) id) as Hc2 by (intros s2 ->; apply db_write_closed; [apply set_bundle_closed|done]).
      specialize (Hc2 _ eq_refl). destruct (_ && _); [exact Hc2|]. unfold Start. destruct (negb _); [by apply failDeployment_closed|].
      destruct (run_start (in_run i)); [|by apply failDeployment_closed].
      apply db_write_closed; [apply set_container_closed|exact Hc2].
  - unfold db_claim in Ec. destruct (ctx_done _ _); [by injection Ec as <- <-|].
    destruct (ClaimDeployment _ _ _ _) as [[t r]|]; [done|]. by injection Ec as <- <-.
Qed.

Lemma watchDeployment_closes s dep stack w r : closed (table (watchDeployment s dep stack w r)) (dID dep).
Proof.
  unfold watchDeployment. destruct (Wait _ _ _ _) as [[[[x l] tr]|e] s1].
  - apply finishDeploy_closes.
  - apply db_finish_closes, finishContext_live.
Qed.

(** What the row of a deployment says it ships: the phases only change its runner. *)
Definition shipped (d : Deployment) : string * string * string * string := (dID d, dBundleHash d, dCommitSHA d, dAction d).

Lemma runHookPhase_id s c dep phase svc hooks log r b dep' log' s' :
  runHookPhase s c dep phase svc hooks log r = (b, dep', log', s') -> shipped dep' = shipped dep.
Proof.
  unfold runHookPhase. destruct (run_start r); [|by intros [= _ <- _ _]].
  destruct (Wait _ _ _ _) as [[[[x l] tr]|e] s1]; [|by intros [= _ <- _ _]]. destruct (negb _); by intros [= _ <- _ _].
Qed.

Lemma hook_loop_id phase proceed c hooks run_of l s dep log b dep' log' s' :
  hook_loop phase proceed c hooks run_of l s dep log = (b, dep', log', s') -> shipped dep' = shipped dep.
Proof.
  revert s dep log. induction l as [|hook l IH]; intros s dep log; simpl; [by intros [= _ <- _ _]|].
  destruct (runHookPhase _ _ _ _ _ _ _ _) as [[[b1 dep1] log1] s1] eqn:E. apply runHookPhase_id in E. rewrite <- E.
  destruct b1; [apply IH|]. destruct (negb _); [apply IH|]. by intros [= _ <- _ _].
Qed.

Lemma engine_phase_id s c dep eng action log r x dep' log' s' :
  engine_phase s c dep eng action log r = (x, dep', log', s') -> shipped dep' = shipped dep.
Proof.
  unfold engine_phase. destruct (Start _ _ _ _) as [[ctr|e] s1]; [|by intros [= _ <- _ _]].
  destruct (Wait _ _ _ _) as [[[[y l] tr]|e] s2]; [|by intros [= _ <- _ _]]. destruct (negb _); by intros [= _ <- _ _].
Qed.

Lemma autoRollback_closed s c stack dep i id :
  in_newid i <> id -> closed (table s) id -> closed (table (autoRollback s c stack dep i)) id.
Proof.
  intros Hne Hc. unfold autoRollback. destruct (lastGoodDeployment _ _ _ _); [|done].
  apply deploy_closed; [done|]. by rewrite audit_table.
Qed.

Lemma runHookedDeployment_closes s dep stack eng action plan hooks w i :
  in_newid (hi_rollback i) <> dID dep ->
  closed (table (runHookedDeployment s dep stack eng action plan hooks w i)) (dID dep).
Proof.
  intros Hne. unfold runHookedDeployment. set (c := DeployContext None (clock s)).
  destruct (provision_phase _ _ _ _ _) as [log|log]; [|apply finishDeploy_closes].
  destruct (hook_loop _ _ _ _ _ _ _ _ _) as [[[[] dep1] log1] s1] eqn:E1; apply hook_loop_id in E1; injection E1 as E1 _ _ _; rewrite <- E1 in *;
    [|apply finishDeploy_closes].
  destruct (engine_phase _ _ _ _ _ _ _) as [[[[|[x tr]] dep2] log2] s2] eqn:E2; apply engine_phase_id in E2; injection E2 as E2 _ _ _; rewrite <- E2 in *;
    [|apply finishDeploy_closes].
  unfold post_phase.
  destruct (hook_loop _ _ _ _ _ _ _ _ _) as [[[[] dep3] log3] s3] eqn:E3; apply hook_loop_id in E3; injection E3 as E3 _ _ _; rewrite <- E3 in *;
    [apply finishDeploy_closes|].
  pose proof (finishDeploy_closes s3 c dep3 stack 1
    (log3 +:+ "The pipeline stops here — the new version is live but failed its verification." +:+ nl) false) as Hc.
  destruct (finishDeploy _ _ _ _ _ _ _) as [status s4]. simpl in Hc. destruct (_ && _); [by apply autoRollback_closed|done].
Qed.

(** C1: nothing stays claimed: a deploy either changes nothing, or closes the
    deployment it claimed with its reason, or leaves exactly one background
    task behind, and whatever the runner, the hooks and the clock do, running
    that task closes the deployment. *)
Theorem every_deploy_ends (s s' : Srv) (c : Ctx) (stack : Stack) (action : Action) (trigger user : string)
  (from : option Deployment) (i : DeployIn) (r : res FlowErr Deployment) :
  deploy s c stack action trigger user from i = (r, s') ->
  match r with
  | Err (EReason _) => closed (table s') (in_newid i)
  | Err _ => s' = s
  | Ok dep => dID dep = in_newid i /\ exists t, tasks s' = tasks s ++ [t] /\
      forall later h found, in_newid (hi_rollback h) <> in_newid i -> closed (table (run_task later t h found)) (in_newid i)
  end.
Proof.
  intros H. pose proof (deploy_sound s c stack action trigger user from i) as Hp. rewrite H in Hp. simpl in Hp.
  destruct r as [dep|[]]; simpl in Hp; try done. destruct Hp as [Hid (t & Ht & Hdep & He)]. split; [done|].
  exists t. split; [done|]. intros later h found Hne. rewrite <- Hdep. destruct t as [d st w|d st eng a plan w|]; simpl in *; [| |done].
  - apply watchDeployment_closes.
  - apply bool_decide_eq_true_1 in He as [hooks ->]. apply runHookedDeployment_closes. congruence.
Qed.

(** ** What each step leaves alone *)

(** Only the clock, the table, what was started and what was reaped changed. *)
Definition frame (s s' : Srv) : Prop :=
  live s' = live s /\ notes s' = notes s /\ audits s' = audits s /\ tasks s' = tasks s.

Lemma frame_refl s : frame s s.
Proof. done. Qed.
Lemma frame_trans s1 s2 s3 : frame s1 s2 -> frame s2 s3 -> frame s1 s3.
Proof. unfold frame. intros (-> & -> & -> & ->) (-> & -> & -> & ->). done. Qed.

Definition ids (s : Srv) : list string := map dID (rows (table s)).

Lemma map_ids t g : (forall d, dID (g d) = dID d) -> map dID (rows (mkTable (map g (rows t)) (stack_env t))) = map dID (rows t).
Proof. intros H. simpl. rewrite map_map. by apply map_ext. Qed.

Lemma db_write_frame s c f : frame s (db_write s c f) /\ started (db_write s c f) = started s /\ clock (db_write s c f) = clock s.
Proof. unfold db_write, frame. by destruct (ctx_done _ _). Qed.

Lemma db_write_ids s c id ctr : ids (db_write s c (fun t => SetDeploymentContainer t id ctr)) = ids s.
Proof. unfold db_write, ids. destruct (ctx_done _ _); [done|]. apply map_ids. intros d. by case_bool_decide. Qed.

Lemma db_finish_frame s c id x l tr : let s' := (db_finish s c id x l tr).2 in
  frame s s' /\ started s' = started s /\ clock s' = clock s /\ reaped s' = reaped s /\ ids s' = ids s.
Proof.
  unfold db_finish, frame. cbv zeta. destruct (ctx_done _ _); [done|].
  destruct (FinishDeployment _ _ _ _ _ _) as [[t st]|] eqn:E; [|done]. simpl. split_and!; try done.
  unfold FinishDeployment in E. apply rbind_ok_inv in E as (? & _ & [= <- _]). unfold ids. simpl.
  apply map_ids. intros d. by case_bool_decide.
Qed.

Lemma Wait_frame s c dep r : let s' := (Wait s c dep r).2 in frame s s' /\ started s' = started s /\ reaped s' = reaped s /\ ids s' = ids s.
Proof.
  unfold Wait, frame. cbv zeta.
  assert (ids (set_table s (RequestCancel (table s) (dID dep)).1) = ids s) as Hi by (apply map_ids; intros d; by destruct (_ && _)).
  destruct (run_cancel r); destruct (ctx_done _ _); [split_and!; done|destruct (run_error r); split_and!; done
    | split_and!; done | destruct (run_error r); split_and!; done].
Qed.

Lemma Wait_ok s c dep r x l tr s' :
  Wait s c dep r = (Ok (x, l, tr), s') ->
  run_error r = None /\ x = run_exit r /\ ctx_done c (clock s + run_took r) = false.
Proof.
  unfold Wait. assert (clock (if run_cancel r then set_table s (RequestCancel (table s) (dID dep)).1 else s) = clock s) as ->
    by (by destruct (run_cancel r)).
  destruct (ctx_done c _); [done|]. destruct (run_error r); [done|]. by intros [= <- _ _ _].
Qed.

(** A runner that did its work in time. *)
Definition passes (limit : Z) (r : Run) : Prop :=
  is_ok (run_start r) = true /\ run_error r = None /\ run_exit r = 0%Z /\ (run_took r < limit)%Z.

Lemma WithTimeout_live c d now at_ : ctx_done (WithTimeout c d now) at_ = false -> (at_ < now + d)%Z /\ ctx_done c at_ = false.
Proof.
  unfold ctx_done, WithTimeout. intros H. apply Z.leb_gt in H. destruct c as [t|]; [|done]. split; [lia|]. apply Z.leb_gt. lia.
Qed.

Lemma runHookPhase_spec s c dep phase svc hooks log r b dep' log' s' :
  runHookPhase s c dep phase svc hooks log r = (b, dep', log', s') ->
  frame s s' /\ started s' = started s ++ [SHook svc] /\ ids s' = ids s /\ (b = true -> passes (HookTimeout hooks) r).
Proof.
  unfold runHookPhase. destruct (run_start r) as [ctr|e] eqn:Es.
  2: { intros [= <- _ _ <-]. split_and!; done. }
  set (s1 := add_started s (SHook svc)).
  destruct (db_write_frame s1 c (fun t => SetDeploymentContainer t (dID dep) ctr)) as (Hf1 & Hs1 & Hc1).
  pose proof (db_write_ids s1 c (dID dep) ctr) as Hi1. set (s2 := db_write s1 c _) in *.
  destruct (Wait_frame s2 (WithTimeout c (HookTimeout hooks) (clock s1)) (with_ctr dep ctr) r) as (Hf2 & Hs2 & _ & Hi2).
  destruct (Wait s2 _ _ r) as [w s3] eqn:Ew. simpl in Hf2, Hs2, Hi2.
  assert (frame s s3) as Hf by (eapply frame_trans; [|exact Hf2]; exact Hf1).
  assert (ids s3 = ids s) as Hi by (by rewrite Hi2, Hi1). rewrite Hs1 in Hs2.
  destruct w as [[[x l] tr]|e].
  - apply Wait_ok in Ew as (He & -> & Hd). rewrite Hc1 in Hd. apply WithTimeout_live in Hd as [Hd _].
    destruct (negb _) eqn:Ex; intros [= <- _ _ <-]; (split_and!; [done..|]); [done|]. intros _.
    apply negb_false_iff, Z.eqb_eq in Ex. split_and!; [by rewrite Es|done|done|lia].
  - intros [= <- _ _ <-]. split_and!; try done.
Qed.

Lemma hook_loop_spec phase proceed c hooks run_of l s dep log b dep' log' s' :
  hook_loop phase proceed c hooks run_of l s dep log = (b, dep', log', s') ->
  frame s s' /\ ids s' = ids s /\
  (exists pre, started s' = started s ++ map SHook pre /\ pre `prefix_of` map h_service l /\ (b = true -> pre = map h_service l)) /\
  (b = true -> forall hook, hook ∈ l -> Blocking hook = true -> passes (HookTimeout hooks) (run_of (h_service hook))).
Proof.
  revert s dep log. induction l as [|hook l IH]; intros s dep log; simpl.
  - intros [= <- _ _ <-]. split_and!; [done|done| |intros _ h Hh; by apply elem_of_nil in Hh]. exists []. by rewrite app_nil_r.
  - destruct (runHookPhase _ _ _ _ _ _ _ _) as [[[b1 dep1] log1] s1] eqn:E.
    apply runHookPhase_spec in E as (Hf1 & Hs1 & Hi1 & Hp1).
    assert (forall b2 log2, (b1 = true \/ Blocking hook = false) ->
      hook_loop phase proceed c hooks run_of l s1 dep1 log2 = (b2, dep', log', s') -> b2 = b ->
      frame s s' /\ ids s' = ids s /\
      (exists pre, started s' = started s ++ map SHook pre /\ pre `prefix_of` h_service hook :: map h_service l /\
                   (b = true -> pre = h_service hook :: map h_service l)) /\
      (b = true -> forall h, h ∈ hook :: l -> Blocking h = true -> passes (HookTimeout hooks) (run_of (h_service h)))) as Hrec.
    { intros b2 log2 Hor H ->. apply IH in H as (Hf & Hi & (pre & Hst & Hpre & Hall) & Hb). split_and!.
      - by eapply frame_trans.
      - by rewrite Hi.
      - exists (h_service hook :: pre). rewrite Hst, Hs1, <- app_assoc. split_and!; [done|by apply prefix_cons|].
        intros Hbt. by rewrite Hall.
      - intros Hbt h Hh Hbl. apply elem_of_cons in Hh as [->|Hh]; [|by apply Hb].
        destruct Hor as [->|Hn]; [by apply Hp1|congruence]. }
    destruct b1; [intros H; by eapply Hrec; [left|exact H|]|].
    destruct (negb (Blocking hook)) eqn:Eb.
    + intros H. eapply Hrec; [right; by apply negb_true_iff|exact H|done].
    + intros [= <- _ _ <-]. split_and!; [done|done| |done]. exists [h_service hook]. split_and!; [done| |done].
      simpl. apply prefix_cons, prefix_nil.
Qed.

Lemma engine_phase_spec s c dep eng action log r x dep' log' s' :
  engine_phase s c dep eng action log r = (x, dep', log', s') ->
  frame s s' /\ ids s' = ids s /\
  (started s' = started s ++ [SEngine action] \/ (started s' = started s /\ is_ok x = false)) /\
  (is_ok x = true -> is_ok (run_start r) = true /\ run_error r = None /\ run_exit r = 0%Z) /\
  (forall e tr, x = Err (e, tr) -> e <> 0%Z).
Proof.
  unfold engine_phase, Start. destruct (negb (Supports eng action)).
  { intros [= <- _ _ <-]. split_and!; [done|done|by right|done|by intros e tr [= <- _]]. }
  set (s1 := add_started s (SEngine action)). destruct (run_start r) as [ctr|e].
  2: { intros [= <- _ _ <-]. split_and!; [done|done|by left|done|by intros ? ? [= <- _]]. }
  destruct (db_write_frame s1 c (fun t => SetDeploymentContainer t (dID dep) ctr)) as (Hf1 & Hs1 & Hc1).
  pose proof (db_write_ids s1 c (dID dep) ctr) as Hi1. set (s2 := db_write s1 c _) in *.
  destruct (Wait_frame s2 c (with_ctr dep ctr) r) as (Hf2 & Hs2 & _ & Hi2).
  destruct (Wait s2 _ _ r) as [w s3] eqn:Ew. simpl in Hf2, Hs2, Hi2.
  assert (frame s s3) as Hf by (eapply frame_trans; [|exact Hf2]; exact Hf1).
  assert (ids s3 = ids s) as Hi by (by rewrite Hi2, Hi1). rewrite Hs1 in Hs2.
  destruct w as [[[y l] tr]|e].
  - apply Wait_ok in Ew as (He & -> & _).
    destruct (negb _) eqn:Ex; intros [= <- _ _ <-]; (split_and!; [done|done|by left| |]); try done.
    + intros e tr' [= <- _]. apply negb_true_iff, Z.eqb_neq in Ex. done.
    + intros _. apply negb_false_iff, Z.eqb_eq in Ex. done.
  - intros [= <- _ _ <-]. unfold Reap. case_bool_decide; (split_and!; [done|done|by left|done|by intros ? ? [= <- _]]).
Qed.

(** Ending a deployment touches what is live only on success, and leaves no task
    but the post-deploy check. *)
Lemma finishDeploy_spec s c dep stack x l tr : let r := finishDeploy s c dep stack x l tr in
  started r.2 = started s /\ ids r.2 = ids s /\ clock r.2 = clock s /\
  (live r.2 = live s \/ (r.1 = DeployOK /\ x = 0%Z /\ live r.2 = <[stID stack := (dBundleHash dep, dCommitSHA dep)]> (live s))) /\
  (exists ts, tasks r.2 = tasks s ++ ts /\ forall t, t ∈ ts -> ending t = false) /\
  (r.1 = DeployOK -> x = 0%Z).
Proof.
  cbv zeta. unfold finishDeploy. set (ctx := finishContext c (clock s)).
  destruct (db_finish_frame s ctx (dID dep) x l tr) as ((Hl & Hn & Ha & Ht) & Hs & Hc & Hr & Hi).
  assert (forall st s1, db_finish s ctx (dID dep) x l tr = (Ok st, s1) -> st = DeployOK -> x = 0%Z) as Hok.
  { intros st s1 H ->. unfold db_finish in H. destruct (ctx_done _ _); [done|].
    destruct (FinishDeployment _ _ _ _ _ _) as [[t st]|] eqn:E; [|done]. injection H as -> _.
    unfold FinishDeployment in E. apply rbind_ok_inv in E as (cb & _ & [= _ E]). unfold verdict in E.
    destruct cb; [done|]. destruct (x =? 0)%Z eqn:Ex; [by apply Z.eqb_eq in Ex|done]. }
  destruct (db_finish s ctx (dID dep) x l tr) as [[status|e] s1] eqn:E; simpl in *.
  2: { split_and!; [done|done|done|by left|exists []; rewrite app_nil_r; split; [done|intros t Hin; by apply elem_of_nil in Hin]|done]. }
  specialize (Hok status s1 eq_refl).
  unfold audit, notifyDeploy, MarkStackDeployed, ids in *.
  assert (clock s1 = clock s) as Hck by done.
  repeat first [case_bool_decide | destruct (ctx_done _ _) | destruct (isDeploying _)]; subst; simpl;
    split_and!; try done; try (by left); try (right; split_and!; [done|by apply Hok|by rewrite Hl]);
    rewrite ?Ht; try (eexists; split; [reflexivity|]; intros t Hin; apply list_elem_of_singleton in Hin as ->; done);
    (exists []; rewrite app_nil_r; split; [done|intros t Hin; by apply elem_of_nil in Hin]).
Qed.

Lemma failDeployment_frame s c stack dep reason : let s' := (failDeployment s c stack dep reason).2 in
  live s' = live s /\ started s' = started s /\ tasks s' = tasks s.
Proof.
  cbv zeta. unfold failDeployment. destruct (db_finish_frame s (finishContext c (clock s)) (dID dep) 1 reason false) as ((Hl & _ & _ & Ht) & Hs & _).
  destruct (db_finish _ _ _ _ _ _) as [r s1]. simpl in *. unfold audit, notifyDeploy. by repeat destruct (ctx_done _ _).
Qed.

Lemma deploy_live s c stack action trigger user from i : let s' := (deploy s c stack action trigger user from i).2 in
  live s' = live s /\ exists x, started s' = started s ++ x.
Proof.
  cbv zeta. unfold deploy. destruct (EngineFor _) as [eng|]; [|by split; [|exists []; rewrite app_nil_r]].
  assert (live (db_claim s c (new_deployment (stID stack) action (eng_name eng) trigger user match from with Some f => dID f | None => "" end) (in_newid i)).2 = live s /\
          started (db_claim s c (new_deployment (stID stack) action (eng_name eng) trigger user match from with Some f => dID f | None => "" end) (in_newid i)).2 = started s) as [Hl Hs].
  { unfold db_claim. destruct (ctx_done _ _); [done|]. by destruct (ClaimDeployment _ _ _ _) as [[]|]. }
  destruct (db_claim _ _ _ _) as [[dep|e] s1]; simpl in *; [|by split; [|exists []; rewrite app_nil_r]].
  assert (forall st reason s2, live s2 = live s -> (exists x, started s2 = started s ++ x) ->
    let s' := (fail_with (failDeployment s2 c st dep reason)).2 in live s' = live s /\ exists x, started s' = started s ++ x) as Hfail.
  { intros st reason s2 Hl2 Hs2. simpl. destruct (failDeployment_frame s2 c st dep reason) as (-> & -> & _). done. }
  assert (exists x, started s1 = started s ++ x) as Hs1 by (exists []; by rewrite app_nil_r).
  assert (forall s2 (d : Deployment) ctr w y, live s2 = live s -> started s2 = started s ++ y ->
    live (launched s2 c d stack ctr w).2 = live s /\ exists x, started (launched s2 c d stack ctr w).2 = started s ++ x) as Hlaunch.
  { intros s2 d ctr w y Hl2 Hs2. unfold launched, db_write. destruct (ctx_done _ _); simpl; rewrite Hl2, Hs2; eauto. }
  destruct (runnerNode _ _); [|by apply Hfail]. destruct (_ || _).
  - unfold deploy_down, StartTeardown. destruct (Teardown _ _ _); [|by apply Hfail].
    destruct (run_start (in_run i)); [|apply Hfail; [done|exists [STeardown]; by rewrite <- Hs]].
    eapply (Hlaunch _ _ _ _ [STeardown]); [done|by rewrite <- Hs].
  - unfold deploy_up. destruct (in_bundle i from) as [rs|]; [|by apply Hfail].
    destruct (if isDeploying action then in_sync i else Ok tt); [|by apply Hfail].
    destruct (db_write_frame s1 c (fun t => SetDeploymentBundle t (dID dep) (rs_hash rs) (rs_commit rs) (rs_subject rs) (rs_yaml rs))) as ((Hl2 & _) & Hs2 & _).
    destruct (bool_decide (is_Some _) && _); [simpl; rewrite Hl2, Hs2, Hs; split; [done|exists []; by rewrite app_nil_r]|].
    unfold Start. destruct (negb _); [apply Hfail; [congruence|exists []; by rewrite app_nil_r, Hs2]|].
    destruct (run_start (in_run i)); [|apply Hfail; simpl; [congruence|exists [SEngine action]; by rewrite Hs2, Hs]].
    apply (Hlaunch _ _ _ _ [SEngine action]); simpl; [congruence|by rewrite Hs2, Hs].
Qed.

Lemma autoRollback_frame s c stack dep i : let s' := autoRollback s c stack dep i in
  live s' = live s /\ exists x, started s' = started s ++ x.
Proof.
  cbv zeta. unfold autoRollback. destruct (lastGoodDeployment _ _ _ _); [|by split; [|exists []; rewrite app_nil_r]].
  match goal with |- context [deploy ?s1 _ _ _ _ _ _ _] => set (s0 := s1) end.
  assert (live s0 = live s /\ started s0 = started s) as [Hl Hs] by (unfold s0, audit; by destruct (ctx_done _ _)).
  rewrite <- Hl, <- Hs. apply deploy_live.
Qed.

(** The whole pipeline, phase by phase: what it started, and what became live. *)
Definition pipeline_post (s s' : Srv) (dep : Deployment) (action : Action) (hooks : Hooks) (stack : Stack) (i : HookedIn) : Prop :=
  let blocking_pass l := forall hook, hook ∈ l -> Blocking hook = true -> passes (HookTimeout hooks) (hi_hook i (h_service hook)) in
  (exists pre rest, started s' = started s ++ map SHook pre ++ rest /\ pre `prefix_of` map h_service (PreDeploy hooks) /\
    (rest = [] \/
     (pre = map h_service (PreDeploy hooks) /\ blocking_pass (PreDeploy hooks) /\
    exists post rollback, rest = SEngine action :: map SHook post ++ rollback /\ post `prefix_of` map h_service (PostDeploy hooks) /\
    (post <> [] -> run_exit (hi_engine i) = 0%Z) /\ (rollback <> [] -> RollbackOnFailure hooks = true)))) /\  (live s' = live s \/
   (blocking_pass (PreDeploy hooks) /\ run_exit (hi_engine i) = 0%Z /\ blocking_pass (PostDeploy hooks) /\
    live s' = <[stID stack := (dBundleHash dep, dCommitSHA dep)]> (live s))).

Lemma pipeline_stop s s1 c dep0 dep stack x l tr action hooks i pre :
  frame s s1 -> started s1 = started s ++ map SHook pre -> pre `prefix_of` map h_service (PreDeploy hooks) -> x <> 0%Z ->
  pipeline_post s (finishDeploy s1 c dep stack x l tr).2 dep0 action hooks stack i.
Proof.
  intros (Hl & _) Hs Hpre Hx. destruct (finishDeploy_spec s1 c dep stack x l tr) as (Hs2 & _ & _ & [Hl2|(_ & ? & _)] & _); [|done].
  split; [|left; congruence]. exists pre, []. rewrite Hs2, Hs, app_nil_r. split_and!; [done|done|by left].
Qed.

Lemma runHookedDeployment_spec s dep stack eng action plan hooks w i :
  pipeline_post s (runHookedDeployment s dep stack eng action plan hooks w i) dep action hooks stack i.
Proof.
  unfold runHookedDeployment. set (c := DeployContext None (clock s)).
  destruct (provision_phase _ _ _ _ _) as [log|log].
  2: { apply (pipeline_stop _ _ _ _ _ _ _ _ _ _ _ _ []); [done|by rewrite app_nil_r|apply prefix_nil|done]. }
  destruct (hook_loop _ _ _ _ _ _ _ _ _) as [[[b1 dep1] log1] s1] eqn:E1. pose proof (hook_loop_id _ _ _ _ _ _ _ _ _ _ _ _ _ E1) as Hd1.
  apply hook_loop_spec in E1 as (Hf1 & _ & (pre & Hst1 & Hpre & Hall) & Hp1).
  destruct b1; [|by eapply pipeline_stop]. specialize (Hall eq_refl). specialize (Hp1 eq_refl). subst pre. clear Hpre.
  destruct (engine_phase _ _ _ _ _ _ _) as [[[x2 dep2] log2] s2] eqn:E2. pose proof (engine_phase_id _ _ _ _ _ _ _ _ _ _ _ E2) as Hd2.
  apply engine_phase_spec in E2 as (Hf2 & _ & Hst2 & Hx2 & Hne2). assert (frame s s2) as Hf by (by eapply frame_trans).
  destruct x2 as [u|[x tr]].
  - destruct (Hx2 eq_refl) as (_ & _ & Hexit). destruct Hst2 as [Hst2|[_ ?]]; [|done]. unfold post_phase.
    destruct (hook_loop _ _ _ _ _ _ _ _ _) as [[[b3 dep3] log3] s3] eqn:E3. pose proof (hook_loop_id _ _ _ _ _ _ _ _ _ _ _ _ _ E3) as Hd3.
    apply hook_loop_spec in E3 as (Hf3 & _ & (post & Hst3 & Hpost & _) & Hp3). assert (frame s s3) as (Hl & _) by (by eapply frame_trans).
    assert (forall s4 rollback, started s4 = started s3 ++ rollback -> (rollback <> [] -> RollbackOnFailure hooks = true) ->
      exists pre rest, started s4 = started s ++ map SHook pre ++ rest /\ pre `prefix_of` map h_service (PreDeploy hooks) /\
        (rest = [] \/ (pre = map h_service (PreDeploy hooks) /\
          (forall hook, hook ∈ PreDeploy hooks -> Blocking hook = true -> passes (HookTimeout hooks) (hi_hook i (h_service hook))) /\
          exists post rollback, rest = SEngine action :: map SHook post ++ rollback /\ post `prefix_of` map h_service (PostDeploy hooks) /\
            (post <> [] -> run_exit (hi_engine i) = 0%Z) /\ (rollback <> [] -> RollbackOnFailure hooks = true)))) as Hshape.
    { intros s4 rb Hs4 Hrb. exists (map h_service (PreDeploy hooks)), (SEngine action :: map SHook post ++ rb).
      split_and!; [by rewrite Hs4, Hst3, Hst2, Hst1, <- !app_assoc|done|]. right. split_and!; [done..|]. exists post, rb. done. }
    destruct b3.
    + destruct (finishDeploy_spec s3 c dep3 stack 0 log3 false) as (Hs4 & _ & _ & Hl4 & _). split.
      * apply (Hshape _ []); [by rewrite app_nil_r|done].
      * destruct Hl4 as [->|(_ & _ & ->)]; [by left|right]. split_and!; [done|done|by apply Hp3|].
        assert (shipped dep3 = shipped dep) as [= _ -> -> _] by congruence. by rewrite Hl.
    + pose proof (finishDeploy_spec s3 c dep3 stack 1
        (log3 +:+ "The pipeline stops here — the new version is live but failed its verification." +:+ nl) false) as Hfin.
      destruct (finishDeploy _ _ _ _ _ _ _) as [status s4]. simpl in Hfin. destruct Hfin as (Hs4 & _ & _ & Hl4 & _).
      assert (live s4 = live s) as Hl5 by (destruct Hl4 as [->|(_ & ? & _)]; done).
      destruct (_ && RollbackOnFailure hooks) eqn:Er.
      * apply andb_prop in Er as [_ Er]. destruct (autoRollback_frame s4 c stack dep3 (hi_rollback i)) as (Hl6 & y & Hs6).
        split; [|left; congruence]. apply (Hshape _ y); [congruence|done].
      * split; [|by left]. apply (Hshape _ []); [by rewrite app_nil_r|done].
  - destruct (finishDeploy_spec s2 c dep2 stack x log2 tr) as (Hs3 & _ & _ & Hl3 & _ & Hx3). destruct Hf as (Hl & _). split.
    + exists (map h_service (PreDeploy hooks)). destruct Hst2 as [Hst2|[Hst2 _]].
      * exists [SEngine action]. rewrite Hs3, Hst2, Hst1, <- app_assoc. split_and!; [done|done|]. right. split_and!; [done..|].
        exists [], []. split_and!; [done|apply prefix_nil|done|done].
      * exists []. rewrite Hs3, Hst2, Hst1, app_nil_r. split_and!; [done|done|by left].
    + destruct Hl3 as [->|(_ & Hx & _)]; [by left|]. by destruct (Hne2 x tr).
Qed.

(** The order of the pipeline is its failure semantics: pre-deploy hooks start
    in order; the engine starts only when every blocking one has exited zero
    within its deadline; post-deploy hooks start, in order, only when the engine
    exited zero; a rollback starts only when it was asked for; and the stack's
    live version changes only when every blocking hook and the engine
    succeeded, to what this deployment shipped. *)
Theorem pipeline_order (s : Srv) (dep : Deployment) (stack : Stack) (eng : Engine) (action : Action) (plan : HookPlan)
  (hooks : Hooks) (w : string) (i : HookedIn) :
  let s' := runHookedDeployment s dep stack eng action plan hooks w i in
  let blocking_pass l := forall hook, hook ∈ l -> Blocking hook = true -> passes (HookTimeout hooks) (hi_hook i (h_service hook)) in
  (exists pre rest, started s' = started s ++ map SHook pre ++ rest /\ pre `prefix_of` map h_service (PreDeploy hooks) /\
    (rest = [] \/
     (pre = map h_service (PreDeploy hooks) /\ blocking_pass (PreDeploy hooks) /\
      exists post rollback, rest = SEngine action :: map SHook post ++ rollback /\ post `prefix_of` map h_service (PostDeploy hooks) /\
        (post <> [] -> run_exit (hi_engine i) = 0%Z) /\ (rollback <> [] -> RollbackOnFailure hooks = true)))) /\
  (live s' = live s \/
   (blocking_pass (PreDeploy hooks) /\ run_exit (hi_engine i) = 0%Z /\ blocking_pass (PostDeploy hooks) /\
    live s' = <[stID stack := (dBundleHash dep, dCommitSHA dep)]> (live s))).
Proof. exact (runHookedDeployment_spec s dep stack eng action plan hooks w i). Qed.

(** ** One step back, never two *)

Lemma watchDeployment_ids s dep stack w r : let s' := watchDeployment s dep stack w r in
  ids s' = ids s /\ exists ts, tasks s' = tasks s ++ ts /\ forall t, t ∈ ts -> ending t = false.
Proof.
  cbv zeta. unfold watchDeployment. destruct (Wait_frame s (DeployContext None (clock s)) dep r) as ((_ & _ & _ & Ht) & _ & _ & Hi).
  destruct (Wait _ _ _ _) as [[[[x l] tr]|e] s1]; simpl in *.
  - destruct (finishDeploy_spec s1 (DeployContext None (clock s)) dep stack x (w +:+ l) tr) as (_ & -> & _ & _ & (ts & -> & Hts) & _).
    split; [done|]. exists ts. by rewrite Ht.
  - unfold Reap. destruct (bool_decide _); simpl;
      match goal with |- context [db_finish ?a ?b ?c ?d ?e ?f] => destruct (db_finish_frame a b c d e f) as ((_ & _ & _ & Ht2) & _ & _ & _ & Hi2) end;
      (split; [by rewrite Hi2|exists []; rewrite Ht2, app_nil_r; split; [done|intros t H; by apply elem_of_nil in H]]).
Qed.

Lemma runHookedDeployment_ids s dep stack eng action plan hooks w i : RollbackOnFailure hooks = false ->
  let s' := runHookedDeployment s dep stack eng action plan hooks w i in
  ids s' = ids s /\ exists ts, tasks s' = tasks s ++ ts /\ forall t, t ∈ ts -> ending t = false.
Proof.
  cbv zeta. intros Hrb. unfold runHookedDeployment. set (c := DeployContext None (clock s)).
  assert (forall s1 c d x l tr, frame s s1 -> ids s1 = ids s -> let s' := (finishDeploy s1 c d stack x l tr).2 in
    ids s' = ids s /\ exists ts, tasks s' = tasks s ++ ts /\ forall t, t ∈ ts -> ending t = false) as Hend.
  { intros s1 c1 d x l tr (_ & _ & _ & Ht) Hi. cbv zeta. destruct (finishDeploy_spec s1 c1 d stack x l tr) as (_ & -> & _ & _ & (ts & -> & Hts) & _).
    split; [done|]. exists ts. by rewrite Ht. }
  destruct (provision_phase _ _ _ _ _) as [log|log]; [|by apply Hend].
  destruct (hook_loop _ _ _ _ _ _ _ _ _) as [[[b1 dep1] log1] s1] eqn:E1. apply hook_loop_spec in E1 as (Hf1 & Hi1 & _).
  destruct b1; [|by apply Hend].
  destruct (engine_phase _ _ _ _ _ _ _) as [[[x2 dep2] log2] s2] eqn:E2. apply engine_phase_spec in E2 as (Hf2 & Hi2 & _).
  assert (frame s s2) as Hf by (by eapply frame_trans). assert (ids s2 = ids s) as Hi by congruence.
  destruct x2 as [u|[x tr]]; [|by apply Hend]. unfold post_phase.
  destruct (hook_loop _ _ _ _ _ _ _ _ _) as [[[b3 dep3] log3] s3] eqn:E3. apply hook_loop_spec in E3 as (Hf3 & Hi3 & _).
  assert (frame s s3) as Hf' by (by eapply frame_trans). assert (ids s3 = ids s) as Hi' by congruence.
  destruct b3; [by apply Hend|]. rewrite Hrb.
  pose proof (Hend s3 c dep3 1%Z (log3 +:+ "The pipeline stops here — the new version is live but failed its verification." +:+ nl) false Hf' Hi') as H.
  destruct (finishDeploy _ _ _ _ _ _ _) as [status s4]. by rewrite andb_false_r.
Qed.

Lemma deploy_rollback_task s c stack action trigger user f i s' dep :
  deploy s c stack action trigger user (Some f) i = (Ok dep, s') ->
  forall d st eng ac plan w hooks, tasks s' = tasks s ++ [THooked d st eng ac plan w] -> pl_hooks plan = Some hooks ->
  RollbackOnFailure hooks = false.
Proof.
  unfold deploy. destruct (EngineFor _) as [eng0|]; [|done].
  destruct (db_claim _ _ _ _) as [[dep0|e] s1] eqn:Ec; [|done].
  assert (tasks s1 = tasks s) as Ht.
  { unfold db_claim in Ec. destruct (ctx_done _ _); [done|]. destruct (ClaimDeployment _ _ _ _) as [[t r]|]; [|done]. by injection Ec as <- <-. }
  assert (forall s2 d ctr w0 (x : Deployment) s0, tasks s2 = tasks s -> launched s2 c d stack ctr w0 = (Ok x, s0) ->
    forall d' st eng ac plan w, tasks s0 = tasks s ++ [THooked d' st eng ac plan w] -> False) as Hlaunch.
  { intros s2 d ctr w0 x s0 Hs2 [= <- <-] d' st eng ac plan w H. unfold db_write in H.
    destruct (ctx_done _ _); simpl in H; rewrite Hs2 in H; apply app_inv_head in H; done. }
  destruct (runnerNode _ _); [|done]. destruct (_ || _).
  - unfold deploy_down, StartTeardown. destruct (Teardown _ _ _); [|done].
    destruct (run_start (in_run i)); [|done]. intros H d st eng ac plan w hooks Hts. exfalso.
    eapply Hlaunch; [|exact H|exact Hts]. exact Ht.
  - unfold deploy_up. destruct (in_bundle i (Some f)) as [rs|]; [|done].
    destruct (if isDeploying action then in_sync i else Ok tt); [|done].
    destruct (db_write_frame s1 c (fun t => SetDeploymentBundle t (dID dep0) (rs_hash rs) (rs_commit rs) (rs_subject rs) (rs_yaml rs))) as ((_ & _ & _ & Ht2) & _).
    destruct (bool_decide (is_Some _) && _).
    + intros [= _ <-] d st eng ac plan w hooks Hts Hh. simpl in Hts. rewrite Ht2, Ht in Hts. apply app_inv_head in Hts.
      injection Hts as _ _ _ _ <- _. unfold no_rollback in Hh. destruct (pl_hooks (rs_plan rs)) as [h|] eqn:Eh.
      * simpl in Hh. by injection Hh as <-.
      * congruence.
    + unfold Start. destruct (negb _); [done|]. destruct (run_start (in_run i)); [|done].
      intros H d st eng ac plan w hooks Hts. exfalso. eapply Hlaunch; [|exact H|exact Hts]. simpl. congruence.
Qed.

(** A rollback never rolls back: whatever happens while the task of a
    rollback deployment runs, no other deployment is created and nothing but a
    post-deploy check is left behind, so automation takes one step at most. *)
Theorem rollback_never_rolls_back (s s' later : Srv) (c : Ctx) (stack : Stack) (action : Action) (trigger user : string)
  (f dep : Deployment) (i : DeployIn) (t : Task) (h : HookedIn) (found : option (Stack * Status)) :
  deploy s c stack action trigger user (Some f) i = (Ok dep, s') -> tasks s' = tasks s ++ [t] ->
  let after := run_task later t h found in
  map dID (rows (table after)) = map dID (rows (table later)) /\
  exists ts, tasks after = tasks later ++ ts /\ forall x, x ∈ ts -> ending x = false.
Proof.
  intros H Ht. pose proof (deploy_sound s c stack action trigger user (Some f) i) as Hp. rewrite H in Hp. simpl in Hp.
  destruct Hp as [_ (t' & Ht' & _ & He)]. rewrite Ht in Ht'. apply app_inv_head in Ht'. injection Ht' as <-.
  destruct t as [d st w|d st eng a plan w|]; simpl in He; [| |done].
  - apply watchDeployment_ids.
  - apply bool_decide_eq_true_1 in He as [hooks Hh]. simpl. rewrite Hh. apply runHookedDeployment_ids.
    by eapply deploy_rollback_task.
Qed.

(** ** Teardown *)

Lemma Wait_quick s c dep r :
  run_cancel r = false -> run_error r = None -> ctx_done c (clock s + run_took r) = false ->
  Wait s c dep r = (Ok (run_exit r, run_log r, run_trunc r), set_clock s (clock s + run_took r)).
Proof. unfold Wait. intros -> He ->. by rewrite He. Qed.

Lemma claim_running s c d newid dep s1 :
  db_claim s c d newid = (Ok dep, s1) -> dep ∈ rows (table s1) /\ dStatus dep = DeployRunning /\ dStackID dep = dStackID d /\ clock s1 = clock s.
Proof.
  unfold db_claim. destruct (ctx_done _ _); [done|]. destruct (ClaimDeployment _ _ _ _) as [[t r]|] eqn:E; [|done].
  intros [= <- <-]. apply ClaimDeployment_inv in E as [-> E]. apply insert_row_inv in E as (-> & _). split_and!; try done.
  simpl. apply elem_of_app. right. by left.
Qed.

Lemma set_container_running t id ctr d :
  d ∈ rows t -> dID d = id -> dStatus d = DeployRunning ->
  exists d', d' ∈ rows (SetDeploymentContainer t id ctr) /\ dID d' = id /\ dStatus d' = DeployRunning /\ dStackID d' = dStackID d.
Proof.
  intros Hd Hid Hs. eexists. split; [|split; [|split]].
  - apply list_elem_of_fmap. exists d. split; [reflexivity|done].
  - by rewrite bool_decide_eq_true_2.
  - by rewrite bool_decide_eq_true_2.
  - by rewrite bool_decide_eq_true_2.
Qed.

(** A teardown whose runner ends within thirty seconds is recorded. One that
    takes longer, and less than the twenty minutes it is allowed, is not: the
    context its verdict is written under was made before the wait and has
    expired. The row stays running, and every later deploy or teardown of the
    stack is refused as already in progress. *)
Theorem tearDown_verdict (s s1 : Srv) (c : Ctx) (stack : Stack) (volumes : bool) (user newid : string) (pool : gmap string EnvConn)
  (eng : Engine) (node ctr : string) (cmd : list string) (dep : Deployment) (r : Run) :
  EngineFor (stEngine stack) = Ok eng -> runnerNode pool stack = Ok node -> Teardown eng (stName stack) volumes = Ok cmd ->
  db_claim s c (new_deployment (stID stack) (if volumes then ActionDownVolumes else ActionDown) (eng_name eng) TriggerManual user "") newid = (Ok dep, s1) ->
  run_start r = Ok ctr -> run_cancel r = false -> run_error r = None -> (run_took r < deployTimeout)%Z ->
  let s' := (tearDown s c stack volumes user pool true newid r).2 in
  ((run_took r < finishTimeout)%Z -> closed (table s') (dID dep)) /\
  ((finishTimeout <= run_took r)%Z ->
     (exists d, d ∈ rows (table s') /\ dID d = dID dep /\ dStatus d = DeployRunning) /\
     forall d id now, dStackID d = stID stack -> ClaimDeployment (table s') d id now = Err ErrRunInProgress).
Proof.
  intros He Hn Ht Hc Hs Hcancel Herr Htook. cbv zeta. unfold tearDown. rewrite He, Hn. cbn [negb]. rewrite Hc.
  unfold StartTeardown. rewrite Ht, Hs. destruct (claim_running _ _ _ _ _ _ Hc) as (Hin & Hrun & Hsid & Hck). simpl in Hsid.
  destruct (db_write_frame (add_started s1 STeardown) c (fun t => SetDeploymentContainer t (dID dep) ctr)) as (_ & _ & Hc2).
  assert (exists d, d ∈ rows (table (db_write (add_started s1 STeardown) c (fun t => SetDeploymentContainer t (dID dep) ctr))) /\
     dID d = dID dep /\ dStatus d = DeployRunning /\ dStackID d = stID stack) as (d0 & Hd0 & Hid0 & Hr0 & Hs0).
  { unfold db_write. destruct (ctx_done _ _); simpl; [eauto|]. destruct (set_container_running (table s1) (dID dep) ctr dep) as (d' & ? & ? & ? & ?);
      [done..|]. exists d'. split_and!; [assumption|congruence..]. }
  set (s2 := db_write _ _ _) in *. simpl in Hc2.
  rewrite (Wait_quick s2 (DeployContext None (clock s2)) dep r) by (done || (unfold ctx_done, DeployContext, WithTimeout, WithoutCancel; apply Z.leb_gt; lia)).
  cbn [fst snd]. set (s3 := set_clock s2 _). split.
  - intros Hq. apply db_finish_closes. unfold ctx_done, finishContext, WithTimeout, WithoutCancel. apply Z.leb_gt. simpl. lia.
  - intros Hq. unfold db_finish.
    assert (ctx_done (finishContext (DeployContext None (clock s2)) (clock s2)) (clock s3) = true) as ->
      by (unfold ctx_done, finishContext, WithTimeout, WithoutCancel; apply Z.leb_le; simpl; lia).
    simpl. split; [eauto|]. intros d id now Hd. apply ClaimDeployment_spec. exists d0. rewrite Hd. done.
Qed.

(** ** Cancellation, notifications, and the verdicts that bypass the funnel *)

Lemma db_finish_row s c id x l tr d :
  ctx_done c (clock s) = false -> table_ok (table s) -> d ∈ rows (table s) -> dID d = id ->
  let v := verdict (dCancelRequested d) x in
  db_finish s c id x l tr = (Ok v, set_table s (finish_write (table s) id (dCancelRequested d) x l tr (stamp (clock s)))) /\
  finish_row v x l tr (stamp (clock s)) d ∈ rows (finish_write (table s) id (dCancelRequested d) x l tr (stamp (clock s))).
Proof.
  intros Hc Hok Hd Hid. cbv zeta. split.
  - unfold db_finish. rewrite Hc. unfold FinishDeployment. by rewrite (finish_read_ok _ _ d).
  - unfold finish_write. simpl. apply list_elem_of_fmap. exists d. by rewrite bool_decide_eq_true_2.
Qed.

(** A cancelled deployment that reaches the common ending is recorded as
    cancelled, notifies nobody and leaves the live version alone; one whose
    preparation fails after the cancellation is recorded as cancelled too, but
    is announced as a failed deploy. *)
Theorem cancelled_notifications (s : Srv) (c : Ctx) (dep d : Deployment) (stack : Stack) (x : Z) (log reason : string) (tr : bool) :
  table_ok (table s) -> d ∈ rows (table s) -> dID d = dID dep -> dCancelRequested d = true ->
  (let r := finishDeploy s c dep stack x log tr in
   r.1 = DeployCancelled /\ notes r.2 = notes s /\ live r.2 = live s /\ tasks r.2 = tasks s) /\
  (let s' := (failDeployment s c stack dep reason).2 in
   notes s' = notes s ++ [mkNote (dID dep) (stName stack) true] /\
   exists d', d' ∈ rows (table s') /\ dID d' = dID dep /\ dStatus d' = DeployCancelled).
Proof.
  intros Hok Hd Hid Hcan. split; cbv zeta.
  - unfold finishDeploy. destruct (db_finish_row s (finishContext c (clock s)) (dID dep) x log tr d) as [-> _];
      [apply finishContext_live|done..|]. rewrite Hcan. simpl. unfold audit. by destruct (ctx_done _ _).
  - unfold failDeployment.
    destruct (db_finish_row s (finishContext c (clock s)) (dID dep) 1 reason false d) as [-> Hrow]; [apply finishContext_live|done..|].
    rewrite Hcan in *. unfold notifyDeploy, audit.
    change (clock (set_table s _)) with (clock s). rewrite finishContext_live. simpl clock. rewrite finishContext_live. simpl.
    split; [done|]. eexists. split_and!; [exact Hrow|done|done].
Qed.

(** Not every ending goes through the funnel: a runner that outlives the
    twenty minutes, or that the daemon loses, is reaped and its deployment
    recorded as failed, but no notification is sent and no audit entry written. *)
Theorem watch_timeout_is_silent (s : Srv) (dep d : Deployment) (stack : Stack) (w ctr : string) (r : Run) :
  table_ok (table s) -> d ∈ rows (table s) -> dID d = dID dep -> dCancelRequested d = false -> run_cancel r = false ->
  (deployTimeout <= run_took r)%Z \/ is_Some (run_error r) -> dRunnerCtrID dep = ctr -> ctr <> "" ->
  let s' := watchDeployment s dep stack w r in
  notes s' = notes s /\ audits s' = audits s /\ reaped s' = reaped s ++ [ctr] /\
  exists d', d' ∈ rows (table s') /\ dID d' = dID dep /\ dStatus d' = DeployFailed.
Proof.
  intros Hok Hd Hid Hcan Hrc Hbad Hctr Hne. cbv zeta. unfold watchDeployment.
  assert (exists e t, Wait s (DeployContext None (clock s)) dep r = (Err e, set_clock s t)) as (e & t & ->).
  { unfold Wait. rewrite Hrc. destruct (ctx_done _ _) eqn:Ed; [eauto|]. destruct Hbad as [Hbad|[e He]]; [|rewrite He; eauto].
    exfalso. unfold ctx_done, DeployContext, WithTimeout, WithoutCancel in Ed. apply Z.leb_gt in Ed. lia. }
  unfold Reap. rewrite Hctr, bool_decide_eq_false_2 by done.
  set (s1 := add_reaped (set_clock s t) ctr).
  destruct (db_finish_row s1 (finishContext (DeployContext None (clock s)) (clock s1)) (dID dep) 1 ("the runner could not be waited on: " +:+ e) false d)
    as [-> Hrow]; [apply finishContext_live|done..|].
  split_and!; [done..|]. eexists. split_and!; [exact Hrow|done|]. simpl. by rewrite Hcan.
Qed.

(** A cancellation during a best-effort hook is taken for the hook's own
    failure: the pipeline goes on, the engine is started and applies the new
    version, and the deployment ends as cancelled without that version being
    recorded as live. *)
Theorem cancel_in_best_effort_hook (s : Srv) (dep d : Deployment) (stack : Stack) (eng : Engine) (action : Action) (plan : HookPlan)
  (hook : Hook) (timeout : Z) (rb : bool) (w ctr ctr' : string) (i : HookedIn) :
  let hooks := mkHooks [hook] [] rb timeout in let hr := hi_hook i (h_service hook) in let er := hi_engine i in
  table_ok (table s) -> d ∈ rows (table s) -> dID d = dID dep -> dStatus d = DeployRunning ->
  Provision plan = None -> Supports eng action = true ->
  Blocking hook = false -> run_start hr = Ok ctr -> run_cancel hr = true -> run_error hr = None -> run_exit hr <> 0%Z ->
  (0 <= run_took hr < timeout)%Z -> run_start er = Ok ctr' -> run_cancel er = false -> run_error er = None -> run_exit er = 0%Z ->
  (0 <= run_took er)%Z -> (run_took hr + run_took er < deployTimeout)%Z ->
  let s' := runHookedDeployment s dep stack eng action plan hooks w i in
  started s' = started s ++ [SHook (h_service hook); SEngine action] /\ live s' = live s /\
  exists d', d' ∈ rows (table s') /\ dID d' = dID dep /\ dStatus d' = DeployCancelled.
Proof.
  cbv zeta. intros Hok Hd Hid Hrun Hprov Hsup Hbl Hhs Hhc Hhe Hhx Hht Hes Hec Hee Hex Het Hsum.
  unfold runHookedDeployment, provision_phase. rewrite Hprov. set (log := if _ && _ then _ else _). clearbody log.
  cbn [hook_loop PreDeploy PostDeploy RollbackOnFailure HookTimeout]. unfold runHookPhase. cbn [HookTimeout]. rewrite Hhs.
  set (s1 := db_write (add_started s (SHook (h_service hook))) (DeployContext None (clock s)) (fun t => SetDeploymentContainer t (dID dep) ctr)).
  assert (s1 = set_table (add_started s (SHook (h_service hook))) (SetDeploymentContainer (table s) (dID dep) ctr)) as E1.
  { unfold s1, db_write, ctx_done, DeployContext, WithTimeout, WithoutCancel. simpl.
    rewrite (proj2 (Z.leb_gt _ _)) by (unfold deployTimeout, Minute; lia). done. }
  set (s2 := set_table s1 (RequestCancel (table s1) (dID dep)).1).
  assert (Wait s1 (WithTimeout (DeployContext None (clock s)) timeout (clock s)) (with_ctr dep ctr)
      (hi_hook i (h_service hook)) = (Ok (run_exit (hi_hook i (h_service hook)), run_log (hi_hook i (h_service hook)), run_trunc (hi_hook i (h_service hook))),
         set_clock s2 (clock s + run_took (hi_hook i (h_service hook))))) as ->.
  { unfold Wait. rewrite Hhc, Hhe. change (dID (with_ctr dep ctr)) with (dID dep). fold s2.
    assert (clock s2 = clock s) as -> by (unfold s2; rewrite E1; done).
    assert (ctx_done (WithTimeout (DeployContext None (clock s)) timeout (clock s)) (clock s + run_took (hi_hook i (h_service hook))) = false) as ->; [|done].
    unfold ctx_done, DeployContext, WithTimeout, WithoutCancel. apply Z.leb_gt. lia. }
  rewrite (proj2 (Z.eqb_neq _ 0)) by done. cbn [negb]. rewrite Hbl. cbn [negb hook_loop].
  unfold engine_phase, Start. rewrite Hsup. cbn [negb]. rewrite Hes.
  set (s3 := set_clock s2 _). set (dep1 := with_ctr dep ctr).
  set (s4 := db_write (add_started s3 (SEngine action)) _ _).
  assert (s4 = set_table (add_started s3 (SEngine action)) (SetDeploymentContainer (table s3) (dID dep) ctr')) as E4.
  { unfold s4, db_write, ctx_done, DeployContext, WithTimeout, WithoutCancel. simpl.
    rewrite (proj2 (Z.leb_gt _ _)) by lia. done. }
  rewrite (Wait_quick s4); [|done|done|rewrite E4; unfold ctx_done, DeployContext, WithTimeout, WithoutCancel; apply Z.leb_gt; simpl; lia].
  rewrite Hex. cbn [negb Z.eqb]. unfold post_phase. cbn [PostDeploy hook_loop fst snd].
  set (s5 := set_clock s4 _). set (dep2 := with_ctr dep1 ctr').
  assert (table_ok (table s5)) as Hok5.
  { unfold s5. rewrite E4. cbn [table set_clock set_table]. apply update_row_ok; try done.
    unfold s3, s2. cbn [table set_clock set_table]. apply RequestCancel_ok. rewrite E1. cbn [table set_table]. by apply update_row_ok. }
  assert (exists d5, d5 ∈ rows (table s5) /\ dID d5 = dID dep2 /\ dCancelRequested d5 = true) as (d5 & Hd5 & Hid5 & Hc5).
  { exists (with_ctr (cancel_row (with_ctr d ctr)) ctr'). split_and!; [|exact Hid|done].
    unfold s5. rewrite E4. cbn [table set_clock set_table]. unfold SetDeploymentContainer, update_row. cbn [rows].
    apply list_elem_of_fmap. exists (cancel_row (with_ctr d ctr)). split; [by rewrite bool_decide_eq_true_2|].
    unfold s3, s2. cbn [table set_clock set_table]. unfold RequestCancel. cbn [fst rows].
    apply list_elem_of_fmap. exists (with_ctr d ctr). unfold is_running. split; [by rewrite !bool_decide_eq_true_2|].
    rewrite E1. cbn [table set_table rows]. unfold SetDeploymentContainer, update_row. cbn [rows].
    apply list_elem_of_fmap. exists d. split; [by rewrite bool_decide_eq_true_2|done]. }
  match goal with |- context [finishDeploy s5 ?c dep2 stack 0 ?l false] => set (c5 := c); set (l5 := l) end.
  pose proof (finishDeploy_spec s5 c5 dep2 stack 0 l5 false) as (Hst & _ & _ & Hlive & _).
  pose proof (finishDeploy_table s5 c5 dep2 stack 0 l5 false) as Htab.
  destruct (db_finish_row s5 (finishContext c5 (clock s5)) (dID dep2) 0 l5 false d5) as [Hfin Hrow]; [apply finishContext_live|done..|].
  assert ((finishDeploy s5 c5 dep2 stack 0 l5 false).1 = DeployCancelled) as Hverd.
  { unfold finishDeploy. rewrite Hfin, Hc5. done. }
  split_and!.
  - rewrite Hst. unfold s5. rewrite E4. unfold s3, s2. rewrite E1. simpl. by rewrite <- app_assoc.
  - destruct Hlive as [->|(Hv & _)]; [|by rewrite Hverd in Hv]. unfold s5. rewrite E4. unfold s3, s2. by rewrite E1.
  - rewrite Htab, Hfin. eexists. split_and!; [exact Hrow|exact Hid5|]. simpl. by rewrite Hc5.
Qed.

(** When a blocking post-deploy hook is what exhausts the twenty minutes of
    the deploy, the verdict is recorded, under a context of its own, but the
    automatic rollback runs under the expired one: although it was asked for,
    no rollback deployment is created. *)
Theorem rollback_lost_at_the_deadline (s : Srv) (dep : Deployment) (stack : Stack) (eng : Engine) (action : Action) (plan : HookPlan)
  (hook : Hook) (timeout : Z) (w ctr ctr' : string) (i : HookedIn) :
  let hooks := mkHooks [] [hook] true timeout in let hr := hi_hook i (h_service hook) in let er := hi_engine i in
  Provision plan = None -> Supports eng action = true -> Blocking hook = true ->
  run_start er = Ok ctr' -> run_cancel er = false -> run_error er = None -> run_exit er = 0%Z ->
  (0 <= run_took er < deployTimeout)%Z -> run_start hr = Ok ctr -> run_cancel hr = false ->
  (deployTimeout <= run_took er + run_took hr)%Z -> (deployTimeout <= run_took er + timeout)%Z ->
  let s' := runHookedDeployment s dep stack eng action plan hooks w i in
  ids s' = ids s /\ tasks s' = tasks s /\ started s' = started s ++ [SEngine action; SHook (h_service hook)] /\ closed (table s') (dID dep).
Proof.
  cbv zeta. intros Hprov Hsup Hbl Hes Hec Hee Hex Het Hhs Hhc Hlong Hto.
  unfold runHookedDeployment, provision_phase. rewrite Hprov. set (log := if _ && _ then _ else _). clearbody log.
  cbn [hook_loop PreDeploy]. unfold engine_phase, Start. rewrite Hsup. cbn [negb]. rewrite Hes.
  set (c := DeployContext None (clock s)).
  destruct (db_write_frame (add_started s (SEngine action)) c (fun t => SetDeploymentContainer t (dID dep) ctr')) as (Hf1 & Hs1 & Hc1).
  pose proof (db_write_ids (add_started s (SEngine action)) c (dID dep) ctr') as Hi1. set (s1 := db_write _ _ _) in *. simpl in Hc1, Hs1.
  rewrite (Wait_quick s1); [|done|done|unfold ctx_done, c, DeployContext, WithTimeout, WithoutCancel; apply Z.leb_gt; lia].
  rewrite Hex. cbn [negb Z.eqb]. unfold post_phase. cbn [PostDeploy hook_loop RollbackOnFailure]. unfold runHookPhase. cbn [HookTimeout].
  rewrite Hhs. set (s2 := set_clock s1 _). set (dep1 := with_ctr dep ctr').
  destruct (db_write_frame (add_started s2 (SHook (h_service hook))) c (fun t => SetDeploymentContainer t (dID dep1) ctr)) as (Hf3 & Hs3 & Hc3).
  pose proof (db_write_ids (add_started s2 (SHook (h_service hook))) c (dID dep1) ctr) as Hi3. set (s3 := db_write (add_started s2 _) _ _) in *.
  simpl in Hc3, Hs3.
  set (dep2 := with_ctr dep1 ctr).
  assert (Wait s3 (WithTimeout c timeout (clock s2)) dep2 (hi_hook i (h_service hook)) =
     (Err "context deadline exceeded", set_clock s3 (Z.max (clock s3) (clock s + deployTimeout)))) as Hw.
  { unfold Wait. rewrite Hhc, Hc3.
    unfold ctx_done, c, DeployContext, WithTimeout, WithoutCancel. rewrite (proj2 (Z.leb_le _ _)) by (simpl; lia). simpl. f_equal. f_equal. lia. }
  cbn [clock add_started] in *. rewrite Hw. cbn [negb]. rewrite Hbl. cbn [negb].
  set (s4 := add_reaped _ _). match goal with |- context [finishDeploy s4 c dep2 stack 1 ?l false] => set (l4 := l) end.
  pose proof (finishDeploy_spec s4 c dep2 stack 1 l4 false) as (Hst & Hids & Hclk & _ & (ts & Hts & Hts2) & Hok).
  pose proof (finishDeploy_closes s4 c dep2 stack 1 l4 false) as Hcl.
  assert (tasks (finishDeploy s4 c dep2 stack 1 l4 false).2 = tasks s4) as Htasks.
  { unfold finishDeploy in *. destruct (db_finish_frame s4 (finishContext c (clock s4)) (dID dep2) 1 l4 false) as ((_ & _ & _ & Ht4) & _).
    destruct (db_finish _ _ _ _ _ _) as [[st|e] s5]; simpl in *; [|done].
    rewrite (bool_decide_eq_false_2 (st = DeployOK)) by (intros E; by specialize (Hok E)). simpl.
    unfold audit, notifyDeploy. by repeat first [case_bool_decide | destruct (ctx_done _ _)]. }
  destruct (finishDeploy s4 c dep2 stack 1 l4 false) as [status s5]. simpl in *.
  assert (autoRollback s5 c stack dep2 (hi_rollback i) = s5) as Hno.
  { unfold autoRollback, lastGoodDeployment.
    assert (ctx_done c (clock s5) = true) as ->; [|done].
    rewrite Hclk. unfold ctx_done, c, DeployContext, WithTimeout, WithoutCancel. apply Z.leb_le. simpl. lia. }
  destruct Hf1 as (_ & _ & _ & Ht1), Hf3 as (_ & _ & _ & Ht3). simpl in Ht1, Ht3.
  assert (ids s5 = ids s /\ tasks s5 = tasks s /\ started s5 = started s ++ [SEngine action; SHook (h_service hook)] /\ closed (table s5) (dID dep)) as Hgoal.
  { split_and!; [..|exact Hcl].
    - rewrite Hids. change (ids s4) with (ids s3). rewrite Hi3. exact Hi1.
    - rewrite Htasks. simpl. by rewrite Ht3.
    - rewrite Hst. simpl. rewrite Hs3, Hs1. by rewrite <- app_assoc. }
  destruct (_ && true); [by rewrite Hno|exact Hgoal].
Qed.

(** The post-deploy check of a swarm stack overwrites the verdict of a
    deployment that was recorded as successful: the row becomes failed, the log
    of the deploy is replaced by one line, and a failure is announced, while
    the version it judged stays recorded as the stack's live one. *)
Theorem reconfirm_overwrites (s : Srv) (dep d : Deployment) (latest : Stack) (st : Status) (svc : ServiceStatus) :
  table_ok (table s) -> d ∈ rows (table s) -> dID d = dID dep -> dStatus d = DeployOK -> dCancelRequested d = false ->
  failed_service (st_services st) = Some svc ->
  let s' := reconfirmPostDeploy s dep (Some (latest, st)) in
  live s' = live s /\ notes s' = notes s ++ [mkNote (dID dep) (stName latest) true] /\
  exists d', d' ∈ rows (table s') /\ dID d' = dID dep /\ dStatus d' = DeployFailed /\ dExitCode d' = Some 1%Z /\
    dLog d' = "post-deploy check: service " +:+ quote (ss_name svc) +:+ " in state " +:+ quote (ss_state svc) +:+
              " 35 seconds after deploy — the container exited immediately".
Proof.
  intros Hok Hd Hid _ Hcan Hf. cbv zeta. unfold reconfirmPostDeploy. rewrite Hf. set (s1 := set_clock s _).
  match goal with |- context [db_finish s1 _ _ _ ?m _] => set (msg := m) end.
  destruct (db_finish_row s1 (finishContext None (clock s1)) (dID dep) 1 msg false d) as [-> Hrow]; [apply finishContext_live|done..|].
  rewrite Hcan in *. unfold notifyDeploy. change (clock (set_table s1 _)) with (clock s1). rewrite finishContext_live. simpl.
  split_and!; [done|done|]. eexists. split_and!; [exact Hrow|exact Hid|done|done|done].
Qed.
End Flow.

(** ** The theorems at a concrete stack *)

Definition demo_stamp : Z -> string := fun _ => "2024-01-02T03:04:05Z".
Definition demo_show : Z -> string := fun _ => "n".
Definition demo_quote : string -> string := fun s => s.

Definition web : Stack := mkStack "web" "web" "compose" "prod" "" "".
Definition web_swarm : Stack := mkStack "web" "web" "swarm" "prod" "" "".
Definition prod_pool : gmap string EnvConn := {[ "prod" := mkConn false ∅ (Some "node-1") ]}.
Definition quick (exit : Z) : Run := mkRun (Ok "ctr") (5 * Second) exit "done" false None false.
Definition slow (took : Z) : Run := mkRun (Ok "ctr") took 0 "done" false None false.
Definition demo_plan (hooks : option Hooks) : HookPlan := mkPlan hooks "services: {}" "" None.
Definition demo_in (newid : string) (hooks : option Hooks) : DeployIn :=
  mkDeployIn newid prod_pool (fun _ => Ok (mkResolved "h1" "c1" "subject" "yaml" (demo_plan hooks))) (Ok tt) "" (quick 0).
Definition demo_hooked (hook : Run) (engine : Run) : HookedIn := mkHookedIn (mkProvIn ∅ ∅ (fun _ => None)) (fun _ => hook) engine (demo_in "rb" None).

Definition srv_of (t : Table) : Srv := mkSrv 0 t ∅ [] [] [] [] [].
Definition d1 : Deployment := claim_row (request "web" "up" "") "d1" "2024-01-02T03:04:05Z".

Lemma d1_busy : d1 ∈ rows busy.
Proof. vm_compute. by left. Qed.

Lemma every_deploy_ends_witness :
  exists dep s' t, deploy demo_stamp (srv_of idle) None web ActionUp "manual" "ann" None (demo_in "d9" None) = (Ok dep, s') /\
    tasks s' = [t] /\
    closed (table (run_task demo_stamp demo_show demo_quote demo_show s' t (demo_hooked (quick 0) (quick 3)) None)) "d9".
Proof.
  destruct (deploy demo_stamp (srv_of idle) None web ActionUp "manual" "ann" None (demo_in "d9" None)) as [[dep|e] s'] eqn:E;
    [|vm_compute in E; discriminate].
  destruct (every_deploy_ends demo_stamp demo_show demo_quote demo_show _ s' None web ActionUp "manual" "ann" None (demo_in "d9" None) (Ok dep) E)
    as (_ & t & Ht & Hc).
  exists dep, s', t. split; [reflexivity|]. split; [exact Ht|]. apply Hc. vm_compute. discriminate.
Defined.

Definition roll : Hooks := mkHooks [] [mkHook "smoke" 0 "fail"] true (10 * Minute).

Lemma rollback_never_rolls_back_witness :
  exists dep s' t, deploy demo_stamp (srv_of idle) None web ActionUp TriggerRollback "" (Some d1) (demo_in "d9" (Some roll)) = (Ok dep, s') /\
    tasks s' = [t] /\ ending t = true /\
    map dID (rows (table (run_task demo_stamp demo_show demo_quote demo_show s' t (demo_hooked (quick 1) (quick 0)) None))) = ["d9"].
Proof.
  pose (r := deploy demo_stamp (srv_of idle) None web ActionUp TriggerRollback "" (Some d1) (demo_in "d9" (Some roll))).
  assert (match r.1 with Ok _ => true | Err _ => false end = true) as Hr by (vm_compute; reflexivity).
  assert (map ending (tasks r.2) = [true]) as He by (vm_compute; reflexivity).
  assert (map dID (rows (table r.2)) = ["d9"]) as Hids by (vm_compute; reflexivity).
  destruct r as [[dep|e] s'] eqn:E; [|discriminate].
  simpl in He, Hids. destruct (tasks s') as [|t [|t2 ts]] eqn:Et; [discriminate| |discriminate]. injection He as He.
  exists dep, s', t. split; [exact E|]. split; [exact Et|]. split; [exact He|].
  destruct (rollback_never_rolls_back demo_stamp demo_show demo_quote demo_show _ s' s' None web ActionUp TriggerRollback "" d1 dep
    (demo_in "d9" (Some roll)) t (demo_hooked (quick 1) (quick 0)) None E Et) as (Hrows & _).
  rewrite Hrows. exact Hids.
Defined.

Lemma tearDown_verdict_witness :
  ClaimDeployment (table (tearDown demo_stamp (srv_of idle) None web false "ann" prod_pool true "d9" (slow (45 * Second))).2)
    (request "web" "up" "") "d10" "2024-01-03T03:04:05Z" = Err ErrRunInProgress.
Proof.
  destruct (db_claim demo_stamp (srv_of idle) None (new_deployment "web" ActionDown "compose" TriggerManual "ann" "") "d9") as [[dep|e] s1] eqn:E;
    [|vm_compute in E; discriminate].
  apply (tearDown_verdict demo_stamp (srv_of idle) s1 None web false "ann" "d9" prod_pool ComposeEngine "node-1" "ctr"
    ["docker"; "compose"; "-p"; "web"; "down"; "--remove-orphans"] dep (slow (45 * Second)));
    [reflexivity | vm_compute; reflexivity | reflexivity | exact E | reflexivity | reflexivity | reflexivity | reflexivity | vm_compute; discriminate | reflexivity].
Defined.

Lemma cancelled_notifications_witness :
  let t := (RequestCancel busy "d1").1 in
  (finishDeploy demo_stamp (srv_of t) None d1 web 137 "killed" false).1 = DeployCancelled /\
  notes (failDeployment demo_stamp (srv_of t) None web d1 "no such repo").2 = [mkNote "d1" "web" true].
Proof.
  cbv zeta.
  destruct (cancelled_notifications demo_stamp (srv_of (RequestCancel busy "d1").1) None d1 (cancel_row d1) web 137 "killed" "no such repo" false)
    as ((H1 & _) & H2 & _);
    [apply RequestCancel_ok, busy_ok | vm_compute; by left | reflexivity | reflexivity | split; [exact H1 | exact H2]].
Defined.

Lemma watch_timeout_is_silent_witness :
  notes (watchDeployment demo_stamp (srv_of busy) (with_ctr d1 "ctr") web "" (slow (21 * Minute))) = [].
Proof.
  apply (watch_timeout_is_silent demo_stamp (srv_of busy) (with_ctr d1 "ctr") d1 web "" "ctr" (slow (21 * Minute)));
    [exact busy_ok | exact d1_busy | reflexivity | reflexivity | reflexivity | left; vm_compute; discriminate | reflexivity | discriminate].
Defined.

Definition killed : Run := mkRun (Ok "hook") (5 * Second) 137 "killed" false None true.

Lemma cancel_in_best_effort_hook_witness :
  let s' := runHookedDeployment demo_stamp demo_show demo_quote demo_show (srv_of busy) d1 web ComposeEngine ActionUp (demo_plan None)
              (mkHooks [mkHook "warm" 0 "continue"] [] false (10 * Minute)) "" (demo_hooked killed (quick 0)) in
  started s' = [SHook "warm"; SEngine ActionUp] /\ live s' = ∅ /\
  exists d', d' ∈ rows (table s') /\ dID d' = "d1" /\ dStatus d' = DeployCancelled.
Proof.
  cbv zeta.
  apply (cancel_in_best_effort_hook demo_stamp demo_show demo_quote demo_show (srv_of busy) d1 d1 web ComposeEngine ActionUp (demo_plan None)
    (mkHook "warm" 0 "continue") (10 * Minute) false "" "hook" "ctr" (demo_hooked killed (quick 0)));
    first [exact busy_ok | exact d1_busy | reflexivity | discriminate | split; vm_compute; congruence | vm_compute; congruence].
Defined.

Lemma rollback_lost_at_the_deadline_witness :
  let s' := runHookedDeployment demo_stamp demo_show demo_quote demo_show (srv_of busy) d1 web ComposeEngine ActionUp (demo_plan (Some roll))
              roll "" (demo_hooked (slow (9 * Minute)) (slow (15 * Minute))) in
  ids s' = ["d1"] /\ closed (table s') "d1".
Proof.
  cbv zeta.
  destruct (rollback_lost_at_the_deadline demo_stamp demo_show demo_quote demo_show (srv_of busy) d1 web ComposeEngine ActionUp (demo_plan (Some roll))
    (mkHook "smoke" 0 "fail") (10 * Minute) "" "ctr" "ctr" (demo_hooked (slow (9 * Minute)) (slow (15 * Minute)))) as (H1 & _ & _ & H2);
    first [reflexivity | split; vm_compute; congruence | vm_compute; congruence | split; [exact H1 | exact H2]].
Defined.

Lemma reconfirm_overwrites_witness :
  let t := apply_dop busy (OFinish "d1" 0 "deployed" false "t9") in
  let st := mkStatus "partial" [mkSvcStatus "app" "app:1" "app:1" "partial" "" "c1"] false in
  exists d', d' ∈ rows (table (reconfirmPostDeploy demo_stamp demo_quote (srv_of t) d1 (Some (web_swarm, st)))) /\
    dStatus d' = DeployFailed.
Proof.
  cbv zeta.
  destruct (reconfirm_overwrites demo_stamp demo_quote (srv_of (apply_dop busy (OFinish "d1" 0 "deployed" false "t9"))) d1
    (finish_row DeployOK 0 "deployed" false "t9" d1) web_swarm
    (mkStatus "partial" [mkSvcStatus "app" "app:1" "app:1" "partial" "" "c1"] false) (mkSvcStatus "app" "app:1" "app:1" "partial" "" "c1"))
    as (_ & _ & d' & H1 & _ & H2 & _);
    [apply apply_dop_ok, busy_ok | vm_compute; by left | reflexivity | reflexivity | reflexivity | reflexivity |].
  exists d'. split; [exact H1 | exact H2].
Defined.
