(* ===== verification/ProvStore.v ===== *)
(** * The tables a provisioning document is applied to

    Models [internal/store/sshkeys.go], [gitcreds.go], [webhooks.go],
    [secretvalues.go], [manifests.go], the registries, stacks, variables and secret
    files of [stacks.go], environments by name and the audit log of [models.go].
    Certificates, keyrings and volume sources are the tables of [Certs], [Keyrings],
    [VolSources]. *)
From S2P Require Import Prelude GoStd Timestamps Sans Keyrings Certs VolSources.
Local Open Scope string_scope.
Local Open Scope list_scope.
Local Open Scope daffa_scope.
Local Open Scope Z_scope.

(** ** Rows *)

Record SSHKeyRow := mkKey { hk_id : string; hk_name : string; hk_algo : string; hk_pub : string; hk_fp : string; hk_priv : string; hk_pass : string; hk_created : Z; hk_by : string }.
Record RegistryRow := mkReg { ry_id : string; ry_name : string; ry_url : string; ry_user : string; ry_pass : string; ry_created : Z }.
Record GitCredRow := mkCred { gr_id : string; gr_name : string; gr_kind : string; gr_user : string; gr_token : string; gr_sshkey : string; gr_hostkey : string; gr_created : Z; gr_by : string }.
Record SecretValue := mkSecret { sv_id : string; sv_name : string; sv_enc : string; sv_format : string; sv_length : Z; sv_created : Z; sv_by : string }.
(** [env_id] "" is NULL: the whole fleet. *)
Record WebhookRow := mkHook { wr_id : string; wr_name : string; wr_env : string; wr_secret : string; wr_lastat : option Z; wr_last : string; wr_created : Z; wr_by : string }.
Record StackRow := mkStack {
  sx_id : string; sx_env : string; sx_node : string; sx_name : string; sx_engine : string; sx_group : string; sx_kind : string; sx_url : string; sx_ref : string; sx_path : string; sx_cred : string;
  sx_inline : string; sx_hash : string; sx_commit : string; sx_at : option Z; sx_auto : bool; sx_webhook : string; sx_watch : string; sx_created : Z; sx_by : string }.
Record StackEnvRow := mkVar { se_key : string; se_enc : string; se_secret : bool }.
Record StackSecretRow := mkSecretFile { sc_name : string; sc_enc : string }.
Record EnvRow := mkEnv { en_id : string; en_name : string }.
Record NodeRow := mkNode { nd_id : string; nd_env : string; nd_key : string }.
(** A network as the daemon of a cluster keeps it. *)
Record NetRow := mkNet { nr_env : string; nr_id : string; nr_name : string; nr_driver : string; nr_attach : bool }.
Record AuditEntry := mkAudit { au_id : string; au_at : Z; au_user : string; au_label : string; au_env : string; au_action : string; au_target : string; au_outcome : string; au_detail : string }.
Record ApplyRow (Report : Type) := mkApply { ma_id : string; ma_name : string; ma_hash : string; ma_doc : string; ma_report : Report; ma_by : string; ma_at : Z; ma_dry : bool }.
Arguments mkApply {Report}. Arguments ma_id {Report}. Arguments ma_name {Report}. Arguments ma_hash {Report}. Arguments ma_doc {Report}. Arguments ma_report {Report}.
Arguments ma_by {Report}. Arguments ma_at {Report}. Arguments ma_dry {Report}.

Record PDB := mkPDB {
  p_hosts : list EnvRow; p_nodes : list NodeRow; p_keys : list SSHKeyRow; p_regs : list RegistryRow; p_creds : list GitCredRow; p_gens : list SecretValue; p_hooks : list WebhookRow;
  p_stacks : list StackRow; p_vars : gmap string (list StackEnvRow); p_files : gmap string (list StackSecretRow); p_nets : list NetRow;
  p_pki : CDB; p_rings : KDB; p_src : SDB; p_audit : list AuditEntry }.
Definition set_keys (db : PDB) (l : list SSHKeyRow) : PDB :=
  mkPDB (p_hosts db) (p_nodes db) l (p_regs db) (p_creds db) (p_gens db) (p_hooks db) (p_stacks db) (p_vars db) (p_files db) (p_nets db) (p_pki db) (p_rings db) (p_src db) (p_audit db).
Definition set_regs (db : PDB) (l : list RegistryRow) : PDB :=
  mkPDB (p_hosts db) (p_nodes db) (p_keys db) l (p_creds db) (p_gens db) (p_hooks db) (p_stacks db) (p_vars db) (p_files db) (p_nets db) (p_pki db) (p_rings db) (p_src db) (p_audit db).
Definition set_creds (db : PDB) (l : list GitCredRow) : PDB :=
  mkPDB (p_hosts db) (p_nodes db) (p_keys db) (p_regs db) l (p_gens db) (p_hooks db) (p_stacks db) (p_vars db) (p_files db) (p_nets db) (p_pki db) (p_rings db) (p_src db) (p_audit db).
Definition set_gens (db : PDB) (l : list SecretValue) : PDB :=
  mkPDB (p_hosts db) (p_nodes db) (p_keys db) (p_regs db) (p_creds db) l (p_hooks db) (p_stacks db) (p_vars db) (p_files db) (p_nets db) (p_pki db) (p_rings db) (p_src db) (p_audit db).
Definition set_hooks (db : PDB) (l : list WebhookRow) : PDB :=
  mkPDB (p_hosts db) (p_nodes db) (p_keys db) (p_regs db) (p_creds db) (p_gens db) l (p_stacks db) (p_vars db) (p_files db) (p_nets db) (p_pki db) (p_rings db) (p_src db) (p_audit db).
Definition set_stacks (db : PDB) (l : list StackRow) : PDB :=
  mkPDB (p_hosts db) (p_nodes db) (p_keys db) (p_regs db) (p_creds db) (p_gens db) (p_hooks db) l (p_vars db) (p_files db) (p_nets db) (p_pki db) (p_rings db) (p_src db) (p_audit db).
Definition set_vars (db : PDB) (m : gmap string (list StackEnvRow)) : PDB :=
  mkPDB (p_hosts db) (p_nodes db) (p_keys db) (p_regs db) (p_creds db) (p_gens db) (p_hooks db) (p_stacks db) m (p_files db) (p_nets db) (p_pki db) (p_rings db) (p_src db) (p_audit db).
Definition set_files (db : PDB) (m : gmap string (list StackSecretRow)) : PDB :=
  mkPDB (p_hosts db) (p_nodes db) (p_keys db) (p_regs db) (p_creds db) (p_gens db) (p_hooks db) (p_stacks db) (p_vars db) m (p_nets db) (p_pki db) (p_rings db) (p_src db) (p_audit db).
Definition set_nets (db : PDB) (l : list NetRow) : PDB :=
  mkPDB (p_hosts db) (p_nodes db) (p_keys db) (p_regs db) (p_creds db) (p_gens db) (p_hooks db) (p_stacks db) (p_vars db) (p_files db) l (p_pki db) (p_rings db) (p_src db) (p_audit db).
Definition set_pki (db : PDB) (c : CDB) : PDB :=
  mkPDB (p_hosts db) (p_nodes db) (p_keys db) (p_regs db) (p_creds db) (p_gens db) (p_hooks db) (p_stacks db) (p_vars db) (p_files db) (p_nets db) c (p_rings db) (p_src db) (p_audit db).
Definition set_kdb (db : PDB) (k : KDB) : PDB :=
  mkPDB (p_hosts db) (p_nodes db) (p_keys db) (p_regs db) (p_creds db) (p_gens db) (p_hooks db) (p_stacks db) (p_vars db) (p_files db) (p_nets db) (p_pki db) k (p_src db) (p_audit db).
Definition set_src (db : PDB) (s : SDB) : PDB :=
  mkPDB (p_hosts db) (p_nodes db) (p_keys db) (p_regs db) (p_creds db) (p_gens db) (p_hooks db) (p_stacks db) (p_vars db) (p_files db) (p_nets db) (p_pki db) (p_rings db) s (p_audit db).
Definition set_audit (db : PDB) (l : list AuditEntry) : PDB :=
  mkPDB (p_hosts db) (p_nodes db) (p_keys db) (p_regs db) (p_creds db) (p_gens db) (p_hooks db) (p_stacks db) (p_vars db) (p_files db) (p_nets db) (p_pki db) (p_rings db) (p_src db) l.

(** Lookup by a unique column, and an insert under a primary key and a unique
    column. *)
Definition taken {A} (f g : A -> string) (x : A) (l : list A) : bool := existsb (fun y => bool_decide (f y = f x) || bool_decide (g y = g x)) l.
Definition add_row {A} (f g : A -> string) (x : A) (l : list A) : res KErr (list A) := if taken f g x l then Err ErrDuplicate else Ok (l ++ [x]).
Definition drop_id {A} (f : A -> string) (id : string) (l : list A) : list A := List.filter (fun x => negb (bool_decide (f x = id))) l.
Definition by_name {A} (f : A -> string) (l : list A) : list A := ssort (fun a b => String.ltb (f a) (f b)) l.

(** ** Environments *)

Definition EnvironmentByName (db : PDB) (name : string) : res KErr EnvRow := by_id en_name name (p_hosts db).
Definition EnvironmentByID (db : PDB) (id : string) : res KErr EnvRow := by_id en_id id (p_hosts db).
(** [envName]: the name, or the id of an environment that is gone. *)
Definition envName (db : PDB) (id : string) : string := match EnvironmentByID db id with Ok e => en_name e | Err _ => id end.
Definition env_known (db : PDB) (env : string) : bool := existsb (fun e => bool_decide (en_id e = env)) (p_hosts db).

(** ** SSH keys *)

Definition CreateSSHKey (db : PDB) (k : SSHKeyRow) : res KErr PDB := let* l := add_row hk_id hk_name k (p_keys db) in Ok (set_keys db l).
Definition SSHKeyByID (db : PDB) (id : string) : res KErr SSHKeyRow := by_id hk_id id (p_keys db).
Definition SSHKeyByName (db : PDB) (name : string) : res KErr SSHKeyRow := by_id hk_name name (p_keys db).
Definition ListSSHKeys (db : PDB) : list SSHKeyRow := by_name hk_name (p_keys db).
Definition SSHKeyInUse (db : PDB) (id : string) : nat :=
  (count (fun n => bool_decide (nd_key n = id)) (p_nodes db) + count (fun c => bool_decide (gr_sshkey c = id)) (p_creds db))%nat.
Definition DeleteSSHKey (db : PDB) (id : string) : PDB := set_keys db (drop_id hk_id id (p_keys db)).

(** ** Registries *)

Definition CreateRegistry (db : PDB) (r : RegistryRow) : res KErr PDB := let* l := add_row ry_id ry_name r (p_regs db) in Ok (set_regs db l).
Definition ListRegistries (db : PDB) : list RegistryRow := by_name ry_name (p_regs db).
Definition RegistryByID (db : PDB) (id : string) : res KErr RegistryRow := by_id ry_id id (p_regs db).
Definition RegistryByName (db : PDB) (name : string) : res KErr RegistryRow := by_id ry_name name (p_regs db).
Definition DeleteRegistry (db : PDB) (id : string) : PDB := set_regs db (drop_id ry_id id (p_regs db)).

(** ** Git credentials *)

Definition GitToken : string := "token".
Definition GitSSH : string := "ssh".
Definition CreateGitCredential (db : PDB) (c : GitCredRow) : res KErr PDB := let* l := add_row gr_id gr_name c (p_creds db) in Ok (set_creds db l).
Definition GitCredentialByID (db : PDB) (id : string) : res KErr GitCredRow := by_id gr_id id (p_creds db).
Definition GitCredentialByName (db : PDB) (name : string) : res KErr GitCredRow := by_id gr_name name (p_creds db).
Definition ListGitCredentials (db : PDB) : list GitCredRow := by_name gr_name (p_creds db).
Definition GitCredentialInUse (db : PDB) (id : string) : nat :=
  (count (fun s => bool_decide (sx_cred s = id)) (p_stacks db) + count (fun v => bool_decide (vs_cred v = id)) (sources (p_src db)))%nat.
(** Stacks and volume sources refer to it: the foreign keys refuse. *)
Definition DeleteGitCredential (db : PDB) (id : string) : res KErr PDB :=
  if existsb (fun c => bool_decide (gr_id c = id)) (p_creds db) && (0 <? GitCredentialInUse db id)%nat then Err ErrForeignKey
  else Ok (set_creds db (drop_id gr_id id (p_creds db))).

(** ** Generated secrets *)

Definition CreateSecretValue (db : PDB) (v : SecretValue) : res KErr PDB := let* l := add_row sv_id sv_name v (p_gens db) in Ok (set_gens db l).
Definition SecretValueByName (db : PDB) (name : string) : res KErr SecretValue := by_id sv_name name (p_gens db).

(** ** Webhooks *)

(** The insert leaves the last delivery empty. *)
Definition CreateWebhook (db : PDB) (w : WebhookRow) : res KErr PDB :=
  if negb (null_or (wr_env w) (env_known db (wr_env w))) then Err ErrForeignKey
  else let* l := add_row wr_id wr_name (mkHook (wr_id w) (wr_name w) (wr_env w) (wr_secret w) None "" (wr_created w) (wr_by w)) (p_hooks db) in Ok (set_hooks db l).
Definition WebhookByID (db : PDB) (id : string) : res KErr WebhookRow := by_id wr_id id (p_hooks db).
Definition WebhookByName (db : PDB) (name : string) : res KErr WebhookRow := by_id wr_name name (p_hooks db).
Definition ListWebhooks (db : PDB) (global : bool) (envs : list string) : list WebhookRow :=
  by_name wr_name (List.filter (fun w => global || bool_decide (wr_env w = "") || bool_decide (wr_env w ∈ envs)) (p_hooks db)).
Definition map_hook (f : WebhookRow -> WebhookRow) (id : string) (db : PDB) : PDB := set_hooks db (map (fun w => if bool_decide (wr_id w = id) then f w else w) (p_hooks db)).
Definition RenameWebhook (db : PDB) (id name : string) : res KErr PDB :=
  if existsb (fun w => bool_decide (wr_name w = name) && negb (bool_decide (wr_id w = id))) (p_hooks db) && existsb (fun w => bool_decide (wr_id w = id)) (p_hooks db) then Err ErrDuplicate
  else Ok (map_hook (fun w => mkHook (wr_id w) name (wr_env w) (wr_secret w) (wr_lastat w) (wr_last w) (wr_created w) (wr_by w)) id db).
Definition SetWebhookSecret (db : PDB) (id sealed : string) : PDB :=
  map_hook (fun w => mkHook (wr_id w) (wr_name w) (wr_env w) sealed (wr_lastat w) (wr_last w) (wr_created w) (wr_by w)) id db.
Definition RecordWebhookDelivery (db : PDB) (id summary : string) (now : Z) : PDB :=
  map_hook (fun w => mkHook (wr_id w) (wr_name w) (wr_env w) (wr_secret w) (Some now) summary (wr_created w) (wr_by w)) id db.
Definition WebhookInUse (db : PDB) (id : string) : nat :=
  (count (fun s => bool_decide (sx_webhook s = id)) (p_stacks db) + count (fun v => bool_decide (vs_webhook v = id)) (sources (p_src db)))%nat.
Definition DeleteWebhook (db : PDB) (id : string) : res KErr PDB :=
  if existsb (fun w => bool_decide (wr_id w = id)) (p_hooks db) && (0 <? WebhookInUse db id)%nat then Err ErrForeignKey
  else Ok (set_hooks db (drop_id wr_id id (p_hooks db))).
Definition StacksByWebhook (db : PDB) (id : string) : list StackRow := by_name sx_name (List.filter (fun s => negb (bool_decide (sx_webhook s = "")) && bool_decide (sx_webhook s = id)) (p_stacks db)).
Definition VolumeSourcesByWebhook (db : PDB) (id : string) : list VolumeSource :=
  by_name vs_vol (List.filter (fun v => negb (bool_decide (vs_webhook v = "")) && bool_decide (vs_webhook v = id)) (sources (p_src db))).

(** ** Stacks *)

Definition same_stack (a b : StackRow) : bool := bool_decide (sx_env a = sx_env b) && bool_decide (sx_name a = sx_name b).
(** What a new row cannot carry yet is left empty by the insert. *)
Definition created_stack (s : StackRow) : StackRow :=
  mkStack (sx_id s) (sx_env s) (sx_node s) (sx_name s) (sx_engine s) (sx_group s) (sx_kind s) (sx_url s) (sx_ref s) (sx_path s) (sx_cred s) (sx_inline s) "" "" None false "" "" (sx_created s) (sx_by s).
Definition cred_known (db : PDB) (id : string) : bool := null_or id (existsb (fun c => bool_decide (gr_id c = id)) (p_creds db)).
Definition hook_known (db : PDB) (id : string) : bool := null_or id (existsb (fun w => bool_decide (wr_id w = id)) (p_hooks db)).
Definition CreateStack (db : PDB) (s : StackRow) : res KErr PDB :=
  let s := created_stack s in
  if existsb (fun x => bool_decide (sx_id x = sx_id s) || same_stack x s) (p_stacks db) then Err ErrDuplicate
  else if negb (env_known db (sx_env s) && cred_known db (sx_cred s)) then Err ErrForeignKey
  else Ok (set_stacks db (p_stacks db ++ [s])).
Definition map_stack (f : StackRow -> StackRow) (id : string) (db : PDB) : PDB := set_stacks db (map (fun s => if bool_decide (sx_id s = id) then f s else s) (p_stacks db)).
Definition stack_there (db : PDB) (id : string) : bool := existsb (fun s => bool_decide (sx_id s = id)) (p_stacks db).
Definition SetStackAutoDeploy (db : PDB) (id : string) (enabled : bool) (webhook watch : string) : res KErr PDB :=
  if stack_there db id && negb (hook_known db webhook) then Err ErrForeignKey
  else Ok (map_stack (fun s => mkStack (sx_id s) (sx_env s) (sx_node s) (sx_name s) (sx_engine s) (sx_group s) (sx_kind s) (sx_url s) (sx_ref s) (sx_path s) (sx_cred s) (sx_inline s)
      (sx_hash s) (sx_commit s) (sx_at s) enabled webhook watch (sx_created s) (sx_by s)) id db).
Definition UpdateStackSource (db : PDB) (st : StackRow) : res KErr PDB :=
  if stack_there db (sx_id st) && negb (cred_known db (sx_cred st)) then Err ErrForeignKey
  else Ok (map_stack (fun s => mkStack (sx_id s) (sx_env s) (sx_node s) (sx_name s) (sx_engine st) (sx_group st) (sx_kind st) (sx_url st) (sx_ref st) (sx_path st) (sx_cred st) (sx_inline st)
      (sx_hash s) (sx_commit s) (sx_at s) (sx_auto s) (sx_webhook s) (sx_watch s) (sx_created s) (sx_by s)) (sx_id st) db).
Definition StackByID (db : PDB) (id : string) : res KErr StackRow := by_id sx_id id (p_stacks db).
Definition StackByName (db : PDB) (env name : string) : res KErr StackRow :=
  match List.find (fun s => bool_decide (sx_env s = env) && bool_decide (sx_name s = name)) (p_stacks db) with Some s => Ok s | None => Err ErrNotFound end.
Definition ListStacks (db : PDB) (global : bool) (envs : list string) : list StackRow := by_name sx_name (List.filter (fun s => global || bool_decide (sx_env s ∈ envs)) (p_stacks db)).
Definition unlinked (id : string) (v : VolumeSource) : VolumeSource :=
  if negb (bool_decide (vs_stack v = id)) then v
  else mkVS (vs_id v) (vs_env v) (vs_vol v) (vs_kind v) (vs_url v) (vs_ref v) (vs_path v) (vs_cred v) (vs_uid v) (vs_gid v) "" (vs_restart v) (vs_auto v) (vs_webhook v)
         (vs_hash v) (vs_commit v) (vs_synced v) (vs_status v) (vs_error v) (vs_warnings v) (vs_created v) (vs_by v).
(** Variables and secret files go with the stack; the volume sources that name it
    are unlinked. *)
Definition DeleteStack (db : PDB) (id : string) : PDB :=
  let db := set_src db (mkSDB (map (unlinked id) (sources (p_src db))) (inline_files (p_src db))) in
  set_files (set_vars (set_stacks db (drop_id sx_id id (p_stacks db))) (delete id (p_vars db))) (delete id (p_files db)).
Definition MarkStackDeployed (db : PDB) (id hash commit : string) (now : Z) : PDB :=
  map_stack (fun s => mkStack (sx_id s) (sx_env s) (sx_node s) (sx_name s) (sx_engine s) (sx_group s) (sx_kind s) (sx_url s) (sx_ref s) (sx_path s) (sx_cred s) (sx_inline s)
      hash commit (Some now) (sx_auto s) (sx_webhook s) (sx_watch s) (sx_created s) (sx_by s)) id db.

(** Replaced wholesale, in one transaction. *)
Definition SetStackEnv (db : PDB) (id : string) (vars : list StackEnvRow) : res KErr PDB :=
  if negb (bool_decide (NoDup (map se_key vars))) then Err ErrDuplicate
  else match vars with
       | [] => Ok (set_vars db (delete id (p_vars db)))
       | _ => if stack_there db id then Ok (set_vars db (<[id := vars]> (p_vars db))) else Err ErrForeignKey
       end.
Definition StackEnv (db : PDB) (id : string) : list StackEnvRow := by_name se_key (default [] (p_vars db !! id)).
Definition SetStackSecrets (db : PDB) (id : string) (secs : list StackSecretRow) : res KErr PDB :=
  if negb (bool_decide (NoDup (map sc_name secs))) then Err ErrDuplicate
  else match secs with
       | [] => Ok (set_files db (delete id (p_files db)))
       | _ => if stack_there db id then Ok (set_files db (<[id := secs]> (p_files db))) else Err ErrForeignKey
       end.
Definition StackSecrets (db : PDB) (id : string) : list StackSecretRow := by_name sc_name (default [] (p_files db !! id)).

(** What a volume source may refer to, for the store of [VolSources]. *)
Definition references_of (db : PDB) : Refs :=
  mkRefs (map en_id (p_hosts db)) (fun id => match StackByID db id with Ok s => Some (sx_env s) | Err _ => None end)
    (fun id => existsb (fun c => bool_decide (gr_id c = id)) (p_creds db)) (fun id => match WebhookByID db id with Ok w => Some (wr_env w) | Err _ => None end).

(** ** The audit log and the history of documents *)

(** [label]: the name of a user that exists. *)
Definition Audit (label : string -> option string) (db : PDB) (e : AuditEntry) : PDB :=
  let l := if bool_decide (au_label e = "") && negb (bool_decide (au_user e = "")) then default "" (label (au_user e)) else au_label e in
  set_audit db (p_audit db ++ [mkAudit (au_id e) (au_at e) (au_user e) l (au_env e) (au_action e) (au_target e) (au_outcome e) (au_detail e)]).
Definition audit_limit (limit : Z) : nat := Z.to_nat (if (limit <=? 0) || (500 <? limit) then 200 else limit).
Definition ListAudit (db : PDB) (limit : Z) (global : bool) (envs : list string) : list AuditEntry :=
  if negb global && bool_decide (envs = []) then []
  else top (fun e => stamp (au_at e)) (audit_limit limit) (List.filter (fun e => global || (negb (bool_decide (au_env e = "")) && bool_decide (au_env e ∈ envs))) (p_audit db)).

Section History.
Context {Report : Type}.
Definition CreateManifestApply (l : list (ApplyRow Report)) (m : ApplyRow Report) : res KErr (list (ApplyRow Report)) :=
  if existsb (fun x => bool_decide (ma_id x = ma_id m)) l then Err ErrDuplicate else Ok (l ++ [m]).
Definition ManifestApplyByID (l : list (ApplyRow Report)) (id : string) : res KErr (ApplyRow Report) := by_id ma_id id l.
(** [ORDER BY applied_at DESC, id DESC] *)
Definition newer_apply (a b : ApplyRow Report) : bool :=
  String.ltb (stamp (ma_at b)) (stamp (ma_at a)) || (bool_decide (stamp (ma_at a) = stamp (ma_at b)) && String.ltb (ma_id b) (ma_id a)).
Definition ListManifestApplies (l : list (ApplyRow Report)) : list (ApplyRow Report) := ssort newer_apply l.
End History.
