(* ===== verification/Provision.v ===== *)
(** * Plan and apply of a provisioning document: one resource at a time

    Models the per-kind ensures of [internal/api/manifest.go] over the tables of
    [ProvStore]. A run is a state: the tables, the memo of cluster names, the
    generated values seen so far, the report, the goroutines started. Every call
    to the store or to a daemon takes its fate from [rn_faults]: a call that
    fails changes nothing and returns an error that is not [ErrNotFound]. Keys,
    certificates and random bytes are drawn from parameters; every draw and every
    id has a number of its own ([rn_tick]). *)
From S2P Require Import Prelude GoStd Paths Timestamps Sans Manifest Keyrings Passwords Volumes Mirror Certs CertDeliveries VolSources Caps ProvStore.
Local Open Scope string_scope.
Local Open Scope list_scope.
Local Open Scope daffa_scope.
Local Open Scope Z_scope.

(** ** The report *)

Inductive Verdict := InSync | Create | Update | Unfilled | Blocked | Drifted.
#[export] Instance Verdict_eq_dec : EqDecision Verdict.
Proof. solve_decision. Defined.
Inductive Detail :=
| NoDetail | NoSuchCluster (c : string) | KeyAlgoDiffers (a : string) | KeyFailed | RegistryDiffers | NoValueSource | NeedsValueFor (v : string) | NotARegistry (url : string)
| CredentialDiffers | NoSuchKey (n : string) | ClusterNotConnected | NoDaemon | NetworkDiffers (driver : string) (attachable : bool) | NetworkFailed
| CAAlgoDiffers (a : string) | CADiffers (subject : string) | CAFailed | SANsRefused (e : SANErr) | UsagesRefused | CertificateFor (sans : list string) | CertificateUsages (u : string)
| CertificateAlgo (a : string) | OtherCA | NoSuchCA (n : string) | CAWithoutKey (n : string) | LeafFailed | GeneratedDiffers (f : string) (l : Z) | NoSuchCertificate (n : string)
| BadMountPath | ManyDeliveries (n : nat) | SetCompletes | SecondTraefik | FleetWritesVolume | NoSuchKeyring (n : string) | PlacementDiffers | WebhookExists (where_ : string)
| NoSuchWebhook (n : string) | WebhookOfAnother (n : string) | NoSuchCredential (n : string) | StandaloneHost | NeedsNode | EngineDiffers (e : string) | GitStack | NoSuchStack (n : string)
| OwnedName (e : SrcErr) | StoreTrouble.
Record ResView := mkRes { rv_kind : Kind; rv_name : string; rv_cluster : string; rv_verdict : Verdict; rv_detail : Detail; rv_id : string }.
Inductive SlotKind := SlotEnv | SlotFile.
Record UnfilledView := mkUnfilled { uf_kind : SlotKind; uf_stack : string; uf_cluster : string; uf_name : string }.
Record Summary := mkSummary { sm_create : nat; sm_update : nat; sm_insync : nat; sm_drifted : nat; sm_blocked : nat; sm_unfilled : nat }.
Definition no_summary : Summary := mkSummary 0 0 0 0 0 0.
Definition counted (v : Verdict) (s : Summary) : Summary :=
  match v with
  | Create => mkSummary (S (sm_create s)) (sm_update s) (sm_insync s) (sm_drifted s) (sm_blocked s) (sm_unfilled s)
  | Update => mkSummary (sm_create s) (S (sm_update s)) (sm_insync s) (sm_drifted s) (sm_blocked s) (sm_unfilled s)
  | InSync => mkSummary (sm_create s) (sm_update s) (S (sm_insync s)) (sm_drifted s) (sm_blocked s) (sm_unfilled s)
  | Drifted => mkSummary (sm_create s) (sm_update s) (sm_insync s) (S (sm_drifted s)) (sm_blocked s) (sm_unfilled s)
  | Blocked => mkSummary (sm_create s) (sm_update s) (sm_insync s) (sm_drifted s) (S (sm_blocked s)) (sm_unfilled s)
  | Unfilled => mkSummary (sm_create s) (sm_update s) (sm_insync s) (sm_drifted s) (sm_blocked s) (S (sm_unfilled s))
  end.

(** ** A run *)

(** The goroutines a run leaves behind, with the row they were given. *)
Inductive Background := SyncDelivery (d : Certs.CertDelivery) | SyncKeyringDelivery (d : Keyrings.KeyringDelivery) | SyncSource (v : VolSources.VolumeSource).
Inductive MErr := EStore | ERefused (e : KErr) | ESeal | ERandom | EDecryptCA | EDecryptSecret (n : string) | EDecryptEnv (k : string) | EDecryptFile (n : string).
Record Run := mkRun {
  rn_db : PDB; rn_envs : gmap string string; rn_gens : gmap string string; rn_res : list ResView; rn_unfilled : list UnfilledView; rn_summary : Summary;
  rn_bg : list Background; rn_faults : list bool; rn_tick : nat }.
Definition with_db (s : Run) (db : PDB) : Run := mkRun db (rn_envs s) (rn_gens s) (rn_res s) (rn_unfilled s) (rn_summary s) (rn_bg s) (rn_faults s) (rn_tick s).
Definition with_env (s : Run) (name id : string) : Run := mkRun (rn_db s) (<[name := id]> (rn_envs s)) (rn_gens s) (rn_res s) (rn_unfilled s) (rn_summary s) (rn_bg s) (rn_faults s) (rn_tick s).
Definition with_gen (s : Run) (name v : string) : Run := mkRun (rn_db s) (rn_envs s) (<[name := v]> (rn_gens s)) (rn_res s) (rn_unfilled s) (rn_summary s) (rn_bg s) (rn_faults s) (rn_tick s).
Definition with_res (s : Run) (v : ResView) : Run :=
  mkRun (rn_db s) (rn_envs s) (rn_gens s) (rn_res s ++ [v]) (rn_unfilled s) (counted (rv_verdict v) (rn_summary s)) (rn_bg s) (rn_faults s) (rn_tick s).
Definition with_unfilled (s : Run) (u : UnfilledView) : Run := mkRun (rn_db s) (rn_envs s) (rn_gens s) (rn_res s) (rn_unfilled s ++ [u]) (rn_summary s) (rn_bg s) (rn_faults s) (rn_tick s).
Definition with_bg (s : Run) (b : Background) : Run := mkRun (rn_db s) (rn_envs s) (rn_gens s) (rn_res s) (rn_unfilled s) (rn_summary s) (rn_bg s ++ [b]) (rn_faults s) (rn_tick s).
Definition with_faults (s : Run) (l : list bool) : Run := mkRun (rn_db s) (rn_envs s) (rn_gens s) (rn_res s) (rn_unfilled s) (rn_summary s) (rn_bg s) l (rn_tick s).
Definition ticked (s : Run) : Run := mkRun (rn_db s) (rn_envs s) (rn_gens s) (rn_res s) (rn_unfilled s) (rn_summary s) (rn_bg s) (rn_faults s) (S (rn_tick s)).

(** The state and error monad of the walk. *)
Definition M (A : Type) : Type := Run -> res MErr A * Run.
Definition ret {A} (a : A) : M A := fun s => (Ok a, s).
Definition throw {A} (e : MErr) : M A := fun s => (Err e, s).
Definition bnd {A B} (m : M A) (k : A -> M B) : M B := fun s => let '(r, s) := m s in match r with Ok a => k a s | Err e => (Err e, s) end.
Notation "'let!' x ':=' m 'in' k" := (bnd m (fun x => k)) (at level 10, x pattern, k at level 200) : daffa_scope.
Fixpoint eachM {A} (f : A -> M unit) (l : list A) : M unit := match l with [] => ret tt | x :: l => let! _ := f x in eachM f l end.

(** A call: does it fail? *)
Definition fate : M bool := fun s => match rn_faults s with [] => (Ok false, s) | b :: l => (Ok b, with_faults s l) end.
Definition read {A} (f : PDB -> A) : M A := let! b := fate in fun s => if b then (Err EStore, s) else (Ok (f (rn_db s)), s).
(** A lookup whose caller tells a missing row from an error. *)
Definition lookup_row {A} (f : PDB -> res KErr A) : M (option A) := read (fun db => match f db with Ok a => Some a | Err _ => None end).
Definition write (f : PDB -> res KErr PDB) : M unit :=
  let! b := fate in fun s => if b then (Err EStore, s) else match f (rn_db s) with Ok db => (Ok tt, with_db s db) | Err e => (Err (ERefused e), s) end.
Definition tick : M nat := fun s => (Ok (rn_tick s), ticked s).
Definition push_view (v : ResView) : M unit := fun s => (Ok tt, with_res s v).
Definition go (b : Background) : M unit := fun s => (Ok tt, with_bg s b).
Definition of_option {A} (e : MErr) (o : option A) : M A := match o with Some a => ret a | None => throw e end.

(** ** What a run draws on *)

Record KeyMaterial := mkMaterial { km_algo : string; km_public : string; km_fp : string; km_private : string }.
Class Draws := {
  o_crypto :: Crypto;
  ParseIP : string -> option string;
  url_parse : string -> option (string * string);
  ToLower : string -> string;
  EqualFold : string -> string -> bool;
  NewID : nat -> string;
  clock : nat -> Z;
  (** A key pair of an algorithm, as text: public line, fingerprint, private PEM. *)
  keypair : nat -> string -> string -> option (string * string * string);
  (** [crypto/rand]: [n] bytes; the [i]-th number below 62 of a draw. *)
  rand_bytes : nat -> nat -> option string;
  rand_below62 : nat -> nat -> option nat;
  (** The subject a certificate prints as. *)
  SubjectOf : string -> string }.

(** A connected cluster: its nodes in the order a range over the map meets them. *)
Record PoolNode := mkPoolNode { pn_id : string; pn_manager : bool; pn_leader : bool }.
Record PoolEnv := mkPoolEnv { pe_swarm : bool; pe_nodes : list PoolNode }.
Definition Control (e : PoolEnv) : option PoolNode :=
  if negb (pe_swarm e) then head (pe_nodes e)
  else match List.find (fun n => pn_manager n && pn_leader n) (pe_nodes e) with
       | Some n => Some n
       | None => List.find pn_manager (pe_nodes e)
       end.
Definition OnlyNode (e : PoolEnv) : option PoolNode := match pe_nodes e with [n] => Some n | _ => None end.
Record Actor := mkActor { ac_id : string; ac_label : string; ac_caps : ScopedMask }.
Record Req := mkReq { q_m : Manifest.Manifest; q_values : gmap string string; q_user : Actor; q_apply : bool; q_pool : string -> option PoolEnv }.

(** ** Generated values *)

Definition hex_digit (z : nat) : ascii := ascii_of_nat (if (z <? 10)%nat then 48 + z else 87 + z).
Fixpoint hex (s : string) : string :=
  match s with "" => "" | String c r => String (hex_digit (nat_of_ascii c / 16)) (String (hex_digit (nat_of_ascii c mod 16)) (hex r)) end.
Definition charset : string := "ABCDEFGHIJKLMNOPQRSTUVWXYZabcdefghijklmnopqrstuvwxyz0123456789".
Definition char_at (s : string) (i : nat) : ascii := default "000"%char (String.get i s).
Section Generated.
Context `{Draws}.
Fixpoint draw_chars (t i n : nat) : option string :=
  match n with
  | O => Some ""
  | S n => match rand_below62 t i with None => None | Some k => match draw_chars t (S i) n with None => None | Some s => Some (String (char_at charset k) s) end end
  end.
Definition generateSecretValue (t : nat) (format : string) (length : nat) : option string :=
  if bool_decide (format = "hex") then match rand_bytes t ((length + 1) / 2) with None => None | Some b => Some (strings.take_chars length (hex b)) end
  else if bool_decide (format = "base64") then match rand_bytes t length with None => None | Some b => Some (strings.take_chars length (base64.RawURLEncode b)) end
  else draw_chars t 0 length.

(** [newKeyringMaterial]: base64 with padding, of 32 bytes. *)
Definition StdEncode (b : string) : string :=
  base64.RawStdEncode b +:+ match (String.length b mod 3)%nat with 1%nat => "==" | 2%nat => "=" | _ => "" end.
Definition newKeyringMaterial (t : nat) : option string := option_map StdEncode (rand_bytes t 32).
(** [sshx.Generate] *)
Definition Generate (t : nat) (algo comment : string) : option KeyMaterial :=
  let make a := match keypair t a comment with None => None | Some (pub, fp, pem) => Some (mkMaterial a pub fp pem) end in
  if bool_decide (algo = "") || bool_decide (algo = "ed25519") then make "ed25519" else if bool_decide (algo = "rsa") then make "rsa" else None.
(** [dockerx.RegistryHost] *)
Definition RegistryHost (s : string) : string :=
  let s := ToLower (strings.TrimSpace s) in
  let s := strings.TrimPrefix (strings.TrimPrefix s "https://") "http://" in
  let s := strings.TrimSuffix s "/" in
  let s := match strings.cut_byte s slash with Some (a, _) => a | None => s end in
  if bool_decide (s ∈ ["docker.io"; "index.docker.io"; "registry.docker.io"; "registry-1.docker.io"]) then "docker.io" else s.
End Generated.

(** ** The ensures *)

Section Ensure.
Context `{O : Draws} (q : Req).
#[local] Abbreviation m := (q_m q).
#[local] Abbreviation apply := (q_apply q).
Definition id_of (prefix : string) (t : nat) : string := prefix +:+ NewID t.
Definition seal (v : string) : M string := of_option ESeal (Seal v).

(** What the document declares, for a plan. *)
Definition declares (k : Kind) (name : string) : bool :=
  match k with
  | KindSSHKey => bool_decide (name ∈ map sk_Name (m_SSHKeys m))
  | KindGitCredential => bool_decide (name ∈ map gc_Name (m_GitCredentials m))
  | KindCA => bool_decide (name ∈ map ca_Name (m_CAs m))
  | KindCertificate => bool_decide (name ∈ map ct_Name (m_Certificates m))
  | KindKeyring => bool_decide (name ∈ map kr_Name (m_Keyrings m))
  | KindWebhook => bool_decide (name ∈ map wh_Name (m_Webhooks m))
  | KindStack => bool_decide (name ∈ map st_Name (m_Stacks m))
  | _ => false
  end.
Definition pending (k : Kind) (name : string) : bool := negb apply && declares k name.
Definition cluster (own : string) : string := if negb (bool_decide (own = "")) then own else m_Cluster m.
Definition value_of (var : string) : option string :=
  if bool_decide (var = "") then None else match q_values q !! var with Some v => if bool_decide (v = "") then None else Some v | None => None end.
Definition secret (ref : option SecretRef) : option string := match ref with None => None | Some r => value_of (sr_ValueFromEnv r) end.
Definition secretNeed (ref : option SecretRef) : Detail :=
  match ref with None => NoValueSource | Some r => if bool_decide (sr_ValueFromEnv r = "") then NoValueSource else NeedsValueFor (sr_ValueFromEnv r) end.
Definition trimmed : string -> string := strings.TrimSpace.

(** Audit rows are written with the caller's label; one that cannot be written is
    only logged. *)
Definition audit_row (t : nat) (env action target outcome : string) : AuditEntry :=
  mkAudit (NewID t) (clock t) (ac_id (q_user q)) (ac_label (q_user q)) env action target outcome "".
Definition audit (env action target outcome : string) : M unit :=
  let! t := tick in let! b := fate in fun s => (Ok tt, if b then s else with_db s (Audit (fun _ => None) (rn_db s) (audit_row t env action target outcome))).
Definition verdict_name (v : Verdict) : string :=
  match v with InSync => "in-sync" | Create => "create" | Update => "update" | Unfilled => "unfilled" | Blocked => "blocked" | Drifted => "drifted" end.
Definition auditEnsure (k : Kind) (env name : string) (v : Verdict) : M unit :=
  if apply then audit env ("manifest." +:+ verdict_name v) (kind_name k +:+ " " +:+ name) "ok" else ret tt.

(** Memoized; "" is a miss. A lookup that fails is not remembered. *)
Definition resolveCluster (name : string) : M string := fun s =>
  match rn_envs s !! name with
  | Some id => (Ok id, s)
  | None => (let! r := lookup_row (fun db => EnvironmentByName db name) in
             let id := match r with Some e => en_id e | None => "" end in
             fun s => (Ok id, with_env s name id)) s
  end.
Definition report (k : Kind) (name cl : string) (v : Verdict) (d : Detail) (id : string) : M unit := push_view (mkRes k name cl v d id).
(** [None]: blocked, and said so. *)
Definition envFor (k : Kind) (name cl : string) : M (option string) :=
  let! id := resolveCluster cl in
  if bool_decide (id = "") then let! _ := report k name cl Blocked (NoSuchCluster cl) "" in ret None else ret (Some id).

Definition ensureSSHKey (k : SSHKey) : M unit :=
  let say := report KindSSHKey (sk_Name k) "" in
  let! r := lookup_row (fun db => SSHKeyByName db (sk_Name k)) in
  match r with
  | Some ex => if negb (bool_decide (sk_Algo k = "")) && negb (EqualFold (sk_Algo k) (hk_algo ex)) then say Drifted (KeyAlgoDiffers (hk_algo ex)) (hk_id ex)
               else say InSync NoDetail (hk_id ex)
  | None =>
      if negb apply then say Create NoDetail ""
      else
        let! t := tick in
        match Generate t (sk_Algo k) ("daffa:" +:+ sk_Name k) with
        | None => say Blocked KeyFailed ""
        | Some km =>
            let! sealed := seal (km_private km) in
            let! pass := seal "" in
            let id := id_of "sshkey_" t in
            let! _ := write (fun db => CreateSSHKey db (mkKey id (sk_Name k) (km_algo km) (km_public km) (km_fp km) sealed pass (clock t) (ac_id (q_user q)))) in
            let! _ := auditEnsure KindSSHKey "" (sk_Name k) Create in
            say Create NoDetail id
        end
  end.

Definition ensureRegistry (g : Registry) : M unit :=
  let say := report KindRegistry (rg_Name g) "" in
  let host := RegistryHost (rg_URL g) in
  let! r := lookup_row (fun db => RegistryByName db (rg_Name g)) in
  match r with
  | Some ex => if (negb (bool_decide (host = "")) && negb (bool_decide (ry_url ex = host))) || negb (bool_decide (ry_user ex = rg_Username g)) then say Drifted RegistryDiffers (ry_id ex)
               else say InSync NoDetail (ry_id ex)
  | None =>
      match secret (rg_Password g) with
      | None => say Blocked (secretNeed (rg_Password g)) ""
      | Some password =>
          if bool_decide (host = "") then say Blocked (NotARegistry (rg_URL g)) ""
          else if negb apply then say Create NoDetail ""
          else
            let! t := tick in
            let! sealed := seal password in
            let! _ := write (fun db => CreateRegistry db (mkReg (id_of "" t) (rg_Name g) host (rg_Username g) sealed (clock t))) in
            let! _ := auditEnsure KindRegistry "" (rg_Name g) Create in
            say Create NoDetail (id_of "" t)
      end
  end.

Definition ensureGitCredential (g : GitCredential) : M unit :=
  let say := report KindGitCredential (gc_Name g) "" in
  let finish (t : nat) (token key : string) : M unit :=
    if negb apply then say Create NoDetail ""
    else
      let! _ := write (fun db => CreateGitCredential db (mkCred (id_of "" t) (gc_Name g) (gc_Kind g) (trimmed (gc_Username g)) token key (trimmed (gc_HostKey g)) (clock t) (ac_id (q_user q)))) in
      let! _ := auditEnsure KindGitCredential "" (gc_Name g) Create in
      say Create NoDetail (id_of "" t) in
  let! r := lookup_row (fun db => GitCredentialByName db (gc_Name g)) in
  match r with
  | Some ex =>
      let drift := negb (bool_decide (gr_kind ex = gc_Kind g)) || negb (bool_decide (gr_user ex = trimmed (gc_Username g))) in
      let! drift := if bool_decide (gc_Kind g = GitSSH) && negb drift
                    then (let! b := fate in fun s => (Ok (b || match SSHKeyByName (rn_db s) (gc_SSHKey g) with Ok k => negb (bool_decide (gr_sshkey ex = hk_id k)) | Err _ => true end), s))
                    else ret drift in
      let drift := drift || (negb (bool_decide (gc_HostKey g = "")) && negb (bool_decide (gr_hostkey ex = trimmed (gc_HostKey g)))) in
      if drift then say Drifted CredentialDiffers (gr_id ex) else say InSync NoDetail (gr_id ex)
  | None =>
      let! t := tick in
      if bool_decide (gc_Kind g = GitToken) then
        match secret (gc_Token g) with
        | None => say Blocked (secretNeed (gc_Token g)) ""
        | Some token => let! sealed := seal token in finish t sealed ""
        end
      else if bool_decide (gc_Kind g = GitSSH) then
        let! k := lookup_row (fun db => SSHKeyByName db (gc_SSHKey g)) in
        match k with
        | Some key => finish t "" (hk_id key)
        | None => if pending KindSSHKey (gc_SSHKey g) then finish t "" "" else say Blocked (NoSuchKey (gc_SSHKey g)) ""
        end
      else finish t "" ""
  end.

Definition NetworkInspect (db : PDB) (env name : string) : option NetRow := List.find (fun n => bool_decide (nr_env n = env) && bool_decide (nr_name n = name)) (p_nets db).
Definition overlay (d : string) : string := or_default d "overlay".
Definition ensureNetwork (n : Network) : M unit :=
  let cl := cluster (nw_Cluster n) in
  let say := report KindNetwork (nw_Name n) cl in
  let! e := envFor KindNetwork (nw_Name n) cl in
  match e with
  | None => ret tt
  | Some env =>
      match q_pool q env with
      | None => say Blocked ClusterNotConnected ""
      | Some p =>
          match (match Control p with Some x => Some x | None => OnlyNode p end) with
          | None => say Blocked NoDaemon ""
          | Some _ =>
              (** An inspection that fails reads as "not there". *)
              let! b := fate in
              fun s => (match (if b then None else NetworkInspect (rn_db s) env (nw_Name n)) with
              | Some net => if negb (bool_decide (nr_driver net = overlay (nw_Driver n))) || negb (bool_decide (nr_attach net = nw_Attachable n))
                            then say Drifted (NetworkDiffers (nr_driver net) (nr_attach net)) (nr_id net)
                            else say InSync NoDetail (nr_id net)
              | None =>
                  if negb apply then say Create NoDetail ""
                  else
                    let! t := tick in
                    let! c := fate in
                    fun s => (if c || bool_decide (is_Some (NetworkInspect (rn_db s) env (nw_Name n))) then say Blocked NetworkFailed ""
                              else
                                let! _ := (fun s => (Ok tt, with_db s (set_nets (rn_db s) (p_nets (rn_db s) ++ [mkNet env (id_of "" t) (nw_Name n) (overlay (nw_Driver n)) (nw_Attachable n)])))) in
                                let! _ := auditEnsure KindNetwork env (nw_Name n) Create in
                                say Create NoDetail (id_of "" t)) s
              end) s
          end
      end
  end.

Definition ensureCA (c : CA) : M unit :=
  let say := report KindCA (ca_Name c) "" in
  let outbound := default true (ca_OutboundTrust c) in
  let! r := lookup_row (fun db => CertAuthorityByName (p_pki db) (ca_Name c)) in
  match r with
  | Some ex =>
      if negb (bool_decide (ca_KeyAlgo c = "")) && negb (bool_decide (ca_algo ex = ca_KeyAlgo c)) then say Drifted (CAAlgoDiffers (ca_algo ex)) (ca_id ex)
      else if negb (strings.Contains (SubjectOf (ca_pem ex)) ("CN=" +:+ trimmed (ca_CommonName c))) then say Drifted (CADiffers (SubjectOf (ca_pem ex))) (ca_id ex)
      else if negb (bool_decide (ca_outbound ex = outbound)) then
        let! _ := (if apply then
                     let! _ := write (fun db => Ok (set_pki db (UpdateCertAuthority (p_pki db) (set_outbound ex outbound)))) in
                     auditEnsure KindCA "" (ca_Name c) Update
                   else ret tt) in
        say Update NoDetail (ca_id ex)
      else say InSync NoDetail (ca_id ex)
  | None =>
      if negb apply then say Create NoDetail ""
      else
        let! t := tick in
        let algo := or_default (ca_KeyAlgo c) ECDSAP256 in
        let days := if ca_Days c <=? 0 then 3650 else ca_Days c in
        match MakeCA (clock t) (trimmed (ca_CommonName c)) (trimmed (ca_Org c)) algo days with
        | None => say Blocked CAFailed ""
        | Some (pem, key) =>
            let! sealed := seal key in
            let id := id_of "ca_" t in
            let! _ := write (fun db => let* p := CreateCertAuthority (p_pki db) (mkCA id (ca_Name c) pem sealed algo (NotAfter pem) CAActive "" None 0 false outbound) in Ok (set_pki db p)) in
            let! _ := auditEnsure KindCA "" (ca_Name c) Create in
            say Create NoDetail id
        end
  end.

Definition with_renew (c : Certs.Certificate) (days : Z) : Certs.Certificate :=
  mkCert (ct_id c) (ct_name c) (ct_env c) (ct_ca c) (ct_sans c) (ct_pem c) (ct_chain c) (ct_key c) (ct_algo c) (ct_usages c) (ct_notafter c) (ct_validity c) days (ct_status c) (ct_error c) (ct_protected c).
(** How an existing certificate differs from the declared one: the first
    difference that is drift. [ca] is the declared authority's id, when it is there. *)
Definition cert_drift (c : Manifest.Certificate) (sans : list string) (usages : string) (ca : option string) (ex : Certs.Certificate) : option Detail :=
  if negb (bool_decide (sans = ct_sans ex)) then Some (CertificateFor (ct_sans ex))
  else if negb (bool_decide (usages = "")) && negb (bool_decide (usages = ct_usages ex)) then Some (CertificateUsages (ct_usages ex))
  else if negb (bool_decide (ct_KeyAlgo c = "")) && negb (bool_decide (ct_algo ex = ct_KeyAlgo c)) then Some (CertificateAlgo (ct_algo ex))
  else match ca with Some id => if negb (bool_decide (ct_ca ex = "")) && negb (bool_decide (ct_ca ex = id)) then Some OtherCA else None | None => None end.
Definition ensureCertificate (c : Manifest.Certificate) : M unit :=
  let cl := cluster (ct_Cluster c) in
  let say := report KindCertificate (ct_Name c) (if ct_Shared c then "" else cl) in
  let! e := if ct_Shared c then ret (Some "") else envFor KindCertificate (ct_Name c) cl in
  match e with
  | None => ret tt
  | Some env =>
      match NormalizeSANs ParseIP url_parse (ct_SANs c) with
      | Err x => say Blocked (SANsRefused x) ""
      | Ok sans =>
      match NormalizeUsages (ct_Usages c) with
      | None => say Blocked UsagesRefused ""
      | Some usages =>
          let! r := lookup_row (fun db => CertificateByName (p_pki db) env (ct_Name c)) in
          match r with
          | Some ex =>
              (** An error here reads as "no such authority". *)
              let! b := fate in
              let! ca := (fun s => (Ok (if b then None else match CertAuthorityByName (p_pki (rn_db s)) (ct_CA c) with Ok a => Some (ca_id a) | Err _ => None end), s)) in
              match cert_drift c sans usages ca ex with
              | Some d => say Drifted d (ct_id ex)
              | None =>
                  if negb (bool_decide (ct_RenewBeforeDays c = 0)) && negb (bool_decide (ct_renew ex = ct_RenewBeforeDays c)) then
                    let! _ := (if apply then
                                 let! _ := write (fun db => Ok (set_pki db (UpdateCertificate (p_pki db) (with_renew ex (ct_RenewBeforeDays c))))) in
                                 auditEnsure KindCertificate env (ct_Name c) Update
                               else ret tt) in
                    say Update NoDetail (ct_id ex)
                  else say InSync NoDetail (ct_id ex)
              end
          | None =>
              let! ca := lookup_row (fun db => CertAuthorityByName (p_pki db) (ct_CA c)) in
              match ca with
              | None => if pending KindCA (ct_CA c) then say Create NoDetail "" else say Blocked (NoSuchCA (ct_CA c)) ""
              | Some ca =>
                  if negb (CanSign ca) then say Blocked (CAWithoutKey (ct_CA c)) ""
                  else if negb apply then say Create NoDetail ""
                  else
                    let! t := tick in
                    let algo := or_default (ct_KeyAlgo c) ECDSAP256 in
                    let days := if ct_ValidityDays c <=? 0 then 398 else ct_ValidityDays c in
                    let! caKey := of_option EDecryptCA (Open (ca_key ca)) in
                    match Issue (clock t) (ca_pem ca) caKey sans algo days usages with
                    | None => say Blocked LeafFailed ""
                    | Some (pem, key) =>
                        let! sealed := seal key in
                        let id := id_of "crt_" t in
                        let! _ := write (fun db => let* p := CreateCertificate (p_pki db)
                                     (mkCert id (ct_Name c) env (ca_id ca) sans pem "" sealed algo usages (NotAfter pem) days (ct_RenewBeforeDays c) "" "" false) in Ok (set_pki db p)) in
                        let! _ := auditEnsure KindCertificate env (ct_Name c) Create in
                        say Create NoDetail id
                    end
              end
          end
      end end
  end.

(** The row and its first version ([rotateKeyring] is one call here: the material,
    its seal, the transaction). A seed that fails takes the ring with it; the
    deletion's own error is dropped. *)
Definition new_ring (row : Keyrings.Keyring) (w : Draw) : M unit :=
  let! _ := write (fun db => let* d := CreateKeyring (p_rings db) row in Ok (set_kdb db d)) in
  fun s => match write (fun db => let* d := rotateKeyring Seal (p_rings db) (k_id row) w in Ok (set_kdb db d)) s with
           | (Ok _, s) => (Ok tt, s)
           | (Err e, s) => (Err e, snd (write (fun db => let* d := DeleteKeyring (p_rings db) (k_id row) in Ok (set_kdb db d)) s))
           end.
Definition ensureKeyring (k : Manifest.Keyring) : M unit :=
  let say := report KindKeyring (kr_Name k) "" in
  let! r := lookup_row (fun db => KeyringByName (p_rings db) (kr_Name k)) in
  match r with
  | Some ex =>
      if negb (bool_decide (k_rotate ex = kr_RotateDays k)) then
        let! _ := (if apply then
                     let! _ := write (fun db => let* d := UpdateKeyring (p_rings db) (mkRing (k_id ex) (k_name ex) (kr_RotateDays k) (k_created ex)) in Ok (set_kdb db d)) in
                     auditEnsure KindKeyring "" (kr_Name k) Update
                   else ret tt) in
        say Update NoDetail (k_id ex)
      else say InSync NoDetail (k_id ex)
  | None =>
      if negb apply then say Create NoDetail ""
      else
        let! t := tick in
        let! u := tick in
        let id := id_of "kr_" t in
        let! _ := new_ring (mkRing id (kr_Name k) (kr_RotateDays k) (clock t)) (mkDraw (newKeyringMaterial u) (id_of "krv_" u) (clock u)) in
        let! _ := auditEnsure KindKeyring "" (kr_Name k) Create in
        say Create NoDetail id
  end.

Definition gen_format (g : GeneratedSecret) : string := or_default (gs_Format g) "alphanumeric".
Definition gen_length (g : GeneratedSecret) : Z := if gs_Length g =? 0 then 32 else gs_Length g.
Definition ensureGeneratedSecret (g : GeneratedSecret) : M unit :=
  let say := report KindGeneratedSecret (gs_Name g) "" in
  let! r := lookup_row (fun db => SecretValueByName db (gs_Name g)) in
  match r with
  | Some ex => if negb (bool_decide (sv_format ex = gen_format g)) || negb (bool_decide (sv_length ex = gen_length g)) then say Drifted (GeneratedDiffers (sv_format ex) (sv_length ex)) (sv_id ex)
               else say InSync NoDetail (sv_id ex)
  | None =>
      if negb apply then say Create NoDetail ""
      else
        let! t := tick in
        let! value := of_option ERandom (generateSecretValue t (gen_format g) (Z.to_nat (gen_length g))) in
        let! sealed := seal value in
        let id := id_of "sec_" t in
        let! _ := write (fun db => CreateSecretValue db (mkSecret id (gs_Name g) sealed (gen_format g) (gen_length g) (clock t) (ac_id (q_user q)))) in
        let! _ := (fun s => (Ok tt, with_gen s (gs_Name g) value)) in
        let! _ := auditEnsure KindGeneratedSecret "" (gs_Name g) Create in
        say Create NoDetail id
  end.

(** Minted in this walk, or unsealed from the store and remembered. *)
Definition generatedValue (name : string) : M (option string) := fun s =>
  match rn_gens s !! name with
  | Some v => (Ok (Some v), s)
  | None => (let! r := lookup_row (fun db => SecretValueByName db name) in
             match r with
             | None => ret None
             | Some row => let! v := of_option (EDecryptSecret name) (Open (sv_enc row)) in fun s => (Ok (Some v), with_gen s name v)
             end) s
  end.
(** The references are resolved from left to right; the walk goes on after an
    error, which is returned at the end. *)
Fixpoint expand_tokens (l : list (ascii + string)) : Run -> option MErr * string * bool * Run := fun s =>
  match l with
  | [] => (None, "", true, s)
  | inl c :: l => let '(e, out, ok, s) := expand_tokens l s in (e, String c out, ok, s)
  | inr n :: l =>
      let '(r, s) := generatedValue n s in
      let '(e, out, ok, s) := expand_tokens l s in
      match r with
      | Ok (Some v) => (e, v +:+ out, ok, s)
      | Ok None => (e, ref_text n +:+ out, false, s)
      | Err x => (Some x, ref_text n +:+ out, false, s)
      end
  end.
Definition expandGenerated (v : string) : M (option string) := fun s =>
  let '(e, out, ok, s) := expand_tokens (scan 0 v) s in
  match e with Some x => (Err x, s) | None => (Ok (if ok then Some out else None), s) end.

(** ** Deliveries *)

(** On the cluster first, then shared. [inl]: not there. *)
Definition find_cert (env name : string) : M (option Certs.Certificate) :=
  let! c := lookup_row (fun db => CertificateByName (p_pki db) env name) in
  match c with Some c => ret (Some c) | None => lookup_row (fun db => CertificateByName (p_pki db) "" name) end.
(** The ids found, and whether some are only declared; [inl]: the first name that
    is neither. *)
Fixpoint resolve_certs (env : string) (l : list Manifest.DeliveryCert) : M (string + list Certs.DeliveryCert * bool) :=
  match l with
  | [] => ret (inr ([], false))
  | dc :: l =>
      let! c := find_cert env (dc_Name dc) in
      match c with
      | None => if pending KindCertificate (dc_Name dc) then
                  let! r := resolve_certs env l in ret (match r with inr (ids, _) => inr (ids, true) | e => e end)
                else ret (inl (dc_Name dc))
      | Some c => let! r := resolve_certs env l in ret (match r with inr (ids, p) => inr (mkDC (ct_id c) (dc_Default dc) :: ids, p) | e => e end)
      end
  end.
Fixpoint resolve_bundle (l : list string) : M (string + list string * bool) :=
  match l with
  | [] => ret (inr ([], false))
  | n :: l =>
      let! c := lookup_row (fun db => CertAuthorityByName (p_pki db) n) in
      match c with
      | None => if pending KindCA n then let! r := resolve_bundle l in ret (match r with inr (ids, _) => inr (ids, true) | e => e end) else ret (inl n)
      | Some c => let! r := resolve_bundle l in ret (match r with inr (ids, p) => inr (ca_id c :: ids, p) | e => e end)
      end
  end.

Definition bool_text (b : bool) : string := if b then "true" else "false".
Definition cert_key (c : Certs.DeliveryCert) : string := dc_cert c +:+ "|" +:+ bool_text (dc_default c).
Definition stringSetEqual (a b : list string) : bool := Nat.eqb (length a) (length b) && bool_decide (ssort String.ltb a = ssort String.ltb b).
Definition certSetEqual (a b : list Certs.DeliveryCert) : bool := stringSetEqual (map cert_key a) (map cert_key b).
(** A row with the wanted fields; the stored hash is dropped for the resync. *)
Definition wanted_delivery (d : Manifest.CertDelivery) (certs : list Certs.DeliveryCert) (mount : string) (bundle : list string) (x : Certs.CertDelivery) : Certs.CertDelivery :=
  mkCD (cd_id x) (cd_env x) certs (cd_volume x) mount (cd_UID d) (cd_GID d) (cd_Traefik d) (trimmed (cd_RestartTargets d)) bundle (cd_hash x) (cd_synced x) (cd_status x) (cd_error x) (cd_created x) (cd_protected x).
Definition unsynced (x : Certs.CertDelivery) : Certs.CertDelivery :=
  mkCD (cd_id x) (cd_env x) (cd_certs x) (cd_volume x) (cd_mount x) (cd_uid x) (cd_gid x) (cd_traefik x) (cd_restart x) (cd_bundle x) "" (cd_synced x) (cd_status x) (cd_error x) (cd_created x) (cd_protected x).
Definition same_delivery (d : Manifest.CertDelivery) (certs : list Certs.DeliveryCert) (mount : string) (bundle : list string) (x : Certs.CertDelivery) : bool :=
  certSetEqual (cd_certs x) certs && bool_decide (cd_mount x = mount) && (cd_uid x =? cd_UID d) && (cd_gid x =? cd_GID d) && Bool.eqb (cd_traefik x) (cd_Traefik d) &&
  bool_decide (cd_restart x = trimmed (cd_RestartTargets d)) && stringSetEqual (cd_bundle x) bundle.
(** [refuseSecondTraefikDelivery]: its own error blocks as well. *)
Definition second_traefik (x : Certs.CertDelivery) : M (option Detail) :=
  if cd_traefik x then let! b := fate in fun s => (Ok (if b then Some StoreTrouble else match refuseSecondTraefikDelivery (p_pki (rn_db s)) x with Some _ => Some SecondTraefik | None => None end), s)
  else ret None.

Definition ensureCertDelivery (d : Manifest.CertDelivery) : M unit :=
  let cl := cluster (cd_Cluster d) in
  let say := report KindCertDelivery (cd_Volume d) cl in
  let! e := envFor KindCertDelivery (cd_Volume d) cl in
  match e with
  | None => ret tt
  | Some env =>
  let! rc := resolve_certs env (cd_Certs d) in
  match rc with
  | inl n => say Blocked (NoSuchCertificate n) ""
  | inr (certs, p1) =>
  let! rb := resolve_bundle (cd_BundleCAs d) in
  match rb with
  | inl n => say Blocked (NoSuchCA n) ""
  | inr (bundle, p2) =>
  match cleanMountPath (cd_MountPath d) with
  | None => say Blocked BadMountPath ""
  | Some mount =>
  let! existing := read (fun db => DeliveriesForVolume (p_pki db) env (cd_Volume d)) in
  match existing with
  | _ :: _ :: _ => say Blocked (ManyDeliveries (length existing)) ""
  | [x] =>
      if p1 || p2 then say Update SetCompletes (cd_id x)
      else if same_delivery d certs mount bundle x then say InSync NoDetail (cd_id x)
      else if negb apply then say Update NoDetail (cd_id x)
      else
        let x := wanted_delivery d certs mount bundle x in
        let! r := second_traefik x in
        match r with
        | Some why => say Blocked why (cd_id x)
        | None =>
            let! _ := write (fun db => let* p := UpdateCertDelivery (p_pki db) x in Ok (set_pki db p)) in
            let! _ := auditEnsure KindCertDelivery env (cd_Volume d) Update in
            let! _ := go (SyncDelivery (unsynced x)) in
            say Update NoDetail (cd_id x)
        end
  | [] =>
      match q_pool q env with
      | None => say Blocked ClusterNotConnected ""
      | Some _ =>
          if negb apply then say Create NoDetail ""
          else
            let! t := tick in
            let id := id_of "dlv_" t in
            let x := mkCD id env certs (cd_Volume d) mount (cd_UID d) (cd_GID d) (cd_Traefik d) (trimmed (cd_RestartTargets d)) bundle "" None "" "" (clock t) false in
            (** The row has no id when the question is asked. *)
            let! r := second_traefik (mkCD "" env certs (cd_Volume d) mount (cd_UID d) (cd_GID d) (cd_Traefik d) (trimmed (cd_RestartTargets d)) bundle "" None "" "" 0 false) in
            match r with
            | Some why => say Blocked why ""
            | None =>
                let! f := lookup_row (fun db => FleetDeliveryForVolume (p_pki db) env (cd_Volume d)) in
                match f with
                | Some _ => say Blocked FleetWritesVolume ""
                | None =>
                    let! _ := write (fun db => let* p := CreateCertDelivery (p_pki db) x in Ok (set_pki db p)) in
                    let! _ := auditEnsure KindCertDelivery env (cd_Volume d) Create in
                    let! _ := go (SyncDelivery x) in
                    say Create NoDetail id
                end
            end
      end
  end end end end end.

Definition ensureKeyringDelivery (d : Manifest.KeyringDelivery) : M unit :=
  let cl := cluster (kd_Cluster d) in
  let say := report KindKeyringDelivery (kd_Volume d) cl in
  let! e := envFor KindKeyringDelivery (kd_Volume d) cl in
  match e with
  | None => ret tt
  | Some env =>
  let! k := lookup_row (fun db => KeyringByName (p_rings db) (kd_Keyring d)) in
  match k with
  | None => if pending KindKeyring (kd_Keyring d) then say Create NoDetail "" else say Blocked (NoSuchKeyring (kd_Keyring d)) ""
  | Some k =>
  let! r := lookup_row (fun db => KeyringDeliveryForVolume (p_rings db) (k_id k) env (kd_Volume d)) in
  match r with
  | Some ex =>
      if negb (d_uid ex =? kd_UID d) || negb (d_gid ex =? kd_GID d) || negb (bool_decide (d_restart ex = trimmed (kd_RestartTargets d))) then say Drifted PlacementDiffers (d_id ex)
      else say InSync NoDetail (d_id ex)
  | None =>
      match q_pool q env with
      | None => say Blocked ClusterNotConnected ""
      | Some _ =>
          if negb apply then say Create NoDetail ""
          else
            let! t := tick in
            let id := id_of "kdl_" t in
            let row := mkDelivery id (k_id k) env (kd_Volume d) (kd_UID d) (kd_GID d) (trimmed (kd_RestartTargets d)) "" None "" "" (clock t) in
            let! _ := write (fun db => let* x := CreateKeyringDelivery (p_rings db) row in Ok (set_kdb db x)) in
            let! _ := auditEnsure KindKeyringDelivery env (kd_Volume d) Create in
            let! _ := go (SyncKeyringDelivery row) in
            say Create NoDetail id
      end
  end end end.

(** ** Webhooks *)

Definition random_token (t : nat) : option string := option_map base64.RawURLEncode (rand_bytes t 32).
(** With the given secret, or one that is never shown. *)
Definition createManifestWebhook (name env plain : string) : M string :=
  let! t := tick in
  let! plain := (if bool_decide (plain = "") then of_option ERandom (random_token t) else ret plain) in
  let! sealed := seal plain in
  let id := id_of "whk_" t in
  let! _ := write (fun db => CreateWebhook db (mkHook id name env sealed None "" (clock t) (ac_id (q_user q)))) in
  ret id.

Definition ensureWebhook (w : Manifest.Webhook) : M unit :=
  let cl := if wh_Shared w then "" else cluster (wh_Cluster w) in
  let say := report KindWebhook (wh_Name w) cl in
  let! e := if wh_Shared w then ret (Some "") else envFor KindWebhook (wh_Name w) cl in
  match e with
  | None => ret tt
  | Some env =>
  let! r := lookup_row (fun db => WebhookByName db (wh_Name w)) in
  match r with
  | Some ex =>
      if negb (bool_decide (wr_env ex = env)) then
        if bool_decide (wr_env ex = "") then say Drifted (WebhookExists "fleet-wide") (wr_id ex)
        else let! b := fate in fun s => say Drifted (WebhookExists ("on cluster " +:+ (if b then wr_env ex else envName (rn_db s) (wr_env ex)))) (wr_id ex) s
      else say InSync NoDetail (wr_id ex)
  | None =>
      let plain := secret (wh_Secret w) in
      if bool_decide (is_Some (wh_Secret w)) && negb (bool_decide (default "" (option_map sr_ValueFromEnv (wh_Secret w)) = "")) && bool_decide (plain = None) then say Blocked (secretNeed (wh_Secret w)) ""
      else if negb apply then say Create NoDetail ""
      else
        let! id := createManifestWebhook (wh_Name w) env (default "" plain) in
        let! _ := auditEnsure KindWebhook env (wh_Name w) Create in
        say Create NoDetail id
  end end.

(** What stands in a plan for a webhook that does not exist yet. *)
Definition pendingWebhook : string := String NUL "pending".
Definition namedWebhook (name env : string) : M (Detail + string) :=
  if bool_decide (name = "") then ret (inr "")
  else
    let! r := lookup_row (fun db => WebhookByName db name) in
    match r with
    | None => if pending KindWebhook name then ret (inr pendingWebhook) else ret (inl (NoSuchWebhook name))
    | Some w => if negb (bool_decide (wr_env w = "")) && negb (bool_decide (wr_env w = env)) then ret (inl (WebhookOfAnother name)) else ret (inr (wr_id w))
    end.
Definition freeWebhookName (base cl : string) : M string :=
  let! r := lookup_row (fun db => WebhookByName db base) in
  match r with
  | None => ret base
  | Some _ =>
      let! r := lookup_row (fun db => WebhookByName db (base +:+ "-" +:+ cl)) in
      match r with
      | None => ret (base +:+ "-" +:+ cl)
      | Some _ => let! t := tick in ret (base +:+ "-" +:+ strings.ToLowerASCII (strings.take_chars 6 (NewID t)))
      end
  end.
Definition targetWebhook (named current : string) (auto : bool) (base env cl : string) : M string :=
  if negb (bool_decide (named = "")) then ret named
  else if negb (bool_decide (current = "")) || negb auto then ret current
  else if negb apply then ret pendingWebhook
  else
    let! name := freeWebhookName base cl in
    let! id := createManifestWebhook name env "" in
    let! _ := auditEnsure KindWebhook env name Create in
    ret id.

(** ** Stacks *)

(** Variables and files by name, in the order they are stored. *)
Definition find_var (k : string) (l : list StackEnvRow) : option StackEnvRow := List.find (fun e => bool_decide (se_key e = k)) l.
Definition put_var (e : StackEnvRow) (l : list StackEnvRow) : list StackEnvRow :=
  match find_var (se_key e) l with None => l ++ [e] | Some _ => map (fun x => if bool_decide (se_key x = se_key e) then e else x) l end.
Definition find_file (n : string) (l : list StackSecretRow) : option StackSecretRow := List.find (fun e => bool_decide (sc_name e = n)) l.
Definition put_file (e : StackSecretRow) (l : list StackSecretRow) : list StackSecretRow :=
  match find_file (sc_name e) l with None => l ++ [e] | Some _ => map (fun x => if bool_decide (sc_name x = sc_name e) then e else x) l end.

(** The value a variable wants, and whether it is not known yet. *)
Definition known (r : option string) : option string * bool := match r with Some v => (Some v, false) | None => (None, true) end.
Definition env_want (v : EnvVar) : M (option string * bool) :=
  if negb (ev_Secret v) then ret (Some (ev_Value v), false)
  else if negb (bool_decide (ev_FromGenerated v = "")) then let! r := generatedValue (ev_FromGenerated v) in ret (known r)
  else if negb (bool_decide (ev_Value v = "")) then let! r := expandGenerated (ev_Value v) in ret (known r)
  else ret (value_of (ev_ValueFromEnv v), false).
Definition env_one (v : EnvVar) (acc : list StackEnvRow * bool) : M (list StackEnvRow * bool) :=
  let '(stored, changed) := acc in
  let! w := env_want v in
  let changed := changed || w.2 in
  match find_var (ev_Key v) stored with
  | None => let! sealed := seal (default "" w.1) in ret (put_var (mkVar (ev_Key v) sealed (ev_Secret v)) stored, true)
  | Some cur =>
      match w.1 with
      | None => ret (stored, changed)
      | Some want =>
          let! old := of_option (EDecryptEnv (ev_Key v)) (Open (se_enc cur)) in
          if negb (bool_decide (old = want)) || negb (Bool.eqb (se_secret cur) (ev_Secret v)) then
            let! sealed := seal want in ret (put_var (mkVar (ev_Key v) sealed (ev_Secret v)) stored, true)
          else ret (stored, changed)
      end
  end.
Fixpoint foldM {A B} (f : A -> B -> M B) (l : list A) (b : B) : M B := match l with [] => ret b | x :: l => let! b := f x b in foldM f l b end.
(** A merge: what the document does not declare stays. *)
Definition ensureStackEnv (id : string) (st : Manifest.Stack) : M bool :=
  if bool_decide (st_Env st = []) then ret false
  else
    let! stored := read (fun db => StackEnv db id) in
    let! r := foldM env_one (st_Env st) (stored, false) in
    let! _ := (if r.2 && apply then write (fun db => SetStackEnv db id r.1) else ret tt) in
    ret r.2.

Definition file_want (f : SecretFile) (acc : list (string * string) * bool) : M (list (string * string) * bool) :=
  let '(owned, changed) := acc in
  if negb (bool_decide (sf_ValueFromEnv f = "")) then ret (match value_of (sf_ValueFromEnv f) with Some v => owned ++ [(sf_Name f, v)] | None => owned end, changed)
  else if bool_decide (sf_FromGenerated f = "") && bool_decide (sf_Value f = "") then ret (owned, changed)
  else
    let! r := (if negb (bool_decide (sf_FromGenerated f = "")) then generatedValue (sf_FromGenerated f) else expandGenerated (sf_Value f)) in
    ret (match r with Some v => (owned ++ [(sf_Name f, v)], changed) | None => (owned, true) end).
Definition file_one (o : string * string) (acc : list StackSecretRow * bool) : M (list StackSecretRow * bool) :=
  let '(stored, changed) := acc in
  match find_file o.1 stored with
  | Some cur =>
      let! old := of_option (EDecryptFile o.1) (Open (sc_enc cur)) in
      if bool_decide (old = o.2) then ret (stored, changed) else let! sealed := seal o.2 in ret (put_file (mkSecretFile o.1 sealed) stored, true)
  | None => let! sealed := seal o.2 in ret (put_file (mkSecretFile o.1 sealed) stored, true)
  end.
Definition ensureStackSecrets (id : string) (st : Manifest.Stack) : M bool :=
  let! w := foldM file_want (st_SecretFiles st) ([], false) in
  if bool_decide (w.1 = []) then ret w.2
  else
    let! stored := read (fun db => StackSecrets db id) in
    let! r := foldM file_one w.1 (stored, w.2) in
    let! _ := (if r.2 && apply then write (fun db => SetStackSecrets db id r.1) else ret tt) in
    ret r.2.

(** The slots a person has to fill; what the document provides is not one. *)
Definition unfilled (k : SlotKind) (st : Manifest.Stack) (cl name : string) : M unit := fun s => (Ok tt, with_unfilled s (mkUnfilled k (st_Name st) cl name)).
Definition slot_env (st : Manifest.Stack) (cl : string) (stored : list StackEnvRow) (v : EnvVar) : M unit :=
  if negb (ev_Secret v) || negb (bool_decide (ev_FromGenerated v = "")) || negb (bool_decide (ev_Value v = "")) then ret tt
  else match find_var (ev_Key v) stored with
       | None => unfilled SlotEnv st cl (ev_Key v)
       | Some e => let! val := of_option (EDecryptEnv (ev_Key v)) (Open (se_enc e)) in if bool_decide (val = "") then unfilled SlotEnv st cl (ev_Key v) else ret tt
       end.
Definition slot_file (st : Manifest.Stack) (cl : string) (rows : list StackSecretRow) (f : SecretFile) : M unit :=
  if negb (bool_decide (sf_FromGenerated f = "")) || negb (bool_decide (sf_Value f = "")) then ret tt
  else if bool_decide (is_Some (value_of (sf_ValueFromEnv f))) then ret tt
  else match find_file (sf_Name f) rows with
       | Some r => if bool_decide (sc_enc r = "") then unfilled SlotFile st cl (sf_Name f) else ret tt
       | None => unfilled SlotFile st cl (sf_Name f)
       end.
Definition reportStackSlots (st : Manifest.Stack) (cl : string) (row : option string) : M unit :=
  let! stored := (match row with None => ret [] | Some id => read (fun db => StackEnv db id) end) in
  let! files := (match row with None => ret [] | Some id => read (fun db => StackSecrets db id) end) in
  let! _ := eachM (slot_env st cl stored) (st_Env st) in
  eachM (slot_file st cl files) (st_SecretFiles st).

Definition with_source (x : StackRow) (kind url ref path cred inline : string) : StackRow :=
  mkStack (sx_id x) (sx_env x) (sx_node x) (sx_name x) (sx_engine x) (sx_group x) kind url ref path cred inline (sx_hash x) (sx_commit x) (sx_at x) (sx_auto x) (sx_webhook x) (sx_watch x) (sx_created x) (sx_by x).
Definition applyStackSource (x : StackRow) (st : Manifest.Stack) (cred : string) : StackRow :=
  match ss_Git (st_Source st) with
  | Some g => with_source x "git" (trimmed (gt_URL g)) (trimmed (gt_Ref g)) (trimmed (gt_Path g)) cred ""
  | None => with_source x "inline" "" "" "" "" (ss_Compose (st_Source st))
  end.
Definition source_differs (a b : StackRow) : bool :=
  negb (bool_decide (sx_kind a = sx_kind b)) || negb (bool_decide (sx_url a = sx_url b)) || negb (bool_decide (sx_ref a = sx_ref b)) || negb (bool_decide (sx_path a = sx_path b)) ||
  negb (bool_decide (sx_cred a = sx_cred b)) || negb (bool_decide (sx_inline a = sx_inline b)).

(** The credential a git source names: blocked, or its id ("" when none is named
    or it is only declared). *)
Definition source_cred (g : option GitSource) : M (Detail + string) :=
  match g with
  | None => ret (inr "")
  | Some g =>
      if bool_decide (gt_Credential g = "") then ret (inr "")
      else
        let! c := lookup_row (fun db => GitCredentialByName db (gt_Credential g)) in
        ret (match c with
             | Some c => inr (gr_id c)
             | None => if pending KindGitCredential (gt_Credential g) then inr "" else inl (NoSuchCredential (gt_Credential g))
             end)
  end.
(** Where a new stack runs: refused, or its node ("": the scheduler's choice). *)
Definition placement (env : string) (st : Manifest.Stack) : Detail + string :=
  match q_pool q env with
  | None => inl ClusterNotConnected
  | Some p => if bool_decide (st_Engine st = "swarm") then (if pe_swarm p then inr "" else inl StandaloneHost)
              else match OnlyNode p with Some n => inr (pn_id n) | None => inl NeedsNode end
  end.

(** Source, push settings, variables and files of a stack that is there. *)
Definition convergeStack (st : Manifest.Stack) (cl env cred named : string) (created : bool) (ex : StackRow) : M unit :=
  let want := if created then ex else applyStackSource ex st cred in
  let c1 := source_differs want ex in
  let! _ := (if c1 && apply then write (fun db => UpdateStackSource db want) else ret tt) in
  let watch := strings.Join (st_WatchPaths st) (String LF "") in
  let! hook := targetWebhook named (sx_webhook want) (st_AutoDeploy st && bool_decide (sx_kind want = "git")) (st_Name st) env cl in
  let c2 := negb (Bool.eqb (sx_auto want) (st_AutoDeploy st)) || negb (bool_decide (sx_watch want = watch)) || negb (bool_decide (sx_webhook want = hook)) in
  let! _ := (if c2 && apply then write (fun db => SetStackAutoDeploy db (sx_id want) (st_AutoDeploy st) hook watch) else ret tt) in
  let! c3 := ensureStackEnv (sx_id want) st in
  let! c4 := ensureStackSecrets (sx_id want) st in
  let v := if created then Create else if c1 || c2 || c3 || c4 then Update else InSync in
  let! _ := (if bool_decide (v = Update) && apply then auditEnsure KindStack env (st_Name st) Update else ret tt) in
  let! _ := report KindStack (st_Name st) cl v NoDetail (sx_id want) in
  reportStackSlots st cl (Some (sx_id want)).

Definition ensureStack (st : Manifest.Stack) : M unit :=
  let cl := cluster (st_Cluster st) in
  let say := report KindStack (st_Name st) cl in
  let! e := envFor KindStack (st_Name st) cl in
  match e with
  | None => ret tt
  | Some env =>
  let! cred := source_cred (ss_Git (st_Source st)) in
  match cred with
  | inl why => say Blocked why ""
  | inr cred =>
  let! named := namedWebhook (st_Webhook st) env in
  match named with
  | inl why => say Blocked why ""
  | inr named =>
  let! r := lookup_row (fun db => StackByName db env (st_Name st)) in
  match r with
  | Some ex =>
      if negb (bool_decide (sx_engine ex = st_Engine st)) then say Drifted (EngineDiffers (sx_engine ex)) (sx_id ex)
      else if bool_decide (sx_kind ex = "git") && negb (bool_decide (ss_Compose (st_Source st) = "")) then say Drifted GitStack (sx_id ex)
      else convergeStack st cl env cred named false ex
  | None =>
      match placement env st with
      | inl why => say Blocked why ""
      | inr node =>
          if negb apply then let! _ := say Create NoDetail "" in reportStackSlots st cl None
          else
            let! t := tick in
            let row := applyStackSource (mkStack (NewID t) env node (st_Name st) (st_Engine st) "" "" "" "" "" "" "" "" "" None false "" "" (clock t) (ac_id (q_user q))) st cred in
            let! _ := write (fun db => CreateStack db row) in
            let! _ := auditEnsure KindStack env (st_Name st) Create in
            convergeStack st cl env cred named true row
      end
  end end end end.

(** ** Volume sources *)

Definition files_of (v : Manifest.VolumeSource) : list Volumes.File := map (fun f => Volumes.mkFile (fl_Path f) (fl_Content f) 0) (vp_Files (vs_Source v)).
Definition volFilesEqual (a b : list Volumes.File) : bool :=
  Nat.eqb (length a) (length b) &&
  forallb (fun f => match List.find (fun x => bool_decide (Volumes.fl_name x = Volumes.fl_name f)) (rev a) with Some x => bool_decide (Volumes.fl_data x = Volumes.fl_data f) | None => false end) b.
Definition spec_source (x : VolSources.VolumeSource) (kind url ref path cred : string) (uid gid : Z) (stack restart : string) (auto : bool) (hook : string) : VolSources.VolumeSource :=
  mkVS (vs_id x) (vs_env x) (vs_vol x) kind url ref path cred uid gid stack restart auto hook
    (vs_hash x) (vs_commit x) (vs_synced x) (vs_status x) (vs_error x) (vs_warnings x) (vs_created x) (vs_by x).
(** The row with everything the document says, the webhook aside ([hook] is the
    one it has). *)
Definition applyVolumeSourceSpec (x : VolSources.VolumeSource) (v : Manifest.VolumeSource) (cred stack : string) : VolSources.VolumeSource :=
  match vp_Git (vs_Source v) with
  | Some g => spec_source x "git" (trimmed (gt_URL g)) (trimmed (gt_Ref g)) (trimmed (gt_Path g)) cred (vs_UID v) (vs_GID v) stack (trimmed (vs_RestartTargets v)) (vs_AutoSync v) (vs_webhook x)
  | None => spec_source x "inline" "" "" "" "" (vs_UID v) (vs_GID v) stack (trimmed (vs_RestartTargets v)) false ""
  end.
Definition with_hook (x : VolSources.VolumeSource) (hook : string) : VolSources.VolumeSource :=
  spec_source x (vs_kind x) (vs_url x) (vs_ref x) (vs_path x) (vs_cred x) (vs_uid x) (vs_gid x) (vs_stack x) (vs_restart x) (vs_auto x) hook.
Definition resync (x : VolSources.VolumeSource) : VolSources.VolumeSource :=
  mkVS (vs_id x) (vs_env x) (vs_vol x) (vs_kind x) (vs_url x) (vs_ref x) (vs_path x) (vs_cred x) (vs_uid x) (vs_gid x) (vs_stack x) (vs_restart x) (vs_auto x) (vs_webhook x)
    "" (vs_commit x) (vs_synced x) (vs_status x) (vs_error x) (vs_warnings x) (vs_created x) (vs_by x).
Definition same_spec (a b : VolSources.VolumeSource) : bool :=
  bool_decide (vs_kind a = vs_kind b) && bool_decide (vs_url a = vs_url b) && bool_decide (vs_ref a = vs_ref b) && bool_decide (vs_path a = vs_path b) && bool_decide (vs_cred a = vs_cred b) &&
  Bool.eqb (vs_auto a) (vs_auto b) && (vs_uid a =? vs_uid b) && (vs_gid a =? vs_gid b) && bool_decide (vs_stack a = vs_stack b) && bool_decide (vs_restart a = vs_restart b) && bool_decide (vs_webhook a = vs_webhook b).
Definition linked_stack (env name : string) : M (Detail + string) :=
  if bool_decide (name = "") then ret (inr "")
  else
    let! r := lookup_row (fun db => StackByName db env name) in
    ret (match r with Some s => inr (sx_id s) | None => if pending KindStack name then inr "" else inl (NoSuchStack name) end).
(** A name a delivery on the volume owns; an error blocks too. *)
Definition owned_name (env : string) (v : Manifest.VolumeSource) : M (option Detail) :=
  match vp_Files (vs_Source v) with
  | [] => ret None
  | l => let! b := fate in fun s => (Ok (if b then Some StoreTrouble else option_map OwnedName (clash (p_pki (rn_db s)) env (vs_Volume v) (map fl_Path l))), s)
  end.
Definition store_files (id : string) (files : list Volumes.File) : M unit := write (fun db => let* x := SetVolSourceFiles (p_src db) id files in Ok (set_src db x)).

Definition ensureVolumeSource (v : Manifest.VolumeSource) : M unit :=
  let cl := cluster (vs_Cluster v) in
  let say := report KindVolumeSource (vs_Volume v) cl in
  let hook_name := "volume-" +:+ vs_Volume v in
  let! e := envFor KindVolumeSource (vs_Volume v) cl in
  match e with
  | None => ret tt
  | Some env =>
  let! cred := source_cred (vp_Git (vs_Source v)) in
  match cred with
  | inl why => say Blocked why ""
  | inr cred =>
  let! stack := linked_stack env (vs_Stack v) in
  match stack with
  | inl why => say Blocked why ""
  | inr stack =>
  let! named := namedWebhook (vs_Webhook v) env in
  match named with
  | inl why => say Blocked why ""
  | inr named =>
  let! o := owned_name env v in
  match o with
  | Some why => say Blocked why ""
  | None =>
  let! r := lookup_row (fun db => VolumeSourceByVolume (p_src db) env (vs_Volume v)) in
  match r with
  | None =>
      if negb apply then say Create NoDetail ""
      else
        let! t := tick in
        let id := id_of "vsr_" t in
        let row := applyVolumeSourceSpec (mkVS id env (vs_Volume v) "" "" "" "" "" 0 0 "" "" false "" "" "" None "" "" "" 0 "") v cred stack in
        let! row := (if bool_decide (vs_kind row = "git") then let! h := targetWebhook named "" (vs_auto row) hook_name env cl in ret (with_hook row h) else ret row) in
        let! _ := write (fun db => let* x := CreateVolumeSource (references_of db) (p_src db) row (clock t) in Ok (set_src db x)) in
        let! _ := (if bool_decide (vs_kind row = "inline") then store_files id (files_of v) else ret tt) in
        let! _ := auditEnsure KindVolumeSource env (vs_Volume v) Create in
        let! _ := go (SyncSource (resync row)) in
        say Create NoDetail id
  | Some ex =>
      let want := applyVolumeSourceSpec ex v cred stack in
      let! want := (if bool_decide (vs_kind want = "git") then let! h := targetWebhook named (vs_webhook ex) (vs_auto want) hook_name env cl in ret (with_hook want h) else ret want) in
      let! changed := (if bool_decide (vs_kind want = "inline") then let! cur := read (fun db => VolSourceFiles (p_src db) (vs_id ex)) in ret (negb (volFilesEqual cur (files_of v))) else ret false) in
      if same_spec want ex && negb changed then say InSync NoDetail (vs_id ex)
      else
        let! _ := (if apply then
                     let! _ := write (fun db => let* x := UpdateVolumeSource (references_of db) (p_src db) want in Ok (set_src db x)) in
                     let! _ := (if bool_decide (vs_kind want = "inline") then store_files (vs_id want) (files_of v) else ret tt) in
                     let! _ := auditEnsure KindVolumeSource env (vs_Volume v) Update in
                     go (SyncSource (resync want))
                   else ret tt) in
        say Update NoDetail (vs_id ex)
  end end end end end end.
End Ensure.
