(* ===== verification/Reconcile.v ===== *)
(** * Plan and apply of a provisioning document: the walk and the handlers

    Models the rest of [internal/api/manifest.go]: which capability a kind asks
    for and where, the preflight over the whole document, the walk in
    [manifest.Order], [runManifest] with its history and audit rows. The walk is
    shown to be the ensures of the document's resources one after another. *)
From S2P Require Import Prelude GoStd Timestamps Manifest Keyrings Certs VolSources Caps ProvStore Provision.
Local Open Scope string_scope.
Local Open Scope list_scope.
Local Open Scope daffa_scope.

(** ** Resources *)

Inductive Resource :=
| RSSHKey (x : SSHKey) | RRegistry (x : Registry) | RGitCredential (x : GitCredential) | RNetwork (x : Network) | RCA (x : CA) | RCertificate (x : Manifest.Certificate)
| RKeyring (x : Manifest.Keyring) | RCertDelivery (x : Manifest.CertDelivery) | RKeyringDelivery (x : Manifest.KeyringDelivery) | RGeneratedSecret (x : GeneratedSecret)
| RWebhook (x : Manifest.Webhook) | RStack (x : Manifest.Stack) | RVolumeSource (x : Manifest.VolumeSource).
Definition of_kind (m : Manifest.Manifest) (k : Kind) : list Resource :=
  match k with
  | KindSSHKey => map RSSHKey (m_SSHKeys m) | KindRegistry => map RRegistry (m_Registries m) | KindGitCredential => map RGitCredential (m_GitCredentials m)
  | KindNetwork => map RNetwork (m_Networks m) | KindCA => map RCA (m_CAs m) | KindCertificate => map RCertificate (m_Certificates m) | KindKeyring => map RKeyring (m_Keyrings m)
  | KindCertDelivery => map RCertDelivery (m_CertDeliveries m) | KindKeyringDelivery => map RKeyringDelivery (m_KeyringDeliveries m)
  | KindGeneratedSecret => map RGeneratedSecret (m_GeneratedSecrets m) | KindWebhook => map RWebhook (m_Webhooks m) | KindStack => map RStack (m_Stacks m)
  | KindVolumeSource => map RVolumeSource (m_VolumeSources m)
  end.
Definition resources (m : Manifest.Manifest) : list Resource := flat_map (of_kind m) Order.

(** ** Authorization *)

Definition manifestCapFor (k : Kind) : Cap * bool :=
  match k with
  | KindSSHKey => (SSHKeysEdit, false) | KindRegistry => (RegistriesEdit, false) | KindGitCredential => (GitCredsEdit, false) | KindNetwork => (NetworksEdit, true)
  | KindCA | KindCertificate | KindCertDelivery => (CertsEdit, false) | KindKeyring | KindKeyringDelivery => (KeyringsEdit, false)
  | KindGeneratedSecret => (StacksEdit, true) | KindWebhook => (WebhooksEdit, true) | KindStack => (StacksEdit, true) | KindVolumeSource => (VolSourcesEdit, true)
  end.
(** A capability and where it is asked for: "" is the whole fleet. *)
Record Need := mkNeed { nd_cap : Cap; nd_cluster : string }.
Definition need (k : Kind) (cl : string) : Need := let '(c, scoped) := manifestCapFor k in mkNeed c (if scoped then cl else "").
Inductive Denial := DeniedFleet (c : Cap) | DeniedOn (c : Cap) (cl : string).

Section Walk.
Context `{O : Draws} (q : Req).
#[local] Abbreviation m := (q_m q).

Definition needs_of (r : Resource) : list Need :=
  match r with
  | RSSHKey _ => [need KindSSHKey ""]
  | RRegistry _ => [need KindRegistry ""]
  | RGitCredential _ => [need KindGitCredential ""]
  | RNetwork n => [need KindNetwork (cluster q (nw_Cluster n))]
  | RCA _ => [need KindCA ""]
  | RCertificate _ => [need KindCertificate ""]
  | RKeyring _ => [need KindKeyring ""]
  | RCertDelivery _ => [need KindCertDelivery ""]
  | RKeyringDelivery _ => [need KindKeyringDelivery ""]
  | RGeneratedSecret _ => []
  | RWebhook w => [need KindWebhook (if wh_Shared w then "" else cluster q (wh_Cluster w))]
  | RStack st => need KindStack (cluster q (st_Cluster st)) :: (if st_AutoDeploy st && bool_decide (st_Webhook st = "") then [need KindWebhook (cluster q (st_Cluster st))] else [])
  | RVolumeSource v => need KindVolumeSource (cluster q (vs_Cluster v)) :: (if vs_AutoSync v && bool_decide (vs_Webhook v = "") then [need KindWebhook (cluster q (vs_Cluster v))] else [])
  end.
(** The order of the loops of [preflight]. *)
Definition preflight_order : list Kind :=
  [KindSSHKey; KindRegistry; KindGitCredential; KindNetwork; KindCA; KindCertificate; KindKeyring; KindCertDelivery; KindKeyringDelivery; KindWebhook; KindStack; KindVolumeSource].
Definition needs : list Need := flat_map needs_of (flat_map (of_kind m) preflight_order).

Definition holds (c : Cap) (env : string) : bool := ScopedHas (ac_caps (q_user q)) c env.
(** [None]: authorized. A lookup that fails ends the checks, as authorized. *)
Fixpoint check_needs (l : list Need) : M (option Denial) :=
  match l with
  | [] => ret None
  | n :: l =>
      if bool_decide (nd_cluster n = "") then (if holds (nd_cap n) "" then check_needs l else ret (Some (DeniedFleet (nd_cap n))))
      else fun s => match resolveCluster (nd_cluster n) s with
                    | (Err _, s) => (Ok None, s)
                    | (Ok id, s) => if holds (nd_cap n) (if bool_decide (id = "") then "" else id) then check_needs l s else (Ok (Some (DeniedOn (nd_cap n) (nd_cluster n))), s)
                    end
  end.
Definition preflight : M (option Denial) := check_needs needs.

(** ** The walk *)

Definition walk : M unit :=
  eachM (fun k => match k with
    | KindSSHKey => eachM (ensureSSHKey q) (m_SSHKeys m)
    | KindRegistry => eachM (ensureRegistry q) (m_Registries m)
    | KindGitCredential => eachM (ensureGitCredential q) (m_GitCredentials m)
    | KindNetwork => eachM (ensureNetwork q) (m_Networks m)
    | KindCA => eachM (ensureCA q) (m_CAs m)
    | KindCertificate => eachM (ensureCertificate q) (m_Certificates m)
    | KindKeyring => eachM (ensureKeyring q) (m_Keyrings m)
    | KindCertDelivery => eachM (ensureCertDelivery q) (m_CertDeliveries m)
    | KindKeyringDelivery => eachM (ensureKeyringDelivery q) (m_KeyringDeliveries m)
    | KindGeneratedSecret => eachM (ensureGeneratedSecret q) (m_GeneratedSecrets m)
    | KindWebhook => eachM (ensureWebhook q) (m_Webhooks m)
    | KindStack => eachM (ensureStack q) (m_Stacks m)
    | KindVolumeSource => eachM (ensureVolumeSource q) (m_VolumeSources m)
    end) Order.
Definition ensure (r : Resource) : M unit :=
  match r with
  | RSSHKey x => ensureSSHKey q x | RRegistry x => ensureRegistry q x | RGitCredential x => ensureGitCredential q x | RNetwork x => ensureNetwork q x | RCA x => ensureCA q x
  | RCertificate x => ensureCertificate q x | RKeyring x => ensureKeyring q x | RCertDelivery x => ensureCertDelivery q x | RKeyringDelivery x => ensureKeyringDelivery q x
  | RGeneratedSecret x => ensureGeneratedSecret q x | RWebhook x => ensureWebhook q x | RStack x => ensureStack q x | RVolumeSource x => ensureVolumeSource q x
  end.
End Walk.

(** ** The handlers *)

Record Report := mkReport { rp_name : string; rp_hash : string; rp_res : list ResView; rp_unfilled : list UnfilledView; rp_summary : Summary }.
Record MWorld := mkMW { mw_db : PDB; mw_applies : list (ApplyRow Report) }.
Inductive ManifestReply := BadManifest (e : ParseErr) | BadDocument (l : list Problem) | Unauthenticated | Forbidden (d : Denial) | Failed (e : MErr) | Reported (r : Report).

Section Handlers.
Context `{O : Draws} (parse : string -> res ParseErr Manifest.Manifest) (sha256_hex : string -> string).
Definition Hash (doc : string) : string := "sha256:" +:+ sha256_hex doc.
Definition start (db : PDB) (faults : list bool) (t : nat) : Run := mkRun db ∅ ∅ [] [] no_summary [] faults t.
Definition outcomeOf (r : res MErr unit) : string := match r with Ok _ => "ok" | Err _ => "error" end.
Definition report_of (name doc : string) (s : Run) : Report := mkReport name (Hash doc) (rn_res s) (rn_unfilled s) (rn_summary s).
(** The history row is best effort, whatever became of the walk. *)
Definition record_apply (l : list (ApplyRow Report)) (row : ApplyRow Report) (s : Run) : list (ApplyRow Report) * Run :=
  match fate s with
  | (Ok false, s) => (match CreateManifestApply l row with Ok l => l | Err _ => l end, s)
  | (_, s) => (l, s)
  end.

Record ManifestRequest := mkMR { mq_document : string; mq_values : gmap string string }.
Definition runManifest (req : ManifestRequest) (user : option Actor) (apply : bool) (pool : string -> option PoolEnv) (faults : list bool) (t : nat) (w : MWorld) : ManifestReply * MWorld * list Background :=
  let doc := mq_document req in
  match parse doc with
  | Err e => (BadManifest e, w, [])
  | Ok m =>
      match Validate ParseIP url_parse m with
      | (_ :: _) as l => (BadDocument l, w, [])
      | [] =>
          match user with
          | None => (Unauthenticated, w, [])
          | Some u =>
              let q := mkReq m (mq_values req) u apply pool in
              let '(denied, s) := preflight q (start (mw_db w) faults t) in
              match denied with
              | Ok (Some d) =>
                  let s := snd (audit q "" ("POST /api/manifest/" +:+ (if apply then "apply" else "plan")) "" "denied" s) in
                  (Forbidden d, mkMW (rn_db s) (mw_applies w), [])
              | _ =>
                  let '(r, s) := walk q s in
                  let rep := report_of (m_Name m) doc s in
                  let '(at_, s) := (rn_tick s, ticked s) in
                  let '(applies, s) := record_apply (mw_applies w) (mkApply ("man_" +:+ NewID at_) (m_Name m) (Hash doc) doc rep (ac_id u) (clock at_) (negb apply)) s in
                  let s := if apply then snd (audit q "" "manifest.apply" (m_Name m) (outcomeOf r) s) else s in
                  (match r with Ok _ => Reported rep | Err e => Failed e end, mkMW (rn_db s) applies, rn_bg s)
              end
          end
      end
  end.
Definition handleManifestPlan (req : ManifestRequest) (user : option Actor) := runManifest req user false.
Definition handleManifestApply (req : ManifestRequest) (user : option Actor) := runManifest req user true.
(** The list is light: no document, no report. *)
Record ApplyView := mkApplyView { av_id : string; av_name : string; av_hash : string; av_by : string; av_at : Z; av_dry : bool; av_document : string; av_report : option Report }.
Definition viewManifestApply (full : bool) (a : ApplyRow Report) : ApplyView :=
  mkApplyView (ma_id a) (ma_name a) (ma_hash a) (ma_by a) (ma_at a) (ma_dry a) (if full then ma_doc a else "") (if full then Some (ma_report a) else None).
Definition handleListManifestApplies (w : MWorld) : list ApplyView := map (viewManifestApply false) (ListManifestApplies (mw_applies w)).
Definition handleGetManifestApply (w : MWorld) (id : string) : option ApplyView := match ManifestApplyByID (mw_applies w) id with Ok a => Some (viewManifestApply true a) | Err _ => None end.
End Handlers.
