(* ===== verification/ProvisionFacts.v ===== *)
(** * What a run of a provisioning document leaves alone

    A calculus for the monad of [Provision]: [Same], pieces that do not write, and
    [keeps], the order in which tables may grow. A plan writes nothing; whatever
    the document, whichever calls fail, an apply only adds rows and changes the
    few columns that are safe. *)
From S2P Require Import Prelude GoStd Manifest Keyrings Volumes Mirror Certs CertDeliveries VolSources Caps ProvStore Provision Reconcile.
Local Open Scope string_scope.
Local Open Scope list_scope.
Local Open Scope daffa_scope.
Local Open Scope Z_scope.

(** ** Pieces that do not write *)

(** The tables and the goroutines: what a run does to the world. *)
Definition deeds (s : Run) : PDB * list Background := (rn_db s, rn_bg s).
Definition Same {A} (m : M A) : Prop := forall s, deeds (m s).2 = deeds s.
Create HintDb same discriminated.

Lemma same_ret {A} (a : A) : Same (ret a). Proof. done. Qed.
Lemma same_throw {A} e : Same (@throw A e). Proof. done. Qed.
Lemma same_bnd {A B} (m : M A) (k : A -> M B) : Same m -> (forall a, Same (k a)) -> Same (bnd m k).
Proof. intros Hm Hk s. unfold bnd. specialize (Hm s). destruct (m s) as [[a|e] s']; [|done]. rewrite Hk. done. Qed.
Lemma same_fate : Same fate. Proof. intros s. unfold fate. by destruct (rn_faults s). Qed.
(** A piece that looks at its state first. *)
Lemma same_dep {A} (f : Run -> M A) : (forall s, Same (f s)) -> Same (fun s => f s s). Proof. intros H s. apply H. Qed.
Lemma same_read {A} (f : PDB -> A) : Same (read f).
Proof. apply same_bnd; [apply same_fate|]. intros [|] s; done. Qed.
Lemma same_lookup {A} (f : PDB -> res KErr A) : Same (lookup_row f). Proof. apply same_read. Qed.
Lemma same_tick : Same tick. Proof. done. Qed.
Lemma same_push v : Same (push_view v). Proof. done. Qed.
Lemma same_option {A} e (o : option A) : Same (of_option e o). Proof. by destruct o. Qed.
Lemma same_each {A} (f : A -> M unit) l : (forall x, Same (f x)) -> Same (eachM f l).
Proof. intros H. induction l as [|x l IH]; [apply same_ret|]. apply same_bnd; [apply H|]. intros _. apply IH. Qed.
Lemma same_fold {A B} (f : A -> B -> M B) l : (forall x b, Same (f x b)) -> forall b, Same (foldM f l b).
Proof. intros H. induction l as [|x l IH]; intros b; [apply same_ret|]. apply same_bnd; [apply H|]. apply IH. Qed.
#[export] Hint Resolve same_ret same_throw same_fate same_read same_lookup same_tick same_push same_option : same.

Lemma same_report k n c v d i : Same (report k n c v d i). Proof. apply same_push. Qed.
Lemma same_seal `{Draws} v : Same (seal v). Proof. apply same_option. Qed.
#[export] Hint Resolve same_report same_seal : same.

(** [same]: the structure of a piece, down to the calls. *)
Ltac same1 :=
  match goal with
  | |- Same (bnd _ _) => apply same_bnd; [|intros ?]
  | |- Same (eachM _ _) => apply same_each; intros ?
  | |- Same (foldM _ _ _) => apply same_fold; intros ? ?
  | |- Same (match ?x with _ => _ end) => destruct x
  | |- Same (if ?x then _ else _) => destruct x
  | |- Same (let _ := _ in _) => cbv zeta
  | |- Same _ => solve [auto with same]
  | |- Same (fun s => (Ok _, _)) => intros ?; reflexivity
  | |- Same (fun s => _) => let s := fresh "s" in let H := fresh "H" in intros s; cbv beta; match goal with |- deeds (snd (?g s)) = _ => assert (Same g) as H; [|exact (H s)] end
  end.
Ltac planned :=
  match goal with
  | H : q_apply ?q = false |- _ => rewrite H; cbn [negb]
  | |- Same (if _ && false then _ else _) => rewrite andb_false_r
  | |- Same (if false then _ else ?x) => change (Same x)
  end.
Ltac same := repeat first [planned | same1].

Section Plans.
Context `{O : Draws} (q : Req).
Lemma same_resolve name : Same (resolveCluster name).
Proof.
  intros s. unfold resolveCluster. destruct (rn_envs s !! name); [done|].
  refine (same_bnd _ _ (same_lookup _) _ s). intros r s'. done.
Qed.
Hint Resolve same_resolve : same.
Lemma same_envFor k n c : Same (envFor k n c).
Proof. unfold envFor. same. Qed.
Hint Resolve same_envFor : same.
Lemma same_generated n : Same (generatedValue n).
Proof.
  intros s. unfold generatedValue. destruct (rn_gens s !! n); [done|]. refine (same_bnd _ _ (same_lookup _) _ s). intros [row|]; same.
Qed.
Hint Resolve same_generated : same.
Lemma same_expand v : Same (expandGenerated v).
Proof.
  intros s. unfold expandGenerated. assert (forall l s, deeds (expand_tokens l s).2 = deeds s) as H.
  { clear s v. induction l as [|[c|n] l IH]; intros s; [done| |]; cbn [expand_tokens].
    - specialize (IH s). destruct (expand_tokens l s) as [[[e out] ok] s']. done.
    - pose proof (same_generated n s) as Hg. destruct (generatedValue n s) as [r s1]. specialize (IH s1). destruct (expand_tokens l s1) as [[[e out] ok] s2]. cbn in *.
      destruct r as [[v|]|x]; cbn; congruence. }
  specialize (H (scan 0 v) s). destruct (expand_tokens _ s) as [[[e out] ok] s']. by destruct e.
Qed.
Hint Resolve same_expand : same.
Lemma same_env_want v : Same (env_want q v).
Proof. unfold env_want. same. Qed.
Hint Resolve same_env_want : same.
Lemma same_env_one v acc : Same (env_one q v acc).
Proof. destruct acc as [stored changed]. unfold env_one. same. Qed.
Lemma same_file_want f acc : Same (file_want q f acc).
Proof. destruct acc as [owned changed]. unfold file_want. same. Qed.
Lemma same_file_one o acc : Same (file_one o acc).
Proof. destruct acc as [stored changed]. unfold file_one. same. Qed.
Hint Resolve same_env_one same_file_want same_file_one : same.
Lemma same_slots st cl row : Same (reportStackSlots q st cl row).
Proof.
  unfold reportStackSlots. apply same_bnd; [destruct row; same|]. intros stored. apply same_bnd; [destruct row; same|]. intros files.
  apply same_bnd; [|intros _]; apply same_each; intros x; [unfold slot_env, unfilled | unfold slot_file, unfilled]; same.
Qed.
Hint Resolve same_slots : same.
Lemma same_find_cert env n : Same (find_cert env n).
Proof. unfold find_cert. same. Qed.
Hint Resolve same_find_cert : same.
Lemma same_certs env l : Same (resolve_certs q env l).
Proof. induction l as [|dc l IH]; simpl; same; apply IH. Qed.
Lemma same_bundle l : Same (resolve_bundle q l).
Proof. induction l as [|n l IH]; simpl; same; apply IH. Qed.
Hint Resolve same_certs same_bundle : same.
Lemma same_traefik x : Same (second_traefik x).
Proof. unfold second_traefik. same. Qed.
Lemma same_named n env : Same (namedWebhook q n env).
Proof. unfold namedWebhook. same. Qed.
Lemma same_cred g : Same (source_cred q g).
Proof. unfold source_cred. same. Qed.
Lemma same_linked env n : Same (linked_stack q env n).
Proof. unfold linked_stack. same. Qed.
Lemma same_owned env v : Same (owned_name env v).
Proof. unfold owned_name. same. Qed.
Hint Resolve same_traefik same_named same_cred same_linked same_owned : same.

Context (Hplan : q_apply q = false).
Lemma same_target named cur auto base env cl : Same (targetWebhook q named cur auto base env cl).
Proof using Hplan. unfold targetWebhook. same. Qed.
Hint Resolve same_target : same.
Lemma same_stack_env id st : Same (ensureStackEnv q id st).
Proof using Hplan. unfold ensureStackEnv. same. Qed.
Lemma same_stack_secrets id st : Same (ensureStackSecrets q id st).
Proof using Hplan. unfold ensureStackSecrets. same. Qed.
Lemma same_audit k env n v : Same (auditEnsure q k env n v).
Proof using Hplan. unfold auditEnsure. same. Qed.
Hint Resolve same_stack_env same_stack_secrets same_audit : same.
Lemma same_converge st cl env cred named created ex : Same (convergeStack q st cl env cred named created ex).
Proof using Hplan. unfold convergeStack. cbv zeta. same. Qed.
Hint Resolve same_converge : same.
Lemma same_ensure r : Same (ensure q r).
Proof using Hplan.
  destruct r; cbn [ensure]; unfold ensureSSHKey, ensureRegistry, ensureGitCredential, ensureNetwork, ensureCA, ensureCertificate, ensureKeyring, ensureCertDelivery, ensureKeyringDelivery,
    ensureGeneratedSecret, ensureWebhook, ensureStack, ensureVolumeSource; cbv zeta; same.
Qed.
End Plans.

Lemma same_needs `{O : Draws} (q : Req) l : Same (check_needs q l).
Proof.
  induction l as [|n l IH]; cbn [check_needs]; [apply same_ret|]. case_bool_decide; [destruct (holds _ _ _); [done|apply same_ret]|].
  intros s. pose proof (same_resolve (nd_cluster n) s) as H1. destruct (resolveCluster (nd_cluster n) s) as [[id|e] s']; [|done]. cbn [snd] in H1.
  destruct (holds _ _ _); [|done]. by rewrite IH.
Qed.

(** ** The walk, resource by resource *)

Lemma eachM_app {A} (f : A -> M unit) l1 l2 s : eachM f (l1 ++ l2) s = bnd (eachM f l1) (fun _ => eachM f l2) s.
Proof.
  revert s. induction l1 as [|x l1 IH]; intros s; [done|]. cbn [eachM app]. unfold bnd. destruct (f x s) as [[[]|e] s']; [|done]. by rewrite IH.
Qed.
Lemma eachM_map {A B} (g : A -> B) (f : B -> M unit) l s : eachM f (map g l) s = eachM (fun x => f (g x)) l s.
Proof. revert s. induction l as [|x l IH]; intros s; [done|]. cbn [map eachM]. unfold bnd. destruct (f (g x) s) as [[[]|e] s']; [apply IH|done]. Qed.
Lemma eachM_flat {A B} (g : A -> M unit) (f : B -> M unit) (h : A -> list B) l s :
  (forall x s, g x s = eachM f (h x) s) -> eachM g l s = eachM f (flat_map h l) s.
Proof.
  intros H. revert s. induction l as [|x l IH]; intros s; [done|]. cbn [flat_map eachM]. rewrite eachM_app. unfold bnd. rewrite H. destruct (eachM f (h x) s) as [[[]|e] s']; [apply IH|done].
Qed.
Lemma walk_resources `{O : Draws} (q : Req) s : walk q s = eachM (ensure q) (resources (q_m q)) s.
Proof. apply eachM_flat. intros k s'. destruct k; cbn [of_kind]; rewrite eachM_map; done. Qed.
