(* ===== verification/ProvisionKeeps.v ===== *)
(** * An apply only ensures

    [keeps a b]: nothing of the tables [a] is gone in [b], and only the columns
    that are safe to change differ. Every piece of the walk keeps the tables,
    whatever the document says and whichever calls fail. *)
From S2P Require Import Prelude GoStd Manifest Keyrings Volumes Mirror Certs CertDeliveries VolSources Caps ProvStore Provision Reconcile ProvisionFacts.
Local Open Scope string_scope.
Local Open Scope list_scope.
Local Open Scope daffa_scope.
Local Open Scope Z_scope.

(** ** Tables that grow *)

(** The old rows come first, each related to what it became. *)
Definition grown {A} (R : A -> A -> Prop) (l l' : list A) : Prop := exists l1 l2, l' = l1 ++ l2 /\ Forall2 R l l1.
Section grown.
Context {A : Type} (R : A -> A -> Prop).
Lemma all_refl (l : list A) : (forall x, R x x) -> Forall2 R l l.
Proof. intros H. by induction l; constructor. Qed.
Lemma grown_refl l : (forall x, R x x) -> grown R l l.
Proof. intros H. exists l, []. rewrite app_nil_r. split; [done|]. by apply all_refl. Qed.
Lemma grown_trans l1 l2 l3 : (forall x y z, R x y -> R y z -> R x z) -> grown R l1 l2 -> grown R l2 l3 -> grown R l1 l3.
Proof.
  intros HR (a & b & -> & Hab) (c & d & -> & Hcd). apply Forall2_app_inv_l in Hcd as (c1 & c2 & H1 & H2 & ->).
  exists c1, (c2 ++ d). rewrite app_assoc. split; [done|]. clear -HR Hab H1. revert c1 H1. induction Hab as [|x y l l' Hxy _ IH]; intros c1 H1; inversion H1; subst; constructor; [eauto|]. by apply IH.
Qed.
Lemma grown_app l x : (forall x, R x x) -> grown R l (l ++ [x]).
Proof. intros H. exists l, [x]. split; [done|]. by apply all_refl. Qed.
Lemma grown_map f l : (forall x, x ∈ l -> R x (f x)) -> grown R l (map f l).
Proof.
  intros H. exists (map f l), []. rewrite app_nil_r. split; [done|]. induction l as [|x l IH]; constructor; [apply H; by left|]. apply IH. intros y Hy. apply H. by right.
Qed.
Lemma grown_elem l l' x : grown R l l' -> x ∈ l -> exists y, y ∈ l' /\ R x y.
Proof.
  intros (a & b & -> & H) Hx. apply list_elem_of_lookup in Hx as [i Hi]. destruct (Forall2_lookup_l _ _ _ _ _ H Hi) as (y & Hy & Hr). exists y. split; [|done].
  apply elem_of_app. left. by eapply list_elem_of_lookup_2.
Qed.
End grown.

(** ** What may change in a row *)

Definition ca_le (x y : CertAuthority) : Prop := y = set_outbound x (ca_outbound y).
Definition leaf_le (x y : Certs.Certificate) : Prop := y = with_renew x (ct_renew y).
Definition ring_le (x y : Keyrings.Keyring) : Prop := y = mkRing (k_id x) (k_name x) (k_rotate y) (k_created x).
(** A delivery stays on its volume and keeps what the last sync left. *)
Definition cd_core (x : Certs.CertDelivery) := (cd_id x, cd_env x, cd_volume x, cd_hash x, cd_synced x, cd_status x, cd_error x, cd_created x, cd_protected x).
Definition cd_le (x y : Certs.CertDelivery) : Prop := cd_core y = cd_core x.
(** A stack stays where it is, keeps its engine and what is live; git stays git. *)
Definition sx_core (x : StackRow) := (sx_id x, sx_env x, sx_node x, sx_name x, sx_engine x, sx_group x, sx_hash x, sx_commit x, sx_at x, sx_created x, sx_by x).
Definition sx_le (x y : StackRow) : Prop := sx_core y = sx_core x /\ (sx_kind x = "git" -> sx_kind y = "git").
Definition vs_core (x : VolSources.VolumeSource) := (vs_id x, vs_env x, vs_vol x, vs_hash x, vs_commit x, vs_synced x, vs_status x, vs_error x, vs_warnings x, vs_created x, vs_by x).
Definition vs_le (x y : VolSources.VolumeSource) : Prop := vs_core y = vs_core x.

(** The primary keys of the tables with rows that change, and a foreign key. *)
Record pk (a : PDB) : Prop := {
  pk_cas : NoDup (map ca_id (cas (p_pki a))); pk_leaves : NoDup (map ct_id (leaves (p_pki a))); pk_rings : NoDup (map k_id (rings (p_rings a))); pk_stacks : NoDup (map sx_id (p_stacks a)); pk_src : NoDup (map vs_id (sources (p_src a)));
  (** A version belongs to a ring that is there. *)
  fk_versions : forall v, v ∈ versions (p_rings a) -> v_ring v ∈ map k_id (rings (p_rings a)) }.
(** The inline files of a source: as they were, or what the document gives for its
    volume. *)
Definition inline_of (db : SDB) (id : string) : list Volumes.File := default [] (inline_files db !! id).
Definition inline_le (ti : string -> list Volumes.File -> Prop) (a b : SDB) : Prop :=
  forall x, x ∈ sources a -> inline_of b (vs_id x) = inline_of a (vs_id x) \/ ti (vs_vol x) (inline_of b (vs_id x)).
(** [tv], [tf]: the variables and files the document declares; [ti]: the inline files
    it gives for a volume. What it does not declare stays as it is. *)
Record keeps (tv tf : string -> bool) (ti : string -> list Volumes.File -> Prop) (a b : PDB) : Prop := {
  k_hosts : p_hosts b = p_hosts a; k_nodes : p_nodes b = p_nodes a;
  k_keys : grown eq (p_keys a) (p_keys b); k_regs : grown eq (p_regs a) (p_regs b); k_creds : grown eq (p_creds a) (p_creds b); k_gens : grown eq (p_gens a) (p_gens b);
  k_hooks : grown eq (p_hooks a) (p_hooks b); k_nets : grown eq (p_nets a) (p_nets b); k_audit : grown eq (p_audit a) (p_audit b);
  k_stacks : grown sx_le (p_stacks a) (p_stacks b);
  k_vars : forall id e, e ∈ default [] (p_vars a !! id) -> exists e', e' ∈ default [] (p_vars b !! id) /\ se_key e' = se_key e /\ (tv (se_key e) = false -> e' = e);
  k_files : forall id e, e ∈ default [] (p_files a !! id) -> exists e', e' ∈ default [] (p_files b !! id) /\ sc_name e' = sc_name e /\ (tf (sc_name e) = false -> e' = e);
  k_cas : grown ca_le (cas (p_pki a)) (cas (p_pki b)); k_leaves : grown leaf_le (leaves (p_pki a)) (leaves (p_pki b));
  k_cdels : grown cd_le (cdels (p_pki a)) (cdels (p_pki b)); k_fdels : fdels (p_pki b) = fdels (p_pki a);
  k_rings : grown ring_le (rings (p_rings a)) (rings (p_rings b)); k_dels : grown eq (deliveries (p_rings a)) (deliveries (p_rings b));
  k_versions : forall v, v ∈ versions (p_rings a) -> v ∈ versions (p_rings b);
  k_src : grown vs_le (sources (p_src a)) (sources (p_src b)); k_inline : inline_le ti (p_src a) (p_src b);
  k_pk : pk a -> pk b }.

Create HintDb keeps discriminated.
Section Keeps.
Context (tv tf : string -> bool) (ti : string -> list Volumes.File -> Prop).
#[local] Abbreviation keeps := (keeps tv tf ti).

Lemma ca_le_refl x : ca_le x x. Proof. by destruct x. Qed.
Lemma ca_le_trans x y z : ca_le x y -> ca_le y z -> ca_le x z. Proof. unfold ca_le. intros -> ->. done. Qed.
Lemma leaf_le_refl x : leaf_le x x. Proof. by destruct x. Qed.
Lemma leaf_le_trans x y z : leaf_le x y -> leaf_le y z -> leaf_le x z. Proof. unfold leaf_le. intros -> ->. done. Qed.
Lemma ring_le_refl x : ring_le x x. Proof. by destruct x. Qed.
Lemma ring_le_trans x y z : ring_le x y -> ring_le y z -> ring_le x z. Proof. unfold ring_le. intros -> ->. done. Qed.
Lemma cd_le_refl x : cd_le x x. Proof. done. Qed.
Lemma cd_le_trans x y z : cd_le x y -> cd_le y z -> cd_le x z. Proof. unfold cd_le. congruence. Qed.
Lemma sx_le_refl x : sx_le x x. Proof. done. Qed.
Lemma sx_le_trans x y z : sx_le x y -> sx_le y z -> sx_le x z. Proof. unfold sx_le. intros [H1 K1] [H2 K2]. split; [congruence|auto]. Qed.
Lemma vs_le_refl x : vs_le x x. Proof. done. Qed.
Lemma vs_le_trans x y z : vs_le x y -> vs_le y z -> vs_le x z. Proof. unfold vs_le. congruence. Qed.
Lemma inline_le_refl a : inline_le ti a a. Proof. by left. Qed.
Lemma inline_le_trans a b c : grown vs_le (sources a) (sources b) -> inline_le ti a b -> inline_le ti b c -> inline_le ti a c.
Proof.
  intros Hg H1 H2 x Hx. destruct (grown_elem _ _ _ _ Hg Hx) as (y & Hy & Hc). unfold vs_le, vs_core in Hc. injection Hc as E1 _ E2 _. specialize (H1 x Hx). specialize (H2 y Hy). rewrite E1, E2 in H2.
  destruct H2 as [->|H2]; [done|by right].
Qed.
Lemma eq_le_trans {A} (x y z : A) : x = y -> y = z -> x = z. Proof. congruence. Qed.
Hint Resolve ca_le_refl leaf_le_refl ring_le_refl cd_le_refl sx_le_refl vs_le_refl inline_le_refl grown_refl : keeps.
Hint Resolve ca_le_trans leaf_le_trans ring_le_trans cd_le_trans sx_le_trans vs_le_trans eq_le_trans : keeps.

Lemma tables_refl a : keeps a a.
Proof. constructor; eauto with keeps. Qed.
Lemma tables_trans a b c : keeps a b -> keeps b c -> keeps a c.
Proof.
  intros H1 H2. destruct H1, H2. constructor; try congruence; try (eapply grown_trans; [|eassumption|eassumption]; eauto with keeps; fail).
  - intros id e He. destruct (k_vars0 id e He) as (e1 & H1 & E1 & F1). destruct (k_vars1 id e1 H1) as (e2 & H2 & E2 & F2). exists e2. split; [done|]. split; [congruence|].
    intros Ht. rewrite F2, F1; [done..|]. by rewrite E1.
  - intros id e He. destruct (k_files0 id e He) as (e1 & H1 & E1 & F1). destruct (k_files1 id e1 H1) as (e2 & H2 & E2 & F2). exists e2. split; [done|]. split; [congruence|].
    intros Ht. rewrite F2, F1; [done..|]. by rewrite E1.
  - auto.
  - by eapply inline_le_trans.
  - auto.
Qed.

(** ** OnlyNode table at a time *)

Ltac one_table := intros; constructor; cbn; eauto with keeps; intros []; by constructor; cbn; auto.
Lemma keeps_keys db l : grown eq (p_keys db) l -> keeps db (set_keys db l). Proof. one_table. Qed.
Lemma keeps_regs db l : grown eq (p_regs db) l -> keeps db (set_regs db l). Proof. one_table. Qed.
Lemma keeps_creds db l : grown eq (p_creds db) l -> keeps db (set_creds db l). Proof. one_table. Qed.
Lemma keeps_gens db l : grown eq (p_gens db) l -> keeps db (set_gens db l). Proof. one_table. Qed.
Lemma keeps_hooks db l : grown eq (p_hooks db) l -> keeps db (set_hooks db l). Proof. one_table. Qed.
Lemma keeps_nets db l : grown eq (p_nets db) l -> keeps db (set_nets db l). Proof. one_table. Qed.
Lemma keeps_audit db l : grown eq (p_audit db) l -> keeps db (set_audit db l). Proof. one_table. Qed.
Lemma keeps_stacks db l : grown sx_le (p_stacks db) l -> (NoDup (map sx_id (p_stacks db)) -> NoDup (map sx_id l)) -> keeps db (set_stacks db l). Proof. one_table. Qed.
Lemma keeps_cas db l : grown ca_le (cas (p_pki db)) l -> (NoDup (map ca_id (cas (p_pki db))) -> NoDup (map ca_id l)) -> keeps db (set_pki db (set_cas (p_pki db) l)). Proof. one_table. Qed.
Lemma keeps_leaves db l : grown leaf_le (leaves (p_pki db)) l -> (NoDup (map ct_id (leaves (p_pki db))) -> NoDup (map ct_id l)) -> keeps db (set_pki db (set_leaves (p_pki db) l)). Proof. one_table. Qed.
Lemma keeps_cdels db l : grown cd_le (cdels (p_pki db)) l -> keeps db (set_pki db (set_cdels (p_pki db) l)). Proof. one_table. Qed.
Lemma keeps_rings db l : grown ring_le (rings (p_rings db)) l -> (NoDup (map k_id (rings (p_rings db))) -> NoDup (map k_id l)) -> keeps db (set_kdb db (set_rings (p_rings db) l)).
Proof.
  intros Hg Hnd. constructor; cbn; eauto with keeps. intros [? ? ? ? ? Hfk]; constructor; cbn; auto. intros v Hv. specialize (Hfk v Hv).
  apply list_elem_of_fmap in Hfk as (r & E & Hr). destruct (grown_elem _ _ _ _ Hg Hr) as (r' & Hr' & Hle). rewrite E. apply list_elem_of_fmap. exists r'. split; [by rewrite Hle|done].
Qed.
Lemma keeps_dels db l : grown eq (deliveries (p_rings db)) l -> keeps db (set_kdb db (set_deliveries (p_rings db) l)). Proof. one_table. Qed.
Lemma keeps_src db l : grown vs_le (sources (p_src db)) l -> (NoDup (map vs_id (sources (p_src db))) -> NoDup (map vs_id l)) -> keeps db (set_src db (mkSDB l (inline_files (p_src db)))). Proof. one_table; by left. Qed.
Lemma keeps_inline db fs : inline_le ti (p_src db) (mkSDB (sources (p_src db)) fs) -> keeps db (set_src db (mkSDB (sources (p_src db)) fs)). Proof. one_table. Qed.
Lemma keeps_vars db id l :
  (forall e, e ∈ default [] (p_vars db !! id) -> exists e', e' ∈ l /\ se_key e' = se_key e /\ (tv (se_key e) = false -> e' = e)) ->
  (forall m, default [] (m !! id) = l -> (forall i, i <> id -> m !! i = p_vars db !! i) -> keeps db (set_vars db m)).
Proof.
  intros H m Hm Ho. constructor; cbn; eauto with keeps; [|by intros []]. intros i e He. destruct (decide (i = id)) as [->|Hi]; [rewrite Hm; eauto|]. rewrite Ho by done. eauto.
Qed.
Lemma keeps_files db id l :
  (forall e, e ∈ default [] (p_files db !! id) -> exists e', e' ∈ l /\ sc_name e' = sc_name e /\ (tf (sc_name e) = false -> e' = e)) ->
  (forall m, default [] (m !! id) = l -> (forall i, i <> id -> m !! i = p_files db !! i) -> keeps db (set_files db m)).
Proof.
  intros H m Hm Ho. constructor; cbn; eauto with keeps; [|by intros []]. intros i e He. destruct (decide (i = id)) as [->|Hi]; [rewrite Hm; eauto|]. rewrite Ho by done. eauto.
Qed.

(** ** A calculus with what is known of the tables *)

Definition Keeps {A} (P : PDB -> Prop) (m : M A) : Prop := forall s, pk (rn_db s) -> P (rn_db s) -> keeps (rn_db s) (rn_db (m s).2).
Definition anyway (_ : PDB) : Prop := True.
Lemma keeps_weak {A} (P : PDB -> Prop) (m : M A) : Keeps anyway m -> Keeps P m.
Proof. intros H s Hpk _. by apply H. Qed.
Lemma same_db {A} (m : M A) s : Same m -> rn_db (m s).2 = rn_db s.
Proof. intros H. specialize (H s). unfold deeds in H. congruence. Qed.
Lemma keeps_same {A} P (m : M A) : Same m -> Keeps P m.
Proof. intros H s _ _. rewrite same_db by done. apply tables_refl. Qed.
(** A piece that does not write hands on what is known of the tables, and
    whatever is known of its result. *)
Lemma keeps_after {A B} (P : PDB -> Prop) (Q : A -> PDB -> Prop) (m : M A) (k : A -> M B) :
  Same m -> (forall s a, P (rn_db s) -> (m s).1 = Ok a -> Q a (rn_db s)) -> (forall a, Keeps (Q a) (k a)) -> Keeps P (bnd m k).
Proof.
  intros Hm HQ Hk s Hpk HP. unfold bnd. pose proof (same_db m s Hm) as Hs. specialize (HQ s). destruct (m s) as [[a|e] s']; cbn in *; [|rewrite Hs; apply tables_refl].
  rewrite <- Hs. apply Hk; rewrite Hs; [done|]. by apply HQ.
Qed.
Lemma keeps_reads {A B} (P : PDB -> Prop) (m : M A) (k : A -> M B) : Same m -> (forall a, Keeps P (k a)) -> Keeps P (bnd m k).
Proof. intros Hm Hk. by apply (keeps_after P (fun _ => P)). Qed.
Lemma keeps_bnd {A B} (P : PDB -> Prop) (m : M A) (k : A -> M B) : Keeps P m -> (forall a, Keeps anyway (k a)) -> Keeps P (bnd m k).
Proof.
  intros Hm Hk s Hpk HP. unfold bnd. specialize (Hm s Hpk HP). destruct (m s) as [[a|e] s']; [|done]. cbn [snd] in Hm. eapply tables_trans; [done|]. apply Hk; [|done]. by apply Hm.
Qed.
(** What is known and stays so as the tables grow. *)
Definition stable (P : PDB -> Prop) : Prop := forall a b, keeps a b -> P a -> P b.
Lemma keeps_stable {A B} (P : PDB -> Prop) (m : M A) (k : A -> M B) : stable P -> Keeps P m -> (forall a, Keeps P (k a)) -> Keeps P (bnd m k).
Proof.
  intros HS Hm Hk s Hpk HP. unfold bnd. specialize (Hm s Hpk HP). destruct (m s) as [[a|e] s']; [|done]. cbn [snd] in Hm. eapply tables_trans; [done|]. apply Hk; [by apply Hm|]. by eapply HS.
Qed.
Lemma keeps_write P f : (forall db db', pk db -> P db -> f db = Ok db' -> keeps db db') -> Keeps P (write f).
Proof.
  intros H s Hpk HP. unfold write, bnd. pose proof (same_db fate s same_fate) as Hs. destruct (fate s) as [[[|]|e] s1]; cbn in *; try (rewrite Hs; apply tables_refl). rewrite Hs.
  destruct (f (rn_db s)) as [db'|e] eqn:E; cbn; [by eapply H|]. rewrite Hs. apply tables_refl.
Qed.
Lemma fate_db s : rn_db (fate s).2 = rn_db s. Proof. apply same_db, same_fate. Qed.
Definition found {A} (f : PDB -> res KErr A) (db : PDB) : option A := match f db with Ok a => Some a | Err _ => None end.
Lemma read_result {A} (f : PDB -> A) s a : (read f s).1 = Ok a -> a = f (rn_db s).
Proof. unfold read, bnd. pose proof (fate_db s). destruct (fate s) as [[[|]|e] s1]; cbn in *; try done. intros [= <-]. by f_equal. Qed.
Lemma keeps_lookup {A B} (P : PDB -> Prop) (f : PDB -> res KErr A) (k : option A -> M B) :
  (forall a, Keeps (fun db => P db /\ found f db = a) (k a)) -> Keeps P (bnd (lookup_row f) k).
Proof. apply keeps_after; [auto with same|]. intros s a HP ->%read_result. done. Qed.
Lemma keeps_read {A B} (P : PDB -> Prop) (f : PDB -> A) (k : A -> M B) : (forall a, Keeps (fun db => P db /\ f db = a) (k a)) -> Keeps P (bnd (read f) k).
Proof. apply keeps_after; [auto with same|]. intros s a HP ->%read_result. done. Qed.
Lemma keeps_each {A} (f : A -> M unit) l : (forall x, Keeps anyway (f x)) -> Keeps anyway (eachM f l).
Proof. intros H. induction l as [|x l IH]; [apply keeps_same, same_ret|]. by apply keeps_bnd. Qed.
Lemma keeps_go P b : Keeps P (go b). Proof. intros s _ _. apply tables_refl. Qed.

(** ** Writes *)

Lemma NoDup_snoc {A} (f : A -> string) l x : (forall y, y ∈ l -> f y <> f x) -> NoDup (map f l) -> NoDup (map f (l ++ [x])).
Proof.
  intros H Hl. rewrite map_app. apply NoDup_app. split_and!; [done| |apply NoDup_singleton]. intros i Hi Hx%list_elem_of_singleton. apply list_elem_of_fmap in Hi as (y & E & Hy). apply (H y Hy). by rewrite <- E.
Qed.
Lemma map_same {A} (f : A -> string) g (l : list A) : (forall x, f (g x) = f x) -> NoDup (map f l) -> NoDup (map f (map g l)).
Proof. intros H. rewrite map_map. by rewrite (map_ext (fun x => f (g x)) f H). Qed.
(** The check of a primary key before an insert. *)
Ltac fresh_id E := let y := fresh "y" in let Hy := fresh "Hy" in let K := fresh "K" in
  intros y Hy K; rewrite existsb_false in E; specialize (E y Hy); cbn in E, K; bd; congruence.

Lemma insert_grown {A} (f g : A -> string) x l l' : add_row f g x l = Ok l' -> grown eq l l'.
Proof. unfold add_row. destruct (taken f g x l); [done|]. intros [= <-]. by apply grown_app. Qed.
Lemma found_elem {A} (f : A -> string) n l x : match by_id f n l with Ok a => Some a | Err _ => None end = Some x -> x ∈ l.
Proof. unfold by_id. destruct (List.find _ l) as [y|] eqn:E; [|done]. intros [= ->]. apply List.find_some in E as [H _]. by apply list_elem_of_In. Qed.
Lemma find_elem {A} (f : A -> bool) (l : list A) x : List.find f l = Some x -> x ∈ l /\ f x = true.
Proof. intros [H ?]%List.find_some. split; [|done]. by apply list_elem_of_In. Qed.

Lemma w_key db k db' : CreateSSHKey db k = Ok db' -> keeps db db'.
Proof. unfold CreateSSHKey. intros H. inv_res. apply keeps_keys. by eapply insert_grown. Qed.
Lemma w_reg db k db' : CreateRegistry db k = Ok db' -> keeps db db'.
Proof. unfold CreateRegistry. intros H. inv_res. apply keeps_regs. by eapply insert_grown. Qed.
Lemma w_cred db k db' : CreateGitCredential db k = Ok db' -> keeps db db'.
Proof. unfold CreateGitCredential. intros H. inv_res. apply keeps_creds. by eapply insert_grown. Qed.
Lemma w_gen db k db' : CreateSecretValue db k = Ok db' -> keeps db db'.
Proof. unfold CreateSecretValue. intros H. inv_res. apply keeps_gens. by eapply insert_grown. Qed.
Lemma w_hook db k db' : CreateWebhook db k = Ok db' -> keeps db db'.
Proof. unfold CreateWebhook. destruct (negb _); [done|]. intros H. inv_res. apply keeps_hooks. by eapply insert_grown. Qed.
Lemma w_ca db ca db' : (let* p := CreateCertAuthority (p_pki db) ca in Ok (set_pki db p)) = Ok db' -> keeps db db'.
Proof. unfold CreateCertAuthority. cbv zeta. destruct (existsb _ _) eqn:E; [done|]. cbn [rbind]. intros [= <-]. apply keeps_cas; [apply grown_app, ca_le_refl|]. apply NoDup_snoc. fresh_id E. Qed.
Lemma w_leaf db c db' : (let* p := CreateCertificate (p_pki db) c in Ok (set_pki db p)) = Ok db' -> keeps db db'.
Proof. unfold CreateCertificate. cbv zeta. destruct (existsb _ (leaves _)) eqn:E; [done|]. destruct (_ && _); [done|]. cbn [rbind]. intros [= <-]. apply keeps_leaves; [apply grown_app, leaf_le_refl|]. apply NoDup_snoc. fresh_id E. Qed.
Lemma w_outbound db n ex b db' : found (fun db => CertAuthorityByName (p_pki db) n) db = Some ex -> Ok (E := KErr) (set_pki db (UpdateCertAuthority (p_pki db) (set_outbound ex b))) = Ok db' -> NoDup (map ca_id (cas (p_pki db))) -> keeps db db'.
Proof.
  intros Hf [= <-] Hnd. apply found_elem in Hf. apply keeps_cas; [apply grown_map|apply map_same; intros x; unfold ca_row; by case_bool_decide].
  intros x Hx. unfold ca_row. case_bool_decide as E; [|apply ca_le_refl]. assert (x = ex) as -> by (eapply (NoDup_map_inj ca_id); eauto). by destruct ex.
Qed.
Lemma w_renew db env n ex d db' : found (fun db => CertificateByName (p_pki db) env n) db = Some ex -> Ok (E := KErr) (set_pki db (UpdateCertificate (p_pki db) (with_renew ex d))) = Ok db' -> NoDup (map ct_id (leaves (p_pki db))) -> keeps db db'.
Proof.
  unfold found, CertificateByName. destruct (List.find _ _) as [y|] eqn:Ef; [|done]. intros [= ->] [= <-] Hnd. apply find_elem in Ef as [Hf _].
  apply keeps_leaves; [apply grown_map|apply map_same; intros x; by case_bool_decide].
  intros x Hx. case_bool_decide as E; [|apply leaf_le_refl]. assert (x = ex) as -> by (eapply (NoDup_map_inj ct_id); eauto). by destruct ex.
Qed.
Lemma w_rotate db n ex r db' : found (fun db => KeyringByName (p_rings db) n) db = Some ex -> (let* d := UpdateKeyring (p_rings db) (mkRing (k_id ex) (k_name ex) r (k_created ex)) in Ok (set_kdb db d)) = Ok db' ->
  NoDup (map k_id (rings (p_rings db))) -> keeps db db'.
Proof.
  unfold found, KeyringByName. destruct (List.find _ _) as [y|] eqn:Ef; [|done]. intros [= ->] H Hnd. apply find_elem in Ef as [Hf _]. unfold UpdateKeyring in H. destruct (_ && _); [done|]. inv_res.
  apply keeps_rings; [apply grown_map|apply map_same; intros x; by case_bool_decide].
  intros x Hx. case_bool_decide as E; [|apply ring_le_refl]. assert (x = ex) as -> by (eapply (NoDup_map_inj k_id); eauto). by destruct ex.
Qed.
Lemma w_ring db k db' : (let* d := CreateKeyring (p_rings db) k in Ok (set_kdb db d)) = Ok db' -> keeps db db'.
Proof. unfold CreateKeyring. destruct (existsb _ _) eqn:E; [done|]. cbn [rbind]. intros [= <-]. apply keeps_rings; [apply grown_app, ring_le_refl|]. apply NoDup_snoc. fresh_id E. Qed.
Lemma w_del db d db' : (let* x := CreateKeyringDelivery (p_rings db) d in Ok (set_kdb db x)) = Ok db' -> keeps db db'.
Proof. unfold CreateKeyringDelivery. cbv zeta. destruct (existsb _ _); [done|]. destruct (negb _); [done|]. cbn [rbind]. intros [= <-]. by apply keeps_dels, grown_app. Qed.
Lemma w_cdel db d db' : (let* p := CreateCertDelivery (p_pki db) d in Ok (set_pki db p)) = Ok db' -> keeps db db'.
Proof. unfold CreateCertDelivery. cbv zeta. destruct (_ || _); [done|]. destruct (negb _); [done|]. cbn [rbind]. intros [= <-]. apply keeps_cdels, grown_app, cd_le_refl. Qed.
Lemma w_cdel_update db d db' : (let* p := UpdateCertDelivery (p_pki db) d in Ok (set_pki db p)) = Ok db' -> keeps db db'.
Proof.
  unfold UpdateCertDelivery. destruct (_ || _); [done|]. destruct (negb _); [done|]. cbn [rbind]. intros [= <-]. apply keeps_cdels, grown_map. intros x _. by case_bool_decide.
Qed.
Lemma w_stack db s db' : CreateStack db s = Ok db' -> keeps db db'.
Proof. unfold CreateStack. cbv zeta. destruct (existsb _ _) eqn:E; [done|]. destruct (negb _); [done|]. intros [= <-]. apply keeps_stacks; [apply grown_app, sx_le_refl|]. apply NoDup_snoc. fresh_id E. Qed.
Lemma w_auto db id e h w db' : SetStackAutoDeploy db id e h w = Ok db' -> keeps db db'.
Proof. unfold SetStackAutoDeploy. destruct (_ && _); [done|]. intros [= <-]. apply keeps_stacks; [apply grown_map; intros x _|apply map_same; intros x]; by case_bool_decide. Qed.
Lemma w_source db ex want db' : ex ∈ p_stacks db -> NoDup (map sx_id (p_stacks db)) -> sx_le ex want -> UpdateStackSource db want = Ok db' -> keeps db db'.
Proof.
  intros Hin Hnd [Hc Hk]. unfold UpdateStackSource. destruct (_ && _); [done|]. intros [= <-]. apply keeps_stacks; [apply grown_map|apply map_same; intros x; by case_bool_decide]. intros x Hx. case_bool_decide as E; [|done].
  unfold sx_core in Hc. assert (x = ex) as -> by (eapply (NoDup_map_inj sx_id); eauto; congruence). split; [unfold sx_core; cbn; congruence|done].
Qed.
Lemma w_src db R v now db' : (let* x := CreateVolumeSource R (p_src db) v now in Ok (set_src db x)) = Ok db' -> keeps db db'.
Proof. unfold CreateVolumeSource. cbv zeta. destruct (existsb _ _) eqn:E; [done|]. destruct (negb _); [done|]. cbn [rbind]. intros [= <-]. apply keeps_src; [apply grown_app, vs_le_refl|]. apply NoDup_snoc. fresh_id E. Qed.
Lemma w_src_update db R v db' : (let* x := UpdateVolumeSource R (p_src db) v in Ok (set_src db x)) = Ok db' -> keeps db db'.
Proof. unfold UpdateVolumeSource. destruct (_ && _); [done|]. cbn [rbind]. intros [= <-]. apply keeps_src; [apply grown_map; intros x _|apply map_same; intros x]; by case_bool_decide. Qed.
(** A source of that id and volume is there. *)
Definition has_source (id vol : string) (db : PDB) : Prop := exists x, x ∈ sources (p_src db) /\ vs_id x = id /\ vs_vol x = vol.
Lemma has_source_kept id vol a b : keeps a b -> has_source id vol a -> has_source id vol b.
Proof.
  intros K (x & Hx & <- & <-). destruct (grown_elem _ _ _ _ (k_src _ _ _ _ _ K) Hx) as (y & Hy & Hc). exists y. unfold vs_le, vs_core in Hc. injection Hc. done.
Qed.
Lemma w_src_files vol db id fs db' : ti vol fs -> pk db -> has_source id vol db -> (let* x := SetVolSourceFiles (p_src db) id fs in Ok (set_src db x)) = Ok db' -> keeps db db'.
Proof.
  intros Ht Hpk (x & Hx & Hi & Hv) H. assert (exists m, db' = set_src db (mkSDB (sources (p_src db)) m) /\ default [] (m !! id) = fs /\ forall i, i <> id -> m !! i = inline_files (p_src db) !! i) as (m & -> & Hm & Ho).
  { unfold SetVolSourceFiles in H. destruct (negb _); [done|]. destruct fs as [|f fs]; cbn [rbind] in H; [|destruct (existsb _ _); [|done]; cbn [rbind] in H]; injection H as <-; eexists; (split; [reflexivity|]).
    - rewrite lookup_delete_eq. split; [done|]. intros i Hne. by rewrite lookup_delete_ne.
    - rewrite lookup_insert_eq. split; [done|]. intros i Hne. by rewrite lookup_insert_ne. }
  apply keeps_inline. intros y Hy. unfold inline_of. cbn. destruct (decide (vs_id y = id)) as [E|E]; [right|left; by rewrite Ho].
  assert (y = x) as -> by (eapply (NoDup_map_inj vs_id); [apply (pk_src _ Hpk)|done|done|congruence]). rewrite Hv, E, Hm. done.
Qed.

(** ** The pieces that write *)

Section Pieces.
Context {O : Draws} (q : Req).
Hint Resolve same_resolve same_envFor same_generated same_expand same_env_want same_slots same_find_cert same_certs same_bundle same_traefik same_named same_cred same_linked same_owned : same.

Lemma keeps_audit_row P env a t o : Keeps P (audit q env a t o).
Proof.
  unfold audit. apply keeps_reads; [auto with same|]. intros n. apply keeps_reads; [auto with same|]. intros [|] s _ _; [apply tables_refl|]. by apply keeps_audit, grown_app.
Qed.
Lemma keeps_ensured P k env n v : Keeps P (auditEnsure q k env n v).
Proof. unfold auditEnsure. destruct (q_apply q); [apply keeps_audit_row|apply keeps_same, same_ret]. Qed.

Lemma write_cases f s : (exists e, (write f s).1 = Err e /\ rn_db (write f s).2 = rn_db s) \/ ((write f s).1 = Ok tt /\ f (rn_db s) = Ok (rn_db (write f s).2)).
Proof.
  unfold write, bnd. pose proof (fate_db s) as Hs. destruct (fate s) as [[[|]|e] s1]; cbn in *; [left; eauto| |left; eauto]. rewrite Hs.
  destruct (f (rn_db s)) as [db|e]; cbn; [by right|left; eauto].
Qed.

(** A new ring with its first version; a seed that fails leaves the tables as
    they were, or the ring alone. *)
Lemma w_seed c db id w db' : (forall v, v ∈ versions (p_rings db) -> v_ring v <> id) ->
  (let* d := rotateKeyring c (p_rings db) id w in Ok (set_kdb db d)) = Ok db' -> keeps db db'.
Proof.
  intros Hv. unfold rotateKeyring. destruct (w_material w) as [mat|]; [|done]. destruct (c mat) as [enc|]; [|done]. unfold RotateKeyring.
  destruct (rotate_commit _ _ _ _ _ _) as [d|e] eqn:E; [|done]. cbn [rbind]. intros [= <-]. apply rotate_commit_inv in E as (Hr & _ & ->).
  assert (active_ids (p_rings db) id = []) as ->. { unfold active_ids. rewrite (filter_none _ (versions (p_rings db))); [done|]. intros v Hin. apply andb_false_iff. left. apply bool_decide_eq_false_2. by apply Hv. }
  assert (map (demote []) (versions (p_rings db)) = versions (p_rings db)) as ->.
  { rewrite <- (map_id (versions (p_rings db))) at 2. apply map_ext. intros v. unfold demote. rewrite bool_decide_eq_false_2; [done|apply not_elem_of_nil]. }
  constructor; cbn; eauto with keeps.
  - intros v Hin. apply elem_of_app. by left.
  - intros [? ? ? ? ? Hfk]. constructor; cbn; auto. intros v [Hin|Hin]%elem_of_app; [by apply Hfk|]. apply list_elem_of_singleton in Hin as ->. done.
Qed.
Lemma undo_ring db row d : pk db -> k_id row ∉ map k_id (rings (p_rings db)) ->
  DeleteKeyring (set_rings (p_rings db) (rings (p_rings db) ++ [row])) (k_id row) = Ok d -> d = p_rings db.
Proof.
  intros Hpk Hn. unfold DeleteKeyring. destruct (existsb _ _); [done|]. intros [= <-]. cbn. rewrite List.filter_app. cbn. rewrite bool_decide_eq_true_2 by done. cbn. rewrite app_nil_r.
  rewrite !filter_id; [by destruct (p_rings db)| |].
  - intros v Hv. apply negb_true_iff, bool_decide_eq_false_2. intros E. apply Hn. rewrite <- E. by apply (fk_versions _ Hpk).
  - intros r Hr. apply negb_true_iff, bool_decide_eq_false_2. intros E. apply Hn. rewrite <- E. by apply list_elem_of_fmap_2.
Qed.
Lemma keeps_new_ring row w : Keeps anyway (new_ring row w).
Proof.
  intros s Hpk _. unfold new_ring, bnd. set (create := fun db => _). destruct (write_cases create s) as [(e & E1 & E2)|[E1 E2]]; destruct (write create s) as [r s1]; cbn [fst snd] in *; subst r; [cbn; rewrite E2; apply tables_refl|]; cbn.
  set (db := rn_db s) in *. unfold create in E2. pose proof (w_ring _ _ _ E2) as K1. unfold CreateKeyring in E2. destruct (existsb _ _) eqn:Ef; [done|]. cbn [rbind] in E2. injection E2 as E2.
  assert (k_id row ∉ map k_id (rings (p_rings db))) as Hn.
  { intros Hin. apply list_elem_of_fmap in Hin as (r & E & Hr). rewrite existsb_false in Ef. specialize (Ef r Hr). bd. congruence. }
  clear create Ef. set (seed := fun db => _). destruct (write_cases seed s1) as [(e & F1 & F2)|[F1 F2]]; destruct (write seed s1) as [r s2]; cbn [fst snd] in *; subst r; cbn [snd].
  - match goal with |- context [write ?f s2] => destruct (write_cases f s2) as [(e' & _ & G)|[_ G]]; [by rewrite G, F2|] end. cbv beta in G. rewrite F2, <- E2 in G. cbn in G.
    destruct (DeleteKeyring _ _) as [d|e'] eqn:Ed; [|done]. cbn in G. injection G as <-. apply undo_ring in Ed as ->; [|done..]. destruct db; apply tables_refl.
  - eapply tables_trans; [done|]. eapply w_seed; [|exact F2]. rewrite <- E2. cbn. intros v Hv E. apply Hn. rewrite <- E. by apply (fk_versions _ Hpk).
Qed.

(** ** Merges *)

Definition Post {A} (m : M A) (Q : A -> Prop) : Prop := forall s a, (m s).1 = Ok a -> Q a.
Lemma post_ret {A} (a : A) Q : Q a -> Post (ret a) Q. Proof. intros H s ? [= <-]. done. Qed.
Lemma post_bnd {A B} (m : M A) (k : A -> M B) Q : (forall a, Post (k a) Q) -> Post (bnd m k) Q.
Proof. intros H s b. unfold bnd. destruct (m s) as [[a|e] s']; [apply H|done]. Qed.
Lemma post_fold {A B} (f : A -> B -> M B) (Q : B -> Prop) l : (forall x b, x ∈ l -> Q b -> Post (f x b) Q) -> forall b, Q b -> Post (foldM f l b) Q.
Proof.
  intros H. induction l as [|x l IH]; intros b Hb; [by apply post_ret|]. intros s c. cbn [foldM]. unfold bnd. pose proof (H x b ltac:(left) Hb s) as Hx.
  destruct (f x b s) as [[b'|e] s']; [|done]. apply IH; [intros y b0 Hy; apply H; by right|]. by apply Hx.
Qed.
Definition vars_le (l l' : list StackEnvRow) : Prop := forall e, e ∈ l -> exists e', e' ∈ l' /\ se_key e' = se_key e /\ (tv (se_key e) = false -> e' = e).
Definition files_le (l l' : list StackSecretRow) : Prop := forall e, e ∈ l -> exists e', e' ∈ l' /\ sc_name e' = sc_name e /\ (tf (sc_name e) = false -> e' = e).
Lemma put_var_le l0 l e : tv (se_key e) = true -> vars_le l0 l -> vars_le l0 (put_var e l).
Proof.
  intros Ht H x Hx. destruct (H x Hx) as (y & Hy & E & K). unfold put_var. destruct (find_var _ _); [|exists y; split; [apply elem_of_app; by left|done]].
  destruct (decide (se_key y = se_key e)) as [D|D].
  - exists e. split; [|split; [congruence|]]; [|intros Hf; congruence]. apply list_elem_of_fmap. exists y. by rewrite bool_decide_eq_true_2.
  - exists y. split; [|done]. apply list_elem_of_fmap. exists y. by rewrite bool_decide_eq_false_2.
Qed.
Lemma put_file_le l0 l e : tf (sc_name e) = true -> files_le l0 l -> files_le l0 (put_file e l).
Proof.
  intros Ht H x Hx. destruct (H x Hx) as (y & Hy & E & K). unfold put_file. destruct (find_file _ _); [|exists y; split; [apply elem_of_app; by left|done]].
  destruct (decide (sc_name y = sc_name e)) as [D|D].
  - exists e. split; [|split; [congruence|]]; [|intros Hf; congruence]. apply list_elem_of_fmap. exists y. by rewrite bool_decide_eq_true_2.
  - exists y. split; [|done]. apply list_elem_of_fmap. exists y. by rewrite bool_decide_eq_false_2.
Qed.
Lemma env_one_le l0 v acc : tv (ev_Key v) = true -> vars_le l0 acc.1 -> Post (env_one q v acc) (fun r => vars_le l0 r.1).
Proof.
  intros Ht H. destruct acc as [stored changed]. unfold env_one. apply post_bnd. intros w. destruct (find_var _ _) as [cur|].
  - destruct w.1; [|by apply post_ret]. apply post_bnd. intros old. destruct (_ || _); [|by apply post_ret]. apply post_bnd. intros sealed. apply post_ret. by apply put_var_le.
  - apply post_bnd. intros sealed. apply post_ret. by apply put_var_le.
Qed.
Lemma file_one_le l0 o acc : tf o.1 = true -> files_le l0 acc.1 -> Post (file_one o acc) (fun r => files_le l0 r.1).
Proof.
  intros Ht H. destruct acc as [stored changed]. unfold file_one. destruct (find_file _ _) as [cur|].
  - apply post_bnd. intros old. case_bool_decide; [by apply post_ret|]. apply post_bnd. intros sealed. apply post_ret. by apply put_file_le.
  - apply post_bnd. intros sealed. apply post_ret. by apply put_file_le.
Qed.
Lemma file_want_names f acc : (forall o, o ∈ acc.1 -> tf o.1 = true) -> tf (sf_Name f) = true -> Post (file_want q f acc) (fun r => forall o, o ∈ r.1 -> tf o.1 = true).
Proof.
  intros H Ht. destruct acc as [owned changed]. unfold file_want. assert (forall v o, o ∈ owned ++ [(sf_Name f, v)] -> tf o.1 = true) as Ha.
  { intros v o [Ho|Ho]%elem_of_app; [by apply H|]. by apply list_elem_of_singleton in Ho as ->. }
  destruct (negb _); [apply post_ret; destruct (value_of q _); first [exact H | apply Ha]|]. destruct (_ && _); [by apply post_ret|]. apply post_bnd. intros [v|]; apply post_ret; first [exact H | apply Ha].
Qed.
Lemma sorted_elem {A} (f : A -> string) l x : x ∈ by_name f l <-> x ∈ l. Proof. apply elem_of_ssort. Qed.
Lemma w_env db id l db' : vars_le (StackEnv db id) l -> SetStackEnv db id l = Ok db' -> keeps db db'.
Proof.
  intros H. unfold SetStackEnv. destruct (negb _); [done|].
  assert (forall e, e ∈ default [] (p_vars db !! id) -> exists e', e' ∈ l /\ se_key e' = se_key e /\ (tv (se_key e) = false -> e' = e)) as Hv. { intros e He. apply H. by apply sorted_elem. }
  destruct l as [|x l]; [|destruct (stack_there db id); [|done]]; intros [= <-]; eapply (keeps_vars db id); try exact Hv.
  - by rewrite lookup_delete_eq.
  - intros i Hi. by rewrite lookup_delete_ne.
  - by rewrite lookup_insert_eq.
  - intros i Hi. by rewrite lookup_insert_ne.
Qed.
Lemma w_files db id l db' : files_le (StackSecrets db id) l -> SetStackSecrets db id l = Ok db' -> keeps db db'.
Proof.
  intros H. unfold SetStackSecrets. destruct (negb _); [done|].
  assert (forall e, e ∈ default [] (p_files db !! id) -> exists e', e' ∈ l /\ sc_name e' = sc_name e /\ (tf (sc_name e) = false -> e' = e)) as Hv. { intros e He. apply H. by apply sorted_elem. }
  destruct l as [|x l]; [|destruct (stack_there db id); [|done]]; intros [= <-]; eapply (keeps_files db id); try exact Hv.
  - by rewrite lookup_delete_eq.
  - intros i Hi. by rewrite lookup_delete_ne.
  - by rewrite lookup_insert_eq.
  - intros i Hi. by rewrite lookup_insert_ne.
Qed.
Lemma vars_le_refl l : vars_le l l. Proof. intros e He. eauto. Qed.
Lemma files_le_refl l : files_le l l. Proof. intros e He. eauto. Qed.
Lemma keeps_stack_env id st : (forall v, v ∈ st_Env st -> tv (ev_Key v) = true) -> Keeps anyway (ensureStackEnv q id st).
Proof.
  intros Ht. unfold ensureStackEnv. case_bool_decide; [apply keeps_same, same_ret|]. apply keeps_read. intros stored.
  apply (keeps_after _ (fun r db => vars_le (StackEnv db id) r.1)); [apply same_fold; intros; apply same_env_one| |].
  - intros s r [_ <-] Hr. refine (post_fold (env_one q) (fun r => vars_le (StackEnv (rn_db s) id) r.1) _ _ _ _ _ _ Hr); [|apply vars_le_refl]. intros v b Hv Hb. apply env_one_le; auto.
  - intros r. apply keeps_bnd; [|intros _; apply keeps_same, same_ret]. destruct (_ && _); [|apply keeps_same, same_ret]. apply keeps_write. intros db db' _ Hr. by apply w_env.
Qed.
Lemma keeps_stack_secrets id st : (forall f, f ∈ st_SecretFiles st -> tf (sf_Name f) = true) -> Keeps anyway (ensureStackSecrets q id st).
Proof.
  intros Ht. unfold ensureStackSecrets.
  apply (keeps_after _ (fun w db => forall o, o ∈ w.1 -> tf o.1 = true)); [apply same_fold; intros; apply same_file_want| |].
  - intros s r _ Hr. refine (post_fold (file_want q) (fun r => forall o, o ∈ r.1 -> tf o.1 = true) _ _ _ _ _ _ Hr); [intros f b Hf Hb; apply file_want_names; auto|by intros o ?%elem_of_nil].
  - intros w. case_bool_decide; [apply keeps_same, same_ret|]. apply keeps_read. intros stored.
    apply (keeps_after _ (fun r db => files_le (StackSecrets db id) r.1)); [apply same_fold; intros; apply same_file_one| |].
    + intros s r [Hw <-] Hr. refine (post_fold file_one (fun r => files_le (StackSecrets (rn_db s) id) r.1) _ _ _ _ _ _ Hr); [|apply files_le_refl]. intros o b Ho Hb. apply file_one_le; auto.
    + intros r. apply keeps_bnd; [|intros _; apply keeps_same, same_ret]. destruct (_ && _); [|apply keeps_same, same_ret]. apply keeps_write. intros db db' _ Hr. by apply w_files.
Qed.

(** ** Every ensure *)

Lemma keeps_dep {A} P (f : Run -> M A) : (forall s, Keeps P (f s)) -> Keeps P (fun s => f s s).
Proof. intros H s. apply H. Qed.
Create HintDb wr discriminated.
Hint Resolve w_key w_reg w_cred w_gen w_hook w_ca w_leaf w_ring w_del w_cdel w_cdel_update w_stack w_auto w_src w_src_update : wr.
Ltac wrote := let H := fresh "H" in intros ? ? ? ? H; cbv beta in H; solve [eauto with wr].
Ltac keeps1 :=
  match goal with
  | |- Keeps _ (bnd (lookup_row _) _) => apply keeps_lookup; intros ?
  | |- Keeps _ (bnd (read _) _) => apply keeps_read; intros ?
  | |- Keeps _ (bnd (write _) _) => apply keeps_bnd; [apply keeps_write; try wrote|intros _]
  | |- Keeps _ (bnd (auditEnsure _ _ _ _ _) _) => apply keeps_bnd; [apply keeps_ensured|intros _]
  | |- Keeps _ (bnd (go _) _) => apply keeps_bnd; [apply keeps_go|intros _]
  | |- Keeps _ (bnd (fun s => (Ok tt, with_db s (set_nets _ _))) _) => apply keeps_bnd; [intros ? _ _; by apply keeps_nets, grown_app|intros _]
  | |- Keeps _ (bnd ?m _) => apply keeps_reads; [solve [same]|intros ?]
  | |- Keeps _ (bnd (match ?x with _ => _ end) _) => apply keeps_bnd; [|intros ?]
  | |- Keeps _ (match ?x with _ => _ end) => destruct x eqn:?
  | |- Keeps _ (write _) => apply keeps_write; try wrote
  | |- Keeps _ (auditEnsure _ _ _ _ _) => apply keeps_ensured
  | |- Keeps _ (go _) => apply keeps_go
  | |- Keeps _ _ => apply keeps_same; solve [same]
  | |- Keeps ?P (fun s => _) =>
      let s := fresh "s" in let Hpk := fresh "Hpk" in let HP := fresh "HP" in let K := fresh "K" in
      intros s Hpk HP; cbv beta; match goal with |- context [snd (?g s)] => assert (Keeps P g) as K; [clear Hpk HP|exact (K s Hpk HP)] end
  end.
Ltac keeping := cbv zeta; repeat keeps1.

Lemma keeps_hook n env p : Keeps anyway (createManifestWebhook q n env p).
Proof. unfold createManifestWebhook. keeping. Qed.
Lemma keeps_target named cur auto base env cl P : Keeps P (targetWebhook q named cur auto base env cl).
Proof.
  apply keeps_weak. unfold targetWebhook. keeping. apply keeps_reads; [unfold freeWebhookName; same|]. intros n. apply keeps_bnd; [apply keeps_hook|]. intros id. keeping.
Qed.
Lemma keeps_key k : Keeps anyway (ensureSSHKey q k). Proof. unfold ensureSSHKey. keeping. Qed.
Lemma keeps_reg k : Keeps anyway (ensureRegistry q k). Proof. unfold ensureRegistry. keeping. Qed.
Lemma keeps_cred k : Keeps anyway (ensureGitCredential q k). Proof. unfold ensureGitCredential. keeping. Qed.
Lemma keeps_ca k : Keeps anyway (ensureCA q k).
Proof. unfold ensureCA. keeping. intros db db' Hpk [_ Hf] H. eapply w_outbound; [exact Hf|exact H|apply Hpk]. Qed.
Lemma keeps_cert k : Keeps anyway (ensureCertificate q k).
Proof. unfold ensureCertificate. keeping. all: intros db db' Hpk [_ Hf] H; eapply w_renew; [exact Hf|exact H|apply Hpk]. Qed.
Lemma keeps_gen k : Keeps anyway (ensureGeneratedSecret q k). Proof. unfold ensureGeneratedSecret. keeping. Qed.
Lemma keeps_cdel k : Keeps anyway (ensureCertDelivery q k). Proof. unfold ensureCertDelivery. keeping. Qed.
Lemma keeps_kdel k : Keeps anyway (ensureKeyringDelivery q k). Proof. unfold ensureKeyringDelivery. keeping. Qed.
Lemma keeps_net k : Keeps anyway (ensureNetwork q k). Proof. unfold ensureNetwork. keeping. Qed.
Lemma keeps_ring k : Keeps anyway (ensureKeyring q k).
Proof.
  unfold ensureKeyring. keeping.
  - intros db db' Hpk [_ Hf] H. eapply w_rotate; [exact Hf|exact H|apply Hpk].
  - apply keeps_bnd; [apply keeps_weak, keeps_new_ring|intros _]. keeping.
Qed.
Lemma keeps_webhook k : Keeps anyway (ensureWebhook q k).
Proof. unfold ensureWebhook. keeping. all: apply keeps_bnd; [apply keeps_weak, keeps_hook|intros ?]; keeping. Qed.
Lemma applied_kind ex st cred : ss_Git (st_Source st) <> None \/ sx_kind ex <> "git" -> sx_le ex (applyStackSource ex st cred).
Proof. intros H. unfold applyStackSource. destruct (ss_Git _) as [g|] eqn:E; split; try done. cbn. intros Hk. by destruct H. Qed.
Lemma differs_self x : source_differs x x = false. Proof. unfold source_differs. by rewrite !bool_decide_eq_true_2. Qed.
Lemma keeps_converge st cl env cred named (created : bool) ex :
  (forall v, v ∈ st_Env st -> tv (ev_Key v) = true) -> (forall f, f ∈ st_SecretFiles st -> tf (sf_Name f) = true) -> (created = false -> ss_Git (st_Source st) <> None \/ sx_kind ex <> "git") ->
  Keeps (fun db => created = true \/ ex ∈ p_stacks db) (convergeStack q st cl env cred named created ex).
Proof.
  intros Hv Hf Hk. unfold convergeStack. cbv zeta. apply keeps_bnd.
  - destruct (_ && _) eqn:E; [|apply keeps_same, same_ret]. apply keeps_write. intros db db' Hpk [->|Hin] H; [by rewrite differs_self in E|].
    destruct created; [by rewrite differs_self in E|]. eapply w_source; [exact Hin|apply Hpk|by apply applied_kind, Hk|exact H].
  - intros _. apply keeps_bnd; [apply keeps_target|]. intros hook. apply keeps_bnd; [destruct (_ && _); keeping|]. intros _. apply keeps_bnd; [by apply keeps_stack_env|]. intros c3.
    apply keeps_bnd; [by apply keeps_stack_secrets|]. intros c4. keeping.
Qed.
(** What [Validate] asks of a stack's source: one of the two. *)
Definition one_source (st : Manifest.Stack) : Prop := ss_Git (st_Source st) = None -> ss_Compose (st_Source st) <> "".
Lemma keeps_stack st : (forall v, v ∈ st_Env st -> tv (ev_Key v) = true) -> (forall f, f ∈ st_SecretFiles st -> tf (sf_Name f) = true) -> one_source st -> Keeps anyway (ensureStack q st).
Proof.
  intros Hv Hf H1. unfold ensureStack. cbv zeta. apply keeps_reads; [same|]. intros [env|]; [|keeping]. apply keeps_reads; [same|]. intros [why|cred]; [keeping|].
  apply keeps_reads; [same|]. intros [why|named]; [keeping|]. apply keeps_lookup. intros [ex|].
  - case_match; [keeping|]. case_match eqn:Eg; [keeping|]. intros s Hpk [_ Hx]. refine (keeps_converge _ _ _ _ _ _ _ Hv Hf _ s Hpk _).
    + intros _. destruct (ss_Git (st_Source st)) eqn:E; [by left|right]. intros Hg. apply andb_false_iff in Eg as [Eg|Eg]; bd; [done|]. by apply H1.
    + right. unfold found, StackByName in Hx. destruct (List.find _ _) as [y|] eqn:Ef; [|done]. injection Hx as ->. by apply find_elem in Ef as [? _].
  - destruct (placement q env st) as [why|node]; [keeping|]. case_match; [keeping|]. keeping. intros s Hpk _. refine (keeps_converge _ _ _ _ _ _ _ Hv Hf _ s Hpk _); [done|by left].
Qed.
(** ** Volume sources *)

Lemma keeps_then {A B} (P : PDB -> Prop) (R : A -> Prop) (m : M A) (k : A -> M B) : stable P -> Keeps P m -> Post m R -> (forall a, R a -> Keeps P (k a)) -> Keeps P (bnd m k).
Proof.
  intros HS Hm HR Hk s Hpk HP. unfold bnd. specialize (Hm s Hpk HP). specialize (HR s). destruct (m s) as [[a|e] s']; [|done]. cbn [fst snd] in *. eapply tables_trans; [done|]. apply Hk; [by apply HR|exact (k_pk _ _ _ _ _ Hm Hpk)|exact (HS _ _ Hm HP)].
Qed.
Lemma keeps_write_then {B} (P Q : PDB -> Prop) f (k : unit -> M B) : (forall db db', pk db -> P db -> f db = Ok db' -> keeps db db' /\ Q db') -> Keeps Q (k tt) -> Keeps P (bnd (write f) k).
Proof.
  intros H Hk s Hpk HP. unfold bnd. destruct (write_cases f s) as [(e & E1 & E2)|[E1 E2]]; destruct (write f s) as [r s']; cbn [fst snd] in *; subst r; [cbn; rewrite E2; apply tables_refl|].
  destruct (H _ _ Hpk HP E2) as [K HQ]. eapply tables_trans; [exact K|]. apply Hk; [exact (k_pk _ _ _ _ _ K Hpk)|done].
Qed.
(** The row of a document's source: its id and volume, and inline content when it
    has no repository. *)
Definition row_for (id : string) (v : Manifest.VolumeSource) (x : VolSources.VolumeSource) : Prop :=
  vs_id x = id /\ vs_vol x = vs_Volume v /\ (vs_kind x = "inline" -> vp_Git (vs_Source v) = None).
Lemma spec_row id v ex cred stack : vs_id ex = id -> vs_vol ex = vs_Volume v -> row_for id v (applyVolumeSourceSpec ex v cred stack).
Proof. intros <- E. unfold row_for, applyVolumeSourceSpec. by destruct (vp_Git (vs_Source v)). Qed.
Lemma hooked_row id v row named cur auto base env cl : row_for id v row ->
  Post (if bool_decide (vs_kind row = "git") then bnd (targetWebhook q named cur auto base env cl) (fun h => ret (with_hook row h)) else ret row) (row_for id v).
Proof. intros H. case_bool_decide; [|by apply post_ret]. apply post_bnd. intros h. by apply post_ret. Qed.
Lemma keeps_hooked P row named cur auto base env cl :
  Keeps P (if bool_decide (vs_kind row = "git") then bnd (targetWebhook q named cur auto base env cl) (fun h => ret (with_hook row h)) else ret row).
Proof. case_bool_decide; [|keeping]. apply keeps_bnd; [apply keeps_target|]. intros h. keeping. Qed.
Lemma keeps_store id v row : (vp_Git (vs_Source v) = None -> ti (vs_Volume v) (files_of v)) -> row_for id v row ->
  Keeps (has_source id (vs_Volume v)) (if bool_decide (vs_kind row = "inline") then store_files id (files_of v) else ret tt).
Proof.
  intros Ht (_ & _ & Hk). case_bool_decide as E; [|apply keeps_same, same_ret]. apply keeps_write. intros db db' Hpk Hs. apply w_src_files with (vol := vs_Volume v); auto.
Qed.
Lemma keeps_source v : (vp_Git (vs_Source v) = None -> ti (vs_Volume v) (files_of v)) -> Keeps anyway (ensureVolumeSource q v).
Proof.
  intros Ht. unfold ensureVolumeSource. cbv zeta. apply keeps_reads; [same|]. intros [env|]; [|keeping]. apply keeps_reads; [same|]. intros [why|cred]; [keeping|].
  apply keeps_reads; [same|]. intros [why|stack]; [keeping|]. apply keeps_reads; [same|]. intros [why|named]; [keeping|]. apply keeps_reads; [same|]. intros [why|]; [keeping|].
  apply keeps_lookup. intros [ex|].
  - intros s Hpk [_ Hf]. assert (has_source (vs_id ex) (vs_Volume v) (rn_db s) /\ vs_vol ex = vs_Volume v) as [Hs Hvol].
    { unfold found, VolumeSourceByVolume in Hf. destruct (List.find _ _) as [y|] eqn:Ef; [|done]. injection Hf as ->. apply find_elem in Ef as [Hin E]. bd. split; [by exists ex|done]. }
    revert s Hpk Hf Hs. assert (forall m : M unit, Keeps (has_source (vs_id ex) (vs_Volume v)) m -> forall s, pk (rn_db s) -> found (fun db => VolumeSourceByVolume (p_src db) env (vs_Volume v)) (rn_db s) = Some ex -> has_source (vs_id ex) (vs_Volume v) (rn_db s) -> keeps (rn_db s) (rn_db (m s).2)) as Hm by auto.
    apply Hm. clear Hm. assert (stable (has_source (vs_id ex) (vs_Volume v))) as HS by (intros a b; apply has_source_kept).
    eapply keeps_then; [exact HS|apply keeps_hooked|apply (hooked_row (vs_id ex) v); by apply spec_row|]. intros want Hw.
    apply keeps_reads; [same|]. intros changed. destruct (_ && _); [keeping|]. apply keeps_stable; [exact HS| |intros _; keeping]. destruct (q_apply q); [|keeping].
    apply keeps_stable; [exact HS|keeping|]. intros _. apply keeps_stable; [exact HS| |intros _; keeping]. destruct Hw as (Hi & Hw). rewrite Hi. by apply keeps_store.
  - apply keeps_weak. case_match; [keeping|]. apply keeps_reads; [same|]. intros t. eapply (keeps_then anyway); [by intros ? ? _ _|apply keeps_hooked|apply (hooked_row (id_of "vsr_" t) v); by apply spec_row|]. intros row Hr.
    apply keeps_write_then with (Q := has_source (id_of "vsr_" t) (vs_Volume v)).
    + intros db db' _ _ Hc. split; [by eapply w_src|]. revert Hc. unfold CreateVolumeSource. cbv beta zeta. do 2 (case_match; [done|]). cbn [rbind]. intros [= <-].
      exists (created_source row (clock t)). destruct Hr as (Hi & Hv & _). split_and!; [apply elem_of_app; right; by apply list_elem_of_singleton|done|done].
    + apply keeps_bnd; [by apply keeps_store|]. intros _. keeping.
Qed.

(** What the document declares and [Validate] asks, of one resource. *)
Definition covered_by (r : Resource) : Prop :=
  match r with
  | RStack st => (forall v, v ∈ st_Env st -> tv (ev_Key v) = true) /\ (forall f, f ∈ st_SecretFiles st -> tf (sf_Name f) = true) /\ one_source st
  | RVolumeSource v => vp_Git (vs_Source v) = None -> ti (vs_Volume v) (files_of v)
  | _ => True
  end.
Lemma keeps_ensure r : covered_by r -> Keeps anyway (ensure q r).
Proof.
  destruct r; cbn [ensure covered_by]; intros H; [apply keeps_key|apply keeps_reg|apply keeps_cred|apply keeps_net|apply keeps_ca|apply keeps_cert|apply keeps_ring|apply keeps_cdel|apply keeps_kdel|apply keeps_gen|
    apply keeps_webhook|apply keeps_stack; tauto|by apply keeps_source].
Qed.
Lemma keeps_all l : Forall covered_by l -> Keeps anyway (eachM (ensure q) l).
Proof. induction 1 as [|r l Hr _ IH]; [apply keeps_same, same_ret|]. apply keeps_bnd; [by apply keeps_ensure|]. intros _. exact IH. Qed.
End Pieces.
End Keeps.

(** ** A plan, an apply *)

Definition declares_var (m : Manifest.Manifest) (k : string) : bool := existsb (fun st => bool_decide (k ∈ map ev_Key (st_Env st))) (m_Stacks m).
Definition declares_file (m : Manifest.Manifest) (n : string) : bool := existsb (fun st => bool_decide (n ∈ map sf_Name (st_SecretFiles st))) (m_Stacks m).
(** The document gives these inline files for the volume. *)
Definition gives_inline (m : Manifest.Manifest) (vol : string) (l : list Volumes.File) : Prop :=
  exists v, v ∈ m_VolumeSources m /\ vs_Volume v = vol /\ vp_Git (vs_Source v) = None /\ l = files_of v.
Lemma all_covered m : Forall one_source (m_Stacks m) -> Forall (covered_by (declares_var m) (declares_file m) (gives_inline m)) (resources m).
Proof.
  intros H. apply Forall_forall. intros r Hr. unfold resources in Hr. apply flat_map_elem in Hr as (k & _ & Hk).
  destruct r; try exact I; destruct k; cbn [of_kind] in Hk; apply list_elem_of_fmap in Hk as (y & E & Hy); try discriminate E; injection E as <-; [|intros Hg; by exists x]. rewrite Forall_forall in H.
  cbn [covered_by]. split_and!; [| |by apply H].
  - intros v Hv. apply existsb_elem. exists x. split; [done|]. apply bool_decide_eq_true_2. by apply list_elem_of_fmap_2.
  - intros f Hf. apply existsb_elem. exists x. split; [done|]. apply bool_decide_eq_true_2. by apply list_elem_of_fmap_2.
Qed.
Lemma walk_keeps `{O : Draws} q s : Forall one_source (m_Stacks (q_m q)) -> pk (rn_db s) -> keeps (declares_var (q_m q)) (declares_file (q_m q)) (gives_inline (q_m q)) (rn_db s) (rn_db (walk q s).2).
Proof. intros H Hpk. rewrite walk_resources. apply keeps_all; [by apply all_covered|done|done]. Qed.
