(* ===== verification/ProvisionPlans.v ===== *)
(** * A plan foretells the apply

    [Ends]: a piece that, when it returns, has pushed one verdict. Every ensure
    does, which makes the report complete; and on the same tables, with calls that
    answer, the verdict of a plan is the verdict of an apply or the apply is
    blocked. *)
From S2P Require Import Prelude GoStd Manifest Keyrings Volumes Mirror Certs CertDeliveries VolSources Caps ProvStore Provision Reconcile ProvisionFacts.
Local Open Scope string_scope.
Local Open Scope list_scope.
Local Open Scope daffa_scope.
Local Open Scope Z_scope.

(** ** Pieces that report nothing, pieces that report once *)

Definition Mute {A} (m : M A) : Prop := forall s, rn_res (m s).2 = rn_res s /\ rn_summary (m s).2 = rn_summary s.
Create HintDb mute discriminated.
Lemma mute_ret {A} (a : A) : Mute (ret a). Proof. done. Qed.
Lemma mute_throw {A} e : Mute (@throw A e). Proof. done. Qed.
Lemma mute_bnd {A B} (m : M A) (k : A -> M B) : Mute m -> (forall a, Mute (k a)) -> Mute (bnd m k).
Proof. intros Hm Hk s. unfold bnd. specialize (Hm s). destruct (m s) as [[a|e] s']; [|done]. destruct (Hk a s') as [-> ->]. done. Qed.
Lemma mute_fate : Mute fate. Proof. intros s. unfold fate. by destruct (rn_faults s). Qed.
Lemma mute_read {A} (f : PDB -> A) : Mute (read f). Proof. apply mute_bnd; [apply mute_fate|]. by intros [|] s. Qed.
Lemma mute_lookup {A} (f : PDB -> res KErr A) : Mute (lookup_row f). Proof. apply mute_read. Qed.
Lemma mute_write f : Mute (write f).
Proof. apply mute_bnd; [apply mute_fate|]. intros [|] s; [done|]. by destruct (f (rn_db s)). Qed.
Lemma mute_tick : Mute tick. Proof. done. Qed.
Lemma mute_go b : Mute (go b). Proof. done. Qed.
Lemma mute_option {A} e (o : option A) : Mute (of_option e o). Proof. by destruct o. Qed.
Lemma mute_each {A} (f : A -> M unit) l : (forall x, Mute (f x)) -> Mute (eachM f l).
Proof. intros H. induction l as [|x l IH]; [apply mute_ret|]. by apply mute_bnd. Qed.
Lemma mute_fold {A B} (f : A -> B -> M B) l : (forall x b, Mute (f x b)) -> forall b, Mute (foldM f l b).
Proof. intros H. induction l as [|x l IH]; intros b; [apply mute_ret|]. by apply mute_bnd. Qed.
Lemma mute_seal `{Draws} v : Mute (seal v). Proof. apply mute_option. Qed.
#[export] Hint Resolve mute_ret mute_throw mute_fate mute_read mute_lookup mute_write mute_tick mute_go mute_option mute_seal : mute.
Ltac mute1 :=
  match goal with
  | |- Mute (bnd _ _) => apply mute_bnd; [|intros ?]
  | |- Mute (eachM _ _) => apply mute_each; intros ?
  | |- Mute (foldM _ _ _) => apply mute_fold; intros ? ?
  | |- Mute (match ?x with _ => _ end) => destruct x
  | |- Mute (let _ := _ in _) => cbv zeta
  | |- Mute _ => solve [auto with mute]
  | |- Mute (fun s => (Ok _, _)) => intros ?; split; reflexivity
  | |- Mute (fun s => _) => let s := fresh "s" in let H := fresh "H" in intros s; cbv beta; match goal with |- context [snd (?g s)] => assert (Mute g) as H; [|exact (H s)] end
  end.
Ltac mute := repeat mute1.

Section Mute.
Context `{O : Draws} (q : Req).
Lemma mute_audit env a t o : Mute (audit q env a t o).
Proof. unfold audit. mute. intros s. by destruct a1. Qed.
Hint Resolve mute_audit : mute.
Lemma mute_ensured k env n v : Mute (auditEnsure q k env n v). Proof. unfold auditEnsure. mute. Qed.
Lemma mute_resolve name : Mute (resolveCluster name).
Proof. intros s. unfold resolveCluster. destruct (rn_envs s !! name); [done|]. refine (mute_bnd _ _ (mute_lookup _) _ s). by intros r s'. Qed.
Lemma mute_generated n : Mute (generatedValue n).
Proof. intros s. unfold generatedValue. destruct (rn_gens s !! n); [done|]. refine (mute_bnd _ _ (mute_lookup _) _ s). intros [row|]; mute. Qed.
Hint Resolve mute_ensured mute_resolve mute_generated : mute.
Lemma mute_expand v : Mute (expandGenerated v).
Proof.
  intros s. unfold expandGenerated. assert (forall l s, rn_res (expand_tokens l s).2 = rn_res s /\ rn_summary (expand_tokens l s).2 = rn_summary s) as H.
  { clear s v. induction l as [|[c|n] l IH]; intros s; [done| |]; cbn [expand_tokens].
    - specialize (IH s). destruct (expand_tokens l s) as [[[e out] ok] s']. done.
    - pose proof (mute_generated n s) as [Hg Hg']. destruct (generatedValue n s) as [r s1]. specialize (IH s1). destruct (expand_tokens l s1) as [[[e out] ok] s2]. cbn in *.
      destruct IH as [I1 I2]. destruct r as [[v|]|x]; cbn; split; congruence. }
  specialize (H (scan 0 v) s). destruct (expand_tokens _ s) as [[[e out] ok] s']. by destruct e.
Qed.
Hint Resolve mute_expand : mute.
Lemma mute_env_want v : Mute (env_want q v). Proof. unfold env_want. mute. Qed.
Hint Resolve mute_env_want : mute.
Lemma mute_env_one v acc : Mute (env_one q v acc). Proof. destruct acc. unfold env_one. mute. Qed.
Lemma mute_file_want f acc : Mute (file_want q f acc). Proof. destruct acc. unfold file_want. mute. Qed.
Lemma mute_file_one o acc : Mute (file_one o acc). Proof. destruct acc. unfold file_one. mute. Qed.
Hint Resolve mute_env_one mute_file_want mute_file_one : mute.
Lemma mute_stack_env id st : Mute (ensureStackEnv q id st). Proof. unfold ensureStackEnv. mute. Qed.
Lemma mute_stack_secrets id st : Mute (ensureStackSecrets q id st). Proof. unfold ensureStackSecrets. mute. Qed.
Lemma mute_slots st cl row : Mute (reportStackSlots q st cl row).
Proof.
  unfold reportStackSlots. apply mute_bnd; [destruct row; mute|]. intros stored. apply mute_bnd; [destruct row; mute|]. intros files.
  apply mute_bnd; [|intros _]; apply mute_each; intros x; [unfold slot_env, unfilled | unfold slot_file, unfilled]; mute.
Qed.
Lemma mute_find_cert env n : Mute (find_cert env n). Proof. unfold find_cert. mute. Qed.
Hint Resolve mute_find_cert : mute.
Lemma mute_certs env l : Mute (resolve_certs q env l). Proof. induction l as [|dc l IH]; simpl; mute; apply IH. Qed.
Lemma mute_bundle l : Mute (resolve_bundle q l). Proof. induction l as [|n l IH]; simpl; mute; apply IH. Qed.
Lemma mute_traefik x : Mute (second_traefik x). Proof. unfold second_traefik. mute. Qed.
Lemma mute_named n env : Mute (namedWebhook q n env). Proof. unfold namedWebhook. mute. Qed.
Lemma mute_cred g : Mute (source_cred q g). Proof. unfold source_cred. mute. Qed.
Lemma mute_linked env n : Mute (linked_stack q env n). Proof. unfold linked_stack. mute. Qed.
Lemma mute_owned env v : Mute (owned_name env v). Proof. unfold owned_name. mute. Qed.
Lemma mute_hook n env p : Mute (createManifestWebhook q n env p). Proof. unfold createManifestWebhook. mute. Qed.
Hint Resolve mute_hook : mute.
Lemma mute_target named cur auto base env cl : Mute (targetWebhook q named cur auto base env cl). Proof. unfold targetWebhook, freeWebhookName. mute. Qed.
Lemma mute_new_ring row w : Mute (new_ring row w).
Proof.
  unfold new_ring. apply mute_bnd; [apply mute_write|]. intros _ s. match goal with |- context [write ?f s] => pose proof (mute_write f s) as [H1 H2]; destruct (write f s) as [[[]|e] s'] end; [done|].
  cbn [snd] in *. match goal with |- context [write ?f s'] => pose proof (mute_write f s') as [G1 G2] end. cbn [snd]. by rewrite G1, G2.
Qed.
Lemma mute_files id fs : Mute (store_files id fs). Proof. apply mute_write. Qed.
End Mute.
#[export] Hint Resolve mute_audit mute_ensured mute_resolve mute_generated mute_expand mute_stack_env mute_stack_secrets mute_slots mute_find_cert mute_certs mute_bundle mute_traefik mute_named mute_cred
  mute_linked mute_owned mute_hook mute_target mute_new_ring mute_files : mute.

Definition Ends (P : ResView -> Prop) (m : M unit) : Prop :=
  forall s s', m s = (Ok tt, s') -> exists v, rn_res s' = rn_res s ++ [v] /\ rn_summary s' = counted (rv_verdict v) (rn_summary s) /\ P v.
Lemma ends_report (P : ResView -> Prop) k n c v d i : P (mkRes k n c v d i) -> Ends P (report k n c v d i).
Proof. intros H s s' [= <-]. eexists. split_and!; [done..|]. exact H. Qed.
Lemma ends_bnd {A} P (m : M A) (k : A -> M unit) : Mute m -> (forall a, Ends P (k a)) -> Ends P (bnd m k).
Proof.
  intros Hm Hk s s'. unfold bnd. pose proof (Hm s) as [H1 H2]. destruct (m s) as [[a|e] s1]; [|done]. cbn in *. intros (v & E & E' & HP)%Hk. exists v. by rewrite <- H1, <- H2.
Qed.
Lemma ends_then {A} P (m : M unit) (k : unit -> M A) (k' : A -> M unit) : Ends P m -> Mute (bnd (k tt) k') -> Ends P (bnd m (fun u => bnd (k u) k')).
Proof.
  intros Hm Hk s s'. unfold bnd at 1. destruct (m s) as [[[]|e] s1] eqn:E; [|done]. intros H. destruct (Hm _ _ E) as (v & E1 & E2 & HP). destruct (Hk s1) as [H1 H2]. rewrite H in H1, H2. cbn in *. exists v.
  by rewrite H1, H2.
Qed.
Lemma ends_last P (m : M unit) (k : unit -> M unit) : Ends P m -> Mute (k tt) -> Ends P (bnd m k).
Proof.
  intros Hm Hk s s'. unfold bnd. destruct (m s) as [[[]|e] s1] eqn:E; [|done]. intros H. destruct (Hm _ _ E) as (v & E1 & E2 & HP). destruct (Hk s1) as [H1 H2]. rewrite H in H1, H2. cbn in *. exists v.
  by rewrite H1, H2.
Qed.
Lemma ends_weak (P Q : ResView -> Prop) m : (forall v, P v -> Q v) -> Ends P m -> Ends Q m.
Proof. intros H Hm s s' E. destruct (Hm s s' E) as (v & ? & ? & ?). eauto. Qed.

Section Ends.
Context `{O : Draws} (q : Req).
Lemma ends_env P k n c (K : string -> M unit) : P (mkRes k n c Blocked (NoSuchCluster c) "") -> (forall env, Ends P (K env)) ->
  Ends P (let! e := envFor k n c in match e with None => ret tt | Some env => K env end).
Proof.
  intros HP HK s s'. unfold envFor, bnd at 1. unfold bnd at 1. destruct (mute_resolve c s) as [H1 H2]. destruct (resolveCluster c s) as [[id|e] s1]; [|done]. cbn in *.
  case_bool_decide.
  - intros [= <-]. eexists. cbn. rewrite H1, H2. split_and!; [done..|exact HP].
  - intros E. destruct (HK _ _ _ E) as (v & E1 & E2 & E3). exists v. cbn in *. by rewrite <- H1, <- H2.
Qed.
Lemma ends_env' P (b : bool) o k n c (K : string -> M unit) : P (mkRes k n c Blocked (NoSuchCluster c) "") -> (forall env, Ends P (K env)) ->
  Ends P (let! e := (if b then ret (Some o) else envFor k n c) in match e with None => ret tt | Some env => K env end).
Proof. intros HP HK. destruct b; [|by apply ends_env]. intros s s' E. by apply (HK o). Qed.
End Ends.
Ltac ends1 :=
  match goal with
  | |- Ends _ (bnd (envFor _ _ _) _) => apply ends_env; [|intros ?]
  | |- Ends _ (bnd (if _ then ret (Some _) else envFor _ _ _) _) => apply ends_env'; [|intros ?]
  | |- Ends _ (bnd (report _ _ _ _ _ _) _) => apply ends_last; [apply ends_report|solve [mute]]
  | |- Ends _ (bnd _ _) => apply ends_bnd; [solve [mute]|intros ?]
  | |- Ends _ (match ?x with _ => _ end) => destruct x
  | |- Ends _ (report _ _ _ _ _ _) => apply ends_report
  | |- Ends _ (fun s => _) => let s := fresh "s" in let s' := fresh "s" in let E := fresh "E" in let H := fresh "H" in
      intros s s' E; cbv beta in E; match type of E with ?g s = _ => match goal with |- exists v, _ /\ _ /\ ?P v => assert (Ends P g) as H; [clear E|exact (H _ _ E)] end end
  end.
Ltac ends := cbv zeta; repeat ends1.

(** What the report says of a resource. *)
Definition identity (r : Resource) : Kind * string :=
  match r with
  | RSSHKey x => (KindSSHKey, sk_Name x) | RRegistry x => (KindRegistry, rg_Name x) | RGitCredential x => (KindGitCredential, gc_Name x) | RNetwork x => (KindNetwork, nw_Name x)
  | RCA x => (KindCA, ca_Name x) | RCertificate x => (KindCertificate, ct_Name x) | RKeyring x => (KindKeyring, kr_Name x) | RCertDelivery x => (KindCertDelivery, cd_Volume x)
  | RKeyringDelivery x => (KindKeyringDelivery, kd_Volume x) | RGeneratedSecret x => (KindGeneratedSecret, gs_Name x) | RWebhook x => (KindWebhook, wh_Name x)
  | RStack x => (KindStack, st_Name x) | RVolumeSource x => (KindVolumeSource, vs_Volume x)
  end.
Definition named_as (r : Resource) (v : ResView) : Prop := (rv_kind v, rv_name v) = identity r.
Lemma ends_ensure `{O : Draws} q r : Ends (named_as r) (ensure q r).
Proof.
  destruct r; cbn [ensure]; unfold ensureSSHKey, ensureRegistry, ensureGitCredential, ensureNetwork, ensureCA, ensureCertificate, ensureKeyring, ensureCertDelivery, ensureKeyringDelivery,
    ensureGeneratedSecret, ensureWebhook, ensureStack, convergeStack, ensureVolumeSource; ends; done.
Qed.

(** ** A plan against an apply of the same tables *)

Definition planned (q : Req) : Req := mkReq (q_m q) (q_values q) (q_user q) false (q_pool q).
Definition applied (q : Req) : Req := mkReq (q_m q) (q_values q) (q_user q) true (q_pool q).

(** No call fails. *)
Definition Quiet (s : Run) : Prop := rn_faults s = [].
Definition quietly {A} (m : M A) : Prop := forall s, Quiet s -> Quiet (m s).2.
Definition at_most_blocked (v1 v2 : ResView) : Prop := rv_verdict v2 = rv_verdict v1 \/ rv_verdict v2 = Blocked.
Definition Foretells (mp ma : M unit) (s : Run) : Prop := forall s1 s2, mp s = (Ok tt, s1) -> ma s = (Ok tt, s2) ->
  exists v1 v2, rn_res s1 = rn_res s ++ [v1] /\ rn_res s2 = rn_res s ++ [v2] /\ at_most_blocked v1 v2.

Definition found {A} (f : PDB -> res KErr A) (db : PDB) : option A := match f db with Ok a => Some a | Err _ => None end.
Lemma fate_quiet s : Quiet s -> fate s = (Ok false, s). Proof. unfold Quiet, fate. intros H. by destruct (rn_faults s). Qed.
Lemma read_quiet {A} (f : PDB -> A) s : Quiet s -> read f s = (Ok (f (rn_db s)), s).
Proof. intros H. unfold read, bnd. by rewrite fate_quiet. Qed.
Lemma lookup_quiet {A} (f : PDB -> res KErr A) s : Quiet s -> lookup_row f s = (Ok (found f (rn_db s)), s).
Proof. apply read_quiet. Qed.
Lemma bnd_run {A B} (m : M A) (k : A -> M B) s a s' : m s = (Ok a, s') -> bnd m k s = k a s'.
Proof. unfold bnd. by intros ->. Qed.
Lemma bnd_ok {A B} (m : M A) (k : A -> M B) s b s' : bnd m k s = (Ok b, s') -> exists a s1, m s = (Ok a, s1) /\ k a s1 = (Ok b, s').
Proof. unfold bnd. destruct (m s) as [[a|e] s1]; [eauto|done]. Qed.

Lemma ft_ends (P Q : ResView -> Prop) mp ma s : Ends P mp -> Ends Q ma -> (forall v1 v2, P v1 -> Q v2 -> at_most_blocked v1 v2) -> Foretells mp ma s.
Proof. intros Hp Ha H s1 s2 E1 E2. destruct (Hp _ _ E1) as (v1 & ? & _ & ?), (Ha _ _ E2) as (v2 & ? & _ & ?). exists v1, v2. eauto. Qed.
(** The plan says [v], the apply [v] or blocked. *)
Definition says (v : Verdict) (x : ResView) : Prop := rv_verdict x = v.
Definition says_or_blocked (v : Verdict) (x : ResView) : Prop := rv_verdict x = v \/ rv_verdict x = Blocked.
Definition anything (_ : ResView) : Prop := True.
Lemma ft_same v mp ma s : Ends (says v) mp -> Ends (says_or_blocked v) ma -> Foretells mp ma s.
Proof. intros Hp Ha. eapply ft_ends; [exact Hp|exact Ha|]. intros v1 v2 <- H. exact H. Qed.
Lemma ft_blocked mp ma s : Ends anything mp -> Ends (says Blocked) ma -> Foretells mp ma s.
Proof. intros Hp Ha. eapply ft_ends; [exact Hp|exact Ha|]. intros v1 v2 _ H. by right. Qed.
(** A step both take. *)
Lemma ft_step {A} (m : M A) (kp ka : A -> M unit) s :
  Mute m -> quietly m -> Quiet s -> (forall a s', Quiet s' -> m s = (Ok a, s') -> Foretells (kp a) (ka a) s') -> Foretells (bnd m kp) (bnd m ka) s.
Proof.
  intros Hm Hq Hs Hk s1 s2. unfold bnd. destruct (Hm s) as [Hr _]. specialize (Hq s Hs). destruct (m s) as [[a|e] s'] eqn:E; [|done]. cbn in *. intros E1 E2.
  destruct (Hk a s' Hq eq_refl _ _ E1 E2) as (v1 & v2 & H1 & H2 & H3). exists v1, v2. by rewrite <- Hr.
Qed.
Lemma ft_lookup {A} (f : PDB -> res KErr A) (kp ka : option A -> M unit) s :
  Quiet s -> Foretells (kp (found f (rn_db s))) (ka (found f (rn_db s))) s -> Foretells (bnd (lookup_row f) kp) (bnd (lookup_row f) ka) s.
Proof. intros Hs H s1 s2. rewrite !(bnd_run _ _ _ _ _ (lookup_quiet f s Hs)). apply H. Qed.
Lemma ft_ret {A} (a : A) (kp ka : A -> M unit) s : Foretells (kp a) (ka a) s -> Foretells (bnd (ret a) kp) (bnd (ret a) ka) s.
Proof. done. Qed.
Lemma quiet_resolve n : quietly (resolveCluster n).
Proof. intros s Hs. unfold resolveCluster. destruct (rn_envs s !! n); [done|]. by rewrite (bnd_run _ _ _ _ _ (lookup_quiet _ s Hs)). Qed.
Lemma envFor_cases k n c s : let s' := (resolveCluster c s).2 in
  (exists e, envFor k n c s = (Err e, s')) \/ envFor k n c s = (Ok None, with_res s' (mkRes k n c Blocked (NoSuchCluster c) "")) \/ exists id, id <> "" /\ resolveCluster c s = (Ok id, s') /\ envFor k n c s = (Ok (Some id), s').
Proof. unfold envFor, bnd. destruct (resolveCluster c s) as [[id|e] s']; cbn; [|by left; eauto]. case_bool_decide; [by right; left|]. right. right. eauto. Qed.
Lemma ft_env k n c (kp ka : string -> M unit) s : Quiet s -> (forall env s', Quiet s' -> Foretells (kp env) (ka env) s') ->
  Foretells (let! e := envFor k n c in match e with None => ret tt | Some env => kp env end) (let! e := envFor k n c in match e with None => ret tt | Some env => ka env end) s.
Proof.
  intros Hs H s1 s2. pose proof (quiet_resolve c s Hs) as Hq. destruct (mute_resolve c s) as [Hr _]. destruct (envFor_cases k n c s) as [[e E]|[E|(id & _ & _ & E)]]; unfold bnd; rewrite E; [done| |].
  - intros [= <-] [= <-]. eexists _, _. cbn. rewrite Hr. split_and!; [done..|by left].
  - intros E1 E2. destruct (H _ _ Hq _ _ E1 E2) as (v1 & v2 & H1 & H2 & H3). exists v1, v2. by rewrite <- Hr.
Qed.

Create HintDb quiet discriminated.
Lemma quiet_ret {A} (a : A) : quietly (ret a). Proof. by intros s H. Qed.
Lemma quiet_fate : quietly fate. Proof. intros s H. by rewrite fate_quiet. Qed.
Lemma quiet_tick : quietly tick. Proof. by intros s H. Qed.
Lemma quiet_option {A} e (o : option A) : quietly (of_option e o). Proof. intros s H. by destruct o. Qed.
Lemma quiet_bnd {A B} (m : M A) (k : A -> M B) : quietly m -> (forall a, quietly (k a)) -> quietly (bnd m k).
Proof. intros Hm Hk s H. unfold bnd. specialize (Hm s H). destruct (m s) as [[a|e] s']; [by apply Hk|done]. Qed.
Lemma quiet_read {A} (f : PDB -> A) : quietly (read f). Proof. intros s H. by rewrite read_quiet. Qed.
Lemma quiet_lookup {A} (f : PDB -> res KErr A) : quietly (lookup_row f). Proof. apply quiet_read. Qed.
Lemma quiet_seal `{Draws} v : quietly (seal v). Proof. apply quiet_option. Qed.
#[export] Hint Resolve quiet_ret quiet_fate quiet_tick quiet_option quiet_read quiet_lookup quiet_seal quiet_resolve : quiet.
Ltac quiet := repeat first [solve [auto with quiet] | apply quiet_bnd; [|intros ?]
  | match goal with |- quietly (match ?x with _ => _ end) => destruct x end
  | match goal with |- quietly (fun s => (Ok _, s)) => by intros ? ? end
  | match goal with |- quietly (fun s => _) => let s := fresh "s" in let Hs := fresh "Hs" in let K := fresh "K" in intros s Hs; cbv beta; match goal with |- Quiet (snd (?g s)) => assert (quietly g) as K; [clear Hs|exact (K s Hs)] end end].

Section Foretell.
Context `{O : Draws} (q : Req).
#[local] Abbreviation P := (planned q).
#[local] Abbreviation A := (applied q).
(** What does not depend on the kind of run. *)
Ltac align :=
  change (cluster A) with (cluster P); change (secret A) with (secret P); change (value_of A) with (value_of P); change (q_pool A) with (q_pool P); change (placement A) with (placement P);
  change (q_apply P) with false; change (q_apply A) with true; cbn [negb].
Ltac ft_leaf :=
  match goal with
  | |- Foretells (report _ _ _ ?v _ _) _ _ => apply (ft_same v); [apply ends_report; done | ends; first [by left | by right]]
  | |- Foretells _ (report _ _ _ Blocked _ _) _ => apply ft_blocked; [ends; done | apply ends_report; done]
  end.
Ltac ft1 :=
  match goal with
  | |- Foretells (bnd (lookup_row _) _) _ _ => apply ft_lookup; [done|]
  | |- Foretells (bnd (envFor _ _ _) _) _ _ => apply ft_env; [done|intros ? ? ?]
  | |- Foretells (match ?x with _ => _ end) (match ?x with _ => _ end) _ => destruct x eqn:?
  | |- Foretells (report _ _ _ _ _ _) _ _ => ft_leaf
  | |- Foretells _ (report _ _ _ Blocked _ _) _ => ft_leaf
  | |- Foretells (bnd ?m _) (bnd ?m _) _ => lazymatch m with ret _ => fail | _ => apply ft_step; [solve [mute]|solve [quiet]|done|intros ? ? ? ?] end
  | |- Foretells (fun z1 => _) (fun z2 => _) ?s =>
      let s1 := fresh "s" in let s2 := fresh "s" in let E1 := fresh "E" in let E2 := fresh "E" in
      intros s1 s2 E1 E2; cbv beta in E1, E2; match type of E1 with ?g _ = _ => match type of E2 with ?h _ = _ => revert s1 s2 E1 E2; change (Foretells g h s) end end
  | |- Foretells (bnd (ret ?a) _) (bnd (ret ?a) _) _ => apply ft_ret
  | |- Foretells (bnd (ret tt) _) _ _ => eapply (ft_same Update); [ends; done | ends; first [by left | by right]]
  end.
Ltac foretell := align; cbv zeta; repeat ft1.

Lemma ft_key k s : Quiet s -> Foretells (ensureSSHKey P k) (ensureSSHKey A k) s.
Proof. intros Hs. unfold ensureSSHKey. foretell. Qed.
Lemma ft_reg k s : Quiet s -> Foretells (ensureRegistry P k) (ensureRegistry A k) s.
Proof. intros Hs. unfold ensureRegistry. foretell. Qed.
Lemma not_pending k n : pending A k n = false. Proof. done. Qed.
Lemma ft_cred k s : Quiet s -> Foretells (ensureGitCredential P k) (ensureGitCredential A k) s.
Proof. intros Hs. unfold ensureGitCredential. rewrite !not_pending. foretell. Qed.
Lemma ft_net k s : Quiet s -> Foretells (ensureNetwork P k) (ensureNetwork A k) s.
Proof. intros Hs. unfold ensureNetwork. foretell. Qed.
Lemma ft_ca k s : Quiet s -> Foretells (ensureCA P k) (ensureCA A k) s.
Proof. intros Hs. unfold ensureCA. foretell. Qed.
Lemma ft_gen k s : Quiet s -> Foretells (ensureGeneratedSecret P k) (ensureGeneratedSecret A k) s.
Proof. intros Hs. unfold ensureGeneratedSecret. foretell. Qed.
Lemma ft_ring k s : Quiet s -> Foretells (ensureKeyring P k) (ensureKeyring A k) s.
Proof. intros Hs. unfold ensureKeyring. foretell. Qed.
Lemma ft_webhook k s : Quiet s -> Foretells (ensureWebhook P k) (ensureWebhook A k) s.
Proof. intros Hs. unfold ensureWebhook. destruct (wh_Shared k); foretell. Qed.
Lemma ft_cert k s : Quiet s -> Foretells (ensureCertificate P k) (ensureCertificate A k) s.
Proof. intros Hs. unfold ensureCertificate. rewrite !not_pending. destruct (ct_Shared k); foretell. Qed.
Lemma ft_kdel k s : Quiet s -> Foretells (ensureKeyringDelivery P k) (ensureKeyringDelivery A k) s.
Proof. intros Hs. unfold ensureKeyringDelivery. rewrite !not_pending. foretell. Qed.
Lemma ft_eval_a {X} mp (m : M X) (ka : X -> M unit) a s : m s = (Ok a, s) -> Foretells mp (ka a) s -> Foretells mp (bnd m ka) s.
Proof. intros E H s1 s2 E1 E2. rewrite (bnd_run _ _ _ _ _ E) in E2. by apply H. Qed.
Lemma ft_eval_p {X} ma (m : M X) (kp : X -> M unit) a s : m s = (Ok a, s) -> Foretells (kp a) ma s -> Foretells (bnd m kp) ma s.
Proof. intros E H s1 s2 E1 E2. rewrite (bnd_run _ _ _ _ _ E) in E1. by apply H. Qed.
Lemma find_cert_quiet env n s : Quiet s -> exists c, find_cert env n s = (Ok c, s).
Proof.
  intros Hs. unfold find_cert. rewrite (bnd_run _ _ _ _ _ (lookup_quiet _ s Hs)). destruct (found _ _); [by eexists|]. rewrite (lookup_quiet _ s Hs). by eexists.
Qed.
(** Where the apply finds everything, the plan does. *)
Lemma certs_agree env l s : Quiet s -> (exists n, resolve_certs A env l s = (Ok (inl n), s)) \/
  (exists ids, resolve_certs A env l s = (Ok (inr (ids, false)), s) /\ resolve_certs P env l s = (Ok (inr (ids, false)), s)).
Proof.
  intros Hs. induction l as [|dc l IH]; [by right; eexists|]. cbn [resolve_certs]. destruct (find_cert_quiet env (dc_Name dc) s Hs) as [c Ec]. rewrite !(bnd_run _ _ _ _ _ Ec).
  rewrite not_pending. destruct c as [c|]; [|by left; eexists].
  destruct IH as [[n E]|(ids & E1 & E2)]; [left; exists n; by rewrite (bnd_run _ _ _ _ _ E)|right]. eexists. by rewrite (bnd_run _ _ _ _ _ E1), (bnd_run _ _ _ _ _ E2).
Qed.
Lemma bundle_agree l s : Quiet s -> (exists n, resolve_bundle A l s = (Ok (inl n), s)) \/
  (exists ids, resolve_bundle A l s = (Ok (inr (ids, false)), s) /\ resolve_bundle P l s = (Ok (inr (ids, false)), s)).
Proof.
  intros Hs. induction l as [|n l IH]; [by right; eexists|]. cbn [resolve_bundle]. rewrite !(bnd_run _ _ _ _ _ (lookup_quiet _ s Hs)).
  rewrite not_pending. destruct (found _ _) as [c|]; [|by left; eexists].
  destruct IH as [[x E]|(ids & E1 & E2)]; [left; exists x; by rewrite (bnd_run _ _ _ _ _ E)|right]. eexists. by rewrite (bnd_run _ _ _ _ _ E1), (bnd_run _ _ _ _ _ E2).
Qed.
Lemma ft_cdel k s : Quiet s -> Foretells (ensureCertDelivery P k) (ensureCertDelivery A k) s.
Proof.
  intros Hs. unfold ensureCertDelivery. align. cbv zeta. apply ft_env; [done|]. intros env s' Hs'.
  destruct (certs_agree env (cd_Certs k) s' Hs') as [[n E]|(ids & E1 & E2)]; [eapply ft_eval_a; [exact E|]; cbv beta iota; ft_leaf|]. eapply ft_eval_a; [exact E1|]. eapply ft_eval_p; [exact E2|]. cbv iota beta.
  destruct (bundle_agree (cd_BundleCAs k) s' Hs') as [[n E]|(bun & F1 & F2)]; [eapply ft_eval_a; [exact E|]; cbv beta iota; ft_leaf|]. eapply ft_eval_a; [exact F1|]. eapply ft_eval_p; [exact F2|]. cbv iota beta.
  foretell.
Qed.

(** *** Stacks: what values are compared depends on the generated secrets alone *)

Definition gview (s : Run) : list SecretValue * gmap string string := (p_gens (rn_db s), rn_gens s).
Definition Reads {X} (m : M X) : Prop :=
  forall s1 s2, Quiet s1 -> Quiet s2 -> gview s1 = gview s2 -> (m s1).1 = (m s2).1 /\ gview (m s1).2 = gview (m s2).2 /\ Quiet (m s1).2 /\ Quiet (m s2).2.
Lemma rd_ret {X} (a : X) : Reads (ret a). Proof. by intros s1 s2 H1 H2 E. Qed.
Lemma rd_option {X} e (o : option X) : Reads (of_option e o). Proof. intros s1 s2 H1 H2 E. by destruct o. Qed.
Lemma rd_bnd {X Y} (m : M X) (k : X -> M Y) : Reads m -> (forall a, Reads (k a)) -> Reads (bnd m k).
Proof.
  intros Hm Hk s1 s2 H1 H2 E. unfold bnd. destruct (Hm s1 s2 H1 H2 E) as (Er & Ev & Q1 & Q2). destruct (m s1) as [[a|e] s1'], (m s2) as [[b|e'] s2']; cbn in *; try done; [injection Er as <-; by apply Hk|by injection Er as <-].
Qed.
Lemma rd_fold {X Y} (f : X -> Y -> M Y) l : (forall x b, Reads (f x b)) -> forall b, Reads (foldM f l b).
Proof. intros H. induction l as [|x l IH]; intros b; [apply rd_ret|]. by apply rd_bnd. Qed.
Lemma rd_generated n : Reads (generatedValue n).
Proof.
  intros s1 s2 H1 H2 E. assert (p_gens (rn_db s1) = p_gens (rn_db s2) /\ rn_gens s1 = rn_gens s2) as [Eg Em] by (unfold gview in E; split; congruence).
  unfold generatedValue. rewrite <- Em. destruct (rn_gens s1 !! n); [done|]. rewrite (bnd_run _ _ _ _ _ (lookup_quiet _ s1 H1)), (bnd_run _ _ _ _ _ (lookup_quiet _ s2 H2)).
  unfold found, SecretValueByName. rewrite <- Eg. destruct (by_id _ _ _) as [row|e]; [|done]. unfold bnd. destruct (of_option _ _ s1) as [[v|e] s1'] eqn:E1; destruct (Open (sv_enc row)) as [v'|]; cbn in E1; try done; injection E1 as <- <-; cbn; last done.
  unfold gview. cbn. rewrite Eg, Em. done.
Qed.
Lemma rd_expand v : Reads (expandGenerated v).
Proof.
  assert (forall l s1 s2, Quiet s1 -> Quiet s2 -> gview s1 = gview s2 -> (expand_tokens l s1).1 = (expand_tokens l s2).1 /\ gview (expand_tokens l s1).2 = gview (expand_tokens l s2).2 /\
    Quiet (expand_tokens l s1).2 /\ Quiet (expand_tokens l s2).2) as H.
  { clear v. induction l as [|[c|n] l IH]; intros s1 s2 H1 H2 E; [done| |]; cbn [expand_tokens].
    - destruct (IH s1 s2 H1 H2 E) as (I1 & I2 & I3 & I4). destruct (expand_tokens l s1) as [[[e out] ok] t1], (expand_tokens l s2) as [[[e' out'] ok'] t2]. cbn in *. by injection I1 as -> -> ->.
    - destruct (rd_generated n s1 s2 H1 H2 E) as (G1 & G2 & G3 & G4). destruct (generatedValue n s1) as [r u1], (generatedValue n s2) as [r' u2]. cbn in *. subst r'.
      destruct (IH u1 u2 G3 G4 G2) as (I1 & I2 & I3 & I4). destruct (expand_tokens l u1) as [[[e out] ok] t1], (expand_tokens l u2) as [[[e' out'] ok'] t2]. cbn in *. injection I1 as -> -> ->.
      by destruct r as [[v|]|x]. }
  intros s1 s2 H1 H2 E. unfold expandGenerated. destruct (H (scan 0 v) s1 s2 H1 H2 E) as (I1 & I2 & I3 & I4).
  destruct (expand_tokens _ s1) as [[[e out] ok] t1], (expand_tokens _ s2) as [[[e' out'] ok'] t2]. cbn in *. injection I1 as -> -> ->. by destruct e'.
Qed.
Ltac reads := repeat match goal with
  | |- Reads (bnd _ _) => apply rd_bnd; [|intros ?]
  | |- Reads (match ?x with _ => _ end) => destruct x
  | |- Reads (ret _) => apply rd_ret
  | |- Reads (seal _) => apply rd_option
  | |- Reads (of_option _ _) => apply rd_option
  | |- Reads (generatedValue _) => apply rd_generated
  | |- Reads (expandGenerated _) => apply rd_expand
  end.
Lemma rd_env_one v acc : Reads (env_one P v acc). Proof. destruct acc. unfold env_one, env_want. cbv zeta. reads. Qed.
Lemma rd_file_want f acc : Reads (file_want P f acc). Proof. destruct acc. unfold file_want. reads. Qed.
Lemma rd_file_one o acc : Reads (file_one o acc). Proof. destruct acc. unfold file_one. reads. Qed.

Lemma write_quiet f s s' : Quiet s -> write f s = (Ok tt, s') -> f (rn_db s) = Ok (rn_db s') /\ Quiet s' /\ rn_gens s' = rn_gens s.
Proof. intros Hs. unfold write, bnd. rewrite fate_quiet by done. destruct (f (rn_db s)) as [db|e]; [|done]. by intros [= <-]. Qed.
Lemma gview_same {X} (m : M X) s : Same m -> gview (m s).2 = (p_gens (rn_db s), rn_gens (m s).2).
Proof. intros H. unfold gview. specialize (H s). unfold deeds in H. by injection H as -> _. Qed.
Lemma set_env_rest db id l db' : SetStackEnv db id l = Ok db' -> p_files db' = p_files db /\ p_gens db' = p_gens db /\ p_src db' = p_src db.
Proof. unfold SetStackEnv. destruct (negb _); [done|]. destruct l; [|destruct (stack_there db id); [|done]]; by intros [= <-]. Qed.
Lemma env_agree id st s1 s2 b s2' : Quiet s1 -> Quiet s2 -> gview s1 = gview s2 -> p_vars (rn_db s1) = p_vars (rn_db s2) -> ensureStackEnv A id st s2 = (Ok b, s2') ->
  exists s1', ensureStackEnv P id st s1 = (Ok b, s1') /\ Quiet s1' /\ Quiet s2' /\ gview s1' = gview s2' /\ p_files (rn_db s1') = p_files (rn_db s1) /\ p_files (rn_db s2') = p_files (rn_db s2).
Proof.
  intros H1 H2 Eg Ev. unfold ensureStackEnv. case_bool_decide; [intros [= <- <-]; by exists s1|]. rewrite !(bnd_run _ _ _ _ _ (read_quiet _ _ H1)), !(bnd_run _ _ _ _ _ (read_quiet _ _ H2)).
  unfold StackEnv. rewrite Ev. set (stored := by_name _ _). change (env_one A) with (env_one P).
  destruct (rd_fold (env_one P) (st_Env st) rd_env_one (stored, false) s1 s2 H1 H2 Eg) as (Er & Egv & Q1 & Q2).
  pose proof (same_fold (env_one P) (st_Env st) (same_env_one P) (stored, false)) as Hsame. pose proof (Hsame s1) as D1. pose proof (Hsame s2) as D2. unfold deeds in D1, D2.
  unfold bnd at 1 3. destruct (foldM (env_one P) _ _ s1) as [r t1], (foldM (env_one P) _ _ s2) as [r' t2]. cbn [fst snd] in *. subst r'. destruct r as [r|e]; [|done]. injection D1 as D1 _. injection D2 as D2 _.
  align. rewrite andb_false_r, andb_true_r. intros ([] & u & Ew & Eu)%bnd_ok. injection Eu as <- <-. exists t1. rewrite D1. destruct r.2; cbn in Ew.
  - apply write_quiet in Ew as (Ew & Q3 & G3); [|done]. apply set_env_rest in Ew as (F1 & F2 & _). split_and!; try done; [|by rewrite F1, D2].
    rewrite Egv. unfold gview. by rewrite F2, G3.
  - injection Ew as <-. split_and!; try done. by rewrite D2.
Qed.
Lemma secrets_agree id st s1 s2 b s2' : Quiet s1 -> Quiet s2 -> gview s1 = gview s2 -> p_files (rn_db s1) = p_files (rn_db s2) -> ensureStackSecrets A id st s2 = (Ok b, s2') ->
  exists s1', ensureStackSecrets P id st s1 = (Ok b, s1').
Proof.
  intros H1 H2 Eg Ef. unfold ensureStackSecrets. change (file_want A) with (file_want P).
  destruct (rd_fold (file_want P) (st_SecretFiles st) rd_file_want ([], false) s1 s2 H1 H2 Eg) as (Er & Egv & Q1 & Q2).
  pose proof (same_fold (file_want P) (st_SecretFiles st) (same_file_want P) ([], false)) as Hsame. pose proof (Hsame s1) as D1. pose proof (Hsame s2) as D2. unfold deeds in D1, D2.
  unfold bnd at 1 5. destruct (foldM (file_want P) _ _ s1) as [r t1], (foldM (file_want P) _ _ s2) as [r' t2]. cbn [fst snd] in *. subst r'. destruct r as [w|e]; [|done]. injection D1 as D1 _. injection D2 as D2 _.
  case_bool_decide; [intros [= <- _]; eauto|]. rewrite !(bnd_run _ _ _ _ _ (read_quiet _ _ Q1)), !(bnd_run _ _ _ _ _ (read_quiet _ _ Q2)). unfold StackSecrets. rewrite D1, D2, Ef. set (stored := by_name _ _).
  destruct (rd_fold file_one w.1 rd_file_one (stored, w.2) t1 t2 Q1 Q2 Egv) as (Er & Egv' & Q3 & Q4). unfold bnd at 1 3.
  destruct (foldM file_one _ _ t1) as [r u1], (foldM file_one _ _ t2) as [r' u2]. cbn [fst snd] in *. subst r'. destruct r as [r|e]; [|done]. align. rewrite andb_false_r.
  intros ([] & u & _ & Eu)%bnd_ok. injection Eu as <- <-. by exists u1.
Qed.

(** *** What making a webhook leaves alone *)

Definition rest (s : Run) := (p_vars (rn_db s), p_files (rn_db s), p_src (rn_db s), gview s).
Definition Aside {X} (m : M X) : Prop := forall s, rest (m s).2 = rest s.
Lemma as_ret {X} (a : X) : Aside (ret a). Proof. done. Qed.
Lemma as_bnd {X Y} (m : M X) (k : X -> M Y) : Aside m -> (forall a, Aside (k a)) -> Aside (bnd m k).
Proof. intros Hm Hk s. unfold bnd. specialize (Hm s). destruct (m s) as [[a|e] s']; [|done]. cbn in Hm. rewrite <- Hm. apply Hk. Qed.
Lemma as_fate : Aside fate. Proof. intros s. unfold fate. by destruct (rn_faults s). Qed.
Lemma as_read {X} (f : PDB -> X) : Aside (read f). Proof. apply as_bnd; [apply as_fate|]. by intros [|] s. Qed.
Lemma as_option {X} e (o : option X) : Aside (of_option e o). Proof. by destruct o. Qed.
Definition rest_db (db : PDB) := (p_vars db, p_files db, p_src db, p_gens db).
Lemma as_write f : (forall db db', f db = Ok db' -> rest_db db' = rest_db db) -> Aside (write f).
Proof.
  intros H. apply as_bnd; [apply as_fate|]. intros [|] s; [done|]. destruct (f (rn_db s)) as [db|e] eqn:E; [|done]. apply H in E. unfold rest_db in E. injection E as E1 E2 E3 E4.
  unfold rest, gview. cbn. by rewrite E1, E2, E3, E4.
Qed.
Lemma as_audit env a t o : Aside (audit A env a t o).
Proof. unfold audit. apply as_bnd; [done|]. intros n. apply as_bnd; [apply as_fate|]. by intros [|] s. Qed.
Lemma as_hook n env p : Aside (createManifestWebhook A n env p).
Proof.
  unfold createManifestWebhook. apply as_bnd; [done|]. intros t. apply as_bnd; [destruct (bool_decide _); [apply as_option|done]|]. intros pl. apply as_bnd; [apply as_option|]. intros sealed. cbv zeta.
  apply as_bnd; [|done]. apply as_write. intros db db'. unfold CreateWebhook. destruct (negb _); [done|]. intros H. inv_res. done.
Qed.
Lemma quiet_write f : quietly (write f).
Proof. intros s Hs. unfold write, bnd. rewrite fate_quiet by done. by destruct (f (rn_db s)). Qed.
Lemma quiet_audit env a t o : quietly (audit A env a t o).
Proof. unfold audit. apply quiet_bnd; [auto with quiet|]. intros n. apply quiet_bnd; [auto with quiet|]. by intros [|] s Hs. Qed.
Lemma quiet_hook n env p : quietly (createManifestWebhook A n env p).
Proof.
  unfold createManifestWebhook. apply quiet_bnd; [auto with quiet|]. intros t. apply quiet_bnd; [destruct (bool_decide _); auto with quiet|]. intros pl. apply quiet_bnd; [auto with quiet|]. intros sealed. cbv zeta.
  apply quiet_bnd; [apply quiet_write|]. auto with quiet.
Qed.
Lemma id_nonempty a p t : id_of (String a p) t <> "". Proof. done. Qed.
Lemma hook_id n env p s h s' : createManifestWebhook A n env p s = (Ok h, s') -> h <> "".
Proof.
  unfold createManifestWebhook. intros (t & u1 & _ & E)%bnd_ok. apply bnd_ok in E as (pl & u2 & _ & E). apply bnd_ok in E as (sealed & u3 & _ & E). cbv zeta in E. apply bnd_ok in E as (x & u4 & _ & E).
  injection E as <- _. apply id_nonempty.
Qed.
Lemma target_agree named cur auto base env cl s h s' : Quiet s -> targetWebhook A named cur auto base env cl s = (Ok h, s') ->
  exists hp, (forall u, targetWebhook P named cur auto base env cl u = (Ok hp, u)) /\ (hp = h \/ cur = "" /\ hp <> "" /\ h <> "") /\ Quiet s' /\ rest s' = rest s.
Proof.
  intros Hs. unfold targetWebhook. align. destruct (negb _); [intros [= <- <-]; exists named; auto|]. destruct (negb (bool_decide (cur = "")) || negb auto) eqn:E; [intros [= <- <-]; exists cur; auto|].
  apply orb_false_iff in E as [E _]. bd. intros (n & u1 & E1 & E2)%bnd_ok. apply bnd_ok in E2 as (id & u2 & E2 & E3). apply bnd_ok in E3 as (x & u3 & E3 & E4). injection E4 as <- <-.
  exists pendingWebhook. split; [done|]. assert (Quiet u1 /\ rest u1 = rest s) as [Q1 R1].
  { assert (quietly (freeWebhookName base cl)) as Hq by (unfold freeWebhookName; quiet). specialize (Hq s Hs). assert (Aside (freeWebhookName base cl)) as Ha.
    { unfold freeWebhookName. apply as_bnd; [apply as_read|]. intros [w|]; [|done]. apply as_bnd; [apply as_read|]. intros [w'|]; [|done]. by apply as_bnd. }
    specialize (Ha s). by rewrite E1 in Hq, Ha. }
  pose proof (quiet_hook n env "" u1 Q1) as Q2. pose proof (as_hook n env "" u1) as R2. rewrite E2 in Q2, R2. cbn in Q2, R2.
  unfold auditEnsure in E3. change (q_apply A) with true in E3. cbv iota in E3. match type of E3 with audit _ ?a ?b ?c ?d _ = _ => pose proof (quiet_audit a b c d u2 Q2) as Q3; pose proof (as_audit a b c d u2) as R3 end.
  rewrite E3 in Q3, R3. cbn in Q3, R3. split_and!; [|done|congruence]. right. split_and!; [done|done|by eapply hook_id].
Qed.

(** *** Stacks and volume sources *)

(** A reference that is only declared: the plan goes on, the apply is blocked. *)
Definition refers {X} (mp ma : M (Detail + X)) (s : Run) : Prop := exists o, ma s = (Ok o, s) /\ match o with inl _ => exists o', mp s = (Ok o', s) | inr _ => mp s = (Ok o, s) end.
Lemma ref_cred g s : Quiet s -> refers (source_cred P g) (source_cred A g) s.
Proof.
  intros Hs. unfold refers, source_cred. destruct g as [g|]; [|by eexists]. case_bool_decide; [by eexists|]. rewrite !(bnd_run _ _ _ _ _ (lookup_quiet _ s Hs)), not_pending.
  destruct (found _ _); [by eexists|]. eexists. split; [done|]. cbn. by eexists.
Qed.
Lemma ref_named n env s : Quiet s -> refers (namedWebhook P n env) (namedWebhook A n env) s.
Proof.
  intros Hs. unfold refers, namedWebhook. case_bool_decide; [by eexists|]. rewrite !(bnd_run _ _ _ _ _ (lookup_quiet _ s Hs)), not_pending.
  destruct (found _ _) as [w|]; [destruct (_ && _); eexists; (split; [done|]); cbn; by eauto|]. eexists. split; [done|]. cbn. case_bool_decide; by eexists.
Qed.
Lemma ref_linked env n s : Quiet s -> refers (linked_stack P env n) (linked_stack A env n) s.
Proof.
  intros Hs. unfold refers, linked_stack. case_bool_decide; [by eexists|]. rewrite !(bnd_run _ _ _ _ _ (lookup_quiet _ s Hs)), not_pending.
  destruct (found _ _); [by eexists|]. eexists. split; [done|]. cbn. by eexists.
Qed.
Lemma ft_refers {X} (mp ma : M (Detail + X)) (bp ba : Detail -> M unit) (kp ka : X -> M unit) s :
  refers mp ma s -> (forall why, Ends (says Blocked) (ba why)) -> (forall why, Ends anything (bp why)) -> (forall x, Ends anything (kp x)) -> (forall x, Foretells (kp x) (ka x) s) ->
  Foretells (let! o := mp in match o with inl why => bp why | inr x => kp x end) (let! o := ma in match o with inl why => ba why | inr x => ka x end) s.
Proof.
  intros (o & Ea & Ho) Hb Hb' Hk H. eapply ft_eval_a; [exact Ea|]. destruct o as [why|x].
  - destruct Ho as [o' Ep]. eapply ft_eval_p; [exact Ep|]. apply ft_blocked; [destruct o'; auto|apply Hb].
  - eapply ft_eval_p; [exact Ho|]. apply H.
Qed.
(** The verdict of the last piece is the verdict of the whole. *)
Lemma ft_verdict mp ma s : Ends anything mp -> Ends anything ma ->
  (forall s1 s2, mp s = (Ok tt, s1) -> ma s = (Ok tt, s2) -> exists v kp ka t1 t2, Ends (says v) kp /\ Ends (says v) ka /\ kp t1 = (Ok tt, s1) /\ ka t2 = (Ok tt, s2)) -> Foretells mp ma s.
Proof.
  intros Hp Ha H s1 s2 E1 E2. destruct (Hp _ _ E1) as (v1 & R1 & _), (Ha _ _ E2) as (v2 & R2 & _). destruct (H _ _ E1 E2) as (v & kp & ka & t1 & t2 & K1 & K2 & F1 & F2).
  destruct (K1 _ _ F1) as (w1 & S1 & _ & V1), (K2 _ _ F2) as (w2 & S2 & _ & V2). exists v1, v2. split_and!; [done..|]. left.
  rewrite R1 in S1. rewrite R2 in S2. apply app_inj_tail in S1 as [_ <-], S2 as [_ <-]. unfold says in *. congruence.
Qed.
Lemma write_rest f s s' : (forall db db', f db = Ok db' -> rest_db db' = rest_db db) -> Quiet s -> write f s = (Ok tt, s') -> Quiet s' /\ rest s' = rest s.
Proof. intros Hf Hs E. pose proof (quiet_write f s Hs) as Hq. pose proof (as_write f Hf s) as Ha. by rewrite E in Hq, Ha. Qed.

Lemma ends_converge (b : bool) st cl env cred named created ex : Ends anything (convergeStack (if b then A else P : Req) st cl env cred named created ex).
Proof. unfold convergeStack. ends. all: done. Qed.
Lemma ft_converge st cl env cred named ex s : Quiet s -> Foretells (convergeStack P st cl env cred named false ex) (convergeStack A st cl env cred named false ex) s.
Proof.
  intros Hs. apply ft_verdict; [apply (ends_converge false)|apply (ends_converge true)|]. intros s1 s2 E1 E2.
  unfold convergeStack in E1, E2. change (applyStackSource ex st cred) with (applyStackSource ex st cred) in E1. cbv zeta iota in E1, E2. set (want := applyStackSource ex st cred) in *.
  change (q_apply P) with false in E1. change (q_apply A) with true in E2. rewrite andb_false_r in E1. rewrite andb_true_r in E2.
  apply bnd_ok in E2 as (u & t1 & W & E2). assert (Quiet t1 /\ rest t1 = rest s) as [Q1 R1].
  { destruct (source_differs want ex); cbv iota in W; [|injection W as _ <-; by split]. destruct u. eapply write_rest; [|exact Hs|exact W]. intros db db'. unfold UpdateStackSource. destruct (stack_there _ _ && _); [intros ?; discriminate|]. by intros [= <-]. }
  apply bnd_ok in E2 as (h & t2 & T & E2). destruct (target_agree _ _ _ _ _ _ _ _ _ Q1 T) as (hp & Tp & Hh & Q2 & R2).
  rewrite (bnd_run (ret tt) _ s tt s eq_refl), (bnd_run _ _ _ _ _ (Tp s)) in E1. rewrite andb_false_r in E1. rewrite andb_true_r in E2.
  set (c2 := fun hook => negb (Bool.eqb (sx_auto want) (st_AutoDeploy st)) || negb (bool_decide (sx_watch want = strings.Join (st_WatchPaths st) (String LF ""))) || negb (bool_decide (sx_webhook want = hook))).
  assert (c2 hp = c2 h) as Hc. { unfold c2. destruct Hh as [->|(H0 & H1 & H2)]; [done|]. rewrite H0, (bool_decide_eq_false_2 ("" = hp)), (bool_decide_eq_false_2 ("" = h)) by congruence. done. }
  fold (c2 hp) in E1. fold (c2 h) in E2. rewrite Hc in E1. clear Hc.
  apply bnd_ok in E2 as (u2 & t3 & W2 & E2). assert (Quiet t3 /\ rest t3 = rest t2) as [Q3 R3].
  { destruct (c2 h); cbv iota in W2; [|injection W2 as _ <-; by split]. destruct u2. eapply write_rest; [|exact Q2|exact W2]. intros db db'. unfold SetStackAutoDeploy. destruct (stack_there _ _ && _); [intros ?; discriminate|]. by intros [= <-]. }
  assert (rest t3 = rest s) as R by congruence. unfold rest in R. injection R as Rv Rf _ Rg1 Rg2.
  apply bnd_ok in E2 as (c3 & t4 & V & E2). destruct (env_agree (sx_id want) st s t3 c3 t4) as (s4 & V' & Q4 & Q4' & Eg & F1 & F2); [done|done|unfold gview; congruence|done|done|].
  apply bnd_ok in E2 as (c4 & t5 & V5 & E2). destruct (secrets_agree (sx_id want) st s4 t4 c4 t5) as (s5 & V5'); [done|done|done|congruence|done|].
  cbv iota in E1. rewrite (bnd_run (ret tt) _ s tt s eq_refl), (bnd_run _ _ _ _ _ V'), (bnd_run _ _ _ _ _ V5') in E1.
  set (v := if source_differs want ex || c2 h || c3 || c4 then Update else InSync) in *. exists v.
  eexists _, _, s5, t5. split_and!; [| |exact E1|exact E2]; ends; done.
Qed.

Lemma ft_stack st s : Quiet s -> Foretells (ensureStack P st) (ensureStack A st) s.
Proof.
  intros Hs. unfold ensureStack. align. cbv zeta. apply ft_env; [done|]. intros env t Ht.
  apply ft_refers; [by apply ref_cred|intros; ends; done|intros; ends; done|intros; unfold convergeStack; ends; done|]. intros cred.
  apply ft_refers; [by apply ref_named|intros; ends; done|intros; ends; done|intros; unfold convergeStack; ends; done|]. intros named.
  apply ft_lookup; [done|]. destruct (found _ _) as [ex|].
  - case_match; [ft_leaf|]. case_match; [ft_leaf|]. by apply ft_converge.
  - destruct (placement P env st) as [why|node]; [ft_leaf|]. apply (ft_same Create); [ends; done|]. unfold convergeStack. ends. all: by left.
Qed.

(** *** A volume source that is there *)

Lemma ends_source (b : bool) v : Ends anything (ensureVolumeSource (if b then A else P : Req) v).
Proof. unfold ensureVolumeSource. ends. all: done. Qed.
Lemma same_spec_hook x h ex : same_spec (with_hook x h) ex = same_spec (with_hook x (vs_webhook ex)) ex && bool_decide (h = vs_webhook ex).
Proof. unfold same_spec, with_hook, spec_source. cbn. rewrite (bool_decide_eq_true_2 (vs_webhook ex = vs_webhook ex)), andb_true_r by done. done. Qed.
(** The hook a source gets: the plan's stands for one that is not there yet. *)
Lemma source_want want ex named name env cl s w s' :
  Quiet s -> (if bool_decide (vs_kind want = "git") then let! h := targetWebhook A named (vs_webhook ex) (vs_auto want) name env cl in ret (with_hook want h) else ret want) s = (Ok w, s') ->
  exists wp, (if bool_decide (vs_kind want = "git") then let! h := targetWebhook P named (vs_webhook ex) (vs_auto want) name env cl in ret (with_hook want h) else ret want) s = (Ok wp, s) /\
    vs_kind wp = vs_kind w /\ same_spec wp ex = same_spec w ex /\ Quiet s' /\ rest s' = rest s.
Proof.
  intros Hs. case_bool_decide; [|intros [= <- <-]; by exists want]. intros (h & t & T & E)%bnd_ok. injection E as <- <-. destruct (target_agree _ _ _ _ _ _ _ _ _ Hs T) as (hp & Tp & Hh & Q & R).
  exists (with_hook want hp). rewrite (bnd_run _ _ _ _ _ (Tp s)). split_and!; [done..| |done|done]. rewrite (same_spec_hook want hp), (same_spec_hook want h).
  destruct Hh as [->|(H0 & H1 & H2)]; [done|]. rewrite H0, !bool_decide_eq_false_2 by done. done.
Qed.
Lemma ft_source v s : Quiet s -> Foretells (ensureVolumeSource P v) (ensureVolumeSource A v) s.
Proof.
  intros Hs. unfold ensureVolumeSource. align. cbv zeta. apply ft_env; [done|]. intros env t Ht.
  apply ft_refers; [by apply ref_cred|intros; ends; done|intros; ends; done|intros; ends; done|]. intros cred.
  apply ft_refers; [by apply ref_linked|intros; ends; done|intros; ends; done|intros; ends; done|]. intros stack.
  apply ft_refers; [by apply ref_named|intros; ends; done|intros; ends; done|intros; ends; done|]. intros named.
  apply ft_step; [solve [mute]|unfold owned_name; quiet|done|]. intros o t' Ht' _. destruct o as [why|]; [ft_leaf|].
  apply ft_lookup; [done|]. destruct (found _ _) as [ex|]; [|apply (ft_same Create); [ends; done|ends; by left]].
  set (want := applyVolumeSourceSpec ex v cred stack). apply ft_verdict; [ends; done|ends; done|]. intros s1 s2 E1 E2.
  apply bnd_ok in E2 as (wa & t2 & W & E2). destruct (source_want want ex named _ env _ _ _ _ Ht' W) as (wp & Wp & Hk & Hsame & Q2 & R2). rewrite (bnd_run _ _ _ _ _ Wp), Hsame, Hk in E1.
  apply bnd_ok in E2 as (changed & t3 & C & E2). unfold rest in R2. injection R2 as _ _ R2 _ _.
  assert ((if bool_decide (vs_kind wa = "inline") then let! cur := read (fun db => VolSourceFiles (p_src db) (vs_id ex)) in ret (negb (volFilesEqual cur (files_of v))) else ret false) t' = (Ok changed, t')) as C'.
  { destruct (bool_decide _); [|by injection C as <- _]. rewrite (bnd_run _ _ _ _ _ (read_quiet _ _ Q2)) in C. injection C as <- _. rewrite (bnd_run _ _ _ _ _ (read_quiet _ _ Ht')). by rewrite R2. }
  rewrite (bnd_run _ _ _ _ _ C') in E1. exists (if same_spec wa ex && negb changed then InSync else Update).
  destruct (_ && negb changed); eexists _, _, _, _; (split_and!; [| |exact E1|exact E2]); ends; done.
Qed.
Lemma ft_all r s : Quiet s -> Foretells (ensure P r) (ensure A r) s.
Proof.
  intros Hs. destruct r; cbn [ensure]; [by apply ft_key|by apply ft_reg|by apply ft_cred|by apply ft_net|by apply ft_ca|by apply ft_cert|by apply ft_ring|by apply ft_cdel|by apply ft_kdel|by apply ft_gen|
    by apply ft_webhook|by apply ft_stack|by apply ft_source].
Qed.
End Foretell.
