(* ===== verification/ProvisionHonest.v ===== *)
(** * What a report says was left alone was left alone

    A calculus over the monad of [Provision]: every ensure that returns either
    says create or update, or wrote nothing and started nothing, whichever calls
    failed before. *)
From S2P Require Import Prelude GoStd Manifest Keyrings Volumes Mirror Certs CertDeliveries VolSources Caps ProvStore Provision Reconcile ProvisionFacts ProvisionKeeps ProvisionPlans.
Local Open Scope string_scope.
Local Open Scope list_scope.
Local Open Scope daffa_scope.
Local Open Scope Z_scope.

Definition changing (v : Verdict) : bool := match v with Create | Update => true | _ => false end.
(** Every piece that returns says create or update, or did nothing. *)
Definition Honest (m : M unit) : Prop := forall s s', m s = (Ok tt, s') ->
  exists v, rn_res s' = rn_res s ++ [v] /\ (changing (rv_verdict v) = false -> deeds s' = deeds s).
Definition says_change (v : ResView) : Prop := changing (rv_verdict v) = true.
Lemma hn_change (P : ResView -> Prop) m : Ends P m -> (forall v, P v -> says_change v) -> Honest m.
Proof. intros H HP s s' E. destruct (H _ _ E) as (v & ? & _ & Hv). exists v. split; [done|]. unfold says_change in HP. by rewrite (HP v Hv). Qed.
Lemma hn_same (P : ResView -> Prop) m : Ends P m -> Same m -> Honest m.
Proof. intros H Hm s s' E. destruct (H _ _ E) as (v & ? & _ & Hv). exists v. split; [done|]. intros _. specialize (Hm s). by rewrite E in Hm. Qed.
Lemma hn_step {A} (m : M A) (k : A -> M unit) : Same m -> Mute m -> (forall a, Honest (k a)) -> Honest (bnd m k).
Proof.
  intros Hm Hu Hk s s' (a & t & E1 & E2)%bnd_ok. destruct (Hk a t s' E2) as (v & H1 & H2). specialize (Hm s). destruct (Hu s) as [Hr _]. rewrite E1 in Hm, Hr. cbn in Hm, Hr.
  exists v. rewrite <- Hr, <- Hm. auto.
Qed.
(** A piece that tells whether it wrote. *)
Definition Tells {A} (f : A -> bool) (m : M A) : Prop := forall s a s', m s = (Ok a, s') -> f a = false -> deeds s' = deeds s.
Lemma hn_tells {A} (f : A -> bool) (m : M A) (k : A -> M unit) :
  Tells f m -> Mute m -> (forall a, f a = true -> Ends says_change (k a)) -> (forall a, f a = false -> Honest (k a)) -> Honest (bnd m k).
Proof.
  intros Hm Hu Ht Hk s s' (a & t & E1 & E2)%bnd_ok. destruct (Hu s) as [Hr _]. rewrite E1 in Hr. cbn in Hr. destruct (f a) eqn:Ef.
  - destruct (Ht a Ef _ _ E2) as (v & H1 & _ & H2). exists v. rewrite <- Hr. split; [done|]. unfold says_change in H2. by rewrite H2.
  - destruct (Hk a Ef _ _ E2) as (v & H1 & H2). exists v. rewrite <- Hr, <- (Hm _ _ _ E1 Ef). auto.
Qed.
Lemma tells_if (c b : bool) (m : M unit) : Tells (fun _ => c && b) (if c && b then m else ret tt).
Proof. destruct (c && b); [done|]. intros s a s' E _. by injection E as _ <-. Qed.
Lemma hn_env k n c (K : string -> M unit) : (forall env, Honest (K env)) -> Honest (let! e := envFor k n c in match e with None => ret tt | Some env => K env end).
Proof.
  intros HK s s'. unfold envFor, bnd at 1. unfold bnd at 1. destruct (mute_resolve c s) as [H1 _]. pose proof (same_resolve c s) as H2. destruct (resolveCluster c s) as [[id|e] s1]; [|done]. cbn in H1, H2.
  case_bool_decide.
  - intros [= <-]. eexists. cbn. rewrite H1. split; [done|]. intros _. exact H2.
  - intros E. destruct (HK _ _ _ E) as (v & E1 & E2). exists v. rewrite <- H1, <- H2. auto.
Qed.
Lemma hn_env' (b : bool) o k n c (K : string -> M unit) : (forall env, Honest (K env)) ->
  Honest (let! e := (if b then ret (Some o) else envFor k n c) in match e with None => ret tt | Some env => K env end).
Proof. intros HK. destruct b; [|by apply hn_env]. intros s s' E. by apply (HK o). Qed.
#[export] Hint Resolve same_resolve same_envFor same_generated same_expand same_find_cert same_certs same_bundle same_traefik same_named same_cred same_linked same_owned same_env_one same_file_want same_file_one same_slots : same.
Ltac honest1 :=
  match goal with
  | |- Honest (bnd (envFor _ _ _) _) => apply hn_env; intros ?
  | |- Honest (bnd (if _ then ret (Some _) else envFor _ _ _) _) => apply hn_env'; intros ?
  | |- Honest (report _ _ _ _ _ _) => apply (hn_same anything); [apply ends_report; done|auto with same]
  | |- Honest (bnd _ _) => apply hn_step; [solve [same]|solve [mute]|intros ?]
  | |- Honest (match ?x with _ => _ end) => destruct x
  | |- Honest _ => solve [apply (hn_change says_change); [ends; done|done]]
  | |- Honest (fun s => _) => let s := fresh "s" in let s' := fresh "s" in let E := fresh "E" in let H := fresh "H" in
      intros s s' E; cbv beta in E; match type of E with ?g s = _ => match goal with |- exists v, _ /\ _ => assert (Honest g) as H; [clear E|exact (H _ _ E)] end end
  end.
Ltac honest := cbv zeta; repeat honest1.

Section Honest.
Context `{O : Draws} (q : Req).
Lemma hn_key k : Honest (ensureSSHKey q k). Proof. unfold ensureSSHKey. honest. Qed.
Lemma hn_reg k : Honest (ensureRegistry q k). Proof. unfold ensureRegistry. honest. Qed.
Lemma hn_cred k : Honest (ensureGitCredential q k). Proof. unfold ensureGitCredential. honest. Qed.
Lemma hn_net k : Honest (ensureNetwork q k). Proof. unfold ensureNetwork. honest. Qed.
Lemma hn_ca k : Honest (ensureCA q k). Proof. unfold ensureCA. honest. Qed.
Lemma hn_cert k : Honest (ensureCertificate q k). Proof. unfold ensureCertificate. honest. Qed.
Lemma hn_ring k : Honest (ensureKeyring q k). Proof. unfold ensureKeyring. honest. Qed.
Lemma hn_gen k : Honest (ensureGeneratedSecret q k). Proof. unfold ensureGeneratedSecret. honest. Qed.
Lemma hn_cdel k : Honest (ensureCertDelivery q k). Proof. unfold ensureCertDelivery. honest. Qed.
Lemma hn_kdel k : Honest (ensureKeyringDelivery q k). Proof. unfold ensureKeyringDelivery. honest. Qed.
Lemma hn_webhook k : Honest (ensureWebhook q k). Proof. unfold ensureWebhook. honest. Qed.

Lemma tells_same {A} (f : A -> bool) (m : M A) : Same m -> Tells f m.
Proof. intros H s a s' E _. specialize (H s). by rewrite E in H. Qed.
Lemma tells_bnd {A B} (f : B -> bool) (m : M A) (k : A -> M B) : Same m -> (forall a, Tells f (k a)) -> Tells f (bnd m k).
Proof. intros Hm Hk s b s' (a & t & E1 & E2)%bnd_ok Hf. specialize (Hm s). rewrite E1 in Hm. cbn in Hm. rewrite <- Hm. by eapply Hk. Qed.
Lemma tells_done (c b : bool) (m : M unit) : Tells Datatypes.id (let! _ := (if c && b then m else ret tt) in ret c).
Proof. intros s a s' (u & t & E1 & E2)%bnd_ok. injection E2 as <- <-. cbn. intros ->. cbn in E1. by injection E1 as _ <-. Qed.
Lemma tells_env i st : Tells Datatypes.id (ensureStackEnv q i st).
Proof.
  unfold ensureStackEnv. destruct (bool_decide _); [apply tells_same; same|]. apply tells_bnd; [same|]. intros stored. apply tells_bnd; [same|]. intros r. apply tells_done.
Qed.
Lemma tells_secrets i st : Tells Datatypes.id (ensureStackSecrets q i st).
Proof.
  unfold ensureStackSecrets. apply tells_bnd; [same|]. intros w. destruct (bool_decide _); [apply tells_same; same|]. apply tells_bnd; [same|]. intros stored. apply tells_bnd; [same|]. intros r. apply tells_done.
Qed.
Lemma made_hook_id n env p s h s' : createManifestWebhook q n env p s = (Ok h, s') -> h <> "".
Proof.
  unfold createManifestWebhook. intros (t & u1 & _ & E)%bnd_ok. apply bnd_ok in E as (pl & u2 & _ & E). apply bnd_ok in E as (sealed & u3 & _ & E). cbv zeta in E. apply bnd_ok in E as (x & u4 & _ & E).
  injection E as <- _. apply id_nonempty.
Qed.
Lemma tells_target named cur auto base env cl : Tells (fun h => negb (bool_decide (cur = h))) (targetWebhook q named cur auto base env cl).
Proof.
  unfold targetWebhook. destruct (negb _); [apply tells_same; same|]. destruct (_ || _) eqn:E; [apply tells_same; same|]. destruct (negb (q_apply q)); [apply tells_same; same|].
  apply orb_false_iff in E as [E _]. bd. intros s h s' (n & u1 & _ & E2)%bnd_ok H. apply bnd_ok in E2 as (i & u2 & E2 & E3). apply bnd_ok in E3 as (x & u3 & _ & E4). injection E4 as <- _.
  apply made_hook_id in E2. apply negb_false_iff in H. bd. congruence.
Qed.
Lemma hn_converge st cl env cred named (created : bool) ex : Honest (convergeStack q st cl env cred named created ex).
Proof.
  unfold convergeStack. cbv zeta. destruct created; [apply (hn_change says_change); [ends; done|done]|]. set (want := applyStackSource ex st cred).
  apply (hn_tells (fun _ => source_differs want ex)).
  { intros s u s' E Hf. rewrite Hf in E. by injection E as _ <-. }
  { mute. }
  { intros _ ->. cbn [orb]. ends. all: done. }
  intros _ ->. cbn [orb]. apply (hn_tells _ _ _ (tells_target _ _ _ _ _ _)); [apply mute_target| |]; intros hook ->; rewrite ?orb_true_r, ?orb_false_r; cbn [orb]; [ends; done|].
  apply (hn_tells (fun _ => negb (Bool.eqb (sx_auto want) (st_AutoDeploy st)) || negb (bool_decide (sx_watch want = strings.Join (st_WatchPaths st) (String LF ""))))).
  { intros s u s' E Hf. rewrite Hf in E. by injection E as _ <-. }
  { mute. }
  { intros _ ->. cbn [orb]. ends. all: done. }
  intros _ ->. cbn [orb].
  apply (hn_tells _ _ _ (tells_env _ _)); [apply mute_stack_env| |]; intros c3 Hc; unfold Datatypes.id in Hc; subst c3; cbn [orb]; [ends; done|].
  apply (hn_tells _ _ _ (tells_secrets _ _)); [apply mute_stack_secrets| |]; intros c4 Hc; unfold Datatypes.id in Hc; subst c4; [ends; done|].
  rewrite bool_decide_eq_false_2 by done. cbn [andb]. honest. apply (hn_same anything); [ends; done|same].
Qed.

Lemma tells_want want ex named name env cl :
  Tells (fun w => negb (same_spec w ex)) (if bool_decide (vs_kind want = "git") then let! h := targetWebhook q named (vs_webhook ex) (vs_auto want) name env cl in ret (with_hook want h) else ret want).
Proof.
  destruct (bool_decide _); [|apply tells_same; same]. intros s w s' (h & t & E1 & E2)%bnd_ok Hf. injection E2 as <- <-. eapply tells_target; [exact E1|]. cbn. apply negb_false_iff in Hf. apply negb_false_iff.
  rewrite same_spec_hook in Hf. apply andb_true_iff in Hf as [_ Hf]. bd. by apply bool_decide_eq_true_2.
Qed.
Lemma hn_source v : Honest (ensureVolumeSource q v).
Proof.
  unfold ensureVolumeSource. cbv zeta. apply hn_env. intros env. apply hn_step; [same|mute|]. intros [why|cred]; [honest|]. apply hn_step; [same|mute|]. intros [why|stack]; [honest|].
  apply hn_step; [same|mute|]. intros [why|named]; [honest|]. apply hn_step; [same|mute|]. intros [why|]; [honest|]. apply hn_step; [same|mute|]. intros [ex|]; [|honest].
  apply (hn_tells _ _ _ (tells_want _ _ _ _ _ _)); [mute| |]; intros w Hw; [|honest]. apply negb_true_iff in Hw. rewrite Hw. cbn [andb]. ends; done.
Qed.
Lemma hn_stack st : Honest (ensureStack q st).
Proof.
  unfold ensureStack. cbv zeta. apply hn_env. intros env. apply hn_step; [same|mute|]. intros [why|cred]; [honest|]. apply hn_step; [same|mute|]. intros [why|named]; [honest|].
  apply hn_step; [same|mute|]. intros [ex|].
  - destruct (negb _); [honest|]. destruct (_ && _); [honest|]. apply hn_converge.
  - destruct (placement q env st); [honest|]. destruct (negb _) eqn:Ha; [|apply (hn_change says_change); [unfold convergeStack; ends; done|done]].
    apply (hn_same anything); [ends; done|]. same.
Qed.
Lemma hn_ensure r : Honest (ensure q r).
Proof.
  destruct r; cbn [ensure]; [apply hn_key|apply hn_reg|apply hn_cred|apply hn_net|apply hn_ca|apply hn_cert|apply hn_ring|apply hn_cdel|apply hn_kdel|apply hn_gen|apply hn_webhook|apply hn_stack|apply hn_source].
Qed.
End Honest.
