(* ===== verification/ProvisionCases.v ===== *)
(** * What a run of a provisioning document promises

    Who may run a document, what a run changes, what its report says and how far
    a plan foretells the apply, from the calculus of [ProvisionFacts],
    [ProvisionKeeps] and [ProvisionPlans]. *)
From S2P Require Import Prelude GoStd Paths Timestamps Manifest Keyrings Passwords Volumes Mirror Certs CertDeliveries VolSources Caps ProvStore Provision Reconcile ProvisionFacts ProvisionKeeps ProvisionPlans ProvisionHonest.
Local Open Scope string_scope.
Local Open Scope list_scope.
Local Open Scope daffa_scope.
Local Open Scope Z_scope.

(** ** Authorization *)

(** Where a capability is asked for: the cluster's id, "" for the fleet and for a
    cluster that is not there. *)
Definition asked_at (db : PDB) (n : Need) : string :=
  if bool_decide (nd_cluster n = "") then "" else match EnvironmentByName db (nd_cluster n) with Ok e => en_id e | Err _ => "" end.
Definition allowed (db : PDB) (u : Actor) (n : Need) : bool := ScopedHas (ac_caps u) (nd_cap n) (asked_at db n).
Definition refusal_of (n : Need) : Denial := if bool_decide (nd_cluster n = "") then DeniedFleet (nd_cap n) else DeniedOn (nd_cap n) (nd_cluster n).
(** What is remembered of the clusters is what the tables say. *)
Definition recalls (s : Run) : Prop := forall c id, rn_envs s !! c = Some id -> id = match EnvironmentByName (rn_db s) c with Ok e => en_id e | Err _ => "" end.

Section Runs.
Context `{O : Draws} (parse : string -> res ParseErr Manifest.Manifest) (sha256_hex : string -> string).

Lemma resolve_recalls name s : Quiet s -> recalls s -> exists s', resolveCluster name s = (Ok (match EnvironmentByName (rn_db s) name with Ok e => en_id e | Err _ => "" end), s') /\
  Quiet s' /\ recalls s' /\ rn_db s' = rn_db s.
Proof.
  intros Hs Hm. unfold resolveCluster. destruct (rn_envs s !! name) as [id|] eqn:E; [apply Hm in E as ->; by exists s|].
  rewrite (bnd_run _ _ _ _ _ (lookup_quiet _ s Hs)). unfold found.
  exists (with_env s name match EnvironmentByName (rn_db s) name with Ok e => en_id e | Err _ => "" end). split; [by destruct (EnvironmentByName _ _)|]. split_and!; [done| |done].
  intros c id. cbn. destruct (decide (c = name)) as [->|Hc]; [rewrite lookup_insert_eq; by intros [= <-]|]. rewrite lookup_insert_ne by done. apply Hm.
Qed.
Lemma check_needs_spec q l s : Quiet s -> recalls s ->
  (check_needs q l s).1 = Ok (option_map refusal_of (List.find (fun n => negb (allowed (rn_db s) (q_user q) n)) l)) /\ Quiet (check_needs q l s).2 /\ rn_db (check_needs q l s).2 = rn_db s.
Proof.
  revert s. induction l as [|n l IH]; intros s Hs Hm; [done|]. cbn [check_needs List.find]. unfold allowed, asked_at, refusal_of, holds in *. case_bool_decide as E.
  - destruct (ScopedHas _ _ _); [by apply IH|]. cbn. rewrite bool_decide_eq_true_2 by done. done.
  - destruct (resolve_recalls (nd_cluster n) s Hs Hm) as (s' & -> & Hs' & Hm' & Hd). set (id := match EnvironmentByName _ _ with Ok e => en_id e | Err _ => "" end).
    assert ((if bool_decide (id = "") then "" else id) = id) as -> by (by case_bool_decide).
    destruct (ScopedHas _ _ _); [|cbn; rewrite bool_decide_eq_false_2 by done; done]. rewrite <- Hd. by apply IH.
Qed.
Lemma resources_needs m r : r ∈ resources m -> r ∈ flat_map (of_kind m) preflight_order \/ exists g, r = RGeneratedSecret g /\ g ∈ m_GeneratedSecrets m.
Proof.
  intros Hr. unfold resources in Hr. apply flat_map_elem in Hr as (k & _ & Hk). destruct (decide (k = KindGeneratedSecret)) as [->|Hn].
  - right. cbn [of_kind] in Hk. apply list_elem_of_fmap in Hk as (g & -> & Hg). eauto.
  - left. apply flat_map_elem. exists k. split; [|done]. destruct k; try done; unfold preflight_order; set_solver.
Qed.
(** A secret that is generated is read by some stack of the document. *)
Lemma generated_has_reader m g : Validate ParseIP url_parse m = [] -> g ∈ m_GeneratedSecrets m -> exists st, st ∈ m_Stacks m /\ gs_Name g ∈ stack_refs st.
Proof.
  intros [_ _ H]%Validate_iff Hg. assert (gs_Name g ∈ all_refs m) as Hr by (apply H; by apply list_elem_of_fmap_2). apply flat_map_elem in Hr as (st & ? & ?). eauto.
Qed.
Lemma in_needs q st : st ∈ m_Stacks (q_m q) -> need KindStack (cluster q (st_Cluster st)) ∈ needs q.
Proof.
  intros H. apply flat_map_elem. exists (RStack st). split; [|by left]. apply flat_map_elem. exists KindStack. split; [unfold preflight_order; set_solver|]. by apply list_elem_of_fmap_2.
Qed.
Lemma start_recalls db f t : recalls (start db f t). Proof. intros c id H. cbn in H. by rewrite lookup_empty in H. Qed.
Lemma find_none {A} (f : A -> bool) l x : List.find f l = None -> x ∈ l -> f x = false.
Proof. intros H Hx. eapply List.find_none; [exact H|]. by apply list_elem_of_In. Qed.

(** C14: When no call fails, a valid document is refused exactly when the caller
    lacks, for some resource, the capability its kind asks for - fleet-wide, or on
    the cluster the resource names; the refusal_of carries the first such capability
    and the cluster's name as the document writes it, whether that cluster exists
    or not, nothing of the document is done and one line of the audit log says so.
    Otherwise every resource is covered, a generated secret by the right to edit
    stacks on the cluster of some stack that reads it. *)
Theorem authorized_exactly req u apply pool t w m : parse (mq_document req) = Ok m -> Validate ParseIP url_parse m = [] ->
  let q := mkReq m (mq_values req) u apply pool in
  let '(reply, w', bg) := runManifest parse sha256_hex req (Some u) apply pool [] t w in
  match List.find (fun n => negb (allowed (mw_db w) u n)) (needs q) with
  | Some n => reply = Forbidden (refusal_of n) /\ bg = [] /\ mw_applies w' = mw_applies w /\
      exists a, mw_db w' = Audit (fun _ => None) (mw_db w) a /\ au_user a = ac_id u /\ au_outcome a = "denied"
  | None => (forall d, reply <> Forbidden d) /\
      (forall r n, r ∈ resources m -> n ∈ needs_of q r -> allowed (mw_db w) u n = true) /\
      (forall g, g ∈ m_GeneratedSecrets m -> exists st, st ∈ m_Stacks m /\ gs_Name g ∈ stack_refs st /\ allowed (mw_db w) u (need KindStack (cluster q (st_Cluster st))) = true)
  end.
Proof.
  intros Hp Hv q. unfold runManifest. rewrite Hp, Hv. fold q. destruct (check_needs_spec q (needs q) (start (mw_db w) [] t)) as (H1 & H2 & H3); [done|apply start_recalls|].
  unfold preflight. destruct (check_needs q (needs q) (start (mw_db w) [] t)) as [denied s]. cbn [fst snd] in *. subst denied. cbn [rn_db start q_user q] in *.
  destruct (List.find _ _) as [n|] eqn:E; cbn [option_map].
  - split_and!; [done..|]. unfold audit, bnd. cbn [tick]. unfold fate, Quiet in *. cbn [ticked rn_faults]. rewrite H2. cbn. eexists. rewrite H3. split_and!; try reflexivity.
  - destruct (walk q s) as [r s']. destruct (record_apply _ _ _) as [l s'']. split_and!; [by destruct r| |].
    + intros x n Hx Hn. apply negb_false_iff. refine (find_none _ _ n E _). apply flat_map_elem. apply resources_needs in Hx as [Hx|(g & -> & _)]; [by exists x|]. by apply elem_of_nil in Hn.
    + intros g Hg. destruct (generated_has_reader m g Hv Hg) as (st & Hst & Href). exists st. split_and!; [done..|]. apply negb_false_iff. refine (find_none _ _ _ E _). by apply in_needs.
Qed.

(** ** What a run changes *)

Lemma keeps_needs tv tf ti q l s : keeps tv tf ti (rn_db s) (rn_db (check_needs q l s).2).
Proof. rewrite same_db by apply same_needs. apply tables_refl. Qed.
Lemma validated_sources m : Validate ParseIP url_parse m = [] -> Forall one_source (m_Stacks m).
Proof.
  intros [H _ _]%Validate_iff. refine (Forall_impl _ _ _ (ok_stacks _ _ _ H) _). intros st (_ & _ & _ & Hs & _). unfold stack_source_ok, one_source in *. intros E Hc. rewrite E, Hc in Hs. done.
Qed.
Lemma record_db l row s : rn_db (record_apply l row s).2 = rn_db s /\ rn_bg (record_apply l row s).2 = rn_bg s /\ exists new, (record_apply l row s).1 = l ++ new /\ (new = [] \/ new = [row]).
Proof.
  unfold record_apply, fate. destruct (rn_faults s) as [|[] f]; cbn; (split; [done|]; split; [done|]); unfold CreateManifestApply; try destruct (existsb _ _); first [by exists []; rewrite app_nil_r; auto|exists [row]; auto].
Qed.
Lemma audit_db q env a t o s : (audit q env a t o s).1 = Ok tt /\ rn_bg (audit q env a t o s).2 = rn_bg s /\
  exists l, rn_db (audit q env a t o s).2 = set_audit (rn_db s) (p_audit (rn_db s) ++ l) /\ (length l <= 1)%nat.
Proof.
  unfold audit, bnd, tick, fate. cbn. destruct (rn_faults s) as [|[] f]; cbn; (split; [done|]; split; [done|]); first [by exists []; rewrite app_nil_r; destruct (rn_db s); auto|eexists [_]; by split].
Qed.
Lemma keeps_audited tv tf ti db l : keeps tv tf ti db (set_audit db (p_audit db ++ l)).
Proof. apply keeps_audit. exists (p_audit db), l. split; [done|]. by apply all_refl. Qed.


(** ** What a report says *)

Definition same_verdict (a b : Verdict) : bool :=
  match a, b with InSync, InSync | Create, Create | Update, Update | Unfilled, Unfilled | Blocked, Blocked | Drifted, Drifted => true | _, _ => false end.
Definition tally (l : list Verdict) : Summary :=
  let n v := length (List.filter (same_verdict v) l) in mkSummary (n Create) (n Update) (n InSync) (n Drifted) (n Blocked) (n Unfilled).
Lemma tally_snoc l v : tally (l ++ [v]) = counted v (tally l).
Proof. unfold tally. rewrite !List.filter_app, !length_app. destruct v; cbn; f_equal; lia. Qed.
Lemma changing_tally l : sm_create (tally l) = 0%nat -> sm_update (tally l) = 0%nat -> Forall (fun v => changing v = false) l.
Proof.
  unfold tally. cbn. induction l as [|v l IH]; [constructor|]. cbn. intros H1 H2. constructor; [destruct v; cbn in *; try done|]. apply IH; [destruct v|destruct v]; cbn in *; try done.
Qed.
(** Nothing is ever reported as unfilled: a stack with slots to fill is reported
    by what became of its row. *)
Definition not_unfilled (v : ResView) : Prop := rv_verdict v <> Unfilled.
Lemma never_unfilled q r : Ends not_unfilled (ensure q r).
Proof.
  destruct r; cbn [ensure]; unfold ensureSSHKey, ensureRegistry, ensureGitCredential, ensureNetwork, ensureCA, ensureCertificate, ensureKeyring, ensureCertDelivery, ensureKeyringDelivery,
    ensureGeneratedSecret, ensureWebhook, ensureStack, convergeStack, ensureVolumeSource; ends; unfold not_unfilled; cbn [rv_verdict]; repeat case_match; done.
Qed.
(** A walk, view by view. *)
Lemma walk_views q l s s' : eachM (ensure q) l s = (Ok tt, s') -> rn_summary s = tally (map rv_verdict (rn_res s)) ->
  exists vs, rn_res s' = rn_res s ++ vs /\ Forall2 named_as l vs /\ rn_summary s' = tally (map rv_verdict (rn_res s')) /\ Forall not_unfilled vs /\
    (Forall (fun v => changing (rv_verdict v) = false) vs -> deeds s' = deeds s).
Proof.
  revert s. induction l as [|r l IH]; intros s; cbn [eachM]; [intros [= <-] H; exists []; rewrite app_nil_r; split_and!; [done|constructor|done|constructor|done]|].
  intros ([] & t & E1 & E2)%bnd_ok H. destruct (ends_ensure q r _ _ E1) as (v & R1 & S1 & N1), (hn_ensure q r _ _ E1) as (v' & R1' & D1), (never_unfilled q r _ _ E1) as (v2 & R1'' & _ & U1).
  rewrite R1 in R1', R1''. apply app_inj_tail in R1' as [_ <-], R1'' as [_ <-].
  destruct (IH t E2) as (vs & R2 & N2 & S2 & U2 & D2); [by rewrite S1, H, R1, map_app, <- tally_snoc|]. exists (v :: vs). rewrite R2, R1, <- app_assoc. split_and!; [done|by constructor| |by constructor|].
  - by rewrite S2, R2, R1, <- app_assoc.
  - intros [Hv Hvs]%Forall_cons. rewrite D2 by done. auto.
Qed.
Lemma mute_needs q l : Mute (check_needs q l).
Proof.
  induction l as [|n l IH]; cbn [check_needs]; [apply mute_ret|]. case_bool_decide; [destruct (holds _ _ _); [done|apply mute_ret]|].
  intros s. destruct (mute_resolve (nd_cluster n) s) as [H1 H2]. destruct (resolveCluster (nd_cluster n) s) as [[id|e] s']; [|done]. cbn in H1, H2.
  destruct (holds _ _ _); [|done]. rewrite <- H1, <- H2. apply IH.
Qed.

(** A run that reports, for [report_honest] and for the command line. *)
Lemma reported req user apply pool faults t w rep w' bg : runManifest parse sha256_hex req user apply pool faults t w = (Reported rep, w', bg) ->
  exists m, parse (mq_document req) = Ok m /\ Forall2 named_as (resources m) (rp_res rep) /\ rp_summary rep = tally (map rv_verdict (rp_res rep)) /\
    Forall not_unfilled (rp_res rep) /\
    (sm_create (rp_summary rep) = 0%nat -> sm_update (rp_summary rep) = 0%nat -> bg = [] /\
       (exists new, mw_applies w' = mw_applies w ++ new /\ (length new <= 1)%nat /\ Forall (fun a => ma_report a = rep /\ ma_dry a = negb apply) new) /\
       exists l, mw_db w' = set_audit (mw_db w) (p_audit (mw_db w) ++ l) /\ (length l <= 1)%nat).
Proof.
  unfold runManifest. destruct (parse _) as [m|e]; [|done]. destruct (Validate ParseIP url_parse m) as [|p l]; [|done]. destruct user as [u|]; [|done]. set (q := mkReq m (mq_values req) u apply pool).
  pose proof (same_needs q (needs q) (start (mw_db w) faults t)) as H0. pose proof (mute_needs q (needs q) (start (mw_db w) faults t)) as [H1 H2].
  unfold preflight. destruct (check_needs q (needs q) (start (mw_db w) faults t)) as [denied s]. cbn in H0, H1, H2.
  set (row := fun s' => mkApply ("man_" +:+ NewID (rn_tick s')) (m_Name m) (Hash sha256_hex (mq_document req)) (mq_document req) (report_of sha256_hex (m_Name m) (mq_document req) s') (ac_id u) (clock (rn_tick s')) (negb apply)).
  assert (forall r s', walk q s = (r, s') -> match r with Ok _ => Reported (report_of sha256_hex (m_Name m) (mq_document req) s') | Err e => Failed e end = Reported rep ->
    Forall2 named_as (resources m) (rp_res rep) /\ rp_summary rep = tally (map rv_verdict (rp_res rep)) /\ Forall not_unfilled (rp_res rep) /\
    (sm_create (rp_summary rep) = 0%nat -> sm_update (rp_summary rep) = 0%nat -> rn_bg s' = [] /\ rn_db s' = mw_db w)) as Hw.
  { intros r s' Ew. destruct r as [[]|]; [|done]. intros [= <-]. rewrite walk_resources in Ew. destruct (walk_views _ _ _ _ Ew) as (vs & V1 & V2 & V3 & V4 & V5); [by rewrite H2, H1|].
    rewrite H1 in V1. cbn in V1. cbn [report_of rp_res rp_summary]. rewrite V1 in V3 |- *. split_and!; [done..|]. intros C1 C2. rewrite V3 in C1, C2. pose proof (changing_tally _ C1 C2) as Hc.
    rewrite Forall_map in Hc. specialize (V5 Hc). rewrite H0 in V5. by injection V5 as -> ->. }
  destruct denied as [[d|]|e]; [done| |]; destruct (walk q s) as [r s'] eqn:Ew; fold (row s'); pose proof (record_db (mw_applies w) (row s') (ticked s')) as (R1 & R2 & new & R3 & R4);
    destruct (record_apply _ _ _) as [l s'']; cbn [fst snd] in *; intros [= Hr <- <-]; destruct (Hw r s' eq_refl Hr) as (V1 & V2 & V3 & V4); exists m; (split_and!; [done..|]);
    intros C1 C2; destruct (V4 C1 C2) as [V5 V6]; cbn [mw_db mw_applies];
    assert (exists new, l = mw_applies w ++ new /\ (length new <= 1)%nat /\ Forall (fun a => ma_report a = rep /\ ma_dry a = negb apply) new) as HN
      by (exists new; split; [done|]; destruct r; [|done]; injection Hr as Hr; destruct R4 as [->| ->]; (split; [cbn; lia|]); repeat constructor; exact Hr);
    (destruct apply; [destruct (audit_db q "" "manifest.apply" (m_Name m) (outcomeOf r) s'') as (_ & Bg & l' & E & Hl); rewrite E, Bg, R1, R2; cbn; rewrite V5, V6; split; [done|]; split; [done|]; eauto|
      rewrite R1, R2; cbn; rewrite V5, V6; split; [done|]; split; [done|]; exists []; rewrite app_nil_r; destruct (mw_db w); split; [done|]; cbn; lia]).
Qed.

(** C15: A run that reports tells of every resource of its document exactly once, in
    the order in which they are worked through, and its summary is the count of the
    verdicts. When it counts nothing created and nothing updated, the run started no
    synchronisation and wrote nothing but its row of the history of runs and one line
    of the audit log, even where calls failed. *)
Theorem report_honest req user apply pool faults t w rep w' bg : runManifest parse sha256_hex req user apply pool faults t w = (Reported rep, w', bg) ->
  exists m, parse (mq_document req) = Ok m /\ Forall2 named_as (resources m) (rp_res rep) /\ rp_summary rep = tally (map rv_verdict (rp_res rep)) /\
    (sm_create (rp_summary rep) = 0%nat -> sm_update (rp_summary rep) = 0%nat -> bg = [] /\
       (exists new, mw_applies w' = mw_applies w ++ new /\ (length new <= 1)%nat /\ Forall (fun a => ma_report a = rep /\ ma_dry a = negb apply) new) /\
       exists l, mw_db w' = set_audit (mw_db w) (p_audit (mw_db w) ++ l) /\ (length l <= 1)%nat).
Proof. intros (m & H1 & H2 & H3 & _ & H5)%reported. by exists m. Qed.

(** C17: A plan changes nothing: no table but the history and, when the caller is
    refused, one line of the audit log, and it starts no synchronisation -
    whatever the document says and whichever calls fail. *)
Theorem plan_touches_nothing req user pool faults t w :
  let '(reply, w', bg) := handleManifestPlan parse sha256_hex req user pool faults t w in
  bg = [] /\ (exists new, mw_applies w' = mw_applies w ++ new /\ (length new <= 1)%nat /\ Forall (fun a => ma_dry a = true) new) /\
  match reply with
  | Forbidden _ => exists l, mw_db w' = set_audit (mw_db w) (p_audit (mw_db w) ++ l) /\ (length l <= 1)%nat
  | _ => mw_db w' = mw_db w
  end.
Proof.
  assert (forall db : list (ApplyRow Report), exists new, db = db ++ new /\ (length new <= 1)%nat /\ Forall (fun a => ma_dry a = true) new) as Hnil by (intros db; exists []; rewrite app_nil_r; split_and!; [done|cbn; lia|constructor]).
  unfold handleManifestPlan, runManifest. destruct (parse _) as [m|e]; [|by split_and!]. destruct (Validate ParseIP url_parse m) as [|p l]; [|by split_and!]. destruct user as [u|]; [|by split_and!].
  set (q := mkReq m (mq_values req) u false pool).
  pose proof (same_needs q (needs q) (start (mw_db w) faults t)) as H0. unfold preflight. destruct (check_needs q (needs q) (start (mw_db w) faults t)) as [denied s]. cbn in H0.
  assert (deeds (walk q s).2 = deeds s) as Hw by (rewrite walk_resources; apply same_each; intros r; by apply same_ensure). injection H0 as H0 H0'. unfold deeds in Hw. injection Hw as Hw Hw'.
  destruct denied as [[d|]|e].
  1: { destruct (audit_db q "" ("POST /api/manifest/" +:+ "plan") "" "denied" s) as (_ & _ & l & E & Hl). rewrite E, H0. cbn [mw_db mw_applies fst snd]. split_and!; [done|apply Hnil|]. eauto. }
  all: destruct (walk q s) as [r s']; cbn [fst snd] in Hw, Hw'; match goal with |- context [record_apply ?a ?b ?c] => destruct (record_db a b c) as (R1 & R2 & new & R3 & R4); destruct (record_apply a b c) as [l s''] end;
    cbn in R1, R2, R3; cbn [fst snd mw_db mw_applies]; rewrite R1, R2, Hw, Hw', H0, H0'; (split_and!; [done| |by destruct r]);
    exists new; rewrite R3; (split; [done|]); destruct R4 as [->| ->]; (split; [cbn; lia|]); by repeat constructor.
Qed.

(** C16: Planned or applied against the same tables with no call failing, a resource
    gets the same verdict, or the apply finds a reason to block it. *)
Theorem plan_foretells_apply q r s s1 s2 : Quiet s -> ensure (planned q) r s = (Ok tt, s1) -> ensure (applied q) r s = (Ok tt, s2) ->
  exists v1 v2, rn_res s1 = rn_res s ++ [v1] /\ rn_res s2 = rn_res s ++ [v2] /\ named_as r v1 /\ named_as r v2 /\ (rv_verdict v2 = rv_verdict v1 \/ rv_verdict v2 = Blocked).
Proof.
  intros Hs E1 E2. destruct (ft_all q r s Hs _ _ E1 E2) as (v1 & v2 & R1 & R2 & Hv), (ends_ensure _ _ _ _ E1) as (w1 & S1 & _ & N1), (ends_ensure _ _ _ _ E2) as (w2 & S2 & _ & N2).
  rewrite R1 in S1. rewrite R2 in S2. apply app_inj_tail in S1 as [_ <-], S2 as [_ <-]. exists v1, v2. done.
Qed.
End Runs.
