(* ===== verification/ProvisionDemo.v ===== *)
(** * Runs of concrete documents

    An instance of what a run draws on, a fleet of two clusters and a small
    document: applied, applied again, planned; what a failing lookup does to the
    authorization; where a plan promises what the apply then refuses. *)
From S2P Require Import Prelude GoStd Paths Timestamps Sans Manifest ManifestCases Keyrings Passwords Volumes Mirror Certs CertDeliveries VolSources Caps ProvStore Provision Reconcile ProvisionFacts ProvisionKeeps ProvisionPlans ProvisionHonest ProvisionCases.
From stdpp Require Import pretty.
Local Open Scope string_scope.
Local Open Scope list_scope.
Local Open Scope daffa_scope.
Local Open Scope Z_scope.

Module ManifestDemo.
#[local] Instance crypto : Crypto := {|
  Seal := fun s => Some ("sealed " +:+ s); Open := fun s => if strings.HasPrefix s "sealed " then Some (strings.TrimPrefix s "sealed ") else None;
  ValidateCAUpload := fun _ _ => true; ValidateLeafUpload := fun _ _ _ => true;
  MakeCA := fun _ cn _ _ _ => Some ("root " +:+ cn, "key " +:+ cn);
  Issue := fun _ ca _ _ _ _ _ => Some ("leaf by " +:+ ca, "leaf key");
  Renew := fun _ ca _ _ _ _ _ => Some ("leaf by " +:+ ca); Reissue := fun _ ca _ _ _ _ _ => Some ("leaf by " +:+ ca);
  Verify := fun leaf ca => bool_decide (leaf = "leaf by " +:+ ca); NotAfter := fun _ => 0; ValidDays := fun _ => 0; Describe := fun _ => ""; CommonName := fun ca => ca; Organization := fun _ => "";
  SANList := fun _ => []; UsagesOf := fun _ => "server"; Bundle := fun l => Some (strings.Join l "|") |}.
(** A comma in a name is escaped where a subject is printed. *)
Fixpoint escaped (s : string) : string := match s with "" => "" | String c r => (if bool_decide (c = ","%char) then "\," else String c "") +:+ escaped r end.
#[local] Instance outside : Draws := {|
  o_crypto := crypto; ParseIP := demoParseIP; url_parse := demoURL; ToLower := strings.ToLowerASCII; EqualFold := fun a b => bool_decide (a = b);
  NewID := fun t => "id" +:+ pretty t; clock := fun t => Z.of_nat t; keypair := fun t a c => Some ("public " +:+ c, "print", "private " +:+ c);
  rand_bytes := fun t n => Some (String.string_of_list_ascii (List.repeat "x"%char n)); rand_below62 := fun t i => Some (i mod 62)%nat;
  SubjectOf := fun pem => "CN=" +:+ escaped (strings.TrimPrefix pem "root ") |}.
Definition admin : Actor := mkActor "u1" "admin" (mkScoped Everything ∅).
Definition nobody : Actor := mkActor "u2" "nobody" (mkScoped ∅ ∅).
Definition db0 : PDB := mkPDB [mkEnv "e1" "prod"; mkEnv "e2" "edge"] [mkNode "n1" "e1" "local"] [] [] [] [] [] [] ∅ ∅ [] (mkCDB [] [] [] []) (mkKDB [] [] []) (mkSDB [] ∅) [].
Definition pool (env : string) : option PoolEnv := if bool_decide (env = "e1") then Some (mkPoolEnv true [mkPoolNode "n1" true true]) else None.
(** The document is its own text. *)
Definition parse_as (m : Manifest.Manifest) (doc : string) : res ParseErr Manifest.Manifest := if bool_decide (doc = "doc") then Ok m else Err EmptyDocument.
Definition on_prod (v : Manifest.VolumeSource) : Manifest.VolumeSource :=
  {| vs_Cluster := ""; vs_Volume := vs_Volume v; vs_Source := vs_Source v; vs_Stack := vs_Stack v; vs_RestartTargets := vs_RestartTargets v; vs_UID := vs_UID v; vs_GID := vs_GID v;
     vs_AutoSync := vs_AutoSync v; vs_Webhook := vs_Webhook v |}.
Definition with_volumes (m : Manifest.Manifest) (l : list Manifest.VolumeSource) : Manifest.Manifest :=
  {| m_Version := m_Version m; m_Name := m_Name m; m_Cluster := m_Cluster m; m_SSHKeys := m_SSHKeys m; m_Registries := m_Registries m; m_GitCredentials := m_GitCredentials m;
     m_Networks := m_Networks m; m_CAs := m_CAs m; m_Certificates := m_Certificates m; m_Keyrings := m_Keyrings m; m_CertDeliveries := m_CertDeliveries m;
     m_KeyringDeliveries := m_KeyringDeliveries m; m_GeneratedSecrets := m_GeneratedSecrets m; m_Webhooks := m_Webhooks m; m_Stacks := m_Stacks m; m_VolumeSources := l |}.
Definition shop : Manifest.Manifest := with_volumes demoManifest [on_prod demoVolume].
Definition req : ManifestRequest := mkMR "doc" ∅.
Definition run (m : Manifest.Manifest) (u : Actor) (apply : bool) (faults : list bool) (t : nat) (w : MWorld) := runManifest (parse_as m) (fun d => d) req (Some u) apply pool faults t w.
Definition world0 : MWorld := mkMW db0 [].
Definition verdicts (r : ManifestReply) : list (Kind * Verdict) := match r with Reported rep => map (fun v => (rv_kind v, rv_verdict v)) (rp_res rep) | _ => [] end.
Definition first_run := run shop admin true [] 0 world0.
Definition world1 : MWorld := first_run.1.2.
Definition second_run := run shop admin true [] 100 world1.

Example applied_then_settled :
  verdicts (run shop admin false [] 0 world0).1.1 = [(KindCA, Create); (KindCertificate, Create); (KindGeneratedSecret, Create); (KindWebhook, Create); (KindStack, Create); (KindVolumeSource, Create)] /\
  verdicts first_run.1.1 = [(KindCA, Create); (KindCertificate, Create); (KindGeneratedSecret, Create); (KindWebhook, Create); (KindStack, Create); (KindVolumeSource, Create)] /\
  verdicts second_run.1.1 = [(KindCA, InSync); (KindCertificate, InSync); (KindGeneratedSecret, InSync); (KindWebhook, InSync); (KindStack, InSync); (KindVolumeSource, InSync)] /\
  length (first_run.2) = 1%nat /\ second_run.2 = [] /\ map ma_dry (mw_applies second_run.1.2) = [false; false].
Proof. vm_compute. repeat split. Qed.

(** ** Where a plan says create and the apply is blocked *)

(** The volume source's stack is declared for another cluster. *)
Example plan_promises_more :
  verdicts (run demoManifest admin false [] 0 world0).1.1 = [(KindCA, Create); (KindCertificate, Create); (KindGeneratedSecret, Create); (KindWebhook, Create); (KindStack, Create); (KindVolumeSource, Create)] /\
  verdicts (run demoManifest admin true [] 0 world0).1.1 = [(KindCA, Create); (KindCertificate, Create); (KindGeneratedSecret, Create); (KindWebhook, Create); (KindStack, Create); (KindVolumeSource, Blocked)].
Proof. vm_compute. repeat split. Qed.

(** ** Documents that do not settle *)

Definition only_ca (cn : string) : Manifest.Manifest :=
  {| m_Version := 1; m_Name := "ca"; m_Cluster := ""; m_SSHKeys := []; m_Registries := []; m_GitCredentials := []; m_Networks := [];
     m_CAs := [{| ca_Name := "mesh"; ca_CommonName := cn; ca_Org := ""; ca_KeyAlgo := ""; ca_Days := 0; ca_OutboundTrust := None |}];
     m_Certificates := []; m_Keyrings := []; m_CertDeliveries := []; m_KeyringDeliveries := []; m_GeneratedSecrets := []; m_Webhooks := []; m_Stacks := []; m_VolumeSources := [] |}.
Example comma_never_settles : let w := (run (only_ca "Mesh, Inc") admin true [] 0 world0).1.2 in
  verdicts (run (only_ca "Mesh, Inc") admin true [] 100 w).1.1 = [(KindCA, Drifted)] /\
  verdicts (run (only_ca "Mes") admin true [] 100 (run (only_ca "Mesh") admin true [] 0 world0).1.2).1.1 = [(KindCA, InSync)].
Proof. vm_compute. repeat split. Qed.

(** ** A failing lookup authorizes *)

Definition only_network : Manifest.Manifest :=
  {| m_Version := 1; m_Name := "net"; m_Cluster := "prod"; m_SSHKeys := []; m_Registries := []; m_GitCredentials := [];
     m_Networks := [{| nw_Name := "front"; nw_Cluster := ""; nw_Driver := ""; nw_Attachable := true |}];
     m_CAs := []; m_Certificates := []; m_Keyrings := []; m_CertDeliveries := []; m_KeyringDeliveries := []; m_GeneratedSecrets := []; m_Webhooks := []; m_Stacks := []; m_VolumeSources := [] |}.
(** Someone who holds nothing at all, refused while the store answers, creates a
    network when the one lookup of the preflight fails. *)
Theorem preflight_fails_open :
  (run only_network nobody true [] 0 world0).1.1 = Forbidden (DeniedOn NetworksEdit "prod") /\
  verdicts (run only_network nobody true [true] 0 world0).1.1 = [(KindNetwork, Create)] /\
  map nr_name (p_nets (mw_db (run only_network nobody true [true] 0 world0).1.2)) = ["front"].
Proof. vm_compute. repeat split. Qed.

Lemma db0_pk : pk db0.
Proof. constructor; cbn; try constructor. intros v Hv. by apply elem_of_nil in Hv. Qed.
Definition report_in (r : ManifestReply) : Report := match r with Reported rep => rep | _ => mkReport "" "" [] [] no_summary end.
Lemma second_reported : second_run = (Reported (report_in second_run.1.1), second_run.1.2, second_run.2).
Proof. vm_compute. reflexivity. Qed.
Definition mesh : Resource := RCA {| ca_Name := "mesh"; ca_CommonName := "Mesh"; ca_Org := ""; ca_KeyAlgo := ""; ca_Days := 0; ca_OutboundTrust := None |}.
Definition mesh_req : Req := mkReq (only_ca "Mesh") ∅ admin true pool.
Definition mesh_after (apply : bool) : Run := ((if apply then ensure (applied mesh_req) mesh else ensure (planned mesh_req) mesh) (start db0 [] 0)).2.
End ManifestDemo.

Lemma authorized_exactly_witness : exists n, n ∈ needs (mkReq ManifestDemo.shop ∅ ManifestDemo.nobody true ManifestDemo.pool) /\ (ManifestDemo.run ManifestDemo.shop ManifestDemo.nobody true [] 0 ManifestDemo.world0).1.1 = Forbidden (refusal_of n).
Proof.
  pose proof (@authorized_exactly ManifestDemo.outside (ManifestDemo.parse_as ManifestDemo.shop) (fun d => d) ManifestDemo.req ManifestDemo.nobody true ManifestDemo.pool 0 ManifestDemo.world0 ManifestDemo.shop
    ltac:(by vm_compute) ltac:(by vm_compute)) as H. cbv zeta in H. exists (mkNeed CertsEdit "").
  split; [apply list_elem_of_In; vm_compute; by left|].
  unfold ManifestDemo.run. destruct (runManifest _ _ _ _ _ _ _ _ _) as [[reply w'] bg]. destruct (List.find _ _) as [n|] eqn:E; vm_compute in E; [|discriminate E]. injection E as <-. destruct H as [H _]. exact H.
Defined.


Lemma report_honest_witness : ManifestDemo.second_run.2 = [].
Proof.
  destruct (@report_honest ManifestDemo.outside (ManifestDemo.parse_as ManifestDemo.shop) (fun d => d) ManifestDemo.req (Some ManifestDemo.admin) true ManifestDemo.pool [] 100 ManifestDemo.world1 _ _ _ ManifestDemo.second_reported)
    as (m & _ & _ & _ & H). apply H; by vm_compute.
Defined.

Lemma plan_foretells_apply_witness : exists v1 v2, rn_res (ManifestDemo.mesh_after false) = [v1] /\ rn_res (ManifestDemo.mesh_after true) = [v2] /\ (rv_verdict v2 = rv_verdict v1 \/ rv_verdict v2 = Blocked).
Proof.
  destruct (@plan_foretells_apply ManifestDemo.outside ManifestDemo.mesh_req ManifestDemo.mesh (start ManifestDemo.db0 [] 0) (ManifestDemo.mesh_after false) (ManifestDemo.mesh_after true)) as (v1 & v2 & H1 & H2 & _ & _ & H3);
    [done|by vm_compute|by vm_compute|]. exists v1, v2. split_and!; [exact H1|exact H2|exact H3].
Defined.
