(* ===== verification/CommandLine.v ===== *)
(** * The commands [daffa plan] and [daffa apply]

    Models [internal/cli/apply.go]: a document is read, parsed and validated, the
    values it takes from the environment are collected, the server is asked once,
    the stacks are deployed one after another, the exit code reads the report. The
    server is what it answers; a trace records what was asked of it. *)
From S2P Require Import Prelude GoStd Manifest Volumes Mirror Certs CertDeliveries VolSources Caps ProvStore Provision Reconcile ProvisionFacts ProvisionKeeps ProvisionPlans ProvisionHonest ProvisionCases ProvisionDemo.
Local Open Scope string_scope.
Local Open Scope list_scope.
Local Open Scope daffa_scope.

(** ** The values of a document *)

Definition from_env (r : option SecretRef) : list string := match r with Some r => if bool_decide (sr_ValueFromEnv r = "") then [] else [sr_ValueFromEnv r] | None => [] end.
Definition named (v : string) : list string := if bool_decide (v = "") then [] else [v].
Definition value_names (m : Manifest.Manifest) : list string :=
  flat_map (fun r => from_env (rg_Password r)) (m_Registries m) ++ flat_map (fun g => from_env (gc_Token g)) (m_GitCredentials m) ++ flat_map (fun w => from_env (wh_Secret w)) (m_Webhooks m) ++
  flat_map (fun st => flat_map (fun e => named (ev_ValueFromEnv e)) (st_Env st) ++ flat_map (fun f => named (sf_ValueFromEnv f)) (st_SecretFiles st)) (m_Stacks m).
(** Of equal neighbours one stays. *)
Fixpoint dedupe (l : list string) : list string :=
  match l with
  | x :: l' => match l' with y :: _ => if bool_decide (x = y) then dedupe l' else x :: dedupe l' | [] => [x] end
  | [] => []
  end.
Definition resolve_name (env : string -> option string) (acc : gmap string string * list string) (n : string) : gmap string string * list string :=
  match acc.1 !! n with
  | Some _ => acc
  | None => match env n with Some v => (<[n := v]> acc.1, acc.2) | None => (acc.1, acc.2 ++ [n]) end
  end.
Definition resolveValues (env : string -> option string) (m : Manifest.Manifest) : gmap string string * list string :=
  let '(values, missing) := fold_left (resolve_name env) (value_names m) (∅, []) in (values, dedupe (ssort String.ltb missing)).

(** ** The report *)

(** A slot is matched by its cluster when it carries one. *)
Definition unfilledForStack (rep : Report) (name cl : string) : list UnfilledView :=
  List.filter (fun u => bool_decide (uf_stack u = name) && (bool_decide (uf_cluster u = "") || bool_decide (uf_cluster u = cl))) (rp_unfilled rep).
Definition stack_views (rep : Report) (name : string) : list ResView :=
  List.filter (fun r => bool_decide (rv_kind r = KindStack) && bool_decide (rv_name r = name) && negb (bool_decide (rv_id r = ""))) (rp_res rep).
(** The first on the cluster, else the first anywhere. *)
Definition stackID (rep : Report) (name cl : string) : string :=
  match List.find (fun r => bool_decide (rv_cluster r = cl)) (stack_views rep name) with
  | Some r => rv_id r
  | None => match stack_views rep name with r :: _ => rv_id r | [] => "" end
  end.
Inductive Verb := VPlan | VApply.
Definition reportExit (verb : Verb) (s : Summary) : nat :=
  match verb with
  | VPlan => if (0 <? sm_create s + sm_update s + sm_drifted s + sm_blocked s + sm_unfilled s)%nat then 2 else 0
  | VApply => if (0 <? sm_drifted s + sm_blocked s)%nat then 2 else 0
  end%nat.

(** ** Talking to the server *)

Inductive Asked := AskedRun (verb : Verb) (doc : string) (values : gmap string string) | AskedUp (stack : string) | AskedStatus (deployment : string).
(** What it answers: to a run a report, to a deploy the id of the deployment, to
    the n-th question for a deployment its status. [None]: an error. *)
Record Answers := mkAnswers { an_run : Verb -> string -> gmap string string -> option Report; an_up : string -> option string; an_status : string -> nat -> option string }.
Inductive CliErr := ServerRequired | FileRequired | Unreadable | Unparsable (e : ParseErr) | Invalid (l : list Problem) | Unset (names : list string) | NotConnected | RunRefused
| HasUnfilled (stack : string) (slots : list string) | NoStackID (stack : string) | UpRefused | StatusUnknown | Interrupted | DeploymentEnded (status : string).
Section Deploys.
Context (srv : Answers).
(** [patience]: the polls until the context is done. *)
Fixpoint poll (d : string) (i patience : nat) : list Asked * option CliErr :=
  match patience with
  | O => ([], Some Interrupted)
  | S p =>
      match an_status srv d i with
      | None => ([AskedStatus d], Some StatusUnknown)
      | Some st => if bool_decide (st = "running") then let '(t, e) := poll d (S i) p in (AskedStatus d :: t, e)
                   else if bool_decide (st = "ok") then ([AskedStatus d], None) else ([AskedStatus d], Some (DeploymentEnded st))
      end
  end.
Definition deployStack (patience : nat) (id : string) : list Asked * option CliErr :=
  match an_up srv id with None => ([AskedUp id], Some UpRefused) | Some d => let '(t, e) := poll d 0 patience in (AskedUp id :: t, e) end.
Definition cluster_of (m : Manifest.Manifest) (st : Manifest.Stack) : string := if bool_decide (st_Cluster st = "") then m_Cluster m else st_Cluster st.
Fixpoint deploy_each (m : Manifest.Manifest) (rep : Report) (patience : nat) (l : list Manifest.Stack) : list Asked * option CliErr :=
  match l with
  | [] => ([], None)
  | st :: l =>
      let cl := cluster_of m st in
      match unfilledForStack rep (st_Name st) cl with
      | (_ :: _) as slots => ([], Some (HasUnfilled (st_Name st) (map uf_name slots)))
      | [] =>
          let id := stackID rep (st_Name st) cl in
          if bool_decide (id = "") then ([], Some (NoStackID (st_Name st)))
          else match deployStack patience id with
               | (t, Some e) => (t, Some e)
               | (t, None) => let '(t', e) := deploy_each m rep patience l in (t ++ t', e)
               end
      end
  end.
Definition deployWalk (m : Manifest.Manifest) (rep : Report) (patience : nat) : list Asked * option CliErr := deploy_each m rep patience (m_Stacks m).
End Deploys.

Record Options := mkOptions { op_verb : Verb; op_server : string; op_file : string; op_deploy : bool }.
Section Command.
Context (parse : string -> res ParseErr Manifest.Manifest) (ParseIP : string -> option string) (url_parse : string -> option (string * string)).
Context (read_file : string -> option string) (env : string -> option string) (connects : bool) (srv : Answers) (patience : nat).
(** [Manifest]: what was asked, the exit code, the error. *)
Definition Command (o : Options) : list Asked * (nat * option CliErr) :=
  let fails e := ([], (1%nat, Some e)) in
  if bool_decide (op_server o = "") then fails ServerRequired
  else if bool_decide (op_file o = "") then fails FileRequired
  else match read_file (op_file o) with
  | None => fails Unreadable
  | Some doc =>
  match parse doc with
  | Err e => fails (Unparsable e)
  | Ok m =>
  match Validate ParseIP url_parse m with
  | (_ :: _) as l => fails (Invalid l)
  | [] =>
  match resolveValues env m with
  | (_, (_ :: _) as missing) => fails (Unset missing)
  | (values, []) =>
  if negb connects then fails NotConnected
  else match an_run srv (op_verb o) doc values with
  | None => ([AskedRun (op_verb o) doc values], (1%nat, Some RunRefused))
  | Some rep =>
      let done_ := (reportExit (op_verb o) (rp_summary rep), None) in
      match op_verb o with
      | VPlan => ([AskedRun VPlan doc values], done_)
      | VApply => if op_deploy o then let '(t, e) := deployWalk srv m rep patience in (AskedRun VApply doc values :: t, match e with Some e => (1%nat, Some e) | None => done_ end)
                  else ([AskedRun VApply doc values], done_)
      end
  end end end end end.
End Command.

(** ** Values *)

Lemma resolve_fold env l vals miss : (forall n v, vals !! n = Some v -> env n = Some v) ->
  let r := fold_left (resolve_name env) l (vals, miss) in
  (forall n, r.1 !! n = if bool_decide (n ∈ l) then env n else vals !! n) /\ r.2 = miss ++ List.filter (fun n => bool_decide (env n = None)) l.
Proof.
  revert vals miss. induction l as [|x l IH]; intros vals miss Ha; cbn [fold_left]; [split; [done|by rewrite app_nil_r]|].
  assert (exists vals' miss', resolve_name env (vals, miss) x = (vals', miss') /\ (forall n v, vals' !! n = Some v -> env n = Some v) /\
    (forall n, vals' !! n = if bool_decide (n = x) then env n else vals !! n) /\ miss' = miss ++ (if bool_decide (env x = None) then [x] else [])) as (vals' & miss' & -> & Ha' & Hv & ->).
  { unfold resolve_name. cbn. destruct (vals !! x) as [v|] eqn:E.
    - exists vals, miss. apply Ha in E as Ex. split_and!; [done|done| |by rewrite Ex, app_nil_r]. intros n. case_bool_decide as Hn; [subst; congruence|done].
    - destruct (env x) as [v|] eqn:Ex.
      + exists (<[x := v]> vals), miss. split_and!; [done| | |by rewrite app_nil_r]; intros n; [intros w; destruct (decide (n = x)) as [->|Hn]; [rewrite lookup_insert_eq; congruence|rewrite lookup_insert_ne by done; apply Ha]|].
        case_bool_decide as Hn; [subst; by rewrite lookup_insert_eq|by rewrite lookup_insert_ne].
      + exists vals, (miss ++ [x]). split_and!; [done|done| |done]. intros n. case_bool_decide as Hn; [subst; congruence|done]. }
  destruct (IH vals' (miss ++ (if bool_decide (env x = None) then [x] else [])) Ha') as [H1 H2]. split.
  - intros n. rewrite H1, Hv. destruct (decide (n ∈ l)) as [Hl|Hl]; [rewrite (bool_decide_eq_true_2 (n ∈ l) Hl), (bool_decide_eq_true_2 (n ∈ x :: l)); [done|by right]|].
    rewrite (bool_decide_eq_false_2 (n ∈ l) Hl). destruct (decide (n = x)) as [->|Hx]; [rewrite (bool_decide_eq_true_2 (x = x)), (bool_decide_eq_true_2 (x ∈ x :: l)); [done|by left|done]|].
    rewrite (bool_decide_eq_false_2 (n = x) Hx), (bool_decide_eq_false_2 (n ∈ x :: l)); [done|]. by intros [?|?]%elem_of_cons.
  - rewrite H2. cbn. destruct (bool_decide (env x = None)); by rewrite <- app_assoc.
Qed.

Definition before (x y : string) : Prop := String.ltb x y = true.
Lemma dedupe_cons_cons x y l : dedupe (x :: y :: l) = if bool_decide (x = y) then dedupe (y :: l) else x :: dedupe (y :: l).
Proof. done. Qed.
Lemma dedupe_elem l n : n ∈ dedupe l <-> n ∈ l.
Proof.
  induction l as [|x l IH]; [done|]. destruct l as [|y l]; [done|]. rewrite dedupe_cons_cons. rewrite elem_of_cons in IH. case_bool_decide as E; [subst|]; rewrite !elem_of_cons; tauto.
Qed.
Lemma dedupe_sorted l : StronglySorted (sle String.ltb) l -> StronglySorted before (dedupe l).
Proof.
  induction 1 as [|x l Hl IH Hx]; [constructor|]. destruct l as [|y l]; [repeat constructor|]. rewrite dedupe_cons_cons. case_bool_decide as E; [done|].
  constructor; [done|]. apply Forall_forall. intros z Hz. rewrite dedupe_elem in Hz. apply Forall_cons in Hx as [Hxy Hx]. unfold before, sle in *.
  assert (String.ltb x y = true) as Hlt by (destruct (String.ltb x y) eqn:Ey; [done|]; exfalso; by apply E, str_ltb_total).
  apply elem_of_cons in Hz as [->|Hz]; [done|]. apply StronglySorted_inv in Hl as [_ Hy]. rewrite Forall_forall in Hy. specialize (Hy z Hz). cbn in Hy.
  destruct (String.ltb x z) eqn:Ez; [done|]. exfalso. assert (String.ltb x y = false) by (eapply str_ltb_neg_trans; [exact Ez|exact Hy]). congruence.
Qed.
Lemma resolveValues_spec env m :
  (forall n, (resolveValues env m).1 !! n = if bool_decide (n ∈ value_names m) then env n else None) /\
  StronglySorted before (resolveValues env m).2 /\ forall n, n ∈ (resolveValues env m).2 <-> n ∈ value_names m /\ env n = None.
Proof.
  unfold resolveValues. destruct (resolve_fold env (value_names m) ∅ []) as [H1 H2]; [intros n v Hn; by rewrite lookup_empty in Hn|].
  destruct (fold_left _ _ _) as [vals miss]. cbn in *. subst miss. split_and!.
  - intros n. rewrite H1. by rewrite lookup_empty.
  - apply dedupe_sorted, ssort_sorted; [apply str_ltb_asym|apply str_ltb_neg_trans].
  - intros n. rewrite dedupe_elem, elem_of_ssort, list_elem_of_In, filter_In, <- list_elem_of_In, bool_decide_eq_true. done.
Qed.

Section Facts.
Context (parse : string -> res ParseErr Manifest.Manifest) (ParseIP : string -> option string) (url_parse : string -> option (string * string)).
Context (read_file : string -> option string) (env : string -> option string) (connects : bool) (srv : Answers) (patience : nat).
#[local] Abbreviation Command := (Command parse ParseIP url_parse read_file env connects srv patience).

(** For a document that is read and valid, when a variable it takes a value from
    is not set nothing is asked of the server and the error names exactly those
    variables, each once and in order; otherwise what is asked first carries the
    document as it was read and, of the environment, exactly the variables the
    document names. *)
Theorem values_from_environment o doc m : op_server o <> "" -> op_file o <> "" -> read_file (op_file o) = Some doc -> parse doc = Ok m -> Validate ParseIP url_parse m = [] -> connects = true ->
  ((exists n, n ∈ value_names m /\ env n = None) /\ exists l, Command o = ([], (1%nat, Some (Unset l))) /\ StronglySorted before l /\ forall n, n ∈ l <-> n ∈ value_names m /\ env n = None) \/
  ((forall n, n ∈ value_names m -> is_Some (env n)) /\ exists values rest out, Command o = (AskedRun (op_verb o) doc values :: rest, out) /\
    forall n, values !! n = if bool_decide (n ∈ value_names m) then env n else None).
Proof.
  intros Hs Hf Hr Hp Hv Hc. unfold CommandLine.Command. rewrite (bool_decide_eq_false_2 _ Hs), (bool_decide_eq_false_2 _ Hf), Hr, Hp, Hv, Hc. destruct (resolveValues_spec env m) as (H1 & H2 & H3).
  destruct (resolveValues env m) as [values missing]. cbn [fst snd] in *. destruct missing as [|x missing].
  - right. split; [intros n Hn; destruct (env n) eqn:E; [by eexists|]; exfalso; assert (n ∈ []) as Hnil by (by apply H3); by apply elem_of_nil in Hnil|]. exists values. cbn [negb].
    destruct (an_run srv _ _ _) as [rep|]; [|by eexists _, _]. destruct (op_verb o); [by eexists _, _|]. destruct (op_deploy o); [|by eexists _, _]. destruct (deployWalk _ _ _ _) as [t e]. by eexists _, _.
  - left. split; [exists x; apply H3; by left|]. by exists (x :: missing).
Qed.

(** ** Deploys *)

Definition started (t : list Asked) : list string := omap (fun a => match a with AskedUp id => Some id | _ => None end) t.
(** The deployment answers "running" until it answers "ok". *)
Definition came_up (id : string) : Prop := exists d n, an_up srv id = Some d /\ (n < patience)%nat /\ an_status srv d n = Some "ok" /\ forall i, (i < n)%nat -> an_status srv d i = Some "running".
Lemma poll_spec d i p : started (poll srv d i p).1 = [] /\
  ((poll srv d i p).2 = None <-> exists n, (n < p)%nat /\ an_status srv d (i + n) = Some "ok" /\ forall j, (j < n)%nat -> an_status srv d (i + j) = Some "running").
Proof.
  revert i. induction p as [|p IH]; intros i; cbn [poll]; [split; [done|]; split; [done|]; intros (n & ? & _); lia|].
  assert (forall e st, an_status srv d i = st -> st <> Some "ok" -> st <> Some "running" -> Some e = @None CliErr <->
    exists n, (n < S p)%nat /\ an_status srv d (i + n) = Some "ok" /\ forall j, (j < n)%nat -> an_status srv d (i + j) = Some "running") as Hbad.
  { intros e st Hst H1 H2. split; [done|]. intros ([|n] & Hn & Hok & Hrun); [rewrite Nat.add_0_r in Hok; congruence|]. specialize (Hrun 0%nat ltac:(lia)). rewrite Nat.add_0_r in Hrun. congruence. }
  destruct (an_status srv d i) as [st|] eqn:Est; [|split; [done|]; by apply (Hbad StatusUnknown None)]. destruct (decide (st = "running")) as [->|Hr].
  - rewrite bool_decide_eq_true_2 by done. destruct (IH (S i)) as [I1 I2]. destruct (poll srv d (S i) p) as [t e]. cbn in *. split; [done|]. rewrite I2. split.
    + intros (n & Hn & Hok & Hrun). exists (S n). split_and!; [lia|by rewrite Nat.add_succ_r|]. intros [|j] Hj; [by rewrite Nat.add_0_r|]. rewrite Nat.add_succ_r. apply Hrun. lia.
    + intros ([|n] & Hn & Hok & Hrun); [rewrite Nat.add_0_r in Hok; congruence|]. exists n. split_and!; [lia|by rewrite <- Nat.add_succ_r|]. intros j Hj. rewrite <- Nat.add_succ_r. apply Hrun. lia.
  - rewrite (bool_decide_eq_false_2 _ Hr). destruct (decide (st = "ok")) as [->|Ho].
    + rewrite bool_decide_eq_true_2 by done. split; [done|]. split; [|done]. intros _. exists 0%nat. split_and!; [lia|by rewrite Nat.add_0_r|lia].
    + rewrite (bool_decide_eq_false_2 _ Ho). split; [done|]. apply (Hbad (DeploymentEnded st) (Some st)); congruence.
Qed.
Lemma deployStack_spec id : started (deployStack srv patience id).1 = [id] /\ ((deployStack srv patience id).2 = None <-> came_up id).
Proof.
  unfold deployStack, came_up. destruct (an_up srv id) as [d|]; [|split; [done|]; split; [done|]; by intros (? & ? & ? & _)].
  destruct (poll_spec d 0 patience) as [P1 P2]. destruct (poll srv d 0 patience) as [t e]. cbn in *. split; [by rewrite P1|]. rewrite P2. split; [intros (n & H); exists d, n; tauto|]. intros (d' & n & [= <-] & H). by exists n.
Qed.

Section Walks.
Context (m : Manifest.Manifest) (rep : Report).
Definition deploy_id (st : Manifest.Stack) : string := stackID rep (st_Name st) (cluster_of m st).
(** No slot to fill, and an id. *)
Definition deployable (st : Manifest.Stack) : Prop := unfilledForStack rep (st_Name st) (cluster_of m st) = [] /\ deploy_id st <> "".
Lemma deploy_each_spec l : let '(t, e) := deploy_each srv m rep patience l in
  exists k, (k <= length l)%nat /\ started t = map deploy_id (take k l) /\ Forall deployable (take k l) /\ Forall (fun st => came_up (deploy_id st)) (take (k - 1) l) /\
    (e = None <-> k = length l /\ Forall (fun st => came_up (deploy_id st)) l).
Proof.
  induction l as [|st l IH]; cbn [deploy_each]; [by exists 0%nat|].
  assert (forall e, ~ deployable st -> exists k, (k <= length (st :: l))%nat /\ started [] = map deploy_id (take k (st :: l)) /\ Forall deployable (take k (st :: l)) /\
    Forall (fun st => came_up (deploy_id st)) (take (k - 1) (st :: l)) /\ (Some e = @None CliErr <-> k = length (st :: l) /\ Forall (fun st => came_up (deploy_id st)) (st :: l))) as Hno.
  { intros e Hd. exists 0%nat. cbn. split_and!; [lia|done|constructor|constructor|]. split; [done|]. by intros [? _]. }
  unfold deployable, deploy_id in Hno |- *. destruct (unfilledForStack _ _ _) as [|u slots] eqn:Eu; [|apply Hno; by intros [? _]]. case_bool_decide as Eid; [apply Hno; by intros [_ ?]|]. clear Hno.
  destruct (deployStack_spec (stackID rep (st_Name st) (cluster_of m st))) as [D1 D2]. destruct (deployStack _ _ _) as [t [e|]]; cbn [fst snd] in *.
  - exists 1%nat. cbn. split_and!; [lia|by rewrite D1|by repeat constructor|constructor|]. split; [done|]. intros [_ [Hup _]%Forall_cons]. by apply D2 in Hup.
  - destruct (deploy_each srv m rep patience l) as [t' e']. destruct IH as (k & K1 & K2 & K3 & K4 & K5). exists (S k). cbn [length take map]. assert (came_up (stackID rep (st_Name st) (cluster_of m st))) as Hup by (by apply D2).
    split_and!; [lia| |by constructor| |].
    + unfold started in *. rewrite omap_app, D1, K2. done.
    + replace (S k - 1)%nat with k by lia. destruct k as [|k]; [constructor|]. replace (S k - 1)%nat with k in K4 by lia. cbn. by constructor.
    + rewrite K5. split; [intros [-> H]; split; [done|by constructor]|]. intros [H1 [_ H2]%Forall_cons]. split; [by injection H1|done].
Qed.
End Walks.

(** The deploys are those of the first stacks of the document, in its order, each
    started only after the one before it came up, and none of a stack with slots to
    fill or without an id; the command succeeds exactly when all of them came up. *)
Theorem deploys_in_order m rep : let '(t, e) := deployWalk srv m rep patience in
  exists k, (k <= length (m_Stacks m))%nat /\ started t = map (deploy_id m rep) (take k (m_Stacks m)) /\ Forall (deployable m rep) (take k (m_Stacks m)) /\
    Forall (fun st => came_up (deploy_id m rep st)) (take (k - 1) (m_Stacks m)) /\ (e = None <-> k = length (m_Stacks m) /\ Forall (fun st => came_up (deploy_id m rep st)) (m_Stacks m)).
Proof. apply deploy_each_spec. Qed.
End Facts.

(** ** Exit codes *)

Definition settled (verb : Verb) (v : Provision.Verdict) : bool :=
  match verb, v with VPlan, InSync => true | VPlan, _ => false | VApply, (Drifted | Blocked) => false | VApply, _ => true end.
Lemma exit_tally verb l : Forall (fun v => v <> Unfilled) l -> reportExit verb (tally l) = 0%nat <-> Forall (fun v => settled verb v = true) l.
Proof.
  intros Hu. unfold reportExit, tally. cbn [sm_create sm_update sm_drifted sm_blocked sm_unfilled]. set (n := fun v => length (List.filter (same_verdict v) l)).
  assert (Forall (fun v => settled verb v = true) l <-> match verb with VPlan => (n Create + n Update + n Drifted + n Blocked + n Unfilled = 0)%nat | VApply => (n Drifted + n Blocked = 0)%nat end) as ->.
  { subst n. cbv beta. induction Hu as [|v l Hv _ IH]; [destruct verb; cbn; split; [done|constructor|done|constructor]|]. rewrite Forall_cons, IH. destruct verb, v; cbn; try done; lia. }
  fold (n Create) (n Update) (n Drifted) (n Blocked) (n Unfilled). destruct verb; match goal with |- context [(0 <? ?x)%nat] => destruct (Nat.ltb_spec 0 x) end; lia.
Qed.

(** What a summary may count for the exit code to be 0. *)
Definition clean_counts (verb : Verb) (c : Summary) : Prop :=
  sm_drifted c = 0%nat /\ sm_blocked c = 0%nat /\ (verb = VPlan -> sm_create c = 0%nat /\ sm_update c = 0%nat /\ sm_unfilled c = 0%nat).
Lemma exit_clean verb c : reportExit verb c = 0%nat <-> clean_counts verb c.
Proof. unfold reportExit, clean_counts. destruct verb; match goal with |- context [(0 <? ?x)%nat] => destruct (Nat.ltb_spec 0 x) end; (split; [intros H'; first [done|split; [lia|split; [lia|intros ?; first [done|lia]]]]|intros (H1 & H2 & H3); try (specialize (H3 eq_refl)); lia]). Qed.


(** ** A stack with a slot, and a name on two clusters *)

Module CommandDemo.
Import ManifestDemo.
#[local] Existing Instance outside.
Definition slot : EnvVar := {| ev_Key := "TOKEN"; ev_Value := ""; ev_Secret := true; ev_ValueFromEnv := ""; ev_FromGenerated := "" |}.
Definition stack (cl : string) (env : list EnvVar) : Manifest.Stack :=
  {| st_Name := "api"; st_Cluster := cl; st_Engine := "swarm"; st_Source := {| ss_Git := None; ss_Compose := "services: {}" |}; st_WatchPaths := []; st_AutoDeploy := false; st_Webhook := "";
     st_Env := env; st_SecretFiles := [] |}.
Definition only_stacks (l : list Manifest.Stack) : Manifest.Manifest :=
  {| m_Version := 1; m_Name := "api"; m_Cluster := "prod"; m_SSHKeys := []; m_Registries := []; m_GitCredentials := []; m_Networks := []; m_CAs := []; m_Certificates := []; m_Keyrings := [];
     m_CertDeliveries := []; m_KeyringDeliveries := []; m_GeneratedSecrets := []; m_Webhooks := []; m_Stacks := l; m_VolumeSources := [] |}.
Definition server (m : Manifest.Manifest) (w : MWorld) : Answers := mkAnswers
  (fun verb doc values => match (runManifest (parse_as m) (fun d => d) (mkMR doc values) (Some admin) (match verb with VApply => true | VPlan => false end) pool [] 0 w).1.1 with Reported rep => Some rep | _ => None end)
  (fun id => Some ("deploy " +:+ id)) (fun _ n => Some (if (n <? 2)%nat then "running" else "ok")).
Definition command (m : Manifest.Manifest) (w : MWorld) (o : Options) := Command (parse_as m) ParseIP url_parse (fun _ => Some "doc") (fun _ => None) true (server m w) 10 o.
Definition plan : Options := mkOptions VPlan "https://daffa" "m.yaml" false.
Definition deploying : Options := mkOptions VApply "https://daffa" "m.yaml" true.

(** The stack is there and waits for a secret: the plan exits with 0. *)
Theorem slots_do_not_show : let m := only_stacks [stack "" [slot]] in let w := (run m admin true [] 0%nat world0).1.2 in
  (command m w plan).2 = (0%nat, None) /\ map (map uf_name) (option_list (option_map rp_unfilled (an_run (server m w) VPlan "doc" ∅))) = [["TOKEN"]] /\
  (command m w deploying).2 = (1%nat, Some (HasUnfilled "api" ["TOKEN"])).
Proof. vm_compute. repeat split. Qed.

(** The cluster of the first of two stacks with one name is not connected: the apply
    blocks it, and the walk deploys the other one in its place, twice. *)
Theorem twin_deployed : let m := only_stacks [stack "edge" []; stack "prod" []] in
  verdicts (run m admin true [] 0%nat world0).1.1 = [(KindStack, Blocked); (KindStack, Create)] /\ (command m world0 deploying).2 = (2%nat, None) /\ exists id, started (command m world0 deploying).1 = [id; id].
Proof. vm_compute. split; [done|]. split; [done|]. by eexists. Qed.
End CommandDemo.

Lemma values_from_environment_witness : exists values rest out,
  CommandDemo.command (CommandDemo.only_stacks [CommandDemo.stack "" [CommandDemo.slot]]) ManifestDemo.world0 CommandDemo.plan = (AskedRun VPlan "doc" values :: rest, out) /\ forall n, values !! n = None.
Proof.
  destruct (values_from_environment (ManifestDemo.parse_as (CommandDemo.only_stacks [CommandDemo.stack "" [CommandDemo.slot]])) (@ParseIP ManifestDemo.outside) (@url_parse ManifestDemo.outside) (fun _ => Some "doc") (fun _ => None)
    true (CommandDemo.server (CommandDemo.only_stacks [CommandDemo.stack "" [CommandDemo.slot]]) ManifestDemo.world0) 10 CommandDemo.plan "doc" (CommandDemo.only_stacks [CommandDemo.stack "" [CommandDemo.slot]]))
    as [[(n & Hn & _) _]|(_ & values & rest & out & E & H)]; [done|done|done|done|by vm_compute|done| |].
  - vm_compute in Hn. by apply elem_of_nil in Hn.
  - exists values, rest, out. split; [exact E|]. intros n. rewrite H. by case_bool_decide.
Defined.

